(* ===== verification/_CoqProject ===== *)
-Q . S2P
Prelude.v
Text.v
Net.v
WebSocket.v
Frame.v
Protocol.v
Crypto.v
MuxWire.v
MuxFlow.v
MuxInv.v
MuxCredit.v
Stream.v
Socks5.v
HttpConnect.v
Limits.v
DomainRoute.v
Reality.v
MuxPool.v
Users.v
UsersAdmin.v
UdpClient.v
UdpServer.v
Camouflage.v
Incoming.v
Metrics.v
Bridge.v
Hello.v
HelloProfiles.v
Policy.v
TlsConfig.v
Stealth.v
Invite.v
Pacing.v
ClientSlot.v
ClientConnect.v
UdpDriver.v
LocalClient.v
ClientOptions.v
BypassDomains.v
DesktopVpn.v
DesktopConfig.v
DesktopStart.v
ControlPlane.v
ProxyLists.v
ProxyWin.v
ProxyLinux.v
ProxyMac.v
MintInvite.v
ServerConn.v
Demo.v
ServerAuth.v
ServerOutcome.v
EndToEnd.v
