(* ===== verification/Prelude.v ===== *)
(** * BibaVPN: a verification of the tunnel, its server and its client

    BibaVPN carries TCP streams and UDP datagrams through a WebSocket inside TLS. A client
    ([bibavpn/src/local_client.rs], [bibavpn/src/bin/client.rs], the mobile libraries under
    [apps/]) listens for SOCKS5 and HTTP proxy connections; a server ([bibavpn/src/bin/server.rs])
    looks like an nginx site to anybody who cannot authenticate. A desktop application ([apps/bibavpn-desktop]) keeps profiles, runs the
    client and points the computer's proxy settings to it. The crate [biba] writes and reads
    the ClientHello messages of browsers. Paths below are relative to [src/], and a bare file name is one
    of [bibavpn/src].

    Rust functions are Rocq functions of the same name. A machine integer is a [Z] with its width
    written out ([is_u8], [is_u16], [sat_add] ...); bytes and texts are [list Z], texts being
    valid UTF-8 where the code has a [str]. [anyhow::Result] is [result], a panic is a third outcome
    ([Panic]), so that "never panics" is a statement. Stateful code is in the monad [ST] (state, then result), and code
    that runs in several tasks is a step relation over the state the tasks share, whose reachable
    states the theorems are about. Time, random draws, the file system, names that resolve and what
    the peer sends are arguments. Third-party code is a parameter: a record of operations with
    its documented laws ([Aead], [Blake3], [X25519], [Argon2], [Codecs], [Http] ...) or a function
    ([parse_users], [parse_request], [pem_certs] ...); the witnesses instantiate them.

    ** The files

    Shared:
    - [Prelude]: results, the [ST] monad, byte slices that panic out of range, big-endian integers, saturating
      arithmetic, codec classes, tactics and the hint databases.
    - [Text]: [str] operations (UTF-8, case, trimming, searching, decimal numbers). [Net]: addresses of
      [std::net], parsed, printed and classified. [WebSocket]: messages of an upgraded connection.
      [Stream]: a byte connection, its reads in chunks and its failing writes.

    Wire formats:
    - [Frame] ([frame.rs]): the padded frame. [Protocol] ([protocol.rs]): control messages, UDP records,
      SOCKS5 UDP headers. [Crypto] ([crypto_layer.rs]): session keys, HELLO and ACK, sealed packets and their
      nonce counter. [MuxWire] ([tcp_mux.rs]): records of the TCP mux, windows and targets.
    - [Hello] and [HelloProfiles] ([biba/src]): the ClientHello codec, the browser presets, the random
      specifications, the roller and the hints for rustls.

    The tunnel:
    - [MuxFlow] ([tcp_mux_flow.rs]): the flow of a stream and the endpoint that multiplexes streams: one
      transition per atomic section of each task. [MuxInv]: the invariant of the endpoint under
      any peer. [MuxCredit]: two honest ends and the records between them. [MuxPool] ([tcp_mux.rs]): the client's
      pool of sessions, which sees an endpoint through the class [Loadable].
    - [Bridge] ([ws_bridge.rs]): one TCP stream over one WebSocket, its tasks as steps.
    - [UdpClient], [UdpDriver], [UdpServer] ([udp_mux.rs]): the client session of the UDP relay, the driver that
      reconnects it, and the server's session with its socket pool, leases and workers.

    The server:
    - [Limits] ([server_limits.rs]): limits per source, budgets before authentication, counters.
      [Users] ([users.rs], [startup_secrets.rs]): the users file, session counts, the rules of tokens and PSK.
      [UsersAdmin] ([bin/users.rs]): concurrent administrators on one file system.
    - [Reality] ([reality.rs]): both ends of the REALITY exchange and the replay cache.
    - [Camouflage] ([camouflage.rs]) and [Incoming] ([incoming.rs]): the site a probe sees: head reader, upgrade test, static files,
      byte ranges, the proxy to an origin.
    - [Metrics] ([server_metrics.rs]): the metrics page and who gets it.
    - [ServerConn] ([bin/server.rs]): one connection from [accept] to the tunnel it gets, calling all of the above.
      [ServerAuth]: what must have been shown before a tunnel is served. [ServerOutcome]: how a connection ends.

    The client:
    - [Socks5] ([socks5.rs]), [HttpConnect] ([http_connect.rs]), [DomainRoute] ([domain_route.rs]): the two proxy
      handshakes, and which destinations bypass the tunnel.
    - [ClientConnect] ([local_client.rs], [udp_mux.rs]): establishing a connection. [LocalClient]
      ([local_client.rs]): routing, the bypass relay, UDP associations, retries, tasks.
      [Pacing] ([retry.rs], [accept.rs], [log_ratelimit.rs], [activity.rs]): delays and counters.
    - [Policy] ([stealth_v12.rs], [client_policy.rs], names of [tls_util.rs]), [TlsConfig] ([tls_util.rs]), [Stealth]
      ([stealth.rs]): presets, whom TLS trusts, the upgrade request dressed as a browser's.
    - [Invite] ([invite_uri.rs]), [ClientOptions] ([start_json_config.rs], [bin/client.rs], [logging.rs]), [MintInvite]
      ([bin/mint_invite.rs]): invites, and the settings from JSON, command line and invite.
    - [ClientSlot] ([apps/bibavpn-jni], [apps/bibavpn-ffi]): starting and stopping the embedded client from many threads.

    The desktop application ([apps/bibavpn-desktop/src-tauri/src]):
    - [DesktopVpn] ([lib.rs]): connect, disconnect and the recovery watchdog as threads over the state they share.
    - [DesktopConfig] ([config.rs], the save command of [lib.rs]): the configuration read, repaired, shown without its secrets, merged and saved.
      [DesktopStart] ([config.rs]): from a profile to the client's settings.
    - [BypassDomains] ([bypass_domains.rs], [split_tunnel.rs]): the lists of domains and packages that go around the tunnel, their cache
      and where they come from. [ControlPlane] ([control_plane_client.rs], [lib.rs]): import links and whom they may reach.
    - [ProxyWin] ([proxy_win.rs]), [ProxyLinux] ([proxy_linux.rs]), [ProxyMac] ([proxy_mac.rs]): the system's proxy settings (a registry key; GSettings and the
      session's variables; the network services of [networksetup]), read, changed, undone and put back by calls of which any may fail. [ProxyLists]:
      the lists of exceptions they share. A run of [networksetup] that fails is taken to change nothing.

    Together:
    - [Demo]: concrete settings on toy ciphers that satisfy the laws. [EndToEnd]: the client of
      [ClientConnect] against the server of [ServerConn], message by message.

    ** What the theorems show

    - Authentication: [tunnel_authenticated], [reality_server_sound], [reality_handshake_completes], [nonces_unique], [session_roundtrip].
    - The tunnel carries data: [credit_conserved], [credit_returns] (lemma [bridge_down_refines]: the tasks of [MuxFlow] perform the
      turns of this protocol), [tunnel_carries_stream], [udp_request_relayed], [udp_reply_delivered], [udp_waiters_answered_once].
    - Client and server agree: [muxes_connect], [open_status_reaches_client], [client_upgrade_accepted].
    - Bounds and safety under any peer: [endpoint_bounds], [endpoint_never_panics], [reset_is_final], [connection_outcome], [http_handshake_total].
    - The camouflage: [upgrade_exact], [complete_request_answered], [forwarded_requests_clean], [static_files_confined],
      [byte_ranges_served], [metrics_guarded].
    - The local side: [local_connect_routed], [direct_only_with_cause], [socks_udp_owner_only], [udp_driver_persists], [one_client].
    - Settings: [options_wellformed], [front_ends_agree], [invite_roundtrip], [minted_invite_starts], [tls_config_trust],
      [registry_updates_serialized] (for administrators who may look at the users file; one who may not is [unseen_file_lost]).
    - The desktop application: [calls_settle], [disconnect_is_final], [settings_come_back], [shown_config_saved], [imported_profile_starts],
      [imports_stay_trusted], [bypass_lists_clean].
    - The system's proxy settings: [windows_settings_come_back], [linux_settings_come_back], [mac_settings_come_back], and on an error
      [windows_applied_or_undone], [linux_applied_or_undone].
    - ClientHello: [hello_roundtrip], [every_profile_sent].
    Round trips of single messages, totality of decoders, and the lemmas that name defects of the code
    are in the file of their component.

    ** Fuel

    Recursion that is not structural takes fuel, and the caller gives enough; running out is never a result a theorem silently accepts.
    Loops over a buffer ([Hello], [DomainRoute.sni_extensions], [Text], [Stream.read_until]) get its length plus one and
    take at least a byte each turn ([sni_extensions_safe] and its like). [DomainRoute.name_loop] has a measure (labels and jumps left).
    [HttpConnect.header_lines] gets one turn per byte of the code's own budget, since a line takes a byte ([http_handshake_total]);
    [Incoming.read_head_loop] one per byte of the input, since a read takes one. A decimal number of a [u64] has at most 20 digits, a hexadecimal one 16.
    [HelloProfiles.remove_loop] gets one turn per suite; [ClientSlot.prepare_loop] two, since a turn that goes on empties the slot.
    Loops driven by the peer are structural in the list of messages or events received.

    ** Not modelled

    TLS itself, the sockets and DNS, whose outcomes are inputs; timers (jitter, pings, reclaim ticks happen or not, a timeout
    expires when the peer is silent); memory orderings beyond the atomic sections named; logging. Of [local_client.rs]
    the start-up and the listeners, of [bin/server.rs] the arguments, TLS files and listeners. Left out as pure I/O, constants or glue:
    [decoy_traffic.rs], [desync.rs], [tls_boring.rs], [client_tls_stream.rs], [outbound_protect.rs],
    [transport_capabilities.rs], [ws_auth.rs], the signature delegates of [tls_util.rs], and of the desktop application the Tauri commands other than
    connect, disconnect, import and save, the tray, snapshots, the mobile branches with their proxy stubs, its user interface and the Kotlin and Swift hosts.
    [MuxFlow.send] takes its permit and its place in the queue in one step, and a send on a WebSocket succeeds or fails at once
    ([Reality.ws_send]): how long the peer lets it wait only enters through the timeouts. *)
From stdpp Require Export prelude numbers list strings gmap.
From Stdlib Require Export ZArith Lia.

#[global] Open Scope Z_scope.
Export List.ListNotations.

(** ** Results: [anyhow::Result], typed errors, and panics *)

(** [Ok]/[Err] are Rust's [Result]; [Panic] is an index or slice out of range,
    which Rust turns into an unwinding panic. *)
Inductive res (E A : Type) : Type :=
| Ok (a : A)
| Err (e : E)
| Panic.
Arguments Ok {E A} _.
Arguments Err {E A} _.
Arguments Panic {E A}.

#[export] Instance res_ret E : MRet (res E) := fun _ a => Ok a.
#[export] Instance res_bind E : MBind (res E) := fun _ _ k m =>
  match m with Ok a => k a | Err e => Err e | Panic => Panic end.
#[export] Instance res_fmap E : FMap (res E) := fun _ _ f m =>
  match m with Ok a => Ok (f a) | Err e => Err e | Panic => Panic end.
#[export] Instance res_eq_dec E A `{EqDecision E, EqDecision A} :
  EqDecision (res E A).
Proof. solve_decision. Defined.

(** Messages of [anyhow::bail!] and [.context(..)]. *)
Abbreviation err := string.
Abbreviation result := (res err).
Abbreviation bail s := (Err s%string) (only parsing).

(** [Option::context] and [Result::map_err]. *)
Definition context {E A} (e : E) (o : option A) : res E A :=
  match o with Some a => Ok a | None => Err e end.
Definition map_err {E F A} (f : E -> F) (r : res E A) : res F A :=
  match r with Ok a => Ok a | Err e => Err (f e) | Panic => Panic end.
(** [Result::ok]; a panic is not a value, it stays outside. *)
Definition is_ok {E A} (r : res E A) : bool :=
  match r with Ok _ => true | _ => false end.

(** [if let Ok(x) = r] and [r.ok()]: an error becomes [None]. *)
Definition attempt {E F A} (r : res E A) : res F (option A) :=
  match r with Ok a => Ok (Some a) | Err _ => Ok None | Panic => Panic end.

(** Handlers that change state and may fail: the state changes stand when they fail. *)
Definition ST (S E A : Type) : Type := S -> S * res E A.
#[export] Instance st_ret S E : MRet (ST S E) := fun _ a s => (s, Ok a).
#[export] Instance st_bind S E : MBind (ST S E) := fun _ _ k m s =>
  match m s with
  | (s, Ok a) => k a s
  | (s, Err e) => (s, Err e)
  | (s, Panic) => (s, Panic)
  end.
Definition gets {S E A} (f : S -> A) : ST S E A := fun s => (s, Ok (f s)).
Definition modify {S E} (f : S -> S) : ST S E unit := fun s => (f s, Ok tt).
Definition throw {S E A} (e : E) : ST S E A := fun s => (s, Err e).
Definition lift {S E A} (r : res E A) : ST S E A := fun s => (s, r).

(** A computation is [safe] when it does not panic. *)
Definition safe {E A} (r : res E A) : Prop := r <> Panic.

(** ** Machine integers: [Z] with their ranges written out *)

Abbreviation bytes := (list Z).

Definition U8_MAX : Z := 255.
Definition U16_MAX : Z := 65535.
Definition U32_MAX : Z := 4294967295.
Definition U64_MAX : Z := 18446744073709551615.
(** [usize] of the 64-bit targets. *)
Definition USIZE_MAX : Z := U64_MAX.

Definition is_u8 (x : Z) : Prop := 0 <= x < 256.
Definition is_u16 (x : Z) : Prop := 0 <= x < 65536.
Definition is_u32 (x : Z) : Prop := 0 <= x < 4294967296.
Definition is_u64 (x : Z) : Prop := 0 <= x < 18446744073709551616.
Definition u8s (b : bytes) : Prop := Forall is_u8 b.

(** [saturating_add], [saturating_sub], [saturating_mul] on the type of maximum [m]. *)
Definition sat_add (m a b : Z) : Z := Z.min m (a + b).
Definition sat_sub (a b : Z) : Z := Z.max 0 (a - b).
Definition sat_mul (m a b : Z) : Z := Z.min m (a * b).
(** [x as u8], [x as u16], [x as u32]. *)
Definition as_u8 (x : Z) : Z := x mod 256.
Definition as_u16 (x : Z) : Z := x mod 65536.
Definition as_u32 (x : Z) : Z := x mod 4294967296.
(** [Ord::clamp]. *)
Definition clamp (lo hi x : Z) : Z := if decide (x < lo) then lo else if decide (hi < x) then hi else x.

(** ** Slices *)

Definition len {A} (b : list A) : Z := Z.of_nat (length b).

(** [data[i]], [&data[i..j]], [&data[i..]]: panic out of range. *)
Definition ix {E A} (b : list A) (i : Z) : res E A :=
  if decide (0 <= i) then
    match b !! Z.to_nat i with Some x => Ok x | None => Panic end
  else Panic.
Definition sub {A} (b : list A) (i j : Z) : list A :=
  take (Z.to_nat (j - i)) (drop (Z.to_nat i) b).
Definition slice {E A} (b : list A) (i j : Z) : res E (list A) :=
  if decide (0 <= i <= j /\ j <= len b) then Ok (sub b i j) else Panic.
Definition slice_from {E A} (b : list A) (i : Z) : res E (list A) := slice b i (len b).
(** [data.get(i)], [data.get(i..j)]: [None] out of range. *)
Definition get {A} (b : list A) (i : Z) : option A :=
  if decide (0 <= i) then b !! Z.to_nat i else None.
Definition get_range {A} (b : list A) (i j : Z) : option (list A) :=
  if decide (0 <= i <= j /\ j <= len b) then Some (sub b i j) else None.

Definition starts_with (b p : bytes) : bool :=
  bool_decide (take (length p) b = p).

(** ** Big-endian integers *)

(** [n.to_be_bytes()] of a [k]-byte integer. *)
Fixpoint to_be (k : nat) (n : Z) : bytes :=
  match k with
  | O => []
  | S k => (n / 256 ^ Z.of_nat k) mod 256 :: to_be k n
  end.
(** [uN::from_be_bytes]. *)
Fixpoint of_be (b : bytes) : Z :=
  match b with
  | [] => 0
  | x :: b => x * 256 ^ Z.of_nat (length b) + of_be b
  end.

(** [u16::from_be_bytes([data[i], data[i + 1]])]. *)
Definition rd16 {E} (b : bytes) (i : Z) : res E Z :=
  x ← ix b i; y ← ix b (i + 1); Ok (of_be [x; y]).
(** [u32::from_be_bytes([data[i], ..., data[i + 3]])]. *)
Definition rd32 {E} (b : bytes) (i : Z) : res E Z :=
  x ← ix b i; y ← ix b (i + 1); z ← ix b (i + 2); w ← ix b (i + 3);
  Ok (of_be [x; y; z; w]).

(** ** Text: a Rust [str] is its UTF-8 bytes *)

Abbreviation str := (list Z).

Definition byte_of_ascii (c : Ascii.ascii) : Z := Z.of_N (Ascii.N_of_ascii c).
(** A string literal of the source (the literals used are ASCII). *)
Fixpoint bs (s : string) : str :=
  match s with
  | EmptyString => []
  | String.String c s => byte_of_ascii c :: bs s
  end.

(** Bytes of a text as an error message. *)
Fixpoint text (s : str) : err :=
  match s with
  | [] => EmptyString
  | c :: s => String.String (Ascii.ascii_of_N (Z.to_N c)) (text s)
  end.
Lemma text_bs e : text (bs e) = e.
Proof. induction e as [|c e IH]; simpl; [done|]. unfold byte_of_ascii. by rewrite N2Z.id, Ascii.ascii_N_embedding, IH. Qed.

(** ** [Iterator::min_by_key]: the first of the least, for an order given by its strict test *)

Fixpoint min_by_key {A K} (ltb : K -> K -> bool) (f : A -> K) (l : list A) : option A :=
  match l with
  | [] => None
  | x :: l =>
    match min_by_key ltb f l with
    | None => Some x
    | Some y => if ltb (f y) (f x) then Some y else Some x
    end
  end.

(** ** Automation *)

Create HintDb safe discriminated.
Create Rewrite HintDb wire.

(** Case analysis on the guards of the code, with the arithmetic they give. *)
Ltac guards :=
  repeat (case_decide || case_match); simplify_eq/=.

(** [Z] goals about lengths. *)
Ltac len_lia := unfold len in *; rewrite ?length_app in *; simpl in *; lia.

(** Closes conjunctions of trivial and arithmetic facts. *)
Ltac fin := split_and?; first [done | lia | congruence | idtac].

Ltac ranges := unfold is_u8, is_u16, is_u32, is_u64 in *.

(** ** Lemmas *)

Section Len.
Context {A : Type}.
Implicit Types b p m s : list A.

Lemma len_nonneg b : 0 <= len b.
Proof. unfold len. lia. Qed.

Lemma len_nil : len ([] : list A) = 0.
Proof. done. Qed.

Lemma len_cons x b : len (x :: b) = 1 + len b.
Proof. unfold len. simpl length. lia. Qed.

Lemma len_1 (x : A) : len [x] = 1.
Proof. done. Qed.

Lemma len_app p s : len (p ++ s) = len p + len s.
Proof. unfold len. rewrite length_app. lia. Qed.

Lemma len_zero b : len b = 0 -> b = [].
Proof. destruct b; [done|]. rewrite len_cons. pose proof (len_nonneg b). lia. Qed.

Lemma len_sub b i j : 0 <= i <= j -> j <= len b -> len (sub b i j) = j - i.
Proof. unfold len, sub. intros. rewrite length_take, length_drop. lia. Qed.

Lemma sub_full b : sub b 0 (len b) = b.
Proof.
  unfold sub, len. replace (Z.to_nat 0) with 0%nat by lia.
  rewrite drop_0, Z.sub_0_r, Nat2Z.id. apply take_ge. lia.
Qed.

Lemma sub_mid p m s i j :
  i = len p -> j = len p + len m -> sub (p ++ m ++ s) i j = m.
Proof.
  intros -> ->. unfold sub, len. rewrite Nat2Z.id, drop_app_length.
  replace (Z.to_nat _) with (length m) by lia. apply take_app_length.
Qed.

Lemma sub_split b i j k :
  0 <= i <= j -> j <= k -> sub b i k = sub b i j ++ sub b j k.
Proof.
  intros Hi Hj. unfold sub.
  replace (Z.to_nat (k - i)) with (Z.to_nat (j - i) + Z.to_nat (k - j))%nat by lia.
  rewrite take_take_drop || rewrite <- (take_take_drop _ (Z.to_nat (j - i))).
  rewrite drop_drop. do 3 f_equal. lia.
Qed.

Lemma list_sub3 b i j :
  0 <= i <= j -> j <= len b -> b = sub b 0 i ++ sub b i j ++ sub b j (len b).
Proof.
  intros. rewrite <- (sub_split b i j (len b)) by lia.
  rewrite <- (sub_split b 0 i (len b)) by lia. by rewrite sub_full.
Qed.
End Len.

#[export] Hint Rewrite @len_nil @len_cons @len_app : wire.

Section Index.
Context {E : Type}.

Lemma ix_Ok {A} (b : list A) i x : @ix E A b i = Ok x <-> 0 <= i /\ b !! Z.to_nat i = Some x.
Proof. unfold ix. guards; naive_solver. Qed.

Lemma ix_in {A} (b : list A) i : 0 <= i < len b -> exists x, @ix E A b i = Ok x.
Proof.
  intros [H0 Hl]. destruct (lookup_lt_is_Some_2 b (Z.to_nat i)) as [x Hx].
  { unfold len in Hl. lia. }
  exists x. by apply ix_Ok.
Qed.

Lemma ix_Ok_lt {A} (b : list A) i x : @ix E A b i = Ok x -> 0 <= i < len b.
Proof. rewrite ix_Ok. intros [? H%lookup_lt_Some]. unfold len. lia. Qed.

Lemma ix_app_l {A} (p s : list A) i : i < len p -> @ix E A (p ++ s) i = ix p i.
Proof. intros. unfold ix. guards; try done; rewrite lookup_app_l in *; simplify_eq; done || (unfold len in *; lia). Qed.

Lemma ix_app_r {A} (p s : list A) i : len p <= i -> @ix E A (p ++ s) i = ix s (i - len p).
Proof.
  intros H. pose proof (len_nonneg p). unfold ix.
  rewrite !decide_True by lia. rewrite lookup_app_r by (unfold len in *; lia).
  by replace (Z.to_nat i - length p)%nat with (Z.to_nat (i - len p)) by (unfold len; lia).
Qed.

Lemma ix_u8 (b : bytes) i x : u8s b -> @ix E Z b i = Ok x -> is_u8 x.
Proof. rewrite ix_Ok. intros Hb [_ H]. by eapply Forall_lookup_1. Qed.

Lemma slice_Ok {A} (b : list A) i j : 0 <= i <= j -> j <= len b -> @slice E A b i j = Ok (sub b i j).
Proof. intros. unfold slice. by rewrite decide_True. Qed.

Lemma slice_inv {A} (b : list A) i j m :
  @slice E A b i j = Ok m -> 0 <= i <= j /\ j <= len b /\ m = sub b i j.
Proof. unfold slice. guards; naive_solver. Qed.

Lemma slice_mid {A} (p m s : list A) i j :
  i = len p -> j = len p + len m -> @slice E A (p ++ m ++ s) i j = Ok m.
Proof.
  intros -> ->. pose proof (len_nonneg p). pose proof (len_nonneg m).
  pose proof (len_nonneg s). rewrite slice_Ok.
  - by rewrite (sub_mid p m s).
  - lia.
  - rewrite !len_app. lia.
Qed.

Lemma slice_end {A} (p m : list A) i j :
  i = len p -> j = len p + len m -> @slice E A (p ++ m) i j = Ok m.
Proof. intros. rewrite <- (app_nil_r m) at 1. by apply slice_mid. Qed.

Lemma slice_0 {A} (m s : list A) i j : i = 0 -> j = len m -> @slice E A (m ++ s) i j = Ok m.
Proof. intros. apply (slice_mid [] m s); unfold len in *; simpl; lia. Qed.

Lemma slice_from_end {A} (p m : list A) i : i = len p -> @slice_from E A (p ++ m) i = Ok m.
Proof. intros. apply slice_end; [done|]. by rewrite len_app. Qed.

Lemma get_range_mid {A} (p m s : list A) i j :
  i = len p -> j = len p + len m -> get_range (p ++ m ++ s) i j = Some m.
Proof.
  intros -> ->. pose proof (len_nonneg p). pose proof (len_nonneg m).
  pose proof (len_nonneg s). unfold get_range. rewrite decide_True.
  - by rewrite (sub_mid p m s).
  - rewrite !len_app. lia.
Qed.

Lemma get_range_inv {A} (b : list A) i j m :
  get_range b i j = Some m -> 0 <= i <= j /\ j <= len b /\ m = sub b i j.
Proof. unfold get_range. guards; naive_solver. Qed.

Lemma get_range_None {A} (b : list A) i j :
  0 <= i <= j -> get_range b i j = None -> len b < j.
Proof. unfold get_range. guards; try done; lia. Qed.

Lemma u8s_sub (b : bytes) i j : u8s b -> u8s (sub b i j).
Proof. intros. by apply Forall_take, Forall_drop. Qed.
End Index.

Section MinByKey.
Context {A K : Type} (ltb : K -> K -> bool) (f : A -> K).

Lemma min_by_key_In l x : min_by_key ltb f l = Some x -> In x l.
Proof.
  revert x. induction l as [|y l IH]; intros x; simpl; [done|].
  destruct (min_by_key ltb f l) as [z|]; [|intros [= <-]; by left].
  destruct (ltb (f z) (f y)); intros [= <-]; [right; by apply IH|by left].
Qed.

Lemma min_by_key_None l : min_by_key ltb f l = None <-> l = [].
Proof. destruct l as [|x l]; simpl; [done|]. destruct (min_by_key ltb f l); [destruct (ltb _ _)|]; done. Qed.

(** Those before the chosen one are greater, those after are no less. *)
Lemma min_by_key_first l x :
  (forall a b, ltb a b = true -> ltb b a = false) ->
  (forall a b c, ltb a b = false -> ltb b c = false -> ltb a c = false) ->
  min_by_key ltb f l = Some x ->
  exists l1 l2, l = l1 ++ x :: l2 /\ Forall (fun y => ltb (f x) (f y) = true) l1 /\ Forall (fun y => ltb (f y) (f x) = false) l2.
Proof.
  intros Hasym Hneg. revert x. induction l as [|y l IH]; intros x; simpl; [done|].
  destruct (min_by_key ltb f l) as [z|] eqn:Hz; cycle 1.
  { intros [= <-]. apply min_by_key_None in Hz as ->. by exists [], []. }
  destruct (IH z eq_refl) as (l1 & l2 & -> & H1 & H2). destruct (ltb (f z) (f y)) eqn:Hzy; intros [= <-].
  - exists (y :: l1), l2. split_and!; [done|by constructor|done].
  - exists [], (l1 ++ z :: l2). split_and!; [done|done|]. apply Forall_app. split; [|constructor; [done|]].
    + eapply Forall_impl; [exact H1|]. simpl. intros w Hw. by apply (Hneg _ (f z)); [apply Hasym|].
    + eapply Forall_impl; [exact H2|]. simpl. intros w Hw. by apply (Hneg _ (f z)).
Qed.
End MinByKey.

(** *** Computations that do not panic *)

Section Safe.
Context {E : Type}.

Lemma safe_Ok {A} (a : A) : @safe E A (Ok a).
Proof. done. Qed.
Lemma safe_Err {A} (e : E) : @safe E A (Err e).
Proof. done. Qed.
Lemma safe_bind {A B} (m : res E A) (k : A -> res E B) :
  safe m -> (forall a, m = Ok a -> safe (k a)) -> safe (m ≫= k).
Proof. destruct m; simpl; unfold safe; naive_solver. Qed.
Lemma safe_fmap {A B} (f : A -> B) (m : res E A) : safe m -> safe (f <$> m).
Proof. by destruct m. Qed.
Lemma safe_context {A} (e : E) (o : option A) : safe (context e o).
Proof. by destruct o. Qed.
Lemma safe_ix {A} (b : list A) i : 0 <= i < len b -> @safe E A (ix b i).
Proof. intros [x ->]%(ix_in (E:=E)). done. Qed.
Lemma safe_slice {A} (b : list A) i j : 0 <= i <= j /\ j <= len b -> @safe E (list A) (slice b i j).
Proof. intros []. by rewrite slice_Ok. Qed.
Lemma safe_slice_from {A} (b : list A) i : 0 <= i <= len b -> @safe E (list A) (slice_from b i).
Proof. intros. apply safe_slice. lia. Qed.
Lemma safe_rd16 b i : 0 <= i /\ i + 1 < len b -> @safe E Z (rd16 b i).
Proof. intros. unfold rd16. repeat (apply safe_bind; [apply safe_ix; lia|intros]); done. Qed.
Lemma safe_rd32 b i : 0 <= i /\ i + 3 < len b -> @safe E Z (rd32 b i).
Proof. intros. unfold rd32. repeat (apply safe_bind; [apply safe_ix; lia|intros]); done. Qed.
Lemma safe_map_err {F A} (f : E -> F) (r : res E A) : safe r -> safe (map_err f r).
Proof. by destruct r. Qed.
Lemma safe_attempt {F A} (r : res E A) : safe r -> @safe F _ (attempt r).
Proof. by destruct r. Qed.
Lemma Ok_inj {A} (a b : A) : @Ok E A a = Ok b -> a = b.
Proof. by intros [= ->]. Qed.
Lemma bind_Ok {A B} (m : res E A) (k : A -> res E B) b :
  m ≫= k = Ok b <-> exists a, m = Ok a /\ k a = Ok b.
Proof. destruct m; simpl; naive_solver. Qed.

Lemma context_Ok {A} (e : E) (o : option A) a : context e o = Ok a <-> o = Some a.
Proof. by destruct o; simpl; split; intros; simplify_eq. Qed.
End Safe.

#[export] Hint Resolve safe_Ok safe_Err safe_context safe_fmap safe_map_err safe_attempt : safe.

(** Proves [safe (f x)] for a decoder unfolded in the goal: every index and
    slice is shown in range from the guards met on the way. *)
Ltac safe_step :=
  match goal with
  | |- safe (Ok _) => done
  | |- safe (Err _) => done
  | |- safe (mret _) => done
  | |- safe (context _ _) => apply safe_context
  | |- safe (ix _ _) => apply safe_ix; lia
  | |- safe (rd16 _ _) => apply safe_rd16; lia
  | |- safe (rd32 _ _) => apply safe_rd32; lia
  | |- safe (slice _ _ _) => apply safe_slice; lia
  | |- safe (slice_from _ _) => apply safe_slice_from; lia
  | |- safe (map_err _ _) => apply safe_map_err
  | |- safe (attempt _) => apply safe_attempt
  | |- safe (_ <$> _) => apply safe_fmap
  | |- safe (_ ≫= _) => apply safe_bind; [|intros ? ?]
  | |- safe (if decide _ then _ else _) => case_decide
  | |- safe (match ?x with _ => _ end) => destruct x eqn:?
  | |- safe (let '_ := ?x in _) => destruct x eqn:?
  | |- safe _ => solve [auto with safe]
  end.

Lemma st_bind_Ok {S E A B} (m : ST S E A) (k : A -> ST S E B) s s' b :
  (m ≫= k) s = (s', Ok b) <-> exists s1 a, m s = (s1, Ok a) /\ k a s1 = (s', Ok b).
Proof. unfold mbind, st_bind. destruct (m s) as [s1 [a|e|]]; naive_solver. Qed.

Lemma st_bind_step {S E A B} (m : ST S E A) (k : A -> ST S E B) s s' a :
  m s = (s', Ok a) -> (m ≫= k) s = k a s'.
Proof. unfold mbind, st_bind. by intros ->. Qed.

(** *** Big-endian codecs *)

Lemma len_to_be k n : len (to_be k n) = Z.of_nat k.
Proof. induction k; simpl; [done|]. rewrite len_cons, IHk. lia. Qed.
#[export] Hint Rewrite len_to_be : wire.

Lemma u8s_to_be k n : u8s (to_be k n).
Proof. induction k; constructor; [|done]. apply Z.mod_pos_bound. lia. Qed.

Lemma of_be_bound b : u8s b -> 0 <= of_be b < 256 ^ len b.
Proof.
  induction 1 as [|x b Hx Hb IH]; simpl; [unfold len; simpl; lia|].
  rewrite len_cons. unfold is_u8 in Hx. fold (len b).
  rewrite Z.pow_add_r by (pose proof (len_nonneg b); lia).
  pose proof (Z.pow_pos_nonneg 256 (len b)). pose proof (len_nonneg b). nia.
Qed.

Lemma of_be_to_be k n : of_be (to_be k n) = n mod 256 ^ Z.of_nat k.
Proof.
  induction k as [|k IH]; [by rewrite Z.mod_1_r|].
  simpl to_be. cbn [of_be]. fold (len (to_be k n)). rewrite IH, len_to_be.
  rewrite Nat2Z.inj_succ, Z.pow_succ_r by lia.
  rewrite (Z.mul_comm 256), Z.rem_mul_r by lia. lia.
Qed.

Lemma of_be_to_be_id k n : 0 <= n < 256 ^ Z.of_nat k -> of_be (to_be k n) = n.
Proof. intros. by rewrite of_be_to_be, Z.mod_small. Qed.

Lemma to_be_of_be b : u8s b -> to_be (length b) (of_be b) = b.
Proof.
  enough (forall b c, u8s b -> to_be (length b) (c * 256 ^ len b + of_be b) = b) as H.
  { intros Hb. specialize (H b 0 Hb). by rewrite Z.mul_0_l, Z.add_0_l in H. }
  clear b. induction b as [|x b IH]; [done|].
  intros c [Hx Hb]%Forall_cons. cbn [to_be of_be length]. fold (len b).
  pose proof (of_be_bound b Hb) as Hbd. pose proof (len_nonneg b) as Hn.
  rewrite len_cons, Z.pow_add_r by lia.
  replace (c * (256 ^ 1 * 256 ^ len b) + (x * 256 ^ len b + of_be b))
    with ((c * 256 + x) * 256 ^ len b + of_be b) by ring.
  f_equal.
  - rewrite Z.div_add_l, (Z.div_small (of_be b)), Z.add_0_r by lia.
    rewrite Z.add_comm, Z.mod_add by lia. by apply Z.mod_small.
  - by apply IH.
Qed.

Lemma to_be_inj k n m :
  0 <= n < 256 ^ Z.of_nat k -> 0 <= m < 256 ^ Z.of_nat k ->
  to_be k n = to_be k m -> n = m.
Proof. intros Hn Hm H. by rewrite <- (of_be_to_be_id k n), H, of_be_to_be_id. Qed.

Lemma to_be_2 n : to_be 2 n = [n / 256 mod 256; n mod 256].
Proof. unfold to_be. by rewrite Z.div_1_r. Qed.

Section Read.
Context {E : Type}.

(** A two-byte read is the value of the two-byte slice. *)
Lemma rd16_sub b i : 0 <= i -> i + 2 <= len b -> @rd16 E b i = Ok (of_be (sub b i (i + 2))).
Proof.
  intros Hi Hl. unfold rd16.
  destruct (ix_in (E:=E) b i) as [x Hx]; [lia|].
  destruct (ix_in (E:=E) b (i + 1)) as [y Hy]; [lia|].
  rewrite Hx, Hy. cbn. apply ix_Ok in Hx as [_ Hx]. apply ix_Ok in Hy as [_ Hy].
  unfold sub. replace (Z.to_nat (i + 2 - i)) with 2%nat by lia.
  replace (Z.to_nat (i + 1)) with (S (Z.to_nat i)) in Hy by lia.
  rewrite (drop_S b x _ Hx), (drop_S b y _ Hy). done.
Qed.

Lemma rd32_sub b i : 0 <= i -> i + 4 <= len b -> @rd32 E b i = Ok (of_be (sub b i (i + 4))).
Proof.
  intros Hi Hl. unfold rd32.
  destruct (ix_in (E:=E) b i) as [x Hx]; [lia|].
  destruct (ix_in (E:=E) b (i + 1)) as [y Hy]; [lia|].
  destruct (ix_in (E:=E) b (i + 2)) as [z Hz]; [lia|].
  destruct (ix_in (E:=E) b (i + 3)) as [w Hw]; [lia|].
  rewrite Hx, Hy, Hz, Hw. cbn -[of_be].
  apply ix_Ok in Hx as [_ Hx], Hy as [_ Hy], Hz as [_ Hz], Hw as [_ Hw].
  unfold sub. replace (Z.to_nat (i + 4 - i)) with 4%nat by lia.
  replace (Z.to_nat (i + 1)) with (S (Z.to_nat i)) in Hy by lia.
  replace (Z.to_nat (i + 2)) with (S (S (Z.to_nat i))) in Hz by lia.
  replace (Z.to_nat (i + 3)) with (S (S (S (Z.to_nat i)))) in Hw by lia.
  rewrite (drop_S b x _ Hx), (drop_S b y _ Hy), (drop_S b z _ Hz), (drop_S b w _ Hw).
  done.
Qed.

Lemma rd16_mid p n s i :
  i = len p -> is_u16 n -> @rd16 E (p ++ to_be 2 n ++ s) i = Ok n.
Proof.
  intros -> Hn. pose proof (len_nonneg p). pose proof (len_nonneg s).
  rewrite rd16_sub; [|lia|autorewrite with wire; lia].
  rewrite (sub_mid p (to_be 2 n) s) by (autorewrite with wire; lia).
  rewrite of_be_to_be_id; [done|]. ranges. simpl. lia.
Qed.

Lemma rd32_mid p n s i :
  i = len p -> is_u32 n -> @rd32 E (p ++ to_be 4 n ++ s) i = Ok n.
Proof.
  intros -> Hn. pose proof (len_nonneg p). pose proof (len_nonneg s).
  rewrite rd32_sub; [|lia|autorewrite with wire; lia].
  rewrite (sub_mid p (to_be 4 n) s) by (autorewrite with wire; lia).
  rewrite of_be_to_be_id; [done|]. ranges. simpl. lia.
Qed.
End Read.

Lemma rd16_u16 {E} b i n : u8s b -> @rd16 E b i = Ok n -> is_u16 n.
Proof.
  unfold rd16. intros Hb (x & Hx & (y & Hy & [= <-])%bind_Ok)%bind_Ok.
  apply (ix_u8 _ _ _ Hb) in Hx, Hy. ranges. simpl. lia.
Qed.

Ltac u8s_lit := unfold u8s; repeat (apply Forall_cons; split); try apply Forall_nil; try done.

Lemma rd32_u32 {E} b i n : u8s b -> @rd32 E b i = Ok n -> is_u32 n.
Proof.
  unfold rd32. intros Hb (x & Hx & (y & Hy & (z & Hz & (w & Hw & <-%Ok_inj)%bind_Ok)%bind_Ok)%bind_Ok)%bind_Ok.
  apply (ix_u8 _ _ _ Hb) in Hx, Hy, Hz, Hw.
  apply (of_be_bound [x; y; z; w]). u8s_lit.
Qed.

(** Ranges of the integers already read. *)
Ltac byte_facts :=
  repeat match goal with
  | H : rd16 ?b _ = Ok _, Hb : u8s ?b |- _ => apply (rd16_u16 _ _ _ Hb) in H; unfold is_u16 in H
  | H : rd32 ?b _ = Ok _, Hb : u8s ?b |- _ => apply (rd32_u32 _ _ _ Hb) in H; unfold is_u32 in H
  | H : ix ?b _ = Ok _, Hb : u8s ?b |- _ => apply (ix_u8 _ _ _ Hb) in H; unfold is_u8 in H
  end.
Ltac no_panic := repeat (byte_facts; safe_step; simpl).

Lemma starts_with_app p s : starts_with (p ++ s) p = true.
Proof. unfold starts_with. rewrite take_app_length. by apply bool_decide_eq_true. Qed.

Lemma starts_with_inv b p : starts_with b p = true -> exists s, b = p ++ s.
Proof.
  unfold starts_with. intros H%bool_decide_eq_true. exists (drop (length p) b).
  rewrite <- H at 1. by rewrite take_drop.
Qed.

Lemma bs_inj s t : bs s = bs t -> s = t.
Proof.
  revert t. induction s as [|a s IH]; intros [|b t]; cbn; try done. intros [= Ha Hs]. rewrite (IH _ Hs). f_equal.
  apply N2Z.inj in Ha. by rewrite <- (Ascii.ascii_N_embedding a), Ha, Ascii.ascii_N_embedding.
Qed.
Lemma bs_u8s s : u8s (bs s).
Proof.
  induction s as [|c s IH]; constructor; [|done]. unfold byte_of_ascii, is_u8.
  pose proof (Ascii.N_ascii_bounded c). lia.
Qed.

(** ** Codecs

    What a wire codec promises to its callers: a well-formed value that was
    encoded decodes to itself, and no byte string makes the decoder panic. A
    canonical codec moreover accepts nothing but encodings. *)

Class Codec {E A} (wf : A -> Prop) (enc : A -> res E bytes) (dec : bytes -> res E A) : Prop := {
  codec_roundtrip a b : wf a -> enc a = Ok b -> dec b = Ok a;
  codec_safe b : u8s b -> safe (dec b);
}.
Class CanonicalCodec {E A} (wf : A -> Prop) (enc : A -> res E bytes) (dec : bytes -> res E A) : Prop := {
  canonical_is_codec :: Codec wf enc dec;
  codec_canonical b a : u8s b -> dec b = Ok a -> wf a /\ enc a = Ok b;
}.
#[export] Hint Resolve codec_safe : safe.

Section Codec.
Context {E A : Type} (wf : A -> Prop) (enc : A -> res E bytes) (dec : bytes -> res E A).

(** Encodings of different values differ. *)
Lemma codec_inj `{!Codec wf enc dec} a1 a2 b :
  wf a1 -> wf a2 -> enc a1 = Ok b -> enc a2 = Ok b -> a1 = a2.
Proof.
  intros H1 H2 E1 E2. apply (codec_roundtrip (dec:=dec)) in E1; [|done].
  apply (codec_roundtrip (dec:=dec)) in E2; [|done]. congruence.
Qed.

(** The values decoded from a byte string are those it encodes. *)
Lemma canonical_iff `{!CanonicalCodec wf enc dec} b a :
  u8s b -> dec b = Ok a <-> wf a /\ enc a = Ok b.
Proof.
  intros Hb. split; [by apply codec_canonical|].
  intros [Hwf He]. by apply (codec_roundtrip (wf:=wf) (enc:=enc)).
Qed.
End Codec.

(** ** Random source *)

(** One call of the code draws from [rand::thread_rng]; a value of [Rng] is
    what the generator answers during that call. Theorems quantify over it. *)
Record Rng := {
  gen_range : Z -> Z -> Z;                       (* inclusive bounds *)
  gen_range_in lo hi : lo <= hi -> lo <= gen_range lo hi <= hi;
  fill_bytes : Z -> bytes;
  fill_bytes_len n : 0 <= n -> len (fill_bytes n) = n;
  fill_bytes_u8s n : u8s (fill_bytes n);
}.

(** A generator that always answers the least value. *)
Definition zero_rng : Rng.
Proof.
  refine {| gen_range lo hi := lo; fill_bytes n := replicate (Z.to_nat n) 0 |}.
  - intros; lia.
  - intros. unfold len. rewrite length_replicate. lia.
  - intros. apply Forall_replicate. done.
Defined.

#[export] Hint Rewrite fill_bytes_len using lia : wire.

(** ** Bit operations as arithmetic *)

Lemma land_255 x : Z.land x 255 = x mod 256.
Proof. change 255 with (Z.ones 8). by rewrite Z.land_ones. Qed.

Lemma lor_shiftl a b k : 0 <= k -> 0 <= b < 2 ^ k -> Z.lor (Z.shiftl a k) b = a * 2 ^ k + b.
Proof.
  intros Hk Hb. rewrite <- Z.shiftl_mul_pow2 by lia.
  rewrite Z.add_nocarry_lor; [done|].
  apply Z.bits_inj'. intros n Hn. rewrite Z.land_spec, Z.bits_0.
  destruct (decide (n < k)).
  - rewrite Z.shiftl_spec, Z.testbit_neg_r by lia. done.
  - destruct (decide (b = 0)) as [->|]; [by rewrite Z.bits_0, andb_false_r|].
    rewrite (Z.bits_above_log2 b n), andb_false_r; [done|lia|].
    apply Z.log2_lt_pow2; [lia|]. apply Z.lt_le_trans with (2 ^ k); [lia|].
    apply Z.pow_le_mono_r; lia.
Qed.

(** A 24-bit big-endian integer, as written and as read. *)
Lemma be24_bytes n :
  [Z.land (Z.shiftr n 16) 255; Z.land (Z.shiftr n 8) 255; Z.land n 255] = to_be 3 n.
Proof. rewrite !land_255, !Z.shiftr_div_pow2 by lia. unfold to_be. by rewrite Z.div_1_r. Qed.

Lemma be24_value a b c :
  is_u8 b -> is_u8 c -> Z.lor (Z.lor (Z.shiftl a 16) (Z.shiftl b 8)) c = of_be [a; b; c].
Proof.
  intros Hb Hc. ranges.
  rewrite (Z.shiftl_mul_pow2 b), lor_shiftl by lia.
  replace (a * 2 ^ 16 + b * 2 ^ 8) with (Z.shiftl (a * 2 ^ 8 + b) 8)
    by (rewrite Z.shiftl_mul_pow2; lia).
  rewrite lor_shiftl by lia. simpl. lia.
Qed.

(** ** Reading by proof *)

Section ReadLit.
Context {E : Type}.

Lemma ix_eq {A} (b : list A) i x : 0 <=? i = true -> b !! Z.to_nat i = Some x -> @ix E A b i = Ok x.
Proof. intros ?%Z.leb_le ?. by apply ix_Ok. Qed.

Lemma ix_mid (p s : bytes) x i : i = len p -> @ix E Z (p ++ x :: s) i = Ok x.
Proof. intros ->. rewrite ix_app_r, Z.sub_diag by lia. by apply ix_eq. Qed.

Lemma of_be_2 x y : of_be [x; y] = x * 256 + y.
Proof. simpl. lia. Qed.
End ReadLit.

#[global] Arguments bs : simpl never.
#[global] Arguments ix : simpl never.
#[global] Arguments rd16 : simpl never.
#[global] Arguments rd32 : simpl never.
#[global] Arguments slice : simpl never.
#[global] Arguments slice_from : simpl never.
#[global] Arguments sub : simpl never.
#[global] Arguments to_be : simpl never.
#[global] Arguments of_be : simpl never.
#[global] Arguments starts_with : simpl never.
#[global] Arguments Z.land : simpl never.
#[global] Arguments Z.lor : simpl never.
#[global] Arguments Z.shiftl : simpl never.
#[global] Arguments Z.shiftr : simpl never.
#[global] Arguments Z.pow : simpl never.
#[global] Arguments Z.modulo : simpl never.
#[global] Arguments Z.div : simpl never.

(** Steps through the guards of a decoder applied to concrete-shaped input. *)
Ltac guard_side := first [done | lia | congruence | tauto | naive_solver lia].
Ltac guard_no := rewrite decide_False by guard_side.
Ltac guard_yes := rewrite decide_True by guard_side.
