(* ===== verification/Text.v ===== *)
(** Rust's [str] and [String] operations used by the program, on the UTF-8
    bytes of the text: validation and lossy decoding, ASCII case, trimming,
    searching, and unsigned decimal numbers. *)
From S2P Require Import Prelude.

(** ** UTF-8 *)

Definition in_rng (lo hi x : Z) : bool := (lo <=? x) && (x <=? hi).
Definition is_cont (x : Z) : bool := in_rng 128 191 x.

(** The next chunk of [b]: [Some (true, n)] for a well-formed character of [n]
    bytes, [Some (false, n)] for a maximal ill-formed prefix of [n] bytes. *)
Definition utf8_next (b : bytes) : option (bool * nat) :=
  match b with
  | [] => None
  | x :: r =>
    let y := default 0 (r !! 0%nat) in
    let z := default 0 (r !! 1%nat) in
    let w := default 0 (r !! 2%nat) in
    Some (
      if in_rng 0 127 x then (true, 1%nat)
      else if in_rng 194 223 x then
        if is_cont y then (true, 2%nat) else (false, 1%nat)
      else if in_rng 224 239 x then
        if (if x =? 224 then in_rng 160 191 y else if x =? 237 then in_rng 128 159 y else is_cont y)
        then if is_cont z then (true, 3%nat) else (false, 2%nat)
        else (false, 1%nat)
      else if in_rng 240 244 x then
        if (if x =? 240 then in_rng 144 191 y else if x =? 244 then in_rng 128 143 y else is_cont y)
        then if is_cont z then if is_cont w then (true, 4%nat) else (false, 3%nat)
             else (false, 2%nat)
        else (false, 1%nat)
      else (false, 1%nat))
  end.

Fixpoint utf8_valid_fuel (fuel : nat) (b : bytes) : bool :=
  match fuel with
  | O => match b with [] => true | _ => false end
  | S fuel =>
    match utf8_next b with
    | None => true
    | Some (true, n) => utf8_valid_fuel fuel (drop n b)
    | Some (false, _) => false
    end
  end.
(** [std::str::from_utf8(b).is_ok()]; every step consumes a byte, so the length is enough fuel. *)
Definition utf8_valid (b : bytes) : bool := utf8_valid_fuel (length b) b.

Definition from_utf8 (b : bytes) : result str :=
  if utf8_valid b then Ok b else bail "invalid utf-8".

Definition replacement : bytes := [239; 191; 189].

Fixpoint utf8_lossy_fuel (fuel : nat) (b : bytes) : str :=
  match fuel with
  | O => []
  | S fuel =>
    match utf8_next b with
    | None => []
    | Some (true, n) => take n b ++ utf8_lossy_fuel fuel (drop n b)
    | Some (false, n) => replacement ++ utf8_lossy_fuel fuel (drop n b)
    end
  end.
(** [String::from_utf8_lossy]. *)
Definition from_utf8_lossy (b : bytes) : str := utf8_lossy_fuel (length b) b.

(** ** ASCII case, replacement *)

Definition ascii_lower (c : Z) : Z := if in_rng 65 90 c then c + 32 else c.
Definition to_ascii_lowercase (s : str) : str := ascii_lower <$> s.
Definition eq_ignore_ascii_case (a b : str) : bool :=
  bool_decide (to_ascii_lowercase a = to_ascii_lowercase b).
(** [s.replace(a, b)] for ASCII characters. *)
Definition replace_char (a b : Z) (s : str) : str := (fun c => if c =? a then b else c) <$> s.

Definition is_ascii_digit (c : Z) : bool := in_rng 48 57 c.

(** ** Trimming *)

(** Bytes of the leading White_Space character, 0 if there is none. *)
Definition ws_len (s : str) : nat :=
  match s with
  | x :: r =>
    if in_rng 9 13 x || (x =? 32) then 1%nat else
    match r with
    | y :: r =>
      if (x =? 194) && ((y =? 133) || (y =? 160)) then 2%nat else
      match r with
      | z :: _ =>
        if ((x =? 225) && (y =? 154) && (z =? 128))
           || ((x =? 226) && (y =? 128) && (in_rng 128 138 z || (z =? 168) || (z =? 169) || (z =? 175)))
           || ((x =? 226) && (y =? 129) && (z =? 159))
           || ((x =? 227) && (y =? 128) && (z =? 128))
        then 3%nat else 0%nat
      | [] => 0%nat
      end
    | [] => 0%nat
    end
  | [] => 0%nat
  end.

Fixpoint trim_start_fuel (fuel : nat) (s : str) : str :=
  match fuel with
  | O => s
  | S fuel => match ws_len s with O => s | n => trim_start_fuel fuel (drop n s) end
  end.
Definition trim_start (s : str) : str := trim_start_fuel (length s) s.

(** Bytes of the trailing White_Space character. *)
Definition ws_len_end (s : str) : nat :=
  let l := length s in
  if Nat.eqb (ws_len (drop (l - 1) s)) 1 then 1%nat
  else if (2 <=? l)%nat && Nat.eqb (ws_len (drop (l - 2) s)) 2 then 2%nat
  else if (3 <=? l)%nat && Nat.eqb (ws_len (drop (l - 3) s)) 3 then 3%nat
  else 0%nat.

Fixpoint trim_end_fuel (fuel : nat) (s : str) : str :=
  match fuel with
  | O => s
  | S fuel => match ws_len_end s with O => s | n => trim_end_fuel fuel (take (length s - n) s) end
  end.
Definition trim_end (s : str) : str := trim_end_fuel (length s) s.

Definition trim (s : str) : str := trim_end (trim_start s).
(** [map(str::trim).filter(|s| !s.is_empty())] on a field that may be missing. *)
Definition given (s : option str) : option str :=
  match s with Some s => let t := trim s in if decide (t = []) then None else Some t | None => None end.

Fixpoint drop_while (p : Z -> bool) (s : str) : str :=
  match s with
  | [] => []
  | c :: r => if p c then drop_while p r else s
  end.
(** [trim_start_matches(c)], [trim_end_matches(c)], [trim_end_matches([..])]. *)
Definition trim_start_matches (p : Z -> bool) (s : str) : str := drop_while p s.
Definition trim_end_matches (p : Z -> bool) (s : str) : str := rev (drop_while p (rev s)).
Definition is_dot (c : Z) : bool := c =? 46.

(** ** Searching *)

Definition ends_with (s p : str) : bool :=
  (length p <=? length s)%nat && bool_decide (drop (length s - length p) s = p).
Definition contains_char (c : Z) (s : str) : bool := existsb (Z.eqb c) s.

(** [s.find(c)] for an ASCII character. *)
Fixpoint find_char (c : Z) (s : str) : option nat :=
  match s with
  | [] => None
  | x :: r => if x =? c then Some 0%nat else S <$> find_char c r
  end.
(** [s.rsplit_once(c)]: around the last occurrence. *)
Definition rsplit_once (c : Z) (s : str) : option (str * str) :=
  match find_char c (rev s) with
  | None => None
  | Some n => let i := (length s - 1 - n)%nat in Some (take i s, drop (S i) s)
  end.
Definition strip_prefix_char (c : Z) (s : str) : option str :=
  match s with x :: r => if x =? c then Some r else None | [] => None end.

(** [split_whitespace()]. *)
Fixpoint split_ws_fuel (fuel : nat) (acc : str) (s : str) : list str :=
  let flush := if bool_decide (acc = []) then [] else [rev acc] in
  match fuel with
  | O => flush
  | S fuel =>
    match s with
    | [] => flush
    | c :: r =>
      match ws_len s with
      | O => split_ws_fuel fuel (c :: acc) r
      | n => flush ++ split_ws_fuel fuel [] (drop n s)
      end
    end
  end.
Definition split_whitespace (s : str) : list str := split_ws_fuel (S (length s)) [] s.

(** [labels.join(sep)]. *)
Fixpoint join (sep : str) (l : list str) : str :=
  match l with
  | [] => []
  | [x] => x
  | x :: l => x ++ sep ++ join sep l
  end.

(** [s.contains(p)]. *)
Fixpoint contains (s p : str) : bool :=
  starts_with s p || match s with [] => false | _ :: r => contains r p end.

(** [s.split(c)]: at least one part; [acc] holds the part being read, reversed. *)
Fixpoint split_char (c : Z) (acc : str) (s : str) : list str :=
  match s with
  | [] => [rev acc]
  | x :: s => if x =? c then rev acc :: split_char c [] s else split_char c (x :: acc) s
  end.
(** [s.split_once(c)]. *)
Definition split_once (c : Z) (s : str) : option (str * str) :=
  i ← find_char c s; Some (take i s, drop (S i) s).

Definition crlf : bytes := [13; 10].

(** ** Unsigned decimal numbers *)

Definition digit_of (c : Z) : option Z := if is_ascii_digit c then Some (c - 48) else None.

Fixpoint parse_digits (max acc : Z) (s : str) : option Z :=
  match s with
  | [] => Some acc
  | c :: r =>
    d ← digit_of c;
    let acc := acc * 10 + d in
    if acc <=? max then parse_digits max acc r else None
  end.
(** [s.parse::<uN>()] with [max] the type's maximum: an optional [+], then at least one digit. *)
Definition parse_uint (max : Z) (s : str) : option Z :=
  match s with
  | [] => None
  | [43] => None
  | 43 :: r => parse_digits max 0 r
  | _ => parse_digits max 0 s
  end.

Fixpoint show_dec_fuel (fuel : nat) (n : Z) : str :=
  match fuel with
  | O => []
  | S fuel => (if n / 10 =? 0 then [] else show_dec_fuel fuel (n / 10)) ++ [48 + n mod 10]
  end.
(** [n.to_string()]; 20 digits hold a [u64]. *)
Definition show_dec (n : Z) : str := show_dec_fuel 20 n.

(** ** Lemmas *)

Lemma utf8_next_bounds b ok n : utf8_next b = Some (ok, n) -> (1 <= n <= 4)%nat.
Proof. destruct b as [|x r]; [done|]. simpl. intros [= H]. repeat case_match; simplify_eq; lia. Qed.

Lemma from_utf8_Ok b s : from_utf8 b = Ok s <-> s = b /\ utf8_valid b = true.
Proof. unfold from_utf8. destruct (utf8_valid b); naive_solver. Qed.

Lemma from_utf8_valid b : utf8_valid b = true -> from_utf8 b = Ok b.
Proof. intros H. by apply from_utf8_Ok. Qed.

Lemma safe_from_utf8 b : safe (from_utf8 b).
Proof. unfold from_utf8. by destruct utf8_valid. Qed.
#[export] Hint Resolve safe_from_utf8 : safe.

Lemma in_rng_iff lo hi x : in_rng lo hi x = true <-> lo <= x <= hi.
Proof. unfold in_rng. rewrite andb_true_iff, !Z.leb_le. lia. Qed.

(** ASCII text is valid UTF-8. *)
Lemma utf8_valid_ascii s : Forall (fun c => 0 <= c < 128) s -> utf8_valid s = true.
Proof.
  unfold utf8_valid. induction 1 as [|c s Hc Hs IH]; [done|]. cbn -[in_rng].
  assert (in_rng 0 127 c = true) as -> by (apply in_rng_iff; lia). exact IH.
Qed.

(** ... and is decoded as it is. *)
Lemma from_utf8_lossy_ascii s : Forall (fun c => 0 <= c < 128) s -> from_utf8_lossy s = s.
Proof.
  unfold from_utf8_lossy. induction 1 as [|c s Hc Hs IH]; [done|]. cbn -[in_rng].
  assert (in_rng 0 127 c = true) as -> by (apply in_rng_iff; lia). simpl. by rewrite drop_0, IH.
Qed.

Lemma ascii_lower_idemp c : ascii_lower (ascii_lower c) = ascii_lower c.
Proof.
  unfold ascii_lower. destruct (in_rng 65 90 c) eqn:H; [|by rewrite H].
  apply in_rng_iff in H. destruct (in_rng 65 90 (c + 32)) eqn:H2; [|done].
  apply in_rng_iff in H2. lia.
Qed.

Lemma to_ascii_lowercase_idemp s : to_ascii_lowercase (to_ascii_lowercase s) = to_ascii_lowercase s.
Proof.
  unfold to_ascii_lowercase. rewrite <- list_fmap_compose. apply list_fmap_ext.
  intros; apply ascii_lower_idemp.
Qed.

Lemma length_lower s : length (to_ascii_lowercase s) = length s.
Proof. apply length_fmap. Qed.

(** The bytes of a Rust [str]. *)
Definition is_str (s : str) : Prop := u8s s /\ utf8_valid s = true.

Lemma from_utf8_str b s : u8s b -> from_utf8 b = Ok s -> s = b /\ is_str s.
Proof. intros Hb [-> H]%from_utf8_Ok. done. Qed.

Lemma from_utf8_is_str s : is_str s -> from_utf8 s = Ok s.
Proof. intros []. by apply from_utf8_valid. Qed.

(** ** Length-prefixed text: a tag, a 16-bit length, the text *)

Definition tagged_text (m s : bytes) : bytes := m ++ to_be 2 (len s) ++ s.

Section Tagged.
Context {E : Type} (m s : bytes) (Hs : len s <= 65535).

Lemma tagged_len : len (tagged_text m s) = len m + 2 + len s.
Proof using. unfold tagged_text. autorewrite with wire. lia. Qed.

Lemma tagged_rd i : i = len m -> @rd16 E (tagged_text m s) i = Ok (len s).
Proof using Hs.
  intros. apply rd16_mid; [done|]. pose proof (len_nonneg s). ranges. lia.
Qed.

Lemma tagged_slice i j :
  i = len m + 2 -> j = i + len s -> @slice E Z (tagged_text m s) i j = Ok s.
Proof using.
  intros. unfold tagged_text. rewrite app_assoc. apply slice_end; autorewrite with wire; lia.
Qed.
End Tagged.

Lemma tagged_inv {E} (m r s : bytes) tl i j k :
  u8s (m ++ r) -> i = len m -> @rd16 E (m ++ r) i = Ok tl -> len (m ++ r) = len m + 2 + tl ->
  @slice E Z (m ++ r) j k = Ok s -> j = len m + 2 -> k = j + tl ->
  m ++ r = tagged_text m s /\ len s = tl /\ 0 <= tl <= 65535 /\ u8s s.
Proof.
  intros Hu -> Hrd Hl (Hjk & Hk & ->)%slice_inv -> ->.
  pose proof (rd16_u16 _ _ _ Hu Hrd) as Htl. ranges. pose proof (len_nonneg m).
  rewrite rd16_sub in Hrd by lia. injection Hrd as Htl'.
  rewrite len_sub by lia. split_and!; [|lia..|by apply u8s_sub].
  unfold tagged_text. rewrite len_sub by lia.
  rewrite (list_sub3 (m ++ r) (len m) (len m + 2)) at 1 by lia.
  assert (sub (m ++ r) 0 (len m) = m) as ->
    by (apply (sub_mid [] m r); unfold len; simpl; lia).
  f_equal. f_equal.
  - replace (_ + 2 + tl - _) with tl by lia. rewrite <- Htl'.
    set (b := sub _ _ _). assert (len b = 2) as Hl2 by (unfold b; rewrite len_sub; lia).
    replace 2%nat with (length b) by (unfold len in Hl2; lia).
    rewrite to_be_of_be; [done|by apply u8s_sub].
  - f_equal. lia.
Qed.

Lemma tagged_start m s : starts_with (tagged_text m s) m = true.
Proof. apply starts_with_app. Qed.
Lemma tagged_op {E} o s : @ix E Z (tagged_text [o] s) 0 = Ok o.
Proof. done. Qed.
Lemma tagged_cons o s : tagged_text [o] s <> [].
Proof. done. Qed.
Lemma tagged_text_u16 m s :
  len s <= 65535 -> m ++ to_be 2 (as_u16 (len s)) ++ s = tagged_text m s.
Proof. intros. pose proof (len_nonneg s). unfold as_u16. by rewrite Z.mod_small by lia. Qed.

(** A first byte read back. *)
Lemma ix_0_cons {E} (b : bytes) o : @ix E Z b 0 = Ok o -> exists r, b = [o] ++ r.
Proof. rewrite ix_Ok. intros [_ H]. destruct b; simplify_eq/=. by eexists. Qed.

(** Length-prefixed text followed by more fields. *)
Section TaggedMore.
Context {E : Type} (m s r : bytes) (Hs : len s <= 65535).

Lemma tagged_more_rd i : i = len m -> @rd16 E (tagged_text m s ++ r) i = Ok (len s).
Proof using Hs.
  intros. unfold tagged_text. rewrite <- !app_assoc. apply rd16_mid; [done|].
  pose proof (len_nonneg s). ranges. lia.
Qed.

Lemma tagged_more_get i j :
  i = len m + 2 -> j = i + len s -> get_range (tagged_text m s ++ r) i j = Some s.
Proof using.
  intros. unfold tagged_text. rewrite app_assoc, <- app_assoc.
  apply get_range_mid; autorewrite with wire; lia.
Qed.

Lemma tagged_more_slice i : i = len m + 2 + len s -> @slice_from E Z (tagged_text m s ++ r) i = Ok r.
Proof using. intros. apply slice_from_end. by rewrite tagged_len. Qed.
End TaggedMore.

(** *** Decimal numbers read back *)

Lemma parse_digits_app max acc a b :
  parse_digits max acc (a ++ b) = parse_digits max acc a ≫= fun acc => parse_digits max acc b.
Proof.
  revert acc. induction a as [|c a IH]; intros acc; simpl; [done|].
  destruct (digit_of c) as [d|]; simpl; [|done]. destruct (_ <=? max); [apply IH|done].
Qed.

Lemma digit_of_48 d : 0 <= d < 10 -> digit_of (48 + d) = Some d.
Proof.
  intros. unfold digit_of, is_ascii_digit. assert (in_rng 48 57 (48 + d) = true) as -> by (apply in_rng_iff; lia).
  f_equal. lia.
Qed.

Lemma parse_show_dec_fuel k max n :
  0 <= n <= max -> n < 10 ^ Z.of_nat k -> parse_digits max 0 (show_dec_fuel k n) = Some n.
Proof.
  revert n. induction k as [|k IH]; intros n Hn Hk.
  { change (10 ^ Z.of_nat 0) with 1 in Hk. simpl. f_equal. lia. }
  cbn [show_dec_fuel]. rewrite parse_digits_app.
  rewrite Nat2Z.inj_succ, Z.pow_succ_r in Hk by lia.
  pose proof (Z.div_mod n 10 ltac:(lia)). pose proof (Z.mod_pos_bound n 10 ltac:(lia)).
  pose proof (Z.div_pos n 10 ltac:(lia) ltac:(lia)).
  assert (parse_digits max 0 (if n / 10 =? 0 then [] else show_dec_fuel k (n / 10)) = Some (n / 10)) as ->.
  { destruct (n / 10 =? 0) eqn:Hz; [apply Z.eqb_eq in Hz as ->; done|]. apply IH; [lia|].
    apply Z.div_lt_upper_bound; lia. }
  cbn [mbind option_bind parse_digits]. rewrite digit_of_48 by lia. cbn [mbind option_bind].
  replace (n / 10 * 10 + n mod 10) with n by lia.
  by rewrite (proj2 (Z.leb_le n max)) by lia.
Qed.

Lemma show_dec_fuel_digits k n :
  Forall (fun c => is_ascii_digit c = true) (show_dec_fuel k n) /\ (0 < k -> show_dec_fuel k n <> [])%nat.
Proof.
  revert n. induction k as [|k IH]; intros n; [split; [constructor|lia]|]. cbn [show_dec_fuel]. split.
  - apply Forall_app; split; [destruct (n / 10 =? 0); [constructor|apply IH]|].
    constructor; [|done]. apply in_rng_iff. pose proof (Z.mod_pos_bound n 10 ltac:(lia)). lia.
  - intros _ H. by apply app_eq_nil in H as [_ H].
Qed.

Lemma parse_show_dec max n : 0 <= n <= max -> n < 10 ^ 20 -> parse_uint max (show_dec n) = Some n.
Proof.
  intros Hn Hk. pose proof (parse_show_dec_fuel 20 max n Hn Hk) as Hp.
  destruct (show_dec_fuel_digits 20 n) as [Hd Hne]. unfold show_dec in *.
  destruct (show_dec_fuel 20 n) as [|c s]; [by specialize (Hne ltac:(lia))|].
  apply Forall_cons in Hd as [Hc _]. unfold is_ascii_digit in Hc. apply in_rng_iff in Hc.
  unfold parse_uint. repeat case_match; try done; lia.
Qed.

(** ** Splitting, and text without white space *)

Lemma find_char_skip c p r : Forall (fun x => x <> c) p -> find_char c (p ++ c :: r) = Some (length p).
Proof.
  induction 1 as [|x p Hx Hp IH]; simpl; [by rewrite Z.eqb_refl|].
  rewrite (proj2 (Z.eqb_neq x c) Hx), IH. done.
Qed.

Lemma find_char_Some c s n : find_char c s = Some n -> (n < length s)%nat /\ s !! n = Some c.
Proof.
  revert n. induction s as [|x s IH]; intros n; simpl; [done|].
  destruct (x =? c) eqn:Hx; [intros [= <-]; apply Z.eqb_eq in Hx as ->; split; [lia|done]|].
  destruct (find_char c s) as [m|]; [|done]. intros [= <-]. destruct (IH m eq_refl). split; [lia|done].
Qed.

(** The last separator splits: the right part has none. *)
Lemma rsplit_once_app c a b : Forall (fun x => x <> c) b -> rsplit_once c (a ++ c :: b) = Some (a, b).
Proof.
  intros Hb. unfold rsplit_once. rewrite rev_app_distr. simpl. rewrite <- app_assoc. simpl.
  rewrite find_char_skip by (by apply Forall_rev).
  rewrite length_rev, length_app. simpl. replace (length a + S (length b) - 1 - length b)%nat with (length a) by lia.
  rewrite take_app_length. f_equal. f_equal. rewrite (cons_middle c a b), app_assoc.
  rewrite drop_app_length'; [done|]. rewrite length_app. simpl. lia.
Qed.

(** Visible ASCII, of which the text of an authority is made. *)
Definition graphic (s : str) : Prop := Forall (fun c => 33 <= c <= 126) s.

Lemma ws_len_graphic c s : 33 <= c <= 126 -> ws_len (c :: s) = 0%nat.
Proof.
  intros Hc. unfold ws_len.
  repeat match goal with
  | |- context [c =? ?k] => rewrite (proj2 (Z.eqb_neq c k)) by lia
  end. destruct (in_rng 9 13 c) eqn:H; [apply in_rng_iff in H; lia|]. simpl. by destruct s as [|? [|]].
Qed.

Lemma trim_graphic s : graphic s -> trim s = s.
Proof.
  intros Hs. unfold trim, trim_start, trim_end.
  assert (forall k, (1 <= k <= length s)%nat -> ws_len (drop (length s - k) s) = 0%nat) as Hd.
  { intros k Hk. destruct (drop (length s - k) s) as [|c r] eqn:Hdr; [done|].
    apply ws_len_graphic. assert (graphic (c :: r)) as [? _]%Forall_cons by (rewrite <- Hdr; by apply Forall_drop). done. }
  assert (trim_start_fuel (length s) s = s) as ->.
  { destruct s as [|c r]; [done|]. apply Forall_cons in Hs as [Hc _]. cbn [length trim_start_fuel].
    by rewrite (ws_len_graphic c r Hc). }
  destruct s as [|c r] eqn:E; [done|]. rewrite <- E in *. assert (1 <= length s)%nat by (rewrite E; simpl; lia).
  assert (ws_len_end s = 0%nat) as Hw.
  { unfold ws_len_end. rewrite (Hd 1%nat) by lia. cbn [Nat.eqb].
    destruct (2 <=? length s)%nat eqn:H2; [apply Nat.leb_le in H2; rewrite (Hd 2%nat) by lia|]; cbn [andb Nat.eqb];
    (destruct (3 <=? length s)%nat eqn:H3; [apply Nat.leb_le in H3; rewrite (Hd 3%nat) by lia|]); done. }
  destruct (length s); [lia|]. simpl. by rewrite Hw.
Qed.

(** Trimming twice is trimming once. *)
Lemma ws_len_le s : (ws_len s <= length s)%nat.
Proof. unfold ws_len. repeat case_match; simpl; lia. Qed.
Lemma ws_len_app p s : ws_len p <> 0%nat -> ws_len (p ++ s) = ws_len p.
Proof.
  destruct p as [|x [|y [|z p]]]; cbn [app]; [done|..]; unfold ws_len.
  - destruct (in_rng 9 13 x || (x =? 32)); [done|]. done.
  - destruct (in_rng 9 13 x || (x =? 32)); [done|]. destruct (_ && _); [done|]. done.
  - done.
Qed.
Lemma trim_start_fuel_done fuel s : (length s <= fuel)%nat -> ws_len (trim_start_fuel fuel s) = 0%nat.
Proof.
  revert s. induction fuel as [|fuel IH]; intros s Hs; simpl; [by destruct s; [|simpl in Hs; lia]|].
  pose proof (ws_len_le s). destruct (ws_len s) as [|n] eqn:E; [done|]. apply IH. rewrite length_drop. lia.
Qed.
Lemma ws_len_end_le s : (ws_len_end s <= length s)%nat.
Proof.
  unfold ws_len_end. destruct (Nat.eqb_spec (ws_len (drop (length s - 1) s)) 1) as [E|_].
  { destruct s; [done|simpl; lia]. }
  destruct (2 <=? length s)%nat eqn:H2; [apply Nat.leb_le in H2|]; cbn [andb]; [destruct (Nat.eqb _ _); [lia|]|];
  (destruct (3 <=? length s)%nat eqn:H3; [apply Nat.leb_le in H3; cbn [andb]; destruct (Nat.eqb _ _); lia|simpl; lia]).
Qed.
Lemma trim_end_fuel_done fuel s : (length s <= fuel)%nat -> ws_len_end (trim_end_fuel fuel s) = 0%nat.
Proof.
  revert s. induction fuel as [|fuel IH]; intros s Hs; simpl; [by destruct s; [|simpl in Hs; lia]|].
  pose proof (ws_len_end_le s). destruct (ws_len_end s) as [|n] eqn:E; [done|]. apply IH. rewrite length_take. lia.
Qed.
Lemma trim_end_fuel_prefix fuel s : exists r, s = trim_end_fuel fuel s ++ r.
Proof.
  revert s. induction fuel as [|fuel IH]; intros s; simpl; [exists []; by rewrite app_nil_r|].
  destruct (ws_len_end s) as [|n]; [exists []; by rewrite app_nil_r|].
  destruct (IH (take (length s - S n) s)) as [r Hr]. exists (r ++ drop (length s - S n) s).
  by rewrite app_assoc, <- Hr, take_drop.
Qed.
Lemma trim_idemp s : trim (trim s) = trim s.
Proof.
  assert (ws_len (trim s) = 0%nat) as Hs.
  { pose proof (trim_start_fuel_done (length s) s (le_n _)) as H0. unfold trim, trim_end. fold (trim_start s) in H0.
    destruct (trim_end_fuel_prefix (length (trim_start s)) (trim_start s)) as [r Hr].
    destruct (decide (ws_len (trim_end_fuel (length (trim_start s)) (trim_start s)) = 0%nat)) as [|Hn]; [done|].
    apply (ws_len_app _ r) in Hn as Hn'. rewrite <- Hr in Hn'. congruence. }
  assert (ws_len_end (trim s) = 0%nat) as He by by apply trim_end_fuel_done.
  unfold trim at 1, trim_start. destruct (length (trim s)) as [|n] eqn:El; [by destruct (trim s)|].
  cbn [trim_start_fuel]. rewrite Hs. unfold trim_end. rewrite El. cbn [trim_end_fuel]. by rewrite He.
Qed.
Lemma given_idemp s t : given s = Some t -> given (Some t) = Some t /\ trim t = t /\ t <> [].
Proof.
  unfold given. destruct s as [s|]; [|done]. case_decide as Hn; [done|]. intros [= <-].
  rewrite trim_idemp. by rewrite decide_False.
Qed.

(** What a number is read as is within its type. *)
Lemma parse_digits_nonneg max acc s n : 0 <= acc -> parse_digits max acc s = Some n -> 0 <= n.
Proof.
  revert acc. induction s as [|c s IH]; intros acc Ha; simpl; [by intros [= <-]|].
  unfold digit_of. destruct (is_ascii_digit c) eqn:Hc; [|done]. apply in_rng_iff in Hc. cbn. destruct (_ <=? max); [|done].
  apply IH. lia.
Qed.
Lemma parse_uint_nonneg max s n : parse_uint max s = Some n -> 0 <= n.
Proof.
  unfold parse_uint. destruct s as [|c s]; [done|]. intros H.
  assert (exists t, parse_digits max 0 t = Some n) as [t Ht].
  { destruct (decide (c = 43)) as [->|Hc]; [destruct s; [done|by eexists]|]. exists (c :: s).
    destruct c as [|c|c]; try done. repeat (destruct c as [c|c|]; try done). }
  by apply parse_digits_nonneg in Ht.
Qed.
Lemma parse_digits_bound max acc s n : acc <= max -> parse_digits max acc s = Some n -> n <= max.
Proof.
  revert acc. induction s as [|c s IH]; intros acc Ha; simpl; [by intros [= <-]|].
  destruct (digit_of c) as [d|]; [|done]. cbn [mbind option_bind]. destruct (acc * 10 + d <=? max) eqn:E; [|done].
  apply IH. by apply Z.leb_le.
Qed.
Lemma parse_uint_bound max s n : 0 <= max -> parse_uint max s = Some n -> 0 <= n <= max.
Proof.
  intros Hm H. split; [by apply (parse_uint_nonneg max s)|]. revert H. unfold parse_uint.
  repeat case_match; try done; by apply parse_digits_bound.
Qed.
