(* ===== verification/Net.v ===== *)
(** [std::net] addresses: the values, their textual forms as Rust's parser
    reads them and as [Display] writes them, and the range tests in use. *)
From S2P Require Import Prelude Text.

(** An [Ipv4Addr] is its [u32], an [Ipv6Addr] its [u128]. *)
Inductive IpAddr : Set :=
| V4 (a : Z)
| V6 (a : Z).

#[export] Instance IpAddr_eq_dec : EqDecision IpAddr.
Proof. solve_decision. Defined.
#[export] Instance IpAddr_countable : Countable IpAddr.
Proof.
  refine (inj_countable' (fun i => match i with V4 a => inl a | V6 a => inr a end)
    (fun s => match s with inl a => V4 a | inr a => V6 a end) _). by intros [].
Defined.

Definition is_ipv4 (a : Z) : Prop := 0 <= a < 2 ^ 32.
Definition is_ipv6 (a : Z) : Prop := 0 <= a < 2 ^ 128.
Definition is_ip (i : IpAddr) : Prop := match i with V4 a => is_ipv4 a | V6 a => is_ipv6 a end.

Definition octets4 (a : Z) : bytes := to_be 4 a.
Definition octets6 (a : Z) : bytes := to_be 16 a.

(** The eight 16-bit segments, most significant first. *)
Definition segment (a : Z) (k : nat) : Z := a / 2 ^ (112 - 16 * Z.of_nat k) mod 65536.
Definition segments (a : Z) : list Z := segment a <$> seq 0 8.
Fixpoint of_segments (l : list Z) : Z :=
  match l with [] => 0 | x :: l => x * 65536 ^ Z.of_nat (length l) + of_segments l end.

(** [Ipv6Addr::to_ipv4_mapped]: [::ffff:a.b.c.d]. *)
Definition to_ipv4_mapped (a : Z) : option Z :=
  if a / 2 ^ 32 =? 65535 then Some (a mod 2 ^ 32) else None.

(** ** Parsing ([core::net::parser]) *)

(** A parser returns the value and the unread text; [None] restores the input. *)
Definition parser (A : Type) := str -> option (A * str).

Definition hex_digit (c : Z) : option Z :=
  if in_rng 48 57 c then Some (c - 48)
  else if in_rng 97 102 c then Some (c - 87)
  else if in_rng 65 70 c then Some (c - 55) else None.
Definition to_digit (radix c : Z) : option Z :=
  d ← hex_digit c; if d <? radix then Some d else None.

(** The digits at the front of [s], and the rest. *)
Fixpoint take_digits (radix : Z) (s : str) : list Z * str :=
  match s with
  | [] => ([], [])
  | c :: r =>
    match to_digit radix c with
    | Some d => let '(ds, s') := take_digits radix r in (d :: ds, s')
    | None => ([], s)
    end
  end.
Definition digits_value (radix : Z) (ds : list Z) : Z :=
  fold_left (fun acc d => acc * radix + d) ds 0.

Definition read_number (radix max : Z) (max_digits : nat) (allow_zero_prefix : bool) : parser Z :=
  fun s =>
    let '(ds, r) := take_digits radix s in
    if decide (max_digits < length ds)%nat then None
    else if decide (ds = []) then None
    else if negb allow_zero_prefix && bool_decide (head ds = Some 0) && (1 <? length ds)%nat then None
    else if digits_value radix ds <=? max then Some (digits_value radix ds, r) else None.

Definition read_given_char (c : Z) : parser unit :=
  fun s => match s with x :: r => if x =? c then Some (tt, r) else None | [] => None end.

(** [read_separator]: the separator precedes every element but the first. *)
Definition read_separator {A} (sep : Z) (index : nat) (p : parser A) : parser A :=
  fun s => if Nat.eqb index 0 then p s else '(_, s) ← read_given_char sep s; p s.

Definition read_octet (i : nat) : parser Z := read_separator 46 i (read_number 10 255 3 false).

Definition read_ipv4_addr : parser Z := fun s =>
  '(a, s) ← read_octet 0 s; '(b, s) ← read_octet 1 s;
  '(c, s) ← read_octet 2 s; '(d, s) ← read_octet 3 s;
  Some (of_be [a; b; c; d], s).

(** [read_groups] on [n] remaining slots, at position [i]: the groups read,
    whether they end with an embedded IPv4 address, and the rest. *)
Fixpoint read_groups (n i : nat) (s : str) : list Z * bool * str :=
  match n with
  | O => ([], false, s)
  | S n' =>
    let embedded := if (2 <=? n)%nat then read_separator 58 i read_ipv4_addr s else None in
    match embedded with
    | Some (v4, s) => ([v4 / 65536; v4 mod 65536], true, s)
    | None =>
      match read_separator 58 i (read_number 16 65535 4 true) s with
      | Some (g, s) => let '(gs, e, s) := read_groups n' (S i) s in (g :: gs, e, s)
      | None => ([], false, s)
      end
    end
  end.

Definition read_ipv6_addr : parser Z := fun s =>
  let '(head, head_ipv4, s) := read_groups 8 0 s in
  if Nat.eqb (length head) 8 then Some (of_segments head, s)
  else if head_ipv4 then None
  else
    '(_, s) ← read_given_char 58 s; '(_, s) ← read_given_char 58 s;
    let '(tail, _, s) := read_groups (8 - (length head + 1)) 0 s in
    Some (of_segments (head ++ replicate (8 - length head - length tail) 0 ++ tail), s).

(** [parse_with]: the whole text must be consumed. *)
Definition parse_with {A} (p : parser A) (s : str) : option A :=
  '(a, r) ← p s; match r with [] => Some a | _ => None end.

(** [s.parse::<Ipv4Addr>()], [s.parse::<Ipv6Addr>()], [s.parse::<IpAddr>()]. *)
Definition parse_ipv4 (s : str) : option Z :=
  if decide (15 < len s) then None else parse_with read_ipv4_addr s.
Definition parse_ipv6 (s : str) : option Z := parse_with read_ipv6_addr s.
Definition parse_ip (s : str) : option IpAddr :=
  parse_with (fun s =>
    match read_ipv4_addr s with
    | Some (a, r) => Some (V4 a, r)
    | None => '(a, r) ← read_ipv6_addr s; Some (V6 a, r)
    end) s.

(** ** [Display] *)

Definition show_ipv4 (a : Z) : str := join [46] (show_dec <$> octets4 a).

Definition hex_char (d : Z) : Z := if d <? 10 then 48 + d else 87 + d.
Fixpoint show_hex_fuel (fuel : nat) (n : Z) : str :=
  match fuel with
  | O => []
  | S fuel => (if n / 16 =? 0 then [] else show_hex_fuel fuel (n / 16)) ++ [hex_char (n mod 16)]
  end.
(** [{:x}] of a [u16]. *)
Definition show_hex (n : Z) : str := show_hex_fuel 4 n.

(** The first longest run of zero segments: (start, length). *)
Fixpoint zero_run (l : list Z) (i : nat) (cur best : nat * nat) : nat * nat :=
  match l with
  | [] => best
  | x :: l =>
    if x =? 0 then
      let cur := ((if Nat.eqb cur.2 0 then i else cur.1), S cur.2) in
      zero_run l (S i) cur (if (best.2 <? cur.2)%nat then cur else best)
    else zero_run l (S i) (0, 0)%nat best
  end.

Definition show_groups (l : list Z) : str := join [58] (show_hex <$> l).

Definition show_ipv6 (a : Z) : str :=
  match to_ipv4_mapped a with
  | Some v4 => bs "::ffff:" ++ show_ipv4 v4
  | None =>
    let segs := segments a in
    let '(start, n) := zero_run segs 0 (0, 0)%nat (0, 0)%nat in
    if (1 <? n)%nat then
      show_groups (take start segs) ++ [58; 58] ++ show_groups (drop (start + n) segs)
    else show_groups segs
  end.

Definition show_ip (i : IpAddr) : str := match i with V4 a => show_ipv4 a | V6 a => show_ipv6 a end.

Example parse_v6_1 : parse_ipv6 (bs "2001:db8::1") = Some 42540766411282592856903984951653826561.
Proof. vm_compute. reflexivity. Qed.
Example show_v6_1 : show_ipv6 42540766411282592856903984951653826561 = bs "2001:db8::1".
Proof. vm_compute. reflexivity. Qed.
Example parse_v6_mapped : to_ipv4_mapped <$> parse_ipv6 (bs "::ffff:1.2.3.4") = Some (Some 16909060).
Proof. vm_compute. reflexivity. Qed.
Example parse_v6_bad : parse_ipv6 (bs "2001:db8:") = None /\ parse_ipv6 (bs "1.2.3.4::") = None.
Proof. vm_compute. done. Qed.
Example parse_v4_zero : parse_ipv4 (bs "1.02.3.4") = None /\ parse_ipv4 (bs "1.2.3.4") = Some 16909060.
Proof. vm_compute. done. Qed.
Example show_v6_runs : show_ipv6 0 = bs "::" /\ show_ipv6 1 = bs "::1".
Proof. vm_compute. done. Qed.

(** ** IPv4 text is canonical: parsing then printing gives the text back *)

Definition is_digit10 (d : Z) : Prop := 0 <= d < 10.

Lemma to_digit10 c d : to_digit 10 c = Some d -> c = 48 + d /\ is_digit10 d.
Proof.
  unfold to_digit, hex_digit, in_rng, is_digit10. intros (e & He & H)%bind_Some.
  destruct (e <? 10) eqn:Hlt; simplify_eq. apply Z.ltb_lt in Hlt.
  repeat (case_match; simplify_eq);
    repeat match goal with
    | H : _ && _ = true |- _ => apply andb_true_iff in H as [?%Z.leb_le ?%Z.leb_le]
    end; lia.
Qed.

Lemma take_digits10 s ds r :
  take_digits 10 s = (ds, r) -> s = ((fun d => 48 + d) <$> ds) ++ r /\ Forall is_digit10 ds.
Proof.
  revert ds r. induction s as [|c s IH]; simpl; intros ds r H; simplify_eq; [done|].
  destruct (to_digit 10 c) as [d|] eqn:Hd; simplify_eq; [|done].
  destruct (take_digits 10 s) as [ds' r'] eqn:Ht. simplify_eq.
  apply to_digit10 in Hd as [-> ?]. destruct (IH _ _ eq_refl) as [-> ?].
  split; [done|by constructor].
Qed.

(** Every octet text of at most three digits without a leading zero prints back. *)
Definition octet_prints (ds : list Z) : bool :=
  (bool_decide (head ds = Some 0) && (1 <? length ds)%nat)
  || bool_decide (show_dec (digits_value 10 ds) = (fun d => 48 + d) <$> ds).

Definition digits10 : list Z := Z.of_nat <$> seq 0 10.

Lemma octet_prints_all :
  forallb (fun a => octet_prints [a] && forallb (fun b => octet_prints [a; b] &&
    forallb (fun c => octet_prints [a; b; c]) digits10) digits10) digits10 = true.
Proof. vm_compute. reflexivity. Qed.

Lemma digits10_In d : is_digit10 d -> In d digits10.
Proof.
  intros [H0 H1]. apply in_map_iff. exists (Z.to_nat d). split; [lia|].
  apply in_seq. lia.
Qed.

Lemma octet_prints_digits ds :
  Forall is_digit10 ds -> ds <> [] -> (length ds <= 3)%nat -> octet_prints ds = true.
Proof.
  intros Hf Hne Hl. pose proof octet_prints_all as Hall.
  destruct ds as [|a ds]; [done|]. apply Forall_cons in Hf as [Ha%digits10_In Hf].
  rewrite forallb_forall in Hall. specialize (Hall a Ha). apply andb_true_iff in Hall as [H1 Hall].
  destruct ds as [|b ds]; [done|]. apply Forall_cons in Hf as [Hb%digits10_In Hf].
  rewrite forallb_forall in Hall. specialize (Hall b Hb). apply andb_true_iff in Hall as [H2 Hall].
  destruct ds as [|c ds]; [done|]. apply Forall_cons in Hf as [Hc%digits10_In Hf].
  rewrite forallb_forall in Hall. specialize (Hall c Hc).
  destruct ds; [done|simpl in Hl; lia].
Qed.

Lemma read_octet_number s v r :
  read_number 10 255 3 false s = Some (v, r) -> s = show_dec v ++ r /\ is_u8 v.
Proof.
  unfold read_number. destruct (take_digits 10 s) as [ds s'] eqn:Ht. simpl negb.
  rewrite andb_true_l. do 2 (case_decide; [done|]).
  destruct (bool_decide (head ds = Some 0) && (1 <? length ds)%nat) eqn:Hz; [done|].
  destruct (_ <=? 255) eqn:Hle; [|done]. intros [= <- <-]. apply Z.leb_le in Hle.
  destruct (take_digits10 _ _ _ Ht) as [-> Hds].
  pose proof (octet_prints_digits ds Hds) as Hp. unfold octet_prints in Hp.
  specialize (Hp ltac:(done) ltac:(lia)).
  rewrite Hz in Hp. apply bool_decide_eq_true in Hp as ->.
  split; [done|].
  assert (0 <= digits_value 10 ds); [|ranges; lia].
  unfold digits_value. assert (Hg : forall acc, 0 <= acc -> 0 <= fold_left (fun acc d => acc * 10 + d) ds acc).
  { clear -Hds. induction Hds as [|d ds Hd _ IH]; [done|]. intros acc ?. simpl.
    apply IH. unfold is_digit10 in Hd. lia. }
  by apply Hg.
Qed.

Lemma read_octet_S i s v r : read_octet (S i) s = Some (v, r) -> s = 46 :: show_dec v ++ r /\ is_u8 v.
Proof.
  unfold read_octet, read_separator. simpl. destruct s as [|x s]; [done|]. simpl.
  destruct (x =? 46) eqn:Hx; [|done]. apply Z.eqb_eq in Hx as ->. simpl.
  intros [-> ?]%read_octet_number. done.
Qed.

Lemma octets4_of_be a b c d :
  is_u8 a -> is_u8 b -> is_u8 c -> is_u8 d -> octets4 (of_be [a; b; c; d]) = [a; b; c; d].
Proof. intros. apply (to_be_of_be [a; b; c; d]). unfold u8s; by repeat (apply Forall_cons; split) . Qed.

Lemma parse_ipv4_show s a : parse_ipv4 s = Some a -> show_ipv4 a = s /\ is_ipv4 a.
Proof.
  unfold parse_ipv4, parse_with, read_ipv4_addr. case_decide; [done|].
  destruct (read_octet 0 s) as [[v0 s0]|] eqn:H0; [|done]. simpl.
  destruct (read_octet 1 s0) as [[v1 s1]|] eqn:H1; [|done]. simpl.
  destruct (read_octet 2 s1) as [[v2 s2]|] eqn:H2; [|done]. simpl.
  destruct (read_octet 3 s2) as [[v3 s3]|] eqn:H3; [|done]. simpl.
  destruct s3; [|done]. intros Ha.
  assert (a = of_be [v0; v1; v2; v3]) as -> by (injection Ha as <-; reflexivity). clear Ha.
  apply read_octet_number in H0 as [-> ?].
  apply read_octet_S in H1 as [-> ?], H2 as [-> ?], H3 as [-> ?].
  unfold show_ipv4. rewrite octets4_of_be by done. split.
  - cbn [fmap list_fmap join]. rewrite !app_nil_r. simpl. by rewrite <- ?app_assoc.
  - pose proof (of_be_bound [v0; v1; v2; v3]) as Hb. unfold is_ipv4. apply Hb. unfold u8s; by repeat (apply Forall_cons; split).
Qed.

(** ** Parsed addresses are in range *)

Definition u16s (l : list Z) : Prop := Forall is_u16 l.

Lemma of_segments_bound l : u16s l -> 0 <= of_segments l < 65536 ^ Z.of_nat (length l).
Proof.
  induction 1 as [|x l Hx Hl IH]; [done|]. cbn [of_segments length].
  rewrite Nat2Z.inj_succ, Z.pow_succ_r by lia. unfold is_u16 in Hx.
  pose proof (Z.pow_pos_nonneg 65536 (Z.of_nat (length l))). nia.
Qed.

Lemma take_digits_nonneg radix s ds r : take_digits radix s = (ds, r) -> Forall (fun d => 0 <= d) ds.
Proof.
  revert ds r. induction s as [|c s IH]; simpl; intros ds r; [by intros [= <- <-]|].
  destruct (to_digit radix c) as [d|] eqn:Hd; [|by intros [= <- <-]].
  destruct (take_digits radix s) as [ds' r'] eqn:Ht. intros [= <- <-].
  constructor; [|by eapply IH].
  unfold to_digit, hex_digit in Hd. apply bind_Some in Hd as (e & He & Hd).
  destruct (e <? radix); simplify_eq.
  repeat case_match; simplify_eq;
    repeat match goal with H : in_rng _ _ _ = true |- _ => apply in_rng_iff in H end; lia.
Qed.

Lemma digits_value_nonneg radix ds : 0 <= radix -> Forall (fun d => 0 <= d) ds -> 0 <= digits_value radix ds.
Proof.
  intros Hr. unfold digits_value.
  enough (forall acc, 0 <= acc -> Forall (fun d => 0 <= d) ds ->
    0 <= fold_left (fun acc d => acc * radix + d) ds acc) as H by (intros; apply H; done || lia).
  induction ds as [|d ds IH]; simpl; [done|]. intros acc Ha [Hd Hds]%Forall_cons. apply IH; [nia|done].
Qed.

Lemma read_number_bound radix max k z s v r :
  0 <= radix -> read_number radix max k z s = Some (v, r) -> 0 <= v <= max.
Proof.
  intros Hr. unfold read_number. destruct (take_digits radix s) as [ds r'] eqn:Ht.
  apply take_digits_nonneg in Ht. repeat (case_decide; [done|]).
  case_match; [done|]. destruct (_ <=? max) eqn:Hm; intros; simplify_eq.
  apply Z.leb_le in Hm. split; [|done]. by apply digits_value_nonneg.
Qed.

Lemma read_separator_inv {A} sep i (p : parser A) s v r :
  read_separator sep i p s = Some (v, r) -> exists s', p s' = Some (v, r).
Proof.
  unfold read_separator. destruct (Nat.eqb i 0); [by eauto|].
  intros ([[] s'] & _ & H)%bind_Some. by exists s'.
Qed.

Lemma read_ipv4_addr_bound s a r : read_ipv4_addr s = Some (a, r) -> is_ipv4 a.
Proof.
  unfold read_ipv4_addr, read_octet. intros ([a0 s0] & H0 & H)%bind_Some.
  apply bind_Some in H as ([a1 s1] & H1 & H). apply bind_Some in H as ([a2 s2] & H2 & H).
  apply bind_Some in H as ([a3 s3] & H3 & H).
  assert (a = of_be [a0; a1; a2; a3]) as -> by (injection H as <-; reflexivity).
  apply read_separator_inv in H0 as [? H0], H1 as [? H1], H2 as [? H2], H3 as [? H3].
  apply read_number_bound in H0, H1, H2, H3; try lia.
  apply (of_be_bound [a0; a1; a2; a3]). unfold u8s, is_u8. repeat constructor; lia.
Qed.

Lemma read_groups_bound n i s gs e r :
  read_groups n i s = (gs, e, r) -> u16s gs /\ (length gs <= n)%nat.
Proof.
  revert i s gs e r. induction n as [|n IH]; intros i s gs e r H; [injection H as <- <- <-; by split; [constructor|]|]. cbn [read_groups] in H.
  destruct (if (2 <=? S n)%nat then _ else _) as [[v4 s']|] eqn:Hv4.
  - injection H as <- <- <-. destruct n as [|n]; [done|]. apply read_separator_inv in Hv4 as [? Hv4].
    apply read_ipv4_addr_bound in Hv4. unfold is_ipv4 in Hv4. split; [|simpl; lia].
    change (2 ^ 32) with (65536 * 65536) in Hv4.
    pose proof (Z.mod_pos_bound v4 65536). pose proof (Z.div_lt_upper_bound v4 65536 65536).
    pose proof (Z.div_pos v4 65536). unfold u16s, is_u16. repeat constructor; lia.
  - destruct (read_separator 58 i (read_number 16 65535 4 true) s) as [[g s']|] eqn:Hg; [|injection H as <- <- <-; simpl; split; [constructor|lia]].
    destruct (read_groups n (S i) s') as [[gs' e'] r'] eqn:Hr. injection H as <- <- <-.
    apply read_separator_inv in Hg as [? Hg]. apply read_number_bound in Hg; [|lia].
    apply IH in Hr as [Hu Hl]. split; [constructor; [unfold is_u16; lia|done]|simpl; lia].
Qed.

Lemma read_ipv6_addr_bound s a r : read_ipv6_addr s = Some (a, r) -> is_ipv6 a.
Proof.
  assert (forall l, u16s l -> length l = 8%nat -> is_ipv6 (of_segments l)) as Hl8.
  { intros l Hu Hl. pose proof (of_segments_bound l Hu) as Hb. by rewrite Hl in Hb. }
  unfold read_ipv6_addr. destruct (read_groups 8 0 s) as [[hd e] s1] eqn:Hh.
  apply read_groups_bound in Hh as [Hhu Hhl].
  destruct (Nat.eqb (length hd) 8) eqn:H8; [intros [= <- <-]; apply Hl8; [done|by apply Nat.eqb_eq]|].
  apply Nat.eqb_neq in H8. destruct e; [done|].
  intros ([[] s2] & _ & H)%bind_Some. apply bind_Some in H as ([[] s3] & _ & H).
  destruct (read_groups _ 0 s3) as [[tl e'] s4] eqn:Ht. apply read_groups_bound in Ht as [Htu Htl].
  injection H as <- <-. apply Hl8.
  - apply Forall_app; split; [done|]. apply Forall_app; split; [|done].
    by apply Forall_replicate.
  - rewrite !length_app, length_replicate. lia.
Qed.

Lemma parse_ipv6_bound s a : parse_ipv6 s = Some a -> is_ipv6 a.
Proof.
  unfold parse_ipv6, parse_with. intros ([a' r] & H & Hr)%bind_Some.
  destruct r; simplify_eq. by eapply read_ipv6_addr_bound.
Qed.

Lemma octets4_inv a : is_ipv4 a -> of_be (octets4 a) = a.
Proof. intros. by apply of_be_to_be_id. Qed.
Lemma octets6_inv a : is_ipv6 a -> of_be (octets6 a) = a.
Proof. intros. by apply of_be_to_be_id. Qed.

(** The text of an address is ASCII. *)
Abbreviation is_ascii := (Forall (fun c => 0 <= c < 128)).

Lemma is_ascii_str s : is_ascii s -> is_str s.
Proof. intros H. split; [|by apply utf8_valid_ascii]. eapply Forall_impl; [exact H|]. intros x Hx. simpl in Hx. unfold is_u8. lia. Qed.

Lemma join_ascii sep l : is_ascii sep -> Forall (Forall (fun c => 0 <= c < 128)) l -> is_ascii (join sep l).
Proof.
  intros Hs Hl. induction Hl as [|s l Hs' _ IH]; [constructor|]. destruct l as [|s' l]; [done|].
  cbn [join] in *. rewrite !Forall_app. done.
Qed.

Lemma show_dec_ascii n : is_ascii (show_dec n).
Proof.
  eapply Forall_impl; [apply (show_dec_fuel_digits 20 n)|]. intros c Hc. simpl in Hc.
  apply in_rng_iff in Hc. lia.
Qed.

Lemma show_ipv4_ascii a : is_ascii (show_ipv4 a).
Proof.
  apply join_ascii; [repeat constructor; done|]. unfold octets4, to_be.
  repeat constructor; apply show_dec_ascii.
Qed.

Lemma show_hex_ascii n : is_ascii (show_hex n).
Proof.
  unfold show_hex. generalize 4%nat. intros k. revert n. induction k as [|k IH]; intros n; [constructor|]. cbn [show_hex_fuel].
  apply Forall_app. split; [by destruct (n / 16 =? 0)|]. apply Forall_singleton. unfold hex_char.
  pose proof (Z.mod_pos_bound n 16). destruct (n mod 16 <? 10) eqn:E; lia.
Qed.

Lemma show_ip_str i : is_str (show_ip i).
Proof.
  apply is_ascii_str. destruct i as [a|a]; [apply show_ipv4_ascii|]. unfold show_ip, show_ipv6.
  assert (forall l, is_ascii (show_groups l)) as Hg.
  { intros l. apply join_ascii; [repeat constructor; done|]. apply Forall_fmap, Forall_forall. intros x _. apply show_hex_ascii. }
  destruct (to_ipv4_mapped a) as [v|].
  - apply Forall_app. split; [repeat constructor; done|apply show_ipv4_ascii].
  - destruct (zero_run _ _ _ _) as [st n]. destruct (1 <? n)%nat; [|apply Hg].
    rewrite !Forall_app. split_and!; [apply Hg|repeat constructor; done|apply Hg].
Qed.
