(* ===== verification/WebSocket.v ===== *)
(** WebSocket messages as [tungstenite] delivers them, shared by the components that
    speak over an upgraded connection. *)
From S2P Require Import Prelude.

Inductive Message : Type :=
| Binary (b : bytes)
| TextMsg (s : str)
| Ping (p : bytes)
| Pong (p : bytes)
| CloseMsg.

(** What is handed to the bridge of a tunnel along with its connection. *)
Inductive WsBridgePrefetch : Type :=
| Ws (m : Message)
| OpenedPayload (payload : bytes).

(** Control frames, which a handshake skips. *)
Definition is_noise (m : Message) : Prop := match m with Ping _ | Pong _ => True | _ => False end.
(** The pongs a list of control frames is answered with. *)
Definition replies (l : list Message) : list Message :=
  concat ((fun m => match m with Ping d => [Pong d] | _ => [] end) <$> l).
