(* ===== verification/Frame.v ===== *)
(** [frame.rs]: the padded frame inside one WebSocket binary message, its
    padding modes, and the plaintext budget per message. *)
From S2P Require Import Prelude Text.

Definition FRAME_VER : Z := 1.
Definition MAX_PAYLOAD : Z := 16 * 1024 * 1024.
Definition DEFAULT_MAX_WS_BINARY : Z := 262144.
Definition HTTP_BUCKETS : list Z :=
  [128; 256; 512; 1024; 1460; 2048; 4096; 8192; 16384; 32768; 65536].

(** Inner frames sent so far on this WebSocket. *)
Record AdaptivePadState := { count : Z }.

Inductive PadMode : Set := Random | HttpBuckets | Adaptive.
#[export] Instance PadMode_eq_dec : EqDecision PadMode.
Proof. solve_decision. Defined.

(** [PadMode::from_str]. *)
Definition pad_mode_from_str (s : str) : result PadMode :=
  let s := replace_char 95 45 (to_ascii_lowercase (trim s)) in
  if decide (s = [] \/ s = bs "adaptive") then Ok Adaptive
  else if decide (s = bs "random") then Ok Random
  else if decide (s = bs "http-buckets" \/ s = bs "buckets") then Ok HttpBuckets
  else bail "unknown pad-mode".

Definition max_tcp_payload_per_ws_message (v2 : bool) (decoy_max max_pad max_ws_binary : Z) : Z :=
  if decide (max_ws_binary < 48) then 0
  else if negb v2 then
    let overhead := sat_add USIZE_MAX 5 max_pad in
    sat_sub max_ws_binary overhead
  else
    let fixed := sat_add USIZE_MAX (sat_add USIZE_MAX (sat_add USIZE_MAX 29 decoy_max) 5) max_pad in
    sat_sub max_ws_binary fixed.

Inductive FrameError : Set := Proto (msg : str) | TooLarge.

(** The validated parts, their total length and the padding drawn for them. *)
Record PreparedFrame := { parts : list bytes; plen : Z; pad_len : Z }.

(** [try_fold(0usize, checked_add)] over the part lengths. *)
Definition add_part (acc : option Z) (p : bytes) : option Z :=
  n ← acc; if decide (n + len p <= USIZE_MAX) then Some (n + len p) else None.
Definition total_len (ps : list bytes) : option Z := fold_left add_part ps (Some 0).

(** The padding of one frame for [max_pad > 0], and the session state after it. *)
Definition draw_pad (rng : Rng) (mode : PadMode) (base max_pad : Z)
    (adaptive : option AdaptivePadState) : Z * option AdaptivePadState :=
  match mode with
  | Random => (gen_range rng 0 max_pad, adaptive)
  | HttpBuckets =>
    let target := default (default base (last HTTP_BUCKETS)) (list_find (fun b => base <= b) HTTP_BUCKETS ≫= fun p => Some p.2) in
    let j := gen_range rng 95 105 in
    let target := Z.max (sat_mul USIZE_MAX target j / 100) base in
    let need := Z.min (sat_sub target base) max_pad in
    (as_u8 need, adaptive)
  | Adaptive =>
    let '(target_total, adaptive) :=
      match adaptive with
      | Some st =>
        ((if decide (st.(count) < 7) then gen_range rng 900 1400 else gen_range rng 128 512),
         Some {| count := sat_add U32_MAX st.(count) 1 |})
      | None => (gen_range rng 900 1400, None)
      end in
    let need := Z.min (sat_sub target_total base) max_pad in
    (as_u8 need, adaptive)
  end.

(** [PreparedFrame::new]. *)
Definition PreparedFrame_new (rng : Rng) (ps : list bytes) (max_pad : Z) (mode : PadMode)
    (adaptive : option AdaptivePadState) : res FrameError (PreparedFrame * option AdaptivePadState) :=
  l ← context TooLarge (total_len ps);
  if decide (MAX_PAYLOAD < l \/ 16777215 < l) then Err TooLarge
  else
    let base := sat_add USIZE_MAX 5 l in
    let '(pad, adaptive) :=
      if decide (max_pad = 0) then (0, adaptive) else draw_pad rng mode base max_pad adaptive in
    Ok ({| parts := ps; plen := l; pad_len := pad |}, adaptive).

Definition wire_len (f : PreparedFrame) : Z := 5 + f.(pad_len) + f.(plen).

(** [PreparedFrame::append_to]: the bytes it appends to the buffer. *)
Definition append_to (rng : Rng) (f : PreparedFrame) (buf : bytes) : bytes :=
  buf ++ [FRAME_VER; Z.land (Z.shiftr f.(plen) 16) 255; Z.land (Z.shiftr f.(plen) 8) 255;
          Z.land f.(plen) 255; f.(pad_len)]
      ++ (if decide (0 < f.(pad_len)) then fill_bytes rng f.(pad_len) else [])
      ++ concat f.(parts).

Definition write_padded_frame_with_mode_state (rng : Rng) (payload : bytes) (max_pad : Z)
    (mode : PadMode) (adaptive : option AdaptivePadState)
    : res FrameError (bytes * option AdaptivePadState) :=
  '(frame, adaptive) ← PreparedFrame_new rng [payload] max_pad mode adaptive;
  Ok (append_to rng frame [], adaptive).

Definition write_padded_frame_with_mode (rng : Rng) (payload : bytes) (max_pad : Z)
    (mode : PadMode) : res FrameError bytes :=
  fst <$> write_padded_frame_with_mode_state rng payload max_pad mode None.

Definition write_padded_frame (rng : Rng) (payload : bytes) (max_pad : Z) : res FrameError bytes :=
  write_padded_frame_with_mode rng payload max_pad Random.

(** Offset of the payload, after [ver | len | pad_len | pad]. *)
Definition padded_frame_payload_start (raw : bytes) : res FrameError Z :=
  if decide (len raw < 4) then Err (Proto (bs "short frame")) else
  v ← ix raw 0;
  if decide (v <> FRAME_VER) then Err (Proto (bs "bad ver " ++ show_dec v)) else
  a ← ix raw 1; b ← ix raw 2; c ← ix raw 3;
  let plen := Z.lor (Z.lor (Z.shiftl a 16) (Z.shiftl b 8)) c in
  if decide (MAX_PAYLOAD < plen) then Err TooLarge else
  if decide (len raw < 5) then Err (Proto (bs "missing pad_len")) else
  pad_len ← ix raw 4;
  let need := 5 + pad_len + plen in
  if decide (len raw <> need) then
    Err (Proto (bs "length mismatch: got " ++ show_dec (len raw) ++ bs " expected " ++ show_dec need))
  else Ok (5 + pad_len).

Definition read_padded_frame_borrow (raw : bytes) : res FrameError bytes :=
  start ← padded_frame_payload_start raw; slice_from raw start.
Definition read_padded_frame_bytes (raw : bytes) : res FrameError bytes :=
  start ← padded_frame_payload_start raw; slice_from raw start.
(** [raw.drain(..start)]. *)
Definition read_padded_frame_into (raw : bytes) : res FrameError bytes :=
  start ← padded_frame_payload_start raw;
  if decide (start <= len raw) then Ok (drop (Z.to_nat start) raw) else Panic.
Definition read_padded_frame (raw : bytes) : res FrameError bytes := read_padded_frame_borrow raw.

(** ** Lemmas *)

Lemma add_part_None ps : fold_left add_part ps None = None.
Proof. by induction ps. Qed.

Lemma add_part_Some ps acc n :
  fold_left add_part ps (Some acc) = Some n ->
  n = acc + len (concat ps).
Proof.
  revert acc. induction ps as [|p ps IH]; simpl; intros acc.
  - intros [= ->]. rewrite len_nil. lia.
  - case_decide; [|by rewrite add_part_None].
    intros Hn%IH. rewrite len_app. lia.
Qed.

Lemma add_part_overflow ps acc :
  0 <= acc <= USIZE_MAX -> fold_left add_part ps (Some acc) = None ->
  USIZE_MAX < acc + len (concat ps).
Proof.
  revert acc. induction ps as [|p ps IH]; simpl; intros acc Ha; [done|].
  pose proof (len_nonneg p). pose proof (len_nonneg (concat ps)). rewrite len_app.
  case_decide; [|lia]. intros Hn%IH; lia.
Qed.

Lemma total_len_concat ps n : total_len ps = Some n -> n = len (concat ps).
Proof. intros H%add_part_Some. lia. Qed.

Lemma draw_pad_bounds rng mode base max_pad ad pad ad' :
  0 <= base -> 0 < max_pad <= 255 -> draw_pad rng mode base max_pad ad = (pad, ad') ->
  0 <= pad <= max_pad.
Proof.
  intros Hb Hm. destruct mode; simpl.
  - intros [= <- <-]. apply gen_range_in. lia.
  - intros [= <- _]. unfold as_u8, sat_sub. rewrite Z.mod_small; lia.
  - destruct ad; intros [= <- _]; unfold as_u8, sat_sub; rewrite Z.mod_small; lia.
Qed.

Lemma PreparedFrame_new_Ok rng ps max_pad mode ad f ad' :
  is_u8 max_pad -> PreparedFrame_new rng ps max_pad mode ad = Ok (f, ad') ->
  f.(parts) = ps /\ f.(plen) = len (concat ps) /\ 0 <= f.(plen) <= 16777215 /\
  0 <= f.(pad_len) <= max_pad.
Proof.
  unfold PreparedFrame_new, is_u8. intros Hm.
  destruct (total_len ps) as [n|] eqn:Hn; [|done].
  apply total_len_concat in Hn as ->. simpl. case_decide as Hbig; [done|].
  pose proof (len_nonneg (concat ps)).
  case_decide; [intros [= <- <-]; simpl; fin|].
  destruct draw_pad as [pad ad''] eqn:Hp. intros [= <- <-]. simpl.
  apply draw_pad_bounds in Hp; [fin| |lia]. unfold sat_add, USIZE_MAX, U64_MAX. lia.
Qed.

(** The frame's bytes: version, 24-bit length, padding length, padding, payload. *)
Definition layout (pad payload : bytes) : bytes :=
  [FRAME_VER] ++ to_be 3 (len payload) ++ [len pad] ++ pad ++ payload.

Lemma append_to_layout rng f buf :
  f.(plen) = len (concat f.(parts)) -> 0 <= f.(pad_len) ->
  exists pad, len pad = f.(pad_len) /\
    append_to rng f buf = buf ++ layout pad (concat f.(parts)).
Proof.
  intros Hl Hp.
  exists (if decide (0 < f.(pad_len)) then fill_bytes rng f.(pad_len) else []).
  assert (len (if decide (0 < f.(pad_len)) then fill_bytes rng f.(pad_len) else []) = f.(pad_len)) as Hpad.
  { case_decide; [by apply fill_bytes_len|]. rewrite len_nil. lia. }
  split; [done|]. unfold append_to, layout. rewrite Hpad, <- Hl, <- be24_bytes. done.
Qed.

Lemma layout_wire_len rng f :
  f.(plen) = len (concat f.(parts)) -> 0 <= f.(pad_len) ->
  len (append_to rng f []) = wire_len f.
Proof.
  intros Hl Hp. destruct (append_to_layout rng f [] Hl Hp) as (pad & Hpad & ->).
  unfold layout, wire_len. autorewrite with wire. lia.
Qed.

Lemma payload_start_layout pad payload :
  len pad < 256 -> len payload <= 16777215 ->
  padded_frame_payload_start (layout pad payload) = Ok (5 + len pad).
Proof.
  intros Hpad Hpl. pose proof (len_nonneg pad). pose proof (len_nonneg payload).
  unfold padded_frame_payload_start, layout.
  assert (len ([FRAME_VER] ++ to_be 3 (len payload) ++ [len pad] ++ pad ++ payload)
    = 5 + len pad + len payload) as Hlen by (autorewrite with wire; lia).
  rewrite Hlen. guard_no. simpl.
  rewrite be24_value by (apply Z.mod_pos_bound; lia).
  change (of_be _) with (of_be (to_be 3 (len payload))).
  rewrite of_be_to_be_id by (unfold Z.pow; simpl; lia).
  unfold MAX_PAYLOAD. by do 3 guard_no.
Qed.

Lemma read_layout pad payload :
  len pad < 256 -> len payload <= 16777215 ->
  read_padded_frame_borrow (layout pad payload) = Ok payload.
Proof.
  intros Hpad Hpl. unfold read_padded_frame_borrow. rewrite payload_start_layout by done. cbn [mbind res_bind].
  unfold layout. rewrite !app_assoc. apply slice_from_end. autorewrite with wire. lia.
Qed.

(** Accepted frames have exactly the layout. *)
Lemma payload_start_Ok raw start :
  u8s raw -> padded_frame_payload_start raw = Ok start ->
  exists pad payload, raw = layout pad payload /\ start = 5 + len pad /\
    len pad < 256 /\ len payload <= 16777215.
Proof.
  unfold padded_frame_payload_start. intros Hu. case_decide; [done|].
  destruct raw as [|v [|a [|b [|c rest]]]]; try (rewrite ?len_cons, ?len_nil in *; lia).
  simpl. case_decide as Hver; [done|]. simpl.
  unfold u8s in Hu. rewrite !Forall_cons in Hu. destruct Hu as (Hv & Ha & Hb & Hc & Hr).
  rewrite be24_value by done. case_decide as Hmax; [done|]. case_decide; [done|].
  destruct rest as [|p rest]; [rewrite ?len_cons, ?len_nil in *; lia|].
  simpl. apply Forall_cons in Hr as [Hp Hr].
  case_decide as Hlen; [done|]. intros [= <-]. subst v.
  assert (u8s [a; b; c]) as Hu3 by (unfold u8s; by repeat (apply Forall_cons; split)).
  pose proof (of_be_bound _ Hu3) as Hbd. change (256 ^ len [a; b; c]) with 16777216 in Hbd.
  rewrite !len_cons in Hlen. unfold is_u8 in Hp.
  set (pad := take (Z.to_nat p) rest). set (payload := drop (Z.to_nat p) rest).
  assert (len pad = p) as Epad by (unfold pad, len in *; rewrite length_take; lia).
  assert (len payload = of_be [a; b; c]) as Epl by (unfold payload, len in *; rewrite length_drop; lia).
  exists pad, payload. rewrite Epad, Epl. split; [|lia].
  unfold layout. rewrite Epl, Epad. unfold pad, payload.
  change 3%nat with (length [a; b; c]). rewrite to_be_of_be by done. simpl. by rewrite take_drop.
Qed.

Lemma payload_start_safe raw : safe (padded_frame_payload_start raw).
Proof. unfold padded_frame_payload_start. no_panic. Qed.

Lemma borrow_Ok raw p :
  u8s raw -> read_padded_frame_borrow raw = Ok p <->
  exists pad, raw = layout pad p /\ len pad < 256 /\ len p <= 16777215.
Proof.
  intros Hu. split.
  - unfold read_padded_frame_borrow. intros (st & Hst & Hs)%bind_Ok.
    destruct (payload_start_Ok raw st Hu Hst) as (pad & q & -> & -> & Hp & Hq).
    exists pad. assert (p = q) as ->; [|done].
    pose proof (read_layout pad q Hp Hq) as Hr. unfold read_padded_frame_borrow in Hr.
    rewrite Hst in Hr. simpl in Hr. congruence.
  - intros (pad & -> & ? & ?). by apply read_layout.
Qed.

Lemma read_into_layout pad payload :
  len pad < 256 -> len payload <= 16777215 ->
  read_padded_frame_into (layout pad payload) = Ok payload.
Proof.
  intros. pose proof (len_nonneg pad). pose proof (len_nonneg payload).
  unfold read_padded_frame_into. rewrite payload_start_layout by done. cbn [mbind res_bind].
  unfold layout. rewrite !app_assoc. rewrite decide_True by (autorewrite with wire; lia).
  f_equal. rewrite drop_app_length'; [done|].
  unfold len. rewrite !length_app. simpl. lia.
Qed.

Lemma readers_agree raw : u8s raw -> read_padded_frame_into raw = read_padded_frame_borrow raw.
Proof.
  intros Hu. unfold read_padded_frame_into, read_padded_frame_borrow.
  destruct (padded_frame_payload_start raw) as [st|e|] eqn:Hst; [|done..].
  destruct (payload_start_Ok raw st Hu Hst) as (pad & q & -> & -> & Hp & Hq).
  rewrite <- Hst. fold (read_padded_frame_into (layout pad q)).
  fold (read_padded_frame_borrow (layout pad q)). by rewrite read_into_layout, read_layout.
Qed.

Lemma read_into_safe raw : u8s raw -> safe (read_padded_frame_into raw).
Proof.
  intros Hu. unfold read_padded_frame_into. destruct (padded_frame_payload_start raw) as [st|e|] eqn:Hst; [|done..|].
  - destruct (payload_start_Ok raw st Hu Hst) as (pad & q & -> & -> & Hp & Hq).
    pose proof (read_into_layout pad q Hp Hq) as H. unfold read_padded_frame_into in H. rewrite Hst in H. simpl in *.
    by case_decide.
  - by pose proof (payload_start_safe raw).
Qed.

Lemma read_into_u8s raw p : u8s raw -> read_padded_frame_into raw = Ok p -> u8s p.
Proof.
  intros Hu (st & _ & Hp)%bind_Ok. case_decide; [|done]. apply Ok_inj in Hp as <-. by apply Forall_drop.
Qed.

Lemma PreparedFrame_new_total rng ps max_pad mode ad :
  match PreparedFrame_new rng ps max_pad mode ad with
  | Ok _ => len (concat ps) <= 16777215
  | Err e => e = TooLarge /\ 16777215 < len (concat ps)
  | Panic => False
  end.
Proof.
  unfold PreparedFrame_new. destruct (total_len ps) as [n|] eqn:Hn.
  - apply total_len_concat in Hn as ->. simpl. unfold MAX_PAYLOAD. case_decide; [fin|].
    case_decide; [|destruct draw_pad]; lia.
  - apply add_part_overflow in Hn; unfold USIZE_MAX, U64_MAX in *; [|lia]. simpl. fin.
Qed.

(** A written frame is the layout of its payload. *)
Lemma write_padded_Ok rng p max_pad mode ad wire ad' :
  is_u8 max_pad -> write_padded_frame_with_mode_state rng p max_pad mode ad = Ok (wire, ad') ->
  exists pad, wire = layout pad p /\ len pad <= max_pad /\ len p <= 16777215.
Proof.
  unfold write_padded_frame_with_mode_state. intros Hm ([f ad''] & Hf & [= <- <-])%bind_Ok.
  apply PreparedFrame_new_Ok in Hf as (Hps & Hpl & Hl & Hpad); [|done].
  destruct (append_to_layout rng f []) as (pad & Hlen & Happ); [by rewrite Hps|lia|].
  exists pad. rewrite Happ, Hps. cbn [concat app]. cbn [concat] in Hpl. rewrite app_nil_r in Hpl |- *.
  split_and!; [done|lia|lia].
Qed.

(** ** Properties *)

(** a written frame is read back as the payload by every reader, it is at most
    [5 + max_pad] bytes longer than the payload, and writing fails exactly for a
    payload that does not fit the 24-bit length. *)
Theorem padded_frame_roundtrip rng p max_pad mode ad :
  is_u8 max_pad ->
  match write_padded_frame_with_mode_state rng p max_pad mode ad with
  | Ok (raw, _) =>
      len p <= 16777215 /\ read_padded_frame raw = Ok p /\
      read_padded_frame_bytes raw = Ok p /\ read_padded_frame_into raw = Ok p /\
      5 + len p <= len raw <= 5 + max_pad + len p
  | Err e => e = TooLarge /\ 16777215 < len p
  | Panic => False
  end.
Proof.
  intros Hm. unfold write_padded_frame_with_mode_state.
  pose proof (PreparedFrame_new_total rng [p] max_pad mode ad) as Ht.
  simpl in Ht. rewrite app_nil_r in Ht.
  destruct (PreparedFrame_new rng [p] max_pad mode ad) as [[f ad']|e|] eqn:Hn; simpl; [|done..].
  destruct (PreparedFrame_new_Ok _ _ _ _ _ _ _ Hm Hn) as (Hf & Hl & Hlb & Hpb).
  rewrite layout_wire_len by (rewrite ?Hf; done || lia).
  destruct (append_to_layout rng f []) as (pad & Hpad & ->); [by rewrite Hf|lia|].
  rewrite Hf in *. simpl in *. rewrite app_nil_r in *. unfold is_u8, wire_len in *.
  change (read_padded_frame (layout pad p)) with (read_padded_frame_borrow (layout pad p)).
  change (read_padded_frame_bytes (layout pad p)) with (read_padded_frame_borrow (layout pad p)).
  rewrite read_layout, read_into_layout by lia. fin.
Qed.

Lemma padded_frame_roundtrip_witness :
  is_u8 200 /\ exists raw st, write_padded_frame_with_mode_state zero_rng (bs "hello") 200 Adaptive (Some {| count := 7 |}) = Ok (raw, st)
    /\ read_padded_frame raw = Ok (bs "hello").
Proof.
  split; [done|]. pose proof (padded_frame_roundtrip zero_rng (bs "hello") 200 Adaptive (Some {| count := 7 |})) as H.
  specialize (H ltac:(done)).
  destruct write_padded_frame_with_mode_state as [[raw st]| |] eqn:Hw; [|vm_compute in Hw; done..].
  exists raw, st. naive_solver.
Defined.

(** reading never panics, and accepts exactly the byte strings with the
    documented layout, whatever the reader. *)
Theorem padded_frame_decode raw p :
  u8s raw ->
  safe (read_padded_frame raw) /\ read_padded_frame_into raw = read_padded_frame raw /\
  (read_padded_frame raw = Ok p <->
   exists pad, raw = layout pad p /\ len pad < 256 /\ len p <= 16777215).
Proof.
  intros Hu. split_and!.
  - unfold read_padded_frame, read_padded_frame_borrow. apply safe_bind; [apply payload_start_safe|].
    intros st Hst. destruct (payload_start_Ok raw st Hu Hst) as (pad & q & -> & -> & Hp & Hq).
    pose proof (len_nonneg pad). pose proof (len_nonneg q). apply safe_slice_from.
    unfold layout. autorewrite with wire. lia.
  - by apply readers_agree.
  - by apply borrow_Ok.
Qed.

Lemma padded_frame_decode_witness :
  read_padded_frame [1; 0; 0; 2; 1; 9; 7; 8] = Ok [7; 8].
Proof. apply (padded_frame_decode _ [7; 8]); [repeat constructor; done|]. by exists [9]. Defined.
