(* ===== verification/Protocol.v ===== *)
(** [protocol.rs]: the inner control messages (authentication, channel opens,
    open status), the UDP request and reply records, and the SOCKS5 UDP
    datagram header, with their decoders. *)
From S2P Require Import Prelude Text Net.

Definition OPEN_MAGIC : bytes := bs "BIBA" ++ [1] ++ bs "OPEN" ++ [0].
Definition OPEN_OK_MAGIC : bytes := bs "BIBA" ++ [1] ++ bs "OPOK" ++ [0].
Definition OPEN_ERR_MAGIC : bytes := bs "BIBA" ++ [1] ++ bs "OPER" ++ [0].
Definition OPEN_EXT_V1 : Z := 1.
Definition OPEN_FLAG_STATUS : Z := 1.
Definition AUTH_MAGIC : bytes := bs "BIBA" ++ [1] ++ bs "AUTH" ++ [0].
Definition MAX_UDP_PAYLOAD : Z := 60 * 1024.
Definition V3_CTRL_AUTH : Z := 1.
Definition V3_CTRL_OPEN : Z := 2.
Definition V3_CTRL_UDP_MUX : Z := 3.
Definition V3_CTRL_MUX : Z := 4.
Definition V3_CTRL_UDP_REQ : Z := 5.
Definition V3_CTRL_UDP_REP : Z := 6.
Definition V3_CTRL_OPEN_OK : Z := 16.
Definition V3_CTRL_OPEN_ERR : Z := 17.

(** ** Authentication *)

Definition encode_auth (token : str) : result bytes :=
  if decide (65535 < len token) then bail "token too long"
  else Ok (AUTH_MAGIC ++ to_be 2 (as_u16 (len token)) ++ token).

Definition decode_auth (data : bytes) : result str :=
  if decide (len data < len AUTH_MAGIC + 2) then bail "short auth frame" else
  if negb (starts_with data AUTH_MAGIC) then bail "not an auth frame" else
  let i := len AUTH_MAGIC in
  tl ← rd16 data i;
  if decide (len data < i + 2 + tl) then bail "truncated auth token" else
  if decide (len data <> i + 2 + tl) then bail "trailing bytes in auth frame" else
  b ← slice data (i + 2) (i + 2 + tl);
  from_utf8 b.

Definition is_auth_frame (data : bytes) : bool :=
  bool_decide (len AUTH_MAGIC <= len data) && starts_with data AUTH_MAGIC.

(** ** Legacy channel open *)

Definition encode_open (host : str) (port : Z) : result bytes :=
  if decide (65535 < len host) then bail "host too long"
  else Ok (OPEN_MAGIC ++ to_be 2 (as_u16 (len host)) ++ host ++ to_be 2 port
           ++ [OPEN_EXT_V1] ++ [OPEN_FLAG_STATUS]).

Definition decode_open_inner (data : bytes) : result (str * Z * bytes) :=
  if decide (len data < len OPEN_MAGIC + 2 + 2) then bail "short open frame" else
  if negb (starts_with data OPEN_MAGIC) then bail "not an open frame" else
  let i := len OPEN_MAGIC in
  hl ← rd16 data i;
  let i := i + 2 in
  b ← context "host slice"%string (get_range data i (i + hl));
  host ← from_utf8 b;
  let i := i + hl in
  if decide (len data < i + 2) then bail "missing port" else
  port ← rd16 data i;
  let i := i + 2 in
  rest ← slice_from data i;
  Ok (host, port, rest).

Definition decode_open_with_flags (data : bytes) : result (str * Z * Z) :=
  '(host, port, rest) ← decode_open_inner data;
  '(flags, i) ←
    (if decide (2 <= len rest) then
       v ← ix rest 0;
       if decide (v = OPEN_EXT_V1) then f ← ix rest 1; Ok (f, 2) else Ok (0, 0)
     else Ok (0, 0));
  if decide (i <> len rest) then bail "trailing bytes in legacy open" else
  Ok (host, port, flags).

Definition decode_open (data : bytes) : result (str * Z) :=
  '(host, port, _) ← decode_open_with_flags data; Ok (host, port).

Definition encode_open_ok : bytes := OPEN_OK_MAGIC.
Definition is_open_ok (data : bytes) : bool := bool_decide (data = OPEN_OK_MAGIC).

Definition encode_open_err (reason : str) : result bytes :=
  if decide (65535 < len reason) then bail "open error too long"
  else Ok (OPEN_ERR_MAGIC ++ to_be 2 (as_u16 (len reason)) ++ reason).

Definition decode_open_err (data : bytes) : result str :=
  if decide (len data < len OPEN_ERR_MAGIC + 2) then bail "short open error frame" else
  if negb (starts_with data OPEN_ERR_MAGIC) then bail "not an open error frame" else
  let i := len OPEN_ERR_MAGIC in
  ml ← rd16 data i;
  if decide (len data < i + 2 + ml) then bail "truncated open error" else
  if decide (len data <> i + 2 + ml) then bail "trailing bytes in open error" else
  b ← slice data (i + 2) (i + 2 + ml);
  from_utf8 b.

(** ** Addresses *)

(** Appends ATYP, address and port to [buf]. *)
Definition encode_atyp_host_port (host : str) (port : Z) (buf : bytes) : result bytes :=
  buf ← (match parse_ipv4 host with
         | Some ip => Ok (buf ++ [1] ++ octets4 ip)
         | None =>
           match parse_ipv6 host with
           | Some ip => Ok (buf ++ [4] ++ octets6 ip)
           | None =>
             if decide (U8_MAX < len host) then bail "host too long"
             else Ok (buf ++ [3] ++ [as_u8 (len host)] ++ host)
           end
         end);
  Ok (buf ++ to_be 2 port).

(** Host, port and length of the ATYP|addr|port prefix. *)
Definition decode_atyp_host_port (data : bytes) : result (str * Z * Z) :=
  if decide (data = []) then bail "empty addr" else
  atyp ← ix data 0;
  '(host, end_addr) ←
    (if decide (atyp = 1) then
       if decide (len data < 1 + 4 + 2) then bail "short ipv4" else
       a ← ix data 1; b ← ix data 2; c ← ix data 3; d ← ix data 4;
       Ok (show_ipv4 (of_be [a; b; c; d]), 1 + 4)
     else if decide (atyp = 3) then
       if decide (len data < 2) then bail "short domain" else
       l ← ix data 1;
       if decide (len data < 2 + l + 2) then bail "short domain host" else
       b ← slice data 2 (2 + l);
       h ← from_utf8 b;
       Ok (h, 2 + l)
     else if decide (atyp = 4) then
       if decide (len data < 1 + 16 + 2) then bail "short ipv6" else
       a ← slice data 1 17;
       Ok (show_ip (V6 (of_be a)), 17)
     else bail "bad ATYP");
  port ← rd16 data end_addr;
  Ok (host, port, end_addr + 2).

(** ** UDP records *)

Definition encode_udp (opcode xid : Z) (host : str) (port : Z) (payload : bytes) : result bytes :=
  if decide (MAX_UDP_PAYLOAD < len payload) then bail "UDP payload too large" else
  v ← encode_atyp_host_port host port ([opcode] ++ to_be 8 xid);
  Ok (v ++ payload).
Definition encode_udp_req := encode_udp V3_CTRL_UDP_REQ.
Definition encode_udp_rep := encode_udp V3_CTRL_UDP_REP.

(** The two decoders differ in the opcode and the error texts. *)
Definition decode_udp (opcode : Z) (e_op e_short e_big : err) (data : bytes)
    : result (Z * str * Z * bytes) :=
  if decide (data = []) then Err e_op else
  o ← ix data 0;
  if decide (o <> opcode) then Err e_op else
  if decide (len data < 1 + 8) then Err e_short else
  x ← slice data 1 9;
  let xid := of_be x in
  rest ← slice_from data 9;
  '(h, p, addr_len) ← decode_atyp_host_port rest;
  payload ← slice_from rest addr_len;
  if decide (MAX_UDP_PAYLOAD < len payload) then Err e_big else
  Ok (xid, h, p, payload).
Definition decode_udp_req :=
  decode_udp V3_CTRL_UDP_REQ "bad udp req opcode" "short udp req" "udp req payload too large".
Definition decode_udp_rep :=
  decode_udp V3_CTRL_UDP_REP "bad udp rep opcode" "short udp rep" "udp rep payload too large".

Definition build_socks5_udp_datagram (dest_host : str) (dest_port : Z) (payload : bytes) : result bytes :=
  v ← encode_atyp_host_port dest_host dest_port [0; 0; 0];
  Ok (v ++ payload).

Definition parse_socks5_udp_datagram (data : bytes) : result (str * Z * bytes) :=
  if decide (len data < 4) then bail "short socks udp" else
  r0 ← ix data 0; r1 ← ix data 1;
  if decide (r0 <> 0 \/ r1 <> 0) then bail "bad RSV" else
  frag ← ix data 2;
  if decide (frag <> 0) then bail "UDP fragment not supported" else
  d ← slice_from data 3;
  '(h, p, n) ← decode_atyp_host_port d;
  payload ← slice_from data (3 + n);
  Ok (h, p, payload).

(** ** v3 control messages *)

Definition encode_v3_auth (token : str) : result bytes :=
  if decide (65535 < len token) then bail "token too long"
  else Ok ([V3_CTRL_AUTH] ++ to_be 2 (as_u16 (len token)) ++ token).

Definition decode_v3_auth (data : bytes) : result str :=
  if decide (data = []) then bail "not v3 auth" else
  o ← ix data 0;
  if decide (o <> V3_CTRL_AUTH) then bail "not v3 auth" else
  if decide (len data < 3) then bail "short v3 auth" else
  tl ← rd16 data 1;
  if decide (len data < 3 + tl) then bail "truncated v3 auth" else
  if decide (len data <> 3 + tl) then bail "trailing bytes in v3 auth" else
  b ← slice data 3 (3 + tl);
  from_utf8 b.

Definition encode_v3_open_with_flags (host : str) (port flags : Z) : result bytes :=
  if decide (65535 < len host) then bail "host too long"
  else Ok ([V3_CTRL_OPEN] ++ to_be 2 (as_u16 (len host)) ++ host ++ to_be 2 port
           ++ [OPEN_EXT_V1] ++ [flags]).
Definition encode_v3_open (host : str) (port : Z) : result bytes :=
  encode_v3_open_with_flags host port 0.

Definition decode_v3_open_inner (data : bytes) : result (str * Z * Z) :=
  if decide (data = []) then bail "not v3 open" else
  o ← ix data 0;
  if decide (o <> V3_CTRL_OPEN) then bail "not v3 open" else
  if decide (len data < 1 + 2 + 2) then bail "short v3 open" else
  let i := 1 in
  hl ← rd16 data i;
  let i := i + 2 in
  b ← context "host slice"%string (get_range data i (i + hl));
  host ← from_utf8 b;
  let i := i + hl in
  if decide (len data < i + 2) then bail "missing port" else
  port ← rd16 data i;
  let i := i + 2 in
  '(flags, i) ←
    (if decide (i + 2 <= len data) then
       v ← ix data i;
       if decide (v = OPEN_EXT_V1) then f ← ix data (i + 1); Ok (f, i + 2) else Ok (0, i)
     else Ok (0, i));
  if decide (i <> len data) then bail "trailing bytes in v3 open" else
  Ok (host, port, flags).

Definition decode_v3_open (data : bytes) : result (str * Z) :=
  '(h, p, _) ← decode_v3_open_inner data; Ok (h, p).
Definition decode_v3_open_with_flags (data : bytes) : result (str * Z * Z) :=
  decode_v3_open_inner data.

Definition encode_v3_udp_mux_open : bytes := [V3_CTRL_UDP_MUX].
Definition is_v3_udp_mux_open (data : bytes) : bool := bool_decide (data = [V3_CTRL_UDP_MUX]).
Definition encode_v3_mux_open : bytes := [V3_CTRL_MUX].
Definition is_v3_mux_open (data : bytes) : bool := bool_decide (data = [V3_CTRL_MUX]).

Inductive V3FirstChannelKind : Set :=
| TcpOpen (host : str) (port flags : Z)
| UdpMux
| Mux
| NotChannelOpen.

Definition classify_v3_first_channel (data : bytes) : result V3FirstChannelKind :=
  r ← attempt (decode_v3_open_with_flags data);
  match r with
  | Some (host, port, flags) => Ok (TcpOpen host port flags)
  | None =>
    if is_v3_udp_mux_open data then Ok UdpMux
    else if is_v3_mux_open data then Ok Mux
    else Ok NotChannelOpen
  end.

Definition encode_v3_open_ok : bytes := [V3_CTRL_OPEN_OK].
Definition is_v3_open_ok (data : bytes) : bool := bool_decide (data = [V3_CTRL_OPEN_OK]).

Definition encode_v3_open_err (reason : str) : result bytes :=
  if decide (65535 < len reason) then bail "open error too long"
  else Ok ([V3_CTRL_OPEN_ERR] ++ to_be 2 (as_u16 (len reason)) ++ reason).

Definition decode_v3_open_err (data : bytes) : result str :=
  if decide (len data < 3) then bail "not v3 open err" else
  o ← ix data 0;
  if decide (o <> V3_CTRL_OPEN_ERR) then bail "not v3 open err" else
  ml ← rd16 data 1;
  if decide (len data < 3 + ml) then bail "truncated v3 open err" else
  if decide (len data <> 3 + ml) then bail "trailing bytes in v3 open err" else
  b ← slice data 3 (3 + ml);
  from_utf8 b.

(** ** Lemmas *)

(** The codecs of a tag and a length-prefixed text. *)
Ltac tagged_enc :=
  case_decide; [done|]; intros <-%Ok_inj; rewrite tagged_text_u16 by lia.
Ltac tagged_dec :=
  rewrite ?tagged_len, ?tagged_start, ?len_1; cbn [negb];
  rewrite ?tagged_op; cbn [mbind res_bind];
  match goal with |- context [tagged_text _ ?s] => pose proof (len_nonneg s) end;
  repeat (guard_no; cbn [mbind res_bind]);
  rewrite tagged_rd by (done || lia); cbn [mbind res_bind];
  repeat guard_no; rewrite tagged_slice by (rewrite ?len_cons, ?len_nil; lia);
  cbn [mbind res_bind]; by apply from_utf8_is_str.
Ltac tagged_back :=
  repeat (case_decide; [done|]);
  match goal with H : u8s ?b |- context [starts_with ?b ?m] =>
    let r := fresh "r" in
    destruct (starts_with b m) eqn:?; [|done]; cbn [negb];
    destruct (starts_with_inv b m) as [r ->]; [done|]
  | |- context [@ix ?E Z ?b 0] =>
    let Hx := fresh "Hx" in
    destruct (@ix E Z b 0) as [?| |] eqn:Hx; [|done..]; apply ix_0_cons in Hx as [? ->];
    cbn [mbind res_bind]; repeat (case_decide; [done|])
  end.

Ltac tagged_canonical Hb :=
  let tl := fresh "tl" in let Htl := fresh "Htl" in let Hd := fresh "Hd" in
  let t := fresh "t" in let Ht := fresh "Ht" in let Hs := fresh "Hs" in
  let Hbt := fresh "Hbt" in let Hl := fresh "Hl" in let Hr := fresh "Hr" in
  let Hu := fresh "Hu" in
  tagged_back; intros (tl & Htl & Hd)%bind_Ok; repeat (case_decide; [done|]);
  apply bind_Ok in Hd as (t & Ht & Hd);
  destruct (tagged_inv _ _ _ _ _ _ _ Hb eq_refl Htl
    ltac:(rewrite ?len_app, ?len_cons, ?len_nil in *; lia) Ht) as (Hbt & Hl & Hr & Hu);
  [rewrite ?len_cons, ?len_nil; lia|lia|];
  apply from_utf8_str in Hd as [-> Hs]; [|done]; split; [done|]; rewrite Hbt;
  guard_no; rewrite tagged_text_u16 by lia; by subst.

#[export] Instance auth_codec : CanonicalCodec is_str encode_auth decode_auth.
Proof.
  split; [split|].
  - intros s b Hs. unfold encode_auth, decode_auth. tagged_enc. tagged_dec.
  - intros b Hb. unfold decode_auth. change (len AUTH_MAGIC) with 10. no_panic.
  - intros b s Hb. unfold encode_auth, decode_auth. tagged_canonical Hb.
Qed.

#[export] Instance open_err_codec : CanonicalCodec is_str encode_open_err decode_open_err.
Proof.
  split; [split|].
  - intros s b Hs. unfold encode_open_err, decode_open_err. tagged_enc. tagged_dec.
  - intros b Hb. unfold decode_open_err. change (len OPEN_ERR_MAGIC) with 10. no_panic.
  - intros b s Hb. unfold encode_open_err, decode_open_err. tagged_canonical Hb.
Qed.

Lemma len_not_nil {A} (b : list A) : b <> [] -> 0 < len b.
Proof. destruct b; [done|]. rewrite len_cons. pose proof (len_nonneg b). lia. Qed.

#[export] Instance v3_auth_codec : CanonicalCodec is_str encode_v3_auth decode_v3_auth.
Proof.
  split; [split|].
  - intros s b Hs. unfold encode_v3_auth, decode_v3_auth. tagged_enc. tagged_dec.
  - intros b Hb. unfold decode_v3_auth. case_decide as Hn; [done|]. apply len_not_nil in Hn. no_panic.
  - intros b s Hb. unfold encode_v3_auth, decode_v3_auth. tagged_canonical Hb.
Qed.

#[export] Instance v3_open_err_codec : CanonicalCodec is_str encode_v3_open_err decode_v3_open_err.
Proof.
  split; [split|].
  - intros s b Hs. unfold encode_v3_open_err, decode_v3_open_err. tagged_enc. tagged_dec.
  - intros b Hb. unfold decode_v3_open_err. no_panic.
  - intros b s Hb. unfold encode_v3_open_err, decode_v3_open_err. tagged_canonical Hb.
Qed.

(** *** Channel opens *)

Definition wf_open (o : str * Z) : Prop := is_str o.1 /\ is_u16 o.2.
Definition wf_open_flags (o : str * Z * Z) : Prop := is_str o.1.1 /\ is_u16 o.1.2 /\ is_u8 o.2.

(** The bytes of an open with its trailer. *)
Definition open_frame (m host : bytes) (port flags : Z) : bytes :=
  tagged_text m host ++ to_be 2 port ++ [OPEN_EXT_V1; flags].

Lemma open_frame_u16 m host port flags :
  len host <= 65535 ->
  m ++ to_be 2 (as_u16 (len host)) ++ host ++ to_be 2 port ++ [OPEN_EXT_V1] ++ [flags]
  = open_frame m host port flags.
Proof.
  intros H. unfold open_frame. rewrite <- tagged_text_u16 by done. by rewrite <- !app_assoc.
Qed.

Lemma open_frame_len m host port flags : len (open_frame m host port flags) = len m + len host + 6.
Proof. unfold open_frame. rewrite len_app, tagged_len. autorewrite with wire. lia. Qed.

Section OpenFrame.
Context {E : Type} (m host : bytes) (port flags : Z).
Context (Hh : len host <= 65535) (Hp : is_u16 port).

Lemma open_frame_start : starts_with (open_frame m host port flags) m = true.
Proof using. unfold open_frame, tagged_text. rewrite <- !app_assoc. apply starts_with_app. Qed.

Lemma open_frame_rd i : i = len m -> @rd16 E (open_frame m host port flags) i = Ok (len host).
Proof using Hh. intros. by apply tagged_more_rd. Qed.

Lemma open_frame_get i j :
  i = len m + 2 -> j = i + len host -> get_range (open_frame m host port flags) i j = Some host.
Proof using. intros. by apply tagged_more_get. Qed.

Lemma open_frame_port i : i = len m + 2 + len host -> @rd16 E (open_frame m host port flags) i = Ok port.
Proof using Hp. intros. apply rd16_mid; [|done]. by rewrite tagged_len. Qed.

Lemma open_frame_ext i :
  i = len m + len host + 4 -> @ix E Z (open_frame m host port flags) i = Ok OPEN_EXT_V1.
Proof using.
  intros. unfold open_frame. rewrite app_assoc, ix_app_r by (rewrite len_app, tagged_len, len_to_be; lia).
  rewrite len_app, tagged_len, len_to_be. by replace (i - _) with 0 by lia.
Qed.

Lemma open_frame_flags i :
  i = len m + len host + 5 -> @ix E Z (open_frame m host port flags) i = Ok flags.
Proof using.
  intros. unfold open_frame. rewrite app_assoc, ix_app_r by (rewrite len_app, tagged_len, len_to_be; lia).
  rewrite len_app, tagged_len, len_to_be. by replace (i - _) with 1 by lia.
Qed.

Lemma open_frame_rest i :
  i = len m + 4 + len host -> @slice_from E Z (open_frame m host port flags) i = Ok [OPEN_EXT_V1; flags].
Proof using.
  intros. unfold open_frame. rewrite app_assoc. apply slice_from_end.
  rewrite len_app, tagged_len, len_to_be. lia.
Qed.
End OpenFrame.

Lemma decode_open_with_flags_frame host port flags :
  is_str host -> len host <= 65535 -> is_u16 port ->
  decode_open_with_flags (open_frame OPEN_MAGIC host port flags) = Ok (host, port, flags).
Proof.
  intros Hs Hh Hp. pose proof (len_nonneg host).
  unfold decode_open_with_flags, decode_open_inner.
  rewrite open_frame_len. change (len OPEN_MAGIC) with 10. guard_no.
  rewrite open_frame_start. cbn [negb]. rewrite open_frame_rd by done. cbn [mbind res_bind].
  rewrite open_frame_get by (change (len OPEN_MAGIC) with 10; lia).
  cbn [mbind res_bind context]. rewrite from_utf8_is_str by done. cbn [mbind res_bind].
  guard_no. rewrite open_frame_port by (done || (change (len OPEN_MAGIC) with 10; lia)).
  cbn [mbind res_bind]. rewrite open_frame_rest by (change (len OPEN_MAGIC) with 10; lia).
  done.
Qed.

Lemma decode_v3_open_frame host port flags :
  is_str host -> len host <= 65535 -> is_u16 port ->
  decode_v3_open_inner (open_frame [V3_CTRL_OPEN] host port flags) = Ok (host, port, flags).
Proof.
  intros Hs Hh Hp. pose proof (len_nonneg host).
  unfold decode_v3_open_inner.
  guard_no. change (ix (open_frame [V3_CTRL_OPEN] host port flags) 0) with (@Ok err Z V3_CTRL_OPEN).
  cbn [mbind res_bind]. guard_no. rewrite open_frame_len, len_1. guard_no.
  rewrite open_frame_rd by done. cbn [mbind res_bind].
  rewrite open_frame_get by (rewrite ?len_1; lia).
  cbn [mbind res_bind context]. rewrite from_utf8_is_str by done. cbn [mbind res_bind].
  guard_no. rewrite open_frame_port by (rewrite ?len_1; done || lia).
  cbn [mbind res_bind]. guard_yes. rewrite (open_frame_ext _ _ _ _ (1 + 2 + len host + 2)) by (rewrite ?len_1; lia).
  cbn [mbind res_bind]. guard_yes. rewrite open_frame_flags by (rewrite ?len_1; lia).
  cbn [mbind res_bind]. by guard_no.
Qed.

Lemma decode_v3_open_safe b : u8s b -> safe (decode_v3_open_inner b).
Proof.
  intros Hb. unfold decode_v3_open_inner. case_decide as Hn; [done|]. apply len_not_nil in Hn.
  no_panic.
Qed.

#[export] Instance v3_open_codec :
  Codec wf_open_flags (fun o => encode_v3_open_with_flags o.1.1 o.1.2 o.2) decode_v3_open_with_flags.
Proof.
  split; [|intros; by apply decode_v3_open_safe].
  intros [[host port] flags] b (Hs & Hp & Hf). unfold encode_v3_open_with_flags. cbn [fst snd] in *.
  case_decide; [done|]. intros <-%Ok_inj.
  rewrite open_frame_u16 by lia. apply decode_v3_open_frame; done || lia.
Qed.

Lemma decode_open_safe b : u8s b -> safe (decode_open_inner b).
Proof.
  intros Hb. unfold decode_open_inner. change (len OPEN_MAGIC) with 10.
  no_panic.
Qed.

#[export] Instance open_codec :
  Codec wf_open (fun o => encode_open o.1 o.2) decode_open.
Proof.
  split.
  - intros [host port] b (Hs & Hp). unfold encode_open, decode_open. cbn [fst snd] in *.
    case_decide; [done|]. intros <-%Ok_inj.
    rewrite open_frame_u16, decode_open_with_flags_frame; done || lia.
  - intros b Hb. unfold decode_open, decode_open_with_flags. pose proof (decode_open_safe b Hb).
    no_panic.
Qed.

(** *** Addresses and UDP records *)

(** The spelling in which an encoded host comes back: IPv6 text is canonicalised. *)
Definition canon_host (h : str) : str :=
  match parse_ipv4 h with
  | Some _ => h
  | None => match parse_ipv6 h with Some a => show_ipv6 a | None => h end
  end.

(** The address field of a host that is encoded. *)
Definition addr_field (h : str) : bytes :=
  match parse_ipv4 h with
  | Some ip => [1] ++ octets4 ip
  | None =>
    match parse_ipv6 h with
    | Some ip => [4] ++ octets6 ip
    | None => [3] ++ [len h] ++ h
    end
  end.

Lemma encode_atyp_Ok h port buf v :
  encode_atyp_host_port h port buf = Ok v ->
  v = buf ++ addr_field h ++ to_be 2 port /\
  (parse_ipv4 h = None -> parse_ipv6 h = None -> len h <= 255).
Proof.
  unfold encode_atyp_host_port, addr_field. intros (b & Hb & <-%Ok_inj)%bind_Ok.
  destruct (parse_ipv4 h) as [ip|]; [|destruct (parse_ipv6 h) as [ip|]].
  - injection Hb as <-. split; [by rewrite <- !app_assoc|done].
  - injection Hb as <-. split; [by rewrite <- !app_assoc|done].
  - unfold U8_MAX in Hb. case_decide; [done|]. apply Ok_inj in Hb as <-.
    pose proof (len_nonneg h). unfold as_u8. rewrite Z.mod_small by lia.
    split; [by rewrite <- !app_assoc|intros; lia].
Qed.

Lemma decode_atyp_field h port rest :
  is_str h -> is_u16 port -> (parse_ipv4 h = None -> parse_ipv6 h = None -> len h <= 255) ->
  decode_atyp_host_port ((addr_field h ++ to_be 2 port) ++ rest)
  = Ok (canon_host h, port, len (addr_field h ++ to_be 2 port)).
Proof.
  intros Hs Hp Hl. pose proof (len_nonneg rest). pose proof (len_nonneg h).
  unfold decode_atyp_host_port, canon_host, addr_field.
  destruct (parse_ipv4 h) as [ip|] eqn:H4; [|destruct (parse_ipv6 h) as [ip|] eqn:H6].
  - apply parse_ipv4_show in H4 as [H4 Hip]. rewrite decide_False by done.
    set (D := (([1] ++ octets4 ip) ++ to_be 2 port) ++ rest).
    assert (len D = 7 + len rest) as HD by (unfold D, octets4; autorewrite with wire; lia).
    change (ix D 0) with (@Ok err Z 1). cbn [mbind res_bind]. guard_yes. rewrite HD. guard_no.
    replace (ix D 1) with (@Ok err Z (ip / 256 ^ 3 mod 256)) by done.
    replace (ix D 2) with (@Ok err Z (ip / 256 ^ 2 mod 256)) by done.
    replace (ix D 3) with (@Ok err Z (ip / 256 ^ 1 mod 256)) by done.
    replace (ix D 4) with (@Ok err Z (ip / 256 ^ 0 mod 256)) by done.
    cbn [mbind res_bind]. unfold D. rewrite <- app_assoc, rd16_mid by done. cbn [mbind res_bind].
    replace (of_be _) with (of_be (octets4 ip)) by done. by rewrite octets4_inv, H4.
  - apply parse_ipv6_bound in H6. rewrite decide_False by done.
    set (D := (([4] ++ octets6 ip) ++ to_be 2 port) ++ rest).
    assert (len D = 19 + len rest) as HD by (unfold D, octets6; autorewrite with wire; lia).
    change (ix D 0) with (@Ok err Z 4). cbn [mbind res_bind]. do 2 guard_no. guard_yes. rewrite HD. guard_no.
    assert (@slice err Z D 1 17 = Ok (octets6 ip)) as ->
      by (unfold D; rewrite <- !app_assoc; by apply slice_mid).
    cbn [mbind res_bind show_ip].
    unfold D. rewrite <- app_assoc, rd16_mid by done. cbn [mbind res_bind].
    by rewrite octets6_inv.
  - specialize (Hl eq_refl eq_refl). rewrite decide_False by done.
    set (D := (([3] ++ [len h] ++ h) ++ to_be 2 port) ++ rest).
    assert (len D = 4 + len h + len rest) as HD by (unfold D; autorewrite with wire; lia).
    change (ix D 0) with (@Ok err Z 3). cbn [mbind res_bind]. guard_no. guard_yes. rewrite HD. guard_no.
    change (ix D 1) with (@Ok err Z (len h)). cbn [mbind res_bind]. guard_no.
    assert (@slice err Z D 2 (2 + len h) = Ok h) as ->
      by (unfold D; rewrite <- !app_assoc; rewrite app_assoc; apply slice_mid; autorewrite with wire; lia).
    cbn [mbind res_bind].
    rewrite from_utf8_is_str by done. cbn [mbind res_bind].
    unfold D. rewrite <- app_assoc, rd16_mid by (done || (autorewrite with wire; lia)).
    cbn [mbind res_bind]. do 2 f_equal. autorewrite with wire. lia.
Qed.

Lemma decode_atyp_safe b : u8s b ->
  safe (decode_atyp_host_port b) /\
  forall h p n, decode_atyp_host_port b = Ok (h, p, n) -> 0 <= n <= len b /\ is_u16 p.
Proof.
  intros Hb. unfold decode_atyp_host_port. case_decide as Hn; [done|]. apply len_not_nil in Hn.
  destruct (ix_in (E:=err) b 0) as [o Ho]; [lia|]. rewrite Ho. cbn [mbind res_bind].
  set (addr := if decide (o = 1) then _ else _).
  assert (safe addr /\ forall h e, addr = Ok (h, e) -> 0 <= e /\ e + 1 < len b) as [Hs He].
  { unfold addr. split; [no_panic|]. intros h e. repeat case_decide; try done.
    - intros H'. repeat (apply bind_Ok in H' as (? & ? & H')). injection H' as <- <-. lia.
    - intros H'. apply bind_Ok in H' as (l & Hl & H'). byte_facts. case_decide; [done|].
      repeat (apply bind_Ok in H' as (? & ? & H')). injection H' as <- <-. lia.
    - intros H'. apply bind_Ok in H' as (l & Hl & H'). injection H' as <- <-. lia. }
  split.
  - apply safe_bind; [done|]. intros [h e] H'. apply He in H'. no_panic.
  - intros h p n ([h' e] & H' & Hr)%bind_Ok. apply He in H'.
    apply bind_Ok in Hr as (p' & Hp & [= <- <- <-]). byte_facts. unfold is_u16. lia.
Qed.

Lemma u8s_slice_from {E} (b r : bytes) i : u8s b -> @slice_from E Z b i = Ok r -> u8s r /\ len r = len b - i /\ 0 <= i.
Proof.
  intros Hb (H1 & H2 & ->)%slice_inv. split; [by apply u8s_sub|]. rewrite len_sub by lia. lia.
Qed.

Definition wf_udp (r : Z * str * Z * bytes) : Prop :=
  let '(xid, h, p, _) := r in is_u64 xid /\ is_str h /\ is_u16 p /\ canon_host h = h.

Section Udp.
Context (op : Z) (e1 e2 e3 : err).

Lemma encode_decode_udp xid h port payload b :
  is_u64 xid -> is_str h -> is_u16 port -> encode_udp op xid h port payload = Ok b ->
  decode_udp op e1 e2 e3 b = Ok (xid, canon_host h, port, payload).
Proof using.
  intros Hx Hh Hp. unfold encode_udp. case_decide as Hpl; [done|].
  intros (v & Hv & <-%Ok_inj)%bind_Ok. apply encode_atyp_Ok in Hv as [-> Hl].
  pose proof (len_nonneg payload). unfold decode_udp. rewrite decide_False by done.
  set (A := addr_field h ++ to_be 2 port). rewrite <- !app_assoc.
  change (ix ([op] ++ to_be 8 xid ++ A ++ payload) 0) with (@Ok err Z op). cbn [mbind res_bind]. guard_no.
  assert (len ([op] ++ to_be 8 xid ++ A ++ payload) = 9 + len A + len payload) as HD
    by (autorewrite with wire; lia).
  pose proof (len_nonneg A). rewrite HD. guard_no.
  rewrite slice_mid by done. cbn [mbind res_bind].
  rewrite (app_assoc [op]), slice_from_end by done. cbn [mbind res_bind].
  pose proof (decode_atyp_field h port payload Hh Hp Hl) as Hd. fold A in Hd.
  rewrite Hd. cbn [mbind res_bind].
  rewrite slice_from_end by done. cbn [mbind res_bind]. guard_no.
  rewrite of_be_to_be_id; [done|]. exact Hx.
Qed.

Lemma decode_udp_safe b : u8s b -> safe (decode_udp op e1 e2 e3 b).
Proof using.
  intros Hb. unfold decode_udp. case_decide as Hn; [done|]. apply len_not_nil in Hn.
  apply safe_bind; [apply safe_ix; lia|]. intros o Ho. do 2 (case_decide; [done|]).
  apply safe_bind; [apply safe_slice; lia|]. intros x Hx.
  apply safe_bind; [apply safe_slice_from; lia|]. intros r Hr.
  apply u8s_slice_from in Hr as (Hr & Hl & _); [|done]. destruct (decode_atyp_safe r Hr) as [Hs Hn'].
  apply safe_bind; [done|]. intros [[h p] n] H'. apply Hn' in H'.
  apply safe_bind; [apply safe_slice_from; lia|]. intros pl Hpl. by case_decide.
Qed.

Lemma udp_codec : Codec wf_udp (fun r => encode_udp op r.1.1.1 r.1.1.2 r.1.2 r.2) (decode_udp op e1 e2 e3).
Proof using.
  split; [|apply decode_udp_safe].
  intros [[[xid h] p] payload] b (Hx & Hh & Hp & Hc) He.
  pose proof (encode_decode_udp xid h p payload b Hx Hh Hp He) as H. by rewrite Hc in H.
Qed.
End Udp.

#[export] Instance udp_req_codec : Codec wf_udp (fun r => encode_udp_req r.1.1.1 r.1.1.2 r.1.2 r.2) decode_udp_req.
Proof. apply udp_codec. Qed.
#[export] Instance udp_rep_codec : Codec wf_udp (fun r => encode_udp_rep r.1.1.1 r.1.1.2 r.1.2 r.2) decode_udp_rep.
Proof. apply udp_codec. Qed.

Lemma socks5_udp_roundtrip h port payload b :
  is_str h -> is_u16 port -> build_socks5_udp_datagram h port payload = Ok b ->
  parse_socks5_udp_datagram b = Ok (canon_host h, port, payload).
Proof.
  intros Hh Hp. unfold build_socks5_udp_datagram. intros (v & Hv & <-%Ok_inj)%bind_Ok.
  apply encode_atyp_Ok in Hv as [-> Hl]. set (A := addr_field h ++ to_be 2 port).
  pose proof (len_nonneg payload). pose proof (len_nonneg A).
  assert (2 <= len A) as HA.
  { unfold A. autorewrite with wire. pose proof (len_nonneg (addr_field h)). lia. }
  unfold parse_socks5_udp_datagram. rewrite <- app_assoc.
  assert (len ([0; 0; 0] ++ A ++ payload) = 3 + len A + len payload) as HD by (autorewrite with wire; lia).
  rewrite HD. guard_no.
  change (ix ([0; 0; 0] ++ A ++ payload) 0) with (@Ok err Z 0).
  change (ix ([0; 0; 0] ++ A ++ payload) 1) with (@Ok err Z 0).
  change (ix ([0; 0; 0] ++ A ++ payload) 2) with (@Ok err Z 0).
  cbn [mbind res_bind]. do 2 guard_no. rewrite slice_from_end by done. cbn [mbind res_bind].
  pose proof (decode_atyp_field h port payload Hh Hp Hl) as Hd. fold A in Hd.
  rewrite Hd. cbn [mbind res_bind].
  rewrite app_assoc, slice_from_end by (autorewrite with wire; lia). done.
Qed.

Lemma socks5_udp_safe b : u8s b -> safe (parse_socks5_udp_datagram b).
Proof.
  intros Hb. unfold parse_socks5_udp_datagram. case_decide; [done|].
  do 2 (apply safe_bind; [apply safe_ix; lia|intros ? _]). case_decide; [done|].
  apply safe_bind; [apply safe_ix; lia|intros ? _]. case_decide; [done|].
  apply safe_bind; [apply safe_slice_from; lia|]. intros r Hr.
  apply u8s_slice_from in Hr as (Hr & Hl & _); [|done]. destruct (decode_atyp_safe r Hr) as [Hs Hn].
  apply safe_bind; [done|]. intros [[h p] n] H'. apply Hn in H'.
  apply safe_bind; [apply safe_slice_from; lia|]. done.
Qed.

Lemma decode_v3_open_op b r : decode_v3_open_inner b = Ok r -> exists t, b = [V3_CTRL_OPEN] ++ t.
Proof.
  unfold decode_v3_open_inner. case_decide; [done|]. intros (o & Ho & H')%bind_Ok.
  apply ix_0_cons in Ho as [t ->]. case_decide as Heq; [done|]. exists t. f_equal. f_equal.
  by destruct (decide (o = V3_CTRL_OPEN)).
Qed.

Lemma classify_total b : u8s b -> exists kind, classify_v3_first_channel b = Ok kind.
Proof.
  intros Hb. unfold classify_v3_first_channel. pose proof (codec_safe (Codec:=v3_open_codec) b Hb) as Hs.
  destruct (decode_v3_open_with_flags b) as [[[h p] f]|e|]; [by eexists| |done]. cbn.
  destruct (is_v3_udp_mux_open b); [by eexists|]. destruct (is_v3_mux_open b); by eexists.
Qed.

(** *** Types *)

Lemma decode_atyp_str b h p n : u8s b -> decode_atyp_host_port b = Ok (h, p, n) -> is_str h.
Proof.
  intros Hb. unfold decode_atyp_host_port. case_decide as Hn; [done|]. intros (o & Ho & H)%bind_Ok.
  apply bind_Ok in H as ([h' e] & Haddr & H). apply bind_Ok in H as (p' & _ & H). injection H as <- _ _.
  repeat case_decide; try done.
  - apply bind_Ok in Haddr as (x & Hx & G). apply bind_Ok in G as (y & Hy & G). apply bind_Ok in G as (z & Hz & G).
    apply bind_Ok in G as (w & Hw & G). injection G as <- _. apply (show_ip_str (V4 _)).
  - apply bind_Ok in Haddr as (l & Hl & G). case_decide; [done|]. apply bind_Ok in G as (hb & Hhb & G).
    apply bind_Ok in G as (hs & Hhs & G). injection G as <- _. apply slice_inv in Hhb as (_ & _ & ->).
    by apply from_utf8_str in Hhs as [_ ?]; [|apply u8s_sub].
  - apply bind_Ok in Haddr as (a & _ & G). injection G as <- _. apply (show_ip_str (V6 _)).
Qed.

Lemma decode_v3_open_typed b h p f : u8s b -> decode_v3_open_with_flags b = Ok (h, p, f) -> is_str h /\ is_u16 p /\ is_u8 f.
Proof.
  intros Hb. unfold decode_v3_open_with_flags, decode_v3_open_inner. case_decide as Hn; [done|].
  intros (o & _ & H)%bind_Ok. do 2 (case_decide; [done|]). apply bind_Ok in H as (hl & _ & H).
  apply bind_Ok in H as (hb & Hhb & H). apply bind_Ok in H as (host & Hhost & H). case_decide; [done|].
  apply bind_Ok in H as (port & Hp & H). apply bind_Ok in H as ([flags i] & Hf & H). case_decide; [done|].
  injection H as <- <- <-. byte_facts.
  assert (u8s hb) as Hu by (unfold get_range in Hhb; match type of Hhb with context [decide ?P] => destruct (decide P) end; [apply Ok_inj in Hhb as <-; by apply u8s_sub|done]).
  apply from_utf8_str in Hhost as [_ ?]; [|done]. split; [done|]. split; [done|].
  assert (forall z, @Ok err (Z * Z) (0, z) = Ok (flags, i) -> is_u8 flags) as Hzero by (intros z [= <- _]; split; done).
  match type of Hf with (if decide ?P then _ else _) = _ => destruct (decide P) end; [|exact (Hzero _ Hf)].
  apply bind_Ok in Hf as (v & _ & Hf). match type of Hf with (if decide ?P then _ else _) = _ => destruct (decide P) end; [|exact (Hzero _ Hf)].
  apply bind_Ok in Hf as (fl & Hfl & Hf). injection Hf as <- _. exact (ix_u8 _ _ _ Hb Hfl).
Qed.

Lemma decode_udp_typed op e1 e2 e3 b x h p pl :
  u8s b -> decode_udp op e1 e2 e3 b = Ok (x, h, p, pl) -> is_u64 x /\ is_str h /\ is_u16 p /\ u8s pl /\ len pl <= MAX_UDP_PAYLOAD.
Proof.
  intros Hb. unfold decode_udp. case_decide as Hn; [done|]. intros (o & _ & H)%bind_Ok. do 2 (case_decide; [done|]).
  apply bind_Ok in H as (xb & Hx & H). apply bind_Ok in H as (rest & Hrest & H).
  apply u8s_slice_from in Hrest as (Hur & _ & _); [|done].
  apply bind_Ok in H as ([[h' p'] n] & Ha & H). apply bind_Ok in H as (pl' & Hpl & H). case_decide; [done|]. injection H as <- <- <- <-.
  apply u8s_slice_from in Hpl as (Hup & _ & _); [|done]. destruct (decode_atyp_safe rest Hur) as [_ Hp]. apply Hp in Ha as Hp'.
  split_and!; [|exact (decode_atyp_str _ _ _ _ Hur Ha)|tauto|done|lia].
  apply slice_inv in Hx as (_ & ? & ->). pose proof (of_be_bound (sub b 1 9) (u8s_sub b 1 9 Hb)) as Ho.
  rewrite len_sub in Ho by lia. exact Ho.
Qed.

(** ** Properties *)

(** a status or authentication message decodes to [s] exactly when it is the
    encoding of the text [s]: no other byte string is accepted. *)
Theorem control_messages_canonical b s :
  u8s b ->
  (decode_auth b = Ok s <-> is_str s /\ encode_auth s = Ok b) /\
  (decode_v3_auth b = Ok s <-> is_str s /\ encode_v3_auth s = Ok b) /\
  (decode_open_err b = Ok s <-> is_str s /\ encode_open_err s = Ok b) /\
  (decode_v3_open_err b = Ok s <-> is_str s /\ encode_v3_open_err s = Ok b).
Proof. intros Hb. split_and!; apply canonical_iff; done || apply _. Qed.

Lemma control_messages_canonical_witness :
  decode_v3_auth ([V3_CTRL_AUTH; 0; 2] ++ bs "ok") = Ok (bs "ok").
Proof.
  apply (control_messages_canonical ([V3_CTRL_AUTH; 0; 2] ++ bs "ok") (bs "ok")).
  - repeat constructor; done.
  - split; [split; [apply bs_u8s|]|]; reflexivity.
Defined.

(** the server classifies the first record of a channel as the client meant it,
    and a record it takes for an open is one: the three kinds are disjoint. *)
Theorem first_channel_classified :
  (forall h p f b, wf_open_flags (h, p, f) -> encode_v3_open_with_flags h p f = Ok b ->
     classify_v3_first_channel b = Ok (TcpOpen h p f)) /\
  (forall b, u8s b ->
     safe (classify_v3_first_channel b) /\
     (classify_v3_first_channel b = Ok UdpMux <-> b = encode_v3_udp_mux_open) /\
     (classify_v3_first_channel b = Ok Mux <-> b = encode_v3_mux_open) /\
     (forall h p f, classify_v3_first_channel b = Ok (TcpOpen h p f) <->
        decode_v3_open_with_flags b = Ok (h, p, f))).
Proof.
  split.
  - intros h p f b Hwf He. unfold classify_v3_first_channel.
    rewrite (codec_roundtrip (Codec:=v3_open_codec) (h, p, f) b Hwf He). done.
  - intros b Hb. pose proof (codec_safe (Codec:=v3_open_codec) b Hb) as Hs.
    unfold classify_v3_first_channel, is_v3_udp_mux_open, is_v3_mux_open.
    destruct (decode_v3_open_with_flags b) as [[[h p] f]|e|] eqn:Hd; [| |done]; simpl.
    + destruct (decode_v3_open_op _ _ Hd) as [t ->].
      split_and!; [done|split; [done|by intros [=]]..|]. intros. split; intros; simplify_eq; done.
    + unfold encode_v3_udp_mux_open, encode_v3_mux_open.
      destruct (decide (b = [V3_CTRL_UDP_MUX])) as [->|]; [repeat split; intros; simplify_eq; done|].
      rewrite bool_decide_eq_false_2 by done.
      destruct (decide (b = [V3_CTRL_MUX])) as [->|]; [repeat split; intros; simplify_eq; done|].
      rewrite bool_decide_eq_false_2 by done. repeat split; intros; simplify_eq; done.
Qed.

Lemma first_channel_classified_witness :
  classify_v3_first_channel [V3_CTRL_OPEN; 0; 1; 120; 1; 187; 1; 1] = Ok (TcpOpen (bs "x") 443 1).
Proof.
  apply (proj1 first_channel_classified (bs "x") 443 1); [|reflexivity].
  split_and!; [split; [apply bs_u8s|reflexivity]|done..].
Defined.

(** UDP requests, replies and SOCKS5 datagrams come back with the same
    transaction, port and payload, and with the host in canonical spelling (the
    text itself for a domain or an IPv4 address). *)
Theorem udp_records_roundtrip xid h port payload b :
  is_u64 xid -> is_str h -> is_u16 port ->
  (encode_udp_req xid h port payload = Ok b ->
     decode_udp_req b = Ok (xid, canon_host h, port, payload)) /\
  (encode_udp_rep xid h port payload = Ok b ->
     decode_udp_rep b = Ok (xid, canon_host h, port, payload)) /\
  (build_socks5_udp_datagram h port payload = Ok b ->
     parse_socks5_udp_datagram b = Ok (canon_host h, port, payload)) /\
  (parse_ipv6 h = None -> canon_host h = h).
Proof.
  intros Hx Hh Hp. split_and!.
  - by apply encode_decode_udp.
  - by apply encode_decode_udp.
  - by apply socks5_udp_roundtrip.
  - unfold canon_host. intros ->. by destruct (parse_ipv4 h).
Qed.

Lemma udp_records_roundtrip_witness :
  exists b, encode_udp_req 7 (bs "2001:DB8::1") 53 [1; 2] = Ok b /\
  decode_udp_req b = Ok (7, bs "2001:db8::1", 53, [1; 2]).
Proof.
  eexists. split; [vm_compute; reflexivity|].
  refine (proj1 (udp_records_roundtrip 7 (bs "2001:DB8::1") 53 [1; 2] _ _ _ _) _);
    [done|split; [apply bs_u8s|reflexivity]|done|vm_compute; reflexivity].
Defined.

(** no byte string makes a decoder of this file panic. *)
Theorem protocol_decoders_safe b :
  u8s b ->
  safe (decode_auth b) /\ safe (decode_open b) /\ safe (decode_open_err b) /\
  safe (decode_udp_req b) /\ safe (decode_udp_rep b) /\ safe (parse_socks5_udp_datagram b) /\
  safe (decode_v3_auth b) /\ safe (decode_v3_open_with_flags b) /\ safe (decode_v3_open_err b) /\
  safe (classify_v3_first_channel b).
Proof.
  intros Hb. split_and!.
  - exact (codec_safe (dec:=decode_auth) b Hb).
  - exact (codec_safe (dec:=decode_open) b Hb).
  - exact (codec_safe (dec:=decode_open_err) b Hb).
  - exact (codec_safe (dec:=decode_udp_req) b Hb).
  - exact (codec_safe (dec:=decode_udp_rep) b Hb).
  - by apply socks5_udp_safe.
  - exact (codec_safe (dec:=decode_v3_auth) b Hb).
  - exact (codec_safe (dec:=decode_v3_open_with_flags) b Hb).
  - exact (codec_safe (dec:=decode_v3_open_err) b Hb).
  - unfold classify_v3_first_channel. apply safe_bind; [|intros [[[h p] f]|] _; by repeat case_match].
    apply safe_attempt. by apply decode_v3_open_safe.
Qed.

Lemma protocol_decoders_safe_witness : safe (decode_udp_req [V3_CTRL_UDP_REQ; 255]).
Proof. apply (protocol_decoders_safe [V3_CTRL_UDP_REQ; 255]). repeat constructor; done. Defined.

(** What the wire decoders give their callers has the types the program computes with, whatever the
    bytes: hosts are valid UTF-8, ports 16-bit, ids 64-bit and flags 8-bit integers, and payloads
    bytes within the UDP bound. *)
Lemma decoded_values_typed b :
  u8s b ->
  (forall h p f, decode_v3_open_with_flags b = Ok (h, p, f) -> is_str h /\ is_u16 p /\ is_u8 f) /\
  (forall x h p pl, decode_udp_req b = Ok (x, h, p, pl) \/ decode_udp_rep b = Ok (x, h, p, pl) ->
     is_u64 x /\ is_str h /\ is_u16 p /\ u8s pl /\ len pl <= MAX_UDP_PAYLOAD) /\
  (forall h p pl, parse_socks5_udp_datagram b = Ok (h, p, pl) -> is_str h /\ is_u16 p /\ u8s pl).
Proof.
  intros Hb. split_and!.
  - intros h p f. by apply decode_v3_open_typed.
  - intros x h p pl [H|H]; by eapply decode_udp_typed in H.
  - intros h p pl. unfold parse_socks5_udp_datagram. case_decide; [done|]. intros (r0 & _ & H1)%bind_Ok.
    apply bind_Ok in H1 as (r1 & _ & H1). case_decide; [done|]. apply bind_Ok in H1 as (frag & _ & H1). case_decide; [done|].
    apply bind_Ok in H1 as (d & Hd & H1). apply bind_Ok in H1 as ([[h' p'] n] & Ha & H1). apply bind_Ok in H1 as (pl' & Hpl & H1).
    injection H1 as <- <- <-. apply u8s_slice_from in Hd as (Hud & _ & _); [|done]. apply u8s_slice_from in Hpl as (Hup & _ & _); [|done].
    destruct (decode_atyp_safe d Hud) as [_ Hp]. apply Hp in Ha as Hp'. split_and!; [exact (decode_atyp_str _ _ _ _ Hud Ha)|tauto|done].
Qed.

Lemma decoded_values_typed_witness : is_u64 (of_be [1; 2; 3; 4; 5; 6; 7; 8]) /\ is_u16 443.
Proof.
  assert (u8s [V3_CTRL_UDP_REQ; 1; 2; 3; 4; 5; 6; 7; 8; 1; 10; 0; 0; 1; 1; 187; 9]) as Hu by (repeat constructor; done).
  destruct (decoded_values_typed _ Hu) as (_ & H & _).
  destruct (H (of_be [1; 2; 3; 4; 5; 6; 7; 8]) (bs "10.0.0.1") 443 [9]) as (H1 & _ & H2 & _); [left; reflexivity|]. split; [exact H1|exact H2].
Defined.
