(* ===== verification/Crypto.v ===== *)
(** [crypto_layer.rs]: the keys of a session, the sealed outer packet with its
    nonce counter, and the HELLO and ACK messages of the handshake. The
    ciphers and hashes are the crates' ([chacha20poly1305], [blake3]): records
    of operations with the behaviour their documentation promises. *)
From S2P Require Import Prelude Text Frame.

(** [ChaCha20Poly1305] with detached tags: in-place encryption keeps the length,
    the tag has 16 bytes, and decryption inverts encryption. *)
Record Aead := {
  encrypt : bytes -> bytes -> bytes -> option (bytes * bytes);
  decrypt : bytes -> bytes -> bytes -> bytes -> option bytes;
  encrypt_lens k n p c t : encrypt k n p = Some (c, t) -> len c = len p /\ len t = 16;
  decrypt_encrypt k n p c t : encrypt k n p = Some (c, t) -> decrypt k n c t = Some p;
  decrypt_len k n c t p : decrypt k n c t = Some p -> len p = len c;
  decrypt_u8s k n c t p : decrypt k n c t = Some p -> u8s p;
  encrypt_u8s k n p c t : u8s p -> encrypt k n p = Some (c, t) -> u8s c /\ u8s t;
}.

(** [blake3::derive_key] and the keyed hasher give 32 bytes. *)
Record Blake3 := {
  derive_key : str -> bytes -> bytes;
  keyed_hash : bytes -> bytes -> bytes;
  derive_key_len c m : len (derive_key c m) = 32;
  keyed_hash_len k m : len (keyed_hash k m) = 32;
}.

Definition V3_HELLO_TAG : Z := 3.
Definition V3_HELLO_PAD_MAX : Z := 64.
Definition V3_ACK_PAD_MAX : Z := 64.
Definition V3_HELLO_MIN_WIRE_LEN : Z := 1 + 32 + 1.
Definition MAC_LEN : Z := 16.

Definition secret_eq (got expected : bytes) : bool :=
  bool_decide (len got = len expected) && bool_decide (got = expected).

Lemma secret_eq_true got expected : secret_eq got expected = true <-> got = expected.
Proof.
  unfold secret_eq. rewrite andb_true_iff, !bool_decide_eq_true. split; [naive_solver|by intros ->].
Qed.

Section Crypto.
Context (aead : Aead) (b3 : Blake3).

Definition mac_psk_key_v3 (psk domain : bytes) : bytes :=
  derive_key b3 (bs "bibavpn.v3.mac.psk")
    (to_be 4 (as_u32 (len psk)) ++ psk ++ to_be 4 (as_u32 (len domain)) ++ domain).

Definition compute_mac (psk domain client_random server_random : bytes) : bytes :=
  let key := mac_psk_key_v3 psk domain in
  sub (keyed_hash b3 key (client_random ++ server_random)) 0 MAC_LEN.

Definition transport_keys (psk domain client_random server_random : bytes) : bytes * bytes :=
  let ctx := to_be 4 (as_u32 (len psk)) ++ psk ++ to_be 4 (as_u32 (len domain)) ++ domain
    ++ client_random ++ server_random in
  (derive_key b3 (bs "bibavpn.v3.c2s") ctx, derive_key b3 (bs "bibavpn.v3.s2c") ctx).

(** ** One direction *)

Record ChaHalf := { cipher : bytes; ctr : Z }.
Definition ChaHalf_new (key : bytes) : ChaHalf := {| cipher := key; ctr := 0 |}.

Definition next_nonce : ST ChaHalf err bytes := fun h =>
  if decide (h.(ctr) = U64_MAX) then (h, bail "chacha nonce space exhausted")
  else ({| cipher := h.(cipher); ctr := h.(ctr) + 1 |}, Ok (replicate 4 0 ++ to_be 8 h.(ctr))).

(** [append] writes the inner bytes at the end of the buffer. *)
Definition seal_with (rng : Rng) (decoy_max : Z) (append : bytes -> bytes) : ST ChaHalf err bytes :=
  let dlen := if decide (decoy_max = 0) then 0 else gen_range rng 0 decoy_max in
  nonce ← next_nonce;
  let out := nonce ++ [dlen] ++ (if decide (dlen <> 0) then fill_bytes rng dlen else []) in
  let out := append out in
  key ← gets cipher;
  '(c, tag) ← lift (context "chacha encrypt"%string (encrypt aead key nonce (drop 12 out)));
  mret (take 12 out ++ c ++ tag).

Definition seal (rng : Rng) (decoy_max : Z) (inner : bytes) : ST ChaHalf err bytes :=
  seal_with rng decoy_max (fun out => out ++ inner).

(** The decrypted buffer (nonce, plaintext, tag) and the payload range. *)
Definition open_range (h : ChaHalf) (wire : bytes) : result (bytes * (Z * Z)) :=
  if decide (len wire < 12 + 16) then bail "short outer packet" else
  nonce ← slice wire 0 12;
  let e := len wire - 16 in
  tag ← slice_from wire e;
  c ← slice wire 12 e;
  p ← context "chacha decrypt"%string (decrypt aead h.(cipher) nonce c tag);
  let wire := nonce ++ p ++ tag in
  if decide (e = 12) then bail "empty plaintext" else
  d ← ix wire 12;
  let start := 13 + d in
  if decide (e < start) then bail "bad decoy length" else
  Ok (wire, (start, e)).

Definition open_owned (h : ChaHalf) (wire : bytes) : result bytes :=
  '(wire, (start, e)) ← open_range h wire;
  slice wire start e.

(** [truncate] then [drain]. *)
Definition open (h : ChaHalf) (wire : bytes) : result bytes :=
  '(wire, (start, e)) ← open_range h wire;
  let out := take (Z.to_nat e) wire in
  if decide (start <= len out) then Ok (drop (Z.to_nat start) out) else Panic.

(** ** Both directions *)

Record SessionCrypto := { c2s : ChaHalf; s2c : ChaHalf; decoy_max : Z }.

Definition SessionCrypto_new (psk domain client_random server_random : bytes) (decoy : Z) : SessionCrypto :=
  let '(k_up, k_dn) := transport_keys psk domain client_random server_random in
  {| c2s := ChaHalf_new k_up; s2c := ChaHalf_new k_dn; decoy_max := decoy |}.

(** Runs an operation on one half of the session. *)
Definition on_c2s {A} (m : ST ChaHalf err A) : ST SessionCrypto err A := fun s =>
  let '(h, r) := m s.(c2s) in ({| c2s := h; s2c := s.(s2c); decoy_max := s.(decoy_max) |}, r).
Definition on_s2c {A} (m : ST ChaHalf err A) : ST SessionCrypto err A := fun s =>
  let '(h, r) := m s.(s2c) in ({| c2s := s.(c2s); s2c := h; decoy_max := s.(decoy_max) |}, r).

Definition seal_frame (rng : Rng) (client : bool) (frame : PreparedFrame) : ST SessionCrypto err bytes :=
  d ← gets decoy_max;
  (if client then on_c2s else on_s2c) (seal_with rng d (append_to rng frame)).

Definition seal_client_to_server (rng : Rng) (inner : bytes) : ST SessionCrypto err bytes :=
  d ← gets decoy_max; on_c2s (seal rng d inner).
Definition seal_server_to_client (rng : Rng) (inner : bytes) : ST SessionCrypto err bytes :=
  d ← gets decoy_max; on_s2c (seal rng d inner).

(** [.context(..)] names the direction. *)
Definition in_c2s {A} (r : result A) : result A := map_err (fun e => "chacha decrypt (c2s): " +:+ e)%string r.
Definition in_s2c {A} (r : result A) : result A := map_err (fun e => "chacha decrypt (s2c): " +:+ e)%string r.
Definition open_client_to_server (s : SessionCrypto) (wire : bytes) := in_c2s (open s.(c2s) wire).
Definition open_client_to_server_owned (s : SessionCrypto) (wire : bytes) := in_c2s (open_owned s.(c2s) wire).
Definition open_server_to_client_owned (s : SessionCrypto) (wire : bytes) := in_s2c (open_owned s.(s2c) wire).
Definition open_server_to_client (s : SessionCrypto) (wire : bytes) := in_s2c (open s.(s2c) wire).

(** ** Handshake messages; the random value and the padding have their own draws *)

Definition build_hello_v3 (rand pad : Rng) : bytes * bytes :=
  let c := fill_bytes rand 32 in
  let pad_len := gen_range pad 0 V3_HELLO_PAD_MAX in
  (c, [V3_HELLO_TAG] ++ c ++ [pad_len] ++ fill_bytes pad pad_len).

Definition parse_hello_v3 (buf : bytes) : result bytes :=
  if decide (len buf < V3_HELLO_MIN_WIRE_LEN) then bail "bad v3 HELLO" else
  t ← ix buf 0;
  if decide (t <> V3_HELLO_TAG) then bail "bad v3 HELLO" else
  pad_len ← ix buf 33;
  if decide (V3_HELLO_PAD_MAX < pad_len) then bail "bad v3 HELLO pad len" else
  if decide (len buf <> V3_HELLO_MIN_WIRE_LEN + pad_len) then bail "bad v3 HELLO length" else
  slice buf 1 33.

Definition build_ack (rand pad : Rng) (psk domain client_random : bytes) : result (bytes * bytes) :=
  let s := fill_bytes rand 32 in
  let mac := compute_mac psk domain client_random s in
  let pad_len := gen_range pad 0 V3_ACK_PAD_MAX in
  Ok (s ++ mac ++ [pad_len] ++ fill_bytes pad pad_len, s).

Definition parse_ack (psk domain buf client_random : bytes) : result bytes :=
  if decide (len buf < 32 + MAC_LEN + 1) then bail "bad v3 ACK length" else
  s ← slice buf 0 32;
  tag ← slice buf 32 (32 + MAC_LEN);
  pad_len ← ix buf (32 + MAC_LEN);
  if decide (V3_ACK_PAD_MAX < pad_len) then bail "bad v3 ACK pad len" else
  let expect_len := 32 + MAC_LEN + 1 + pad_len in
  if decide (len buf <> expect_len) then bail "bad v3 ACK length" else
  let expected := compute_mac psk domain client_random s in
  if decide (tag <> expected) then bail "ACK mac mismatch" else
  Ok s.
End Crypto.

(** ** Lemmas *)

Definition nonce_of (c : Z) : bytes := replicate 4 0 ++ to_be 8 c.

Lemma nonce_of_len c : len (nonce_of c) = 12.
Proof. done. Qed.

Lemma nonce_of_inj c d : is_u64 c -> is_u64 d -> nonce_of c = nonce_of d -> c = d.
Proof. unfold nonce_of. intros Hc Hd H%app_inv_head. by apply (to_be_inj 8). Qed.

Section Lemmas.
Context (aead : Aead) (b3 : Blake3).

(** The decoy length and bytes drawn for a seal. *)
Definition decoy (rng : Rng) (decoy_max : Z) : bytes :=
  if decide ((if decide (decoy_max = 0) then 0 else gen_range rng 0 decoy_max) <> 0)
  then fill_bytes rng (if decide (decoy_max = 0) then 0 else gen_range rng 0 decoy_max) else [].

Lemma decoy_len rng d : is_u8 d ->
  len (decoy rng d) = (if decide (d = 0) then 0 else gen_range rng 0 d) /\ 0 <= len (decoy rng d) <= d.
Proof using.
  unfold decoy, is_u8. intros Hd. destruct (decide (d = 0)) as [->|]; [done|].
  pose proof (gen_range_in rng 0 d). case_decide as H0.
  - rewrite fill_bytes_len; lia.
  - rewrite len_nil. lia.
Qed.

Lemma seal_with_Ok rng d append inner h h' wire :
  is_u8 d -> (forall out, append out = out ++ inner) ->
  seal_with aead rng d append h = (h', Ok wire) ->
  h.(ctr) <> U64_MAX /\ h' = {| cipher := h.(cipher); ctr := h.(ctr) + 1 |} /\
  exists c tag, wire = nonce_of h.(ctr) ++ c ++ tag /\
    encrypt aead h.(cipher) (nonce_of h.(ctr)) ([len (decoy rng d)] ++ decoy rng d ++ inner) = Some (c, tag).
Proof using.
  intros Hd Happ. pose proof (decoy_len rng d Hd) as [Hdl _]. unfold seal_with, next_nonce.
  unfold mbind, st_bind, gets, lift, mret, st_ret. destruct (decide (ctr h = U64_MAX)); [done|].
  rewrite Happ. fold (nonce_of (ctr h)). fold (decoy rng d). rewrite <- Hdl.
  rewrite <- !app_assoc. rewrite drop_app_length', take_app_length' by done. cbn [cipher].
  destruct (encrypt aead _ _ _) as [[c tag]|] eqn:He; [|done].
  intros [= <- <-]. split_and!; [done..|]. by exists c, tag.
Qed.

Lemma open_range_seal h n dl dc inner c tag :
  len n = 12 -> dl = len dc ->
  encrypt aead h.(cipher) n ([dl] ++ dc ++ inner) = Some (c, tag) ->
  open_range aead h (n ++ c ++ tag) =
    Ok (n ++ ([dl] ++ dc ++ inner) ++ tag, (13 + len dc, 13 + len dc + len inner)).
Proof using.
  intros Hn -> He. pose proof (encrypt_lens _ _ _ _ _ _ He) as [Hc Ht].
  pose proof (len_nonneg dc). pose proof (len_nonneg inner).
  assert (len c = 1 + len dc + len inner) as Hcl by (rewrite Hc; autorewrite with wire; lia).
  unfold open_range.
  assert (len (n ++ c ++ tag) = 28 + len c) as Hw by (autorewrite with wire; lia).
  assert (@slice err Z (n ++ c ++ tag) 0 12 = Ok n) as E1 by (apply slice_0; lia).
  assert (@slice_from err Z (n ++ c ++ tag) (28 + len c - 16) = Ok tag) as E2
    by (rewrite app_assoc; apply slice_from_end; autorewrite with wire; lia).
  assert (@slice err Z (n ++ c ++ tag) 12 (28 + len c - 16) = Ok c) as E3 by (apply slice_mid; lia).
  rewrite Hw. guard_no. rewrite E1. cbn [mbind res_bind]. rewrite E2. cbn [mbind res_bind].
  rewrite E3. cbn [mbind res_bind].
  rewrite (decrypt_encrypt _ _ _ _ _ _ He). cbn [mbind res_bind context]. guard_no.
  rewrite ix_app_r, Hn by lia. replace (12 - 12) with 0 by lia.
  change (ix (([len dc] ++ dc ++ inner) ++ tag) 0) with (@Ok err Z (len dc)).
  cbn [mbind res_bind]. guard_no. do 3 f_equal. lia.
Qed.

Lemma open_payload (n dc inner tag : bytes) dl :
  len n = 12 ->
  @slice err Z (n ++ ([dl] ++ dc ++ inner) ++ tag) (13 + len dc) (13 + len dc + len inner) = Ok inner.
Proof using.
  intros Hn. replace (n ++ ([dl] ++ dc ++ inner) ++ tag) with ((n ++ [dl] ++ dc) ++ inner ++ tag)
    by (by rewrite <- !app_assoc).
  apply slice_mid; autorewrite with wire; lia.
Qed.

Lemma open_seal h n dl dc inner c tag :
  len n = 12 -> dl = len dc ->
  encrypt aead h.(cipher) n ([dl] ++ dc ++ inner) = Some (c, tag) ->
  open aead h (n ++ c ++ tag) = Ok inner /\ open_owned aead h (n ++ c ++ tag) = Ok inner.
Proof using.
  intros Hn Hdl He. pose proof (encrypt_lens _ _ _ _ _ _ He) as [Hc Ht].
  pose proof (len_nonneg dc). pose proof (len_nonneg inner). unfold open, open_owned.
  rewrite (open_range_seal _ _ _ _ _ _ _ Hn Hdl He). cbn [mbind res_bind].
  split; [|by apply open_payload].
  set (w := n ++ ([dl] ++ dc ++ inner) ++ tag).
  assert (w = ((n ++ [dl] ++ dc) ++ inner) ++ tag) as -> by (unfold w; by rewrite <- !app_assoc).
  rewrite take_app_length' by (unfold len in *; rewrite !length_app; simpl; lia).
  guard_yes || rewrite decide_True by (autorewrite with wire; lia).
  rewrite drop_app_length'; [done|]. unfold len in *. rewrite !length_app. simpl. lia.
Qed.

Lemma open_range_safe h wire : u8s wire ->
  safe (open_range aead h wire) /\
  forall w st e, open_range aead h wire = Ok (w, (st, e)) -> 0 <= st <= e /\ e <= len w /\ u8s w.
Proof using.
  intros Hw. unfold open_range. case_decide as Hl; [done|].
  rewrite slice_Ok by lia. cbn [mbind res_bind]. unfold slice_from.
  rewrite slice_Ok by lia. cbn [mbind res_bind]. rewrite slice_Ok by lia. cbn [mbind res_bind].
  destruct (decrypt aead _ _ _ _) as [p|] eqn:Hd; [|done]. cbn [mbind res_bind context].
  pose proof (decrypt_len _ _ _ _ _ _ Hd) as Hpl. rewrite len_sub in Hpl by lia.
  set (w' := _ ++ _ ++ _). assert (len w' = len wire) as Hwl.
  { unfold w'. rewrite !len_app, !len_sub by lia. lia. }
  assert (u8s w') as Hu8 by (apply Forall_app; split; [by apply u8s_sub|];
    apply Forall_app; split; [by eapply decrypt_u8s|by apply u8s_sub]).
  case_decide; [done|]. destruct (ix_in (E:=err) w' 12) as [d Hd']; [lia|]. rewrite Hd'.
  cbn [mbind res_bind]. pose proof (ix_u8 _ _ _ Hu8 Hd') as Hdu. unfold is_u8 in Hdu.
  case_decide; [done|]. split; [done|]. intros w st e [= <- <- <-]. split; [lia|]. split; [lia|done].
Qed.

Lemma seal_with_facts rng d append inner h h' wire peer :
  is_u8 d -> (forall out, append out = out ++ inner) -> peer.(cipher) = h.(cipher) ->
  seal_with aead rng d append h = (h', Ok wire) ->
  open aead peer wire = Ok inner /\ open_owned aead peer wire = Ok inner /\
  29 + len inner <= len wire <= 29 + d + len inner.
Proof using.
  intros Hd Happ Hk Hs. destruct (seal_with_Ok _ _ _ _ _ _ _ Hd Happ Hs) as (_ & _ & c & tag & -> & He).
  rewrite <- Hk in He. pose proof (decoy_len rng d Hd) as [_ Hdl].
  destruct (open_seal peer _ _ _ _ _ _ (nonce_of_len _) eq_refl He) as [H1 H2].
  split_and!; [done..| |]; destruct (encrypt_lens _ _ _ _ _ _ He) as [Hc Ht];
    autorewrite with wire in *; rewrite nonce_of_len; lia.
Qed.

Lemma open_safe h wire : u8s wire -> safe (open aead h wire) /\ safe (open_owned aead h wire).
Proof using.
  intros Hw. destruct (open_range_safe h wire Hw) as [Hs Hr]. unfold open, open_owned.
  split; apply safe_bind; try done; intros [w [st e]] H; apply Hr in H.
  - rewrite decide_True; [done|]. unfold len in *. rewrite length_take. lia.
  - apply safe_slice. lia.
Qed.

Lemma open_u8s h wire p : u8s wire -> open aead h wire = Ok p \/ open_owned aead h wire = Ok p -> u8s p.
Proof using.
  intros Hw. destruct (open_range_safe h wire Hw) as [_ Hr]. unfold open, open_owned.
  intros [([w [st e]] & H & Hp)%bind_Ok|([w [st e]] & H & Hp)%bind_Ok]; apply Hr in H as (? & ? & Hu).
  - case_decide; [|done]. apply Ok_inj in Hp as <-. by apply Forall_drop, Forall_take.
  - apply slice_inv in Hp as (? & ? & ->). by apply u8s_sub.
Qed.

Lemma append_to_app rng f out : append_to rng f out = out ++ append_to rng f [].
Proof using. done. Qed.
End Lemmas.

(** A cipher and a hash with the documented shapes, for the examples. *)
Definition plain_aead : Aead.
Proof.
  refine {| encrypt k n p := if decide (u8s p) then Some (p, replicate 16 0) else None;
            decrypt k n c t := if decide (u8s c) then Some c else None |};
    intros; repeat case_decide; simplify_eq; try done. split; [done|by apply Forall_replicate].
Defined.
Definition zero_blake3 : Blake3.
Proof. by refine {| derive_key c m := replicate 32 7; keyed_hash k m := replicate 32 9 |}. Defined.

(** The two ends of a session: each direction uses one key on both ends. *)
Definition same_keys (a b : SessionCrypto) : Prop :=
  a.(c2s).(cipher) = b.(c2s).(cipher) /\ a.(s2c).(cipher) = b.(s2c).(cipher).

#[export] Instance same_keys_equiv : Equivalence same_keys.
Proof. split; [by intros a|by intros a b [? ?]|]. intros a b c [H1 H2] [H3 H4]. split; congruence. Qed.

(** What a seal gives the peer, and what it leaves unchanged at the sender. *)
Section Directions.
Context (aead : Aead).

Record sealed_ok (inner wire : bytes) (a a' : SessionCrypto) (opened owned : result bytes) : Prop := {
  so_open : opened = Ok inner;
  so_owned : owned = Ok inner;
  so_len : 29 + len inner <= len wire <= 29 + a.(decoy_max) + len inner;
  so_keys : same_keys a a';
  so_decoy : a'.(decoy_max) = a.(decoy_max);
}.

Lemma seal_with_cipher rng d append h h' r : seal_with aead rng d append h = (h', r) -> h'.(cipher) = h.(cipher).
Proof using.
  unfold seal_with, next_nonce, mbind, st_bind, gets, lift, mret, st_ret.
  destruct (decide (ctr h = U64_MAX)); [by intros [= <- _]|]. cbn [cipher].
  by destruct (encrypt aead _ _ _) as [[c tag]|]; intros [= <- _].
Qed.

(** Keys and decoy bound are kept whether or not the seal succeeds. *)
Lemma seal_keeps rng inner a a' r (c : bool) :
  (if c then seal_client_to_server aead rng inner a else seal_server_to_client aead rng inner a) = (a', r) ->
  same_keys a a' /\ a'.(decoy_max) = a.(decoy_max).
Proof using.
  destruct c; unfold seal_client_to_server, seal_server_to_client, mbind, st_bind, gets, on_c2s, on_s2c, seal;
    (destruct (seal_with _ _ _ _ _) as [h r'] eqn:Hw; intros [= <- _]; apply seal_with_cipher in Hw;
     unfold same_keys; cbn [c2s s2c decoy_max]; by rewrite Hw).
Qed.

Lemma seal_c2s_ok rng inner a b a' wire :
  is_u8 a.(decoy_max) -> same_keys a b -> seal_client_to_server aead rng inner a = (a', Ok wire) ->
  sealed_ok inner wire a a' (open_client_to_server aead b wire) (open_client_to_server_owned aead b wire).
Proof using.
  intros Hd [Hc _] H. destruct (seal_keeps _ _ _ _ _ true H) as [Hk Hm].
  unfold seal_client_to_server, mbind, st_bind, gets, on_c2s, seal in H.
  destruct (seal_with _ _ _ _ (c2s a)) as [h r] eqn:Hw. injection H as <- ->.
  eapply seal_with_facts in Hw as (H1 & H2 & H3); [|done|done|by symmetry].
  unfold open_client_to_server, open_client_to_server_owned. rewrite H1, H2. by split.
Qed.

Lemma seal_s2c_ok rng inner a b a' wire :
  is_u8 a.(decoy_max) -> same_keys a b -> seal_server_to_client aead rng inner a = (a', Ok wire) ->
  sealed_ok inner wire a a' (open_server_to_client aead b wire) (open_server_to_client_owned aead b wire).
Proof using.
  intros Hd [_ Hs] H. destruct (seal_keeps _ _ _ _ _ false H) as [Hk Hm].
  unfold seal_server_to_client, mbind, st_bind, gets, on_s2c, seal in H.
  destruct (seal_with _ _ _ _ (s2c a)) as [h r] eqn:Hw. injection H as <- ->.
  eapply seal_with_facts in Hw as (H1 & H2 & H3); [|done|done|by symmetry].
  unfold open_server_to_client, open_server_to_client_owned. rewrite H1, H2. by split.
Qed.
End Directions.

(** A run of seals on one half, whatever they carry: the packets it produces. *)
Fixpoint seal_run (aead : Aead) (calls : list (Rng * Z * bytes)) (h : ChaHalf) : list bytes :=
  match calls with
  | [] => []
  | (rng, d, inner) :: calls =>
    match seal aead rng d inner h with
    | (h', Ok wire) => wire :: seal_run aead calls h'
    | (h', _) => seal_run aead calls h'
    end
  end.

Definition nonce_in (lo : Z) (n : bytes) : Prop := exists c, lo <= c < U64_MAX /\ n = nonce_of c.

Lemma seal_ctr aead rng d inner h h' r :
  0 <= h.(ctr) <= U64_MAX -> seal aead rng d inner h = (h', r) ->
  h.(ctr) <= h'.(ctr) <= U64_MAX.
Proof.
  unfold seal, seal_with, next_nonce, mbind, st_bind, gets, lift, mret, st_ret.
  intros Hc. destruct (decide (ctr h = U64_MAX)); [intros [= <- <-]; lia|]. cbn [cipher].
  destruct (encrypt aead _ _ _) as [[c tag]|]; cbn; intros [= <- <-]; simpl; lia.
Qed.

Lemma seal_run_nonces aead calls h :
  Forall (fun c => is_u8 c.1.2) calls -> 0 <= h.(ctr) <= U64_MAX ->
  NoDup (take 12 <$> seal_run aead calls h) /\
  Forall (nonce_in h.(ctr)) (take 12 <$> seal_run aead calls h).
Proof.
  intros Hd. revert h. induction Hd as [|[[rng d] inner] calls Hd _ IH]; intros h Hc; [by split; constructor|].
  simpl in *. destruct (seal aead rng d inner h) as [h' r] eqn:Hs.
  pose proof (seal_ctr _ _ _ _ _ _ _ Hc Hs) as Hc'. destruct (IH h') as [IHn IHf]; [lia|].
  assert (forall n, nonce_in (ctr h') n -> nonce_in (ctr h) n) as Hmono
    by (intros n (c & ? & ->); exists c; split; [lia|done]).
  destruct r as [wire|e|]; [|by split; [|eapply Forall_impl]..].
  destruct (seal_with_Ok _ _ _ _ _ _ _ _ Hd (fun _ => eq_refl) Hs) as (Hne & -> & c & tag & -> & _).
  cbn [fmap list_fmap]. rewrite take_app_length' by done. split; constructor.
  - intros Hin. rewrite Forall_forall in IHf.
    apply IHf in Hin as (c' & Hc'' & Heq). simpl in *.
    apply nonce_of_inj in Heq; unfold is_u64, U64_MAX in *; lia.
  - done.
  - exists (ctr h). unfold U64_MAX in *. split; [lia|done].
  - by eapply Forall_impl.
Qed.

(** ** Handshake messages *)

Definition hello_layout (c pad : bytes) : bytes := [V3_HELLO_TAG] ++ c ++ [len pad] ++ pad.
Definition ack_layout (s mac pad : bytes) : bytes := s ++ mac ++ [len pad] ++ pad.

Lemma compute_mac_len b3 psk dom cr sr : len (compute_mac b3 psk dom cr sr) = 16.
Proof. unfold compute_mac, MAC_LEN. rewrite len_sub; rewrite ?keyed_hash_len; lia. Qed.

Lemma parse_hello_layout c pad :
  len c = 32 -> len pad <= 64 -> parse_hello_v3 (hello_layout c pad) = Ok c.
Proof.
  intros Hc Hp. pose proof (len_nonneg pad). unfold parse_hello_v3, V3_HELLO_MIN_WIRE_LEN, V3_HELLO_PAD_MAX.
  assert (len (hello_layout c pad) = 34 + len pad) as -> by (unfold hello_layout; autorewrite with wire; lia).
  guard_no. change (ix (hello_layout c pad) 0) with (@Ok err Z V3_HELLO_TAG). cbn [mbind res_bind]. guard_no.
  assert (@ix err Z (hello_layout c pad) 33 = Ok (len pad)) as ->.
  { unfold hello_layout. rewrite app_assoc. apply ix_mid. autorewrite with wire. lia. }
  cbn [mbind res_bind]. do 2 guard_no. apply slice_mid; autorewrite with wire; lia.
Qed.

Lemma parse_hello_inv buf c :
  u8s buf -> parse_hello_v3 buf = Ok c ->
  exists pad, buf = hello_layout c pad /\ len c = 32 /\ len pad <= 64.
Proof.
  intros Hu. unfold parse_hello_v3, V3_HELLO_MIN_WIRE_LEN, V3_HELLO_PAD_MAX. case_decide; [done|].
  intros (t & Ht & H1)%bind_Ok. case_decide as Htag; [done|].
  apply bind_Ok in H1 as (n & Hn & H1). do 2 (case_decide; [done|]).
  apply slice_inv in H1 as (_ & _ & ->). pose proof (ix_u8 _ _ _ Hu Hn) as Hnu. unfold is_u8 in Hnu.
  apply ix_0_cons in Ht as [r ->]. apply ix_Ok in Hn as [_ Hn]. rewrite len_app, len_1 in *.
  assert (t = V3_HELLO_TAG) as -> by (by destruct (decide (t = V3_HELLO_TAG))).
  assert (sub ([V3_HELLO_TAG] ++ r) 1 33 = take 32 r) as -> by done.
  change (([V3_HELLO_TAG] ++ r) !! Z.to_nat 33) with (r !! 32%nat) in Hn.
  exists (drop 33 r). unfold hello_layout.
  assert (len (drop 33 r) = n) as -> by (unfold len in *; rewrite length_drop; lia).
  assert (len (take 32 r) = 32) by (unfold len in *; rewrite length_take; lia).
  split; [|lia]. f_equal. rewrite <- (take_drop 32 r) at 1. f_equal. by rewrite (drop_S _ _ _ Hn).
Qed.

Section Ack.
Context (b3 : Blake3) (psk dom cr : bytes).

Lemma parse_ack_layout s pad :
  len s = 32 -> len pad <= 64 ->
  parse_ack b3 psk dom (ack_layout s (compute_mac b3 psk dom cr s) pad) cr = Ok s.
Proof using.
  intros Hs Hp. pose proof (len_nonneg pad). pose proof (compute_mac_len b3 psk dom cr s) as Hm.
  set (m := compute_mac b3 psk dom cr s) in *. unfold parse_ack, MAC_LEN, V3_ACK_PAD_MAX.
  assert (len (ack_layout s m pad) = 49 + len pad) as -> by (unfold ack_layout; autorewrite with wire; lia).
  assert (@slice err Z (ack_layout s m pad) 0 32 = Ok s) as -> by (apply slice_0; lia).
  assert (@slice err Z (ack_layout s m pad) 32 (32 + 16) = Ok m) as -> by (apply slice_mid; lia).
  assert (@ix err Z (ack_layout s m pad) (32 + 16) = Ok (len pad)) as ->.
  { unfold ack_layout. rewrite app_assoc. apply ix_mid. rewrite len_app. lia. }
  guard_no. cbn [mbind res_bind]. do 2 guard_no. fold m. by guard_no.
Qed.

Lemma parse_ack_inv buf s :
  u8s buf -> parse_ack b3 psk dom buf cr = Ok s ->
  exists pad, buf = ack_layout s (compute_mac b3 psk dom cr s) pad /\ len s = 32 /\ len pad <= 64.
Proof using.
  intros Hu. unfold parse_ack, MAC_LEN, V3_ACK_PAD_MAX. case_decide; [done|].
  rewrite slice_Ok by lia. cbn [mbind res_bind]. rewrite slice_Ok by lia. cbn [mbind res_bind].
  intros (n & Hn & H1)%bind_Ok. do 2 (case_decide; [done|]). case_decide as Hmac; [done|].
  injection H1 as <-. pose proof (ix_u8 _ _ _ Hu Hn) as Hnu. unfold is_u8 in Hnu.
  apply ix_Ok in Hn as [_ Hn].
  rewrite <- Hmac.
  exists (drop 49 buf). assert (len (drop 49 buf) = n) as Hd by (unfold len in *; rewrite length_drop; lia).
  rewrite len_sub by lia. split; [|lia]. unfold ack_layout. rewrite Hd.
  rewrite app_assoc, <- sub_split by lia.
  change (buf !! Z.to_nat (32 + 16)) with (buf !! 48%nat) in Hn.
  rewrite <- (take_drop 48 buf) at 1. f_equal. by rewrite (drop_S _ _ _ Hn).
Qed.
End Ack.

(** ** Properties *)

(** C24: what one end seals for a direction the other end opens to the same bytes, by
    both opening functions, and sealing adds at most [29 + decoy_max] bytes. *)
Theorem session_roundtrip aead rng inner a b a' wire :
  is_u8 a.(decoy_max) -> same_keys a b ->
  (seal_client_to_server aead rng inner a = (a', Ok wire) ->
     open_client_to_server aead b wire = Ok inner /\
     open_client_to_server_owned aead b wire = Ok inner /\
     29 + len inner <= len wire <= 29 + a.(decoy_max) + len inner) /\
  (seal_server_to_client aead rng inner a = (a', Ok wire) ->
     open_server_to_client aead b wire = Ok inner /\
     open_server_to_client_owned aead b wire = Ok inner /\
     29 + len inner <= len wire <= 29 + a.(decoy_max) + len inner).
Proof.
  intros Hd Hk. split; intros H.
  - by destruct (seal_c2s_ok _ _ _ _ _ _ _ Hd Hk H) as [-> -> ? _ _].
  - by destruct (seal_s2c_ok _ _ _ _ _ _ _ Hd Hk H) as [-> -> ? _ _].
Qed.

Lemma session_roundtrip_witness :
  let a := SessionCrypto_new zero_blake3 [1] [2] (replicate 32 3) (replicate 32 4) 24 in
  exists a' wire, seal_client_to_server plain_aead zero_rng (bs "hi") a = (a', Ok wire) /\
    open_client_to_server plain_aead a wire = Ok (bs "hi").
Proof.
  intros a. destruct (seal_client_to_server plain_aead zero_rng (bs "hi") a) as [a' r] eqn:Hs.
  assert (exists wire, r = Ok wire) as [wire ->] by (vm_compute in Hs; injection Hs as <- <-; by eexists).
  exists a', wire. split; [done|].
  apply (session_roundtrip plain_aead zero_rng (bs "hi") a a a' wire); done.
Defined.

(** a tunnel message built from a chunk within [max_tcp_payload_per_ws_message] is,
    once padded and sealed, never longer than the configured binary message, and the
    other end recovers the chunk from it. *)
Theorem sealed_frame_fits aead rng rng' client ps max_pad mode ad f ad' max_ws a a' b wire :
  is_u8 a.(decoy_max) -> is_u8 max_pad -> same_keys a b ->
  len (concat ps) <= max_tcp_payload_per_ws_message true a.(decoy_max) max_pad max_ws ->
  29 + a.(decoy_max) + 5 + max_pad <= max_ws ->
  PreparedFrame_new rng ps max_pad mode ad = Ok (f, ad') ->
  seal_frame aead rng' client f a = (a', Ok wire) ->
  len wire <= max_ws /\
  (if client then open_client_to_server_owned aead b wire else open_server_to_client_owned aead b wire)
    ≫= (fun raw => map_err (fun _ => "frame"%string) (read_padded_frame_bytes raw)) = Ok (concat ps).
Proof.
  intros Hd Hp [Hkc Hks] Hl Hmax Hf Hs.
  destruct (PreparedFrame_new_Ok _ _ _ _ _ _ _ Hp Hf) as (Hps & Hlen & Hpl & Hpad).
  destruct (append_to_layout rng' f []) as (pad & Hpd & Hlay); [by rewrite Hps|lia|].
  rewrite Hps, app_nil_l in Hlay. unfold is_u8 in *.
  assert (len (append_to rng' f []) = 5 + pad_len f + len (concat ps)) as Hal.
  { rewrite Hlay. unfold layout. autorewrite with wire. lia. }
  assert (len (concat ps) <= max_ws - (29 + decoy_max a + 5 + max_pad)) as Hb.
  { unfold max_tcp_payload_per_ws_message, sat_add, sat_sub, USIZE_MAX, U64_MAX in Hl.
    simpl in Hl. case_decide; lia. }
  assert (forall raw, raw = append_to rng' f [] -> read_padded_frame_bytes raw = Ok (concat ps)) as Hread.
  { intros raw ->. rewrite Hlay. apply read_layout; lia. }
  unfold seal_frame, mbind, st_bind, gets in Hs. destruct client.
  - unfold on_c2s in Hs. destruct (seal_with _ _ _ _ (c2s a)) as [h r] eqn:Hw. injection Hs as <- ->.
    eapply seal_with_facts in Hw as (H1 & H2 & H3); [|done|intros; apply append_to_app|by symmetry].
    split; [lia|]. unfold open_client_to_server_owned. rewrite H2. simpl. by rewrite Hread.
  - unfold on_s2c in Hs. destruct (seal_with _ _ _ _ (s2c a)) as [h r] eqn:Hw. injection Hs as <- ->.
    eapply seal_with_facts in Hw as (H1 & H2 & H3); [|done|intros; apply append_to_app|by symmetry].
    split; [lia|]. unfold open_server_to_client_owned. rewrite H2. simpl. by rewrite Hread.
Qed.

Lemma sealed_frame_fits_witness :
  let a := SessionCrypto_new zero_blake3 [1] [2] (replicate 32 3) (replicate 32 4) 24 in
  exists f ad a' wire,
    PreparedFrame_new zero_rng [[1]; [2; 3]] 64 Random None = Ok (f, ad) /\
    seal_frame plain_aead zero_rng true f a = (a', Ok wire) /\ len wire <= 4096.
Proof.
  intros a.
  destruct (PreparedFrame_new zero_rng [[1]; [2; 3]] 64 Random None) as [[f ad]| |] eqn:Hf;
    [|vm_compute in Hf; done..].
  destruct (seal_frame plain_aead zero_rng true f a) as [a' r] eqn:Hs.
  assert (exists wire, r = Ok wire) as [wire ->].
  { vm_compute in Hf. injection Hf as <- <-. vm_compute in Hs. injection Hs as <- <-. by eexists. }
  exists f, ad, a', wire. split_and!; [done..|].
  eapply (sealed_frame_fits plain_aead zero_rng zero_rng true [[1]; [2; 3]] 64 Random None f ad 4096 a a' a);
    try done; vm_compute; done.
Defined.

(** C25: no nonce is used twice under one key, however many packets are sealed and
    however the calls are ordered, and once the counter is exhausted sealing fails
    without changing the state. *)
Theorem nonces_unique aead calls h :
  Forall (fun c => is_u8 c.1.2) calls -> 0 <= h.(ctr) <= U64_MAX ->
  NoDup (take 12 <$> seal_run aead calls h) /\
  (h.(ctr) = U64_MAX -> forall rng d inner, exists e, seal aead rng d inner h = (h, Err e)).
Proof.
  intros Hd Hc. split; [by apply seal_run_nonces|].
  intros He rng d inner. unfold seal, seal_with, next_nonce, mbind, st_bind.
  rewrite (decide_True (P:=ctr h = U64_MAX)) by done. by eexists.
Qed.

Lemma nonces_unique_witness :
  NoDup (take 12 <$> seal_run plain_aead [(zero_rng, 0, [1]); (zero_rng, 24, [1])] (ChaHalf_new [])).
Proof.
  refine (proj1 (nonces_unique plain_aead [(zero_rng, 0, [1]); (zero_rng, 24, [1])] (ChaHalf_new []) _ _)).
  - repeat constructor; done.
  - done.
Defined.

(** a generated HELLO parses to its client random and a generated ACK to its server
    random; conversely only byte strings with the documented layout are accepted, an
    accepted ACK carries the MAC of the shared secret over both randoms, and no input
    makes the handshake parsers or the packet openers panic. *)
Theorem handshake_messages aead b3 psk dom cr rand pad half buf :
  u8s buf ->
  parse_hello_v3 (build_hello_v3 rand pad).2 = Ok (build_hello_v3 rand pad).1 /\
  build_ack b3 rand pad psk dom cr ≫= (fun r => parse_ack b3 psk dom r.1 cr)
    = snd <$> build_ack b3 rand pad psk dom cr /\
  (forall c, parse_hello_v3 buf = Ok c <->
     exists p, buf = hello_layout c p /\ len c = 32 /\ len p <= 64) /\
  (forall s, parse_ack b3 psk dom buf cr = Ok s <->
     exists p, buf = ack_layout s (compute_mac b3 psk dom cr s) p /\ len s = 32 /\ len p <= 64) /\
  safe (parse_hello_v3 buf) /\ safe (parse_ack b3 psk dom buf cr) /\
  safe (open aead half buf) /\ safe (open_owned aead half buf).
Proof.
  intros Hu. pose proof (open_safe aead half buf Hu) as [Ho1 Ho2].
  pose proof (gen_range_in pad 0 64) as Hg.
  split_and!; [| | | | | |done|done].
  - unfold build_hello_v3, V3_HELLO_PAD_MAX. cbn [fst snd].
    rewrite <- (fill_bytes_len pad (gen_range pad 0 64)) at 1 by lia.
    apply parse_hello_layout; rewrite fill_bytes_len; lia.
  - unfold build_ack, V3_ACK_PAD_MAX. cbn [mbind res_bind fmap res_fmap fst snd].
    rewrite <- (fill_bytes_len pad (gen_range pad 0 64)) at 1 by lia.
    apply parse_ack_layout; rewrite fill_bytes_len; lia.
  - intros c. split; [by apply parse_hello_inv|]. intros (p & -> & ? & ?). by apply parse_hello_layout.
  - intros s. split; [by apply parse_ack_inv|]. intros (p & -> & ? & ?). by apply parse_ack_layout.
  - unfold parse_hello_v3, V3_HELLO_MIN_WIRE_LEN. no_panic.
  - unfold parse_ack, MAC_LEN. no_panic.
Qed.

Lemma handshake_messages_witness : parse_hello_v3 ([3] ++ replicate 32 8 ++ [1; 0]) = Ok (replicate 32 8).
Proof.
  assert (u8s ([3] ++ replicate 32 8 ++ [1; 0])) as Hu by (repeat constructor; done).
  pose proof (handshake_messages plain_aead zero_blake3 [] [] [] zero_rng zero_rng (ChaHalf_new []) _ Hu) as H.
  apply H. by exists [0].
Defined.

(** the fast paths compute what the plain ones do: sealing a prepared frame straight into the packet
    is writing the frame and sealing it; opening in place is opening into a slice of the packet; and
    the payload taken out of a frame by moving it is the one borrowed from it; errors included. *)
Theorem fast_paths_agree aead rng client f a h wire :
  u8s wire ->
  seal_frame aead rng client f a =
    (if client then seal_client_to_server aead rng (append_to rng f []) a else seal_server_to_client aead rng (append_to rng f []) a) /\
  open aead h wire = open_owned aead h wire /\
  read_padded_frame_into wire = read_padded_frame_borrow wire.
Proof.
  intros Hu. split_and!; [| |by apply readers_agree].
  - unfold seal_frame, seal_client_to_server, seal_server_to_client, seal, seal_with. destruct client.
    all: unfold mbind, st_bind, gets, on_c2s, on_s2c. all: rewrite append_to_app; reflexivity.
  - destruct (open_range_safe aead h wire Hu) as [_ Hr]. unfold open, open_owned.
    destruct (open_range aead h wire) as [[w [st e]]|x|] eqn:Ho; [|done..]. cbn [mbind res_bind].
    destruct (Hr _ _ _ eq_refl) as (H1 & H2 & _). rewrite slice_Ok by lia. unfold sub, len in *.
    rewrite decide_True by (rewrite length_take; lia). f_equal. rewrite skipn_firstn_comm. f_equal. lia.
Qed.

Lemma fast_paths_agree_witness :
  open plain_aead (ChaHalf_new []) (replicate 12 0 ++ [0; 7] ++ replicate 16 0) = Ok [7] /\
  open_owned plain_aead (ChaHalf_new []) (replicate 12 0 ++ [0; 7] ++ replicate 16 0) = Ok [7].
Proof.
  assert (u8s (replicate 12 0 ++ [0; 7] ++ replicate 16 0)) as Hu by (repeat constructor; done).
  destruct (fast_paths_agree plain_aead zero_rng true {| parts := []; plen := 0; pad_len := 0 |}
    (SessionCrypto_new zero_blake3 [] [] [] [] 0) (ChaHalf_new []) _ Hu) as (_ & H & _).
  rewrite <- H. split; vm_compute; reflexivity.
Defined.
