(* ===== verification/MuxWire.v ===== *)
(** [tcp_mux.rs], the wire side: the receive window setting, the mux records
    that carry all the streams of a session, the targets of stream opens, and
    the client configuration. *)
From S2P Require Import Prelude Text Net Frame Protocol.

Definition MUX_OPEN_MAGIC : bytes := bs "BIBA" ++ [1] ++ bs "MUXO" ++ [0].
Definition MUX_FLAG_OPEN : Z := 1.
Definition MUX_FLAG_DATA : Z := 2.
Definition MUX_FLAG_CLOSE : Z := 4.
Definition MUX_FLAG_RST : Z := 8.
Definition MUX_FLAG_WIN : Z := 16.
Definition MUX_INITIAL_WINDOW : Z := 1024 * 1024.

(** Receive allowance per stream, in MiB. *)
Record MuxWindow := { mib : Z }.
Definition MuxWindow_default : MuxWindow := {| mib := 1 |}.
Definition MuxWindow_try_from (m : Z) : result MuxWindow :=
  if decide (1 <= m <= 4) then Ok {| mib := m |}
  else bail "mux-window-mib must be between 1 and 4".
Definition MuxWindow_from_str (s : str) : result MuxWindow :=
  m ← context "mux-window-mib must be between 1 and 4"%string (parse_uint U8_MAX s);
  MuxWindow_try_from m.
Definition MuxWindow_bytes (w : MuxWindow) : Z := w.(mib) * MUX_INITIAL_WINDOW.

Definition is_mux_open (data : bytes) : bool := bool_decide (data = MUX_OPEN_MAGIC).
Definition encode_mux_open : bytes := MUX_OPEN_MAGIC.

Definition write_mux_record_to (buf : bytes) (stream_id flags : Z) (payload : bytes) : bytes :=
  buf ++ to_be 4 stream_id ++ [flags] ++ to_be 4 (as_u32 (len payload)) ++ payload.
Definition encode_mux_record (stream_id flags : Z) (payload : bytes) : bytes :=
  write_mux_record_to [] stream_id flags payload.

Definition mux_record_header (data : bytes) : result (Z * Z) :=
  if decide (len data < 9) then bail "short mux record" else
  stream_id ← rd32 data 0;
  flags ← ix data 4;
  plen ← rd32 data 5;
  let total := sat_add USIZE_MAX 9 plen in
  if decide (len data < total) then bail "truncated mux payload" else
  if decide (len data <> total) then bail "mux record length mismatch (trailing bytes)" else
  Ok (stream_id, flags).

Definition decode_mux_record (data : bytes) : result (Z * Z * bytes) :=
  '(sid, flags) ← mux_record_header data;
  payload ← slice_from data 9;
  Ok (sid, flags, payload).
Definition decode_mux_record_bytes (data : bytes) : result (Z * Z * bytes) :=
  '(sid, flags) ← mux_record_header data;
  payload ← slice_from data 9;
  Ok (sid, flags, payload).

Definition decode_mux_open_target (payload : bytes) : result (str * Z) :=
  '(h, p, n) ← decode_atyp_host_port payload;
  if decide (n <> len payload) then bail "trailing junk in mux open target" else
  Ok (h, p).
Definition encode_mux_open_target (host : str) (port : Z) : result bytes :=
  encode_atyp_host_port host port [].

Record MuxClientConfig := {
  mux_window_mib : MuxWindow;
  max_pad : Z;
  cfg_decoy_max : Z;
  max_ws_binary : Z;
  ws_ping_secs : Z;
  ws_ping_jitter_percent : Z;
  ws_binary_send_jitter_ms : Z;
  ws_jitter_min_ms : Z;
  ws_jitter_max_ms : Z;
  transport_v2 : bool;
  pad_mode : PadMode;
  dummy_interval_secs : Z;
}.

(** ** Lemmas *)

Definition wf_record (r : Z * Z * bytes) : Prop :=
  is_u32 r.1.1 /\ is_u8 r.1.2 /\ u8s r.2 /\ is_u32 (len r.2).

Lemma write_mux_record_len sid flags payload :
  len (encode_mux_record sid flags payload) = 9 + len payload.
Proof. unfold encode_mux_record, write_mux_record_to. autorewrite with wire. lia. Qed.

Lemma mux_record_header_encode sid flags payload :
  is_u32 sid -> is_u32 (len payload) ->
  mux_record_header (encode_mux_record sid flags payload) = Ok (sid, flags).
Proof.
  intros Hs Hp. unfold mux_record_header. rewrite write_mux_record_len.
  pose proof (len_nonneg payload). guard_no.
  set (R := encode_mux_record sid flags payload).
  assert (rd32 R 0 = Ok sid :> result Z) as -> by (apply (rd32_mid []); done).
  assert (ix R 4 = Ok flags :> result Z) as -> by done.
  assert (rd32 R 5 = Ok (len payload) :> result Z) as ->.
  { unfold R, encode_mux_record, write_mux_record_to, as_u32. unfold is_u32 in Hp.
    rewrite (Z.mod_small (len payload)) by lia. rewrite app_nil_l, (app_assoc (to_be 4 sid)).
    by apply rd32_mid. }
  cbn [mbind res_bind]. unfold sat_add, USIZE_MAX, U64_MAX, is_u32 in *. by do 2 guard_no.
Qed.

Lemma mux_record_header_len data r : mux_record_header data = Ok r -> 9 <= len data.
Proof. unfold mux_record_header. case_decide; [done|]. lia. Qed.

Lemma decode_record_layout sid flags payload :
  is_u32 sid -> is_u32 (len payload) ->
  decode_mux_record (encode_mux_record sid flags payload) = Ok (sid, flags, payload).
Proof.
  intros Hs Hp. unfold decode_mux_record. rewrite mux_record_header_encode by done. cbn [mbind res_bind].
  assert (slice_from (encode_mux_record sid flags payload) 9 = Ok payload :> result bytes) as ->; [|done].
  unfold encode_mux_record, write_mux_record_to. rewrite app_nil_l, !app_assoc.
  by apply slice_from_end.
Qed.

Lemma record_inv data sid flags :
  u8s data -> mux_record_header data = Ok (sid, flags) ->
  exists payload, data = encode_mux_record sid flags payload /\ wf_record (sid, flags, payload).
Proof.
  intros Hu. unfold mux_record_header. case_decide; [done|].
  rewrite (rd32_sub data 0) by lia. cbn [mbind res_bind]. intros (f & Hf & H1)%bind_Ok.
  rewrite (rd32_sub data 5) in H1 by lia. cbn [mbind res_bind] in H1. do 2 (case_decide; [done|]).
  injection H1 as <- <-. pose proof (len_nonneg data).
  assert (u8s (sub data 5 9)) as Hu5 by by apply u8s_sub.
  pose proof (of_be_bound _ Hu5) as Hb5. rewrite len_sub in Hb5 by lia.
  assert (u8s (sub data 0 4)) as Hu0 by by apply u8s_sub.
  pose proof (of_be_bound _ Hu0) as Hb0. rewrite len_sub in Hb0 by lia.
  change (256 ^ (9 - 5)) with 4294967296 in Hb5. change (256 ^ (4 - 0)) with 4294967296 in Hb0.
  change (5 + 4) with 9 in *. change (0 + 4) with 4 in *.
  unfold sat_add, USIZE_MAX, U64_MAX in *. pose proof (ix_u8 _ _ _ Hu Hf) as Hfu.
  assert (len data = 9 + of_be (sub data 5 9)) as Hl by lia.
  assert (len (sub data 9 (len data)) = of_be (sub data 5 9)) as Hpl by (rewrite len_sub; lia).
  exists (sub data 9 (len data)). split.
  - unfold encode_mux_record, write_mux_record_to, as_u32. rewrite Hpl, Z.mod_small by lia.
    assert (to_be 4 (of_be (sub data 5 9)) = sub data 5 9) as ->.
    { replace 4%nat with (length (sub data 5 9)); [by apply to_be_of_be|].
      pose proof (len_sub data 5 9). unfold len in *. lia. }
    assert (to_be 4 (of_be (sub data 0 4)) = sub data 0 4) as ->.
    { replace 4%nat with (length (sub data 0 4)); [by apply to_be_of_be|].
      pose proof (len_sub data 0 4). unfold len in *. lia. }
    apply ix_Ok in Hf as [_ Hf].
    assert ([f] = sub data 4 5) as ->.
    { unfold sub. change (Z.to_nat (5 - 4)) with 1%nat. by rewrite (drop_S _ _ _ Hf). }
    rewrite app_nil_l, <- !sub_split by lia. by rewrite sub_full.
  - unfold wf_record. cbn [fst snd]. rewrite Hpl. unfold is_u32. fin. by apply u8s_sub.
Qed.

#[export] Instance mux_record_codec :
  CanonicalCodec wf_record (fun r => Ok (encode_mux_record r.1.1 r.1.2 r.2)) decode_mux_record.
Proof.
  split; [split|].
  - intros [[sid flags] payload] b (Hs & Hf & Hu & Hl) <-%Ok_inj. by apply decode_record_layout.
  - intros b Hb. unfold decode_mux_record. apply safe_bind.
    + unfold mux_record_header. no_panic.
    + intros [s f] H. apply mux_record_header_len in H. no_panic.
  - intros b [[sid flags] payload] Hb. unfold decode_mux_record.
    intros ([s f] & Hh & Hd)%bind_Ok. destruct (record_inv b s f Hb Hh) as (p & -> & Hwf).
    apply bind_Ok in Hd as (p' & Hp & [= <- <- <-]).
    assert (p' = p) as ->; [|done]. destruct Hwf as (Hs & _ & _ & Hl).
    pose proof (decode_record_layout s f p Hs Hl) as Hr. unfold decode_mux_record in Hr.
    rewrite mux_record_header_encode in Hr by done. cbn [mbind res_bind] in Hr. rewrite Hp in Hr.
    cbn [mbind res_bind] in Hr. congruence.
Qed.

(** ** Properties *)

(** the byte strings accepted as mux records are exactly the encodings of a stream
    id, flags and payload, the two decoders agree, and none panics. *)
Theorem mux_record_canonical data sid flags payload :
  u8s data ->
  (decode_mux_record data = Ok (sid, flags, payload) <->
     wf_record (sid, flags, payload) /\ data = encode_mux_record sid flags payload) /\
  decode_mux_record_bytes data = decode_mux_record data /\ safe (decode_mux_record data).
Proof.
  intros Hu. split_and!; [|done|exact (codec_safe (dec:=decode_mux_record) data Hu)].
  rewrite (canonical_iff _ _ decode_mux_record data (sid, flags, payload) Hu). cbn [fst snd].
  split; intros [H1 H2]; (split; [done|]); [congruence|by rewrite H2].
Qed.

Lemma mux_record_canonical_witness :
  decode_mux_record [0; 0; 0; 5; 2; 0; 0; 0; 2; 7; 8] = Ok (5, 2, [7; 8]).
Proof.
  refine (proj2 (proj1 (mux_record_canonical [0; 0; 0; 5; 2; 0; 0; 0; 2; 7; 8] 5 2 [7; 8] _)) _).
  - repeat constructor; done.
  - split; [|reflexivity]. split_and!; try done. repeat constructor; done.
Defined.

(** every configured window is 1 to 4 MiB, so a session's 64 MiB hold at least
    16 streams, and the text of an open target comes back canonically. *)
Theorem mux_window_and_target s w h p b :
  is_str h -> is_u16 p ->
  (MuxWindow_from_str s = Ok w ->
     1048576 <= MuxWindow_bytes w <= 4194304 /\ 16 * MuxWindow_bytes w <= 64 * 1024 * 1024) /\
  (encode_mux_open_target h p = Ok b -> decode_mux_open_target b = Ok (canon_host h, p)).
Proof.
  intros Hh Hp. split.
  - unfold MuxWindow_from_str, MuxWindow_try_from, MuxWindow_bytes, MUX_INITIAL_WINDOW.
    destruct (parse_uint U8_MAX s) as [m|]; [|done]. cbn [mbind res_bind context].
    case_decide; [|done]. intros [= <-]. simpl. lia.
  - unfold encode_mux_open_target. intros He. apply encode_atyp_Ok in He as [-> Hl].
    rewrite app_nil_l. pose proof (decode_atyp_field h p [] Hh Hp Hl) as Hd. rewrite app_nil_r in Hd.
    unfold decode_mux_open_target. rewrite Hd. cbn [mbind res_bind]. by guard_no.
Qed.

Lemma mux_window_and_target_witness :
  exists b, encode_mux_open_target (bs "10.0.0.1") 443 = Ok b /\
    decode_mux_open_target b = Ok (bs "10.0.0.1", 443).
Proof.
  eexists. split; [reflexivity|].
  refine (proj2 (mux_window_and_target (bs "4") (MuxWindow_default) (bs "10.0.0.1") 443 _ _ _) _);
    [split; [apply bs_u8s|reflexivity]|done|reflexivity].
Defined.
