(* ===== verification/MuxFlow.v ===== *)
(** [tcp_mux_flow.rs]: byte-credit flow control of one stream ([Flow]) and the
    endpoint that multiplexes the streams of a session ([Endpoint]): admission,
    the reader's dispatch, the bridges between sockets and streams, and the
    writer's filter. A [Flow] is shared ([Arc]), so the endpoint owns a heap of
    flows keyed by epoch; streams, tasks and queued records refer to it. *)
From S2P Require Import Prelude Text Net Frame Protocol Crypto MuxWire.

Definition OPEN_CREDIT : Z := 32.
Definition MAX_STREAMS : Z := 256.
Definition RECEIVE_BUDGET : Z := 64 * 1024 * 1024.
Definition RECEIVE_BACKING_FACTOR : Z := 2.
Definition OUTPUT_BUDGET : Z := 8 * 1024 * 1024.
Definition MAX_QUEUED_RECORDS : Z := 8192.
Definition MAX_PEER_WINDOW : Z := 16 * 1024 * 1024.
Definition CAP_MAGIC : bytes := bs "BFC1".
(** Slots of the two output channels. *)
Definition CHANNEL_SLOTS : Z := 512.

(** The capacity retained for a payload that was sliced out of [backing] bytes. *)
Definition compact_received_payload (payload : bytes) (backing_capacity : Z) : bytes * Z :=
  if decide (payload = []) then ([], 0)
  else if decide (sat_mul USIZE_MAX (len payload) RECEIVE_BACKING_FACTOR < backing_capacity)
  then (payload, len payload)
  else (payload, backing_capacity).

Definition capability (kind local_window : Z) : bytes :=
  CAP_MAGIC ++ [kind] ++ to_be 4 local_window.

Definition parse_capability (payload : bytes) (kind : Z) : option Z :=
  if decide (len payload <> 9 \/ sub payload 0 4 <> CAP_MAGIC \/ payload !! 4%nat <> Some kind)
  then None
  else
    let window := of_be (sub payload 5 9) in
    if decide (0 < window /\ window <= MAX_PEER_WINDOW) then Some window else None.

Inductive Negotiation : Set :=
| Pending
| Legacy
| Credit (window : Z).

(** ** One stream *)

(** [ReceiveState] is the last group of fields. *)
Record Flow := {
  epoch : Z;
  negotiated : bool;
  send_limit : Z;
  receive_limit : Z;
  send_available : Z;
  cancelled : bool;
  output_valid : bool;
  queue : list bytes;
  recv_bytes : Z;
  credit : Z;
  fin : bool;
}.

Definition set_receive (f : Flow) (q : list bytes) (b c : Z) (fi : bool) : Flow :=
  {| epoch := f.(epoch); negotiated := f.(negotiated); send_limit := f.(send_limit);
     receive_limit := f.(receive_limit); send_available := f.(send_available);
     cancelled := f.(cancelled); output_valid := f.(output_valid);
     queue := q; recv_bytes := b; credit := c; fin := fi |}.
Definition set_available (f : Flow) (a : Z) : Flow :=
  {| epoch := f.(epoch); negotiated := f.(negotiated); send_limit := f.(send_limit);
     receive_limit := f.(receive_limit); send_available := a;
     cancelled := f.(cancelled); output_valid := f.(output_valid);
     queue := f.(queue); recv_bytes := f.(recv_bytes); credit := f.(credit); fin := f.(fin) |}.

Definition Flow_new (ep : Z) (peer_window : option Z) (local_window : Z) : Flow :=
  let limit := default 0 peer_window in
  {| epoch := ep; negotiated := bool_decide (is_Some peer_window); send_limit := limit;
     receive_limit := local_window; send_available := limit; cancelled := false;
     output_valid := true; queue := []; recv_bytes := 0; credit := local_window; fin := false |}.

Definition cancel (preserve_output : bool) (f : Flow) : Flow :=
  {| epoch := f.(epoch); negotiated := f.(negotiated); send_limit := f.(send_limit);
     receive_limit := f.(receive_limit); send_available := f.(send_available);
     cancelled := true; output_valid := f.(output_valid) && preserve_output;
     queue := []; recv_bytes := f.(recv_bytes); credit := f.(credit); fin := f.(fin) |}.

Definition enqueue (f : Flow) (payload : bytes) (fi : bool) : result Flow :=
  if f.(fin) || f.(cancelled) then bail "DATA after stream FIN/reset"
  else if decide (payload = []) then Ok (set_receive f f.(queue) f.(recv_bytes) f.(credit) fi)
  else if decide (f.(credit) < len payload
                  \/ f.(receive_limit) < sat_add USIZE_MAX f.(recv_bytes) (len payload)
                  \/ MAX_QUEUED_RECORDS <= len f.(queue))
  then bail "mux receive window exceeded"
  else Ok (set_receive f (f.(queue) ++ [payload]) (f.(recv_bytes) + len payload)
             (f.(credit) - len payload) fi).

(** One turn of [receive]: data, the end of the stream, or a wait. *)
Inductive Received : Set := Data (d : bytes) | Finished | Waiting.
Definition receive (f : Flow) : Flow * Received :=
  match f.(queue) with
  | d :: q => (set_receive f q f.(recv_bytes) f.(credit) f.(fin), Data d)
  | [] => (f, if f.(fin) then Finished else Waiting)
  end.

(** Checked arithmetic panics on underflow of the byte count. *)
Definition consumed (f : Flow) (n : Z) : result Flow :=
  if decide (f.(recv_bytes) < n) then Panic
  else
    let credit := if f.(negotiated) then f.(credit) else f.(credit) + n in
    if decide (U32_MAX < credit) then Panic
    else Ok (set_receive f f.(queue) (f.(recv_bytes) - n) credit f.(fin)).

(** The credit part of [publish_credit]; the publication follows it. *)
Definition grant_credit (f : Flow) (amount : Z) : result Flow :=
  let credit := f.(credit) + amount in
  if decide (credit <= U32_MAX /\ credit <= f.(receive_limit))
  then Ok (set_receive f f.(queue) f.(recv_bytes) credit f.(fin))
  else bail "mux receive credit overflow".

Definition add_credit (f : Flow) (payload : bytes) : result Flow :=
  if negb f.(negotiated) then Ok f
  else if decide (len payload <> 4) then bail "malformed mux credit"
  else
    let amount := of_be payload in
    if decide (f.(send_limit) < f.(send_available)) then Panic
    else if decide (amount = 0 \/ f.(send_limit) - f.(send_available) < amount)
    then bail "invalid mux credit increment"
    else Ok (set_available f (f.(send_available) + amount)).

(** One turn of [take_credit]: the bytes granted, or a wait. *)
Definition take_credit (f : Flow) (requested : Z) : option (Flow * Z) :=
  if negb f.(negotiated) then Some (f, requested)
  else if decide (0 < f.(send_available)) then
    let amount := Z.min requested f.(send_available) in
    Some (set_available f (f.(send_available) - amount), amount)
  else None.

(** ** The endpoint *)

(** An allocated flow, the [Arc<Flow>] pointer. *)
Abbreviation ref := Z (only parsing).

Record MRecord := {
  r_sid : Z; r_flags : Z; r_payload : bytes;
  r_flow : option ref;
  r_bytes : option Z;     (* output permits held by the record *)
}.
Inductive Output : Type := ORecord (r : MRecord) | OPong (payload : bytes).

(** The sending half of [bridge]: reading the socket, waiting for credit with
    [buffer[offset..n]], waiting for the writer with one chunk, closing. *)
Inductive UpState : Type :=
| UpRead
| UpTake (rest : bytes)
| UpSend (chunk rest : bytes)
| UpFin
| UpDone.
(** The receiving half: waiting for data, writing it, having consumed it,
    returning the pending credit, announcing it, shutting the socket down. *)
Inductive DownState : Type :=
| DnWait
| DnWrite (d : bytes)
| DnSettle
| DnPublish
| DnAnnounce
| DnShut
| DnDone.
Inductive TaskState : Type :=
| Opening (flags : Z) (payload prefix : bytes)
| Connecting (host : str) (port : Z)
| Bridge (prefix : bytes) (up : UpState) (down : DownState) (pending : Z).
Record Task := { t_sid : Z; t_state : TaskState }.

Record Endpoint := {
  client : bool;
  cfg : MuxClientConfig;
  streams : gmap Z ref;
  flows : gmap ref Flow;
  tasks : gmap ref Task;
  next_ref : Z;
  receive_avail : Z;
  output_avail : Z;
  output : list Output;
  control_q : list Output;
  next_sid : Z;
  next_epoch : Z;
  closed : bool;
  writer_gone : bool;
  negotiation : Negotiation;
}.

Definition window_of (e : Endpoint) : Z := MuxWindow_bytes e.(cfg).(mux_window_mib).

(** Updates of one group of fields. *)
Definition set_tables (e : Endpoint) st fl ta : Endpoint :=
  {| client := e.(client); cfg := e.(cfg); streams := st; flows := fl; tasks := ta;
     next_ref := e.(next_ref); receive_avail := e.(receive_avail); output_avail := e.(output_avail);
     output := e.(output); control_q := e.(control_q); next_sid := e.(next_sid);
     next_epoch := e.(next_epoch); closed := e.(closed); writer_gone := e.(writer_gone);
     negotiation := e.(negotiation) |}.
Definition set_streams e st := set_tables e st e.(flows) e.(tasks).
Definition set_flows e fl := set_tables e e.(streams) fl e.(tasks).
Definition set_tasks e ta := set_tables e e.(streams) e.(flows) ta.
Definition set_counters (e : Endpoint) nr ra ns ne : Endpoint :=
  {| client := e.(client); cfg := e.(cfg); streams := e.(streams); flows := e.(flows); tasks := e.(tasks);
     next_ref := nr; receive_avail := ra; output_avail := e.(output_avail);
     output := e.(output); control_q := e.(control_q); next_sid := ns;
     next_epoch := ne; closed := e.(closed); writer_gone := e.(writer_gone);
     negotiation := e.(negotiation) |}.
Definition set_queues (e : Endpoint) oa ou co : Endpoint :=
  {| client := e.(client); cfg := e.(cfg); streams := e.(streams); flows := e.(flows); tasks := e.(tasks);
     next_ref := e.(next_ref); receive_avail := e.(receive_avail); output_avail := oa;
     output := ou; control_q := co; next_sid := e.(next_sid);
     next_epoch := e.(next_epoch); closed := e.(closed); writer_gone := e.(writer_gone);
     negotiation := e.(negotiation) |}.
Definition set_status (e : Endpoint) cl wg ng : Endpoint :=
  {| client := e.(client); cfg := e.(cfg); streams := e.(streams); flows := e.(flows); tasks := e.(tasks);
     next_ref := e.(next_ref); receive_avail := e.(receive_avail); output_avail := e.(output_avail);
     output := e.(output); control_q := e.(control_q); next_sid := e.(next_sid);
     next_epoch := e.(next_epoch); closed := cl; writer_gone := wg; negotiation := ng |}.

Definition Endpoint_new (cl : bool) (c : MuxClientConfig) : Endpoint :=
  {| client := cl; cfg := c; streams := ∅; flows := ∅; tasks := ∅; next_ref := 1;
     receive_avail := RECEIVE_BUDGET; output_avail := OUTPUT_BUDGET; output := []; control_q := [];
     next_sid := 1; next_epoch := 1; closed := false; writer_gone := false; negotiation := Pending |}.

Definition settle_negotiation_if_pending (n : Negotiation) (e : Endpoint) : Endpoint :=
  match e.(negotiation) with
  | Pending => set_status e e.(closed) e.(writer_gone) n
  | _ => e
  end.

(** [div_ceil]. *)
Definition div_ceil (a b : Z) : Z := (a + b - 1) / b.

Definition load (e : Endpoint) : option (bool * Z * Z) :=
  if e.(closed) || e.(writer_gone) then None
  else
    let window := window_of e in
    let available := e.(receive_avail) in
    let reserved := div_ceil (RECEIVE_BUDGET - available) window in
    let full := bool_decide (available < window) || bool_decide (MAX_STREAMS <= Z.of_nat (size e.(streams))) in
    let backlog := OUTPUT_BUDGET - e.(output_avail) + len e.(output) + len e.(control_q) in
    Some (full, reserved, backlog).

Definition MuxWriterStopped : err := "tcp mux writer stopped".
Definition MuxSessionFull : err := "mux session admission capacity exhausted".

Definition allocate (sid : Z) (peer_window : option Z) : ST Endpoint err ref := fun e =>
  if e.(closed) then (e, Err MuxWriterStopped)
  else if decide (sid = 0 \/ is_Some (e.(streams) !! sid)) then (e, bail "mux stream unavailable")
  else if decide (MAX_STREAMS <= Z.of_nat (size e.(streams))) then (e, Err MuxSessionFull)
  else if decide (e.(receive_avail) < window_of e) then (e, Err MuxSessionFull)
  else
    let r := e.(next_ref) in
    let flow := Flow_new e.(next_epoch) peer_window (window_of e) in
    let e := set_counters e (r + 1) (e.(receive_avail) - window_of e) e.(next_sid)
               ((e.(next_epoch) + 1) mod 2 ^ 64) in
    (set_tables e (<[sid := r]> e.(streams)) (<[r := flow]> e.(flows)) e.(tasks), Ok r).

Definition get_flow (sid : Z) (e : Endpoint) : option (ref * Flow) :=
  r ← e.(streams) !! sid; f ← e.(flows) !! r; Some (r, f).

Definition upd_flow (r : ref) (f : Flow) (e : Endpoint) : Endpoint :=
  set_flows e (<[r := f]> e.(flows)).

Definition finish (sid ep : Z) (preserve_output : bool) (e : Endpoint) : Endpoint * bool :=
  match get_flow sid e with
  | Some (r, f) =>
    if decide (f.(epoch) = ep)
    then (upd_flow r (cancel preserve_output f) (set_streams e (delete sid e.(streams))), true)
    else (e, false)
  | None => (e, false)
  end.
Definition remove (sid ep : Z) (e : Endpoint) : Endpoint * bool := finish sid ep false e.

(** The streams are drained, and every drained flow is cancelled. *)
Definition in_streams (e : Endpoint) (r : ref) : Prop :=
  map_Exists (fun _ r' => r' = r) e.(streams).
#[export] Instance in_streams_dec e r : Decision (in_streams e r).
Proof. unfold in_streams. apply _. Defined.

Definition shutdown (e : Endpoint) : Endpoint :=
  let e' := set_status e true e.(writer_gone) e.(negotiation) in
  let fl := map_imap (fun r f => Some (if decide (in_streams e r) then cancel false f else f)) e.(flows) in
  settle_negotiation_if_pending Legacy (set_tables e' ∅ fl e.(tasks)).

(** [control]: never waits. *)
Definition push_control (o : Output) (msg : err) : ST Endpoint err unit := fun e =>
  if decide (e.(writer_gone) = true \/ CHANNEL_SLOTS <= len e.(control_q))
  then (e, Err msg)
  else (set_queues e e.(output_avail) e.(output) (e.(control_q) ++ [o]), Ok tt).
Definition control (sid flags : Z) (payload : bytes) (flow : option ref) : ST Endpoint err unit :=
  push_control
    (ORecord {| r_sid := sid; r_flags := flags; r_payload := payload; r_flow := flow; r_bytes := None |})
    "mux control queue exhausted or closed".

(** [send]: [None] while it waits for output bytes or for a queue slot. *)
Definition send (sid flags : Z) (payload : bytes) (flow : ref) (e : Endpoint)
    : option (Endpoint * result unit) :=
  let need := as_u32 (len payload + 9) in
  if e.(closed) || e.(writer_gone) then Some (e, Err MuxWriterStopped)
  else if decide (e.(output_avail) < need \/ CHANNEL_SLOTS <= len e.(output)) then None
  else
    let rec := {| r_sid := sid; r_flags := flags; r_payload := payload; r_flow := Some flow;
                  r_bytes := Some need |} in
    Some (set_queues e (e.(output_avail) - need) (e.(output) ++ [ORecord rec]) e.(control_q), Ok tt).

(** ** Dispatch of a received record *)

Definition has_flag (flags f : Z) : bool := bool_decide (Z.land flags f <> 0).

Definition set_negotiation (n : Negotiation) (e : Endpoint) : Endpoint :=
  set_status e e.(closed) e.(writer_gone) n.

(** Session level: the credit capability, WIN on stream 0. *)
Definition dispatch_capability (payload : bytes) : ST Endpoint err unit :=
  cl ← gets client;
  if cl : bool then
    match parse_capability payload 2 with
    | Some window => modify (settle_negotiation_if_pending (Credit window))
    | None => mret tt
    end
  else
    match parse_capability payload 1 with
    | Some window =>
      _ ← modify (set_negotiation (Credit window));
      w ← gets window_of;
      control 0 MUX_FLAG_WIN (capability 2 w) None
    | None => mret tt
    end.

Definition add_task (r : ref) (t : Task) (e : Endpoint) : Endpoint :=
  set_tasks e (<[r := t]> e.(tasks)).

(** The server's handling of OPEN; a refused open is answered with RST. *)
Definition dispatch_open (sid flags : Z) (payload : bytes) : ST Endpoint err unit := fun e =>
  let refuse := control sid MUX_FLAG_RST [] (fst <$> get_flow sid e) in
  let proceed (window : option Z) : Endpoint * result unit :=
    match decode_mux_open_target payload with
    | Panic => (e, Panic)
    | Err _ => refuse e
    | Ok (host, port) =>
      match allocate sid window e with
      | (e', Ok r) => (add_task r {| t_sid := sid; t_state := Connecting host port |} e', Ok tt)
      | (e', Panic) => (e', Panic)
      | (e', Err _) => refuse e'
      end
    end in
  if has_flag flags OPEN_CREDIT then
    match e.(negotiation) with
    | Credit window => proceed (Some window)
    | _ => refuse e
    end
  else proceed None.

(** What a record does to the flow it addresses. *)
Definition flow_record (f : Flow) (flags : Z) (payload : bytes) : result Flow :=
  if f.(negotiated) && has_flag flags MUX_FLAG_WIN && bool_decide (flags <> MUX_FLAG_WIN)
  then bail "mixed mux WIN flags"
  else if decide (flags = MUX_FLAG_WIN) then add_credit f payload
  else if has_flag flags MUX_FLAG_DATA || has_flag flags MUX_FLAG_CLOSE then
    let data := if has_flag flags MUX_FLAG_DATA then payload else [] in
    enqueue f data (has_flag flags MUX_FLAG_CLOSE)
  else Ok f.

Definition dispatch_stream (sid flags : Z) (payload : bytes) : ST Endpoint err unit := fun e =>
  match get_flow sid e with
  | None =>
    if has_flag flags MUX_FLAG_DATA && bool_decide (payload <> []) && negb e.(client)
    then control sid MUX_FLAG_RST [] None e
    else (e, Ok tt)
  | Some (r, f) =>
    if has_flag flags MUX_FLAG_RST then ((remove sid f.(epoch) e).1, Ok tt)
    else
      match flow_record f flags payload with
      | Ok f' => (upd_flow r f' e, Ok tt)
      | Panic => (e, Panic)
      | Err _ =>
        let '(e, removed) := remove sid f.(epoch) e in
        if removed then control sid MUX_FLAG_RST [] (Some r) e else (e, Ok tt)
      end
  end.

Definition dispatch (sid flags : Z) (payload : bytes) : ST Endpoint err unit := fun e =>
  if decide (flags = MUX_FLAG_WIN /\ sid = 0) then dispatch_capability payload e
  else if has_flag flags MUX_FLAG_OPEN && negb e.(client) then dispatch_open sid flags payload e
  else dispatch_stream sid flags payload e.

(** ** Opening a stream (client) *)

(** The [prepare] closure of [open_stream], with the stream id taken before it. *)
Definition prepare_stream (host : str) (port : Z) (prefix : bytes) (window : option Z)
    : ST Endpoint err ref := fun e =>
  let sid := e.(next_sid) in
  let e := set_counters e e.(next_ref) e.(receive_avail) (as_u32 (sid + 1)) e.(next_epoch) in
  if decide (window_of e < len prefix) then (e, bail "mux uplink prefix too large")
  else
    match encode_mux_open_target host port with
    | Err m => (e, Err m)
    | Panic => (e, Panic)
    | Ok payload =>
      match allocate sid window e with
      | (e, Ok r) =>
        let flags := Z.lor MUX_FLAG_OPEN (if window then OPEN_CREDIT else 0) in
        (add_task r {| t_sid := sid; t_state := Opening flags payload prefix |} e, Ok r)
      | (e, x) => (e, x)
      end
    end.

(** [open_stream] up to the sending of OPEN: [None] while the negotiation is pending. *)
Definition open_stream (host : str) (port : Z) (prefix : bytes) (e : Endpoint)
    : option (Endpoint * result ref) :=
  match e.(negotiation) with
  | Pending => None
  | Legacy => Some (prepare_stream host port prefix None e)
  | Credit w => Some (prepare_stream host port prefix (Some w) e)
  end.

(** ** The bridge *)

Definition max_chunk (c : MuxClientConfig) : Z :=
  clamp 1 (64 * 1024)
    (sat_sub (max_tcp_payload_per_ws_message c.(transport_v2) c.(cfg_decoy_max) c.(max_pad) c.(max_ws_binary)) 9).

Definition set_task (r : ref) (sid : Z) (s : TaskState) (e : Endpoint) : Endpoint :=
  add_task r {| t_sid := sid; t_state := s |} e.
Definition drop_task (r : ref) (e : Endpoint) : Endpoint := set_tasks e (delete r e.(tasks)).

(** The end of [bridge]: the stream is finished, and a failure is announced. *)
Definition bridge_end (r : ref) (sid ep : Z) (ok : bool) (e : Endpoint) : Endpoint :=
  let '(e, finished) := finish sid ep ok e in
  let e :=
    if finished && negb ok then
      match control sid MUX_FLAG_RST [] (Some r) e with
      | (e, Ok _) => e
      | (e, _) => shutdown e
      end
    else e in
  drop_task r e.

(** Both halves of a negotiated stream must end; either half ends a legacy stream. *)
Definition bridge_settle (r : ref) (sid : Z) (f : Flow) (prefix : bytes) (up : UpState) (dn : DownState)
    (pending : Z) (e : Endpoint) : Endpoint :=
  let up_done := match up with UpDone => true | _ => false end in
  let dn_done := match dn with DnDone => true | _ => false end in
  let e := set_task r sid (Bridge prefix up dn pending) e in
  if (if f.(negotiated) then up_done && dn_done else up_done || dn_done)
  then bridge_end r sid f.(epoch) true e
  else e.

(** What the environment does to a bridge: socket reads ([None] is an error,
    [Some []] the end of file), socket writes, and the scheduler. *)
Inductive BridgeEvent : Type :=
| UpEvent (chunk : option bytes)
| DownEvent (written : bool)
| CancelEvent.

Definition bridge_up (r : ref) (sid : Z) (f : Flow) (prefix : bytes) (up : UpState) (dn : DownState)
    (pending : Z) (chunk : option bytes) (e : Endpoint) : option (Endpoint * result unit) :=
  let go e prefix up := Some (bridge_settle r sid f prefix up dn pending e, Ok tt) in
  let m := Z.to_nat (max_chunk e.(cfg)) in
  match up with
  | UpRead =>
    if decide (prefix <> []) then go e (drop m prefix) (UpTake (take m prefix))
    else
      match chunk with
      | None => Some (bridge_end r sid f.(epoch) false e, Ok tt)
      | Some [] => go e prefix UpFin
      | Some c => go e prefix (UpTake (take m c))
      end
  | UpTake [] => go e prefix UpRead
  | UpTake rest =>
    match take_credit f (len rest) with
    | None => None
    | Some (f', n) =>
      go (upd_flow r f' e) prefix (UpSend (take (Z.to_nat n) rest) (drop (Z.to_nat n) rest))
    end
  | UpSend c rest =>
    match send sid MUX_FLAG_DATA c r e with
    | None => None
    | Some (e, Ok _) => go e prefix (UpTake rest)
    | Some (e, _) => Some (bridge_end r sid f.(epoch) false e, Ok tt)
    end
  | UpFin =>
    match send sid MUX_FLAG_CLOSE [] r e with
    | None => None
    | Some (e, Ok _) => go e prefix UpDone
    | Some (e, _) => Some (bridge_end r sid f.(epoch) false e, Ok tt)
    end
  | UpDone => None
  end.

Definition bridge_down (r : ref) (sid : Z) (f : Flow) (prefix : bytes) (up : UpState) (dn : DownState)
    (pending : Z) (written : bool) (e : Endpoint) : option (Endpoint * result unit) :=
  let go e dn pending := Some (bridge_settle r sid f prefix up dn pending e, Ok tt) in
  let fail e := Some (bridge_end r sid f.(epoch) false e, Ok tt) in
  match dn with
  | DnWait =>
    match receive f with
    | (f', Data d) => go (upd_flow r f' e) (DnWrite d) pending
    | (_, Finished) => go e DnShut pending
    | (_, Waiting) => None
    end
  | DnWrite d =>
    if written then
      match consumed f (len d) with
      | Ok f' =>
        if f.(negotiated) then go (upd_flow r f' e) DnSettle (pending + len d)
        else go (upd_flow r f' e) DnWait pending
      | Err m => Some (e, Err m)
      | Panic => Some (e, Panic)
      end
    else fail e
  | DnSettle =>
    if decide (f.(receive_limit) / 8 <= pending \/ f.(queue) = []) then go e DnPublish pending
    else go e DnWait pending
  | DnPublish =>
    match grant_credit f pending with
    | Ok f' => go (upd_flow r f' e) DnAnnounce pending
    | Err _ => fail e
    | Panic => Some (e, Panic)
    end
  | DnAnnounce =>
    match control sid MUX_FLAG_WIN (to_be 4 pending) (Some r) e with
    | (e, Ok _) => go e DnWait 0
    | (e, _) => fail (upd_flow r (cancel false f) e)
    end
  | DnShut => if written then go e DnDone pending else fail e
  | DnDone => None
  end.

(** One step of the bridge task of [r]. *)
Definition bridge (r : ref) (ev : BridgeEvent) (e : Endpoint) : option (Endpoint * result unit) :=
  t ← e.(tasks) !! r;
  f ← e.(flows) !! r;
  match t.(t_state) with
  | Bridge prefix up dn pending =>
    match ev with
    | UpEvent chunk => bridge_up r t.(t_sid) f prefix up dn pending chunk e
    | DownEvent written => bridge_down r t.(t_sid) f prefix up dn pending written e
    | CancelEvent => if f.(cancelled) then Some (bridge_end r t.(t_sid) f.(epoch) true e, Ok tt) else None
    end
  | _ => None
  end.

(** ** Tasks that open a stream *)

(** The OPEN of [open_stream]: sent, refused, or abandoned with its future
    ([OpenAdmissionGuard] then removes the stream). *)
Definition opening (r : ref) (abandoned : bool) (e : Endpoint) : option (Endpoint * result unit) :=
  t ← e.(tasks) !! r;
  f ← e.(flows) !! r;
  match t.(t_state) with
  | Opening flags payload prefix =>
    let drop e := drop_task r (remove t.(t_sid) f.(epoch) e).1 in
    if abandoned : bool then Some (drop e, Ok tt)
    else
      match send t.(t_sid) flags payload r e with
      | None => None
      | Some (e, Ok _) => Some (set_task r t.(t_sid) (Bridge prefix UpRead DnWait 0) e, Ok tt)
      | Some (e, Err m) => Some (drop e, Err m)
      | Some (e, Panic) => Some (e, Panic)
      end
  | _ => None
  end.

Inductive ConnectEvent : Set := Connected | ConnectFailed | ConnectCancelled.

(** The server's connection task. *)
Definition connecting (r : ref) (ev : ConnectEvent) (e : Endpoint) : option (Endpoint * result unit) :=
  t ← e.(tasks) !! r;
  f ← e.(flows) !! r;
  match t.(t_state) with
  | Connecting _ _ =>
    match ev with
    | Connected => Some (set_task r t.(t_sid) (Bridge [] UpRead DnWait 0) e, Ok tt)
    | ConnectFailed =>
      let '(e, removed) := remove t.(t_sid) f.(epoch) e in
      let e :=
        if removed : bool then
          match control t.(t_sid) MUX_FLAG_RST [] (Some r) e with
          | (e, Ok _) => e
          | (e, _) => shutdown e
          end
        else e in
      Some (drop_task r e, Ok tt)
    | ConnectCancelled => if f.(cancelled) then Some (drop_task r e, Ok tt) else None
    end
  | _ => None
  end.

(** ** The writer *)

(** Whether a queued record is still to be written: a reset is scoped to the
    epoch it was queued for, other records to a stream that was not reset. *)
Definition writer_filter (e : Endpoint) (rec : MRecord) : bool :=
  let current := snd <$> get_flow rec.(r_sid) e in
  let flow := rec.(r_flow) ≫= fun r => e.(flows) !! r in
  if decide (rec.(r_flags) = MUX_FLAG_RST) then
    match current, flow with
    | Some current, Some old => bool_decide (old.(epoch) = current.(epoch))
    | Some _, None => false
    | None, _ => true
    end
  else
    match flow with
    | Some flow =>
      flow.(output_valid) &&
      match current with
      | Some current => bool_decide (current.(epoch) = flow.(epoch))
      | None => true
      end
    | None => true
    end.

Definition release_output (o : Output) : Z :=
  match o with ORecord rec => default 0 rec.(r_bytes) | OPong _ => 0 end.

(** The next command of a channel, [Some] if it is written and [None] if it is
    skipped; its permits are returned. *)
Definition writer_pop (from_control : bool) (e : Endpoint) : option (Endpoint * option Output) :=
  let keep o := match o with ORecord rec => if writer_filter e rec then Some o else None | OPong _ => Some o end in
  if from_control then
    match e.(control_q) with
    | [] => None
    | o :: q => Some (set_queues e (e.(output_avail) + release_output o) e.(output) q, keep o)
    end
  else
    match e.(output) with
    | [] => None
    | o :: q => Some (set_queues e (e.(output_avail) + release_output o) q e.(control_q), keep o)
    end.

(** The writer's own state, and what it puts on the WebSocket. *)
Record Writer := { w_crypto : option SessionCrypto; w_adaptive : AdaptivePadState }.
Inductive Message : Type := MBinary (b : bytes) | MPong (b : bytes).

Section Run.
Context (aead : Aead).

Definition serialize (rng rng' : Rng) (cl : bool) (c : MuxClientConfig) (ps : list bytes) : ST Writer err bytes :=
  fun w =>
  match PreparedFrame_new rng ps c.(max_pad) c.(pad_mode) (Some w.(w_adaptive)) with
  | Err _ => (w, bail "frame")
  | Panic => (w, Panic)
  | Ok (frame, ad) =>
    let ad := default w.(w_adaptive) ad in
    match w.(w_crypto) with
    | Some crypto =>
      let '(crypto, r) := seal_frame aead rng' cl frame crypto in
      ({| w_crypto := Some crypto; w_adaptive := ad |}, r)
    | None => ({| w_crypto := None; w_adaptive := ad |}, Ok (append_to rng' frame []))
    end
  end.

(** One command through the writer. *)
Definition write_command (rng rng' : Rng) (cl : bool) (c : MuxClientConfig) (o : Output)
    : ST Writer err Message :=
  match o with
  | OPong payload => mret (MPong payload)
  | ORecord rec =>
    let header := to_be 4 rec.(r_sid) ++ [rec.(r_flags)] ++ to_be 4 (as_u32 (len rec.(r_payload))) in
    blob ← serialize rng rng' cl c [header; rec.(r_payload)];
    if decide (c.(max_ws_binary) < len blob) then throw "mux ws binary cap"%string
    else mret (MBinary blob)
  end.

(** An idle frame; one that would be too long is not sent. *)
Definition write_dummy (rng rng' : Rng) (cl : bool) (c : MuxClientConfig) : ST Writer err (option Message) :=
  blob ← serialize rng rng' cl c [];
  mret (if decide (len blob <= c.(max_ws_binary)) then Some (MBinary blob) else None).

(** ** The reader *)

Definition receive_binary (crypto : option SessionCrypto) (blob : bytes) : ST Endpoint err unit :=
  e ← gets id;
  if decide (sat_mul USIZE_MAX e.(cfg).(max_ws_binary) 4 < len blob) then throw "oversized mux binary"%string
  else
    raw ← lift (match crypto with
                | Some crypto => if e.(client) then open_server_to_client_owned aead crypto blob
                                 else open_client_to_server_owned aead crypto blob
                | None => Ok blob
                end);
    inner ← lift (map_err (fun _ => "frame"%string) (read_padded_frame_bytes raw));
    if decide (inner = []) then mret tt
    else
      '(sid, flags, payload) ← lift (decode_mux_record_bytes inner);
      let '(payload, _) := compact_received_payload payload (len blob) in
      dispatch sid flags payload.

Definition receive_ping (payload : bytes) : ST Endpoint err unit :=
  push_control (OPong payload) "mux pong queue exhausted".
End Run.

(** [run] before its loops, and after them. *)
Definition run_start : ST Endpoint err unit :=
  cl ← gets client;
  w ← gets window_of;
  if cl : bool then control 0 MUX_FLAG_WIN (capability 1 w) None else mret tt.

Definition run_end (e : Endpoint) : Endpoint :=
  let e := shutdown e in
  let e := set_status e e.(closed) true e.(negotiation) in
  set_queues e OUTPUT_BUDGET [] [].

(** ** Dropping flows *)

Definition record_ref (o : Output) : option ref :=
  match o with ORecord rec => rec.(r_flow) | OPong _ => None end.

(** Whether some [Arc] to the flow is alive. *)
Definition referenced (e : Endpoint) (r : ref) : Prop :=
  in_streams e r \/ is_Some (e.(tasks) !! r) \/
  Some r ∈ (record_ref <$> e.(output)) \/ Some r ∈ (record_ref <$> e.(control_q)).
#[export] Instance referenced_dec e r : Decision (referenced e r).
Proof. unfold referenced. apply _. Defined.

(** The receive permits held by flows. *)
Definition reserved (fl : gmap ref Flow) : Z :=
  map_fold (fun _ limit acc => limit + acc) 0 (receive_limit <$> fl).

(** Flows without an [Arc] are dropped and return their permits. *)
Definition reclaim (e : Endpoint) : Endpoint :=
  let live := filter (fun p => referenced e p.1) e.(flows) in
  let dead := filter (fun p => ~ referenced e p.1) e.(flows) in
  set_counters (set_flows e live) e.(next_ref) (e.(receive_avail) + reserved dead) e.(next_sid) e.(next_epoch).

(** ** Runs *)

Inductive Event : Type :=
| EvOpen (host : str) (port : Z) (prefix : bytes)
| EvOpening (r : ref) (abandoned : bool)
| EvConnect (r : ref) (ev : ConnectEvent)
| EvBridge (r : ref) (ev : BridgeEvent)
| EvDispatch (sid flags : Z) (payload : bytes)
| EvPing (payload : bytes)
| EvWrite (from_control : bool)
| EvNegotiationTimeout
| EvRunStart
| EvRunEnd.

(** One atomic step of one of the tasks; [None] when it is not ready. *)
Definition ep_step (ev : Event) (e : Endpoint) : option (Endpoint * result unit) :=
  match ev with
  | EvOpen host port prefix =>
    if negb e.(client) then None
    else '(e, r) ← open_stream host port prefix e; Some (e, _ ← r; Ok tt)
  | EvOpening r abandoned => opening r abandoned e
  | EvConnect r ev => connecting r ev e
  | EvBridge r ev => bridge r ev e
  | EvDispatch sid flags payload => Some (dispatch sid flags payload e)
  | EvPing payload => Some (receive_ping payload e)
  | EvWrite from_control => '(e, _) ← writer_pop from_control e; Some (e, Ok tt)
  | EvNegotiationTimeout => Some (settle_negotiation_if_pending Legacy e, Ok tt)
  | EvRunStart => Some (run_start e)
  | EvRunEnd => Some (run_end e, Ok tt)
  end.

(** Received payloads are bytes. *)
Definition ev_ok (ev : Event) : Prop :=
  match ev with EvDispatch _ _ payload => u8s payload | _ => True end.

Definition step_to (e e' : Endpoint) : Prop :=
  exists ev e1 r, ev_ok ev /\ ep_step ev e = Some (e1, r) /\ e' = reclaim e1.

Definition reachable (cl : bool) (c : MuxClientConfig) (e : Endpoint) : Prop :=
  rtc step_to (Endpoint_new cl c) e.

(** A run of given events. *)
Fixpoint run_events (evs : list Event) (e : Endpoint) : option Endpoint :=
  match evs with
  | [] => Some e
  | ev :: evs => '(e1, _) ← ep_step ev e; run_events evs (reclaim e1)
  end.

Lemma run_events_steps evs e e' : Forall ev_ok evs -> run_events evs e = Some e' -> rtc step_to e e'.
Proof.
  intros Hok. revert e. induction Hok as [|ev evs Hev _ IH]; intros e; simpl; [by intros [= <-]|].
  destruct (ep_step ev e) as [[e1 x]|] eqn:Hs; [|done]. simpl. intros H.
  eapply rtc_l; [|by apply IH]. by exists ev, e1, x.
Qed.

(** ** Invariant *)

Definition down_writing (t : option Task) : Z :=
  match t with
  | Some {| t_state := Bridge _ _ (DnWrite d) _ |} => len d
  | _ => 0
  end.
(** Consumed bytes whose credit was not returned yet. *)
Definition down_pending (t : option Task) : Z :=
  match t with
  | Some {| t_state := Bridge _ _ DnAnnounce _ |} => 0
  | Some {| t_state := Bridge _ _ _ p |} => p
  | _ => 0
  end.

Record flow_ok (f : Flow) (t : option Task) : Prop := {
  fo_send : 0 <= f.(send_available) <= f.(send_limit);
  fo_limit : 0 < f.(receive_limit) <= 4194304;
  fo_nonneg : 0 <= f.(credit) /\ 0 <= f.(recv_bytes) /\ 0 <= down_pending t;
  fo_queue : len (concat f.(queue)) + down_writing t <= f.(recv_bytes);
  fo_records : len f.(queue) <= MAX_QUEUED_RECORDS;
  fo_credit : f.(credit) + f.(recv_bytes) + down_pending t <= f.(receive_limit);
}.

(** How a flow may change: its identity and limits stay, a cancellation and an
    invalidation of its output are final. *)
Record keeps (f f' : Flow) : Prop := {
  keeps_epoch : f'.(epoch) = f.(epoch);
  keeps_limit : f'.(receive_limit) = f.(receive_limit);
  keeps_negotiated : f'.(negotiated) = f.(negotiated);
  keeps_send_limit : f'.(send_limit) = f.(send_limit);
  keeps_cancelled : f.(cancelled) = true -> f'.(cancelled) = true;
  keeps_invalid : f.(output_valid) = false -> f'.(output_valid) = false;
}.

(** The invariant of the endpoint [e], with what has become of the flows that
    an earlier state [e0] had. *)
Record ep_inv (e0 e : Endpoint) : Prop := {
  inv_cfg : 1 <= mib (mux_window_mib e.(cfg)) <= 4;
  inv_budget : e.(receive_avail) + reserved e.(flows) = RECEIVE_BUDGET;
  inv_avail : 0 <= e.(receive_avail);
  inv_flows r f : e.(flows) !! r = Some f ->
    f.(receive_limit) = window_of e /\ r < e.(next_ref) /\ flow_ok f (e.(tasks) !! r);
  inv_epochs : e.(next_epoch) = e.(next_ref) mod 2 ^ 64 /\
    forall r f, e.(flows) !! r = Some f -> f.(epoch) = r mod 2 ^ 64;
  inv_refs r f : e.(flows) !! r = Some f -> 0 < r;
  inv_next : 0 < e0.(next_ref) <= e.(next_ref);
  inv_keeps r f' : e.(flows) !! r = Some f' -> r < e0.(next_ref) ->
    exists f, e0.(flows) !! r = Some f /\ keeps f f';
  inv_streams sid r : e.(streams) !! sid = Some r -> is_Some (e.(flows) !! r) /\ sid <> 0;
  inv_inj s1 s2 r : e.(streams) !! s1 = Some r -> e.(streams) !! s2 = Some r -> s1 = s2;
  inv_size : Z.of_nat (size e.(streams)) <= MAX_STREAMS;
  inv_tasks r t : e.(tasks) !! r = Some t -> is_Some (e.(flows) !! r);
  inv_records o r : o ∈ e.(output) ++ e.(control_q) -> record_ref o = Some r -> is_Some (e.(flows) !! r);
  inv_output : e.(output_avail) + foldr (fun o acc => release_output o + acc) 0 (e.(output) ++ e.(control_q))
    = OUTPUT_BUDGET;
  inv_output_avail : 0 <= e.(output_avail);
  inv_permits o : o ∈ e.(output) ++ e.(control_q) -> 0 <= release_output o;
  inv_slots : len e.(output) <= CHANNEL_SLOTS /\ len e.(control_q) <= CHANNEL_SLOTS;
  inv_peer w : e.(negotiation) = Credit w -> 0 < w <= MAX_PEER_WINDOW;
}.

Arguments inv_cfg {e0}.
Arguments inv_budget {e0}.
Arguments inv_avail {e0}.
Arguments inv_flows {e0}.
Arguments inv_epochs {e0}.
Arguments inv_refs {e0}.
Arguments inv_next {e0}.
Arguments inv_keeps {e0}.
Arguments inv_streams {e0}.
Arguments inv_inj {e0}.
Arguments inv_size {e0}.
Arguments inv_tasks {e0}.
Arguments inv_records {e0}.
Arguments inv_output {e0}.
Arguments inv_output_avail {e0}.
Arguments inv_permits {e0}.
Arguments inv_slots {e0}.
Arguments inv_peer {e0}.

(** ** Lemmas on reservations *)

Lemma reserved_insert fl r f :
  fl !! r = None -> reserved (<[r := f]> fl) = f.(receive_limit) + reserved fl.
Proof.
  intros H. unfold reserved. rewrite fmap_insert, map_fold_insert_L; [done|intros; lia|].
  by rewrite lookup_fmap, H.
Qed.

Lemma reserved_ext fl fl' :
  (forall r, receive_limit <$> fl !! r = receive_limit <$> fl' !! r) -> reserved fl = reserved fl'.
Proof. intros H. unfold reserved. f_equal. apply map_eq. intros r. by rewrite !lookup_fmap. Qed.

Lemma reserved_update fl r f f' :
  fl !! r = Some f -> f'.(receive_limit) = f.(receive_limit) -> reserved (<[r := f']> fl) = reserved fl.
Proof.
  intros H Hl. apply reserved_ext. intros r'. destruct (decide (r' = r)) as [->|].
  - by rewrite lookup_insert_eq, H; simpl; rewrite Hl.
  - by rewrite lookup_insert_ne.
Qed.

Lemma reserved_filter (P : ref * Flow -> Prop) `{forall p, Decision (P p)} fl :
  reserved (filter P fl) + reserved (filter (fun p => ~ P p) fl) = reserved fl.
Proof.
  induction fl as [|r f fl Hr IH] using map_ind; [done|].
  rewrite (reserved_insert fl) by done.
  destruct (decide (P (r, f))) as [HP|HP].
  - rewrite (map_filter_insert_True P) by done.
    rewrite (map_filter_insert_False (fun p => ~ P p)) by naive_solver.
    rewrite (delete_id fl) by done. rewrite reserved_insert; [lia|].
    apply map_lookup_filter_None. by left.
  - rewrite (map_filter_insert_False P) by done.
    rewrite (map_filter_insert_True (fun p => ~ P p)) by done.
    rewrite (delete_id fl) by done. rewrite reserved_insert; [lia|].
    apply map_lookup_filter_None. by left.
Qed.

Lemma reserved_nonneg fl : (forall r f, fl !! r = Some f -> 0 <= f.(receive_limit)) -> 0 <= reserved fl.
Proof.
  induction fl as [|r f fl Hr IH] using map_ind; [done|]. intros H.
  rewrite reserved_insert by done. pose proof (H r f) as Hf. rewrite lookup_insert_eq in Hf.
  specialize (Hf eq_refl). enough (0 <= reserved fl) by lia.
  apply IH. intros r' f' Hl. apply (H r'). rewrite lookup_insert_ne; [done|]. intros ->. congruence.
Qed.
