(* ===== verification/MuxInv.v ===== *)
(** The endpoint of [tcp_mux_flow.rs]: every step preserves its invariant, so the
    memory and stream bounds hold in every reachable state and no step panics. *)
From S2P Require Import Prelude Text Net Frame Protocol Crypto MuxWire MuxFlow.

(** ** Flow operations *)

Lemma keeps_refl f : keeps f f.
Proof. by split. Qed.
Lemma keeps_trans f g h : keeps f g -> keeps g h -> keeps f h.
Proof. intros [] []. split; congruence || auto. Qed.
Lemma keeps_receive f q b c fi : keeps f (set_receive f q b c fi).
Proof. by split. Qed.
Lemma keeps_available f a : keeps f (set_available f a).
Proof. by split. Qed.
Lemma keeps_cancel p f : keeps f (cancel p f).
Proof. split; simpl; try done. by intros ->. Qed.
#[local] Hint Resolve keeps_refl keeps_receive keeps_available keeps_cancel : core.

Lemma Flow_new_ok ep pw w :
  0 < w <= 4194304 -> (forall p, pw = Some p -> 0 < p) -> flow_ok (Flow_new ep pw w) None.
Proof.
  intros Hw Hp. assert (0 <= default 0 pw) by (destruct pw; simpl; [specialize (Hp _ eq_refl)|]; lia).
  split; simpl; try done; try lia.
Qed.

Lemma cancel_ok p f t : flow_ok f t -> flow_ok (cancel p f) t.
Proof.
  intros []. split; simpl; try done.
  pose proof (len_nonneg (concat f.(queue))). change (@len Z []) with 0. lia.
Qed.

Lemma enqueue_ok f payload fi t f' : flow_ok f t -> enqueue f payload fi = Ok f' ->
  flow_ok f' t /\ keeps f f'.
Proof.
  intros [Hs Hl Hn Hq Hr Hc] He. unfold enqueue, sat_add, USIZE_MAX, U64_MAX in He.
  destruct (fin f || cancelled f); [done|]. pose proof (len_nonneg payload).
  case_decide; [injection He as <-; by split|].
  case_decide; [done|]. injection He as <-. split; [|done].
  split; simpl; try done; rewrite ?concat_app, ?len_app; simpl; rewrite ?app_nil_r; try lia.
  rewrite len_1. lia.
Qed.

Lemma add_credit_ok f payload t f' : u8s payload -> flow_ok f t -> add_credit f payload = Ok f' ->
  flow_ok f' t /\ keeps f f'.
Proof.
  intros Hu [Hs Hl Hn Hq Hr Hc] He. unfold add_credit in He.
  destruct (negotiated f) eqn:Hneg; simpl in He; [|injection He as <-; split; [split; by rewrite ?Hneg|done]].
  pose proof (of_be_bound payload Hu).
  repeat (case_decide; [done|]). injection He as <-. split; [|done].
  split; simpl; rewrite ?Hneg; lia || done.
Qed.

Lemma add_credit_no_panic f payload t : flow_ok f t -> add_credit f payload <> Panic.
Proof. intros []. unfold add_credit. repeat case_match; try done; lia. Qed.

Lemma take_credit_ok f n t f' k : 0 <= n -> flow_ok f t -> take_credit f n = Some (f', k) ->
  flow_ok f' t /\ keeps f f'.
Proof.
  intros Hn [Hs Hl Hnn Hq Hr Hc] Ht. unfold take_credit in Ht.
  destruct (negotiated f) eqn:Hneg; simpl in Ht; [|injection Ht as <- _; split; [split; by rewrite ?Hneg|done]].
  case_decide; [|done]. injection Ht as <- _. split; [|done]. split; simpl; rewrite ?Hneg; lia || done.
Qed.

Lemma flow_record_ok f flags payload t f' : u8s payload -> flow_ok f t ->
  flow_record f flags payload = Ok f' -> flow_ok f' t /\ keeps f f'.
Proof.
  intros Hu Hf. unfold flow_record. case_match; [done|]. case_decide; [by apply add_credit_ok|].
  destruct (has_flag flags MUX_FLAG_DATA || has_flag flags MUX_FLAG_CLOSE); [|by intros [= <-]].
  by apply enqueue_ok.
Qed.

Lemma flow_record_no_panic f flags payload t : flow_ok f t -> flow_record f flags payload <> Panic.
Proof.
  intros Hf. unfold flow_record. case_match; [done|]. case_decide; [by eapply add_credit_no_panic|].
  destruct (has_flag flags MUX_FLAG_DATA || has_flag flags MUX_FLAG_CLOSE); [|done].
  unfold enqueue. repeat case_match; done.
Qed.

(** The task states in which nothing of the receiving half is outstanding. *)
Definition quiet (s : TaskState) : Prop :=
  down_writing (Some {| t_sid := 0; t_state := s |}) = 0 /\ down_pending (Some {| t_sid := 0; t_state := s |}) = 0.

Lemma flow_ok_task f t t' :
  flow_ok f t -> down_writing t' = down_writing t -> down_pending t' = down_pending t -> flow_ok f t'.
Proof. intros [] Hw Hp. split; rewrite ?Hw, ?Hp; done. Qed.

Lemma flow_ok_None f t : flow_ok f t -> flow_ok f None.
Proof.
  intros []. assert (0 <= down_writing t).
  { destruct t as [[? [| |? ? [] ?]]|]; simpl; try lia. apply len_nonneg. }
  split; simpl; try done; try lia.
Qed.

(** ** Endpoint primitives *)

Section Inv.
Context (e0 : Endpoint).
Implicit Types e : Endpoint.

Lemma window_bounds e : ep_inv e0 e -> 0 < window_of e <= 4194304.
Proof. intros []. unfold window_of, MuxWindow_bytes, MUX_INITIAL_WINDOW. lia. Qed.

Lemma inv_negotiation e cl wg n : ep_inv e0 e -> (forall w, n = Credit w -> 0 < w <= MAX_PEER_WINDOW) ->
  ep_inv e0 (set_status e cl wg n).
Proof. intros [] Hn. by split. Qed.

Lemma inv_settle e n : ep_inv e0 e -> (forall w, n = Credit w -> 0 < w <= MAX_PEER_WINDOW) ->
  ep_inv e0 (settle_negotiation_if_pending n e).
Proof.
  intros He Hn. unfold settle_negotiation_if_pending. destruct (negotiation e); [|done..].
  by apply inv_negotiation.
Qed.

(** One flow and its task change together. *)
Lemma inv_update e r f f' ot :
  ep_inv e0 e -> e.(flows) !! r = Some f -> keeps f f' -> flow_ok f' ot ->
  ep_inv e0 (set_tables e e.(streams) (<[r := f']> e.(flows)) (partial_alter (fun _ => ot) r e.(tasks))).
Proof.
  intros [] Hf Hl Hok. assert (forall r', is_Some (flows e !! r') -> is_Some (<[r := f']> (flows e) !! r')) as Hdom.
  { intros r' Hs. destruct (decide (r' = r)) as [->|]; [by rewrite lookup_insert_eq|by rewrite lookup_insert_ne]. }
  split; simpl; try done.
  - rewrite (reserved_update _ _ f); [done|done|by apply keeps_limit].
  - intros r' g. destruct (decide (r' = r)) as [->|].
    + rewrite lookup_insert_eq, lookup_partial_alter_eq. intros [= <-]. rewrite (keeps_limit _ _ Hl).
      destruct (inv_flows r f Hf) as (? & ? & _). done.
    + rewrite lookup_insert_ne, lookup_partial_alter_ne by done. apply inv_flows.
  - split; [apply inv_epochs|]. intros r' g [[-> <-]|[_ Hg]]%lookup_insert_Some.
    + rewrite (keeps_epoch _ _ Hl). by apply inv_epochs.
    + by apply inv_epochs.
  - intros r' g [[-> <-]|[_ Hg]]%lookup_insert_Some; by eapply inv_refs.
  - intros r' g [[-> <-]|[_ Hg]]%lookup_insert_Some Hr; [|by apply inv_keeps].
    destruct (inv_keeps r' f Hf Hr) as (f0 & Hf0 & Hk). exists f0. split; [done|by eapply keeps_trans].
  - intros sid r' Hs. destruct (inv_streams sid r' Hs). split; [by apply Hdom|done].
  - intros r' t Ht. apply Hdom. destruct (decide (r' = r)) as [->|]; [by rewrite Hf|].
    rewrite lookup_partial_alter_ne in Ht by done. eauto.
  - intros o r' Ho Hr. apply Hdom. eauto.
Qed.

Lemma inv_upd_flow e r f f' :
  ep_inv e0 e -> e.(flows) !! r = Some f -> keeps f f' -> flow_ok f' (e.(tasks) !! r) ->
  ep_inv e0 (upd_flow r f' e).
Proof.
  intros He Hf Hl Hok. pose proof (inv_update e r f f' (tasks e !! r) He Hf Hl Hok) as H.
  by rewrite partial_alter_id in H by done.
Qed.

Lemma inv_set_task e r f sid s :
  ep_inv e0 e -> e.(flows) !! r = Some f -> flow_ok f (Some {| t_sid := sid; t_state := s |}) ->
  ep_inv e0 (set_task r sid s e).
Proof.
  intros He Hf Hok. pose proof (inv_update e r f f _ He Hf (keeps_refl f) Hok) as H.
  by rewrite insert_id in H.
Qed.

Lemma inv_upd_task e r f f' sid s :
  ep_inv e0 e -> e.(flows) !! r = Some f -> keeps f f' ->
  flow_ok f' (Some {| t_sid := sid; t_state := s |}) ->
  ep_inv e0 (set_task r sid s (upd_flow r f' e)).
Proof. intros He Hf Hl Hok. apply (inv_update e r f f' _ He Hf Hl Hok). Qed.

Lemma inv_drop_task e r : ep_inv e0 e -> ep_inv e0 (drop_task r e).
Proof.
  intros He. destruct (flows e !! r) as [f|] eqn:Hf.
  - destruct (inv_flows e He r f Hf) as (_ & _ & Hok).
    pose proof (inv_update e r f f None He Hf (keeps_refl f) (flow_ok_None _ _ Hok)) as H.
    by rewrite insert_id in H.
  - destruct He. split; simpl; try done.
    + intros r' f Hf'. assert (r' <> r) by congruence. rewrite lookup_delete_ne by done. eauto.
    + intros r' t Ht. apply lookup_delete_Some in Ht as [_ Ht]. eauto.
Qed.

Lemma inv_streams_sub e st :
  ep_inv e0 e -> st ⊆ e.(streams) -> ep_inv e0 (set_streams e st).
Proof.
  intros [] Hst. split; simpl; try done.
  - intros sid r H. eapply inv_streams, lookup_weaken; done.
  - intros s1 s2 r H1 H2. eapply inv_inj; eapply lookup_weaken; done.
  - apply map_subseteq_size in Hst. lia.
Qed.

Lemma inv_finish e sid ep p : ep_inv e0 e -> ep_inv e0 (finish sid ep p e).1.
Proof.
  intros He. unfold finish, get_flow. destruct (streams e !! sid) as [r|] eqn:Hs; simpl; [|done].
  destruct (flows e !! r) as [f|] eqn:Hf; simpl; [|done]. case_decide; [|done]. simpl.
  assert (ep_inv e0 (set_streams e (delete sid (streams e)))) as He'
    by (apply inv_streams_sub; [done|apply delete_subseteq]).
  apply (inv_upd_flow _ r f); [done..|]. apply cancel_ok. by apply (inv_flows e He r f).
Qed.

Lemma inv_remove e sid ep : ep_inv e0 e -> ep_inv e0 (remove sid ep e).1.
Proof. apply inv_finish. Qed.

Lemma inv_shutdown e : ep_inv e0 e -> ep_inv e0 (shutdown e).
Proof.
  intros He. unfold shutdown. apply inv_settle; [|done].
  pose proof (inv_negotiation e true (writer_gone e) (negotiation e) He (inv_peer e He)) as He'.
  set (e' := set_status _ _ _ _) in *.
  set (fl := map_imap _ _).
  assert (forall r f, fl !! r = Some f -> exists f0, flows e !! r = Some f0 /\ (f = f0 \/ f = cancel false f0)) as Hfl.
  { intros r f. unfold fl. rewrite map_lookup_imap. destruct (flows e !! r) as [f0|]; [|done]. simpl.
    intros [= <-]. exists f0. split; [done|]. case_decide; auto. }
  assert (forall r, is_Some (flows e !! r) -> is_Some (fl !! r)) as Hdom.
  { intros r [f0 H]. unfold fl. rewrite map_lookup_imap, H. simpl. done. }
  destruct He'. split; simpl in *; try done.
  - rewrite <- inv_budget. f_equal. apply reserved_ext. intros r. unfold fl. rewrite map_lookup_imap.
    destruct (flows e !! r) as [f0|]; simpl; [|done]. by case_decide.
  - intros r f H. destruct (Hfl r f H) as (f0 & H0 & [-> | ->]); [by apply inv_flows|].
    destruct (inv_flows r f0 H0) as (? & ? & ?). split_and!; [done..|by apply cancel_ok].
  - split; [apply inv_epochs|]. intros r f H. destruct (Hfl r f H) as (f0 & H0 & [-> | ->]); simpl; by apply inv_epochs.
  - intros r f H. destruct (Hfl r f H) as (f0 & H0 & _). by eapply inv_refs.
  - intros r f H Hr. destruct (Hfl r f H) as (g & H0 & Hg). destruct (inv_keeps r g H0 Hr) as (f0 & ? & ?).
    exists f0. split; [done|]. destruct Hg as [-> | ->]; [done|]. eapply keeps_trans; [done|auto].
  - intros r t Ht. apply Hdom. eauto.
  - intros o r Ho Hr. apply Hdom. eauto.
Qed.

Definition permits (l : list Output) : Z := foldr (fun o acc => release_output o + acc) 0 l.

Lemma permits_app l l' : permits (l ++ l') = permits l + permits l'.
Proof. induction l as [|o l IH]; simpl; [lia|]. unfold permits in *. lia. Qed.

(** New queue contents whose references are alive and whose permits are accounted. *)
Lemma inv_set_queues e oa ou co :
  ep_inv e0 e -> 0 <= oa ->
  (forall o, o ∈ ou ++ co -> o ∈ e.(output) ++ e.(control_q) \/
     (0 <= release_output o /\ forall r, record_ref o = Some r -> is_Some (e.(flows) !! r))) ->
  oa + permits (ou ++ co) = OUTPUT_BUDGET ->
  len ou <= CHANNEL_SLOTS /\ len co <= CHANNEL_SLOTS ->
  ep_inv e0 (set_queues e oa ou co).
Proof.
  intros [] Hoa Ho Hp Hs. split; simpl; try done.
  - intros o r Hin Hr. destruct (Ho o Hin) as [?|[_ H]]; [by eapply inv_records|by apply H].
  - intros o Hin. destruct (Ho o Hin) as [?|[H _]]; [by apply inv_permits|done].
Qed.

Lemma inv_push e o msg :
  ep_inv e0 e -> release_output o = 0 -> (forall r, record_ref o = Some r -> is_Some (e.(flows) !! r)) ->
  ep_inv e0 (push_control o msg e).1.
Proof.
  intros He Hr Ho. unfold push_control. case_decide as Hd; [done|]. simpl.
  apply inv_set_queues; [done|exact (inv_output_avail e He)| | |].
  - intros o'. rewrite app_assoc, elem_of_app, list_elem_of_singleton.
    intros [?| ->]; [by left|right; split; [lia|done]].
  - pose proof (inv_output e He) as H. fold (permits (output e ++ control_q e)) in H.
    rewrite app_assoc, permits_app. simpl. lia.
  - pose proof (inv_slots e He). rewrite len_app, len_1. lia.
Qed.

Lemma inv_control e sid flags payload fl :
  ep_inv e0 e -> (forall r, fl = Some r -> is_Some (e.(flows) !! r)) ->
  ep_inv e0 (control sid flags payload fl e).1.
Proof. intros. by apply inv_push. Qed.

Lemma inv_send e sid flags payload r e' x :
  ep_inv e0 e -> is_Some (e.(flows) !! r) -> send sid flags payload r e = Some (e', x) -> ep_inv e0 e'.
Proof.
  intros He Hr. unfold send. destruct (closed e || writer_gone e); [by intros [= <- _]|].
  case_decide as Hd; [done|]. intros [= <- _].
  assert (0 <= as_u32 (len payload + 9)) by (unfold as_u32; pose proof (Z.mod_pos_bound (len payload + 9) 4294967296); lia).
  apply inv_set_queues; [done|lia| | |].
  - intros o'. rewrite <- app_assoc, !elem_of_app, list_elem_of_singleton.
    intros [?|[->|?]]; [left; by left| |left; by right].
    right. split; [simpl; lia|]. by intros ? [= <-].
  - pose proof (inv_output e He) as H'. fold (permits (output e ++ control_q e)) in H'.
    rewrite <- app_assoc, !permits_app in *. simpl. lia.
  - pose proof (inv_slots e He). rewrite len_app, len_1. lia.
Qed.

Lemma inv_writer_pop e b e' o : ep_inv e0 e -> writer_pop b e = Some (e', o) -> ep_inv e0 e'.
Proof.
  intros He Hw. pose proof (inv_output e He) as H'. fold (permits (output e ++ control_q e)) in H'.
  pose proof (inv_output_avail e He). pose proof (inv_slots e He) as Hsl. unfold writer_pop in Hw.
  destruct b.
  - destruct (control_q e) as [|o' q] eqn:Hq; [done|]. injection Hw as <- _.
    assert (0 <= release_output o') by (apply (inv_permits e He); rewrite Hq; set_solver).
    apply inv_set_queues; [done|lia| | |].
    + intros o''. rewrite Hq. set_solver.
    + rewrite !permits_app in *. simpl in H'. lia.
    + rewrite len_cons in Hsl. lia.
  - destruct (output e) as [|o' q] eqn:Hq; [done|]. injection Hw as <- _.
    assert (0 <= release_output o') by (apply (inv_permits e He); rewrite Hq; set_solver).
    apply inv_set_queues; [done|lia| | |].
    + intros o''. rewrite Hq. set_solver.
    + rewrite !permits_app in *. simpl in H'. lia.
    + rewrite len_cons in Hsl. lia.
Qed.

Lemma inv_run_end e : ep_inv e0 e -> ep_inv e0 (run_end e).
Proof.
  intros He%inv_shutdown. unfold run_end.
  assert (forall w, negotiation (shutdown e) = Credit w -> 0 < w <= MAX_PEER_WINDOW) as Hp by apply (inv_peer _ He).
  pose proof (inv_negotiation _ (closed (shutdown e)) true _ He Hp) as H.
  apply inv_set_queues; simpl; try done; try (unfold OUTPUT_BUDGET, CHANNEL_SLOTS; simpl; lia).
  intros o Ho. by apply elem_of_nil in Ho.
Qed.

Lemma inv_reclaim e : ep_inv e0 e -> ep_inv e0 (reclaim e).
Proof.
  intros He. pose proof (window_bounds e He). destruct He. unfold reclaim.
  set (live := filter _ _). set (dead := filter _ _).
  assert (reserved live + reserved dead = reserved (flows e)) as Hr by apply reserved_filter.
  assert (0 <= reserved dead).
  { apply reserved_nonneg. intros r f Hf. apply map_lookup_filter_Some in Hf as [Hf _].
    destruct (inv_flows r f Hf) as [-> _]. lia. }
  assert (forall r, is_Some (flows e !! r) -> referenced e r -> is_Some (live !! r)) as Hlive.
  { intros r [f Hf] Href. exists f. by apply map_lookup_filter_Some. }
  split; simpl; try done.
  - lia.
  - lia.
  - intros r f Hf. apply map_lookup_filter_Some in Hf as [Hf _]. by apply inv_flows.
  - split; [apply inv_epochs|]. intros r f Hf. apply map_lookup_filter_Some in Hf as [Hf _]. by apply inv_epochs.
  - intros r f Hf. apply map_lookup_filter_Some in Hf as [Hf _]. by eapply inv_refs.
  - intros r f Hf. apply map_lookup_filter_Some in Hf as [Hf _]. by apply inv_keeps.
  - intros sid r Hs. destruct (inv_streams sid r Hs). split; [|done]. apply Hlive; [done|].
    left. by exists sid, r.
  - intros r t Ht. apply Hlive; [eauto|]. right. left. by rewrite Ht.
  - intros o r Ho Hrr. apply Hlive; [by eapply inv_records|]. right. right.
    apply elem_of_app in Ho as [Ho|Ho]; [left|right]; rewrite <- Hrr; by apply list_elem_of_fmap_2.
Qed.

Lemma inv_counters e ns : ep_inv e0 e ->
  ep_inv e0 (set_counters e e.(next_ref) e.(receive_avail) ns e.(next_epoch)).
Proof. by intros []. Qed.

Lemma inv_allocate e sid pw e' x :
  ep_inv e0 e -> (forall p, pw = Some p -> 0 < p) -> allocate sid pw e = (e', x) ->
  ep_inv e0 e' /\ (forall r, x = Ok r -> exists f, e'.(flows) !! r = Some f /\ flow_ok f None /\
    e'.(streams) !! sid = Some r /\ e'.(tasks) = e.(tasks)) /\ x <> Panic.
Proof.
  intros He Hp Ha. pose proof (window_bounds e He) as Hw. unfold allocate in Ha.
  destruct (closed e); [injection Ha as <- <-; done|].
  case_decide as Hs; [injection Ha as <- <-; done|].
  case_decide as Hn; [injection Ha as <- <-; done|].
  case_decide as Hb; [injection Ha as <- <-; done|].
  injection Ha as <- <-. destruct He.
  assert (streams e !! sid = None) as Hsn by (destruct (streams e !! sid) eqn:E; [exfalso; apply Hs; right; by eexists|done]).
  assert (flows e !! next_ref e = None) as Hfn.
  { destruct (flows e !! next_ref e) as [f|] eqn:E; [|done]. apply inv_flows in E. lia. }
  assert (tasks e !! next_ref e = None) as Htn.
  { destruct (tasks e !! next_ref e) as [t|] eqn:E; [|done]. apply inv_tasks in E as [? ?]. congruence. }
  assert (forall r, is_Some (flows e !! r) ->
    is_Some (<[next_ref e := Flow_new (next_epoch e) pw (window_of e)]> (flows e) !! r)) as Hdom.
  { intros r' Hs'. destruct (decide (r' = next_ref e)) as [->|]; [by rewrite lookup_insert_eq|by rewrite lookup_insert_ne]. }
  pose proof (Flow_new_ok (next_epoch e) pw (window_of e) Hw Hp) as Hnew.
  split; [|split; [|done]].
  - split; simpl; try done.
    + rewrite reserved_insert by done. simpl. lia.
    + lia.
    + intros r f. destruct (decide (r = next_ref e)) as [->|].
      * rewrite lookup_insert_eq, Htn. intros [= <-]. split_and!; [done|simpl; lia|done].
      * rewrite lookup_insert_ne by done. intros Hf. destruct (inv_flows r f Hf) as (? & ? & ?).
        split_and!; [done|simpl; lia|done].
    + destruct inv_epochs as [Hne Hep]. split; [rewrite Hne, Zplus_mod_idemp_l; done|].
      intros r f [[<- <-]|[_ Hf]]%lookup_insert_Some; [done|by apply Hep].
    + intros r f [[<- <-]|[_ Hf]]%lookup_insert_Some; [lia|by eapply inv_refs].
    + lia.
    + intros r f [[<- <-]|[_ Hf]]%lookup_insert_Some Hr; [lia|by apply inv_keeps].
    + intros s r. destruct (decide (s = sid)) as [->|].
      * rewrite lookup_insert_eq. intros [= <-]. rewrite lookup_insert_eq. split; [done|]. intros ->. apply Hs. by left.
      * rewrite lookup_insert_ne by done. intros H. destruct (inv_streams s r H). split; [by apply Hdom|done].
    + intros s1 s2 r H1 H2. apply lookup_insert_Some in H1, H2.
      destruct H1 as [[? ?]|[? H1]], H2 as [[? ?]|[? H2]].
      * congruence.
      * apply inv_streams in H2 as [[? ?] _]. congruence.
      * apply inv_streams in H1 as [[? ?] _]. congruence.
      * by eapply inv_inj.
    + rewrite map_size_insert_None by done. lia.
    + intros r t Ht. apply Hdom. eauto.
    + intros o r Ho Hr. apply Hdom. eauto.
  - intros r [= <-]. eexists. simpl. rewrite !lookup_insert_eq. done.
Qed.

(** ** Handlers *)

Definition good (p : Endpoint * result unit) : Prop := ep_inv e0 p.1 /\ p.2 <> Panic.

Lemma good_ok e : ep_inv e0 e -> good (e, Ok tt).
Proof. by split. Qed.
Lemma good_err e m : ep_inv e0 e -> good (e, Err m).
Proof. by split. Qed.

Lemma good_push e o msg :
  ep_inv e0 e -> release_output o = 0 -> (forall r, record_ref o = Some r -> is_Some (e.(flows) !! r)) ->
  good (push_control o msg e).
Proof. intros. split; [by apply inv_push|]. unfold push_control. by case_decide. Qed.

Lemma good_control e sid flags payload fl :
  ep_inv e0 e -> (forall r, fl = Some r -> is_Some (e.(flows) !! r)) ->
  good (control sid flags payload fl e).
Proof. intros. by apply good_push. Qed.

Lemma get_flow_Some e sid r f :
  get_flow sid e = Some (r, f) <-> e.(streams) !! sid = Some r /\ e.(flows) !! r = Some f.
Proof.
  unfold get_flow. destruct (streams e !! sid) as [r'|]; simpl; [|naive_solver].
  destruct (flows e !! r') as [f'|] eqn:Hf; simpl; naive_solver.
Qed.

Lemma get_flow_alive e sid r : fst <$> get_flow sid e = Some r -> is_Some (e.(flows) !! r).
Proof.
  destruct (get_flow sid e) as [[r' f']|] eqn:Hg; [|done]. intros [= <-].
  apply get_flow_Some in Hg as [_ ->]. done.
Qed.

(** Finishing a stream keeps the flows allocated. *)
Lemma finish_flows e sid ep p r : is_Some (e.(flows) !! r) -> is_Some ((finish sid ep p e).1.(flows) !! r).
Proof.
  intros H. unfold finish. destruct (get_flow sid e) as [[r' f']|]; [|done]. case_decide; [|done]. simpl.
  destruct (decide (r = r')) as [->|]; [by rewrite lookup_insert_eq|by rewrite lookup_insert_ne].
Qed.

Lemma parse_capability_bound payload k w : parse_capability payload k = Some w -> 0 < w <= MAX_PEER_WINDOW.
Proof. unfold parse_capability. do 2 (case_decide; [|done] || (case_decide; [done|])). by intros [= <-]. Qed.

Lemma good_capability e payload : ep_inv e0 e -> good (dispatch_capability payload e).
Proof.
  intros He. unfold dispatch_capability, mbind, st_bind, gets, modify, mret, st_ret.
  destruct (client e).
  - destruct (parse_capability payload 2) as [w|] eqn:Hp; [|by apply good_ok].
    apply good_ok, inv_settle; [done|]. intros ? [= <-]. by eapply parse_capability_bound.
  - destruct (parse_capability payload 1) as [w|] eqn:Hp; [|by apply good_ok].
    apply good_control; [|done]. apply inv_negotiation; [done|]. intros ? [= <-]. by eapply parse_capability_bound.
Qed.

Lemma decode_target_safe payload : u8s payload -> decode_mux_open_target payload <> Panic.
Proof.
  intros Hu. destruct (decode_atyp_safe payload Hu) as [Hs _]. unfold decode_mux_open_target.
  apply safe_bind; [done|]. intros [[h p] n] _. by case_decide.
Qed.

Lemma allocate_Err sid pw e e' m : allocate sid pw e = (e', Err m) -> e' = e.
Proof. unfold allocate. destruct (closed e); [by intros [= <- _]|]. repeat (case_decide; [by intros [= <- _]|]). done. Qed.

Lemma good_open e sid flags payload : ep_inv e0 e -> u8s payload -> good (dispatch_open sid flags payload e).
Proof.
  intros He Hu. unfold dispatch_open.
  assert (forall e', ep_inv e0 e' -> flows e' = flows e ->
    good (control sid MUX_FLAG_RST [] (fst <$> get_flow sid e) e')) as Hrefuse.
  { intros e' He' Hfl. apply good_control; [done|]. intros r Hr. rewrite Hfl. by eapply get_flow_alive. }
  assert (forall pw, (forall p, pw = Some p -> 0 < p) ->
    good (match decode_mux_open_target payload with
    | Panic => (e, Panic)
    | Err _ => control sid MUX_FLAG_RST [] (fst <$> get_flow sid e) e
    | Ok (host, port) =>
      match allocate sid pw e with
      | (e', Ok r) => (add_task r {| t_sid := sid; t_state := Connecting host port |} e', Ok tt)
      | (e', Panic) => (e', Panic)
      | (e', Err _) => control sid MUX_FLAG_RST [] (fst <$> get_flow sid e) e'
      end
    end)) as Hproceed.
  { intros pw Hpw. pose proof (decode_target_safe payload Hu) as Hsafe.
    destruct (decode_mux_open_target payload) as [[host port]|m|]; [|by apply Hrefuse|done].
    destruct (allocate sid pw e) as [e' x] eqn:Ha.
    destruct (inv_allocate e sid pw e' x He Hpw Ha) as (He' & Hr & Hx).
    destruct x as [r|m|]; [|apply Hrefuse; [done|]|done].
    - destruct (Hr r eq_refl) as (f & Hf & Hok & _). apply good_ok.
      apply (inv_set_task e' r f); [done..|]. by apply (flow_ok_task f None).
    - by rewrite (allocate_Err _ _ _ _ _ Ha). }
  destruct (has_flag flags OPEN_CREDIT); [|by apply Hproceed].
  destruct (negotiation e) as [| |w] eqn:Hn; [by apply Hrefuse..|].
  apply Hproceed. intros p [= <-]. apply (inv_peer e He) in Hn. lia.
Qed.

Lemma good_stream e sid flags payload : ep_inv e0 e -> u8s payload -> good (dispatch_stream sid flags payload e).
Proof.
  intros He Hu. unfold dispatch_stream. destruct (get_flow sid e) as [[r f]|] eqn:Hg.
  2:{ case_match; [by apply good_control|by apply good_ok]. }
  apply get_flow_Some in Hg as [Hs Hf]. destruct (inv_flows e He r f Hf) as (_ & _ & Hok).
  destruct (has_flag flags MUX_FLAG_RST); [apply good_ok; by apply inv_remove|].
  destruct (flow_record f flags payload) as [f'|m|] eqn:Hr.
  - destruct (flow_record_ok _ _ _ _ _ Hu Hok Hr) as [Hok' Hl]. apply good_ok. by eapply inv_upd_flow.
  - pose proof (inv_remove e sid (epoch f) He) as He'.
    pose proof (finish_flows e sid (epoch f) false r ltac:(by rewrite Hf)) as Halive.
    unfold remove in *. destruct (finish sid (epoch f) false e) as [e' b]. simpl in *.
    destruct b; [|by apply good_ok]. apply good_control; [done|]. by intros ? [= <-].
  - by eapply flow_record_no_panic in Hok.
Qed.

Lemma good_dispatch e sid flags payload : ep_inv e0 e -> u8s payload -> good (dispatch sid flags payload e).
Proof.
  intros He Hu. unfold dispatch. case_decide; [by apply good_capability|].
  case_match; [by apply good_open|by apply good_stream].
Qed.

Lemma inv_bridge_end e r sid ep ok :
  ep_inv e0 e -> is_Some (e.(flows) !! r) -> ep_inv e0 (bridge_end r sid ep ok e).
Proof.
  intros He Hr. unfold bridge_end. pose proof (inv_finish e sid ep ok He) as He'.
  pose proof (finish_flows e sid ep ok r Hr) as Halive.
  destruct (finish sid ep ok e) as [e' fin]. simpl in *. apply inv_drop_task.
  destruct (fin && negb ok); [|done].
  pose proof (inv_control e' sid MUX_FLAG_RST [] (Some r) He') as Hc.
  destruct (control sid MUX_FLAG_RST [] (Some r) e') as [e'' [[]|m|]]; simpl in Hc;
    [|apply inv_shutdown..]; apply Hc; by intros ? [= <-].
Qed.

Lemma inv_bridge_settle e r sid f f0 prefix up dn pending :
  ep_inv e0 e -> e.(flows) !! r = Some f0 -> flow_ok f0 (Some {| t_sid := sid; t_state := Bridge prefix up dn pending |}) ->
  ep_inv e0 (bridge_settle r sid f prefix up dn pending e).
Proof.
  intros He Hf Hok. unfold bridge_settle.
  pose proof (inv_set_task e r f0 sid _ He Hf Hok) as He'.
  case_match; [|done]. apply inv_bridge_end; [done|]. simpl. by rewrite Hf.
Qed.

(** ** The bridge *)

Lemma send_frame sid flags payload r e e' x :
  send sid flags payload r e = Some (e', x) -> e'.(flows) = e.(flows) /\ e'.(tasks) = e.(tasks) /\ x <> Panic.
Proof. unfold send. case_match; [by intros [= <- <-]|]. case_decide; [done|]. by intros [= <- <-]. Qed.

Lemma good_bridge_end e r sid ep ok :
  ep_inv e0 e -> is_Some (e.(flows) !! r) -> good (bridge_end r sid ep ok e, Ok tt).
Proof. intros. by apply good_ok, inv_bridge_end. Qed.

Lemma good_settle e r sid f f0 prefix up dn pending :
  ep_inv e0 e -> e.(flows) !! r = Some f0 -> flow_ok f0 (Some {| t_sid := sid; t_state := Bridge prefix up dn pending |}) ->
  good (bridge_settle r sid f prefix up dn pending e, Ok tt).
Proof. intros. by eapply good_ok, inv_bridge_settle. Qed.

(** Settling after the flow itself changed: both changes are one update. *)
Lemma good_settle_flow e r sid f f0 f1 prefix up dn pending :
  ep_inv e0 e -> e.(flows) !! r = Some f0 -> keeps f0 f1 ->
  flow_ok f1 (Some {| t_sid := sid; t_state := Bridge prefix up dn pending |}) ->
  good (bridge_settle r sid f prefix up dn pending (upd_flow r f1 e), Ok tt).
Proof.
  intros He Hf Hl Hok. pose proof (inv_upd_task e r f0 f1 sid _ He Hf Hl Hok) as He'.
  apply good_ok. unfold bridge_settle. case_match; [|done].
  apply inv_bridge_end; [done|]. simpl. by rewrite lookup_insert_eq.
Qed.

Section BridgeStep.
Context (e : Endpoint) (r sid : Z) (f : Flow) (prefix : bytes) (up : UpState) (dn : DownState) (pending : Z).
Context (He : ep_inv e0 e) (Hf : e.(flows) !! r = Some f).
Context (Hok : flow_ok f (Some {| t_sid := sid; t_state := Bridge prefix up dn pending |})).

Lemma alive : is_Some (e.(flows) !! r).
Proof using Hf. by rewrite Hf. Qed.

Lemma up_ok prefix' up' : flow_ok f (Some {| t_sid := sid; t_state := Bridge prefix' up' dn pending |}).
Proof using Hok. by eapply flow_ok_task. Qed.

Lemma good_bridge_up chunk p : bridge_up r sid f prefix up dn pending chunk e = Some p -> good p.
Proof using He Hf Hok.
  pose proof alive as Ha. pose proof up_ok as Hup. unfold bridge_up.
  assert (forall prefix' up' e', ep_inv e0 e' -> flows e' = flows e ->
    good (bridge_settle r sid f prefix' up' dn pending e', Ok tt)) as Hsettle.
  { intros prefix' up' e' He' Hfl. eapply good_settle; [done|by rewrite Hfl|apply Hup]. }
  assert (forall flags c up' (q : Endpoint * result unit), match send sid flags c r e with
     | None => None
     | Some (e0, Ok _) => Some (bridge_settle r sid f prefix up' dn pending e0, Ok tt)
     | Some (e0, _) => Some (bridge_end r sid (epoch f) false e0, Ok tt) end = Some q -> good q) as Hsend.
  { intros flags c up' q Hq. destruct (send sid flags c r e) as [[e' x]|] eqn:Hs; [|done].
    pose proof (inv_send _ _ _ _ _ _ _ He Ha Hs) as He'. apply send_frame in Hs as (Hfl & _ & _).
    destruct x; injection Hq as <-; [by apply Hsettle|apply good_bridge_end; [done|by rewrite Hfl, Hf]..]. }
  destruct up as [|rest|c rest| |]; [| | | |done].
  - case_decide; [intros [= <-]; by apply Hsettle|].
    destruct chunk as [[|c0 c]|]; intros [= <-]; [by apply Hsettle..|by apply good_bridge_end].
  - destruct rest as [|c0 rest]; [intros [= <-]; by apply Hsettle|].
    destruct (take_credit f _) as [[f' n]|] eqn:Ht; [|done]. intros [= <-].
    apply (take_credit_ok _ _ (Some {| t_sid := sid; t_state := Bridge prefix (UpSend (take (Z.to_nat n) (c0 :: rest)) (drop (Z.to_nat n) (c0 :: rest))) dn pending |})) in Ht as [Hok' Hl];
      [by eapply good_settle_flow|apply len_nonneg|apply Hup].
  - apply Hsend.
  - apply Hsend.
Qed.

Lemma good_bridge_down written p : bridge_down r sid f prefix up dn pending written e = Some p -> good p.
Proof using He Hf Hok.
  pose proof alive as Ha. destruct Hok as [Hs Hl Hn Hq Hr Hc]. unfold bridge_down.
  destruct dn as [|d| | | | |]; simpl in *; [| | | | | |done].
  - unfold receive. destruct (queue f) as [|d q] eqn:Hqf.
    + destruct (fin f); [|done]. intros [= <-]. eapply good_settle; [done..|].
      split; simpl; rewrite ?Hqf; done.
    + intros [= <-]. rewrite len_cons in Hr. simpl in Hq. rewrite len_app in Hq.
      eapply good_settle_flow; [done..|]. split; simpl; try done; lia.
  - destruct written; [|intros [= <-]; by apply good_bridge_end].
    pose proof (len_nonneg d). pose proof (len_nonneg (concat (queue f))).
    unfold consumed, U32_MAX. rewrite decide_False by lia.
    rewrite decide_False by (destruct (negotiated f); lia).
    destruct (negotiated f) eqn:Hneg; intros [= <-]; (eapply good_settle_flow; [done..|]);
      split; simpl; rewrite ?Hneg; try done; lia.
  - case_decide; intros [= <-]; (eapply good_settle; [done..|]); by split.
  - unfold grant_credit, U32_MAX. rewrite decide_True by lia. intros [= <-].
    eapply good_settle_flow; [done..|]. split; simpl; try done; lia.
  - pose proof (inv_control e sid MUX_FLAG_WIN (to_be 4 pending) (Some r) He) as Hc'.
    assert (flows (control sid MUX_FLAG_WIN (to_be 4 pending) (Some r) e).1 = flows e) as Hfl
      by (unfold control, push_control; by case_decide).
    destruct (control sid MUX_FLAG_WIN (to_be 4 pending) (Some r) e) as [e' x]. simpl in *.
    assert (ep_inv e0 e') as He' by (apply Hc'; by intros ? [= <-]).
    assert (flows e' !! r = Some f) as Hf' by by rewrite Hfl.
    destruct x; intros [= <-].
    + eapply good_settle; [done..|]. split; simpl; try done; lia.
    + apply good_bridge_end; [|by simpl; rewrite lookup_insert_eq].
      apply (inv_upd_flow _ r f); [done..|]. apply cancel_ok. by apply (inv_flows e' He' r f).
    + apply good_bridge_end; [|by simpl; rewrite lookup_insert_eq].
      apply (inv_upd_flow _ r f); [done..|]. apply cancel_ok. by apply (inv_flows e' He' r f).
  - destruct written; intros [= <-]; [|by apply good_bridge_end].
    eapply good_settle; [done..|]. by split.
Qed.
End BridgeStep.


(** ** Steps *)

Lemma good_bridge e r ev p : ep_inv e0 e -> bridge r ev e = Some p -> good p.
Proof.
  intros He. unfold bridge. destruct (tasks e !! r) as [[sid st]|] eqn:Ht; [|done]. simpl.
  destruct (flows e !! r) as [f|] eqn:Hf; [|done]. simpl.
  destruct (inv_flows e He r f Hf) as (_ & _ & Hok). rewrite Ht in Hok.
  destruct st as [| |prefix up dn pending]; [done..|].
  destruct ev as [chunk|written|].
  - by eapply good_bridge_up.
  - by eapply good_bridge_down.
  - destruct (cancelled f); [|done]. intros [= <-]. apply good_bridge_end; [done|by rewrite Hf].
Qed.

Lemma flow_ok_quiet f t sid s :
  flow_ok f t -> quiet s -> flow_ok f (Some {| t_sid := sid; t_state := s |}).
Proof.
  intros Hf [Hw Hp]. pose proof (flow_ok_None _ _ Hf) as [].
  split; simpl in *; rewrite ?Hw, ?Hp; done.
Qed.

Lemma good_opening e r b p : ep_inv e0 e -> opening r b e = Some p -> good p.
Proof.
  intros He. unfold opening. destruct (tasks e !! r) as [[sid st]|] eqn:Ht; [|done]. simpl.
  destruct (flows e !! r) as [f|] eqn:Hf; [|done]. simpl.
  destruct (inv_flows e He r f Hf) as (_ & _ & Hok).
  destruct st as [flags payload prefix| |]; [|done..].
  destruct b; [intros [= <-]; apply good_ok, inv_drop_task, inv_remove; done|].
  destruct (send sid flags payload r e) as [[e' x]|] eqn:Hs; [|done].
  pose proof (inv_send _ _ _ _ _ _ _ He ltac:(by rewrite Hf) Hs) as He'.
  apply send_frame in Hs as (Hfl & Htk & Hx). destruct x; [| |done]; intros [= <-].
  - apply good_ok. apply (inv_set_task _ r f); [done|by rewrite Hfl|]. by eapply flow_ok_quiet.
  - apply good_err, inv_drop_task, inv_remove; done.
Qed.

Lemma good_connecting e r ev p : ep_inv e0 e -> connecting r ev e = Some p -> good p.
Proof.
  intros He. unfold connecting. destruct (tasks e !! r) as [[sid st]|] eqn:Ht; [|done]. simpl.
  destruct (flows e !! r) as [f|] eqn:Hf; [|done]. simpl.
  destruct (inv_flows e He r f Hf) as (_ & _ & Hok).
  destruct st as [|host port|]; [done| |done]. destruct ev.
  - intros [= <-]. apply good_ok. apply (inv_set_task _ r f); [done..|]. by eapply flow_ok_quiet.
  - pose proof (inv_remove e sid (epoch f) He) as He'.
    pose proof (finish_flows e sid (epoch f) false r ltac:(by rewrite Hf)) as Ha. unfold remove in *.
    destruct (finish sid (epoch f) false e) as [e' rm]. simpl in *. intros [= <-].
    apply good_ok, inv_drop_task. destruct rm; [|done].
    pose proof (inv_control e' sid MUX_FLAG_RST [] (Some r) He') as Hc.
    destruct (control sid MUX_FLAG_RST [] (Some r) e') as [e'' [[]|m|]]; simpl in Hc;
      [|apply inv_shutdown..]; apply Hc; by intros ? [= <-].
  - destruct (cancelled f); [|done]. intros [= <-]. by apply good_ok, inv_drop_task.
Qed.

Lemma encode_target_no_panic host port : encode_mux_open_target host port <> Panic.
Proof.
  unfold encode_mux_open_target, encode_atyp_host_port.
  destruct (parse_ipv4 host); [done|]. destruct (parse_ipv6 host); [done|]. by case_decide.
Qed.

Lemma good_prepare e host port prefix pw :
  ep_inv e0 e -> (forall p, pw = Some p -> 0 < p) ->
  ep_inv e0 (prepare_stream host port prefix pw e).1 /\ (prepare_stream host port prefix pw e).2 <> Panic.
Proof.
  intros He Hpw. unfold prepare_stream. pose proof (inv_counters e (as_u32 (next_sid e + 1)) He) as He1.
  set (e1 := set_counters _ _ _ _ _) in *. case_decide; [done|].
  pose proof (encode_target_no_panic host port).
  destruct (encode_mux_open_target host port) as [payload|m|]; [|done..].
  destruct (allocate (next_sid e) pw e1) as [e2 y] eqn:Ha.
  destruct (inv_allocate _ _ _ _ _ He1 Hpw Ha) as (He2 & Hr & Hy). destruct y as [r|m|]; [|done..].
  destruct (Hr r eq_refl) as (f & Hf & Hok & _). split; [|done]. simpl.
  apply (inv_set_task _ r f); [done..|]. by eapply flow_ok_quiet.
Qed.

Lemma good_open_stream e host port prefix e' x :
  ep_inv e0 e -> open_stream host port prefix e = Some (e', x) -> ep_inv e0 e' /\ x <> Panic.
Proof.
  intros He. unfold open_stream. destruct (negotiation e) as [| |w] eqn:Hn; [done| |]; intros [= H].
  - pose proof (good_prepare e host port prefix None He) as Hg. rewrite H in Hg. by apply Hg.
  - pose proof (good_prepare e host port prefix (Some w) He) as Hg. rewrite H in Hg. apply Hg.
    intros ? [= <-]. apply (inv_peer e He) in Hn. lia.
Qed.

Lemma good_step e ev p : ep_inv e0 e -> ev_ok ev -> ep_step ev e = Some p -> good p.
Proof.
  intros He Hev. destruct ev as [host port prefix|r b|r ev|r ev|sid flags payload|payload|b| | |]; simpl.
  - destruct (client e); [|done]. simpl. destruct (open_stream host port prefix e) as [[e' x]|] eqn:Ho; [|done].
    simpl. intros [= <-]. apply good_open_stream in Ho as [? ?]; [|done]. split; [done|]. by destruct x.
  - by apply good_opening.
  - by apply good_connecting.
  - by apply good_bridge.
  - intros [= <-]. by apply good_dispatch.
  - intros [= <-]. by apply good_push.
  - destruct (writer_pop b e) as [[e' o]|] eqn:Hw; [|done]. simpl. intros [= <-].
    apply good_ok. by eapply inv_writer_pop.
  - intros [= <-]. by apply good_ok, inv_settle.
  - intros [= <-]. unfold run_start, mbind, st_bind, gets. destruct (client e); [by apply good_control|by apply good_ok].
  - intros [= <-]. by apply good_ok, inv_run_end.
Qed.
End Inv.

Lemma inv_init cl c : 1 <= mib (mux_window_mib c) <= 4 -> ep_inv (Endpoint_new cl c) (Endpoint_new cl c).
Proof.
  intros Hc. split; simpl; try done; try lia; try (by intros; set_solver);
    try (by intros o Ho; apply elem_of_nil in Ho).
Qed.

(** A step starts from the invariant relative to its own state. *)
Lemma inv_rebase e0 e : ep_inv e0 e -> ep_inv e e.
Proof.
  intros []. split; try done; try lia.
  intros r f' Hf _. exists f'. split; [done|apply keeps_refl].
Qed.

Lemma step_inv e e' : ep_inv e e -> step_to e e' -> ep_inv e e'.
Proof. intros He (ev & e1 & r & Hev & Hs & ->). apply inv_reclaim. by apply (good_step e e ev (e1, r)). Qed.

Lemma reachable_inv cl c e : 1 <= mib (mux_window_mib c) <= 4 -> reachable cl c e -> ep_inv e e.
Proof.
  intros Hc. apply (rtc_ind_r (fun e => ep_inv e e)); [by apply inv_init|].
  intros e1 e2 _ Hs IH. apply (inv_rebase e1). by apply step_inv.
Qed.

(** ** Properties *)

Definition buffered (fl : gmap Z Flow) : Z := map_fold (fun _ b acc => b + acc) 0 (recv_bytes <$> fl).

Lemma buffered_le fl : (forall r f, fl !! r = Some f -> f.(recv_bytes) <= f.(receive_limit)) ->
  buffered fl <= reserved fl.
Proof.
  induction fl as [|r f fl Hr IH] using map_ind; [done|]. intros H.
  rewrite reserved_insert by done. unfold buffered.
  rewrite fmap_insert, map_fold_insert_L by (intros; first [lia|by rewrite lookup_fmap, Hr]).
  pose proof (H r f (lookup_insert_eq _ _ _)). enough (buffered fl <= reserved fl) by (unfold buffered in *; lia).
  apply IH. intros r' f' Hl. apply (H r'). rewrite lookup_insert_ne; [done|]. intros ->. congruence.
Qed.

Lemma reserved_size fl w : (forall r f, fl !! r = Some f -> f.(receive_limit) = w) ->
  reserved fl = Z.of_nat (size fl) * w.
Proof.
  induction fl as [|r f fl Hr IH] using map_ind; [done|]. intros H.
  rewrite reserved_insert, map_size_insert_None by done. rewrite (H r f (lookup_insert_eq _ _ _)).
  rewrite IH; [lia|]. intros r' f' Hl. apply (H r'). rewrite lookup_insert_ne; [done|]. intros ->. congruence.
Qed.

(** A written record was queued and passed the filter. *)
Lemma writer_pop_Some b e e' rec :
  writer_pop b e = Some (e', Some (ORecord rec)) ->
  ORecord rec ∈ output e ++ control_q e /\ writer_filter e rec = true.
Proof.
  unfold writer_pop. intros Hw. destruct b.
  - destruct (control_q e) as [|[rec'|] q]; [done| |done].
    destruct (writer_filter e rec') eqn:?; [|done]. injection Hw as _ <-. split; [set_solver|done].
  - destruct (output e) as [|[rec'|] q]; [done| |done].
    destruct (writer_filter e rec') eqn:?; [|done]. injection Hw as _ <-. split; [set_solver|done].
Qed.

(** A server on which a stream was opened, connected, and then reset for a
    malformed credit record. *)
Definition demo_cfg : MuxClientConfig :=
  {| mux_window_mib := MuxWindow_default; max_pad := 64; cfg_decoy_max := 24; max_ws_binary := 262144;
     ws_ping_secs := 30; ws_ping_jitter_percent := 10; ws_binary_send_jitter_ms := 0; ws_jitter_min_ms := 0;
     ws_jitter_max_ms := 0; transport_v2 := true; pad_mode := Adaptive; dummy_interval_secs := 0 |}.
Definition demo_events : list Event :=
  [EvDispatch 0 MUX_FLAG_WIN (capability 1 1048576);
   EvDispatch 1 (Z.lor MUX_FLAG_OPEN OPEN_CREDIT) [1; 10; 0; 0; 1; 1; 187];
   EvConnect 1 Connected;
   EvDispatch 1 MUX_FLAG_WIN [0]].
Definition demo : Endpoint :=
  default (Endpoint_new false demo_cfg) (run_events demo_events (Endpoint_new false demo_cfg)).
Definition demo' : Endpoint := default demo (run_events [EvWrite true] demo).

Lemma demo_reachable : reachable false demo_cfg demo.
Proof.
  apply (run_events_steps demo_events); [|vm_compute; reflexivity].
  repeat (apply Forall_cons; split); try done; simpl; u8s_lit.
Qed.
Lemma demo_steps : rtc step_to demo demo'.
Proof. apply (run_events_steps [EvWrite true]); [by repeat constructor|vm_compute; reflexivity]. Qed.

(** C8: in every reachable state of an endpoint at most 256 streams exist, each with a
    live flow; the receive permits and the windows of the live flows add up to the
    64 MiB budget, received data buffered or being written never exceeds it, every flow
    stays within its own window and record count, and the output queues and their byte
    budget are never overdrawn. *)
Theorem endpoint_bounds cl c e :
  1 <= mib (mux_window_mib c) <= 4 -> reachable cl c e ->
  Z.of_nat (size e.(streams)) <= MAX_STREAMS /\
  (forall sid r, e.(streams) !! sid = Some r -> sid <> 0 /\ is_Some (e.(flows) !! r)) /\
  e.(receive_avail) + Z.of_nat (size e.(flows)) * window_of e = RECEIVE_BUDGET /\
  0 <= e.(receive_avail) /\
  buffered e.(flows) <= RECEIVE_BUDGET /\
  (forall r f, e.(flows) !! r = Some f ->
     len (concat f.(queue)) <= f.(recv_bytes) <= window_of e /\
     len f.(queue) <= MAX_QUEUED_RECORDS /\ 0 <= f.(send_available) <= f.(send_limit)) /\
  0 <= e.(output_avail) <= OUTPUT_BUDGET /\
  len e.(output) <= CHANNEL_SLOTS /\ len e.(control_q) <= CHANNEL_SLOTS.
Proof.
  intros Hc He%reachable_inv; [|done].
  assert (forall r f, flows e !! r = Some f ->
     len (concat f.(queue)) <= f.(recv_bytes) <= window_of e /\
     len f.(queue) <= MAX_QUEUED_RECORDS /\ 0 <= f.(send_available) <= f.(send_limit)) as Hfl.
  { intros r f Hf. destruct (inv_flows e He r f Hf) as (Hw & _ & [Hs Hl Hn Hq Hr Hcr]).
    assert (0 <= down_writing (tasks e !! r))
      by (destruct (tasks e !! r) as [[? [| |? ? [] ?]]|]; simpl; try lia; apply len_nonneg).
    split_and!; try done; lia. }
  pose proof (inv_budget e He) as Hb. pose proof (inv_avail e He) as Ha.
  split_and!; [exact (inv_size e He)| |by rewrite <- (reserved_size (flows e)); [|intros r f Hf; apply (inv_flows e He r f Hf)]
    |done| |done|exact (inv_output_avail e He)| |by apply (inv_slots e He)..].
  - intros sid r Hs. by destruct (inv_streams e He sid r Hs).
  - pose proof (buffered_le (flows e)) as Hbl. enough (buffered (flows e) <= reserved (flows e)) by lia.
    apply Hbl. intros r f Hf. destruct (Hfl r f Hf) as (? & _). destruct (inv_flows e He r f Hf) as (-> & _). lia.
  - pose proof (inv_output e He) as Ho. fold (permits (output e ++ control_q e)) in Ho.
    enough (0 <= permits (output e ++ control_q e)) by lia.
    pose proof (inv_permits e He) as Hp. revert Hp. generalize (output e ++ control_q e) as l.
    induction l as [|o l IH]; [done|]. intros Hp. simpl. pose proof (Hp o (list_elem_of_here _ _)).
    enough (0 <= permits l) by lia. apply IH. intros o' Ho'. apply Hp. by apply list_elem_of_further.
Qed.

Lemma endpoint_bounds_witness : buffered demo.(flows) <= RECEIVE_BUDGET.
Proof. apply (endpoint_bounds false demo_cfg demo); [simpl; lia|apply demo_reachable]. Defined.

(** C9: no step of an endpoint panics, whatever records the peer sends: the unchecked
    subtractions of the byte and credit counters never underflow. *)
Theorem endpoint_never_panics cl c e ev e' :
  1 <= mib (mux_window_mib c) <= 4 -> reachable cl c e -> ev_ok ev ->
  ep_step ev e <> Some (e', Panic).
Proof.
  intros Hc He%reachable_inv Hev; [|done]. intros Hs.
  by destruct (good_step e e ev _ He Hev Hs).
Qed.

Lemma endpoint_never_panics_witness :
  exists p, ep_step (EvDispatch 1 MUX_FLAG_DATA [1; 2]) demo = Some p /\ p <> (demo, Panic).
Proof.
  destruct (ep_step (EvDispatch 1 MUX_FLAG_DATA [1; 2]) demo) as [p|] eqn:Hs; [|vm_compute in Hs; discriminate].
  exists p. split; [done|]. intros ->.
  apply (endpoint_never_panics false demo_cfg demo (EvDispatch 1 MUX_FLAG_DATA [1; 2]) demo);
    [simpl; lia|apply demo_reachable|u8s_lit|done].
Defined.

(** C10: a reset is final: once the output of a flow was invalidated, the writer never
    writes anything but a RST for it, in any later state. *)
Theorem reset_is_final cl c e r f e' from_control e'' rec :
  1 <= mib (mux_window_mib c) <= 4 -> reachable cl c e ->
  e.(flows) !! r = Some f -> f.(output_valid) = false ->
  rtc step_to e e' ->
  writer_pop from_control e' = Some (e'', Some (ORecord rec)) -> rec.(r_flow) = Some r ->
  rec.(r_flags) = MUX_FLAG_RST.
Proof.
  intros Hc He%reachable_inv Hf Hv Hs; [|done].
  assert (r < next_ref e) as Hr by by destruct (inv_flows e He r f Hf) as (_ & ? & _).
  assert (forall g, flows e !! r = Some g -> output_valid g = false) as Hg by (intros g; rewrite Hf; congruence).
  clear f Hf Hv. induction Hs as [e|e e1 e' Hs _ IH].
  - intros Hw Hrec. pose proof (inv_records e He) as Hlive.
    destruct (writer_pop_Some _ _ _ _ Hw) as [Hin Hfi].
    destruct (Hlive _ r Hin Hrec) as [g Hfg]. unfold writer_filter in Hfi. case_decide; [done|].
    rewrite Hrec in Hfi. simpl in Hfi. rewrite Hfg in Hfi. by rewrite (Hg g Hfg) in Hfi.
  - pose proof (step_inv e e1 He Hs) as He1. apply IH.
    + by eapply inv_rebase.
    + pose proof (inv_next e1 He1). lia.
    + intros g Hfg. destruct (inv_keeps e1 He1 r g Hfg Hr) as (g0 & Hg0 & Hk).
      by apply (keeps_invalid _ _ Hk), Hg.
Qed.

Lemma reset_is_final_witness :
  exists rec e'', writer_pop true demo' = Some (e'', Some (ORecord rec)) /\ rec.(r_flow) = Some 1 /\
    rec.(r_flags) = MUX_FLAG_RST.
Proof.
  destruct (writer_pop true demo') as [[e'' [[rec|]|]]|] eqn:Hw; [|vm_compute in Hw; discriminate..].
  exists rec, e''. split; [done|].
  assert (r_flow rec = Some 1) as Hr by (vm_compute in Hw; injection Hw as _ <-; reflexivity).
  split; [done|].
  destruct (flows demo !! 1) as [f|] eqn:Hf; [|vm_compute in Hf; discriminate].
  eapply (reset_is_final false demo_cfg demo 1 f demo' true e'' rec); [simpl; lia|apply demo_reachable|done| |apply demo_steps|done|done].
  vm_compute in Hf. injection Hf as <-. reflexivity.
Defined.

(** stream ids may be reused, records may not: what the writer writes for a flow is
    addressed to the stream this flow has, or to an id no stream has any more. *)
Theorem writer_scope cl c e from_control e' rec r :
  1 <= mib (mux_window_mib c) <= 4 -> reachable cl c e -> e.(next_ref) <= 2 ^ 64 ->
  writer_pop from_control e = Some (e', Some (ORecord rec)) -> rec.(r_flow) = Some r ->
  e.(streams) !! rec.(r_sid) = Some r \/ e.(streams) !! rec.(r_sid) = None.
Proof.
  intros Hc He%reachable_inv Hn Hw Hrec; [|done].
  destruct (streams e !! r_sid rec) as [r'|] eqn:Hs; [left|by right].
  destruct (inv_streams e He _ _ Hs) as [[f' Hf'] _].
  destruct (writer_pop_Some _ _ _ _ Hw) as [Hin Hfi].
  destruct (inv_records e He _ r Hin Hrec) as [f Hf].
  assert (epoch f' = epoch f) as Heq.
  { unfold writer_filter, get_flow in Hfi. rewrite Hs, Hrec in Hfi. simpl in Hfi. rewrite Hf', Hf in Hfi. simpl in Hfi.
    case_decide; [by apply bool_decide_eq_true in Hfi|].
    apply andb_true_iff in Hfi as [_ Hfi]. by apply bool_decide_eq_true in Hfi. }
  destruct (inv_epochs e He) as [_ Hep]. rewrite (Hep _ _ Hf), (Hep _ _ Hf') in Heq.
  destruct (inv_flows e He _ _ Hf) as (_ & ? & _). destruct (inv_flows e He _ _ Hf') as (_ & ? & _).
  pose proof (inv_refs e He _ _ Hf). pose proof (inv_refs e He _ _ Hf').
  rewrite !Z.mod_small in Heq by lia. by rewrite Heq.
Qed.

Lemma writer_scope_witness :
  exists rec e'', writer_pop true demo' = Some (e'', Some (ORecord rec)) /\
    (demo'.(streams) !! rec.(r_sid) = Some 1 \/ demo'.(streams) !! rec.(r_sid) = None).
Proof.
  destruct (writer_pop true demo') as [[e'' [[rec|]|]]|] eqn:Hw; [|vm_compute in Hw; discriminate..].
  exists rec, e''. split; [done|].
  apply (writer_scope false demo_cfg demo' true e'' rec 1);
    [simpl; lia|unfold reachable; transitivity demo; [apply demo_reachable|apply demo_steps]|vm_compute; discriminate|done|].
  vm_compute in Hw. injection Hw as _ <-. reflexivity.
Defined.
