(* ===== verification/MuxCredit.v ===== *)
(** The credit protocol of [tcp_mux_flow.rs] between two honest ends, for one
    direction of one stream: the sender's [take_credit] and [add_credit], the
    receiver's [enqueue], [receive], [consumed] and [publish_credit] as the
    downlink loop of [bridge] calls them, and the records in flight between
    them. Every interleaving of the two ends and of the two pumps is a run. *)
From S2P Require Import Prelude MuxWire MuxFlow.

(** One direction of a stream: the sender's and the receiver's flow, DATA and
    WIN payloads in flight in order, and the state of the downlink loop. *)
Record Link := {
  snd_flow : Flow;
  rcv_flow : Flow;
  in_data : list bytes;
  in_wins : list bytes;
  down : DownState;
  pending_credit : Z;
}.

(** A negotiated stream as [allocate] creates it on both ends: the sender was
    told the window [w] that the receiver reserves. *)
Definition link_init (w : Z) : Link :=
  {| snd_flow := Flow_new 1 (Some w) w; rcv_flow := Flow_new 1 (Some w) w;
     in_data := []; in_wins := []; down := DnWait; pending_credit := 0 |}.

(** The downlink loop, one turn: the flow, the next state, the pending credit
    and the WIN payload it sends. *)
Definition down_step (f : Flow) (dn : DownState) (pending : Z)
    : option (result (Flow * DownState * Z * option bytes)) :=
  match dn with
  | DnWait =>
    match receive f with
    | (f', Data d) => Some (Ok (f', DnWrite d, pending, None))
    | (_, Finished) => Some (Ok (f, DnShut, pending, None))
    | (_, Waiting) => None
    end
  | DnWrite d => Some (
      f' ← consumed f (len d);
      if f.(negotiated) then Ok (f', DnSettle, pending + len d, None)
      else Ok (f', DnWait, pending, None))
  | DnSettle =>
    if decide (f.(receive_limit) / 8 <= pending \/ f.(queue) = [])
    then Some (Ok (f, DnPublish, pending, None))
    else Some (Ok (f, DnWait, pending, None))
  | DnPublish => Some (f' ← grant_credit f pending; Ok (f', DnAnnounce, pending, None))
  | DnAnnounce => Some (Ok (f, DnWait, 0, Some (to_be 4 pending)))
  | DnShut => Some (Ok (f, DnDone, pending, None))
  | DnDone => None
  end.

Inductive LinkEvent : Type :=
| LSend (chunk : bytes)   (* the uplink pump has [chunk] to send *)
| LDeliver                (* the first DATA record reaches the receiver *)
| LWin                    (* the first WIN record reaches the sender *)
| LDown.                  (* the downlink pump makes a turn *)

Definition set_link (l : Link) s r d w dn p : Link :=
  {| snd_flow := s; rcv_flow := r; in_data := d; in_wins := w; down := dn; pending_credit := p |}.

Definition link_step (ev : LinkEvent) (l : Link) : option (result Link) :=
  match ev with
  | LSend chunk =>
    if decide (chunk = []) then None
    else
      '(s, n) ← take_credit l.(snd_flow) (len chunk);
      Some (Ok (set_link l s l.(rcv_flow) (l.(in_data) ++ [take (Z.to_nat n) chunk]) l.(in_wins) l.(down) l.(pending_credit)))
  | LDeliver =>
    match l.(in_data) with
    | [] => None
    | p :: ds => Some (
        r ← flow_record l.(rcv_flow) MUX_FLAG_DATA p;
        Ok (set_link l l.(snd_flow) r ds l.(in_wins) l.(down) l.(pending_credit)))
    end
  | LWin =>
    match l.(in_wins) with
    | [] => None
    | w :: ws => Some (
        s ← flow_record l.(snd_flow) MUX_FLAG_WIN w;
        Ok (set_link l s l.(rcv_flow) l.(in_data) ws l.(down) l.(pending_credit)))
    end
  | LDown =>
    x ← down_step l.(rcv_flow) l.(down) l.(pending_credit);
    Some ('(r, dn, p, win) ← x;
          Ok (set_link l l.(snd_flow) r l.(in_data)
                (l.(in_wins) ++ match win with Some w => [w] | None => [] end) dn p))
  end.

Definition link_to (l l' : Link) : Prop := exists ev, link_step ev l = Some (Ok l').
(** The steps that do not send new data. *)
Definition drain_to (l l' : Link) : Prop :=
  exists ev, (forall c, ev <> LSend c) /\ link_step ev l = Some (Ok l').

(** ** Invariant *)

Definition sum_be (ws : list bytes) : Z := foldr (fun w acc => of_be w + acc) 0 ws.
Definition writing (dn : DownState) : Z := match dn with DnWrite d => len d | _ => 0 end.
(** Credit granted by the receiver whose WIN is not queued yet, and not granted yet. *)
Definition granted (dn : DownState) (p : Z) : Z := match dn with DnAnnounce => p | _ => 0 end.
Definition owed (dn : DownState) (p : Z) : Z := match dn with DnAnnounce => 0 | _ => p end.

Definition good_win (w : bytes) : Prop := len w = 4 /\ 0 < of_be w.

Record link_inv (w : Z) (l : Link) : Prop := {
  li_w : 0 < w <= 4194304;
  li_snd : l.(snd_flow).(negotiated) = true /\ l.(snd_flow).(send_limit) = w;
  li_rcv : l.(rcv_flow).(negotiated) = true /\ l.(rcv_flow).(receive_limit) = w /\
    l.(rcv_flow).(fin) = false /\ l.(rcv_flow).(cancelled) = false;
  li_data : Forall (fun p => p <> []) l.(in_data);
  li_queue : Forall (fun p => p <> []) l.(rcv_flow).(queue);
  li_wins : Forall good_win l.(in_wins);
  li_down : match l.(down) with
    | DnWait => 0 < l.(pending_credit) -> l.(rcv_flow).(queue) <> []
    | DnWrite d => d <> []
    | DnSettle | DnPublish | DnAnnounce => 0 < l.(pending_credit)
    | DnShut | DnDone => False
    end;
  li_avail : 0 <= l.(snd_flow).(send_available);
  li_pending : 0 <= l.(pending_credit);
  li_bytes : l.(rcv_flow).(recv_bytes) = len (concat l.(rcv_flow).(queue)) + writing l.(down);
  li_sum : l.(snd_flow).(send_available) + len (concat l.(in_data)) + l.(rcv_flow).(recv_bytes)
    + owed l.(down) l.(pending_credit) + granted l.(down) l.(pending_credit) + sum_be l.(in_wins) = w;
  li_credit : l.(rcv_flow).(credit) = l.(snd_flow).(send_available) + len (concat l.(in_data))
    + granted l.(down) l.(pending_credit) + sum_be l.(in_wins);
}.

Lemma sum_be_app a b : sum_be (a ++ b) = sum_be a + sum_be b.
Proof. induction a as [|w a IH]; simpl; [lia|]. unfold sum_be in *. simpl. lia. Qed.

Lemma sum_be_nonneg ws : Forall good_win ws -> 0 <= sum_be ws.
Proof. induction 1 as [|w ws [_ Hw] _ IH]; [done|]. simpl. unfold sum_be in *. simpl. lia. Qed.

Lemma link_inv_init w : 0 < w <= 4194304 -> link_inv w (link_init w).
Proof. intros Hw. split; simpl; try done; try (by repeat constructor); try (change (@len Z []) with 0); lia. Qed.

Lemma len_pos (p : bytes) : p <> [] -> 0 < len p.
Proof. destruct p; [done|]. rewrite len_cons. pose proof (len_nonneg p). lia. Qed.

Lemma len_take_le (p : bytes) n : 0 <= n <= len p -> len (take (Z.to_nat n) p) = n.
Proof. intros. unfold len in *. rewrite length_take. lia. Qed.

Section Steps.
Context (w : Z) (l : Link) (Hl : link_inv w l).

Lemma send_inv chunk x : link_step (LSend chunk) l = Some x -> exists l', x = Ok l' /\ link_inv w l'.
Proof using Hl.
  destruct Hl as [Hw Hsnd Hrcv Hdata Hqueue Hwins Hdown Havail Hpend Hbytes Hsum Hcredit].
  simpl. case_decide; [done|]. unfold take_credit. destruct Hsnd as [Hneg Hlim]. rewrite Hneg. simpl.
  case_decide; [|done]. simpl. intros [= <-]. eexists. split; [done|].
  pose proof (len_pos chunk ltac:(done)) as Hc.
  set (n := Z.min (len chunk) (send_available (snd_flow l))).
  assert (len (take (Z.to_nat n) chunk) = n) as Hn by (apply len_take_le; lia).
  split; simpl; try done; rewrite ?concat_app, ?len_app; simpl; rewrite ?app_nil_r, ?Hn; try lia.
  apply Forall_app; split; [done|]. constructor; [|done]. intros Ht. rewrite Ht in Hn. change (@len Z []) with 0 in Hn. lia.
Qed.

(** The only way a delivery is refused: the record count. *)
Lemma deliver_inv x : link_step LDeliver l = Some x ->
  (exists l', x = Ok l' /\ link_inv w l') \/
  (x = Err "mux receive window exceeded"%string /\ MAX_QUEUED_RECORDS <= len l.(rcv_flow).(queue)).
Proof using Hl.
  destruct Hl as [Hw Hsnd Hrcv Hdata Hqueue Hwins Hdown Havail Hpend Hbytes Hsum Hcredit]. simpl. destruct (in_data l) as [|p ds] eqn:Hd; [done|]. intros [= <-].
  apply Forall_cons in Hdata as [Hp Hds].
  pose proof (len_pos p Hp). rewrite concat_cons, len_app in *.
  destruct Hrcv as (Hneg & Hlim & Hfin & Hcan).
  assert (flow_record (rcv_flow l) MUX_FLAG_DATA p = enqueue (rcv_flow l) p false) as ->.
  { unfold flow_record. rewrite Hneg. done. }
  unfold enqueue, sat_add, USIZE_MAX, U64_MAX. rewrite Hfin, Hcan. simpl. rewrite decide_False by done.
  pose proof (len_nonneg (concat ds)). pose proof (sum_be_nonneg _ Hwins).
  assert (0 <= owed (down l) (pending_credit l) /\ 0 <= granted (down l) (pending_credit l))
    by (destruct (down l); simpl; lia).
  case_decide as Hc.
  - right. split; [done|]. destruct Hc as [Hc|[Hc|Hc]]; [lia|lia|done].
  - left. eexists. split; [done|].
    split; simpl; try done; rewrite ?concat_app, ?len_app; simpl; rewrite ?app_nil_r; try lia.
    + apply Forall_app; split; [done|]. by constructor.
    + destruct (down l); try done. intros Hpc. specialize (Hdown Hpc). by destruct (queue (rcv_flow l)).
Qed.

Lemma win_inv x : link_step LWin l = Some x -> exists l', x = Ok l' /\ link_inv w l'.
Proof using Hl.
  destruct Hl as [Hw Hsnd Hrcv Hdata Hqueue Hwins Hdown Havail Hpend Hbytes Hsum Hcredit]. simpl. destruct (in_wins l) as [|v ws] eqn:Hv; [done|]. intros [= <-].
  apply Forall_cons in Hwins as [[Hv4 Hpos] Hws]. destruct Hsnd as [Hneg Hlim].
  assert (flow_record (snd_flow l) MUX_FLAG_WIN v = add_credit (snd_flow l) v) as ->.
  { unfold flow_record. rewrite Hneg. done. }
  unfold sum_be in *. simpl in *.
  pose proof (sum_be_nonneg _ Hws) as Hnn. unfold sum_be in Hnn. pose proof (len_nonneg (concat (in_data l))).
  pose proof (len_nonneg (concat (queue (rcv_flow l)))).
  assert (0 <= owed (down l) (pending_credit l) /\ 0 <= granted (down l) (pending_credit l) /\ 0 <= writing (down l))
    by (destruct (down l); simpl; try lia; pose proof (len_nonneg d); lia).
  unfold add_credit. rewrite Hneg, Hlim. simpl. rewrite decide_False by lia.
  rewrite !decide_False by lia. eexists. split; [done|]. by split; simpl; try done; unfold sum_be; try lia.
Qed.

Lemma down_inv x : link_step LDown l = Some x -> exists l', x = Ok l' /\ link_inv w l'.
Proof using Hl.
  destruct Hl as [Hw Hsnd Hrcv Hdata Hqueue Hwins Hdown Havail Hpend Hbytes Hsum Hcredit]. destruct Hrcv as (Hneg & Hlim & Hfin & Hcan).
  pose proof (len_nonneg (concat (in_data l))). pose proof (sum_be_nonneg _ Hwins).
  simpl. unfold down_step. destruct (down l) as [|d| | | | |] eqn:Hdn; simpl in *; [| | | | |done|done].
  - unfold receive. destruct (queue (rcv_flow l)) as [|d q] eqn:Hq; [by rewrite Hfin|].
    apply Forall_cons in Hqueue as [Hd Hqs]. simpl. intros [= <-]. eexists. split; [done|].
    simpl in Hbytes. rewrite len_app in Hbytes.
    split; simpl; rewrite ?app_nil_r; try done; lia.
  - pose proof (len_nonneg (concat (queue (rcv_flow l)))). pose proof (len_pos d Hdown).
    unfold consumed. rewrite Hneg. rewrite decide_False by lia. unfold U32_MAX.
    rewrite decide_False by lia. simpl. intros [= <-]. eexists. split; [done|].
    split; simpl; rewrite ?app_nil_r; try done; lia.
  - case_decide as Hd; simpl; intros [= <-]; eexists; (split; [done|]);
      split; simpl; rewrite ?app_nil_r; try done; try lia. intros _ Hq. apply Hd. by right.
  - unfold grant_credit, U32_MAX. pose proof (len_nonneg (concat (queue (rcv_flow l)))).
    rewrite decide_True by lia. simpl. intros [= <-]. eexists. split; [done|].
    split; simpl; rewrite ?app_nil_r; try done; lia.
  - simpl. intros [= <-]. eexists. split; [done|]. pose proof (len_nonneg (concat (queue (rcv_flow l)))).
    assert (of_be (to_be 4 (pending_credit l)) = pending_credit l) as Hbe
      by (apply of_be_to_be_id; change (256 ^ Z.of_nat 4) with 4294967296; lia).
    split; simpl; rewrite ?sum_be_app; unfold sum_be; simpl; rewrite ?Hbe; try done; try lia;
      unfold sum_be in *; try lia.
    apply Forall_app; split; [done|]. constructor; [|done]. split; [by rewrite len_to_be|by rewrite Hbe].
Qed.
End Steps.

(** ** Runs *)

Lemma step_or_cap w l ev x : link_inv w l -> link_step ev l = Some x ->
  (exists l', x = Ok l' /\ link_inv w l') \/
  (ev = LDeliver /\ x = Err "mux receive window exceeded"%string /\ MAX_QUEUED_RECORDS <= len l.(rcv_flow).(queue)).
Proof.
  intros Hl Hs. destruct ev.
  - left. by eapply send_inv.
  - destruct (deliver_inv w l Hl x Hs) as [?|[? ?]]; [by left|by right].
  - left. by eapply win_inv.
  - left. by eapply down_inv.
Qed.

Lemma link_to_inv w l l' : link_inv w l -> link_to l l' -> link_inv w l'.
Proof.
  intros Hl [ev Hs]. destruct (step_or_cap w l ev _ Hl Hs) as [(l'' & [= <-] & ?)|(_ & ? & _)]; done.
Qed.

Lemma runs_inv w l : 0 < w <= 4194304 -> rtc link_to (link_init w) l -> link_inv w l.
Proof.
  intros Hw. apply (rtc_ind_r (link_inv w)); [by apply link_inv_init|].
  intros l1 l2 _ Hs Hi. by eapply link_to_inv.
Qed.

(** The work left before the link is quiet. *)
Definition down_weight (dn : DownState) : Z :=
  match dn with
  | DnWait | DnDone => 0
  | DnWrite _ => 6
  | DnSettle => 5
  | DnPublish => 4
  | DnAnnounce => 3
  | DnShut => 1
  end.
Definition measure (l : Link) : Z :=
  8 * len l.(in_data) + 7 * len l.(rcv_flow).(queue) + down_weight l.(down) + len l.(in_wins).

Lemma measure_nonneg l : 0 <= measure l.
Proof.
  unfold measure. pose proof (len_nonneg (in_data l)). pose proof (len_nonneg (queue (rcv_flow l))).
  pose proof (len_nonneg (in_wins l)). assert (0 <= down_weight (down l)) by (by destruct (down l)). lia.
Qed.

Lemma enqueue_queue f p fi f' : enqueue f p fi = Ok f' -> len f'.(queue) <= len f.(queue) + 1.
Proof.
  unfold enqueue. destruct (fin f || cancelled f); [done|]. case_decide; [intros [= <-]; simpl; lia|].
  case_decide; [done|]. intros [= <-]. simpl. rewrite len_app, len_1. lia.
Qed.

Lemma drain_measure w l l' : link_inv w l -> drain_to l l' -> measure l' + 1 <= measure l.
Proof.
  intros Hl ([chunk| | |] & Hns & Hs); [by exfalso; eapply Hns| | |]; simpl in Hs; unfold measure.
  - destruct (in_data l) as [|p ds] eqn:Hd; [done|]. injection Hs as Hs.
    apply bind_Ok in Hs as (r & Hr & [= <-]). simpl. rewrite len_cons.
    unfold flow_record in Hr. destruct (li_rcv _ _ Hl) as (Hneg & _). rewrite Hneg in Hr.
    simpl in Hr. apply enqueue_queue in Hr. lia.
  - destruct (in_wins l) as [|v ws] eqn:Hv; [done|]. injection Hs as Hs.
    apply bind_Ok in Hs as (s & _ & [= <-]). simpl. rewrite len_cons. lia.
  - destruct (li_rcv _ _ Hl) as (Hneg & Hlim & Hfin & _). unfold down_step in Hs.
    destruct (down l) as [|d| | | | |] eqn:Hdn; simpl in Hs; [| | | | | |done].
    + unfold receive in Hs. destruct (queue (rcv_flow l)) as [|d q] eqn:Hq; rewrite ?Hfin in Hs; [done|].
      injection Hs as <-. simpl. rewrite app_nil_r, len_cons. lia.
    + unfold consumed in Hs. rewrite Hneg in Hs. case_decide; [done|]. case_decide; [done|].
      injection Hs as <-. simpl. rewrite app_nil_r. lia.
    + case_decide; injection Hs as <-; simpl; rewrite app_nil_r; lia.
    + unfold grant_credit in Hs. case_decide; [|done]. injection Hs as <-. simpl. rewrite app_nil_r. lia.
    + injection Hs as <-. simpl. rewrite len_app, len_1. lia.
    + injection Hs as <-. simpl. rewrite app_nil_r. lia.
Qed.

Lemma drain_link l l' : drain_to l l' -> link_to l l'.
Proof. intros (ev & _ & Hs). by exists ev. Qed.

(** When the receiver and the credit path have nothing to do and no data is in
    flight, the sender has its whole window. *)
Lemma quiet_full w l :
  link_inv w l -> link_step LDown l = None -> in_wins l = [] -> in_data l = [] ->
  l.(snd_flow).(send_available) = w /\ l.(rcv_flow).(recv_bytes) = 0.
Proof.
  intros Hl Hd Hw Hdata. destruct Hl as [? ? Hrcv _ _ _ Hdown _ ? Hbytes Hsum _].
  destruct Hrcv as (Hneg & Hlim & Hfin & _). rewrite Hw, Hdata in Hsum. simpl in Hd. unfold down_step in Hd.
  destruct (down l) as [|d| | | | |]; simpl in *; try done; [|by case_decide].
  unfold receive in Hd. destruct (queue (rcv_flow l)) as [|d q]; [|done].
  simpl in Hbytes. change (@len Z []) with 0 in *. unfold sum_be in Hsum. simpl in Hsum.
  destruct (decide (0 < pending_credit l)) as [Hp|]; [by specialize (Hdown Hp)|]. lia.
Qed.

Lemma drain_exists w l : link_inv w l ->
  exists l', rtc drain_to l l' /\ link_inv w l' /\ link_step LDown l' = None /\ in_wins l' = [] /\ in_data l' = [].
Proof.
  remember (Z.to_nat (measure l)) as n eqn:Hn. revert l Hn.
  induction (lt_wf n) as [n _ IH]. intros l -> Hl.
  assert (forall ev l', (forall c, ev <> LSend c) -> link_step ev l = Some (Ok l') ->
    exists l'', rtc drain_to l l'' /\ link_inv w l'' /\ link_step LDown l'' = None /\ in_wins l'' = [] /\ in_data l'' = []) as Hgo.
  { intros ev l' Hns Hs. assert (drain_to l l') as Hd by by exists ev.
    pose proof (drain_measure _ _ _ Hl Hd). pose proof (measure_nonneg l').
    destruct (IH (Z.to_nat (measure l')) ltac:(lia) l' eq_refl) as (l'' & Hr & ?).
    { eapply link_to_inv, drain_link; done. }
    exists l''. split; [by eapply rtc_l|done]. }
  destruct (link_step LDown l) as [x|] eqn:Hdn.
  { destruct (down_inv w l Hl x Hdn) as (l' & -> & _). by apply (Hgo LDown l'). }
  destruct (link_step LWin l) as [x|] eqn:Hwn.
  { destruct (win_inv w l Hl x Hwn) as (l' & -> & _). by apply (Hgo LWin l'). }
  destruct (link_step LDeliver l) as [x|] eqn:Hdv.
  - destruct (deliver_inv w l Hl x Hdv) as [(l' & -> & _)|[_ Hcap]]; [by apply (Hgo LDeliver l')|].
    exfalso. destruct (li_rcv _ _ Hl) as (_ & _ & Hfin & _). pose proof (li_down _ _ Hl) as Hdown.
    simpl in Hdn. unfold down_step in Hdn. destruct (down l) as [|d| | | | |]; simpl in Hdn; try done; [|by case_decide].
    unfold receive in Hdn. destruct (queue (rcv_flow l)) as [|d q]; [|done].
    unfold MAX_QUEUED_RECORDS in Hcap. change (@len bytes []) with 0 in Hcap. lia.
  - exists l. split; [apply rtc_refl|]. split; [done|]. split; [done|]. simpl in Hwn, Hdv.
    split; [by destruct (in_wins l)|by destruct (in_data l)].
Qed.

(** ** Properties *)

(** C2: between honest ends the credit protocol is never violated: in every reachable
    state every byte of the window is accounted for (sendable, in flight, buffered or
    being written, owed, or on its way back), the receiver's allowance equals what the
    sender may still send, plus what is in flight, plus the credit already granted that
    is on its way to the sender (in a WIN, or about to be put in one), and no step is
    refused or panics, except that a receiver holding 8192 unread records refuses one
    more. *)
Theorem credit_conserved w l :
  0 < w <= 4194304 -> rtc link_to (link_init w) l ->
  l.(snd_flow).(send_available) + len (concat l.(in_data)) + l.(rcv_flow).(recv_bytes)
    + l.(pending_credit) + sum_be l.(in_wins) = w /\
  0 <= l.(snd_flow).(send_available) /\ l.(rcv_flow).(recv_bytes) <= w /\
  len (concat l.(in_data)) <= l.(rcv_flow).(credit) /\
  l.(rcv_flow).(credit) = l.(snd_flow).(send_available) + len (concat l.(in_data))
    + granted l.(down) l.(pending_credit) + sum_be l.(in_wins) /\
  (forall ev x, link_step ev l = Some x ->
     (exists l', x = Ok l') \/ (ev = LDeliver /\ MAX_QUEUED_RECORDS <= len l.(rcv_flow).(queue))).
Proof.
  intros Hw Hr. pose proof (runs_inv w l Hw Hr) as Hl. pose proof Hl as Hl'.
  destruct Hl as [? ? _ _ _ Hwins _ ? ? Hbytes Hsum Hcredit].
  pose proof (sum_be_nonneg _ Hwins). pose proof (len_nonneg (concat (in_data l))).
  assert (owed (down l) (pending_credit l) + granted (down l) (pending_credit l) = pending_credit l
    /\ 0 <= granted (down l) (pending_credit l)) as [Hp Hg] by (destruct (down l); simpl; lia).
  split_and!; try lia. intros ev x Hs.
  destruct (step_or_cap w l ev x Hl' Hs) as [(l' & -> & _)|(-> & _ & ?)]; [left; by eexists|by right].
Qed.

Lemma credit_conserved_witness :
  exists l, rtc link_to (link_init 8) l /\ l.(snd_flow).(send_available) = 5 /\ l.(rcv_flow).(recv_bytes) = 3.
Proof.
  destruct (link_step (LSend [1; 2; 3]) (link_init 8)) as [[l1| |]|] eqn:H1; [|vm_compute in H1; discriminate..].
  destruct (link_step LDeliver l1) as [[l2| |]|] eqn:H2;
    [|vm_compute in H1; injection H1 as <-; vm_compute in H2; discriminate..].
  exists l2. assert (rtc link_to (link_init 8) l2) as Hr.
  { eapply rtc_l; [by eexists|]. eapply rtc_l; [by eexists|]. apply rtc_refl. }
  split; [done|]. pose proof (credit_conserved 8 l2 ltac:(lia) Hr) as (Hc & _).
  vm_compute in H1. injection H1 as <-. vm_compute in H2. injection H2 as <-. split; reflexivity.
Defined.

(** C7: the protocol cannot deadlock: from every reachable state the ends can deliver,
    write and return everything, after which the sender has its whole window again; and
    without new data only finitely many steps, at most [measure], are left. *)
Theorem credit_returns w l :
  0 < w <= 4194304 -> rtc link_to (link_init w) l ->
  (exists l', rtc drain_to l l' /\ l'.(snd_flow).(send_available) = w /\
     l'.(rcv_flow).(recv_bytes) = 0 /\ l'.(in_data) = [] /\ l'.(in_wins) = []) /\
  (forall n l', nsteps drain_to n l l' -> Z.of_nat n <= measure l).
Proof.
  intros Hw Hr%runs_inv; [|done]. split.
  - destruct (drain_exists w l Hr) as (l' & Hd & Hl' & Hdn & Hwn & Hda).
    destruct (quiet_full w l' Hl' Hdn Hwn Hda). by exists l'.
  - intros n l' Hn. revert Hr. induction Hn as [l|n l l1 l' Hs _ IH]; intros Hl.
    + pose proof (measure_nonneg l). lia.
    + pose proof (drain_measure _ _ _ Hl Hs). pose proof (link_to_inv _ _ _ Hl (drain_link _ _ Hs)) as Hl1.
      specialize (IH Hl1). lia.
Qed.

Lemma credit_returns_witness :
  exists l', rtc drain_to (link_init 1048576) l' /\ l'.(snd_flow).(send_available) = 1048576.
Proof.
  destruct (credit_returns 1048576 (link_init 1048576) ltac:(lia) (rtc_refl _ _)) as [(l' & Hd & Ha & _) _].
  by exists l'.
Defined.

(** ** The bridge makes the turns of this protocol *)

Lemma upd_flow_id r f e : e.(flows) !! r = Some f -> upd_flow r f e = e.
Proof. intros H. unfold upd_flow, set_flows, set_tables. rewrite insert_id by done. by destruct e. Qed.

(** The receiving half of the bridge task performs exactly the turns of the protocol:
    same flow, same state, same pending credit, and the same WIN record queued; a WIN
    that cannot be queued cancels the stream. *)
Lemma bridge_down_refines e r sid f prefix up dn pending :
  e.(flows) !! r = Some f ->
  bridge_down r sid f prefix up dn pending true e =
    match down_step f dn pending with
    | None => None
    | Some (Ok (f', dn', p', None)) => Some (bridge_settle r sid f prefix up dn' p' (upd_flow r f' e), Ok tt)
    | Some (Ok (f', dn', p', Some w)) =>
      match control sid MUX_FLAG_WIN w (Some r) e with
      | (e', Ok _) => Some (bridge_settle r sid f prefix up dn' p' e', Ok tt)
      | (e', _) => Some (bridge_end r sid f.(epoch) false (upd_flow r (cancel false f) e'), Ok tt)
      end
    | Some (Err _) => Some (bridge_end r sid f.(epoch) false e, Ok tt)
    | Some Panic => Some (e, Panic)
    end.
Proof.
  intros Hf. unfold bridge_down, down_step. destruct dn as [|d| | | | |]; try done.
  - unfold receive. destruct (queue f) as [|d q]; [|done]. destruct (fin f); [|done]. by rewrite upd_flow_id.
  - unfold consumed. case_decide; [done|]. case_decide; [done|]. simpl. by destruct (negotiated f).
  - case_decide; by rewrite upd_flow_id.
  - unfold grant_credit. by case_decide.
  - by rewrite upd_flow_id.
Qed.

Lemma bridge_down_refines_witness :
  exists e f, e.(flows) !! 1 = Some f /\
  bridge_down 1 1 f [] UpRead DnPublish 5 true e
    = Some (bridge_end 1 1 f.(epoch) false e, Ok tt).
Proof.
  set (f := Flow_new 1 (Some 10) 4).
  set (c := {| mux_window_mib := MuxWindow_default; max_pad := 0; cfg_decoy_max := 0; max_ws_binary := 65536;
     ws_ping_secs := 0; ws_ping_jitter_percent := 0; ws_binary_send_jitter_ms := 0; ws_jitter_min_ms := 0;
     ws_jitter_max_ms := 0; transport_v2 := true; pad_mode := Frame.Random; dummy_interval_secs := 0 |}).
  set (e := set_flows (Endpoint_new true c) {[ 1 := f ]}).
  assert (flows e !! 1 = Some f) as Hf by reflexivity. exists e, f. split; [done|].
  rewrite (bridge_down_refines e 1 1 f [] UpRead DnPublish 5 Hf). reflexivity.
Defined.

(** ** The record cap *)

Lemma send_one w l : link_inv w l -> 0 < l.(snd_flow).(send_available) ->
  link_step (LSend [0]) l = Some (Ok (set_link l
    (set_available l.(snd_flow) (l.(snd_flow).(send_available) - 1)) l.(rcv_flow)
    (l.(in_data) ++ [[0]]) l.(in_wins) l.(down) l.(pending_credit))).
Proof.
  intros Hl Ha. destruct (li_snd _ _ Hl) as [Hneg _]. unfold link_step. rewrite decide_False by done.
  unfold take_credit. rewrite Hneg. cbn [negb]. rewrite decide_True by done.
  change (len [0]) with 1. replace (Z.min 1 (send_available (snd_flow l))) with 1 by lia. done.
Qed.

Lemma deliver_one w l p : link_inv w l -> l.(in_data) = [p] -> p <> [] ->
  link_step LDeliver l =
    Some (r ← enqueue l.(rcv_flow) p false;
          Ok (set_link l l.(snd_flow) r [] l.(in_wins) l.(down) l.(pending_credit))).
Proof.
  intros Hl Hd Hp. destruct (li_rcv _ _ Hl) as (Hneg & _). simpl. rewrite Hd.
  unfold flow_record. by rewrite Hneg.
Qed.

Lemma fill_queue w k : 8192 < w <= 4194304 -> Z.of_nat k <= 8192 ->
  exists l, rtc link_to (link_init w) l /\ len l.(rcv_flow).(queue) = Z.of_nat k /\
    l.(snd_flow).(send_available) = w - Z.of_nat k /\ l.(in_data) = [].
Proof.
  intros Hw. induction k as [|k IH]; intros Hk.
  { exists (link_init w). split; [apply rtc_refl|].
    change (send_available (snd_flow (link_init w))) with w. split_and!; [done|lia|done]. }
  destruct IH as (l & Hr & Hq & Ha & Hd); [lia|]. pose proof (runs_inv w l ltac:(lia) Hr) as Hl.
  pose proof (send_one w l Hl ltac:(lia)) as Hs. rewrite Hd in Hs. simpl app in Hs.
  set (l1 := set_link _ _ _ _ _ _ _) in Hs.
  assert (link_inv w l1) as Hl1 by (eapply link_to_inv; [exact Hl|by eexists]).
  pose proof (deliver_one w l1 [0] Hl1 eq_refl ltac:(done)) as Hdv.
  destruct (enqueue (rcv_flow l1) [0] false) as [r|m|] eqn:He.
  - eexists. split; [eapply rtc_r; [eapply rtc_r; [exact Hr|by eexists]|eexists; exact Hdv]|].
    simpl. split_and!; [|lia|done].
    unfold enqueue in He. destruct (li_rcv _ _ Hl1) as (_ & _ & Hfin & Hcan). rewrite Hfin, Hcan in He.
    cbn [orb] in He. rewrite decide_False in He by done. case_decide; [done|]. injection He as <-.
    simpl. simpl in Hq. rewrite len_app, len_1. lia.
  - destruct (deliver_inv w l1 Hl1 _ Hdv) as [(? & ? & _)|[_ Hcap]]; [done|].
    unfold MAX_QUEUED_RECORDS in Hcap. simpl in Hcap. lia.
  - destruct (deliver_inv w l1 Hl1 _ Hdv) as [(? & ? & _)|[? _]]; done.
Qed.

(** credit is counted in bytes but the receive queue also in records: a sender that
    stays within its credit is refused, and its stream reset, once 8192 one-byte records
    wait for a slow reader. *)
Theorem small_records_are_refused w :
  8192 < w <= 4194304 ->
  exists l l', rtc link_to (link_init w) l /\ 0 < l.(snd_flow).(send_available) /\
    link_step (LSend [0]) l = Some (Ok l') /\
    link_step LDeliver l' = Some (Err "mux receive window exceeded"%string).
Proof.
  intros Hw. destruct (fill_queue w (Z.to_nat 8192) Hw ltac:(lia)) as (l & Hr & Hq & Ha & Hd).
  rewrite Z2Nat.id in Hq, Ha by lia.
  pose proof (runs_inv w l ltac:(lia) Hr) as Hl. pose proof (send_one w l Hl ltac:(lia)) as Hs.
  rewrite Hd in Hs. simpl app in Hs. set (l1 := set_link _ _ _ _ _ _ _) in Hs.
  assert (link_inv w l1) as Hl1 by (eapply link_to_inv; [exact Hl|by eexists]).
  exists l, l1. split_and!; [done|lia|done|].
  rewrite (deliver_one w l1 [0] Hl1 eq_refl ltac:(done)).
  destruct (li_rcv _ _ Hl1) as (_ & _ & Hfin & Hcan). unfold enqueue. rewrite Hfin, Hcan.
  cbn [orb]. rewrite decide_False by done. rewrite decide_True; [done|]. right. right.
  simpl. rewrite Hq. done.
Qed.

Lemma small_records_are_refused_witness :
  exists l, rtc link_to (link_init 1048576) l /\ 0 < l.(snd_flow).(send_available).
Proof.
  destruct (small_records_are_refused 1048576 ltac:(lia)) as (l & l' & Hr & Ha & _). by exists l.
Defined.
