(* ===== verification/Stream.v ===== *)
(** A byte connection as the handshakes use it ([AsyncReadExt], [AsyncWriteExt],
    [BufReader]): the bytes the peer will send until it closes, as the chunks in
    which they arrive, and the writes that still succeed. *)
From S2P Require Import Prelude Text.

Record Conn := {
  buf : bytes;              (* read but not consumed *)
  src : list bytes;         (* chunks to come *)
  sent : bytes;             (* written by this side *)
  writes_left : nat;        (* writes that succeed before the peer is gone *)
}.

(** Everything still to be consumed. *)
Definition input (c : Conn) : bytes := c.(buf) ++ concat c.(src).

Abbreviation io := (ST Conn err).

Definition set_input (b : bytes) (s : list bytes) (c : Conn) : Conn :=
  {| buf := b; src := s; sent := c.(sent); writes_left := c.(writes_left) |}.

(** [read_exact] fails at the end of the input. *)
Definition read_exact (n : Z) (ctx : err) : io bytes := fun c =>
  if decide (0 <= n <= len (input c))
  then (set_input [] [drop (Z.to_nat n) (input c)] c, Ok (take (Z.to_nat n) (input c)))
  else (set_input [] [] c, Err ctx).

Definition write_all (b : bytes) (ctx : err) : io unit := fun c =>
  match c.(writes_left) with
  | O => (c, Err ctx)
  | S k => ({| buf := c.(buf); src := c.(src); sent := c.(sent) ++ b; writes_left := k |}, Ok tt)
  end.

(** [let _ = ...]: the result is ignored. *)
Definition ignore {A} (m : io A) : io unit := fun c => let '(c, _) := m c in (c, Ok tt).

Definition fail {A} (e : err) : io A := throw e.

(** One byte of a fixed-size read. *)
Definition byte_at (b : bytes) (i : nat) : Z := default 0 (b !! i).

(** ** [BufReader] *)

(** [fill_buf]: when the buffer is empty, the next chunk; empty at the end. *)
Fixpoint fill (b : bytes) (s : list bytes) : bytes * list bytes :=
  match b, s with
  | [], ch :: s => fill ch s
  | _, _ => (b, s)
  end.

(** [take(cap).read_until]: the bytes up to and with the first newline, at most
    [cap] of them; fuel: each turn consumes a byte. *)
Fixpoint read_until (fuel : nat) (b : bytes) (s : list bytes) : bytes * bytes * list bytes :=
  match fuel with
  | O => ([], b, s)
  | S fuel =>
    match fill b s with
    | ([], s) => ([], [], s)
    | (x :: b, s) =>
      if x =? 10 then ([x], b, s)
      else let '(line, b, s) := read_until fuel b s in (x :: line, b, s)
    end
  end.

(** [take(cap).read_line]: the line, or an error when it is not UTF-8. *)
Definition read_line (cap : Z) (ctx : err) : io str := fun c =>
  let '(line, b, s) := read_until (Z.to_nat cap) c.(buf) c.(src) in
  let c := set_input b s c in
  if utf8_valid line then (c, Ok line) else (c, Err ctx).

(** ** Lemmas *)

Lemma fill_input b s : let '(b', s') := fill b s in b' ++ concat s' = b ++ concat s.
Proof. revert b. induction s as [|ch s IH]; intros [|x b]; simpl; try done. apply IH. Qed.

Lemma fill_nil b s s' : fill b s = ([], s') -> b ++ concat s = [] /\ s' = [].
Proof.
  revert b. induction s as [|ch s IH]; intros [|x b]; simpl; try done; [by intros [= <-]|].
  intros H. by apply IH in H.
Qed.

Lemma read_until_input fuel b s line b' s' :
  read_until fuel b s = (line, b', s') -> line ++ b' ++ concat s' = b ++ concat s /\ (length line <= fuel)%nat.
Proof.
  revert b s line b' s'. induction fuel as [|fuel IH]; intros b s line b' s'; simpl.
  - intros [= <- <- <-]. split; [done|simpl; lia].
  - pose proof (fill_input b s) as Hf. destruct (fill b s) as [[|x b1] s1] eqn:Hfill.
    + intros [= <- <- <-]. split; [done|simpl; lia].
    + destruct (x =? 10); [intros [= <- <- <-]; split; [by rewrite <- Hf|simpl; lia]|].
      destruct (read_until fuel b1 s1) as [[l2 b2] s2] eqn:Hr. intros [= <- <- <-].
      apply IH in Hr as [Hr Hl]. split; [rewrite <- Hf; simpl; by rewrite <- Hr|simpl; lia].
Qed.

(** A short read stops at a newline or at the end of the input. *)
Lemma read_until_line fuel b s line b' s' :
  read_until fuel b s = (line, b', s') -> (length line < fuel)%nat ->
  (exists l, line = l ++ [10]) \/ b' ++ concat s' = [].
Proof.
  revert b s line b' s'. induction fuel as [|fuel IH]; intros b s line b' s'; simpl; [lia|].
  destruct (fill b s) as [[|x b1] s1] eqn:Hfill.
  - intros [= <- <- <-] _. apply fill_nil in Hfill as [_ ->]. by right.
  - destruct (x =? 10) eqn:Hx.
    + intros [= <- <- <-] _. left. exists []. by apply Z.eqb_eq in Hx as ->.
    + destruct (read_until fuel b1 s1) as [[l2 b2] s2] eqn:Hr. intros [= <- <- <-] Hl. simpl in Hl.
      apply IH in Hr as [[l ->]|Hr]; [left; by exists (x :: l)|by right|lia].
Qed.

Lemma read_exact_Ok n ctx c c' b :
  read_exact n ctx c = (c', Ok b) ->
  input c = b ++ input c' /\ len b = n /\ c'.(sent) = c.(sent) /\ c'.(writes_left) = c.(writes_left).
Proof.
  unfold read_exact. case_decide as Hd; [|done]. intros [= <- <-].
  change (input (set_input [] [drop (Z.to_nat n) (input c)] c)) with (drop (Z.to_nat n) (input c) ++ []).
  rewrite app_nil_r, take_drop. split_and!; try done. unfold len in *. rewrite length_take. lia.
Qed.

Lemma read_exact_app n ctx c b r :
  input c = b ++ r -> len b = n ->
  read_exact n ctx c = (set_input [] [r] c, Ok b).
Proof.
  intros Hi Hn. unfold read_exact. pose proof (len_nonneg b). pose proof (len_nonneg r).
  rewrite Hi, len_app. rewrite decide_True by lia. rewrite take_app_length', drop_app_length'; [done|..];
    unfold len in *; lia.
Qed.

Lemma input_set b s c : input (set_input b s c) = b ++ concat s.
Proof. done. Qed.

Lemma write_all_Ok b ctx c c' x :
  write_all b ctx c = (c', Ok x) -> input c' = input c /\ c'.(sent) = c.(sent) ++ b.
Proof. unfold write_all. destruct (writes_left c); [done|]. by intros [= <- <-]. Qed.
