(* ===== verification/Socks5.v ===== *)
(** [socks5.rs]: the SOCKS5 server handshake on the local proxy port: method
    negotiation, RFC 1929 authentication, the request and the replies. *)
From S2P Require Import Prelude Text Net Protocol Crypto Stream.

Definition SOCKS5_AUTH_NONE : Z := 0.
Definition SOCKS5_AUTH_USERPASS : Z := 2.

Definition socks5_negotiate_method (require_userpass : bool) : io unit :=
  b ← read_exact 2 "socks version";
  if decide (byte_at b 0 <> 5) then fail "unsupported socks version" else
  let nmethods := byte_at b 1 in
  if decide (nmethods = 0) then fail "socks nmethods=0" else
  methods ← read_exact nmethods "methods";
  method ← (if require_userpass then
              if decide (SOCKS5_AUTH_USERPASS ∉ methods) then
                _ ← ignore (write_all [5; 255] "");
                fail "socks client did not offer username/password (method 2)"
              else mret SOCKS5_AUTH_USERPASS
            else if decide (SOCKS5_AUTH_NONE ∈ methods) then mret SOCKS5_AUTH_NONE
            else
              _ ← ignore (write_all [5; 255] "");
              fail "socks client did not offer no-auth (method 0)");
  write_all [5; method] "socks method reply".

Definition socks5_userpass_ok (uname passwd expected_user expected_pass : bytes) : bool :=
  let user_ok := secret_eq uname expected_user in
  let pass_ok := secret_eq passwd expected_pass in
  user_ok && pass_ok.

Definition socks5_userpass_verify (expected_user expected_pass : str) : io unit :=
  ver ← read_exact 1 "rfc1929 ver";
  if decide (byte_at ver 0 <> 1) then fail "RFC1929 version (expected 1)" else
  ulen ← read_exact 1 "ulen";
  uname ← read_exact (byte_at ulen 0) "uname";
  plen ← read_exact 1 "plen";
  passwd ← read_exact (byte_at plen 0) "passwd";
  if socks5_userpass_ok uname passwd expected_user expected_pass
  then write_all [1; 0] "rfc1929 ok"
  else
    _ ← ignore (write_all [1; 1] "");
    fail "SOCKS5 username/password rejected".

Inductive SocksCommand : Set :=
| SConnect (host : str) (port : Z)
| SUdpAssociate (host : str) (port : Z).

(** The address of a request, by its type. *)
Definition socks5_read_host (atyp : Z) : io str :=
  if decide (atyp = 1) then
    a ← read_exact 4 "eof"; mret (show_ip (V4 (of_be a)))
  else if decide (atyp = 3) then
    l ← read_exact 1 "eof";
    let n := byte_at l 0 in
    if decide (n = 0) then fail "empty domain name in SOCKS5 request" else
    domain ← read_exact n "eof";
    lift (from_utf8 domain)
  else if decide (atyp = 4) then
    a ← read_exact 16 "eof"; mret (show_ip (V6 (of_be a)))
  else fail "unsupported ATYP".

Definition socks5_read_connect_request : io SocksCommand :=
  hdr ← read_exact 4 "request hdr";
  if decide (byte_at hdr 0 <> 5) then fail "bad SOCKS version in request (expected 5)" else
  let cmd := byte_at hdr 1 in
  if decide (byte_at hdr 2 <> 0) then fail "non-zero RSV" else
  let atyp := byte_at hdr 3 in
  host ← socks5_read_host atyp;
  p ← read_exact 2 "eof";
  let port := of_be p in
  if decide (cmd = 1) then mret (SConnect host port)
  else if decide (cmd = 3) then mret (SUdpAssociate host port)
  else fail "unsupported SOCKS cmd".

(** The credentials in force: both strings non-empty. *)
Definition creds_of (auth : option (str * str)) : option (str * str) :=
  match auth with
  | Some (u, p) => if decide (u <> [] /\ p <> []) then Some (u, p) else None
  | None => None
  end.

Definition socks5_read_command (auth : option (str * str)) : io SocksCommand :=
  let creds := creds_of auth in
  _ ← socks5_negotiate_method (bool_decide (is_Some creds));
  _ ← (match creds with Some (u, p) => socks5_userpass_verify u p | None => mret tt end);
  socks5_read_connect_request.

Definition socks5_handshake : io (str * Z) :=
  c ← socks5_read_command None;
  match c with
  | SConnect host port => mret (host, port)
  | SUdpAssociate _ _ => fail "UDP ASSOCIATE requires socks5_read_command"
  end.

Definition socks5_reply_ok : io unit := write_all [5; 0; 0; 1; 0; 0; 0; 0; 0; 0] "socks reply".
Definition socks5_reply_err : io unit := ignore (write_all [5; 1; 0; 1; 0; 0; 0; 0; 0; 0] "").

(** [local_addr] is the address of this end of the control connection. *)
Definition socks5_reply_udp_associate (local_addr : option IpAddr) (relay_port : Z) : io unit :=
  addr ← lift (context "socks local_addr"%string local_addr);
  let sock_ip :=
    match addr with
    | V4 v4 => if decide (v4 = 0) then V4 2130706433 else V4 v4
    | V6 v6 => if decide (v6 = 0) then V4 2130706433 else V6 v6
    end in
  let reply := [5; 0; 0] ++
    match sock_ip with
    | V4 ip => [1] ++ octets4 ip
    | V6 ip => [4] ++ octets6 ip
    end ++ to_be 2 relay_port in
  write_all reply "socks udp associate reply".

(** ** Lemmas *)

Lemma len_inv_1 {A} (b : list A) : len b = 1 -> exists x, b = [x].
Proof. destruct b as [|x [|y b]]; rewrite ?len_cons; [done| |pose proof (len_nonneg b); lia]. by exists x. Qed.
Lemma len_inv_2 {A} (b : list A) : len b = 2 -> exists x y, b = [x; y].
Proof.
  destruct b as [|x b]; rewrite ?len_cons; [done|]. intros H.
  destruct (len_inv_1 b) as [y ->]; [lia|]. by exists x, y.
Qed.

(** What a successful step consumed, and what it wrote. *)
Lemma negotiate_Ok req c c' x :
  socks5_negotiate_method req c = (c', Ok x) ->
  exists methods, input c = [5; len methods] ++ methods ++ input c' /\
    (if req then SOCKS5_AUTH_USERPASS else SOCKS5_AUTH_NONE) ∈ methods /\
    c'.(sent) = c.(sent) ++ [5; if req then SOCKS5_AUTH_USERPASS else SOCKS5_AUTH_NONE].
Proof.
  unfold socks5_negotiate_method. intros (c1 & b & Hb & H)%st_bind_Ok.
  apply read_exact_Ok in Hb as (Hi & Hl & Hs & _). destruct (len_inv_2 b Hl) as (v & n & ->).
  unfold byte_at in H. simpl in H. case_decide as Hv; [done|]. case_decide; [done|].
  apply st_bind_Ok in H as (c2 & m & Hm & H). apply read_exact_Ok in Hm as (Hi2 & Hl2 & Hs2 & _).
  apply st_bind_Ok in H as (c3 & meth & Hmeth & H). apply write_all_Ok in H as [Hi3 Hs3].
  assert (v = 5) as -> by (by destruct (decide (v = 5))).
  exists m. rewrite Hi, Hi2, Hl2, Hs3. destruct req.
  - case_decide as Hin; [by apply st_bind_Ok in Hmeth as (? & ? & _ & ?)|]. injection Hmeth as <- <-.
    rewrite Hi3, Hs2, Hs. done.
  - case_decide as Hin; [|by apply st_bind_Ok in Hmeth as (? & ? & _ & ?)]. injection Hmeth as <- <-.
    rewrite Hi3, Hs2, Hs. done.
Qed.

Lemma verify_Ok u p c c' x :
  socks5_userpass_verify u p c = (c', Ok x) ->
  input c = [1; len u] ++ u ++ [len p] ++ p ++ input c' /\ c'.(sent) = c.(sent) ++ [1; 0].
Proof.
  unfold socks5_userpass_verify. intros (c1 & b & Hb & H)%st_bind_Ok.
  apply read_exact_Ok in Hb as (Hi & Hl & Hs & _). destruct (len_inv_1 b Hl) as (v & ->).
  unfold byte_at in H. simpl in H. case_decide as Hv; [done|].
  apply st_bind_Ok in H as (c2 & l & Hlu & H). apply read_exact_Ok in Hlu as (Hi2 & Hl2 & Hs2 & _).
  destruct (len_inv_1 l Hl2) as (ul & ->). simpl in H.
  apply st_bind_Ok in H as (c3 & un & Hun & H). apply read_exact_Ok in Hun as (Hi3 & Hl3 & Hs3 & _).
  apply st_bind_Ok in H as (c4 & l' & Hlp & H). apply read_exact_Ok in Hlp as (Hi4 & Hl4 & Hs4 & _).
  destruct (len_inv_1 l' Hl4) as (pl & ->). simpl in H.
  apply st_bind_Ok in H as (c5 & pw & Hpw & H). apply read_exact_Ok in Hpw as (Hi5 & Hl5 & Hs5 & _).
  destruct (socks5_userpass_ok un pw u p) eqn:Hok; [|by apply st_bind_Ok in H as (? & ? & _ & ?)].
  unfold socks5_userpass_ok in Hok. apply andb_true_iff in Hok as [->%secret_eq_true ->%secret_eq_true].
  apply write_all_Ok in H as [Hi6 Hs6].
  assert (v = 1) as -> by (by destruct (decide (v = 1))).
  rewrite Hi, Hi2, Hi3, Hi4, Hi5, Hl3, Hl5, Hi6, Hs6, Hs5, Hs4, Hs3, Hs2, Hs. done.
Qed.

(** The steps on a given input. *)
Lemma write_all_ok b ctx c k :
  c.(writes_left) = S k ->
  write_all b ctx c = ({| buf := c.(buf); src := c.(src); sent := c.(sent) ++ b; writes_left := k |}, Ok tt).
Proof. unfold write_all. by intros ->. Qed.

(** [ready c i s k]: the input [i] is to come, [s] was sent, [k] writes succeed. *)
Definition ready (c : Conn) (i s : bytes) (k : nat) : Prop :=
  input c = i /\ c.(sent) = s /\ c.(writes_left) = k.

Lemma step_read {A} n ctx (kont : bytes -> io A) c b r s k :
  ready c (b ++ r) s k -> len b = n ->
  exists c1, ready c1 r s k /\ (x ← read_exact n ctx; kont x) c = kont b c1.
Proof.
  intros (Hi & Hs & Hk) Hn. exists (set_input [] [r] c). split.
  - split_and!; [by rewrite input_set; simpl; rewrite app_nil_r|done|done].
  - unfold mbind, st_bind. by rewrite (read_exact_app n ctx c b r).
Qed.

Lemma step_write {A} b ctx (kont : unit -> io A) c i s k :
  ready c i s (S k) ->
  exists c1, ready c1 i (s ++ b) k /\ (x ← write_all b ctx; kont x) c = kont tt c1.
Proof.
  intros (Hi & Hs & Hk). unfold mbind, st_bind. rewrite (write_all_ok b ctx c k Hk). eexists.
  split; [|done]. split_and!; [done|by simpl; rewrite Hs|done].
Qed.

Ltac io_read Hr :=
  match goal with
  | |- context [@mbind _ _ _ _ ?k (read_exact ?n ?ctx) ?c] =>
    let c1 := fresh "c" in let E := fresh "E" in
    destruct (step_read n ctx k c _ _ _ _ Hr) as (c1 & Hr' & E);
    [try (done || lia)|rewrite E; clear E Hr; rename Hr' into Hr]
  end.
Ltac io_write Hr :=
  match goal with
  | |- context [@mbind _ _ _ _ ?k (write_all ?b ?ctx) ?c] =>
    let c1 := fresh "c" in let E := fresh "E" in
    destruct (step_write b ctx k c _ _ _ Hr) as (c1 & Hr' & E);
    rewrite E; clear E Hr; rename Hr' into Hr
  end.

Ltac bytes_at :=
  cbv beta zeta;
  repeat match goal with
  | |- context [byte_at (?x :: ?l) 0] => change (byte_at (x :: l) 0) with x
  | |- context [byte_at (?x :: ?y :: ?l) 1] => change (byte_at (x :: y :: l) 1) with y
  | |- context [byte_at (?x :: ?y :: ?z :: ?l) 2] => change (byte_at (x :: y :: z :: l) 2) with z
  | |- context [byte_at (?x :: ?y :: ?z :: ?w :: ?l) 3] => change (byte_at (x :: y :: z :: w :: l) 3) with w
  end.

Lemma last_write b ctx c i s k :
  ready c i s (S k) -> exists c', write_all b ctx c = (c', Ok tt) /\ ready c' i (s ++ b) k.
Proof.
  intros (Hi & Hs & Hk). rewrite (write_all_ok b ctx c k Hk). eexists. split; [done|].
  split_and!; [done|by simpl; rewrite Hs|done].
Qed.

Lemma negotiate_ok (req : bool) methods r c s k :
  methods <> [] -> (if req then SOCKS5_AUTH_USERPASS else SOCKS5_AUTH_NONE) ∈ methods ->
  ready c ([5; len methods] ++ methods ++ r) s (S k) ->
  exists c', socks5_negotiate_method req c = (c', Ok tt) /\
    ready c' r (s ++ [5; if req then SOCKS5_AUTH_USERPASS else SOCKS5_AUTH_NONE]) k.
Proof.
  intros Hm Hin Hr. unfold socks5_negotiate_method. pose proof (len_not_nil _ Hm) as Hl.
  io_read Hr. bytes_at.
  rewrite decide_False by (intros Hd; by apply Hd). rewrite decide_False by lia.
  io_read Hr. destruct req.
  - rewrite decide_False by naive_solver. by apply last_write.
  - rewrite decide_True by done. by apply last_write.
Qed.

Lemma verify_ok u p r c s k :
  ready c ([1; len u] ++ u ++ [len p] ++ p ++ r) s (S k) ->
  exists c', socks5_userpass_verify u p c = (c', Ok tt) /\ ready c' r (s ++ [1; 0]) k.
Proof.
  intros Hr. change ([1; len u] ++ u ++ [len p] ++ p ++ r) with ([1] ++ [len u] ++ u ++ [len p] ++ p ++ r) in Hr.
  unfold socks5_userpass_verify. io_read Hr. bytes_at. rewrite decide_False by (intros Hd; by apply Hd).
  do 4 (io_read Hr; bytes_at).
  assert (socks5_userpass_ok u p u p = true) as -> by
    (unfold socks5_userpass_ok; apply andb_true_iff; split; by apply secret_eq_true).
  by apply last_write.
Qed.

(** The address type of an encoded host, and the rest of its address field. *)
Definition atyp_of (h : str) : Z :=
  match parse_ipv4 h with Some _ => 1 | None => match parse_ipv6 h with Some _ => 4 | None => 3 end end.
Definition addr_rest (h : str) : bytes :=
  match parse_ipv4 h with
  | Some ip => octets4 ip
  | None => match parse_ipv6 h with Some ip => octets6 ip | None => [len h] ++ h end
  end.
Lemma addr_field_split h : addr_field h = [atyp_of h] ++ addr_rest h.
Proof. unfold addr_field, atyp_of, addr_rest. by destruct (parse_ipv4 h), (parse_ipv6 h). Qed.

Lemma host_ok h r c s k :
  is_str h -> (parse_ipv4 h = None -> parse_ipv6 h = None -> 1 <= len h <= 255) ->
  ready c (addr_rest h ++ r) s k ->
  exists c', socks5_read_host (atyp_of h) c = (c', Ok (canon_host h)) /\ ready c' r s k.
Proof.
  intros Hh Hl Hr. unfold socks5_read_host, atyp_of, addr_rest, canon_host in *.
  destruct (parse_ipv4 h) as [ip|] eqn:H4; [|destruct (parse_ipv6 h) as [ip|] eqn:H6].
  - apply parse_ipv4_show in H4 as [H4 Hip]. rewrite decide_True by done. io_read Hr. bytes_at.
    eexists. split; [|exact Hr]. unfold mret, st_ret, show_ip. by rewrite octets4_inv, H4.
  - apply parse_ipv6_bound in H6. do 2 (rewrite decide_False by done). rewrite decide_True by done.
    io_read Hr. bytes_at. eexists. split; [|exact Hr]. unfold mret, st_ret, show_ip. by rewrite octets6_inv.
  - specialize (Hl eq_refl eq_refl). rewrite decide_False by done. rewrite decide_True by done.
    rewrite <- app_assoc in Hr. io_read Hr. bytes_at. rewrite decide_False by lia. io_read Hr. bytes_at.
    eexists. split; [|exact Hr]. unfold lift. by rewrite from_utf8_is_str.
Qed.

Definition command (udp : bool) (h : str) (port : Z) : SocksCommand :=
  if udp then SUdpAssociate h port else SConnect h port.
Definition command_byte (udp : bool) : Z := if udp then 3 else 1.
(** The client's request. *)
Definition request (udp : bool) (h : str) (port : Z) : bytes :=
  [5; command_byte udp; 0; atyp_of h] ++ addr_rest h ++ to_be 2 port.

Lemma request_ok udp h port r c s k :
  is_str h -> is_u16 port -> (parse_ipv4 h = None -> parse_ipv6 h = None -> 1 <= len h <= 255) ->
  ready c (request udp h port ++ r) s k ->
  exists c', socks5_read_connect_request c = (c', Ok (command udp (canon_host h) port)) /\ ready c' r s k.
Proof.
  intros Hh Hp Hl Hr. unfold request in Hr. rewrite <- !app_assoc in Hr.
  unfold socks5_read_connect_request. io_read Hr. bytes_at.
  do 2 (rewrite decide_False by (intros Hd; by apply Hd)).
  destruct (host_ok h _ _ _ _ Hh Hl Hr) as (c1 & Hhost & Hr1).
  rewrite (st_bind_step _ _ _ _ _ Hhost). io_read Hr1. cbv beta zeta.
  rewrite of_be_to_be_id by exact Hp. eexists. split; [|exact Hr1]. by destruct udp.
Qed.

(** ** Properties *)

(** A client gets past the handshake of a proxy with credentials only by offering
    method 2 and sending exactly the configured user name and password. *)
Theorem socks_auth_sound u p c c' cmd :
  u <> [] -> p <> [] -> socks5_read_command (Some (u, p)) c = (c', Ok cmd) ->
  exists methods rest,
    input c = [5; len methods] ++ methods ++ [1; len u] ++ u ++ [len p] ++ p ++ rest /\
    SOCKS5_AUTH_USERPASS ∈ methods.
Proof.
  intros Hu Hp. unfold socks5_read_command, creds_of. rewrite decide_True by done.
  intros (c1 & x & Hn & H)%st_bind_Ok. apply negotiate_Ok in Hn as (m & Hi & Hm & _).
  apply st_bind_Ok in H as (c2 & y & Hv & _). apply verify_Ok in Hv as [Hi2 _].
  exists m, (input c2). rewrite Hi, Hi2. done.
Qed.

Lemma socks_auth_sound_witness :
  exists c c' cmd, socks5_read_command (Some ([117], [112])) c = (c', Ok cmd) /\
    exists methods rest,
      input c = [5; len methods] ++ methods ++ [1; 1] ++ [117] ++ [1] ++ [112] ++ rest /\ 2 ∈ methods.
Proof.
  set (c := {| buf := []; src := [[5; 1; 2; 1; 1; 117; 1; 112; 5; 1; 0; 1; 10; 0; 0; 1; 0; 80]];
               sent := []; writes_left := 2 |}).
  destruct (socks5_read_command (Some ([117], [112])) c) as [c' [cmd|m|]] eqn:H;
    [|vm_compute in H; discriminate..].
  exists c, c', cmd. split; [exact H|].
  apply (socks_auth_sound [117] [112] c c' cmd); [done|done|exact H].
Defined.

(** What the client sends before its request, and what it gets back. *)
Definition auth_bytes (creds : option (str * str)) : bytes :=
  match creds with Some (u, p) => [1; len u] ++ u ++ [len p] ++ p | None => [] end.
Definition auth_reply (creds : option (str * str)) : bytes :=
  match creds with
  | Some _ => [5; SOCKS5_AUTH_USERPASS; 1; 0]
  | None => [5; SOCKS5_AUTH_NONE]
  end.

(** a conforming client is served: whichever way its bytes arrive, after it offered the
    method and sent the credentials, its CONNECT or UDP ASSOCIATE for any encodable host
    yields that host (in canonical spelling) and port, and nothing beyond the request is
    consumed. *)
Theorem socks_client_served auth udp methods h port rest c k :
  methods <> [] ->
  (if creds_of auth then SOCKS5_AUTH_USERPASS else SOCKS5_AUTH_NONE) ∈ methods ->
  is_str h -> is_u16 port -> (parse_ipv4 h = None -> parse_ipv6 h = None -> 1 <= len h <= 255) ->
  input c = [5; len methods] ++ methods ++ auth_bytes (creds_of auth) ++ request udp h port ++ rest ->
  c.(writes_left) = S (S k) ->
  exists c', socks5_read_command auth c = (c', Ok (command udp (canon_host h) port)) /\
    input c' = rest /\ c'.(sent) = c.(sent) ++ auth_reply (creds_of auth).
Proof.
  intros Hm Hin Hh Hp Hl Hi Hk. unfold socks5_read_command.
  assert (ready c ([5; len methods] ++ methods ++ auth_bytes (creds_of auth) ++ request udp h port ++ rest)
    (sent c) (S (S k))) as Hr by done.
  destruct (creds_of auth) as [[u p]|]; cbn [auth_bytes auth_reply] in *.
  - destruct (negotiate_ok true methods _ c _ _ Hm Hin Hr) as (c1 & E1 & Hr1).
    assert (bool_decide (is_Some (Some (u, p))) = true) as -> by done.
    rewrite (st_bind_step _ _ _ _ _ E1). rewrite <- !app_assoc in Hr1.
    destruct (verify_ok u p _ c1 _ _ Hr1) as (c2 & E2 & Hr2). rewrite (st_bind_step _ _ _ _ _ E2).
    destruct (request_ok udp h port rest c2 _ _ Hh Hp Hl Hr2) as (c3 & E3 & (Hi3 & Hs3 & _)).
    exists c3. split; [done|]. split; [done|]. rewrite Hs3. by rewrite <- app_assoc.
  - destruct (negotiate_ok false methods _ c _ _ Hm Hin Hr) as (c1 & E1 & Hr1).
    assert (bool_decide (is_Some (@None (str * str))) = false) as -> by done.
    rewrite (st_bind_step _ _ _ _ _ E1).
    destruct (request_ok udp h port rest c1 _ _ Hh Hp Hl Hr1) as (c3 & E3 & (Hi3 & Hs3 & _)).
    exists c3. split; [exact E3|]. split; [done|]. by rewrite Hs3.
Qed.

Lemma socks_client_served_witness :
  exists c c', input c' = [9] /\
    socks5_read_command None c = (c', Ok (SConnect (bs "a.b") 80)).
Proof.
  set (c := {| buf := []; src := [[5; 1]; [0; 5; 1; 0; 3; 3] ++ bs "a.b" ++ [0; 80; 9]];
               sent := []; writes_left := 2 |}).
  destruct (socks_client_served None false [0] (bs "a.b") 80 [9] c 0) as (c' & H & Hi & _);
    [done|by apply list_elem_of_here|split; [apply bs_u8s|reflexivity]|done|intros _ _; vm_compute; split; discriminate|reflexivity|reflexivity|].
  by exists c, c'.
Defined.
