(* ===== verification/HttpConnect.v ===== *)
(** [http_connect.rs]: the HTTP proxy handshake on the local port (CONNECT and
    absolute-form requests), its bounded header reader and the authority parser. *)
From S2P Require Import Prelude Text Net Stream.

Definition LOCAL_HEALTH_PATH : str := bs "/bibavpn-health".
Definition MAX_HEADER_LINE_BYTES : Z := 8192.
Definition MAX_HEADER_BLOCK_BYTES : Z := 64 * 1024.

Inductive HttpProxyHandshake : Type :=
| HConnect (host : str) (port : Z) (client_prefetch : bytes)
| HForward (host : str) (port : Z) (to_origin : bytes).

(** [http::Uri], as the code queries it. *)
Record Uri := {
  scheme_str : option str;
  uri_host : option str;
  port_u16 : option Z;
  path_and_query : option str;
}.

Definition is_crlf (c : Z) : bool := (c =? 13) || (c =? 10).

(** The line and the number of bytes read. *)
Definition read_header_line (remaining : Z) : io (str * Z) :=
  if decide (remaining = 0) then fail "http headers too large" else
  let cap := Z.min remaining (MAX_HEADER_LINE_BYTES + 1) in
  line ← read_line cap "read header";
  if decide (MAX_HEADER_LINE_BYTES < len line) then fail "header line too long" else
  mret (line, len line).

(** The header lines up to the blank line, which is consumed and returned apart.
    Fuel: every turn consumes a byte of the 64 KiB budget. *)
Fixpoint header_lines (fuel : nat) (total : Z) : io (bytes * bytes) :=
  match fuel with
  | O => lift Panic
  | S fuel =>
    '(line, n) ← read_header_line (sat_sub MAX_HEADER_BLOCK_BYTES total);
    if decide (n = 0) then fail "unexpected eof in http headers" else
    if decide (line = crlf \/ line = [10]) then mret ([], line)
    else
      '(lines, blank) ← header_lines fuel (total + n);
      mret (line ++ lines, blank)
  end.
Definition HEADER_FUEL : nat := Z.to_nat (MAX_HEADER_BLOCK_BYTES + 2).

Definition read_header_block : io unit :=
  '(_, _) ← header_lines HEADER_FUEL 0; mret tt.
(** [read_header_lines_into]: the lines appended to [out]. *)
Definition read_header_lines_into (out : bytes) : io bytes :=
  '(lines, _) ← header_lines HEADER_FUEL 0; mret (out ++ lines).

Definition parse_authority (auth : str) : result (str * Z) :=
  let auth := trim auth in
  if decide (auth = []) then bail "empty authority" else
  if starts_with auth [91] then
    e ← context "invalid IPv6 authority"%string (find_char 93 auth);
    host ← slice auth 1 (Z.of_nat e);
    rest ← slice_from auth (Z.of_nat e + 1);
    port ← (if decide (rest = []) then Ok 443
            else
              match strip_prefix_char 58 rest with
              | Some p => context "IPv6 CONNECT port"%string (parse_uint U16_MAX p)
              | None => bail "IPv6 CONNECT: expected nothing or :port after ]"
              end);
    Ok (host, port)
  else
    match rsplit_once 58 auth with
    | Some (h, p) =>
      if bool_decide (h <> []) && forallb is_ascii_digit p then
        port ← context "CONNECT port"%string (parse_uint U16_MAX p);
        if contains_char 58 h then
          if decide (is_Some (parse_ipv6 h)) then Ok (h, port)
          else bail "ambiguous authority; use bracketed IPv6"
        else Ok (h, port)
      else Ok (auth, 443)
    | None => Ok (auth, 443)
    end.

(** [reader.buffer()], and the reader dropped with it. *)
Definition take_buffer : io bytes := fun c => (set_input [] c.(src) c, Ok c.(buf)).

(** The origin-form target of a forwarded request. *)
Definition forward_path (uri : Uri) : str :=
  match uri.(path_and_query) with
  | Some s => if decide (s = []) then bs "/" else s
  | None => bs "/"
  end.

Section Http.
(** [str::parse::<http::Uri>]. *)
Context (parse_uri : str -> option Uri).

Definition http_proxy_handshake : io HttpProxyHandshake :=
  '(line, n) ← read_header_line MAX_HEADER_BLOCK_BYTES;
  if decide (n = 0) then fail "empty request line" else
  let request_line := trim_end_matches is_crlf line in
  match split_whitespace request_line with
  | [] => fail "empty request line"
  | [_] => fail "missing request target"
  | [_; _] => fail "missing HTTP version"
  | _ :: _ :: _ :: _ :: _ => fail "bad request line"
  | [method; target; version] =>
    if eq_ignore_ascii_case method (bs "CONNECT") then
      _ ← read_header_block;
      prefetch ← take_buffer;
      '(h, p) ← lift (parse_authority target);
      mret (HConnect h p prefetch)
    else
      uri ← lift (context "invalid request URI"%string (parse_uri target));
      scheme ← lift (context "URI missing scheme"%string uri.(scheme_str));
      if negb (eq_ignore_ascii_case scheme (bs "http")) then fail "unsupported proxy URI scheme" else
      host ← lift (context "URI missing host"%string uri.(uri_host));
      let port := default 80 uri.(port_u16) in
      let path_query := forward_path uri in
      let new_first := method ++ bs " " ++ path_query ++ bs " " ++ version ++ crlf in
      to_origin ← read_header_lines_into new_first;
      rest ← take_buffer;
      mret (HForward host port (to_origin ++ crlf ++ rest))
  end.

End Http.

(** [peek]: what has arrived, at most [n] bytes, not consumed. *)
Definition peek (n : nat) : io bytes := fun c =>
  let '(b, s) := fill c.(buf) c.(src) in (set_input b s c, Ok (take n b)).

Definition health_reply : bytes :=
  bs "HTTP/1.1 200 OK" ++ crlf ++ bs "Content-Length: 2" ++ crlf ++ bs "Connection: close" ++ crlf ++ crlf ++ bs "ok".

Definition try_serve_health_check : io bool :=
  b ← peek 128;
  if decide (b = []) then mret false else
  let prefix := if utf8_valid b then b else [] in
  if negb (starts_with prefix (bs "GET /bibavpn-health ")) && negb (starts_with prefix (bs "GET /bibavpn-health" ++ [13]))
  then mret false
  else
    _ ← read_header_line MAX_HEADER_BLOCK_BYTES;
    _ ← read_header_block;
    _ ← take_buffer;
    _ ← write_all health_reply "health write";
    mret true.

Definition is_benign_handshake_abort (msg : str) : bool :=
  contains msg (bs "empty request line")
  || (contains msg (bs "early eof") && contains msg (bs "read request line")).

Definition reply_connect_ok : io unit :=
  write_all (bs "HTTP/1.1 200 Connection Established" ++ crlf ++ crlf) "write 200 established".
Definition reply_connect_error (status : Z) (reason : str) : io unit :=
  let body := bs "HTTP/1.1 " ++ show_dec status ++ bs " " ++ reason ++ crlf ++ bs "Content-Length: 0" ++ crlf
    ++ bs "Connection: close" ++ crlf ++ crlf in
  ignore (write_all body "").

(** ** Lemmas *)

Lemma read_line_Ok cap ctx c c' line :
  0 <= cap -> read_line cap ctx c = (c', Ok line) ->
  input c = line ++ input c' /\ len line <= cap /\ c'.(sent) = c.(sent).
Proof.
  intros Hc. unfold read_line. destruct (read_until _ _ _) as [[l b] s] eqn:Hr.
  destruct (utf8_valid l); [|done]. intros [= <- <-]. apply read_until_input in Hr as [Hi Hl].
  unfold input. cbn [buf src set_input]. split_and!; [done|unfold len; lia|done].
Qed.

Lemma read_header_line_Ok remaining c c' line n :
  0 <= remaining -> read_header_line remaining c = (c', Ok (line, n)) ->
  input c = line ++ input c' /\ n = len line /\ len line <= remaining /\ len line <= MAX_HEADER_LINE_BYTES.
Proof.
  intros Hr. unfold read_header_line. case_decide; [done|].
  intros (c1 & l & Hl & H')%st_bind_Ok. apply read_line_Ok in Hl as (Hi & Hlen & _); [|unfold MAX_HEADER_LINE_BYTES; lia].
  case_decide; [done|]. injection H' as <- <- <-. unfold MAX_HEADER_LINE_BYTES in *. split_and!; [done|done|lia|lia].
Qed.

Lemma header_lines_Ok fuel total c c' lines blank :
  0 <= total <= MAX_HEADER_BLOCK_BYTES -> header_lines fuel total c = (c', Ok (lines, blank)) ->
  input c = lines ++ blank ++ input c' /\ (blank = crlf \/ blank = [10]) /\
  total + len lines + len blank <= MAX_HEADER_BLOCK_BYTES.
Proof.
  revert total c c' lines blank. induction fuel as [|fuel IH]; intros total c c' lines blank Ht; [done|].
  cbn [header_lines]. intros (c1 & [line n] & Hl & H')%st_bind_Ok.
  apply read_header_line_Ok in Hl as (Hi & -> & Hrem & _); [|unfold sat_sub; lia].
  unfold sat_sub in Hrem. pose proof (len_nonneg line).
  case_decide; [done|]. case_decide as Hb.
  - injection H' as <- <- <-. split_and!; [done|done|rewrite len_nil; lia].
  - apply st_bind_Ok in H' as (c2 & [ls bl] & Hls & H'). injection H' as <- <- <-.
    apply IH in Hls as (Hi2 & Hbl & Hsum); [|lia]. rewrite Hi, Hi2, len_app.
    split_and!; [by rewrite <- app_assoc|done|lia].
Qed.

Lemma header_lines_fuel fuel total c :
  0 <= total <= MAX_HEADER_BLOCK_BYTES -> MAX_HEADER_BLOCK_BYTES - total < Z.of_nat fuel ->
  (header_lines fuel total c).2 <> Panic.
Proof.
  revert total c. induction fuel as [|fuel IH]; intros total c Ht Hf; [lia|]. cbn [header_lines].
  unfold mbind, st_bind at 1. destruct (read_header_line _ c) as [c1 [[line n]|e|]] eqn:Hl; [|done|].
  - apply read_header_line_Ok in Hl as (_ & -> & Hrem & _); [|unfold sat_sub; lia].
    unfold sat_sub in Hrem. pose proof (len_nonneg line).
    case_decide; [done|]. case_decide; [done|]. unfold st_bind.
    specialize (IH (total + len line) c1 ltac:(lia) ltac:(lia)).
    destruct (header_lines fuel (total + len line) c1) as [c2 [[ls bl]|e|]]; done.
  - unfold read_header_line in Hl. case_decide; [done|]. unfold mbind, st_bind, read_line in Hl.
    destruct (read_until _ _ _) as [[l b] s]. destruct (utf8_valid l); [|done]. by case_decide.
Qed.

Lemma header_fuel_enough : MAX_HEADER_BLOCK_BYTES - 0 < Z.of_nat HEADER_FUEL.
Proof. unfold HEADER_FUEL, MAX_HEADER_BLOCK_BYTES. lia. Qed.

Lemma take_buffer_Ok c c' b : take_buffer c = (c', Ok b) -> input c = b ++ input c'.
Proof. unfold take_buffer. by intros [= <- <-]. Qed.

Lemma parse_authority_safe auth : safe (parse_authority auth).
Proof.
  unfold parse_authority. generalize (trim auth) as a. intros a.
  case_decide; [done|]. destruct (starts_with a [91]) eqn:Hst; [|repeat safe_step].
  apply starts_with_inv in Hst as [r ->]. apply safe_bind; [apply safe_context|]. intros e He.
  destruct (find_char 93 ([91] ++ r)) as [e'|] eqn:Hf; [|done]. injection He as ->.
  apply find_char_Some in Hf as [Hlt Hat].
  assert (e <> 0%nat) by (intros ->; done).
  apply safe_bind; [apply safe_slice; unfold len; lia|]. intros host _.
  apply safe_bind; [apply safe_slice_from; unfold len; lia|]. intros rest _. repeat safe_step.
Qed.

Lemma st_bind_safe {S E A B} (m : ST S E A) (k : A -> ST S E B) s :
  (m s).2 <> Panic -> (forall s' a, m s = (s', Ok a) -> (k a s').2 <> Panic) -> ((m ≫= k) s).2 <> Panic.
Proof. unfold mbind, st_bind. destruct (m s) as [s' [a|e|]]; simpl; [|done..]. intros _ H. by apply H. Qed.

Lemma read_header_line_safe remaining c : (read_header_line remaining c).2 <> Panic.
Proof.
  unfold read_header_line. case_decide; [done|]. apply st_bind_safe.
  - unfold read_line. destruct (read_until _ _ _) as [[l b] s]. by destruct (utf8_valid l).
  - intros c' line _. by case_decide.
Qed.

Lemma header_lines_safe c : (header_lines HEADER_FUEL 0 c).2 <> Panic.
Proof. apply header_lines_fuel; [done|apply header_fuel_enough]. Qed.

Lemma digits_graphic s : Forall (fun c => is_ascii_digit c = true) s -> graphic s /\ Forall (fun c => c <> 58) s.
Proof.
  intros H. split; (eapply Forall_impl; [exact H|]); simpl; intros c [? ?]%in_rng_iff; lia.
Qed.

Lemma forallb_digits s : Forall (fun c => is_ascii_digit c = true) s -> forallb is_ascii_digit s = true.
Proof. intros H. apply forallb_forall. intros x Hx. rewrite Forall_forall in H. apply H. by apply list_elem_of_In. Qed.

Lemma show_dec_digits n : Forall (fun c => is_ascii_digit c = true) (show_dec n).
Proof. apply show_dec_fuel_digits. Qed.

Lemma parse_port p : is_u16 p -> parse_uint U16_MAX (show_dec p) = Some p.
Proof. intros. apply parse_show_dec; ranges; unfold U16_MAX; lia. Qed.

Lemma contains_char_false c s : Forall (fun x => x <> c) s -> contains_char c s = false.
Proof. unfold contains_char. induction 1; simpl; [done|]. rewrite (proj2 (Z.eqb_neq c x)) by congruence. done. Qed.

Lemma contains_char_true c s : c ∈ s -> contains_char c s = true.
Proof.
  unfold contains_char. intros H. apply existsb_exists. exists c.
  split; [by apply list_elem_of_In|apply Z.eqb_refl].
Qed.

Lemma rsplit_once_none c s : Forall (fun x => x <> c) s -> rsplit_once c s = None.
Proof.
  intros H. unfold rsplit_once. destruct (find_char c (rev s)) as [n|] eqn:Hf; [|done].
  apply find_char_Some in Hf as [_ Hf]. assert (Forall (fun x => x <> c) (rev s)) as Hr by (by apply Forall_rev).
  by apply (Forall_lookup_1 _ _ _ _ Hr) in Hf.
Qed.

(** An unbracketed authority with a port. *)
Lemma parse_authority_port host port :
  graphic host -> host <> [] -> starts_with host [91] = false -> is_u16 port ->
  parse_authority (host ++ [58] ++ show_dec port) =
  if contains_char 58 host then
    if decide (is_Some (parse_ipv6 host)) then Ok (host, port) else bail "ambiguous authority; use bracketed IPv6"
  else Ok (host, port).
Proof.
  intros Hh Hne Hst Hp. destruct (digits_graphic _ (show_dec_digits port)) as [Hg Hc].
  unfold parse_authority. rewrite trim_graphic.
  2: { apply Forall_app; split; [done|]. apply Forall_app; split; [|done]. constructor; [lia|done]. }
  rewrite decide_False by (by destruct host).
  assert (starts_with (host ++ [58] ++ show_dec port) [91] = false) as ->.
  { destruct host as [|c r]; [done|]. exact Hst. }
  simpl. rewrite (rsplit_once_app 58) by done. rewrite bool_decide_true by done.
  rewrite forallb_digits by apply show_dec_digits. simpl. rewrite parse_port by done. done.
Qed.

(** ** Properties *)

(** A proxy handshake neither loses nor adds a byte of the client's stream: what
    follows the request head is handed over (the prefetch of a CONNECT, the tail of a
    forwarded request) or still to be read; the header lines of a plain request reach
    the origin unchanged; and the head is bounded. *)
Theorem http_handshake_lossless parse_uri c c' r :
  http_proxy_handshake parse_uri c = (c', Ok r) ->
  exists line lines blank rest,
    input c = line ++ lines ++ blank ++ rest ++ input c' /\ (blank = crlf \/ blank = [10]) /\
    len line <= MAX_HEADER_LINE_BYTES /\ len lines + len blank <= MAX_HEADER_BLOCK_BYTES /\
    exists method target version,
      split_whitespace (trim_end_matches is_crlf line) = [method; target; version] /\
      match r with
      | HConnect h p prefetch =>
          prefetch = rest /\ parse_authority target = Ok (h, p) /\
          eq_ignore_ascii_case method (bs "CONNECT") = true
      | HForward h p to_origin =>
          exists uri, parse_uri target = Some uri /\ uri.(uri_host) = Some h /\
            p = default 80 uri.(port_u16) /\
            to_origin = (method ++ bs " " ++ forward_path uri ++ bs " " ++ version ++ crlf) ++ lines ++ crlf ++ rest
      end.
Proof.
  unfold http_proxy_handshake. intros (c1 & [line n] & Hl & H)%st_bind_Ok.
  apply read_header_line_Ok in Hl as (Hi & -> & _ & Hll); [|done].
  case_decide; [done|].
  destruct (split_whitespace (trim_end_matches is_crlf line)) as [|method [|target [|version [|? ?]]]] eqn:Hsp;
    [done..| |done].
  destruct (eq_ignore_ascii_case method (bs "CONNECT")) eqn:Hm.
  - apply st_bind_Ok in H as (c2 & hd & Hh & H). unfold read_header_block in Hh.
    apply st_bind_Ok in Hh as (c2' & [lines blank] & Hh & [= <- <-]).
    apply header_lines_Ok in Hh as (Hi2 & Hb & Hsum); [|done].
    apply st_bind_Ok in H as (c3 & pre & Hp & H). apply take_buffer_Ok in Hp.
    apply st_bind_Ok in H as (c4 & [h p] & Ha & [= <- <-]). injection Ha as <- Ha.
    exists line, lines, blank, pre. split; [by rewrite Hi, Hi2, Hp|]. split; [done|]. split; [done|]. split; [lia|].
    by exists method, target, version.
  - apply st_bind_Ok in H as (c2 & uri & Hu & H). injection Hu as <- Hu.
    destruct (parse_uri target) as [uri'|] eqn:Huri; [|done]. injection Hu as ->.
    apply st_bind_Ok in H as (c2 & sch & Hs & H). injection Hs as <- Hs.
    case_match; [done|].
    apply st_bind_Ok in H as (c2 & host & Hho & H). injection Hho as <- Hho.
    destruct (uri_host uri) as [host'|] eqn:Hhost; [|done]. injection Hho as ->.
    apply st_bind_Ok in H as (c3 & out & Hh & H). unfold read_header_lines_into in Hh.
    apply st_bind_Ok in Hh as (c3' & [lines blank] & Hh & Hout). injection Hout as <- <-.
    apply header_lines_Ok in Hh as (Hi2 & Hb & Hsum); [|done].
    apply st_bind_Ok in H as (c4 & rest & Hr & H). apply take_buffer_Ok in Hr. injection H as <- <-.
    exists line, lines, blank, rest. split; [by rewrite Hi, Hi2, Hr|]. split; [done|]. split; [done|]. split; [lia|].
    exists method, target, version. split; [done|]. exists uri. split_and!; try done.
    exact (eq_sym (app_assoc _ lines _)).
Qed.

Lemma http_handshake_lossless_witness :
  exists c c', http_proxy_handshake (fun _ => None) c = (c', Ok (HConnect (bs "h") 443 [7])) /\ input c' = [8].
Proof.
  set (c := {| buf := []; src := [bs "CONNECT h HTTP/1.1" ++ crlf ++ crlf ++ [7]; [8]]; sent := []; writes_left := 0 |}).
  destruct (http_proxy_handshake (fun _ => None) c) as [c' r] eqn:H.
  assert (r = Ok (HConnect (bs "h") 443 [7])) as -> by (vm_compute in H; injection H as _ <-; reflexivity).
  exists c, c'. split; [exact H|].
  destruct (http_handshake_lossless _ _ _ _ H) as (line & lines & blank & rest & Hi & _).
  vm_compute in H. injection H as <-. reflexivity.
Defined.

(** A proxy handshake always ends in a result: the header loop stops within its
    budget and no slice of the authority is out of range. *)
Theorem http_handshake_total parse_uri c :
  exists c', (exists r, http_proxy_handshake parse_uri c = (c', Ok r)) \/ exists e, http_proxy_handshake parse_uri c = (c', Err e).
Proof.
  assert ((http_proxy_handshake parse_uri c).2 <> Panic) as H.
  { unfold http_proxy_handshake. apply st_bind_safe; [apply read_header_line_safe|]. intros c1 [line n] _.
    case_decide; [done|]. repeat case_match; try done.
    - apply st_bind_safe.
      { unfold read_header_block. apply st_bind_safe; [apply header_lines_safe|]. by intros ? [? ?]. }
      intros c2 _ _. apply st_bind_safe; [done|]. intros c3 pre _.
      apply st_bind_safe; [apply parse_authority_safe|]. by intros ? [? ?].
    - apply st_bind_safe; [apply safe_context|]. intros c2 uri _.
      apply st_bind_safe; [apply safe_context|]. intros c3 scheme _. case_match; [done|].
      apply st_bind_safe; [apply safe_context|]. intros c4 host _. apply st_bind_safe.
      { unfold read_header_lines_into. apply st_bind_safe; [apply header_lines_safe|]. by intros ? [? ?]. }
      intros c5 out _. by apply st_bind_safe. }
  destruct (http_proxy_handshake parse_uri c) as [c' [r|e|]]; [exists c'; left; by exists r|exists c'; right; by exists e|done].
Qed.

(** the authority of a CONNECT request: [host:port] and [[host]:port] give back the
    host and the port, a missing port is 443, and an unbracketed host with colons
    is accepted exactly when it is an IPv6 address. *)
Theorem authority_forms host port :
  graphic host -> host <> [] -> is_u16 port ->
  (Forall (fun c => c <> 58) host -> starts_with host [91] = false ->
   parse_authority (host ++ [58] ++ show_dec port) = Ok (host, port) /\ parse_authority host = Ok (host, 443)) /\
  (Forall (fun c => c <> 93) host ->
   parse_authority ([91] ++ host ++ [93; 58] ++ show_dec port) = Ok (host, port) /\
   parse_authority ([91] ++ host ++ [93]) = Ok (host, 443)) /\
  (58 ∈ host -> starts_with host [91] = false ->
   (parse_authority (host ++ [58] ++ show_dec port) = Ok (host, port) <-> is_Some (parse_ipv6 host))).
Proof.
  intros Hh Hne Hp. destruct (digits_graphic _ (show_dec_digits port)) as [Hg Hc]. split_and!.
  - intros Hno Hst. split; [rewrite parse_authority_port by done; by rewrite contains_char_false|].
    unfold parse_authority. rewrite trim_graphic by done. rewrite decide_False by done.
    by rewrite Hst, rsplit_once_none.
  - intros Hno. unfold parse_authority.
    assert (forall r, graphic r -> trim ([91] ++ host ++ r) = [91] ++ host ++ r) as Htr.
    { intros r Hr. apply trim_graphic. constructor; [lia|]. by apply Forall_app. }
    assert (forall r, find_char 93 ([91] ++ host ++ 93 :: r) = Some (S (length host))) as Hf.
    { intros r. rewrite app_assoc. apply (find_char_skip 93 ([91] ++ host)). constructor; [lia|done]. }
    assert (forall r, @slice err Z ([91] ++ host ++ r) 1 (Z.of_nat (S (length host))) = Ok host) as Hs.
    { intros r. apply slice_mid; unfold len; simpl; lia. }
    assert (forall r, @slice_from err Z ([91] ++ host ++ 93 :: r) (Z.of_nat (S (length host)) + 1) = Ok r) as Hr.
    { intros r. replace ([91] ++ host ++ 93 :: r) with (([91] ++ host ++ [93]) ++ r) by (by rewrite <- !app_assoc).
      apply slice_from_end. unfold len. rewrite !length_app. simpl. lia. }
    split.
    + change ([93; 58] ++ show_dec port) with (93 :: 58 :: show_dec port). rewrite Htr by (constructor; [lia|]; constructor; [lia|done]). rewrite decide_False by done.
      rewrite (starts_with_app [91]). rewrite Hf. cbn [context mbind res_bind].
      rewrite Hs. cbn [mbind res_bind]. rewrite Hr. cbn [mbind res_bind].
      rewrite decide_False by done. cbn [strip_prefix_char app]. rewrite Z.eqb_refl, parse_port by done. done.
    + rewrite Htr by (constructor; [lia|done]). rewrite decide_False by done.
      rewrite (starts_with_app [91]). rewrite Hf. cbn [context mbind res_bind].
      rewrite Hs. cbn [mbind res_bind]. rewrite Hr. done.
  - intros Hin Hst. rewrite parse_authority_port by done. rewrite contains_char_true by done.
    case_decide; naive_solver.
Qed.

Lemma authority_forms_witness :
  parse_authority (bs "example.org:8443") = Ok (bs "example.org", 8443) /\
  parse_authority (bs "[::1]:8443") = Ok (bs "::1", 8443) /\
  parse_authority (bs "[::1]") = Ok (bs "::1", 443) /\ parse_authority (bs "example.org") = Ok (bs "example.org", 443).
Proof.
  assert (forall h, forallb (fun c => (33 <=? c) && (c <=? 126)) h = true -> graphic h) as Hg.
  { intros h H. rewrite forallb_forall in H. apply Forall_forall. intros c Hc%list_elem_of_In.
    specialize (H _ Hc). apply andb_true_iff in H. rewrite !Z.leb_le in H. lia. }
  assert (forall k h, forallb (fun c => negb (c =? k)) h = true -> Forall (fun c => c <> k) h) as Hn.
  { intros k h H. rewrite forallb_forall in H. apply Forall_forall. intros c Hc%list_elem_of_In.
    specialize (H _ Hc). apply negb_true_iff, Z.eqb_neq in H. done. }
  destruct (authority_forms (bs "example.org") 8443) as (H1 & _ & _); [by apply Hg|done|by ranges|].
  destruct (authority_forms (bs "::1") 8443) as (_ & H2 & _); [by apply Hg|done|by ranges|].
  destruct H1 as [H1 H1']; [by apply Hn|done|]. destruct H2 as [H2 H2']; [by apply Hn|]. split_and!; assumption.
Defined.
