(* ===== verification/Limits.v ===== *)
(** [server_limits.rs]: per-source authentication limits, the budgets of data
    accepted before authentication, and the session counters. *)
From S2P Require Import Prelude Net Crypto.

(** An [Instant] and a [Duration] are nanoseconds. *)
Definition secs (n : Z) : Z := n * 1000000000.
(** [now.duration_since(t)]: zero when [t] is later. *)
Definition duration_since (now t : Z) : Z := sat_sub now t.

(** [AtomicU64::fetch_add], [fetch_sub]: they wrap. *)
Definition fetch_add (x n : Z) : Z := (x + n) mod 2 ^ 64.
Definition fetch_sub (x n : Z) : Z := (x - n) mod 2 ^ 64.

Record AuthRateLimiterConfig := { enabled : bool; max_failures : Z; window : Z; ban : Z }.
Definition AuthRateLimiterConfig_default : AuthRateLimiterConfig :=
  {| enabled := true; max_failures := 10; window := secs 60; ban := secs 300 |}.

Record IpAuthState := { failures : Z; window_start : Z; banned_until : option Z }.

Definition MAX_TRACKED_IPS : Z := 100000.
Definition IPV6_AUTH_PREFIX_BITS : Z := 64.

Definition mask_ipv6 (addr prefix_bits : Z) : Z :=
  let mask :=
    if decide (prefix_bits <= 128) then
      let shift := 128 - prefix_bits in
      if decide (shift < 128) then Z.shiftl (Z.ones 128) shift mod 2 ^ 128 else 0
    else Z.ones 128 in
  Z.land addr mask.

Definition auth_limit_key (ip : IpAddr) : IpAddr :=
  match ip with
  | V4 _ => ip
  | V6 v6 =>
    match to_ipv4_mapped v6 with
    | Some v4 => V4 v4
    | None => V6 (mask_ipv6 v6 IPV6_AUTH_PREFIX_BITS)
    end
  end.

Record AuthRateLimiter := {
  cfg : AuthRateLimiterConfig;
  inner : gmap IpAddr IpAuthState;
  bans_active : Z;
  auth_failures_total : Z;
  auth_bans_issued_total : Z;
}.

Definition AuthRateLimiter_new (c : AuthRateLimiterConfig) : AuthRateLimiter :=
  {| cfg := c; inner := ∅; bans_active := 0; auth_failures_total := 0; auth_bans_issued_total := 0 |}.

Definition set_table (m : gmap IpAddr IpAuthState) (bans : Z) (l : AuthRateLimiter) : AuthRateLimiter :=
  {| cfg := l.(cfg); inner := m; bans_active := bans;
     auth_failures_total := l.(auth_failures_total); auth_bans_issued_total := l.(auth_bans_issued_total) |}.

(** [st.banned_until.is_some_and(|until| now < until)]. *)
Definition banned_at (now : Z) (st : IpAuthState) : bool :=
  match st.(banned_until) with Some until => bool_decide (now < until) | None => false end.

Definition check_allowed (ip : IpAddr) (now : Z) : ST AuthRateLimiter err unit := fun l =>
  if negb l.(cfg).(enabled) then (l, Ok tt) else
  let key := auth_limit_key ip in
  match l.(inner) !! key with
  | None => (l, Ok tt)
  | Some st =>
    match st.(banned_until) with
    | Some until =>
      if decide (now < until) then (l, bail "temporarily banned (too many auth failures)")
      else
        let st := {| failures := 0; window_start := st.(window_start); banned_until := None |} in
        (set_table (<[key := st]> l.(inner)) (fetch_sub l.(bans_active) 1) l, Ok tt)
    | None => (l, Ok tt)
    end
  end.

(** What [retain] keeps; an expired ban is dropped and discounted. *)
Definition expired (now : Z) (st : IpAuthState) : bool :=
  match st.(banned_until) with Some until => negb (bool_decide (now < until)) | None => false end.
Definition kept (cfg : AuthRateLimiterConfig) (now : Z) (st : IpAuthState) : bool :=
  match st.(banned_until) with
  | Some until => bool_decide (now < until)
  | None => bool_decide (duration_since now st.(window_start) <= cfg.(window))
  end.
Definition entries (p : IpAuthState -> bool) (m : gmap IpAddr IpAuthState) : gmap IpAddr IpAuthState :=
  filter (fun e => p e.2 = true) m.
Definition prune_locked (now : Z) (l : AuthRateLimiter) : AuthRateLimiter :=
  set_table (entries (kept l.(cfg) now) l.(inner))
    (fetch_sub l.(bans_active) (Z.of_nat (size (entries (expired now) l.(inner))))) l.

(** The order in which a [HashMap] is iterated is not specified. *)
Class MapOrder := {
  iter : gmap IpAddr IpAuthState -> list (IpAddr * IpAuthState);
  iter_perm m : iter m ≡ₚ map_to_list m;
}.

Section Limiter.
Context `{mo : !MapOrder}.

(** Room for a new key; [None]: the failure is not recorded. *)
Definition make_room (key : IpAddr) (now : Z) (l : AuthRateLimiter) : option AuthRateLimiter :=
  if decide (MAX_TRACKED_IPS <= Z.of_nat (size l.(inner)) /\ l.(inner) !! key = None) then
    let l := prune_locked now l in
    if decide (MAX_TRACKED_IPS <= Z.of_nat (size l.(inner))) then
      let candidates := List.filter (fun e => negb (banned_at now e.2)) (iter l.(inner)) in
      match min_by_key Z.ltb (fun e => e.2.(window_start)) candidates with
      | Some (k, _) => Some (set_table (delete k l.(inner)) l.(bans_active) l)
      | None => None
      end
    else Some l
  else Some l.

Definition count_failure (key : IpAddr) (now : Z) (l : AuthRateLimiter) : AuthRateLimiter :=
  let st := default {| failures := 0; window_start := now; banned_until := None |} (l.(inner) !! key) in
  if banned_at now st then set_table (<[key := st]> l.(inner)) l.(bans_active) l else
  let bans := match st.(banned_until) with Some _ => fetch_sub l.(bans_active) 1 | None => l.(bans_active) end in
  let '(fails, start) :=
    if decide (l.(cfg).(window) < duration_since now st.(window_start)) then (0, now)
    else (st.(failures), st.(window_start)) in
  let fails := sat_add U32_MAX fails 1 in
  let total := fetch_add l.(auth_failures_total) 1 in
  if decide (l.(cfg).(max_failures) <= fails) then
    {| cfg := l.(cfg);
       inner := <[key := {| failures := 0; window_start := now; banned_until := Some (now + l.(cfg).(ban)) |}]> l.(inner);
       bans_active := fetch_add bans 1; auth_failures_total := total;
       auth_bans_issued_total := fetch_add l.(auth_bans_issued_total) 1 |}
  else
    {| cfg := l.(cfg);
       inner := <[key := {| failures := fails; window_start := start; banned_until := None |}]> l.(inner);
       bans_active := bans; auth_failures_total := total;
       auth_bans_issued_total := l.(auth_bans_issued_total) |}.

Definition record_failure (ip : IpAddr) (now : Z) (l : AuthRateLimiter) : AuthRateLimiter :=
  if negb l.(cfg).(enabled) then l else
  let key := auth_limit_key ip in
  match make_room key now l with
  | Some l => count_failure key now l
  | None => prune_locked now l
  end.

Definition record_success (ip : IpAddr) (now : Z) (l : AuthRateLimiter) : AuthRateLimiter :=
  if negb l.(cfg).(enabled) then l else
  let key := auth_limit_key ip in
  match l.(inner) !! key with
  | None => l
  | Some st =>
    if banned_at now st then l
    else
      set_table (delete key l.(inner))
        (match st.(banned_until) with Some _ => fetch_sub l.(bans_active) 1 | None => l.(bans_active) end) l
  end.

(** A history of the limiter: which call, for which peer, when. *)
Inductive LimitOp := Check_allowed | Record_failure | Record_success.
Definition limit_step (l : AuthRateLimiter) (op : LimitOp * IpAddr * Z) : AuthRateLimiter :=
  let '(o, ip, now) := op in
  match o with
  | Check_allowed => (check_allowed ip now l).1
  | Record_failure => record_failure ip now l
  | Record_success => record_success ip now l
  end.
Definition limit_run (l : AuthRateLimiter) (ops : list (LimitOp * IpAddr * Z)) : AuthRateLimiter :=
  fold_left limit_step ops l.

End Limiter.

(** ** Budgets before authentication *)

Record PreAuthBudget := { max_junk_frames : Z; max_junk_bytes : Z; max_decrypt_failures : Z }.
Definition PreAuthBudget_default : PreAuthBudget :=
  {| max_junk_frames := 256; max_junk_bytes := 256 * 1024; max_decrypt_failures := 64 |}.
Record PreAuthBudgetTracker := { junk_frames : Z; junk_bytes : Z; decrypt_failures : Z }.
Definition PreAuthBudgetTracker_default : PreAuthBudgetTracker :=
  {| junk_frames := 0; junk_bytes := 0; decrypt_failures := 0 |}.

Definition note_binary_frame (n : Z) (budget : PreAuthBudget) : ST PreAuthBudgetTracker err unit := fun t =>
  let t := {| junk_frames := sat_add U32_MAX t.(junk_frames) 1; junk_bytes := sat_add USIZE_MAX t.(junk_bytes) n;
              decrypt_failures := t.(decrypt_failures) |} in
  if decide (budget.(max_junk_frames) < t.(junk_frames) \/ budget.(max_junk_bytes) < t.(junk_bytes))
  then (t, bail "too much pre-auth data before v3 AUTH") else (t, Ok tt).
Definition note_decrypt_failure (budget : PreAuthBudget) : ST PreAuthBudgetTracker err unit := fun t =>
  let t := {| junk_frames := t.(junk_frames); junk_bytes := t.(junk_bytes);
              decrypt_failures := sat_add U32_MAX t.(decrypt_failures) 1 |} in
  if decide (budget.(max_decrypt_failures) < t.(decrypt_failures))
  then (t, bail "too many failed decrypt attempts before v3 AUTH") else (t, Ok tt).

Definition MAX_PRE_HELLO_FRAMES : Z := 256.
Definition MAX_PRE_HELLO_BYTES : Z := 256 * 1024.
Definition PRE_HELLO_CAP_ERR : err := "too much pre-handshake data before v3 HELLO".
Record PreHelloJunkTracker := { pre_frames : Z; pre_bytes : Z }.
Definition PreHelloJunkTracker_default : PreHelloJunkTracker := {| pre_frames := 0; pre_bytes := 0 |}.

Definition account_pre_hello_binary (frame : bytes) (max_frames max_bytes : Z) :
  ST PreHelloJunkTracker err (option bytes) := fun t =>
  match parse_hello_v3 frame with
  | Ok client_random => (t, Ok (Some client_random))
  | Panic => (t, Panic)
  | Err _ =>
    let t := {| pre_frames := sat_add U32_MAX t.(pre_frames) 1;
                pre_bytes := sat_add USIZE_MAX t.(pre_bytes) (len frame) |} in
    if decide (max_frames < t.(pre_frames) \/ max_bytes < t.(pre_bytes)) then (t, Err PRE_HELLO_CAP_ERR)
    else (t, Ok None)
  end.

(** ** Session counters *)

Record ServerStats := {
  active_sessions : Z;
  handshake_timeouts_total : Z;
  auth_rejected_banned_total : Z;
  sessions_rejected_busy_total : Z;
  handshakes_success_total : Z;
  session_errors_total : Z;
  accepts_failed_total : Z;
}.
Definition ServerStats_new : ServerStats := Build_ServerStats 0 0 0 0 0 0 0.
Definition bump (active timeouts banned busy ok errors accepts : Z) (s : ServerStats) : ServerStats :=
  {| active_sessions := fetch_add s.(active_sessions) active;
     handshake_timeouts_total := fetch_add s.(handshake_timeouts_total) timeouts;
     auth_rejected_banned_total := fetch_add s.(auth_rejected_banned_total) banned;
     sessions_rejected_busy_total := fetch_add s.(sessions_rejected_busy_total) busy;
     handshakes_success_total := fetch_add s.(handshakes_success_total) ok;
     session_errors_total := fetch_add s.(session_errors_total) errors;
     accepts_failed_total := fetch_add s.(accepts_failed_total) accepts |}.
Definition session_guard : ServerStats -> ServerStats := bump 1 0 0 0 0 0 0.
Definition inc_handshake_timeout : ServerStats -> ServerStats := bump 0 1 0 0 0 0 0.
Definition inc_auth_rejected_banned : ServerStats -> ServerStats := bump 0 0 1 0 0 0 0.
Definition inc_sessions_rejected_busy : ServerStats -> ServerStats := bump 0 0 0 1 0 0 0.
Definition inc_handshake_success : ServerStats -> ServerStats := bump 0 0 0 0 1 0 0.
Definition inc_session_error : ServerStats -> ServerStats := bump 0 0 0 0 0 1 0.
Definition inc_accept_failed : ServerStats -> ServerStats := bump 0 0 0 0 0 0 1.
(** [SessionGuard::drop]. *)
Definition drop_guard (s : ServerStats) : ServerStats :=
  {| active_sessions := fetch_sub s.(active_sessions) 1;
     handshake_timeouts_total := s.(handshake_timeouts_total);
     auth_rejected_banned_total := s.(auth_rejected_banned_total);
     sessions_rejected_busy_total := s.(sessions_rejected_busy_total);
     handshakes_success_total := s.(handshakes_success_total);
     session_errors_total := s.(session_errors_total);
     accepts_failed_total := s.(accepts_failed_total) |}.

(** ** Lemmas: the ban gauge *)

Definition has_ban (st : IpAuthState) : bool := bool_decide (is_Some st.(banned_until)).
(** Entries of the table whose ban was not cleared. *)
Definition banned_count (m : gmap IpAddr IpAuthState) : Z := Z.of_nat (size (entries has_ban m)).

Lemma banned_count_fresh m k st :
  m !! k = None -> banned_count (<[k := st]> m) = banned_count m + (if has_ban st then 1 else 0).
Proof.
  intros Hk. unfold banned_count, entries. rewrite map_filter_insert. simpl.
  assert (filter (fun e : IpAddr * IpAuthState => has_ban e.2 = true) m !! k = None) as Hn.
  { apply map_lookup_filter_None. by left. }
  case_decide as Hb.
  - rewrite map_size_insert_None, Hb by done. lia.
  - rewrite delete_id by done. destruct (has_ban st); [done|lia].
Qed.

Lemma banned_count_delete m k st :
  m !! k = Some st -> banned_count m = banned_count (delete k m) + (if has_ban st then 1 else 0).
Proof.
  intros Hk. rewrite <- (banned_count_fresh (delete k m) k st) by apply lookup_delete_eq.
  by rewrite insert_delete_id.
Qed.

Lemma banned_count_insert m k st :
  banned_count (<[k := st]> m) =
  banned_count m - (match m !! k with Some old => if has_ban old then 1 else 0 | None => 0 end)
  + (if has_ban st then 1 else 0).
Proof.
  destruct (m !! k) as [old|] eqn:Hk; [|rewrite banned_count_fresh by done; lia].
  rewrite (banned_count_delete m k old Hk). rewrite <- insert_delete_eq.
  rewrite banned_count_fresh by apply lookup_delete_eq. lia.
Qed.

Lemma banned_count_bound m : 0 <= banned_count m <= Z.of_nat (size m).
Proof.
  unfold banned_count, entries. split; [lia|]. apply inj_le. apply map_size_filter.
Qed.

(** Pruning drops as many bans as it discounts. *)
Lemma banned_count_prune c now m :
  banned_count (entries (kept c now) m) = banned_count m - Z.of_nat (size (entries (expired now) m)).
Proof.
  induction m as [|k st m Hk IH] using map_ind; [done|].
  assert (forall p, entries p m !! k = None) as Hn by (intros; apply map_lookup_filter_None; by left).
  rewrite banned_count_fresh by done.
  assert (forall p, entries p (<[k := st]> m) = if p st then <[k := st]> (entries p m) else entries p m) as Hf.
  { intros p. unfold entries. rewrite map_filter_insert. simpl. case_decide as Hp; [by rewrite Hp|].
    destruct (p st); [done|]. by rewrite delete_id. }
  rewrite !Hf. unfold kept at 1, expired at 1, has_ban at 1.
  destruct (banned_until st) as [until|] eqn:Hb.
  - rewrite (bool_decide_true (is_Some _)) by done. case_bool_decide; simpl.
    + rewrite banned_count_fresh by apply Hn. unfold has_ban. rewrite Hb, bool_decide_true by done. lia.
    + rewrite map_size_insert_None by apply Hn. lia.
  - rewrite (bool_decide_false (is_Some _)) by (intros [? ?]; done). case_bool_decide; simpl; [|lia].
    rewrite banned_count_fresh by apply Hn. unfold has_ban. rewrite Hb, (bool_decide_false (is_Some _)) by (intros [? ?]; done).
    lia.
Qed.

(** *** Buckets *)

Lemma mask_64 a : mask_ipv6 a IPV6_AUTH_PREFIX_BITS = (a / 2 ^ 64 mod 2 ^ 64) * 2 ^ 64.
Proof.
  unfold mask_ipv6, IPV6_AUTH_PREFIX_BITS. rewrite !decide_True by lia.
  change (128 - 64) with 64. change (Z.shiftl (Z.ones 128) 64 mod 2 ^ 128) with (Z.shiftl (Z.ones 64) 64).
  rewrite <- Z.land_ones, <- Z.shiftr_div_pow2, <- Z.shiftl_mul_pow2 by lia.
  apply Z.bits_inj'. intros n Hn. rewrite Z.land_spec, !Z.shiftl_spec, Z.land_spec by lia.
  destruct (decide (n < 64)).
  - rewrite !(Z.testbit_neg_r _ (n - 64)) by lia. by rewrite andb_false_r.
  - rewrite Z.shiftr_spec by lia. by rewrite Z.sub_add.
Qed.

Lemma auth_limit_key_v6 a :
  to_ipv4_mapped a = None -> auth_limit_key (V6 a) = V6 ((a / 2 ^ 64 mod 2 ^ 64) * 2 ^ 64).
Proof. unfold auth_limit_key. intros ->. by rewrite mask_64. Qed.

Lemma auth_limit_key_idemp ip : auth_limit_key (auth_limit_key ip) = auth_limit_key ip.
Proof.
  destruct ip as [a|a]; [done|]. destruct (to_ipv4_mapped a) eqn:Hm.
  { unfold auth_limit_key at 2 3. by rewrite Hm. }
  rewrite auth_limit_key_v6 by done. pose proof (Z.mod_pos_bound (a / 2 ^ 64) (2 ^ 64) ltac:(lia)).
  set (q := a / 2 ^ 64 mod 2 ^ 64) in *. rewrite auth_limit_key_v6.
  - rewrite Z.div_mul by lia. by rewrite Z.mod_small.
  - unfold to_ipv4_mapped. replace (q * 2 ^ 64) with (q * 2 ^ 32 * 2 ^ 32) by lia. rewrite Z.div_mul by lia.
    rewrite (proj2 (Z.eqb_neq _ _)); [done|]. lia.
Qed.

(** *** The table *)

Definition limiter_inv (l : AuthRateLimiter) : Prop :=
  l.(bans_active) = banned_count l.(inner) /\ Z.of_nat (size l.(inner)) <= MAX_TRACKED_IPS /\
  forall k, is_Some (l.(inner) !! k) -> auth_limit_key k = k.

Lemma fetch_sub_exact x n : 0 <= n <= x -> x < 2 ^ 64 -> fetch_sub x n = x - n.
Proof. intros. apply Z.mod_small. lia. Qed.
Lemma fetch_add_exact x n : 0 <= x + n < 2 ^ 64 -> fetch_add x n = x + n.
Proof. intros. by apply Z.mod_small. Qed.

(** The gauge of a table within the cap does not wrap. *)
Lemma gauge_small m : Z.of_nat (size m) <= MAX_TRACKED_IPS -> 0 <= banned_count m < 2 ^ 64 - 1.
Proof. pose proof (banned_count_bound m). unfold MAX_TRACKED_IPS. lia. Qed.

Lemma banned_count_has m k st : m !! k = Some st -> has_ban st = true -> 1 <= banned_count m.
Proof. intros Hk Hb. rewrite (banned_count_delete m k st), Hb by done. pose proof (banned_count_bound (delete k m)). lia. Qed.

Lemma has_ban_Some st u : st.(banned_until) = Some u -> has_ban st = true.
Proof. unfold has_ban. intros ->. by apply bool_decide_true. Qed.
Lemma has_ban_None st : st.(banned_until) = None -> has_ban st = false.
Proof. unfold has_ban. intros ->. apply bool_decide_false. by intros []. Qed.

Lemma size_insert_le (m : gmap IpAddr IpAuthState) (k : IpAddr) (st : IpAuthState) :
  Z.of_nat (size (<[k := st]> m)) <= Z.of_nat (size m) + (match m !! k with Some _ => 0 | None => 1 end).
Proof. rewrite map_size_insert. destruct (m !! k); simpl; lia. Qed.

Lemma size_delete_entry (m : gmap IpAddr IpAuthState) k st : m !! k = Some st -> size (delete k m) = pred (size m).
Proof. intros Hk. by rewrite map_size_delete, Hk. Qed.

Lemma entries_size p (m : gmap IpAddr IpAuthState) : (size (entries p m) <= size m)%nat.
Proof. apply map_size_filter. Qed.

Lemma entries_lookup p (m : gmap IpAddr IpAuthState) k st :
  entries p m !! k = Some st <-> m !! k = Some st /\ p st = true.
Proof. unfold entries. by rewrite map_lookup_filter_Some. Qed.

Lemma prune_inv now l : limiter_inv l -> limiter_inv (prune_locked now l).
Proof.
  intros (Hg & Hs & Hk). unfold limiter_inv, prune_locked, set_table. cbn [bans_active inner cfg].
  rewrite banned_count_prune. pose proof (gauge_small _ Hs). pose proof (banned_count_prune l.(cfg) now l.(inner)).
  pose proof (banned_count_bound (entries (kept l.(cfg) now) l.(inner))).
  pose proof (entries_size (kept l.(cfg) now) l.(inner)). split_and!.
  - rewrite Hg. apply fetch_sub_exact; lia.
  - lia.
  - intros k [st Hst]. apply entries_lookup in Hst as [Hst _]. apply Hk. by exists st.
Qed.

Lemma check_allowed_inv ip now l : limiter_inv l -> limiter_inv (check_allowed ip now l).1.
Proof.
  intros (Hg & Hs & Hk). unfold check_allowed. destruct (negb _); [done|].
  destruct (l.(inner) !! _) as [st|] eqn:Hst; [|done]. destruct (banned_until st) as [u|] eqn:Hu; [|done].
  case_decide; [done|]. pose proof (gauge_small _ Hs).
  pose proof (banned_count_has _ _ _ Hst (has_ban_Some _ _ Hu)).
  unfold limiter_inv. cbn [fst set_table bans_active inner]. split_and!.
  - rewrite banned_count_insert, Hst, (has_ban_Some _ _ Hu), has_ban_None by done. rewrite fetch_sub_exact by lia. lia.
  - pose proof (size_insert_le l.(inner) (auth_limit_key ip) {| failures := 0; window_start := window_start st; banned_until := None |}) as Hsz.
    rewrite Hst in Hsz. lia.
  - intros k [st' Hst']. destruct (decide (k = auth_limit_key ip)) as [->|]; [apply auth_limit_key_idemp|].
    rewrite lookup_insert_ne in Hst' by done. apply Hk. by exists st'.
Qed.

Section TableInvariant.
Context `{mo : !MapOrder}.

(** The evicted entry is tracked and not banned. *)
Lemma victim_entry now m k st :
  min_by_key Z.ltb (fun e => e.2.(window_start)) (List.filter (fun e => negb (banned_at now e.2)) (iter m)) = Some (k, st) ->
  m !! k = Some st /\ banned_at now st = false.
Proof.
  intros Hm%min_by_key_In. apply filter_In in Hm as [Hin Hb%negb_true_iff]. split; [|done].
  apply list_elem_of_In in Hin. rewrite iter_perm in Hin. by apply elem_of_map_to_list.
Qed.

(** After pruning no ban is left over. *)
Lemma pruned_ban now c m k st :
  entries (kept c now) m !! k = Some st -> banned_at now st = false -> has_ban st = false.
Proof.
  rewrite entries_lookup. unfold kept, banned_at, has_ban. intros [_ Hp].
  destruct (banned_until st); [intros; congruence|]. intros _. apply bool_decide_false. by intros [].
Qed.

Lemma make_room_inv key now l l' :
  limiter_inv l -> make_room key now l = Some l' ->
  limiter_inv l' /\ (l'.(inner) !! key = None -> Z.of_nat (size l'.(inner)) < MAX_TRACKED_IPS) /\ l'.(cfg) = l.(cfg).
Proof.
  intros Hinv. unfold make_room. case_decide as Hfull.
  - pose proof (prune_inv now l Hinv) as Hp. case_decide as Hfull'; [|intros [= <-]; split_and!; [done|intros; lia|done]].
    destruct (min_by_key _ _ _) as [[k st]|] eqn:Hv; [|done]. intros <-%(inj Some).
    apply victim_entry in Hv as [Hst Hb]. destruct Hp as (Hg & Hs & Hk).
    assert (has_ban st = false) as Hnb by (eapply (pruned_ban now l.(cfg) l.(inner)); [exact Hst|done]).
    unfold limiter_inv, set_table. cbn [bans_active inner cfg]. split_and!; [..|done].
    + rewrite Hg, (banned_count_delete _ _ _ Hst), Hnb. lia.
    + rewrite (size_delete_entry _ _ _ Hst). lia.
    + intros k' [st' Hst']. apply lookup_delete_Some in Hst' as [_ Hst']. apply Hk. by exists st'.
    + intros _. rewrite (size_delete_entry _ _ _ Hst).
      assert (size (prune_locked now l).(inner) <> 0%nat) by (unfold MAX_TRACKED_IPS in Hfull'; lia). lia.
  - intros [= <-]. split_and!; [done| |done]. intros Hn. destruct Hinv as (_ & Hs & _).
    destruct (decide (Z.of_nat (size l.(inner)) < MAX_TRACKED_IPS)); [done|]. exfalso. apply Hfull. split; [lia|done].
Qed.

Lemma count_failure_inv key now l :
  limiter_inv l -> auth_limit_key key = key ->
  (l.(inner) !! key = None -> Z.of_nat (size l.(inner)) < MAX_TRACKED_IPS) ->
  limiter_inv (count_failure key now l).
Proof.
  intros (Hg & Hs & Hk) Hkey Hroom. pose proof (gauge_small _ Hs) as Hsm.
  assert (forall st, Z.of_nat (size (<[key := st]> l.(inner))) <= MAX_TRACKED_IPS) as Hsz.
  { intros st. pose proof (size_insert_le l.(inner) key st). destruct (l.(inner) !! key); [lia|]. specialize (Hroom eq_refl). lia. }
  assert (forall st k, is_Some (<[key := st]> l.(inner) !! k) -> auth_limit_key k = k) as Hkeys.
  { intros st k [st' Hst']. destruct (decide (k = key)) as [->|]; [done|].
    rewrite lookup_insert_ne in Hst' by done. apply Hk. by exists st'. }
  unfold count_failure. set (st := default _ _).
  assert (has_ban st = true -> l.(inner) !! key = Some st) as Hst.
  { unfold st. destruct (l.(inner) !! key); [done|]. intros Hx. by rewrite has_ban_None in Hx. }
  assert (match l.(inner) !! key with Some old => if has_ban old then 1 else 0 | None => 0 end
          = if has_ban st then 1 else 0) as Hold.
  { unfold st. destruct (l.(inner) !! key); [done|]. by rewrite has_ban_None. }
  assert (has_ban st = true -> 1 <= banned_count l.(inner)) as Hpos by (intros Hb; by eapply banned_count_has; [apply Hst|]).
  destruct (banned_at now st) eqn:Hban.
  { unfold limiter_inv, set_table. cbn [bans_active inner]. split_and!; [|done|by apply Hkeys].
    rewrite banned_count_insert, Hold. lia. }
  assert (match banned_until st with Some _ => fetch_sub (bans_active l) 1 | None => bans_active l end
          = banned_count l.(inner) - if has_ban st then 1 else 0) as ->.
  { rewrite Hg. destruct (banned_until st) as [u|] eqn:Hu.
    - pose proof (has_ban_Some _ _ Hu) as Hb. rewrite Hb in *. specialize (Hpos eq_refl). apply fetch_sub_exact; lia.
    - rewrite has_ban_None by done. lia. }
  destruct (if decide _ then _ else _) as [fails start].
  assert (0 <= banned_count l.(inner) - (if has_ban st then 1 else 0)) as Hlow.
  { destruct (has_ban st); [specialize (Hpos eq_refl)|]; lia. }
  case_decide; unfold limiter_inv; cbn [bans_active inner]; (split_and!; [|apply Hsz|apply Hkeys]);
    rewrite banned_count_insert, Hold.
  - rewrite fetch_add_exact by (destruct (has_ban st); lia). by erewrite (has_ban_Some (Build_IpAuthState _ _ _)).
  - rewrite (has_ban_None (Build_IpAuthState _ _ _)) by done. lia.
Qed.

Lemma record_success_inv ip now l : limiter_inv l -> limiter_inv (record_success ip now l).
Proof.
  intros (Hg & Hs & Hk). pose proof (gauge_small _ Hs). unfold record_success. destruct (negb _); [done|].
  destruct (l.(inner) !! _) as [st|] eqn:Hst; [|done]. destruct (banned_at now st); [done|].
  pose proof (banned_count_delete _ _ _ Hst) as Hc. pose proof (banned_count_bound (delete (auth_limit_key ip) l.(inner))).
  unfold limiter_inv, set_table. cbn [bans_active inner]. split_and!.
  - destruct (banned_until st) as [u|] eqn:Hu.
    + rewrite (has_ban_Some _ _ Hu) in Hc. rewrite fetch_sub_exact; lia.
    + rewrite (has_ban_None _ Hu) in Hc. lia.
  - rewrite (size_delete_entry _ _ _ Hst). lia.
  - intros k [st' Hst']. apply lookup_delete_Some in Hst' as [_ Hst']. apply Hk. by exists st'.
Qed.

Lemma record_failure_inv ip now l : limiter_inv l -> limiter_inv (record_failure ip now l).
Proof.
  intros Hinv. unfold record_failure. destruct (negb _); [done|].
  destruct (make_room _ now l) as [l'|] eqn:Hm; [|by apply prune_inv].
  destruct (make_room_inv _ _ _ _ Hinv Hm) as (Hinv' & Hroom & _).
  apply count_failure_inv; [done|apply auth_limit_key_idemp|done].
Qed.

Lemma limit_step_inv l op : limiter_inv l -> limiter_inv (limit_step l op).
Proof.
  destruct op as [[[] ip] now]; simpl; intros.
  - by apply check_allowed_inv.
  - by apply record_failure_inv.
  - by apply record_success_inv.
Qed.

Lemma limit_run_inv l ops : limiter_inv l -> limiter_inv (limit_run l ops).
Proof. revert l. induction ops as [|op ops IH]; intros l Hl; [done|]. apply IH. by apply limit_step_inv. Qed.

Lemma new_inv c : limiter_inv (AuthRateLimiter_new c).
Proof. split_and!; [done|done|]. intros k []; done. Qed.

(** *** Active bans *)

Definition ban_stands (key : IpAddr) (until : Z) (l : AuthRateLimiter) : Prop :=
  l.(cfg).(enabled) = true /\ exists st, l.(inner) !! key = Some st /\ st.(banned_until) = Some until.

Lemma banned_at_before now until st : st.(banned_until) = Some until -> now < until -> banned_at now st = true.
Proof. unfold banned_at. intros -> ?. by apply bool_decide_true. Qed.

Lemma prune_stands key until now l : now < until -> ban_stands key until l -> ban_stands key until (prune_locked now l).
Proof.
  intros Hnow (He & st & Hst & Hu). split; [done|]. exists st. split; [|done]. apply entries_lookup. split; [done|].
  unfold kept. rewrite Hu. by apply bool_decide_true.
Qed.

Lemma limit_step_stands key until l o ip now :
  now < until -> ban_stands key until l -> ban_stands key until (limit_step l (o, ip, now)).
Proof.
  intros Hnow Hl. pose proof Hl as (He & st & Hst & Hu). pose proof (banned_at_before _ _ _ Hu Hnow) as Hb.
  assert (forall k st', k <> key -> ban_stands key until (set_table (<[k := st']> l.(inner)) (fetch_sub l.(bans_active) 1) l)) as Hins.
  { intros k st' Hne. split; [done|]. exists st. split; [|done]. cbn [set_table inner]. by rewrite lookup_insert_ne by congruence. }
  destruct o; simpl.
  - unfold check_allowed. rewrite He. simpl. destruct (l.(inner) !! auth_limit_key ip) as [st'|] eqn:Hst'; [|done].
    destruct (banned_until st') as [u|] eqn:Hu'; [|done]. case_decide as Hn; [done|]. apply Hins. intros <-. congruence.
  - unfold record_failure. rewrite He. simpl. destruct (make_room _ now l) as [l'|] eqn:Hm; [|by apply prune_stands].
    assert (ban_stands key until l') as (He' & st2 & Hst2 & Hu2).
    { revert Hm. unfold make_room. pose proof (prune_stands _ _ _ _ Hnow Hl) as Hp. pose proof Hp as (Hpe & st2 & Hst2 & Hu2).
      case_decide; [|intros [= <-]; done]. case_decide; [|intros [= <-]; done].
      destruct (min_by_key _ _ _) as [[k st3]|] eqn:Hv; [|done]. intros [= <-]. apply victim_entry in Hv as [Hst3 Hb3].
      split; [done|]. exists st2. split; [|done]. cbn [set_table inner]. rewrite lookup_delete_ne; [done|].
      intros ->. rewrite Hst3 in Hst2. injection Hst2 as ->. by rewrite (banned_at_before _ _ _ Hu2 Hnow) in Hb3. }
    unfold count_failure. destruct (decide (auth_limit_key ip = key)) as [->|Hne].
    + rewrite Hst2. simpl. rewrite (banned_at_before _ _ _ Hu2 Hnow). split; [done|]. exists st2. split; [|done].
      cbn [set_table inner]. by rewrite lookup_insert_eq.
    + match goal with |- context [banned_at now ?x] => destruct (banned_at now x) end; [|match goal with |- context [let '(_, _) := ?p in _] => destruct p end; case_decide];
        (split; [exact He'|]; exists st2; split; [|done]; cbn [set_table inner]; by rewrite lookup_insert_ne by congruence).
  - unfold record_success. rewrite He. simpl. destruct (l.(inner) !! auth_limit_key ip) as [st'|] eqn:Hst'; [|done].
    destruct (banned_at now st') eqn:Hb'; [done|]. split; [done|]. exists st. split; [|done].
    cbn [set_table inner]. rewrite lookup_delete_ne; [done|]. intros <-. congruence.
Qed.
End TableInvariant.

(** *** Consecutive failures of a bucket *)

Section Threshold.
Context `{mo : !MapOrder}.

Definition fail_all (evs : list (IpAddr * Z)) (l : AuthRateLimiter) : AuthRateLimiter :=
  fold_left (fun l e => record_failure e.1 e.2 l) evs l.

(** A bucket with [f] failures since [t0] and no ban. *)
Definition counting (key : IpAddr) (f t0 : Z) (l : AuthRateLimiter) : Prop :=
  l.(inner) !! key = Some {| failures := f; window_start := t0; banned_until := None |}.
Definition entry_of (key : IpAddr) (now : Z) (l : AuthRateLimiter) : IpAuthState :=
  default {| failures := 0; window_start := now; banned_until := None |} (l.(inner) !! key).

Lemma record_failure_entry ip now l f t0 :
  l.(cfg).(enabled) = true -> entry_of (auth_limit_key ip) now l = {| failures := f; window_start := t0; banned_until := None |} ->
  (l.(inner) !! auth_limit_key ip = None -> Z.of_nat (size l.(inner)) < MAX_TRACKED_IPS) ->
  0 <= f < U32_MAX -> 0 <= l.(cfg).(window) -> now - t0 <= l.(cfg).(window) ->
  let l' := record_failure ip now l in
  l'.(cfg) = l.(cfg) /\
  l'.(inner) !! auth_limit_key ip = Some (
    if decide (l.(cfg).(max_failures) <= f + 1)
    then {| failures := 0; window_start := now; banned_until := Some (now + l.(cfg).(ban)) |}
    else {| failures := f + 1; window_start := t0; banned_until := None |}).
Proof.
  intros He Hent Hroom Hf Hw Hnow. unfold record_failure. rewrite He. simpl negb.
  assert (make_room (auth_limit_key ip) now l = Some l) as ->.
  { unfold make_room. rewrite decide_False; [done|]. intros [? Hn]. specialize (Hroom Hn). lia. }
  cbn beta iota zeta. unfold count_failure. fold (entry_of (auth_limit_key ip) now l). rewrite Hent.
  cbn [banned_at banned_until window_start failures]. rewrite decide_False by (unfold duration_since, sat_sub; lia).
  unfold sat_add. rewrite Z.min_r by lia. case_decide; cbn [cfg inner]; by rewrite lookup_insert_eq.
Qed.

Lemma fail_all_counting key evs l f t0 :
  l.(cfg).(enabled) = true -> counting key f t0 l -> 0 <= f -> 0 <= l.(cfg).(window) ->
  f + Z.of_nat (length evs) < l.(cfg).(max_failures) -> l.(cfg).(max_failures) <= U32_MAX ->
  Forall (fun e => auth_limit_key e.1 = key /\ e.2 - t0 <= l.(cfg).(window)) evs ->
  (fail_all evs l).(cfg) = l.(cfg) /\ counting key (f + Z.of_nat (length evs)) t0 (fail_all evs l).
Proof.
  revert l f. induction evs as [|[ip now] evs IH]; intros l f He Hc Hf Hw Hmax HU Hevs.
  { simpl. rewrite Z.add_0_r. done. }
  apply Forall_cons in Hevs as [[Hk Hnow] Hevs]. simpl in Hk, Hnow, Hmax. subst key.
  destruct (record_failure_entry ip now l f t0) as [Hcfg Hin]; try done.
  { unfold entry_of. by rewrite Hc. }
  { intros Hn. by rewrite Hc in Hn. }
  { lia. }
  rewrite decide_False in Hin by lia. simpl.
  destruct (IH (record_failure ip now l) (f + 1)) as [Hcfg' Hc']; rewrite ?Hcfg; try done; try lia.
  split; [congruence|]. replace (f + Z.of_nat (S (length evs))) with (f + 1 + Z.of_nat (length evs)) by lia. done.
Qed.

Lemma fail_all_app a b l : fail_all (a ++ b) l = fail_all b (fail_all a l).
Proof. apply fold_left_app. Qed.

Lemma check_allowed_safe ip now l : safe (check_allowed ip now l).2.
Proof.
  unfold check_allowed. destruct (negb _); [done|]. destruct (_ !! _) as [st|]; [|done]. destruct (banned_until st); [|done]. by case_decide.
Qed.

Lemma check_counting ip now l f t0 : counting (auth_limit_key ip) f t0 l -> (check_allowed ip now l).2 = Ok tt.
Proof. intros Hc. unfold check_allowed. destruct (negb _); [done|]. by rewrite Hc. Qed.
End Threshold.

(** *** Budgets *)

Fixpoint note_frames (budget : PreAuthBudget) (lens : list Z) : ST PreAuthBudgetTracker err unit :=
  match lens with
  | [] => mret tt
  | n :: lens => _ ← note_binary_frame n budget; note_frames budget lens
  end.
Fixpoint note_failures (budget : PreAuthBudget) (n : nat) : ST PreAuthBudgetTracker err unit :=
  match n with
  | O => mret tt
  | S n => _ ← note_decrypt_failure budget; note_failures budget n
  end.
(** The frames before the HELLO; the result is the client's random. *)
Fixpoint await_hello (max_frames max_bytes : Z) (frames : list bytes) :
  ST PreHelloJunkTracker err (option bytes) :=
  match frames with
  | [] => mret None
  | f :: frames =>
    r ← account_pre_hello_binary f max_frames max_bytes;
    match r with Some c => mret (Some c) | None => await_hello max_frames max_bytes frames end
  end.
Definition total (lens : list Z) : Z := foldr Z.add 0 lens.

Lemma total_nonneg lens : Forall (fun n => 0 <= n) lens -> 0 <= total lens.
Proof. induction 1; simpl; [done|]. unfold total in *. simpl. lia. Qed.

Lemma note_frames_exact budget lens t :
  budget.(max_junk_frames) < U32_MAX -> budget.(max_junk_bytes) < USIZE_MAX -> Forall (fun n => 0 <= n) lens ->
  t.(junk_frames) <= budget.(max_junk_frames) -> t.(junk_bytes) <= budget.(max_junk_bytes) ->
  (note_frames budget lens t).2 = Ok tt <->
  t.(junk_frames) + len lens <= budget.(max_junk_frames) /\ t.(junk_bytes) + total lens <= budget.(max_junk_bytes).
Proof.
  intros HU HM Hl. revert t. induction Hl as [|n lens Hn Hl IH]; intros t Hf Hb.
  { unfold total, len. simpl. split; [intros _; lia|done]. }
  cbn [note_frames]. unfold mbind, st_bind at 1, note_binary_frame at 1. unfold total. cbn [foldr]. fold (total lens).
  pose proof (total_nonneg _ Hl). pose proof (len_nonneg lens). rewrite len_cons. unfold sat_add.
  case_decide as Hc; cbn [junk_frames junk_bytes] in Hc.
  - split; [done|]. intros [? ?]. lia.
  - apply Decidable.not_or in Hc as [? ?]. rewrite IH by (cbn [junk_frames junk_bytes]; lia).
    cbn [junk_frames junk_bytes]. lia.
Qed.

Lemma note_failures_exact budget n t :
  budget.(max_decrypt_failures) < U32_MAX -> t.(decrypt_failures) <= budget.(max_decrypt_failures) ->
  (note_failures budget n t).2 = Ok tt <-> t.(decrypt_failures) + Z.of_nat n <= budget.(max_decrypt_failures).
Proof.
  intros HU. revert t. induction n as [|n IH]; intros t Ht; [simpl; split; [lia|done]|].
  cbn [note_failures]. unfold mbind, st_bind at 1, note_decrypt_failure at 1, sat_add.
  case_decide as Hc; cbn [decrypt_failures] in Hc.
  - split; [done|]. lia.
  - rewrite IH by (cbn [decrypt_failures]; lia). cbn [decrypt_failures]. lia.
Qed.

(** Junk within the caps leaves the HELLO accepted; beyond them the session is refused. *)
Lemma await_hello_exact mf mb junk hello c t :
  mf < U32_MAX -> mb < USIZE_MAX -> Forall (fun f => exists e, parse_hello_v3 f = Err e) junk ->
  parse_hello_v3 hello = Ok c -> t.(pre_frames) <= mf -> t.(pre_bytes) <= mb ->
  (await_hello mf mb (junk ++ [hello]) t).2 =
  if decide (t.(pre_frames) + len junk <= mf /\ t.(pre_bytes) + total (len <$> junk) <= mb)
  then Ok (Some c) else Err PRE_HELLO_CAP_ERR.
Proof.
  intros HU HM Hj Hh. revert t. induction Hj as [|f junk [e He] Hj IH]; intros t Hf Hb; cbn [app await_hello];
    unfold mbind, st_bind at 1, account_pre_hello_binary at 1.
  { rewrite Hh, decide_True; [done|]. unfold total, len. simpl. lia. }
  rewrite He. unfold total. cbn [fmap list_fmap foldr]. change (foldr Z.add 0 (len <$> junk)) with (total (len <$> junk)).
  assert (0 <= total (len <$> junk)).
  { apply total_nonneg, Forall_fmap, Forall_forall. intros x _. apply len_nonneg. }
  pose proof (len_nonneg junk). rewrite len_cons. unfold sat_add.
  match goal with |- context [decide (?a \/ ?b)] => destruct (decide (a \/ b)) as [Hc|Hc] end; cbn [pre_frames pre_bytes] in Hc.
  - rewrite decide_False; [done|]. pose proof (len_nonneg f). lia.
  - apply Decidable.not_or in Hc as [? ?]. rewrite IH by (cbn [pre_frames pre_bytes]; lia). cbn [pre_frames pre_bytes].
    rewrite !Z.min_r by lia. apply decide_ext. lia.
Qed.

(** ** Properties *)

(** A table iterated in the order of its list. *)
#[export] Instance list_order : MapOrder := {| iter := map_to_list; iter_perm m := Permutation_refl _ |}.

(** the limiter's bookkeeping, after any history of calls, for any iteration order and
    any clock readings: the gauge of active bans is the number of entries whose ban was not
    cleared, it never wraps, the table never outgrows its cap, and every key is a bucket. *)
Theorem limiter_bookkeeping `{mo : !MapOrder} c ops :
  let l := limit_run (AuthRateLimiter_new c) ops in
  l.(bans_active) = banned_count l.(inner) /\ 0 <= l.(bans_active) <= Z.of_nat (size l.(inner)) /\
  Z.of_nat (size l.(inner)) <= MAX_TRACKED_IPS /\
  forall k, is_Some (l.(inner) !! k) -> auth_limit_key k = k.
Proof.
  intros l. destruct (limit_run_inv _ ops (new_inv c)) as (Hg & Hs & Hk). fold l in Hg, Hs, Hk.
  pose proof (banned_count_bound l.(inner)). rewrite Hg. done.
Qed.

(** an active ban stands until it expires: no later failure, success, pruning or eviction
    for any peer lifts it, and every address of the bucket is refused meanwhile. *)
Theorem active_ban_holds `{mo : !MapOrder} l key until st ops ip now :
  l.(cfg).(enabled) = true -> l.(inner) !! key = Some st -> st.(banned_until) = Some until ->
  Forall (fun op : LimitOp * IpAddr * Z => op.2 < until) ops -> auth_limit_key ip = key -> now < until ->
  (check_allowed ip now (limit_run l ops)).2 = bail "temporarily banned (too many auth failures)".
Proof.
  intros He Hst Hu Hops Hip Hnow.
  assert (ban_stands key until (limit_run l ops)) as (He' & st' & Hst' & Hu').
  { assert (ban_stands key until l) as Hl by (split; [done|by exists st]). clear He Hst Hu. revert l Hl.
    induction Hops as [|[[o ip'] t] ops Ht Hops IH]; intros l Hl; [done|]. apply IH. by apply limit_step_stands. }
  unfold check_allowed. rewrite He', Hip. simpl. rewrite Hst', Hu'. by rewrite decide_True.
Qed.

(** the failure threshold: for a bucket without history, fewer than [max_failures]
    failures within the window leave every address of the bucket allowed; the
    [max_failures]-th bans it for exactly the ban duration. *)
Theorem ban_threshold `{mo : !MapOrder} l key t0 evs ipn tn ip now :
  l.(cfg).(enabled) = true -> 1 <= l.(cfg).(max_failures) <= U32_MAX -> 0 <= l.(cfg).(window) ->
  l.(inner) !! key = None -> Z.of_nat (size l.(inner)) < MAX_TRACKED_IPS ->
  head (evs ++ [(ipn, tn)]).*2 = Some t0 ->
  Forall (fun e => auth_limit_key e.1 = key /\ e.2 - t0 <= l.(cfg).(window)) (evs ++ [(ipn, tn)]) ->
  Z.of_nat (length evs) < l.(cfg).(max_failures) -> auth_limit_key ip = key ->
  (check_allowed ip now (fail_all (evs ++ [(ipn, tn)]) l)).2 =
  if decide (Z.of_nat (length evs) + 1 = l.(cfg).(max_failures) /\ now < tn + l.(cfg).(ban))
  then bail "temporarily banned (too many auth failures)" else Ok tt.
Proof.
  intros He [Hm1 HmU] Hw Hnone Hroom Hhead Hevs Hlen Hip.
  apply Forall_app in Hevs as [Hevs [[Hkn Htn] _]%Forall_cons]. simpl in Hkn, Htn.
  set (l1 := fail_all evs l). set (n := Z.of_nat (length evs)) in *.
  assert (l1.(cfg) = l.(cfg) /\ entry_of key tn l1 = Build_IpAuthState n t0 None /\
    (l1.(inner) !! key = None -> Z.of_nat (size l1.(inner)) < MAX_TRACKED_IPS)) as (Hc1 & Hent & Hroom1).
  { destruct evs as [|[ip1 t1] evs]; [injection Hhead as ->; unfold entry_of, l1; simpl; by rewrite Hnone|].
    injection Hhead as ->. apply Forall_cons in Hevs as [[Hk1 Ht1] Hevs]. simpl in Hk1, Ht1. subst key.
    destruct (record_failure_entry ip1 t0 l 0 t0) as [Hcfg Hin]; try done; try lia.
    { unfold entry_of. by rewrite Hnone. }
    rewrite decide_False in Hin by (unfold n in Hlen; simpl in Hlen; lia).
    destruct (fail_all_counting (auth_limit_key ip1) evs (record_failure ip1 t0 l) 1 t0) as [Hc Hcount];
      rewrite ?Hcfg; try done; try (unfold n in Hlen; simpl in Hlen; lia).
    split; [unfold l1; simpl; congruence|]. unfold entry_of, l1. simpl. unfold counting in Hcount. rewrite Hcount. simpl.
    split; [|done]. do 2 f_equal. unfold n. simpl length. lia. }
  rewrite fail_all_app. fold l1. simpl. subst key.
  destruct (record_failure_entry ipn tn l1 n t0) as [Hc2 Hin]; rewrite ?Hc1; try done; try (subst n; lia).
  rewrite Hc1 in Hin. unfold check_allowed. rewrite Hc2, Hc1, He, Hip. simpl. rewrite Hin.
  destruct (decide (max_failures (cfg l) <= n + 1)); simpl.
  - destruct (decide (now < tn + ban (cfg l))); [by rewrite decide_True by lia|by rewrite decide_False by lia].
  - by rewrite decide_False by lia.
Qed.

(** the budgets before authentication are exact: frames are accepted exactly while their
    number and their bytes stay within the budget, decryption failures exactly up to theirs,
    and a well-formed HELLO is found exactly behind junk within the caps. *)
Theorem preauth_budgets_exact budget lens n junk hello c mf mb :
  0 <= budget.(max_junk_frames) < U32_MAX -> 0 <= budget.(max_junk_bytes) < USIZE_MAX ->
  0 <= budget.(max_decrypt_failures) < U32_MAX -> Forall (fun n => 0 <= n) lens ->
  0 <= mf < U32_MAX -> 0 <= mb < USIZE_MAX ->
  Forall (fun f => exists e, parse_hello_v3 f = Err e) junk -> parse_hello_v3 hello = Ok c ->
  ((note_frames budget lens PreAuthBudgetTracker_default).2 = Ok tt <->
   len lens <= budget.(max_junk_frames) /\ total lens <= budget.(max_junk_bytes)) /\
  ((note_failures budget n PreAuthBudgetTracker_default).2 = Ok tt <-> Z.of_nat n <= budget.(max_decrypt_failures)) /\
  (await_hello mf mb (junk ++ [hello]) PreHelloJunkTracker_default).2 =
  if decide (len junk <= mf /\ total (len <$> junk) <= mb) then Ok (Some c) else Err PRE_HELLO_CAP_ERR.
Proof.
  intros. split_and!.
  - apply (note_frames_exact budget lens PreAuthBudgetTracker_default); simpl; try done; lia.
  - apply (note_failures_exact budget n PreAuthBudgetTracker_default); simpl; lia.
  - apply (await_hello_exact mf mb junk hello c PreHelloJunkTracker_default); simpl; try done; lia.
Qed.

(** buckets: IPv4 sources are kept apart, an IPv4-mapped source shares the bucket of its
    IPv4 address, and two other IPv6 sources share one exactly when their /64 is the same. *)
Theorem limit_buckets a b c d :
  is_ipv4 a -> is_ipv6 c -> is_ipv6 d -> to_ipv4_mapped c = None -> to_ipv4_mapped d = None ->
  (auth_limit_key (V4 a) = auth_limit_key (V4 b) <-> a = b) /\
  auth_limit_key (V6 (65535 * 2 ^ 32 + a)) = auth_limit_key (V4 a) /\
  (auth_limit_key (V6 c) = auth_limit_key (V6 d) <-> c / 2 ^ 64 = d / 2 ^ 64) /\
  auth_limit_key (V6 c) <> auth_limit_key (V4 a).
Proof.
  unfold is_ipv4, is_ipv6. intros Ha Hc Hd Hmc Hmd. split_and!.
  - simpl. naive_solver.
  - unfold auth_limit_key, to_ipv4_mapped. rewrite Z.add_comm, Z.div_add, Z.div_small, Z.mod_add, Z.mod_small by lia. done.
  - rewrite !auth_limit_key_v6 by done.
    assert (c / 2 ^ 64 < 2 ^ 64 /\ d / 2 ^ 64 < 2 ^ 64) as [? ?] by (split; apply Z.div_lt_upper_bound; lia).
    pose proof (Z.div_pos c (2 ^ 64)). pose proof (Z.div_pos d (2 ^ 64)).
    rewrite !Z.mod_small by lia. split; [intros [= Heq]; lia|by intros ->].
  - rewrite auth_limit_key_v6 by done. done.
Qed.

(** *** Witnesses *)

(** A limiter that bans at the second failure. *)
Definition strict : AuthRateLimiter :=
  AuthRateLimiter_new {| enabled := true; max_failures := 2; window := secs 60; ban := secs 300 |}.

Lemma active_ban_holds_witness :
  (check_allowed (V6 (65535 * 2 ^ 32 + 1)) 9
     (limit_run (fail_all [(V4 1, 0); (V4 1, 5)] strict) [(Record_success, V4 1, 6); (Record_failure, V4 2, 7)])).2
  = bail "temporarily banned (too many auth failures)".
Proof.
  apply (active_ban_holds _ (V4 1) (secs 300 + 5) {| failures := 0; window_start := 5; banned_until := Some (secs 300 + 5) |}).
  1-3, 5-6: vm_compute; reflexivity.
  repeat (apply Forall_cons; split; [vm_compute; reflexivity|]). apply Forall_nil_2.
Defined.

Lemma ban_threshold_witness :
  (check_allowed (V4 1) (secs 300) (fail_all ([(V6 (65535 * 2 ^ 32 + 1), 0)] ++ [(V4 1, 5)]) strict)).2
  = bail "temporarily banned (too many auth failures)".
Proof.
  rewrite (ban_threshold strict (V4 1) 0 [(V6 (65535 * 2 ^ 32 + 1), 0)] (V4 1) 5 (V4 1) (secs 300)).
  - vm_compute. reflexivity.
  - vm_compute. reflexivity.
  - split; vm_compute; done.
  - vm_compute. done.
  - vm_compute. reflexivity.
  - vm_compute. reflexivity.
  - vm_compute. reflexivity.
  - repeat (apply Forall_cons; split; [split; vm_compute; done|]). apply Forall_nil_2.
  - vm_compute. reflexivity.
  - vm_compute. reflexivity.
Defined.

Lemma preauth_budgets_exact_witness :
  (await_hello 2 100 ([[1]; [2; 2]] ++ [[3] ++ replicate 32 8 ++ [1; 0]]) PreHelloJunkTracker_default).2
  = Ok (Some (replicate 32 8)).
Proof.
  assert (parse_hello_v3 ([3] ++ replicate 32 8 ++ [1; 0]) = Ok (replicate 32 8)) as Hh by (vm_compute; reflexivity).
  assert (Forall (fun f => exists e, parse_hello_v3 f = Err e) [[1]; [2; 2]]) as Hj
    by (repeat constructor; eexists; vm_compute; reflexivity).
  destruct (preauth_budgets_exact PreAuthBudget_default [] 0 _ _ _ 2 100
    ltac:(split; vm_compute; done) ltac:(split; vm_compute; done) ltac:(split; vm_compute; done) (Forall_nil_2 _)
    ltac:(split; vm_compute; done) ltac:(split; vm_compute; done) Hj Hh) as (_ & _ & H).
  rewrite H. reflexivity.
Defined.

Lemma limit_buckets_witness :
  auth_limit_key (V6 (2 ^ 100 + 7)) = auth_limit_key (V6 (2 ^ 100 + 8)) /\
  auth_limit_key (V6 (65535 * 2 ^ 32 + 9)) = V4 9.
Proof.
  destruct (limit_buckets 9 9 (2 ^ 100 + 7) (2 ^ 100 + 8)) as (_ & H1 & H2 & _);
    try (unfold is_ipv4, is_ipv6; lia); try reflexivity.
  split; [|exact H1]. apply H2. vm_compute. reflexivity.
Defined.
