(* ===== verification/DomainRoute.v ===== *)
(** [domain_route.rs]: split routing by domain. The DNS answers seen by the tunnel
    feed a map from addresses to names; a connection leaves the tunnel only on a
    local target or a name of the bypass list. Also the ClientHello SNI reader. *)
From S2P Require Import Prelude Text Net.

Inductive Route : Set := Tunnel | Direct.
#[export] Instance Route_eq_dec : EqDecision Route.
Proof. solve_decision. Defined.

Definition MIN_TTL_SECS : Z := 30.
Definition MAX_TTL_SECS : Z := 3600.
Definition MAX_ENTRIES : Z := 20000.

Record Entry := { domain : str; expires_at : Z }.
Abbreviation DomainRouteMap := (gmap IpAddr Entry).

(** ** Readers: [None] is [Err tt], an index out of range is [Panic] *)

Abbreviation opt := (res unit).
Definition none {A} : opt A := Err tt.
Definition checked_add (a b : Z) : opt Z := if decide (a + b <= USIZE_MAX) then Ok (a + b) else none.
Definition get_byte (b : bytes) (i : Z) : opt Z := context tt (get b i).

Record NameState := { labels : list str; pos : Z; jumps : Z; after_ptr : option Z }.

(** One turn of [read_name]'s loop; the second component tells whether it goes on. *)
Definition name_step (msg : bytes) (s : NameState) : opt (NameState * bool) :=
  n ← get_byte msg s.(pos);
  if decide (Z.land n 192 = 192) then
    b2 ← get_byte msg (s.(pos) + 1);
    let ptr := Z.lor (Z.shiftl (Z.land n 63) 8) b2 in
    let after := match s.(after_ptr) with None => Some (s.(pos) + 2) | a => a end in
    let jumps := s.(jumps) + 1 in
    if decide (32 < jumps \/ len msg <= ptr) then none
    else Ok ({| labels := s.(labels); pos := ptr; jumps := jumps; after_ptr := after |}, true)
  else if decide (n = 0) then
    Ok ({| labels := s.(labels); pos := s.(pos) + 1; jumps := s.(jumps); after_ptr := s.(after_ptr) |}, false)
  else
    st ← checked_add s.(pos) 1;
    e ← checked_add st n;
    if decide (len msg < e) then none else
    l ← slice msg st e;
    let labels := s.(labels) ++ [to_ascii_lowercase (from_utf8_lossy l)] in
    if decide (128 < len labels) then none
    else Ok ({| labels := labels; pos := e; jumps := s.(jumps); after_ptr := s.(after_ptr) |}, true).

Fixpoint name_loop (fuel : nat) (msg : bytes) (s : NameState) : opt NameState :=
  match fuel with
  | O => Panic
  | S fuel => '(s, go) ← name_step msg s; if (go : bool) then name_loop fuel msg s else Ok s
  end.
(** At most 32 jumps, 128 labels and the end. *)
Definition NAME_FUEL : nat := 162.
Definition read_name (msg : bytes) (start : Z) : opt (str * Z) :=
  s ← name_loop NAME_FUEL msg {| labels := []; pos := start; jumps := 0; after_ptr := None |};
  Ok (join [46] s.(labels), default s.(pos) s.(after_ptr)).

Definition parse_dns_query (msg : bytes) : opt (Z * str) :=
  if decide (len msg < 12) then none else
  id ← rd16 msg 0;
  qdcount ← rd16 msg 4;
  if decide (qdcount = 0) then none else
  '(qname, np) ← read_name msg 12;
  p ← checked_add np 4;
  if decide (len msg < p) then none else Ok (id, qname).

Fixpoint skip_questions (n : nat) (msg : bytes) (p : Z) : opt Z :=
  match n with
  | O => Ok p
  | S n =>
    '(_, np) ← read_name msg p;
    p ← checked_add np 4;
    if decide (len msg < p) then none else skip_questions n msg p
  end.

Fixpoint read_answers (n : nat) (msg : bytes) (p : Z) : opt (list (IpAddr * Z)) :=
  match n with
  | O => Ok []
  | S n =>
    '(_, np) ← read_name msg p;
    let p := np in
    p10 ← checked_add p 10;
    if decide (len msg < p10) then none else
    rtype ← rd16 msg p;
    ttl ← rd32 msg (p + 4);
    rdlen ← rd16 msg (p + 8);
    let p := p + 10 in
    rdend ← checked_add p rdlen;
    if decide (len msg < rdend) then none else
    found ← (if decide (rtype = 1 /\ rdlen = 4) then
               b ← slice msg p (p + 4); Ok [(V4 (of_be b), ttl)]
             else if decide (rtype = 28 /\ rdlen = 16) then
               b ← slice msg p (p + 16); Ok [(V6 (of_be b), ttl)]
             else Ok []);
    more ← read_answers n msg rdend;
    Ok (found ++ more)
  end.

Definition parse_dns_answers (msg : bytes) : opt (Z * str * list (IpAddr * Z)) :=
  if decide (len msg < 12) then none else
  id ← rd16 msg 0;
  qdcount ← rd16 msg 4;
  ancount ← rd16 msg 6;
  if decide (qdcount = 0) then none else
  '(qname, np) ← read_name msg 12;
  p ← checked_add np 4;
  if decide (len msg < p) then none else
  p ← skip_questions (Z.to_nat (qdcount - 1)) msg p;
  out ← read_answers (Z.to_nat ancount) msg p;
  Ok (id, qname, out).

(** ** Names and addresses *)

Definition normalize_domain (d : str) : str := to_ascii_lowercase (trim_end_matches is_dot d).

Definition matches_bypass (d : str) (bypass : list str) : bool :=
  let d := to_ascii_lowercase (trim_end_matches is_dot d) in
  if decide (d = []) then false else
  existsb (fun raw =>
    let b := to_ascii_lowercase (trim_end_matches is_dot (trim_start_matches is_dot (trim raw))) in
    if decide (b = []) then false else bool_decide (d = b) || ends_with d (46 :: b)) bypass.

Definition octet (o : bytes) (i : nat) : Z := default 0 (o !! i).

Definition ipv4_is_local_or_private (addr : Z) : bool :=
  let a := octet (octets4 addr) 0 in
  let b := octet (octets4 addr) 1 in
  if a =? 127 then true
  else if a =? 10 then true
  else if (a =? 172) && in_rng 16 31 b then true
  else if (a =? 192) && (b =? 168) then true
  else if (a =? 169) && (b =? 254) then true
  else if (a =? 100) && in_rng 64 127 b then true
  else false.

Definition ip_is_local_or_private (ip : IpAddr) : bool :=
  match ip with
  | V4 v4 => ipv4_is_local_or_private v4
  | V6 v6 =>
    if v6 =? 1 then true else
    match to_ipv4_mapped v6 with
    | Some v4 => ipv4_is_local_or_private v4
    | None =>
      let o := octets6 v6 in
      if Z.land (octet o 0) 254 =? 252 then true
      else if (octet o 0 =? 254) && (Z.land (octet o 1) 192 =? 128) then true
      else false
    end
  end.

Definition host_is_local_or_private (host : str) : bool :=
  let host := trim_end_matches is_dot host in
  if eq_ignore_ascii_case host (bs "localhost") then true
  else match parse_ip host with Some ip => ip_is_local_or_private ip | None => false end.

(** ** The map *)

(** [retain(|_, e| e.expires_at > now_secs)]. *)
Definition retain_live (now_secs : Z) (m : DomainRouteMap) : DomainRouteMap :=
  filter (fun e => now_secs < e.2.(expires_at)) m.

Fixpoint record_answers (d : str) (now_secs : Z) (answers : list (IpAddr * Z)) (m : DomainRouteMap) (n : Z) :
  DomainRouteMap * Z :=
  match answers with
  | [] => (m, n)
  | (ip, ttl) :: answers =>
    let conflict :=
      match m !! ip with
      | Some e => bool_decide (now_secs < e.(expires_at)) && negb (bool_decide (normalize_domain e.(domain) = d))
      | None => false
      end in
    if conflict then record_answers d now_secs answers m n
    else if decide (MAX_ENTRIES <= Z.of_nat (size m) /\ m !! ip = None) then record_answers d now_secs answers m n
    else
      let ttl := clamp MIN_TTL_SECS MAX_TTL_SECS ttl in
      let e := {| domain := d; expires_at := sat_add U64_MAX now_secs ttl |} in
      record_answers d now_secs answers (<[ip := e]> m) (n + 1)
  end.

Definition record_dns_response (dns_msg : bytes) (expected_id : Z) (expected_qname : str) (bypass : list str)
  (now_secs : Z) (m : DomainRouteMap) : DomainRouteMap * Z :=
  if decide (bypass = []) then (m, 0) else
  match parse_dns_answers dns_msg with
  | Ok (resp_id, qname, answers) =>
    if decide (resp_id <> expected_id \/ normalize_domain qname <> normalize_domain expected_qname
               \/ matches_bypass qname bypass = false \/ qname = [] \/ answers = [])
    then (m, 0)
    else
      let m := if decide (MAX_ENTRIES <= Z.of_nat (size m)) then retain_live now_secs m else m in
      record_answers (normalize_domain qname) now_secs answers m 0
  | _ => (m, 0)
  end.

Definition lookup_domain (ip : IpAddr) (now_secs : Z) (m : DomainRouteMap) : option str :=
  match m !! ip with
  | Some e => if decide (now_secs < e.(expires_at)) then Some e.(domain) else None
  | None => None
  end.
Definition prune (now_secs : Z) (m : DomainRouteMap) : DomainRouteMap := retain_live now_secs m.

Definition decide_route (host : str) (bypass : list str) (m : DomainRouteMap) (now_secs : Z) : Route :=
  if host_is_local_or_private host then Direct
  else if decide (bypass = []) then Tunnel
  else match parse_ip host with
  | None => if matches_bypass host bypass then Direct else Tunnel
  | Some ip =>
    match lookup_domain ip now_secs m with
    | Some d => if matches_bypass d bypass then Direct else Tunnel
    | None => Tunnel
    end
  end.

(** ** The process-wide map and list *)

Record Globals := { global_map : DomainRouteMap; global_bypass : list str }.
Definition set_bypass_domains (domains : list str) (g : Globals) : Globals :=
  {| global_map := g.(global_map);
     global_bypass := List.filter (fun d => negb (bool_decide (d = [])))
                        ((fun d => to_ascii_lowercase (trim d)) <$> domains) |}.
Definition bypass_domains_active (g : Globals) : bool := negb (bool_decide (g.(global_bypass) = [])).
Definition matches_active_bypass (d : str) (g : Globals) : bool :=
  if decide (g.(global_bypass) = []) then false else matches_bypass d g.(global_bypass).
Definition should_bypass (host : str) (now_secs : Z) (g : Globals) : bool :=
  if host_is_local_or_private host then true
  else if decide (g.(global_bypass) = []) then false
  else bool_decide (decide_route host g.(global_bypass) g.(global_map) now_secs = Direct).
Definition record_dns (dns_msg : bytes) (expected_id : Z) (expected_qname : str) (now_secs : Z) (g : Globals) : Globals :=
  if decide (g.(global_bypass) = []) then g
  else {| global_map := (record_dns_response dns_msg expected_id expected_qname g.(global_bypass) now_secs g.(global_map)).1;
          global_bypass := g.(global_bypass) |}.

(** ** The SNI of a ClientHello *)

Definition TLS_EXT_SERVER_NAME : Z := 0.
Definition SNI_HOST_NAME : Z := 0.

Fixpoint sni_names (fuel : nat) (data : bytes) (list_end pos : Z) : opt str :=
  match fuel with
  | O => Panic
  | S fuel =>
    p3 ← checked_add pos 3;
    if decide (list_end < p3) then none else
    name_type ← ix data pos;
    name_len ← rd16 data (pos + 1);
    let pos := p3 in
    name_end ← checked_add pos name_len;
    if decide (list_end < name_end) then none
    else if decide (name_type = SNI_HOST_NAME) then
      name ← slice data pos name_end;
      let host := trim_end_matches is_dot (from_utf8_lossy name) in
      if bool_decide (host = []) || bool_decide (is_Some (parse_ip host)) then none
      else Ok (to_ascii_lowercase host)
    else sni_names fuel data list_end name_end
  end.
(** Every turn consumes at least three bytes. *)
Definition parse_sni_extension (data : bytes) : opt str :=
  if decide (len data < 2) then none else
  list_len ← rd16 data 0;
  list_end ← checked_add 2 list_len;
  if decide (len data < list_end) then none else sni_names (S (length data)) data list_end 2.

Fixpoint sni_extensions (fuel : nat) (exts : bytes) (pos : Z) : opt str :=
  match fuel with
  | O => Panic
  | S fuel =>
    p4 ← checked_add pos 4;
    if decide (len exts < p4) then none else
    etype ← rd16 exts pos;
    elen ← rd16 exts (pos + 2);
    let pos := p4 in
    edata_end ← checked_add pos elen;
    if decide (len exts < edata_end) then none else
    edata ← slice exts pos edata_end;
    if decide (etype = TLS_EXT_SERVER_NAME) then
      sni ← attempt (parse_sni_extension edata);
      match sni with
      | Some sni => Ok sni
      | None => sni_extensions fuel exts edata_end
      end
    else sni_extensions fuel exts edata_end
  end.
Definition parse_extensions_sni (exts : bytes) : opt str := sni_extensions (S (length exts)) exts 0.

Definition parse_client_hello_body_sni (body : bytes) : opt str :=
  pos ← checked_add 2 32;
  if decide (len body <= pos) then none else
  sid_len ← ix body pos;
  pos ← checked_add pos 1; pos ← checked_add pos sid_len;
  p2 ← checked_add pos 2;
  if decide (len body < p2) then none else
  cs_len ← rd16 body pos;
  pos ← checked_add pos 2; pos ← checked_add pos cs_len;
  if decide (len body <= pos) then none else
  comp_len ← ix body pos;
  pos ← checked_add pos 1; pos ← checked_add pos comp_len;
  p2 ← checked_add pos 2;
  if decide (len body < p2) then none else
  ext_len ← rd16 body pos;
  pos ← checked_add pos 2;
  ext_end ← checked_add pos ext_len;
  if decide (len body < ext_end) then none else
  exts ← slice body pos ext_end;
  parse_extensions_sni exts.

Definition parse_handshake_client_hello_sni (hs : bytes) : opt str :=
  if decide (len hs < 4) then none else
  t ← ix hs 0;
  if decide (t <> 1) then none else
  a ← ix hs 1; b ← ix hs 2; c ← ix hs 3;
  body_end ← checked_add 4 (of_be [0; a; b; c]);
  if decide (len hs < body_end) then none else
  body ← slice hs 4 body_end;
  parse_client_hello_body_sni body.

Definition extract_client_hello_sni (record : bytes) : opt str :=
  if decide (len record < 5) then none else
  t ← ix record 0;
  if decide (t <> 22) then none else
  rec_len ← rd16 record 3;
  end_ ← checked_add 5 rec_len;
  if decide (len record < end_) then none else
  hs ← slice record 5 end_;
  parse_handshake_client_hello_sni hs.

(** ** Lemmas: the readers end *)

Lemma checked_add_Ok a b c : checked_add a b = Ok c -> c = a + b /\ a + b <= USIZE_MAX.
Proof. unfold checked_add. case_decide; [|done]. by intros [= <-]. Qed.
Lemma safe_checked_add a b : safe (checked_add a b).
Proof. unfold checked_add. by case_decide. Qed.
Lemma safe_get_byte b i : safe (get_byte b i).
Proof. apply safe_context. Qed.
Lemma get_byte_Ok b i x : get_byte b i = Ok x -> 0 <= i < len b /\ b !! Z.to_nat i = Some x.
Proof.
  unfold get_byte, get. case_decide as Hi; [|done]. destruct (b !! Z.to_nat i) as [y|] eqn:Hy; [|done].
  intros [= <-]. split; [|done]. apply lookup_lt_Some in Hy. unfold len. lia.
Qed.
Lemma get_byte_u8 b i x : u8s b -> get_byte b i = Ok x -> is_u8 x.
Proof. intros Hb [_ H]%get_byte_Ok. by eapply Forall_lookup_1. Qed.
#[export] Hint Resolve safe_checked_add safe_get_byte : safe.

(** One step through a checked reader. *)
Ltac read_step := first
  [ apply safe_bind; [apply safe_checked_add|]; let Hp := fresh in intros ? Hp; apply checked_add_Ok in Hp as [-> _]
  | apply safe_bind; [apply safe_ix; lia|]; intros ? ?; byte_facts
  | apply safe_bind; [apply safe_rd16; lia|]; intros ? ?; byte_facts
  | case_decide; [done|] ].

(** What remains before a name is refused. *)
Definition name_measure (s : NameState) : Z := 161 - s.(jumps) - len s.(labels).
Definition name_wf (s : NameState) : Prop :=
  0 <= s.(pos) /\ 0 <= s.(jumps) <= 32 /\ len s.(labels) <= 128 /\
  match s.(after_ptr) with Some a => 0 <= a | None => True end.

Lemma name_step_wf msg s s' go :
  u8s msg -> name_wf s -> name_step msg s = Ok (s', go) ->
  name_wf s' /\ (go = true -> name_measure s' = name_measure s - 1).
Proof.
  intros Hm (Hp & Hj & Hl & Ha). unfold name_step, name_measure, name_wf.
  intros (n & Hn & H)%bind_Ok. pose proof (get_byte_u8 _ _ _ Hm Hn) as Hnb. unfold is_u8 in Hnb. case_decide.
  - apply bind_Ok in H as (b2 & Hb2 & H). pose proof (get_byte_u8 _ _ _ Hm Hb2) as Hbb. unfold is_u8 in Hbb.
    destruct (decide (32 < jumps s + 1 \/ _)) as [|Hd]; [done|]. injection H as <- <-. cbn [labels pos jumps after_ptr].
    apply Decidable.not_or in Hd as [Hd _].
    assert (0 <= Z.lor (Z.shiftl (Z.land n 63) 8) b2).
    { apply Z.lor_nonneg. split; [|lia]. apply Z.shiftl_nonneg, Z.land_nonneg. lia. }
    split; [split_and!; try lia; destruct (after_ptr s); lia|intros _; lia].
  - case_decide.
    + injection H as <- <-. cbn [labels pos jumps after_ptr]. split; [split_and!; try lia; done|done].
    + apply bind_Ok in H as (st & Hst & H). apply checked_add_Ok in Hst as [-> _].
      apply bind_Ok in H as (e & He & H). apply checked_add_Ok in He as [-> _].
      case_decide; [done|]. apply bind_Ok in H as (l & _ & H).
      destruct (decide (128 < _)) as [|Hd]; [done|]. injection H as <- <-. cbn [labels pos jumps after_ptr].
      rewrite len_app, len_1 in *. split; [split_and!; try lia; done|intros _; lia].
Qed.

Lemma name_step_safe msg s : u8s msg -> name_wf s -> safe (name_step msg s).
Proof.
  intros Hm (Hp & _). unfold name_step. apply safe_bind; [auto with safe|]. intros n Hn.
  pose proof (get_byte_u8 _ _ _ Hm Hn) as Hnb. unfold is_u8 in Hnb.
  case_decide; [apply safe_bind; [auto with safe|]; intros ? _; cbv zeta; by case_decide|]. case_decide; [done|].
  apply safe_bind; [auto with safe|]. intros st [-> _]%checked_add_Ok.
  apply safe_bind; [auto with safe|]. intros e [-> _]%checked_add_Ok. case_decide; [done|].
  apply safe_bind; [apply safe_slice; lia|]. intros l _. cbv zeta. by case_decide.
Qed.

Lemma name_loop_safe fuel msg s :
  u8s msg -> name_wf s -> name_measure s < Z.of_nat fuel -> safe (name_loop fuel msg s).
Proof.
  intros Hm. revert s. induction fuel as [|fuel IH]; intros s Hs Hf.
  { destruct Hs as (_ & ? & ? & _). unfold name_measure in Hf. lia. }
  cbn [name_loop]. apply safe_bind; [by apply name_step_safe|]. intros [s' go] Hstep.
  destruct (name_step_wf _ _ _ _ Hm Hs Hstep) as [Hs' Hgo]. destruct go; [|done].
  apply IH; [done|]. specialize (Hgo eq_refl). lia.
Qed.

Lemma name_loop_wf fuel msg s s' : u8s msg -> name_wf s -> name_loop fuel msg s = Ok s' -> name_wf s'.
Proof.
  intros Hm. revert s. induction fuel as [|fuel IH]; intros s Hs; [done|]. cbn [name_loop].
  intros ([s1 go] & Hstep & H)%bind_Ok. destruct (name_step_wf _ _ _ _ Hm Hs Hstep) as [Hs' _].
  destruct go; [by eapply IH|]. by injection H as <-.
Qed.

Lemma start_wf p : 0 <= p -> name_wf {| labels := []; pos := p; jumps := 0; after_ptr := None |}.
Proof. unfold name_wf, len. simpl. intros. split_and!; lia || done. Qed.

Lemma read_name_safe msg p : u8s msg -> 0 <= p -> safe (read_name msg p).
Proof.
  intros Hm Hp. unfold read_name. apply safe_bind; [|done].
  apply name_loop_safe; [done|by apply start_wf|]. unfold name_measure, NAME_FUEL, len. simpl. lia.
Qed.

Lemma read_name_pos msg p name np : u8s msg -> 0 <= p -> read_name msg p = Ok (name, np) -> 0 <= np.
Proof.
  intros Hm Hp. unfold read_name. intros (s & Hs & H)%bind_Ok. apply name_loop_wf in Hs; [|done|by apply start_wf].
  destruct Hs as (? & _ & _ & Ha). injection H as _ <-. destruct (after_ptr s); simpl; lia.
Qed.

Lemma skip_questions_safe n msg p : u8s msg -> 0 <= p -> safe (skip_questions n msg p).
Proof.
  intros Hm. revert p. induction n as [|n IH]; intros p Hp; [done|]. cbn [skip_questions].
  apply safe_bind; [by apply read_name_safe|]. intros [nm np] Hnp. pose proof (read_name_pos _ _ _ _ Hm Hp Hnp).
  apply safe_bind; [auto with safe|]. intros q [-> _]%checked_add_Ok. case_decide; [done|]. apply IH. lia.
Qed.

Lemma skip_questions_pos n msg p q : u8s msg -> 0 <= p -> skip_questions n msg p = Ok q -> 0 <= q.
Proof.
  intros Hm. revert p. induction n as [|n IH]; intros p Hp; [by intros [= <-]|]. cbn [skip_questions].
  intros ([nm np] & Hnp & (p' & [-> _]%checked_add_Ok & Hq)%bind_Ok)%bind_Ok.
  pose proof (read_name_pos _ _ _ _ Hm Hp Hnp). case_decide; [done|]. apply IH in Hq; [done|lia].
Qed.

Lemma read_answers_safe n msg p : u8s msg -> 0 <= p -> safe (read_answers n msg p).
Proof.
  intros Hm. revert p. induction n as [|n IH]; intros p Hp; [done|]. cbn [read_answers].
  apply safe_bind; [by apply read_name_safe|]. intros [nm np] Hnp. pose proof (read_name_pos _ _ _ _ Hm Hp Hnp).
  cbv zeta. apply safe_bind; [auto with safe|]. intros p10 [-> _]%checked_add_Ok. case_decide; [done|].
  apply safe_bind; [apply safe_rd16; lia|]. intros rtype _.
  apply safe_bind; [apply safe_rd32; lia|]. intros ttl _.
  apply safe_bind; [apply safe_rd16; lia|]. intros rdlen Hrd. byte_facts.
  apply safe_bind; [auto with safe|]. intros rdend [-> _]%checked_add_Ok. case_decide; [done|].
  apply safe_bind; [repeat safe_step|]. intros found _. apply safe_bind; [apply IH; lia|done].
Qed.

Lemma parse_dns_query_safe msg : u8s msg -> safe (parse_dns_query msg).
Proof.
  intros Hm. unfold parse_dns_query. case_decide; [done|].
  apply safe_bind; [apply safe_rd16; lia|]. intros id _. apply safe_bind; [apply safe_rd16; lia|]. intros qd _.
  case_decide; [done|]. apply safe_bind; [by apply read_name_safe|]. intros [nm np] _.
  apply safe_bind; [auto with safe|]. intros p _. by case_decide.
Qed.

Lemma parse_dns_answers_safe msg : u8s msg -> safe (parse_dns_answers msg).
Proof.
  intros Hm. unfold parse_dns_answers. case_decide; [done|].
  do 3 (apply safe_bind; [apply safe_rd16; lia|]; intros ? _).
  case_decide; [done|]. apply safe_bind; [by apply read_name_safe|]. intros [nm np] Hnp.
  apply read_name_pos in Hnp; [|done|lia]. apply safe_bind; [auto with safe|]. intros p [-> _]%checked_add_Ok.
  case_decide; [done|]. apply safe_bind; [apply skip_questions_safe; [done|lia]|]. intros q Hq.
  apply skip_questions_pos in Hq; [|done|lia]. apply safe_bind; [by apply read_answers_safe|]. done.
Qed.

Lemma sni_names_safe fuel data e p :
  u8s data -> 0 <= p -> e <= len data -> e - p < Z.of_nat fuel -> (0 < fuel)%nat -> safe (sni_names fuel data e p).
Proof.
  intros Hd. revert p. induction fuel as [|fuel IH]; intros p Hp He Hf Hpos; [lia|]. cbn [sni_names].
  apply safe_bind; [auto with safe|]. intros p3 [-> _]%checked_add_Ok. case_decide; [done|].
  apply safe_bind; [apply safe_ix; lia|]. intros ty _. apply safe_bind; [apply safe_rd16; lia|]. intros nl Hnl. byte_facts.
  cbv zeta. apply safe_bind; [auto with safe|]. intros ne [-> _]%checked_add_Ok. case_decide; [done|].
  case_decide; [|apply IH; lia]. apply safe_bind; [apply safe_slice; lia|]. intros name _. cbv zeta. by destruct (_ || _).
Qed.

Lemma parse_sni_extension_safe data : u8s data -> safe (parse_sni_extension data).
Proof.
  intros Hd. unfold parse_sni_extension. case_decide; [done|]. apply safe_bind; [apply safe_rd16; lia|]. intros ll Hll.
  apply safe_bind; [auto with safe|]. intros le [-> _]%checked_add_Ok. case_decide; [done|].
  apply sni_names_safe; [done|lia|lia|unfold len in *; lia|lia].
Qed.

Lemma sni_extensions_safe fuel exts p :
  u8s exts -> 0 <= p -> len exts - p < Z.of_nat fuel -> (0 < fuel)%nat -> safe (sni_extensions fuel exts p).
Proof.
  intros Hd. revert p. induction fuel as [|fuel IH]; intros p Hp Hf Hpos; [lia|]. cbn [sni_extensions].
  apply safe_bind; [auto with safe|]. intros p4 [-> _]%checked_add_Ok. case_decide; [done|].
  apply safe_bind; [apply safe_rd16; lia|]. intros ty _. apply safe_bind; [apply safe_rd16; lia|]. intros el Hel. byte_facts.
  cbv zeta. apply safe_bind; [auto with safe|]. intros ee [-> _]%checked_add_Ok. case_decide; [done|].
  apply safe_bind; [apply safe_slice; lia|]. intros ed Hed.
  assert (safe (sni_extensions fuel exts (p + 4 + el))) by (apply IH; lia). case_decide; [|done].
  apply slice_inv in Hed as (_ & _ & ->).
  apply safe_bind; [apply safe_attempt, parse_sni_extension_safe; by apply u8s_sub|]. intros [sni|] _; done.
Qed.

Lemma parse_client_hello_body_sni_safe body : u8s body -> safe (parse_client_hello_body_sni body).
Proof.
  intros Hb. unfold parse_client_hello_body_sni.
  repeat read_step.
  apply safe_bind; [apply safe_slice; lia|]. intros exts (_ & _ & ->)%slice_inv.
  apply sni_extensions_safe; [by apply u8s_sub|lia|unfold len; lia|lia].
Qed.

Lemma be4_0 a b c : of_be [0; a; b; c] = a * 65536 + b * 256 + c.
Proof. change (of_be [0; a; b; c]) with (0 * 256 ^ 3 + (a * 256 ^ 2 + (b * 256 ^ 1 + (c * 256 ^ 0 + 0)))). lia. Qed.

Lemma extract_client_hello_sni_safe record : u8s record -> safe (extract_client_hello_sni record).
Proof.
  intros Hr. unfold extract_client_hello_sni. case_decide; [done|].
  apply safe_bind; [apply safe_ix; lia|]. intros t _. case_decide; [done|].
  apply safe_bind; [apply safe_rd16; lia|]. intros rl Hrl. byte_facts.
  apply safe_bind; [auto with safe|]. intros e [-> _]%checked_add_Ok. case_decide; [done|].
  apply safe_bind; [apply safe_slice; lia|]. intros hs (_ & _ & ->)%slice_inv.
  assert (u8s (sub record 5 (5 + rl))) as Hs by (by apply u8s_sub). revert Hs. generalize (sub record 5 (5 + rl)) as hs. intros hs Hs.
  unfold parse_handshake_client_hello_sni. case_decide; [done|].
  apply safe_bind; [apply safe_ix; lia|]. intros t' _. case_decide; [done|].
  do 3 (apply safe_bind; [apply safe_ix; lia|]; intros ? ?). byte_facts.
  apply safe_bind; [auto with safe|]. intros be [-> _]%checked_add_Ok. case_decide; [done|].
  apply safe_bind; [apply safe_slice; rewrite be4_0 in *; lia|]. intros body (_ & _ & ->)%slice_inv.
  apply parse_client_hello_body_sni_safe. by apply u8s_sub.
Qed.

(** ** Lemmas: well-formed messages are read *)

(** A label as a message carries it: 1 to 63 ASCII bytes. *)
Definition is_label (l : str) : Prop := 1 <= len l <= 63 /\ Forall (fun c => 0 <= c < 128) l.
Definition enc_labels (ls : list str) : bytes := concat ((fun l => len l :: l) <$> ls).
Definition enc_name (ls : list str) : bytes := enc_labels ls ++ [0].
Definition lower_labels (ls : list str) : list str := to_ascii_lowercase <$> ls.

Lemma get_byte_mid p x r i : i = len p -> get_byte (p ++ x :: r) i = Ok x.
Proof.
  intros ->. unfold get_byte, get, len. rewrite decide_True by lia. rewrite Nat2Z.id, lookup_app_r by lia.
  by rewrite Nat.sub_diag.
Qed.

Lemma land_192 n : 0 <= n < 64 -> Z.land n 192 <> 192.
Proof.
  intros Hn. assert (forallb (fun k => negb (Z.land (Z.of_nat k) 192 =? 192)) (seq 0 64) = true) as Hall by (vm_compute; reflexivity).
  rewrite forallb_forall in Hall. specialize (Hall (Z.to_nat n)). rewrite Z2Nat.id in Hall by lia.
  apply Z.eqb_neq, negb_true_iff, Hall. apply in_seq. lia.
Qed.

Lemma name_loop_labels fuel p ls suf s msg :
  msg = p ++ enc_name ls ++ suf -> len msg <= USIZE_MAX -> s.(pos) = len p ->
  Forall is_label ls -> len s.(labels) + len ls <= 128 -> (length ls < fuel)%nat ->
  name_loop fuel msg s =
  Ok {| labels := s.(labels) ++ lower_labels ls; pos := len p + len (enc_name ls); jumps := s.(jumps); after_ptr := s.(after_ptr) |}.
Proof.
  revert p s fuel. induction ls as [|l ls IH]; intros p s fuel Hm HU Hp Hls Hlen Hf;
    (destruct fuel as [|fuel]; [simpl in Hf; lia|]); cbn [name_loop]; unfold name_step at 1; rewrite Hp.
  - rewrite Hm at 1. change (enc_name [] ++ suf) with (0 :: suf). rewrite get_byte_mid by done.
    cbn [mbind res_bind]. rewrite decide_False by done. rewrite decide_True by done. cbn [mbind res_bind].
    by rewrite app_nil_r.
  - apply Forall_cons in Hls as [[Hl Hascii] Hls]. rewrite len_cons in Hlen.
    assert (msg = (p ++ [len l] ++ l) ++ enc_name ls ++ suf) as Hm'.
    { rewrite Hm. unfold enc_name, enc_labels. cbn [fmap list_fmap concat]. by rewrite <- !app_assoc. }
    assert (len p + 1 + len l <= len msg) as Hbound.
    { rewrite Hm', !len_app, len_1. pose proof (len_nonneg (enc_name ls)). pose proof (len_nonneg suf). lia. }
    rewrite Hm' at 1. rewrite <- !app_assoc. change ([len l] ++ ?x) with (len l :: x). rewrite get_byte_mid by done.
    cbn [mbind res_bind]. rewrite (decide_False (P := Z.land (len l) 192 = 192)) by (apply land_192; lia).
    rewrite (decide_False (P := len l = 0)) by lia.
    unfold checked_add. rewrite (decide_True (P := len p + 1 <= USIZE_MAX)) by lia. cbn [mbind res_bind].
    rewrite (decide_True (P := len p + 1 + len l <= USIZE_MAX)) by lia. cbn [mbind res_bind].
    rewrite (decide_False (P := len msg < len p + 1 + len l)) by lia.
    assert (@slice unit Z msg (len p + 1) (len p + 1 + len l) = Ok l) as ->.
    { rewrite Hm'. rewrite (app_assoc p). rewrite <- (app_assoc (p ++ [len l])). apply slice_mid; rewrite len_app, len_1; lia. }
    cbn [mbind res_bind]. rewrite from_utf8_lossy_ascii by done. pose proof (len_nonneg ls).
    rewrite decide_False by (rewrite len_app, len_1; lia).
    cbn [mbind res_bind]. rewrite (IH (p ++ [len l] ++ l)); cbn [labels pos jumps after_ptr]; try done.
    + f_equal. f_equal; [by rewrite <- app_assoc|]. unfold enc_name, enc_labels. cbn [fmap list_fmap concat].
      rewrite !len_app, !len_cons, !len_nil. lia.
    + rewrite !len_app, len_1. lia.
    + rewrite len_app, len_1. lia.
    + simpl in Hf. lia.
Qed.

Lemma read_name_enc p ls suf :
  Forall is_label ls -> len ls <= 128 -> len (p ++ enc_name ls ++ suf) <= USIZE_MAX ->
  read_name (p ++ enc_name ls ++ suf) (len p) = Ok (join [46] (lower_labels ls), len p + len (enc_name ls)).
Proof.
  intros Hls Hn HU. unfold read_name.
  erewrite (name_loop_labels NAME_FUEL p ls suf); [reflexivity|done..|unfold NAME_FUEL, len in *; lia].
Qed.

Lemma name_loop_go fuel msg s s' : name_step msg s = Ok (s', true) -> name_loop (S fuel) msg s = name_loop fuel msg s'.
Proof. intros Hs. cbn [name_loop]. by rewrite Hs. Qed.

(** A compression pointer to offset 12, where the question's name stands. *)
Lemma read_name_ptr p suf q ls r msg :
  msg = p ++ [192; 12] ++ suf -> msg = q ++ enc_name ls ++ r -> len q = 12 ->
  Forall is_label ls -> len ls <= 128 -> len msg <= USIZE_MAX ->
  read_name msg (len p) = Ok (join [46] (lower_labels ls), len p + 2).
Proof.
  intros Hm Hm' Hq Hls Hn HU. unfold read_name.
  set (s0 := {| labels := []; pos := len p; jumps := 0; after_ptr := None |}).
  set (s1 := {| labels := []; pos := 12; jumps := 1; after_ptr := Some (len p + 2) |}).
  assert (name_step msg s0 = Ok (s1, true)) as Hstep.
  { assert (get_byte msg (len p) = Ok 192) as Hb1 by (rewrite Hm; by apply get_byte_mid).
    assert (get_byte msg (len p + 1) = Ok 12) as Hb2.
    { rewrite Hm. change ([192; 12] ++ suf) with ([192] ++ 12 :: suf). rewrite app_assoc. apply get_byte_mid. by rewrite len_app. }
    unfold name_step, s0. cbn [pos after_ptr jumps labels]. rewrite Hb1. cbn [mbind res_bind].
    rewrite decide_True by done. rewrite Hb2. cbn [mbind res_bind].
    change (Z.lor (Z.shiftl (Z.land 192 63) 8) 12) with 12. cbv zeta. rewrite decide_False; [done|].
    rewrite Hm', !len_app, Hq. pose proof (len_nonneg r). pose proof (len_nonneg (enc_labels ls)).
    unfold enc_name. rewrite len_app, len_1. lia. }
  change NAME_FUEL with (S 161). rewrite (name_loop_go 161 _ _ _ Hstep).
  erewrite (name_loop_labels 161 q ls r s1); [reflexivity|done|done|done|done|done|unfold len in *; lia].
Qed.

(** A resource record whose owner is the question's name. *)
Definition answer : Type := Z * Z * bytes.
Definition enc_answer (a : answer) : bytes :=
  let '(rtype, ttl, rdata) := a in
  [192; 12] ++ to_be 2 rtype ++ [0; 1] ++ to_be 4 ttl ++ to_be 2 (len rdata) ++ rdata.
Definition is_answer (a : answer) : Prop :=
  let '(rtype, ttl, rdata) := a in is_u16 rtype /\ is_u32 ttl /\ len rdata < 65536.
(** The addresses a record gives. *)
Definition addr_of (a : answer) : list (IpAddr * Z) :=
  let '(rtype, ttl, rdata) := a in
  if decide (rtype = 1 /\ len rdata = 4) then [(V4 (of_be rdata), ttl)]
  else if decide (rtype = 28 /\ len rdata = 16) then [(V6 (of_be rdata), ttl)]
  else [].

Section Answers.
Context (msg q r : bytes) (ls : list str).
Context (Hq : msg = q ++ enc_name ls ++ r) (Hq12 : len q = 12) (Hls : Forall is_label ls) (Hn : len ls <= 128).
Context (HU : len msg + 10 <= USIZE_MAX).

Lemma answer_reads p rtype ttl rdata suf :
  msg = p ++ enc_answer (rtype, ttl, rdata) ++ suf -> is_answer (rtype, ttl, rdata) ->
  @rd16 unit msg (len p + 2) = Ok rtype /\ @rd32 unit msg (len p + 2 + 4) = Ok ttl /\
  @rd16 unit msg (len p + 2 + 8) = Ok (len rdata) /\
  @slice unit Z msg (len p + 2 + 10) (len p + 2 + 10 + len rdata) = Ok rdata /\
  len p + 12 + len rdata <= len msg.
Proof.
  intros Hm (Hrt & Httl & Hrd). pose proof (len_nonneg rdata). pose proof (len_nonneg suf). unfold enc_answer in Hm.
  split_and!.
  - replace msg with ((p ++ [192; 12]) ++ to_be 2 rtype ++ [0; 1] ++ to_be 4 ttl ++ to_be 2 (len rdata) ++ rdata ++ suf)
      by (rewrite Hm, <- !app_assoc; done). apply rd16_mid; [by rewrite len_app|done].
  - replace msg with ((p ++ [192; 12] ++ to_be 2 rtype ++ [0; 1]) ++ to_be 4 ttl ++ to_be 2 (len rdata) ++ rdata ++ suf)
      by (rewrite Hm, <- !app_assoc; done). apply rd32_mid; [|done]. autorewrite with wire. lia.
  - replace msg with ((p ++ [192; 12] ++ to_be 2 rtype ++ [0; 1] ++ to_be 4 ttl) ++ to_be 2 (len rdata) ++ rdata ++ suf)
      by (rewrite Hm, <- !app_assoc; done). apply rd16_mid; [autorewrite with wire; lia|ranges; lia].
  - replace msg with ((p ++ [192; 12] ++ to_be 2 rtype ++ [0; 1] ++ to_be 4 ttl ++ to_be 2 (len rdata)) ++ rdata ++ suf)
      by (rewrite Hm, <- !app_assoc; done). apply slice_mid; autorewrite with wire; lia.
  - rewrite Hm. autorewrite with wire. lia.
Qed.

Lemma read_answers_enc rs p suf :
  msg = p ++ concat (enc_answer <$> rs) ++ suf -> Forall is_answer rs ->
  read_answers (length rs) msg (len p) = Ok (concat (addr_of <$> rs)).
Proof.
  revert p. induction rs as [|[[rtype ttl] rdata] rs IH]; intros p Hm Hrs; [done|].
  apply Forall_cons in Hrs as [Ha Hrs]. cbn [fmap list_fmap concat] in Hm. rewrite <- app_assoc in Hm.
  destruct (answer_reads _ _ _ _ _ Hm Ha) as (R1 & R2 & R3 & R4 & Hlen). pose proof (len_nonneg p). pose proof (len_nonneg rdata).
  assert (read_name msg (len p) = Ok (join [46] (lower_labels ls), len p + 2)) as Hname.
  { eapply read_name_ptr; [|exact Hq|done|done|done|lia]. rewrite Hm. unfold enc_answer. by rewrite <- !app_assoc. }
  assert (read_answers (length rs) msg (len p + 2 + 10 + len rdata) = Ok (concat (addr_of <$> rs))) as Hrest.
  { replace (len p + 2 + 10 + len rdata) with (len (p ++ enc_answer (rtype, ttl, rdata)))
      by (unfold enc_answer; autorewrite with wire; lia). apply IH; [|done]. by rewrite <- app_assoc. }
  cbn [length read_answers]. rewrite Hname. cbn [mbind res_bind]. cbv zeta. unfold checked_add.
  rewrite (decide_True (P := len p + 2 + 10 <= USIZE_MAX)) by lia. cbn [mbind res_bind].
  rewrite (decide_False (P := len msg < len p + 2 + 10)) by lia. rewrite R1. cbn [mbind res_bind]. rewrite R2. cbn [mbind res_bind].
  rewrite R3. cbn [mbind res_bind].
  rewrite (decide_True (P := len p + 2 + 10 + len rdata <= USIZE_MAX)) by lia. cbn [mbind res_bind].
  rewrite (decide_False (P := len msg < len p + 2 + 10 + len rdata)) by lia.
  cbn [fmap list_fmap concat]. unfold addr_of at 1.
  destruct (decide (rtype = 1 /\ len rdata = 4)) as [[_ H4]|]; [|destruct (decide (rtype = 28 /\ len rdata = 16)) as [[_ H16]|]].
  - rewrite <- H4 at 1. rewrite R4. cbn [mbind res_bind]. by rewrite Hrest.
  - rewrite <- H16 at 1. rewrite R4. cbn [mbind res_bind]. by rewrite Hrest.
  - cbn [mbind res_bind]. by rewrite Hrest.
Qed.
End Answers.

(** A response to one question. *)
Definition dns_response (id flags qtype : Z) (ls : list str) (rs : list answer) : bytes :=
  to_be 2 id ++ to_be 2 flags ++ to_be 2 1 ++ to_be 2 (len rs) ++ [0; 0; 0; 0] ++
  enc_name ls ++ (to_be 2 qtype ++ [0; 1]) ++ concat (enc_answer <$> rs).
Definition dns_query (id flags qtype : Z) (ls : list str) : bytes := dns_response id flags qtype ls [].

Lemma ends_with_iff s p : ends_with s p = true <-> exists r, s = r ++ p.
Proof.
  unfold ends_with. rewrite andb_true_iff, Nat.leb_le, bool_decide_eq_true. split.
  - intros [_ H]. exists (take (length s - length p) s). rewrite <- H at 2. by rewrite take_drop.
  - intros [r ->]. rewrite length_app. split; [lia|]. replace (length r + length p - length p)%nat with (length r) by lia.
    by rewrite drop_app_length.
Qed.

(** What a list entry names, and what it covers. *)
Definition clean_entry (raw : str) : str :=
  to_ascii_lowercase (trim_end_matches is_dot (trim_start_matches is_dot (trim raw))).
Definition covered (d : str) (bypass : list str) : Prop :=
  normalize_domain d <> [] /\ exists raw, raw ∈ bypass /\ clean_entry raw <> [] /\
    (normalize_domain d = clean_entry raw \/ exists r, normalize_domain d = r ++ [46] ++ clean_entry raw).

Lemma matches_bypass_iff d bypass : matches_bypass d bypass = true <-> covered d bypass.
Proof.
  unfold matches_bypass, covered. fold (normalize_domain d). case_decide as Hd; [naive_solver|].
  rewrite existsb_exists. split.
  - intros (raw & Hin & Hm). split; [done|]. exists raw. split; [by apply list_elem_of_In|].
    fold (clean_entry raw) in Hm. case_decide as Hc; [done|]. split; [done|].
    apply orb_true_iff in Hm as [Hm%bool_decide_eq_true|Hm%ends_with_iff]; [by left|by right].
  - intros [_ (raw & Hin & Hc & Hm)]. exists raw. split; [by apply list_elem_of_In|].
    fold (clean_entry raw). rewrite decide_False by done.
    apply orb_true_iff. rewrite bool_decide_eq_true, ends_with_iff. destruct Hm; [by left|by right].
Qed.

(** *** The map *)

Definition route_inv (m : DomainRouteMap) : Prop :=
  Z.of_nat (size m) <= MAX_ENTRIES /\ forall ip e, m !! ip = Some e -> normalize_domain e.(domain) = e.(domain).

Lemma normalize_idemp d : normalize_domain (normalize_domain d) = normalize_domain d.
Proof.
  unfold normalize_domain. assert (forall s, trim_end_matches is_dot (to_ascii_lowercase (trim_end_matches is_dot s))
    = to_ascii_lowercase (trim_end_matches is_dot s)) as Ht.
  { intros s. unfold trim_end_matches. rewrite <- (rev_involutive (to_ascii_lowercase (rev _))). f_equal.
    unfold to_ascii_lowercase. rewrite map_rev || rewrite <- map_rev. rewrite !rev_involutive.
    induction (rev s) as [|c l IH]; [done|]. simpl. destruct (is_dot c) eqn:Hc; [done|]. simpl.
    assert (is_dot (ascii_lower c) = false) as ->; [|done].
    unfold is_dot, ascii_lower in *. destruct (in_rng 65 90 c) eqn:H; [|done]. apply in_rng_iff in H. apply Z.eqb_neq. lia. }
  by rewrite Ht, to_ascii_lowercase_idemp.
Qed.

(** What recording the answers of a response for [d] may change. *)
Definition recorded (d : str) (now : Z) (answers : list (IpAddr * Z)) (m m' : DomainRouteMap) : Prop :=
  (forall ip dom, lookup_domain ip now m = Some dom -> lookup_domain ip now m' = Some dom) /\
  (forall ip e, m' !! ip = Some e -> m !! ip = Some e \/
    exists ttl, (ip, ttl) ∈ answers /\ e.(domain) = d /\ e.(expires_at) = sat_add U64_MAX now (clamp MIN_TTL_SECS MAX_TTL_SECS ttl)).

Lemma clamp_bounds lo hi x : lo <= hi -> lo <= clamp lo hi x <= hi.
Proof. intros. unfold clamp. repeat case_decide; lia. Qed.

Lemma record_answers_spec d now answers m n m' n' :
  0 <= now -> now + MAX_TTL_SECS <= U64_MAX -> normalize_domain d = d -> route_inv m ->
  record_answers d now answers m n = (m', n') -> route_inv m' /\ recorded d now answers m m' /\ n <= n' <= n + len answers.
Proof.
  intros Hnow HU Hd. revert m n. induction answers as [|[ip ttl] answers IH]; intros m n Hinv.
  { intros [= <- <-]. rewrite len_nil. split; [done|]. split; [|lia]. split; [done|by left]. }
  cbn [record_answers]. rewrite len_cons. pose proof (len_nonneg answers).
  assert (forall m1 n1, route_inv m1 -> recorded d now [(ip, ttl)] m m1 -> n <= n1 <= n + 1 ->
    record_answers d now answers m1 n1 = (m', n') ->
    route_inv m' /\ recorded d now ((ip, ttl) :: answers) m m' /\ n <= n' <= n + (1 + len answers)) as Hstep.
  { intros m1 n1 Hinv1 [Hk1 Hn1] Hcount Hr. destruct (IH m1 n1 Hinv1 Hr) as (Hinv' & [Hk Hn] & Hc).
    split; [done|]. split; [|lia]. split; [intros; by apply Hk, Hk1|].
    intros ip' e He. destruct (Hn ip' e He) as [He1|(t & Ht & Hrest)]; [|right; exists t; split; [by apply list_elem_of_further|done]].
    destruct (Hn1 ip' e He1) as [He0|(t & Ht & Hrest)]; [by left|right]. exists t. split; [|done].
    apply list_elem_of_singleton in Ht as ->. apply list_elem_of_here. }
  assert (recorded d now [(ip, ttl)] m m) as Hsame by (split; [done|by left]).
  destruct (match m !! ip with Some e => _ | None => false end) eqn:Hconf; [by apply Hstep; [..|lia]|].
  case_decide as Hfull; [by apply Hstep; [..|lia]|].
  destruct Hinv as [Hs Hnorm]. apply Hstep; [..|lia].
  - split.
    + rewrite map_size_insert. destruct (m !! ip) eqn:Hip; simpl; [done|].
      destruct (decide (MAX_ENTRIES <= Z.of_nat (size m))); [by exfalso; apply Hfull|lia].
    + intros ip' e He. apply lookup_insert_Some in He as [[<- <-]|[_ He]]; [done|by eapply Hnorm].
  - pose proof (clamp_bounds MIN_TTL_SECS MAX_TTL_SECS ttl ltac:(done)) as Hcl. split.
    + intros ip' dom. unfold lookup_domain. destruct (decide (ip' = ip)) as [->|Hne]; [|by rewrite lookup_insert_ne].
      rewrite lookup_insert_eq. destruct (m !! ip) as [e|] eqn:Hip; [|done]. case_decide as Hlive; [|done].
      intros [= <-]. rewrite bool_decide_true in Hconf by done. simpl in Hconf.
      apply negb_false_iff, bool_decide_eq_true in Hconf. cbn [expires_at domain].
      rewrite decide_True by (unfold sat_add, MIN_TTL_SECS, MAX_TTL_SECS in *; lia). by rewrite <- Hconf, (Hnorm _ _ Hip).
    + intros ip' e He. apply lookup_insert_Some in He as [[<- <-]|[_ He]]; [|by left]. right. exists ttl.
      split; [apply list_elem_of_here|done].
Qed.

Lemma retain_live_spec now m :
  route_inv m -> route_inv (retain_live now m) /\
  (forall ip dom, lookup_domain ip now m = Some dom -> lookup_domain ip now (retain_live now m) = Some dom) /\
  (forall ip e, retain_live now m !! ip = Some e -> m !! ip = Some e).
Proof.
  intros [Hs Hn].
  assert (forall ip e, retain_live now m !! ip = Some e -> m !! ip = Some e) as Hsub.
  { intros ip e He. by apply map_lookup_filter_Some in He as [? _]. }
  split; [|split]; [split|..]; [|by intros ip e He%Hsub; eapply Hn| |done].
  - unfold retain_live. pose proof (map_size_filter (fun e : IpAddr * Entry => now < expires_at e.2) m). lia.
  - intros ip dom. unfold lookup_domain. destruct (m !! ip) as [e|] eqn:Hip; [|done]. case_decide as Hl; [|done].
    intros [= <-]. assert (retain_live now m !! ip = Some e) as -> by (by apply map_lookup_filter_Some).
    by rewrite decide_True.
Qed.

(** A response handed to the map: its bytes, the pending query, the list and the time. *)
Record Snoop := { sn_msg : bytes; sn_id : Z; sn_qname : str; sn_bypass : list str; sn_now : Z }.
Definition snoop (m : DomainRouteMap) (s : Snoop) : DomainRouteMap :=
  (record_dns_response s.(sn_msg) s.(sn_id) s.(sn_qname) s.(sn_bypass) s.(sn_now) m).1.
Definition snoop_run (l : list Snoop) (m : DomainRouteMap) : DomainRouteMap := fold_left snoop l m.
Definition clock_ok (s : Snoop) : Prop := 0 <= s.(sn_now) /\ s.(sn_now) + MAX_TTL_SECS <= U64_MAX.

(** The response [s] is the reason for the entry [e] of [ip]. *)
Definition evidence (s : Snoop) (ip : IpAddr) (e : Entry) : Prop :=
  exists qname answers ttl,
    parse_dns_answers s.(sn_msg) = Ok (s.(sn_id), qname, answers) /\
    normalize_domain qname = normalize_domain s.(sn_qname) /\ covered qname s.(sn_bypass) /\
    (ip, ttl) ∈ answers /\ e.(domain) = normalize_domain qname /\
    s.(sn_now) + MIN_TTL_SECS <= e.(expires_at) <= s.(sn_now) + MAX_TTL_SECS.

Lemma snoop_spec m s :
  clock_ok s -> route_inv m ->
  route_inv (snoop m s) /\
  (forall ip dom, lookup_domain ip s.(sn_now) m = Some dom -> lookup_domain ip s.(sn_now) (snoop m s) = Some dom) /\
  (forall ip e, snoop m s !! ip = Some e -> m !! ip = Some e \/ evidence s ip e).
Proof.
  intros [Hnow HU] Hinv. unfold snoop, record_dns_response.
  assert (route_inv m /\ (forall ip dom, lookup_domain ip s.(sn_now) m = Some dom -> lookup_domain ip s.(sn_now) m = Some dom) /\
    (forall ip e, m !! ip = Some e -> m !! ip = Some e \/ evidence s ip e)) as Hsame by (split_and!; [done|done|by left]).
  case_decide; [done|].
  destruct (parse_dns_answers (sn_msg s)) as [[[rid qname] answers]|[]|] eqn:Hp; [|done..].
  case_decide as Hc; [done|].
  assert (rid = sn_id s /\ normalize_domain qname = normalize_domain (sn_qname s) /\ matches_bypass qname (sn_bypass s) = true)
    as (-> & Hqn & Hm).
  { destruct (decide (rid = sn_id s)); [|tauto]. destruct (decide (normalize_domain qname = normalize_domain (sn_qname s))); [|tauto].
    destruct (matches_bypass qname (sn_bypass s)); [done|tauto]. }
  set (m1 := if decide _ then retain_live _ m else m).
  assert (route_inv m1 /\ (forall ip dom, lookup_domain ip s.(sn_now) m = Some dom -> lookup_domain ip s.(sn_now) m1 = Some dom) /\
    (forall ip e, m1 !! ip = Some e -> m !! ip = Some e)) as (Hinv1 & Hk1 & Hs1).
  { subst m1. case_decide; [by apply retain_live_spec|done]. }
  destruct (record_answers _ _ _ m1 0) as [m' n'] eqn:Hr.
  apply record_answers_spec in Hr as (Hinv' & [Hk Hn] & _); [|done|done|apply normalize_idemp|done].
  split_and!; [done|by intros; apply Hk, Hk1|]. intros ip e He.
  destruct (Hn ip e He) as [He1|(ttl & Hin & Hd & Hx)]; [left; by apply Hs1|right].
  pose proof (clamp_bounds MIN_TTL_SECS MAX_TTL_SECS ttl ltac:(done)).
  exists qname, answers, ttl. split_and!; try done; [by apply matches_bypass_iff|..];
    rewrite Hx; unfold sat_add, MIN_TTL_SECS, MAX_TTL_SECS in *; lia.
Qed.

Lemma snoop_run_spec l :
  Forall clock_ok l -> route_inv (snoop_run l ∅) /\
  forall ip e, snoop_run l ∅ !! ip = Some e -> exists s, s ∈ l /\ evidence s ip e.
Proof.
  intros Hl. rewrite <- (rev_involutive l) in *. generalize dependent (rev l). clear l. intros l Hl.
  apply Forall_rev in Hl. rewrite rev_involutive in Hl. unfold snoop_run.
  rewrite <- fold_left_rev_right, rev_involutive. induction Hl as [|s l Hs Hl [Hinv IH]]; simpl; [split|].
  - split; [done|]. by intros ip e.
  - by intros ip e.
  - destruct (snoop_spec _ s Hs Hinv) as (Hinv' & _ & He). split; [done|]. intros ip e Hin.
    destruct (He ip e Hin) as [Hold|Hev].
    + destruct (IH ip e Hold) as (s' & Hs' & Hev). exists s'. split; [|done]. apply elem_of_app. by left.
    + exists s. split; [|done]. apply elem_of_app. right. apply list_elem_of_here.
Qed.

(** ** Properties *)

(** the DNS and SNI readers end on every input: whatever bytes arrive, compression loops
    included, no loop runs out of its bound and no index is out of range. *)
Theorem wire_readers_total msg :
  u8s msg ->
  safe (parse_dns_query msg) /\ safe (parse_dns_answers msg) /\ safe (extract_client_hello_sni msg) /\
  forall p, 0 <= p -> safe (read_name msg p).
Proof.
  intros Hm. split_and!; [by apply parse_dns_query_safe|by apply parse_dns_answers_safe|by apply extract_client_hello_sni_safe|].
  intros. by apply read_name_safe.
Qed.

(** a DNS response, its answers compressed against the question, is read back: the id, the
    name in lower case and the addresses of its A and AAAA records; so is the query. *)
Theorem dns_messages_read id flags qtype ls rs :
  is_u16 id -> is_u16 (len rs) -> Forall is_label ls -> len ls <= 128 -> Forall is_answer rs ->
  len (dns_response id flags qtype ls rs) + 10 <= USIZE_MAX ->
  parse_dns_query (dns_response id flags qtype ls rs) = Ok (id, join [46] (lower_labels ls)) /\
  parse_dns_answers (dns_response id flags qtype ls rs) =
    Ok (id, join [46] (lower_labels ls), concat (addr_of <$> rs)).
Proof.
  intros Hid Hrs Hls Hn Hans HU. set (msg := dns_response id flags qtype ls rs) in *.
  set (q := to_be 2 id ++ to_be 2 flags ++ to_be 2 1 ++ to_be 2 (len rs) ++ [0; 0; 0; 0]).
  set (tl := (to_be 2 qtype ++ [0; 1]) ++ concat (enc_answer <$> rs)).
  assert (msg = q ++ enc_name ls ++ tl) as Hq by (unfold msg, dns_response, q, tl; by rewrite <- !app_assoc).
  assert (len q = 12) as Hq12 by (unfold q; by autorewrite with wire).
  assert (msg = (q ++ enc_name ls ++ to_be 2 qtype ++ [0; 1]) ++ concat (enc_answer <$> rs) ++ []) as Hans'.
  { rewrite app_nil_r, Hq. unfold tl. by rewrite <- !app_assoc. }
  assert (len (q ++ enc_name ls ++ to_be 2 qtype ++ [0; 1]) = 12 + len (enc_name ls) + 4) as Hlen.
  { rewrite !len_app, Hq12, len_to_be. unfold len at 2. simpl. lia. }
  assert (12 + len (enc_name ls) + 4 <= len msg) as Hle.
  { rewrite Hans', len_app, Hlen. pose proof (len_nonneg (concat (enc_answer <$> rs) ++ [])). lia. }
  pose proof (len_nonneg (enc_name ls)).
  assert (@rd16 unit msg 0 = Ok id) as R0.
  { rewrite Hq. unfold q. rewrite <- !app_assoc. by apply (rd16_mid []). }
  assert (@rd16 unit msg 4 = Ok 1) as R4.
  { rewrite Hq. unfold q. rewrite <- !app_assoc, app_assoc. apply rd16_mid; [by autorewrite with wire|done]. }
  assert (@rd16 unit msg 6 = Ok (len rs)) as R6.
  { rewrite Hq. unfold q. rewrite <- !app_assoc. rewrite (app_assoc (to_be 2 id)), (app_assoc (_ ++ _)).
    apply rd16_mid; [by autorewrite with wire|done]. }
  assert (read_name msg 12 = Ok (join [46] (lower_labels ls), 12 + len (enc_name ls))) as Rn.
  { rewrite Hq, <- Hq12. apply read_name_enc; [done|done|]. rewrite <- Hq. lia. }
  assert (checked_add (12 + len (enc_name ls)) 4 = Ok (12 + len (enc_name ls) + 4)) as Rc
    by (unfold checked_add; by rewrite decide_True by lia).
  assert (read_answers (length rs) msg (12 + len (enc_name ls) + 4) = Ok (concat (addr_of <$> rs))) as Ra.
  { rewrite <- Hlen. by eapply read_answers_enc. }
  split.
  - unfold parse_dns_query. rewrite decide_False by lia. rewrite R0. cbn [mbind res_bind]. rewrite R4. cbn [mbind res_bind].
    rewrite decide_False by done. rewrite Rn. cbn [mbind res_bind]. rewrite Rc. cbn [mbind res_bind]. by rewrite decide_False by lia.
  - unfold parse_dns_answers. rewrite decide_False by lia. rewrite R0. cbn [mbind res_bind]. rewrite R4. cbn [mbind res_bind].
    rewrite R6. cbn [mbind res_bind]. rewrite decide_False by done. rewrite Rn. cbn [mbind res_bind]. rewrite Rc. cbn [mbind res_bind].
    rewrite decide_False by lia. change (Z.to_nat (1 - 1)) with 0%nat. cbn [skip_questions mbind res_bind].
    unfold len at 1. rewrite Nat2Z.id, Ra. done.
Qed.

(** The route map, after any sequence of responses: it stays within its cap, every entry is
    owed to a recorded response that matched its query and names a covered domain, with its
    life between the clamped bounds, and a response never rebinds a live address. *)
Theorem dns_map_sound l s :
  Forall clock_ok (l ++ [s]) ->
  let m := snoop_run l ∅ in
  Z.of_nat (size m) <= MAX_ENTRIES /\
  (forall ip e, m !! ip = Some e -> exists s', s' ∈ l /\ evidence s' ip e) /\
  (forall ip dom, lookup_domain ip s.(sn_now) m = Some dom -> lookup_domain ip s.(sn_now) (snoop m s) = Some dom).
Proof.
  intros [Hl [Hs _]%Forall_cons]%Forall_app m. destruct (snoop_run_spec l Hl) as [Hinv Hev].
  split; [apply Hinv|]. split; [done|]. by apply snoop_spec.
Qed.

(** C32: a connection leaves the tunnel only with cause: a local target, a covered name, or an
    address that a response for a covered name gave less than the maximal life ago. *)
Theorem direct_only_with_cause l host bypass now :
  Forall clock_ok l -> decide_route host bypass (snoop_run l ∅) now = Direct ->
  host_is_local_or_private host = true \/
  (parse_ip host = None /\ covered host bypass) \/
  exists ip e s, parse_ip host = Some ip /\ s ∈ l /\ evidence s ip e /\ covered e.(domain) bypass /\
    now < s.(sn_now) + MAX_TTL_SECS.
Proof.
  intros Hl. unfold decide_route. destruct (host_is_local_or_private host); [by left|]. case_decide; [done|].
  destruct (parse_ip host) as [ip|] eqn:Hip.
  - destruct (lookup_domain ip now (snoop_run l ∅)) as [d|] eqn:Hd; [|done].
    destruct (matches_bypass d bypass) eqn:Hm; [|done]. intros _. right. right.
    unfold lookup_domain in Hd. destruct (snoop_run l ∅ !! ip) as [e|] eqn:He; [|done]. case_decide as Hlive; [|done].
    injection Hd as <-. destruct (snoop_run_spec l Hl) as [_ Hev]. destruct (Hev ip e He) as (s & Hs & Hevs).
    exists ip, e, s. split_and!; try done; [by apply matches_bypass_iff|].
    destruct Hevs as (? & ? & ? & _ & _ & _ & _ & _ & Hx). lia.
  - destruct (matches_bypass host bypass) eqn:Hm; [|done]. intros _. right. left. split; [done|]. by apply matches_bypass_iff.
Qed.

(** *** ClientHellos *)

Definition enc_ext (x : Z * bytes) : bytes := to_be 2 x.1 ++ to_be 2 (len x.2) ++ x.2.
Definition sni_data (name : str) : bytes := to_be 2 (3 + len name) ++ [0] ++ to_be 2 (len name) ++ name.

Record HelloParts := {
  h_version : bytes; h_random : bytes; h_sid : bytes; h_suites : bytes; h_comp : bytes;
  h_before : list (Z * bytes); h_after : bytes;
}.
Definition hello_exts (h : HelloParts) (name : str) : bytes :=
  concat (enc_ext <$> h.(h_before)) ++ enc_ext (0, sni_data name) ++ h.(h_after).
Definition hello_body (h : HelloParts) (name : str) : bytes :=
  h.(h_version) ++ h.(h_random) ++ [len h.(h_sid)] ++ h.(h_sid) ++ to_be 2 (len h.(h_suites)) ++ h.(h_suites) ++
  [len h.(h_comp)] ++ h.(h_comp) ++ to_be 2 (len (hello_exts h name)) ++ hello_exts h name.
Definition hello_record (h : HelloParts) (name : str) (version trailing : bytes) : bytes :=
  [22] ++ version ++ to_be 2 (4 + len (hello_body h name)) ++
  ([1] ++ to_be 3 (len (hello_body h name)) ++ hello_body h name) ++ trailing.
Definition hello_wf (h : HelloParts) : Prop :=
  len h.(h_version) = 2 /\ len h.(h_random) = 32 /\ len h.(h_sid) < 256 /\ len h.(h_suites) < 65536 /\ len h.(h_comp) < 256 /\
  Forall (fun x => is_u16 x.1 /\ x.1 <> 0 /\ len x.2 < 65536) h.(h_before).

Lemma checked_add_small a b : a + b <= 1000000 -> checked_add a b = Ok (a + b).
Proof. intros. unfold checked_add. apply decide_True. unfold USIZE_MAX, U64_MAX. lia. Qed.

Lemma parse_sni_data name :
  Forall (fun c => 0 <= c < 128) name -> len name < 65500 ->
  trim_end_matches is_dot name <> [] -> parse_ip (trim_end_matches is_dot name) = None ->
  parse_sni_extension (sni_data name) = Ok (to_ascii_lowercase (trim_end_matches is_dot name)).
Proof.
  intros Ha Hl Hne Hip. pose proof (len_nonneg name). unfold parse_sni_extension.
  assert (len (sni_data name) = 5 + len name) as Hlen by (unfold sni_data; autorewrite with wire; lia).
  assert (@rd16 unit (sni_data name) 0 = Ok (3 + len name)) as R0 by (apply (rd16_mid []); [done|ranges; lia]).
  assert (@rd16 unit (sni_data name) (2 + 1) = Ok (len name)) as R3.
  { unfold sni_data. rewrite app_assoc. apply rd16_mid; [by autorewrite with wire|ranges; lia]. }
  assert (@ix unit Z (sni_data name) 2 = Ok 0) as R2 by (apply ix_eq; done).
  assert (@slice unit Z (sni_data name) (2 + 3) (2 + 3 + len name) = Ok name) as Rs.
  { unfold sni_data. rewrite !app_assoc. apply slice_end; autorewrite with wire; lia. }
  rewrite decide_False by lia. rewrite R0. cbn [mbind res_bind]. rewrite checked_add_small by lia. cbn [mbind res_bind].
  rewrite decide_False by lia. cbn [sni_names]. rewrite checked_add_small by lia. cbn [mbind res_bind].
  rewrite decide_False by lia. rewrite R2. cbn [mbind res_bind]. rewrite R3. cbn [mbind res_bind]. cbv zeta.
  rewrite checked_add_small by lia. cbn [mbind res_bind]. rewrite decide_False by lia. rewrite decide_True by done.
  rewrite Rs. cbn [mbind res_bind]. rewrite from_utf8_lossy_ascii by done.
  rewrite (bool_decide_false (_ = [])) by done. rewrite Hip. done.
Qed.

Lemma sni_extensions_found fuel p before name after :
  Forall (fun x => is_u16 x.1 /\ x.1 <> 0 /\ len x.2 < 65536) before -> (length before < fuel)%nat ->
  Forall (fun c => 0 <= c < 128) name -> len name < 65500 ->
  trim_end_matches is_dot name <> [] -> parse_ip (trim_end_matches is_dot name) = None ->
  len (p ++ concat (enc_ext <$> before) ++ enc_ext (0, sni_data name) ++ after) < 65536 ->
  sni_extensions fuel (p ++ concat (enc_ext <$> before) ++ enc_ext (0, sni_data name) ++ after) (len p) =
  Ok (to_ascii_lowercase (trim_end_matches is_dot name)).
Proof.
  intros Hb Hf Ha Hl Hne Hip. revert p fuel Hf.
  assert (forall fuel p x suf, is_u16 x.1 -> len x.2 < 65536 -> len (p ++ enc_ext x ++ suf) < 65536 ->
    sni_extensions (S fuel) (p ++ enc_ext x ++ suf) (len p) =
    (if decide (x.1 = TLS_EXT_SERVER_NAME) then
       sni ← attempt (parse_sni_extension x.2);
       match sni with
       | Some sni => Ok sni
       | None => sni_extensions fuel (p ++ enc_ext x ++ suf) (len (p ++ enc_ext x))
       end
     else sni_extensions fuel (p ++ enc_ext x ++ suf) (len (p ++ enc_ext x)))) as Hstep.
  { intros fuel p [t d] suf Ht Hd. simpl in Ht, Hd. set (m := p ++ enc_ext (t, d) ++ suf). intros Hm.
    pose proof (len_nonneg d). pose proof (len_nonneg p). pose proof (len_nonneg suf).
    assert (len (p ++ enc_ext (t, d)) = len p + 4 + len d) as He by (unfold enc_ext; simpl; autorewrite with wire; lia).
    assert (len m = len p + 4 + len d + len suf) as Hml by (unfold m; rewrite app_assoc, len_app, He; done).
    assert (@rd16 unit m (len p) = Ok t) as R0.
    { unfold m, enc_ext. cbn [fst snd]. rewrite <- !app_assoc. by apply rd16_mid. }
    assert (@rd16 unit m (len p + 2) = Ok (len d)) as R2.
    { unfold m, enc_ext. cbn [fst snd]. rewrite <- !app_assoc. rewrite (app_assoc p). apply rd16_mid; [by autorewrite with wire|ranges; lia]. }
    assert (@slice unit Z m (len p + 4) (len p + 4 + len d) = Ok d) as Rs.
    { unfold m, enc_ext. cbn [fst snd]. rewrite <- !app_assoc. rewrite (app_assoc (to_be 2 t)), (app_assoc p).
      apply slice_mid; autorewrite with wire; lia. }
    cbn [sni_extensions]. rewrite checked_add_small by lia. cbn [mbind res_bind]. rewrite decide_False by lia.
    rewrite R0. cbn [mbind res_bind]. rewrite R2. cbn [mbind res_bind]. cbv zeta. rewrite checked_add_small by lia.
    cbn [mbind res_bind]. rewrite decide_False by lia. rewrite Rs. cbn [mbind res_bind]. by rewrite <- He. }
  induction Hb as [|x before (Ht & Hne0 & Hd) Hb IH]; intros p fuel Hf Hlen; (destruct fuel as [|fuel]; [simpl in Hf; lia|]).
  - cbn [fmap list_fmap concat app] in *. rewrite Hstep by (simpl; try done; unfold sni_data; autorewrite with wire; lia).
    simpl fst. simpl snd. rewrite decide_True by done. by rewrite parse_sni_data.
  - cbn [fmap list_fmap concat] in *. rewrite <- (app_assoc (enc_ext x)) in *. rewrite Hstep by done.
    rewrite decide_False by done. rewrite (app_assoc p). apply IH; [simpl in Hf; lia|]. by rewrite <- (app_assoc p).
Qed.

Lemma hello_body_sni h name :
  hello_wf h -> len (hello_body h name) < 65536 ->
  parse_client_hello_body_sni (hello_body h name) = parse_extensions_sni (hello_exts h name).
Proof.
  intros (Hv & Hr & Hsid & Hcs & Hcomp & _). unfold hello_body. generalize (hello_exts h name) as exts. intros exts.
  destruct h as [v r sid cs comp bef aft]. cbn [h_version h_random h_sid h_suites h_comp] in *. clear bef aft.
  set (body := v ++ r ++ _). intros Hlen.
  pose proof (len_nonneg sid). pose proof (len_nonneg cs). pose proof (len_nonneg comp). pose proof (len_nonneg exts).
  assert (len body = 34 + 1 + len sid + 2 + len cs + 1 + len comp + 2 + len exts) as Hbl
    by (unfold body; autorewrite with wire; lia).
  assert (@ix unit Z body (2 + 32) = Ok (len sid)) as R1.
  { unfold body. rewrite (app_assoc v). apply ix_mid; rewrite len_app; lia. }
  assert (@rd16 unit body (2 + 32 + 1 + len sid) = Ok (len cs)) as R2.
  { unfold body. rewrite !(app_assoc v). rewrite (app_assoc (_ ++ _)), (app_assoc (_ ++ _)).
    apply rd16_mid; [autorewrite with wire; lia|ranges; lia]. }
  assert (@ix unit Z body (2 + 32 + 1 + len sid + 2 + len cs) = Ok (len comp)) as R3.
  { replace body with ((v ++ r ++ [len sid] ++ sid ++ to_be 2 (len cs) ++ cs) ++ [len comp] ++ comp ++ to_be 2 (len exts) ++ exts)
      by (unfold body; by rewrite <- !app_assoc). apply ix_mid. autorewrite with wire. lia. }
  assert (@rd16 unit body (2 + 32 + 1 + len sid + 2 + len cs + 1 + len comp) = Ok (len exts)) as R4.
  { replace body with ((v ++ r ++ [len sid] ++ sid ++ to_be 2 (len cs) ++ cs ++ [len comp] ++ comp) ++ to_be 2 (len exts) ++ exts)
      by (unfold body; by rewrite <- !app_assoc). apply rd16_mid; [autorewrite with wire; lia|ranges; lia]. }
  assert (@slice unit Z body (2 + 32 + 1 + len sid + 2 + len cs + 1 + len comp + 2)
    (2 + 32 + 1 + len sid + 2 + len cs + 1 + len comp + 2 + len exts) = Ok exts) as R5.
  { replace body with ((v ++ r ++ [len sid] ++ sid ++ to_be 2 (len cs) ++ cs ++ [len comp] ++ comp ++ to_be 2 (len exts)) ++ exts)
      by (unfold body; by rewrite <- !app_assoc). apply slice_end; autorewrite with wire; lia. }
  unfold parse_client_hello_body_sni.
  repeat first
    [ rewrite checked_add_small by lia | rewrite decide_False by lia
    | rewrite R1 | rewrite R2 | rewrite R3 | rewrite R4 | rewrite R5 | progress cbn [mbind res_bind] ].
  done.
Qed.

(** the SNI of a ClientHello is found whatever surrounds it: any session id, cipher suites,
    compression methods and extensions before and after it; it comes in lower case and
    without trailing dots. *)
Theorem client_hello_sni_found h name version trailing :
  hello_wf h -> len version = 2 -> 4 + len (hello_body h name) < 65536 ->
  Forall (fun c => 0 <= c < 128) name -> trim_end_matches is_dot name <> [] ->
  parse_ip (trim_end_matches is_dot name) = None ->
  extract_client_hello_sni (hello_record h name version trailing) =
  Ok (to_ascii_lowercase (trim_end_matches is_dot name)).
Proof.
  intros Hwf Hv Hlen Ha Hne Hip. set (body := hello_body h name) in *. set (n := len body) in *.
  pose proof (len_nonneg body) as Hn. fold n in Hn.
  set (hs := [1] ++ to_be 3 n ++ body). assert (len hs = 4 + n) as Hhs by (unfold hs; autorewrite with wire; lia).
  assert (parse_handshake_client_hello_sni hs = parse_client_hello_body_sni body) as Hh.
  { assert (of_be [0; (n / 256 ^ 2) mod 256; (n / 256 ^ 1) mod 256; (n / 256 ^ 0) mod 256] = n) as Hbe.
    { transitivity (0 * 256 ^ 3 + of_be (to_be 3 n)); [reflexivity|]. rewrite of_be_to_be_id; lia. }
    assert (@slice unit Z hs 4 (4 + n) = Ok body) as Rs.
    { unfold hs. rewrite app_assoc. apply slice_end; autorewrite with wire; unfold n; lia. }
    unfold parse_handshake_client_hello_sni. rewrite decide_False by lia.
    assert (@ix unit Z hs 0 = Ok 1) as -> by (by apply ix_eq). cbn [mbind res_bind]. rewrite decide_False by lia.
    assert (@ix unit Z hs 1 = Ok ((n / 256 ^ 2) mod 256)) as -> by (by apply ix_eq). cbn [mbind res_bind].
    assert (@ix unit Z hs 2 = Ok ((n / 256 ^ 1) mod 256)) as -> by (by apply ix_eq). cbn [mbind res_bind].
    assert (@ix unit Z hs 3 = Ok ((n / 256 ^ 0) mod 256)) as -> by (by apply ix_eq). cbn [mbind res_bind].
    rewrite Hbe, checked_add_small by lia. cbn [mbind res_bind]. rewrite decide_False by lia. by rewrite Rs. }
  set (rec := hello_record h name version trailing).
  assert (rec = [22] ++ version ++ to_be 2 (4 + n) ++ hs ++ trailing) as Hrec by done.
  assert (len rec = 5 + (4 + n) + len trailing) as Hrl by (rewrite Hrec; autorewrite with wire; lia).
  pose proof (len_nonneg trailing). unfold extract_client_hello_sni. rewrite decide_False by lia.
  assert (@ix unit Z rec 0 = Ok 22) as -> by (by apply ix_eq). cbn [mbind res_bind]. rewrite decide_False by lia.
  assert (@rd16 unit rec 3 = Ok (4 + n)) as ->.
  { rewrite Hrec, app_assoc. apply rd16_mid; [autorewrite with wire; lia|ranges; lia]. }
  cbn [mbind res_bind]. rewrite checked_add_small by lia. cbn [mbind res_bind]. rewrite decide_False by lia.
  assert (@slice unit Z rec 5 (5 + (4 + n)) = Ok hs) as ->.
  { rewrite Hrec. rewrite (app_assoc version), (app_assoc [22]). apply slice_mid; autorewrite with wire; lia. }
  cbn [mbind res_bind]. rewrite Hh. unfold body. rewrite hello_body_sni by (done || (fold body; lia)).
  unfold parse_extensions_sni. assert (len (hello_exts h name) < 65500) as He.
  { assert (len (hello_exts h name) + 40 <= n); [|lia]. unfold n, body, hello_body. autorewrite with wire.
    destruct Hwf as (? & ? & _). pose proof (len_nonneg (h_sid h)).
    pose proof (len_nonneg (h_suites h)). pose proof (len_nonneg (h_comp h)). lia. }
  destruct Hwf as (_ & _ & _ & _ & _ & Hb). unfold hello_exts in *.
  apply (sni_extensions_found _ []); try done; [| |cbn [app]; lia].
  - assert (length (h_before h) <= length (concat (enc_ext <$> h_before h)))%nat as Hc.
    { clear. induction (h_before h) as [|x l IH]; [simpl; lia|]. rewrite fmap_cons. cbn [concat]. rewrite length_app.
      unfold enc_ext at 1. rewrite !length_app. pose proof (len_to_be 2 x.1). unfold len in *. simpl length. lia. }
    rewrite length_app. lia.
  - assert (len name <= len (enc_ext (0, sni_data name))) as Hname.
    { unfold enc_ext, sni_data. cbn [fst snd]. autorewrite with wire. lia. }
    rewrite !len_app in He. pose proof (len_nonneg (concat (enc_ext <$> h_before h))). pose proof (len_nonneg (h_after h)). lia.
Qed.

(** *** Witnesses *)

Lemma wire_readers_total_witness : safe (parse_dns_answers (replicate 12 192)) /\ read_name [192; 0] 0 = none.
Proof.
  split; [|vm_compute; reflexivity].
  apply (wire_readers_total (replicate 12 192)). by apply Forall_replicate.
Defined.

Definition demo_labels : list str := [bs "Example"; bs "com"].
Definition demo_answers : list answer := [(1, 7, [93; 184; 216; 34])].
Definition demo_response : bytes := dns_response 4660 33152 1 demo_labels demo_answers.
Definition demo_snoop : Snoop :=
  {| sn_msg := demo_response; sn_id := 4660; sn_qname := bs "example.com."; sn_bypass := [bs ".COM"]; sn_now := 1000 |}.

Lemma ascii_lits s : forallb (fun c => (0 <=? c) && (c <? 128)) s = true -> Forall (fun c => 0 <= c < 128) s.
Proof.
  rewrite forallb_forall. intros H. apply Forall_forall. intros c Hc%list_elem_of_In. specialize (H _ Hc).
  apply andb_true_iff in H. lia.
Qed.

Lemma dns_messages_read_witness :
  parse_dns_answers demo_response = Ok (4660, bs "example.com", [(V4 1572395042, 7)]).
Proof.
  destruct (dns_messages_read 4660 33152 1 demo_labels demo_answers) as [_ H].
  - split; vm_compute; done.
  - split; vm_compute; done.
  - repeat constructor; try (vm_compute; done); apply ascii_lits; vm_compute; reflexivity.
  - vm_compute. done.
  - repeat constructor; vm_compute; done.
  - vm_compute. done.
  - unfold demo_response. rewrite H. vm_compute. reflexivity.
Defined.

Lemma dns_map_sound_witness :
  lookup_domain (V4 1572395042) 1000 (snoop (snoop_run [demo_snoop] ∅) demo_snoop) = Some (bs "example.com").
Proof.
  destruct (dns_map_sound [demo_snoop] demo_snoop) as (_ & _ & H).
  - repeat constructor; vm_compute; done.
  - apply H. vm_compute. reflexivity.
Defined.

Lemma direct_only_with_cause_witness :
  decide_route (bs "93.184.216.34") [bs "example.com"] (snoop_run [demo_snoop] ∅) 1029 = Direct /\
  exists ip e s, parse_ip (bs "93.184.216.34") = Some ip /\ s ∈ [demo_snoop] /\ evidence s ip e.
Proof.
  assert (decide_route (bs "93.184.216.34") [bs "example.com"] (snoop_run [demo_snoop] ∅) 1029 = Direct) as Hd
    by (vm_compute; reflexivity). split; [exact Hd|].
  destruct (direct_only_with_cause [demo_snoop] _ _ _ ltac:(repeat constructor; vm_compute; done) Hd)
    as [Hl|[[Hn _]|(ip & e & s & H1 & H2 & H3 & _)]].
  - vm_compute in Hl. discriminate Hl.
  - vm_compute in Hn. discriminate Hn.
  - exists ip, e, s. split; [exact H1|split; [exact H2|exact H3]].
Defined.

Definition demo_hello : HelloParts :=
  {| h_version := [3; 3]; h_random := replicate 32 7; h_sid := [1; 2]; h_suites := [19; 1]; h_comp := [0];
     h_before := [(10, [0; 2; 0; 29])]; h_after := [0; 43; 0; 1; 2] |}.

Lemma client_hello_sni_found_witness :
  extract_client_hello_sni (hello_record demo_hello (bs "WWW.Example.com.") [3; 1] [9]) = Ok (bs "www.example.com").
Proof.
  rewrite (client_hello_sni_found demo_hello (bs "WWW.Example.com.") [3; 1] [9]).
  - vm_compute. reflexivity.
  - repeat (split; [vm_compute; done|]). repeat constructor; vm_compute; done.
  - reflexivity.
  - vm_compute. reflexivity.
  - apply ascii_lits. vm_compute. reflexivity.
  - vm_compute. done.
  - vm_compute. reflexivity.
Defined.
