(* ===== verification/Reality.v ===== *)
(** [reality.rs]: the REALITY handshake run over an upgraded WebSocket: its frames,
    the server's and the client's exchange, the allowlists, and the replay cache.
    X25519 and BLAKE3 are records of operations with their documented laws. *)
From S2P Require Import Prelude Text Net WebSocket Crypto.

(** ** The endpoint of a handshake *)

(** One endpoint during a handshake; [None] in the inbox is a transport error, the end of the
    inbox is the end of the stream, or a peer that stays silent ([stalls]). *)
Record Peer := {
  inbox : list (option Message);
  outbox : list Message;
  stalls : bool;
  sends_left : nat;                 (* sends that succeed before the peer is gone *)
  control_frames : Z;               (* the handshake's budget, already used *)
  cache : list (bytes * Z);         (* [RealityReplayCacheInner::entries] *)
}.
Definition set_inbox (i : list (option Message)) (p : Peer) : Peer :=
  {| inbox := i; outbox := p.(outbox); stalls := p.(stalls); sends_left := p.(sends_left); control_frames := p.(control_frames); cache := p.(cache) |}.
Definition set_control (n : Z) (p : Peer) : Peer :=
  {| inbox := p.(inbox); outbox := p.(outbox); stalls := p.(stalls); sends_left := p.(sends_left); control_frames := n; cache := p.(cache) |}.
Definition set_cache (c : list (bytes * Z)) (p : Peer) : Peer :=
  {| inbox := p.(inbox); outbox := p.(outbox); stalls := p.(stalls); sends_left := p.(sends_left); control_frames := p.(control_frames); cache := c |}.

(** A future that waits for ever: only the timeout around it notices. *)
Definition STALLED : err := "the peer is silent".
(** What reading past the inbox gives: [e] at the end of the stream. *)
Definition at_end (e : err) (p : Peer) : err := if p.(stalls) then STALLED else e.

Definition ws_send (m : Message) (ctx : err) : ST Peer err unit := fun p =>
  match p.(sends_left) with
  | O => (p, Err ctx)
  | S k => ({| inbox := p.(inbox); outbox := p.(outbox) ++ [m]; stalls := p.(stalls); sends_left := k;
               control_frames := p.(control_frames); cache := p.(cache) |}, Ok tt)
  end.

(** [x25519_dalek]: both ends of an exchange derive the same secret. *)
Record X25519 := {
  public_key : bytes -> bytes;
  diffie_hellman : bytes -> bytes -> bytes;
  was_contributory : bytes -> bool;
  public_key_len k : len (public_key k) = 32;
  diffie_hellman_len k p : len (diffie_hellman k p) = 32;
  diffie_hellman_sym a b : diffie_hellman a (public_key b) = diffie_hellman b (public_key a);
}.

Definition REALITY_MAGIC : str := bs "REAL1".
Definition REALITY_VERSION : Z := 3.
Definition REALITY_CLIENT_HELLO_LEN : Z := 1 + 32 + 8 + 8 + 16.
Definition REALITY_CONFIRM_CONTEXT : str := bs "bibavpn reality server-confirm v2".
Definition REALITY_CLIENT_AUTH_CONTEXT : str := bs "bibavpn reality client-auth v2".
Definition REALITY_REPLAY_CACHE_CAP : Z := 65536.
Definition REALITY_CLIENT_AUTH_TAG : Z := 161.
Definition REALITY_CLIENT_AUTH_LEN : Z := 1 + 1 + 32.
Definition MAX_HANDSHAKE_CONTROL_FRAMES : Z := 16.

Record RealityClientHello := { client_pubkey : bytes; short_id : bytes; unix_secs : Z; nonce : bytes }.

(** ** Frames *)

Definition encode_client_hello (sid pubkey : bytes) (secs : Z) (n : bytes) : bytes :=
  [REALITY_VERSION] ++ pubkey ++ sid ++ to_be 8 secs ++ n.
Definition decode_client_hello (data : bytes) : result RealityClientHello :=
  if decide (len data <> REALITY_CLIENT_HELLO_LEN) then bail "bad REALITY HELLO length" else
  v ← ix data 0;
  if decide (v <> REALITY_VERSION) then bail "unsupported REALITY version" else
  pubkey ← slice data 1 33;
  sid ← slice data 33 41;
  secs ← slice data 41 49;
  n ← slice data 49 65;
  Ok {| client_pubkey := pubkey; short_id := sid; unix_secs := of_be secs; nonce := n |}.

Definition encode_client_auth (mac : bytes) : bytes := [REALITY_VERSION] ++ [REALITY_CLIENT_AUTH_TAG] ++ mac.
Definition decode_client_auth (data : bytes) : result bytes :=
  if decide (len data <> REALITY_CLIENT_AUTH_LEN) then bail "bad REALITY client AUTH length" else
  v ← ix data 0;
  if decide (v <> REALITY_VERSION) then bail "unsupported REALITY version in client AUTH" else
  t ← ix data 1;
  if decide (t <> REALITY_CLIENT_AUTH_TAG) then bail "expected REALITY client AUTH frame" else
  slice data 2 34.

Definition decode_server_hello (data : bytes) : result (bytes * bytes) :=
  if decide (len data <> 1 + 32 + 32) then bail "bad SERVER_HELLO length" else
  v ← ix data 0;
  if decide (v <> REALITY_VERSION) then bail "version mismatch" else
  pubkey ← slice data 1 33;
  mac ← slice data 33 65;
  Ok (pubkey, mac).

(** ** Freshness *)

Definition reality_timestamp_in_window (now secs max_time_diff : Z) : result unit :=
  if decide (max_time_diff < Z.abs (now - secs)) then bail "REALITY: HELLO timestamp outside allowed window" else Ok tt.

(** What [retain] keeps. *)
Definition live_entries (now max_time_diff : Z) (entries : list (bytes * Z)) : list (bytes * Z) :=
  List.filter (fun e => now <=? sat_add U64_MAX e.2 max_time_diff) entries.
Definition check_and_insert (n : bytes) (hello_unix_secs now max_time_diff : Z) : ST (list (bytes * Z)) err unit := fun entries =>
  match reality_timestamp_in_window now hello_unix_secs max_time_diff with
  | Ok _ =>
    let entries := live_entries now max_time_diff entries in
    if existsb (fun e => bool_decide (e.1 = n)) entries then (entries, bail "REALITY: replay detected (HELLO nonce already seen)")
    else if decide (REALITY_REPLAY_CACHE_CAP <= len entries) then (entries, bail "REALITY: replay cache full")
    else (entries ++ [(n, hello_unix_secs)], Ok tt)
  | Err e => (entries, Err e)
  | Panic => (entries, Panic)
  end.
(** On the endpoint's cache. *)
Definition on_cache {A} (m : ST (list (bytes * Z)) err A) : ST Peer err A := fun p =>
  let '(c, r) := m p.(cache) in (set_cache c p, r).

(** ** Allowlists *)

Definition normalize_server_name (name : str) : str :=
  let trimmed := trim name in
  let fallback :=
    if Nat.eqb (length (List.filter (Z.eqb 58) trimmed)) 1 then
      match rsplit_once 58 trimmed with
      | Some (host, port) =>
        if negb (bool_decide (port = [])) && forallb is_ascii_digit port then trim host else trimmed
      | None => trimmed
      end
    else trimmed in
  match strip_prefix_char 91 trimmed with
  | Some rest => match find_char 93 rest with Some e => trim (take e rest) | None => fallback end
  | None => fallback
  end.

(** [name.map(str::trim).filter(|s| !s.is_empty())]. *)
Definition presented_name (name : option str) : list str :=
  match name with
  | Some s => if decide (trim s = []) then [] else [normalize_server_name (trim s)]
  | None => []
  end.
Definition is_server_name_allowed (tls_sni http_host : option str) (allowed : list str) : bool :=
  if decide (allowed = []) then true else
  let normalized_allowed := List.filter (fun s => negb (bool_decide (s = []))) (normalize_server_name <$> allowed) in
  if decide (normalized_allowed = []) then false else
  let presented := presented_name tls_sni ++ presented_name http_host in
  if decide (presented = []) then false else
  forallb (fun name => existsb (fun a => eq_ignore_ascii_case a name) normalized_allowed) presented.

Definition is_short_id_allowed (id : bytes) (allowed : list bytes) : bool :=
  bool_decide (allowed = []) || existsb (fun a => bool_decide (a = id)) allowed
  || existsb (fun a => forallb (Z.eqb 0) a) allowed.

Definition extract_sni (target : str) : str :=
  let trimmed := trim target in
  let head := match find_char 58 trimmed with Some i => take i trimmed | None => trimmed end in
  match strip_prefix_char 91 trimmed with
  | Some rest => match find_char 93 rest with Some e => take e rest | None => head end
  | None => head
  end.
Definition effective_tls_sni (configured_sni : str) (reality_target : option str) : str :=
  match reality_target with
  | Some t => if decide (extract_sni t = []) then configured_sni else extract_sni t
  | None => configured_sni
  end.
Definition parse_target (target : str) : result (str * Z) :=
  match rsplit_once 58 target with
  | None => bail "invalid target format"
  | Some (h, p) =>
    port ← context "parse port"%string (parse_uint U16_MAX p);
    if decide (trim h = []) then bail "invalid target format: empty host" else Ok (trim h, port)
  end.

Record RealityServerConfig := {
  server_names : list str;
  private_key : bytes;
  short_ids : list bytes;
  max_time_diff : Z;
}.

Definition validate_short_id (sid : bytes) (cfg : RealityServerConfig) : result unit :=
  if is_short_id_allowed sid cfg.(short_ids) then Ok tt else bail "REALITY: short ID not in server allowlist".
Definition validate_server_names (tls_sni http_host : option str) (cfg : RealityServerConfig) : result unit :=
  if is_server_name_allowed tls_sni http_host cfg.(server_names) then Ok tt
  else bail "REALITY: TLS SNI / HTTP Host not in server allowlist".

(** ** The handshake *)

Fixpoint handshake_loop (what : err) (inc : list (option Message)) (p : Peer) : Peer * result bytes :=
  match inc with
  | [] => (set_inbox [] p, Err (at_end ("ws closed before " +:+ what)%string p))
  | None :: inc => (set_inbox inc p, bail "websocket recv")
  | Some (Binary b) :: inc => (set_inbox inc p, Ok b)
  | Some (Ping d) :: inc =>
    let p := set_control (p.(control_frames) + 1) p in
    if decide (MAX_HANDSHAKE_CONTROL_FRAMES < p.(control_frames))
    then (set_inbox inc p, bail "too many control frames during REALITY handshake") else
    match ws_send (Pong d) "REALITY pong" p with
    | (p, Ok _) => handshake_loop what inc p
    | (p, Err e) => (set_inbox inc p, Err e)
    | (p, Panic) => (set_inbox inc p, Panic)
    end
  | Some (Pong _) :: inc =>
    let p := set_control (p.(control_frames) + 1) p in
    if decide (MAX_HANDSHAKE_CONTROL_FRAMES < p.(control_frames))
    then (set_inbox inc p, bail "too many control frames during REALITY handshake")
    else handshake_loop what inc p
  | Some _ :: inc => (set_inbox inc p, Err ("expected binary " +:+ what)%string)
  end.
Definition next_handshake_binary (what : err) : ST Peer err bytes := fun p => handshake_loop what p.(inbox) p.

Section Handshake.
Context (x : X25519) (b3 : Blake3).

Definition public_key_from_private (sk : bytes) : bytes := public_key x sk.
Definition generate_short_id (sk : bytes) : bytes := take 8 (public_key_from_private sk).

Definition reality_confirm_mac (shared client_pub server_pub : bytes) : bytes :=
  let mac_key := derive_key b3 REALITY_CONFIRM_CONTEXT shared in
  keyed_hash b3 mac_key (client_pub ++ server_pub).
Definition reality_client_auth_mac (shared token client_pub server_pub : bytes) (secs : Z) (n : bytes) : bytes :=
  let mac_key := derive_key b3 REALITY_CLIENT_AUTH_CONTEXT (shared ++ token) in
  keyed_hash b3 mac_key (client_pub ++ server_pub ++ to_be 8 secs ++ n).

Definition server_hello_with_confirm_and_shared (sk client_pub : bytes) : result (bytes * bytes) :=
  let shared := diffie_hellman x sk client_pub in
  if negb (was_contributory x shared) then bail "REALITY: non-contributory client public key" else
  let server_pub := public_key_from_private sk in
  let mac := reality_confirm_mac shared client_pub server_pub in
  Ok ([REALITY_VERSION] ++ server_pub ++ mac, shared).
Definition server_hello_with_confirm (sk client_pub : bytes) : result bytes :=
  fst <$> server_hello_with_confirm_and_shared sk client_pub.

(** [now1], [now2]: the clock at the HELLO and at the AUTH, [None] before the epoch. *)
Definition server_handshake_reality_with_auth {T} (cfg : RealityServerConfig) (tls_sni http_host : option str)
  (now1 now2 : option Z) (authenticate : bytes -> bytes -> bytes -> Z -> bytes -> bytes -> result T) :
  ST Peer err (bytes * T) :=
  _ ← lift (validate_server_names tls_sni http_host cfg);
  now ← lift (context "system clock before REALITY HELLO"%string now1);
  _ ← modify (set_control 0);
  msg ← next_handshake_binary "REALITY HELLO";
  hello ← lift (decode_client_hello msg);
  _ ← lift (validate_short_id hello.(short_id) cfg);
  _ ← lift (reality_timestamp_in_window now hello.(unix_secs) cfg.(max_time_diff));
  '(response, shared) ← lift (server_hello_with_confirm_and_shared cfg.(private_key) hello.(client_pubkey));
  _ ← ws_send (Binary response) "send REALITY SERVER_HELLO";
  let server_pub := public_key_from_private cfg.(private_key) in
  auth ← next_handshake_binary "REALITY client AUTH";
  got ← lift (decode_client_auth auth);
  identity ← lift (authenticate shared hello.(client_pubkey) server_pub hello.(unix_secs) hello.(nonce) got);
  now ← lift (context "system clock before REALITY AUTH"%string now2);
  _ ← on_cache (check_and_insert hello.(nonce) hello.(unix_secs) now cfg.(max_time_diff));
  mret (shared, identity).

Definition token_auth (token : str) (shared client_pub server_pub : bytes) (secs : Z) (n got : bytes) : result unit :=
  let expected := reality_client_auth_mac shared token client_pub server_pub secs n in
  if negb (secret_eq got expected) then bail "REALITY: client AUTH MAC invalid (unknown token)" else Ok tt.
Definition server_handshake_reality (cfg : RealityServerConfig) (token : str) (tls_sni http_host : option str)
  (now1 now2 : option Z) : ST Peer err bytes :=
  '(shared, _) ← server_handshake_reality_with_auth cfg tls_sni http_host now1 now2 (token_auth token);
  mret shared.

(** [n] and [ephemeral]: what [OsRng] gave. *)
Definition reality_client_exchange_verify (expected_server_pubkey sid : bytes) (token : str)
  (now : option Z) (n ephemeral : bytes) : ST Peer err bytes :=
  secs ← lift (context "system clock before REALITY HELLO"%string now);
  let ephemeral_public := public_key x ephemeral in
  _ ← ws_send (Binary (encode_client_hello sid ephemeral_public secs n)) "send REALITY client hello";
  _ ← modify (set_control 0);
  msg ← next_handshake_binary "server hello";
  '(server_pubkey, server_mac) ← lift (decode_server_hello msg);
  if decide (server_pubkey <> expected_server_pubkey) then throw "REALITY: server public key mismatch (possible MITM)"%string else
  let shared_secret := diffie_hellman x ephemeral server_pubkey in
  if negb (was_contributory x shared_secret)
  then throw "REALITY: non-contributory server public key (pinned key is low-order)"%string else
  let expected_mac := reality_confirm_mac shared_secret ephemeral_public server_pubkey in
  if decide (expected_mac <> server_mac) then throw "REALITY: server confirmation MAC invalid"%string else
  let auth_mac := reality_client_auth_mac shared_secret token ephemeral_public server_pubkey secs n in
  _ ← ws_send (Binary (encode_client_auth auth_mac)) "send REALITY client AUTH";
  mret shared_secret.
End Handshake.

(** ** Lemmas: frames *)

Definition hello_wf (h : RealityClientHello) : Prop :=
  len h.(client_pubkey) = 32 /\ len h.(short_id) = 8 /\ is_u64 h.(unix_secs) /\ len h.(nonce) = 16.
Definition encode_hello (h : RealityClientHello) : result bytes :=
  Ok (encode_client_hello h.(short_id) h.(client_pubkey) h.(unix_secs) h.(nonce)).

Lemma decode_encode_hello sid pk secs n :
  len pk = 32 -> len sid = 8 -> is_u64 secs -> len n = 16 ->
  decode_client_hello (encode_client_hello sid pk secs n) =
  Ok {| client_pubkey := pk; short_id := sid; unix_secs := secs; nonce := n |}.
Proof.
  intros Hpk Hsid Hs Hn. unfold decode_client_hello. set (d := encode_client_hello sid pk secs n).
  assert (len d = REALITY_CLIENT_HELLO_LEN) as Hd
    by (unfold d, encode_client_hello, REALITY_CLIENT_HELLO_LEN; autorewrite with wire; lia).
  assert (@ix err Z d 0 = Ok REALITY_VERSION) as R0 by (by apply ix_eq).
  assert (@slice err Z d 1 33 = Ok pk) as R1 by (unfold d, encode_client_hello; apply slice_mid; [done|rewrite len_1; lia]).
  assert (@slice err Z d 33 41 = Ok sid) as R2.
  { unfold d, encode_client_hello. rewrite (app_assoc [_]). apply slice_mid; autorewrite with wire; lia. }
  assert (@slice err Z d 41 49 = Ok (to_be 8 secs)) as R3.
  { unfold d, encode_client_hello. rewrite (app_assoc [_]), (app_assoc (_ ++ pk)). apply slice_mid; autorewrite with wire; lia. }
  assert (@slice err Z d 49 65 = Ok n) as R4.
  { unfold d, encode_client_hello. rewrite (app_assoc [_]), (app_assoc (_ ++ pk)), (app_assoc (_ ++ sid)).
    apply slice_end; autorewrite with wire; lia. }
  rewrite decide_False by lia. rewrite R0. cbn [mbind res_bind]. rewrite decide_False by lia.
  rewrite R1. cbn [mbind res_bind]. rewrite R2. cbn [mbind res_bind]. rewrite R3. cbn [mbind res_bind].
  rewrite R4. cbn [mbind res_bind]. rewrite (of_be_to_be_id 8); [done|]. ranges. simpl. lia.
Qed.

#[export] Instance hello_codec : Codec hello_wf encode_hello decode_client_hello.
Proof.
  split.
  - intros [pk sid secs n] b (Hpk & Hsid & Hs & Hn) [= <-]. by apply decode_encode_hello.
  - intros b Hb. unfold decode_client_hello, REALITY_CLIENT_HELLO_LEN. repeat safe_step.
Qed.

Lemma decode_encode_auth mac : len mac = 32 -> decode_client_auth (encode_client_auth mac) = Ok mac.
Proof.
  intros Hm. unfold decode_client_auth. set (d := encode_client_auth mac).
  assert (len d = REALITY_CLIENT_AUTH_LEN) as Hd by (unfold d, encode_client_auth, REALITY_CLIENT_AUTH_LEN; autorewrite with wire; lia).
  assert (@ix err Z d 0 = Ok REALITY_VERSION) as -> by (by apply ix_eq).
  assert (@ix err Z d 1 = Ok REALITY_CLIENT_AUTH_TAG) as R1 by (by apply ix_eq).
  rewrite decide_False by lia. cbn [mbind res_bind]. rewrite decide_False by lia. rewrite R1. cbn [mbind res_bind].
  rewrite decide_False by lia. unfold d, encode_client_auth. rewrite app_assoc. apply slice_end; autorewrite with wire; lia.
Qed.

Lemma decode_encode_server_hello pk mac :
  len pk = 32 -> len mac = 32 -> decode_server_hello ([REALITY_VERSION] ++ pk ++ mac) = Ok (pk, mac).
Proof.
  intros Hp Hm. unfold decode_server_hello. set (d := [REALITY_VERSION] ++ pk ++ mac).
  assert (len d = 1 + 32 + 32) as Hd by (unfold d; autorewrite with wire; lia).
  assert (@ix err Z d 0 = Ok REALITY_VERSION) as -> by (by apply ix_eq).
  assert (@slice err Z d 1 33 = Ok pk) as R1 by (unfold d; apply slice_mid; [done|rewrite len_1; lia]).
  assert (@slice err Z d 33 65 = Ok mac) as R2 by (unfold d; rewrite app_assoc; apply slice_end; autorewrite with wire; lia).
  rewrite decide_False by lia. cbn [mbind res_bind]. rewrite decide_False by lia. rewrite R1. cbn [mbind res_bind]. by rewrite R2.
Qed.

(** ** Lemmas: reading past control frames *)

Lemma loop_noise what l b rest p :
  Forall is_noise l -> p.(control_frames) + len l <= MAX_HANDSHAKE_CONTROL_FRAMES ->
  (length (replies l) <= p.(sends_left))%nat ->
  handshake_loop what ((Some <$> l) ++ Some (Binary b) :: rest) p =
  ({| inbox := rest; outbox := p.(outbox) ++ replies l; stalls := p.(stalls); sends_left := p.(sends_left) - length (replies l);
      control_frames := p.(control_frames) + len l; cache := p.(cache) |}, Ok b).
Proof.
  intros Hl. revert p. induction Hl as [|m l Hm Hl IH]; intros [i o st k cf c] Hcf Hk;
    cbn [control_frames sends_left outbox stalls cache] in *.
  { cbn [fmap list_fmap app handshake_loop]. unfold set_inbox. cbn [outbox stalls sends_left control_frames cache].
    unfold replies, len. cbn [fmap list_fmap concat length]. by rewrite app_nil_r, Nat.sub_0_r, Z.add_0_r. }
  rewrite len_cons in *. pose proof (len_nonneg l). destruct m; try done; unfold replies in *;
    cbn [fmap list_fmap concat app length handshake_loop] in *; cbn [set_control control_frames].
  - rewrite decide_False by lia. destruct k as [|k]; [lia|].
    cbn [ws_send set_control sends_left inbox outbox stalls control_frames cache].
    rewrite IH; cbn [control_frames sends_left outbox stalls cache]; [|lia|lia]. rewrite <- app_assoc. f_equal. f_equal; first [done|lia].
  - rewrite decide_False by lia. rewrite IH; cbn [set_control control_frames sends_left outbox stalls cache]; [|lia|lia].
    f_equal. f_equal; first [done|lia].
Qed.

Lemma loop_Ok what inc p p' b :
  p.(control_frames) <= MAX_HANDSHAKE_CONTROL_FRAMES -> handshake_loop what inc p = (p', Ok b) ->
  exists l rest, inc = (Some <$> l) ++ Some (Binary b) :: rest /\ Forall is_noise l /\ p'.(inbox) = rest /\
    p'.(control_frames) = p.(control_frames) + len l /\ p'.(control_frames) <= MAX_HANDSHAKE_CONTROL_FRAMES /\
    p'.(outbox) = p.(outbox) ++ replies l /\ p'.(cache) = p.(cache).
Proof.
  revert p. induction inc as [|[m|] inc IH]; intros p Hcf; cbn [handshake_loop]; [done| |done].
  destruct m as [d| |d|d|]; try done.
  - intros [= <- <-]. exists [], inc. unfold replies. cbn. rewrite app_nil_r, len_nil. split_and!; try done; lia.
  - cbn [set_control control_frames]. case_decide; [done|].
    destruct (ws_send (Pong d) "REALITY pong" (set_control (control_frames p + 1) p)) as [p1 [[]|e|]] eqn:Hs; [|done..].
    intros H'. assert (p1.(control_frames) = p.(control_frames) + 1 /\ p1.(outbox) = p.(outbox) ++ [Pong d] /\ p1.(cache) = p.(cache))
      as (Hc1 & Ho1 & Hca1).
    { unfold ws_send in Hs. cbn [set_control sends_left] in Hs. destruct (sends_left p); [done|]. by injection Hs as <-. }
    apply IH in H' as (l & rest & -> & Hl & Hi & Hc & Hle & Ho & Hca); [|lia].
    exists (Ping d :: l), rest. rewrite len_cons. unfold replies in *. cbn [fmap list_fmap concat].
    split_and!; [done|by constructor|done|lia|done| |congruence]. by rewrite Ho, Ho1, <- app_assoc.
  - cbn [set_control control_frames]. case_decide; [done|]. intros H'.
    apply IH in H' as (l & rest & -> & Hl & Hi & Hc & Hle & Ho & Hca); [|cbn [set_control control_frames]; lia].
    cbn [set_control control_frames outbox cache] in *.
    exists (Pong d :: l), rest. rewrite len_cons. unfold replies in *. cbn [fmap list_fmap concat app].
    split_and!; try done; [by constructor|lia].
Qed.

(** ** Lemmas: the replay cache *)

Lemma window_Ok now secs d : reality_timestamp_in_window now secs d = Ok tt <-> Z.abs (now - secs) <= d.
Proof. unfold reality_timestamp_in_window. case_decide; split; try done; lia. Qed.

Lemma check_and_insert_Ok n secs now d c c' :
  check_and_insert n secs now d c = (c', Ok tt) ->
  Z.abs (now - secs) <= d /\ c' = live_entries now d c ++ [(n, secs)] /\
  (forall e, e ∈ live_entries now d c -> e.1 <> n) /\ len c' <= REALITY_REPLAY_CACHE_CAP.
Proof.
  unfold check_and_insert. destruct (reality_timestamp_in_window now secs d) as [[]|e|] eqn:Hw; [|done..].
  apply window_Ok in Hw. destruct (existsb _ _) eqn:Hex; [done|]. case_decide; [done|]. intros [= <-].
  split_and!; [done|done| |rewrite len_app, len_1; lia].
  intros e He Heq. rewrite <- not_true_iff_false, existsb_exists in Hex. apply Hex. exists e.
  split; [by apply list_elem_of_In|by apply bool_decide_eq_true].
Qed.

(** One authenticated HELLO presented to the cache: nonce, timestamp, and the clock. *)
Definition attempt_at : Type := bytes * Z * Z.
(** The HELLOs accepted so far, and the cache. *)
Definition replay_step (d : Z) (s : list (bytes * Z) * list (bytes * Z)) (a : attempt_at) : list (bytes * Z) * list (bytes * Z) :=
  let '(accepted, c) := s in
  let '(n, secs, now) := a in
  match check_and_insert n secs now d c with
  | (c, Ok _) => (accepted ++ [(n, secs)], c)
  | (c, _) => (accepted, c)
  end.
Definition replay_run (d : Z) (l : list attempt_at) : list (bytes * Z) * list (bytes * Z) :=
  fold_left (replay_step d) l ([], []).

(** The clock never goes back and fits its type. *)
Fixpoint clock_from (t : Z) (l : list attempt_at) : Prop :=
  match l with
  | [] => True
  | (_, now) :: l => t <= now <= U64_MAX /\ clock_from now l
  end.

(** Every accepted HELLO is remembered as long as it is fresh. *)
Definition replay_inv (d t : Z) (s : list (bytes * Z) * list (bytes * Z)) : Prop :=
  NoDup s.1 /\ (forall e, e ∈ s.1 -> e ∈ s.2 \/ sat_add U64_MAX e.2 d < t) /\ len s.2 <= REALITY_REPLAY_CACHE_CAP.

Lemma live_entries_In now d c e : e ∈ live_entries now d c <-> e ∈ c /\ now <= sat_add U64_MAX e.2 d.
Proof.
  unfold live_entries. rewrite !list_elem_of_In, filter_In, Z.leb_le. done.
Qed.

Lemma live_entries_len now d c : len (live_entries now d c) <= len c.
Proof. unfold live_entries, len. apply inj_le, filter_length_le. Qed.

Lemma replay_step_inv d t n secs now s :
  t <= now <= U64_MAX -> replay_inv d t s -> replay_inv d now (replay_step d s (n, secs, now)).
Proof.
  intros Ht (Hnd & Hkeep & Hlen). destruct s as [acc c]. cbn [fst snd] in *. unfold replay_step.
  assert (forall e, e ∈ acc -> e ∈ live_entries now d c \/ sat_add U64_MAX e.2 d < now) as Hlive.
  { intros e He. rewrite live_entries_In. destruct (Hkeep e He) as [Hc|Hx]; [|right; lia].
    destruct (decide (now <= sat_add U64_MAX e.2 d)); [by left|right; lia]. }
  pose proof (live_entries_len now d c).
  destruct (check_and_insert n secs now d c) as [c' [[]|e|]] eqn:Hci.
  - apply check_and_insert_Ok in Hci as (Hw & -> & Hfresh & Hcap). split_and!; cbn [fst snd]; [| |done].
    + apply NoDup_app. split_and!; [done| |apply NoDup_singleton]. intros e He ->%list_elem_of_singleton.
      destruct (Hlive _ He) as [Hl|Hx]; [by apply (Hfresh _ Hl)|]. unfold sat_add in Hx. cbn [snd] in Hx. lia.
    + intros e [He| ->%list_elem_of_singleton]%elem_of_app.
      * destruct (Hlive _ He) as [Hl|Hx]; [left; apply elem_of_app; by left|by right].
      * left. apply elem_of_app. right. by apply list_elem_of_singleton.
  - revert Hci. unfold check_and_insert. destruct (reality_timestamp_in_window now secs d) as [[]|e0|].
    + destruct (existsb _ _); [|case_decide; [|done]]; intros [= <- _]; split_and!; cbn [fst snd]; try done; lia.
    + intros [= <- _]. split_and!; cbn [fst snd]; [done| |done]. intros e1 He1. destruct (Hkeep e1 He1); [by left|right; lia].
    + done.
  - revert Hci. unfold check_and_insert, reality_timestamp_in_window. case_decide; [done|].
    destruct (existsb _ _); [done|]. by case_decide.
Qed.

(** *** What the server accepts *)

Section Server.
Context (x : X25519) (b3 : Blake3).

Lemma server_hello_Ok sk pk response shared :
  server_hello_with_confirm_and_shared x b3 sk pk = Ok (response, shared) ->
  shared = diffie_hellman x sk pk /\ was_contributory x shared = true /\
  response = [REALITY_VERSION] ++ public_key x sk ++ reality_confirm_mac b3 shared pk (public_key x sk).
Proof.
  unfold server_hello_with_confirm_and_shared. destruct (was_contributory x _) eqn:Hc; [|done]. simpl.
  by intros [= <- <-].
Qed.

Lemma ws_send_Ok m ctx p p' :
  ws_send m ctx p = (p', Ok tt) ->
  p'.(inbox) = p.(inbox) /\ p'.(outbox) = p.(outbox) ++ [m] /\ p'.(control_frames) = p.(control_frames) /\ p'.(cache) = p.(cache).
Proof. unfold ws_send. destruct (sends_left p); [done|]. by intros [= <-]. Qed.

(** The exchange behind a session the server accepted. *)
Definition accepted_exchange {T} (cfg : RealityServerConfig) (now1 now2 : option Z)
  (auth : bytes -> bytes -> bytes -> Z -> bytes -> bytes -> result T) (p p' : Peer) (shared : bytes) (id : T) : Prop :=
  exists l1 hello_frame l2 auth_frame rest hello mac response n1 n2,
    p.(inbox) = (Some <$> l1) ++ Some (Binary hello_frame) :: (Some <$> l2) ++ Some (Binary auth_frame) :: rest /\
    Forall is_noise (l1 ++ l2) /\ len l1 + len l2 <= MAX_HANDSHAKE_CONTROL_FRAMES /\
    decode_client_hello hello_frame = Ok hello /\ is_short_id_allowed hello.(short_id) cfg.(short_ids) = true /\
    now1 = Some n1 /\ now2 = Some n2 /\ Z.abs (n1 - hello.(unix_secs)) <= cfg.(max_time_diff) /\
    server_hello_with_confirm_and_shared x b3 cfg.(private_key) hello.(client_pubkey) = Ok (response, shared) /\
    decode_client_auth auth_frame = Ok mac /\
    auth shared hello.(client_pubkey) (public_key x cfg.(private_key)) hello.(unix_secs) hello.(nonce) mac = Ok id /\
    check_and_insert hello.(nonce) hello.(unix_secs) n2 cfg.(max_time_diff) p.(cache) = (p'.(cache), Ok tt) /\
    p'.(inbox) = rest /\ p'.(outbox) = p.(outbox) ++ replies l1 ++ [Binary response] ++ replies l2.

Lemma lift_Ok {A} (r : result A) (p p' : Peer) a : lift r p = (p', Ok a) <-> p' = p /\ r = Ok a.
Proof. unfold lift. naive_solver. Qed.

Lemma server_handshake_Ok {T} cfg sni host now1 now2 auth p p' shared (id : T) :
  server_handshake_reality_with_auth x b3 cfg sni host now1 now2 auth p = (p', Ok (shared, id)) ->
  is_server_name_allowed sni host cfg.(server_names) = true /\ accepted_exchange cfg now1 now2 auth p p' shared id.
Proof.
  unfold server_handshake_reality_with_auth.
  intros (? & [] & (-> & Hn)%lift_Ok & H)%st_bind_Ok. split.
  { unfold validate_server_names in Hn. by destruct (is_server_name_allowed _ _ _). }
  apply st_bind_Ok in H as (? & n1 & (-> & Hn1)%lift_Ok & H).
  apply st_bind_Ok in H as (p0 & ? & Hp0 & H). injection Hp0 as <- _.
  apply st_bind_Ok in H as (p1 & hf & Hloop1 & H). unfold next_handshake_binary in Hloop1.
  apply loop_Ok in Hloop1 as (l1 & rest1 & Hin1 & Hno1 & Hr1 & Hcf1 & Hle1 & Ho1 & Hca1); [|done].
  cbn [set_control inbox outbox control_frames cache] in *.
  apply st_bind_Ok in H as (? & hello & (-> & Hhello)%lift_Ok & H).
  apply st_bind_Ok in H as (? & [] & (-> & Hsid)%lift_Ok & H).
  apply st_bind_Ok in H as (? & [] & (-> & Hw)%lift_Ok & H). apply window_Ok in Hw.
  apply st_bind_Ok in H as (? & [response sh] & (-> & Hresp)%lift_Ok & H).
  apply st_bind_Ok in H as (p2 & [] & Hsend & H). apply ws_send_Ok in Hsend as (Hi2 & Ho2 & Hcf2 & Hca2).
  apply st_bind_Ok in H as (p3 & af & Hloop2 & H). unfold next_handshake_binary in Hloop2.
  apply loop_Ok in Hloop2 as (l2 & rest2 & Hin2 & Hno2 & Hr2 & Hcf3 & Hle2 & Ho3 & Hca3); [|lia].
  apply st_bind_Ok in H as (? & mac & (-> & Hmac)%lift_Ok & H).
  apply st_bind_Ok in H as (? & ident & (-> & Hid)%lift_Ok & H).
  apply st_bind_Ok in H as (? & n2 & (-> & Hn2)%lift_Ok & H).
  apply st_bind_Ok in H as (p4 & [] & Hcache & H). injection H as <- <- <-.
  unfold on_cache in Hcache. destruct (check_and_insert _ _ _ _ (cache p3)) as [c r] eqn:Hci. injection Hcache as <- ->.
  exists l1, hf, l2, af, rest2, hello, mac, response, n1, n2. cbn [set_cache inbox outbox cache].
  split_and!; try done.
  - rewrite Hin1. f_equal. f_equal. rewrite <- Hin2. congruence.
  - by apply Forall_app.
  - rewrite Hcf2, Hcf1 in Hcf3. lia.
  - unfold validate_short_id in Hsid. by destruct (is_short_id_allowed _ _).
  - destruct now1; [|done]. injection Hn1 as ->. done.
  - destruct now2; [|done]. injection Hn2 as ->. done.
  - rewrite <- Hca1, <- Hca2, <- Hca3. exact Hci.
  - rewrite Ho3, Ho2, Ho1, <- !app_assoc. done.
Qed.
End Server.

Lemma lift_step {A B} (r : result A) (k : A -> ST Peer err B) (p : Peer) a : r = Ok a -> (lift r ≫= k) p = k a p.
Proof. by intros ->. Qed.

Lemma st_bind_step_eq {S E A B} (m : ST S E A) (k : A -> ST S E B) s s1 s' a b :
  m s = (s1, Ok a) -> k a s1 = (s', Ok b) -> (m ≫= k) s = (s', Ok b).
Proof. intros Hm Hk. by rewrite (st_bind_step _ _ _ _ _ Hm). Qed.

Lemma check_and_insert_fresh n secs now d c :
  Z.abs (now - secs) <= d -> (forall e, e ∈ c -> e.1 <> n) -> len c < REALITY_REPLAY_CACHE_CAP ->
  check_and_insert n secs now d c = (live_entries now d c ++ [(n, secs)], Ok tt).
Proof.
  intros Hw Hfresh Hcap. unfold check_and_insert. rewrite (proj2 (window_Ok _ _ _) Hw).
  assert (existsb (fun e => bool_decide (e.1 = n)) (live_entries now d c) = false) as ->.
  { apply not_true_iff_false. rewrite existsb_exists. intros (e & He & Heq%bool_decide_eq_true).
    apply list_elem_of_In, live_entries_In in He as [He _]. by apply (Hfresh e). }
  pose proof (live_entries_len now d c). by rewrite decide_False by lia.
Qed.

(** *** Two honest ends *)

Section Honest.
Context (x : X25519) (b3 : Blake3) (cfg : RealityServerConfig) (token : str) (sid ephemeral n : bytes) (secs : Z).
Definition honest_epk : bytes := public_key x ephemeral.
Definition honest_spk : bytes := public_key x cfg.(private_key).
Definition honest_shared : bytes := diffie_hellman x cfg.(private_key) honest_epk.
Definition honest_hello : bytes := encode_client_hello sid honest_epk secs n.
Definition honest_mac : bytes := reality_client_auth_mac b3 honest_shared token honest_epk honest_spk secs n.
Definition honest_auth : bytes := encode_client_auth honest_mac.
Definition honest_server_hello : bytes :=
  [REALITY_VERSION] ++ honest_spk ++ reality_confirm_mac b3 honest_shared honest_epk honest_spk.
Context (Hsid : len sid = 8) (Hn : len n = 16) (Hsecs : is_u64 secs) (Hcon : was_contributory x honest_shared = true).

Lemma server_completes sni host now1 now2 l1 l2 ks cs :
  is_server_name_allowed sni host cfg.(server_names) = true -> is_short_id_allowed sid cfg.(short_ids) = true ->
  Z.abs (now1 - secs) <= cfg.(max_time_diff) -> Z.abs (now2 - secs) <= cfg.(max_time_diff) ->
  (forall e, e ∈ cs -> e.1 <> n) -> len cs < REALITY_REPLAY_CACHE_CAP ->
  Forall is_noise l1 -> Forall is_noise l2 -> len l1 + len l2 <= MAX_HANDSHAKE_CONTROL_FRAMES ->
  (length (replies l1) + length (replies l2) < ks)%nat ->
  exists ps, server_handshake_reality x b3 cfg token sni host (Some now1) (Some now2)
     {| inbox := (Some <$> l1) ++ Some (Binary honest_hello) :: (Some <$> l2) ++ [Some (Binary honest_auth)]; outbox := [];
        stalls := false; sends_left := ks; control_frames := 0; cache := cs |} = (ps, Ok honest_shared) /\
     ps.(outbox) = replies l1 ++ [Binary honest_server_hello] ++ replies l2.
Proof using Hsid Hn Hsecs Hcon.
  intros Hname Hids Hw1 Hw2 Hfresh Hcap Hl1 Hl2 Hb1 Hks.
  assert (len honest_mac = 32) as Hmac by apply keyed_hash_len.
  assert (len honest_epk = 32) as Hepk by apply public_key_len.
  assert (decode_client_hello honest_hello = Ok {| client_pubkey := honest_epk; short_id := sid; unix_secs := secs; nonce := n |}) as Hhello
    by (by apply decode_encode_hello).
  assert (decode_client_auth honest_auth = Ok honest_mac) as Hauth by (by apply decode_encode_auth).
  assert (token_auth b3 token honest_shared honest_epk honest_spk secs n honest_mac = Ok tt) as Htoken.
  { unfold token_auth. fold honest_mac. by rewrite (proj2 (secret_eq_true honest_mac honest_mac) eq_refl). }
  assert (check_and_insert n secs now2 (max_time_diff cfg) cs = (live_entries now2 (max_time_diff cfg) cs ++ [(n, secs)], Ok tt)) as Hci.
  { by apply check_and_insert_fresh. }
  exists {| inbox := []; outbox := replies l1 ++ [Binary honest_server_hello] ++ replies l2;
            stalls := false; sends_left := ks - length (replies l1) - 1 - length (replies l2); control_frames := len l1 + len l2;
            cache := live_entries now2 cfg.(max_time_diff) cs ++ [(n, secs)] |}. split; [|done].
  unfold server_handshake_reality. eapply (st_bind_step_eq _ _ _ _ _ (honest_shared, tt)); [|reflexivity].
  unfold server_handshake_reality_with_auth.
  rewrite lift_step with (a := tt) by (unfold validate_server_names; by rewrite Hname).
  rewrite lift_step with (a := now1) by done.
  erewrite st_bind_step by done. cbn [set_control inbox outbox sends_left control_frames cache].
  erewrite st_bind_step by (unfold next_handshake_binary; apply loop_noise; cbn [set_control control_frames sends_left]; try done; pose proof (len_nonneg l2); lia).
  cbn [set_control inbox outbox sends_left control_frames cache].
  erewrite lift_step by exact Hhello. cbn [short_id client_pubkey unix_secs nonce].
  rewrite lift_step with (a := tt) by (unfold validate_short_id; by rewrite Hids).
  rewrite lift_step with (a := tt) by (by apply window_Ok).
  rewrite lift_step with (a := (honest_server_hello, honest_shared))
    by (unfold server_hello_with_confirm_and_shared; fold honest_shared; rewrite Hcon; done).
  destruct (ks - length (replies l1))%nat as [|k] eqn:Hk; [lia|].
  erewrite st_bind_step by done. cbn [inbox outbox sends_left control_frames cache].
  erewrite st_bind_step by (unfold next_handshake_binary; apply (loop_noise _ l2 honest_auth []); cbn [set_control control_frames sends_left]; try done; lia).
  cbn [set_control inbox outbox sends_left control_frames cache].
  erewrite lift_step by exact Hauth. fold honest_spk.
  erewrite lift_step by exact Htoken.
  rewrite lift_step with (a := now2) by done.
  erewrite st_bind_step by (unfold on_cache; cbn [cache]; rewrite Hci; done).
  cbn [set_cache inbox outbox sends_left control_frames cache]. unfold mret, st_ret. rewrite <- !app_assoc.
  f_equal. unfold set_cache. cbn [inbox outbox sends_left control_frames cache app]. f_equal; first [done|lia].
Qed.

Lemma client_completes c l3 kc :
  Forall is_noise l3 -> len l3 <= MAX_HANDSHAKE_CONTROL_FRAMES -> (length (replies l3) + 1 < kc)%nat ->
  exists pc, reality_client_exchange_verify x b3 honest_spk sid token (Some secs) n ephemeral
     {| inbox := (Some <$> l3) ++ [Some (Binary honest_server_hello)]; outbox := []; stalls := false; sends_left := kc; control_frames := c; cache := [] |}
     = (pc, Ok honest_shared) /\ pc.(outbox) = [Binary honest_hello] ++ replies l3 ++ [Binary honest_auth].
Proof using Hcon.
  intros Hl3 Hb3 Hkc. assert (len honest_spk = 32) as Hspk by apply public_key_len.
  exists {| inbox := []; outbox := [Binary honest_hello] ++ replies l3 ++ [Binary honest_auth]; stalls := false; sends_left := kc - 1 - length (replies l3) - 1;
            control_frames := len l3; cache := [] |}. split; [|done].
  unfold reality_client_exchange_verify. rewrite lift_step with (a := secs) by done.
  destruct kc as [|kc]; [lia|]. erewrite st_bind_step by done. fold honest_epk honest_hello.
  erewrite st_bind_step by done. cbn [set_control inbox outbox sends_left control_frames cache].
  erewrite st_bind_step by (unfold next_handshake_binary; apply (loop_noise _ l3 honest_server_hello []); cbn [set_control control_frames sends_left]; try done; lia).
  cbn [set_control inbox outbox sends_left control_frames cache].
  erewrite lift_step by (apply decode_encode_server_hello; [exact Hspk|apply keyed_hash_len]).
  cbn beta iota zeta. rewrite decide_False by naive_solver.
  assert (diffie_hellman x ephemeral honest_spk = honest_shared) as -> by apply diffie_hellman_sym. rewrite Hcon. cbn [negb].
  rewrite decide_False by naive_solver. fold honest_mac honest_auth.
  destruct (kc - length (replies l3))%nat as [|k] eqn:Hk; [lia|].
  erewrite st_bind_step by done.
  cbn [inbox outbox sends_left control_frames cache]. unfold mret, st_ret. rewrite <- !app_assoc. f_equal. f_equal; first [done|lia].
Qed.
End Honest.

(** ** Properties *)

(** C27: the server accepts a session only behind a complete exchange: an allowed name, a HELLO
    of an allowed short id fresh at both clock readings, at most sixteen control frames in
    all, an AUTH frame that is the MAC of the session token over this very exchange, and a
    nonce the cache had not kept. The secret it returns is the X25519 one. *)
Theorem reality_server_sound x b3 cfg token sni host now1 now2 p p' shared :
  server_handshake_reality x b3 cfg token sni host now1 now2 p = (p', Ok shared) ->
  is_server_name_allowed sni host cfg.(server_names) = true /\
  exists l1 l2 hello_frame auth_frame rest hello n1 n2,
    p.(inbox) = (Some <$> l1) ++ Some (Binary hello_frame) :: (Some <$> l2) ++ Some (Binary auth_frame) :: rest /\
    Forall is_noise (l1 ++ l2) /\ len l1 + len l2 <= MAX_HANDSHAKE_CONTROL_FRAMES /\
    decode_client_hello hello_frame = Ok hello /\ is_short_id_allowed hello.(short_id) cfg.(short_ids) = true /\
    now1 = Some n1 /\ Z.abs (n1 - hello.(unix_secs)) <= cfg.(max_time_diff) /\
    now2 = Some n2 /\ Z.abs (n2 - hello.(unix_secs)) <= cfg.(max_time_diff) /\
    shared = diffie_hellman x cfg.(private_key) hello.(client_pubkey) /\ was_contributory x shared = true /\
    decode_client_auth auth_frame = Ok (reality_client_auth_mac b3 shared token hello.(client_pubkey)
      (public_key x cfg.(private_key)) hello.(unix_secs) hello.(nonce)) /\
    (forall e, e ∈ live_entries n2 cfg.(max_time_diff) p.(cache) -> e.1 <> hello.(nonce)) /\
    p'.(cache) = live_entries n2 cfg.(max_time_diff) p.(cache) ++ [(hello.(nonce), hello.(unix_secs))] /\
    p'.(inbox) = rest.
Proof.
  unfold server_handshake_reality. intros (p1 & [sh []] & Hs & [= <- <-])%st_bind_Ok.
  apply server_handshake_Ok in Hs as [Hn (l1 & hf & l2 & af & rest & hello & mac & response & n1 & n2 & Hin & Hno & Hlen & Hh & Hsid &
    Hn1 & Hn2 & Hw & Hresp & Hmac & Hauth & Hci & Hr & Ho)]. split; [done|].
  apply server_hello_Ok in Hresp as (Hsh & Hcon & _). apply check_and_insert_Ok in Hci as (Hw2 & Hc & Hfresh & _).
  unfold token_auth in Hauth. destruct (secret_eq mac _) eqn:Heq; [|done]. apply secret_eq_true in Heq as ->.
  exists l1, l2, hf, af, rest, hello, n1, n2. split_and!; done.
Qed.

(** C28: an honest client and an honest server that share a token complete the exchange, agree on
    the secret and send exactly the frames of the protocol, with control frames (within
    the budget) answered on the way. *)
Theorem reality_handshake_completes x b3 cfg token sid ephemeral n secs now1 now2 sni host l1 l2 l3 c ks kc cs :
  let epk := public_key x ephemeral in
  let spk := public_key x cfg.(private_key) in
  let shared := diffie_hellman x cfg.(private_key) epk in
  let hello := encode_client_hello sid epk secs n in
  let auth := encode_client_auth (reality_client_auth_mac b3 shared token epk spk secs n) in
  let server_hello := [REALITY_VERSION] ++ spk ++ reality_confirm_mac b3 shared epk spk in
  len sid = 8 -> len n = 16 -> is_u64 secs -> was_contributory x shared = true ->
  is_server_name_allowed sni host cfg.(server_names) = true -> is_short_id_allowed sid cfg.(short_ids) = true ->
  Z.abs (now1 - secs) <= cfg.(max_time_diff) -> Z.abs (now2 - secs) <= cfg.(max_time_diff) ->
  (forall e, e ∈ cs -> e.1 <> n) -> len cs < REALITY_REPLAY_CACHE_CAP ->
  Forall is_noise l1 -> Forall is_noise l2 -> Forall is_noise l3 ->
  len l1 + len l2 <= MAX_HANDSHAKE_CONTROL_FRAMES -> len l3 <= MAX_HANDSHAKE_CONTROL_FRAMES ->
  (length (replies l1) + length (replies l2) < ks)%nat -> (length (replies l3) + 1 < kc)%nat ->
  (exists ps, server_handshake_reality x b3 cfg token sni host (Some now1) (Some now2)
     {| inbox := (Some <$> l1) ++ Some (Binary hello) :: (Some <$> l2) ++ [Some (Binary auth)]; outbox := []; stalls := false; sends_left := ks;
        control_frames := 0; cache := cs |} = (ps, Ok shared) /\
     ps.(outbox) = replies l1 ++ [Binary server_hello] ++ replies l2) /\
  (exists pc, reality_client_exchange_verify x b3 spk sid token (Some secs) n ephemeral
     {| inbox := (Some <$> l3) ++ [Some (Binary server_hello)]; outbox := []; stalls := false; sends_left := kc; control_frames := c; cache := [] |}
     = (pc, Ok shared) /\ pc.(outbox) = [Binary hello] ++ replies l3 ++ [Binary auth]).
Proof.
  intros epk spk shared hello auth server_hello Hsid Hn Hsecs Hcon Hname Hids Hw1 Hw2 Hfresh Hcap Hl1 Hl2 Hl3 Hb1 Hb3 Hks Hkc.
  split; [by apply server_completes|by apply client_completes].
Qed.

(** no HELLO is accepted twice while the clock does not go back: whatever sequence of
    authenticated HELLOs is presented, replays and floods included, the accepted ones are
    distinct, and the cache never exceeds its cap. *)
Theorem replay_refused d l :
  0 <= d -> clock_from 0 l ->
  let '(accepted, c) := replay_run d l in NoDup accepted /\ len c <= REALITY_REPLAY_CACHE_CAP.
Proof.
  intros Hd. unfold replay_run.
  assert (forall t s, replay_inv d t s -> clock_from t l ->
    NoDup (fold_left (replay_step d) l s).1 /\ len (fold_left (replay_step d) l s).2 <= REALITY_REPLAY_CACHE_CAP) as Hgen.
  { induction l as [|[[n secs] now] l IH]; intros t s Hinv Hc; [destruct Hinv as (? & _ & ?); done|].
    destruct Hc as [Ht Hc]. apply (IH now); [|done]. by apply (replay_step_inv d t). }
  intros Hc. specialize (Hgen 0 ([], [])). destruct (fold_left (replay_step d) l ([], [])) as [a c'] eqn:E.
  apply Hgen; [|done]. split_and!; cbn [fst snd]; [constructor| |done].
  intros e He%not_elem_of_nil. done.
Qed.

(** *** Witnesses *)

(** An exchange that satisfies the laws. *)
Definition toy_x25519 : X25519.
Proof.
  refine {| public_key k := replicate 32 (foldr Z.add 0 k);
            diffie_hellman k p := replicate 32 (foldr Z.add 0 k * default 0 (head p));
            was_contributory s := negb (forallb (Z.eqb 0) s) |}.
  - done.
  - done.
  - intros a b. simpl. by rewrite Z.mul_comm.
Defined.
Definition demo_cfg : RealityServerConfig :=
  {| server_names := [bs "vk.com"]; private_key := replicate 32 1; short_ids := []; max_time_diff := 60 |}.
Definition demo_auth : bytes :=
  encode_client_auth (reality_client_auth_mac zero_blake3 (replicate 32 64) (bs "secret") (replicate 32 2) (replicate 32 32) 100 (replicate 16 5)).
Definition demo_peer : Peer :=
  {| inbox := [Some (Ping [1]); Some (Binary (encode_client_hello (replicate 8 0) (replicate 32 2) 100 (replicate 16 5)));
               Some (Pong []); Some (Binary demo_auth)];
     outbox := []; stalls := false; sends_left := 5; control_frames := 0; cache := [(replicate 16 6, 90)] |}.

Lemma reality_server_sound_witness :
  exists p' shared,
    server_handshake_reality toy_x25519 zero_blake3 demo_cfg (bs "secret") (Some (bs "VK.com")) None (Some 110) (Some 111) demo_peer
    = (p', Ok shared) /\ was_contributory toy_x25519 shared = true.
Proof.
  destruct (server_handshake_reality toy_x25519 zero_blake3 demo_cfg (bs "secret") (Some (bs "VK.com")) None (Some 110) (Some 111) demo_peer)
    as [p' r] eqn:H.
  assert (exists shared, r = Ok shared) as [shared ->].
  { vm_compute in H. injection H as _ <-. eexists. reflexivity. }
  exists p', shared. split; [reflexivity|].
  destruct (reality_server_sound _ _ _ _ _ _ _ _ _ _ _ H)
    as (_ & l1 & l2 & hf & af & rest & hello & n1 & n2 & _ & _ & _ & _ & _ & _ & _ & _ & _ & _ & Hc & _). exact Hc.
Defined.

Lemma reality_handshake_completes_witness :
  exists ps, server_handshake_reality toy_x25519 zero_blake3 demo_cfg (bs "secret") (Some (bs "VK.com")) None (Some 110) (Some 111) demo_peer
    = (ps, Ok (replicate 32 64)).
Proof.
  destruct (reality_handshake_completes toy_x25519 zero_blake3 demo_cfg (bs "secret") (replicate 8 0) [2] (replicate 16 5) 100 110 111
    (Some (bs "VK.com")) None [Ping [1]] [Pong []] [] 0 5 5 [(replicate 16 6, 90)]) as [(ps & H & _) _].
  1-4: vm_compute; try split; done.
  1-2: vm_compute; reflexivity.
  1-2: vm_compute; done.
  - intros e ->%list_elem_of_singleton. vm_compute. discriminate.
  - vm_compute. done.
  - repeat constructor.
  - repeat constructor.
  - constructor.
  - vm_compute. done.
  - vm_compute. done.
  - vm_compute. lia.
  - vm_compute. lia.
  - exists ps. exact H.
Defined.

Lemma replay_refused_witness :
  let '(accepted, _) := replay_run 60 [([1], 100, 100); ([1], 100, 120); ([2], 110, 130)] in
  accepted = [([1], 100); ([2], 110)] /\ NoDup accepted.
Proof.
  pose proof (replay_refused 60 [([1], 100, 100); ([1], 100, 120); ([2], 110, 130)] ltac:(done)) as H.
  destruct (replay_run 60 _) as [accepted c] eqn:Hr.
  destruct H as [H _]; [vm_compute; repeat split; done|]. split; [|exact H].
  vm_compute in Hr. injection Hr as <- _. reflexivity.
Defined.
