(* ===== verification/MuxPool.v ===== *)
(** [tcp_mux.rs]: the pool of parallel mux sessions of a client. The pool sees a
    session through its load only ([Loadable]); the endpoint of MuxFlow is one. *)
From S2P Require Import Prelude Frame MuxWire MuxFlow.

(** What the pool asks of a session: its admission and load snapshot, [None] once stopped. *)
Definition Load : Type := bool * Z * Z.
Class Loadable (H : Type) := load_of : H -> option Load.
#[export] Instance endpoint_loadable : Loadable Endpoint := load.

(** The derived order of the tuple: admissible first, then reservations, then backlog. *)
Definition load_ltb (a b : Load) : bool :=
  let '(fa, ra, ba) := a in
  let '(fb, rb, bb) := b in
  if eqb fa fb then (ra <? rb) || ((ra =? rb) && (ba <? bb)) else negb fa && fb.

Section Pool.
Context {H : Type} `{!Loadable H}.

Record TcpMuxSessionPool := { sessions : list (Z * H); next : Z; ended : bool }.
Definition TcpMuxClientSlot : Type := option TcpMuxSessionPool.

Definition new_empty : TcpMuxSessionPool := {| sessions := []; next := 0; ended := false |}.
Definition from_sessions (l : list (Z * H)) : TcpMuxSessionPool := {| sessions := l; next := 0; ended := false |}.

(** [(0..n).map(|offset| &g[(start + offset) % n].1)]. *)
Definition rotation (start : Z) (l : list (Z * H)) : list H :=
  omap (fun offset => snd <$> l !! Z.to_nat ((start + Z.of_nat offset) mod len l)) (seq 0 (length l)).
(** [filter_map(|handle| handle.load().map(|load| (load, handle)))]. *)
Definition with_loads (l : list H) : list (Load * H) := omap (fun h => (fun k => (k, h)) <$> load_of h) l.

Definition pick (p : TcpMuxSessionPool) : TcpMuxSessionPool * option H :=
  let n := len p.(sessions) in
  if decide (n = 0) then (p, None) else
  let start := p.(next) mod n in
  let p := {| sessions := p.(sessions); next := (p.(next) + 1) mod 2 ^ 64; ended := p.(ended) |} in
  (p, snd <$> min_by_key load_ltb fst (with_loads (rotation start p.(sessions)))).

(** The pool left in the slot once [retain] kept [l], and the pool whose watchers are told. *)
Definition settle_slot (l : list (Z * H)) (p : TcpMuxSessionPool) : TcpMuxClientSlot * bool :=
  if decide (l = []) then (None, true)
  else (Some {| sessions := l; next := p.(next); ended := p.(ended) |}, p.(ended)).

(** The slot afterwards, and whether the pool's [ended] is raised. *)
Definition prune_stopped_mux_sessions (slot : TcpMuxClientSlot) : TcpMuxClientSlot * bool :=
  match slot with
  | None => (None, false)
  | Some p => settle_slot (List.filter (fun s => bool_decide (is_Some (load_of s.2))) p.(sessions)) p
  end.
Definition remove_mux_session (session_id : Z) (slot : TcpMuxClientSlot) : TcpMuxClientSlot * bool :=
  match slot with
  | None => (None, false)
  | Some p => settle_slot (List.filter (fun s => negb (s.1 =? session_id)) p.(sessions)) p
  end.

(** ** Lemmas *)

Lemma load_ltb_asym a b : load_ltb a b = true -> load_ltb b a = false.
Proof. destruct a as [[[] ra] ba], b as [[[] rb] bb]; simpl; lia. Qed.
Lemma load_ltb_neg a b c : load_ltb a b = false -> load_ltb b c = false -> load_ltb a c = false.
Proof. destruct a as [[[] ra] ba], b as [[[] rb] bb], c as [[[] rc] bc]; simpl; lia. Qed.

(** A rotation visits every session once. *)
Lemma rotation_In start l h : 0 <= start -> h ∈ rotation start l <-> exists id, (id, h) ∈ l.
Proof.
  intros Hs. unfold rotation. rewrite list_elem_of_omap. split.
  - intros (o & _ & Ho). destruct (l !! _) as [[id h']|] eqn:Hl; [|done]. injection Ho as ->.
    exists id. by apply list_elem_of_lookup_2 in Hl.
  - intros (id & Hin). apply list_elem_of_lookup in Hin as [i Hi]. pose proof (lookup_lt_Some _ _ _ Hi) as Hlt.
    assert (0 < len l) as Hn by (unfold len; lia).
    exists (Z.to_nat ((Z.of_nat i - start) mod len l)). pose proof (Z.mod_pos_bound (Z.of_nat i - start) (len l) Hn).
    split; [apply elem_of_seq; unfold len in *; lia|].
    rewrite Z2Nat.id by lia. rewrite Zplus_mod_idemp_r. replace (start + (Z.of_nat i - start)) with (Z.of_nat i) by lia.
    rewrite Z.mod_small by (unfold len; lia). by rewrite Nat2Z.id, Hi.
Qed.

Lemma with_loads_In l k h : (k, h) ∈ with_loads l <-> h ∈ l /\ load_of h = Some k.
Proof.
  unfold with_loads. rewrite list_elem_of_omap. split.
  - intros (h' & Hin & Hk). destruct (load_of h') eqn:E; [|done]. injection Hk as -> ->. done.
  - intros [Hin Hk]. exists h. by rewrite Hk.
Qed.

(** The chosen session comes first, in rotation order, among the least loaded. *)
Lemma pick_spec p p' r :
  0 <= p.(next) -> pick p = (p', r) ->
  p'.(sessions) = p.(sessions) /\
  match r with
  | None => forall id h, (id, h) ∈ p.(sessions) -> load_of h = None
  | Some h => exists k l1 l2, rotation (p.(next) mod len p.(sessions)) p.(sessions) = l1 ++ h :: l2 /\ load_of h = Some k /\
      Forall (fun h' => forall k', load_of h' = Some k' -> load_ltb k k' = true) l1 /\
      Forall (fun h' => forall k', load_of h' = Some k' -> load_ltb k' k = false) l2
  end.
Proof.
  intros Hnext. unfold pick. case_decide as Hn.
  { intros [= <- <-]. split; [done|]. apply len_zero in Hn as ->. by intros id h ?%not_elem_of_nil. }
  cbn [sessions]. set (start := next p mod len (sessions p)). set (rot := rotation start (sessions p)).
  assert (0 <= start) as Hs by (apply Z.mod_pos_bound; pose proof (len_nonneg (sessions p)); lia).
  intros [= <- <-]. split; [done|]. destruct (min_by_key load_ltb fst (with_loads rot)) as [[k h]|] eqn:Hm; simpl.
  - apply min_by_key_first in Hm as (w1 & w2 & Hw & H1 & H2); [|apply load_ltb_asym|apply load_ltb_neg].
    exists k. clearbody rot. clear Hs Hnext Hn start. revert w1 Hw H1.
    induction rot as [|x rot IH]; intros w1 Hw H1; [by destruct w1|].
    unfold with_loads in Hw. cbn [omap list_omap] in Hw. fold (with_loads rot) in Hw.
    destruct (load_of x) as [kx|] eqn:Hx; simpl in Hw.
    + destruct w1 as [|[k1 h1] w1].
      * injection Hw as -> -> Hw. exists [], rot. split_and!; [done|done|done|].
        apply Forall_forall. intros h' Hin k' Hk'. rewrite Forall_forall in H2. apply (H2 (k', h')).
        rewrite <- Hw. by apply with_loads_In.
      * injection Hw as -> -> Hw. apply Forall_cons in H1 as [H1 H1'].
        destruct (IH w1 Hw H1') as (l1 & l2 & -> & Hk & Hl1 & Hl2).
        exists (h1 :: l1), l2. split_and!; [done|done| |done]. constructor; [|done]. intros k' Hk'. simpl in H1. congruence.
    + destruct (IH w1 Hw H1) as (l1 & l2 & -> & Hk & Hl1 & Hl2).
      exists (x :: l1), l2. split_and!; [done|done| |done]. constructor; [|done]. intros k' Hk'. congruence.
  - apply min_by_key_None in Hm. intros id h Hin. destruct (load_of h) as [k|] eqn:Hk; [|done].
    assert ((k, h) ∈ with_loads rot) as Hw by (apply with_loads_In; split; [apply rotation_In; [done|by exists id]|done]).
    rewrite Hm in Hw. by apply not_elem_of_nil in Hw.
Qed.
End Pool.

(** The session under the cursor, when all are alike. *)
Lemma rotation_head {H} start (l : list (Z * H)) :
  l <> [] -> 0 <= start < len l -> head (rotation start l) = snd <$> l !! Z.to_nat start.
Proof.
  intros Hl Hs. unfold rotation. destruct l as [|x l]; [done|]. cbn [length seq omap list_omap].
  rewrite Z.add_0_r, Z.mod_small by done. destruct ((x :: l) !! Z.to_nat start) as [y|] eqn:Hy; [done|].
  apply lookup_ge_None in Hy. unfold len in Hs. lia.
Qed.

(** The snapshot does not promise more than admission grants. *)
Lemma load_admits e r b sid pw :
  load e = Some (false, r, b) -> sid <> 0 -> e.(streams) !! sid = None -> exists e' ref, allocate sid pw e = (e', Ok ref).
Proof.
  unfold load. destruct (closed e) eqn:Hc; [done|]. destruct (writer_gone e); [done|]. simpl. intros Hl Hsid Hfresh.
  injection Hl as Hfull _ _. apply orb_false_iff in Hfull as [H1%bool_decide_eq_false H2%bool_decide_eq_false].
  unfold allocate. rewrite Hc. rewrite decide_False by (rewrite Hfresh; intros [?|[? ?]]; done).
  rewrite decide_False by done. rewrite decide_False by done. eauto.
Qed.

(** ** Properties *)

(** [pick] gives a session exactly when one is alive, the least loaded one (admissible before
    full, then fewer reservations, then less backlog); if any session is admissible, the one
    given admits a new stream; and when all loads are equal the cursor's session is given, so
    that successive picks go round. *)
Theorem pick_least_loaded (p p' : TcpMuxSessionPool (H := Endpoint)) r :
  0 <= p.(next) -> pick p = (p', r) ->
  (r = None <-> forall id e, (id, e) ∈ p.(sessions) -> load e = None) /\
  (forall e, r = Some e ->
    (exists id, (id, e) ∈ p.(sessions)) /\
    (exists k, load e = Some k /\ forall id e' k', (id, e') ∈ p.(sessions) -> load e' = Some k' -> load_ltb k' k = false) /\
    ((exists id e' rs bl, (id, e') ∈ p.(sessions) /\ load e' = Some (false, rs, bl)) ->
     forall sid pw, sid <> 0 -> e.(streams) !! sid = None -> exists e1 ref, allocate sid pw e = (e1, Ok ref))) /\
  (forall k, p.(sessions) <> [] -> (forall id e, (id, e) ∈ p.(sessions) -> load e = Some k) ->
    r = snd <$> p.(sessions) !! Z.to_nat (p.(next) mod len p.(sessions)) /\ p'.(next) = (p.(next) + 1) mod 2 ^ 64).
Proof.
  intros Hnext Hp. destruct (pick_spec _ _ _ Hnext Hp) as [_ Hspec].
  assert (p.(sessions) <> [] -> 0 <= p.(next) mod len p.(sessions) < len p.(sessions)) as Hstart.
  { intros Hne. apply Z.mod_pos_bound. pose proof (len_nonneg p.(sessions)).
    destruct (decide (len p.(sessions) = 0)) as [Hz|]; [by apply len_zero in Hz|lia]. }
  assert (forall e, r = Some e -> exists k, load e = Some k /\ (exists id, (id, e) ∈ p.(sessions)) /\
    forall id e' k', (id, e') ∈ p.(sessions) -> load e' = Some k' -> load_ltb k' k = false) as Hbest.
  { intros e ->. destruct Hspec as (k & l1 & l2 & Hrot & Hk & Hl1 & Hl2). exists k.
    assert (p.(sessions) <> []) as Hne by (intros Hnil; rewrite Hnil in Hrot; by destruct l1).
    assert (forall h, h ∈ l1 ++ e :: l2 <-> exists id, (id, h) ∈ p.(sessions)) as Hin
      by (intros h; rewrite <- Hrot; apply rotation_In; specialize (Hstart Hne); lia).
    split_and!; [done|apply Hin, elem_of_app; right; apply list_elem_of_here|].
    intros id e' k' He' Hk'. assert (e' ∈ l1 ++ e :: l2) as Hm by (apply Hin; by exists id).
    rewrite !Forall_forall in *. apply elem_of_app in Hm as [Hm|Hm]; [by apply load_ltb_asym, (Hl1 e')|].
    apply elem_of_cons in Hm as [->|Hm]; [|by apply (Hl2 e')]. unfold load_of, endpoint_loadable in Hk.
    rewrite Hk' in Hk. injection Hk as ->. destruct (load_ltb k k) eqn:E; [|done]. by rewrite <- (load_ltb_asym k k). }
  split; [|split].
  - split; [by intros ->|]. intros Hall. destruct r as [e|]; [|done].
    destruct (Hbest e eq_refl) as (k & Hk & (id & Hid) & _). by rewrite (Hall id e Hid) in Hk.
  - intros e ->. destruct (Hbest e eq_refl) as (k & Hk & Hid & Hmin). split_and!; [done|by exists k|].
    intros (id & e' & rs & bl & Hin & Hadm) sid pw Hsid Hfresh. specialize (Hmin id e' _ Hin Hadm).
    destruct k as [[[] rk] bk]; [done|]. by eapply load_admits.
  - intros k Hne Hall. specialize (Hstart Hne). unfold pick in Hp. pose proof (rotation_head _ _ Hne Hstart) as Hhd.
    destruct (decide (len (sessions p) = 0)) as [Hz|_]; [by apply len_zero in Hz|]. injection Hp as <- Hr. split; [|done].
    rewrite <- Hhd. destruct r as [e|].
    + destruct Hspec as (k' & l1 & l2 & Hrot & Hk & Hl1 & _). rewrite Hrot. destruct l1 as [|h l1]; [done|].
      apply Forall_cons in Hl1 as [Hh _]. assert (exists id, (id, h) ∈ p.(sessions)) as [id Hid].
      { apply (rotation_In (next p mod len (sessions p))); [lia|]. rewrite Hrot. apply list_elem_of_here. }
      assert (exists id, (id, e) ∈ p.(sessions)) as [id' Hid'].
      { apply (rotation_In (next p mod len (sessions p))); [lia|]. rewrite Hrot. apply elem_of_app. right. apply list_elem_of_here. }
      specialize (Hh k (Hall id h Hid)). unfold load_of, endpoint_loadable in Hk. rewrite (Hall id' e Hid') in Hk. injection Hk as <-.
      by rewrite (load_ltb_asym k k Hh) in Hh.
    + exfalso. destruct (p.(sessions)) as [|[id e] l] eqn:Hs; [done|].
      assert ((id, e) ∈ (id, e) :: l) as Hin by apply list_elem_of_here. specialize (Hspec id e Hin). specialize (Hall id e Hin).
      unfold load_of, endpoint_loadable in Hspec. congruence.
Qed.

(** a stopped or removed session leaves the pool and no other does; the slot is cleared, and the
    pool's watchers are told, exactly when no session is left. *)
Theorem slot_lifecycle (p : TcpMuxSessionPool (H := Endpoint)) session_id :
  p.(ended) = false ->
  let '(pruned, told1) := prune_stopped_mux_sessions (Some p) in
  let '(removed, told2) := remove_mux_session session_id (Some p) in
  let left1 s := s ∈ p.(sessions) /\ is_Some (load s.2) in
  let left2 s := s ∈ p.(sessions) /\ s.1 <> session_id in
  (forall s, left1 s <-> exists q, pruned = Some q /\ s ∈ q.(sessions)) /\
  (forall s, left2 s <-> exists q, removed = Some q /\ s ∈ q.(sessions)) /\
  (pruned = None <-> forall s, ~ left1 s) /\ (told1 = true <-> pruned = None) /\
  (removed = None <-> forall s, ~ left2 s) /\ (told2 = true <-> removed = None).
Proof.
  intros Hend. unfold prune_stopped_mux_sessions, remove_mux_session.
  assert (forall P l q told, settle_slot (List.filter P p.(sessions)) p = (q, told) ->
    l = List.filter P p.(sessions) ->
    (forall s, (s ∈ p.(sessions) /\ P s = true) <-> exists q', q = Some q' /\ s ∈ q'.(sessions)) /\
    (q = None <-> forall s, ~ (s ∈ p.(sessions) /\ P s = true)) /\ (told = true <-> q = None)) as Hgen.
  { intros P l q told Hset ->. unfold settle_slot in Hset.
    assert (forall s, s ∈ List.filter P (sessions p) <-> s ∈ sessions p /\ P s = true) as Hf
      by (intros s; rewrite !list_elem_of_In; apply filter_In).
    destruct (decide (List.filter P (sessions p) = [])) as [Hnil|Hnil]; injection Hset as <- <-.
    - rewrite Hnil in Hf. split_and!; [|split; [intros _ s Hs; by apply Hf, not_elem_of_nil in Hs|done]|done].
      intros s. split; [intros Hs; by apply Hf, not_elem_of_nil in Hs|by intros (? & ? & _)].
    - split_and!.
      + intros s. rewrite <- Hf. split; [intros Hs; eexists; split; [reflexivity|done]|]. by intros (q' & [= <-] & Hs).
      + split; [done|]. intros Hno. exfalso. destruct (List.filter P (sessions p)) as [|s l] eqn:E; [done|].
        apply (Hno s), Hf, list_elem_of_here.
      + rewrite Hend. done. }
  destruct (settle_slot (List.filter (fun s => bool_decide (is_Some (load_of s.2))) (sessions p)) p) as [q1 t1] eqn:E1.
  destruct (settle_slot (List.filter (fun s => negb (s.1 =? session_id)) (sessions p)) p) as [q2 t2] eqn:E2.
  destruct (Hgen _ _ _ _ E1 eq_refl) as (A1 & A2 & A3). destruct (Hgen _ _ _ _ E2 eq_refl) as (B1 & B2 & B3).
  assert (forall s : Z * Endpoint, bool_decide (is_Some (load_of s.2)) = true <-> is_Some (load s.2)) as Ha by (intros; apply bool_decide_eq_true).
  assert (forall s : Z * Endpoint, negb (s.1 =? session_id) = true <-> s.1 <> session_id) as Hb by (intros; rewrite negb_true_iff; apply Z.eqb_neq).
  split_and!; [intros s; rewrite <- Ha; apply A1|intros s; rewrite <- Hb; apply B1| |done| |done].
  - rewrite A2. split; intros Hn s [? Hs]; apply (Hn s); (split; [done|by apply Ha]).
  - rewrite B2. split; intros Hn s [? Hs]; apply (Hn s); (split; [done|by apply Hb]).
Qed.

(** *** Witnesses *)

Definition pool_cfg : MuxClientConfig :=
  {| mux_window_mib := {| mib := 4 |}; max_pad := 0; cfg_decoy_max := 0; max_ws_binary := 65536; ws_ping_secs := 0;
     ws_ping_jitter_percent := 0; ws_binary_send_jitter_ms := 0; ws_jitter_min_ms := 0; ws_jitter_max_ms := 0;
     transport_v2 := true; pad_mode := Random; dummy_interval_secs := 0 |}.
(** Two idle sessions and one that has stopped. *)
Definition idle : Endpoint := Endpoint_new true pool_cfg.
Definition demo_pool : TcpMuxSessionPool :=
  {| sessions := [(1, set_status idle true false Pending); (2, idle); (3, idle)]; next := 7; ended := false |}.

Lemma pick_least_loaded_witness :
  exists e1 r, pick demo_pool = ({| sessions := demo_pool.(sessions); next := 8; ended := false |}, Some idle) /\
  allocate 1 None idle = (e1, Ok r).
Proof.
  assert (pick demo_pool = ({| sessions := demo_pool.(sessions); next := 8; ended := false |}, Some idle)) as Hp
    by (vm_compute; reflexivity).
  destruct (pick_least_loaded demo_pool _ _ ltac:(vm_compute; discriminate) Hp) as (_ & H & _).
  destruct (H idle eq_refl) as (_ & _ & Hadm).
  destruct (Hadm ltac:(exists 2, idle, 0, 0; split; [apply list_elem_of_further, list_elem_of_here|vm_compute; reflexivity])
    1 None ltac:(discriminate) eq_refl) as (e1 & r & Ha).
  exists e1, r. split; [exact Hp|exact Ha].
Defined.

Lemma slot_lifecycle_witness :
  (prune_stopped_mux_sessions (Some demo_pool)).2 = false /\
  exists q, (prune_stopped_mux_sessions (Some demo_pool)).1 = Some q /\ (2, idle) ∈ q.(sessions).
Proof.
  pose proof (slot_lifecycle demo_pool 2 eq_refl) as H.
  split; [vm_compute; reflexivity|].
  destruct (prune_stopped_mux_sessions (Some demo_pool)) as [pruned told].
  destruct (remove_mux_session 2 (Some demo_pool)) as [removed told2]. destruct H as [H _].
  apply H. split; [apply list_elem_of_further, list_elem_of_here|eexists; reflexivity].
Defined.
