(* ===== verification/Users.v ===== *)
(** [users.rs], with the token rules of [startup_secrets.rs]: the users file, and the
    per-user limit on concurrent sessions. *)
From S2P Require Import Prelude Text Crypto.

(** ** Tokens *)

Definition LAB_DEFAULT_TOKEN : str := bs "change-me".
Definition is_token_denylisted (token : str) : bool :=
  let t := trim token in
  if decide (t = []) then true
  else
    let l := to_ascii_lowercase t in
    bool_decide (l = bs "change-me") || bool_decide (l = bs "changeme") || bool_decide (l = bs "test").
Definition resolve_cli_token (token : option str) (lab : bool) : result str :=
  if lab then
    match token with
    | Some raw => let t := trim raw in if decide (t = []) then Ok LAB_DEFAULT_TOKEN else Ok t
    | None => Ok LAB_DEFAULT_TOKEN
    end
  else
    raw ← context "--token is required (or use --lab for local demos only)"%string token;
    let t := trim raw in
    if decide (t = []) then bail "--token must not be empty"
    else if is_token_denylisted t then bail "--token must not be a well-known placeholder"
    else Ok t.
Definition validate_resolved_token (token : str) : result unit :=
  let t := trim token in
  if decide (t = []) then bail "token is required"
  else if is_token_denylisted t then bail "token must not be a well-known placeholder"
  else Ok tt.
Definition non_empty_str (s : option str) : bool :=
  match s with Some s => negb (bool_decide (trim s = [])) | None => false end.
Definition server_reality_configured (target private_key : option str) : bool :=
  non_empty_str target && non_empty_str private_key.
Definition client_reality_configured (target : option str) (public_key : option bytes) : bool :=
  non_empty_str target && bool_decide (is_Some public_key).
Definition require_psk (psk : option str) (reality_fully_configured lab : bool) : result unit :=
  if non_empty_str psk || lab || reality_fully_configured then Ok tt
  else bail "--psk is required unless REALITY is fully configured or --lab is set".

(** ** The file *)

Record User := { label : str; token : str; enabled : bool; max_concurrent : option Z }.

(** [chars().any(char::is_control)]: C0, DEL, and C1 in its two UTF-8 bytes. *)
Fixpoint has_control (s : str) : bool :=
  match s with
  | [] => false
  | c :: r =>
    (c <? 32) || (c =? 127) || ((c =? 194) && match r with d :: _ => in_rng 128 159 d | [] => false end) || has_control r
  end.

Fixpoint validate_from (labels tokens : list str) (users : list User) : result unit :=
  match users with
  | [] => Ok tt
  | u :: users =>
    if decide (trim u.(label) = [] \/ 128 < len u.(label) \/ has_control u.(label) = true
               \/ u.(label) <> trim u.(label) \/ u.(label) ∈ labels)
    then bail "empty or duplicate user label" else
    let labels := u.(label) :: labels in
    _ ← validate_resolved_token u.(token);
    if decide (u.(token) <> trim u.(token) \/ u.(token) ∈ tokens) then bail "invalid or duplicate user token" else
    let tokens := u.(token) :: tokens in
    if decide (u.(max_concurrent) = Some 0) then bail "max_concurrent must be positive" else
    validate_from labels tokens users
  end.
Definition validate_users (users : list User) : result unit := validate_from [] [] users.

Section Registry.
(** [serde_json::from_slice], and [blake3::hash]. *)
Context (parse_users : bytes -> option (list User)) (hash : bytes -> bytes).

(** [data]: the file as read, [None] when it cannot be read. *)
Definition load_users (data : option bytes) : result (list User) :=
  data ← context "read users file"%string data;
  if decide (1024 * 1024 < len data) then bail "users file exceeds 1 MiB" else
  file ← context "parse users file"%string (parse_users data);
  _ ← validate_users file;
  Ok file.

(** The sessions in progress, by label; [UserRegistry] and the sessions share it. *)
Abbreviation Active := (gmap str Z).

(** The last entry whose token hashes alike. *)
Definition find_user (candidate : str) (users : list User) : option User :=
  fold_left (fun user entry => if secret_eq (hash candidate) (hash entry.(token)) then Some entry else user) users None.

(** [UserRegistry::new] and its table. *)
Definition UserRegistry_new (data : option bytes) : result Active := _ ← load_users data; Ok ∅.

(** A [UserSession] is its label. *)
Definition acquire (data : option bytes) (tok : str) : ST Active err str := fun active =>
  match load_users data with
  | Err e => (active, Err e)
  | Panic => (active, Panic)
  | Ok users =>
    match find_user tok users with
    | Some u =>
      if negb u.(enabled) then (active, bail "unknown or disabled user") else
      let count := default 0 (active !! u.(label)) in
      if match u.(max_concurrent) with Some limit => bool_decide (limit <= count) | None => false end
      then (<[u.(label) := count]> active, bail "user session limit reached")
      else (<[u.(label) := count + 1]> active, Ok u.(label))
    | None => (active, bail "unknown or disabled user")
    end
  end.

(** [UserSession::drop]; the subtraction must not underflow. *)
Definition drop_session (l : str) : ST Active err unit := fun active =>
  match active !! l with
  | None => (active, Ok tt)
  | Some count =>
    if decide (count <= 0) then (active, Panic) else
    let count := count - 1 in
    (if decide (count = 0) then delete l active else <[l := count]> active, Ok tt)
  end.

Definition find_token (data : option bytes) (matches : str -> bool) : result str :=
  users ← load_users data;
  context "unknown or disabled user"%string
    (fold_left (fun matched u => if matches u.(token) then Some u.(token) else matched)
       (List.filter (fun u => u.(enabled)) users) None).

(** ** Histories: connections come and go, the file changes meanwhile *)

Definition RegState : Type := Active * list str.
Inductive reg_step : RegState -> RegState -> Prop :=
| Step_acquire data tok l active active' live :
    acquire data tok active = (active', Ok l) -> reg_step (active, live) (active', l :: live)
| Step_refuse data tok e active active' live :
    acquire data tok active = (active', Err e) -> reg_step (active, live) (active', live)
| Step_drop l active active' live live' :
    live ≡ₚ l :: live' -> drop_session l active = (active', Ok tt) -> reg_step (active, live) (active', live').
Definition reg_reachable : RegState -> Prop := rtc reg_step (∅, []).

(** ** Lemmas *)

Definition count_of (l : str) (live : list str) : Z := Z.of_nat (length (List.filter (fun x => bool_decide (x = l)) live)).

Lemma count_cons l x live : count_of l (x :: live) = count_of l live + (if bool_decide (x = l) then 1 else 0).
Proof. unfold count_of. cbn [List.filter]. destruct (bool_decide (x = l)); cbn [length]; lia. Qed.

Lemma count_nonneg l live : 0 <= count_of l live.
Proof. unfold count_of. lia. Qed.

Lemma count_perm l live live' : live ≡ₚ live' -> count_of l live = count_of l live'.
Proof. induction 1; rewrite ?count_cons; lia. Qed.

(** The table counts the live sessions. *)
Definition counted (s : RegState) : Prop := forall l, default 0 (s.1 !! l) = count_of l s.2.

Lemma default_insert (m : gmap str Z) k v l : default 0 (<[k := v]> m !! l) = if bool_decide (k = l) then v else default 0 (m !! l).
Proof.
  case_bool_decide as H; [subst; by rewrite lookup_insert_eq|by rewrite lookup_insert_ne].
Qed.

Lemma find_user_In candidate users u :
  find_user candidate users = Some u -> u ∈ users /\ hash candidate = hash u.(token).
Proof.
  unfold find_user. assert (forall acc, fold_left (fun user entry => if secret_eq (hash candidate) (hash entry.(token)) then Some entry else user) users acc = Some u ->
    acc = Some u \/ (u ∈ users /\ hash candidate = hash u.(token))) as Hgen.
  { induction users as [|v users IH]; intros acc; simpl; [by left|]. intros [H|[H1 H2]]%IH.
    - destruct (secret_eq _ _) eqn:Hs; [|by left]. injection H as <-. right. apply secret_eq_true in Hs. split; [apply list_elem_of_here|done].
    - right. split; [by apply list_elem_of_further|done]. }
  intros [?|?]%Hgen; done.
Qed.

Lemma acquire_counted data tok active live active' r :
  counted (active, live) -> acquire data tok active = (active', r) ->
  counted (active', match r with Ok l => l :: live | _ => live end).
Proof.
  intros Hc. unfold acquire. destruct (load_users data) as [users|e|]; [|by intros [= <- <-]..].
  destruct (find_user tok users) as [u|]; [|by intros [= <- <-]]. destruct (negb _); [by intros [= <- <-]|].
  pose proof (Hc (label u)) as Hu. cbn [fst snd] in Hu.
  destruct (match max_concurrent u with Some limit => bool_decide _ | None => false end); intros [= <- <-] l; cbn [fst snd].
  - rewrite default_insert. case_bool_decide as Hl; [by subst|apply Hc].
  - rewrite default_insert, count_cons. case_bool_decide as Hl; [subst l; lia|]. rewrite Z.add_0_r. apply Hc.
Qed.

Lemma drop_counted l active live live' :
  counted (active, live) -> live ≡ₚ l :: live' ->
  exists active', drop_session l active = (active', Ok tt) /\ counted (active', live').
Proof.
  intros Hc Hp. pose proof (Hc l) as Hl. cbn [fst snd] in Hl. rewrite (count_perm _ _ _ Hp), count_cons, bool_decide_true in Hl by done.
  pose proof (count_nonneg l live'). unfold drop_session.
  destruct (active !! l) as [count|] eqn:Ha; [|simpl in Hl; lia]. simpl in Hl. rewrite decide_False by lia.
  eexists; split; [reflexivity|]. intros k. cbn [fst snd]. pose proof (Hc k) as Hk. cbn [fst snd] in Hk.
  rewrite (count_perm _ _ _ Hp), count_cons in Hk. destruct (decide (count - 1 = 0)) as [Hz|Hz].
  - destruct (decide (l = k)) as [->|Hne]; [rewrite lookup_delete_eq; simpl; lia|].
    rewrite lookup_delete_ne by done. rewrite bool_decide_false in Hk by done. lia.
  - rewrite default_insert. case_bool_decide; [subst k; lia|lia].
Qed.

Lemma reg_reachable_counted s : reg_reachable s -> counted s.
Proof.
  apply (rtc_ind_r (fun s => counted s)); [by intros l|]. intros y z _ Hstep Hy. destruct Hstep as [data tok l a a' live Ha|data tok e a a' live Ha|l a a' live live' Hp Hd].
  - exact (acquire_counted _ _ _ _ _ _ Hy Ha).
  - exact (acquire_counted _ _ _ _ _ _ Hy Ha).
  - destruct (drop_counted _ _ _ _ Hy Hp) as (a2 & Hd2 & Hc). congruence.
Qed.

Lemma validate_from_spec labels tokens users :
  validate_from labels tokens users = Ok tt -> NoDup labels -> NoDup tokens ->
  NoDup ((label <$> users) ++ labels) /\ NoDup ((token <$> users) ++ tokens) /\
  Forall (fun u => u.(max_concurrent) <> Some 0 /\ is_token_denylisted u.(token) = false) users.
Proof.
  revert labels tokens. induction users as [|u users IH]; intros labels tokens; cbn [validate_from]; [done|].
  case_decide as Hl; [done|]. intros ([] & Htok & H)%bind_Ok Hnl Hnt. case_decide as Ht; [done|]. case_decide as Hm; [done|].
  apply IH in H as (Hl' & Ht' & Hall).
  - cbn [fmap list_fmap app]. change (list_fmap _ _ label users) with (label <$> users). change (list_fmap _ _ token users) with (token <$> users).
    rewrite <- Permutation_middle in Hl', Ht'. split_and!; [done..|]. constructor; [|done]. split; [done|].
    unfold validate_resolved_token in Htok. case_decide; [done|]. unfold is_token_denylisted in *.
    destruct (decide (trim (trim (token u)) = [])); [done|].
    assert (trim (token u) = token u) as Heq by (destruct (decide (token u = trim (token u))); [done|tauto]).
    rewrite !Heq in *. rewrite decide_False by done. by destruct (_ || _).
  - constructor; [tauto|done].
  - constructor; [tauto|done].
Qed.
End Registry.

(** ** Properties *)

(** sessions stay within their user's limit: in any history of connections, refusals and
    closings, with the file edited at will, the table counts exactly the live sessions, closing
    one never underflows, and a session is admitted only for an enabled user of a valid
    file whose token hashes alike and whose limit it does not exceed. *)
Theorem user_sessions_limited parse_users hash active live :
  reg_reachable parse_users hash (active, live) ->
  (forall l, default 0 (active !! l) = count_of l live) /\
  (forall l live', live ≡ₚ l :: live' -> exists active', drop_session l active = (active', Ok tt)) /\
  (forall data tok active' l, acquire parse_users hash data tok active = (active', Ok l) ->
    exists file users u, data = Some file /\ parse_users file = Some users /\ u ∈ users /\ l = u.(label) /\
      u.(enabled) = true /\ hash tok = hash u.(token) /\ is_token_denylisted u.(token) = false /\
      NoDup (label <$> users) /\ NoDup (token <$> users) /\
      forall limit, u.(max_concurrent) = Some limit -> count_of l (l :: live) <= limit).
Proof.
  intros Hr. pose proof (reg_reachable_counted _ _ _ Hr) as Hc. split_and!; [exact Hc| |].
  - intros l live' Hp. destruct (drop_counted _ _ _ _ Hc Hp) as (a' & Hd & _). by exists a'.
  - intros data tok active' l. unfold acquire. destruct (load_users parse_users data) as [users|e|] eqn:Hload; [|done..].
    destruct (find_user hash tok users) as [u|] eqn:Hf; [|done]. destruct (enabled u) eqn:Hen; [|done]. cbn [negb].
    apply find_user_In in Hf as [Hu Hh].
    assert (exists file, data = Some file /\ parse_users file = Some users /\ validate_users users = Ok tt) as (file & -> & Hp & Hv).
    { unfold load_users in Hload. apply bind_Ok in Hload as (file & Hd & Hload). case_decide; [done|].
      apply bind_Ok in Hload as (users' & Hp & Hload). apply bind_Ok in Hload as ([] & Hv & Hload). injection Hload as <-.
      destruct data; [|done]. injection Hd as ->. destruct (parse_users file) eqn:E; [|done]. injection Hp as ->. by exists file. }
    apply validate_from_spec in Hv as (Hl & Ht & Hall); [|constructor..]. rewrite !app_nil_r in *.
    rewrite Forall_forall in Hall. destruct (Hall u Hu) as [_ Hden].
    destruct (max_concurrent u) as [limit|] eqn:Hm.
    + case_bool_decide as Hlim; [done|]. intros H. injection H as _ <-. exists file, users, u. split_and!; try done.
      intros limit' Hl'. assert (limit' = limit) as -> by congruence.
      rewrite count_cons, bool_decide_true by done. pose proof (Hc (label u)) as Hcu. cbn [fst snd] in Hcu. lia.
    + intros H. injection H as _ <-. exists file, users, u. split_and!; try done.
      intros limit Hl'. congruence.
Qed.

Definition alice : User := {| label := bs "alice"; token := bs "alice-secret"; enabled := true; max_concurrent := Some 1 |}.

Lemma user_sessions_limited_witness :
  exists active, acquire (fun _ => Some [alice]) (fun t => t) (Some []) (bs "alice-secret") ∅ = (active, Ok (bs "alice")) /\
  default 0 (active !! bs "alice") = 1 /\
  (acquire (fun _ => Some [alice]) (fun t => t) (Some []) (bs "alice-secret") active).2 = bail "user session limit reached".
Proof.
  destruct (acquire (fun _ => Some [alice]) (fun t => t) (Some []) (bs "alice-secret") ∅) as [active r] eqn:Ha.
  assert (r = Ok (bs "alice")) as -> by (vm_compute in Ha; injection Ha as _ <-; reflexivity).
  exists active. split; [reflexivity|].
  destruct (user_sessions_limited (fun _ => Some [alice]) (fun t => t) active [bs "alice"]) as (Hc & _).
  - eapply rtc_l; [|apply rtc_refl]. eapply Step_acquire. exact Ha.
  - split; [rewrite Hc; vm_compute; reflexivity|]. vm_compute in Ha. injection Ha as <-. vm_compute. reflexivity.
Defined.
