(* ===== verification/UsersAdmin.v ===== *)
(** [bin/users.rs]: the administration of the users file. Every access to the file system is a step of its own, may fail, and
    other administrators' steps may come between; a process that is killed takes no further step. *)
From S2P Require Import Prelude Text Net Crypto Users.

(** The contents of the files, by path. *)
Abbreviation Fs := (gmap str bytes).

Inductive Action : Type :=
| Add (label : str) (max_concurrent : option Z)
| Enable (label : str)
| Disable (label : str).

(** [iter_mut().find(..)], then the switch. *)
Fixpoint set_enabled (l : str) (on : bool) (users : list User) : result (list User) :=
  match users with
  | [] => bail "user not found"
  | u :: users =>
    if decide (u.(label) = l) then Ok ({| label := u.(label); token := u.(token); enabled := on; max_concurrent := u.(max_concurrent) |} :: users)
    else rest ← set_enabled l on users; Ok (u :: rest)
  end.

Fixpoint hex_digits (k : nat) (n : Z) : str :=
  match k with O => [] | S k => hex_digits k (n / 16) ++ [hex_char (n mod 16)] end.

Section Admin.
(** [serde_json] and [hex]. *)
Context (parse_users : bytes -> option (list User)) (print_users : list User -> bytes) (hex_encode : bytes -> str).
Context (path : str).

Definition lock_path : str := path ++ bs ".lock".
Definition tmp_path (r : Z) : str := path ++ bs ".tmp." ++ hex_digits 16 r.

Definition edit (secret : bytes) (a : Action) (users : list User) : result (list User) :=
  match a with
  | Add l m => Ok (users ++ [{| label := l; token := hex_encode secret; enabled := true; max_concurrent := m |}])
  | Enable l => set_enabled l true users
  | Disable l => set_enabled l false users
  end.

(** The registry an action starts from. *)
Definition registry_for (a : Action) (data : option bytes) : result (list User) :=
  match data with
  | Some data => load_users parse_users (Some data)
  | None => match a with Add _ _ => Ok [] | _ => bail "users file does not exist" end
  end.

(** What [save] writes. *)
Definition file_of (users : list User) : bytes := print_users users ++ [10].

(** Where a process is: before [lock], before the load, before [save], writing its temporary file, before the rename,
    removing the temporary file after a failure, releasing the lock, gone. *)
Inductive Proc : Type :=
| AtLock (a : Action)
| AtLoad (a : Action)
| AtSave (users : list User)
| AtWrite (tmp : str) (rest : bytes)
| AtSync (tmp : str)
| AtRename (tmp : str)
| AtCleanup (tmp : str) (e : err)
| AtUnlock (r : result unit)
| Ended (r : result unit).

(** [args.users_file.exists()], which is false also when the file cannot be looked at; [told] says that this does not happen. *)
Definition seen (told : bool) (file : option bytes) (answer : option bytes) : Prop := answer = file \/ told = false /\ answer = None.

(** [create_new] fails where there is a file; any access may fail besides. *)
Inductive admin_step (told : bool) : Fs * Proc -> Fs * Proc -> Prop :=
| Lock_taken fs a : fs !! lock_path = None -> admin_step told (fs, AtLock a) (<[lock_path := []]> fs, AtLoad a)
| Lock_refused fs a : admin_step told (fs, AtLock a) (fs, Ended (bail "user registry is locked"))
| Loaded fs a data secret users :
    seen told (fs !! path) data -> (u ← registry_for a data; edit secret a u) = Ok users -> admin_step told (fs, AtLoad a) (fs, AtSave users)
| Load_refused fs a data secret e :
    seen told (fs !! path) data -> (u ← registry_for a data; edit secret a u) = Err e -> admin_step told (fs, AtLoad a) (fs, AtUnlock (Err e))
| Load_failed fs a : admin_step told (fs, AtLoad a) (fs, AtUnlock (bail "read users file"))
| Save_refused fs users e : validate_users users = Err e -> admin_step told (fs, AtSave users) (fs, AtUnlock (Err e))
| Save_created fs users r :
    validate_users users = Ok tt -> fs !! tmp_path r = None ->
    admin_step told (fs, AtSave users) (<[tmp_path r := []]> fs, AtWrite (tmp_path r) (file_of users))
| Save_not_created fs users r :
    validate_users users = Ok tt -> admin_step told (fs, AtSave users) (fs, AtCleanup (tmp_path r) "create")
| Wrote fs tmp old n rest :
    fs !! tmp = Some old -> admin_step told (fs, AtWrite tmp rest) (<[tmp := old ++ take n rest]> fs, AtWrite tmp (drop n rest))
| Write_failed fs tmp rest : admin_step told (fs, AtWrite tmp rest) (fs, AtCleanup tmp "write")
| Write_done fs tmp : admin_step told (fs, AtWrite tmp []) (fs, AtSync tmp)
| Synced fs tmp : admin_step told (fs, AtSync tmp) (fs, AtRename tmp)
| Sync_failed fs tmp : admin_step told (fs, AtSync tmp) (fs, AtCleanup tmp "sync")
| Renamed fs tmp data :
    fs !! tmp = Some data -> admin_step told (fs, AtRename tmp) (<[path := data]> (delete tmp fs), AtUnlock (Ok tt))
| Rename_failed fs tmp : admin_step told (fs, AtRename tmp) (fs, AtCleanup tmp "replace users file")
| Cleaned fs tmp e : admin_step told (fs, AtCleanup tmp e) (delete tmp fs, AtUnlock (Err e))
| Not_cleaned fs tmp e : admin_step told (fs, AtCleanup tmp e) (fs, AtUnlock (Err e))
| Unlocked fs r : admin_step told (fs, AtUnlock r) (delete lock_path fs, Ended r)
| Not_unlocked fs r : admin_step told (fs, AtUnlock r) (fs, Ended r).

(** Any number of administrators at once: one of them takes a step, in any order. *)
Definition System : Type := Fs * list Proc.
Inductive system_step (told : bool) : System -> System -> Prop :=
| One_step fs fs' procs i p p' :
    procs !! i = Some p -> admin_step told (fs, p) (fs', p') -> system_step told (fs, procs) (fs', <[i := p']> procs).

(** [list] and [mint] read only. *)
Definition mint_token (data : option bytes) (l : str) : result str :=
  users ← load_users parse_users data;
  u ← context "user not found"%string (List.find (fun u => bool_decide (u.(label) = l)) users);
  if negb u.(enabled) then bail "user is disabled" else Ok u.(token).

(** ** What the administrators promise together *)

(** The file replaced by the result of one action on the registry it holds, or, when it was not seen, on none. *)
Inductive registry_step (told : bool) : option bytes -> option bytes -> Prop :=
| Registry_replaced d a data secret users :
    seen told d data -> (u ← registry_for a data; edit secret a u) = Ok users -> validate_users users = Ok tt -> registry_step told d (Some (file_of users)).

Definition committed (p : Proc) : bool := match p with AtUnlock (Ok _) | Ended (Ok _) => true | _ => false end.
Definition commits (procs : list Proc) : nat := length (List.filter committed procs).
(** Between taking the lock and releasing it. *)
Definition critical (p : Proc) : bool := match p with AtLock _ | Ended _ => false | _ => true end.

Section Runs.
Context (told : bool).
Definition derived (fs : Fs) (users : list User) : Prop :=
  exists a data secret, seen told (fs !! path) data /\ (u ← registry_for a data; edit secret a u) = Ok users.
Definition written (fs : Fs) (tmp : str) (rest : bytes) : Prop :=
  exists users r w, derived fs users /\ validate_users users = Ok tt /\ tmp = tmp_path r /\
    fs !! tmp = Some w /\ w ++ rest = file_of users.
Definition proc_ok (fs : Fs) (p : Proc) : Prop :=
  match p with
  | AtSave users => derived fs users
  | AtWrite tmp rest => written fs tmp rest
  | AtSync tmp | AtRename tmp => written fs tmp []
  | AtCleanup tmp _ => exists r, tmp = tmp_path r
  | _ => True
  end.

Record system_inv (d0 : option bytes) (s : System) : Prop := {
  inv_one i j p q : s.2 !! i = Some p -> s.2 !! j = Some q -> critical p = true -> critical q = true -> i = j;
  inv_lock i p : s.2 !! i = Some p -> critical p = true -> is_Some (s.1 !! lock_path);
  inv_proc i p : s.2 !! i = Some p -> proc_ok s.1 p;
  inv_file : nsteps (registry_step told) (commits s.2) d0 (s.1 !! path);
}.

(** ** Lemmas *)

Lemma path_ne x y : x <> y -> path ++ x <> path ++ y.
Proof using. by intros Hne ?%app_inv_head. Qed.
Lemma lock_ne_path : lock_path <> path.
Proof using. intros H. apply (f_equal length) in H. unfold lock_path in H. rewrite length_app in H. simpl in H. lia. Qed.
Lemma tmp_ne_path r : tmp_path r <> path.
Proof using. intros H. apply (f_equal length) in H. unfold tmp_path in H. rewrite !length_app in H. simpl in H. lia. Qed.
Lemma tmp_ne_lock r : tmp_path r <> lock_path.
Proof using. unfold tmp_path, lock_path. by apply path_ne. Qed.

Lemma list_lookup_insert_Some' (procs : list Proc) i j p q :
  <[i := p]> procs !! j = Some q -> (j = i /\ p = q) \/ (j <> i /\ procs !! j = Some q).
Proof using.
  intros H. destruct (decide (j = i)) as [->|Hj]; [|right; by rewrite list_lookup_insert_ne in H].
  left. split; [done|]. apply list_lookup_insert_Some in H as [(_ & -> & _)|[]]; done.
Qed.

Lemma commits_insert procs i p p' :
  procs !! i = Some p -> (commits (<[i := p']> procs) + (if committed p then 1 else 0) = commits procs + if committed p' then 1 else 0)%nat.
Proof using.
  unfold commits. revert i. induction procs as [|q procs IH]; intros [|i] H; simplify_eq/=.
  - destruct (committed p), (committed p'); simpl; lia.
  - apply (IH i) in H. destruct (committed q); simpl; lia.
Qed.

Lemma proc_ok_idle fs p : critical p = false -> proc_ok fs p.
Proof using. by destruct p. Qed.

(** One process's step, while the others are outside the critical part or nothing they look at changes. *)
Record step_ok (fs fs' : Fs) (p p' : Proc) : Prop := {
  so_proc : proc_ok fs' p';
  so_file : if committed p' && negb (committed p) then registry_step told (fs !! path) (fs' !! path) else fs' !! path = fs !! path;
  so_commit : committed p = true -> committed p' = true;
  so_enter : critical p' = true -> critical p = true \/ fs !! lock_path = None;
  so_held : critical p' = true -> is_Some (fs' !! lock_path);
  so_idle : critical p = false -> critical p' = false -> fs' = fs;
}.

Lemma derived_same fs fs' users : fs' !! path = fs !! path -> derived fs users -> derived fs' users.
Proof using. intros H (a & data & secret & Hs & Hd). exists a, data, secret. by rewrite H. Qed.

Lemma written_grows fs tmp rest n old :
  fs !! tmp = Some old -> written fs tmp rest -> written (<[tmp := old ++ take n rest]> fs) tmp (drop n rest).
Proof using.
  intros Ho (users & r & w & Hd & Hv & -> & Hw & Hr). exists users, r, (old ++ take n rest). split_and!; [|done|done| |].
  - apply (derived_same fs); [|done]. apply lookup_insert_ne, tmp_ne_path.
  - apply lookup_insert_eq.
  - assert (w = old) as -> by congruence. by rewrite <- app_assoc, take_drop.
Qed.

Lemma rename_commits fs tmp data :
  written fs tmp [] -> fs !! tmp = Some data -> registry_step told (fs !! path) (Some data).
Proof using.
  intros (users & r & w & (a & d & secret & Hs & Hd) & Hv & -> & Hw & Hr) Hdata.
  assert (data = file_of users) as -> by (rewrite app_nil_r in Hr; congruence). by apply (Registry_replaced _ _ a d secret).
Qed.

Lemma written_path fs tmp rest : written fs tmp rest -> exists r, tmp = tmp_path r.
Proof using. intros (users & r & w & _ & _ & -> & _). by exists r. Qed.
Lemma held_insert (fs : Fs) k v : is_Some (fs !! lock_path) -> is_Some (<[k := v]> fs !! lock_path).
Proof using. intros H. apply lookup_insert_is_Some'. by right. Qed.
Lemma held_delete (fs : Fs) r : is_Some (fs !! lock_path) -> is_Some (delete (tmp_path r) fs !! lock_path).
Proof using. rewrite lookup_delete_ne; [done|apply tmp_ne_lock]. Qed.

Lemma admin_step_ok fs fs' p p' :
  proc_ok fs p -> (critical p = true -> is_Some (fs !! lock_path)) -> admin_step told (fs, p) (fs', p') -> step_ok fs fs' p p'.
Proof using.
  intros Hp Hl Hs. pose proof lock_ne_path as Hlp.
  inversion Hs; subst; simplify_eq; constructor; simpl in *; auto; try done;
    try (intros; rewrite ?lookup_insert_ne, ?lookup_delete_ne by (try apply tmp_ne_path; done); done);
    try (intros _; by apply held_insert, Hl); try (by eapply written_path); try by (destruct r as [[]| |]; simpl; rewrite ?lookup_delete_ne by done).
  - intros _. by rewrite lookup_insert_eq.
  - by exists a, data, secret.
  - exists users, r, []. split_and!; [|done|done|apply lookup_insert_eq|done].
    apply (derived_same fs); [|done]. apply lookup_insert_ne, tmp_ne_path.
  - by exists r.
  - by apply written_grows.
  - destruct (written_path _ _ _ Hp) as [r ->]. apply lookup_insert_ne, tmp_ne_path.
  - rewrite lookup_insert_eq. by apply (rename_commits fs tmp).
  - intros _. destruct (written_path _ _ _ Hp) as [r ->]. by apply held_insert, held_delete, Hl.
  - destruct Hp as [r ->]. apply lookup_delete_ne, tmp_ne_path.
  - intros _. destruct Hp as [r ->]. by apply held_delete, Hl.
Qed.

Lemma system_step_inv d0 s s' : system_inv d0 s -> system_step told s s' -> system_inv d0 s'.
Proof using.
  intros Hinv Hstep. destruct Hstep as [fs fs' procs i p p' Hi Hs]. destruct Hinv as [Hone Hlock Hproc Hfile]. cbn [fst snd] in *.
  destruct (admin_step_ok fs fs' p p' (Hproc i p Hi) (Hlock i p Hi) Hs) as [Hok Hf Hc Henter Hheld Hidle].
  assert (forall j q, j <> i -> procs !! j = Some q -> critical q = true -> critical p' = false /\ fs' = fs) as Hother.
  { intros j q Hj Hq Hcq. destruct (critical p) eqn:Hp; [by destruct Hj; apply (Hone j i q p)|].
    destruct (critical p') eqn:Hp'; [|by rewrite Hidle].
    destruct (Henter eq_refl) as [|Hn]; [done|]. destruct (Hlock j q Hq Hcq) as [? Hx]. congruence. }
  constructor; cbn [fst snd].
  - intros j k q q' [[-> <-]|[Hj Hq]]%list_lookup_insert_Some' [[-> <-]|[Hk Hq']]%list_lookup_insert_Some' Cq Cq'; [done|..].
    + destruct (Hother k q'); congruence.
    + destruct (Hother j q); congruence.
    + by apply (Hone j k q q').
  - intros j q [[-> <-]|[Hj Hq]]%list_lookup_insert_Some' Cq; [by apply Hheld|].
    destruct (Hother j q) as [_ ->]; [done..|]. by apply (Hlock j q).
  - intros j q [[-> <-]|[Hj Hq]]%list_lookup_insert_Some'; [done|].
    destruct (critical q) eqn:Cq; [|by apply proc_ok_idle]. destruct (Hother j q) as [_ ->]; [done..|]. by apply (Hproc j q).
  - pose proof (commits_insert procs i p p' Hi) as Hn. destruct (committed p) eqn:Cp.
    + rewrite (Hc eq_refl) in *. cbn in Hf. rewrite Hf. by replace (commits (<[i:=p']> procs)) with (commits procs) by lia.
    + destruct (committed p') eqn:Cp'; cbn in Hf.
      * replace (commits (<[i:=p']> procs)) with (S (commits procs)) by lia. by apply (nsteps_r _ _ (fs !! path)).
      * rewrite Hf. by replace (commits (<[i:=p']> procs)) with (commits procs) by lia.
Qed.

Lemma system_start_inv fs0 actions : system_inv (fs0 !! path) (fs0, AtLock <$> actions).
Proof using.
  assert (forall i p, (AtLock <$> actions) !! i = Some p -> critical p = false) as Hn.
  { intros i p H. apply list_lookup_fmap_Some in H as (a & -> & _). done. }
  constructor; cbn [fst snd].
  - intros i j p q Hp _ Cp. rewrite (Hn i p Hp) in Cp. done.
  - intros i p Hp Cp. rewrite (Hn i p Hp) in Cp. done.
  - intros i p Hp. by apply proc_ok_idle, (Hn i).
  - assert (commits (AtLock <$> actions) = 0%nat) as ->; [|constructor].
    unfold commits. clear Hn. induction actions as [|a actions IH]; [done|exact IH].
Qed.

End Runs.

(** C17: However the steps of any number of administrators come in between each other, wherever any of them is killed and whatever
    access to a file fails, at most one is past the lock; the users file went from its first content to the present one by as many replacements as
    administrators succeeded, each of them checked and written in full, so that no half-written file is ever seen. As long as [exists] tells
    the truth, each is the action on the registry before it, so that no update is lost; an [add] that cannot look at the file
    starts from an empty registry instead. *)
Theorem registry_updates_serialized told fs0 actions fs procs :
  rtc (system_step told) (fs0, AtLock <$> actions) (fs, procs) ->
  nsteps (registry_step told) (commits procs) (fs0 !! path) (fs !! path) /\
  (told = true -> forall d d', registry_step told d d' -> exists a secret users,
     (u ← registry_for a d; edit secret a u) = Ok users /\ validate_users users = Ok tt /\ d' = Some (file_of users)) /\
  (forall i j p q, procs !! i = Some p -> procs !! j = Some q -> critical p = true -> critical q = true -> i = j).
Proof using.
  intros H. assert (forall s s', rtc (system_step told) s s' -> system_inv told (fs0 !! path) s -> system_inv told (fs0 !! path) s') as Hgen.
  { induction 1; [done|]. intros. by eapply IHrtc, system_step_inv. }
  destruct (Hgen _ _ H (system_start_inv told fs0 actions)) as [Hone _ _ Hf]. split; [done|]. split; [|done].
  intros -> d d' [d0 a data secret users [->|[? _]] Hu Hv]; [|done]. by exists a, secret, users.
Qed.

(** What a replacement leaves is a registry that passes the checks of [load_users], unless its text is over the size that
    [load_users] takes: [save] does not look at the size. *)
Lemma replaced_loads told d d' :
  (forall users, parse_users (file_of users) = Some users) -> registry_step told d d' ->
  exists users, d' = Some (file_of users) /\
    load_users parse_users d' = if decide (1024 * 1024 < len (file_of users)) then bail "users file exceeds 1 MiB" else Ok users.
Proof using.
  intros Hp [d0 a data secret users _ _ Hv]. exists users. split; [done|]. unfold load_users. cbn [context mbind res_bind].
  case_decide; [done|]. rewrite Hp. cbn [context mbind res_bind]. by rewrite Hv.
Qed.
End Admin.

(** An administrator who may not look at the file (a directory that denies it, a file system that fails) replaces it: adding one user loses all others. *)
Lemma unseen_file_lost parse_users print_users hex_encode path data secret l :
  validate_users [{| label := l; token := hex_encode secret; enabled := true; max_concurrent := None |}] = Ok tt ->
  let file := file_of print_users [{| label := l; token := hex_encode secret; enabled := true; max_concurrent := None |}] in
  exists fs, rtc (system_step parse_users print_users hex_encode path false) ({[ path := data ]}, [AtLock (Add l None)]) (fs, [Ended (Ok tt)]) /\
    fs !! path = Some file.
Proof.
  intros Hv file. pose proof (lock_ne_path path) as L. pose proof (tmp_ne_path path 0) as T. pose proof (tmp_ne_lock path 0) as K.
  eexists. split.
  - eapply rtc_l; [eapply (One_step _ _ _ _ _ _ _ _ 0); [done|]; apply Lock_taken; by rewrite lookup_singleton_ne|].
    eapply rtc_l; [eapply (One_step _ _ _ _ _ _ _ _ 0); [done|]; apply (Loaded _ _ _ _ _ _ _ None secret); [by right | reflexivity]|].
    eapply rtc_l; [eapply (One_step _ _ _ _ _ _ _ _ 0); [done|]; apply (Save_created _ _ _ _ _ _ _ 0); [exact Hv|];
      rewrite !lookup_insert_ne by done; apply lookup_singleton_ne; done|].
    eapply rtc_l; [eapply (One_step _ _ _ _ _ _ _ _ 0); [done|]; eapply (Wrote _ _ _ _ _ _ _ [] (length file)); apply lookup_insert_eq|].
    fold file. rewrite drop_all.
    eapply rtc_l; [eapply (One_step _ _ _ _ _ _ _ _ 0); [done|]; apply Write_done|].
    eapply rtc_l; [eapply (One_step _ _ _ _ _ _ _ _ 0); [done|]; apply Synced|].
    eapply rtc_l; [eapply (One_step _ _ _ _ _ _ _ _ 0); [done|]; apply Renamed; apply lookup_insert_eq|].
    eapply rtc_l; [eapply (One_step _ _ _ _ _ _ _ _ 0); [done|]; apply Unlocked|]. apply rtc_refl.
  - rewrite lookup_delete_ne by done. rewrite lookup_insert_eq, firstn_all. done.
Qed.

(** Two administrators add a user each; the second one comes while the first has the lock, and is refused. *)
Lemma registry_updates_serialized_witness :
  let parse := fun _ : bytes => None in let print := fun us : list User => concat (label <$> us) in
  let hex := fun _ : bytes => bs "0123456789abcdef" in let path := bs "users.json" in
  let last := (<[path := bs "alice" ++ [10]]> ∅, [Ended (Ok tt); Ended (bail "user registry is locked")]) : System in
  rtc (system_step parse print hex path true) (∅, [AtLock (Add (bs "alice") None); AtLock (Add (bs "bob") None)]) last /\
  nsteps (registry_step parse print hex true) 1 None (Some (bs "alice" ++ [10])).
Proof.
  cbv zeta.
  assert (rtc (system_step (fun _ => None) (fun us => concat (label <$> us)) (fun _ => bs "0123456789abcdef") (bs "users.json") true)
    (∅, AtLock <$> [Add (bs "alice") None; Add (bs "bob") None])
    (<[bs "users.json" := bs "alice" ++ [10]]> ∅, [Ended (Ok tt); Ended (bail "user registry is locked")])) as H.
  { eapply rtc_l; [eapply (One_step _ _ _ _ _ _ _ _ 0 (AtLock (Add (bs "alice") None))); [done|]; by apply Lock_taken|].
    eapply rtc_l; [eapply (One_step _ _ _ _ _ _ _ _ 1 (AtLock (Add (bs "bob") None))); [done|]; apply Lock_refused|].
    eapply rtc_l; [eapply (One_step _ _ _ _ _ _ _ _ 0 (AtLoad (Add (bs "alice") None))); [done|]; by apply (Loaded _ _ _ _ _ _ _ None []); [left|]|].
    eapply rtc_l; [eapply (One_step _ _ _ _ _ _ _ _ 0); [done|]; by apply (Save_created _ _ _ _ _ _ _ 7)|].
    eapply rtc_l; [eapply (One_step _ _ _ _ _ _ _ _ 0); [done|]; apply (Wrote _ _ _ _ _ _ _ [] 3); vm_compute; reflexivity|].
    eapply rtc_l; [eapply (One_step _ _ _ _ _ _ _ _ 0); [done|]; apply (Wrote _ _ _ _ _ _ _ (bs "ali") 3); vm_compute; reflexivity|].
    eapply rtc_l; [eapply (One_step _ _ _ _ _ _ _ _ 0); [done|]; apply Write_done|].
    eapply rtc_l; [eapply (One_step _ _ _ _ _ _ _ _ 0); [done|]; apply Synced|].
    eapply rtc_l; [eapply (One_step _ _ _ _ _ _ _ _ 0); [done|]; apply (Renamed _ _ _ _ _ _ _ (bs "alice" ++ [10])); vm_compute; reflexivity|].
    eapply rtc_l; [eapply (One_step _ _ _ _ _ _ _ _ 0); [done|]; apply Unlocked|].
    match goal with |- rtc _ (?x, _) (?y, _) => assert (x = y) as -> by (apply (bool_decide_unpack _); vm_compute; reflexivity) end.
    apply rtc_refl. }
  split; [exact H|].
  apply (registry_updates_serialized (fun _ => None) (fun us => concat (label <$> us)) (fun _ => bs "0123456789abcdef") (bs "users.json")) in H.
  exact (proj1 H).
Defined.
