(* ===== verification/UdpClient.v ===== *)
(** [udp_mux.rs], the client: one session of the UDP relay over an upgraded connection.
    Commands, messages, the reclaim tick and receivers that go away are the events of the
    [select!] loop; a reply channel is the number of its waiter. *)
From S2P Require Import Prelude Text Net WebSocket Frame Protocol Crypto DomainRoute.

Definition UDP_MUX_CLIENT_PENDING_CAP : Z := 2048.
Definition UDP_MUX_CMD_QUEUE_CAP : Z := 16384.
Definition CLIENT_BAD_FRAMES : Z := 24.

(** The configuration, without the fields of the TLS and HTTP layers and of the timing. *)
Record UdpMuxConfig := {
  u_token : str;
  u_max_pad : Z;
  u_junk_frames : Z;
  u_early_ws_frames : Z;
  u_psk : option str;
  u_decoy_max : Z;
  u_max_ws_binary : Z;
  u_pad_mode : PadMode;
  u_proto : Z;
  u_proto_domain : str;
  u_reality_public_key : option bytes;
  u_reality_short_id : option bytes;
}.

Record ClientUdpCmd := { xid : Z; dst_host : str; dst_port : Z; cmd_payload : bytes; cmd_reply : Z }.

(** ** The command queue: [UdpMuxHandle::forward] is a [try_send] *)

Record CmdQueue := { queued : list ClientUdpCmd; receiver_closed : bool }.

Definition forward (c : ClientUdpCmd) : ST CmdQueue err unit := fun q =>
  if q.(receiver_closed) then (q, bail "udp mux driver stopped")
  else if decide (UDP_MUX_CMD_QUEUE_CAP <= len q.(queued)) then (q, bail "udp mux command queue full (backpressure)")
  else ({| queued := q.(queued) ++ [c]; receiver_closed := false |}, Ok tt).

(** ** Records on the wire *)

Record Uplink := { up_crypto : SessionCrypto; up_adaptive : AdaptivePadState }.
Definition on_crypto {A} (m : ST SessionCrypto err A) : ST Uplink err A := fun u =>
  let '(c, r) := m u.(up_crypto) in ({| up_crypto := c; up_adaptive := u.(up_adaptive) |}, r).

Definition frame_text (e : FrameError) : err :=
  match e with Proto _ => "protocol"%string | TooLarge => "payload too large"%string end.

(** The padded frame, with the session's adaptive state. *)
Definition pad_body (rng : Rng) (max_pad : Z) (pad_mode : PadMode) (body : bytes) (ctx : err) : ST Uplink err bytes := fun u =>
  match write_padded_frame_with_mode_state rng body max_pad pad_mode (Some u.(up_adaptive)) with
  | Ok (wire, ad) => ({| up_crypto := u.(up_crypto); up_adaptive := default u.(up_adaptive) ad |}, Ok wire)
  | Err _ => (u, Err ctx)
  | Panic => (u, Panic)
  end.

Section Session.
Context (aead : Aead).

Definition pack_tunnel_out (pad rng : Rng) (cfg : UdpMuxConfig) (body : bytes) : ST Uplink err bytes :=
  wire ← pad_body pad cfg.(u_max_pad) cfg.(u_pad_mode) body "pack frame";
  blob ← on_crypto (seal_client_to_server aead rng wire);
  if decide (cfg.(u_max_ws_binary) < len blob) then throw "WS binary exceeds max_ws_binary"%string else mret blob.

Definition unpack_tunnel_in (crypto : SessionCrypto) (b : bytes) : result bytes :=
  raw ← open_server_to_client aead crypto b;
  map_err frame_text (read_padded_frame_into raw).

(** ** The session *)

Record PendingUdpEntry := { reply : Z; dns_expect : option (Z * str) }.

Record ClientSession := {
  up : Uplink;
  pending : gmap Z PendingUdpEntry;
  answers : list (Z * result bytes);      (* what the waiters were sent, in order *)
  gone : gset Z;                          (* receivers already dropped *)
  bad_frames : Z;
  globals : Globals;
  outbox : list Message;
}.
Definition set_up u (s : ClientSession) : ClientSession :=
  {| up := u; pending := s.(pending); answers := s.(answers); gone := s.(gone);
     bad_frames := s.(bad_frames); globals := s.(globals); outbox := s.(outbox) |}.
Definition set_pending p (s : ClientSession) : ClientSession :=
  {| up := s.(up); pending := p; answers := s.(answers); gone := s.(gone);
     bad_frames := s.(bad_frames); globals := s.(globals); outbox := s.(outbox) |}.
Definition set_answers a g (s : ClientSession) : ClientSession :=
  {| up := s.(up); pending := s.(pending); answers := a; gone := g;
     bad_frames := s.(bad_frames); globals := s.(globals); outbox := s.(outbox) |}.
Definition set_bad n (s : ClientSession) : ClientSession :=
  {| up := s.(up); pending := s.(pending); answers := s.(answers); gone := s.(gone);
     bad_frames := n; globals := s.(globals); outbox := s.(outbox) |}.
Definition set_globals g (s : ClientSession) : ClientSession :=
  {| up := s.(up); pending := s.(pending); answers := s.(answers); gone := s.(gone);
     bad_frames := s.(bad_frames); globals := g; outbox := s.(outbox) |}.
Definition set_outbox o (s : ClientSession) : ClientSession :=
  {| up := s.(up); pending := s.(pending); answers := s.(answers); gone := s.(gone);
     bad_frames := s.(bad_frames); globals := s.(globals); outbox := o |}.

Definition ClientSession_new (crypto : SessionCrypto) (g : Globals) : ClientSession :=
  {| up := {| up_crypto := crypto; up_adaptive := {| count := 0 |} |}; pending := ∅; answers := []; gone := ∅;
     bad_frames := 0; globals := g; outbox := [] |}.

(** [let _ = reply.send(r)]: lost when the receiver is gone. *)
Definition answer (w : Z) (r : result bytes) (s : ClientSession) : ClientSession :=
  if decide (w ∈ s.(gone)) then s else set_answers (s.(answers) ++ [(w, r)]) s.(gone) s.
(** [if let Some(entry) = pending.remove(&xid) { entry.reply.send(r) }]. *)
Definition settle (x : Z) (r : result bytes) (s : ClientSession) : ClientSession :=
  match s.(pending) !! x with
  | Some entry => answer entry.(reply) r (set_pending (delete x s.(pending)) s)
  | None => s
  end.

Definition reclaim_closed_pending (s : ClientSession) : ClientSession :=
  set_pending (filter (fun p : Z * PendingUdpEntry => p.2.(reply) ∉ s.(gone)) s.(pending)) s.

(** How an iteration of the loop leaves it. *)
Inductive Turn : Set := Continue | Break (shutdown : bool).

(** [ws_tx.send]: [sent] is whether the socket took the message. *)
Definition put_message (m : Message) (sent : bool) (s : ClientSession) : ClientSession :=
  if sent then set_outbox (s.(outbox) ++ [m]) s else s.

(** The command once its waiter is in the table. *)
Definition send_request (pad rng : Rng) (sent : bool) (cfg : UdpMuxConfig) (c : ClientUdpCmd) : ST ClientSession err Turn := fun s =>
  match encode_udp_req c.(xid) c.(dst_host) c.(dst_port) c.(cmd_payload) with
  | Panic => (s, Panic)
  | Err e => (settle c.(xid) (Err e) s, Ok Continue)
  | Ok req =>
    let '(u, r) := pack_tunnel_out pad rng cfg req s.(up) in
    let s := set_up u s in
    match r with
    | Panic => (s, Panic)
    | Err e => (settle c.(xid) (Err e) s, Ok Continue)
    | Ok blob =>
      if sent then (put_message (Binary blob) true s, Ok Continue)
      else (settle c.(xid) (bail "ws send") s, Ok (Break false))
    end
  end.

Definition forward_cmd (pad rng : Rng) (sent : bool) (cfg : UdpMuxConfig) (c : ClientUdpCmd) : ST ClientSession err Turn := fun s =>
  let s := reclaim_closed_pending s in
  if decide (UDP_MUX_CLIENT_PENDING_CAP <= Z.of_nat (size s.(pending))) then
    (answer c.(cmd_reply) (bail "udp mux: too many pending replies") s, Ok Continue)
  else
    match s.(pending) !! c.(xid) with
    | Some _ => (answer c.(cmd_reply) (bail "udp_mux_xid_collision") s, Ok Continue)
    | None =>
      match (if decide (c.(dst_port) = 53) then attempt (parse_dns_query c.(cmd_payload)) else Ok None : result _) with
      | Ok d =>
        let s := set_pending (<[c.(xid) := {| reply := c.(cmd_reply); dns_expect := d |}]> s.(pending)) s in
        send_request pad rng sent cfg c s
      | Err e => (s, Err e)
      | Panic => (s, Panic)
      end
    end.

(** A record that cannot be used: the session fails at the limit. *)
Definition bad_frame : ST ClientSession err Turn := fun s =>
  let s := set_bad (sat_add U32_MAX s.(bad_frames) 1) s in
  if decide (CLIENT_BAD_FRAMES <= s.(bad_frames)) then (s, bail "udp mux: too many bad frames; reconnecting") else (s, Ok Continue).

(** A decoded reply. *)
Definition deliver (now : Z) (rep : Z * str * Z * bytes) (s : ClientSession) : ClientSession :=
  let '(x, sh, sp, pl) := rep in
  match s.(pending) !! x with
  | None => s
  | Some entry =>
    let s := set_pending (delete x s.(pending)) s in
    let s := match entry.(dns_expect) with
             | Some (id, qname) => if decide (sp = 53) then set_globals (record_dns pl id qname now s.(globals)) s else s
             | None => s
             end in
    answer entry.(reply) (build_socks5_udp_datagram sh sp pl) s
  end.

Definition on_binary (now : Z) (b : bytes) : ST ClientSession err Turn := fun s =>
  match unpack_tunnel_in s.(up).(up_crypto) b with
  | Panic => (s, Panic)
  | Err _ => bad_frame s
  | Ok inner =>
    let s := set_bad 0 s in
    match decode_udp_rep inner with
    | Panic => (s, Panic)
    | Err _ => bad_frame s
    | Ok rep => (deliver now rep s, Ok Continue)
    end
  end.

(** [ws_rx.next()]: the stream's end, a read error, or a message. *)
Definition on_message (now : Z) (sent : bool) (m : option (option Message)) : ST ClientSession err Turn := fun s =>
  match m with
  | None => (s, Ok (Break false))
  | Some None => (s, bail "ws read")
  | Some (Some (Binary b)) => on_binary now b s
  | Some (Some (Ping p)) => (put_message (Pong p) sent s, Ok Continue)
  | Some (Some (Pong _)) => (s, Ok Continue)
  | Some (Some CloseMsg) => (s, Ok (Break false))
  | Some (Some (TextMsg _)) => (s, Ok Continue)
  end.

Inductive ClientEvent :=
| EvForward (c : ClientUdpCmd) (pad rng : Rng) (sent : bool)
| EvCommandsClosed
| EvMessage (m : option (option Message)) (now : Z) (sent : bool)
| EvReclaim
| EvReceiverDropped (w : Z).

Definition client_event (cfg : UdpMuxConfig) (ev : ClientEvent) : ST ClientSession err Turn := fun s =>
  match ev with
  | EvForward c pad rng sent => forward_cmd pad rng sent cfg c s
  | EvCommandsClosed => (s, Ok (Break true))
  | EvMessage m now sent => on_message now sent m s
  | EvReclaim => (reclaim_closed_pending s, Ok Continue)
  | EvReceiverDropped w => (set_answers s.(answers) (s.(gone) ∪ {[w]}) s, Ok Continue)
  end.

(** [pending.drain()] after the loop. *)
Definition drain_pending (s : ClientSession) : ClientSession :=
  fold_left (fun s x => settle x (bail "udp mux session ended") s) (map_to_list s.(pending)).*1 s.

(** The session over a finite history: [None] while it runs, the returned value once it ends. *)
Fixpoint run_udp_mux_one_session (cfg : UdpMuxConfig) (evs : list ClientEvent) (s : ClientSession)
    : ClientSession * option (result bool) :=
  match evs with
  | [] => (s, None)
  | ev :: evs =>
    match client_event cfg ev s with
    | (s, Ok Continue) => run_udp_mux_one_session cfg evs s
    | (s, Ok (Break shutdown)) => (drain_pending s, Some (Ok shutdown))
    | (s, Err e) => (s, Some (Err e))
    | (s, Panic) => (s, Some Panic)
    end
  end.
End Session.

(** ** Lemmas *)

(** Nothing in the session panics on byte strings. *)
Section Safety.
Context (aead : Aead).

Lemma encode_atyp_safe h p buf : safe (encode_atyp_host_port h p buf).
Proof using. unfold encode_atyp_host_port. no_panic. Qed.
Lemma encode_udp_safe op x h p payload : safe (encode_udp op x h p payload).
Proof using. unfold encode_udp. case_decide; [done|]. apply safe_bind; [apply encode_atyp_safe|done]. Qed.

Lemma pad_body_safe rng m mode body ctx u : safe (pad_body rng m mode body ctx u).2.
Proof using.
  unfold pad_body, write_padded_frame_with_mode_state.
  pose proof (PreparedFrame_new_total rng [body] m mode (Some (up_adaptive u))) as Ht.
  destruct (PreparedFrame_new _ _ _ _ _) as [[f ad]|e|]; done.
Qed.

Lemma seal_with_safe rng d app h : safe (seal_with aead rng d app h).2.
Proof using.
  unfold seal_with, next_nonce, mbind, st_bind, gets, lift, mret, st_ret.
  destruct (decide (ctr h = U64_MAX)); [done|]. by destruct (encrypt aead _ _ _) as [[c tag]|].
Qed.
Lemma seal_safe rng inner a (c : bool) :
  safe ((if c then seal_client_to_server aead rng inner else seal_server_to_client aead rng inner) a).2.
Proof using.
  destruct c; unfold seal_client_to_server, seal_server_to_client, mbind, st_bind, gets, on_c2s, on_s2c, seal.
  - pose proof (seal_with_safe rng (decoy_max a) (fun out => out ++ inner) (c2s a)) as H. by destruct (seal_with _ _ _ _ (c2s a)).
  - pose proof (seal_with_safe rng (decoy_max a) (fun out => out ++ inner) (s2c a)) as H. by destruct (seal_with _ _ _ _ (s2c a)).
Qed.

Lemma pack_safe pad rng cfg body u : safe (pack_tunnel_out aead pad rng cfg body u).2.
Proof using.
  unfold pack_tunnel_out, mbind, st_bind.
  pose proof (pad_body_safe pad (u_max_pad cfg) (u_pad_mode cfg) body "pack frame" u) as H1.
  destruct (pad_body _ _ _ _ _ _) as [u1 [wire|e|]]; [|done..]. unfold on_crypto.
  pose proof (seal_safe rng wire (up_crypto u1) true) as H2. cbn in H2.
  destruct (seal_client_to_server _ _ _ _) as [c' [blob|e|]]; [|done..]. cbn. by case_decide.
Qed.

Lemma open_dir_safe crypto b : u8s b ->
  safe (open_server_to_client aead crypto b) /\ safe (open_client_to_server aead crypto b).
Proof using. intros Hb. split; apply safe_map_err, (open_safe aead _ b Hb). Qed.

Lemma unpack_safe crypto b : u8s b ->
  safe (unpack_tunnel_in aead crypto b) /\ forall p, unpack_tunnel_in aead crypto b = Ok p -> u8s p.
Proof using.
  intros Hb. unfold unpack_tunnel_in.
  assert (forall raw, open_server_to_client aead crypto b = Ok raw -> u8s raw) as Hraw.
  { intros raw H. unfold open_server_to_client in H. destruct (open aead (s2c crypto) b) as [p| |] eqn:E; simplify_eq/=.
    eapply open_u8s; [done|by left]. }
  split.
  - apply safe_bind; [by apply open_dir_safe|]. intros raw H%Hraw. by apply safe_map_err, read_into_safe.
  - intros p (raw & H%Hraw & Hp)%bind_Ok. destruct (read_padded_frame_into raw) eqn:E; simplify_eq/=. by eapply read_into_u8s.
Qed.
End Safety.

(** What the environment may feed the session. *)
Definition ev_ok (ev : ClientEvent) : Prop :=
  match ev with
  | EvForward c _ _ _ => u8s c.(cmd_payload)
  | EvMessage (Some (Some (Binary b))) _ _ => u8s b
  | _ => True
  end.
(** The waiters an event brings. *)
Definition waiters (ev : ClientEvent) : list Z := match ev with EvForward c _ _ _ => [c.(cmd_reply)] | _ => [] end.

(** Every waiter handed to the session is pending once, answered once, or gone. *)
Record client_inv (issued : gset Z) (s : ClientSession) : Prop := {
  ci_cap : Z.of_nat (size s.(pending)) <= UDP_MUX_CLIENT_PENDING_CAP;
  ci_inj x y e e' : s.(pending) !! x = Some e -> s.(pending) !! y = Some e' -> e.(reply) = e'.(reply) -> x = y;
  ci_excl x e : s.(pending) !! x = Some e -> e.(reply) ∉ s.(answers).*1;
  ci_nodup : NoDup s.(answers).*1;
  ci_pending x e : s.(pending) !! x = Some e -> e.(reply) ∈ issued;
  ci_answers w : w ∈ s.(answers).*1 -> w ∈ issued;
  ci_cover w : w ∈ issued ->
    w ∈ s.(gone) \/ w ∈ s.(answers).*1 \/ exists x e, s.(pending) !! x = Some e /\ e.(reply) = w;
}.

Section Invariant.
Context (aead : Aead) (cfg : UdpMuxConfig).
Implicit Types (s : ClientSession) (issued : gset Z).

Lemma client_inv_same issued s s' :
  s'.(pending) = s.(pending) -> s'.(answers) = s.(answers) -> s'.(gone) = s.(gone) -> client_inv issued s -> client_inv issued s'.
Proof using. intros Hp Ha Hg []. split; rewrite ?Hp, ?Ha, ?Hg; done. Qed.

(** An answer to a waiter that is not in the table. *)
Lemma answer_inv issued s w r : w ∉ issued -> client_inv issued s -> client_inv ({[w]} ∪ issued) (answer w r s).
Proof using.
  intros Hw []. unfold answer. case_decide as Hg.
  - split; try done; [set_solver..|]. intros w' [->%elem_of_singleton|Hw']%elem_of_union; [by left|auto].
  - split; cbn [set_answers pending answers gone]; rewrite ?fmap_app; cbn [fmap list_fmap fst]; try done.
    + intros x e Hx. rewrite not_elem_of_app, not_elem_of_cons. pose proof (ci_pending0 x e Hx).
      split_and!; [eauto|congruence|apply not_elem_of_nil].
    + apply NoDup_app. split_and!; [done| |apply NoDup_singleton]. intros w' Hw' ->%list_elem_of_singleton. auto.
    + set_solver.
    + intros w' [Hw'| ->%list_elem_of_singleton]%elem_of_app; set_solver.
    + intros w'. rewrite elem_of_union, elem_of_singleton, elem_of_app, list_elem_of_singleton.
      intros [->|Hw']; [tauto|]. destruct (ci_cover0 w' Hw') as [?|[?|?]]; tauto.
Qed.

(** Taking an entry out of the table. *)
Lemma detach_inv issued s x e :
  s.(pending) !! x = Some e -> client_inv issued s ->
  e.(reply) ∈ issued /\ client_inv (issued ∖ {[e.(reply)]}) (set_pending (delete x s.(pending)) s).
Proof using.
  intros Hx []. split; [eauto|]. split; cbn [set_pending pending answers gone]; try done.
  - rewrite map_size_delete_Some by done. lia.
  - intros y z e1 e2 [_ Hy]%lookup_delete_Some [_ Hz]%lookup_delete_Some. eauto.
  - intros y e1 [_ Hy]%lookup_delete_Some. eauto.
  - intros y e1 [Hne Hy]%lookup_delete_Some. apply elem_of_difference. split; [eauto|].
    intros Heq%elem_of_singleton. apply Hne. eauto.
  - intros w Hw. apply elem_of_difference. split; [auto|]. intros ->%elem_of_singleton. by eapply ci_excl0.
  - intros w [Hw Hne]%elem_of_difference. destruct (ci_cover0 w Hw) as [?|[?|(y & e1 & Hy & <-)]]; [tauto|tauto|].
    right; right. exists y, e1. rewrite lookup_delete_ne; [done|]. intros <-. rewrite Hx in Hy. set_solver.
Qed.

Lemma settle_inv issued s x r : client_inv issued s -> client_inv issued (settle x r s).
Proof using.
  intros Hi. unfold settle. destruct (pending s !! x) as [e|] eqn:Hx; [|done].
  destruct (detach_inv _ _ _ _ Hx Hi) as [Hin Hd]. apply (answer_inv _ _ (reply e) r) in Hd; [|set_solver].
  replace issued with ({[reply e]} ∪ issued ∖ {[reply e]}); [done|].
  apply leibniz_equiv. intros w. rewrite elem_of_union, elem_of_difference, elem_of_singleton.
  destruct (decide (w = reply e)) as [->|]; tauto.
Qed.

Lemma reclaim_inv issued s : client_inv issued s -> client_inv issued (reclaim_closed_pending s).
Proof using.
  intros []. unfold reclaim_closed_pending. split; cbn [set_pending pending answers gone]; try done.
  - pose proof (map_size_filter (fun p : Z * PendingUdpEntry => reply p.2 ∉ gone s) (pending s)). lia.
  - intros x y e e' [Hx _]%map_lookup_filter_Some [Hy _]%map_lookup_filter_Some. eauto.
  - intros x e [Hx _]%map_lookup_filter_Some. eauto.
  - intros x e [Hx _]%map_lookup_filter_Some. eauto.
  - intros w Hw. destruct (ci_cover0 w Hw) as [?|[?|(y & e1 & Hy & <-)]]; [tauto|tauto|].
    destruct (decide (reply e1 ∈ gone s)); [tauto|]. right; right. exists y, e1. by rewrite map_lookup_filter_Some.
Qed.

(** A new entry of the table. *)
Lemma attach_inv issued s x e :
  s.(pending) !! x = None -> Z.of_nat (size s.(pending)) < UDP_MUX_CLIENT_PENDING_CAP -> e.(reply) ∉ issued ->
  client_inv issued s -> client_inv ({[e.(reply)]} ∪ issued) (set_pending (<[x := e]> s.(pending)) s).
Proof using.
  intros Hx Hcap Hw []. split; cbn [set_pending pending answers gone]; try done.
  - rewrite map_size_insert_None by done. lia.
  - intros y z e1 e2 [[<- <-]|[? Hy]]%lookup_insert_Some [[<- <-]|[? Hz]]%lookup_insert_Some Heq; eauto;
      exfalso; apply Hw; first [rewrite Heq; by eauto | rewrite <- Heq; by eauto].
  - intros y e1 [[<- <-]|[? Hy]]%lookup_insert_Some; eauto.
  - intros y e1 [[<- <-]|[? Hy]]%lookup_insert_Some; set_solver.
  - set_solver.
  - intros w [->%elem_of_singleton|Hw']%elem_of_union.
    + right; right. exists x, e. by rewrite lookup_insert_eq.
    + destruct (ci_cover0 w Hw') as [?|[?|(y & e1 & Hy & <-)]]; [tauto|tauto|].
      right; right. exists y, e1. rewrite lookup_insert_ne; [done|congruence].
Qed.

Lemma gone_inv issued s w : client_inv issued s -> client_inv issued (set_answers s.(answers) (s.(gone) ∪ {[w]}) s).
Proof using.
  intros []. split; cbn [set_answers pending answers gone]; try done.
  intros w' Hw'. destruct (ci_cover0 w' Hw') as [?|[?|?]]; [left; set_solver|tauto|tauto].
Qed.

Lemma send_request_inv issued pad rng sent c s s' r :
  client_inv issued s -> send_request aead pad rng sent cfg c s = (s', r) ->
  client_inv issued s' /\ exists t, r = Ok t.
Proof using.
  intros Hi. unfold send_request. pose proof (encode_udp_safe V3_CTRL_UDP_REQ (xid c) (dst_host c) (dst_port c) (cmd_payload c)) as Hs.
  fold (encode_udp_req (xid c) (dst_host c) (dst_port c) (cmd_payload c)) in Hs.
  destruct (encode_udp_req _ _ _ _) as [req|e|]; [|intros [= <- <-]; split; [by apply settle_inv|eauto]|done].
  pose proof (pack_safe aead pad rng cfg req (up s)) as Hp. destruct (pack_tunnel_out _ _ _ _ _ _) as [u [blob|e|]]; [| |done].
  - destruct sent; intros [= <- <-]; (split; [|eauto]); [|apply settle_inv]; by apply (client_inv_same issued s).
  - intros [= <- <-]. split; [apply settle_inv; by apply (client_inv_same issued s)|eauto].
Qed.

Lemma forward_inv issued pad rng sent c s s' r :
  u8s c.(cmd_payload) -> c.(cmd_reply) ∉ issued -> client_inv issued s ->
  forward_cmd aead pad rng sent cfg c s = (s', r) ->
  client_inv ({[c.(cmd_reply)]} ∪ issued) s' /\ exists t, r = Ok t.
Proof using.
  intros Hu Hw Hi. apply reclaim_inv in Hi. unfold forward_cmd. set (s0 := reclaim_closed_pending s) in *.
  case_decide as Hcap; [intros [= <- <-]; split; [by apply answer_inv|eauto]|].
  destruct (pending s0 !! xid c) as [e|] eqn:Hx; [intros [= <- <-]; split; [by apply answer_inv|eauto]|].
  pose proof (parse_dns_query_safe (cmd_payload c) Hu) as Hs.
  assert (exists d, (if decide (dst_port c = 53) then attempt (parse_dns_query (cmd_payload c)) else Ok None : result _) = Ok d) as [d ->].
  { case_decide; [|eauto]. destruct (parse_dns_query (cmd_payload c)); simpl; eauto. by destruct Hs. }
  apply send_request_inv. by apply (attach_inv issued s0 (xid c) {| reply := cmd_reply c; dns_expect := d |}); [|lia|..].
Qed.

Lemma client_deliver_inv issued now rep s : client_inv issued s -> client_inv issued (deliver now rep s).
Proof using.
  intros Hi. destruct rep as [[[x sh] sp] pl]. apply (settle_inv _ _ x (build_socks5_udp_datagram sh sp pl)) in Hi.
  unfold deliver, settle in *. destruct (pending s !! x) as [e|]; [|done].
  destruct (dns_expect e) as [[id q]|]; [case_decide|]; try done.
  revert Hi. unfold answer. cbn [set_globals set_pending gone answers]. case_decide; by apply client_inv_same.
Qed.

Lemma bad_frame_inv issued s s' r :
  client_inv issued s -> bad_frame s = (s', r) -> client_inv issued s' /\ r <> Panic.
Proof using.
  unfold bad_frame. intros Hi. case_decide; intros [= <- <-]; (split; [by apply (client_inv_same issued s)|done]).
Qed.

Lemma on_message_inv issued now sent m s s' r :
  (forall b, m = Some (Some (Binary b)) -> u8s b) -> client_inv issued s ->
  on_message aead now sent m s = (s', r) -> client_inv issued s' /\ r <> Panic.
Proof using.
  intros Hb Hi. destruct m as [[[b|t|p|p|]|]|]; cbn [on_message]; try (intros [= <- <-]; split; [done|done]).
  - unfold on_binary. destruct (unpack_safe aead (up_crypto (up s)) b (Hb b eq_refl)) as [Hs Hu].
    destruct (unpack_tunnel_in _ _ _) as [inner|e|]; [|by apply bad_frame_inv|done].
    specialize (Hu inner eq_refl). pose proof (decode_udp_safe V3_CTRL_UDP_REP "bad udp rep opcode" "short udp rep" "udp rep payload too large" inner Hu) as Hd.
    fold (decode_udp_rep inner) in Hd. assert (client_inv issued (set_bad 0 s)) as Hi0 by by apply (client_inv_same issued s).
    destruct (decode_udp_rep inner) as [rep|e|]; [|by apply bad_frame_inv|done].
    intros [= <- <-]. split; [by apply client_deliver_inv|done].
  - intros [= <- <-]. split; [|done]. unfold put_message. destruct sent; [by apply (client_inv_same issued s)|done].
Qed.

Lemma client_event_inv issued ev s s' r :
  ev_ok ev -> Forall (fun w => w ∉ issued) (waiters ev) -> client_inv issued s -> client_event aead cfg ev s = (s', r) ->
  client_inv (list_to_set (waiters ev) ∪ issued) s' /\ r <> Panic.
Proof using.
  intros Hok Hw Hi. destruct ev as [c pad rng sent| |m now sent| |w]; cbn [client_event waiters ev_ok list_to_set] in *; rewrite ?union_empty_l_L.
  - intros H. apply Forall_cons in Hw as [Hw _]. apply (forward_inv issued) in H as [H [t ->]]; [|done..].
    by rewrite union_empty_r_L.
  - by intros [= <- <-].
  - intros H. eapply on_message_inv; [|done|done]. by intros b ->.
  - intros [= <- <-]. split; [by apply reclaim_inv|done].
  - intros [= <- <-]. split; [by apply gone_inv|done].
Qed.

(** Draining answers what was pending. *)
Lemma settle_table x r s : (settle x r s).(pending) = delete x s.(pending) /\ (settle x r s).(gone) = s.(gone).
Proof using.
  unfold settle, answer. destruct (pending s !! x) as [e|] eqn:Hx.
  - by case_decide.
  - by rewrite delete_id.
Qed.

Lemma drain_keys issued keys r s :
  client_inv issued s ->
  let s' := fold_left (fun s x => settle x r s) keys s in
  client_inv issued s' /\ s'.(gone) = s.(gone) /\
  forall y e, s'.(pending) !! y = Some e -> s.(pending) !! y = Some e /\ y ∉ keys.
Proof using.
  revert s. induction keys as [|x keys IH]; intros s Hi; cbn [fold_left]; [set_solver|].
  destruct (settle_table x r s) as [Hp Hg]. destruct (IH (settle x r s)) as (H1 & H2 & H3); [by apply settle_inv|].
  split_and!; [done|congruence|]. intros y e Hy. apply H3 in Hy as [Hy Hk]. rewrite Hp in Hy.
  apply lookup_delete_Some in Hy as [Hne Hy]. split; [done|]. set_solver.
Qed.

Lemma drain_inv issued s :
  client_inv issued s ->
  client_inv issued (drain_pending s) /\ (drain_pending s).(pending) = ∅ /\ (drain_pending s).(gone) = s.(gone).
Proof using.
  intros Hi. unfold drain_pending.
  destruct (drain_keys issued (map_to_list (pending s)).*1 (bail "udp mux session ended") s Hi) as (H1 & H2 & H3).
  split_and!; [done| |done]. apply map_empty. intros y. destruct (_ !! y) as [e|] eqn:Hy; [|done].
  apply H3 in Hy as [Hy Hk]. exfalso. apply Hk, list_elem_of_fmap. exists (y, e). by rewrite elem_of_map_to_list.
Qed.

(** A history all of whose events were processed. *)
Definition processed (evs : list ClientEvent) (s : ClientSession) : Prop :=
  (run_udp_mux_one_session aead cfg (take (pred (length evs)) evs) s).2 = None.

Lemma run_inv issued evs s s' out :
  Forall ev_ok evs -> NoDup (evs ≫= waiters) -> Forall (fun w => w ∉ issued) (evs ≫= waiters) -> client_inv issued s ->
  run_udp_mux_one_session aead cfg evs s = (s', out) ->
  exists seen, client_inv seen s' /\ (processed evs s -> seen = list_to_set (evs ≫= waiters) ∪ issued) /\
    out <> Some Panic /\ (forall b, out = Some (Ok b) -> s'.(pending) = ∅).
Proof using.
  revert issued s. induction evs as [|ev evs IH]; intros issued s Hok Hnd Hf Hi; cbn [run_udp_mux_one_session].
  { intros [= <- <-]. exists issued. split_and!; [done|set_solver|done..]. }
  apply Forall_cons in Hok as [Hev Hok]. rewrite bind_cons in Hnd, Hf |- *. apply Forall_app in Hf as [Hf Hf'].
  apply NoDup_app in Hnd as (Hnd1 & Hdis & Hnd).
  destruct (client_event aead cfg ev s) as [s1 r] eqn:He. pose proof He as He'.
  apply (client_event_inv issued) in He as [Hi1 Hsafe]; [|done..].
  set (issued1 := list_to_set (waiters ev) ∪ issued) in *.
  assert (list_to_set (waiters ev ++ (evs ≫= waiters)) ∪ issued = list_to_set (evs ≫= waiters) ∪ issued1) as Hset
    by (unfold issued1; rewrite list_to_set_app_L; set_solver).
  assert (r <> Ok Continue -> processed (ev :: evs) s -> issued1 = list_to_set (waiters ev ++ (evs ≫= waiters)) ∪ issued) as Hlast.
  { intros Hr Hp. rewrite Hset. destruct evs as [|ev' evs]; [set_solver|]. exfalso. unfold processed in Hp.
    cbn [length pred take run_udp_mux_one_session] in Hp. rewrite He' in Hp. by destruct r as [[]| |]. }
  destruct r as [[|shutdown]|e|]; [| | |done].
  - intros H. apply (IH issued1) in H as (seen & H1 & H3 & H4); [|done..| |done].
    + exists seen. split_and!; [done| |apply H4..]. intros Hp. rewrite Hset. apply H3.
      destruct evs as [|ev' evs]; [done|]. unfold processed in Hp |- *. cbn [length pred take run_udp_mux_one_session] in Hp |- *.
      rewrite He' in Hp. done.
    + apply Forall_forall. intros w Hw. unfold issued1. rewrite elem_of_union, elem_of_list_to_set.
      rewrite Forall_forall in Hf'. specialize (Hf' w Hw). specialize (Hdis w). tauto.
  - intros [= <- <-]. destruct (drain_inv _ _ Hi1) as (H1 & H2 & _). exists issued1. split_and!; try done. by apply Hlast.
  - intros [= <- <-]. exists issued1. split_and!; try done. by apply Hlast.
Qed.
End Invariant.

Lemma client_inv_new crypto g : client_inv ∅ (ClientSession_new crypto g).
Proof.
  split; cbn [ClientSession_new pending answers gone]; try (intros; set_solver); [done|apply NoDup_nil_2].
Qed.

(** *** Runs of binary messages *)

Definition binaries (bs : list (bytes * Z)) : list ClientEvent :=
  (fun b => EvMessage (Some (Some (Binary b.1))) b.2 true) <$> bs.

Section BadFrames.
Context (aead : Aead) (cfg : UdpMuxConfig).

Lemma deliver_keeps now rep s : (deliver now rep s).(up) = s.(up) /\ (deliver now rep s).(bad_frames) = s.(bad_frames).
Proof using.
  destruct rep as [[[x sh] sp] pl]. unfold deliver, answer. destruct (pending s !! x) as [e|]; [|done].
  destruct (dns_expect e) as [[id q]|]; repeat case_decide; done.
Qed.

(** A record that opens leaves at most one failure counted. *)
Lemma opened_continues now b s inner :
  u8s b -> unpack_tunnel_in aead s.(up).(up_crypto) b = Ok inner ->
  exists s', on_binary aead now b s = (s', Ok Continue) /\ s'.(up) = s.(up) /\ s'.(bad_frames) <= 1.
Proof using.
  intros Hb Hin. unfold on_binary. rewrite Hin. destruct (unpack_safe aead (up_crypto (up s)) b Hb) as [_ Hu].
  specialize (Hu inner Hin). pose proof (decode_udp_safe V3_CTRL_UDP_REP "bad udp rep opcode" "short udp rep" "udp rep payload too large" inner Hu) as Hd.
  fold (decode_udp_rep inner) in Hd. destruct (decode_udp_rep inner) as [rep|e|]; [| |done].
  - destruct (deliver_keeps now rep (set_bad 0 s)) as [H1 H2]. eexists. split_and!; [done|done|]. rewrite H2. cbn. lia.
  - unfold bad_frame, CLIENT_BAD_FRAMES. cbn [set_bad bad_frames]. rewrite decide_False by (unfold sat_add, U32_MAX; lia).
    eexists. split_and!; [done|done|]. cbn. unfold sat_add, U32_MAX. lia.
Qed.

Lemma opened_run bl s :
  Forall (fun b => u8s b.1 /\ exists inner, unpack_tunnel_in aead s.(up).(up_crypto) b.1 = Ok inner) bl ->
  exists s', run_udp_mux_one_session aead cfg (binaries bl) s = (s', None).
Proof using.
  revert s. induction bl as [|[b now] bl IH]; intros s Hf; [by exists s|].
  apply Forall_cons in Hf as [[Hb [inner Hin]] Hf]. destruct (opened_continues now b s inner Hb Hin) as (s1 & H1 & Hup & _).
  cbn [binaries fmap list_fmap run_udp_mux_one_session client_event on_message fst snd]. rewrite H1. apply IH. by rewrite Hup.
Qed.

(** Records that do not open are counted up to the limit. *)
Lemma unopened_run bl s :
  0 <= s.(bad_frames) -> s.(bad_frames) + len bl = CLIENT_BAD_FRAMES -> bl <> [] ->
  Forall (fun b => exists e, unpack_tunnel_in aead s.(up).(up_crypto) b.1 = Err e) bl ->
  exists s', run_udp_mux_one_session aead cfg (binaries bl) s = (s', Some (bail "udp mux: too many bad frames; reconnecting")).
Proof using.
  unfold CLIENT_BAD_FRAMES. revert s. induction bl as [|[b now] bl IH]; intros s H0 Hl Hne Hf; [done|].
  apply Forall_cons in Hf as [[e He] Hf]. rewrite len_cons in Hl. pose proof (len_nonneg bl).
  cbn [binaries fmap list_fmap run_udp_mux_one_session client_event on_message fst snd]. unfold on_binary. simpl in He. rewrite He.
  unfold bad_frame, CLIENT_BAD_FRAMES. cbn [set_bad bad_frames]. unfold sat_add, U32_MAX. rewrite Z.min_r by lia.
  destruct bl as [|b' bl]; [rewrite decide_True by (rewrite len_nil in Hl; lia); by eexists|].
  rewrite decide_False by (rewrite len_cons in Hl; pose proof (len_nonneg bl); lia).
  apply IH; cbn [set_bad bad_frames up]; [lia|lia|done|done].
Qed.
End BadFrames.

(** ** Properties *)

(** C31: whatever commands, messages, ticks and dropped receivers a session meets, it never
    panics, no waiter is answered twice, and at most 2048 replies are outstanding; every
    command's waiter has its answer, is still pending under exactly one id, or has gone away;
    and when the session ends other than by an error nothing is left pending, so every waiter
    of the history has been answered or has gone away. *)
Theorem udp_waiters_answered_once aead cfg crypto g evs s out :
  Forall ev_ok evs -> NoDup (evs ≫= waiters) -> processed aead cfg evs (ClientSession_new crypto g) ->
  run_udp_mux_one_session aead cfg evs (ClientSession_new crypto g) = (s, out) ->
  out <> Some Panic /\ NoDup s.(answers).*1 /\ Z.of_nat (size s.(pending)) <= UDP_MUX_CLIENT_PENDING_CAP /\
  (forall w, w ∈ evs ≫= waiters ->
     w ∈ s.(gone) \/ w ∈ s.(answers).*1 \/ exists x e, s.(pending) !! x = Some e /\ e.(reply) = w) /\
  (forall x e, s.(pending) !! x = Some e -> e.(reply) ∉ s.(answers).*1 /\
     forall y e', s.(pending) !! y = Some e' -> e'.(reply) = e.(reply) -> y = x) /\
  (forall b, out = Some (Ok b) -> forall w, w ∈ evs ≫= waiters -> w ∈ s.(gone) \/ w ∈ s.(answers).*1).
Proof.
  intros Hok Hnd Hp Hrun. apply (run_inv _ _ ∅) in Hrun as (seen & [] & Hseen & Hsafe & Hend);
    [|done..|by apply Forall_forall; set_solver|apply client_inv_new].
  assert (forall w, w ∈ evs ≫= waiters -> w ∈ seen) as Hin by (intros w Hw; rewrite (Hseen Hp); set_solver).
  split_and!; try done; [auto|intros x e Hx; split; eauto|].
  intros b Hb w Hw. destruct (ci_cover0 w (Hin w Hw)) as [?|[?|(x & e & Hx & _)]]; [tauto|tauto|].
  rewrite (Hend b Hb) in Hx. by rewrite lookup_empty in Hx.
Qed.

(** the bad-record limit counts records that do not open only: 24 of them in a row end a fresh
    session with an error, while no number of records that open, whether or not they decode as
    replies, ever ends one (each is forgiven before it is counted). *)
Theorem udp_bad_record_limit aead cfg crypto g bl :
  (len bl = 24 -> Forall (fun b => exists e, unpack_tunnel_in aead crypto b.1 = Err e) bl ->
   (run_udp_mux_one_session aead cfg (binaries bl) (ClientSession_new crypto g)).2 =
     Some (bail "udp mux: too many bad frames; reconnecting")) /\
  (Forall (fun b => u8s b.1 /\ exists inner, unpack_tunnel_in aead crypto b.1 = Ok inner) bl ->
   (run_udp_mux_one_session aead cfg (binaries bl) (ClientSession_new crypto g)).2 = None).
Proof.
  split.
  - intros Hl Hf. destruct (unopened_run aead cfg bl (ClientSession_new crypto g)) as [s' ->]; [done|done| |done|done].
    by intros ->.
  - intros Hf. by destruct (opened_run aead cfg bl (ClientSession_new crypto g) Hf) as [s' ->].
Qed.

(** *** Witnesses *)

Definition demo_udp_cfg : UdpMuxConfig :=
  {| u_token := bs "secret"; u_max_pad := 8; u_junk_frames := 2; u_early_ws_frames := 1; u_psk := Some (bs "psk"); u_decoy_max := 0;
     u_max_ws_binary := 4096; u_pad_mode := Random; u_proto := 3; u_proto_domain := bs " vk.com "; u_reality_public_key := None;
     u_reality_short_id := None |}.
Definition demo_crypto : SessionCrypto := SessionCrypto_new zero_blake3 [1] [2] (replicate 32 3) (replicate 32 4) 0.
Definition no_globals : Globals := {| global_map := ∅; global_bypass := [] |}.
Definition demo_cmd (x w : Z) : ClientUdpCmd :=
  {| xid := x; dst_host := bs "example.org"; dst_port := 123; cmd_payload := bs "hi"; cmd_reply := w |}.
(** Two requests under one id, a third whose receiver goes away, and the end of the commands. *)
Definition demo_history : list ClientEvent :=
  [EvForward (demo_cmd 1 10) zero_rng zero_rng true; EvForward (demo_cmd 1 11) zero_rng zero_rng true;
   EvForward (demo_cmd 2 12) zero_rng zero_rng true; EvReceiverDropped 12; EvReclaim; EvCommandsClosed].

Lemma udp_waiters_answered_once_witness :
  let '(s, out) := run_udp_mux_one_session plain_aead demo_udp_cfg demo_history (ClientSession_new demo_crypto no_globals) in
  out = Some (Ok true) /\ NoDup s.(answers).*1 /\ s.(answers).*1 = [11; 10] /\ len s.(outbox) = 2.
Proof.
  destruct (run_udp_mux_one_session _ _ _ _) as [s out] eqn:Hrun.
  assert (Forall ev_ok demo_history) as Hok.
  { repeat constructor; try done; unfold u8s; repeat constructor; done. }
  assert (NoDup (demo_history ≫= waiters)) as Hnd by (apply (bool_decide_unpack _); vm_compute; reflexivity).
  pose proof (udp_waiters_answered_once plain_aead demo_udp_cfg demo_crypto no_globals demo_history s out Hok Hnd
    ltac:(vm_compute; reflexivity) Hrun) as (_ & H & _).
  vm_compute in Hrun. injection Hrun as <- <-. split; [reflexivity|]. split; [exact H|]. split; reflexivity.
Defined.

Lemma udp_bad_record_limit_witness :
  let bl := replicate 24 (bs "junk", 0) in
  (run_udp_mux_one_session plain_aead demo_udp_cfg (binaries bl) (ClientSession_new demo_crypto no_globals)).2 =
    Some (bail "udp mux: too many bad frames; reconnecting").
Proof.
  intros bl. apply (udp_bad_record_limit plain_aead demo_udp_cfg demo_crypto no_globals bl); [reflexivity|].
  apply Forall_replicate. eexists. vm_compute. reflexivity.
Defined.
