(* ===== verification/UdpServer.v ===== *)
(** [udp_mux.rs], the server: the pool of bound UDP sockets with its leases, and the session
    that answers relayed datagrams, a worker task per request. The reader, every worker and the
    pool's return task are atomic steps; what a socket has received is a queue of datagrams. *)
From S2P Require Import Prelude Text Net WebSocket Frame Protocol Crypto DomainRoute UdpClient.

Definition UDP_MUX_SERVER_MAX_INFLIGHT : Z := 512.
Definition SERVER_BAD_FRAMES : Z := 64.
Definition MAX_STALE_DRAIN : nat := 64.

(** IPv6 flow and scope are 0 throughout. *)
Record SocketAddr := { ip : IpAddr; port : Z }.
#[export] Instance SocketAddr_eq_dec : EqDecision SocketAddr.
Proof. solve_decision. Defined.
Definition is_ipv6 (a : SocketAddr) : bool := match a.(ip) with V6 _ => true | V4 _ => false end.
Definition show_socket_addr (a : SocketAddr) : str :=
  (match a.(ip) with V4 v => show_ipv4 v | V6 v => [91] ++ show_ipv6 v ++ [93] end) ++ [58] ++ show_dec a.(port).

(** [sort_by_key(|a| a.to_string())]: stable, by the bytes of the text. *)
Fixpoint str_leb (a b : str) : bool :=
  match a, b with
  | [], _ => true
  | _ :: _, [] => false
  | x :: a, y :: b => (x <? y) || ((x =? y) && str_leb a b)
  end.
Fixpoint insert_by_key (x : SocketAddr) (l : list SocketAddr) : list SocketAddr :=
  match l with
  | [] => [x]
  | y :: l' => if str_leb (show_socket_addr x) (show_socket_addr y) then x :: l else y :: insert_by_key x l'
  end.
Definition resolve_udp_dest (looked_up : result (list SocketAddr)) : result (list SocketAddr) :=
  v ← looked_up; Ok (foldr insert_by_key [] v).

(** ** The pool *)

Record Socket := { fd : Z; inq : list (SocketAddr * bytes) }.

Record UdpSocketPool := {
  max_idle_per_family : Z;
  v4_idle : list Socket;
  v6_idle : list Socket;
  sem : Z;                                (* free permits *)
  returning : list (Socket * bool);       (* spawned by a lease's drop, not yet pushed *)
}.
Definition UdpSocketPool_new (cap : Z) : UdpSocketPool :=
  let cap := Z.max cap 1 in
  {| max_idle_per_family := cap; v4_idle := []; v6_idle := []; sem := cap; returning := [] |}.

Definition idle (v6 : bool) (p : UdpSocketPool) : list Socket := if v6 then p.(v6_idle) else p.(v4_idle).
Definition set_idle (v6 : bool) (l : list Socket) (p : UdpSocketPool) : UdpSocketPool :=
  {| max_idle_per_family := p.(max_idle_per_family);
     v4_idle := if v6 then p.(v4_idle) else l; v6_idle := if v6 then l else p.(v6_idle);
     sem := p.(sem); returning := p.(returning) |}.
Definition set_sem (n : Z) (r : list (Socket * bool)) (p : UdpSocketPool) : UdpSocketPool :=
  {| max_idle_per_family := p.(max_idle_per_family); v4_idle := p.(v4_idle); v6_idle := p.(v6_idle); sem := n; returning := r |}.

Record UdpLease := { sock : Socket; lease_v6 : bool; recycle_on_drop : bool }.

(** [lease] once a permit is there: the idle socket last returned, or a new one ([bound]). *)
Definition lease (v6 : bool) (bound : option Socket) (p : UdpSocketPool) : option (UdpSocketPool * result UdpLease) :=
  if decide (p.(sem) <= 0) then None else
  match last (idle v6 p) with
  | Some s =>
    let p := set_idle v6 (removelast (idle v6 p)) p in
    Some (set_sem (p.(sem) - 1) p.(returning) p, Ok {| sock := s; lease_v6 := v6; recycle_on_drop := true |})
  | None =>
    match bound with
    | Some s => Some (set_sem (p.(sem) - 1) p.(returning) p, Ok {| sock := s; lease_v6 := v6; recycle_on_drop := true |})
    | None => Some (p, bail "udp mux bind")
    end
  end.

(** [Drop for UdpLease]: a clean socket is drained of what it still holds and handed back. *)
Definition drop_lease (l : UdpLease) (p : UdpSocketPool) : UdpSocketPool :=
  let r := if l.(recycle_on_drop)
           then p.(returning) ++ [({| fd := l.(sock).(fd); inq := drop MAX_STALE_DRAIN l.(sock).(inq) |}, l.(lease_v6))]
           else p.(returning) in
  set_sem (p.(sem) + 1) r p.
(** The spawned task: pushed unless the family's list is full. *)
Definition push_idle (p : UdpSocketPool) : option UdpSocketPool :=
  match p.(returning) with
  | [] => None
  | (s, v6) :: r =>
    let p := set_sem p.(sem) r p in
    Some (if decide (len (idle v6 p) < p.(max_idle_per_family)) then set_idle v6 (idle v6 p ++ [s]) p else p)
  end.

Inductive UdpSockHolder : Type := Pooled (l : UdpLease) | Ephemeral (s : Socket).
Definition holder_sock (h : UdpSockHolder) : Socket := match h with Pooled l => l.(sock) | Ephemeral s => s end.
Definition set_sock (s : Socket) (h : UdpSockHolder) : UdpSockHolder :=
  match h with
  | Pooled l => Pooled {| sock := s; lease_v6 := l.(lease_v6); recycle_on_drop := l.(recycle_on_drop) |}
  | Ephemeral _ => Ephemeral s
  end.
Definition mark (recycle : bool) (h : UdpSockHolder) : UdpSockHolder :=
  match h with
  | Pooled l => Pooled {| sock := l.(sock); lease_v6 := l.(lease_v6); recycle_on_drop := recycle |}
  | Ephemeral s => Ephemeral s
  end.
Definition mark_sent_awaiting_reply := mark false.
Definition mark_reply_consumed := mark true.
Definition is_pooled (h : UdpSockHolder) : bool := match h with Pooled _ => true | Ephemeral _ => false end.

(** ** The session *)

Record Request := { q_xid : Z; q_host : str; q_port : Z; q_payload : bytes }.

(** Where a worker is suspended. *)
Inductive Worker : Type :=
| Resolving (q : Request)
| Trying (q : Request) (dest : SocketAddr) (rest : list SocketAddr)
| Waiting (q : Request) (h : UdpSockHolder) (dest : SocketAddr) (rest : list SocketAddr)
| Replying (q : Request) (h : UdpSockHolder) (blob : bytes).

Record UdpServerCfg := { sv_max_pad : Z; sv_pad_mode : PadMode; sv_max_ws_binary : Z }.

Record ServerSession := {
  link : Uplink;
  permits : Z;
  acquiring : option Request;     (* the reader, waiting for a permit *)
  sv_bad_frames : Z;
  workers : gmap Z Worker;
  next_worker : Z;
  pool : option UdpSocketPool;
  sv_outbox : list Message;
}.
Definition set_link k (s : ServerSession) : ServerSession :=
  {| link := k; permits := s.(permits); acquiring := s.(acquiring); sv_bad_frames := s.(sv_bad_frames); workers := s.(workers);
     next_worker := s.(next_worker); pool := s.(pool); sv_outbox := s.(sv_outbox) |}.
Definition set_reader a n (s : ServerSession) : ServerSession :=
  {| link := s.(link); permits := s.(permits); acquiring := a; sv_bad_frames := n; workers := s.(workers);
     next_worker := s.(next_worker); pool := s.(pool); sv_outbox := s.(sv_outbox) |}.
Definition set_workers p w n (s : ServerSession) : ServerSession :=
  {| link := s.(link); permits := p; acquiring := s.(acquiring); sv_bad_frames := s.(sv_bad_frames); workers := w;
     next_worker := n; pool := s.(pool); sv_outbox := s.(sv_outbox) |}.
Definition set_pool p (s : ServerSession) : ServerSession :=
  {| link := s.(link); permits := s.(permits); acquiring := s.(acquiring); sv_bad_frames := s.(sv_bad_frames); workers := s.(workers);
     next_worker := s.(next_worker); pool := p; sv_outbox := s.(sv_outbox) |}.
Definition put_out m (s : ServerSession) : ServerSession :=
  {| link := s.(link); permits := s.(permits); acquiring := s.(acquiring); sv_bad_frames := s.(sv_bad_frames); workers := s.(workers);
     next_worker := s.(next_worker); pool := s.(pool); sv_outbox := s.(sv_outbox) ++ [m] |}.

Definition ServerSession_new (crypto : SessionCrypto) (p : option UdpSocketPool) : ServerSession :=
  {| link := {| up_crypto := crypto; up_adaptive := {| count := 0 |} |}; permits := UDP_MUX_SERVER_MAX_INFLIGHT;
     acquiring := None; sv_bad_frames := 0; workers := ∅; next_worker := 0; pool := p; sv_outbox := [] |}.

Definition drop_holder (h : UdpSockHolder) (s : ServerSession) : ServerSession :=
  match h, s.(pool) with Pooled l, Some p => set_pool (Some (drop_lease l p)) s | _, _ => s end.
(** A worker ends: its permit is free again. *)
Definition end_worker (w : Z) (s : ServerSession) : ServerSession :=
  set_workers (s.(permits) + 1) (delete w s.(workers)) s.(next_worker) s.
Definition put_worker (w : Z) (k : Worker) (s : ServerSession) : ServerSession :=
  set_workers s.(permits) (<[w := k]> s.(workers)) s.(next_worker) s.
(** The next resolved address, or the end of the worker. *)
Definition try_next (w : Z) (q : Request) (dests : list SocketAddr) (s : ServerSession) : ServerSession :=
  match dests with
  | dest :: rest => put_worker w (Trying q dest rest) s
  | [] => end_worker w s
  end.

Section Session.
Context (aead : Aead) (cfg : UdpServerCfg).

(** *** The reader *)

Definition sv_bad_frame : ST ServerSession err Turn := fun s =>
  let s := set_reader None (sat_add U32_MAX s.(sv_bad_frames) 1) s in
  if decide (SERVER_BAD_FRAMES <= s.(sv_bad_frames)) then (s, bail "udp mux server: too many bad client frames") else (s, Ok Continue).

Definition server_binary (b : bytes) : ST ServerSession err Turn := fun s =>
  if decide (sat_mul USIZE_MAX cfg.(sv_max_ws_binary) 4 < len b) then (s, bail "oversized WS binary") else
  match open_client_to_server aead s.(link).(up_crypto) b with
  | Panic => (s, Panic)
  | Err _ => (s, bail "open c2s (udp mux)")
  | Ok raw =>
    match read_padded_frame_borrow raw with
    | Panic => (s, Panic)
    | Err _ => sv_bad_frame s
    | Ok plain =>
      let s := set_reader None 0 s in
      match decode_udp_req plain with
      | Panic => (s, Panic)
      | Err _ => sv_bad_frame s
      | Ok (x, host, port, payload) =>
        (set_reader (Some {| q_xid := x; q_host := host; q_port := port; q_payload := payload |}) 0 s, Ok Continue)
      end
    end
  end.

Definition server_message (sent : bool) (m : option (option Message)) : ST ServerSession err Turn := fun s =>
  match m with
  | None => (s, Ok (Break false))
  | Some None => (s, bail "websocket read")
  | Some (Some (Binary b)) => server_binary b s
  | Some (Some (Ping p)) => if sent then (put_out (Pong p) s, Ok Continue) else (s, bail "ws pong")
  | Some (Some (Pong _)) => (s, Ok Continue)
  | Some (Some CloseMsg) => (s, Ok (Break false))
  | Some (Some (TextMsg _)) => (s, Ok Continue)
  end.

(** [sem.acquire_owned], then the worker is spawned. *)
Definition spawn_worker (s : ServerSession) : option ServerSession :=
  match s.(acquiring) with
  | Some q =>
    if decide (0 < s.(permits)) then
      let s := set_workers (s.(permits) - 1) (<[s.(next_worker) := Resolving q]> s.(workers)) (s.(next_worker) + 1) s in
      Some (set_reader None s.(sv_bad_frames) s)
    else None
  | None => None
  end.

(** *** The workers *)

Definition worker_resolved (w : Z) (q : Request) (r : result (list SocketAddr)) (s : ServerSession) : ServerSession :=
  match resolve_udp_dest r with
  | Ok addrs => try_next w q addrs s
  | _ => end_worker w s
  end.

(** A socket for the destination, and the datagram sent on it. *)
Definition worker_send (w : Z) (q : Request) (dest : SocketAddr) (rest : list SocketAddr)
    (bound : option Socket) (sent : bool) (s : ServerSession) : option ServerSession :=
  '(s, h) ← (match s.(pool) with
             | Some p => '(p, r) ← lease (is_ipv6 dest) bound p;
                         Some (set_pool (Some p) s, match r with Ok l => Some (Pooled l) | _ => None end)
             | None => Some (s, Ephemeral <$> bound)
             end);
  Some (match h with
        | None => end_worker w s
        | Some h =>
          if sent then put_worker w (Waiting q (mark_sent_awaiting_reply h) dest rest) s
          else try_next w q rest (drop_holder h s)
        end).

(** The reply record, padded and sealed; a worker that cannot build one ends. *)
Definition sealed_reply (pad rng : Rng) (x : Z) (host : str) (port : Z) (data : bytes) : ST Uplink err bytes :=
  rep ← lift (encode_udp_rep x host port data);
  wire ← pad_body pad cfg.(sv_max_pad) cfg.(sv_pad_mode) rep "pad rep";
  blob ← on_crypto (seal_server_to_client aead rng wire);
  if decide (cfg.(sv_max_ws_binary) < len blob) then throw "udp rep ws frame too large"%string else mret blob.

Definition worker_reply (pad rng : Rng) (w : Z) (q : Request) (h : UdpSockHolder) (host : str) (port : Z) (data : bytes)
    (s : ServerSession) : ServerSession :=
  let '(k, r) := sealed_reply pad rng q.(q_xid) host port data s.(link) in
  let s := set_link k s in
  match r with
  | Ok blob => put_worker w (Replying q h blob) s
  | _ => end_worker w (drop_holder h s)
  end.

(** [recv_from] gives the oldest datagram; one from elsewhere on a pooled socket is dropped. *)
Definition worker_recv (pad rng : Rng) (w : Z) (q : Request) (h : UdpSockHolder) (dest : SocketAddr) (rest : list SocketAddr)
    (s : ServerSession) : option ServerSession :=
  match (holder_sock h).(inq) with
  | [] => None
  | (src, data) :: more =>
    let h := set_sock {| fd := (holder_sock h).(fd); inq := more |} h in
    Some (if is_pooled h && bool_decide (src <> dest) then put_worker w (Waiting q h dest rest) s
          else worker_reply pad rng w q (mark_reply_consumed h) (show_ip src.(ip)) src.(port) data s)
  end.

(** The deadline: an empty reply. *)
Definition worker_timeout (pad rng : Rng) (w : Z) (q : Request) (h : UdpSockHolder) (s : ServerSession) : ServerSession :=
  worker_reply pad rng w q h (bs "0.0.0.0") 0 [] s.

Definition worker_recv_error (w : Z) (q : Request) (h : UdpSockHolder) (rest : list SocketAddr) (s : ServerSession) : ServerSession :=
  try_next w q rest (drop_holder h s).

Definition worker_sent (w : Z) (h : UdpSockHolder) (blob : bytes) (sent : bool) (s : ServerSession) : ServerSession :=
  end_worker w (drop_holder h (if sent then put_out (Binary blob) s else s)).

(** A datagram reaches the socket a worker waits on. *)
Definition worker_arrival (w : Z) (d : SocketAddr * bytes) (s : ServerSession) : option ServerSession :=
  match s.(workers) !! w with
  | Some (Waiting q h dest rest) =>
    let k := holder_sock h in
    Some (put_worker w (Waiting q (set_sock {| fd := k.(fd); inq := k.(inq) ++ [d] |} h) dest rest) s)
  | _ => None
  end.

Inductive WorkerEvent :=
| Resolved (r : result (list SocketAddr))
| Sent (bound : option Socket) (sent : bool)
| Arrival (d : SocketAddr * bytes)
| Recv (pad rng : Rng)
| Timeout (pad rng : Rng)
| RecvError
| Delivered (sent : bool).

Definition worker_step (w : Z) (ev : WorkerEvent) (s : ServerSession) : option ServerSession :=
  match s.(workers) !! w, ev with
  | Some (Resolving q), Resolved r => Some (worker_resolved w q r s)
  | Some (Trying q dest rest), Sent bound sent => worker_send w q dest rest bound sent s
  | Some (Waiting q h dest rest), Arrival d => worker_arrival w d s
  | Some (Waiting q h dest rest), Recv pad rng => worker_recv pad rng w q h dest rest s
  | Some (Waiting q h dest rest), Timeout pad rng => Some (worker_timeout pad rng w q h s)
  | Some (Waiting q h dest rest), RecvError => Some (worker_recv_error w q h rest s)
  | Some (Replying q h blob), Delivered sent => Some (worker_sent w h blob sent s)
  | _, _ => None
  end.

Inductive ServerEvent :=
| SvMessage (m : option (option Message)) (sent : bool)
| SvSpawn
| SvWorker (w : Z) (ev : WorkerEvent)
| SvReturn.

(** One step of the session; [None] when it is not enabled. The reader does not read while it waits. *)
Definition server_step (ev : ServerEvent) (s : ServerSession) : option (ServerSession * result Turn) :=
  match ev with
  | SvMessage m sent => match s.(acquiring) with None => Some (server_message sent m s) | Some _ => None end
  | SvSpawn => (fun s => (s, Ok Continue)) <$> spawn_worker s
  | SvWorker w ev => (fun s => (s, Ok Continue)) <$> worker_step w ev s
  | SvReturn => match s.(pool) with
                | Some p => (fun p => (set_pool (Some p) s, Ok Continue)) <$> push_idle p
                | None => None
                end
  end.

(** Every worker is aborted when the session ends: what it holds is dropped. *)
Definition worker_holder (k : Worker) : option UdpSockHolder :=
  match k with Waiting _ h _ _ => Some h | Replying _ h _ => Some h | _ => None end.
Definition drain_session_tasks (s : ServerSession) : ServerSession :=
  fold_left (fun s w => end_worker w (match s.(workers) !! w ≫= worker_holder with Some h => drop_holder h s | None => s end))
    (map_to_list s.(workers)).*1 s.

(** The session over a finite history: [None] when a step was not enabled. *)
Fixpoint run_server (evs : list ServerEvent) (s : ServerSession) : option (ServerSession * option (result unit)) :=
  match evs with
  | [] => Some (s, None)
  | ev :: evs =>
    match server_step ev s with
    | None => None
    | Some (s, Ok Continue) => run_server evs s
    | Some (s, Ok (Break _)) => Some (drain_session_tasks s, Some (Ok tt))
    | Some (s, Err e) => Some (drain_session_tasks s, Some (Err e))
    | Some (s, Panic) => Some (s, Some Panic)
    end
  end.
End Session.

(** ** Lemmas *)

(** *** Sockets and permits *)

Definition held (m : gmap Z Worker) : list UdpSockHolder :=
  map_to_list m ≫= fun p => option_list (worker_holder p.2).
Definition holder_fd (h : UdpSockHolder) : Z := (holder_sock h).(fd).
Definition leases (hs : list UdpSockHolder) : Z := len (List.filter is_pooled hs).
Definition pool_fds (p : UdpSocketPool) : list Z :=
  (fd <$> p.(v4_idle)) ++ (fd <$> p.(v6_idle)) ++ ((fun r => r.1.(fd)) <$> p.(returning)).

Lemma submseteq_NoDup {A} (l k : list A) : l ⊆+ k -> NoDup k -> NoDup l.
Proof. intros (k' & ->)%submseteq_Permutation Hk. by apply NoDup_app in Hk as (? & _). Qed.

(** The permits of the pool are accounted for, and no descriptor is in two places. *)
Definition acct (p : option UdpSocketPool) (hs : list UdpSockHolder) : Prop :=
  match p with
  | Some p =>
    0 <= p.(sem) /\ p.(sem) + leases hs = p.(max_idle_per_family) /\
    len p.(v4_idle) <= p.(max_idle_per_family) /\ len p.(v6_idle) <= p.(max_idle_per_family) /\
    NoDup (pool_fds p ++ (holder_fd <$> hs))
  | None => leases hs = 0 /\ NoDup (holder_fd <$> hs)
  end.

Lemma leases_cons h hs : leases (h :: hs) = (if is_pooled h then 1 else 0) + leases hs.
Proof. unfold leases. simpl. destruct (is_pooled h); [by rewrite len_cons|lia]. Qed.
Lemma leases_nonneg hs : 0 <= leases hs.
Proof. apply len_nonneg. Qed.
Lemma leases_perm hs hs' : hs ≡ₚ hs' -> leases hs = leases hs'.
Proof.
  induction 1 as [|h hs hs' _ IH|h h' hs|]; rewrite ?leases_cons; [done|lia|lia|congruence].
Qed.

Lemma acct_perm p hs hs' : hs ≡ₚ hs' -> acct p hs -> acct p hs'.
Proof. intros Hp. unfold acct. rewrite (leases_perm _ _ Hp). destruct p; by rewrite Hp. Qed.

Lemma acct_set p h h' hs :
  holder_fd h' = holder_fd h -> is_pooled h' = is_pooled h -> acct p (h :: hs) -> acct p (h' :: hs).
Proof. unfold acct. rewrite !leases_cons, !fmap_cons. intros -> ->. done. Qed.

Definition drop_from (h : UdpSockHolder) (p : option UdpSocketPool) : option UdpSocketPool :=
  match h, p with Pooled l, Some p => Some (drop_lease l p) | _, _ => p end.

Lemma acct_drop p h hs : acct p (h :: hs) -> acct (drop_from h p) hs.
Proof.
  unfold acct, drop_from. rewrite leases_cons, fmap_cons. pose proof (leases_nonneg hs).
  destruct h as [l|k], p as [p|]; simpl is_pooled; cbn [is_pooled].
  - unfold drop_lease. cbn [set_sem sem max_idle_per_family v4_idle v6_idle]. intros (H1 & H2 & H3 & H4 & Hnd).
    split_and!; [lia|lia|done|done|]. revert Hnd. unfold pool_fds, set_sem. cbn [v4_idle v6_idle returning].
    destruct (recycle_on_drop l).
    + apply submseteq_NoDup, Permutation_submseteq. rewrite fmap_app. cbn [fmap list_fmap fst fd holder_fd holder_sock].
      solve_Permutation.
    + apply submseteq_NoDup, submseteq_app; [done|]. by apply submseteq_cons.
  - lia.
  - intros (H1 & H2 & H3 & H4 & Hnd). split_and!; [lia|lia|done|done|]. revert Hnd.
    apply submseteq_NoDup, submseteq_app; [done|]. by apply submseteq_cons.
  - intros [? [_ ?]%NoDup_cons]. split; [lia|done].
Qed.

Lemma acct_lease v6 bound p p' r hs :
  acct (Some p) hs -> (forall k, bound = Some k -> k.(fd) ∉ pool_fds p ++ (holder_fd <$> hs)) ->
  lease v6 bound p = Some (p', r) ->
  match r with Ok l => acct (Some p') (Pooled l :: hs) | _ => acct (Some p') hs end.
Proof.
  intros (H1 & H2 & H3 & H4 & Hnd) Hb. unfold lease. case_decide as Hs; [done|].
  destruct (last (idle v6 p)) as [k|] eqn:Hl.
  - apply last_Some in Hl as [l Hl]. rewrite Hl, removelast_last. intros [= <- <-].
    unfold acct. rewrite leases_cons, fmap_cons. cbn [is_pooled set_sem set_idle sem max_idle_per_family v4_idle v6_idle].
    unfold idle in Hl. split_and!; [lia|lia| | |].
    + destruct v6; [done|]. rewrite Hl, len_app, len_1 in H3. lia.
    + destruct v6; [|done]. rewrite Hl, len_app, len_1 in H4. lia.
    + revert Hnd. apply submseteq_NoDup, Permutation_submseteq. unfold pool_fds.
      cbn [set_sem set_idle v4_idle v6_idle returning holder_fd holder_sock sock].
      destruct v6; rewrite Hl, fmap_app; cbn [fmap list_fmap]; solve_Permutation.
  - destruct bound as [k|]; intros [= <- <-]; [|done].
    unfold acct. rewrite leases_cons, fmap_cons. cbn [is_pooled set_sem sem max_idle_per_family v4_idle v6_idle].
    split_and!; [lia|lia|done|done|]. change (pool_fds (set_sem (sem p - 1) (returning p) p)) with (pool_fds p).
    cbn [holder_fd holder_sock sock]. rewrite <- Permutation_middle. apply NoDup_cons. split; [by apply Hb|done].
Qed.

Lemma acct_push p p' hs : acct (Some p) hs -> push_idle p = Some p' -> acct (Some p') hs.
Proof.
  intros (H1 & H2 & H3 & H4 & Hnd). unfold push_idle. destruct (returning p) as [|[k v6] r] eqn:Hr; [done|].
  unfold pool_fds in Hnd. rewrite Hr in Hnd.
  case_decide as Hroom; intros [= <-]; unfold acct; cbn [set_sem set_idle idle sem max_idle_per_family v4_idle v6_idle] in *.
  - split_and!; [lia|lia| | |].
    + destruct v6; [done|]. cbn [idle set_sem v4_idle] in *. rewrite len_app, len_1. lia.
    + destruct v6; [|done]. cbn [idle set_sem v6_idle] in *. rewrite len_app, len_1. lia.
    + revert Hnd. apply submseteq_NoDup, Permutation_submseteq. unfold pool_fds. cbn [set_sem set_idle idle v4_idle v6_idle returning].
      destruct v6; rewrite fmap_app; cbn [fmap list_fmap fst]; solve_Permutation.
  - split_and!; [lia|lia|done|done|]. revert Hnd. apply submseteq_NoDup. unfold pool_fds. cbn [set_sem v4_idle v6_idle returning].
    cbn [fmap list_fmap fst]. apply submseteq_app; [|done]. apply submseteq_app; [done|]. apply submseteq_app; [done|]. by apply submseteq_cons.
Qed.

(** Taking a worker out of the table, and putting one in. *)
Lemma held_take m w k : m !! w = Some k -> held m ≡ₚ option_list (worker_holder k) ++ held (delete w m).
Proof.
  intros Hw. unfold held. rewrite <- (map_to_list_delete m w k Hw). by rewrite bind_cons.
Qed.
Lemma held_put m w k : m !! w = None -> held (<[w := k]> m) ≡ₚ option_list (worker_holder k) ++ held m.
Proof. intros Hw. unfold held. rewrite map_to_list_insert by done. by rewrite bind_cons. Qed.
Lemma held_empty : held ∅ = [].
Proof. unfold held. by rewrite map_to_list_empty. Qed.
Lemma held_set m w k : held (<[w := k]> m) ≡ₚ option_list (worker_holder k) ++ held (delete w m).
Proof. rewrite <- insert_delete_eq. apply held_put, lookup_delete_eq. Qed.

(** The session's bookkeeping, [cap] being the pool's size. *)
Record server_inv (s : ServerSession) : Prop := {
  si_permits : 0 <= s.(permits);
  si_workers : s.(permits) + Z.of_nat (size s.(workers)) = UDP_MUX_SERVER_MAX_INFLIGHT;
  si_fresh w k : s.(workers) !! w = Some k -> w < s.(next_worker);
  si_acct : acct s.(pool) (held s.(workers));
}.

Section Bookkeeping.
Context (aead : Aead) (cfg : UdpServerCfg).
Implicit Types s : ServerSession.

(** A worker at work: [hs] is what it has in hand, the others' holders are in the table. *)
Record in_hand (s : ServerSession) (w : Z) (hs : list UdpSockHolder) : Prop := {
  ih_permits : 0 <= s.(permits);
  ih_workers : s.(permits) + Z.of_nat (size s.(workers)) = UDP_MUX_SERVER_MAX_INFLIGHT;
  ih_fresh w k : s.(workers) !! w = Some k -> w < s.(next_worker);
  ih_some : is_Some (s.(workers) !! w);
  ih_acct : acct s.(pool) (hs ++ held (delete w s.(workers)));
}.

Lemma take_worker s w k : server_inv s -> s.(workers) !! w = Some k -> in_hand s w (option_list (worker_holder k)).
Proof using.
  intros [] Hw. split; [done|done|done|by eexists|]. eapply acct_perm; [|done]. by apply held_take.
Qed.

Lemma in_hand_same s s' w hs :
  s'.(permits) = s.(permits) -> s'.(workers) = s.(workers) -> s'.(next_worker) = s.(next_worker) -> s'.(pool) = s.(pool) ->
  in_hand s w hs -> in_hand s' w hs.
Proof using. intros H1 H2 H3 H4 []. split; rewrite ?H1, ?H2, ?H3, ?H4; done. Qed.

Lemma server_inv_same s s' :
  s'.(permits) = s.(permits) -> s'.(workers) = s.(workers) -> s'.(next_worker) = s.(next_worker) -> s'.(pool) = s.(pool) ->
  server_inv s -> server_inv s'.
Proof using. intros H1 H2 H3 H4 []. split; rewrite ?H1, ?H2, ?H3, ?H4; done. Qed.

Lemma put_worker_inv s w k : in_hand s w (option_list (worker_holder k)) -> server_inv (put_worker w k s).
Proof using.
  intros []. split; cbn [put_worker set_workers permits workers next_worker pool]; [done| | |].
  - by rewrite map_size_insert_Some.
  - intros w' k' [[<- <-]|[_ ?]]%lookup_insert_Some; [destruct ih_some0|]; eauto.
  - eapply acct_perm; [symmetry; apply held_set|done].
Qed.

Lemma end_worker_inv s w : in_hand s w [] -> server_inv (end_worker w s).
Proof using.
  intros []. split; cbn [end_worker set_workers permits workers next_worker pool]; [lia| |intros w' k' [_ ?]%lookup_delete_Some; eauto|done].
  rewrite map_size_delete_Some by done. assert (size s.(workers) <> 0%nat); [|lia].
  intros Hz%map_size_empty_iff. rewrite Hz in ih_some0. by destruct ih_some0.
Qed.

Lemma drop_holder_in_hand s w h : in_hand s w [h] -> in_hand (drop_holder h s) w [].
Proof using.
  intros []. apply acct_drop in ih_acct0. unfold drop_holder.
  destruct h as [l|k]; [destruct (pool s) as [p|] eqn:Hp|]; split; cbn [set_pool permits workers next_worker pool]; try done;
    by rewrite ?Hp.
Qed.

Lemma set_in_hand s w h h' : holder_fd h' = holder_fd h -> is_pooled h' = is_pooled h -> in_hand s w [h] -> in_hand s w [h'].
Proof using. intros H1 H2 []. split; try done. by apply (acct_set _ h). Qed.

Lemma try_next_inv s w q dests : in_hand s w [] -> server_inv (try_next w q dests s).
Proof using. intros Hh. destruct dests; [by apply end_worker_inv|by apply put_worker_inv]. Qed.

Lemma worker_reply_inv s pad rng w q h host port data :
  in_hand s w [h] -> server_inv (worker_reply aead cfg pad rng w q h host port data s).
Proof using.
  intros Hh. unfold worker_reply. destruct (sealed_reply _ _ _ _ _ _ _ _ _) as [k r].
  assert (in_hand (set_link k s) w [h]) as Hk by by apply (in_hand_same s).
  destruct r; [by apply put_worker_inv|by apply end_worker_inv, drop_holder_in_hand..].
Qed.

Lemma mark_fd b h : holder_fd (mark b h) = holder_fd h.
Proof using. by destruct h. Qed.
Lemma mark_pooled b h : is_pooled (mark b h) = is_pooled h.
Proof using. by destruct h. Qed.
Lemma set_sock_fd q h : holder_fd (set_sock {| fd := (holder_sock h).(fd); inq := q |} h) = holder_fd h.
Proof using. by destruct h. Qed.
Lemma set_sock_pooled k h : is_pooled (set_sock k h) = is_pooled h.
Proof using. by destruct h. Qed.

(** A new socket has a descriptor of its own. *)
Definition fresh_socket (s : ServerSession) (ev : WorkerEvent) : Prop :=
  match ev with
  | Sent (Some k) _ => k.(fd) ∉ from_option pool_fds [] s.(pool) ++ (holder_fd <$> held s.(workers))
  | _ => True
  end.

Lemma worker_send_inv s s' w q dest rest bound sent :
  server_inv s -> s.(workers) !! w = Some (Trying q dest rest) -> fresh_socket s (Sent bound sent) ->
  worker_send w q dest rest bound sent s = Some s' -> server_inv s'.
Proof using.
  intros Hi Hw Hf. pose proof (take_worker _ _ _ Hi Hw) as Hh. simpl in Hh.
  assert (forall k, bound = Some k -> k.(fd) ∉ from_option pool_fds [] s.(pool) ++ (holder_fd <$> held (delete w s.(workers)))) as Hfresh.
  { intros k ->. simpl in Hf. by rewrite (held_take _ _ _ Hw) in Hf. }
  assert (forall s1 oh, match oh with Some h => in_hand s1 w [h] | None => in_hand s1 w [] end ->
    server_inv (match oh with
                | None => end_worker w s1
                | Some h => if sent then put_worker w (Waiting q (mark_sent_awaiting_reply h) dest rest) s1
                            else try_next w q rest (drop_holder h s1)
                end)) as Hfin.
  { intros s1 [h|] H1; [|by apply end_worker_inv]. destruct sent.
    - apply put_worker_inv. eapply set_in_hand; [| |exact H1]; [apply mark_fd|apply mark_pooled].
    - by apply try_next_inv, drop_holder_in_hand. }
  unfold worker_send. destruct Hh as [Hp Hn Hfr Hs Ha]. destruct (pool s) as [p|] eqn:Hpool.
  - destruct (lease (is_ipv6 dest) bound p) as [[p' r]|] eqn:Hl; [|done]. intros [= <-]. apply Hfin.
    eapply acct_lease in Hl; [|exact Ha|exact Hfresh]. destruct r; split; done.
  - intros [= <-]. apply Hfin. destruct bound as [k|]; simpl; split; rewrite ?Hpool; try done.
    destruct Ha as [Ha1 Ha2]. simpl in *. split; [by rewrite leases_cons|]. apply NoDup_cons. split; [by apply Hfresh|done].
Qed.

Lemma worker_step_inv s s' w ev :
  server_inv s -> fresh_socket s ev -> worker_step aead cfg w ev s = Some s' -> server_inv s'.
Proof using.
  intros Hi Hf. unfold worker_step. destruct (workers s !! w) as [k|] eqn:Hw; [|done].
  pose proof (take_worker _ _ _ Hi Hw) as Hh.
  destruct k as [q|q dest rest|q h dest rest|q h blob], ev; try done; simpl in Hh.
  - intros [= <-]. unfold worker_resolved. destruct (resolve_udp_dest r); [by apply try_next_inv|by apply end_worker_inv..].
  - by apply worker_send_inv.
  - unfold worker_arrival. rewrite Hw. intros [= <-]. apply put_worker_inv. eapply set_in_hand; [| |exact Hh]; [apply set_sock_fd|apply set_sock_pooled].
  - unfold worker_recv. destruct (inq (holder_sock h)) as [|[src data] more]; [done|]. intros [= <-].
    match goal with |- context [set_sock ?k h] => assert (in_hand s w [set_sock k h]) as H1 by
      (eapply set_in_hand; [| |exact Hh]; [apply set_sock_fd|apply set_sock_pooled]) end.
    destruct (_ && _); [by apply put_worker_inv|]. apply worker_reply_inv. eapply set_in_hand; [| |exact H1]; [apply mark_fd|apply mark_pooled].
  - intros [= <-]. by apply worker_reply_inv.
  - intros [= <-]. by apply try_next_inv, drop_holder_in_hand.
  - intros [= <-]. apply end_worker_inv, drop_holder_in_hand. destruct sent; [by apply (in_hand_same s)|done].
Qed.

Lemma spawn_inv s s' : server_inv s -> spawn_worker s = Some s' -> server_inv s'.
Proof using.
  intros []. unfold spawn_worker. destruct (acquiring s) as [q|]; [|done]. case_decide; [|done]. intros [= <-].
  assert (workers s !! next_worker s = None) as Hn.
  { destruct (workers s !! next_worker s) as [k|] eqn:E; [|done]. apply si_fresh0 in E. lia. }
  split; cbn [set_reader set_workers permits workers next_worker pool]; [lia| | |].
  - rewrite map_size_insert_None by done. lia.
  - intros w k [[<- <-]|[_ Hk]]%lookup_insert_Some; [lia|]. apply si_fresh0 in Hk. lia.
  - eapply acct_perm; [symmetry; by apply held_put|done].
Qed.

Lemma server_message_inv s s' sent m r : server_inv s -> server_message aead cfg sent m s = (s', r) -> server_inv s'.
Proof using.
  intros Hi. assert (forall s0 s' r, server_inv s0 -> sv_bad_frame s0 = (s', r) -> server_inv s') as Hbad.
  { intros s0 s1 r1 H0. unfold sv_bad_frame. case_decide; intros [= <- <-]; by apply (server_inv_same s0). }
  destruct m as [[[b|t|p|p|]|]|]; cbn [server_message]; try (by intros [= <- <-]).
  - unfold server_binary. case_decide; [by intros [= <- <-]|]. destruct (open_client_to_server _ _ _) as [raw|e|]; [|by intros [= <- <-]..].
    destruct (read_padded_frame_borrow raw) as [plain|e|]; [|by apply Hbad|by intros [= <- <-]].
    destruct (decode_udp_req plain) as [[[[x h] p] d]|e|]; [|apply Hbad|]; try (intros [= <- <-]); by apply (server_inv_same s).
  - destruct sent; intros [= <- <-]; by apply (server_inv_same s).
Qed.

Lemma server_step_inv s s' ev r :
  server_inv s -> (forall w wev, ev = SvWorker w wev -> fresh_socket s wev) ->
  server_step aead cfg ev s = Some (s', r) -> server_inv s'.
Proof using.
  intros Hi Hf. destruct ev as [m sent| |w wev|]; cbn [server_step].
  - destruct (acquiring s); [done|]. intros [= H]. by eapply server_message_inv.
  - destruct (spawn_worker s) eqn:E; [|done]. intros [= <- _]. by eapply spawn_inv.
  - destruct (worker_step _ _ w wev s) eqn:E; [|done]. intros [= <- _]. eapply worker_step_inv; [done|by eapply Hf|done].
  - destruct (pool s) as [p|] eqn:Hp; [|done]. destruct (push_idle p) as [p'|] eqn:E; [|done]. intros [= <- _].
    destruct Hi. split; try done. rewrite Hp in si_acct0. by eapply acct_push.
Qed.
(** The size of the pool never changes. *)
Definition pool_cap (s : ServerSession) : option Z := max_idle_per_family <$> s.(pool).

Lemma drop_holder_cap h s : pool_cap (drop_holder h s) = pool_cap s.
Proof using. unfold drop_holder, pool_cap. destruct h as [l|k]; [|done]. destruct (pool s) as [p|] eqn:Hp; [done|by rewrite Hp]. Qed.
Lemma try_next_cap w q dests s : pool_cap (try_next w q dests s) = pool_cap s.
Proof using. by destruct dests. Qed.
Lemma worker_reply_cap pad rng w q h host port data s : pool_cap (worker_reply aead cfg pad rng w q h host port data s) = pool_cap s.
Proof using.
  unfold worker_reply. destruct (sealed_reply _ _ _ _ _ _ _ _ _) as [k r].
  destruct r; [done|exact (drop_holder_cap h (set_link k s))..].
Qed.
Lemma lease_cap v6 bound p p' r : lease v6 bound p = Some (p', r) -> max_idle_per_family p' = max_idle_per_family p.
Proof using. unfold lease. case_decide; [done|]. destruct (last _); [by intros [= <- _]|]. destruct bound; by intros [= <- _]. Qed.

Lemma worker_step_cap s s' w ev : worker_step aead cfg w ev s = Some s' -> pool_cap s' = pool_cap s.
Proof using.
  unfold worker_step. destruct (workers s !! w) as [k|] eqn:Hw; [|done].
  destruct k as [q|q dest rest|q h dest rest|q h blob], ev; try done.
  - intros [= <-]. unfold worker_resolved. destruct (resolve_udp_dest r); [apply try_next_cap|done..].
  - unfold worker_send. destruct (pool s) as [p|] eqn:Hp.
    + destruct (lease _ _ _) as [[p' r]|] eqn:Hl; [|done]. intros [= <-]. apply lease_cap in Hl.
      assert (pool_cap (set_pool (Some p') s) = pool_cap s) as <- by (unfold pool_cap; rewrite Hp; cbn; by rewrite Hl).
      destruct r; cbv iota beta; [destruct sent; [done|by rewrite try_next_cap, drop_holder_cap]|done..].
    + intros [= <-]. destruct bound; [|done]. cbn [option_fmap option_map fmap]. destruct sent; [done|]. exact (try_next_cap w q rest s).
  - unfold worker_arrival. rewrite Hw. by intros [= <-].
  - unfold worker_recv. destruct (inq _) as [|[src data] more]; [done|]. intros [= <-]. destruct (_ && _); [done|apply worker_reply_cap].
  - intros [= <-]. apply worker_reply_cap.
  - intros [= <-]. unfold worker_recv_error. by rewrite try_next_cap, drop_holder_cap.
  - intros [= <-]. unfold worker_sent. destruct sent; exact (drop_holder_cap h _).
Qed.

Lemma server_step_cap s s' ev r : server_step aead cfg ev s = Some (s', r) -> pool_cap s' = pool_cap s.
Proof using.
  destruct ev as [m sent| |w wev|]; cbn [server_step].
  - destruct (acquiring s); [done|]. intros [= H]. revert H.
    assert (forall s0 s' r, sv_bad_frame s0 = (s', r) -> pool_cap s' = pool_cap s0) as Hbad
      by (intros s0 s1 r1; unfold sv_bad_frame; case_decide; by intros [= <- <-]).
    destruct m as [[[b|t|p|p|]|]|]; cbn [server_message]; try (by intros [= <- <-]); [|destruct sent; by intros [= <- <-]].
    unfold server_binary. case_decide; [by intros [= <- <-]|]. destruct (open_client_to_server _ _ _) as [raw|e|]; [|by intros [= <- <-]..].
    destruct (read_padded_frame_borrow raw) as [plain|e|]; [|apply Hbad|by intros [= <- <-]].
    destruct (decode_udp_req plain) as [[[[x h] p] d]|e|]; [by intros [= <- <-]| |by intros [= <- <-]]. intros Hf. by apply Hbad in Hf.
  - unfold spawn_worker. destruct (acquiring s) as [q|]; [|done]. case_decide; [|done]. by intros [= <- _].
  - destruct (worker_step _ _ w wev s) eqn:E; [|done]. intros [= <- _]. by eapply worker_step_cap.
  - destruct (pool s) as [p|] eqn:Hp; [|done]. destruct (push_idle p) as [p'|] eqn:E; [|done]. intros [= <- _].
    unfold push_idle in E. destruct (returning p) as [|[k v6] l]; [done|]. injection E as <-. unfold pool_cap. rewrite Hp. by case_decide.
Qed.
End Bookkeeping.

(** *** Records across the tunnel *)

Section Records.
Context (aead : Aead).

Lemma on_crypto_Ok {A} (m : ST SessionCrypto err A) u u' (a : A) :
  on_crypto m u = (u', Ok a) -> exists c, m u.(up_crypto) = (c, Ok a) /\ u' = {| up_crypto := c; up_adaptive := u.(up_adaptive) |}.
Proof using. unfold on_crypto. destruct (m (up_crypto u)) as [c r]. intros [= <- ->]. eauto. Qed.

Lemma pad_body_Ok rng max_pad mode body ctx u u' wire :
  is_u8 max_pad -> pad_body rng max_pad mode body ctx u = (u', Ok wire) ->
  u'.(up_crypto) = u.(up_crypto) /\ exists pad, wire = layout pad body /\ len pad < 256 /\ len body <= 16777215.
Proof using.
  unfold pad_body. intros Hm. destruct (write_padded_frame_with_mode_state _ _ _ _ _) as [[f ad]| |] eqn:Hw; [|done..].
  intros [= <- <-]. split; [done|]. apply write_padded_Ok in Hw as (pad & -> & ? & ?); [|done]. exists pad. unfold is_u8 in Hm. split_and!; [done|lia|done].
Qed.

(** The request as the server reads it. *)
Lemma packed_request pad rng cfg body u u' blob peer :
  is_u8 cfg.(u_max_pad) -> is_u8 u.(up_crypto).(decoy_max) -> same_keys u.(up_crypto) peer ->
  pack_tunnel_out aead pad rng cfg body u = (u', Ok blob) ->
  len blob <= cfg.(u_max_ws_binary) /\
  exists raw, open_client_to_server aead peer blob = Ok raw /\ read_padded_frame_borrow raw = Ok body.
Proof using.
  intros Hm Hd Hk. unfold pack_tunnel_out.
  intros (u1 & wire & H1 & (u2 & blob' & H2 & H3)%st_bind_Ok)%st_bind_Ok.
  apply pad_body_Ok in H1 as (Hc & p & -> & Hp & Hb); [|done]. apply on_crypto_Ok in H2 as (c & H2 & ->).
  case_decide; [done|]. injection H3 as _ <-. split; [lia|].
  rewrite Hc in H2. destruct (seal_c2s_ok aead _ _ _ _ _ _ Hd Hk H2) as [Ho _ _ _ _].
  exists (layout p body). split; [done|by apply read_layout].
Qed.

(** The reply as the client reads it. *)
Lemma sealed_reply_Ok cfg pad rng x host port data u u' blob peer :
  is_u8 cfg.(sv_max_pad) -> is_u8 u.(up_crypto).(decoy_max) -> same_keys u.(up_crypto) peer ->
  is_u64 x -> is_str host -> is_u16 port ->
  sealed_reply aead cfg pad rng x host port data u = (u', Ok blob) ->
  len blob <= cfg.(sv_max_ws_binary) /\
  exists plain, unpack_tunnel_in aead peer blob = Ok plain /\ decode_udp_rep plain = Ok (x, canon_host host, port, data).
Proof using.
  intros Hm Hd Hk Hx Hh Hport. unfold sealed_reply.
  intros (u0 & rep & H0 & (u1 & wire & H1 & (u2 & blob' & H2 & H3)%st_bind_Ok)%st_bind_Ok)%st_bind_Ok.
  injection H0 as <- Hrep. apply pad_body_Ok in H1 as (Hc & p & -> & Hp & Hb); [|done]. apply on_crypto_Ok in H2 as (c & H2 & ->).
  case_decide; [done|]. injection H3 as _ <-. split; [lia|].
  rewrite Hc in H2. destruct (seal_s2c_ok aead _ _ _ _ _ _ Hd Hk H2) as [Ho _ _ _ _].
  exists rep. split; [|by eapply encode_decode_udp]. unfold unpack_tunnel_in. rewrite Ho. cbn [mbind res_bind]. by rewrite read_into_layout.
Qed.

(** Why there may be no reply: the datagram or the sealed record is too long, the nonces are used up, or the cipher refuses. *)
Definition refused (cfg : UdpServerCfg) (x : Z) (host : str) (port : Z) (data : bytes) (u : Uplink) : Prop :=
  MAX_UDP_PAYLOAD < len data \/ u.(up_crypto).(s2c).(ctr) = U64_MAX \/
  (exists n p, encrypt aead u.(up_crypto).(s2c).(cipher) n p = None) \/
  exists rep, encode_udp_rep x host port data = Ok rep /\
    cfg.(sv_max_ws_binary) < 29 + u.(up_crypto).(decoy_max) + 5 + cfg.(sv_max_pad) + len rep.

Lemma seal_s2c_fails rng inner a : (forall a' b, seal_server_to_client aead rng inner a <> (a', Ok b)) ->
  a.(s2c).(ctr) = U64_MAX \/ exists n p, encrypt aead a.(s2c).(cipher) n p = None.
Proof using.
  unfold seal_server_to_client, on_s2c, seal, seal_with, next_nonce, mbind, st_bind, gets, lift, mret, st_ret.
  destruct (decide (ctr (s2c a) = U64_MAX)) as [->|]; [by left|]. cbn [cipher].
  destruct (encrypt aead _ _ _) as [[c t]|] eqn:E; [|intros _; right; by do 2 eexists]. intros H. by destruct (H _ _ eq_refl).
Qed.

Lemma seal_s2c_short rng inner a a' wire :
  is_u8 a.(decoy_max) -> seal_server_to_client aead rng inner a = (a', Ok wire) -> len wire <= 29 + a.(decoy_max) + len inner.
Proof using.
  intros Hd H. unfold seal_server_to_client, mbind, st_bind, gets, on_s2c, seal in H.
  destruct (seal_with _ _ _ _ (s2c a)) as [h r] eqn:Hw. injection H as <- ->.
  eapply seal_with_facts in Hw as (_ & _ & H3); [|done|done|reflexivity]. lia.
Qed.

Lemma encode_udp_length op x host port data : len host <= U8_MAX -> len data <= MAX_UDP_PAYLOAD ->
  exists rep, encode_udp op x host port data = Ok rep /\ len rep <= 300 + len data.
Proof using.
  intros Hh Hd. unfold encode_udp. rewrite decide_False by lia. unfold encode_atyp_host_port, U8_MAX in *.
  destruct (parse_ipv4 host) as [a|]; [|destruct (parse_ipv6 host) as [a|]; [|rewrite decide_False by lia]]; cbn [mbind res_bind];
    (eexists; split; [reflexivity|]; unfold octets4, octets6; autorewrite with wire; lia).
Qed.

Lemma sealed_reply_fails cfg pad rng x host port data u u' r :
  is_u8 cfg.(sv_max_pad) -> is_u8 u.(up_crypto).(decoy_max) -> len host <= U8_MAX ->
  sealed_reply aead cfg pad rng x host port data u = (u', r) -> (forall blob, r <> Ok blob) -> refused cfg x host port data u.
Proof using.
  intros Hm Hd Hh. unfold sealed_reply, refused. destruct (decide (MAX_UDP_PAYLOAD < len data)) as [?|Hl]; [by left|].
  destruct (encode_udp_length V3_CTRL_UDP_REP x host port data Hh ltac:(lia)) as (rep & Hrep & Hlen).
  unfold encode_udp_rep, mbind, st_bind, lift. rewrite Hrep. unfold pad_body.
  pose proof (padded_frame_roundtrip pad rep cfg.(sv_max_pad) cfg.(sv_pad_mode) (Some u.(up_adaptive)) Hm) as Hp.
  destruct (write_padded_frame_with_mode_state _ _ _ _ _) as [[wire ad]|e|]; [|destruct Hp as [_ Hp]; unfold MAX_UDP_PAYLOAD in *; lia|done].
  destruct Hp as (_ & _ & _ & _ & Hp). cbn [up_crypto]. unfold on_crypto. cbn [up_crypto].
  destruct (seal_server_to_client aead rng wire (up_crypto u)) as [c rb] eqn:Hs.
  destruct rb as [blob|e|].
  - apply seal_s2c_short in Hs; [|done]. case_decide as Hb; [|intros [= _ <-] Hn; by destruct (Hn blob)].
    intros _ _. do 3 right. exists rep. split; [done|]. lia.
  - intros _ _. destruct (seal_s2c_fails rng wire (up_crypto u)) as [?|?]; [by rewrite Hs|by right; left|by right; right; left].
  - intros _ _. destruct (seal_s2c_fails rng wire (up_crypto u)) as [?|?]; [by rewrite Hs|by right; left|by right; right; left].
Qed.
End Records.

(** An address is written in at most 255 characters. *)
Lemma show_dec_short n : len (show_dec n) <= 20.
Proof.
  unfold show_dec. change 20 with (Z.of_nat 20). generalize 20%nat. intros k. revert n. induction k as [|k IH]; intros n; [done|].
  cbn [show_dec_fuel]. specialize (IH (n / 10)). unfold len in *. rewrite length_app. destruct (n / 10 =? 0); simpl length; lia.
Qed.
Lemma show_hex_short n : len (show_hex n) <= 4.
Proof.
  unfold show_hex. change 4 with (Z.of_nat 4). generalize 4%nat. intros k. revert n. induction k as [|k IH]; intros n; [done|].
  cbn [show_hex_fuel]. specialize (IH (n / 16)). unfold len in *. rewrite length_app. destruct (n / 16 =? 0); simpl length; lia.
Qed.
Lemma join_short sep (l : list str) b : Forall (fun s => len s <= b) l -> len (join sep l) <= len l * (b + len sep).
Proof.
  pose proof (len_nonneg sep). induction 1 as [|s l Hs _ IH]; [done|]. destruct l as [|s' l].
  - cbn [join]. unfold len in *. simpl length. lia.
  - cbn [join] in *. unfold len in *. rewrite !length_app. simpl length in *. lia.
Qed.
Lemma show_ip_short i : len (show_ip i) <= U8_MAX.
Proof.
  assert (H4 : forall a, len (show_ipv4 a) <= 84).
  { intros a. unfold show_ipv4. eapply Z.le_trans; [apply (join_short [46] _ 20)|done]. apply Forall_fmap, Forall_forall. intros; apply show_dec_short. }
  assert (H6 : forall l, len (show_groups l) <= len l * 5).
  { intros l. unfold show_groups. eapply Z.le_trans; [apply (join_short [58] _ 4)|unfold len; rewrite length_fmap; simpl; lia].
    apply Forall_fmap, Forall_forall. intros; apply show_hex_short. }
  unfold U8_MAX. destruct i as [a|a]; cbn [show_ip]; [specialize (H4 a); lia|]. unfold show_ipv6. destruct (to_ipv4_mapped a) as [v|].
  - specialize (H4 v). unfold len in *. rewrite length_app. simpl length. lia.
  - assert (H8 : length (segments a) = 8%nat) by (unfold segments; done).
    destruct (zero_run _ _ _ _) as [st n]. destruct (1 <? n)%nat.
    + pose proof (H6 (take st (segments a))). pose proof (H6 (drop (st + n) (segments a))). unfold len in *.
      rewrite !length_app. rewrite length_take, length_drop in *. simpl length. lia.
    + specialize (H6 (segments a)). unfold len in *. lia.
Qed.

(** What a forwarded command leaves behind when its message is sent. *)
Lemma forward_sends aead pad rng cfg c s s' m :
  forward_cmd aead pad rng true cfg c s = (s', Ok Continue) -> s'.(outbox) = s.(outbox) ++ [Binary m] ->
  exists req u d, encode_udp_req c.(xid) c.(dst_host) c.(dst_port) c.(cmd_payload) = Ok req /\
    pack_tunnel_out aead pad rng cfg req s.(up) = (u, Ok m) /\
    s'.(pending) !! c.(xid) = Some {| reply := c.(cmd_reply); dns_expect := d |}.
Proof.
  assert (forall x r s, (settle x r s).(outbox) = s.(outbox)) as Hsettle.
  { intros x r s0. unfold settle, answer. destruct (pending s0 !! x); [by case_decide|done]. }
  assert (forall {A} (l : list A) x, l <> l ++ [x]) as Hne
    by (intros A l x Hl; apply (f_equal length) in Hl; rewrite length_app in Hl; simpl in Hl; lia).
  unfold forward_cmd. set (s0 := reclaim_closed_pending s). case_decide as Hcap.
  { intros [= <-] Ho. exfalso. revert Ho. unfold answer. case_decide; apply Hne. }
  destruct (pending s0 !! xid c) as [e|] eqn:Hx.
  { intros [= <-] Ho. exfalso. revert Ho. unfold answer. case_decide; apply Hne. }
  set (look := if decide (dst_port c = 53) then _ else _). destruct look as [d|e|]; [|done..]. unfold send_request.
  destruct (encode_udp_req _ _ _ _) as [req|e|] eqn:Hreq; [|intros [= <-]; rewrite Hsettle; intros Ho; by apply Hne in Ho|done].
  cbn [set_pending up]. destruct (pack_tunnel_out _ _ _ _ _ _) as [u [blob|e|]] eqn:Hp; [| |done].
  - intros [= <-]. cbn. intros Ho. apply app_inj_2 in Ho as [_ [= ->]]; [|done].
    exists req, u, d. split_and!; [done|done|]. by rewrite lookup_insert_eq.
  - intros [= <-]. rewrite Hsettle. intros Ho. by apply Hne in Ho.
Qed.

Lemma deliver_answers now x sh sp pl s entry :
  s.(pending) !! x = Some entry -> entry.(reply) ∉ s.(gone) ->
  let s' := deliver now (x, sh, sp, pl) (set_bad 0 s) in
  s'.(answers) = s.(answers) ++ [(entry.(reply), build_socks5_udp_datagram sh sp pl)] /\ s'.(pending) = delete x s.(pending).
Proof.
  intros Hx Hg. unfold deliver, answer. cbn [set_bad pending]. rewrite Hx.
  destruct (dns_expect entry) as [[id qn]|]; [destruct (decide (sp = 53))|]; by rewrite decide_False.
Qed.

(** ** Properties *)

(** Steps whose new sockets have descriptors of their own. *)
Definition server_step_to (aead : Aead) (cfg : UdpServerCfg) (s s' : ServerSession) : Prop :=
  exists ev r, server_step aead cfg ev s = Some (s', r) /\ forall w wev, ev = SvWorker w wev -> fresh_socket s wev.

(** in every state a relay session can reach, at most 512 requests are in flight and each
    holds one permit; the socket pool lends at most its size, keeps at most its size idle per
    address family, and no descriptor is in two places at once (idle, being returned, or in the
    hands of a worker), so no two requests ever share a socket. *)
Theorem udp_server_resources aead cfg crypto cap s :
  rtc (server_step_to aead cfg) (ServerSession_new crypto (UdpSocketPool_new <$> cap)) s ->
  0 <= s.(permits) /\ s.(permits) + Z.of_nat (size s.(workers)) = UDP_MUX_SERVER_MAX_INFLIGHT /\
  match cap, s.(pool) with
  | Some n, Some p =>
    p.(sem) + leases (held s.(workers)) = Z.max n 1 /\ 0 <= p.(sem) /\
    len p.(v4_idle) <= Z.max n 1 /\ len p.(v6_idle) <= Z.max n 1 /\
    NoDup (pool_fds p ++ (holder_fd <$> held s.(workers)))
  | None, None => leases (held s.(workers)) = 0 /\ NoDup (holder_fd <$> held s.(workers))
  | _, _ => False
  end.
Proof.
  set (P := fun s : ServerSession => server_inv s /\
    max_idle_per_family <$> s.(pool) = (fun n => Z.max n 1) <$> cap).
  assert (forall s s', server_step_to aead cfg s s' -> P s -> P s') as Hstep.
  { intros s1 s2 (ev & r & Hs & Hf) [Hi Hc]. split; [by eapply server_step_inv|].
    rewrite <- Hc. by eapply server_step_cap. }
  intros Hr. assert (P s) as [[] Hc].
  { revert Hr. apply (rtc_ind_r P); [|intros y z _ Hyz Hy; by eapply Hstep].
    split; [|by destruct cap]. split; cbn; [unfold UDP_MUX_SERVER_MAX_INFLIGHT; lia|done|done|].
    destruct cap as [n|]; cbn; rewrite held_empty; [|by split; [|constructor]].
    split_and!; try (unfold leases, len; simpl; lia). constructor. }
  split_and!; [done|done|]. destruct cap as [n|], (pool s) as [p|]; simpl in *; try done.
  injection Hc as Hc. rewrite <- Hc. destruct si_acct0 as (? & ? & ? & ? & ?). done.
Qed.

(** *** A worker keeps its request *)

Lemma insert_by_key_perm x l : insert_by_key x l ≡ₚ x :: l.
Proof. induction l as [|y l IH]; cbn [insert_by_key]; [done|]. case_match; [done|]. rewrite IH. by apply perm_swap. Qed.
Lemma resolve_perm r l : resolve_udp_dest r = Ok l -> exists addrs, r = Ok addrs /\ l ≡ₚ addrs.
Proof.
  destruct r as [addrs|e|]; [|done..]. cbn. intros [= <-]. exists addrs. split; [done|]. induction addrs as [|x l IH]; [done|]. cbn. by rewrite insert_by_key_perm, IH.
Qed.

(** The worker of [q], whose name has the addresses [l]: it tries them in order, sends to the first that takes the datagram, and a socket of the pool
    on which an answer may still come is not marked for another use. *)
Definition works_on (q : Request) (l : list SocketAddr) (k : Worker) : Prop :=
  match k with
  | Resolving q' => q' = q
  | Trying q' dest rest => q' = q /\ dest :: rest `suffix_of` l
  | Waiting q' h dest rest => q' = q /\ dest :: rest `suffix_of` l /\ match h with Pooled lease => lease.(recycle_on_drop) = false | Ephemeral _ => True end
  | Replying q' _ _ => q' = q
  end.
(** The steps of a session in which the resolver answers worker [w] with [r]. *)
Definition resolving_step (aead : Aead) (cfg : UdpServerCfg) (w : Z) (r : result (list SocketAddr)) (s s' : ServerSession) : Prop :=
  exists ev, server_step aead cfg ev s = Some (s', Ok Continue) /\ forall r', ev = SvWorker w (Resolved r') -> r' = r.

Section Works.
Context (aead : Aead) (cfg : UdpServerCfg) (w : Z) (q : Request) (r : result (list SocketAddr)).
Definition addresses : list SocketAddr := match resolve_udp_dest r with Ok l => l | _ => [] end.
Definition at_work (s : ServerSession) : Prop := w < s.(next_worker) /\ forall k, s.(workers) !! w = Some k -> works_on q addresses k.

Lemma drop_holder_workers h s : (drop_holder h s).(workers) = s.(workers) /\ (drop_holder h s).(next_worker) = s.(next_worker).
Proof using. unfold drop_holder. destruct h, (pool s); done. Qed.
Lemma reader_keeps sent m s s' o : server_message aead cfg sent m s = (s', o) -> s'.(workers) = s.(workers) /\ s'.(next_worker) = s.(next_worker).
Proof using.
  unfold server_message, server_binary, sv_bad_frame. intros H. repeat (case_match || case_decide); injection H as <- _; done.
Qed.
(** Only worker [w'] may have changed. *)
Definition only (w' : Z) (s s' : ServerSession) : Prop := s'.(next_worker) = s.(next_worker) /\ forall v, v <> w' -> s'.(workers) !! v = s.(workers) !! v.
Lemma only_trans w' s1 s2 s3 : only w' s1 s2 -> only w' s2 s3 -> only w' s1 s3.
Proof using. intros [H1 H2] [H3 H4]. split; [congruence|]. intros v Hv. rewrite H4, H2; done. Qed.
Lemma only_same w' s s' : s'.(workers) = s.(workers) -> s'.(next_worker) = s.(next_worker) -> only w' s s'.
Proof using. intros H1 H2. split; [done|]. intros v _. by rewrite H1. Qed.
Lemma drop_holder_only w' h s : only w' s (drop_holder h s).
Proof using. apply only_same; unfold drop_holder; by destruct h, (pool s). Qed.
Lemma put_worker_only w' k s : only w' s (put_worker w' k s).
Proof using. split; [done|]. intros v Hv. unfold put_worker. cbn. by rewrite lookup_insert_ne. Qed.
Lemma end_worker_only w' s : only w' s (end_worker w' s).
Proof using. split; [done|]. intros v Hv. unfold end_worker. cbn. by rewrite lookup_delete_ne. Qed.
Lemma try_next_only w' q' l s : only w' s (try_next w' q' l s).
Proof using. destruct l; [apply end_worker_only | apply put_worker_only]. Qed.
Hint Resolve drop_holder_only put_worker_only end_worker_only try_next_only : core.
Lemma worker_reply_only pad rng w' q' h host port data s : only w' s (worker_reply aead cfg pad rng w' q' h host port data s).
Proof using.
  unfold worker_reply. destruct (sealed_reply _ _ _ _ _ _ _ _ _) as [u o]. eapply (only_trans _ _ (set_link u s)); [by apply only_same|].
  destruct o; [auto | eapply only_trans; [apply drop_holder_only | auto]..].
Qed.
Lemma worker_step_only w' ev s s' : worker_step aead cfg w' ev s = Some s' -> only w' s s'.
Proof using.
  unfold worker_step, worker_resolved, worker_send, worker_recv, worker_timeout, worker_recv_error, worker_sent, worker_arrival.
  destruct (workers s !! w') as [[q' | q' d l | q' h d l | q' h blob]|] eqn:Hw, ev as [r' | bound sent | dg | pad rng | pad rng | | sent]; try done.
  - intros [= <-]. destruct (resolve_udp_dest r'); auto.
  - intros ([s1 h] & H1 & [= <-])%bind_Some. assert (H : only w' s s1).
    { destruct (pool s); [apply bind_Some in H1 as ([p o] & _ & [= <- _]) | injection H1 as <- _]; by apply only_same. }
    eapply only_trans; [exact H|]. destruct h as [h|]; [|auto]. destruct sent; [auto|]. eapply only_trans; [apply drop_holder_only | auto].
  - intros [= <-]. auto.
  - destruct (inq (holder_sock h)) as [|[src data] more]; [done|]. intros [= <-]. case_match; [auto | apply worker_reply_only].
  - intros [= <-]. apply worker_reply_only.
  - intros [= <-]. eapply only_trans; [apply drop_holder_only | auto].
  - intros [= <-]. eapply (only_trans _ _ (if sent then put_out (Binary blob) s else s)); [destruct sent; by apply only_same|]. eapply only_trans; [apply drop_holder_only | auto].
Qed.

Lemma try_next_works l s : l `suffix_of` addresses -> forall k, (try_next w q l s).(workers) !! w = Some k -> works_on q addresses k.
Proof using.
  intros Hl k. destruct l as [|d l]; cbn; [by rewrite lookup_delete_eq|]. rewrite lookup_insert_eq. intros [= <-]. by split.
Qed.
Lemma reply_works pad rng h host port data s k : (worker_reply aead cfg pad rng w q h host port data s).(workers) !! w = Some k -> works_on q addresses k.
Proof using.
  unfold worker_reply. destruct (sealed_reply _ _ _ _ _ _ _ _ _) as [u [b|e|]]; cbn; [rewrite lookup_insert_eq; by intros [= <-] | by rewrite lookup_delete_eq..].
Qed.
Lemma own_step ev s s' : (forall r', ev = Resolved r' -> r' = r) -> (forall k, s.(workers) !! w = Some k -> works_on q addresses k) ->
  worker_step aead cfg w ev s = Some s' -> forall k, s'.(workers) !! w = Some k -> works_on q addresses k.
Proof using.
  intros Hr Hk. unfold worker_step, worker_resolved, worker_send, worker_recv, worker_timeout, worker_recv_error, worker_sent, worker_arrival.
  destruct (workers s !! w) as [k0|] eqn:Hw; [|done]. specialize (Hk k0 eq_refl).
  destruct k0 as [q' | q' d l | q' h d l | q' h blob], ev as [r' | bound sent | dg | pad rng | pad rng | | sent]; try done; cbn in Hk.
  - subst q'. intros [= <-]. specialize (Hr r' eq_refl) as ->. destruct (resolve_udp_dest r) as [l| |] eqn:Hl; [|intros k; cbn; by rewrite lookup_delete_eq..].
    apply try_next_works. unfold addresses. by rewrite Hl.
  - destruct Hk as [-> Hs]. intros ([s1 h] & H1 & [= <-])%bind_Some. destruct h as [h|]; [|intros k; cbn; by rewrite lookup_delete_eq].
    destruct sent; [|apply try_next_works; by eapply suffix_cons_l]. intros k. cbn. rewrite lookup_insert_eq. intros [= <-]. split_and!; [done|done|by destruct h].
  - destruct Hk as (-> & Hs & Hh). intros [= <-] k. cbn. rewrite lookup_insert_eq. intros [= <-]. split_and!; [done|done|by destruct h].
  - destruct Hk as (-> & Hs & Hh). destruct (inq (holder_sock h)) as [|[src data] more]; [done|]. intros [= <-]. destruct (is_pooled _ && _); [|apply reply_works].
    intros k. cbn. rewrite lookup_insert_eq. intros [= <-]. split_and!; [done|done|by destruct h].
  - destruct Hk as (-> & _). intros [= <-]. apply reply_works.
  - destruct Hk as (-> & Hs & _). intros [= <-]. apply try_next_works. by eapply suffix_cons_l.
  - intros [= <-] k. cbn. by rewrite lookup_delete_eq.
Qed.

Lemma resolving_step_works s s' : resolving_step aead cfg w r s s' -> at_work s -> at_work s'.
Proof using.
  intros (ev & H & Hr) [Hn Hk]. destruct ev as [m sent | | w' ev |]; cbn in H.
  - destruct (acquiring s); [done|]. injection H as H. apply reader_keeps in H as [E1 E2]. unfold at_work. by rewrite E1, E2.
  - apply fmap_Some in H as (s1 & H & [= ->]). unfold spawn_worker in H. destruct (acquiring s) as [q'|]; [|done]. case_decide; [|done]. injection H as <-.
    split; cbn; [lia|]. rewrite lookup_insert_ne by lia. done.
  - apply fmap_Some in H as (s1 & H & [= ->]). destruct (decide (w' = w)) as [->|Hne].
    + split; [by rewrite (proj1 (worker_step_only _ _ _ _ H))|]. eapply own_step; [|done|done]. intros r' ->. by apply Hr.
    + destruct (worker_step_only _ _ _ _ H) as [E1 E2]. unfold at_work. rewrite E1, E2 by done. done.
  - destruct (pool s) as [p|]; [|done]. apply fmap_Some in H as (p' & _ & [= ->]). done.
Qed.
Lemma run_works s s' : rtc (resolving_step aead cfg w r) s s' -> at_work s -> at_work s'.
Proof using. induction 1; eauto using resolving_step_works. Qed.
End Works.


(** A worker that ends with what it holds. *)
Lemma ended_gone w h s : (end_worker w (drop_holder h s)).(workers) !! w = None.
Proof. unfold drop_holder. destruct h; [destruct (pool s)|]; apply lookup_delete_eq. Qed.
Lemma ended_free w h s : (end_worker w (drop_holder h s)).(permits) = s.(permits) + 1.
Proof. unfold drop_holder. destruct h; [destruct (pool s)|]; done. Qed.
Lemma ended_out w h s : (end_worker w (drop_holder h s)).(sv_outbox) = s.(sv_outbox).
Proof. unfold drop_holder. destruct h; [destruct (pool s)|]; done. Qed.

(** C30: The reply half of an exchange: a worker that finds a datagram on its socket takes the oldest. On a pooled socket one that does not come from the address it
    sent to is dropped, and the worker goes on waiting. Otherwise it has one reply for its own request, within the message limit, which, once sent, is the one message
    the server adds, after which the worker has ended and its permit is free; and the client that reads it gives the waiter of that
    id, and no other waiter, the SOCKS5 datagram of the source's address, port and data, and the waiter is done. There is no reply, and the worker has ended
    with its permit free, only when the datagram is longer than a reply carries, its record at its longest does not fit the message limit, or the nonces are used up or the cipher refuses. *)
Theorem udp_reply_delivered aead scfg pad rng w q h dest rest src data more ss ss' cs now entry :
  is_u8 scfg.(sv_max_pad) -> is_u8 ss.(link).(up_crypto).(decoy_max) -> same_keys ss.(link).(up_crypto) cs.(up).(up_crypto) ->
  is_u64 q.(q_xid) -> is_u16 src.(port) -> (holder_sock h).(inq) = (src, data) :: more ->
  ss.(workers) !! w = Some (Waiting q h dest rest) -> worker_step aead scfg w (Recv pad rng) ss = Some ss' ->
  cs.(pending) !! q.(q_xid) = Some entry -> entry.(reply) ∉ cs.(gone) ->
  if decide (is_pooled h = true /\ src <> dest) then
    exists h', ss'.(workers) !! w = Some (Waiting q h' dest rest) /\ (holder_sock h').(inq) = more
  else
    (exists h' blob, ss'.(workers) !! w = Some (Replying q h' blob) /\ len blob <= scfg.(sv_max_ws_binary) /\
       (exists ss2, worker_step aead scfg w (Delivered true) ss' = Some ss2 /\ ss2.(sv_outbox) = ss.(sv_outbox) ++ [Binary blob] /\
          ss2.(workers) !! w = None /\ ss2.(permits) = ss.(permits) + 1) /\
       exists cs', on_message aead now true (Some (Some (Binary blob))) cs = (cs', Ok Continue) /\
         cs'.(answers) = cs.(answers) ++
           [(entry.(reply), build_socks5_udp_datagram (canon_host (show_ip src.(ip))) src.(port) data)] /\
         cs'.(pending) = delete q.(q_xid) cs.(pending)) \/
    (ss'.(workers) !! w = None /\ ss'.(permits) = ss.(permits) + 1 /\
       refused aead scfg q.(q_xid) (show_ip src.(ip)) src.(port) data ss.(link)).
Proof.
  intros Hm Hd Hk Hx Hport Hq Hw Hstep Hpend Hg. unfold worker_step in Hstep. rewrite Hw in Hstep.
  unfold worker_recv in Hstep. rewrite Hq in Hstep. injection Hstep as <-. rewrite set_sock_pooled. case_decide as Hp.
  - destruct Hp as [Hpl Hne]. rewrite Hpl, bool_decide_eq_true_2 by done. simpl.
    eexists. split; [by rewrite lookup_insert_eq|by destruct h].
  - replace (is_pooled h && bool_decide (src <> dest)) with false.
    2: { symmetry. destruct (is_pooled h); [|done]. apply bool_decide_eq_false. naive_solver. }
    unfold worker_reply. destruct (sealed_reply _ _ _ _ _ _ _ _ _) as [u r] eqn:Hu.
    assert (F : (forall blob, r <> Ok blob) -> refused aead scfg q.(q_xid) (show_ip src.(ip)) src.(port) data ss.(link)).
    { intros Hn. exact (sealed_reply_fails aead _ _ _ _ _ _ _ _ _ _ Hm Hd (show_ip_short _) Hu Hn). }
    destruct r as [blob|e|]; [left|right; rewrite ended_gone, ended_free; auto..].
    destruct (sealed_reply_Ok aead _ _ _ _ _ _ _ _ _ _ _ Hm Hd Hk Hx (show_ip_str _) Hport Hu) as (Hlen & plain & Hun & Hdec).
    eexists _, blob. split; [cbn; by rewrite lookup_insert_eq|]. split; [done|]. split.
    + unfold worker_step, put_worker. cbn [workers set_workers]. rewrite lookup_insert_eq. eexists. split; [reflexivity|].
      unfold worker_sent. rewrite ended_gone, ended_free, ended_out. done.
    + cbn [on_message]. unfold on_binary. rewrite Hun, Hdec. eexists. split; [done|].
      apply deliver_answers; [done|done].
Qed.

(** *** Witnesses *)

Definition demo_server_cfg : UdpServerCfg := {| sv_max_pad := 8; sv_pad_mode := Random; sv_max_ws_binary := 4096 |}.
Definition demo_client : ClientSession := ClientSession_new demo_crypto no_globals.
Definition demo_forward := forward_cmd plain_aead zero_rng zero_rng true demo_udp_cfg (demo_cmd 1 10) demo_client.
Definition demo_blob : bytes := match demo_forward.1.(outbox) with [Binary b] => b | _ => [] end.
Definition demo_dest : SocketAddr := {| ip := V4 16909060; port := 123 |}.
Definition demo_other : SocketAddr := {| ip := V4 16909061; port := 123 |}.
(** The request is read, its worker spawned, its address found, and a pooled socket sends it. *)
Definition demo_serving : list ServerEvent :=
  [SvMessage (Some (Some (Binary demo_blob))) true; SvSpawn; SvWorker 0 (Resolved (Ok [demo_dest]));
   SvWorker 0 (Sent (Some {| fd := 7; inq := [] |}) true); SvWorker 0 (Arrival (demo_other, bs "stale")); SvWorker 0 (Arrival (demo_dest, bs "pong"));
   SvWorker 0 (Recv zero_rng zero_rng)].
Definition demo_server (n : nat) : ServerSession :=
  match run_server plain_aead demo_server_cfg (take n demo_serving) (ServerSession_new demo_crypto (Some (UdpSocketPool_new 1))) with
  | Some (s, None) => s
  | _ => ServerSession_new demo_crypto None
  end.


#[export] Instance fresh_socket_dec s ev : Decision (fresh_socket s ev).
Proof. destruct ev as [|[k|]| | | | |]; simpl; apply _. Defined.

(** A history that runs is a path of steps. *)
Fixpoint fresh_run (aead : Aead) (cfg : UdpServerCfg) (evs : list ServerEvent) (s : ServerSession) : bool :=
  match evs with
  | [] => true
  | ev :: evs =>
    match ev with SvWorker _ wev => bool_decide (fresh_socket s wev) | _ => true end &&
    match server_step aead cfg ev s with Some (s, _) => fresh_run aead cfg evs s | None => true end
  end.
Lemma run_server_rtc aead cfg evs s s' :
  run_server aead cfg evs s = Some (s', None) -> fresh_run aead cfg evs s = true -> rtc (server_step_to aead cfg) s s'.
Proof.
  revert s. induction evs as [|ev evs IH]; intros s; [by intros [= ->]|]. cbn [run_server fresh_run].
  destruct (server_step aead cfg ev s) as [[s1 r]|] eqn:Hs; [|done].
  destruct r as [[|b]| |]; try done. intros Hrun [Hf Hr]%andb_true_iff. eapply rtc_l; [|by apply IH].
  exists ev, (Ok Continue). split; [done|]. intros w wev ->. by apply bool_decide_eq_true in Hf.
Qed.

Lemma udp_server_resources_witness : (demo_server 4).(permits) = 511 /\ leases (held (demo_server 4).(workers)) = 1.
Proof.
  destruct (udp_server_resources plain_aead demo_server_cfg demo_crypto (Some 1) (demo_server 4)) as (_ & H1 & H2).
  - apply (run_server_rtc plain_aead demo_server_cfg (take 4 demo_serving)); vm_compute; reflexivity.
  - split; [|vm_compute; reflexivity]. assert (size (demo_server 4).(workers) = 1%nat) as E by (vm_compute; reflexivity).
    rewrite E in H1. unfold UDP_MUX_SERVER_MAX_INFLIGHT in H1. lia.
Defined.


Definition demo_question : Request := {| q_xid := 1; q_host := bs "example.org"; q_port := 123; q_payload := bs "hi" |}.
Definition demo_holder : UdpSockHolder := Pooled {| sock := {| fd := 7; inq := [(demo_dest, bs "pong")] |}; lease_v6 := false; recycle_on_drop := false |}.
(** The session after the stale datagram has been dropped. *)
Definition demo_waiting : ServerSession := match worker_step plain_aead demo_server_cfg 0 (Recv zero_rng zero_rng) (demo_server 6) with Some s => s | None => demo_server 6 end.
Definition demo_replied : ServerSession := match worker_step plain_aead demo_server_cfg 0 (Recv zero_rng zero_rng) demo_waiting with Some s => s | None => demo_waiting end.
Lemma udp_reply_delivered_witness :
  exists h' blob cs', demo_replied.(workers) !! 0 = Some (Replying demo_question h' blob) /\
    on_message plain_aead 0 true (Some (Some (Binary blob))) demo_forward.1 = (cs', Ok Continue) /\ cs'.(answers) = [(10, Ok ([0; 0; 0; 1; 1; 2; 3; 4; 0; 123] ++ bs "pong"))].
Proof.
  assert (demo_waiting.(workers) !! 0 = Some (Waiting demo_question demo_holder demo_dest [])) as Hw by (vm_compute; reflexivity).
  assert (worker_step plain_aead demo_server_cfg 0 (Recv zero_rng zero_rng) demo_waiting = Some demo_replied) as Hs by (vm_compute; reflexivity).
  assert (demo_forward.1.(pending) !! 1 = Some {| reply := 10; dns_expect := None |}) as Hp by (vm_compute; reflexivity).
  pose proof (udp_reply_delivered plain_aead demo_server_cfg zero_rng zero_rng 0 demo_question demo_holder demo_dest [] demo_dest (bs "pong") [] demo_waiting demo_replied demo_forward.1 0
    {| reply := 10; dns_expect := None |} ltac:(vm_compute; split; congruence) ltac:(vm_compute; split; congruence)
    ltac:(vm_compute; split; reflexivity) ltac:(vm_compute; split; congruence) ltac:(vm_compute; split; congruence) eq_refl Hw Hs Hp
    ltac:(apply (bool_decide_unpack _); vm_compute; reflexivity)) as H.
  rewrite decide_False in H by (intros [_ N]; by apply N). destruct H as [(h' & blob & Hr & _ & _ & cs' & Ho & Ha & _)|[N _]].
  - exists h', blob, cs'. split; [exact Hr|]. split; [exact Ho|]. rewrite Ha. vm_compute. reflexivity.
  - exfalso. vm_compute in N. discriminate N.
Defined.
