(* ===== verification/Camouflage.v ===== *)
(** [camouflage.rs]: the nginx-like pages, reason phrases and HTTP dates of the
    responses a probe gets. The calendar is checked against day-by-day counting. *)
From S2P Require Import Prelude Text.

Definition SERVER_TOKEN : str := bs "nginx/1.24.0".

(** [nginx_error_page!]. *)
Definition nginx_error_page (title : str) : str :=
  bs "<html>" ++ crlf ++
  bs "<head><title>" ++ title ++ bs "</title></head>" ++ crlf ++
  bs "<body>" ++ crlf ++
  bs "<center><h1>" ++ title ++ bs "</h1></center>" ++ crlf ++
  bs "<hr><center>nginx/1.24.0</center>" ++ crlf ++
  bs "</body>" ++ crlf ++
  bs "</html>" ++ crlf.

Definition BAD_REQUEST_HTML : str := nginx_error_page (bs "400 Bad Request").
Definition FORBIDDEN_HTML : str := nginx_error_page (bs "403 Forbidden").
Definition NOT_FOUND_HTML : str := nginx_error_page (bs "404 Not Found").
Definition NOT_ALLOWED_HTML : str := nginx_error_page (bs "405 Not Allowed").
Definition RANGE_NOT_SATISFIABLE_HTML : str := nginx_error_page (bs "416 Requested Range Not Satisfiable").
Definition INTERNAL_ERROR_HTML : str := nginx_error_page (bs "500 Internal Server Error").

Definition reason_phrase (code : Z) : str :=
  match code with
  | 200 => bs "OK"
  | 204 => bs "No Content"
  | 206 => bs "Partial Content"
  | 400 => bs "Bad Request"
  | 403 => bs "Forbidden"
  | 404 => bs "Not Found"
  | 405 => bs "Not Allowed"
  | 416 => bs "Requested Range Not Satisfiable"
  | _ => bs "Internal Server Error"
  end.

Definition error_page (code : Z) : Z * str :=
  match code with
  | 400 => (400, BAD_REQUEST_HTML)
  | 403 => (403, FORBIDDEN_HTML)
  | 405 => (405, NOT_ALLOWED_HTML)
  | 416 => (416, RANGE_NOT_SATISFIABLE_HTML)
  | 500 => (500, INTERNAL_ERROR_HTML)
  | _ => (404, NOT_FOUND_HTML)
  end.

(** ** Dates *)

Definition WEEKDAYS : list str := [bs "Sun"; bs "Mon"; bs "Tue"; bs "Wed"; bs "Thu"; bs "Fri"; bs "Sat"].
Definition MONTHS : list str :=
  [bs "Jan"; bs "Feb"; bs "Mar"; bs "Apr"; bs "May"; bs "Jun"; bs "Jul"; bs "Aug"; bs "Sep"; bs "Oct"; bs "Nov"; bs "Dec"].

(** [{n:0w}]. *)
Definition pad_dec (w : nat) (n : Z) : str :=
  let s := show_dec n in repeat 48 (w - length s) ++ s.

(** Year, month, day. [/] on [i64] truncates; the [u64] part divides non-negative numbers. *)
Definition civil_from_days (z : Z) : Z * Z * Z :=
  let z := z + 719468 in
  let era := Z.quot (if decide (0 <= z) then z else z - 146096) 146097 in
  let doe := z - era * 146097 in
  let yoe := (doe - doe / 1460 + doe / 36524 - doe / 146096) / 365 in
  let y := yoe + era * 400 in
  let doy := doe - (365 * yoe + yoe / 4 - yoe / 100) in
  let mp := (5 * doy + 2) / 153 in
  let day := doy - (153 * mp + 2) / 5 + 1 in
  let month := if decide (mp < 10) then mp + 3 else mp - 9 in
  (if decide (month <= 2) then y + 1 else y, month, day).

Definition format_http_date (unix_secs : Z) : result str :=
  let DAY := 86400 in
  let days := unix_secs / DAY in
  let tod := unix_secs mod DAY in
  let hh := tod / 3600 in
  let mm := tod mod 3600 / 60 in
  let ss := tod mod 60 in
  wday ← ix WEEKDAYS ((days + 4) mod 7);
  let '(year, month, day) := civil_from_days days in
  mon ← ix MONTHS (month - 1);
  Ok (wday ++ bs ", " ++ pad_dec 2 day ++ bs " " ++ mon ++ bs " " ++ pad_dec 4 year ++ bs " " ++
      pad_dec 2 hh ++ bs ":" ++ pad_dec 2 mm ++ bs ":" ++ pad_dec 2 ss ++ bs " GMT").

Definition INDEX_HTML : str :=
  bs "<!DOCTYPE html>" ++ [10] ++
  bs "<html lang=" ++ [34] ++ bs "en" ++ [34] ++ bs ">" ++ [10] ++
  bs "<head><meta charset=" ++ [34] ++ bs "utf-8" ++ [34] ++ bs "><title>Welcome</title></head>" ++ [10] ++
  bs "<body><h1>It works</h1><p>nginx/1.24.0</p></body>" ++ [10] ++
  bs "</html>" ++ [10].

Definition html_ok_index : Z * str := (200, INDEX_HTML).

(** [ws_reject_not_found]: status, headers in the order given to the builder, body. *)
Definition ws_reject_not_found (now : Z) : result (Z * list (str * str) * str) :=
  date ← format_http_date now;
  Ok (404,
      [(bs "Server", SERVER_TOKEN); (bs "Date", date); (bs "Content-Type", bs "text/html; charset=utf-8");
       (bs "Content-Length", show_dec (len NOT_FOUND_HTML)); (bs "Connection", bs "close")],
      NOT_FOUND_HTML).

(** ** The calendar, by counting *)

Definition leap (y : Z) : bool := (y mod 4 =? 0) && (negb (y mod 100 =? 0) || (y mod 400 =? 0)).
Definition month_days (y m : Z) : Z :=
  if m =? 2 then if leap y then 29 else 28
  else if (m =? 4) || (m =? 6) || (m =? 9) || (m =? 11) then 30 else 31.
Definition next_day (d : Z * Z * Z) : Z * Z * Z :=
  let '(y, m, d) := d in
  if d <? month_days y m then (y, m, d + 1) else if m <? 12 then (y, m + 1, 1) else (y + 1, 1, 1).
Definition day_of_1970 (n : nat) : Z * Z * Z := Nat.iter n next_day (1970, 1, 1).
Definition valid_date (d : Z * Z * Z) : Prop :=
  let '(y, m, d) := d in 1970 <= y /\ 1 <= m <= 12 /\ 1 <= d <= month_days y m.

Definition next_weekday (w : Z) : Z := if w =? 6 then 0 else w + 1.
(** 1970-01-01 was a Thursday. *)
Definition weekday_1970 (n : nat) : Z := Nat.iter n next_weekday 4.

Example rfc_example : text <$> format_http_date 784887151 = Ok "Tue, 15 Nov 1994 08:12:31 GMT"%string.
Proof. vm_compute. reflexivity. Qed.
Example leap_day : text <$> format_http_date 951782400 = Ok "Tue, 29 Feb 2000 00:00:00 GMT"%string.
Proof. vm_compute. reflexivity. Qed.

(** *** One era of 400 years *)

Ltac div_lia := Z.to_euclidean_division_equations; lia.

(** The first day of the March-based year [y] of an era. *)
Definition year_start (y : Z) : Z := 365 * y + y / 4 - y / 100.
Definition year_len (y : Z) : Z := if y =? 399 then 366 else year_start (y + 1) - year_start y.
Definition year_of (doe : Z) : Z := (doe - doe / 1460 + doe / 36524 - doe / 146096) / 365.
Definition month_of (doy : Z) : Z * Z :=
  let mp := (5 * doy + 2) / 153 in (if decide (mp < 10) then mp + 3 else mp - 9, doy - (153 * mp + 2) / 5 + 1).

Definition years : list Z := Z.of_nat <$> seq 0 400.
Definition year_days : list Z := Z.of_nat <$> seq 0 364.

Lemma in_range n y : 0 <= y < Z.of_nat n -> y ∈ Z.of_nat <$> seq 0 n.
Proof. intros. apply list_elem_of_fmap. exists (Z.to_nat y). split; [lia|]. apply elem_of_seq. lia. Qed.

Lemma year_of_mono a b : 0 <= a <= b -> year_of a <= year_of b.
Proof.
  intros H. unfold year_of. apply Z.div_le_mono; [lia|].
  assert (forall z, 0 <= z -> z / 146096 = z / 36524 / 4) as E by (intros; rewrite Z.div_div by lia; done).
  rewrite (E a), (E b) by lia. assert (a / 36524 <= b / 36524) as Hq by (apply Z.div_le_mono; lia).
  assert (a - a / 1460 <= b - b / 1460) by div_lia. revert Hq. generalize (a / 36524) (b / 36524). intros q q' Hq.
  assert (q - q / 4 <= q' - q' / 4) by div_lia. lia.
Qed.

Lemma year_bounds : forallb (fun y => (year_of (year_start y) =? y) && (year_of (year_start y + year_len y - 1) =? y)
  && Bool.eqb (year_len y =? 366) (leap (y + 1)) && (365 <=? year_len y) && (year_len y <=? 366) && (year_start y + year_len y <=? 146097)) years = true.
Proof. vm_compute. reflexivity. Qed.

Lemma year_facts y : 0 <= y < 400 ->
  year_of (year_start y) = y /\ year_of (year_start y + year_len y - 1) = y /\
  year_len y = (if leap (y + 1) then 366 else 365) /\ year_start y + year_len y <= 146097.
Proof.
  intros Hy. pose proof year_bounds as H. rewrite forallb_forall in H.
  specialize (H y). rewrite !andb_true_iff, !Z.leb_le, !Z.eqb_eq, Bool.eqb_true_iff in H.
  destruct H as (((((H1 & H2) & H3) & H4) & H5) & H6). { apply list_elem_of_In, (in_range 400). lia. }
  split_and!; [done| done| |done]. rewrite <- H3. destruct (year_len y =? 366) eqn:E; lia.
Qed.

Lemma year_of_mid y doy : 0 <= y < 400 -> 0 <= doy < year_len y -> year_of (year_start y + doy) = y.
Proof.
  intros Hy Hd. destruct (year_facts y Hy) as (H1 & H2 & _). assert (0 <= year_start y) by (unfold year_start; div_lia).
  pose proof (year_of_mono (year_start y) (year_start y + doy)). pose proof (year_of_mono (year_start y + doy) (year_start y + year_len y - 1)). lia.
Qed.

Lemma year_exists n doe : 0 <= doe < year_start (Z.of_nat n) -> (n < 400)%nat ->
  exists y, 0 <= y < Z.of_nat n /\ year_start y <= doe < year_start y + year_len y.
Proof.
  induction n as [|n IH]; intros Hd Hn; [change (year_start (Z.of_nat 0)) with 0 in Hd; lia|].
  destruct (decide (doe < year_start (Z.of_nat n))) as [Hl|Hl]; [destruct IH as (y & ? & ?); [lia..|exists y; split; [lia|done]]|].
  exists (Z.of_nat n). split; [lia|]. unfold year_len. rewrite (proj2 (Z.eqb_neq _ _)) by lia.
  replace (Z.of_nat n + 1) with (Z.of_nat (S n)) by lia. lia.
Qed.

Lemma era_year doe : 0 <= doe < 146097 -> exists y, 0 <= y < 400 /\ 0 <= doe - year_start y < year_len y.
Proof.
  intros H. destruct (decide (doe < year_start 399)) as [Hl|Hl].
  - destruct (year_exists 399 doe) as (y & Hy & Hd); [change (Z.of_nat 399) with 399; lia|lia|]. exists y. lia.
  - exists 399. change (year_len 399) with 366. change (year_start 399) with 145731 in *. lia.
Qed.

(** The date of day [doy] of the March-based year [y]. *)
Definition dated (y doy : Z) : Z * Z * Z :=
  let '(m, d) := month_of doy in (if decide (m <= 2) then y + 1 else y, m, d).

Lemma civil_era era y doy : 0 <= era -> 0 <= y < 400 -> 0 <= doy < year_len y ->
  civil_from_days (146097 * era + year_start y + doy - 719468) = dated (400 * era + y) doy.
Proof.
  intros He Hy Hd. pose proof (year_facts y Hy) as (_ & _ & _ & Hlen). assert (0 <= year_start y) as Hs by (unfold year_start; div_lia).
  unfold civil_from_days. match goal with |- context [decide (0 <= ?a)] => rewrite (decide_True (P := 0 <= a)) by lia end.
  replace (146097 * era + year_start y + doy - 719468 + 719468) with (146097 * era + (year_start y + doy)) by lia.
  rewrite (Z.quot_div_nonneg _ 146097), (Z.mul_comm 146097), Z.div_add_l, (Z.div_small (year_start y + doy)) by lia.
  replace (era * 146097 + (year_start y + doy) - (era + 0) * 146097) with (year_start y + doy) by lia.
  fold (year_of (year_start y + doy)). rewrite (year_of_mid y doy Hy Hd). fold (year_start y).
  replace (year_start y + doy - year_start y) with doy by lia. unfold dated, month_of.
  replace (y + (era + 0) * 400) with (400 * era + y) by lia. done.
Qed.

(** *** One day on *)

Lemma next_day_shift k y m d : (m = 2 -> d < 28) -> 
  next_day (k + y, m, d) = let '(y', m', d') := next_day (y, m, d) in (k + y', m', d').
Proof.
  intros H. unfold next_day, month_days. destruct (m =? 2) eqn:Hm.
  - apply Z.eqb_eq in Hm. rewrite !(proj2 (Z.ltb_lt d _)); [done|destruct (leap _); lia..].
  - destruct ((m =? 4) || (m =? 6) || (m =? 9) || (m =? 11)), (d <? _); try done; by destruct (m <? 12); [|rewrite Z.add_assoc].
Qed.

Lemma day_steps : forallb (fun doy => bool_decide (dated 0 (doy + 1) = next_day (dated 0 doy))
  && (negb ((month_of doy).1 =? 2) || ((month_of doy).2 <? 28))) year_days = true.
Proof. vm_compute. reflexivity. Qed.

Lemma dated_shift k y doy : dated (k + y) doy = let '(y', m, d) := dated y doy in (k + y', m, d).
Proof. unfold dated. destruct (month_of doy) as [m d]. by case_decide; rewrite ?Z.add_assoc. Qed.

Lemma dated_next y doy : 0 <= doy < 364 -> dated y (doy + 1) = next_day (dated y doy).
Proof.
  intros H. pose proof day_steps as Hs. rewrite forallb_forall in Hs. specialize (Hs doy).
  rewrite andb_true_iff, bool_decide_eq_true, orb_true_iff, negb_true_iff, Z.eqb_neq, Z.ltb_lt in Hs.
  destruct Hs as [H1 H2]; [apply list_elem_of_In, (in_range 364); lia|].
  replace y with (y + 0) by lia. rewrite !dated_shift, H1. unfold dated in *. destruct (month_of doy) as [m d]. simpl in H2.
  rewrite next_day_shift by lia. by destruct (next_day _) as [[? ?] ?].
Qed.

Lemma leap_shift era y : leap (400 * era + y) = leap y.
Proof.
  unfold leap. replace (400 * era + y) with (y + (100 * era) * 4) at 1 by lia. rewrite Z.mod_add by lia.
  replace (400 * era + y) with (y + (4 * era) * 100) at 1 by lia. rewrite Z.mod_add by lia.
  replace (400 * era + y) with (y + era * 400) by lia. by rewrite Z.mod_add by lia.
Qed.

Lemma dated_ends y : dated y 0 = (y, 3, 1) /\ dated y 364 = (y + 1, 2, 28) /\ dated y 365 = (y + 1, 2, 29).
Proof. by split_and!. Qed.

Lemma february_ends y : next_day (y, 2, 28) = (if leap y then (y, 2, 29) else (y, 3, 1)) /\ (leap y = true -> next_day (y, 2, 29) = (y, 3, 1)).
Proof. unfold next_day, month_days. simpl. by destruct (leap y). Qed.

Lemma civil_next z : 0 <= z -> civil_from_days (z + 1) = next_day (civil_from_days z).
Proof.
  intros Hz. set (era := (z + 719468) / 146097). set (doe := (z + 719468) mod 146097).
  assert (z + 719468 = 146097 * era + doe) as Ez by (apply Z.div_mod; lia).
  assert (0 <= doe < 146097) as Hdoe by (apply Z.mod_pos_bound; lia). assert (0 <= era) as Hera by (apply Z.div_pos; lia).
  clearbody era doe. destruct (era_year doe Hdoe) as (y & Hy & Hd). destruct (year_facts y Hy) as (_ & _ & Hlen & _).
  set (doy := doe - year_start y) in *. replace z with (146097 * era + year_start y + doy - 719468) by lia.
  rewrite civil_era by done. replace (146097 * era + year_start y + doy - 719468 + 1) with (146097 * era + year_start y + (doy + 1) - 719468) by lia.
  destruct (decide (doy + 1 < year_len y)) as [Hin|Hout].
  - rewrite civil_era by lia. destruct (decide (doy < 364)); [apply dated_next; lia|].
    destruct (leap (y + 1)) eqn:Hleap; [|lia]. replace doy with 364 by lia. destruct (dated_ends (400 * era + y)) as (_ & -> & H365).
    change (364 + 1) with 365. rewrite H365, (proj1 (february_ends _)), <- Z.add_assoc, leap_shift, Hleap. done.
  - assert (dated (400 * era + y + 1) 0 = next_day (dated (400 * era + y) doy)) as <-.
    { destruct (dated_ends (400 * era + y)) as (_ & H364 & H365). rewrite (proj1 (dated_ends _)). destruct (february_ends (400 * era + y + 1)) as [Hf Hl].
      rewrite <- Z.add_assoc, leap_shift in Hf, Hl. rewrite <- Z.add_assoc. replace doy with (year_len y - 1) by lia. rewrite Hlen.
      destruct (leap (y + 1)) eqn:Hleap; [change (366 - 1) with 365; rewrite H365|change (365 - 1) with 364; rewrite H364]; rewrite <- Z.add_assoc; [by rewrite Hl|by rewrite Hf]. }
    replace (doy + 1) with (year_len y) by lia. destruct (decide (y = 399)) as [->|Hne].
    + change (year_start 399) with 145731. change (year_len 399) with 366.
      replace (146097 * era + 145731 + 366 - 719468) with (146097 * (era + 1) + year_start 0 + 0 - 719468) by (change (year_start 0) with 0; lia).
      rewrite civil_era by (change (year_len 0) with 365 || idtac; lia). f_equal. lia.
    + replace (146097 * era + year_start y + year_len y - 719468) with (146097 * era + year_start (y + 1) + 0 - 719468)
        by (unfold year_len; rewrite (proj2 (Z.eqb_neq _ _)) by done; lia).
      destruct (year_facts (y + 1)) as (_ & _ & Hl' & _); [lia|]. rewrite civil_era; [f_equal; lia|lia..|rewrite Hl'; destruct (leap (y + 1 + 1)); lia].
Qed.

Lemma civil_counts n : civil_from_days (Z.of_nat n) = day_of_1970 n.
Proof.
  induction n as [|n IH]; [vm_compute; reflexivity|]. replace (Z.of_nat (S n)) with (Z.of_nat n + 1) by lia.
  rewrite civil_next, IH by lia. done.
Qed.

Lemma next_valid d : valid_date d -> valid_date (next_day d).
Proof.
  destruct d as [[y m] d]. intros (Hy & Hm & Hd). unfold next_day. destruct (d <? month_days y m) eqn:E; [unfold valid_date; lia|].
  assert (forall a b, 1 <= month_days a b) by (intros; unfold month_days; repeat case_match; lia).
  destruct (m <? 12) eqn:E'; unfold valid_date; split_and!; lia || done.
Qed.
Lemma day_valid n : valid_date (day_of_1970 n).
Proof. induction n as [|n IH]; [by vm_compute|by apply next_valid]. Qed.

Lemma weekday_counts n : weekday_1970 n = (Z.of_nat n + 4) mod 7.
Proof.
  induction n as [|n IH]; [done|]. change (weekday_1970 (S n)) with (next_weekday (weekday_1970 n)). rewrite IH. unfold next_weekday.
  destruct (_ =? 6) eqn:E; div_lia.
Qed.

Lemma show_dec_fuel_len k f n : (1 <= k)%nat -> 0 <= n < 10 ^ Z.of_nat k -> (length (show_dec_fuel f n) <= k)%nat.
Proof.
  revert n k. induction f as [|f IH]; intros n k Hk Hn; [simpl; lia|]. cbn [show_dec_fuel]. rewrite length_app. cbn [length].
  destruct (n / 10 =? 0) eqn:E; [simpl; lia|]. apply Z.eqb_neq in E.
  destruct k as [|[|k]]; [lia|change (10 ^ Z.of_nat 1) with 10 in Hn; rewrite Z.div_small in E by lia; done|].
  specialize (IH (n / 10) (S k)). replace (Z.of_nat (S (S k))) with (1 + Z.of_nat (S k)) in Hn by lia. rewrite Z.pow_add_r in Hn by lia.
  change (10 ^ 1) with 10 in Hn. generalize dependent (10 ^ Z.of_nat (S k)). intros p IH Hn.
  assert (0 <= n / 10 < p) by div_lia. lia.
Qed.
Lemma pad_dec_len w n : (1 <= w)%nat -> 0 <= n < 10 ^ Z.of_nat w -> len (pad_dec w n) = Z.of_nat w.
Proof.
  intros Hw Hn. pose proof (show_dec_fuel_len w 20 n Hw Hn) as H. unfold pad_dec, show_dec, len in *.
  rewrite length_app, repeat_length. lia.
Qed.

Lemma names_len : Forall (fun s : str => len s = 3) WEEKDAYS /\ Forall (fun s : str => len s = 3) MONTHS.
Proof. split; repeat constructor. Qed.

(** ** Properties *)

(** the date of a response is the calendar's: for every second count the formatter answers with
    the weekday, day, month and year reached by counting the days one by one from Thursday
    1 January 1970 under the Gregorian leap rule, and the time left in that day; the result is 29
    bytes up to the year 9999. *)
Theorem http_date_is_calendar secs :
  0 <= secs ->
  let n := Z.to_nat (secs / 86400) in
  let '(y, m, d) := day_of_1970 n in
  valid_date (y, m, d) /\
  exists wday mon hh mm ss date,
    ix WEEKDAYS (weekday_1970 n) = Ok (E := err) wday /\ ix MONTHS (m - 1) = Ok (E := err) mon /\
    secs = 86400 * Z.of_nat n + 3600 * hh + 60 * mm + ss /\ 0 <= hh < 24 /\ 0 <= mm < 60 /\ 0 <= ss < 60 /\
    date = wday ++ bs ", " ++ pad_dec 2 d ++ bs " " ++ mon ++ bs " " ++ pad_dec 4 y ++ bs " " ++
           pad_dec 2 hh ++ bs ":" ++ pad_dec 2 mm ++ bs ":" ++ pad_dec 2 ss ++ bs " GMT" /\
    format_http_date secs = Ok date /\
    (y <= 9999 -> len date = 29).
Proof.
  intros Hs n. assert (Z.of_nat n = secs / 86400) as En by (subst n; rewrite Z2Nat.id; [done|apply Z.div_pos; lia]).
  pose proof (civil_counts n) as Hc. pose proof (day_valid n) as Hv. destruct (day_of_1970 n) as [[y m] d]. split; [done|].
  destruct Hv as (Hy & Hm & Hd). assert (month_days y m <= 31) by (unfold month_days; repeat case_match; lia).
  destruct (ix_in (E := err) WEEKDAYS (weekday_1970 n)) as [wday Hw]; [rewrite weekday_counts; change (len WEEKDAYS) with 7; apply Z.mod_pos_bound; lia|].
  destruct (ix_in (E := err) MONTHS (m - 1)) as [mon Hmon]; [change (len MONTHS) with 12; lia|].
  pose proof (Z.mod_pos_bound secs 86400). set (tod := secs mod 86400) in *.
  eexists wday, mon, (tod / 3600), (tod mod 3600 / 60), (tod mod 60), _. split_and!; try done; try (subst tod; div_lia).
  - unfold format_http_date. fold tod. rewrite <- En, <- weekday_counts, Hw. cbn [mbind res_bind]. rewrite Hc, Hmon. done.
  - intros Hy'. apply ix_Ok in Hw as [_ Hw]. apply ix_Ok in Hmon as [_ Hmon]. destruct names_len as [Hnw Hnm].
    eapply Forall_lookup_1 in Hnw; [|done]. eapply Forall_lookup_1 in Hnm; [|done]. rewrite !len_app, Hnw, Hnm, !pad_dec_len by (lia || (subst tod; div_lia)).
    reflexivity.
Qed.

Lemma http_date_is_calendar_witness : text <$> format_http_date 1709251199 = Ok "Thu, 29 Feb 2024 23:59:59 GMT"%string.
Proof.
  pose proof (http_date_is_calendar 1709251199) as H. cbv zeta in H.
  assert (day_of_1970 (Z.to_nat (1709251199 / 86400)) = (2024, 2, 29)) as E by (vm_compute; reflexivity). rewrite E in H.
  destruct H as (_ & _ & _ & _ & _ & _ & date & _ & _ & _ & _ & _ & _ & _ & Hf & _); [done|].
  etransitivity; [exact (f_equal (fmap text) Hf)|]. rewrite <- Hf. vm_compute. reflexivity.
Defined.
