(* ===== verification/Incoming.v ===== *)
(** [incoming.rs]: the first HTTP request on a TLS stream, upgraded to a WebSocket or
    answered like an nginx site: the request head, byte ranges, static files, and the
    reverse proxy with its checks of the request target and of the origin. *)
From S2P Require Import Prelude Text Net Stream Crypto HttpConnect Camouflage.

Inductive WsHandshakeKind : Set := NewPath | LegacyPath.

(** An absolute path as its components. *)
Abbreviation path := (list str).

Record CamouflageServeConfig := {
  static_dir : option path;
  reverse_proxy : option str;
  allow_private : bool;
}.

Definition CAMOUFLAGE_ORIGIN_MAX_BYTES : Z := 1024 * 1024.
Definition CAMOUFLAGE_MAX_REQUEST_TARGET : Z := 2048.

(** ** The request *)

(** [httparse::Request]. *)
Record Request := {
  req_method : option str;
  req_path : option str;
  req_headers : list (str * bytes);
}.

(** [stream.read(&mut tmp)]: at most [n] bytes of what has arrived; none at the end. *)
Definition read (n : nat) : io bytes := fun c =>
  let '(b, s) := fill c.(buf) c.(src) in (set_input (drop n b) s c, Ok (take n b)).

(** Fuel: every turn consumes a byte of the input or ends the loop. *)
Fixpoint read_head_loop (fuel : nat) (buf : bytes) : io bytes :=
  if decide (65536 < len buf) then fail "http headers too large" else
  chunk ← read 2048;
  if decide (chunk = []) then fail "eof before http headers" else
  let buf := buf ++ chunk in
  if contains buf (crlf ++ crlf) then mret buf else
  match fuel with
  | O => lift Panic
  | S fuel => read_head_loop fuel buf
  end.
Definition read_http_head : io bytes := fun c => read_head_loop (length (input c)) [] c.

Fixpoint find_header (hs : list (str * bytes)) (name : str) : option bytes :=
  match hs with
  | [] => None
  | (n, v) :: hs => if eq_ignore_ascii_case n name then Some v else find_header hs name
  end.
Definition header_line (req : Request) (name : str) : option str :=
  v ← find_header req.(req_headers) name; if utf8_valid v then Some (trim v) else None.

Definition is_websocket_upgrade (req : Request) : bool :=
  match header_line req (bs "Upgrade") with
  | None => false
  | Some up =>
    if negb (eq_ignore_ascii_case up (bs "websocket")) then false else
    match header_line req (bs "Connection") with
    | None => false
    | Some conn =>
      if negb (existsb (fun token => eq_ignore_ascii_case (trim token) (bs "upgrade")) (split_char 44 [] conn)) then false
      else bool_decide (is_Some (header_line req (bs "Sec-WebSocket-Key")))
    end
  end.

Record CamoRequest := { method : str; target : str; range : option str }.
Definition is_head (r : CamoRequest) : bool := eq_ignore_ascii_case r.(method) (bs "HEAD").

(** ** Response heads *)

Record FileMeta := { mtime_secs : Z; file_len : Z }.

(** [{:x}] of a [u64]. *)
Definition show_hex64 (n : Z) : str := show_hex_fuel 16 n.
Definition nginx_etag (meta : FileMeta) : str :=
  [34] ++ show_hex64 meta.(mtime_secs) ++ bs "-" ++ show_hex64 meta.(file_len) ++ [34].

Record NginxHead := {
  status : Z;
  ctype : option str;
  content_length : option Z;
  file : option FileMeta;
  accept_ranges : bool;
  content_range : option str;
  cache_control : bool;
}.

Definition field (name value : str) : str := name ++ bs ": " ++ value ++ crlf.

Definition render (h : NginxHead) (date : str) : result str :=
  modified ← (match h.(file) with
              | Some f => d ← format_http_date f.(mtime_secs); Ok (field (bs "Last-Modified") d)
              | None => Ok []
              end);
  Ok (bs "HTTP/1.1 " ++ show_dec h.(status) ++ bs " " ++ reason_phrase h.(status) ++ crlf ++
      field (bs "Server") SERVER_TOKEN ++
      field (bs "Date") date ++
      (match h.(ctype) with Some t => field (bs "Content-Type") t | None => [] end) ++
      (match h.(content_length) with Some n => field (bs "Content-Length") (show_dec n) | None => [] end) ++
      modified ++
      field (bs "Connection") (bs "close") ++
      (match h.(file) with Some f => field (bs "ETag") (nginx_etag f) | None => [] end) ++
      (if h.(cache_control) then field (bs "Cache-Control") (bs "public, max-age=3600") else []) ++
      (if h.(accept_ranges) then field (bs "Accept-Ranges") (bs "bytes") else []) ++
      (match h.(content_range) with Some r => field (bs "Content-Range") r | None => [] end) ++
      crlf).

(** ** Byte ranges *)

Inductive RangeOutcome : Set := Whole | Partial (first last : Z) | Unsatisfiable.

(** The bounds on either side of the dash, trimmed. *)
Definition range_bounds (from to : str) (total : Z) : RangeOutcome :=
  if decide (from = []) then
    match parse_uint U64_MAX to with
    | None => Whole
    | Some n => if decide (n = 0) then Unsatisfiable else Partial (sat_sub total n) (total - 1)
    end
  else
    match parse_uint U64_MAX from with
    | None => Whole
    | Some first =>
      if decide (total <= first) then Unsatisfiable
      else if decide (to = []) then Partial first (total - 1)
      else
        match parse_uint U64_MAX to with
        | Some e => if decide (first <= e) then Partial first (Z.min e (total - 1)) else Unsatisfiable
        | None => Whole
        end
    end.

Definition parse_single_range (header : option str) (total : Z) : RangeOutcome :=
  match header with
  | None => Whole
  | Some raw =>
    if decide (total = 0) then Whole else
    let raw := trim raw in
    if decide (len raw < 7) then Whole else
    if negb (eq_ignore_ascii_case (take 6 raw) (bs "bytes=")) then Whole else
    let spec := trim (drop 6 raw) in
    if contains_char 44 spec then Whole else
    match split_once 45 spec with
    | None => Whole
    | Some (from, to) => range_bounds (trim from) (trim to) total
    end
  end.

(** ** The reverse proxy's request target *)

Definition bad_target_byte (b : Z) : bool := (b =? 92) || (b =? 13) || (b =? 10) || (b =? 0) || (b =? 32).
Definition encoded_separators : list str := [bs "%2e"; bs "%2E"; bs "%2f"; bs "%2F"; bs "%5c"; bs "%5C"].

Definition sanitize_camouflage_request_target (target : str) : option str :=
  if decide (target = []) then None else
  if starts_with target (bs "//") || starts_with target (bs "http://") || starts_with target (bs "https://")
     || bool_decide (target = bs "*") || negb (starts_with target (bs "/")) then None else
  if existsb bad_target_byte target then None else
  let '(path, query) := match split_once 63 target with Some (p, q) => (p, Some q) | None => (target, None) end in
  if existsb (contains path) encoded_separators then None else
  if existsb (fun seg => bool_decide (seg = bs "..")) (split_char 47 [] path) then None else
  let out := if decide (path = [] \/ path = bs "/") then bs "/" else path in
  let out := match query with Some q => out ++ bs "?" ++ q | None => out end in
  if decide (CAMOUFLAGE_MAX_REQUEST_TARGET < len out) then None else Some out.

(** ** The origin's address *)

Definition is_blocked_camouflage_ipv4 (a : Z) : bool :=
  let o k := byte_at (octets4 a) k in
  (* is_unspecified, is_loopback, is_multicast, is_broadcast *)
  if (a =? 0) || (o 0%nat =? 127) || in_rng 224 239 (o 0%nat) || (a =? U32_MAX) then true else
  if o 0%nat =? 0 then true else
  if o 0%nat =? 10 then true else
  if (o 0%nat =? 172) && in_rng 16 31 (o 1%nat) then true else
  if (o 0%nat =? 192) && (o 1%nat =? 168) then true else
  if (o 0%nat =? 169) && (o 1%nat =? 254) then true else
  if (o 0%nat =? 192) && (o 1%nat =? 0) && (o 2%nat =? 0) then true else
  if (o 0%nat =? 198) && ((o 1%nat =? 18) || (o 1%nat =? 19)) then true else
  if (o 0%nat =? 100) && in_rng 64 127 (o 1%nat) then true else
  240 <=? o 0%nat.

Definition is_blocked_camouflage_origin (ip : IpAddr) : bool :=
  match ip with
  | V4 a => is_blocked_camouflage_ipv4 a
  | V6 a =>
    match to_ipv4_mapped a with
    | Some v4 => is_blocked_camouflage_ipv4 v4
    | None =>
      let o k := byte_at (octets6 a) k in
      (* is_loopback, is_unspecified, is_multicast *)
      if (a =? 1) || (a =? 0) || (o 0%nat =? 255) then true else
      if (o 0%nat =? 252) || (o 0%nat =? 253) then true else
      (o 0%nat =? 254) && (Z.land (o 1%nat) 192 =? 128)
    end
  end.

Definition check_camouflage_peer (peer : IpAddr) (allow_private : bool) : result unit :=
  if allow_private || negb (is_blocked_camouflage_origin peer) then Ok tt
  else bail "camouflage upstream: private peer denied".

(** ** Static files *)

(** [Path::components] on a Unix path. *)
Inductive Component : Set := RootDir | CurDir | ParentDir | Normal (name : str).
#[export] Instance Component_eq_dec : EqDecision Component.
Proof. solve_decision. Defined.
Fixpoint part_components (is_first : bool) (parts : list str) : list Component :=
  match parts with
  | [] => []
  | p :: parts =>
    (if bool_decide (p = []) then []
     else if bool_decide (p = bs ".") then (if is_first then [CurDir] else [])
     else if bool_decide (p = bs "..") then [ParentDir] else [Normal p]) ++ part_components false parts
  end.
Definition components (s : str) : list Component :=
  (if starts_with s (bs "/") then [RootDir] else []) ++ part_components true (split_char 47 [] s).

Definition is_ascii_alphabetic (c : Z) : bool := in_rng 65 90 c || in_rng 97 122 c.

Definition static_url_segment_is_safe (seg : str) : bool :=
  if bool_decide (seg = []) || contains_char 92 seg || contains_char 0 seg then false else
  if (2 <=? len seg) && is_ascii_alphabetic (byte_at seg 0) && (byte_at seg 1 =? 58) then false else
  match components seg with [Normal _] => true | _ => false end.

(** The file system: [canonicalize], [metadata] as "is a file" and its mtime, [read]. *)
Record Fs := {
  canonicalize : path -> option path;
  metadata : path -> option (bool * Z);
  read_file : path -> option bytes;
}.

Definition path_starts_with (p base : path) : bool := bool_decide (take (length base) p = base).

(** [out.push(seg)] for every segment: each one is a single normal component. *)
Fixpoint push_segments (out : path) (segs : list str) : option path :=
  match segs with
  | [] => Some out
  | seg :: segs =>
    if decide (seg = []) then push_segments out segs
    else if static_url_segment_is_safe seg then push_segments (out ++ [seg]) segs else None
  end.

Definition first_part (c : Z) (s : str) : str := match split_once c s with Some (p, _) => p | None => s end.

Definition safe_static_path_under_base (fs : Fs) (base : path) (url_path : str) : option path :=
  base_canon ← canonicalize fs base;
  let p := trim_start_matches (Z.eqb 47) (first_part 63 url_path) in
  let rel := if bool_decide (p = []) || ends_with p (bs "/") then bs "index.html" else p in
  out ← push_segments base_canon (split_char 47 [] rel);
  if negb (path_starts_with out base_canon) then None else
  canon ← canonicalize fs out;
  if path_starts_with canon base_canon then Some canon else None.

Definition guess_mime (ext : str) : str :=
  let e := to_ascii_lowercase ext in
  let named s := bool_decide (e = bs s) in
  if named "html"%string || named "htm"%string then bs "text/html; charset=utf-8"
  else if named "css"%string then bs "text/css; charset=utf-8"
  else if named "js"%string then bs "application/javascript; charset=utf-8"
  else if named "json"%string then bs "application/json; charset=utf-8"
  else if named "png"%string then bs "image/png"
  else if named "jpg"%string || named "jpeg"%string then bs "image/jpeg"
  else if named "ico"%string then bs "image/x-icon"
  else if named "svg"%string then bs "image/svg+xml"
  else if named "txt"%string then bs "text/plain; charset=utf-8"
  else if named "xml"%string then bs "application/xml; charset=utf-8"
  else bs "application/octet-stream".

(** [Path::extension]: after the last dot of the file name, unless that dot starts it. *)
Definition extension (p : path) : option str :=
  name ← last p;
  if decide (name = bs "..") then None else
  '(before, after) ← rsplit_once 46 name;
  if decide (before = []) then None else Some after.

Record StaticFile := { sf_ctype : str; sf_body : bytes; sf_meta : FileMeta }.

Definition serve_static_file (fs : Fs) (dir : path) (url_path : str) : option StaticFile :=
  fs_path ← safe_static_path_under_base fs dir url_path;
  '(is_file, mtime) ← metadata fs fs_path;
  if negb is_file then None else
  data ← read_file fs fs_path;
  let ext := match extension fs_path with Some e => if utf8_valid e then e else [] | None => [] end in
  Some {| sf_ctype := guess_mime ext; sf_body := data; sf_meta := {| mtime_secs := mtime; file_len := len data |} |}.

(** ** The network and the origin *)

(** What a read of the origin's socket brings: data (none at its end), an error, or nothing
    before the deadline of the exchange. Reads bring at most 64 KiB. *)
Inductive UpEvent : Set := UpData (d : bytes) | UpError (e : err) | UpLate.

Record Upstream := { peer_addr : option IpAddr; takes_request : bool; events : list UpEvent }.

Record Network := {
  lookup_host : str -> Z -> option (list IpAddr);
  connect : str -> Z -> result Upstream;
}.

(** [http::Uri] and its authority, as the code queries them. *)
Record Authority := { auth_host : str; auth_port : option Z; auth_str : str }.
Record OriginUri := { origin_scheme : option str; authority : option Authority }.

(** The client's stream, and the requests sent to origins, with the address connected to. *)
Record Front := { client : Conn; origins : list (IpAddr * bytes) }.
Definition on_client {A} (m : io A) : ST Front err A := fun f =>
  let '(c, r) := m f.(client) in ({| client := c; origins := f.(origins) |}, r).
Definition to_origin (peer : IpAddr) (req : bytes) : ST Front err unit :=
  modify (fun f => {| client := f.(client); origins := f.(origins) ++ [(peer, req)] |}).

Definition camouflage_origin_resolvable (net : Network) (host : str) (port : Z) (allow_private : bool) : result unit :=
  if allow_private then Ok tt else
  addrs ← context "camouflage upstream resolve"%string (lookup_host net host port);
  if decide (addrs = []) then bail "camouflage upstream: no addresses" else
  if forallb is_blocked_camouflage_origin addrs then bail "camouflage upstream: private origin denied" else Ok tt.

Definition IO_ERROR : err := "io".

(** The origin's answer copied to the client. *)
Fixpoint relay (evs : list UpEvent) (origin_bytes client_bytes_written : Z) : io unit :=
  match evs with
  | [] | UpLate :: _ =>
    if client_bytes_written =? 0 then fail "camouflage upstream read timeout" else mret tt
  | UpError e :: _ => if client_bytes_written =? 0 then fail e else mret tt
  | UpData d :: evs =>
    if decide (d = []) then mret tt else
    let n := len d in
    let next_total := sat_add USIZE_MAX origin_bytes n in
    if decide (CAMOUFLAGE_ORIGIN_MAX_BYTES < next_total) then
      if client_bytes_written =? 0 then fail "camouflage upstream response too large" else
      let room := sat_sub CAMOUFLAGE_ORIGIN_MAX_BYTES origin_bytes in
      if decide (0 < room) then write_all (take (Z.to_nat (Z.min room n)) d) IO_ERROR else mret tt
    else
      _ ← write_all d IO_ERROR;
      relay evs next_total (client_bytes_written + n)
  end.

Definition origin_request (method target host : str) : bytes :=
  method ++ bs " " ++ target ++ bs " HTTP/1.1" ++ crlf ++
  bs "Host: " ++ host ++ crlf ++
  bs "Accept: */*" ++ crlf ++
  bs "Accept-Encoding: identity" ++ crlf ++
  bs "Connection: close" ++ crlf ++ crlf.

Inductive Accepted : Type :=
| WebSocket (kind : WsHandshakeKind) (http_host : option str) (remainder : bytes) (max_frame max_message : Z)
| Answered.

Section Incoming.
Context (fs : Fs) (net : Network).
(** [str::parse::<http::Uri>]. *)
Context (parse_origin : str -> option OriginUri).
(** [httparse]: the request and the length of its head when it is complete. *)
Context (parse_request : bytes -> result (option (Request * Z))).
(** [tungstenite]'s answer to a key. *)
Context (derive_accept_key : bytes -> str).
(** The clock, and the time the process first served a synthetic page. *)
Context (now synthetic_mtime : Z).

Definition send_head (h : NginxHead) : io unit :=
  date ← lift (format_http_date now);
  text ← lift (render h date);
  write_all text IO_ERROR.

Definition write_camouflage_status (code : Z) : io unit :=
  let '(code, body) := error_page code in
  _ ← send_head {| status := code; ctype := Some (bs "text/html; charset=utf-8"); content_length := Some (len body);
                   file := None; accept_ranges := false; content_range := None; cache_control := false |};
  write_all body IO_ERROR.

Definition write_no_content : io unit :=
  send_head {| status := 204; ctype := None; content_length := None; file := None;
               accept_ranges := false; content_range := None; cache_control := true |}.

(** The head and the payload of the answer to a request for [body]. *)
Definition file_response (range : option str) (ctype : str) (body : bytes) (meta : FileMeta) : result (NginxHead * bytes) :=
  let total := len body in
  match parse_single_range range total with
  | Whole =>
    Ok ({| status := 200; ctype := Some ctype; content_length := Some total; file := Some meta;
           accept_ranges := true; content_range := None; cache_control := true |}, body)
  | Partial first last =>
    part ← slice body first (last + 1);
    Ok ({| status := 206; ctype := Some ctype; content_length := Some (len part); file := Some meta; accept_ranges := false;
           content_range := Some (bs "bytes " ++ show_dec first ++ bs "-" ++ show_dec last ++ bs "/" ++ show_dec total);
           cache_control := true |}, part)
  | Unsatisfiable =>
    let page := (error_page 416).2 in
    Ok ({| status := 416; ctype := Some (bs "text/html; charset=utf-8"); content_length := Some (len page); file := None;
           accept_ranges := false; content_range := Some (bs "bytes */" ++ show_dec total); cache_control := false |}, page)
  end.

Definition write_file_response (req : CamoRequest) (ctype : str) (body : bytes) (meta : FileMeta) : io unit :=
  '(head, payload) ← lift (file_response req.(range) ctype body meta);
  _ ← send_head head;
  if is_head req then mret tt else write_all payload IO_ERROR.

Definition write_synthetic_response (req : CamoRequest) (ctype : str) (body : bytes) : io unit :=
  write_file_response req ctype body {| mtime_secs := synthetic_mtime; file_len := len body |}.

Definition forward_http_get (method path origin : str) (allow_private : bool) : ST Front err unit :=
  sanitized ← lift (context "camouflage: rejected request-target"%string (sanitize_camouflage_request_target path));
  uri ← lift (context "camouflage-url parse"%string (parse_origin origin));
  if negb (bool_decide (uri.(origin_scheme) = Some (bs "http"))) then throw "camouflage-url must be http://host:port (TLS to origin not implemented)"%string else
  authority ← lift (context "camouflage-url: missing host"%string uri.(authority));
  let host := authority.(auth_host) in
  if decide (host = []) then throw "camouflage-url: empty host"%string else
  let port := default 80 authority.(auth_port) in
  _ ← lift (camouflage_origin_resolvable net host port allow_private);
  upstream ← lift (connect net host port);
  peer ← lift (context "camouflage upstream peer address"%string upstream.(peer_addr));
  _ ← lift (check_camouflage_peer peer allow_private);
  let m := if eq_ignore_ascii_case method (bs "HEAD") then bs "HEAD" else bs "GET" in
  _ ← to_origin peer (origin_request m sanitized authority.(auth_str));
  if negb upstream.(takes_request) then throw IO_ERROR else
  on_client (relay upstream.(events) 0 0).

Definition serve_camouflage_http (req : CamoRequest) (camo : CamouflageServeConfig) : ST Front err unit :=
  let index := write_synthetic_response req (bs "text/html; charset=utf-8") html_ok_index.2 in
  match camo.(reverse_proxy) with
  | Some origin => fun f =>
    match forward_http_get req.(method) req.(target) origin camo.(allow_private) f with
    | (f, Err _) => on_client index f
    | (f, r) => (f, r)
    end
  | None =>
    match camo.(static_dir) with
    | Some dir =>
      match serve_static_file fs dir req.(target) with
      | Some f => on_client (write_file_response req f.(sf_ctype) f.(sf_body) f.(sf_meta))
      | None => on_client (write_camouflage_status 404)
      end
    | None =>
      let path := first_part 63 req.(target) in
      if decide (path = bs "/") then on_client index
      else if decide (path = bs "/robots.txt") then
        on_client (write_synthetic_response req (bs "text/plain; charset=utf-8") (bs "User-agent: *" ++ [10] ++ bs "Disallow:" ++ [10]))
      else if decide (path = bs "/favicon.ico") then on_client write_no_content
      else on_client (write_camouflage_status 404)
    end
  end.

Definition switching_protocols (accept : str) : io unit :=
  date ← lift (format_http_date now);
  write_all (bs "HTTP/1.1 101 Switching Protocols" ++ crlf ++
             field (bs "Server") SERVER_TOKEN ++ field (bs "Date") date ++ field (bs "Connection") (bs "upgrade") ++
             field (bs "Upgrade") (bs "websocket") ++ field (bs "Sec-WebSocket-Accept") accept ++ crlf) IO_ERROR.

Definition refuse (code : Z) : ST Front err Accepted := _ ← on_client (write_camouflage_status code); mret Answered.

(** Which configured path the request names, if any. *)
Definition upgrade_kind (path ws_path : str) (legacy_path_auth : bool) (token : str) : option WsHandshakeKind :=
  if decide (path = ws_path) then Some NewPath
  else if legacy_path_auth then
    if secret_eq path (bs "/b/" ++ token) then Some LegacyPath else None
  else None.

(** Everything after the head is read. *)
Definition respond (buf : bytes) (ws_path : str) (legacy_path_auth : bool) (token : str)
    (camo : CamouflageServeConfig) (max_ws_binary_cap : Z) : ST Front err Accepted :=
  parsed ← lift (parse_request buf);
  '(req, header_len) ← lift (context "incomplete http headers"%string parsed);
  let method := default (bs "GET") req.(req_method) in
  let path := default (bs "/") req.(req_path) in
  let remainder := if decide (header_len < len buf) then drop (Z.to_nat header_len) buf else [] in
  if is_websocket_upgrade req then
    match upgrade_kind path ws_path legacy_path_auth token with
    | None => refuse 404
    | Some kind =>
      key ← lift (context "websocket: missing key"%string (header_line req (bs "Sec-WebSocket-Key")));
      let http_host := header_line req (bs "Host") in
      let ver := default (bs "13") (header_line req (bs "Sec-WebSocket-Version")) in
      if negb (bool_decide (ver = bs "13")) then refuse 400 else
      _ ← on_client (switching_protocols (derive_accept_key key));
      let max_frame := sat_add USIZE_MAX (sat_mul USIZE_MAX max_ws_binary_cap 4) (64 * 1024) in
      mret (WebSocket kind http_host remainder max_frame (sat_mul USIZE_MAX max_frame 2))
    end
  else if eq_ignore_ascii_case method (bs "GET") || eq_ignore_ascii_case method (bs "HEAD") then
    _ ← serve_camouflage_http {| method := method; target := path; range := header_line req (bs "Range") |} camo;
    mret Answered
  else refuse 405.

Definition accept_websocket_or_camouflage (ws_path : str) (legacy_path_auth : bool) (token : str)
    (camo : CamouflageServeConfig) (max_ws_binary_cap : Z) : ST Front err Accepted :=
  buf ← on_client read_http_head;
  respond buf ws_path legacy_path_auth token camo max_ws_binary_cap.
End Incoming.

(** ** Splitting *)

Definition without (c : Z) (s : str) : Prop := Forall (fun x => x <> c) s.

Lemma split_char_skip c p acc r : without c p -> split_char c acc (p ++ c :: r) = (rev acc ++ p) :: split_char c [] r.
Proof.
  intros Hp. revert acc. induction Hp as [|x p Hx Hp IH]; intros acc; simpl; [by rewrite Z.eqb_refl, app_nil_r|].
  rewrite (proj2 (Z.eqb_neq x c) Hx), IH. simpl. by rewrite <- app_assoc.
Qed.

Lemma split_char_last c p acc : without c p -> split_char c acc p = [rev acc ++ p].
Proof.
  intros Hp. revert acc. induction Hp as [|x p Hx Hp IH]; intros acc; simpl; [by rewrite app_nil_r|].
  rewrite (proj2 (Z.eqb_neq x c) Hx), IH. simpl. by rewrite <- app_assoc.
Qed.

Lemma split_char_join c l : l <> [] -> Forall (without c) l -> split_char c [] (join [c] l) = l.
Proof.
  intros Hne Hl. induction Hl as [|s l Hs Hl IH]; [done|]. destruct l as [|s' l]; [by apply split_char_last|].
  change (join [c] (s :: s' :: l)) with (s ++ c :: join [c] (s' :: l)). rewrite split_char_skip, IH by done. done.
Qed.

Lemma split_char_parts c acc s : without c acc -> Forall (without c) (split_char c acc s).
Proof.
  revert acc. induction s as [|x s IH]; intros acc Ha; simpl; [repeat constructor; by apply Forall_rev|].
  destruct (x =? c) eqn:E; [constructor; [by apply Forall_rev|apply IH; constructor]|]. apply IH. constructor; [lia|done].
Qed.

Lemma split_once_app c p r : without c p -> split_once c (p ++ c :: r) = Some (p, r).
Proof.
  intros Hp. unfold split_once. rewrite find_char_skip by done. cbn. rewrite take_app_length.
  rewrite (cons_middle c p r), app_assoc, drop_app_length'; [done|]. rewrite length_app. simpl. lia.
Qed.
Lemma split_once_none c s : without c s -> split_once c s = None.
Proof.
  intros H. unfold split_once. destruct (find_char c s) as [n|] eqn:Hf; [|done].
  apply find_char_Some in Hf as [_ Hf]. by apply (Forall_lookup_1 _ _ _ _ H) in Hf.
Qed.
Lemma split_once_Some c s p q : split_once c s = Some (p, q) -> s = p ++ c :: q.
Proof.
  unfold split_once. destruct (find_char c s) as [n|] eqn:Hf; [|done]. cbn. intros [= <- <-].
  apply find_char_Some in Hf as [_ Hf]. by rewrite take_drop_middle.
Qed.

(** ** Static files *)

(** A component that names an entry of its directory, and nothing else on any system. *)
Definition plain (s : str) : Prop :=
  s <> [] /\ without 47 s /\ without 92 s /\ without 0 s /\ s <> bs "." /\ s <> bs ".." /\
  ((2 <=? len s) && is_ascii_alphabetic (byte_at s 0) && (byte_at s 1 =? 58)) = false.

Lemma without_contains c s : without c s <-> contains_char c s = false.
Proof.
  split; [apply contains_char_false|]. intros H. apply Forall_forall. intros x Hx ->. by rewrite (contains_char_true c s) in H.
Qed.

Lemma components_segment s : without 47 s -> s <> [] ->
  components s = [if decide (s = bs ".") then CurDir else if decide (s = bs "..") then ParentDir else Normal s].
Proof.
  intros Hs Hne. unfold components. rewrite split_char_last by done. simpl.
  destruct s as [|x s]; [done|]. apply Forall_cons in Hs as [Hx _].
  assert (starts_with (x :: s) (bs "/") = false) as ->.
  { unfold starts_with. apply bool_decide_eq_false. simpl. by intros [= ->]. }
  rewrite !bool_decide_decide. repeat (case_decide; simpl; try done).
Qed.

Lemma segment_safe s : without 47 s -> static_url_segment_is_safe s = true <-> plain s.
Proof.
  intros Hs. unfold static_url_segment_is_safe, plain. rewrite !without_contains. rewrite without_contains in Hs. rewrite Hs.
  destruct (decide (s = [])) as [->|Hne]; [split; [done|by intros [? _]]|]. rewrite (bool_decide_eq_false_2 _ Hne).
  destruct (contains_char 92 s), (contains_char 0 s), (_ && _); simpl; try (split; [done|intuition done]).
  rewrite components_segment by (done || by apply without_contains).
  repeat case_decide; naive_solver.
Qed.

Lemma push_segments_Some out segs p :
  Forall (without 47) segs -> push_segments out segs = Some p -> exists asked, p = out ++ asked /\ Forall plain asked.
Proof.
  intros Hs. revert out. induction Hs as [|s segs Hs _ IH]; intros out; simpl.
  - intros [= <-]. exists []. by rewrite app_nil_r.
  - case_decide; [apply IH|]. destruct (static_url_segment_is_safe s) eqn:Hsafe; [|done].
    apply segment_safe in Hsafe; [|done]. intros (asked & -> & Ha)%IH. exists (s :: asked). rewrite <- app_assoc. split; [done|by constructor].
Qed.

Lemma push_segments_plain out segs : Forall plain segs -> push_segments out segs = Some (out ++ segs).
Proof.
  intros Hs. revert out. induction Hs as [|s segs Hs _ IH]; intros out; simpl; [by rewrite app_nil_r|].
  rewrite decide_False by apply Hs. rewrite (proj2 (segment_safe s (proj1 (proj2 Hs))) Hs), IH. by rewrite <- app_assoc.
Qed.

Lemma path_starts_prefix p base : path_starts_with p base = true <-> exists rest, p = base ++ rest.
Proof.
  unfold path_starts_with. rewrite bool_decide_eq_true. split.
  - intros H. exists (drop (length base) p). by rewrite <- H at 1; rewrite take_drop.
  - intros [rest ->]. apply take_app_length.
Qed.

Lemma static_path_sound fs dir url p :
  safe_static_path_under_base fs dir url = Some p ->
  exists base asked rest, canonicalize fs dir = Some base /\ Forall plain asked /\ canonicalize fs (base ++ asked) = Some p /\ p = base ++ rest.
Proof.
  unfold safe_static_path_under_base. intros (base & Hb & H)%bind_Some. apply bind_Some in H as (out & Ho & H).
  apply push_segments_Some in Ho as (asked & -> & Ha); [|apply split_char_parts; constructor].
  destruct (path_starts_with (base ++ asked) base); [|done]. simpl in H. apply bind_Some in H as (canon & Hc & H).
  destruct (path_starts_with canon base) eqn:Hp; [|done]. injection H as <-. apply path_starts_prefix in Hp as [rest Hp].
  by exists base, asked, rest.
Qed.

Lemma join_plain segs : segs <> [] -> Forall plain segs ->
  exists x s c, join (bs "/") segs = x :: s /\ x <> 47 /\ last (join (bs "/") segs) = Some c /\ c <> 47.
Proof.
  intros Hne Hs. induction Hs as [|s segs (Hn & Hw & _) Hs IH]; [done|].
  destruct s as [|x s]; [done|]. apply Forall_cons in Hw as Hw'. destruct Hw' as [Hx _].
  destruct segs as [|s' segs].
  - simpl. destruct (last (x :: s)) as [c|] eqn:Hl; [|by apply last_None in Hl]. exists x, s, c. split_and!; try done.
    apply last_Some_elem_of in Hl. unfold without in Hw. rewrite Forall_forall in Hw. by apply Hw.
  - destruct IH as (x' & t & c & Hj & _ & Hl & Hc); [done|]. exists x, (s ++ bs "/" ++ join (bs "/") (s' :: segs)), c.
    split_and!; try done. change (join (bs "/") ((x :: s) :: s' :: segs)) with ((x :: s) ++ bs "/" ++ join (bs "/") (s' :: segs)).
    rewrite Hj in *. rewrite last_app, last_app, Hl. done.
Qed.

Lemma trim_start_plain (p : Z -> bool) x s : p x = false -> trim_start_matches p (x :: s) = x :: s.
Proof. intros H. unfold trim_start_matches. simpl. by rewrite H. Qed.

Lemma ends_with_last s c d : last s = Some c -> c <> d -> ends_with s [d] = false.
Proof.
  intros Hl Hc. apply last_Some in Hl as [l ->]. unfold ends_with. rewrite length_app. simpl.
  rewrite drop_app_length' by lia. apply andb_false_iff. right. apply bool_decide_eq_false. congruence.
Qed.

Lemma first_part_query c p q : without c p -> first_part c (p ++ c :: q) = p /\ first_part c p = p.
Proof. intros Hp. unfold first_part. by rewrite split_once_app, split_once_none. Qed.

Lemma static_path_complete fs dir base segs query :
  canonicalize fs dir = Some base -> segs <> [] -> Forall plain segs -> Forall (without 63) segs ->
  canonicalize fs (base ++ segs) = Some (base ++ segs) ->
  safe_static_path_under_base fs dir (bs "/" ++ join (bs "/") segs ++ match query with Some q => bs "?" ++ q | None => [] end) = Some (base ++ segs).
Proof.
  intros Hb Hne Hp Hq Hc. destruct (join_plain segs Hne Hp) as (x & s & c & Hj & Hx & Hl & Hcn).
  assert (without 63 (bs "/" ++ join (bs "/") segs)) as Hw.
  { constructor; [done|]. clear Hc Hj Hl Hne Hp. induction Hq as [|t segs Ht Hq IH]; [constructor|]. destruct segs as [|t' segs]; [done|].
    apply Forall_app. split; [done|]. by constructor. }
  unfold safe_static_path_under_base. rewrite Hb. cbn [mbind option_bind].
  assert (first_part 63 (bs "/" ++ join (bs "/") segs ++ match query with Some q => bs "?" ++ q | None => [] end) = bs "/" ++ join (bs "/") segs) as ->.
  { destruct query as [q|]; rewrite app_assoc; [by apply (first_part_query 63 _ q)|]. rewrite app_nil_r. by apply (first_part_query 63 _ []). }
  change (trim_start_matches (Z.eqb 47) (bs "/" ++ join (bs "/") segs)) with (trim_start_matches (Z.eqb 47) (join (bs "/") segs)).
  rewrite Hj, trim_start_plain by (apply Z.eqb_neq; congruence). rewrite <- Hj.
  rewrite bool_decide_eq_false_2 by (by rewrite Hj). rewrite (ends_with_last _ c 47) by done. simpl orb. cbv iota.
  rewrite split_char_join by (done || (eapply Forall_impl; [exact Hp|]; by intros ? (_ & ? & _))).
  rewrite push_segments_plain by done. cbn [mbind option_bind].
  rewrite (proj2 (path_starts_prefix (base ++ segs) base)) by (by exists segs). simpl. rewrite Hc. cbn [mbind option_bind].
  by rewrite (proj2 (path_starts_prefix (base ++ segs) base)) by (by exists segs).
Qed.

(** ** Byte ranges *)

Lemma range_bounds_in from to total first last :
  0 < total -> range_bounds from to total = Partial first last -> 0 <= first <= last /\ last < total.
Proof.
  intros Ht. unfold range_bounds. assert (forall s n, parse_uint U64_MAX s = Some n -> 0 <= n) as Hp by (intros s n; apply parse_uint_nonneg).
  case_decide.
  - destruct (parse_uint U64_MAX to) as [n|] eqn:Hn; [|done]. apply Hp in Hn. case_decide; [done|]. intros [= <- <-]. unfold sat_sub. lia.
  - destruct (parse_uint U64_MAX from) as [a|] eqn:Ha; [|done]. apply Hp in Ha. case_decide; [done|].
    case_decide; [intros [= <- <-]; lia|]. destruct (parse_uint U64_MAX to) as [b|]; [|done]. case_decide; [|done].
    intros [= <- <-]. lia.
Qed.

Lemma parse_range_in h total first last :
  0 <= total -> parse_single_range h total = Partial first last -> 0 <= first <= last /\ last < total.
Proof.
  intros Ht. unfold parse_single_range. destruct h as [raw|]; [|done]. case_decide; [done|]. case_decide; [done|].
  destruct (negb _); [done|]. destruct (contains_char _ _); [done|]. destruct (split_once _ _) as [[from to]|]; [|done].
  apply range_bounds_in. lia.
Qed.

Definition digits (s : str) : Prop := Forall (fun c => is_ascii_digit c = true) s.

Lemma digits_clean s : digits s -> graphic s /\ without 44 s /\ without 45 s.
Proof. intros H. split_and!; (eapply Forall_impl; [exact H|]); simpl; intros c [? ?]%in_rng_iff; lia. Qed.

(** The header of a single range of digits. *)
Lemma parse_range_digits from to total :
  digits from -> digits to -> 0 < total ->
  parse_single_range (Some (bs "bytes=" ++ from ++ bs "-" ++ to)) total = range_bounds from to total.
Proof.
  intros (Hf & Hfc & Hfd)%digits_clean (Ht & Htc & _)%digits_clean Htot. unfold parse_single_range. rewrite decide_False by lia.
  assert (graphic (from ++ bs "-" ++ to)) as Hg by (apply Forall_app; split; [done|]; by constructor).
  rewrite (trim_graphic (bs "bytes=" ++ _)) by (apply Forall_app; split; [by repeat constructor|done]).
  rewrite decide_False by (rewrite !len_app; pose proof (len_nonneg from); pose proof (len_nonneg to); change (len (bs "bytes=")) with 6; change (len (bs "-")) with 1; lia).
  change (take 6 (bs "bytes=" ++ from ++ bs "-" ++ to)) with (bs "bytes="). change (drop 6 (bs "bytes=" ++ from ++ bs "-" ++ to)) with (from ++ bs "-" ++ to).
  change (negb (eq_ignore_ascii_case (bs "bytes=") (bs "bytes="))) with false. cbv iota.
  rewrite trim_graphic by done. rewrite contains_char_false by (apply Forall_app; split; [done|]; by constructor).
  change (from ++ bs "-" ++ to) with (from ++ 45 :: to). rewrite split_once_app by done. by rewrite !trim_graphic by done.
Qed.

Lemma number_digits n : 0 <= n <= U64_MAX -> digits (show_dec n) /\ show_dec n <> [] /\ parse_uint U64_MAX (show_dec n) = Some n.
Proof.
  intros Hn. destruct (show_dec_fuel_digits 20 n) as [H1 H2]. split_and!; [done|apply H2; lia|].
  apply parse_show_dec; [done|]. unfold U64_MAX in Hn. lia.
Qed.

Lemma range_bounds_numbers a b n total :
  0 <= a <= U64_MAX -> 0 <= b <= U64_MAX -> 0 < n <= U64_MAX -> 0 < total ->
  range_bounds (show_dec a) (show_dec b) total =
    (if decide (a < total /\ a <= b) then Partial a (Z.min b (total - 1)) else Unsatisfiable) /\
  range_bounds (show_dec a) [] total = (if decide (a < total) then Partial a (total - 1) else Unsatisfiable) /\
  range_bounds [] (show_dec n) total = Partial (Z.max 0 (total - n)) (total - 1).
Proof.
  intros Ha Hb Hn Ht. destruct (number_digits a Ha) as (_ & Ha0 & Ha1). destruct (number_digits b Hb) as (_ & Hb0 & Hb1).
  destruct (number_digits n) as (_ & Hn0 & Hn1); [lia|]. unfold range_bounds. rewrite Ha1, Hb1, Hn1.
  rewrite !(decide_False (P := show_dec a = [])), !(decide_False (P := show_dec b = [])), !(decide_True (P := [] = [])) by done.
  rewrite (decide_False (P := n = 0)) by lia. split_and!; [| |done]; repeat case_decide; done || lia.
Qed.

(** ** Responses *)

Lemma format_http_date_Ok secs : 0 <= secs -> exists date, format_http_date secs = Ok date.
Proof.
  intros Hs. unfold format_http_date. set (n := Z.to_nat (secs / 86400)).
  assert (secs / 86400 = Z.of_nat n) as -> by (subst n; rewrite Z2Nat.id; [done|apply Z.div_pos; lia]).
  destruct (ix_in (E := err) WEEKDAYS ((Z.of_nat n + 4) mod 7)) as [w ->]; [change (len WEEKDAYS) with 7; apply Z.mod_pos_bound; lia|].
  cbn [mbind res_bind]. rewrite civil_counts. pose proof (day_valid n) as Hv. destruct (day_of_1970 n) as [[y m] d]. destruct Hv as (_ & Hm & _).
  destruct (ix_in (E := err) MONTHS (m - 1)) as [mon ->]; [change (len MONTHS) with 12; lia|]. by eexists.
Qed.

Definition good_meta (o : option FileMeta) : Prop := match o with Some f => 0 <= f.(mtime_secs) | None => True end.

Lemma render_Ok h date : good_meta h.(file) -> exists head, render h date = Ok head.
Proof.
  unfold render. destruct (file h) as [f|]; [|by eexists]. intros Hf. destruct (format_http_date_Ok _ Hf) as [d ->]. by eexists.
Qed.

Lemma send_head_Ok now h c k : 0 <= now -> good_meta h.(file) -> c.(writes_left) = S k ->
  exists date head, format_http_date now = Ok date /\ render h date = Ok head /\
    send_head now h c = ({| buf := c.(Stream.buf); src := c.(src); sent := c.(sent) ++ head; writes_left := k |}, Ok tt).
Proof.
  intros Hn Hf Hk. destruct (format_http_date_Ok now Hn) as [date Hd]. destruct (render_Ok h date Hf) as [head Hh].
  exists date, head. split_and!; [done..|]. unfold send_head. rewrite Hd. erewrite st_bind_step by reflexivity. rewrite Hh.
  erewrite st_bind_step by reflexivity. unfold write_all. by rewrite Hk.
Qed.

Lemma file_response_Ok header ctype body meta :
  exists h payload, file_response header ctype body meta = Ok (h, payload) /\ h.(content_length) = Some (len payload) /\
    (h.(file) = Some meta \/ h.(file) = None) /\
    match parse_single_range header (len body) with
    | Whole => h.(status) = 200 /\ payload = body /\ h.(content_range) = None
    | Partial first last =>
      0 <= first <= last /\ last < len body /\ h.(status) = 206 /\ payload = sub body first (last + 1) /\ len payload = last - first + 1 /\
      h.(content_range) = Some (bs "bytes " ++ show_dec first ++ bs "-" ++ show_dec last ++ bs "/" ++ show_dec (len body))
    | Unsatisfiable => h.(status) = 416 /\ h.(content_range) = Some (bs "bytes */" ++ show_dec (len body))
    end.
Proof.
  unfold file_response. destruct (parse_single_range header (len body)) as [|a b|] eqn:Hr.
  - eexists _, _. split_and!; try done. by left.
  - destruct (parse_range_in _ _ _ _ (len_nonneg body) Hr) as [Hab Hb]. rewrite slice_Ok by lia. cbn [mbind res_bind].
    eexists _, _. split_and!; try done; try lia; [by left|]. rewrite len_sub by lia. lia.
  - eexists _, _. split_and!; try done. by right.
Qed.

(** ** The reverse proxy *)

(** A request target that stays one origin-form target wherever it is written. *)
Definition clean_target (t : str) : Prop :=
  starts_with t (bs "/") = true /\ starts_with t (bs "//") = false /\
  Forall (fun b => bad_target_byte b = false) t /\
  bs ".." ∉ split_char 47 [] (first_part 63 t) /\
  Forall (fun e => contains (first_part 63 t) e = false) encoded_separators /\
  len t <= CAMOUFLAGE_MAX_REQUEST_TARGET.

Lemma existsb_false {A} (p : A -> bool) l : existsb p l = false -> Forall (fun x => p x = false) l.
Proof. induction l as [|x l IH]; simpl; [constructor|]. intros [? ?]%orb_false_iff. constructor; [done|by apply IH]. Qed.

Lemma sanitize_clean t s : sanitize_camouflage_request_target t = Some s -> s = t /\ clean_target t.
Proof.
  unfold sanitize_camouflage_request_target. case_decide; [done|].
  destruct (starts_with t (bs "//")) eqn:H2; [done|]. destruct (_ || negb (starts_with t (bs "/"))) eqn:Hs; [done|].
  apply orb_false_iff in Hs as [_ Hs%negb_false_iff]. destruct (existsb bad_target_byte t) eqn:Hb; [done|].
  destruct (match split_once 63 t with Some (p, q) => (p, Some q) | None => (t, None) end) as [p q] eqn:Hp.
  assert (p = first_part 63 t /\ t = p ++ match q with Some q => bs "?" ++ q | None => [] end) as [Ep Et].
  { unfold first_part. destruct (split_once 63 t) as [[p' q']|] eqn:Hsp; injection Hp as <- <-; [|by rewrite app_nil_r].
    by apply split_once_Some in Hsp. }
  destruct (existsb (contains p) encoded_separators) eqn:He; [done|]. destruct (existsb _ (split_char 47 [] p)) eqn:Hd; [done|].
  assert (p <> []) as Hne.
  { intros ->. destruct q as [q|]; [|by rewrite Et in Hs]. rewrite Et in Hs. done. }
  assert ((if decide (p = [] \/ p = bs "/") then bs "/" else p) = p) as -> by (case_decide; naive_solver).
  assert (match q with Some q => p ++ bs "?" ++ q | None => p end = t) as -> by (rewrite Et; destruct q; [done|by rewrite app_nil_r]).
  case_decide; [done|]. intros [= <-]. split; [done|]. rewrite Ep in *. split_and!; try done.
  - by apply existsb_false.
  - intros Hin. apply existsb_false in Hd. rewrite Forall_forall in Hd. apply Hd in Hin. by rewrite bool_decide_eq_true_2 in Hin.
  - by apply existsb_false.
  - lia.
Qed.

(** The data the origin sends. *)
Definition answer_of (evs : list UpEvent) : bytes :=
  concat ((fun e => match e with UpData d => d | _ => [] end) <$> evs).

Lemma relay_spec evs n c c' r :
  0 <= n <= CAMOUFLAGE_ORIGIN_MAX_BYTES -> relay evs n n c = (c', r) ->
  r <> Panic /\ exists w rest, answer_of evs = w ++ rest /\ c'.(sent) = c.(sent) ++ w /\ n + len w <= CAMOUFLAGE_ORIGIN_MAX_BYTES.
Proof.
  revert n c. induction evs as [|e evs IH]; intros n c Hn.
  { cbn [relay]. intros H. split; [by destruct (n =? 0); injection H as <- <-|]. exists [], []. rewrite !app_nil_r.
    destruct (n =? 0); injection H as <- <-; split_and!; done || (rewrite len_nil; lia). }
  assert (forall r0, r0 <> Panic -> (c, r0) = (c', r) -> r <> Panic /\ exists w rest, answer_of (e :: evs) = w ++ rest /\ sent c' = sent c ++ w /\ n + len w <= CAMOUFLAGE_ORIGIN_MAX_BYTES) as Hstop.
  { intros r0 Hr0 [= <- <-]. split; [done|]. exists [], (answer_of (e :: evs)). rewrite app_nil_r, len_nil. split_and!; done || lia. }
  destruct e as [d|e|]; cbn [relay]; [|destruct (n =? 0); by apply Hstop..].
  case_decide; [by apply Hstop|]. change (answer_of (UpData d :: evs)) with (d ++ answer_of evs) in *. case_decide as Hbig.
  - destruct (n =? 0); [by apply Hstop|]. case_decide; [|by apply Hstop]. unfold write_all. destruct (writes_left c) as [|k]; [by apply Hstop|].
    intros [= <- <-]. split; [done|]. set (m := Z.to_nat _). exists (take m d), (drop m d ++ answer_of evs).
    rewrite app_assoc, take_drop. split_and!; [done..|]. unfold len. rewrite length_take. unfold sat_sub in *. lia.
  - unfold mbind, st_bind, write_all. destruct (writes_left c) as [|k]; [by apply Hstop|].
    intros Hr. assert (sat_add USIZE_MAX n (len d) = n + len d) as Ea
      by (unfold sat_add, USIZE_MAX, U64_MAX, CAMOUFLAGE_ORIGIN_MAX_BYTES in *; lia).
    rewrite Ea in *. apply IH in Hr as (Hr & w & rest & Hw & Hs & Hl); [|pose proof (len_nonneg d); lia]. split; [done|].
    exists (d ++ w), rest. rewrite <- app_assoc, <- Hw. split_and!; [done|by rewrite Hs; simpl; rewrite <- app_assoc|rewrite len_app; lia].
Qed.

(** What happens at the origins while a request is served: at most one clean request, to a public address
    unless private ones are allowed, and a bounded part of the answer. *)
Definition forwarded (origin : option str) (parse_origin : str -> option OriginUri) (allow : bool) (path : str) (f f' : Front) : Prop :=
  f'.(origins) = f.(origins) \/
  exists peer m host o u a, f'.(origins) = f.(origins) ++ [(peer, origin_request m path host)] /\
    origin = Some o /\ parse_origin o = Some u /\ u.(authority) = Some a /\ u.(origin_scheme) = Some (bs "http") /\ host = a.(auth_str) /\
    (m = bs "GET" \/ m = bs "HEAD") /\ clean_target path /\ (allow = true \/ is_blocked_camouflage_origin peer = false).

Lemma lift_cases {S E A B} (m : res E A) (k : A -> ST S E B) (s s' : S) r :
  (lift m ≫= k) s = (s', r) -> (exists a, m = Ok a /\ k a s = (s', r)) \/ (s' = s /\ (exists e, m = Err e /\ r = Err e)) \/ (s' = s /\ m = Panic /\ r = Panic).
Proof. unfold mbind, st_bind, lift. destruct m as [a|e|]; [left; by exists a|intros [= <- <-]; right; left; by eauto|intros [= <- <-]; by right; right]. Qed.

Lemma resolvable_safe net host port allow : camouflage_origin_resolvable net host port allow <> Panic.
Proof. unfold camouflage_origin_resolvable. destruct allow; [done|]. destruct (lookup_host net host port); [|done]. cbn. case_decide; [done|]. by destruct (forallb _ _). Qed.

Lemma check_peer_Ok peer allow u : check_camouflage_peer peer allow = Ok u -> allow = true \/ is_blocked_camouflage_origin peer = false.
Proof. unfold check_camouflage_peer. destruct allow, (is_blocked_camouflage_origin peer); simpl; auto; done. Qed.
Lemma check_peer_safe peer allow : check_camouflage_peer peer allow <> Panic.
Proof. unfold check_camouflage_peer. by destruct (_ || _). Qed.
Lemma context_safe {A} (e : err) (o : option A) : context e o <> Panic.
Proof. by destruct o. Qed.

Definition written (f f' : Front) : Prop :=
  exists w, f'.(client).(sent) = f.(client).(sent) ++ w /\ len w <= CAMOUFLAGE_ORIGIN_MAX_BYTES.

Lemma forward_spec net parse_origin method path origin allow f f' r :
  (forall h p, connect net h p <> Panic) ->
  forward_http_get net parse_origin method path origin allow f = (f', r) ->
  r <> Panic /\ forwarded (Some origin) parse_origin allow path f f' /\ written f f'.
Proof.
  intros Hconn. assert (forall e, @Err err unit e <> Panic /\ forwarded (Some origin) parse_origin allow path f f /\ written f f) as Hstop.
  { intros e. split_and!; [done|by left|]. exists []. by rewrite app_nil_r. }
  unfold forward_http_get.
  intros [(t & Ht%context_Ok & H)|[(-> & e & _ & ->)|(_ & []%context_safe & _)]]%lift_cases; [|apply Hstop].
  apply sanitize_clean in Ht as [-> Hclean].
  apply lift_cases in H as [(u & Hu%context_Ok & H)|[(-> & e & _ & ->)|(_ & []%context_safe & _)]]; [|apply Hstop].
  destruct (decide (origin_scheme u = Some (bs "http"))) as [Hsch|Hsch];
    [rewrite (bool_decide_eq_true_2 _ Hsch) in H|rewrite (bool_decide_eq_false_2 _ Hsch) in H; injection H as <- <-; apply Hstop]. simpl negb in H. cbv iota in H.
  apply lift_cases in H as [(a & Ha%context_Ok & H)|[(-> & e & _ & ->)|(_ & []%context_safe & _)]]; [|apply Hstop].
  case_decide; [injection H as <- <-; apply Hstop|].
  apply lift_cases in H as [(? & _ & H)|[(-> & e & _ & ->)|(_ & []%resolvable_safe & _)]]; [|apply Hstop].
  apply lift_cases in H as [(up & _ & H)|[(-> & e & _ & ->)|(_ & Hp & _)]]; [|apply Hstop|by apply Hconn in Hp].
  apply lift_cases in H as [(peer & _ & H)|[(-> & e & _ & ->)|(_ & []%context_safe & _)]]; [|apply Hstop].
  apply lift_cases in H as [(? & Hpeer%check_peer_Ok & H)|[(-> & e & _ & ->)|(_ & []%check_peer_safe & _)]]; [|apply Hstop].
  set (m := if eq_ignore_ascii_case method (bs "HEAD") then bs "HEAD" else bs "GET") in *.
  set (f1 := {| client := client f; origins := origins f ++ [(peer, origin_request m path (auth_str a))] |}).
  assert (forall f2, origins f2 = origins f1 -> forwarded (Some origin) parse_origin allow path f f2) as Hfw.
  { intros f2 E. right. exists peer, m, (auth_str a), origin, u, a. split_and!; try done. subst m. destruct (eq_ignore_ascii_case _ _); auto. }
  change ((if negb (takes_request up) then throw IO_ERROR else on_client (relay (events up) 0 0)) f1 = (f', r)) in H.
  destruct (takes_request up); simpl in H; [|injection H as <- <-; split_and!; [done|by apply Hfw|exists []; by rewrite app_nil_r]].
  unfold on_client in H. destruct (relay (events up) 0 0 (client f1)) as [c' r'] eqn:Hr. injection H as <- <-.
  apply relay_spec in Hr as (Hnp & w & rest & _ & Hs & Hl); [|unfold CAMOUFLAGE_ORIGIN_MAX_BYTES; lia].
  split_and!; [done|by apply Hfw|]. exists w. split; [done|lia].
Qed.

(** ** The head *)

Lemma read_spec n c : (0 < n)%nat ->
  exists chunk c', read n c = (c', Ok chunk) /\ input c = chunk ++ input c' /\ c'.(sent) = c.(sent) /\ c'.(writes_left) = c.(writes_left) /\
    (chunk = [] -> input c = []) .
Proof.
  intros Hn. unfold read. pose proof (fill_input (Stream.buf c) (src c)) as Hf. destruct (fill (Stream.buf c) (src c)) as [b s] eqn:Hfill.
  eexists _, _. split_and!; [done| |done|done|].
  - rewrite input_set, app_assoc, take_drop. by rewrite Hf.
  - intros Ht. assert (b = []) as -> by (destruct b; [done|by destruct n; [lia|]]). by apply fill_nil in Hfill as [? _].
Qed.

Lemma read_head_spec fuel acc c c' r :
  (length (input c) <= fuel)%nat -> read_head_loop fuel acc c = (c', r) ->
  r <> Panic /\ c'.(sent) = c.(sent) /\ c'.(writes_left) = c.(writes_left) /\
  forall b, r = Ok b -> contains b (crlf ++ crlf) = true /\ acc ++ input c = b ++ input c'.
Proof.
  revert acc c. induction fuel as [|fuel IH]; intros acc c Hl; cbn [read_head_loop];
    (case_decide; [by intros [= <- <-]|]); destruct (read_spec 2048 c) as (chunk & c1 & Hr & Hi & Hs & Hw & He); try lia;
    rewrite (st_bind_step _ _ _ _ _ Hr); (case_decide as Hc; [by intros [= <- <-]|]);
    (destruct (contains (acc ++ chunk) (crlf ++ crlf)) eqn:Hcon; [intros [= <- <-]; split_and!; [done..|]; intros b [= <-]; by rewrite <- app_assoc, <- Hi|]).
  - destruct (input c); [by destruct chunk|simpl in Hl; lia].
  - intros H'. assert (1 <= length chunk)%nat by (destruct chunk; [done|simpl; lia]). rewrite Hi, length_app in Hl.
    apply IH in H' as (Hp & Hs' & Hw' & Hb); [|lia]. split_and!; [done|congruence|congruence|]. intros b (? & Hb')%Hb. split; [done|].
    by rewrite Hi, app_assoc.
Qed.

Lemma on_client_inv {A} (m : io A) f f' r : on_client m f = (f', r) -> m f.(client) = (f'.(client), r) /\ f'.(origins) = f.(origins).
Proof. unfold on_client. destruct (m (client f)). by intros [= <- <-]. Qed.

Lemma upgrade_kind_Some path ws legacy token kind :
  upgrade_kind path ws legacy token = Some kind ->
  (kind = NewPath /\ path = ws) \/ (kind = LegacyPath /\ legacy = true /\ path = bs "/b/" ++ token).
Proof.
  unfold upgrade_kind. case_decide; [intros [= <-]; by left|]. destruct legacy; [|done].
  destruct (secret_eq path _) eqn:Hs; [|done]. apply secret_eq_true in Hs. intros [= <-]. by right.
Qed.

Section Served.
Context (fs : Fs) (net : Network) (parse_origin : str -> option OriginUri).
Context (parse_request : bytes -> result (option (Request * Z))) (derive_accept_key : bytes -> str).
Context (now synthetic_mtime : Z).

Abbreviation accept := (accept_websocket_or_camouflage fs net parse_origin parse_request derive_accept_key now synthetic_mtime).
Abbreviation answer := (respond fs net parse_origin parse_request derive_accept_key now synthetic_mtime).
Abbreviation serve_http := (serve_camouflage_http fs net parse_origin now synthetic_mtime).

(** The clocks are past 1970, and what is called neither panics nor reports earlier times. *)
Definition sane : Prop :=
  0 <= now /\ 0 <= synthetic_mtime /\ (forall p b t, metadata fs p = Some (b, t) -> 0 <= t) /\
  (forall h p, connect net h p <> Panic) /\ (forall b, parse_request b <> Panic).

(** The answer that is due to a request: its status, type and body, and whether a HEAD request gets the body as well. *)
Record Page := { p_code : Z; p_ctype : option str; p_body : bytes; p_on_head : bool }.
Definition HTML : str := bs "text/html; charset=utf-8".
Definition error_due (code : Z) : Page := {| p_code := (error_page code).1; p_ctype := Some HTML; p_body := (error_page code).2; p_on_head := true |}.
(** A document, or the one range of it that is asked for. *)
Definition content_due (range : option str) (ctype : str) (body : bytes) : Page :=
  match parse_single_range range (len body) with
  | Whole => {| p_code := 200; p_ctype := Some ctype; p_body := body; p_on_head := false |}
  | Partial first last => {| p_code := 206; p_ctype := Some ctype; p_body := sub body first (last + 1); p_on_head := false |}
  | Unsatisfiable => {| p_code := 416; p_ctype := Some HTML; p_body := (error_page 416).2; p_on_head := false |}
  end.
(** The site: the files of the directory, or else a front page, a [robots.txt] that allows everything and an empty icon. *)
Definition site_due (dir : option (list str)) (url : str) (range : option str) : Page :=
  match dir with
  | Some dir => match serve_static_file fs dir url with Some f => content_due range f.(sf_ctype) f.(sf_body) | None => error_due 404 end
  | None =>
    let path := first_part 63 url in
    if decide (path = bs "/") then content_due range HTML html_ok_index.2
    else if decide (path = bs "/robots.txt") then content_due range (bs "text/plain; charset=utf-8") (bs "User-agent: *" ++ [10] ++ bs "Disallow:" ++ [10])
    else if decide (path = bs "/favicon.ico") then {| p_code := 204; p_ctype := None; p_body := []; p_on_head := false |}
    else error_due 404
  end.

(** A complete response on the client's stream. *)
Definition answered (page : Page) (head_only : bool) (f f' : Front) : Prop :=
  f'.(origins) = f.(origins) /\
  exists h date head,
    h.(status) = page.(p_code) /\ h.(ctype) = page.(p_ctype) /\ format_http_date now = Ok date /\ render h date = Ok head /\
    (h.(content_length) = Some (len page.(p_body)) \/ page.(p_code) = 204 /\ page.(p_body) = []) /\
    f'.(client).(sent) = f.(client).(sent) ++ head ++ (if head_only && negb page.(p_on_head) then [] else page.(p_body)).

Lemma status_answered code head_only f k :
  0 <= now -> f.(client).(writes_left) = S (S k) ->
  exists f', on_client (write_camouflage_status now code) f = (f', Ok tt) /\ answered (error_due code) head_only f f'.
Proof.
  intros Hn Hw. unfold write_camouflage_status, error_due. destruct (error_page code) as [code' body].
  set (h := {| status := code'; ctype := _ |}). destruct (send_head_Ok now h (client f) (S k)) as (date & head & Hd & Hh & Hs); [done|done|done|].
  unfold on_client. rewrite (st_bind_step _ _ _ _ _ Hs). eexists. split; [reflexivity|]. split; [done|].
  exists h, date, head. split_and!; try done; [by left|]. rewrite andb_false_r. simpl. by rewrite <- app_assoc.
Qed.

Lemma file_response_due range ct body meta :
  exists h, file_response range ct body meta = Ok (h, p_body (content_due range ct body)) /\ h.(status) = p_code (content_due range ct body) /\
    h.(ctype) = p_ctype (content_due range ct body) /\ h.(content_length) = Some (len (p_body (content_due range ct body))) /\
    (h.(file) = Some meta \/ h.(file) = None).
Proof using.
  unfold file_response, content_due. destruct (parse_single_range range (len body)) as [|a b|] eqn:Hr.
  - eexists. split_and!; try done. by left.
  - destruct (parse_range_in _ _ _ _ (len_nonneg body) Hr) as [Hab Hb]. rewrite slice_Ok by lia. cbn [mbind res_bind].
    eexists. split_and!; try done. by left.
  - eexists. split_and!; try done. by right.
Qed.
Lemma content_on_head range ct body : p_on_head (content_due range ct body) = false.
Proof using. unfold content_due. by case_match. Qed.

Lemma file_answered req ctype body meta f k :
  0 <= now -> 0 <= meta.(mtime_secs) -> f.(client).(writes_left) = S (S k) ->
  exists f', on_client (write_file_response now req ctype body meta) f = (f', Ok tt) /\ answered (content_due req.(range) ctype body) (is_head req) f f'.
Proof.
  intros Hn Hm Hw. unfold write_file_response. destruct (file_response_due (range req) ctype body meta) as (h & Hr & Hst & Hct & Hc & Hf).
  rewrite Hr. destruct (send_head_Ok now h (client f) (S k)) as (date & head & Hd & Hh & Hs); [done|by destruct Hf as [-> | ->]|done|].
  unfold on_client. erewrite st_bind_step by reflexivity. cbv beta iota. rewrite (st_bind_step _ _ _ _ _ Hs).
  destruct (is_head req) eqn:Hi; (eexists; split; [reflexivity|]; split; [done|]; exists h, date, head; rewrite content_on_head; split_and!; try done; [by left|]).
  - simpl. by rewrite app_nil_r.
  - simpl. by rewrite <- app_assoc.
Qed.

Lemma no_content_answered head_only f k :
  0 <= now -> f.(client).(writes_left) = S k ->
  exists f', on_client (write_no_content now) f = (f', Ok tt) /\ answered {| p_code := 204; p_ctype := None; p_body := []; p_on_head := false |} head_only f f'.
Proof.
  intros Hn Hw. unfold write_no_content, on_client. set (h := {| status := 204; ctype := _ |}).
  destruct (send_head_Ok now h (client f) k) as (date & head & Hd & Hh & Hs); [done..|]. rewrite Hs. eexists. split; [reflexivity|]. split; [done|].
  exists h, date, head. split_and!; try done; [by right|]. simpl. by destruct head_only; rewrite app_nil_r.
Qed.

Lemma serve_static_mtime dir url f : sane -> serve_static_file fs dir url = Some f -> 0 <= f.(sf_meta).(mtime_secs).
Proof.
  intros (_ & _ & Hm & _) (p & _ & H)%bind_Some. apply bind_Some in H as ([b t] & Ht & H). destruct b; [|done]. simpl in H.
  apply bind_Some in H as (data & _ & [= <-]). by eapply Hm.
Qed.

(** Without a reverse proxy, every page is a complete response. *)
Lemma serve_answered req camo f k :
  sane -> camo.(reverse_proxy) = None -> f.(client).(writes_left) = S (S k) ->
  exists f', serve_http req camo f = (f', Ok tt) /\ answered (site_due camo.(static_dir) req.(target) req.(range)) (is_head req) f f'.
Proof.
  intros Hsane Hp Hw. pose proof Hsane as (Hn & Hsm & _). unfold serve_camouflage_http, site_due. rewrite Hp.
  destruct (static_dir camo) as [dir|].
  - destruct (serve_static_file fs dir (target req)) as [file|] eqn:Hf; [|by eapply status_answered].
    eapply file_answered; [done|by eapply serve_static_mtime|done].
  - case_decide; [by eapply file_answered|]. case_decide; [by eapply file_answered|]. case_decide; [|by eapply status_answered].
    by eapply no_content_answered.
Qed.
Lemma remainder_drop n (buf : bytes) : (if decide (n < len buf) then drop (Z.to_nat n) buf else []) = drop (Z.to_nat n) buf.
Proof. case_decide; [done|]. symmetry. apply drop_ge. unfold len in *. lia. Qed.

(** The answer to a request that is no genuine upgrade. *)
Definition page_due (req : Request) (ws_path : str) (legacy : bool) (token : str) (dir : option (list str)) : Page :=
  let method := default (bs "GET") req.(req_method) in
  let path := default (bs "/") req.(req_path) in
  if is_websocket_upgrade req then error_due (match upgrade_kind path ws_path legacy token with None => 404 | Some _ => 400 end)
  else if eq_ignore_ascii_case method (bs "GET") || eq_ignore_ascii_case method (bs "HEAD") then site_due dir path (header_line req (bs "Range"))
  else error_due 405.
Definition asks_head (req : Request) : bool := eq_ignore_ascii_case (default (bs "GET") req.(req_method)) (bs "HEAD").

Lemma refuse_answered code head_only f k :
  0 <= now -> f.(client).(writes_left) = S (S k) ->
  exists f', refuse now code f = (f', Ok Answered) /\ answered (error_due code) head_only f f'.
Proof.
  intros Hn Hw. destruct (status_answered code head_only f k) as (f' & Hs & Ha); [done..|]. exists f'. split; [|done].
  unfold refuse. by rewrite (st_bind_step _ _ _ _ _ Hs).
Qed.

Lemma upgrade_has_key req : is_websocket_upgrade req = true -> exists key, header_line req (bs "Sec-WebSocket-Key") = Some key.
Proof.
  unfold is_websocket_upgrade. destruct (header_line req (bs "Upgrade")); [|done]. destruct (negb _); [done|].
  destruct (header_line req (bs "Connection")); [|done]. destruct (negb _); [done|]. intros [key ?]%bool_decide_eq_true. by exists key.
Qed.

(** No write panics, however many the client takes. *)
Lemma send_head_safe h c : 0 <= now -> good_meta h.(file) -> (send_head now h c).2 <> Panic.
Proof using.
  intros Hn Hm. destruct (format_http_date_Ok now Hn) as [d Hd]. destruct (render_Ok h d Hm) as [t Ht]. unfold send_head. rewrite Hd.
  erewrite st_bind_step by reflexivity. rewrite Ht. erewrite st_bind_step by reflexivity. unfold write_all. by destruct (writes_left c).
Qed.

Lemma on_client_safe {A} (m : io A) f : (m f.(client)).2 <> Panic -> (on_client m f).2 <> Panic /\ origins (on_client m f).1 = f.(origins).
Proof using. unfold on_client. by destruct (m (client f)). Qed.

Lemma error_status_safe code f : 0 <= now -> (on_client (write_camouflage_status now code) f).2 <> Panic /\ origins (on_client (write_camouflage_status now code) f).1 = f.(origins).
Proof using.
  intros Hn. apply on_client_safe. unfold write_camouflage_status. destruct (error_page code). apply st_bind_safe; [by apply send_head_safe|].
  intros c ? _. unfold write_all. by destruct (writes_left c).
Qed.

Lemma file_safe req ctype body meta f :
  0 <= now -> 0 <= meta.(mtime_secs) ->
  (on_client (write_file_response now req ctype body meta) f).2 <> Panic /\ origins (on_client (write_file_response now req ctype body meta) f).1 = f.(origins).
Proof using.
  intros Hn Hm. apply on_client_safe. unfold write_file_response. destruct (file_response_Ok (range req) ctype body meta) as (h & payload & Hr & _ & Hf & _).
  rewrite Hr. erewrite st_bind_step by reflexivity. cbv beta iota. apply st_bind_safe; [apply send_head_safe; [done|by destruct Hf as [-> | ->]]|].
  intros c ? _. destruct (is_head req); [done|]. unfold write_all. by destruct (writes_left c).
Qed.

Lemma serve_spec req camo f f' r :
  sane -> serve_http req camo f = (f', r) ->
  r <> Panic /\ forwarded camo.(reverse_proxy) parse_origin camo.(allow_private) req.(target) f f'.
Proof using.
  intros Hsane. pose proof Hsane as (Hn & Hsm & _ & Hconn & _). unfold serve_camouflage_http.
  assert (forall (m : ST Front err unit) g, (m g).2 <> Panic /\ origins (m g).1 = origins g -> forall g' q, m g = (g', q) -> q <> Panic /\ origins g' = origins g) as Hq.
  { intros m g Hm g' q Hg. by rewrite Hg in Hm. }
  assert (forall c b g, (on_client (write_synthetic_response now synthetic_mtime req c b) g).2 <> Panic /\
    origins (on_client (write_synthetic_response now synthetic_mtime req c b) g).1 = origins g) as Hsyn by (intros; by apply file_safe).
  destruct (reverse_proxy camo) as [origin|].
  - destruct (forward_http_get net parse_origin (method req) (target req) origin (allow_private camo) f) as [f1 r1] eqn:Hf.
    apply forward_spec in Hf as (Hr1 & Hfw & _); [|done]. destruct r1 as [u|e|]; [by intros [= <- <-]| |done].
    intros H. destruct (Hq _ _ (Hsyn _ _ _) _ _ H) as [Hr Ho]. split; [done|]. by destruct Hfw as [Hfw|Hfw]; [left|right]; rewrite Ho.
  - intros H. assert (r <> Panic /\ origins f' = origins f) as [? ?]; [|split; [done|by left]].
    destruct (static_dir camo) as [dir|]; [destruct (serve_static_file fs dir (target req)) as [file|] eqn:Hfile|].
    + eapply Hq; [|exact H]. apply file_safe; [done|by eapply serve_static_mtime].
    + eapply Hq; [|exact H]. by apply error_status_safe.
    + case_decide; [by eapply Hq; [apply Hsyn|]|]. case_decide; [by eapply Hq; [apply Hsyn|]|].
      case_decide; (eapply Hq; [|exact H]); [apply on_client_safe; by apply send_head_safe|by apply error_status_safe].
Qed.

Lemma respond_spec buf ws_path legacy token camo cap f f' r :
  sane -> answer buf ws_path legacy token camo cap f = (f', r) ->
  r <> Panic /\ (origins f' = origins f \/ exists buf req n, parse_request buf = Ok (Some (req, n)) /\ is_websocket_upgrade req = false /\
      forwarded camo.(reverse_proxy) parse_origin camo.(allow_private) (default (bs "/") req.(req_path)) f f').
Proof using.
  intros Hsane. pose proof Hsane as (Hn & _ & _ & _ & Hparse). unfold respond.
  intros [(pr & Hpr & H)|[(-> & ? & _ & ->)|(_ & Hp & _)]]%lift_cases; [|split; [done|by left]|by apply Hparse in Hp].
  apply lift_cases in H as [([req n] & Hreq%context_Ok & H)|[(-> & ? & _ & ->)|(_ & []%context_safe & _)]]; [|split; [done|by left]]. subst pr.
  assert (forall (m : ST Front err unit) (a : Accepted), (m f).2 <> Panic /\ origins (m f).1 = origins f ->
    (m ≫= fun _ => mret a) f = (f', r) -> r <> Panic /\ origins f' = origins f) as Hq.
  { intros m a Hm. unfold mbind, st_bind. destruct (m f) as [g [u|e|]]; simpl in *; destruct Hm; by intros [= <- <-]; split. }
  destruct (is_websocket_upgrade req) eqn:Hup.
  - assert (r <> Panic /\ origins f' = origins f) as [? ?]; [|split; [done|by left]].
    destruct (upgrade_kind _ _ _ _) as [kind|]; [|by eapply Hq, H; apply error_status_safe].
    apply lift_cases in H as [(key & _ & H)|[(-> & ? & _ & ->)|(_ & []%context_safe & _)]]; [|done].
    destruct (bool_decide _); [change (negb true) with false in H|by eapply Hq, H; apply error_status_safe]. cbv iota in H. eapply Hq, H. apply on_client_safe.
    unfold switching_protocols. destruct (format_http_date_Ok now Hn) as [d ->]. erewrite st_bind_step by reflexivity.
    unfold write_all. by destruct (writes_left (client f)).
  - destruct (_ || _); [|assert (r <> Panic /\ origins f' = origins f) as [? ?]; [by eapply Hq, H; apply error_status_safe|split; [done|by left]]].
    revert H. unfold mbind, st_bind. destruct (serve_http _ camo f) as [g q] eqn:Hs. apply serve_spec in Hs as [Hq' Hfw]; [|done].
    intros H. assert (g = f' /\ r <> Panic) as [-> ?] by (by destruct q as [u|e|]; injection H as <- <-).
    split; [done|]. right. by exists buf, req, n.
Qed.

(** ** Properties *)

(** C11: a stream becomes a WebSocket exactly on a genuine upgrade: the bytes taken from it are a
    complete head that asks for the upgrade with a key and version 13 on the configured path (or, when
    enabled, on the legacy path naming the token); the peer gets the 101 answer to its key and nothing
    else, no origin is contacted, and what follows the head is handed on whole. *)
Theorem upgrade_exact ws_path legacy token camo cap f f' kind host rem mf mm :
  sane ->
  accept ws_path legacy token camo cap f = (f', Ok (WebSocket kind host rem mf mm)) ->
  exists buf req n key date,
    input f.(client) = buf ++ input f'.(client) /\ contains buf (crlf ++ crlf) = true /\ parse_request buf = Ok (Some (req, n)) /\
    is_websocket_upgrade req = true /\
    (let path := default (bs "/") req.(req_path) in
     (kind = NewPath /\ path = ws_path) \/ (kind = LegacyPath /\ legacy = true /\ path = bs "/b/" ++ token)) /\
    header_line req (bs "Sec-WebSocket-Key") = Some key /\ default (bs "13") (header_line req (bs "Sec-WebSocket-Version")) = bs "13" /\
    format_http_date now = Ok date /\ f'.(origins) = f.(origins) /\
    f'.(client).(sent) = f.(client).(sent) ++ bs "HTTP/1.1 101 Switching Protocols" ++ crlf ++
      field (bs "Server") SERVER_TOKEN ++ field (bs "Date") date ++ field (bs "Connection") (bs "upgrade") ++
      field (bs "Upgrade") (bs "websocket") ++ field (bs "Sec-WebSocket-Accept") (derive_accept_key key) ++ crlf /\
    host = header_line req (bs "Host") /\ rem = drop (Z.to_nat n) buf.
Proof.
  intros (Hn & _). unfold accept_websocket_or_camouflage. intros (f1 & buf & Hb & H)%st_bind_Ok.
  apply on_client_inv in Hb as [Hb Ho1]. destruct (read_head_spec _ _ _ _ _ ltac:(done) Hb) as (_ & Hs1 & _ & Hin).
  destruct (Hin buf eq_refl) as [Hcon Hi]. unfold respond in H.
  apply lift_cases in H as [(pr & Hpr & H)|[(_ & ? & _ & ?)|(_ & _ & ?)]]; [|done..].
  apply lift_cases in H as [([req n] & Hreq%context_Ok & H)|[(_ & ? & _ & ?)|(_ & _ & ?)]]; [|done..]. subst pr.
  destruct (is_websocket_upgrade req) eqn:Hup.
  - destruct (upgrade_kind _ _ _ _) as [kind'|] eqn:Hk; [|apply st_bind_Ok in H as (? & ? & _ & ?); done].
    apply lift_cases in H as [(key & Hkey%context_Ok & H)|[(_ & ? & _ & ?)|(_ & _ & ?)]]; [|done..].
    destruct (bool_decide _) eqn:Hver; [|apply st_bind_Ok in H as (? & ? & _ & ?); done]. apply bool_decide_eq_true in Hver. simpl negb in H. cbv iota in H.
    apply st_bind_Ok in H as (f2 & u & Hsw & H). apply on_client_inv in Hsw as [Hsw Ho2]. injection H as <- <- <- <- <- <-.
    unfold switching_protocols in Hsw. apply lift_cases in Hsw as [(date & Hd & Hsw)|[(_ & ? & _ & ?)|(_ & _ & ?)]]; [|done..].
    apply write_all_Ok in Hsw as [Hi2 Hs2]. exists buf, req, n, key, date. rewrite Hi2, <- Hi, Hs2, Hs1, remainder_drop. apply upgrade_kind_Some in Hk.
    split_and!; done || congruence.
  - exfalso. destruct (_ || _); apply st_bind_Ok in H as (? & ? & _ & ?); done.
Qed.

(** C13: On a server that stands for a site of its own (no reverse proxy), a probe gets that site: whatever complete request a client that reads its answer
    sends, it is either a genuine upgrade, or answered by one complete nginx-like response that is exactly the one due: the 404 page for an upgrade
    on any other path, the 400 page for another version of WebSocket, the 405 page for a method other than GET and HEAD, and otherwise the front page,
    the fixed document or the file of the site, or the range of it, that is named, with its type, and the 404 page where there is none; the length field counts
    the body, which a HEAD request for a document does not get. Nothing else is contacted. *)
Theorem complete_request_answered ws_path legacy token camo cap buf req n f k :
  sane -> camo.(reverse_proxy) = None -> f.(client).(writes_left) = S (S k) -> parse_request buf = Ok (Some (req, n)) ->
  (exists kind f' mf mm, is_websocket_upgrade req = true /\ upgrade_kind (default (bs "/") req.(req_path)) ws_path legacy token = Some kind /\
     default (bs "13") (header_line req (bs "Sec-WebSocket-Version")) = bs "13" /\
     answer buf ws_path legacy token camo cap f = (f', Ok (WebSocket kind (header_line req (bs "Host")) (drop (Z.to_nat n) buf) mf mm))) \/
  (exists f', answer buf ws_path legacy token camo cap f = (f', Ok Answered) /\
     answered (page_due req ws_path legacy token camo.(static_dir)) (asks_head req) f f').
Proof.
  intros Hsane Hp Hw Hreq. pose proof Hsane as (Hn & _). unfold respond, page_due. rewrite Hreq. erewrite st_bind_step by reflexivity. erewrite st_bind_step by reflexivity.
  cbv beta iota. destruct (is_websocket_upgrade req) eqn:Hup.
  - destruct (upgrade_kind _ _ _ _) as [kind|] eqn:Hk; [|right; by apply (refuse_answered 404 _ f k)].
    destruct (upgrade_has_key req Hup) as [key Hkey]. rewrite Hkey. erewrite st_bind_step by reflexivity.
    destruct (bool_decide _) eqn:Hver; [|right; by apply (refuse_answered 400 _ f k)]. apply bool_decide_eq_true in Hver. left.
    destruct (format_http_date_Ok now Hn) as [date Hd]. rewrite remainder_drop.
    assert (exists f', on_client (switching_protocols now (derive_accept_key key)) f = (f', Ok tt)) as [f' Hsw].
    { unfold on_client, switching_protocols. rewrite Hd. erewrite st_bind_step by reflexivity. unfold write_all. rewrite Hw. by eexists. }
    exists kind, f'. eexists _, _. split_and!; [done..|]. change (negb true) with false. cbv beta iota. by rewrite (st_bind_step _ _ _ _ _ Hsw).
  - right. destruct (_ || _).
    + destruct (serve_answered {| method := default (bs "GET") (req_method req); target := default (bs "/") (req_path req); range := header_line req (bs "Range") |} camo f k)
        as (f' & Hs & Ha); [done..|]. exists f'. by rewrite (st_bind_step _ _ _ _ _ Hs).
    + by apply (refuse_answered 405 _ f k).
Qed.

(** C12: what a probe can make the server send elsewhere: serving a stream never panics and contacts at
    most one origin, the configured one, only for a request that is no upgrade; the address connected to
    is public unless private origins are allowed, and the request sent is one GET or HEAD whose target
    has no byte that could end the line or the field, no parent segment and no encoded separator. Of the
    answer at most 1 MiB is copied to the client. *)
Theorem forwarded_requests_clean ws_path legacy token camo cap f f' r :
  sane ->
  (accept ws_path legacy token camo cap f = (f', r) ->
   r <> Panic /\
   (f'.(origins) = f.(origins) \/
    exists buf req n, parse_request buf = Ok (Some (req, n)) /\ is_websocket_upgrade req = false /\
      forwarded camo.(reverse_proxy) parse_origin camo.(allow_private) (default (bs "/") req.(req_path)) f f')) /\
  (forall method path origin allow u, forward_http_get net parse_origin method path origin allow f = (f', u) -> written f f').
Proof using.
  intros Hsane. pose proof Hsane as (Hn & _ & _ & Hconn & Hparse). split; [|intros method path origin allow u H; by eapply forward_spec in H as (_ & _ & ?)].
  unfold accept_websocket_or_camouflage, mbind, st_bind. destruct (on_client read_http_head f) as [f1 r1] eqn:Hb.
  apply on_client_inv in Hb as [Hb Ho]. destruct (read_head_spec _ _ _ _ _ ltac:(done) Hb) as (Hr1 & _).
  destruct r1 as [buf|e|]; [|intros [= <- <-]; split; [done|by left]|done]. intros H.
  assert (r <> Panic /\ (origins f' = origins f1 \/ exists buf req n, parse_request buf = Ok (Some (req, n)) /\ is_websocket_upgrade req = false /\
      forwarded camo.(reverse_proxy) parse_origin camo.(allow_private) (default (bs "/") req.(req_path)) f1 f')) as [Hr Hfw].
  { revert H. apply respond_spec; done. }
  split; [done|]. destruct Hfw as [Hfw|(buf' & req & n & ? & ? & Hfw)]; [left; congruence|right; exists buf', req, n; split_and!; [done..|]].
  unfold forwarded in *. by rewrite Ho in Hfw.
Qed.
End Served.

(** *** The blocked networks *)

(** The networks of the IPv4 special-purpose registry the comments name, as address and prefix length. *)
Definition v4 (a b c d : Z) : Z := of_be [a; b; c; d].
Definition BLOCKED4 : list (Z * Z) :=
  [(v4 0 0 0 0, 8); (v4 10 0 0 0, 8); (v4 100 64 0 0, 10); (v4 127 0 0 0, 8); (v4 169 254 0 0, 16); (v4 172 16 0 0, 12);
   (v4 192 0 0 0, 24); (v4 192 168 0 0, 16); (v4 198 18 0 0, 15); (v4 224 0 0 0, 4); (v4 240 0 0 0, 4)].
(** [::/128], [::1/128], [fc00::/7], [fe80::/10], [ff00::/8]. *)
Definition BLOCKED6 : list (Z * Z) :=
  [(0, 128); (1, 128); (252 * 2 ^ 120, 7); (65152 * 2 ^ 112, 10); (255 * 2 ^ 120, 8)].
Definition in_network (width a : Z) (n : Z * Z) : bool := a / 2 ^ (width - n.2) =? n.1 / 2 ^ (width - n.2).

Lemma four_octets a : is_ipv4 a -> exists o0 o1 o2 o3, octets4 a = [o0; o1; o2; o3] /\
  is_u8 o0 /\ is_u8 o1 /\ is_u8 o2 /\ is_u8 o3 /\ a = o0 * 16777216 + o1 * 65536 + o2 * 256 + o3.
Proof.
  intros Ha. pose proof (octets4_inv a Ha) as Hi. pose proof (u8s_to_be 4 a) as Hu. pose proof (len_to_be 4 a) as Hl. unfold octets4 in *.
  destruct (to_be 4 a) as [|o0 [|o1 [|o2 [|o3 [|? ?]]]]] eqn:E; try done. exists o0, o1, o2, o3.
  repeat (apply Forall_cons in Hu as [? Hu]). split_and!; try done. rewrite <- Hi. unfold of_be. simpl.
  change (256 ^ len [o1; o2; o3]) with 16777216. change (256 ^ len [o2; o3]) with 65536. change (256 ^ len [o3]) with 256. change (256 ^ len []) with 1. lia.
Qed.

Section Octets.
Context (a o0 o1 o2 o3 : Z) (H0 : is_u8 o0) (H1 : is_u8 o1) (H2 : is_u8 o2) (H3 : is_u8 o3).
Context (Ea : a = o0 * 16777216 + o1 * 65536 + o2 * 256 + o3).

Lemma network_range p k c : 0 < 2 ^ (32 - k) -> c = p / 2 ^ (32 - k) ->
  in_network 32 a (p, k) = true <-> c * 2 ^ (32 - k) <= a < (c + 1) * 2 ^ (32 - k).
Proof using.
  intros Hpos ->. unfold in_network. simpl. rewrite Z.eqb_eq. split.
  - intros <-. pose proof (Z.mul_div_le a _ Hpos). pose proof (Z.mul_succ_div_gt a _ Hpos). lia.
  - intros Hr. symmetry. apply Z.div_unique with (r := a - p / 2 ^ (32 - k) * 2 ^ (32 - k)); lia.
Qed.

Lemma net8 x : in_network 32 a (v4 x 0 0 0, 8) = (o0 =? x).
Proof using All.
  unfold in_network. simpl. ranges. change (2 ^ (32 - 8)) with 16777216.
  replace (a / 16777216) with o0 by (apply Z.div_unique with (r := a - o0 * 16777216); lia).
  f_equal. unfold v4, of_be. simpl. change (256 ^ len [0; 0; 0]) with 16777216. change (256 ^ len [0; 0]) with 65536. change (256 ^ len [0]) with 256.
  symmetry. apply Z.div_unique with (r := 0); lia.
Qed.
Lemma net16 x y : in_network 32 a (v4 x y 0 0, 16) = (o0 * 256 + o1 =? x * 256 + y).
Proof using All.
  unfold in_network. simpl. ranges. change (2 ^ (32 - 16)) with 65536.
  replace (a / 65536) with (o0 * 256 + o1) by (apply Z.div_unique with (r := a - (o0 * 256 + o1) * 65536); lia).
  f_equal. unfold v4, of_be. simpl. change (256 ^ len [y; 0; 0]) with 16777216. change (256 ^ len [0; 0]) with 65536. change (256 ^ len [0]) with 256.
  symmetry. apply Z.div_unique with (r := 0); lia.
Qed.

(** Each network, as the code tests it. *)
Lemma networks_octets :
  existsb (in_network 32 a) BLOCKED4 = true <->
  o0 = 0 \/ o0 = 10 \/ (o0 = 100 /\ 64 <= o1 <= 127) \/ o0 = 127 \/ (o0 = 169 /\ o1 = 254) \/ (o0 = 172 /\ 16 <= o1 <= 31) \/
  (o0 = 192 /\ o1 = 0 /\ o2 = 0) \/ (o0 = 192 /\ o1 = 168) \/ (o0 = 198 /\ (o1 = 18 \/ o1 = 19)) \/ 224 <= o0 <= 239 \/ 240 <= o0.
Proof using All.
  cbn [existsb BLOCKED4]. rewrite !net8, !net16, !orb_true_iff, !Z.eqb_eq. ranges.
  rewrite (network_range (v4 100 64 0 0) 10 401), (network_range (v4 172 16 0 0) 12 2753), (network_range (v4 192 0 0 0) 24 12582912),
    (network_range (v4 198 18 0 0) 15 25353), (network_range (v4 224 0 0 0) 4 14), (network_range (v4 240 0 0 0) 4 15) by (vm_compute; reflexivity).
  change (2 ^ (32 - 10)) with 4194304. change (2 ^ (32 - 12)) with 1048576. change (2 ^ (32 - 24)) with 256. change (2 ^ (32 - 15)) with 131072. change (2 ^ (32 - 4)) with 268435456.
  assert (forall P Q : Prop, (P <-> Q) -> forall R S, (R <-> S) -> (P \/ R <-> Q \/ S)) as Hor by tauto.
  repeat (apply Hor; [lia|]). lia.
Qed.

Lemma blocked_octets : octets4 a = [o0; o1; o2; o3] ->
  is_blocked_camouflage_ipv4 a = true <->
  ((a =? 0) || (o0 =? 127) || in_rng 224 239 o0 || (a =? U32_MAX)) = true \/ o0 = 0 \/ o0 = 10 \/ (o0 = 172 /\ 16 <= o1 <= 31) \/ (o0 = 192 /\ o1 = 168) \/
  (o0 = 169 /\ o1 = 254) \/ ((o0 = 192 /\ o1 = 0) /\ o2 = 0) \/ (o0 = 198 /\ (o1 = 18 \/ o1 = 19)) \/ (o0 = 100 /\ 64 <= o1 <= 127) \/ 240 <= o0.
Proof using.
  intros Ho. unfold is_blocked_camouflage_ipv4. rewrite Ho. unfold byte_at. cbn [lookup list_lookup default].
  assert (forall x y : bool, (if x then true else y) = true <-> x = true \/ y = true) as Hif by (intros [] []; intuition).
  rewrite !Hif, !andb_true_iff, !orb_true_iff, !Z.eqb_eq, !in_rng_iff, Z.leb_le. tauto.
Qed.
End Octets.

Lemma blocked4_networks a : is_ipv4 a -> is_blocked_camouflage_ipv4 a = existsb (in_network 32 a) BLOCKED4.
Proof.
  intros Ha. destruct (four_octets a Ha) as (o0 & o1 & o2 & o3 & Ho & H0 & H1 & H2 & H3 & Ea).
  apply eq_true_iff_eq. rewrite (blocked_octets a o0 o1 o2 o3 Ho), (networks_octets a o0 o1 o2 o3) by done.
  rewrite !orb_true_iff, !Z.eqb_eq, in_rng_iff. unfold U32_MAX. ranges.
  assert (a = 0 -> o0 = 0) by lia. assert (a = 4294967295 -> 240 <= o0) by lia. clear Ea Ho. intuition.
Qed.

Lemma top_bits o : is_u8 o -> (Z.land o 192 =? 128) = (o / 64 =? 2).
Proof.
  intros Ho. assert (forallb (fun o => Bool.eqb (Z.land o 192 =? 128) (o / 64 =? 2)) (Z.of_nat <$> seq 0 256) = true) as H by (vm_compute; reflexivity).
  rewrite forallb_forall in H. apply Bool.eqb_prop, (H o), list_elem_of_In, (in_range 256). exact Ho.
Qed.

Lemma blocked6_networks a : is_ipv6 a -> to_ipv4_mapped a = None -> is_blocked_camouflage_origin (V6 a) = existsb (in_network 128 a) BLOCKED6.
Proof.
  intros Ha Hm. unfold is_blocked_camouflage_origin. rewrite Hm. unfold is_ipv6 in Ha.
  set (h := a / 2 ^ 112). assert (0 <= h < 65536) as Hh by (subst h; split; [apply Z.div_pos; lia|apply Z.div_lt_upper_bound; [lia|exact (proj2 Ha)]]).
  assert (byte_at (octets6 a) 0 = h / 256) as E0.
  { change (byte_at (octets6 a) 0) with ((a / 2 ^ 120) mod 256). change (2 ^ 120) with (2 ^ 112 * 256). rewrite <- Z.div_div by lia. fold h. apply Z.mod_small. div_lia. }
  assert (byte_at (octets6 a) 1 = h mod 256) as -> by done. rewrite E0, top_bits by (apply Z.mod_pos_bound; lia).
  assert (forall k c, 0 <= k <= 16 -> in_network 128 a (c * 2 ^ (112 + k), 16 - k) = (h / 2 ^ k =? c)) as Hnet.
  { intros k c Hk. unfold in_network. simpl. replace (128 - (16 - k)) with (112 + k) by lia. rewrite Z.div_mul by lia. rewrite Z.pow_add_r, <- Z.div_div by lia. done. }
  change (existsb (in_network 128 a) BLOCKED6) with (in_network 128 a (0, 128) || (in_network 128 a (1, 128) || (in_network 128 a (126 * 2 ^ (112 + 9), 16 - 9) ||
    (in_network 128 a (1018 * 2 ^ (112 + 6), 16 - 6) || (in_network 128 a (255 * 2 ^ (112 + 8), 16 - 8) || false))))).
  rewrite !Hnet by lia. unfold in_network. simpl. change (2 ^ (128 - 128)) with 1. rewrite !Z.div_1_r.
  change (2 ^ 9) with 512. change (2 ^ 6) with 64. change (2 ^ 8) with 256.
  apply eq_true_iff_eq. assert (forall x y : bool, (if x then true else y) = true <-> x = true \/ y = true) as Hif by (intros [] []; intuition).
  rewrite !Hif, !orb_true_iff, andb_true_iff, !Z.eqb_eq. clear Hif Hnet E0 Hm. 
  assert (h / 256 = 252 \/ h / 256 = 253 <-> h / 512 = 126) by (clear; div_lia).
  assert (h / 256 = 254 /\ h mod 256 / 64 = 2 <-> h / 64 = 1018) by (clear; div_lia). intuition discriminate.
Qed.

(** the addresses the reverse proxy refuses are the special-purpose networks and no others: an
    address is refused exactly when one of the listed prefixes contains it, an IPv4-mapped IPv6 address
    when the IPv4 address it stands for is. *)
Theorem blocked_origin_networks ip :
  is_ip ip ->
  is_blocked_camouflage_origin ip =
    match ip with
    | V4 a => existsb (in_network 32 a) BLOCKED4
    | V6 a =>
      match to_ipv4_mapped a with
      | Some b => existsb (in_network 32 b) BLOCKED4
      | None => existsb (in_network 128 a) BLOCKED6
      end
    end.
Proof.
  destruct ip as [a|a]; intros Ha; [by apply blocked4_networks|]. destruct (to_ipv4_mapped a) as [b|] eqn:Hm; [|by apply blocked6_networks].
  unfold is_blocked_camouflage_origin. rewrite Hm. apply blocked4_networks. unfold to_ipv4_mapped in Hm. destruct (_ =? _); [|done].
  injection Hm as <-. apply Z.mod_pos_bound. lia.
Qed.

(** C14: what the server reads for a probe stays inside the directory given: the path opened is a
    canonical path below it, reached from components that name entries only, the response carries that
    file and its length; and a path of such components with no symbolic link on it is served. *)
Theorem static_files_confined fs dir :
  (forall url f, serve_static_file fs dir url = Some f ->
     exists base asked rest mtime, canonicalize fs dir = Some base /\ Forall plain asked /\
       canonicalize fs (base ++ asked) = Some (base ++ rest) /\ metadata fs (base ++ rest) = Some (true, mtime) /\
       read_file fs (base ++ rest) = Some f.(sf_body) /\ f.(sf_meta) = {| mtime_secs := mtime; file_len := len f.(sf_body) |}) /\
  (forall base segs query, canonicalize fs dir = Some base -> segs <> [] -> Forall plain segs -> Forall (without 63) segs ->
     canonicalize fs (base ++ segs) = Some (base ++ segs) ->
     safe_static_path_under_base fs dir (bs "/" ++ join (bs "/") segs ++ match query with Some q => bs "?" ++ q | None => [] end)
       = Some (base ++ segs)).
Proof.
  split; [|intros; by apply static_path_complete]. intros url f (p & Hp & H)%bind_Some. apply bind_Some in H as ([b t] & Hm & H).
  apply static_path_sound in Hp as (base & asked & rest & Hb & Ha & Hc & ->). destruct b; [|done]. simpl in H.
  apply bind_Some in H as (data & Hd & [= <-]). by exists base, asked, rest, t.
Qed.

(** Byte ranges: the answer to a request for a body is always built; it is the whole body, a
    non-empty slice of it with 206 and its bounds, or the 416 page; its length field counts what is
    sent, a HEAD request gets the same head and no body; and the three forms of a single range ask for
    the bytes they name. *)
Theorem byte_ranges_served header ctype body meta :
  (exists h payload, file_response header ctype body meta = Ok (h, payload) /\ h.(content_length) = Some (len payload) /\
     match parse_single_range header (len body) with
     | Whole => h.(status) = 200 /\ payload = body
     | Partial first last =>
       0 <= first <= last /\ last < len body /\ h.(status) = 206 /\ payload = sub body first (last + 1) /\ len payload = last - first + 1 /\
       h.(content_range) = Some (bs "bytes " ++ show_dec first ++ bs "-" ++ show_dec last ++ bs "/" ++ show_dec (len body))
     | Unsatisfiable => h.(status) = 416 /\ h.(content_range) = Some (bs "bytes */" ++ show_dec (len body))
     end /\
     forall now req c k, 0 <= now -> 0 <= meta.(mtime_secs) -> req.(range) = header -> c.(writes_left) = S (S k) ->
       exists date head c', format_http_date now = Ok date /\ render h date = Ok head /\
         write_file_response now req ctype body meta c = (c', Ok tt) /\
         c'.(sent) = c.(sent) ++ head ++ (if is_head req then [] else payload)) /\
  (forall a b n, 0 <= a <= U64_MAX -> 0 <= b <= U64_MAX -> 0 < n <= U64_MAX -> 0 < len body ->
     let ask s := parse_single_range (Some (bs "bytes=" ++ s)) (len body) in
     ask (show_dec a ++ bs "-" ++ show_dec b) = (if decide (a < len body /\ a <= b) then Partial a (Z.min b (len body - 1)) else Unsatisfiable) /\
     ask (show_dec a ++ bs "-") = (if decide (a < len body) then Partial a (len body - 1) else Unsatisfiable) /\
     ask (bs "-" ++ show_dec n) = Partial (Z.max 0 (len body - n)) (len body - 1)).
Proof.
  split.
  - destruct (file_response_Ok header ctype body meta) as (h & payload & Hr & Hc & Hf & Hst). exists h, payload.
    split_and!; [done|done|destruct (parse_single_range _ _); naive_solver|].
    intros now req c k Hn Hm Hreq Hw. unfold write_file_response. rewrite Hreq, Hr.
    destruct (send_head_Ok now h c (S k)) as (date & head & Hd & Hh & Hs); [done|by destruct Hf as [-> | ->]|done|].
    exists date, head. erewrite st_bind_step by reflexivity. cbv beta iota. rewrite (st_bind_step _ _ _ _ _ Hs).
    destruct (is_head req); eexists; (split_and!; [done|done|reflexivity|]); simpl; by rewrite ?app_nil_r, <- ?app_assoc.
  - intros a b n Ha Hb Hn Hl ask. subst ask. destruct (number_digits a Ha) as (Hda & _). destruct (number_digits b Hb) as (Hdb & _).
    destruct (number_digits n) as (Hdn & _); [lia|]. destruct (range_bounds_numbers a b n (len body)) as (<- & <- & <-); [done..|].
    rewrite <- (parse_range_digits (show_dec a) (show_dec b) (len body)) by done.
    rewrite <- (parse_range_digits (show_dec a) [] (len body)) by (done || constructor).
    rewrite <- (parse_range_digits [] (show_dec n) (len body)) by (done || constructor). by rewrite app_nil_r.
Qed.

(** ** Witnesses *)

Definition demo_head : bytes :=
  bs "GET /ws HTTP/1.1" ++ crlf ++ bs "Host: example.org" ++ crlf ++ bs "Upgrade: websocket" ++ crlf ++
  bs "Connection: keep-alive, Upgrade" ++ crlf ++ bs "Sec-WebSocket-Key: k" ++ crlf ++ crlf.
Definition demo_req : Request :=
  {| req_method := Some (bs "GET"); req_path := Some (bs "/ws");
     req_headers := [(bs "Host", bs "example.org"); (bs "Upgrade", bs "websocket"); (bs "Connection", bs "keep-alive, Upgrade"); (bs "Sec-WebSocket-Key", bs "k")] |}.
Definition demo_parse (b : bytes) : result (option (Request * Z)) := Ok (Some (demo_req, len demo_head)).
Definition demo_front (b : bytes) (writes : nat) : Front :=
  {| client := {| Stream.buf := []; src := [b]; sent := []; writes_left := writes |}; origins := [] |}.
Definition demo_fs : Fs :=
  {| canonicalize := fun p => Some p; metadata := fun _ => Some (true, 0); read_file := fun _ => Some (bs "body {}") |}.
Definition demo_net : Network :=
  {| lookup_host := fun _ _ => Some [V4 (v4 93 184 216 34)];
     connect := fun _ _ => Ok {| peer_addr := Some (V4 (v4 93 184 216 34)); takes_request := true; events := [UpData (bs "HTTP/1.1 200 OK")] |} |}.
Definition demo_origin (s : str) : option OriginUri :=
  Some {| origin_scheme := Some (bs "http"); authority := Some {| auth_host := bs "example.com"; auth_port := None; auth_str := bs "example.com" |} |}.
Definition demo_camo (proxy : option str) : CamouflageServeConfig := {| static_dir := None; reverse_proxy := proxy; allow_private := false |}.

Lemma demo_sane parse : (forall b, parse b <> Panic) -> sane demo_fs demo_net parse 784887151 784887151.
Proof. intros Hp. split_and!; [lia|lia| |done|done]. by intros p b t [= <- <-]. Qed.

Abbreviation demo_accept parse path proxy :=
  (accept_websocket_or_camouflage demo_fs demo_net demo_origin parse (fun k => k) 784887151 784887151 path false (bs "tok") (demo_camo proxy) 65536).

Lemma upgrade_exact_witness :
  exists f', demo_accept demo_parse (bs "/ws") None (demo_front (demo_head ++ [130; 0]) 1) = (f', Ok (WebSocket NewPath (Some (bs "example.org")) [130; 0] 327680 655360)) /\
    f'.(origins) = [].
Proof.
  assert ((demo_accept demo_parse (bs "/ws") None (demo_front (demo_head ++ [130; 0]) 1)).2 = Ok (WebSocket NewPath (Some (bs "example.org")) [130; 0] 327680 655360)) as H
    by (vm_compute; reflexivity).
  destruct (demo_accept demo_parse (bs "/ws") None (demo_front (demo_head ++ [130; 0]) 1)) as [f' r] eqn:E. cbn [snd] in H. subst r. exists f'. split; [reflexivity|].
  destruct (upgrade_exact _ _ _ _ _ _ _ _ _ _ _ _ _ _ _ _ _ _ _ (demo_sane demo_parse ltac:(done)) E) as (_ & _ & _ & _ & _ & _ & _ & _ & _ & _ & _ & _ & _ & Ho & _).
  exact Ho.
Defined.

Lemma complete_request_answered_witness :
  exists f', respond demo_fs demo_net demo_origin demo_parse (fun k => k) 784887151 784887151 demo_head (bs "/other") false (bs "tok") (demo_camo None) 65536 (demo_front [] 2)
      = (f', Ok Answered) /\ answered 784887151 (error_due 404) false (demo_front [] 2) f'.
Proof.
  destruct (complete_request_answered demo_fs demo_net demo_origin demo_parse (fun k => k) 784887151 784887151 (bs "/other") false (bs "tok") (demo_camo None) 65536
    demo_head demo_req (len demo_head) (demo_front [] 2) 0) as [(kind & f' & mf & mm & _ & Hk & _)|H]; [by apply demo_sane|done|done|done| |exact H].
  exfalso. vm_compute in Hk. discriminate Hk.
Defined.

Definition demo_get (b : bytes) : result (option (Request * Z)) :=
  Ok (Some ({| req_method := Some (bs "GET"); req_path := Some (bs "/a?b"); req_headers := [] |}, len b)).

Lemma forwarded_requests_clean_witness :
  exists f' r, demo_accept demo_get (bs "/ws") (Some (bs "http://example.com")) (demo_front (bs "GET /a?b HTTP/1.1" ++ crlf ++ crlf) 9) = (f', r) /\
    f'.(origins) = [(V4 (v4 93 184 216 34), origin_request (bs "GET") (bs "/a?b") (bs "example.com"))] /\ clean_target (bs "/a?b").
Proof.
  assert (origins (demo_accept demo_get (bs "/ws") (Some (bs "http://example.com")) (demo_front (bs "GET /a?b HTTP/1.1" ++ crlf ++ crlf) 9)).1
    = [(V4 (v4 93 184 216 34), origin_request (bs "GET") (bs "/a?b") (bs "example.com"))]) as Ho by (vm_compute; reflexivity).
  destruct (demo_accept demo_get (bs "/ws") (Some (bs "http://example.com")) (demo_front (bs "GET /a?b HTTP/1.1" ++ crlf ++ crlf) 9)) as [f' r] eqn:E.
  cbn [fst] in Ho. exists f', r. split; [reflexivity|]. split; [exact Ho|].
  destruct (forwarded_requests_clean demo_fs demo_net demo_origin demo_get (fun k => k) 784887151 784887151 (bs "/ws") false (bs "tok")
    (demo_camo (Some (bs "http://example.com"))) 65536 (demo_front (bs "GET /a?b HTTP/1.1" ++ crlf ++ crlf) 9) f' r (demo_sane demo_get ltac:(intros b Hb; discriminate Hb))) as [H _].
  destruct (H E) as (_ & [Hn|(buf & req & n & Hreq & _ & [Hn|Hf])]); [rewrite Ho in Hn; discriminate Hn|rewrite Ho in Hn; discriminate Hn|].
  destruct Hf as (peer & m & host & o & u & a & _ & _ & _ & _ & _ & _ & _ & Hc & _). injection Hreq as <- _. exact Hc.
Defined.

Lemma blocked_origin_networks_witness : is_blocked_camouflage_origin (V6 (65535 * 2 ^ 32 + v4 100 64 0 1)) = true.
Proof. rewrite (blocked_origin_networks (V6 (65535 * 2 ^ 32 + v4 100 64 0 1))); [vm_compute; reflexivity|split; vm_compute; congruence]. Defined.

Lemma static_files_confined_witness :
  safe_static_path_under_base demo_fs [bs "srv"] (bs "/css/a.css?v=1") = Some [bs "srv"; bs "css"; bs "a.css"].
Proof.
  destruct (static_files_confined demo_fs [bs "srv"]) as [_ H].
  apply (H [bs "srv"] [bs "css"; bs "a.css"] (Some (bs "v=1"))); [reflexivity|discriminate|..|reflexivity].
  - repeat constructor; vm_compute; discriminate.
  - repeat constructor; vm_compute; discriminate.
Defined.

Lemma byte_ranges_served_witness : parse_single_range (Some (bs "bytes=2-100")) 10 = Partial 2 9.
Proof.
  destruct (byte_ranges_served None [] (repeat 0 10) {| mtime_secs := 0; file_len := 10 |}) as [_ H].
  destruct (H 2 100 1) as (H1 & _); [split; vm_compute; congruence..|vm_compute; reflexivity|]. exact H1.
Defined.
