(* ===== verification/Metrics.v ===== *)
(** [server_metrics.rs]: the metrics listener: its password, its page, and its answer to one request. *)
From S2P Require Import Prelude Text Net Stream Crypto Limits Incoming.

(** [expected_authorization]: the value the header must have. *)
Definition MetricsAuth : Type := option bytes.
Definition disabled : MetricsAuth := None.

Section Metrics.
(** [base64]'s standard encoding. *)
Context (std_encode : bytes -> str).

Definition basic (user password : str) : MetricsAuth := Some (bs "Basic " ++ std_encode (user ++ bs ":" ++ password)).
Definition is_required (a : MetricsAuth) : bool := bool_decide (is_Some a).
Definition metrics_auth_from_password (password : option str) (user : str) : result MetricsAuth :=
  match password with
  | None => Ok disabled
  | Some pw =>
    if decide (trim pw <> []) then Ok (basic (trim user) pw)
    else bail "--metrics-password must not be empty; omit it to disable metrics auth"
  end.
End Metrics.

Definition authorize (a : MetricsAuth) (headers : list (str * str)) : bool :=
  match a with
  | None => true
  | Some expected =>
    match find_header headers (bs "authorization") with
    | Some got => secret_eq got expected
    | None => false
    end
  end.

(** [str::lines]: the lines without their ends; what follows the last line feed counts when there is any. *)
Fixpoint split_lines (acc s : str) : list str :=
  match s with
  | [] => match acc with [] => [] | _ => [rev acc] end
  | c :: s => if c =? 10 then rev match acc with 13 :: acc => acc | _ => acc end :: split_lines [] s else split_lines (c :: acc) s
  end.
Definition lines (s : str) : list str := split_lines [] s.

Fixpoint header_pairs (l : list str) : list (str * str) :=
  match l with
  | [] => []
  | line :: l =>
    if decide (line = []) then []
    else match split_once 58 line with
         | Some (name, value) => (trim name, trim value) :: header_pairs l
         | None => header_pairs l
         end
  end.
Definition parse_http_headers (req : str) : list (str * str) := header_pairs (drop 1 (lines req)).

Definition metric (name help kind : string) (value : str) : str :=
  let n := bs "bibavpn_" ++ bs name in
  bs "# HELP " ++ n ++ bs " " ++ bs help ++ [10] ++ bs "# TYPE " ++ n ++ bs " " ++ bs kind ++ [10] ++ n ++ bs " " ++ value ++ [10].
(** [process_start]: the time of the start as a floating-point number. *)
Definition render_prometheus (stats : ServerStats) (auth : AuthRateLimiter) (process_start : str) : str :=
  metric "active_sessions" "Current TLS/WSS sessions being handled." "gauge" (show_dec stats.(active_sessions)) ++
  metric "auth_bans_active" "Source IPs currently under temporary auth ban." "gauge" (show_dec auth.(bans_active)) ++
  metric "auth_failures_total" "v3 AUTH failures (token mismatch, junk budget, decrypt errors)." "counter" (show_dec auth.(auth_failures_total)) ++
  metric "auth_bans_issued_total" "Temporary auth bans issued since process start." "counter" (show_dec auth.(auth_bans_issued_total)) ++
  metric "handshake_timeouts_total" "Sessions that exceeded a pre-tunnel timeout (TLS, WS upgrade, REALITY, AUTH wait, post-AUTH first-channel wait)."
    "counter" (show_dec stats.(handshake_timeouts_total)) ++
  metric "auth_rejected_banned_total" "Connections rejected because the source IP is banned." "counter" (show_dec stats.(auth_rejected_banned_total)) ++
  metric "sessions_rejected_busy_total" "Connections dropped waiting for the concurrent session semaphore." "counter"
    (show_dec stats.(sessions_rejected_busy_total)) ++
  metric "handshakes_success_total" "Successful v3 AUTH completions." "counter" (show_dec stats.(handshakes_success_total)) ++
  metric "session_errors_total" "Accepted sessions that ended with an error after TLS accept." "counter" (show_dec stats.(session_errors_total)) ++
  metric "accepts_failed_total" "Failed accept(2) calls the listener loop recovered from." "counter" (show_dec stats.(accepts_failed_total)) ++
  metric "process_start_time_seconds" "Start time of the process since the Unix epoch." "gauge" process_start.

Definition reason (status : Z) : str :=
  if decide (status = 200) then bs "OK" else if decide (status = 401) then bs "Unauthorized"
  else if decide (status = 404) then bs "Not Found" else if decide (status = 405) then bs "Method Not Allowed" else bs "Error".
Definition response_head (status : Z) (content_type : str) (body : bytes) (extra_headers : list (str * str)) : str :=
  bs "HTTP/1.1 " ++ show_dec status ++ bs " " ++ reason status ++ crlf ++ field (bs "Content-Type") content_type ++
  field (bs "Content-Length") (show_dec (len body)) ++ field (bs "Connection") (bs "close") ++
  concat ((fun h => field h.1 h.2) <$> extra_headers) ++ crlf.
(** The shutdown at the end is a write of nothing. *)
Definition write_http_response (status : Z) (content_type : str) (body : bytes) (extra_headers : list (str * str)) : io unit :=
  _ ← write_all (response_head status content_type body extra_headers) IO_ERROR;
  _ ← write_all body IO_ERROR;
  write_all [] IO_ERROR.

Definition plain : str := bs "text/plain; charset=utf-8".
Definition realm : str * str := (bs "WWW-Authenticate", bs "Basic realm=" ++ [34] ++ bs "bibavpn-metrics" ++ [34]).

(** The request is what one read gives. *)
Definition serve_one_http (stats : ServerStats) (auth : AuthRateLimiter) (process_start : str) (metrics_auth : MetricsAuth) : io unit :=
  b ← read 2048;
  if decide (b = []) then mret tt else
  let req := if utf8_valid b then b else [] in
  let headers := parse_http_headers req in
  let request_line := default [] (head (lines req)) in
  let parts := split_whitespace request_line in
  let method := default [] (parts !! 0%nat) in
  let path := default [] (parts !! 1%nat) in
  if decide (method <> bs "GET") then write_http_response 405 plain (bs "method not allowed") [] else
  if negb (authorize metrics_auth headers) then write_http_response 401 plain (bs "unauthorized") [realm] else
  if decide (path = bs "/metrics") then
    write_http_response 200 (bs "text/plain; version=0.0.4; charset=utf-8") (render_prometheus stats auth process_start) []
  else if decide (path = bs "/healthz") then write_http_response 200 plain (bs "ok") []
  else write_http_response 404 plain (bs "not found") [].

(** ** Lemmas *)

(** The page a request gets. *)
Inductive page : Set := NotAllowed | Unauthorized | MetricsPage | Healthy | NotFound.
Definition page_of (a : MetricsAuth) (b : bytes) : page :=
  let req := if utf8_valid b then b else [] in
  let parts := split_whitespace (default [] (head (lines req))) in
  if decide (default [] (parts !! 0%nat) <> bs "GET") then NotAllowed
  else if negb (authorize a (parse_http_headers req)) then Unauthorized
  else if decide (default [] (parts !! 1%nat) = bs "/metrics") then MetricsPage
  else if decide (default [] (parts !! 1%nat) = bs "/healthz") then Healthy else NotFound.
Definition status_of (p : page) : Z :=
  match p with NotAllowed => 405 | Unauthorized => 401 | MetricsPage | Healthy => 200 | NotFound => 404 end.
Definition page_text (stats : ServerStats) (auth : AuthRateLimiter) (process_start : str) (p : page) : bytes :=
  match p with
  | NotAllowed => response_head 405 plain (bs "method not allowed") [] ++ bs "method not allowed"
  | Unauthorized => response_head 401 plain (bs "unauthorized") [realm] ++ bs "unauthorized"
  | MetricsPage => let body := render_prometheus stats auth process_start in
      response_head 200 (bs "text/plain; version=0.0.4; charset=utf-8") body [] ++ body
  | Healthy => response_head 200 plain (bs "ok") [] ++ bs "ok"
  | NotFound => response_head 404 plain (bs "not found") [] ++ bs "not found"
  end.

Lemma response_written status ctype body extra c c' r :
  write_http_response status ctype body extra c = (c', r) ->
  r <> Panic /\ exists k, c'.(sent) = c.(sent) ++ take k (response_head status ctype body extra ++ body) /\
    ((3 <= c.(writes_left))%nat -> r = Ok tt /\ c'.(sent) = c.(sent) ++ response_head status ctype body extra ++ body).
Proof.
  unfold write_http_response, mbind, st_bind, write_all. set (hd := response_head _ _ _ _).
  destruct (writes_left c) as [|[|[|w]]]; cbn [writes_left sent]; intros [= <- <-]; (split; [done|]); cbn [sent].
  - exists 0%nat. rewrite app_nil_r. split; [done|lia].
  - exists (length hd). rewrite take_app_length. split; [done|lia].
  - exists (length (hd ++ body)). rewrite take_ge by done. rewrite app_assoc. split; [done|lia].
  - exists (length (hd ++ body)). rewrite take_ge by done. rewrite app_nil_r, app_assoc. done.
Qed.

(** A password that is given is asked for; an empty one is refused instead. *)
Lemma password_required enc pw user a :
  metrics_auth_from_password enc (Some pw) user = Ok a -> trim pw <> [] /\ a = Some (bs "Basic " ++ enc (trim user ++ bs ":" ++ pw)).
Proof. unfold metrics_auth_from_password. case_decide; [|done]. by intros [= <-]. Qed.

(** The metrics listener answers one request with one page, whole while the peer takes it and a prefix of it
    otherwise, and never panics; with a password configured, every page but the two refusals is for a request whose first Authorization
    header is the expected value, byte for byte. *)
Theorem metrics_guarded stats auth process_start a c c' r :
  serve_one_http stats auth process_start a c = (c', r) ->
  r <> Panic /\ exists b c1, read 2048 c = (c1, Ok b) /\
    (b = [] -> r = Ok tt /\ c'.(sent) = c.(sent)) /\
    (b <> [] ->
       (exists k, c'.(sent) = c.(sent) ++ take k (page_text stats auth process_start (page_of a b))) /\
       ((3 <= c.(writes_left))%nat -> r = Ok tt /\ c'.(sent) = c.(sent) ++ page_text stats auth process_start (page_of a b)) /\
       (forall expected, a = Some expected -> status_of (page_of a b) <> 405 -> status_of (page_of a b) <> 401 ->
          find_header (parse_http_headers (if utf8_valid b then b else [])) (bs "authorization") = Some expected)).
Proof.
  unfold serve_one_http. destruct (read_spec 2048 c ltac:(lia)) as (b & c1 & Hr & _ & Hs & Hw & _). rewrite (st_bind_step _ _ _ _ _ Hr).
  case_decide as Hb.
  { intros [= <- <-]. split; [done|]. exists b, c1. split; [done|]. by split. }
  intros H. assert (exists status ctype body extra, write_http_response status ctype body extra c1 = (c', r) /\
    page_text stats auth process_start (page_of a b) = response_head status ctype body extra ++ body /\ status_of (page_of a b) = status) as
    (status & ctype & body & extra & Hwr & Ht & Hst).
  { revert H. unfold page_of. repeat case_decide; try (destruct (negb _)); intros Hq; (eexists _, _, _, _; split; [exact Hq|split; reflexivity]). }
  destruct (response_written _ _ _ _ _ _ _ Hwr) as (Hp & k & Hk & Hall). rewrite Hs, <- Ht in *. rewrite Hw in Hall.
  split; [done|]. exists b, c1. split_and!; [done|done|]. intros _. split_and!; [by exists k|done|].
  intros expected ->. unfold page_of. case_decide; [done|]. destruct (negb _) eqn:Ha; [done|]. intros _ _.
  apply negb_false_iff in Ha. unfold authorize in Ha. destruct (find_header _ _) as [got|]; [|done]. by apply secret_eq_true in Ha as ->.
Qed.

Definition request_with (auth : string) : bytes :=
  bs "GET /metrics HTTP/1.1" ++ crlf ++ bs "Host: localhost" ++ crlf ++ bs "AUTHORIZATION: " ++ bs auth ++ crlf ++ crlf.
Lemma metrics_guarded_witness :
  let conn b := {| buf := []; src := b; sent := []; writes_left := 3 |} in
  let serve b := serve_one_http ServerStats_new (AuthRateLimiter_new AuthRateLimiterConfig_default) (bs "0") (basic (fun s => s) (bs "u") (bs "p")) (conn b) in
  page_of (basic (fun s => s) (bs "u") (bs "p")) (request_with "Basic u:p") = MetricsPage /\
  page_of (basic (fun s => s) (bs "u") (bs "p")) (request_with "Basic u:q") = Unauthorized /\
  (serve [request_with "Basic u:p"]).2 = Ok tt /\
  (* a head in two parts is answered on its first part *)
  page_of (basic (fun s => s) (bs "u") (bs "p")) (take 30 (request_with "Basic u:p")) = Unauthorized.
Proof.
  intros conn serve. split; [vm_compute; reflexivity|]. split; [vm_compute; reflexivity|]. split; [|vm_compute; reflexivity].
  destruct (serve [request_with "Basic u:p"]) as [c' r] eqn:E.
  destruct (metrics_guarded _ _ _ _ _ _ _ E) as (_ & b & c1 & Hr & _ & H). vm_compute in Hr. injection Hr as _ <-.
  destruct (H ltac:(done)) as (_ & Hw & _). exact (proj1 (Hw (le_n 3))).
Defined.
