(* ===== verification/Bridge.v ===== *)
(** [ws_bridge.rs]: one TCP stream carried over one WebSocket in padded, sealed binary
    messages. The uplink and downlink tasks, the dummy traffic and the writer are the
    atomic steps of a state machine; what one end reads is what the other end writes. *)
From S2P Require Import Prelude Text Frame Protocol Crypto WebSocket.

(** [filter_client_downlink]: nothing for a late OPEN_OK. *)
Definition filter_client_downlink (inner : bytes) : result (option bytes) :=
  if is_v3_open_ok inner then Ok None else
  match decode_v3_open_err inner with
  | Ok e => Err ("remote OPEN failed: " +:+ text e)%string
  | Err _ => Ok (Some inner)
  | Panic => Panic
  end.

Inductive TunnelEnd : Set := Client | Server.
#[export] Instance TunnelEnd_eq_dec : EqDecision TunnelEnd.
Proof. solve_decision. Defined.

Definition WS_OUT_CAP : nat := 512.

(** What the bridge is built with; the waits between messages have no other effect. *)
Record BridgeCfg := {
  side : TunnelEnd;
  max_pad : Z;
  max_ws_binary : Z;
  pad_mode : PadMode;
  dummy_interval_secs : Z;
}.

(** [bridge_ws_tcp_padded]'s phases: all tasks running; the peer's close being answered; the close
    after the end of the TCP stream, with which of its parts are done; the result. *)
Inductive Phase : Type :=
| Running
| PeerClosed
| Closing (queued up_done writer_done : bool)
| Ended (r : result unit).

Record Bridge := {
  crypto : option SessionCrypto;
  prefetched : list WsBridgePrefetch;
  prefix : bytes;                     (* read from the client before bridging, not yet read from here *)
  pending : bytes;                    (* the rest of the last read *)
  adaptive : option AdaptivePadState;
  adaptive_dummy : option AdaptivePadState;
  outgoing : option bytes;            (* sealed by the downlink, not yet queued *)
  outgoing_dummy : option bytes;
  queue : list Message;
  wire : list Message;                (* fed to the WebSocket *)
  tcp_out : bytes;                    (* written to the TCP stream *)
  phase : Phase;
}.

Definition Bridge_new (crypto : option SessionCrypto) (prefetched : list WsBridgePrefetch) (prefix : bytes) : Bridge :=
  {| crypto := crypto; prefetched := prefetched; prefix := prefix; pending := [];
     adaptive := Some {| count := 0 |}; adaptive_dummy := Some {| count := 0 |}; outgoing := None; outgoing_dummy := None;
     queue := []; wire := []; tcp_out := []; phase := Running |}.

Definition set_phase p b := {| crypto := b.(crypto); prefetched := b.(prefetched); prefix := b.(prefix); pending := b.(pending); adaptive := b.(adaptive);
  adaptive_dummy := b.(adaptive_dummy); outgoing := b.(outgoing); outgoing_dummy := b.(outgoing_dummy); queue := b.(queue); wire := b.(wire); tcp_out := b.(tcp_out); phase := p |}.
Definition set_prefetched p b := {| crypto := b.(crypto); prefetched := p; prefix := b.(prefix); pending := b.(pending); adaptive := b.(adaptive);
  adaptive_dummy := b.(adaptive_dummy); outgoing := b.(outgoing); outgoing_dummy := b.(outgoing_dummy); queue := b.(queue); wire := b.(wire); tcp_out := b.(tcp_out); phase := b.(phase) |}.
Definition set_input p rest b := {| crypto := b.(crypto); prefetched := b.(prefetched); prefix := p; pending := rest; adaptive := b.(adaptive);
  adaptive_dummy := b.(adaptive_dummy); outgoing := b.(outgoing); outgoing_dummy := b.(outgoing_dummy); queue := b.(queue); wire := b.(wire); tcp_out := b.(tcp_out); phase := b.(phase) |}.
Definition set_queues q w b := {| crypto := b.(crypto); prefetched := b.(prefetched); prefix := b.(prefix); pending := b.(pending); adaptive := b.(adaptive);
  adaptive_dummy := b.(adaptive_dummy); outgoing := b.(outgoing); outgoing_dummy := b.(outgoing_dummy); queue := q; wire := w; tcp_out := b.(tcp_out); phase := b.(phase) |}.
Definition set_outgoing o d b := {| crypto := b.(crypto); prefetched := b.(prefetched); prefix := b.(prefix); pending := b.(pending); adaptive := b.(adaptive);
  adaptive_dummy := b.(adaptive_dummy); outgoing := o; outgoing_dummy := d; queue := b.(queue); wire := b.(wire); tcp_out := b.(tcp_out); phase := b.(phase) |}.
Definition set_tcp_out t b := {| crypto := b.(crypto); prefetched := b.(prefetched); prefix := b.(prefix); pending := b.(pending); adaptive := b.(adaptive);
  adaptive_dummy := b.(adaptive_dummy); outgoing := b.(outgoing); outgoing_dummy := b.(outgoing_dummy); queue := b.(queue); wire := b.(wire); tcp_out := t; phase := b.(phase) |}.
Definition set_sealing c a ad b := {| crypto := c; prefetched := b.(prefetched); prefix := b.(prefix); pending := b.(pending); adaptive := a;
  adaptive_dummy := ad; outgoing := b.(outgoing); outgoing_dummy := b.(outgoing_dummy); queue := b.(queue); wire := b.(wire); tcp_out := b.(tcp_out); phase := b.(phase) |}.
Definition end_with r b := set_phase (Ended r) b.

Section Bridge.
Context (aead : Aead) (cfg : BridgeCfg).

(** [max_chunk] and the size of a read. *)
Definition max_chunk (c : option SessionCrypto) : Z :=
  let decoy := match c with Some s => s.(decoy_max) | None => 0 end in
  Z.max (max_tcp_payload_per_ws_message (bool_decide (is_Some c)) decoy cfg.(max_pad) cfg.(max_ws_binary)) 256.
Definition read_cap (c : option SessionCrypto) : Z :=
  Z.max (Z.min (sat_mul USIZE_MAX (max_chunk c) 8) (512 * 1024)) (max_chunk c).

(** ** The uplink: from the WebSocket to TCP *)

(** What a binary message brings for the TCP stream. *)
Definition up_binary (c : option SessionCrypto) (b : bytes) : result bytes :=
  if is_open_ok b then Ok [] else
  match decode_open_err b with
  | Ok e => Err ("remote OPEN failed: " +:+ text e)%string
  | Panic => Panic
  | Err _ =>
    if decide (sat_mul USIZE_MAX cfg.(max_ws_binary) 4 < len b) then bail "oversized WS binary from peer" else
    match c, cfg.(side) with
    | Some c, Client =>
      raw ← map_err (fun _ => "v2 open s2c"%string) (open_server_to_client aead c b);
      payload ← map_err (fun _ => "padded frame"%string) (read_padded_frame_into raw);
      kept ← filter_client_downlink payload;
      Ok (default [] kept)
    | Some c, Server =>
      raw ← map_err (fun _ => "v2 open c2s"%string) (open_client_to_server aead c b);
      map_err (fun _ => "padded frame"%string) (read_padded_frame_into raw)
    | None, _ => map_err (fun _ => "padded frame"%string) (read_padded_frame_borrow b)
    end
  end.

(** A task's failure ends the bridge; a panic is the task's own. *)
Definition fail_with {A} (r : result A) (b : Bridge) (k : A -> Bridge) : Bridge :=
  match r with Ok a => k a | Err e => end_with (Err e) b | Panic => end_with Panic b end.

(** [tcp_write.write_all]: nothing is written for an empty payload. *)
Definition tcp_write (ok : bool) (p : bytes) (b : Bridge) : Bridge :=
  if decide (p = []) then b else if ok then set_tcp_out (b.(tcp_out) ++ p) b else end_with (Err "tcp write"%string) b.

(** Both ends of the closing handshake done. *)
Definition settle_close (b : Bridge) : Bridge :=
  match b.(phase) with Closing true true true => end_with (Ok tt) b | _ => b end.

Definition up_finished (b : Bridge) : Bridge :=
  match b.(phase) with
  | Running => set_phase PeerClosed b
  | Closing q _ w => settle_close (set_phase (Closing q true w) b)
  | _ => b
  end.

(** Room in the channel: [send] waits for it. *)
Definition push (m : Message) (b : Bridge) : option Bridge :=
  if decide (length b.(queue) < WS_OUT_CAP)%nat then Some (set_queues (b.(queue) ++ [m]) b.(wire) b) else None.

(** The writer has the other end of the channel: once it is done, sending on it fails. *)
Definition writer_running (b : Bridge) : bool :=
  match b.(phase) with Running | PeerClosed => true | Closing _ _ done => negb done | Ended _ => false end.

Definition up_message (m : Message) (ok : bool) (b : Bridge) : option Bridge :=
  match m with
  | Binary p => Some (fail_with (up_binary b.(crypto) p) b (fun payload => tcp_write ok payload b))
  | Ping p => if writer_running b then push (Pong p) b else Some (end_with (Err "ws pong"%string) b)
  | Pong _ => Some b
  | CloseMsg => Some (up_finished b)
  | TextMsg _ => Some b
  end.

(** What the next read of the WebSocket brings when nothing is prefetched. *)
Inductive WsRead : Type := Msg (m : Message) | ReadError | Eof.

Definition up_running (b : Bridge) : bool :=
  match b.(phase) with Running => true | Closing _ up_done _ => negb up_done | _ => false end.

(** One turn of the uplink loop. *)
Definition up_step (r : WsRead) (ok : bool) (b : Bridge) : option Bridge :=
  if negb (up_running b) then None else
  match b.(prefetched) with
  | OpenedPayload p :: rest => Some (tcp_write ok p (set_prefetched rest b))
  | Ws m :: rest => up_message m ok (set_prefetched rest b)
  | [] =>
    match r with
    | Msg m => up_message m ok b
    | ReadError => Some (end_with (Err "websocket read"%string) b)
    | Eof => Some (up_finished b)
    end
  end.

(** ** The downlink: from TCP to the WebSocket *)

Definition down_running (b : Bridge) : bool := match b.(phase) with Running => true | _ => false end.

(** A read of the TCP stream: the prefix first, then what arrives; nothing means the end. *)
Definition read_step (data : bytes) (b : Bridge) : option Bridge :=
  if negb (down_running b) then None else
  match b.(outgoing), b.(pending) with
  | None, [] =>
    let cap := Z.to_nat (read_cap b.(crypto)) in
    if decide (b.(prefix) <> []) then Some (set_input (drop cap b.(prefix)) (take cap b.(prefix)) b) else
    if decide (len data <= read_cap b.(crypto)) then
      if decide (data = []) then Some (set_phase (Closing false false false) b) else Some (set_input [] data b)
    else None
  | _, _ => None
  end.

Definition read_error_step (b : Bridge) : option Bridge :=
  if negb (down_running b) then None else
  match b.(outgoing), b.(pending), b.(prefix) with
  | None, [], [] => Some (end_with (Err "tcp read"%string) b)
  | _, _, _ => None
  end.

(** A frame sealed for the peer, or plain. *)
Definition pack (rng rng' : Rng) (payload : bytes) (ad : option AdaptivePadState) (c : option SessionCrypto) :
    option SessionCrypto * option AdaptivePadState * result bytes :=
  match write_padded_frame_with_mode_state rng payload cfg.(max_pad) cfg.(pad_mode) ad with
  | Ok (frame, ad) =>
    match c with
    | Some s =>
      let '(s, r) := match cfg.(side) with
                     | Client => seal_client_to_server aead rng' frame s
                     | Server => seal_server_to_client aead rng' frame s
                     end in
      (Some s, ad, map_err (fun _ => "v2 seal"%string) r)
    | None => (None, ad, Ok frame)
    end
  | Err _ => (c, ad, bail "pack frame")
  | Panic => (c, ad, Panic)
  end.

(** The next chunk of the last read, sealed. *)
Definition chunk_step (rng rng' : Rng) (b : Bridge) : option Bridge :=
  if negb (down_running b) || bool_decide (b.(pending) = []) || bool_decide (is_Some b.(outgoing)) then None else
  let n := Z.to_nat (max_chunk b.(crypto)) in
  let '(c, ad, r) := pack rng rng' (take n b.(pending)) b.(adaptive) b.(crypto) in
  let b := set_sealing c ad b.(adaptive_dummy) b in
  Some (fail_with r b (fun blob =>
    if decide (cfg.(max_ws_binary) < len blob) then end_with (bail "WS binary exceeds --max-ws-binary") b
    else set_outgoing (Some blob) b.(outgoing_dummy) (set_input b.(prefix) (drop n b.(pending)) b))).

Definition send_step (b : Bridge) : option Bridge :=
  if negb (down_running b) then None else
  match b.(outgoing) with
  | Some blob => b ← push (Binary blob) b; Some (set_outgoing None b.(outgoing_dummy) b)
  | None => None
  end.

(** ** Dummy traffic *)

Definition dummy_step (rng rng' : Rng) (b : Bridge) : option Bridge :=
  if negb (down_running b) || (cfg.(dummy_interval_secs) =? 0) || bool_decide (is_Some b.(outgoing_dummy)) then None else
  let '(c, ad, r) := pack rng rng' [] b.(adaptive_dummy) b.(crypto) in
  let b := set_sealing c b.(adaptive) ad b in
  match r with
  | Ok blob => if decide (cfg.(max_ws_binary) < len blob) then Some b else Some (set_outgoing b.(outgoing) (Some blob) b)
  | Err _ => Some b
  | Panic => Some (end_with Panic b)
  end.

Definition dummy_send_step (b : Bridge) : option Bridge :=
  if negb (down_running b) then None else
  match b.(outgoing_dummy) with
  | Some blob => b ← push (Binary blob) b; Some (set_outgoing b.(outgoing) None b)
  | None => None
  end.

(** ** The writer and the close *)

Definition writer_finished (b : Bridge) : Bridge :=
  match b.(phase) with
  | Closing q u _ => settle_close (set_phase (Closing q u true) b)
  | _ => end_with (Ok tt) b
  end.

(** The next queued message fed to the WebSocket; after a close nothing more is. *)
Definition writer_step (ok : bool) (b : Bridge) : option Bridge :=
  if negb (writer_running b) then None else
  match b.(queue) with
  | [] => None
  | m :: q =>
    if negb ok then Some (end_with (Err "ws feed"%string) b) else
    let b := set_queues q (b.(wire) ++ [m]) b in
    Some (match m with CloseMsg => writer_finished b | _ => b end)
  end.

Definition ping_step (ok : bool) (b : Bridge) : option Bridge :=
  if negb (writer_running b) then None else
  match b.(phase) with
  | PeerClosed => None
  | _ => Some (if ok then set_queues b.(queue) (b.(wire) ++ [Ping []]) b else end_with (Err "ws ping"%string) b)
  end.

(** The answer to the peer's close flushed. *)
Definition flush_close_step (ok : bool) (b : Bridge) : option Bridge :=
  match b.(phase) with
  | PeerClosed => Some (end_with (if ok then Ok tt else bail "ws close reply") b)
  | _ => None
  end.

Definition queue_close_step (b : Bridge) : option Bridge :=
  match b.(phase) with
  | Closing false u w => b ← push CloseMsg b; Some (settle_close (set_phase (Closing true u w) b))
  | _ => None
  end.

Definition timeout_step (b : Bridge) : option Bridge :=
  match b.(phase) with
  | PeerClosed => Some (end_with (bail "WS close reply timed out") b)
  | Closing _ _ _ => Some (end_with (bail "WS close handshake timed out") b)
  | _ => None
  end.

Inductive Event : Type :=
| EvUp (r : WsRead) (tcp_ok : bool)
| EvRead (data : bytes)
| EvReadError
| EvChunk (rng rng' : Rng)
| EvSend
| EvDummy (rng rng' : Rng)
| EvDummySend
| EvWriter (ok : bool)
| EvPing (ok : bool)
| EvFlushClose (ok : bool)
| EvQueueClose
| EvTimeout.

Definition bridge_step (e : Event) (b : Bridge) : option Bridge :=
  match e with
  | EvUp r ok => up_step r ok b
  | EvRead data => read_step data b
  | EvReadError => read_error_step b
  | EvChunk rng rng' => chunk_step rng rng' b
  | EvSend => send_step b
  | EvDummy rng rng' => dummy_step rng rng' b
  | EvDummySend => dummy_send_step b
  | EvWriter ok => writer_step ok b
  | EvPing ok => ping_step ok b
  | EvFlushClose ok => flush_close_step ok b
  | EvQueueClose => queue_close_step b
  | EvTimeout => timeout_step b
  end.

(** [bridge_ws_tcp_padded]: any interleaving of its tasks' steps. *)
Fixpoint bridge_run (evs : list Event) (b : Bridge) : option Bridge :=
  match evs with
  | [] => Some b
  | e :: evs => b ← bridge_step e b; bridge_run evs b
  end.
End Bridge.

(** ** What a message carries *)

Definition peer_end (e : TunnelEnd) : TunnelEnd := match e with Client => Server | Server => Client end.

(** What the other end writes for a payload: the client looks for a late status in what the server seals. *)
Definition delivered (sealed : bool) (sender : TunnelEnd) (payload : bytes) : result bytes :=
  match sender with
  | Server => if sealed then kept ← filter_client_downlink payload; Ok (default [] kept) else Ok payload
  | Client => Ok payload
  end.

Lemma filter_nil : filter_client_downlink [] = Ok (Some []).
Proof. reflexivity. Qed.

Lemma delivered_nil sealed e : delivered sealed e [] = Ok [].
Proof. by destruct e, sealed. Qed.

(** A payload the client takes for a status. *)
Definition lookalike (p : bytes) : Prop := p = encode_v3_open_ok \/ exists e, decode_v3_open_err p = Ok e.

Lemma filter_passes p : u8s p -> ~ lookalike p -> filter_client_downlink p = Ok (Some p).
Proof.
  intros Hu Hl. unfold filter_client_downlink, is_v3_open_ok. rewrite bool_decide_eq_false_2 by (intros ->; apply Hl; by left).
  pose proof (codec_safe (dec:=decode_v3_open_err) p Hu) as Hs. destruct (decode_v3_open_err p) as [e|e|] eqn:He; [|done|done].
  exfalso. apply Hl. right. by exists e.
Qed.

Definition keys_match (a b : option SessionCrypto) : Prop :=
  match a, b with Some a, Some b => same_keys a b | None, None => True | _, _ => False end.
Definition small_decoy (c : option SessionCrypto) : Prop := match c with Some s => is_u8 s.(decoy_max) | None => True end.

(** No sealed or padded frame starts like a legacy status. *)
Lemma not_legacy x w : x <> 66 -> is_open_ok (x :: w) = false /\ exists e, decode_open_err (x :: w) = Err e.
Proof.
  intros Hx. split.
  - unfold is_open_ok. apply bool_decide_eq_false. by intros [= ->].
  - unfold decode_open_err. case_decide; [by eexists|]. assert (starts_with (x :: w) OPEN_ERR_MAGIC = false) as ->.
    { unfold starts_with. apply bool_decide_eq_false. by intros [= ->]. }
    by eexists.
Qed.

Lemma up_binary_skip aead cfg c x w : x <> 66 -> len (x :: w) <= sat_mul USIZE_MAX cfg.(max_ws_binary) 4 ->
  up_binary aead cfg c (x :: w) =
    match c, cfg.(side) with
    | Some c, Client =>
      raw ← map_err (fun _ => "v2 open s2c"%string) (open_server_to_client aead c (x :: w));
      payload ← map_err (fun _ => "padded frame"%string) (read_padded_frame_into raw);
      kept ← filter_client_downlink payload;
      Ok (default [] kept)
    | Some c, Server =>
      raw ← map_err (fun _ => "v2 open c2s"%string) (open_client_to_server aead c (x :: w));
      map_err (fun _ => "padded frame"%string) (read_padded_frame_into raw)
    | None, _ => map_err (fun _ => "padded frame"%string) (read_padded_frame_borrow (x :: w))
    end.
Proof.
  intros Hx Hl. destruct (not_legacy x w Hx) as [H1 [e H2]]. unfold up_binary. rewrite H1, H2. by rewrite decide_False by lia.
Qed.

Lemma frame_read rng p mp mode ad frame ad' : is_u8 mp ->
  write_padded_frame_with_mode_state rng p mp mode ad = Ok (frame, ad') ->
  read_padded_frame_into frame = Ok p /\ read_padded_frame_borrow frame = Ok p /\ exists w, frame = FRAME_VER :: w.
Proof.
  intros Hm Hw. destruct (write_padded_Ok _ _ _ _ _ _ _ Hm Hw) as (pad & -> & Hp & Hl). unfold is_u8 in Hm.
  split_and!; [apply read_into_layout; lia|apply read_layout; lia|]. unfold layout. by eexists.
Qed.

(** A sealed packet starts with its nonce. *)
Lemma seal_c2s_wire aead rng inner a a' wire :
  is_u8 a.(decoy_max) -> seal_client_to_server aead rng inner a = (a', Ok wire) -> exists t, wire = 0 :: t.
Proof.
  intros Hd H. unfold seal_client_to_server, mbind, st_bind, gets, on_c2s, seal in H. destruct (seal_with _ _ _ _ (c2s a)) as [h r] eqn:Hw. injection H as <- ->.
  apply (seal_with_Ok _ _ _ _ inner) in Hw as (_ & _ & c & tag & -> & _); [by eexists|done|done].
Qed.
Lemma seal_s2c_wire aead rng inner a a' wire :
  is_u8 a.(decoy_max) -> seal_server_to_client aead rng inner a = (a', Ok wire) -> exists t, wire = 0 :: t.
Proof.
  intros Hd H. unfold seal_server_to_client, mbind, st_bind, gets, on_s2c, seal in H. destruct (seal_with _ _ _ _ (s2c a)) as [h r] eqn:Hw. injection H as <- ->.
  apply (seal_with_Ok _ _ _ _ inner) in Hw as (_ & _ & c & tag & -> & _); [by eexists|done|done].
Qed.

Section Carried.
Context (aead : Aead) (cfg cfg' : BridgeCfg) (k k' : option SessionCrypto).
Context (Hside : cfg'.(side) = peer_end cfg.(side)) (Hpad : is_u8 cfg.(max_pad)).
Context (Hws : cfg.(max_ws_binary) <= sat_mul USIZE_MAX cfg'.(max_ws_binary) 4).

Abbreviation sealed := (bool_decide (is_Some k')).

Definition carries (m : Message) (payload : bytes) : Prop :=
  match m with
  | Binary p => up_binary aead cfg' k' p = delivered sealed cfg.(side) payload
  | TextMsg _ => False
  | _ => payload = []
  end.

Lemma pack_carries rng rng' payload ad c c' ad' r :
  keys_match c k' -> small_decoy c -> pack aead cfg rng rng' payload ad c = (c', ad', r) ->
  keys_match c' k' /\ small_decoy c' /\
  forall blob, r = Ok blob -> len blob <= cfg.(max_ws_binary) -> carries (Binary blob) payload.
Proof using Hside Hpad Hws.
  intros Hk Hd. unfold pack. destruct (write_padded_frame_with_mode_state _ _ _ _ _) as [[frame ad1]|e|] eqn:Hw; [|by intros [= <- <- <-]..].
  destruct (frame_read _ _ _ _ _ _ _ Hpad Hw) as (Hr1 & Hr2 & w & Hf). unfold carries. destruct c as [s|]; destruct k' as [s'|]; try done.
  - destruct (side cfg) eqn:Hs; simpl in Hside.
    + destruct (seal_client_to_server aead rng' frame s) as [s1 q] eqn:Hseal. intros [= <- <- <-].
      destruct (seal_keeps aead rng' frame s s1 q true Hseal) as [Hk1 Hd1]. split_and!; [change (same_keys s1 s'); etransitivity; [symmetry; exact Hk1|exact Hk]|by unfold small_decoy; rewrite Hd1|].
      intros blob Hq Hlen. destruct q as [wire'|?|]; try done. injection Hq as <-.
      destruct (seal_c2s_wire aead rng' frame s s1 wire' Hd Hseal) as [t ->].
      destruct (seal_c2s_ok aead rng' frame s s' s1 _ Hd Hk Hseal) as [Ho _ _ _ _].
      rewrite up_binary_skip by (done || lia). rewrite Hside, Ho. simpl. by rewrite Hr1.
    + destruct (seal_server_to_client aead rng' frame s) as [s1 q] eqn:Hseal. intros [= <- <- <-].
      destruct (seal_keeps aead rng' frame s s1 q false Hseal) as [Hk1 Hd1]. split_and!; [change (same_keys s1 s'); etransitivity; [symmetry; exact Hk1|exact Hk]|by unfold small_decoy; rewrite Hd1|].
      intros blob Hq Hlen. destruct q as [wire'|?|]; try done. injection Hq as <-.
      destruct (seal_s2c_wire aead rng' frame s s1 wire' Hd Hseal) as [t ->].
      destruct (seal_s2c_ok aead rng' frame s s' s1 _ Hd Hk Hseal) as [Ho _ _ _ _].
      rewrite up_binary_skip by (done || lia). rewrite Hside, Ho. simpl. by rewrite Hr1.
  - intros [= <- <- <-]. split_and!; [done|done|]. intros blob [= <-] Hlen. subst frame.
    rewrite up_binary_skip by (done || lia). rewrite Hr2. simpl. by destruct (side cfg).
Qed.
End Carried.

(** ** The sending side *)

Section Sending.
Context (aead : Aead) (cfg cfg' : BridgeCfg) (k' : option SessionCrypto).

Abbreviation carry := (carries aead cfg cfg' k').

Definition carry_all (ms : list Message) (data : bytes) : Prop := exists ps, Forall2 carry ms ps /\ concat ps = data.

Lemma carry_all_app ms ms' data data' : carry_all ms data -> carry_all ms' data' -> carry_all (ms ++ ms') (data ++ data').
Proof using.
  intros (ps & H & <-) (ps' & H' & <-). exists (ps ++ ps'). rewrite concat_app. split; [by apply Forall2_app|done].
Qed.
Lemma carry_all_one m p : carry m p -> carry_all [m] p.
Proof using. intros H. exists [p]. simpl. rewrite app_nil_r. split; [by repeat constructor|done]. Qed.
Lemma carry_all_snoc ms m data p : carry_all ms data -> carry m p -> carry_all (ms ++ [m]) (data ++ p).
Proof using. intros H Hm. by apply carry_all_app; [|apply carry_all_one]. Qed.

Definition carry_option (o : option bytes) (p : bytes) : Prop := match o with Some blob => carry (Binary blob) p | None => p = [] end.

(** The close: it ends what is fed, and nothing is left to send when it is queued. *)
Definition drained (b : Bridge) : Prop := b.(prefix) = [] /\ b.(pending) = [] /\ b.(outgoing) = None.
Definition close_inv (b : Bridge) : Prop :=
  (match b.(phase) with
   | Running | PeerClosed => CloseMsg ∉ b.(wire) ++ b.(queue)
   | Closing queued _ written => drained b /\ (queued = false -> CloseMsg ∉ b.(queue)) /\ (written = false -> CloseMsg ∉ b.(wire))
   | Ended _ => True
   end) /\
  (CloseMsg ∈ b.(wire) -> drained b /\ last b.(wire) = Some CloseMsg /\ match b.(phase) with Closing _ _ true | Ended _ => True | _ => False end).

Record send_inv (data : bytes) (b : Bridge) : Prop := {
  si_carried : exists sent out, carry_all (b.(wire) ++ b.(queue)) sent /\ carry_option b.(outgoing) out /\
    sent ++ out ++ b.(pending) ++ b.(prefix) = data;
  si_dummy : carry_option b.(outgoing_dummy) [];
  si_keys : keys_match b.(crypto) k';
  si_decoy : small_decoy b.(crypto);
  si_close : close_inv b;
}.

Lemma send_inv_new c pre px : keys_match c k' -> small_decoy c -> send_inv px (Bridge_new c pre px).
Proof using.
  intros Hk Hd. constructor; try done.
  - exists [], []. split_and!; [by exists []|done|done].
  - split; simpl; [set_solver|]. intros []%elem_of_nil.
Qed.

(** The fields the sending side depends on. *)
Definition same_sending (b b' : Bridge) : Prop :=
  b'.(wire) = b.(wire) /\ b'.(queue) = b.(queue) /\ b'.(outgoing) = b.(outgoing) /\ b'.(outgoing_dummy) = b.(outgoing_dummy) /\
  b'.(pending) = b.(pending) /\ b'.(prefix) = b.(prefix) /\ b'.(crypto) = b.(crypto).

Lemma send_inv_same data b b' : same_sending b b' -> b'.(phase) = b.(phase) -> send_inv data b -> send_inv data b'.
Proof using.
  intros (Hw & Hq & Ho & Hod & Hp & Hx & Hc) Hph [H1 H2 H3 H4 H5]. constructor; [..|unfold close_inv, drained in *]; by rewrite ?Hw, ?Hq, ?Ho, ?Hod, ?Hp, ?Hx, ?Hc, ?Hph.
Qed.

Lemma send_inv_tcp data b t : send_inv data b -> send_inv data (set_tcp_out t b).
Proof using. apply send_inv_same; [by split_and!|done]. Qed.
Lemma send_inv_prefetched data b l : send_inv data b -> send_inv data (set_prefetched l b).
Proof using. apply send_inv_same; [by split_and!|done]. Qed.

Lemma send_inv_finish data b r : send_inv data b -> send_inv data (end_with r b).
Proof using.
  intros [H1 H2 H3 H4 [_ H5]]. constructor; try done. split; [done|]. simpl. intros H%H5. tauto.
Qed.

Lemma send_inv_settle data b : send_inv data b -> send_inv data (settle_close b).
Proof using. intros H. unfold settle_close. by destruct (phase b) as [| |[] [] []|]; try apply send_inv_finish. Qed.

Lemma send_inv_push data m b b' :
  push m b = Some b' -> carry m [] -> m <> CloseMsg -> send_inv data b -> send_inv data b'.
Proof using.
  unfold push. case_decide; [|done]. intros [= <-] Hm Hne [(sent & out & H1 & H1' & H1'') H2 H3 H4 [H5 H6]]. constructor; try done.
  - exists sent, out. split_and!; [|done|done]. simpl. rewrite app_assoc, <- (app_nil_r sent). by apply carry_all_snoc.
  - split; [|done]. simpl. destruct (phase b) as [| |q u w|]; [set_solver..| |done]. destruct H5 as (? & Hq & ?). split_and!; [done| |done].
    intros Hf%Hq. set_solver.
Qed.

Lemma up_finished_inv data b : up_running b = true -> send_inv data b -> send_inv data (up_finished b).
Proof using.
  unfold up_finished, up_running. intros Hr H. destruct (phase b) as [| |q u w|] eqn:Hp; try done.
  - destruct H as [H1 H2 H3 H4 [H5 H6]]. rewrite Hp in *. by constructor.
  - apply send_inv_settle. destruct H as [H1 H2 H3 H4 [H5 H6]]. rewrite Hp in *. by constructor.
Qed.

Lemma up_message_inv data m ok b b' :
  up_running b = true -> up_message aead cfg m ok b = Some b' -> send_inv data b -> send_inv data b'.
Proof using.
  intros Hr Hs H. unfold up_message in Hs. destruct m as [p|s|p|p|].
  - injection Hs as <-. unfold fail_with. destruct (up_binary _ _ _ _) as [payload|e|]; [|by apply send_inv_finish..].
    unfold tcp_write. case_decide; [done|]. destruct ok; [by apply send_inv_tcp|by apply send_inv_finish].
  - by injection Hs as <-.
  - destruct (writer_running b); [by eapply send_inv_push|injection Hs as <-; by apply send_inv_finish].
  - by injection Hs as <-.
  - injection Hs as <-. by apply up_finished_inv.
Qed.

Lemma up_step_inv data r ok b b' : up_step aead cfg r ok b = Some b' -> send_inv data b -> send_inv data b'.
Proof using.
  unfold up_step. destruct (up_running b) eqn:Hr; [|done]. simpl. intros Hs H.
  assert (forall rest, send_inv data (set_prefetched rest b)) as Hpre by (intros; by apply send_inv_prefetched).
  destruct (prefetched b) as [|[m|p] rest].
  - destruct r as [m| |]; [by eapply up_message_inv|injection Hs as <-; by apply send_inv_finish|injection Hs as <-; by apply up_finished_inv].
  - by eapply (up_message_inv data m ok (set_prefetched rest b)).
  - injection Hs as <-. unfold tcp_write. case_decide; [done|]. destruct ok; [by apply send_inv_tcp|by apply send_inv_finish].
Qed.

(** A read adds to the data; an end of the stream starts the close. *)
Lemma read_step_inv data d b b' :
  read_step cfg d b = Some b' -> send_inv data b -> send_inv (data ++ (if decide (b.(prefix) = []) then d else [])) b'.
Proof using.
  unfold read_step, down_running. intros Hs [(sent & out & H1 & H1' & H1'') H2 H3 H4 [H5 H6]].
  destruct (phase b) eqn:Hp; try done. simpl in Hs. destruct (outgoing b) as [?|] eqn:Ho; [done|]. destruct (pending b) as [|? ?] eqn:Hpe; [|done].
  simpl in H1'. subst out. destruct (decide (prefix b = [])) as [Hpx|Hpx].
  - rewrite decide_False in Hs by tauto. case_decide; [|done]. rewrite Hpx, !app_nil_r in H1''. simpl in H1''. subst sent. case_decide; injection Hs as <-.
    + subst d. rewrite app_nil_r. constructor; try done; simpl.
      * exists data, []. rewrite Ho, Hpe, Hpx, !app_nil_r. done.
      * split; simpl; [|intros Hc; by apply H6 in Hc as (_ & _ & [])]. unfold drained. simpl. split_and!; try done; intros _; set_solver.
    + constructor; try done; simpl.
      * exists data, []. rewrite Ho, app_nil_r. done.
      * split; simpl; [by rewrite Hp|]. intros Hc. by apply H6 in Hc as (_ & _ & []).
  - rewrite decide_True in Hs by done. injection Hs as <-. rewrite app_nil_r. constructor; try done; simpl.
    + exists sent, []. rewrite Ho. split_and!; [done|done|]. simpl. rewrite take_drop. simpl in H1''. done.
    + split; simpl; [by rewrite Hp|]. intros Hc. by apply H6 in Hc as (_ & _ & []).
Qed.

Lemma outgoing_push data b b' blob o d p :
  push (Binary blob) b = Some b' -> carry (Binary blob) p -> send_inv data b ->
  (o = b.(outgoing) /\ p = [] /\ carry_option d []) \/ (b.(outgoing) = Some blob /\ o = None /\ d = b.(outgoing_dummy)) ->
  send_inv data (set_outgoing o d b').
Proof using.
  intros Hpush Hp [(sent & out & H1 & H1' & H1'') H2 H3 H4 [H5 H6]] Hcase. unfold push in Hpush. case_decide; [|done]. injection Hpush as <-.
  assert (close_inv (set_outgoing o d (set_queues (queue b ++ [Binary blob]) (wire b) b))) as Hclose.
  { split; simpl.
    - destruct (phase b) as [| |q u w|] eqn:Hph; [set_solver..| |done]. destruct H5 as ((? & ? & Ho) & Hq & ?).
      split_and!; [|intros Hf%Hq; set_solver|done]. unfold drained. simpl. destruct Hcase as [(-> & _)|(Hs & _)]; [done|congruence].
    - intros Hc. destruct (H6 Hc) as ((? & ? & Ho) & ? & ?). split_and!; [|done|done]. unfold drained. simpl.
      destruct Hcase as [(-> & _)|(Hs & _)]; [done|congruence]. }
  destruct Hcase as [(-> & -> & Hd)|(Hs & -> & ->)]; constructor; simpl; try done.
  - exists sent, out. split_and!; [|done|done]. rewrite app_assoc, <- (app_nil_r sent). by apply carry_all_snoc.
  - rewrite Hs in H1'. exists (sent ++ out), []. split_and!; [|done|by rewrite <- H1'', <- !app_assoc]. rewrite app_assoc. by apply carry_all_snoc.
Qed.

Lemma send_step_inv data b b' : send_step b = Some b' -> send_inv data b -> send_inv data b'.
Proof using.
  unfold send_step. destruct (down_running b); [|done]. simpl. destruct (outgoing b) as [blob|] eqn:Ho; [|done].
  intros (b1 & Hp & [= <-])%bind_Some H. pose proof H as [(sent & out & _ & H1' & _) _ _ _ _]. rewrite Ho in H1'.
  assert (outgoing_dummy b1 = outgoing_dummy b) as -> by (unfold push in Hp; case_decide; by simplify_eq). eapply outgoing_push; [done..|]. by right.
Qed.

Lemma dummy_send_step_inv data b b' : dummy_send_step b = Some b' -> send_inv data b -> send_inv data b'.
Proof using.
  unfold dummy_send_step. destruct (down_running b); [|done]. simpl. destruct (outgoing_dummy b) as [blob|] eqn:Ho; [|done].
  intros (b1 & Hp & [= <-])%bind_Some H. pose proof (si_dummy _ _ H) as H2. rewrite Ho in H2.
  assert (outgoing b1 = outgoing b) as -> by (unfold push in Hp; case_decide; by simplify_eq). eapply outgoing_push; [done..|]. by left.
Qed.

Lemma writer_step_inv data ok b b' : writer_step ok b = Some b' -> send_inv data b -> send_inv data b'.
Proof using.
  unfold writer_step. destruct (writer_running b) eqn:Hr; [|done]. simpl. destruct (queue b) as [|m q] eqn:Hq; [done|].
  destruct ok; simpl; [|intros [= <-]; by apply send_inv_finish]. intros [= <-] H. pose proof H as [(sent & out & H1 & H1' & H1'') H2 H3 H4 [H5 H6]].
  rewrite Hq in *. assert (carry_all ((wire b ++ [m]) ++ q) sent) as Hca by (by rewrite <- app_assoc).
  assert (CloseMsg ∉ wire b) as Hno.
  { intros Hc%H6. unfold writer_running in Hr. destruct (phase b) as [| |? ? []|]; tauto || done. }
  assert (m = CloseMsg \/ m <> CloseMsg) as [-> | Hm] by (destruct m; (by left) || (by right)).
  - unfold writer_finished. simpl. unfold writer_running in Hr. destruct (phase b) as [| |qd u w|] eqn:Hp; [exfalso; set_solver..| |done].
    destruct H5 as (Hdr & Hq1 & _). apply send_inv_settle. constructor; try done; simpl; [by exists sent, out|]. split; simpl; [split_and!; [done| |done]|].
    + intros Hf%Hq1. set_solver.
    + intros _. split_and!; [done|by rewrite last_snoc|done].
  - replace (match m with CloseMsg => _ | _ => _ end) with (set_queues q (wire b ++ [m]) b) by (by destruct m).
    constructor; try done; simpl; [by exists sent, out|]. split; simpl; [|set_solver].
    destruct (phase b) as [| |qd u w|] eqn:Hp; [by rewrite <- app_assoc..| |done]. destruct H5 as (? & Hq1 & Hq2). split_and!; [done|intros Hf%Hq1; set_solver|].
    intros Hf%Hq2. set_solver.
Qed.

Lemma ping_step_inv data ok b b' : ping_step ok b = Some b' -> send_inv data b -> send_inv data b'.
Proof using.
  unfold ping_step. destruct (writer_running b) eqn:Hr; [|done]. simpl. intros Hs H.
  assert (Some (if ok then set_queues (queue b) (wire b ++ [Ping []]) b else end_with (Err "ws ping"%string) b) = Some b' /\ phase b <> PeerClosed) as [[= <-] Hne]
    by (by destruct (phase b)). destruct ok; [|by apply send_inv_finish].
  destruct H as [(sent & out & (ps & Hps & Hsent) & H1' & H1'') H2 H3 H4 [H5 H6]].
  assert (CloseMsg ∉ wire b) as Hno by (intros Hc%H6; unfold writer_running in Hr; destruct (phase b) as [| |? ? []|]; tauto || done).
  constructor; try done; simpl.
  - exists sent, out. split_and!; [|done|done]. apply Forall2_app_inv_l in Hps as (p1 & p2 & Hp1 & Hp2 & ->). exists (p1 ++ [[]] ++ p2). split.
    + rewrite <- app_assoc. apply Forall2_app; [done|]. by constructor.
    + by rewrite <- Hsent, !concat_app.
  - split; simpl; [|set_solver]. destruct (phase b) as [| |q u w|]; [set_solver..| |done]. destruct H5 as (? & ? & Hq2). split_and!; [done|done|].
    intros Hf%Hq2. set_solver.
Qed.

Lemma queue_close_inv data b b' : queue_close_step b = Some b' -> send_inv data b -> send_inv data b'.
Proof using.
  unfold queue_close_step. destruct (phase b) as [| |[] u w|] eqn:Hp; try done. intros (b1 & Hpush & [= <-])%bind_Some H. apply send_inv_settle.
  unfold push in Hpush. case_decide; [|done]. injection Hpush as <-. destruct H as [(sent & out & H1 & H1' & H1'') H2 H3 H4 [H5 H6]]. rewrite Hp in *.
  constructor; try done; simpl.
  - exists sent, out. split_and!; [|done|done]. rewrite app_assoc, <- (app_nil_r sent). by apply carry_all_snoc.
  - destruct H5 as (? & ? & ?). by split.
Qed.

Section Packing.
Context (Hside : cfg'.(side) = peer_end cfg.(side)) (Hpad : is_u8 cfg.(max_pad)).
Context (Hws : cfg.(max_ws_binary) <= sat_mul USIZE_MAX cfg'.(max_ws_binary) 4).

Lemma send_inv_sealing data b c a ad : keys_match c k' -> small_decoy c -> send_inv data b -> send_inv data (set_sealing c a ad b).
Proof using. intros Hc Hd [H1 H2 H3 H4 H5]. by constructor. Qed.

Lemma down_running_open b : down_running b = true -> b.(phase) = Running.
Proof using. unfold down_running. by destruct (phase b). Qed.

Lemma chunk_step_inv data rng rng' b b' : chunk_step aead cfg rng rng' b = Some b' -> send_inv data b -> send_inv data b'.
Proof using Hside Hpad Hws.
  unfold chunk_step. destruct (down_running b) eqn:Hr; [|done]. apply down_running_open in Hr. simpl.
  destruct (bool_decide (pending b = [])); [done|]. simpl. destruct (outgoing b) as [?|] eqn:Ho; [done|]. simpl.
  set (n := Z.to_nat _). destruct (pack _ _ _ _ _ _ _) as [[c ad] r] eqn:Hpk. intros [= <-] H. pose proof H as [(sent & out & H1 & H1' & H1'') H2 H3 H4 [H5 H6]].
  destruct (pack_carries aead cfg cfg' k' Hside Hpad Hws _ _ _ _ _ _ _ _ H3 H4 Hpk) as (Hk & Hd & Hc). rewrite Ho in H1'. simpl in H1'. subst out.
  unfold fail_with. destruct r as [blob|e|]; [|by apply send_inv_finish, send_inv_sealing..]. specialize (Hc blob eq_refl).
  assert (CloseMsg ∉ wire b) as Hno by (intros Hc'; apply H6 in Hc' as (_ & _ & Hc'); by rewrite Hr in Hc').
  case_decide as Hlen; [by apply send_inv_finish, send_inv_sealing|].
  constructor; simpl; try done; [|split; [rewrite Hr in H5; simpl; by rewrite Hr|]; by intros ?%Hno].
  exists sent, (take n (pending b)). split_and!; [done|apply Hc; lia|]. by rewrite <- H1'', (app_assoc (take n _)), take_drop.
Qed.

Lemma dummy_step_inv data rng rng' b b' : dummy_step aead cfg rng rng' b = Some b' -> send_inv data b -> send_inv data b'.
Proof using Hside Hpad Hws.
  unfold dummy_step. destruct (_ || _); [done|]. destruct (pack _ _ _ _ _ _ _) as [[c ad] r] eqn:Hpk. intros Hs H.
  destruct (pack_carries aead cfg cfg' k' Hside Hpad Hws _ _ _ _ _ _ _ _ (si_keys _ _ H) (si_decoy _ _ H) Hpk) as (Hk & Hd & Hc).
  destruct r as [blob|e|]; [|injection Hs as <-; by apply send_inv_sealing|injection Hs as <-; by apply send_inv_finish, send_inv_sealing].
  case_decide as Hlen; injection Hs as <-; [by apply send_inv_sealing|]. specialize (Hc blob eq_refl).
  apply (send_inv_sealing _ _ c (adaptive b) ad) in H as [H1 H2 H3 H4 H5]; [|done..]. constructor; try done. simpl. apply Hc. lia.
Qed.


(** What a run reads of the TCP stream: nothing before the prefix is used up. *)
Fixpoint tcp_reads (evs : list Event) (b : Bridge) : bytes :=
  match evs with
  | [] => []
  | e :: evs =>
    (match e with EvRead d => if decide (b.(prefix) = []) then d else [] | _ => [] end) ++
    match bridge_step aead cfg e b with Some b => tcp_reads evs b | None => [] end
  end.

Lemma bridge_step_inv data e b b' :
  bridge_step aead cfg e b = Some b' -> send_inv data b ->
  send_inv (data ++ match e with EvRead d => if decide (b.(prefix) = []) then d else [] | _ => [] end) b'.
Proof using Hside Hpad Hws.
  intros Hs H. destruct e; simpl in Hs; [|by eapply read_step_inv|..]; rewrite ?app_nil_r.
  - by eapply up_step_inv.
  - unfold read_error_step in Hs. destruct (down_running b), (outgoing b), (pending b), (prefix b); try done. injection Hs as <-. by apply send_inv_finish.
  - by eapply chunk_step_inv.
  - by eapply send_step_inv.
  - by eapply dummy_step_inv.
  - by eapply dummy_send_step_inv.
  - by eapply writer_step_inv.
  - by eapply ping_step_inv.
  - unfold flush_close_step in Hs. destruct (phase b); try done. injection Hs as <-. by apply send_inv_finish.
  - by eapply queue_close_inv.
  - unfold timeout_step in Hs. destruct (phase b); try done; injection Hs as <-; by apply send_inv_finish.
Qed.

Lemma bridge_run_inv data evs b b' : bridge_run aead cfg evs b = Some b' -> send_inv data b -> send_inv (data ++ tcp_reads evs b) b'.
Proof using Hside Hpad Hws.
  revert data b. induction evs as [|e evs IH]; intros data b; simpl; [intros [= <-]; by rewrite app_nil_r|].
  intros (b1 & Hs & Hr)%bind_Some H. rewrite Hs, app_assoc. apply IH; [done|]. by eapply bridge_step_inv.
Qed.
End Packing.
End Sending.

(** ** The receiving side *)

(** The keys stay those of the session, on which opening depends. *)
Lemma up_binary_keys aead cfg c c' b : keys_match c c' -> up_binary aead cfg c b = up_binary aead cfg c' b.
Proof.
  intros Hk. unfold up_binary. destruct c as [s|], c' as [s'|]; try done. destruct Hk as [H1 H2].
  unfold open_server_to_client, open_client_to_server, open, open_range. rewrite H1, H2. done.
Qed.

Section Receiving.
Context (aead : Aead) (cfg : BridgeCfg).

(** The messages a run takes from the WebSocket, those taken before it first. *)
Fixpoint received (evs : list Event) (b : Bridge) : list WsBridgePrefetch :=
  match evs with
  | [] => []
  | e :: evs =>
    (match e, b.(prefetched) with
     | EvUp _ _, x :: _ => [x]
     | EvUp (Msg m) _, [] => [Ws m]
     | _, _ => []
     end) ++
    match bridge_step aead cfg e b with Some b => received evs b | None => [] end
  end.

Definition brings (c : option SessionCrypto) (x : WsBridgePrefetch) : bytes :=
  match x with
  | OpenedPayload p => p
  | Ws (Binary b) => match up_binary aead cfg c b with Ok p => p | _ => [] end
  | Ws _ => []
  end.

Definition failed (b : Bridge) : Prop := match b.(phase) with Ended (Ok _) => False | Ended _ => True | _ => False end.

(** What has been written, of what the messages so far brought. *)
Definition recv_inv (k : option SessionCrypto) (got : bytes) (b : Bridge) : Prop :=
  keys_match b.(crypto) k /\ (exists rest, got = b.(tcp_out) ++ rest) /\ (failed b \/ got = b.(tcp_out)).

Lemma tcp_write_recv k got p ok b : recv_inv k got b -> ~ failed b -> recv_inv k (got ++ p) (tcp_write ok p b).
Proof using.
  intros (Hk & _ & [Hf|Hg]) Hnf; [done|]. unfold tcp_write. case_decide as Hp; [subst p; rewrite app_nil_r; split_and!; [done|exists []; by rewrite app_nil_r|by right]|].
  subst got. destruct ok; simpl; split_and!; try done; [by exists []; rewrite app_nil_r|by right|by exists p|by left].
Qed.

Lemma recv_inv_fail k got p b r : recv_inv k got b -> (r = Panic \/ exists e, r = Err e) -> p = [] -> recv_inv k (got ++ p) (end_with r b).
Proof using.
  intros (Hk & Hr & _) Hf ->. rewrite app_nil_r. split_and!; [done|done|]. left. by destruct Hf as [-> | [e ->]].
Qed.

Lemma keys_match_refl c : keys_match c c.
Proof using. by destruct c. Qed.
Lemma keys_match_trans a b c : keys_match a b -> keys_match b c -> keys_match a c.
Proof using. destruct a, b, c; simpl; try done. intros H1 H2. by etransitivity. Qed.
Lemma keys_match_sym a b : keys_match a b -> keys_match b a.
Proof using. destruct a, b; simpl; intros H; first [done | exact (symmetry H)]. Qed.

Lemma pack_keys rng rng' p ad c c' ad' r : pack aead cfg rng rng' p ad c = (c', ad', r) -> keys_match c c'.
Proof using.
  unfold pack. destruct (write_padded_frame_with_mode_state _ _ _ _ _) as [[frame ad1]|e|]; [|intros [= <- _ _]; apply keys_match_refl..].
  destruct c as [s|]; [|by intros [= <- _ _]].
  destruct (side cfg); [destruct (seal_client_to_server _ _ _ _) as [s1 q] eqn:Hs|destruct (seal_server_to_client _ _ _ _) as [s1 q] eqn:Hs]; intros [= <- _ _].
  - by destruct (seal_keeps aead _ _ _ _ _ true Hs).
  - by destruct (seal_keeps aead _ _ _ _ _ false Hs).
Qed.

(** A step that leaves the TCP side and the keys alone. *)
Definition quiet (b b' : Bridge) : Prop := b'.(tcp_out) = b.(tcp_out) /\ keys_match b.(crypto) b'.(crypto).

Lemma quiet_same b b' : b'.(tcp_out) = b.(tcp_out) -> b'.(crypto) = b.(crypto) -> quiet b b'.
Proof using. intros Ht Hc. split; [done|rewrite Hc; apply keys_match_refl]. Qed.
Lemma quiet_settle b b' : quiet b b' -> quiet b (settle_close b').
Proof using. unfold settle_close. by destruct (phase b') as [| |[] [] []|]. Qed.
Lemma quiet_push m b b' : push m b = Some b' -> quiet b b'.
Proof using. unfold push. case_decide; [|done]. intros [= <-]. by apply quiet_same. Qed.

Lemma quiet_step e b b' : (forall r ok, e <> EvUp r ok) -> bridge_step aead cfg e b = Some b' -> quiet b b'.
Proof using.
  intros He. destruct e as [r ok|d| |rng rng'| |rng rng'| |ok|ok|ok| |]; simpl; [by destruct (He r ok)|..].
  - unfold read_step. destruct (negb _); [done|]. destruct (outgoing b), (pending b); try done.
    repeat case_decide; try done; intros [= <-]; by apply quiet_same.
  - unfold read_error_step. destruct (negb _), (outgoing b), (pending b), (prefix b); try done. intros [= <-]. by apply quiet_same.
  - unfold chunk_step. destruct (_ || _); [done|]. destruct (pack _ _ _ _ _ _ _) as [[c ad] r] eqn:Hp. apply pack_keys in Hp.
    intros [= <-]. destruct r as [blob|e|]; simpl; [case_decide|..]; by split.
  - unfold send_step. destruct (negb _), (outgoing b); try done. intros (b1 & Hp%quiet_push & [= <-])%bind_Some. exact Hp.
  - unfold dummy_step. destruct (_ || _); [done|]. destruct (pack _ _ _ _ _ _ _) as [[c ad] r] eqn:Hp. apply pack_keys in Hp.
    destruct r as [blob|e|]; [case_decide|..]; intros [= <-]; by split.
  - unfold dummy_send_step. destruct (negb _), (outgoing_dummy b); try done. intros (b1 & Hp%quiet_push & [= <-])%bind_Some. exact Hp.
  - unfold writer_step. destruct (negb _), (queue b) as [|m q]; try done. destruct (negb ok); intros [= <-]; [by apply quiet_same|].
    destruct m; try by apply quiet_same. unfold writer_finished. simpl. destruct (phase b); try by apply quiet_same. apply quiet_settle. by apply quiet_same.
  - unfold ping_step. destruct (negb _), (phase b); try done; intros [= <-]; destruct ok; by apply quiet_same.
  - unfold flush_close_step. destruct (phase b); try done. intros [= <-]. by apply quiet_same.
  - unfold queue_close_step. destruct (phase b) as [| |[] u w|]; try done. intros (b1 & Hp%quiet_push & [= <-])%bind_Some. apply quiet_settle, Hp.
  - unfold timeout_step. destruct (phase b); try done; intros [= <-]; by apply quiet_same.
Qed.

(** Nothing happens once the bridge has ended. *)
Lemma ended_stops e b b' : bridge_step aead cfg e b = Some b' -> ~ failed b.
Proof using.
  intros Hs Hf. unfold failed in Hf. destruct (phase b) as [| | |r] eqn:Hp; try done.
  destruct e; simpl in Hs; unfold up_step, read_step, read_error_step, chunk_step, send_step, dummy_step, dummy_send_step, writer_step, ping_step, flush_close_step,
    queue_close_step, timeout_step, up_running, down_running, writer_running in Hs; by rewrite Hp in Hs.
Qed.

Lemma recv_inv_quiet k got b b' : quiet b b' -> recv_inv k got b -> ~ failed b -> recv_inv k got b'.
Proof using.
  intros (Ht & Hq) (Hk & Hr & [Hf|Hg]) Hnf; [done|]. split_and!; [by eapply keys_match_trans; [apply keys_match_sym|]|by rewrite Ht|by right; rewrite Ht].
Qed.

Lemma up_finished_quiet b : quiet b (up_finished b).
Proof using. unfold up_finished. destruct (phase b); try by apply quiet_same. apply quiet_settle. by apply quiet_same. Qed.

Lemma up_message_recv k got m ok b b' :
  up_message aead cfg m ok b = Some b' -> recv_inv k got b -> ~ failed b -> recv_inv k (got ++ brings k (Ws m)) b'.
Proof using.
  intros Hs H Hnf. destruct m as [p|s|p|p|]; simpl in *; rewrite ?app_nil_r.
  - injection Hs as <-. rewrite <- (up_binary_keys aead cfg (crypto b) k p (proj1 H)).
    destruct (up_binary aead cfg (crypto b) p) as [q|e|]; simpl; [by apply tcp_write_recv|apply recv_inv_fail; eauto..].
  - by injection Hs as <-.
  - destruct (writer_running b); [eapply recv_inv_quiet; [by eapply quiet_push|done..]|].
    injection Hs as <-. rewrite <- (app_nil_r got). apply recv_inv_fail; eauto.
  - by injection Hs as <-.
  - injection Hs as <-. eapply recv_inv_quiet; [apply up_finished_quiet|done..].
Qed.

Lemma up_step_recv k got r ok b b' :
  up_step aead cfg r ok b = Some b' -> recv_inv k got b -> ~ failed b ->
  recv_inv k (got ++ concat (brings k <$> match b.(prefetched), r with x :: _, _ => [x] | [], Msg m => [Ws m] | _, _ => [] end)) b'.
Proof using.
  unfold up_step. destruct (negb _); [done|]. intros Hs H Hnf. destruct (prefetched b) as [|x rest].
  - destruct r as [m| |]; simpl; rewrite ?app_nil_r; [by eapply up_message_recv|injection Hs as <-; rewrite <- (app_nil_r got); apply recv_inv_fail; eauto|].
    injection Hs as <-. eapply recv_inv_quiet; [apply up_finished_quiet|done..].
  - assert (recv_inv k got (set_prefetched rest b)) as H' by (eapply recv_inv_quiet; [by apply quiet_same|done..]).
    destruct x as [m|p]; simpl; rewrite app_nil_r; [by eapply up_message_recv|]. injection Hs as <-. by apply tcp_write_recv.
Qed.

Lemma received_inv k got evs b b' :
  bridge_run aead cfg evs b = Some b' -> recv_inv k got b -> recv_inv k (got ++ concat (brings k <$> received evs b)) b'.
Proof using.
  revert got b. induction evs as [|e evs IH]; intros got b; simpl; [intros [= <-]; by rewrite app_nil_r|].
  intros (b1 & Hs & Hr)%bind_Some H. pose proof (ended_stops _ _ _ Hs) as Hnf. rewrite Hs, fmap_app, concat_app, app_assoc. apply IH; [done|].
  destruct e as [r ok|d| |rng rng'| |rng rng'| |ok|ok|ok| |]; [|simpl; rewrite ?app_nil_r; (eapply recv_inv_quiet; [by eapply quiet_step; [|exact Hs]|done..])..].
  simpl in Hs. eapply up_step_recv in Hs; [|done..]. by destruct (prefetched b), r.
Qed.
End Receiving.


(** ** Nothing but answers to pings follows the close *)

Definition is_pong (m : Message) : Prop := match m with Pong _ => True | _ => False end.
Fixpoint pongs_after (l : list Message) : Prop :=
  match l with [] => True | CloseMsg :: l => Forall is_pong l | _ :: l => pongs_after l end.

Lemma pongs_after_app w q : CloseMsg ∉ w -> pongs_after (w ++ q) <-> pongs_after q.
Proof. induction w as [|m w IH]; [done|]. intros [Hm Hw]%not_elem_of_cons. rewrite <- (IH Hw). by destruct m. Qed.
Lemma pongs_after_snoc l m : pongs_after l -> is_pong m \/ CloseMsg ∉ l -> pongs_after (l ++ [m]).
Proof.
  intros Hl [Hm|Hn]; [|rewrite pongs_after_app by done; destruct m; simpl; (done || constructor)]. induction l as [|x l IH]; [by destruct m|].
  destruct x; simpl in *; try by apply IH. apply Forall_app. by split; [|constructor].
Qed.
Lemma pongs_after_close l q : pongs_after (l ++ q) -> CloseMsg ∈ l -> Forall is_pong q.
Proof.
  induction l as [|m l IH]; [by intros _ []%elem_of_nil|]. intros Hp Hin.
  destruct m; simpl in Hp; try (apply IH; [done|set_solver]). apply Forall_app in Hp. tauto.
Qed.

Definition close_last (b : Bridge) : Prop :=
  pongs_after (b.(wire) ++ b.(queue)) /\
  match b.(phase) with
  | Running | PeerClosed => CloseMsg ∉ b.(wire) ++ b.(queue)
  | Closing queued _ written => (queued = false -> CloseMsg ∉ b.(wire) ++ b.(queue)) /\ (written = false -> CloseMsg ∉ b.(wire))
  | Ended _ => True
  end.

Definition same_messages (b b' : Bridge) : Prop := b'.(wire) = b.(wire) /\ b'.(queue) = b.(queue).

Lemma close_last_same b b' : same_messages b b' -> b'.(phase) = b.(phase) -> close_last b -> close_last b'.
Proof. intros [Hw Hq] Hp H. unfold close_last. by rewrite Hw, Hq, Hp. Qed.
Lemma close_last_finish r b : close_last b -> close_last (end_with r b).
Proof. by intros [H _]. Qed.
Lemma close_last_settle b : close_last b -> close_last (settle_close b).
Proof. intros H. unfold settle_close. by destruct (phase b) as [| |[] [] []|]; try apply close_last_finish. Qed.
Lemma close_last_up b : up_running b = true -> close_last b -> close_last (up_finished b).
Proof.
  unfold up_finished, up_running. intros Hr [H1 H2]. destruct (phase b) eqn:Hp; try done. apply close_last_settle. by split.
Qed.
Lemma close_last_push m b b' :
  push m b = Some b' -> m <> CloseMsg -> is_pong m \/ down_running b = true -> close_last b -> close_last b'.
Proof.
  unfold push, down_running. case_decide; [|done]. intros [= <-] Hm Hc [H1 H2]. split; simpl.
  - rewrite app_assoc. apply pongs_after_snoc; [done|]. destruct Hc as [Hc|Hc]; [by left|right]. by destruct (phase b).
  - destruct (phase b); [set_solver..| |done]. destruct H2 as [H2 H3]. split; [|done]. intros Hf%H2. set_solver.
Qed.

Lemma close_last_writer ok b b' : writer_step ok b = Some b' -> close_last b -> close_last b'.
Proof.
  unfold writer_step, writer_running. destruct (negb _) eqn:Hr; [done|]. destruct (queue b) as [|m q] eqn:Hq; [done|].
  intros Hs H. destruct ok; simpl in Hs; [|injection Hs as <-; by apply close_last_finish]. injection Hs as <-.
  destruct H as [H1 H2]. rewrite Hq in *.
  assert ((wire b ++ [m]) ++ q = wire b ++ m :: q) as Heq by by rewrite <- app_assoc. destruct m.
  all: try (split; simpl; [by rewrite Heq|]; destruct (phase b) as [| |? ? []|]; simpl in Hr; try done; rewrite Heq; set_solver).
  unfold writer_finished. simpl. destruct (phase b) as [| |? ? []|] eqn:Hp; simpl in Hr; try done; [set_solver..|].
  rewrite ?Hp in H2. apply close_last_settle. split; simpl; rewrite Heq; [done|]. split; [tauto|done].
Qed.

Lemma close_last_ping ok b b' : ping_step ok b = Some b' -> close_last b -> close_last b'.
Proof.
  unfold ping_step, writer_running. intros Hs [H1 H2]. destruct (phase b) as [| |? ? []|] eqn:Hp; try done; injection Hs as <-.
  all: destruct ok; [|by split].
  all: assert (CloseMsg ∉ wire b) as Hn by set_solver; rewrite pongs_after_app in H1 by done.
  all: split; simpl; [rewrite pongs_after_app by set_solver; done|rewrite Hp; set_solver].
Qed.

Lemma close_last_queue b b' : queue_close_step b = Some b' -> close_last b -> close_last b'.
Proof.
  unfold queue_close_step, push. destruct (phase b) as [| |[] u w|] eqn:Hp; try done. case_decide; [|done]. simpl.
  intros [= <-] [H1 H2]. rewrite Hp in H2. destruct H2 as [H2 H3]. apply close_last_settle. split; simpl; [|done].
  rewrite app_assoc. apply pongs_after_snoc; auto.
Qed.

Section ClosingRun.
Context (aead : Aead) (cfg : BridgeCfg).

Lemma close_last_message m ok b b' : up_running b = true -> up_message aead cfg m ok b = Some b' -> close_last b -> close_last b'.
Proof using.
  intros Hr Hs H. destruct m; simpl in Hs; try (by injection Hs as <-).
  - injection Hs as <-. unfold fail_with, tcp_write. destruct (up_binary _ _ _ _); [|by apply close_last_finish..].
    case_decide; [done|]. destruct ok; [by eapply close_last_same|by apply close_last_finish].
  - destruct (writer_running b); [|injection Hs as <-; by apply close_last_finish]. eapply close_last_push; [done|done|by left|done].
  - injection Hs as <-. by apply close_last_up.
Qed.

Lemma close_last_step e b b' : bridge_step aead cfg e b = Some b' -> close_last b -> close_last b'.
Proof using.
  intros Hs H. destruct e as [r ok|d| |rng rng'| |rng rng'| |ok|ok|ok| |]; simpl in Hs.
  - unfold up_step in Hs. destruct (up_running b) eqn:Hr; [|done]. simpl in Hs. destruct (prefetched b) as [|[m|p] rest].
    + destruct r; [by eapply close_last_message|injection Hs as <-; by apply close_last_finish|injection Hs as <-; by apply close_last_up].
    + by eapply (close_last_message m ok (set_prefetched rest b)).
    + injection Hs as <-. unfold tcp_write. case_decide; [done|]. destruct ok; [done|by apply close_last_finish].
  - unfold read_step, down_running in Hs. destruct (phase b) eqn:Hp; try done. simpl in Hs. destruct (outgoing b), (pending b); try done.
    repeat case_decide; simplify_eq; try (by eapply close_last_same). destruct H as [Hl1 Hl2]. rewrite Hp in Hl2. split; [done|]. simpl. set_solver.
  - unfold read_error_step in Hs. destruct (negb _), (outgoing b), (pending b), (prefix b); try done. injection Hs as <-. by apply close_last_finish.
  - unfold chunk_step in Hs. destruct (_ || _); [done|]. destruct (pack _ _ _ _ _ _ _) as [[c ad] r]. injection Hs as <-.
    destruct r; simpl; [case_decide|..]; first [by apply close_last_finish | by eapply close_last_same].
  - unfold send_step in Hs. destruct (down_running b) eqn:Hr, (outgoing b); try done. simpl in Hs. apply bind_Some in Hs as (b1 & Hp & [= <-]).
    eapply (close_last_same b1); [done..|]. eapply close_last_push; [done|done|by right|done].
  - unfold dummy_step in Hs. destruct (_ || _); [done|]. destruct (pack _ _ _ _ _ _ _) as [[c ad] r].
    destruct r; [case_decide|..]; injection Hs as <-; first [by apply close_last_finish | by eapply close_last_same].
  - unfold dummy_send_step in Hs. destruct (down_running b) eqn:Hr, (outgoing_dummy b); try done. simpl in Hs. apply bind_Some in Hs as (b1 & Hp & [= <-]).
    eapply (close_last_same b1); [done..|]. eapply close_last_push; [done|done|by right|done].
  - by eapply close_last_writer.
  - by eapply close_last_ping.
  - unfold flush_close_step in Hs. destruct (phase b); try done. injection Hs as <-. by apply close_last_finish.
  - by eapply close_last_queue.
  - unfold timeout_step in Hs. destruct (phase b); try done; injection Hs as <-; by apply close_last_finish.
Qed.

Lemma close_last_run evs b b' : bridge_run aead cfg evs b = Some b' -> close_last b -> close_last b'.
Proof using.
  revert b. induction evs as [|e evs IH]; intros b; simpl; [by intros [= <-]|].
  intros (b1 & Hs & Hr)%bind_Some H. eapply IH; [done|]. by eapply close_last_step.
Qed.

Lemma close_last_new c pre px : close_last (Bridge_new c pre px).
Proof using. split; simpl; [done|set_solver]. Qed.
End ClosingRun.

(** ** The tunnel *)

(** What reaches the receiver's TCP stream of a payload: nothing of one the client takes for a status. *)
Definition brought (sealed : bool) (sender : TunnelEnd) (payload : bytes) : bytes :=
  match delivered sealed sender payload with Ok p => p | _ => [] end.

(** The two ends of a session as [TunnelOpts] sets them up. *)
Record peers (sender receiver : BridgeCfg) (k k' : option SessionCrypto) : Prop := {
  peers_side : receiver.(side) = peer_end sender.(side);
  peers_pad : is_u8 sender.(max_pad);
  peers_size : sender.(max_ws_binary) <= sat_mul USIZE_MAX receiver.(max_ws_binary) 4;
  peers_keys : keys_match k k';
  peers_decoy : small_decoy k;
}.

Section Tunnel.
Context (aead : Aead) (sender receiver : BridgeCfg) (k' : option SessionCrypto).
Abbreviation sealed := (bool_decide (is_Some k')).

Lemma carries_brings m p : carries aead sender receiver k' m p -> brings aead receiver k' (Ws m) = brought sealed sender.(side) p.
Proof using. unfold carries, brought. destruct m as [b|s|b|b|]; simpl; [by intros ->|done|by intros ->; rewrite delivered_nil..]. Qed.

Lemma all_brings ms ps : Forall2 (carries aead sender receiver k') ms ps ->
  concat (brings aead receiver k' <$> (Ws <$> ms)) = concat (brought sealed sender.(side) <$> ps).
Proof using. induction 1 as [|m p ms ps Hm Hms IH]; [done|]. rewrite !fmap_cons, !concat_cons. by rewrite (carries_brings m p Hm), IH. Qed.

Lemma pongs_carry q ps : Forall2 (carries aead sender receiver k') q ps -> Forall is_pong q -> concat ps = [].
Proof using. induction 1 as [|m p q ps Hm Hq IH]; [done|]. intros [Hp Hf]%Forall_cons. destruct m; simpl in *; try done. subst p. by apply IH. Qed.
End Tunnel.

(** C3: Two bridges of one session, the messages the receiver takes from the WebSocket being the
    first of those the sender fed to it, each one's tasks interleaved in any way: the sender's TCP stream, from
    the prefix on, is cut into payloads, and what the receiver has written to its TCP stream is the beginning of what
    those payloads bring, in order, each once. When the sender has fed its close and the receiver has taken
    everything without failing, all that the sender read has been cut and everything has been written. *)
Theorem tunnel_carries_stream (aead : Aead) (sender receiver : BridgeCfg) (k k' : option SessionCrypto)
    (pre pre' : list WsBridgePrefetch) (px px' : bytes) (evs evs' : list Event) (a b : Bridge) (ms : list Message) :
  peers sender receiver k k' ->
  bridge_run aead sender evs (Bridge_new k pre px) = Some a ->
  bridge_run aead receiver evs' (Bridge_new k' pre' px') = Some b ->
  received aead receiver evs' (Bridge_new k' pre' px') = Ws <$> ms -> ms `prefix_of` a.(wire) ->
  let data := px ++ tcp_reads aead sender evs (Bridge_new k pre px) in
  let arrives ps := concat (brought (bool_decide (is_Some k')) sender.(side) <$> ps) in
  exists ps, concat ps `prefix_of` data /\ b.(tcp_out) `prefix_of` arrives ps /\
    (ms = a.(wire) -> CloseMsg ∈ a.(wire) -> ~ failed b -> concat ps = data /\ b.(tcp_out) = arrives ps).
Proof.
  intros [Hs Hp Hw Hk Hd] Ha Hb Hr [later Hms] data arrives.
  pose proof (close_last_run _ _ _ _ _ Ha (close_last_new k pre px)) as [Hclose _].
  destruct (bridge_run_inv aead sender receiver k' Hs Hp Hw _ _ _ _ Ha (send_inv_new aead sender receiver k' k pre px Hk Hd))
    as [(sent & out & (ps & Hps & Hsent) & Ho & Hdata) _ _ _ [_ Hdr]].
  assert (recv_inv k' [] (Bridge_new k' pre' px')) as Hrecv by (split_and!; [apply keys_match_refl|by exists []|by right]).
  apply (received_inv aead receiver k' [] evs' _ b Hb) in Hrecv as (_ & [rest Hrest] & Hdone). rewrite Hr in Hrest, Hdone. simpl in Hrest, Hdone.
  rewrite Hms, <- app_assoc in Hps. apply Forall2_app_inv_l in Hps as (ps1 & ps2 & Hp1 & Hp2 & ->).
  rewrite (all_brings aead sender receiver k' ms ps1 Hp1) in Hrest, Hdone. fold (arrives ps1) in Hrest, Hdone.
  exists ps1. split_and!.
  - exists (concat ps2 ++ out ++ pending a ++ prefix a). unfold data. rewrite <- Hdata, <- Hsent, concat_app. by rewrite <- !app_assoc.
  - by exists rest.
  - intros -> Hc Hnf. destruct (Hdr Hc) as ((Hx & Hpe & Hog) & _). destruct later; [|apply (f_equal length) in Hms; rewrite length_app in Hms; simpl in Hms; lia].
    split; [|by destruct Hdone as [?|<-]]. rewrite Hx, Hpe in Hdata. rewrite Hog in Ho. simpl in Ho. subst out. unfold data.
    rewrite <- Hdata, <- Hsent, concat_app. simpl. rewrite (pongs_carry aead sender receiver k' (queue a) ps2 Hp2), !app_nil_r; [done|].
    by apply (pongs_after_close (wire a)).
Qed.

(** The client's stream is carried as it is. *)
Lemma brought_client sealed p : brought sealed Client p = p.
Proof. done. Qed.
Lemma brought_plain e p : brought false e p = p.
Proof. by destruct e. Qed.
(** So is the server's, but for the chunks that read as a status. *)
Lemma brought_server p : u8s p -> ~ lookalike p -> brought true Server p = p.
Proof. intros Hu Hl. unfold brought, delivered. by rewrite filter_passes. Qed.

(** The client looks for a late status in every payload the server seals. A payload that
    does not read as one reaches the client's TCP stream as it is; one that reads as an OPEN_OK is dropped
    from the stream, and one that reads as an OPEN_ERR ends the tunnel, also when it is the server's own TCP data. *)
Theorem late_status_filter (p : bytes) :
  u8s p -> match delivered true Server p with
           | Ok q => if is_v3_open_ok p then p <> [] /\ q = [] else ~ lookalike p /\ q = p
           | Err _ => exists e, decode_v3_open_err p = Ok e
           | Panic => False
           end.
Proof.
  intros Hu. unfold delivered, filter_client_downlink. destruct (is_v3_open_ok p) eqn:Hok; simpl.
  - apply bool_decide_eq_true in Hok as ->. done.
  - pose proof (codec_safe (dec:=decode_v3_open_err) p Hu) as Hs. destruct (decode_v3_open_err p) as [e|e|] eqn:He; simpl; [by exists e| |done].
    split; [|done]. intros [->|[e' He']]; [done|congruence].
Qed.

Definition demo_bridge (e : TunnelEnd) : BridgeCfg := {| side := e; max_pad := 8; max_ws_binary := 4096; pad_mode := Random; dummy_interval_secs := 5 |}.
Definition demo_session : SessionCrypto := SessionCrypto_new zero_blake3 [1] [2] (replicate 32 3) (replicate 32 4) 24.
Definition demo_sending : list Event :=
  [EvRead []; EvChunk zero_rng zero_rng; EvSend; EvWriter true; EvDummy zero_rng zero_rng; EvRead (bs "hel"); EvDummySend; EvChunk zero_rng zero_rng; EvSend; EvWriter true; EvPing true;
   EvRead (bs "lo"); EvChunk zero_rng zero_rng; EvSend; EvRead []; EvWriter true; EvQueueClose; EvWriter true; EvWriter true].
Definition demo_sent : Bridge :=
  default (Bridge_new None [] []) (bridge_run plain_aead (demo_bridge Client) demo_sending (Bridge_new (Some demo_session) [] (bs "-"))).
Definition demo_taking : list Event := ((fun m => EvUp (Msg m) true) <$> demo_sent.(wire)) ++ [EvFlushClose true].
Definition demo_taken : Bridge :=
  default (Bridge_new None [] []) (bridge_run plain_aead (demo_bridge Server) demo_taking (Bridge_new (Some demo_session) [] [])).
Example demo_bridge_carried : (demo_taken.(tcp_out), length demo_sent.(wire), demo_taken.(phase)) = (bs "-hello", 6%nat, Ended (Ok tt)).
Proof. vm_compute. reflexivity. Qed.

Lemma tunnel_carries_stream_witness :
  exists ps, concat ps = bs "-hello" /\ demo_taken.(tcp_out) = concat (brought true Client <$> ps).
Proof.
  destruct (tunnel_carries_stream plain_aead (demo_bridge Client) (demo_bridge Server) (Some demo_session) (Some demo_session) [] [] (bs "-") []
    demo_sending demo_taking demo_sent demo_taken demo_sent.(wire)) as (ps & _ & _ & H).
  - constructor; vm_compute; try split; done.
  - vm_compute. reflexivity.
  - vm_compute. reflexivity.
  - vm_compute. reflexivity.
  - done.
  - destruct H as [H1 H2]; [done|apply (list_elem_of_lookup_2 _ 5); vm_compute; reflexivity|by vm_compute|].
    exists ps. split; [rewrite H1; vm_compute; reflexivity|exact H2].
Defined.

Lemma late_status_filter_witness : delivered true Server [V3_CTRL_OPEN_OK] = Ok [] /\ ~ lookalike (bs "GET").
Proof.
  split.
  - pose proof (late_status_filter [V3_CTRL_OPEN_OK]) as H. destruct (delivered true Server [V3_CTRL_OPEN_OK]) as [q|e|] eqn:E.
    + assert (u8s [V3_CTRL_OPEN_OK]) as Hu by (repeat constructor; by vm_compute). apply H in Hu as [_ ->]. done.
    + by vm_compute in E.
    + by vm_compute in E.
  - assert (u8s (bs "GET")) as Hu by (vm_compute; repeat constructor; by vm_compute).
    pose proof (late_status_filter (bs "GET") Hu) as H. vm_compute in H. exact (proj1 H).
Defined.
