(* ===== verification/Hello.v ===== *)
(** [biba]'s ClientHello codec ([grease.rs], [extensions.rs], [spec.rs], [marshal.rs], [parse.rs],
    [fingerprinter.rs]): building a TLS ClientHello from a specification, and reading one back. *)
From S2P Require Import Prelude Text Net.

(** ** [error.rs], [constants.rs] *)

Inductive HelloError : Type :=
| UnexpectedEof
| InvalidRecord (what : string)
| InvalidClientHello (what : string)
| UnsupportedExtension (id : Z)
| ParseError (what : string)
| UnknownClientHelloId.
Abbreviation R := (res HelloError).

Definition GREASE_PLACEHOLDER : Z := 2570.
Definition VERSION_TLS10 : Z := 769.
Definition VERSION_TLS11 : Z := 770.
Definition VERSION_TLS12 : Z := 771.
Definition VERSION_TLS13 : Z := 772.
Definition RECORD_TYPE_HANDSHAKE : Z := 22.
Definition HANDSHAKE_TYPE_CLIENT_HELLO : Z := 1.
Definition COMPRESSION_NONE : Z := 0.

Definition EXT_SERVER_NAME : Z := 0.
Definition EXT_STATUS_REQUEST : Z := 5.
Definition EXT_SUPPORTED_GROUPS : Z := 10.
Definition EXT_EC_POINT_FORMATS : Z := 11.
Definition EXT_SIGNATURE_ALGORITHMS : Z := 13.
Definition EXT_ALPN : Z := 16.
Definition EXT_SIGNED_CERTIFICATE_TIMESTAMP : Z := 18.
Definition EXT_PADDING : Z := 21.
Definition EXT_EXTENDED_MASTER_SECRET : Z := 23.
Definition EXT_COMPRESS_CERTIFICATE : Z := 27.
Definition EXT_RECORD_SIZE_LIMIT : Z := 28.
Definition EXT_SESSION_TICKET : Z := 35.
Definition EXT_SUPPORTED_VERSIONS : Z := 43.
Definition EXT_PSK_KEY_EXCHANGE_MODES : Z := 45.
Definition EXT_KEY_SHARE : Z := 51.
Definition EXT_RENEGOTIATION_INFO : Z := 65281.
Definition FAKE_EXTENSION_CHANNEL_ID : Z := 30032.

(** ** [grease.rs] *)

Definition is_grease_u16 (v : Z) : bool := (Z.shiftr v 8 =? Z.land v 255) && (Z.land v 15 =? 10).
Definition ungrease_u16 (v : Z) : Z := if is_grease_u16 v then GREASE_PLACEHOLDER else v.

(** The seed has one value for each slot. *)
Record GreaseSeed := { s_cipher : Z; s_group : Z; s_extension1 : Z; s_extension2 : Z; s_version : Z }.
Definition boring_grease_value (seed : Z) : Z :=
  let ret := Z.lor (Z.land seed 240) 10 in
  Z.lor ret (as_u16 (Z.shiftl ret 8)).

(** ** [extensions.rs], [spec.rs] *)

Inductive PaddingStyle : Type := Boring | PadRecordTo (target : Z) | FixedPayloadLen (n : Z).
Record KeyShareEntry := { group : Z; key_exchange : bytes }.

Inductive Extension : Type :=
| Grease (value : Z) (body : bytes)
| ServerName (host : str)
| ExtendedMasterSecret
| RenegotiationInfo (renegotiation : Z)
| SessionTicket (ticket : bytes)
| SignatureAlgorithms (schemes : list Z)
| StatusRequest
| SignedCertificateTimestamp
| Alpn (protocols : list str)
| FakeChannelId (old_extension_id : bool)
| SupportedPoints (formats : bytes)
| KeyShare (entries : list KeyShareEntry)
| PskKeyExchangeModes (modes : bytes)
| SupportedVersions (versions : list Z)
| SupportedCurves (curves : list Z)
| CompressCertificate (algorithms : list Z)
| Padding (style : PaddingStyle)
| RecordSizeLimit (limit : Z)
| Generic (id : Z) (data : bytes).

Record ClientHelloSpec := {
  cipher_suites : list Z;
  compression_methods : bytes;
  extensions : list Extension;
  tls_vers_min : Z;
  tls_vers_max : Z;
}.
Definition ClientHelloSpec_default : ClientHelloSpec :=
  {| cipher_suites := []; compression_methods := [0]; extensions := []; tls_vers_min := VERSION_TLS10; tls_vers_max := VERSION_TLS12 |}.

Definition has_tls13 (spec : ClientHelloSpec) : bool :=
  (spec.(tls_vers_max) =? VERSION_TLS13) ||
  existsb (fun e => match e with SupportedVersions vs => existsb (Z.eqb VERSION_TLS13) vs | _ => false end) spec.(extensions).

Definition wire_type (e : Extension) : Z :=
  match e with
  | Grease value _ => value
  | ServerName _ => EXT_SERVER_NAME
  | ExtendedMasterSecret => EXT_EXTENDED_MASTER_SECRET
  | RenegotiationInfo _ => EXT_RENEGOTIATION_INFO
  | SessionTicket _ => EXT_SESSION_TICKET
  | SignatureAlgorithms _ => EXT_SIGNATURE_ALGORITHMS
  | StatusRequest => EXT_STATUS_REQUEST
  | SignedCertificateTimestamp => EXT_SIGNED_CERTIFICATE_TIMESTAMP
  | Alpn _ => EXT_ALPN
  | FakeChannelId old => if old then 30031 else FAKE_EXTENSION_CHANNEL_ID
  | SupportedPoints _ => EXT_EC_POINT_FORMATS
  | KeyShare _ => EXT_KEY_SHARE
  | PskKeyExchangeModes _ => EXT_PSK_KEY_EXCHANGE_MODES
  | SupportedVersions _ => EXT_SUPPORTED_VERSIONS
  | SupportedCurves _ => EXT_SUPPORTED_GROUPS
  | CompressCertificate _ => EXT_COMPRESS_CERTIFICATE
  | Padding _ => EXT_PADDING
  | RecordSizeLimit _ => EXT_RECORD_SIZE_LIMIT
  | Generic id _ => id
  end.

(** [(n as u16).to_be_bytes()] and the [u16]s of a list. *)
Definition u16_be (n : Z) : bytes := to_be 2 (as_u16 n).
Definition u16s_be (l : list Z) : bytes := concat (to_be 2 <$> l).

Definition hostname_for_sni (host : str) : str :=
  let host := trim_end_matches is_dot host in
  if decide (host = []) then [] else
  if bool_decide (is_Some (parse_ipv4 host)) || contains_char 58 host then [] else
  to_ascii_lowercase host.

Definition zeros (n : Z) : bytes := replicate (Z.to_nat n) 0.

Definition marshal_payload (e : Extension) : bytes :=
  match e with
  | Grease _ body => body
  | ServerName host =>
    let host := hostname_for_sni host in
    if decide (host = []) then [] else u16_be (len host + 3) ++ [0] ++ u16_be (len host) ++ host
  | ExtendedMasterSecret => []
  | RenegotiationInfo r => [r]
  | SessionTicket ticket => ticket
  | SignatureAlgorithms schemes => u16_be (len schemes * 2) ++ u16s_be schemes
  | StatusRequest => [1; 0; 0; 0; 0]
  | SignedCertificateTimestamp => []
  | Alpn protocols =>
    let inner := concat ((fun p => as_u8 (len p) :: p) <$> protocols) in
    u16_be (len inner) ++ inner
  | FakeChannelId _ => []
  | SupportedPoints formats => as_u8 (len formats) :: formats
  | KeyShare entries =>
    let inner := concat ((fun e => to_be 2 e.(group) ++ u16_be (len e.(key_exchange)) ++ e.(key_exchange)) <$> entries) in
    u16_be (len inner) ++ inner
  | PskKeyExchangeModes modes => as_u8 (len modes) :: modes
  | SupportedVersions versions => as_u8 (len versions * 2) :: u16s_be versions
  | SupportedCurves curves => let inner := u16s_be curves in u16_be (len inner) ++ inner
  | CompressCertificate algorithms => as_u8 (len algorithms * 2) :: u16s_be algorithms
  | Padding (FixedPayloadLen n) => zeros n
  | Padding _ => []
  | RecordSizeLimit limit => to_be 2 limit
  | Generic _ data => data
  end.

(** Type, length, data. *)
Definition ext_wire (id : Z) (payload : bytes) : bytes := to_be 2 id ++ u16_be (len payload) ++ payload.

(** [Extension::marshal]: padding that is not yet a length panics. *)
Definition marshal (e : Extension) : R bytes :=
  match e with
  | Padding Boring | Padding (PadRecordTo _) => Panic
  | _ => Ok (ext_wire (wire_type e) (marshal_payload e))
  end.

Definition boring_padding_len (u : Z) : Z * bool :=
  if decide (255 < u /\ u < 512) then
    let padding_len := 512 - u in
    (if decide (5 <= padding_len) then padding_len - 4 else 1, true)
  else (0, false).

(** [marshal_extensions_with_padding]; [f] gives the length so far at an index. *)
Fixpoint with_padding (f : Z -> Z) (i : Z) (exts : list Extension) : R bytes :=
  match exts with
  | [] => Ok []
  | e :: exts =>
    here ← (match e with
            | Padding Boring =>
              let '(plen, will_pad) := boring_padding_len (f i) in
              Ok (if will_pad then ext_wire EXT_PADDING (zeros plen) else [])
            | Padding (PadRecordTo target) =>
              let n := sat_sub target (f i + 4) in
              let n := if decide (5 <= n) then n - 4 else if decide (0 < n) then 1 else n in
              Ok (if decide (n = 0) then [] else ext_wire EXT_PADDING (zeros n))
            | _ => marshal e
            end);
    rest ← with_padding f (i + 1) exts;
    Ok (here ++ rest)
  end.
Definition marshal_extensions_with_padding (exts : list Extension) (f : Z -> Z) : R bytes := with_padding f 0 exts.

(** ** Reading extensions *)

(** The [u16]s from index [i] up to [limit] and the end of the data. *)
Fixpoint read_u16s (fuel : nat) (data : bytes) (i limit : Z) : R (list Z) :=
  match fuel with
  | O => Ok []
  | S fuel =>
    if decide (i + 2 <= limit /\ i + 2 <= len data) then
      x ← rd16 data i;
      xs ← read_u16s fuel data (i + 2) limit;
      Ok (x :: xs)
    else Ok []
  end.

Fixpoint sni_names (fuel : nat) (rest : bytes) : R str :=
  match fuel with
  | O => Ok []
  | S fuel =>
    if decide (rest = []) then Ok [] else
    if decide (len rest < 3) then Ok [] else
    name_type ← ix rest 0;
    n ← rd16 rest 1;
    rest ← slice_from rest 3;
    if decide (len rest < n) then Ok [] else
    if decide (name_type = 0) then
      name ← slice rest 0 n;
      Ok (from_utf8_lossy name)
    else
      rest ← slice_from rest n;
      sni_names fuel rest
  end.

Definition parse_sni (data : bytes) : R Extension :=
  if decide (len data < 2) then Ok (ServerName []) else
  list_len ← rd16 data 0;
  if decide (list_len = 0 \/ len data < 2 + list_len) then Ok (ServerName []) else
  rest ← slice data 2 (2 + list_len);
  host ← sni_names (length rest) rest;
  Ok (ServerName host).

Definition parse_sig_algs (data : bytes) : R Extension :=
  if decide (len data < 2) then Ok (SignatureAlgorithms []) else
  n ← rd16 data 0;
  schemes ← read_u16s (length data) data 2 (2 + n);
  Ok (SignatureAlgorithms schemes).

Fixpoint alpn_names (fuel : nat) (rest : bytes) : R (list str) :=
  match fuel with
  | O => Ok []
  | S fuel =>
    if decide (rest = []) then Ok [] else
    l ← ix rest 0;
    rest ← slice_from rest 1;
    if decide (len rest < l) then Ok [] else
    p ← slice rest 0 l;
    rest ← slice_from rest l;
    ps ← alpn_names fuel rest;
    Ok (from_utf8_lossy p :: ps)
  end.

Definition parse_alpn (data : bytes) : R Extension :=
  if decide (len data < 2) then Ok (Alpn []) else
  n ← rd16 data 0;
  let rest := default [] (get_range data 2 (2 + n)) in
  protos ← alpn_names (length rest) rest;
  Ok (Alpn protos).

Fixpoint key_shares (fuel : nat) (rest : bytes) : R (list KeyShareEntry) :=
  match fuel with
  | O => Ok []
  | S fuel =>
    if decide (len rest < 4) then Ok [] else
    g ← rd16 rest 0;
    ks_len ← rd16 rest 2;
    rest ← slice_from rest 4;
    if decide (len rest < ks_len) then Ok [] else
    ke ← slice rest 0 ks_len;
    rest ← slice_from rest ks_len;
    es ← key_shares fuel rest;
    Ok ({| group := g; key_exchange := ke |} :: es)
  end.

Definition parse_key_share (data : bytes) : R Extension :=
  if decide (len data < 2) then Ok (KeyShare []) else
  n ← rd16 data 0;
  let rest := default [] (get_range data 2 (2 + n)) in
  entries ← key_shares (length rest) rest;
  Ok (KeyShare entries).

Definition parse_supported_versions (data : bytes) : R Extension :=
  if decide (data = []) then Ok (SupportedVersions []) else
  n ← ix data 0;
  v ← read_u16s (length data) data 1 (1 + n);
  Ok (SupportedVersions v).

Definition parse_supported_curves (data : bytes) : R Extension :=
  if decide (len data < 2) then Ok (SupportedCurves []) else
  n ← rd16 data 0;
  curves ← read_u16s (length data) data 2 (2 + n);
  Ok (SupportedCurves curves).

Definition parse_compress_cert (data : bytes) : R Extension :=
  if decide (data = []) then Ok (CompressCertificate []) else
  n ← ix data 0;
  algs ← read_u16s (length data) data 1 (1 + n);
  Ok (CompressCertificate algs).

(** A byte count and that many bytes, nothing when they are not all there. *)
Definition byte_counted (data : bytes) : R bytes :=
  if decide (data = []) then Ok [] else
  n ← ix data 0;
  Ok (default [] (get_range data 1 (1 + n))).

Definition extension_from_wire (id : Z) (data : bytes) : R Extension :=
  if is_grease_u16 id then Ok (Grease id data)
  else if decide (id = EXT_SERVER_NAME) then parse_sni data
  else if decide (id = EXT_EXTENDED_MASTER_SECRET) then Ok ExtendedMasterSecret
  else if decide (id = EXT_RENEGOTIATION_INFO) then Ok (RenegotiationInfo (default 0 (head data)))
  else if decide (id = EXT_SESSION_TICKET) then Ok (SessionTicket data)
  else if decide (id = EXT_SIGNATURE_ALGORITHMS) then parse_sig_algs data
  else if decide (id = EXT_STATUS_REQUEST) then Ok StatusRequest
  else if decide (id = EXT_SIGNED_CERTIFICATE_TIMESTAMP) then Ok SignedCertificateTimestamp
  else if decide (id = EXT_ALPN) then parse_alpn data
  else if decide (id = FAKE_EXTENSION_CHANNEL_ID \/ id = 30031) then Ok (FakeChannelId (id =? 30031))
  else if decide (id = EXT_EC_POINT_FORMATS) then SupportedPoints <$> byte_counted data
  else if decide (id = EXT_KEY_SHARE) then parse_key_share data
  else if decide (id = EXT_PSK_KEY_EXCHANGE_MODES) then PskKeyExchangeModes <$> byte_counted data
  else if decide (id = EXT_SUPPORTED_VERSIONS) then parse_supported_versions data
  else if decide (id = EXT_SUPPORTED_GROUPS) then parse_supported_curves data
  else if decide (id = EXT_COMPRESS_CERTIFICATE) then parse_compress_cert data
  else if decide (id = EXT_PADDING) then Ok (Padding (FixedPayloadLen (len data)))
  else if decide (id = EXT_RECORD_SIZE_LIMIT) then
    if decide (len data < 2) then Err (ParseError "record_size_limit"%string) else
    limit ← rd16 data 0; Ok (RecordSizeLimit limit)
  else Err (UnsupportedExtension id).

Fixpoint extension_loop (fuel : nat) (buf : bytes) (blunt : bool) : R (list Extension) :=
  match fuel with
  | O => Ok []
  | S fuel =>
    if decide (buf = []) then Ok [] else
    if decide (len buf < 4) then Err UnexpectedEof else
    id ← rd16 buf 0;
    n ← rd16 buf 2;
    buf ← slice_from buf 4;
    if decide (len buf < n) then Err UnexpectedEof else
    data ← slice buf 0 n;
    buf ← slice_from buf n;
    e ← (match extension_from_wire id data with
         | Err (UnsupportedExtension i) => if blunt then Ok (Generic id data) else Err (UnsupportedExtension i)
         | r => r
         end);
    es ← extension_loop fuel buf blunt;
    Ok (e :: es)
  end.
Definition parse_extension_block (buf : bytes) (blunt : bool) : R (list Extension) := extension_loop (length buf) buf blunt.

(** ** [parse.rs] *)

Definition ungrease_extension (e : Extension) : Extension :=
  match e with
  | SupportedVersions versions => SupportedVersions (ungrease_u16 <$> versions)
  | SupportedCurves curves => SupportedCurves (ungrease_u16 <$> curves)
  | KeyShare entries => KeyShare ((fun ks => {| group := ungrease_u16 ks.(group); key_exchange := ks.(key_exchange) |}) <$> entries)
  | e => e
  end.
Definition is_supported_versions (e : Extension) : bool := match e with SupportedVersions _ => true | _ => false end.

Definition parse_client_hello_handshake (data : bytes) (blunt : bool) : R ClientHelloSpec :=
  if decide (len data < 4) then Err UnexpectedEof else
  t ← ix data 0;
  if decide (t <> HANDSHAKE_TYPE_CLIENT_HELLO) then Err (InvalidClientHello "not client hello"%string) else
  a ← ix data 1; b ← ix data 2; c ← ix data 3;
  let hs_len := Z.lor (Z.lor (Z.shiftl a 16) (Z.shiftl b 8)) c in
  if decide (len data < 4 + hs_len) then Err UnexpectedEof else
  ch ← slice data 4 (4 + hs_len);
  if decide (len ch < 2 + 32 + 1) then Err UnexpectedEof else
  legacy_ver ← rd16 ch 0;
  sid_len ← ix ch 34;
  let o := 35 in
  if decide (len ch < o + sid_len + 2) then Err UnexpectedEof else
  let o := o + sid_len in
  cs_len ← rd16 ch o;
  let o := o + 2 in
  if decide (cs_len mod 2 <> 0) then Err (InvalidClientHello "odd cipher-suite length"%string) else
  if decide (len ch < o + cs_len + 1) then Err UnexpectedEof else
  suites ← mapM (fun i : nat => rd16 ch (o + 2 * Z.of_nat i)) (seq 0 (Z.to_nat (cs_len / 2)));
  let o := o + cs_len in
  comp_len ← ix ch o;
  let o := o + 1 in
  if decide (len ch < o + comp_len + 2) then Err UnexpectedEof else
  compression_methods ← slice ch o (o + comp_len);
  let o := o + comp_len in
  exts ← (if decide (len ch <= o) then Ok [] else
          if decide (len ch < o + 2) then Err UnexpectedEof else
          ext_len ← rd16 ch o;
          let o := o + 2 in
          if decide (len ch < o + ext_len) then Err UnexpectedEof else
          ext_block ← slice ch o (o + ext_len);
          parse_extension_block ext_block blunt);
  let vers := if existsb is_supported_versions exts then 0 else legacy_ver in
  Ok {| cipher_suites := ungrease_u16 <$> suites; compression_methods := compression_methods;
        extensions := ungrease_extension <$> exts; tls_vers_min := vers; tls_vers_max := vers |}.

Definition client_hello_spec_from_tls_record (raw : bytes) (blunt_mimicry : bool) : R ClientHelloSpec :=
  if decide (len raw < 5) then Err UnexpectedEof else
  t ← ix raw 0;
  if decide (t <> RECORD_TYPE_HANDSHAKE) then Err (InvalidRecord "not a handshake record"%string) else
  rec_len ← rd16 raw 3;
  if decide (len raw < 5 + rec_len) then Err UnexpectedEof else
  inner ← slice raw 5 (5 + rec_len);
  parse_client_hello_handshake inner blunt_mimicry.

(** ** [marshal.rs] *)

Record MarshalParams := { server_name : str; session_id : bytes; random : bytes; grease_seed : GreaseSeed }.

Definition resolve_grease_cipher (c : Z) (seed : GreaseSeed) : Z :=
  if decide (c = GREASE_PLACEHOLDER) then boring_grease_value seed.(s_cipher) else c.
Definition resolve (value c : Z) : Z := if decide (c = GREASE_PLACEHOLDER) then boring_grease_value value else c.

Definition inject_sni (server_name : str) (e : Extension) : Extension :=
  match e with
  | ServerName host => ServerName (if decide (host = [] /\ server_name <> []) then server_name else host)
  | e => e
  end.

Definition apply_grease_to_extension (seed : GreaseSeed) (slot : Z) (e : Extension) : Extension * Z :=
  match e with
  | Grease value body =>
    if decide (value = GREASE_PLACEHOLDER) then
      if decide (slot = 0) then (Grease (boring_grease_value seed.(s_extension1)) [], sat_add U8_MAX slot 1)
      else (Grease (boring_grease_value seed.(s_extension2)) [0], sat_add U8_MAX slot 1)
    else (e, slot)
  | SupportedCurves curves => (SupportedCurves (resolve seed.(s_group) <$> curves), slot)
  | SupportedVersions versions => (SupportedVersions (resolve seed.(s_version) <$> versions), slot)
  | KeyShare entries =>
    (KeyShare ((fun e => {| group := resolve seed.(s_group) e.(group); key_exchange := e.(key_exchange) |}) <$> entries), slot)
  | e => (e, slot)
  end.

Definition marshal_one_extension (p : MarshalParams) (slot : Z) (e : Extension) : Z * R bytes :=
  let '(e, slot) := apply_grease_to_extension p.(grease_seed) slot e in
  (slot, marshal (inject_sni p.(server_name) e)).

(** The parts of the block, with the place of the last padding to be computed. *)
Fixpoint marshal_parts (p : MarshalParams) (slot : Z) (i : nat) (boring_idx : option nat) (exts : list Extension) : R (list bytes * option nat) :=
  match exts with
  | [] => Ok ([], boring_idx)
  | Padding Boring :: exts =>
    '(parts, bi) ← marshal_parts p slot (S i) (Some i) exts;
    Ok ([] :: parts, bi)
  | e :: exts =>
    let '(slot, r) := marshal_one_extension p slot e in
    part ← r;
    '(parts, bi) ← marshal_parts p slot (S i) boring_idx exts;
    Ok (part :: parts, bi)
  end.

Definition marshal_extensions (spec : ClientHelloSpec) (p : MarshalParams) : R bytes :=
  '(parts, boring_idx) ← marshal_parts p 0 0 None spec.(extensions);
  Ok (concat (match boring_idx with
              | Some bi =>
                let unpadded := len (concat parts) in
                let '(plen, will_pad) := boring_padding_len
                  (2 + 32 + 1 + len p.(session_id) + 2 + len spec.(cipher_suites) * 2 + 1
                   + Z.max (len spec.(compression_methods)) 1 + 2 + unpadded) in
                <[bi := if will_pad then ext_wire EXT_PADDING (zeros plen) else []]> parts
              | None => parts
              end)).

Definition marshal_client_hello_body (spec : ClientHelloSpec) (p : MarshalParams) : R bytes :=
  let legacy := if has_tls13 spec then VERSION_TLS12 else Z.max spec.(tls_vers_max) spec.(tls_vers_min) in
  if decide (255 < len p.(session_id)) then Err (InvalidClientHello "session id too long"%string) else
  let suites := (fun c => resolve_grease_cipher c p.(grease_seed)) <$> spec.(cipher_suites) in
  let compression := if decide (spec.(compression_methods) = []) then [1; COMPRESSION_NONE]
                     else as_u8 (len spec.(compression_methods)) :: spec.(compression_methods) in
  ext_bytes ← marshal_extensions spec p;
  Ok (to_be 2 legacy ++ p.(random) ++ [as_u8 (len p.(session_id))] ++ p.(session_id) ++
      u16_be (len suites * 2) ++ u16s_be suites ++ compression ++ u16_be (len ext_bytes) ++ ext_bytes).

Definition marshal_handshake_client_hello (spec : ClientHelloSpec) (p : MarshalParams) : R bytes :=
  body ← marshal_client_hello_body spec p;
  let n := len body in
  Ok ([HANDSHAKE_TYPE_CLIENT_HELLO; as_u8 (Z.land (Z.shiftr n 16) 255); as_u8 (Z.land (Z.shiftr n 8) 255); as_u8 (Z.land n 255)] ++ body).

Definition marshal_tls_client_hello_record (spec : ClientHelloSpec) (p : MarshalParams) : R bytes :=
  hs ← marshal_handshake_client_hello spec p;
  Ok ([RECORD_TYPE_HANDSHAKE] ++ to_be 2 VERSION_TLS10 ++ u16_be (len hs) ++ hs).

(** ** [fingerprinter.rs] *)

Record Fingerprinter := { allow_blunt_mimicry : bool; always_add_padding : bool }.

Definition is_padding (e : Extension) : bool := match e with Padding _ => true | _ => false end.
Definition add_padding (spec : ClientHelloSpec) : ClientHelloSpec :=
  if existsb is_padding spec.(extensions) then spec else
  {| cipher_suites := spec.(cipher_suites); compression_methods := spec.(compression_methods);
     extensions := spec.(extensions) ++ [Padding Boring]; tls_vers_min := spec.(tls_vers_min); tls_vers_max := spec.(tls_vers_max) |}.

Definition raw_client_hello (f : Fingerprinter) (raw : bytes) : R ClientHelloSpec :=
  spec ← client_hello_spec_from_tls_record raw f.(allow_blunt_mimicry);
  Ok (if f.(always_add_padding) then add_padding spec else spec).

(** ** Lemmas *)

(** *** Reading ends: the fuel is never used up before the input *)

Lemma read_u16s_fuel f1 f2 data i limit :
  len data <= i + Z.of_nat f1 -> len data <= i + Z.of_nat f2 -> read_u16s f1 data i limit = read_u16s f2 data i limit.
Proof.
  revert f2 i. induction f1 as [|f1 IH]; intros [|f2] i H1 H2; simpl; try done.
  - rewrite decide_False; [done|lia].
  - rewrite decide_False; [done|lia].
  - case_decide; [|done]. destruct (rd16 data i); simpl; [|done..]. by rewrite (IH f2) by lia.
Qed.

Lemma slice_from_rest {E} (b r : bytes) i : u8s b -> 0 <= i -> @slice_from E Z b i = Ok r -> u8s r /\ Z.of_nat (length r) = Z.of_nat (length b) - i.
Proof. intros Hu Hi (H1 & H2 & ->)%slice_inv. split; [by apply u8s_sub|]. change (len (sub b i (len b)) = len b - i). apply len_sub; lia. Qed.

(** The next name: what is left of the input after [slice_from], with its length. *)
Ltac rest_after Hu i r :=
  let Hr := fresh "Hr" in destruct (slice_from _ i) as [r| |] eqn:Hr; simpl; [|done..];
  apply (slice_from_rest _ _ _ Hu) in Hr as [? ?]; [|unfold is_u8, is_u16 in *; lia].
Ltac no_input rest := destruct rest; done || (simpl in *; lia).

Lemma sni_names_fuel f1 f2 rest : u8s rest -> (length rest <= f1)%nat -> (length rest <= f2)%nat -> sni_names f1 rest = sni_names f2 rest.
Proof.
  revert f2 rest. induction f1 as [|f1 IH]; intros [|f2] rest Hu H1 H2; simpl; try done; [no_input rest..|].
  case_decide; [done|]. case_decide; [done|]. destruct (ix rest 0); simpl; [|done..]. destruct (rd16 rest 1) as [n| |] eqn:Hn; simpl; [|done..].
  apply (rd16_u16 _ _ _ Hu) in Hn. rest_after Hu 3 r. case_decide; [done|]. case_decide; [done|].
  rest_after H3 n r'. unfold is_u16 in Hn. apply IH; [done|lia..].
Qed.

Lemma alpn_names_fuel f1 f2 rest : u8s rest -> (length rest <= f1)%nat -> (length rest <= f2)%nat -> alpn_names f1 rest = alpn_names f2 rest.
Proof.
  revert f2 rest. induction f1 as [|f1 IH]; intros [|f2] rest Hu H1 H2; simpl; try done; [no_input rest..|].
  case_decide; [done|]. destruct (ix rest 0) as [n| |] eqn:Hn; simpl; [|done..]. apply (ix_u8 _ _ _ Hu) in Hn.
  rest_after Hu 1 r. case_decide; [done|]. destruct (slice r 0 n); simpl; [|done..].
  rest_after H0 n r'. unfold is_u8 in Hn. by rewrite (IH f2) by (done || lia).
Qed.

Lemma key_shares_fuel f1 f2 rest : u8s rest -> (length rest <= f1)%nat -> (length rest <= f2)%nat -> key_shares f1 rest = key_shares f2 rest.
Proof.
  revert f2 rest. induction f1 as [|f1 IH]; intros [|f2] rest Hu H1 H2; simpl; try done; [no_input rest..|].
  case_decide; [done|]. destruct (rd16 rest 0); simpl; [|done..]. destruct (rd16 rest 2) as [n| |] eqn:Hn; simpl; [|done..].
  apply (rd16_u16 _ _ _ Hu) in Hn. rest_after Hu 4 r. case_decide; [done|]. destruct (slice r 0 n); simpl; [|done..].
  rest_after H0 n r'. unfold is_u16 in Hn. by rewrite (IH f2) by (done || lia).
Qed.

Lemma extension_loop_fuel f1 f2 buf blunt : u8s buf -> (length buf <= f1)%nat -> (length buf <= f2)%nat -> extension_loop f1 buf blunt = extension_loop f2 buf blunt.
Proof.
  revert f2 buf. induction f1 as [|f1 IH]; intros [|f2] buf Hu H1 H2; simpl; try done; [no_input buf..|].
  case_decide; [done|]. case_decide; [done|]. destruct (rd16 buf 0); simpl; [|done..]. destruct (rd16 buf 2) as [n| |] eqn:Hn; simpl; [|done..].
  apply (rd16_u16 _ _ _ Hu) in Hn. rest_after Hu 4 r. case_decide; [done|]. destruct (slice r 0 n); simpl; [|done..].
  rest_after H3 n r'. unfold is_u16 in Hn. by rewrite (IH f2) by (done || lia).
Qed.

(** *** Reading never panics *)

Lemma read_u16s_safe fuel data i limit : 0 <= i -> safe (read_u16s fuel data i limit).
Proof.
  revert i. induction fuel as [|fuel IH]; intros i Hi; simpl; [done|]. case_decide; [|done].
  apply safe_bind; [apply safe_rd16; lia|]. intros x _. apply safe_bind; [apply IH; lia|done].
Qed.

Lemma host_names_safe fuel rest : u8s rest -> safe (sni_names fuel rest).
Proof.
  revert rest. induction fuel as [|fuel IH]; intros rest Hu; simpl; [done|]. repeat (case_decide; [done|]).
  apply safe_bind; [apply safe_ix; pose proof (len_nonneg rest); lia|]. intros t _.
  apply safe_bind; [apply safe_rd16; lia|]. intros n Hn%(rd16_u16 _ _ _ Hu). unfold is_u16 in Hn.
  apply safe_bind; [apply safe_slice_from; lia|]. intros r [Hr _]%(slice_from_rest _ _ _ Hu); [|lia].
  case_decide; [done|]. case_decide; [apply safe_bind; [apply safe_slice; lia|done]|].
  apply safe_bind; [apply safe_slice_from; lia|]. intros r' [Hr' _]%(slice_from_rest _ _ _ Hr); [|lia]. by apply IH.
Qed.

Lemma alpn_names_safe fuel rest : u8s rest -> safe (alpn_names fuel rest).
Proof.
  revert rest. induction fuel as [|fuel IH]; intros rest Hu; simpl; [done|]. case_decide as Hne; [done|].
  assert (0 < len rest) as Hl by (destruct rest; [done|]; rewrite len_cons; pose proof (len_nonneg rest); lia).
  apply safe_bind; [apply safe_ix; lia|]. intros n Hn%(ix_u8 _ _ _ Hu). unfold is_u8 in Hn.
  apply safe_bind; [apply safe_slice_from; lia|]. intros r [Hr _]%(slice_from_rest _ _ _ Hu); [|lia].
  case_decide; [done|]. apply safe_bind; [apply safe_slice; lia|]. intros p _.
  apply safe_bind; [apply safe_slice_from; lia|]. intros r' [Hr' _]%(slice_from_rest _ _ _ Hr); [|lia].
  apply safe_bind; [by apply IH|done].
Qed.

Lemma key_shares_safe fuel rest : u8s rest -> safe (key_shares fuel rest).
Proof.
  revert rest. induction fuel as [|fuel IH]; intros rest Hu; simpl; [done|]. case_decide as Hne; [done|].
  apply safe_bind; [apply safe_rd16; lia|]. intros g _.
  apply safe_bind; [apply safe_rd16; lia|]. intros n Hn%(rd16_u16 _ _ _ Hu). unfold is_u16 in Hn.
  apply safe_bind; [apply safe_slice_from; lia|]. intros r [Hr _]%(slice_from_rest _ _ _ Hu); [|lia].
  case_decide; [done|]. apply safe_bind; [apply safe_slice; lia|]. intros p _.
  apply safe_bind; [apply safe_slice_from; lia|]. intros r' [Hr' _]%(slice_from_rest _ _ _ Hr); [|lia].
  apply safe_bind; [by apply IH|done].
Qed.

Lemma u8s_get_range data i j : u8s data -> u8s (default [] (get_range data i j)).
Proof. intros Hu. unfold get_range. case_decide; [by apply u8s_sub|by constructor]. Qed.

Lemma nonempty_ix {E} (data : bytes) : data <> [] -> @safe E Z (ix data 0).
Proof. intros Hn. apply safe_ix. destruct data; [done|]. rewrite len_cons. pose proof (len_nonneg data). lia. Qed.

Lemma byte_counted_safe data : u8s data -> safe (byte_counted data).
Proof. intros Hu. unfold byte_counted. case_decide; [done|]. apply safe_bind; [by apply nonempty_ix|done]. Qed.

(** A list after its length of one or two bytes. *)
Lemma after_u16_safe {A} (data : bytes) (a : R A) (k : Z -> R A) :
  u8s data -> safe a -> (forall n, is_u16 n -> 2 <= len data -> safe (k n)) -> safe (if decide (len data < 2) then a else n ← rd16 data 0; k n).
Proof.
  intros Hu Ha Hk. case_decide; [done|]. apply safe_bind; [apply safe_rd16; lia|]. intros n Hn%(rd16_u16 _ _ _ Hu). apply Hk; [done|lia].
Qed.
Lemma after_u8_safe {A} (data : bytes) (a : R A) (k : Z -> R A) :
  safe a -> (forall n, safe (k n)) -> safe (if decide (data = []) then a else n ← ix data 0; k n).
Proof. intros Ha Hk. case_decide; [done|]. apply safe_bind; [by apply nonempty_ix|]. intros n _. apply Hk. Qed.

Lemma parse_sni_safe data : u8s data -> safe (parse_sni data).
Proof.
  intros Hu. apply after_u16_safe; [done..|]. intros n Hn Hl. unfold is_u16 in Hn. case_decide; [done|].
  apply safe_bind; [apply safe_slice; lia|]. intros rest (_ & _ & ->)%slice_inv. apply safe_bind; [by apply host_names_safe, u8s_sub|done].
Qed.
Lemma parse_sig_algs_safe data : u8s data -> safe (parse_sig_algs data).
Proof. intros Hu. apply after_u16_safe; [done..|]. intros. by apply safe_bind; [apply read_u16s_safe|]. Qed.
Lemma parse_supported_curves_safe data : u8s data -> safe (parse_supported_curves data).
Proof. intros Hu. apply after_u16_safe; [done..|]. intros. by apply safe_bind; [apply read_u16s_safe|]. Qed.
Lemma parse_alpn_safe data : u8s data -> safe (parse_alpn data).
Proof. intros Hu. apply after_u16_safe; [done..|]. intros. by apply safe_bind; [apply alpn_names_safe, u8s_get_range|]. Qed.
Lemma parse_key_share_safe data : u8s data -> safe (parse_key_share data).
Proof. intros Hu. apply after_u16_safe; [done..|]. intros. by apply safe_bind; [apply key_shares_safe, u8s_get_range|]. Qed.
Lemma parse_supported_versions_safe data : safe (parse_supported_versions data).
Proof. apply after_u8_safe; [done|]. intros. by apply safe_bind; [apply read_u16s_safe|]. Qed.
Lemma parse_compress_cert_safe data : safe (parse_compress_cert data).
Proof. apply after_u8_safe; [done|]. intros. by apply safe_bind; [apply read_u16s_safe|]. Qed.

#[local] Hint Resolve byte_counted_safe parse_sni_safe parse_sig_algs_safe parse_supported_curves_safe parse_alpn_safe
  parse_key_share_safe parse_supported_versions_safe parse_compress_cert_safe : safe.

Lemma extension_from_wire_safe id data : u8s data -> safe (extension_from_wire id data).
Proof.
  intros Hu. unfold extension_from_wire. destruct (is_grease_u16 id); [done|]. repeat (case_decide; [solve [auto with safe]|]).
  case_decide; [|done]. case_decide; [done|]. apply safe_bind; [apply safe_rd16; lia|done].
Qed.

Lemma extension_loop_safe fuel buf blunt : u8s buf -> safe (extension_loop fuel buf blunt).
Proof.
  revert buf. induction fuel as [|fuel IH]; intros buf Hu; simpl; [done|]. repeat (case_decide; [done|]).
  apply safe_bind; [apply safe_rd16; lia|]. intros id _.
  apply safe_bind; [apply safe_rd16; lia|]. intros n Hn%(rd16_u16 _ _ _ Hu). unfold is_u16 in Hn.
  apply safe_bind; [apply safe_slice_from; lia|]. intros r [Hr _]%(slice_from_rest _ _ _ Hu); [|lia].
  case_decide; [done|]. apply safe_bind; [apply safe_slice; lia|]. intros data (_ & _ & ->)%slice_inv.
  apply safe_bind; [apply safe_slice_from; lia|]. intros r' [Hr' _]%(slice_from_rest _ _ _ Hr); [|lia].
  apply safe_bind; [|intros e _; apply safe_bind; [by apply IH|done]].
  pose proof (extension_from_wire_safe id (sub r 0 n) (u8s_sub _ _ _ Hr)) as Hs.
  destruct (extension_from_wire id (sub r 0 n)) as [e|[]|]; try done. by destruct blunt.
Qed.

Lemma mapM_safe {E A B} (f : A -> res E B) l : (forall x, x ∈ l -> safe (f x)) -> safe (mapM f l).
Proof.
  induction l as [|x l IH]; intros H; [done|]. simpl. apply safe_bind; [apply H; by left|]. intros y _.
  apply safe_bind; [|done]. apply IH. intros z Hz. apply H. by right.
Qed.

Lemma parse_handshake_safe data blunt : u8s data -> safe (parse_client_hello_handshake data blunt).
Proof.
  intros Hu. unfold parse_client_hello_handshake. case_decide; [done|]. apply safe_bind; [apply safe_ix; lia|]. intros t _. case_decide; [done|].
  apply safe_bind; [apply safe_ix; lia|]. intros a Ha%(ix_u8 _ _ _ Hu). apply safe_bind; [apply safe_ix; lia|]. intros b Hb%(ix_u8 _ _ _ Hu).
  apply safe_bind; [apply safe_ix; lia|]. intros c Hc%(ix_u8 _ _ _ Hu). cbv zeta. set (hs_len := Z.lor _ c).
  assert (0 <= hs_len) by (unfold hs_len, is_u8 in *; rewrite !Z.lor_nonneg, !Z.shiftl_nonneg; lia). clearbody hs_len. case_decide; [done|].
  apply safe_bind; [apply safe_slice; lia|]. intros ch (_ & _ & ->)%slice_inv. set (ch := sub data 4 (4 + hs_len)).
  assert (u8s ch) as Hch by by apply u8s_sub. clearbody ch. case_decide; [done|].
  apply safe_bind; [apply safe_rd16; lia|]. intros ver _. apply safe_bind; [apply safe_ix; lia|]. intros sid Hsid%(ix_u8 _ _ _ Hch). unfold is_u8 in Hsid.
  case_decide; [done|]. apply safe_bind; [apply safe_rd16; lia|]. intros cs Hcs%(rd16_u16 _ _ _ Hch). unfold is_u16 in Hcs.
  case_decide; [done|]. case_decide; [done|]. apply safe_bind.
  { apply mapM_safe. intros i [_ Hi]%elem_of_seq. apply safe_rd16. assert (Z.of_nat i < cs / 2) by lia. Z.to_euclidean_division_equations. lia. }
  intros suites _. apply safe_bind; [apply safe_ix; lia|]. intros comp Hcomp%(ix_u8 _ _ _ Hch). unfold is_u8 in Hcomp. case_decide; [done|].
  apply safe_bind; [apply safe_slice; lia|]. intros methods _. apply safe_bind; [|done]. repeat (case_decide; [done|]).
  apply safe_bind; [apply safe_rd16; lia|]. intros el Hel%(rd16_u16 _ _ _ Hch). unfold is_u16 in Hel. case_decide; [done|].
  apply safe_bind; [apply safe_slice; lia|]. intros blk (_ & _ & ->)%slice_inv. by apply extension_loop_safe, u8s_sub.
Qed.

(** Whatever bytes a peer sends, reading a ClientHello out of a TLS record never indexes out of range. *)
Theorem hello_parser_never_panics raw f : u8s raw -> safe (raw_client_hello f raw).
Proof.
  intros Hu. unfold raw_client_hello, client_hello_spec_from_tls_record. apply safe_bind; [|done].
  case_decide; [done|]. apply safe_bind; [apply safe_ix; lia|]. intros t _. case_decide; [done|].
  apply safe_bind; [apply safe_rd16; lia|]. intros n Hn%(rd16_u16 _ _ _ Hu). unfold is_u16 in Hn. case_decide; [done|].
  apply safe_bind; [apply safe_slice; lia|]. intros inner (_ & _ & ->)%slice_inv.
  apply parse_handshake_safe. by apply u8s_sub.
Qed.

(** *** GREASE *)

Lemma boring_grease_mod seed : boring_grease_value seed = boring_grease_value (seed mod 256).
Proof.
  unfold boring_grease_value. enough (Z.land (seed mod 256) 240 = Z.land seed 240) as -> by done.
  rewrite <- land_255, <- Z.land_assoc. done.
Qed.

(** Every seed gives a GREASE value. *)
Lemma boring_grease seed : is_grease_u16 (boring_grease_value seed) = true /\ is_u16 (boring_grease_value seed).
Proof.
  rewrite boring_grease_mod.
  assert (forallb (fun s => is_grease_u16 (boring_grease_value s) && (0 <=? boring_grease_value s) && (boring_grease_value s <? 65536))
            (Z.of_nat <$> seq 0 256) = true) as H by (vm_compute; reflexivity).
  rewrite forallb_forall in H. specialize (H (seed mod 256)). unfold is_u16. pose proof (Z.mod_pos_bound seed 256 ltac:(lia)).
  assert (In (seed mod 256) (Z.of_nat <$> seq 0 256)) as Hin.
  { apply list_elem_of_In, list_elem_of_fmap. exists (Z.to_nat (seed mod 256)). split; [lia|]. apply elem_of_seq. lia. }
  apply H in Hin. rewrite !andb_true_iff in Hin. split; [tauto|lia].
Qed.

Lemma ungrease_resolve value c : ungrease_u16 (resolve value c) = ungrease_u16 c.
Proof. unfold resolve. case_decide as Hc; [|done]. unfold ungrease_u16. rewrite (proj1 (boring_grease value)). by subst c. Qed.
Lemma ungrease_idem v : ungrease_u16 (ungrease_u16 v) = ungrease_u16 v.
Proof. unfold ungrease_u16. destruct (is_grease_u16 v) eqn:Hv; [done|]. by rewrite Hv. Qed.
Lemma resolve_u16 value c : is_u16 c -> is_u16 (resolve value c).
Proof. intros. unfold resolve. case_decide; [apply boring_grease|done]. Qed.

(** *** Lists of integers *)

Lemma u16_be_id n : is_u16 n -> u16_be n = to_be 2 n.
Proof. intros. unfold u16_be, as_u16. by rewrite Z.mod_small. Qed.
Lemma as_u8_id n : is_u8 n -> as_u8 n = n.
Proof. apply Z.mod_small. Qed.

Lemma len_u16s l : len (u16s_be l) = 2 * len l.
Proof. unfold u16s_be. induction l as [|x l IH]; [done|]. rewrite fmap_cons, concat_cons, len_app, len_to_be, IH, len_cons. lia. Qed.
#[local] Hint Rewrite len_u16s : wire.

Lemma u16s_be_cons x l : u16s_be (x :: l) = to_be 2 x ++ u16s_be l.
Proof. done. Qed.

Lemma read_u16s_list l p fuel limit : u16s l -> (length l <= fuel)%nat -> limit = len p + 2 * len l ->
  read_u16s fuel (p ++ u16s_be l) (len p) limit = Ok l.
Proof.
  revert p fuel limit. induction l as [|x l IH]; intros p fuel limit Hu Hf ->; pose proof (len_nonneg p).
  - destruct fuel; [done|]. simpl. rewrite decide_False; [done|]. autorewrite with wire. lia.
  - apply Forall_cons in Hu as [Hx Hu]. destruct fuel as [|fuel]; [simpl in Hf; lia|]. cbn [read_u16s]. rewrite len_cons.
    rewrite decide_True by (rewrite u16s_be_cons; autorewrite with wire; pose proof (len_nonneg l); lia).
    rewrite u16s_be_cons, rd16_mid by done. cbn [mbind res_bind]. rewrite app_assoc. replace (len p + 2) with (len (p ++ to_be 2 x)) by (autorewrite with wire; lia).
    rewrite (IH (p ++ to_be 2 x) fuel) by (done || (simpl in Hf; lia) || (autorewrite with wire; lia)). done.
Qed.

Lemma mapM_eq {A B} (f g : A -> R B) l : (forall x, f x = g x) -> mapM f l = mapM g l.
Proof. intros H. induction l as [|x l IH]; [done|]. cbn [mapM]. by rewrite H, IH. Qed.

Lemma mapM_u16s l p s j : u16s l ->
  mapM (fun i : nat => rd16 (p ++ u16s_be l ++ s) (len p + 2 * (Z.of_nat i - Z.of_nat j))) (seq j (length l)) = (Ok l : R (list Z)).
Proof.
  revert p j. induction l as [|x l IH]; intros p j Hu; [done|]. apply Forall_cons in Hu as [Hx Hu]. cbn [length seq mapM].
  rewrite u16s_be_cons, <- app_assoc, rd16_mid by (done || lia). cbn [mbind res_bind]. specialize (IH (p ++ to_be 2 x) (S j) Hu).
  rewrite <- app_assoc in IH. erewrite mapM_eq; [rewrite IH; done|]. intros i. cbv beta. f_equal. autorewrite with wire. lia.
Qed.

(** *** One extension *)

Lemma at16 {E} b p n s i : b = p ++ to_be 2 n ++ s -> i = len p -> is_u16 n -> @rd16 E b i = Ok n.
Proof. intros -> ->. by apply rd16_mid. Qed.
Lemma at_range {E} b (p m s : bytes) i j : b = p ++ m ++ s -> i = len p -> j = len p + len m -> @slice E Z b i j = Ok m.
Proof. intros ->. apply slice_mid. Qed.
Lemma at_rest {E} b (p m : bytes) i : b = p ++ m -> i = len p -> @slice_from E Z b i = Ok m.
Proof. intros ->. apply slice_from_end. Qed.
Lemma at_1 {E} (b p s : bytes) x i : b = p ++ x :: s -> i = len p -> @ix E Z b i = Ok x.
Proof. intros -> ->. apply ix_Ok. pose proof (len_nonneg p). split; [done|]. unfold len. rewrite Nat2Z.id. apply list_lookup_middle. done. Qed.

Lemma drop_while_suffix p s : exists t, s = t ++ drop_while p s /\ (length (drop_while p s) <= length s)%nat.
Proof.
  induction s as [|c s (t & Ht & Hl)]; [by exists []|]. simpl. destruct (p c); [|by exists []].
  exists (c :: t). simpl. split; [by f_equal|lia].
Qed.

Definition is_ascii_str (s : str) : Prop := Forall (fun c => 0 <= c < 128) s.

Lemma hostname_ascii h : is_ascii_str h -> is_ascii_str (hostname_for_sni h) /\ len (hostname_for_sni h) <= len h.
Proof.
  intros Ha. unfold hostname_for_sni. cbv zeta. unfold trim_end_matches. destruct (drop_while_suffix is_dot (rev h)) as (t & Ht & Hl).
  set (d := rev (drop_while is_dot (rev h))).
  assert (is_ascii_str d /\ len d <= len h) as [Hd Hdl].
  { assert (h = d ++ rev t) as Hh by (unfold d; by rewrite <- rev_app_distr, <- Ht, rev_involutive).
    unfold is_ascii_str in Ha. rewrite Hh in Ha. apply Forall_app in Ha as [? ?]. split; [done|]. rewrite Hh, len_app. pose proof (len_nonneg (rev t)). lia. }
  pose proof (len_nonneg h). case_decide; [by split; [constructor|]|]. destruct (_ || _); [by split; [constructor|]|].
  split; [|unfold len in *; by rewrite length_lower]. apply Forall_fmap. eapply Forall_impl; [exact Hd|].
  intros c Hc. unfold ascii_lower, in_rng. simpl. destruct ((65 <=? c) && (c <=? 90)) eqn:Hr; [|done]. rewrite andb_true_iff in Hr. lia.
Qed.

Lemma sni_read h : is_ascii_str h -> len h + 3 < 65536 -> h <> [] ->
  parse_sni (u16_be (len h + 3) ++ [0] ++ u16_be (len h) ++ h) = Ok (ServerName h).
Proof.
  intros Ha Hl Hne. pose proof (len_nonneg h). rewrite !u16_be_id by (unfold is_u16; lia). set (body := [0] ++ to_be 2 (len h) ++ h).
  assert (len body = len h + 3) as Hb by (unfold body; autorewrite with wire; lia).
  unfold parse_sni. rewrite decide_False by (autorewrite with wire; lia).
  rewrite (at16 _ [] (len h + 3) body 0) by (done || (unfold is_u16; lia)). cbn [mbind res_bind].
  rewrite decide_False by (autorewrite with wire; lia).
  rewrite (at_range _ (to_be 2 (len h + 3)) body [] 2) by (rewrite ?app_nil_r; autorewrite with wire; done || lia). cbn [mbind res_bind].
  destruct (length body) as [|fuel] eqn:Hf; [unfold len in Hb; lia|]. cbn [sni_names].
  rewrite (decide_False (P := body = [])) by done. rewrite decide_False by lia.
  rewrite (at_1 body [] (to_be 2 (len h) ++ h) 0) by done. cbn [mbind res_bind].
  rewrite (at16 body [0] (len h) h) by (done || (unfold is_u16; lia)). cbn [mbind res_bind].
  rewrite (at_rest body ([0] ++ to_be 2 (len h)) h) by (unfold body; rewrite <- ?app_assoc; autorewrite with wire; done || lia). cbn [mbind res_bind].
  rewrite decide_False by lia. rewrite decide_True by done. rewrite (at_range h [] h [] 0) by (by rewrite ?app_nil_r). cbn [mbind res_bind].
  by rewrite from_utf8_lossy_ascii.
Qed.

Lemma alpn_read ps fuel : Forall is_ascii_str ps -> Forall (fun p => len p < 256) ps ->
  let inner := concat ((fun p => as_u8 (len p) :: p) <$> ps) in (length inner <= fuel)%nat -> alpn_names fuel inner = Ok ps.
Proof.
  revert fuel. induction ps as [|p ps IH]; intros fuel Ha Hl inner Hf; [by destruct fuel|].
  apply Forall_cons in Ha as [Hp Ha]. apply Forall_cons in Hl as [Hpl Hl]. pose proof (len_nonneg p).
  assert (inner = (len p :: p) ++ concat ((fun p => as_u8 (len p) :: p) <$> ps)) as Hi by (unfold inner; rewrite fmap_cons, concat_cons, as_u8_id by (unfold is_u8; lia); done).
  clearbody inner. subst inner. set (rest := concat _) in *. destruct fuel as [|fuel]; [simpl in Hf; lia|]. cbn [alpn_names].
  rewrite decide_False by done. rewrite (at_1 _ [] (p ++ rest) (len p)) by done. cbn [mbind res_bind].
  rewrite (at_rest _ [len p] (p ++ rest)) by done. cbn [mbind res_bind]. pose proof (len_nonneg rest). rewrite decide_False by (rewrite len_app; lia).
  rewrite (at_range _ [] p rest) by done. cbn [mbind res_bind]. rewrite (at_rest _ p rest) by done. cbn [mbind res_bind].
  unfold rest at 1. rewrite IH; [|done|done|rewrite length_app in Hf; simpl in Hf; lia]. cbn [mbind res_bind]. by rewrite from_utf8_lossy_ascii.
Qed.

Definition share_bytes (e : KeyShareEntry) : bytes := to_be 2 e.(group) ++ u16_be (len e.(key_exchange)) ++ e.(key_exchange).

Lemma shares_read es fuel : Forall (fun e => is_u16 e.(group) /\ len e.(key_exchange) < 65536) es ->
  (length (concat (share_bytes <$> es)) <= fuel)%nat -> key_shares fuel (concat (share_bytes <$> es)) = Ok es.
Proof.
  revert fuel. induction es as [|[g ke] es IH]; intros fuel Hw Hf; [by destruct fuel|].
  apply Forall_cons in Hw as [[Hg Hk] Hw]. simpl in Hg, Hk. pose proof (len_nonneg ke). rewrite fmap_cons, concat_cons in *.
  set (rest := concat _) in *. unfold share_bytes in *. cbn [group key_exchange] in *. rewrite u16_be_id in * by (unfold is_u16; lia).
  rewrite <- !app_assoc in *. pose proof (len_nonneg rest).
  destruct fuel as [|fuel]; [rewrite length_app in Hf; simpl in Hf; lia|]. cbn [key_shares]. rewrite decide_False by (autorewrite with wire; lia).
  rewrite (at16 _ [] g (to_be 2 (len ke) ++ ke ++ rest) 0) by done. cbn [mbind res_bind].
  rewrite (at16 _ (to_be 2 g) (len ke) (ke ++ rest) 2) by (autorewrite with wire; done || (unfold is_u16; lia)). cbn [mbind res_bind].
  rewrite (at_rest _ (to_be 2 g ++ to_be 2 (len ke)) (ke ++ rest)) by (rewrite <- ?app_assoc; autorewrite with wire; done). cbn [mbind res_bind].
  rewrite decide_False by (rewrite len_app; lia). rewrite (at_range _ [] ke rest) by done. cbn [mbind res_bind].
  rewrite (at_rest _ ke rest) by done. cbn [mbind res_bind].
  rewrite IH; [done|done|]. rewrite !length_app in Hf. simpl in Hf. unfold rest in *. lia.
Qed.

(** An extension whose parts fit their fields; opaque ones need blunt mimicry to be read back. *)
Definition sendable (blunt : bool) (e : Extension) : Prop :=
  match e with
  | Grease v body => is_grease_u16 v = true /\ is_u16 v /\ len body < 65536
  | ServerName host => is_ascii_str host /\ len host + 5 < 65536
  | ExtendedMasterSecret | StatusRequest | SignedCertificateTimestamp | FakeChannelId _ => True
  | RenegotiationInfo r => True
  | SessionTicket t => len t < 65536
  | SignatureAlgorithms l | SupportedCurves l => u16s l /\ 2 * len l + 2 < 65536
  | Alpn ps => Forall is_ascii_str ps /\ Forall (fun p => len p < 256) ps /\ len (concat ((fun p => as_u8 (len p) :: p) <$> ps)) + 2 < 65536
  | SupportedPoints l | PskKeyExchangeModes l => len l < 256
  | KeyShare es => Forall (fun e => is_u16 e.(group) /\ len e.(key_exchange) < 65536) es /\ len (concat (share_bytes <$> es)) + 2 < 65536
  | SupportedVersions l | CompressCertificate l => u16s l /\ 2 * len l < 256
  | Padding (FixedPayloadLen n) => 0 <= n < 65536
  | Padding _ => False
  | RecordSizeLimit limit => is_u16 limit
  | Generic id data => blunt = true /\ is_u16 id /\ extension_from_wire id data = Err (UnsupportedExtension id) /\ len data < 65536
  end.

(** The name as it is sent. *)
Definition canonical (e : Extension) : Extension := match e with ServerName h => ServerName (hostname_for_sni h) | e => e end.

Lemma len_zeros n : 0 <= n -> len (zeros n) = n.
Proof. intros. unfold len, zeros. rewrite length_replicate. lia. Qed.

Lemma u16_list_read (f : list Z -> Extension) l : u16s l -> 2 * len l < 65536 ->
  (if decide (len (u16_be (len l * 2) ++ u16s_be l) < 2) then Ok (f []) else
   n ← rd16 (u16_be (len l * 2) ++ u16s_be l) 0;
   xs ← read_u16s (length (u16_be (len l * 2) ++ u16s_be l)) (u16_be (len l * 2) ++ u16s_be l) 2 (2 + n); Ok (f xs)) = (Ok (f l) : R Extension).
Proof.
  intros Hu Hl. pose proof (len_nonneg l). rewrite u16_be_id by (unfold is_u16; lia). rewrite decide_False by (autorewrite with wire; lia).
  rewrite (at16 _ [] (len l * 2) (u16s_be l)) by (done || (unfold is_u16; lia)). cbn [mbind res_bind].
  assert (2 * length l <= length (u16s_be l))%nat by (pose proof (len_u16s l); unfold len in *; lia).
  change 2 with (len (to_be 2 (len l * 2))) at 3. rewrite read_u16s_list; [done|done|rewrite length_app; lia|autorewrite with wire; lia].
Qed.

Lemma u8_list_read (f : list Z -> Extension) l : u16s l -> 2 * len l < 256 ->
  (if decide (as_u8 (len l * 2) :: u16s_be l = []) then Ok (f []) else
   n ← ix (as_u8 (len l * 2) :: u16s_be l) 0;
   xs ← read_u16s (length (as_u8 (len l * 2) :: u16s_be l)) (as_u8 (len l * 2) :: u16s_be l) 1 (1 + n); Ok (f xs)) = (Ok (f l) : R Extension).
Proof.
  intros Hu Hl. pose proof (len_nonneg l). rewrite as_u8_id by (unfold is_u8; lia). rewrite decide_False by done.
  rewrite (at_1 _ [] (u16s_be l) (len l * 2)) by done. cbn [mbind res_bind].
  assert (2 * length l <= length (u16s_be l))%nat by (pose proof (len_u16s l); unfold len in *; lia).
  change (len l * 2 :: u16s_be l) with ([len l * 2] ++ u16s_be l). change 1 with (len [len l * 2]) at 1.
  rewrite read_u16s_list; [done|done|rewrite length_app; simpl; lia|autorewrite with wire; lia].
Qed.

Lemma byte_counted_read l : len l < 256 -> byte_counted (as_u8 (len l) :: l) = Ok l.
Proof.
  intros Hl. pose proof (len_nonneg l). rewrite as_u8_id by (unfold is_u8; lia). unfold byte_counted. rewrite decide_False by done.
  rewrite (at_1 _ [] l (len l)) by done. cbn [mbind res_bind]. change (len l :: l) with ([len l] ++ l). rewrite <- (app_nil_r l) at 2.
  by rewrite (get_range_mid [len l] l []) by (autorewrite with wire; lia).
Qed.

Lemma block_read {A} (inner : bytes) (a : A) (k : bytes -> R A) : len inner < 65536 ->
  (if decide (len (u16_be (len inner) ++ inner) < 2) then Ok a else
   n ← rd16 (u16_be (len inner) ++ inner) 0; k (default [] (get_range (u16_be (len inner) ++ inner) 2 (2 + n)))) = k inner.
Proof.
  intros Hl. pose proof (len_nonneg inner). rewrite u16_be_id by (unfold is_u16; lia). rewrite decide_False by (autorewrite with wire; lia).
  rewrite (at16 _ [] (len inner) inner 0) by (done || (unfold is_u16; lia)). cbn [mbind res_bind].
  rewrite <- (app_nil_r inner) at 2. by rewrite (get_range_mid (to_be 2 (len inner)) inner []) by (autorewrite with wire; lia).
Qed.

Lemma extension_reads blunt e : sendable blunt e ->
  match extension_from_wire (wire_type e) (marshal_payload e) with
  | Err (UnsupportedExtension i) => if blunt then Ok (Generic (wire_type e) (marshal_payload e)) else Err (UnsupportedExtension i)
  | r => r
  end = Ok (canonical e).
Proof.
  destruct e as [v body|host| |r|t|l| | |ps|old|l|es|l|l|l|l|[| |n]|limit|id data]; simpl sendable; intros Hs; try done.
  - destruct Hs as (Hg & _). unfold extension_from_wire. simpl. by rewrite Hg.
  - destruct Hs as (Ha & Hl). destruct (hostname_ascii host Ha) as [Ha' Hl']. change (wire_type (ServerName host)) with EXT_SERVER_NAME. cbn [marshal_payload].
    change (extension_from_wire EXT_SERVER_NAME) with parse_sni. cbn [canonical]. case_decide as He; [by rewrite He|]. rewrite sni_read by (done || lia). done.
  - change (extension_from_wire _) with parse_sig_algs. unfold parse_sig_algs. cbn [marshal_payload]. by rewrite u16_list_read by (tauto || lia).
  - change (extension_from_wire _) with parse_alpn. unfold parse_alpn. cbn [marshal_payload]. destruct Hs as (Ha & Hp & Hl).
    rewrite (block_read _ _ (fun rest => protos ← alpn_names (length rest) rest; Ok (Alpn protos))) by lia. by rewrite alpn_read.
  - by destruct old.
  - change (extension_from_wire _ ?d) with (SupportedPoints <$> byte_counted d). cbn [marshal_payload]. by rewrite byte_counted_read.
  - change (extension_from_wire _) with parse_key_share. unfold parse_key_share. cbn [marshal_payload]. destruct Hs as (Ha & Hl).
    rewrite (block_read _ _ (fun rest => entries ← key_shares (length rest) rest; Ok (KeyShare entries))) by (unfold share_bytes in Hl; lia).
    fold share_bytes. by rewrite shares_read.
  - change (extension_from_wire _ ?d) with (PskKeyExchangeModes <$> byte_counted d). cbn [marshal_payload]. by rewrite byte_counted_read.
  - change (extension_from_wire _) with parse_supported_versions. unfold parse_supported_versions. cbn [marshal_payload]. by rewrite u8_list_read by tauto.
  - change (extension_from_wire _) with parse_supported_curves. unfold parse_supported_curves. cbn [marshal_payload].
    replace (len (u16s_be l)) with (len l * 2) by (rewrite len_u16s; lia). by rewrite u16_list_read by (tauto || lia).
  - change (extension_from_wire _) with parse_compress_cert. unfold parse_compress_cert. cbn [marshal_payload]. by rewrite u8_list_read by tauto.
  - change (extension_from_wire _ ?d) with (Ok (Padding (FixedPayloadLen (len d))) : R Extension). cbn [marshal_payload]. by rewrite len_zeros by lia.
  - change (extension_from_wire _ ?d) with (if decide (len d < 2) then Err (ParseError "record_size_limit"%string) else x ← rd16 d 0; Ok (RecordSizeLimit x)).
    cbn [marshal_payload]. rewrite decide_False by (rewrite len_to_be; lia). by rewrite (at16 _ [] limit []) by (by rewrite ?app_nil_r).
  - destruct Hs as (-> & _ & Hu & _). simpl. by rewrite Hu.
Qed.

Lemma sendable_wire blunt e : sendable blunt e -> is_u16 (wire_type e) /\ is_u16 (len (marshal_payload e)) /\ marshal e = Ok (ext_wire (wire_type e) (marshal_payload e)).
Proof.
  intros Hs. assert (is_u16 (len (marshal_payload e)) /\ is_u16 (wire_type e)) as [? ?]; [|split_and!; [done..|by destruct e as [| | | | | | | | | | | | | | | |[]| |]]].
  pose proof (len_nonneg (marshal_payload e)) as Hn. enough (len (marshal_payload e) < 65536 /\ is_u16 (wire_type e)) by (unfold is_u16 in *; tauto). clear Hn.
  destruct e as [v body|host| |r|t|l| | |ps|old|l|es|l|l|l|l|[| |n]|limit|id data]; simpl in Hs |- *; split; try done; try tauto; try by destruct old.
  all: autorewrite with wire; unfold u16_be; autorewrite with wire; try lia.
  - destruct Hs as (Ha & Hl). destruct (hostname_ascii host Ha) as [_ Hl']. case_decide; autorewrite with wire; lia.
  - destruct Hs as (_ & Hl). unfold share_bytes, u16_be in Hl. simpl in *. lia.
  - rewrite len_zeros; lia.
Qed.

(** *** The block *)

Definition wire_of (e : Extension) : bytes := ext_wire (wire_type e) (marshal_payload e).
Definition ext_block (exts : list Extension) : bytes := concat (wire_of <$> exts).

Lemma block_reads blunt exts fuel : Forall (sendable blunt) exts -> (length (ext_block exts) <= fuel)%nat ->
  extension_loop fuel (ext_block exts) blunt = Ok (canonical <$> exts).
Proof.
  revert fuel. induction exts as [|e exts IH]; intros fuel Hs Hf; [by destruct fuel|]. apply Forall_cons in Hs as [He Hs].
  destruct (sendable_wire _ _ He) as (Hi & Hn & _). pose proof (extension_reads _ _ He) as Hr.
  assert (ext_block (e :: exts) = to_be 2 (wire_type e) ++ to_be 2 (len (marshal_payload e)) ++ marshal_payload e ++ ext_block exts) as Hb.
  { unfold ext_block. rewrite fmap_cons, concat_cons. unfold wire_of at 1, ext_wire. rewrite u16_be_id by done. by rewrite <- !app_assoc. }
  rewrite Hb in *. set (d := marshal_payload e) in *. set (rest := ext_block exts) in *.
  destruct fuel as [|fuel]; [rewrite length_app in Hf; simpl in Hf; lia|]. cbn [extension_loop]. pose proof (len_nonneg d). pose proof (len_nonneg rest).
  rewrite (decide_False (P := _ = [])) by done. rewrite decide_False by (autorewrite with wire; lia).
  rewrite (at16 _ [] (wire_type e) (to_be 2 (len d) ++ d ++ rest) 0) by done. cbn [mbind res_bind].
  rewrite (at16 _ (to_be 2 (wire_type e)) (len d) (d ++ rest) 2) by (autorewrite with wire; done). cbn [mbind res_bind].
  rewrite (at_rest _ (to_be 2 (wire_type e) ++ to_be 2 (len d)) (d ++ rest)) by (rewrite <- ?app_assoc; autorewrite with wire; done). cbn [mbind res_bind].
  rewrite decide_False by (rewrite len_app; lia). rewrite (at_range _ [] d rest) by done. cbn [mbind res_bind].
  rewrite (at_rest _ d rest) by done. cbn [mbind res_bind]. rewrite Hr. cbn [mbind res_bind].
  rewrite IH; [done|done|]. rewrite !length_app in Hf. simpl in Hf. unfold rest in *. lia.
Qed.

(** The extensions as they are sent: GREASE values chosen, the server name filled in. *)
Fixpoint sent (p : MarshalParams) (slot : Z) (exts : list Extension) : list Extension :=
  match exts with
  | [] => []
  | e :: exts => let '(e, slot) := apply_grease_to_extension p.(grease_seed) slot e in inject_sni p.(server_name) e :: sent p slot exts
  end.

Definition nameable (p : MarshalParams) : Prop := is_ascii_str p.(server_name) /\ len p.(server_name) + 5 < 65536.

Lemma len_resolved_shares value es :
  len (concat (share_bytes <$> ((fun e => {| group := resolve value (group e); key_exchange := key_exchange e |}) <$> es))) = len (concat (share_bytes <$> es)).
Proof.
  induction es as [|e es IH]; [done|]. rewrite !fmap_cons, !concat_cons, !len_app, IH. unfold share_bytes. cbn [group key_exchange]. by rewrite !len_app, !len_to_be.
Qed.

(** What an extension takes when it is sent, at most. *)
Definition ext_size (p : MarshalParams) (e : Extension) : Z :=
  4 + match e with
      | Grease _ body => Z.max 1 (len body)
      | ServerName host => 5 + Z.max (len host) (len p.(server_name))
      | e => len (marshal_payload e)
      end.

Lemma sent_size p slot e : nameable p -> match e with ServerName h => is_ascii_str h | _ => True end ->
  len (wire_of (inject_sni p.(server_name) (apply_grease_to_extension p.(grease_seed) slot e).1)) <= ext_size p e.
Proof.
  intros [Hn _] He. unfold wire_of, ext_wire, u16_be, ext_size. autorewrite with wire.
  enough (len (marshal_payload (inject_sni p.(server_name) (apply_grease_to_extension p.(grease_seed) slot e).1)) <= ext_size p e - 4) as H by (unfold ext_size in H; lia).
  unfold ext_size. destruct e as [v body|host| |r|t|l| | |ps|old|l|es|l|l|l|l|[| |n]|limit|id data]; simpl apply_grease_to_extension; cbn [fst inject_sni]; try lia.
  - case_decide; [case_decide|]; cbn [fst inject_sni marshal_payload]; try rewrite len_nil; try rewrite len_1; lia.
  - set (h := if decide _ then _ else _). assert (is_ascii_str h /\ len h <= Z.max (len host) (len (server_name p))) as [Hh Hl] by (unfold h; case_decide; split; done || lia).
    cbn [marshal_payload]. destruct (hostname_ascii h Hh) as [_ Hle]. pose proof (len_nonneg host). case_decide; [rewrite len_nil; lia|].
    unfold u16_be. autorewrite with wire. lia.
  - cbn [marshal_payload]. fold share_bytes. unfold u16_be. autorewrite with wire. pose proof (len_resolved_shares (s_group (grease_seed p)) es) as H. lia.
  - cbn [marshal_payload]. autorewrite with wire. unfold len. rewrite length_fmap. lia.
  - cbn [marshal_payload]. unfold u16_be. autorewrite with wire. unfold len. rewrite length_fmap. lia.
Qed.

Lemma sendable_sent1 blunt p slot e : nameable p -> sendable blunt e -> sendable blunt (inject_sni p.(server_name) (apply_grease_to_extension p.(grease_seed) slot e).1).
Proof.
  intros [Hn1 Hn2]. destruct e as [v body|host| |r|t|l| | |ps|old|l|es|l|l|l|l|[| |n]|limit|id data]; simpl; try done.
  - intros (Hg & Hu & Hl). case_decide; [case_decide|]; simpl; split_and!; try done; apply boring_grease.
  - intros [? ?]. by case_decide.
  - intros (Hf & Hl). split.
    + apply Forall_fmap. eapply Forall_impl; [exact Hf|]. intros e [? ?]. split; [by apply resolve_u16|done].
    + by rewrite len_resolved_shares.
  - intros (Hf & Hl). unfold len in *. rewrite length_fmap. split; [|done]. apply Forall_fmap. eapply Forall_impl; [exact Hf|]. intros x. apply resolve_u16.
  - intros (Hf & Hl). unfold len in *. rewrite length_fmap. split; [|done]. apply Forall_fmap. eapply Forall_impl; [exact Hf|]. intros x. apply resolve_u16.
Qed.

Lemma sendable_sent blunt p slot exts : nameable p -> Forall (sendable blunt) exts -> Forall (sendable blunt) (sent p slot exts).
Proof.
  intros Hn Hs. revert slot. induction Hs as [|e exts He Hs IH]; intros slot; [constructor|]. simpl.
  pose proof (sendable_sent1 blunt p slot e Hn He). destruct (apply_grease_to_extension _ _ e) as [e' slot']. by constructor.
Qed.

Lemma marshal_parts_app blunt p slot i bi exts tail : nameable p -> Forall (sendable blunt) exts ->
  exists slot', marshal_parts p slot i bi (exts ++ tail) =
    '(parts, bi) ← marshal_parts p slot' (i + length exts) bi tail; Ok ((wire_of <$> sent p slot exts) ++ parts, bi).
Proof.
  intros Hn Hs. revert slot i. induction Hs as [|e exts He Hs IH]; intros slot i.
  - exists slot. rewrite Nat.add_0_r. simpl. by destruct (marshal_parts p slot i bi tail) as [[parts bi']| |].
  - pose proof (sendable_sent1 blunt p slot e Hn He) as He'. destruct (apply_grease_to_extension (grease_seed p) slot e) as [e' slot'] eqn:Hg.
    destruct (IH slot' (S i)) as [s Hs']. exists s.
    assert (marshal_parts p slot i bi ((e :: exts) ++ tail) =
      (part ← marshal (inject_sni p.(server_name) e'); '(parts, bi) ← marshal_parts p slot' (S i) bi (exts ++ tail); Ok (part :: parts, bi))) as ->.
    { simpl. unfold marshal_one_extension. rewrite Hg. by destruct e as [| | | | | | | | | | | | | | | |[| |]| |]. }
    cbn [fst] in He'. destruct (sendable_wire blunt _ He') as (_ & _ & ->). cbn [mbind res_bind]. rewrite Hs'. simpl. rewrite Hg. simpl. rewrite <- Nat.add_succ_comm.
    change (S i + length exts)%nat with (S (i + length exts)). by destruct (marshal_parts p s (S (i + length exts)) bi tail) as [[parts bi']| |].
Qed.

(** *** The ClientHello *)

(** The length of the body up to its extensions, as the padding counts it. *)
Definition body_prefix (spec : ClientHelloSpec) (p : MarshalParams) : Z :=
  2 + 32 + 1 + len p.(session_id) + 2 + len spec.(cipher_suites) * 2 + 1 + Z.max (len spec.(compression_methods)) 1 + 2.

(** The extensions that are sent, the padding computed. *)
Definition padding_sent (u : Z) : list Extension :=
  let '(plen, will_pad) := boring_padding_len u in if will_pad then [Padding (FixedPayloadLen plen)] else [].
Definition sent_extensions (spec : ClientHelloSpec) (p : MarshalParams) (exts : list Extension) (padded : bool) : list Extension :=
  sent p 0 exts ++ (if padded then padding_sent (body_prefix spec p + len (ext_block (sent p 0 exts))) else []).

(** A specification that can be sent and read back: its padding, if any, to be computed and last. *)
Record well_formed (blunt : bool) (spec : ClientHelloSpec) (p : MarshalParams) (exts : list Extension) (padded : bool) : Prop := {
  wf_extensions : spec.(extensions) = exts ++ (if padded then [Padding Boring] else []);
  wf_sendable : Forall (sendable blunt) exts;
  wf_nameable : nameable p;
  wf_suites : u16s spec.(cipher_suites);
  wf_methods : len spec.(compression_methods) < 256;
  wf_versions : is_u16 spec.(tls_vers_min) /\ is_u16 spec.(tls_vers_max);
  wf_session : len p.(session_id) < 256;
  wf_random : len p.(random) = 32;
}.

Lemma boring_padding_range u plen : boring_padding_len u = (plen, true) -> 1 <= plen <= 252.
Proof. unfold boring_padding_len. case_decide; [|done]. case_decide; intros [= <-]; lia. Qed.

Lemma ext_block_app a b : ext_block (a ++ b) = ext_block a ++ ext_block b.
Proof. unfold ext_block. by rewrite fmap_app, concat_app. Qed.

Section WellFormed.
Context (blunt : bool) (spec : ClientHelloSpec) (p : MarshalParams) (exts : list Extension) (padded : bool) (wf : well_formed blunt spec p exts padded).

Lemma sent_extensions_sendable : Forall (sendable blunt) (sent_extensions spec p exts padded).
Proof using wf.
  apply Forall_app. split; [apply sendable_sent; apply wf|]. destruct padded; [|constructor]. unfold padding_sent.
  destruct (boring_padding_len _) as [plen [|]] eqn:Hb; [|constructor]. apply boring_padding_range in Hb. repeat constructor; simpl; lia.
Qed.

Lemma marshal_extensions_sent : marshal_extensions spec p = Ok (ext_block (sent_extensions spec p exts padded)).
Proof using wf.
  unfold marshal_extensions. rewrite (wf_extensions _ _ _ _ _ wf).
  destruct (marshal_parts_app blunt p 0 0 None exts (if padded then [Padding Boring] else []) (wf_nameable _ _ _ _ _ wf) (wf_sendable _ _ _ _ _ wf)) as [s ->].
  unfold sent_extensions. destruct padded; simpl; [|by rewrite !app_nil_r].
  set (parts := wire_of <$> sent p 0 exts).
  assert (length exts = length parts) as ->.
  { unfold parts. rewrite length_fmap. clear. generalize 0. induction exts as [|e es IH]; intros z; [done|]. simpl. destruct (apply_grease_to_extension _ _ e). simpl. by f_equal. }
  rewrite concat_app. change (concat [[]]) with ([] : bytes). rewrite app_nil_r. fold parts. change (concat parts) with (ext_block (sent p 0 exts)).
  fold (body_prefix spec p). rewrite ext_block_app. unfold padding_sent. destruct (boring_padding_len _) as [plen will] eqn:Hb.
  rewrite <- (Nat.add_0_r (length parts)), insert_app_r. simpl. rewrite concat_app. f_equal. f_equal.
  destruct will; [|done]. apply boring_padding_range in Hb. unfold ext_block. simpl. unfold wire_of. simpl. done.
Qed.

Definition legacy_version : Z := if has_tls13 spec then VERSION_TLS12 else Z.max spec.(tls_vers_max) spec.(tls_vers_min).
Definition methods_sent : bytes := if decide (spec.(compression_methods) = []) then [COMPRESSION_NONE] else spec.(compression_methods).
Definition suites_sent : list Z := (fun c => resolve_grease_cipher c p.(grease_seed)) <$> spec.(cipher_suites).

Lemma methods_len : len methods_sent = Z.max (len spec.(compression_methods)) 1.
Proof using Type.
  unfold methods_sent. case_decide as H; [by rewrite H|]. destruct (compression_methods spec); [done|]. rewrite len_cons. pose proof (len_nonneg l). lia.
Qed.

Lemma marshal_body : marshal_client_hello_body spec p = Ok (
  to_be 2 legacy_version ++ p.(random) ++ [len p.(session_id)] ++ p.(session_id) ++ u16_be (len spec.(cipher_suites) * 2) ++ u16s_be suites_sent ++
  [len methods_sent] ++ methods_sent ++ u16_be (len (ext_block (sent_extensions spec p exts padded))) ++ ext_block (sent_extensions spec p exts padded)).
Proof using wf.
  unfold marshal_client_hello_body. pose proof (wf_session _ _ _ _ _ wf). pose proof (len_nonneg p.(session_id)). rewrite decide_False by lia.
  rewrite marshal_extensions_sent. cbn [mbind res_bind]. f_equal. fold legacy_version suites_sent.
  rewrite (as_u8_id (len (session_id p))) by (unfold is_u8; lia).
  assert (len suites_sent = len (cipher_suites spec)) as -> by (unfold suites_sent, len; by rewrite length_fmap). do 6 f_equal.
  unfold methods_sent. case_decide; [done|]. pose proof (wf_methods _ _ _ _ _ wf). pose proof (len_nonneg (compression_methods spec)).
  rewrite as_u8_id by (unfold is_u8; lia). done.
Qed.

(** What is read back: the GREASE values of the lists as placeholders. *)
Definition read_back : ClientHelloSpec :=
  let exts := canonical <$> sent_extensions spec p exts padded in
  let vers := if existsb is_supported_versions exts then 0 else legacy_version in
  {| cipher_suites := ungrease_u16 <$> spec.(cipher_suites); compression_methods := methods_sent;
     extensions := ungrease_extension <$> exts; tls_vers_min := vers; tls_vers_max := vers |}.

Lemma legacy_u16 : is_u16 legacy_version.
Proof using wf. destruct (wf_versions _ _ _ _ _ wf). unfold legacy_version. destruct (has_tls13 spec); [done|]. unfold is_u16 in *. lia. Qed.

Lemma suites_u16 : u16s suites_sent.
Proof using wf. apply Forall_fmap. eapply Forall_impl; [apply (wf_suites _ _ _ _ _ wf)|]. intros c. apply resolve_u16. Qed.
Lemma suites_read : ungrease_u16 <$> suites_sent = ungrease_u16 <$> spec.(cipher_suites).
Proof using Type. unfold suites_sent. rewrite <- list_fmap_compose. apply list_fmap_ext. intros i c _. apply ungrease_resolve. Qed.
End WellFormed.

Lemma rd16_after {E} (p r : bytes) i : 0 <= i -> @rd16 E (p ++ r) (len p + i) = rd16 r i.
Proof.
  intros Hi. unfold rd16. rewrite !ix_app_r by lia. by replace (len p + i - len p) with i by lia; replace (len p + i + 1 - len p) with (i + 1) by lia.
Qed.
Lemma slice_after {E} (p r : bytes) i j : 0 <= i -> @slice E Z (p ++ r) (len p + i) (len p + j) = slice r i j.
Proof.
  intros Hi. pose proof (len_nonneg p). unfold slice. rewrite len_app. destruct (decide (0 <= i <= j /\ j <= len r)).
  - rewrite decide_True by lia. f_equal. unfold sub. replace (Z.to_nat (len p + i)) with (length p + Z.to_nat i)%nat by (unfold len; lia).
    rewrite drop_app_add. do 2 f_equal. lia.
  - by rewrite decide_False by lia.
Qed.

(** A body laid out as [marshal_client_hello_body] does, with [rest] after the compression methods. *)
Definition body_of (legacy : Z) (random sid : bytes) (suites : list Z) (methods rest : bytes) : bytes :=
  to_be 2 legacy ++ random ++ [len sid] ++ sid ++ to_be 2 (len suites * 2) ++ u16s_be suites ++ [len methods] ++ methods ++ rest.

Section Body.
Context (legacy : Z) (random sid : bytes) (suites : list Z) (methods rest : bytes).
Context (Hv : is_u16 legacy) (Hr : len random = 32) (Hs : len sid < 256) (Hu : u16s suites) (Hc : len suites * 2 < 65536) (Hm : len methods < 256).

Lemma len_body_of : len (body_of legacy random sid suites methods rest) = 39 - 1 + len sid + len suites * 2 + len methods + len rest.
Proof using Hr. unfold body_of. autorewrite with wire. rewrite Hr. lia. Qed.

(** Reading a body up to its extensions. *)
Lemma parse_body blunt : len (body_of legacy random sid suites methods rest) < 2 ^ 24 ->
  parse_client_hello_handshake ([1] ++ to_be 3 (len (body_of legacy random sid suites methods rest)) ++ body_of legacy random sid suites methods rest) blunt =
  if decide (len rest < 2) then Err UnexpectedEof else
  exts ← (ext_len ← rd16 rest 0; if decide (len rest < 2 + ext_len) then Err UnexpectedEof else blk ← slice rest 2 (2 + ext_len); parse_extension_block blk blunt);
  let vers := if existsb is_supported_versions exts then 0 else legacy in
  Ok {| cipher_suites := ungrease_u16 <$> suites; compression_methods := methods; extensions := ungrease_extension <$> exts;
        tls_vers_min := vers; tls_vers_max := vers |}.
Proof using All.
  pose proof (len_nonneg sid). pose proof (len_nonneg suites). pose proof (len_nonneg methods). pose proof (len_nonneg rest). pose proof len_body_of as Hlen.
  set (ch := body_of _ _ _ _ _ _) in *. intros Hb. set (n := len ch) in *. unfold parse_client_hello_handshake. rewrite decide_False by (autorewrite with wire; lia).
  rewrite (at_1 _ [] (to_be 3 n ++ ch) 1 0) by done. cbn [mbind res_bind]. rewrite decide_False by (intros Hf; by apply Hf).
  unfold to_be at 1 2 3. rewrite (at_1 _ [1] _ _ 1) by done. cbn [mbind res_bind app]. erewrite (at_1 _ [_; _] _ _ 2) by done. cbn [mbind res_bind].
  erewrite (at_1 _ [_; _; _] _ _ 3) by done. cbn [mbind res_bind]. cbv zeta. rewrite be24_value by (apply Z.mod_pos_bound; lia).
  match goal with |- context [of_be ?l] => change l with (to_be 3 n) end. rewrite of_be_to_be_id by (simpl; lia).
  rewrite decide_False by (autorewrite with wire; lia).
  rewrite (at_range _ (1 :: to_be 3 n) ch []) by (rewrite ?app_nil_r; autorewrite with wire; done || lia). cbn [mbind res_bind]. fold n.
  rewrite decide_False by lia. set (tail := to_be 2 (len suites * 2) ++ u16s_be suites ++ [len methods] ++ methods ++ rest).
  assert (ch = to_be 2 legacy ++ random ++ len sid :: sid ++ tail) as Hch by done.
  rewrite (at16 ch [] legacy (random ++ len sid :: sid ++ tail)) by done. cbn [mbind res_bind].
  rewrite (at_1 ch (to_be 2 legacy ++ random) (sid ++ tail) (len sid)) by first [done | lia | (autorewrite with wire; lia) | (rewrite Hch, <- ?app_assoc; done)]. cbn [mbind res_bind].
  rewrite decide_False by lia. set (p1 := to_be 2 legacy ++ random ++ [len sid] ++ sid).
  assert (len p1 = 35 + len sid) as Hp1 by (unfold p1; autorewrite with wire; lia).
  assert (ch = p1 ++ tail) as Hch1 by (rewrite Hch; unfold p1; by rewrite <- !app_assoc).
  rewrite (at16 ch p1 (len suites * 2) (u16s_be suites ++ [len methods] ++ methods ++ rest)) by (done || (unfold is_u16; lia)). cbn [mbind res_bind].
  rewrite decide_False by (rewrite Z.mod_mul by lia; tauto). rewrite decide_False by lia.
  set (p2 := p1 ++ to_be 2 (len suites * 2)). assert (len p2 = 37 + len sid) as Hp2 by (unfold p2; autorewrite with wire; lia).
  assert (ch = p2 ++ u16s_be suites ++ [len methods] ++ methods ++ rest) as Hch2 by (rewrite Hch1; unfold p2, tail; by rewrite <- !app_assoc).
  rewrite Z.div_mul by lia. replace (Z.to_nat (len suites)) with (length suites) by (unfold len; lia).
  assert (mapM (fun i : nat => rd16 ch (35 + len sid + 2 + 2 * Z.of_nat i)) (seq 0 (length suites)) = (Ok suites : R (list Z))) as ->.
  { rewrite Hch2, <- (mapM_u16s suites p2 ([len methods] ++ methods ++ rest) 0 Hu). apply mapM_eq. intros i. f_equal. lia. }
  cbn [mbind res_bind]. set (p3 := p2 ++ u16s_be suites). assert (len p3 = 37 + len sid + len suites * 2) as Hp3 by (unfold p3; autorewrite with wire; lia).
  assert (ch = p3 ++ len methods :: methods ++ rest) as Hch3 by (rewrite Hch2; unfold p3; by rewrite <- !app_assoc).
  rewrite (at_1 ch p3 (methods ++ rest) (len methods)) by (done || lia). cbn [mbind res_bind].
  assert (ch = (p3 ++ [len methods]) ++ methods ++ rest) as Hch4 by (rewrite Hch3; by rewrite <- app_assoc).
  replace (len ch) with (38 + len sid + len suites * 2 + len methods + len rest) by lia. case_decide; [by rewrite decide_True by lia|].
  rewrite (decide_False (P := len rest < 2)) by lia.
  rewrite (at_range ch (p3 ++ [len methods]) methods rest) by (done || (autorewrite with wire; lia)). cbn [mbind res_bind].
  set (p4 := (p3 ++ [len methods]) ++ methods). assert (len p4 = 38 + len sid + len suites * 2 + len methods) as Hp4 by (unfold p4; autorewrite with wire; lia).
  assert (ch = p4 ++ rest) as Hch5 by (rewrite Hch4; unfold p4; by rewrite <- !app_assoc). rewrite decide_False by lia.
  replace (35 + len sid + 2 + len suites * 2 + 1 + len methods) with (len p4 + 0) by lia. rewrite Hch5, rd16_after by lia. f_equal.
  destruct (rd16 rest 0) as [el| |]; [|done..]. cbn [mbind res_bind]. replace n with (len p4 + len rest) by (unfold n; lia).
  replace (len p4 + 0 + 2) with (len p4 + 2) by lia. replace (len p4 + 2 + el) with (len p4 + (2 + el)) by lia. rewrite slice_after by lia.
  case_decide; [by rewrite decide_True by lia|by rewrite decide_False by lia].
Qed.
End Body.

(** A ClientHello without an extensions block is refused: the branch of [parse.rs] that would read it as
    having no extensions is never taken. *)
Lemma hello_without_extensions legacy random sid suites methods blunt :
  is_u16 legacy -> len random = 32 -> len sid < 256 -> u16s suites -> len suites * 2 < 65536 -> len methods < 256 ->
  let body := body_of legacy random sid suites methods [] in
  parse_client_hello_handshake ([1] ++ to_be 3 (len body) ++ body) blunt = Err UnexpectedEof.
Proof.
  intros Hv Hr Hs Hu Hc Hm body. pose proof (len_nonneg sid). pose proof (len_nonneg suites).
  pose proof (len_body_of legacy random sid suites methods [] Hr) as Hl. rewrite len_nil in Hl. unfold body. rewrite parse_body by (done || lia). done.
Qed.

Lemma handshake_bytes spec p body : marshal_client_hello_body spec p = Ok body ->
  marshal_handshake_client_hello spec p = Ok ([1] ++ to_be 3 (len body) ++ body).
Proof.
  intros H. unfold marshal_handshake_client_hello. rewrite H. cbn [mbind res_bind]. rewrite <- be24_bytes. unfold as_u8.
  rewrite !land_255, !Zmod_mod. done.
Qed.

(** Reading a record back, for every specification that can be sent. *)
Lemma record_read_back blunt spec p exts padded :
  well_formed blunt spec p exts padded ->
  exists rec, marshal_tls_client_hello_record spec p = Ok rec /\
    len rec = 9 + body_prefix spec p + len (ext_block (sent_extensions spec p exts padded)) /\
    (len rec <= 65540 -> client_hello_spec_from_tls_record rec blunt = Ok (read_back spec p exts padded)).
Proof.
  intros wf. pose proof (marshal_body _ _ _ _ _ wf) as Hb. unfold marshal_tls_client_hello_record. rewrite (handshake_bytes _ _ _ Hb). cbn [mbind res_bind].
  match type of Hb with _ = Ok ?b => set (body := b) in * end. set (hs := [1] ++ to_be 3 (len body) ++ body). eexists. split; [done|].
  set (blk := ext_block (sent_extensions spec p exts padded)) in *. pose proof (len_nonneg blk). pose proof (len_nonneg (session_id p)).
  assert (len hs = 4 + len body) as Hhs by (unfold hs; autorewrite with wire; lia). pose proof (methods_len spec) as Hml. pose proof (wf_methods _ _ _ _ _ wf).
  assert (len (suites_sent spec p) = len (cipher_suites spec)) as Hsl by (unfold suites_sent, len; by rewrite length_fmap).
  pose proof (len_nonneg (cipher_suites spec)). pose proof (wf_random _ _ _ _ _ wf) as Hr. pose proof (wf_session _ _ _ _ _ wf).
  assert (len body = 38 + len (session_id p) + len (cipher_suites spec) * 2 + len (methods_sent spec) + (2 + len blk)) as Hbl.
  { unfold body, u16_be. autorewrite with wire. lia. }
  split; [unfold u16_be; autorewrite with wire; unfold body_prefix; lia|].
  intros Hlen. unfold u16_be in Hlen at 1. autorewrite with wire in Hlen.
  assert (body = body_of (legacy_version spec) (random p) (session_id p) (suites_sent spec p) (methods_sent spec) (to_be 2 (len blk) ++ blk)) as Hbo.
  { unfold body, body_of. rewrite !u16_be_id by (unfold is_u16; lia). by rewrite Hsl. }
  unfold client_hello_spec_from_tls_record. rewrite u16_be_id by (unfold is_u16; lia). rewrite decide_False by (autorewrite with wire; lia).
  rewrite (at_1 _ [] (to_be 2 VERSION_TLS10 ++ to_be 2 (len hs) ++ hs) 22 0) by done. cbn [mbind res_bind]. rewrite decide_False by tauto.
  rewrite (at16 _ ([RECORD_TYPE_HANDSHAKE] ++ to_be 2 VERSION_TLS10) (len hs) hs) by first [done | (unfold is_u16; lia)]. cbn [mbind res_bind].
  rewrite decide_False by (autorewrite with wire; lia).
  rewrite (at_range _ ([RECORD_TYPE_HANDSHAKE] ++ to_be 2 VERSION_TLS10 ++ to_be 2 (len hs)) hs []) by first [by rewrite app_nil_r | done | (autorewrite with wire; lia)].
  cbn [mbind res_bind]. unfold hs. rewrite Hbo, parse_body; [|by eapply legacy_u16|done|done|by eapply suites_u16|lia|lia|rewrite <- Hbo; lia].
  rewrite decide_False by (autorewrite with wire; lia). rewrite (at16 _ [] (len blk) blk 0) by first [done | (unfold is_u16; lia)]. cbn [mbind res_bind].
  rewrite decide_False by (autorewrite with wire; lia). rewrite (at_range _ (to_be 2 (len blk)) blk []) by first [by rewrite app_nil_r | done | (autorewrite with wire; lia)].
  cbn [mbind res_bind]. unfold parse_extension_block, blk. rewrite (block_reads blunt) by (done || by eapply sent_extensions_sendable).
  cbn [mbind res_bind]. by rewrite suites_read.
Qed.

(** C26: A ClientHello specification whose parts fit their fields is marshalled, and reading the record back gives the
    specification again: the cipher suites, curves, versions and key share groups with their GREASE
    values as placeholders whatever the seed, the compression methods, the extensions in order as they were sent with the
    server name filled in and the padding computed, and as versions those of the legacy field unless the extension names them. *)
Theorem hello_roundtrip blunt spec p exts padded :
  well_formed blunt spec p exts padded ->
  exists rec, marshal_tls_client_hello_record spec p = Ok rec /\
    (len rec <= 65540 -> client_hello_spec_from_tls_record rec blunt = Ok (read_back spec p exts padded)).
Proof.
  intros wf. destruct (record_read_back blunt spec p exts padded wf) as (rec & Hm & Hl & Hr). exists rec. split; [done|].
  intros Hrec. apply Hr. pose proof (len_nonneg rec). lia.
Qed.

(** The padding of a ClientHello counts its body, without the four bytes of the message header: a body of 256 to 511 bytes
    is brought to 512 (to at most 516 when fewer than five bytes are missing), others are left as they are. *)
Theorem padded_hello_length blunt spec p exts :
  well_formed blunt spec p exts true ->
  let u := body_prefix spec p + len (ext_block (sent p 0 exts)) in
  exists hs, marshal_handshake_client_hello spec p = Ok hs /\
    len hs = 4 + (if decide (255 < u < 512) then Z.max 512 (u + 5) else u).
Proof.
  intros wf u. pose proof (marshal_body _ _ _ _ _ wf) as Hb. rewrite (handshake_bytes _ _ _ Hb). eexists. split; [done|].
  pose proof (wf_random _ _ _ _ _ wf) as Hr. pose proof (methods_len spec) as Hm. autorewrite with wire. unfold u16_be. autorewrite with wire. rewrite Hr.
  assert (len (suites_sent spec p) = len (cipher_suites spec)) as -> by (unfold suites_sent, len; by rewrite length_fmap).
  unfold sent_extensions. rewrite ext_block_app, len_app. fold u. unfold padding_sent, boring_padding_len.
  replace (len (ext_block (sent p 0 exts))) with (u - body_prefix spec p) by (unfold u; lia). unfold body_prefix. rewrite Hm.
  case_decide; [|change (len (ext_block [])) with 0; lia]. unfold ext_block. simpl. rewrite app_nil_r. unfold wire_of, ext_wire, u16_be. cbn [marshal_payload].
  autorewrite with wire. case_decide; rewrite len_zeros by lia; lia.
Qed.

(** ** Concrete inputs *)

Definition demo_exts : list Extension :=
  [Grease GREASE_PLACEHOLDER []; ServerName []; Alpn [bs "h2"; bs "http/1.1"]; SupportedVersions [GREASE_PLACEHOLDER; VERSION_TLS13; VERSION_TLS12];
   KeyShare [{| group := GREASE_PLACEHOLDER; key_exchange := [0] |}; {| group := 29; key_exchange := zeros 32 |}];
   SupportedCurves [GREASE_PLACEHOLDER; 29; 23]; Grease GREASE_PLACEHOLDER []].
Definition demo_hello : ClientHelloSpec :=
  {| cipher_suites := [GREASE_PLACEHOLDER; 4865; 4866]; compression_methods := []; extensions := demo_exts ++ [Padding Boring];
     tls_vers_min := VERSION_TLS10; tls_vers_max := VERSION_TLS13 |}.
Definition demo_params : MarshalParams :=
  {| server_name := bs "Example.org."; session_id := zeros 200; random := zeros 32;
     grease_seed := {| s_cipher := 58; s_group := 75; s_extension1 := 92; s_extension2 := 109; s_version := 126 |} |}.
Definition demo_record : bytes := match marshal_tls_client_hello_record demo_hello demo_params with Ok rec => rec | _ => [] end.

(** A boolean check of [Forall]s on a concrete list. *)
Lemma Forall_check {A} (P : A -> Prop) (f : A -> bool) l : (forall x, f x = true -> P x) -> forallb f l = true -> Forall P l.
Proof. intros H Hf. apply Forall_forall. intros x Hx%list_elem_of_In. rewrite forallb_forall in Hf. auto. Qed.
Lemma ascii_check s : forallb (fun c => (0 <=? c) && (c <? 128)) s = true -> is_ascii_str s.
Proof. apply Forall_check. lia. Qed.
Lemma u16s_check l : forallb (fun c => (0 <=? c) && (c <? 65536)) l = true -> u16s l.
Proof. apply Forall_check. unfold is_u16. lia. Qed.

Lemma demo_well_formed : well_formed false demo_hello demo_params demo_exts true.
Proof.
  constructor; [reflexivity| |split; [by apply ascii_check|done]|by apply u16s_check|done|done|done|done].
  repeat apply Forall_cons_2; try apply Forall_nil_2; simpl; split_and?; try done; try by apply u16s_check.
  all: repeat (apply Forall_cons_2; [first [by apply ascii_check | by split]|]); apply Forall_nil_2.
Qed.

Example demo_read_back : client_hello_spec_from_tls_record demo_record false = Ok
  {| cipher_suites := [GREASE_PLACEHOLDER; 4865; 4866]; compression_methods := [0];
     extensions := [Grease 23130 []; ServerName (bs "example.org"); Alpn [bs "h2"; bs "http/1.1"]; SupportedVersions [GREASE_PLACEHOLDER; VERSION_TLS13; VERSION_TLS12];
       KeyShare [{| group := GREASE_PLACEHOLDER; key_exchange := [0] |}; {| group := 29; key_exchange := zeros 32 |}];
       SupportedCurves [GREASE_PLACEHOLDER; 29; 23]; Grease 27242 [0]; Padding (FixedPayloadLen 144)];
     tls_vers_min := 0; tls_vers_max := 0 |}.
Proof. vm_compute. reflexivity. Qed.

Lemma hello_roundtrip_witness :
  exists rec, marshal_tls_client_hello_record demo_hello demo_params = Ok rec /\
    client_hello_spec_from_tls_record rec false = Ok (read_back demo_hello demo_params demo_exts true).
Proof.
  destruct (hello_roundtrip false demo_hello demo_params demo_exts true demo_well_formed) as (rec & Hm & Hp). exists rec. split; [exact Hm|].
  apply Hp. vm_compute in Hm. injection Hm as <-. by vm_compute.
Defined.

Lemma padded_hello_length_witness :
  exists hs, marshal_handshake_client_hello demo_hello demo_params = Ok hs /\ len hs = 516.
Proof.
  destruct (padded_hello_length false demo_hello demo_params demo_exts demo_well_formed) as (hs & Hm & Hl). exists hs. split; [exact Hm|].
  rewrite Hl. by vm_compute.
Defined.

Lemma hello_parser_never_panics_witness : safe (raw_client_hello {| allow_blunt_mimicry := true; always_add_padding := true |} demo_record).
Proof.
  apply hello_parser_never_panics. apply (Forall_check _ (fun c => (0 <=? c) && (c <? 256))); [unfold is_u8; lia|vm_compute; reflexivity].
Defined.
