(* ===== verification/HelloProfiles.v ===== *)
(** [biba]'s ClientHello profiles ([parrot.rs], [randomized.rs], [roller.rs], [rustls_compat.rs]): browser
    presets, random specifications and the order in which profiles are tried. *)
From S2P Require Import Prelude Net Hello.

(** ** [constants.rs] *)

Definition TLS_RSA_WITH_RC4_128_SHA : Z := 5.
Definition TLS_RSA_WITH_3DES_EDE_CBC_SHA : Z := 10.
Definition TLS_RSA_WITH_AES_128_CBC_SHA : Z := 47.
Definition TLS_RSA_WITH_AES_256_CBC_SHA : Z := 53.
Definition TLS_RSA_WITH_AES_128_CBC_SHA256 : Z := 60.
Definition TLS_RSA_WITH_AES_128_GCM_SHA256 : Z := 156.
Definition TLS_RSA_WITH_AES_256_GCM_SHA384 : Z := 157.
Definition TLS_ECDHE_ECDSA_WITH_RC4_128_SHA : Z := 49159.
Definition TLS_ECDHE_ECDSA_WITH_AES_128_CBC_SHA : Z := 49161.
Definition TLS_ECDHE_ECDSA_WITH_AES_256_CBC_SHA : Z := 49162.
Definition TLS_ECDHE_RSA_WITH_RC4_128_SHA : Z := 49169.
Definition TLS_ECDHE_RSA_WITH_3DES_EDE_CBC_SHA : Z := 49170.
Definition TLS_ECDHE_RSA_WITH_AES_128_CBC_SHA : Z := 49171.
Definition TLS_ECDHE_RSA_WITH_AES_256_CBC_SHA : Z := 49172.
Definition TLS_ECDHE_ECDSA_WITH_AES_128_CBC_SHA256 : Z := 49187.
Definition TLS_ECDHE_RSA_WITH_AES_128_CBC_SHA256 : Z := 49191.
Definition TLS_ECDHE_RSA_WITH_AES_128_GCM_SHA256 : Z := 49199.
Definition TLS_ECDHE_ECDSA_WITH_AES_128_GCM_SHA256 : Z := 49195.
Definition TLS_ECDHE_RSA_WITH_AES_256_GCM_SHA384 : Z := 49200.
Definition TLS_ECDHE_ECDSA_WITH_AES_256_GCM_SHA384 : Z := 49196.
Definition TLS_ECDHE_RSA_WITH_CHACHA20_POLY1305_SHA256 : Z := 52392.
Definition TLS_ECDHE_ECDSA_WITH_CHACHA20_POLY1305_SHA256 : Z := 52393.
Definition TLS_AES_128_GCM_SHA256 : Z := 4865.
Definition TLS_AES_256_GCM_SHA384 : Z := 4866.
Definition TLS_CHACHA20_POLY1305_SHA256 : Z := 4867.
Definition FAKE_TLS_DHE_RSA_WITH_AES_128_CBC_SHA : Z := 51.
Definition FAKE_TLS_DHE_RSA_WITH_AES_256_CBC_SHA : Z := 57.
Definition CURVE_P256 : Z := 23.
Definition CURVE_P384 : Z := 24.
Definition CURVE_P521 : Z := 25.
Definition X25519 : Z := 29.
Definition FAKE_FFDHE2048 : Z := 256.
Definition FAKE_FFDHE3072 : Z := 257.
Definition ECDSA_SECP256R1_SHA256 : Z := 1027.
Definition ECDSA_SECP384R1_SHA384 : Z := 1283.
Definition ECDSA_SECP521R1_SHA512 : Z := 1539.
Definition ECDSA_SHA1 : Z := 515.
Definition RSA_PKCS1_SHA256 : Z := 1025.
Definition RSA_PKCS1_SHA384 : Z := 1281.
Definition RSA_PKCS1_SHA512 : Z := 1537.
Definition RSA_PKCS1_SHA1 : Z := 513.
Definition RSA_PSS_RSAE_SHA256 : Z := 2052.
Definition RSA_PSS_RSAE_SHA384 : Z := 2053.
Definition RSA_PSS_RSAE_SHA512 : Z := 2054.
Definition PSK_MODE_DHE : Z := 1.
Definition POINT_FORMAT_UNCOMPRESSED : Z := 0.
Definition RENEGOTIATE_ONCE_AS_CLIENT : Z := 1.
Definition CERT_COMPRESSION_BROTLI : Z := 2.

(** ** [parrot.rs] *)

Inductive ClientHelloId : Set :=
| HelloCustom | HelloRandomized | HelloRandomizedAlpn | HelloRandomizedNoAlpn
| Chrome58 | Chrome62 | Chrome70 | Chrome72 | Chrome132
| Firefox63 | Firefox65 | Firefox99 | Firefox136 | Safari18.
#[export] Instance ClientHelloId_eq_dec : EqDecision ClientHelloId.
Proof. solve_decision. Defined.

Definition chrome_70 : ClientHelloSpec := {|
  tls_vers_min := VERSION_TLS10;
  tls_vers_max := VERSION_TLS13;
  cipher_suites := [GREASE_PLACEHOLDER; TLS_AES_128_GCM_SHA256; TLS_AES_256_GCM_SHA384; TLS_CHACHA20_POLY1305_SHA256;
    TLS_ECDHE_ECDSA_WITH_AES_128_GCM_SHA256; TLS_ECDHE_RSA_WITH_AES_128_GCM_SHA256; TLS_ECDHE_ECDSA_WITH_AES_256_GCM_SHA384;
    TLS_ECDHE_RSA_WITH_AES_256_GCM_SHA384; TLS_ECDHE_ECDSA_WITH_CHACHA20_POLY1305_SHA256; TLS_ECDHE_RSA_WITH_CHACHA20_POLY1305_SHA256;
    TLS_ECDHE_RSA_WITH_AES_128_CBC_SHA; TLS_ECDHE_RSA_WITH_AES_256_CBC_SHA; TLS_RSA_WITH_AES_128_GCM_SHA256; TLS_RSA_WITH_AES_256_GCM_SHA384;
    TLS_RSA_WITH_AES_128_CBC_SHA; TLS_RSA_WITH_AES_256_CBC_SHA; TLS_RSA_WITH_3DES_EDE_CBC_SHA];
  compression_methods := [COMPRESSION_NONE];
  extensions := [
    Grease GREASE_PLACEHOLDER [];
    RenegotiationInfo RENEGOTIATE_ONCE_AS_CLIENT;
    ServerName [];
    ExtendedMasterSecret;
    SessionTicket [];
    SignatureAlgorithms [ECDSA_SECP256R1_SHA256; RSA_PSS_RSAE_SHA256; RSA_PKCS1_SHA256; ECDSA_SECP384R1_SHA384; RSA_PSS_RSAE_SHA384;
      RSA_PKCS1_SHA384; RSA_PSS_RSAE_SHA512; RSA_PKCS1_SHA512; RSA_PKCS1_SHA1];
    StatusRequest;
    SignedCertificateTimestamp;
    Alpn [bs "h2"; bs "http/1.1"];
    FakeChannelId false;
    SupportedPoints [POINT_FORMAT_UNCOMPRESSED];
    KeyShare [{| group := GREASE_PLACEHOLDER; key_exchange := [0] |}; {| group := X25519; key_exchange := zeros 32 |}];
    PskKeyExchangeModes [PSK_MODE_DHE];
    SupportedVersions [GREASE_PLACEHOLDER; VERSION_TLS13; VERSION_TLS12; VERSION_TLS11; VERSION_TLS10];
    SupportedCurves [GREASE_PLACEHOLDER; X25519; CURVE_P256; CURVE_P384];
    CompressCertificate [CERT_COMPRESSION_BROTLI];
    Grease GREASE_PLACEHOLDER [];
    Padding Boring] |}.

Definition firefox_63_65 : ClientHelloSpec := {|
  tls_vers_min := VERSION_TLS10;
  tls_vers_max := VERSION_TLS13;
  cipher_suites := [TLS_AES_128_GCM_SHA256; TLS_CHACHA20_POLY1305_SHA256; TLS_AES_256_GCM_SHA384; TLS_ECDHE_ECDSA_WITH_AES_128_GCM_SHA256;
    TLS_ECDHE_RSA_WITH_AES_128_GCM_SHA256; TLS_ECDHE_ECDSA_WITH_CHACHA20_POLY1305_SHA256; TLS_ECDHE_RSA_WITH_CHACHA20_POLY1305_SHA256;
    TLS_ECDHE_ECDSA_WITH_AES_256_GCM_SHA384; TLS_ECDHE_RSA_WITH_AES_256_GCM_SHA384; TLS_ECDHE_ECDSA_WITH_AES_256_CBC_SHA;
    TLS_ECDHE_ECDSA_WITH_AES_128_CBC_SHA; TLS_ECDHE_RSA_WITH_AES_128_CBC_SHA; TLS_ECDHE_RSA_WITH_AES_256_CBC_SHA;
    FAKE_TLS_DHE_RSA_WITH_AES_128_CBC_SHA; FAKE_TLS_DHE_RSA_WITH_AES_256_CBC_SHA; TLS_RSA_WITH_AES_128_CBC_SHA;
    TLS_RSA_WITH_AES_256_CBC_SHA; TLS_RSA_WITH_3DES_EDE_CBC_SHA];
  compression_methods := [COMPRESSION_NONE];
  extensions := [
    ServerName [];
    ExtendedMasterSecret;
    RenegotiationInfo RENEGOTIATE_ONCE_AS_CLIENT;
    SupportedCurves [X25519; CURVE_P256; CURVE_P384; CURVE_P521; FAKE_FFDHE2048; FAKE_FFDHE3072];
    SupportedPoints [POINT_FORMAT_UNCOMPRESSED];
    SessionTicket [];
    Alpn [bs "h2"; bs "http/1.1"];
    StatusRequest;
    KeyShare [{| group := X25519; key_exchange := zeros 32 |}; {| group := CURVE_P256; key_exchange := zeros 65 |}];
    SupportedVersions [VERSION_TLS13; VERSION_TLS12; VERSION_TLS11; VERSION_TLS10];
    SignatureAlgorithms [ECDSA_SECP256R1_SHA256; ECDSA_SECP384R1_SHA384; ECDSA_SECP521R1_SHA512; RSA_PSS_RSAE_SHA256; RSA_PSS_RSAE_SHA384;
      RSA_PSS_RSAE_SHA512; RSA_PKCS1_SHA256; RSA_PKCS1_SHA384; RSA_PKCS1_SHA512; ECDSA_SHA1; RSA_PKCS1_SHA1];
    PskKeyExchangeModes [PSK_MODE_DHE];
    RecordSizeLimit 16385;
    Padding Boring] |}.

(** ** [randomized.rs] *)

Definition DEFAULT_CIPHER_SUITES_TLS12 : list Z :=
  [TLS_ECDHE_RSA_WITH_CHACHA20_POLY1305_SHA256; TLS_ECDHE_ECDSA_WITH_CHACHA20_POLY1305_SHA256; TLS_ECDHE_RSA_WITH_AES_128_GCM_SHA256;
   TLS_ECDHE_ECDSA_WITH_AES_128_GCM_SHA256; TLS_ECDHE_RSA_WITH_AES_256_GCM_SHA384; TLS_ECDHE_ECDSA_WITH_AES_256_GCM_SHA384;
   TLS_ECDHE_RSA_WITH_AES_128_CBC_SHA256; TLS_ECDHE_RSA_WITH_AES_128_CBC_SHA; TLS_ECDHE_ECDSA_WITH_AES_128_CBC_SHA256;
   TLS_ECDHE_ECDSA_WITH_AES_128_CBC_SHA; TLS_ECDHE_RSA_WITH_AES_256_CBC_SHA; TLS_ECDHE_ECDSA_WITH_AES_256_CBC_SHA;
   TLS_RSA_WITH_AES_128_GCM_SHA256; TLS_RSA_WITH_AES_256_GCM_SHA384; TLS_RSA_WITH_AES_128_CBC_SHA256; TLS_RSA_WITH_AES_128_CBC_SHA;
   TLS_RSA_WITH_AES_256_CBC_SHA; TLS_ECDHE_RSA_WITH_3DES_EDE_CBC_SHA; TLS_RSA_WITH_3DES_EDE_CBC_SHA; TLS_ECDHE_RSA_WITH_RC4_128_SHA;
   TLS_ECDHE_ECDSA_WITH_RC4_128_SHA; TLS_RSA_WITH_RC4_128_SHA].
Definition DEFAULT_CIPHER_SUITES_TLS13 : list Z := [TLS_AES_128_GCM_SHA256; TLS_AES_256_GCM_SHA384; TLS_CHACHA20_POLY1305_SHA256].

(** [SliceRandom::shuffle]: some permutation. *)
Record Shuffle := {
  shuffle : forall {A : Type}, list A -> list A;
  shuffle_perm {A : Type} (l : list A) : shuffle l ≡ₚ l;
}.

(** The draws of one call, in the order of the code; a comparison with a weight can go either way. *)
Record Draws := {
  d_alpn : bool;
  d_suites : Shuffle;
  d_tls13 : bool;
  d_from_tls10 : bool;
  d_suites13 : Shuffle;
  d_remove : nat -> bool;
  d_pss : bool;
  d_pss_more : bool;
  d_sig : Shuffle;
  d_p521 : bool;
  d_padding : bool;
  d_status : bool;
  d_sct : bool;
  d_renegotiation : bool;
  d_ems : bool;
  d_shares : Shuffle;
  d_exts : Shuffle;
}.

(** From [v] down, [n] steps. *)
Fixpoint versions_down (n : nat) (v : Z) : list Z :=
  match n with O => [v] | S n => v :: versions_down n (v - 1) end.
Definition make_supported_versions (min_v max_v : Z) : list Z := versions_down (Z.to_nat (max_v - min_v)) max_v.

Definition is_rc4 (c : Z) : bool :=
  (c =? TLS_RSA_WITH_RC4_128_SHA) || (c =? TLS_ECDHE_RSA_WITH_RC4_128_SHA) || (c =? TLS_ECDHE_ECDSA_WITH_RC4_128_SHA).
Definition remove_rc4 (v : list Z) : list Z := List.filter (fun c => negb (is_rc4 c)) v.

(** The loop of [remove_random_ciphers] from index [i], at its [k]-th draw. *)
Fixpoint remove_loop (fuel : nat) (draw : nat -> bool) (k i : nat) (s : list Z) : list Z :=
  match fuel with
  | O => s
  | S fuel =>
    if decide (i < length s)%nat then
      if draw k then remove_loop fuel draw (S k) i (delete i s) else remove_loop fuel draw (S k) (S i) s
    else s
  end.
Definition remove_random_ciphers (draw : nat -> bool) (s : list Z) : list Z :=
  if decide (length s <= 1)%nat then s else remove_loop (length s) draw 0 1 s.

Definition push_if (b : bool) (l : list Extension) : list Extension := if b then l else [].

(** The first padding moved to the end. *)
Fixpoint find_padding (exts : list Extension) : option nat :=
  match exts with
  | [] => None
  | e :: exts => if is_padding e then Some O else S <$> find_padding exts
  end.
Definition padding_last (exts : list Extension) : list Extension :=
  match find_padding exts with
  | Some pos => delete pos exts ++ match exts !! pos with Some pad => [pad] | None => [] end
  | None => exts
  end.

Definition random_suites (d : Draws) : list Z :=
  let suites := shuffle d.(d_suites) DEFAULT_CIPHER_SUITES_TLS12 in
  let suites := if d.(d_tls13) then remove_rc4 (shuffle d.(d_suites13) DEFAULT_CIPHER_SUITES_TLS13 ++ suites) else suites in
  remove_random_ciphers d.(d_remove) suites.

Definition random_signatures (d : Draws) : list Z :=
  shuffle d.(d_sig)
    ([ECDSA_SECP256R1_SHA256; RSA_PKCS1_SHA256; ECDSA_SECP384R1_SHA384; RSA_PKCS1_SHA384; RSA_PKCS1_SHA1; RSA_PKCS1_SHA512] ++
     (if d.(d_tls13) || d.(d_pss) then [RSA_PSS_RSAE_SHA256] ++ (if d.(d_pss_more) then [RSA_PSS_RSAE_SHA384; RSA_PSS_RSAE_SHA512] else []) else [])).

(** The versions: from TLS 1.0 or 1.2 to 1.3, or from 1.0 to 1.2. *)
Definition random_min (d : Draws) : Z := if d.(d_tls13) then (if d.(d_from_tls10) then VERSION_TLS10 else VERSION_TLS12) else VERSION_TLS10.
Definition random_max (d : Draws) : Z := if d.(d_tls13) then VERSION_TLS13 else VERSION_TLS12.

Definition random_extensions (with_alpn : bool) (d : Draws) : list Extension :=
  [ServerName []; SessionTicket []; SignatureAlgorithms (random_signatures d); SupportedPoints [POINT_FORMAT_UNCOMPRESSED];
   SupportedCurves ([X25519; CURVE_P256; CURVE_P384] ++ (if d.(d_p521) then [CURVE_P521] else []))] ++
  push_if with_alpn [Alpn [bs "h2"; bs "http/1.1"]] ++
  push_if (d.(d_tls13) || d.(d_padding)) [Padding Boring] ++
  push_if d.(d_status) [StatusRequest] ++
  push_if d.(d_sct) [SignedCertificateTimestamp] ++
  push_if d.(d_renegotiation) [RenegotiationInfo RENEGOTIATE_ONCE_AS_CLIENT] ++
  push_if d.(d_ems) [ExtendedMasterSecret] ++
  push_if d.(d_tls13)
    [KeyShare (shuffle d.(d_shares) [{| group := X25519; key_exchange := zeros 32 |}; {| group := CURVE_P256; key_exchange := zeros 65 |}]);
     PskKeyExchangeModes [PSK_MODE_DHE];
     SupportedVersions (make_supported_versions (random_min d) (random_max d))].

Definition generate_randomized_spec (d : Draws) (id : ClientHelloId) : R ClientHelloSpec :=
  with_alpn ← (match id with
               | HelloRandomizedAlpn => Ok true
               | HelloRandomizedNoAlpn => Ok false
               | HelloRandomized => Ok d.(d_alpn)
               | _ => Err UnknownClientHelloId
               end);
  Ok {| cipher_suites := random_suites d; compression_methods := [COMPRESSION_NONE];
        extensions := padding_last (shuffle d.(d_exts) (random_extensions with_alpn d));
        tls_vers_min := random_min d; tls_vers_max := random_max d |}.

Definition utls_id_to_spec (d : Draws) (id : ClientHelloId) : R ClientHelloSpec :=
  match id with
  | HelloCustom => Ok ClientHelloSpec_default
  | Chrome70 | Chrome58 | Chrome62 | Chrome72 | Chrome132 | Safari18 => Ok chrome_70
  | Firefox63 | Firefox65 | Firefox99 | Firefox136 => Ok firefox_63_65
  | HelloRandomized | HelloRandomizedAlpn | HelloRandomizedNoAlpn => generate_randomized_spec d id
  end.

(** ** [roller.rs] *)

Definition default_hello_ids : list ClientHelloId := [Chrome70; Firefox65; HelloRandomized].
Record Roller := { hello_ids : list ClientHelloId; working : option ClientHelloId }.
Definition Roller_new (ids : list ClientHelloId) : Roller := {| hello_ids := ids; working := None |}.
Definition set_working (id : ClientHelloId) (r : Roller) : Roller := {| hello_ids := r.(hello_ids); working := Some id |}.

Fixpoint position (w : ClientHelloId) (l : list ClientHelloId) : option nat :=
  match l with
  | [] => None
  | x :: l => if decide (x = w) then Some O else S <$> position w l
  end.
(** [slice::swap]. *)
Definition swap (i j : nat) (l : list ClientHelloId) : list ClientHelloId :=
  match l !! i, l !! j with Some x, Some y => <[j := x]> (<[i := y]> l) | _, _ => l end.

Definition ordered_ids (s : Shuffle) (r : Roller) : list ClientHelloId :=
  let ids := shuffle s r.(hello_ids) in
  match r.(working) with
  | Some w => match position w ids with Some i => swap 0 i ids | None => w :: ids end
  | None => ids
  end.

(** ** [rustls_compat.rs] *)

(** [supported] are the suites of [rustls], by their numbers. *)
Definition hint_suites (supported : list Z) (spec : ClientHelloSpec) : list Z :=
  let add l id := if bool_decide (id ∈ supported) && negb (bool_decide (id ∈ l)) then l ++ [id] else l in
  let suites := foldl add [] spec.(cipher_suites) in
  if decide (suites = []) then take 3 supported else suites.
Fixpoint hint_alpn (exts : list Extension) : list bytes :=
  match exts with
  | [] => []
  | Alpn protocols :: _ => protocols
  | _ :: exts => hint_alpn exts
  end.
Definition hints_from_spec (supported : list Z) (spec : ClientHelloSpec) : list Z * list bytes :=
  (hint_suites supported spec, hint_alpn spec.(extensions)).

(** ** Lemmas *)

(** *** Padding moved to the end *)

Lemma find_padding_app l1 e l2 : Forall (fun e => is_padding e = false) l1 -> is_padding e = true -> find_padding (l1 ++ e :: l2) = Some (length l1).
Proof. intros Hl He. induction Hl as [|x l1 Hx Hl IH]; simpl; [by rewrite He|]. by rewrite Hx, IH. Qed.
Lemma find_padding_None l : Forall (fun e => is_padding e = false) l -> find_padding l = None.
Proof. induction 1 as [|x l Hx Hl IH]; simpl; [done|]. by rewrite Hx, IH. Qed.

Lemma padding_last_spec (l plain : list Extension) (padded : bool) :
  Forall (fun e => is_padding e = false) plain -> l ≡ₚ plain ++ (if padded then [Padding Boring] else []) ->
  exists plain', plain' ≡ₚ plain /\ padding_last l = plain' ++ (if padded then [Padding Boring] else []).
Proof.
  intros Hp Hl. unfold padding_last. destruct padded; cycle 1.
  - rewrite app_nil_r in *. exists l. rewrite find_padding_None; [by rewrite app_nil_r|]. by rewrite Hl.
  - assert (Padding Boring ∈ l) as (l1 & l2 & ->)%list_elem_of_split by (rewrite Hl; set_solver).
    assert (l1 ++ l2 ≡ₚ plain) as Hperm.
    { apply (Permutation_cons_inv (a := Padding Boring)). rewrite Permutation_middle, Hl. by rewrite Permutation_app_comm. }
    exists (l1 ++ l2). split; [done|]. rewrite <- Hperm in Hp. apply Forall_app in Hp as [Hp _]. rewrite (find_padding_app l1 (Padding Boring) l2 Hp eq_refl).
    rewrite list_lookup_middle by done. by rewrite delete_middle.
Qed.

(** *** Cipher suites removed at random *)

Lemma remove_loop_sublist fuel draw k i s : exists t, remove_loop fuel draw k i s = take i s ++ t /\ t `sublist_of` drop i s.
Proof.
  revert k i s. induction fuel as [|fuel IH]; intros k i s; simpl; [exists (drop i s); by rewrite take_drop|].
  case_decide as Hi; [|exists (drop i s); by rewrite take_drop]. destruct (lookup_lt_is_Some_2 s i Hi) as [x Hx].
  rewrite (drop_S s x i Hx). destruct (draw k).
  - destruct (IH (S k) i (delete i s)) as (t & -> & Ht). exists t. rewrite delete_take_drop in *.
    rewrite take_app_le in * by (rewrite length_take; lia). rewrite take_take, Nat.min_id. split; [done|].
    rewrite drop_app_ge in Ht by (rewrite length_take; lia). rewrite length_take, Nat.min_l, Nat.sub_diag in Ht by lia. by apply sublist_cons.
  - destruct (IH (S k) (S i) s) as (t & -> & Ht). exists (x :: t). rewrite (take_S_r s i x Hx), <- app_assoc. split; [done|]. by apply sublist_skip.
Qed.

(** The fuel is never used up before the end of the list. *)
Lemma remove_loop_fuel f1 f2 draw k i s : (length s <= i + f1)%nat -> (length s <= i + f2)%nat -> remove_loop f1 draw k i s = remove_loop f2 draw k i s.
Proof.
  revert f2 k i s. induction f1 as [|f1 IH]; intros [|f2] k i s H1 H2; simpl; try done.
  - by rewrite decide_False by lia.
  - by rewrite decide_False by lia.
  - case_decide as Hi; [|done]. destruct (draw k); apply IH; try lia; destruct (lookup_lt_is_Some_2 s i Hi) as [x Hx]; rewrite length_delete by eauto; lia.
Qed.

Lemma remove_random_sublist draw s : remove_random_ciphers draw s `sublist_of` s /\ head (remove_random_ciphers draw s) = head s.
Proof.
  unfold remove_random_ciphers. case_decide as Hl; [done|]. destruct s as [|x s]; [simpl in Hl; lia|].
  destruct (remove_loop_sublist (length (x :: s)) draw 0 1 (x :: s)) as (t & -> & Ht). simpl in *. by split; [apply sublist_skip|].
Qed.

Lemma suites_sublist (d : Draws) :
  random_suites d `sublist_of` (if d.(d_tls13) then remove_rc4 (shuffle d.(d_suites13) DEFAULT_CIPHER_SUITES_TLS13 ++ shuffle d.(d_suites) DEFAULT_CIPHER_SUITES_TLS12)
    else shuffle d.(d_suites) DEFAULT_CIPHER_SUITES_TLS12).
Proof. apply remove_random_sublist. Qed.

Lemma remove_rc4_elem c l : c ∈ remove_rc4 l <-> c ∈ l /\ is_rc4 c = false.
Proof. rewrite !list_elem_of_In. unfold remove_rc4. rewrite filter_In. by rewrite negb_true_iff. Qed.

Lemma random_suites_from d c : c ∈ random_suites d -> c ∈ DEFAULT_CIPHER_SUITES_TLS13 ++ DEFAULT_CIPHER_SUITES_TLS12 /\ (d.(d_tls13) = true -> is_rc4 c = false) /\
  (d.(d_tls13) = false -> c ∈ DEFAULT_CIPHER_SUITES_TLS12).
Proof.
  intros Hc. pose proof (sublist_submseteq _ _ (suites_sublist d)) as Hs. eapply elem_of_submseteq in Hc; [|exact Hs]. clear Hs. destruct (d_tls13 d).
  - apply remove_rc4_elem in Hc as [Hc Hr]. rewrite !shuffle_perm in Hc. done.
  - rewrite shuffle_perm in Hc. split; [set_solver|done].
Qed.

Lemma random_suites_nodup d : NoDup (random_suites d).
Proof.
  eapply sublist_NoDup; [|apply suites_sublist].
  assert (NoDup (DEFAULT_CIPHER_SUITES_TLS13 ++ DEFAULT_CIPHER_SUITES_TLS12)) as Hn by (apply (bool_decide_unpack _); vm_compute; reflexivity).
  destruct (d_tls13 d).
  - apply NoDup_ListNoDup, List.NoDup_filter, NoDup_ListNoDup. by rewrite !shuffle_perm.
  - rewrite shuffle_perm. apply NoDup_app in Hn. tauto.
Qed.

Lemma random_suites_head d : exists c, head (random_suites d) = Some c /\ c ∈ (if d.(d_tls13) then DEFAULT_CIPHER_SUITES_TLS13 else DEFAULT_CIPHER_SUITES_TLS12).
Proof.
  unfold random_suites. rewrite (proj2 (remove_random_sublist _ _)). destruct (d_tls13 d).
  - destruct (shuffle (d_suites13 d) DEFAULT_CIPHER_SUITES_TLS13) as [|c l] eqn:Hs.
    { pose proof (shuffle_perm (d_suites13 d) DEFAULT_CIPHER_SUITES_TLS13) as Hp. rewrite Hs in Hp. by apply Permutation_nil_cons in Hp. }
    assert (c ∈ DEFAULT_CIPHER_SUITES_TLS13) as Hc by (rewrite <- (shuffle_perm (d_suites13 d) DEFAULT_CIPHER_SUITES_TLS13), Hs; set_solver).
    exists c. split; [|done]. simpl. unfold remove_rc4. simpl. assert (is_rc4 c = false) as -> by (repeat (apply elem_of_cons in Hc as [->|Hc]; [done|]); by apply not_elem_of_nil in Hc). done.
  - destruct (shuffle (d_suites d) DEFAULT_CIPHER_SUITES_TLS12) as [|c l] eqn:Hs.
    { pose proof (shuffle_perm (d_suites d) DEFAULT_CIPHER_SUITES_TLS12) as Hp. rewrite Hs in Hp. by apply Permutation_nil_cons in Hp. }
    exists c. split; [done|]. rewrite <- (shuffle_perm (d_suites d) DEFAULT_CIPHER_SUITES_TLS12), Hs. set_solver.
Qed.

(** *** Every profile can be sent *)

(** The extensions of a random specification but the padding. *)
Definition random_plain (with_alpn : bool) (d : Draws) : list Extension :=
  [ServerName []; SessionTicket []; SignatureAlgorithms (random_signatures d); SupportedPoints [POINT_FORMAT_UNCOMPRESSED];
   SupportedCurves ([X25519; CURVE_P256; CURVE_P384] ++ (if d.(d_p521) then [CURVE_P521] else []))] ++
  push_if with_alpn [Alpn [bs "h2"; bs "http/1.1"]] ++
  push_if d.(d_status) [StatusRequest] ++
  push_if d.(d_sct) [SignedCertificateTimestamp] ++
  push_if d.(d_renegotiation) [RenegotiationInfo RENEGOTIATE_ONCE_AS_CLIENT] ++
  push_if d.(d_ems) [ExtendedMasterSecret] ++
  push_if d.(d_tls13)
    [KeyShare (shuffle d.(d_shares) [{| group := X25519; key_exchange := zeros 32 |}; {| group := CURVE_P256; key_exchange := zeros 65 |}]);
     PskKeyExchangeModes [PSK_MODE_DHE];
     SupportedVersions (make_supported_versions (random_min d) (random_max d))].

Lemma random_extensions_plain with_alpn d :
  random_extensions with_alpn d ≡ₚ random_plain with_alpn d ++ push_if (d.(d_tls13) || d.(d_padding)) [Padding Boring].
Proof.
  unfold random_extensions, random_plain. rewrite <- !app_assoc. do 2 apply Permutation_app_head.
  rewrite (Permutation_app_comm (push_if (_ || _) _)), <- !app_assoc. done.
Qed.

(** An extension of at most 128 bytes that fits its fields, the server name left open. *)
Definition small (e : Extension) : Prop :=
  sendable false e /\ is_padding e = false /\
  match e with Grease _ body => len body <= 1 | ServerName host => host = [] | e => len (marshal_payload e) <= 128 end.

Lemma signatures_u16 d : u16s (random_signatures d) /\ (length (random_signatures d) <= 9)%nat.
Proof.
  unfold random_signatures. match goal with |- context [shuffle _ ?l] => assert (u16s l /\ (length l <= 9)%nat) as [H1 H2] end.
  { destruct (d_tls13 d || d_pss d), (d_pss_more d); split; try (apply u16s_check; reflexivity); simpl; lia. }
  split; [unfold u16s; by rewrite shuffle_perm|by rewrite shuffle_perm].
Qed.

Lemma push_if_Forall (P : Extension -> Prop) b l : Forall P l -> Forall P (push_if b l).
Proof. by destruct b. Qed.

Lemma shares_small d : small (KeyShare (shuffle d.(d_shares) [{| group := X25519; key_exchange := zeros 32 |}; {| group := CURVE_P256; key_exchange := zeros 65 |}])).
Proof.
  assert (forall es, es ≡ₚ [{| group := X25519; key_exchange := zeros 32 |}; {| group := CURVE_P256; key_exchange := zeros 65 |}] -> small (KeyShare es)) as H; [|apply H, shuffle_perm].
  intros es Hp. symmetry in Hp. apply Permutation_length_2_inv in Hp as [-> | ->]; (split_and!; [|done|by vm_compute]); (split; [|by vm_compute]);
    repeat (apply Forall_cons_2; [by split|]); apply Forall_nil_2.
Qed.

Lemma versions_small d : small (SupportedVersions (make_supported_versions (random_min d) (random_max d))).
Proof. unfold random_min, random_max. destruct (d_tls13 d), (d_from_tls10 d); (split_and!; [split; [by apply u16s_check|by vm_compute]|done|by vm_compute]). Qed.

Lemma random_plain_small with_alpn d : Forall small (random_plain with_alpn d).
Proof.
  unfold random_plain. repeat (apply Forall_app_2); try apply push_if_Forall; repeat apply Forall_cons_2; try apply Forall_nil_2; try by split_and!.
  - split_and!; [split; [constructor|done]|done..].
  - destruct (signatures_u16 d) as [H1 H2]. split_and!; [split; [done|unfold len; lia]|done|]. cbn [marshal_payload]. unfold u16_be. autorewrite with wire.
    rewrite len_u16s. unfold len. lia.
  - destruct (d_p521 d); (split_and!; [split; [by apply u16s_check|by vm_compute]|done|by vm_compute]).
  - split_and!; [|done|by vm_compute]. split_and!; [|by repeat constructor|by vm_compute]. repeat (apply Forall_cons_2; [by apply ascii_check|]). apply Forall_nil_2.
  - apply shares_small.
  - apply versions_small.
Qed.

Lemma sent_small p slot exts : nameable p -> len p.(server_name) <= 255 -> Forall small exts -> len (ext_block (sent p slot exts)) <= 264 * len exts.
Proof.
  intros Hn Hl Hs. revert slot. induction Hs as [|e exts (Hse & _ & He) Hs IH]; intros slot; [done|].
  assert (match e with ServerName h => is_ascii_str h | _ => True end) as Ha by (destruct e; [done|apply Hse|done..]).
  pose proof (sent_size p slot e Hn Ha) as Hsz. assert (ext_size p e <= 264) as He'.
  { unfold ext_size. pose proof (len_nonneg p.(server_name)). destruct e; simpl in He |- *; try lia. subst host. rewrite len_nil. lia. }
  simpl. destruct (apply_grease_to_extension (grease_seed p) slot e) as [e' slot'] eqn:Hg. cbn [fst] in Hsz.
  change (ext_block (?a :: ?l)) with (wire_of a ++ ext_block l). rewrite len_app, len_cons. specialize (IH slot'). lia.
Qed.

(** The parameters of a connection: a DNS name, a session identifier and 32 random bytes. *)
Record connectable (p : MarshalParams) : Prop := {
  c_name : is_ascii_str p.(server_name);
  c_name_len : len p.(server_name) <= 255;
  c_session : len p.(session_id) < 256;
  c_random : len p.(random) = 32;
}.

Lemma connectable_nameable p : connectable p -> nameable p.
Proof. intros [? ? _ _]. split; [done|lia]. Qed.

(** The shape the profiles have. *)
Record profile (spec : ClientHelloSpec) (exts : list Extension) (padded : bool) : Prop := {
  p_extensions : spec.(extensions) = exts ++ (if padded then [Padding Boring] else []);
  p_small : Forall small exts;
  p_count : (length exts <= 20)%nat;
  p_suites : u16s spec.(cipher_suites) /\ (length spec.(cipher_suites) <= 30)%nat;
  p_methods : spec.(compression_methods) = [COMPRESSION_NONE];
  p_versions : is_u16 spec.(tls_vers_min) /\ is_u16 spec.(tls_vers_max);
}.

Lemma profile_well_formed spec exts padded p : profile spec exts padded -> connectable p -> well_formed false spec p exts padded.
Proof.
  intros [H1 H2 H3 [H4 _] H5 H6] Hp. pose proof (connectable_nameable p Hp). destruct Hp. constructor; try done; [|by rewrite H5].
  eapply Forall_impl; [exact H2|]. by intros e [? _].
Qed.

Lemma profile_size spec exts padded p : profile spec exts padded -> connectable p ->
  9 + body_prefix spec p + len (ext_block (sent_extensions spec p exts padded)) <= 65540.
Proof.
  intros Hpr Hp. pose proof (sent_small p 0 exts (connectable_nameable p Hp) (c_name_len p Hp) (p_small _ _ _ Hpr)) as Hb.
  pose proof (p_count _ _ _ Hpr). destruct (p_suites _ _ _ Hpr) as [_ Hsu]. pose proof (c_session p Hp). unfold sent_extensions.
  rewrite ext_block_app, len_app. assert (body_prefix spec p <= 360) as Hpre.
  { unfold body_prefix. rewrite (p_methods _ _ _ Hpr). change (Z.max (len [COMPRESSION_NONE]) 1) with 1. unfold len in *. lia. }
  assert (len exts <= 20) by (unfold len; lia).
  assert (forall u, len (ext_block (padding_sent u)) <= 256) as Hpad.
  { intros u. unfold padding_sent. destruct (boring_padding_len u) as [n [|]] eqn:Hn; [|done]. apply boring_padding_range in Hn.
    unfold ext_block. simpl. rewrite app_nil_r. unfold wire_of, ext_wire, u16_be. cbn [marshal_payload]. autorewrite with wire. rewrite len_zeros by lia. lia. }
  destruct padded; [specialize (Hpad (body_prefix spec p + len (ext_block (sent p 0 exts)))); lia|change (len (ext_block [])) with 0; lia].
Qed.

Lemma chrome_profile : profile chrome_70 (take 17 (extensions chrome_70)) true.
Proof.
  constructor; [reflexivity| |by vm_compute; lia|split; [by apply u16s_check|by vm_compute; lia]|done|by vm_compute].
  repeat apply Forall_cons_2; try apply Forall_nil_2; (split_and!; [simpl; split_and?; try done|done|try (by vm_compute)]);
    try (by apply u16s_check); try (by constructor); repeat (apply Forall_cons_2; [first [by apply ascii_check | by split]|]); apply Forall_nil_2.
Qed.
Lemma firefox_profile : profile firefox_63_65 (take 13 (extensions firefox_63_65)) true.
Proof.
  constructor; [reflexivity| |by vm_compute; lia|split; [by apply u16s_check|by vm_compute; lia]|done|by vm_compute].
  repeat apply Forall_cons_2; try apply Forall_nil_2; (split_and!; [simpl; split_and?; try done|done|try (by vm_compute)]);
    try (by apply u16s_check); try (by constructor); repeat (apply Forall_cons_2; [first [by apply ascii_check | by split]|]); apply Forall_nil_2.
Qed.

Lemma random_plain_count with_alpn d : (length (random_plain with_alpn d) <= 13)%nat.
Proof. unfold random_plain. rewrite !length_app. unfold push_if. destruct with_alpn, (d_status d), (d_sct d), (d_renegotiation d), (d_ems d), (d_tls13 d); simpl; lia. Qed.

Lemma random_suites_size d : u16s (random_suites d) /\ (length (random_suites d) <= 30)%nat.
Proof.
  assert (u16s (DEFAULT_CIPHER_SUITES_TLS13 ++ DEFAULT_CIPHER_SUITES_TLS12)) as Hu by by apply u16s_check.
  split; [apply Forall_forall; intros c (Hc & _ & _)%random_suites_from; unfold u16s in Hu; rewrite Forall_forall in Hu; by apply Hu|].
  pose proof (sublist_length _ _ (suites_sublist d)) as Hl. destruct (d_tls13 d).
  - etransitivity; [exact Hl|]. unfold remove_rc4. etransitivity; [apply List.filter_length_le|]. rewrite length_app, !shuffle_perm. simpl. lia.
  - etransitivity; [exact Hl|]. rewrite shuffle_perm. simpl. lia.
Qed.

(** What [generate_randomized_spec] answers for the three random profiles. *)
Definition random_spec (with_alpn : bool) (d : Draws) : ClientHelloSpec :=
  {| cipher_suites := random_suites d; compression_methods := [COMPRESSION_NONE];
     extensions := padding_last (shuffle d.(d_exts) (random_extensions with_alpn d)); tls_vers_min := random_min d; tls_vers_max := random_max d |}.

Lemma random_profile with_alpn d : exists exts, exts ≡ₚ random_plain with_alpn d /\ profile (random_spec with_alpn d) exts (d.(d_tls13) || d.(d_padding)).
Proof.
  destruct (padding_last_spec (shuffle (d_exts d) (random_extensions with_alpn d)) (random_plain with_alpn d) (d_tls13 d || d_padding d)) as (exts & Hp & He).
  - eapply Forall_impl; [apply random_plain_small|]. by intros e (_ & ? & _).
  - rewrite shuffle_perm, random_extensions_plain. done.
  - exists exts. split; [done|]. constructor; [done|rewrite Hp; apply random_plain_small| |apply random_suites_size|done|].
    + rewrite Hp. pose proof (random_plain_count with_alpn d). lia.
    + simpl. unfold random_min, random_max. by destruct (d_tls13 d), (d_from_tls10 d).
Qed.

Lemma any_profile d id : exists spec exts padded, utls_id_to_spec d id = Ok spec /\
  forall p, connectable p -> well_formed false spec p exts padded /\ 9 + body_prefix spec p + len (ext_block (sent_extensions spec p exts padded)) <= 65540.
Proof.
  assert (forall spec exts padded, profile spec exts padded -> forall p, connectable p ->
    well_formed false spec p exts padded /\ 9 + body_prefix spec p + len (ext_block (sent_extensions spec p exts padded)) <= 65540) as H.
  { intros spec exts padded Hp p Hc. split; [by apply profile_well_formed|by apply profile_size]. }
  assert (forall with_alpn, exists spec exts padded, Ok (random_spec with_alpn d) = (Ok spec : R ClientHelloSpec) /\
    forall p, connectable p -> well_formed false spec p exts padded /\ 9 + body_prefix spec p + len (ext_block (sent_extensions spec p exts padded)) <= 65540) as Hr.
  { intros with_alpn. destruct (random_profile with_alpn d) as (exts & _ & Hp). eexists _, exts, _. split; [done|]. by apply H. }
  assert (forall spec exts padded, profile spec exts padded -> exists spec' exts padded, Ok spec = (Ok spec' : R ClientHelloSpec) /\
    forall p, connectable p -> well_formed false spec' p exts padded /\ 9 + body_prefix spec' p + len (ext_block (sent_extensions spec' p exts padded)) <= 65540) as Hf.
  { intros spec exts padded Hp. exists spec, exts, padded. split; [done|]. by apply H. }
  destruct id; try solve [exact (Hr _) | exact (Hf _ _ _ chrome_profile) | exact (Hf _ _ _ firefox_profile)].
  eexists _, [], false. split; [done|]. intros p Hc. pose proof (connectable_nameable p Hc) as Hn. destruct Hc as [_ _ Hs Hr']. split; [by constructor; [|constructor|done|constructor|..]|].
  unfold sent_extensions. change (len (ext_block _)) with 0. unfold body_prefix. simpl. change (len ([] : list Z)) with 0. change (len [0]) with 1. lia.
Qed.

(** Whatever profile is asked for and whatever is drawn for the random ones, a ClientHello is built from it for
    any DNS name and session identifier, its record is small enough for a TLS record's length, and reading it back
    gives the profile's cipher suites and extensions, GREASE as placeholders and the padding computed. *)
Theorem every_profile_sent d id p :
  connectable p ->
  exists (spec : ClientHelloSpec) (exts : list Extension) (padded : bool) (rec : bytes),
    utls_id_to_spec d id = Ok spec /\ spec.(extensions) = exts ++ (if padded then [Padding Boring] else []) /\
    marshal_tls_client_hello_record spec p = Ok rec /\
    client_hello_spec_from_tls_record rec false = Ok (read_back spec p exts padded) /\ len rec <= 65540.
Proof.
  intros Hp. destruct (any_profile d id) as (spec & exts & padded & Hs & Hw). destruct (Hw p Hp) as [Hwf Hsz].
  destruct (record_read_back _ _ _ _ _ Hwf) as (rec & Hm & Hl & Hr). exists spec, exts, padded, rec. split_and!; try done; [by apply Hwf|apply Hr; lia|lia].
Qed.

Definition is_key_share (e : Extension) : bool := match e with KeyShare _ => true | _ => false end.

Lemma random_versions with_alpn d : List.filter is_supported_versions (random_plain with_alpn d) =
  push_if d.(d_tls13) [SupportedVersions (make_supported_versions (random_min d) (random_max d))].
Proof. unfold random_plain, push_if. by destruct with_alpn, (d_status d), (d_sct d), (d_renegotiation d), (d_ems d), (d_tls13 d). Qed.
Lemma random_shares with_alpn d : existsb is_key_share (random_plain with_alpn d) = d.(d_tls13).
Proof. unfold random_plain, push_if. by destruct with_alpn, (d_status d), (d_sct d), (d_renegotiation d), (d_ems d), (d_tls13 d). Qed.

Section RandomExtensions.
Context (with_alpn : bool) (d : Draws).

Lemma random_max_13 : (random_max d =? VERSION_TLS13) = d.(d_tls13).
Proof using Type. unfold random_max. by destruct (d_tls13 d). Qed.

Lemma random_elem e : is_padding e = false -> e ∈ (random_spec with_alpn d).(extensions) <-> e ∈ random_plain with_alpn d.
Proof using Type.
  intros He. destruct (random_profile with_alpn d) as (exts & Hp & Hpr). rewrite (p_extensions _ _ _ Hpr), elem_of_app, Hp.
  split; [|tauto]. intros [H|H]; [done|]. destruct (d_tls13 d || d_padding d); [by apply list_elem_of_singleton in H as ->|by apply elem_of_nil in H].
Qed.

Lemma random_versions_elem vs : SupportedVersions vs ∈ (random_spec with_alpn d).(extensions) <-> d.(d_tls13) = true /\ vs = make_supported_versions (random_min d) (random_max d).
Proof using Type.
  rewrite random_elem by done. rewrite list_elem_of_In.
  transitivity (In (SupportedVersions vs) (List.filter is_supported_versions (random_plain with_alpn d))); [rewrite filter_In; naive_solver|].
  rewrite random_versions. unfold push_if. destruct (d_tls13 d); simpl; [|naive_solver]. split; [intros [[= <-]|[]]; done|intros [_ ->]; by left].
Qed.

Lemma random_shares_elem : (exists es, KeyShare es ∈ (random_spec with_alpn d).(extensions)) <-> d.(d_tls13) = true.
Proof using Type.
  rewrite <- (random_shares with_alpn d), existsb_exists. split.
  - intros [es H]. rewrite random_elem in H by done. exists (KeyShare es). split; [by apply list_elem_of_In|done].
  - intros (e & He%list_elem_of_In & Hk). destruct e; try done. eexists. by apply random_elem.
Qed.

Lemma random_tls13 : has_tls13 (random_spec with_alpn d) = d.(d_tls13).
Proof using Type.
  unfold has_tls13. cbn [tls_vers_max random_spec]. rewrite random_max_13. destruct (d_tls13 d) eqn:H13; [done|]. simpl orb.
  apply not_true_is_false. intros (e & He%list_elem_of_In & Hk)%existsb_exists. destruct e; try done.
  apply (random_versions_elem versions) in He as [He _]. congruence.
Qed.

Lemma random_padding_last i : (random_spec with_alpn d).(extensions) !! i = Some (Padding Boring) -> i = pred (length (random_spec with_alpn d).(extensions)).
Proof using Type.
  destruct (random_profile with_alpn d) as (exts & Hp & Hpr). rewrite (p_extensions _ _ _ Hpr), length_app. intros H.
  apply lookup_app_Some in H as [H|[Hi H]].
  - apply list_elem_of_lookup_2 in H. pose proof (p_small _ _ _ Hpr) as Hs. rewrite Forall_forall in Hs. by destruct (Hs _ H) as (_ & ? & _).
  - destruct (d_tls13 d || d_padding d); [|done]. apply lookup_lt_Some in H. simpl in *. lia.
Qed.
End RandomExtensions.

(** A random ClientHello is consistent whatever is drawn: TLS 1.3 is offered by the extension if and only if the profile goes up to it, with key
    shares and without RC4 then, and no TLS 1.3 suite otherwise; the suites are distinct known ones, of which the first is never removed; the signature algorithms and curves
    are never empty; the padding, which must come last, does. *)
Theorem randomized_consistent d id spec :
  generate_randomized_spec d id = Ok spec ->
  let tls13 := spec.(tls_vers_max) =? VERSION_TLS13 in
  has_tls13 spec = tls13 /\ spec.(tls_vers_min) <= spec.(tls_vers_max) /\
  (exists c, head spec.(cipher_suites) = Some c /\ c ∈ (if tls13 then DEFAULT_CIPHER_SUITES_TLS13 else DEFAULT_CIPHER_SUITES_TLS12)) /\
  NoDup spec.(cipher_suites) /\
  (forall c, c ∈ spec.(cipher_suites) -> c ∈ DEFAULT_CIPHER_SUITES_TLS13 ++ DEFAULT_CIPHER_SUITES_TLS12 /\
     (if tls13 then is_rc4 c = false else c ∈ DEFAULT_CIPHER_SUITES_TLS12)) /\
  (forall vs, SupportedVersions vs ∈ spec.(extensions) <-> tls13 = true /\ vs = make_supported_versions spec.(tls_vers_min) VERSION_TLS13) /\
  ((exists es, KeyShare es ∈ spec.(extensions)) <-> tls13 = true) /\
  (forall i, spec.(extensions) !! i = Some (Padding Boring) -> i = pred (length spec.(extensions))).
Proof.
  intros Hg. assert (exists with_alpn, spec = random_spec with_alpn d) as [with_alpn ->] by (destruct id; simpl in Hg; try done; injection Hg as <-; by eexists).
  intros tls13. assert (tls13 = d_tls13 d) as -> by apply random_max_13.
  split_and!; [apply random_tls13| |apply random_suites_head|apply random_suites_nodup| | |apply random_shares_elem|apply random_padding_last].
  - simpl. unfold random_min, random_max. by destruct (d_tls13 d), (d_from_tls10 d).
  - intros c (H1 & H2 & H3)%random_suites_from. split; [done|]. destruct (d_tls13 d); auto.
  - intros vs. rewrite random_versions_elem. unfold random_max. simpl. destruct (d_tls13 d); naive_solver.
Qed.

(** *** The order of the profiles *)

Lemma position_spec w l : match position w l with Some i => l !! i = Some w | None => w ∉ l end.
Proof.
  induction l as [|x l IH]; simpl; [by apply not_elem_of_nil|]. case_decide as Hx; [by subst|]. destruct (position w l); simpl; [done|]. by apply not_elem_of_cons.
Qed.

Lemma swap_front i (w : ClientHelloId) l : l !! i = Some w -> exists l', swap 0 i l = w :: l' /\ w :: l' ≡ₚ l.
Proof.
  intros Hi. destruct l as [|x l]; [done|]. unfold swap. rewrite Hi. simpl. destruct i as [|i]; simpl in *.
  - injection Hi as ->. by exists l.
  - exists (<[i := x]> l). split; [done|]. rewrite (insert_take_drop l i x) by by eapply lookup_lt_Some.
    rewrite <- (take_drop_middle l i w Hi) at 3. rewrite <- !Permutation_middle. apply Permutation_swap.
Qed.

(** The order in which a roller tries profiles: the one that worked first, every configured one once. *)
Lemma roller_order s r :
  match r.(working) with
  | Some w => head (ordered_ids s r) = Some w /\ (ordered_ids s r ≡ₚ if bool_decide (w ∈ r.(hello_ids)) then r.(hello_ids) else w :: r.(hello_ids))
  | None => ordered_ids s r ≡ₚ r.(hello_ids)
  end.
Proof.
  unfold ordered_ids. pose proof (shuffle_perm s (hello_ids r)) as Hs. destruct (working r) as [w|]; [|done].
  pose proof (position_spec w (shuffle s (hello_ids r))) as Hp. destruct (position w _) as [i|].
  - destruct (swap_front i w _ Hp) as (l' & -> & Hl). split; [done|]. rewrite bool_decide_true by (rewrite <- Hs; by eapply list_elem_of_lookup_2). by rewrite Hl.
  - rewrite Hs in Hp. rewrite bool_decide_false by done. split; [done|by rewrite Hs].
Qed.

(** The hints for [rustls] are suites it supports, and there are some when it supports any. *)
Lemma hint_suites_supported supported spec : supported <> [] -> hint_suites supported spec <> [] /\ (forall c, c ∈ hint_suites supported spec -> c ∈ supported).
Proof.
  intros Hs. unfold hint_suites. set (add := fun l id => _).
  assert (forall l acc, (forall c, c ∈ acc -> c ∈ supported) -> forall c, c ∈ foldl add acc l -> c ∈ supported) as H.
  { induction l as [|x l IH]; intros acc Ha; [done|]. simpl. apply IH. unfold add. destruct (bool_decide (x ∈ supported)) eqn:Hx; simpl; [|done].
    apply bool_decide_eq_true in Hx. destruct (bool_decide (x ∈ acc)); simpl; [done|]. set_solver. }
  case_decide as He; [|split; [done|by apply H; intros c ?%elem_of_nil]]. split; [by destruct supported as [|? [|? [|? ?]]]|].
  intros c Hc. eapply elem_of_submseteq in Hc; [done|]. apply sublist_submseteq, sublist_take.
Qed.

(** ** Concrete inputs *)

Definition no_shuffle : Shuffle := {| shuffle A l := l; shuffle_perm A l := Permutation_refl l |}.
Definition demo_draws : Draws :=
  {| d_alpn := true; d_suites := no_shuffle; d_tls13 := true; d_from_tls10 := false; d_suites13 := no_shuffle; d_remove k := Nat.odd k;
     d_pss := true; d_pss_more := false; d_sig := no_shuffle; d_p521 := true; d_padding := false; d_status := true; d_sct := false;
     d_renegotiation := true; d_ems := false; d_shares := no_shuffle; d_exts := no_shuffle |}.

Lemma demo_connectable : connectable demo_params.
Proof. constructor; [by apply ascii_check|by vm_compute..]. Qed.

Lemma every_profile_sent_witness :
  exists (spec : ClientHelloSpec) (exts : list Extension) (padded : bool) (rec : bytes),
    spec = chrome_70 /\ marshal_tls_client_hello_record spec demo_params = Ok rec /\
    client_hello_spec_from_tls_record rec false = Ok (read_back spec demo_params exts padded).
Proof.
  destruct (every_profile_sent demo_draws Safari18 demo_params demo_connectable) as (spec & exts & padded & rec & Hs & _ & Hm & Hr & _).
  exists spec, exts, padded, rec. split_and!; [by injection Hs|exact Hm|exact Hr].
Defined.

Lemma randomized_consistent_witness : NoDup (random_suites demo_draws) /\ has_tls13 (random_spec true demo_draws) = true.
Proof.
  destruct (randomized_consistent demo_draws HelloRandomizedAlpn (random_spec true demo_draws) eq_refl) as (H1 & _ & _ & H2 & _).
  split; [exact H2|exact H1].
Defined.
