(* ===== verification/Policy.v ===== *)
(** Names of the client's settings and the rules that choose between them: [stealth_v12.rs], [client_policy.rs],
    the profile and stack names of [tls_util.rs]. *)
From S2P Require Import Prelude Text Frame Hello HelloProfiles.

Definition one_of (s : str) (names : list string) : bool := existsb (fun n => bool_decide (s = bs n)) names.
(** [s.trim().to_ascii_lowercase()], and with [replace('_', "-")]. *)
Definition lowered (s : str) : str := to_ascii_lowercase (trim s).
Definition dashed (s : str) : str := replace_char 95 45 (lowered s).

(** ** [tls_util.rs] *)

Inductive TlsStack : Set := Rustls | BoringSsl.
Definition tls_stack_from_str (s : str) : result TlsStack :=
  let s := lowered s in
  if one_of s [""; "rustls"]%string then Ok Rustls
  else if one_of s ["boring"; "boringssl"; "bssl"]%string then Ok BoringSsl
  else bail "unknown tls-stack".

Inductive TlsClientProfile : Set :=
| TlsDefault | TlsChrome70 | TlsChrome132 | TlsFirefox65 | TlsFirefox63 | TlsFirefox136 | TlsSafari18
| TlsRandomized | TlsRandomizedAlpn | TlsRandomizedNoAlpn.

Definition biba_id (p : TlsClientProfile) : option ClientHelloId :=
  match p with
  | TlsDefault => None
  | TlsChrome70 => Some Chrome70
  | TlsChrome132 => Some Chrome132
  | TlsFirefox65 => Some Firefox65
  | TlsFirefox63 => Some Firefox63
  | TlsFirefox136 => Some Firefox136
  | TlsSafari18 => Some Safari18
  | TlsRandomized => Some HelloRandomized
  | TlsRandomizedAlpn => Some HelloRandomizedAlpn
  | TlsRandomizedNoAlpn => Some HelloRandomizedNoAlpn
  end.

Definition tls_profile_from_str (s : str) : result TlsClientProfile :=
  let s := trim s in
  if decide (s = []) then Ok TlsDefault else
  if eq_ignore_ascii_case s (bs "default") then Ok TlsDefault else
  let s := replace_char 95 45 (to_ascii_lowercase s) in
  if one_of s ["chrome70"; "chrome-70"]%string then Ok TlsChrome70
  else if one_of s ["chrome-132"; "chrome132"; "chromium-132"]%string then Ok TlsChrome132
  else if one_of s ["firefox-136"; "firefox136"]%string then Ok TlsFirefox136
  else if one_of s ["safari-18"; "safari18"; "webkit"]%string then Ok TlsSafari18
  else if one_of s ["firefox65"; "firefox-65"]%string then Ok TlsFirefox65
  else if one_of s ["firefox63"; "firefox-63"]%string then Ok TlsFirefox63
  else if one_of s ["random"; "randomized"]%string then Ok TlsRandomized
  else if one_of s ["randomized-alpn"]%string then Ok TlsRandomizedAlpn
  else if one_of s ["randomized-no-alpn"]%string then Ok TlsRandomizedNoAlpn
  else bail "unknown tls-profile / fingerprint".

(** ** [stealth_v12.rs] *)

Inductive StealthProfile : Set := StealthDefault | Balanced | Aggressive.
Definition stealth_profile_from_str (s : str) : result StealthProfile :=
  let s := dashed s in
  if one_of s [""; "default"]%string then Ok StealthDefault
  else if one_of s ["balanced"]%string then Ok Balanced
  else if one_of s ["aggressive"]%string then Ok Aggressive
  else bail "unknown --stealth-profile".

Inductive DecoyMode : Set := Simple | Browser.
Definition decoy_mode_from_str (s : str) : result DecoyMode :=
  let s := lowered s in
  if one_of s ["simple"; "default"]%string then Ok Simple
  else if one_of s ["browser"]%string then Ok Browser
  else bail "unknown --decoy-mode".

Inductive DesyncMode : Set := DesyncOff | Split2 | FakeDsplit | Disorder.
Definition desync_mode_from_str (s : str) : result DesyncMode :=
  let s := dashed s in
  if one_of s [""; "off"; "none"]%string then Ok DesyncOff
  else if one_of s ["split2"; "split-2"]%string then Ok Split2
  else if one_of s ["fakedsplit"; "fake-dsplit"]%string then Ok FakeDsplit
  else if one_of s ["disorder"]%string then Ok Disorder
  else bail "unknown --desync-mode".

Inductive TcpFooling : Set := FoolingOff | Md5Sig | BadSeq | BadSum.
Definition tcp_fooling_from_str (s : str) : result TcpFooling :=
  let s := dashed s in
  if one_of s [""; "off"; "none"]%string then Ok FoolingOff
  else if one_of s ["md5sig"; "md5-sig"]%string then Ok Md5Sig
  else if one_of s ["badseq"; "bad-seq"]%string then Ok BadSeq
  else if one_of s ["badsum"; "bad-sum"]%string then Ok BadSum
  else bail "unknown --fooling".

Record StealthPreset := {
  pr_tls_profile : TlsClientProfile;
  pr_pad_mode : PadMode;
  pr_ws_jitter_min_ms : Z;
  pr_ws_jitter_max_ms : Z;
  pr_decoy_gets : bool;
  pr_decoy_mode : DecoyMode;
  pr_dummy_interval_secs : Z;
  pr_idle_decoy_secs : Z;
}.
Record ServerRttDefaults := { ack_delay_min_ms : Z; ack_delay_max_ms : Z; rtt_mask_jitter_ms : Z }.

Definition server_rtt_defaults (p : StealthProfile) : option ServerRttDefaults :=
  match p with
  | StealthDefault => None
  | Balanced => Some {| ack_delay_min_ms := 40; ack_delay_max_ms := 120; rtt_mask_jitter_ms := 25 |}
  | Aggressive => Some {| ack_delay_min_ms := 40; ack_delay_max_ms := 500; rtt_mask_jitter_ms := 100 |}
  end.

Definition preset (p : StealthProfile) : StealthPreset :=
  match p with
  | StealthDefault =>
    {| pr_tls_profile := TlsDefault; pr_pad_mode := Adaptive; pr_ws_jitter_min_ms := 0; pr_ws_jitter_max_ms := 0; pr_decoy_gets := false;
       pr_decoy_mode := Simple; pr_dummy_interval_secs := 0; pr_idle_decoy_secs := 0 |}
  | Balanced =>
    {| pr_tls_profile := TlsChrome132; pr_pad_mode := Adaptive; pr_ws_jitter_min_ms := 5; pr_ws_jitter_max_ms := 15; pr_decoy_gets := true;
       pr_decoy_mode := Browser; pr_dummy_interval_secs := 0; pr_idle_decoy_secs := 10 |}
  | Aggressive =>
    {| pr_tls_profile := TlsChrome132; pr_pad_mode := Adaptive; pr_ws_jitter_min_ms := 5; pr_ws_jitter_max_ms := 25; pr_decoy_gets := true;
       pr_decoy_mode := Browser; pr_dummy_interval_secs := 45; pr_idle_decoy_secs := 10 |}
  end.

Definition apply_preset_ws_jitter (pr : option StealthPreset) (explicit_min explicit_max : Z) : Z * Z :=
  if decide (explicit_min = 0 /\ explicit_max = 0) then
    match pr with Some p => (p.(pr_ws_jitter_min_ms), p.(pr_ws_jitter_max_ms)) | None => (explicit_min, explicit_max) end
  else (explicit_min, explicit_max).

Definition merge_idle_decoy_secs (explicit : option Z) (pr : option StealthPreset) : Z :=
  match explicit with
  | Some n => if decide (n = 0) then 0 else n
  | None => match pr with Some p => p.(pr_idle_decoy_secs) | None => 0 end
  end.

(** ** [client_policy.rs] *)

Definition resolve_tls_client_profile (fingerprint cli_or_json_tls : option str) (stealth : option StealthProfile)
    (invite_or_embedded : option TlsClientProfile) : result TlsClientProfile :=
  match given fingerprint with
  | Some s => tls_profile_from_str s
  | None =>
    match given cli_or_json_tls with
    | Some s => tls_profile_from_str s
    | None =>
      match stealth, invite_or_embedded with
      | Some p, _ => Ok (preset p).(pr_tls_profile)
      | None, Some t => Ok t
      | None, None => Ok TlsChrome132
      end
    end
  end.

(** The fields of an invite that name a profile: its fingerprint, then its [tls_profile]. *)
Definition tls_profile_from_invite (fingerprint : option str) (tls_profile : str) : result (option TlsClientProfile) :=
  match given fingerprint with
  | Some f => p ← tls_profile_from_str f; Ok (Some p)
  | None =>
    let t := trim tls_profile in
    if decide (t = []) then Ok None else p ← tls_profile_from_str t; Ok (Some p)
  end.
