(* ===== verification/TlsConfig.v ===== *)
(** [tls_util.rs]: how the client's TLS configuration is put together: which certificates it trusts, and the cipher suites and
    ALPN protocols of its profile. PEM, the roots of the system and the providers of [rustls] are parameters. *)
From S2P Require Import Prelude Text Hello HelloProfiles Policy.

(** [NoVerifier], the roots of the system, [PinnedCertsVerifier]; certificates are their DER bytes. *)
Inductive Verifier : Type := NoVerifier | SystemRoots | PinnedCertsVerifier (pins : list bytes).
(** [None] for the suites stands for the builder's own. *)
Record ClientConfig := { verifier : Verifier; cfg_suites : option (list Z); alpn_protocols : list bytes }.
Record ClientTlsParams := { insecure : bool; profile : TlsClientProfile; pinned_certs_pem : option bytes }.
Inductive PrivateKey : Type := Pkcs8 (der : bytes) | OtherKey (der : bytes).

Section Tls.
(** [rustls_pki_types]'s PEM reader, [rustls]'s suites, the installed provider's, and its check against the roots. *)
Context (pem_certs : bytes -> option (list bytes)) (pem_keys : bytes -> option (list PrivateKey)).
Context (supported : list Z) (provider : option (list Z)).
Context (roots_accept : bytes -> list bytes -> str -> bool).

Definition read_certs (pem : bytes) : result (list bytes) := context "parse certs"%string (pem_certs pem).
Definition parse_pem_certificates (pem : bytes) : result (list bytes) :=
  certs ← read_certs pem;
  if decide (certs = []) then bail "pin-cert: no certificates in PEM" else Ok certs.
Fixpoint first_pkcs8 (keys : list PrivateKey) : option bytes :=
  match keys with [] => None | Pkcs8 k :: _ => Some k | OtherKey _ :: keys => first_pkcs8 keys end.
Definition read_key (pem : bytes) : result bytes :=
  keys ← context "read pem"%string (pem_keys pem);
  context "no PKCS8 private key in pem"%string (first_pkcs8 keys).
(** [single_cert_ok]: whether [rustls] takes the chain with the key. *)
Definition server_config_from_pem (single_cert_ok : list bytes -> bytes -> bool) (cert_pem key_pem : bytes) : result (list bytes * bytes) :=
  certs ← read_certs cert_pem;
  key ← read_key key_pem;
  if single_cert_ok certs key then Ok (certs, key) else bail "server with_single_cert".

Definition client_config_insecure : ClientConfig := {| verifier := NoVerifier; cfg_suites := None; alpn_protocols := [] |}.
Definition client_config_system_roots : ClientConfig := {| verifier := SystemRoots; cfg_suites := None; alpn_protocols := [] |}.
Definition client_config_pinned_only (pins : list bytes) : ClientConfig :=
  {| verifier := PinnedCertsVerifier pins; cfg_suites := None; alpn_protocols := [] |}.

(** What both profile configurations do with the hints of the profile. *)
Definition profile_hints (d : Draws) (id : ClientHelloId) : result (list Z * list bytes) :=
  spec ← map_err (fun _ => "TLS profile"%string) (utls_id_to_spec d id);
  let '(suites, alpn) := hints_from_spec supported spec in
  base ← context "no rustls CryptoProvider"%string provider;
  let cipher_suites := List.filter (fun s => bool_decide (s ∈ base)) suites in
  if decide (cipher_suites = []) then bail "no cipher suites overlap rustls provider" else
  Ok (cipher_suites, if decide (alpn = []) then [bs "http/1.1"] else alpn).
Definition client_config_for_profile (d : Draws) (insec : bool) (p : TlsClientProfile) : result ClientConfig :=
  match biba_id p with
  | None => Ok (if insec then client_config_insecure else client_config_system_roots)
  | Some id =>
    '(suites, alpn) ← profile_hints d id;
    Ok {| verifier := if insec then NoVerifier else SystemRoots; cfg_suites := Some suites; alpn_protocols := alpn |}
  end.
Definition client_config_profile_with_pins (d : Draws) (id : ClientHelloId) (pins : list bytes) : result ClientConfig :=
  '(suites, alpn) ← profile_hints d id;
  Ok {| verifier := PinnedCertsVerifier pins; cfg_suites := Some suites; alpn_protocols := alpn |}.

Definition client_tls_config (d : Draws) (params : ClientTlsParams) : result ClientConfig :=
  if params.(insecure) && bool_decide (is_Some params.(pinned_certs_pem)) then bail "TLS: --insecure cannot be combined with certificate pinning" else
  if params.(insecure) then Ok client_config_insecure else
  pins ← match params.(pinned_certs_pem) with
         | None => Ok None
         | Some pem => c ← parse_pem_certificates pem; Ok (Some c)
         end;
  match pins, biba_id params.(profile) with
  | None, None => Ok client_config_system_roots
  | None, Some _ => client_config_for_profile d false params.(profile)
  | Some pins, None => Ok (client_config_pinned_only pins)
  | Some pins, Some id => client_config_profile_with_pins d id pins
  end.

(** [verify_server_cert] of the three verifiers. *)
Definition verify_server_cert (c : ClientConfig) (end_entity : bytes) (intermediates : list bytes) (server_name : str) : bool :=
  match c.(verifier) with
  | NoVerifier => true
  | SystemRoots => roots_accept end_entity intermediates server_name
  | PinnedCertsVerifier pins => existsb (fun p => bool_decide (p = end_entity)) pins
  end.
End Tls.

(** ** Lemmas *)

Lemma hint_suites_in supported spec : Forall (fun s => s ∈ supported) (hint_suites supported spec).
Proof.
  unfold hint_suites. set (add := fun _ _ => _).
  assert (forall ids l, Forall (fun s => s ∈ supported) l -> Forall (fun s => s ∈ supported) (foldl add l ids)) as H.
  { induction ids as [|id ids IH]; intros l Hl; [done|]. cbn [foldl]. apply IH. unfold add.
    destruct (bool_decide (id ∈ supported)) eqn:Hid; [|done]. apply bool_decide_eq_true in Hid. destruct (negb _); [|done].
    apply Forall_app. split; [done|by constructor]. }
  case_decide; [|by apply H]. apply Forall_take, Forall_forall. done.
Qed.
Lemma hint_suites_some supported spec : supported <> [] -> hint_suites supported spec <> [].
Proof. unfold hint_suites. case_decide; [|done]. by destruct supported. Qed.

Lemma profile_hints_Ok supported provider d id suites alpn :
  profile_hints supported provider d id = Ok (suites, alpn) ->
  exists base, provider = Some base /\ suites <> [] /\ alpn <> [] /\ Forall (fun s => s ∈ base /\ s ∈ supported) suites.
Proof.
  unfold profile_hints. intros (spec & _ & H)%bind_Ok. unfold hints_from_spec in H.
  apply bind_Ok in H as (base & ->%context_Ok & H). case_decide as Hne; [done|]. apply Ok_inj in H as [= <- <-].
  exists base. split_and!; [done|done|by case_decide|]. apply Forall_forall. intros s Hs%list_elem_of_In%filter_In.
  destruct Hs as [Hin Hb%bool_decide_eq_true]. split; [done|]. pose proof (hint_suites_in supported spec) as HF.
  rewrite Forall_forall in HF. by apply HF, list_elem_of_In.
Qed.
Lemma profile_hints_total supported d id : supported <> [] -> exists r, profile_hints supported (Some supported) d id = Ok r.
Proof.
  intros Hs. unfold profile_hints. destruct (any_profile d id) as (spec & exts & padded & -> & _). cbn [map_err mbind res_bind].
  unfold hints_from_spec. cbn [context mbind res_bind]. rewrite decide_False; [by eexists|].
  pose proof (hint_suites_in supported spec) as HF. pose proof (hint_suites_some supported spec Hs) as Hne.
  destruct (hint_suites supported spec) as [|s l]; [done|]. apply Forall_cons in HF as [Hin _]. cbn [List.filter].
  by rewrite bool_decide_eq_true_2.
Qed.

Lemma verify_pins roots pins suites alpn leaf chain name :
  verify_server_cert roots {| verifier := PinnedCertsVerifier pins; cfg_suites := suites; alpn_protocols := alpn |} leaf chain name = true <-> leaf ∈ pins.
Proof.
  unfold verify_server_cert. cbn [verifier]. rewrite existsb_exists, list_elem_of_In. split.
  - intros (p & Hp & ->%bool_decide_eq_true). done.
  - intros Hp. exists leaf. split; [done|]. by apply bool_decide_eq_true_2.
Qed.

Section Trust.
Context (pem_certs : bytes -> option (list bytes)) (supported : list Z) (provider : option (list Z)).
Context (roots_accept : bytes -> list bytes -> str -> bool).

(** Which certificates the settings mean to trust. *)
Definition trusted (params : ClientTlsParams) (leaf : bytes) (chain : list bytes) (name : str) : Prop :=
  match params.(pinned_certs_pem) with
  | Some pem => exists pins, pem_certs pem = Some pins /\ leaf ∈ pins
  | None => params.(insecure) = true \/ roots_accept leaf chain name = true
  end.

(** C21: The configuration made from the settings trusts exactly the certificates they mean: the pinned ones and no other when there are pins, whatever the
    profile; any certificate only when verification is switched off, which pins exclude; those of the system's roots otherwise.
    With a profile it offers at least one cipher suite and protocol, and suites of the installed provider only. *)
Theorem tls_config_trust d params cfg :
  client_tls_config pem_certs supported provider d params = Ok cfg ->
  (forall leaf chain name, verify_server_cert roots_accept cfg leaf chain name = true <-> trusted params leaf chain name) /\
  (params.(insecure) = true -> params.(pinned_certs_pem) = None) /\
  (params.(insecure) = false -> is_Some (biba_id params.(profile)) ->
     exists base suites, provider = Some base /\ cfg.(cfg_suites) = Some suites /\ suites <> [] /\ cfg.(alpn_protocols) <> [] /\
       Forall (fun s => s ∈ base /\ s ∈ supported) suites).
Proof using.
  unfold client_tls_config, trusted. destruct params as [[] p [pem|]]; cbn [insecure profile pinned_certs_pem andb]; intros H.
  - done.
  - apply Ok_inj in H as <-. split_and!; [|done|done]. intros. by split; [left|].
  - apply bind_Ok in H as (pins & Hp & H). apply bind_Ok in Hp as (c & Hc & [= <-]). unfold parse_pem_certificates, read_certs in Hc.
    apply bind_Ok in Hc as (c' & Hpem%context_Ok & Hc). case_decide; [done|]. apply Ok_inj in Hc as <-.
    assert (forall leaf, leaf ∈ c' <-> exists pins, pem_certs pem = Some pins /\ leaf ∈ pins) as Hin by (rewrite Hpem; naive_solver).
    destruct (biba_id p) as [id|].
    + apply bind_Ok in H as ([suites alpn] & Hh & [= <-]). split_and!; [intros; by rewrite verify_pins|done|].
      intros _ _. destruct (profile_hints_Ok _ _ _ _ _ _ Hh) as (base & ? & ? & ? & ?). by exists base, suites.
    + apply Ok_inj in H as <-. unfold client_config_pinned_only. split_and!; [intros; by rewrite verify_pins|done|by intros _ []].
  - cbn [mbind res_bind] in H. unfold client_config_for_profile in H. destruct (biba_id p) as [id|].
    + apply bind_Ok in H as ([suites alpn] & Hh & [= <-]). split_and!; [intros; unfold verify_server_cert; naive_solver|done|].
      intros _ _. destruct (profile_hints_Ok _ _ _ _ _ _ Hh) as (base & ? & ? & ? & ?). by exists base, suites.
    + apply Ok_inj in H as <-. split_and!; [intros; unfold verify_server_cert; naive_solver|done|by intros _ []].
Qed.

(** With the provider of the suites installed, every profile has a configuration. *)
Lemma client_tls_config_total d params :
  supported <> [] -> (params.(insecure) = true -> params.(pinned_certs_pem) = None) ->
  (forall pem, params.(pinned_certs_pem) = Some pem -> exists pins, pem_certs pem = Some pins /\ pins <> []) ->
  exists cfg, client_tls_config pem_certs supported (Some supported) d params = Ok cfg.
Proof using.
  intros Hs Hi Hp. unfold client_tls_config. destruct params as [[] p [pem|]]; cbn [insecure profile pinned_certs_pem andb] in *.
  - by specialize (Hi eq_refl).
  - by eexists.
  - destruct (Hp pem eq_refl) as (pins & Hpem & Hne). unfold parse_pem_certificates, read_certs. rewrite Hpem. cbn [context mbind res_bind].
    rewrite decide_False by done. cbn [mbind res_bind]. destruct (biba_id p) as [id|]; [|by eexists].
    unfold client_config_profile_with_pins. destruct (profile_hints_total supported d id Hs) as [[suites alpn] ->]. by eexists.
  - cbn [mbind res_bind]. unfold client_config_for_profile. destruct (biba_id p) as [id|]; [|by eexists].
    destruct (profile_hints_total supported d id Hs) as [[suites alpn] ->]. by eexists.
Qed.
End Trust.

Lemma tls_config_trust_witness :
  let pem := fun b => Some [b; [1; 2; 3]] in
  exists cfg, client_tls_config pem [4865; 4866] (Some [4866]) demo_draws {| insecure := false; profile := TlsChrome132; pinned_certs_pem := Some [9] |} = Ok cfg /\
    cfg.(cfg_suites) = Some [4866] /\ forall chain name, verify_server_cert (fun _ _ _ => true) cfg [7] chain name <> true.
Proof.
  intros pem. eexists. split; [vm_compute; reflexivity|]. split; [reflexivity|].
  intros chain name H.
  destruct (tls_config_trust pem [4865; 4866] (Some [4866]) (fun _ _ _ => true) demo_draws
    {| insecure := false; profile := TlsChrome132; pinned_certs_pem := Some [9] |}
    {| verifier := PinnedCertsVerifier [[9]; [1; 2; 3]]; cfg_suites := Some [4866]; alpn_protocols := [bs "h2"; bs "http/1.1"] |}) as (Ht & _);
    [vm_compute; reflexivity|].
  apply Ht in H as (pins & [= <-] & Hin). revert Hin. by apply (bool_decide_unpack _).
Defined.
