(* ===== verification/Stealth.v ===== *)
(** [stealth.rs]: the client's WebSocket upgrade request and its decoy GETs, dressed as a browser's. [http]'s checks of header
    names and values and its [Uri] are parameters, and so is tungstenite's key. *)
From S2P Require Import Prelude Text Net Stream Camouflage Incoming HelloProfiles Policy.

Definition DEFAULT_UA : str :=
  bs "Mozilla/5.0 (Windows NT 10.0; Win64; x64) AppleWebKit/537.36 (KHTML, like Gecko) Chrome/132.0.0.0 Safari/537.36".
Definition DEFAULT_AL : str := bs "en-US,en;q=0.9".
Definition UA_CHROME132 : str :=
  bs "Mozilla/5.0 (Windows NT 10.0; Win64; x64) AppleWebKit/537.36 (KHTML, like Gecko) Chrome/132.0.0.0 Safari/537.36".
Definition UA_SAFARI18 : str :=
  bs "Mozilla/5.0 (Macintosh; Intel Mac OS X 10_15_7) AppleWebKit/605.1.15 (KHTML, like Gecko) Version/18.0 Safari/605.1.15".
Definition UA_FIREFOX65 : str := bs "Mozilla/5.0 (Windows NT 10.0; Win64; x64; rv:128.0) Gecko/20100101 Firefox/128.0".
Definition UA_FIREFOX63 : str := bs "Mozilla/5.0 (Windows NT 10.0; Win64; x64; rv:109.0) Gecko/20100101 Firefox/115.0".
Definition UA_FIREFOX136 : str := bs "Mozilla/5.0 (Windows NT 10.0; Win64; x64; rv:136.0) Gecko/20100101 Firefox/136.0".
Definition ACCEPT_ENCODING : str := bs "gzip, deflate, br, zstd".

Definition default_user_agent_for_profile (profile : TlsClientProfile) : str :=
  match profile with
  | TlsFirefox65 => UA_FIREFOX65
  | TlsFirefox63 => UA_FIREFOX63
  | TlsFirefox136 => UA_FIREFOX136
  | TlsSafari18 => UA_SAFARI18
  | TlsChrome70 | TlsChrome132 => UA_CHROME132
  | TlsDefault | TlsRandomized | TlsRandomizedAlpn | TlsRandomizedNoAlpn => DEFAULT_UA
  end.
Definition is_firefox_profile (profile : TlsClientProfile) : bool :=
  match profile with TlsFirefox65 | TlsFirefox63 | TlsFirefox136 => true | _ => false end.
Definition is_safari_profile (profile : TlsClientProfile) : bool := match profile with TlsSafari18 => true | _ => false end.

Record WsHandshakeParams := {
  host_for_tcp : str;
  port : Z;
  path : str;
  sni : str;
  host_header : option str;
  origin : option str;
  user_agent : option str;
  accept_language : option str;
  extra_headers : list (str * str);
  tls_profile : TlsClientProfile;
}.

Definition is_ascii_alphanumeric (b : Z) : bool := is_ascii_digit b || is_ascii_alphabetic b.
Definition uri_byte_allowed (b : Z) : bool := is_ascii_alphanumeric b || existsb (Z.eqb b) (bs "-._~/?&=%:@+,;'()!$*[]").
Definition HEX : str := bs "0123456789ABCDEF".
Definition percent (b : Z) : str := [37] ++ sub HEX (Z.shiftr b 4) (Z.shiftr b 4 + 1) ++ sub HEX (Z.land b 15) (Z.land b 15 + 1).
(** Byte by byte; an index past the table would panic. *)
Fixpoint sanitize_uri_path (path : str) : str :=
  match path with
  | [] => []
  | b :: path => (if uri_byte_allowed b then [b] else percent b) ++ sanitize_uri_path path
  end.

(** A request is its target and its headers in the order they were added; the same name may come more than once. *)
Record HttpRequest (Uri : Type) := { uri : Uri; headers : list (str * str) }.
Arguments uri {Uri}.
Arguments headers {Uri}.

(** [http]: [parse::<Uri>], [HeaderName::from_bytes] and [HeaderValue::from_str], which takes visible ASCII; tungstenite's key is base64. *)
Record Http := {
  Uri : Type;
  parse_uri : str -> option Uri;
  invalid_uri : Uri;
  header_name : str -> option str;
  value_ok : str -> bool;
  value_visible v : Forall (fun c => 32 <= c <= 126) v -> value_ok v = true;
}.

Section Stealth.
Context (http : Http).

Definition websocket_uri (host : str) (port : Z) (path : str) : http.(Uri) :=
  let base := bs "wss://" ++ host ++ bs ":" ++ show_dec port in
  match http.(parse_uri) (base ++ path) with
  | Some u => u
  | None =>
    match http.(parse_uri) (base ++ sanitize_uri_path path) with
    | Some u => u
    | None => http.(invalid_uri)
    end
  end.
Definition safe_header_value (value fallback : str) : str := if http.(value_ok) value then value else fallback.

(** The Chrome client hints; their brands are quoted. *)
Definition brand (name version : string) : str := [34] ++ bs name ++ [34] ++ bs ";v=" ++ [34] ++ bs version ++ [34].
Definition sec_ch_ua : str :=
  brand "Google Chrome" "132" ++ bs ", " ++ brand "Chromium" "132" ++ bs ", " ++ brand "Not_A Brand" "24".
Definition h (name : string) (value : str) : str * str := (bs name, value).

(** The headers of each kind of browser, in its order. *)
Definition browser_headers (profile : TlsClientProfile) (host_h ua al origin key : str) : list (str * str) :=
  if is_firefox_profile profile then
    [h "Host" host_h; h "User-Agent" ua; h "Accept" (bs "*/*"); h "Accept-Language" al; h "Accept-Encoding" ACCEPT_ENCODING;
     h "Sec-WebSocket-Version" (bs "13"); h "Origin" origin;
     h "Sec-WebSocket-Extensions" (bs "permessage-deflate; client_max_window_bits"); h "Sec-WebSocket-Key" key;
     h "Connection" (bs "keep-alive, Upgrade"); h "Upgrade" (bs "websocket"); h "Pragma" (bs "no-cache"); h "Cache-Control" (bs "no-cache")]
  else if is_safari_profile profile then
    [h "Host" host_h; h "User-Agent" ua; h "Accept" (bs "*/*"); h "Accept-Language" al; h "Accept-Encoding" (bs "gzip, deflate, br");
     h "Sec-WebSocket-Version" (bs "13"); h "Origin" origin; h "Connection" (bs "Upgrade"); h "Upgrade" (bs "websocket");
     h "Sec-WebSocket-Key" key; h "Sec-WebSocket-Extensions" (bs "permessage-deflate"); h "Pragma" (bs "no-cache");
     h "Cache-Control" (bs "no-cache")]
  else
    [h "Host" host_h; h "Connection" (bs "Upgrade"); h "Pragma" (bs "no-cache"); h "Cache-Control" (bs "no-cache"); h "User-Agent" ua;
     h "Upgrade" (bs "websocket"); h "Origin" origin; h "Sec-WebSocket-Version" (bs "13"); h "Accept-Encoding" ACCEPT_ENCODING;
     h "Accept-Language" al; h "Sec-WebSocket-Key" key;
     h "Sec-WebSocket-Extensions" (bs "permessage-deflate; client_max_window_bits"); h "Sec-CH-UA" sec_ch_ua;
     h "Sec-CH-UA-Mobile" (bs "?0"); h "Sec-CH-UA-Platform" ([34] ++ bs "Windows" ++ [34])].
(** Those of the extra headers that are well formed. *)
Fixpoint valid_extra (l : list (str * str)) : list (str * str) :=
  match l with
  | [] => []
  | (k, v) :: l =>
    match http.(header_name) (trim k), http.(value_ok) v with
    | Some name, true => (name, v) :: valid_extra l
    | _, _ => valid_extra l
    end
  end.

(** [None] for the minimal request that is used when the builder refuses a value. *)
Definition build_websocket_request (key : str) (p : WsHandshakeParams) : option (HttpRequest http.(Uri)) :=
  let u := websocket_uri p.(host_for_tcp) p.(port) p.(path) in
  let default_host := if decide (p.(port) = 443) then p.(sni) else p.(sni) ++ bs ":" ++ show_dec p.(port) in
  let host_h := safe_header_value (default default_host p.(host_header)) (bs "localhost") in
  let ua := safe_header_value (default (default_user_agent_for_profile p.(tls_profile)) p.(user_agent)) DEFAULT_UA in
  let origin := safe_header_value (default (bs "https://" ++ p.(sni)) p.(origin)) (bs "https://localhost") in
  let al := safe_header_value (default DEFAULT_AL p.(accept_language)) DEFAULT_AL in
  let hs := browser_headers p.(tls_profile) host_h ua al origin key ++ valid_extra p.(extra_headers) in
  if forallb (fun kv => http.(value_ok) (snd kv)) hs then Some {| uri := u; headers := hs |} else None.
Definition browser_websocket_request (key host : str) (prt : Z) (pth sn : str) : option (HttpRequest http.(Uri)) :=
  build_websocket_request key
    {| host_for_tcp := host; port := prt; path := pth; sni := sn; host_header := None; origin := None; user_agent := None;
       accept_language := None; extra_headers := []; tls_profile := TlsDefault |}.
End Stealth.

(** The lines of a decoy GET. *)
Definition head_of (lines : list str) : str := concat ((fun l => l ++ crlf) <$> lines) ++ crlf.
Definition format_decoy_get_request (path host_header sni user_agent accept_language : str) (profile : TlsClientProfile) (mode : DecoyMode) : str :=
  let get := bs "GET " ++ path ++ bs " HTTP/1.1" in
  let host := bs "Host: " ++ host_header in
  let ua := bs "User-Agent: " ++ user_agent in
  let al := bs "Accept-Language: " ++ accept_language in
  match mode with
  | Simple => head_of [get; host; ua; bs "Accept: */*"; bs "Accept-Encoding: gzip, deflate, br"; bs "Connection: close"]
  | Browser =>
    if is_firefox_profile profile then
      head_of [get; host; ua; bs "Accept: text/html,application/xhtml+xml,application/xml;q=0.9,*/*;q=0.8"; al;
               bs "Accept-Encoding: " ++ ACCEPT_ENCODING; bs "DNT: 1"; bs "Connection: close"; bs "Upgrade-Insecure-Requests: 1";
               bs "Sec-Fetch-Dest: document"; bs "Sec-Fetch-Mode: navigate"; bs "Sec-Fetch-Site: none"; bs "Sec-Fetch-User: ?1"]
    else if is_safari_profile profile then
      head_of [get; host; ua; bs "Accept: text/html,application/xhtml+xml,application/xml;q=0.9,*/*;q=0.8"; al;
               bs "Accept-Encoding: gzip, deflate, br"; bs "Connection: close"; bs "Sec-Fetch-Dest: document"; bs "Sec-Fetch-Mode: navigate"]
    else
      head_of [get; host; ua; bs "Accept: text/html,application/xhtml+xml,application/xml;q=0.9,image/avif,image/webp,*/*;q=0.8"; al;
               bs "Accept-Encoding: " ++ ACCEPT_ENCODING; bs "Referer: https://" ++ sni ++ bs "/"; bs "DNT: 1"; bs "Connection: close";
               bs "Sec-Fetch-Dest: document"; bs "Sec-Fetch-Mode: navigate"; bs "Sec-Fetch-Site: same-origin"; bs "Sec-Fetch-User: ?1";
               bs "Upgrade-Insecure-Requests: 1"; bs "Sec-CH-UA: " ++ sec_ch_ua; bs "Sec-CH-UA-Mobile: ?0";
               bs "Sec-CH-UA-Platform: " ++ [34] ++ bs "Windows" ++ [34]]
  end.

(** ** Lemmas *)

Lemma find_header_app hs t name v : find_header hs name = Some v -> find_header (hs ++ t) name = Some v.
Proof. induction hs as [|[n w] hs IH]; simpl; [done|]. by destruct (eq_ignore_ascii_case n name). Qed.

(** What a server that parsed the request sees of its headers: the first value of each name. *)
Definition sent_as (hs : list (str * str)) (req : Request) : Prop := forall name, find_header req.(req_headers) name = find_header hs name.

Lemma graphic_visible v : graphic v -> Forall (fun c => 32 <= c <= 126) v.
Proof. intros Hv. eapply Forall_impl; [exact Hv|]. simpl. lia. Qed.
Lemma graphic_utf8 v : graphic v -> utf8_valid v = true.
Proof. intros Hv. apply utf8_valid_ascii. eapply Forall_impl; [exact Hv|]. simpl. lia. Qed.

(** Constant values are visible ASCII. *)
Ltac visible := apply value_visible; apply (bool_decide_unpack _); vm_compute; exact I.

Lemma safe_value_ok http v d : http.(value_ok) d = true -> http.(value_ok) (safe_header_value http v d) = true.
Proof. unfold safe_header_value. by destruct (value_ok http v) eqn:E. Qed.

Lemma valid_extra_ok http l : forallb (fun kv => http.(value_ok) (snd kv)) (valid_extra http l) = true.
Proof.
  induction l as [|[k v] l IH]; [done|]. cbn [valid_extra]. destruct (header_name http (trim k)); [|done].
  destruct (value_ok http v) eqn:Hv; [|done]. cbn [forallb snd]. by rewrite Hv.
Qed.

Lemma browser_headers_ok http profile host_h ua al origin key :
  Forall (fun v => http.(value_ok) v = true) [host_h; ua; al; origin; key] ->
  forallb (fun kv => http.(value_ok) (snd kv)) (browser_headers profile host_h ua al origin key) = true.
Proof.
  intros HF. repeat (apply Forall_cons in HF as [? HF]). unfold browser_headers.
  destruct (is_firefox_profile profile); [|destruct (is_safari_profile profile)];
  apply forallb_forall; intros [n v] Hin; simpl in Hin; repeat (destruct Hin as [[= <- <-]|Hin]; [first [done | visible]|]); done.
Qed.

(** The builder takes every value it is given. *)
Lemma request_built http key p :
  graphic key -> exists host_h ua al origin,
    build_websocket_request http key p = Some
      {| uri := websocket_uri http p.(host_for_tcp) p.(port) p.(path);
         headers := browser_headers p.(tls_profile) host_h ua al origin key ++ valid_extra http p.(extra_headers) |}.
Proof.
  intros Hk. unfold build_websocket_request.
  match goal with |- context [browser_headers _ ?a ?b ?c ?d key] => exists a, b, c, d end.
  rewrite forallb_app, valid_extra_ok, browser_headers_ok; [done|].
  repeat apply Forall_cons_2; try apply Forall_nil_2; try (apply safe_value_ok; visible). by apply value_visible, graphic_visible.
Qed.

(** The headers that make an upgrade, whatever the profile. *)
Lemma upgrade_headers profile host_h ua al origin key t :
  let hs := browser_headers profile host_h ua al origin key ++ t in
  find_header hs (bs "Upgrade") = Some (bs "websocket") /\
  (find_header hs (bs "Connection") = Some (bs "Upgrade") \/ find_header hs (bs "Connection") = Some (bs "keep-alive, Upgrade")) /\
  find_header hs (bs "Sec-WebSocket-Version") = Some (bs "13") /\ find_header hs (bs "Sec-WebSocket-Key") = Some key.
Proof.
  unfold browser_headers. destruct (is_firefox_profile profile); [|destruct (is_safari_profile profile)];
  (split; [by apply find_header_app|]; split; [first [left; by apply find_header_app|right; by apply find_header_app]|]);
  split; by apply find_header_app.
Qed.

Lemma upgrade_seen profile host_h ua al origin key t req :
  graphic key -> sent_as (browser_headers profile host_h ua al origin key ++ t) req ->
  is_websocket_upgrade req = true /\ header_line req (bs "Sec-WebSocket-Key") = Some key /\
  header_line req (bs "Sec-WebSocket-Version") = Some (bs "13").
Proof.
  intros Hk Hs. destruct (upgrade_headers profile host_h ua al origin key t) as (Hu & Hc & Hv & Hkey).
  assert (header_line req (bs "Sec-WebSocket-Key") = Some key) as Hl.
  { unfold header_line. rewrite Hs, Hkey. cbn [mbind option_bind]. by rewrite graphic_utf8, trim_graphic. }
  split_and!; [|done|unfold header_line; by rewrite Hs, Hv].
  unfold is_websocket_upgrade. rewrite Hl. unfold header_line. rewrite !Hs, Hu.
  by destruct Hc as [-> | ->].
Qed.

(** Whatever the client's settings are (profile, host, agent, language, extra headers), its upgrade request is built, and
    a server that serves the same path and received the request's headers takes it for the genuine upgrade: it answers the key with 101 and
    opens the WebSocket with what follows the head. *)
Theorem client_upgrade_accepted http key p fs net parse_origin parse_request derive_accept_key now mtime buf req n camo cap legacy token f k :
  graphic key -> 0 <= now -> f.(client).(writes_left) = S k ->
  exists r, build_websocket_request http key p = Some r /\
    (parse_request buf = Ok (Some (req, n)) -> req.(req_path) = Some p.(path) -> sent_as r.(headers) req ->
     exists f' host mf mm date, respond fs net parse_origin parse_request derive_accept_key now mtime buf p.(path) legacy token camo cap f =
         (f', Ok (WebSocket NewPath host (drop (Z.to_nat n) buf) mf mm)) /\
       f'.(origins) = f.(origins) /\ format_http_date now = Ok date /\
       f'.(client).(sent) = f.(client).(sent) ++ bs "HTTP/1.1 101 Switching Protocols" ++ crlf ++
         field (bs "Server") SERVER_TOKEN ++ field (bs "Date") date ++ field (bs "Connection") (bs "upgrade") ++
         field (bs "Upgrade") (bs "websocket") ++ field (bs "Sec-WebSocket-Accept") (derive_accept_key key) ++ crlf).
Proof.
  intros Hk Hn Hw. destruct (request_built http key p Hk) as (host_h & ua & al & origin & Hb).
  eexists. split; [exact Hb|]. cbn [headers]. intros Hp Hpath Hs.
  destruct (upgrade_seen _ _ _ _ _ _ _ _ Hk Hs) as (Hup & Hkey & Hver).
  destruct (format_http_date_Ok now Hn) as [date Hd].
  assert (exists f', on_client (switching_protocols now (derive_accept_key key)) f = (f', Ok tt) /\ f'.(origins) = f.(origins) /\
    f'.(client).(sent) = f.(client).(sent) ++ bs "HTTP/1.1 101 Switching Protocols" ++ crlf ++
      field (bs "Server") SERVER_TOKEN ++ field (bs "Date") date ++ field (bs "Connection") (bs "upgrade") ++
      field (bs "Upgrade") (bs "websocket") ++ field (bs "Sec-WebSocket-Accept") (derive_accept_key key) ++ crlf) as (f' & Hsw & Ho & Hsent).
  { unfold on_client, switching_protocols. rewrite Hd. erewrite st_bind_step by reflexivity. unfold write_all. rewrite Hw. by eexists. }
  exists f'. unfold respond. rewrite Hp. do 2 erewrite st_bind_step by reflexivity. cbv beta iota. rewrite Hup, Hpath.
  unfold upgrade_kind. rewrite decide_True by done. rewrite Hkey. erewrite st_bind_step by reflexivity. rewrite Hver.
  rewrite bool_decide_eq_true_2 by done. cbn [negb]. rewrite (st_bind_step _ _ _ _ _ Hsw), remainder_drop.
  eexists _, _, _, date. split; [reflexivity|]. by split_and!.
Qed.

(** The request as it is written when the headers keep their order. *)
Definition sample_http : Http.
Proof.
  refine {| Uri := str; parse_uri s := Some s; invalid_uri := bs "wss://invalid/"; header_name s := if decide (s = []) then None else Some s;
            value_ok v := bool_decide (Forall (fun c => 32 <= c <= 126) v) |}.
  intros v Hv. by apply bool_decide_eq_true_2.
Defined.
Definition sample_params : WsHandshakeParams :=
  {| host_for_tcp := bs "203.0.113.7"; port := 8443; path := bs "/ws"; sni := bs "vpn.example"; host_header := None; origin := None;
     user_agent := Some (bs "agent" ++ [10] ++ bs "X: y"); accept_language := None;
     extra_headers := [(bs "Connection", bs "close"); (bs "Cookie", bs "a=b")]; tls_profile := TlsFirefox136 |}.

Lemma client_upgrade_accepted_witness :
  exists r req f', build_websocket_request sample_http (bs "dGhlIHNhbXBsZSBub25jZQ==") sample_params = Some r /\
    req.(req_headers) = r.(headers) /\ find_header r.(headers) (bs "User-Agent") = Some DEFAULT_UA /\
    (respond demo_fs demo_net demo_origin (fun _ => Ok (Some (req, 3))) (fun k => k) 784887151 784887151 [1; 2; 3; 4] (bs "/ws") false
      (bs "tok") (demo_camo None) 65536 (demo_front [] 1)) = (f', Ok (WebSocket NewPath (Some (bs "vpn.example:8443")) [4] 327680 655360)).
Proof.
  destruct (client_upgrade_accepted sample_http (bs "dGhlIHNhbXBsZSBub25jZQ==") sample_params demo_fs demo_net demo_origin) with
    (parse_request := fun _ : bytes => @Ok err _ (Some ({| req_method := Some (bs "GET"); req_path := Some (bs "/ws");
       req_headers := match build_websocket_request sample_http (bs "dGhlIHNhbXBsZSBub25jZQ==") sample_params with Some r => r.(headers) | None => [] end |}, 3)))
    (derive_accept_key := fun k : bytes => k) (now := 784887151) (mtime := 784887151) (buf := [1; 2; 3; 4])
    (req := {| req_method := Some (bs "GET"); req_path := Some (bs "/ws");
       req_headers := match build_websocket_request sample_http (bs "dGhlIHNhbXBsZSBub25jZQ==") sample_params with Some r => r.(headers) | None => [] end |})
    (n := 3) (camo := demo_camo None) (cap := 65536) (legacy := false) (token := bs "tok") (f := demo_front [] 1) (k := 0%nat)
    as (r & Hr & H); [by apply (bool_decide_unpack _)|done|done|].
  destruct H as (f' & host & mf & mm & date & Hf & _); [done|done|by rewrite Hr|].
  exists r. eexists. exists f'. split; [exact Hr|]. split; [|split; [|]].
  2: { injection Hr as <-. vm_compute. reflexivity. }
  2: { assert (host = Some (bs "vpn.example:8443") /\ mf = 327680 /\ mm = 655360) as (-> & -> & ->); [|exact Hf].
       apply (f_equal snd) in Hf. vm_compute in Hf. injection Hf as <- <- <-. done. }
  cbn [req_headers]. by rewrite Hr.
Defined.

(** What is left of a path after the encoding: only bytes a request target may have, and nothing else when it had no other. *)
Lemma sanitize_allowed path : u8s path -> Forall (fun b => uri_byte_allowed b = true) (sanitize_uri_path path).
Proof.
  induction 1 as [|b path Hb _ IH]; [constructor|]. cbn [sanitize_uri_path]. apply Forall_app. split; [|done].
  destruct (uri_byte_allowed b) eqn:E; [by constructor|].
  assert (forallb (fun b => forallb uri_byte_allowed (percent b)) (seqZ 0 256) = true) as Hall by (vm_compute; reflexivity).
  rewrite forallb_forall in Hall. specialize (Hall b). rewrite forallb_forall in Hall. apply Forall_forall. intros x Hx.
  apply Hall; [|by apply list_elem_of_In]. apply list_elem_of_In, elem_of_seqZ. unfold is_u8 in Hb. lia.
Qed.
Lemma sanitize_id path : Forall (fun b => uri_byte_allowed b = true) path -> sanitize_uri_path path = path.
Proof. induction 1 as [|b path Hb _ IH]; [done|]. cbn [sanitize_uri_path]. by rewrite Hb, IH. Qed.
