(* ===== verification/Invite.v ===== *)
(** [invite_uri.rs]: [biba://] invites, the client's settings as JSON encrypted under a passphrase. JSON, base64, hex
    and Argon2id are the crates'. *)
From S2P Require Import Prelude Text Crypto.

Definition BLOB_VERSION_V1 : Z := 1.
Definition BLOB_VERSION_V2 : Z := 2.
Definition INNER_JSON_VERSION : Z := 1.
Definition KDF_CONTEXT_V1 : str := bs "bibavpn.invite.uri.v1".
Definition NONCE_LEN : Z := 12.
Definition SALT_LEN : Z := 16.
Definition PREFIX : str := bs "biba://".
Definition DEFAULT_M_KIB : Z := 19456.
Definition DEFAULT_T_COST : Z := 2.
Definition DEFAULT_P_COST : Z := 1.
Definition MAX_M_KIB : Z := 65536.
Definition MAX_T_COST : Z := 8.
Definition MAX_P_COST : Z := 4.
Definition V1_MIN_WIRE_LEN : Z := 1 + NONCE_LEN + 16.
Definition V2_HEADER_LEN : Z := 1 + SALT_LEN + 12 + NONCE_LEN.
Definition MAX_INVITE_URI_LEN : Z := 256 * 1024.

Record InviteV1 := {
  i_v : Z;
  i_server : str;
  i_sni : str;
  i_token : str;
  i_proto : Z;
  i_proto_domain : option str;
  i_psk : option str;
  i_decoy_max : Z;
  i_max_pad : Z;
  i_max_ws_binary : Z;
  i_ws_ping_secs : Z;
  i_ws_ping_jitter_percent : Z;
  i_ws_binary_send_jitter_ms : Z;
  i_ws_jitter_min_ms : Z;
  i_ws_jitter_max_ms : Z;
  i_udp_max_pad : option Z;
  i_udp_max_ws_binary : option Z;
  i_udp_mux_reply_timeout_secs : Z;
  i_insecure : bool;
  i_tls_profile : str;
  i_ws_path : option str;
  i_pad_mode : option str;
  i_dummy_interval_secs : option Z;
  i_http_proxy : option str;
  i_socks_bind : option str;
  i_socks_auth_user : option str;
  i_socks_auth_password : option str;
  i_junk_frames : Z;
  i_early_ws_frames : Z;
  i_ws_host : option str;
  i_ws_origin : option str;
  i_ws_user_agent : option str;
  i_ws_accept_language : option str;
  i_ws_headers : list str;
  i_use_tcp_mux : bool;
  i_decoy_gets : bool;
  i_decoy_gets_interval_secs : Z;
  i_decoy_gets_paths : option str;
  i_fingerprint : option str;
  i_stealth_profile : option str;
  i_decoy_mode : option str;
  i_desync_mode : option str;
  i_tcp_fooling : option str;
  i_tls_fragment : bool;
  i_ws_parallel : Z;
  i_idle_decoy_secs : option Z;
  i_tls_stack : str;
  i_reality_target : option str;
  i_reality_public_key : option str;
  i_reality_short_id : option str;
  i_pin_cert_pem : option str;
  i_server_ack_delay_min_ms : option Z;
  i_server_ack_delay_max_ms : option Z;
  i_rtt_mask_jitter_ms : option Z;
  i_ack_profile : option str;
}.

(** ** What the code calls *)

(** [serde_json] on [InviteV1] and the [base64] and [hex] crates: what is written is read back, and the URL-safe
    alphabet has letters, digits, [-] and [_]. *)
Definition url_char (c : Z) : Prop := 65 <= c <= 90 \/ 97 <= c <= 122 \/ 48 <= c <= 57 \/ c = 45 \/ c = 95.
Record Codecs := {
  json_to_vec : InviteV1 -> option bytes;
  json_from_slice : bytes -> option InviteV1;
  json_u8s i b : json_to_vec i = Some b -> u8s b;
  json_roundtrip i b : json_to_vec i = Some b -> json_from_slice b = Some i;
  url_encode : bytes -> str;
  url_decode : str -> option bytes;
  url_roundtrip b : u8s b -> url_decode (url_encode b) = Some b;
  url_alphabet b : Forall url_char (url_encode b);
  std_decode : str -> option bytes;
  hex_decode : str -> option bytes;
}.
(** Argon2id under passphrase, salt, memory, passes and lanes. *)
Definition Argon2 : Type := bytes -> bytes -> Z -> Z -> Z -> option bytes.

Section Invite.
Context (aead : Aead) (b3 : Blake3) (codecs : Codecs) (argon2 : Argon2).

Definition reality_public_key_parsed (i : InviteV1) : result (option bytes) :=
  match given i.(i_reality_public_key) with
  | None => Ok None
  | Some s =>
    b ← context "reality_public_key: invalid base64"%string (codecs.(std_decode) s);
    if decide (len b <> 32) then bail "reality_public_key: expected 32 bytes" else Ok (Some b)
  end.

Definition reality_short_id_parsed (i : InviteV1) : result (option bytes) :=
  match given i.(i_reality_short_id) with
  | None => Ok None
  | Some s =>
    b ← context "reality_short_id: invalid hex"%string (codecs.(hex_decode) s);
    if decide (len b <> 8) then bail "reality_short_id: need 8 bytes (16 hex digits)" else Ok (Some b)
  end.

(** A wrong tag and a wrong passphrase look the same; [aead] splits the text from its tag. *)
Definition open_blob (key nonce ct : bytes) : option bytes :=
  if decide (len ct < 16) then None else
  decrypt aead key nonce (sub ct 0 (len ct - 16)) (sub ct (len ct - 16) (len ct)).

Definition validate_v2_argon_params (m_kib t_cost p_cost : Z) : result unit :=
  if decide (m_kib = 0 \/ t_cost = 0 \/ p_cost = 0) then bail "invite: unsupported argon2 params" else
  if decide (MAX_M_KIB < m_kib \/ MAX_T_COST < t_cost \/ MAX_P_COST < p_cost) then bail "invite: unsupported argon2 params" else Ok tt.

Definition derive_argon2_key (passphrase salt : bytes) (m_kib t_cost p_cost : Z) : result bytes :=
  _ ← validate_v2_argon_params m_kib t_cost p_cost;
  context "invite: unsupported argon2 params"%string (argon2 passphrase salt m_kib t_cost p_cost).

Definition decrypt_invite_json (key nonce ct : bytes) : result InviteV1 :=
  plain ← context "invite: bad passphrase or corrupted blob"%string (open_blob key nonce ct);
  invite ← context "invite: bad json"%string (codecs.(json_from_slice) plain);
  if decide (invite.(i_v) <> INNER_JSON_VERSION) then bail "invite: inner v mismatch" else Ok invite.

Definition decode_wire_v1 (wire : bytes) (passphrase : str) : result InviteV1 :=
  if decide (len wire < V1_MIN_WIRE_LEN) then bail "invite: blob too short" else
  nonce ← slice wire 1 (1 + NONCE_LEN);
  ct ← slice_from wire (1 + NONCE_LEN);
  decrypt_invite_json (derive_key b3 KDF_CONTEXT_V1 passphrase) nonce ct.

(** [u32::from_le_bytes(wire[i..i + 4])]. *)
Definition rd32_le (b : bytes) (i : Z) : result Z := x ← slice b i (i + 4); Ok (of_be (rev x)).

Definition decode_wire_v2 (wire : bytes) (passphrase : str) : result InviteV1 :=
  if decide (len wire < V2_HEADER_LEN + 16) then bail "invite: blob too short" else
  salt ← slice wire 1 (1 + SALT_LEN);
  m_kib ← rd32_le wire (1 + SALT_LEN);
  t_cost ← rd32_le wire (1 + SALT_LEN + 4);
  p_cost ← rd32_le wire (1 + SALT_LEN + 8);
  _ ← validate_v2_argon_params m_kib t_cost p_cost;
  nonce ← slice wire (1 + SALT_LEN + 12) V2_HEADER_LEN;
  ct ← slice_from wire V2_HEADER_LEN;
  key ← derive_argon2_key passphrase salt m_kib t_cost p_cost;
  decrypt_invite_json key nonce ct.

Definition to_le4 (n : Z) : bytes := rev (to_be 4 n).

(** The salt and the nonce come from the system's generator. *)
Definition encode_invite_v1 (salt_rng nonce_rng : Rng) (invite : InviteV1) (passphrase : str) : result str :=
  plain ← context "invite json"%string (codecs.(json_to_vec) invite);
  let salt := fill_bytes salt_rng SALT_LEN in
  key ← derive_argon2_key passphrase salt DEFAULT_M_KIB DEFAULT_T_COST DEFAULT_P_COST;
  let nonce := fill_bytes nonce_rng NONCE_LEN in
  '(c, tag) ← context "encrypt invite"%string (encrypt aead key nonce plain);
  let wire := [BLOB_VERSION_V2] ++ salt ++ to_le4 DEFAULT_M_KIB ++ to_le4 DEFAULT_T_COST ++ to_le4 DEFAULT_P_COST ++ nonce ++ c ++ tag in
  Ok (PREFIX ++ codecs.(url_encode) wire).

Definition strip_prefix (p s : str) : option str := if starts_with s p then Some (drop (length p) s) else None.

Definition decode_invite_v1 (uri : str) (passphrase : str) : result InviteV1 :=
  let s := trim uri in
  if decide (MAX_INVITE_URI_LEN < len s) then bail "invite: blob too large" else
  let b64 := match strip_prefix PREFIX s with
             | Some r => r
             | None => match strip_prefix (bs "biba:") s with Some r => r | None => s end
             end in
  wire ← context "invite: invalid base64url"%string (codecs.(url_decode) (trim b64));
  if decide (wire = []) then bail "invite: unsupported blob version" else
  version ← ix wire 0;
  if decide (version = BLOB_VERSION_V1) then decode_wire_v1 wire passphrase
  else if decide (version = BLOB_VERSION_V2) then decode_wire_v2 wire passphrase
  else bail "invite: unsupported blob version".
End Invite.

(** ** Lemmas *)

Lemma len_to_le4 n : len (to_le4 n) = 4.
Proof. unfold to_le4, len. rewrite length_rev. apply (len_to_be 4). Qed.

Lemma rd32_le_mid p n s i : i = len p -> 0 <= n < 256 ^ 4 -> rd32_le (p ++ to_le4 n ++ s) i = Ok n.
Proof.
  intros -> Hn. unfold rd32_le. rewrite slice_mid by (rewrite ?len_to_le4; lia). cbn [mbind res_bind].
  unfold to_le4. by rewrite rev_involutive, of_be_to_be_id.
Qed.

(** The outer blob of version 2. *)
Definition wire_v2 (salt : bytes) (m t p : Z) (nonce ct : bytes) : bytes :=
  [BLOB_VERSION_V2] ++ salt ++ to_le4 m ++ to_le4 t ++ to_le4 p ++ nonce ++ ct.

Lemma decode_wire_v2_layout aead codecs argon2 salt m t p nonce ct pass :
  len salt = 16 -> len nonce = 12 -> 16 <= len ct -> 0 <= m < 256 ^ 4 -> 0 <= t < 256 ^ 4 -> 0 <= p < 256 ^ 4 ->
  decode_wire_v2 aead codecs argon2 (wire_v2 salt m t p nonce ct) pass =
  (_ ← validate_v2_argon_params m t p; key ← derive_argon2_key argon2 pass salt m t p; decrypt_invite_json aead codecs key nonce ct).
Proof.
  intros Hs Hn Hc Hm Ht Hp. unfold decode_wire_v2, wire_v2, V2_HEADER_LEN, SALT_LEN, NONCE_LEN.
  set (w := _ ++ _). assert (len w = 1 + 16 + 12 + 12 + len ct) as Hw.
  { subst w. rewrite !len_app, !len_to_le4, len_1, Hs, Hn. lia. }
  rewrite decide_False by lia. subst w.
  rewrite (slice_mid [BLOB_VERSION_V2] salt _ 1 (1 + 16)) by (rewrite ?len_1; lia). cbn [mbind res_bind].
  rewrite (app_assoc [_]), (rd32_le_mid _ m _ (1 + 16)) by (rewrite ?len_app, ?len_1; lia). cbn [mbind res_bind].
  rewrite (app_assoc _ (to_le4 m)), (rd32_le_mid _ t _ (1 + 16 + 4)) by (rewrite ?len_app, ?len_to_le4, ?len_1; lia). cbn [mbind res_bind].
  rewrite (app_assoc _ (to_le4 t)), (rd32_le_mid _ p _ (1 + 16 + 8)) by (rewrite ?len_app, ?len_to_le4, ?len_1; lia). cbn [mbind res_bind].
  rewrite (app_assoc _ (to_le4 p)), (slice_mid _ nonce ct (1 + 16 + 12) (1 + 16 + 12 + 12)) by (rewrite ?len_app, ?len_to_le4, ?len_1; lia).
  rewrite (app_assoc _ nonce), (slice_from_end _ ct) by (rewrite ?len_app, ?len_to_le4, ?len_1; lia).
  by destruct (validate_v2_argon_params m t p).
Qed.

Lemma decrypt_encrypted aead codecs key nonce plain c tag i :
  encrypt aead key nonce plain = Some (c, tag) -> codecs.(json_from_slice) plain = Some i -> i.(i_v) = INNER_JSON_VERSION ->
  decrypt_invite_json aead codecs key nonce (c ++ tag) = Ok i.
Proof.
  intros He Hj Hv. destruct (encrypt_lens _ _ _ _ _ _ He) as [Hc Ht].
  unfold decrypt_invite_json, open_blob. pose proof (len_nonneg c). rewrite len_app, Ht, decide_False by lia.
  replace (len c + 16 - 16) with (len c) by lia.
  assert (sub (c ++ tag) 0 (len c) = c) as -> by (apply (sub_mid [] c tag); [done|by rewrite len_nil]).
  assert (sub (c ++ tag) (len c) (len c + 16) = tag) as ->.
  { rewrite <- (app_nil_r tag) at 1. apply sub_mid; lia. }
  rewrite (decrypt_encrypt _ _ _ _ _ _ He). cbn [context mbind res_bind]. rewrite Hj. cbn [context mbind res_bind].
  by rewrite decide_False by (intros Hne; by apply Hne).
Qed.

Lemma url_graphic s : Forall url_char s -> graphic s.
Proof. intros Hs. unfold graphic. eapply Forall_impl; [exact Hs|]. unfold url_char. simpl. lia. Qed.

(** The scheme may be written in full, without its slashes, or not at all. *)
Definition uri_forms (payload : str) : list str := [PREFIX ++ payload; bs "biba:" ++ payload; payload].

Lemma strip_prefix_app p s : strip_prefix p (p ++ s) = Some s.
Proof. unfold strip_prefix. rewrite starts_with_app. by rewrite drop_app_length. Qed.

Lemma strip_prefix_at p s n c d : p !! n = Some c -> s !! n = Some d -> c <> d -> strip_prefix p s = None.
Proof.
  intros Hp Hs Hne. unfold strip_prefix. destruct (starts_with s p) eqn:E; [|done].
  apply starts_with_inv in E as [r ->]. apply lookup_app_l_Some with (l2 := r) in Hp. congruence.
Qed.

Lemma strip_prefix_url p s n c : p !! n = Some c -> ~ url_char c -> Forall url_char s -> strip_prefix p s = None.
Proof.
  intros Hp Hc Hs. unfold strip_prefix. destruct (starts_with s p) eqn:E; [|done].
  apply starts_with_inv in E as [r ->]. destruct Hc. apply (Forall_lookup_1 _ _ n c Hs).
  by apply lookup_app_l_Some.
Qed.

Lemma strip_forms s payload :
  Forall url_char payload -> In s (uri_forms payload) ->
  match strip_prefix PREFIX s with
  | Some r => r
  | None => match strip_prefix (bs "biba:") s with Some r => r | None => s end
  end = payload.
Proof.
  intros Hp. assert (~ url_char 58 /\ ~ url_char 47) as [H58 H47] by (unfold url_char; lia).
  assert (strip_prefix PREFIX payload = None) as HP by by apply (strip_prefix_url PREFIX payload 4 58).
  intros [<-|[<-|[<-|[]]]].
  - by rewrite strip_prefix_app.
  - destruct payload as [|x r]; [done|]. apply Forall_cons in Hp as [Hx _].
    rewrite (strip_prefix_at PREFIX (bs "biba:" ++ x :: r) 5 47 x), strip_prefix_app; [done..|].
    intros <-. done.
  - rewrite HP. by rewrite (strip_prefix_url (bs "biba:") payload 4 58).
Qed.

Lemma forms_trim s payload : Forall url_char payload -> In s (uri_forms payload) -> trim s = s /\ len s <= 7 + len payload.
Proof.
  intros Hp%url_graphic Hs. pose proof (len_nonneg payload).
  assert (forall p, graphic p -> trim (p ++ payload) = p ++ payload) as Ht by (intros p Hq; by apply trim_graphic, Forall_app).
  destruct Hs as [<-|[<-|[<-|[]]]].
  - split; [apply Ht; by apply (bool_decide_unpack _)|]. rewrite len_app. unfold PREFIX. vm_compute (len (bs _)). lia.
  - split; [apply Ht; by apply (bool_decide_unpack _)|]. rewrite len_app. vm_compute (len (bs _)). lia.
  - split; [by apply (Ht []); constructor|lia].
Qed.

Lemma validate_Ok m t p :
  validate_v2_argon_params m t p = Ok tt -> m <> 0 /\ t <> 0 /\ p <> 0 /\ m <= MAX_M_KIB /\ t <= MAX_T_COST /\ p <= MAX_P_COST.
Proof. unfold validate_v2_argon_params. repeat case_decide; [done..|]. intros _. lia. Qed.

(** What the key of an accepted invite was derived with. *)
Definition key_of (b3 : Blake3) (argon2 : Argon2) (passphrase : str) (key : bytes) : Prop :=
  key = derive_key b3 KDF_CONTEXT_V1 passphrase \/
  exists salt m t p, 1 <= m <= MAX_M_KIB /\ 1 <= t <= MAX_T_COST /\ 1 <= p <= MAX_P_COST /\ len salt = SALT_LEN /\
    argon2 passphrase salt m t p = Some key.

Lemma decrypt_invite_json_Ok aead codecs key nonce ct i :
  decrypt_invite_json aead codecs key nonce ct = Ok i ->
  i.(i_v) = INNER_JSON_VERSION /\
  exists c tag plain, len tag = 16 /\ decrypt aead key nonce c tag = Some plain /\ codecs.(json_from_slice) plain = Some i.
Proof.
  unfold decrypt_invite_json, open_blob.
  intros (plain & Hp & (j & Hj & Hi)%bind_Ok)%bind_Ok.
  destruct (decide (len ct < 16)) as [|Hl]; [done|]. destruct (decrypt _ _ _ _ _) as [p|] eqn:Hd; [|done]. apply Ok_inj in Hp as <-.
  destruct (json_from_slice codecs p) as [j'|] eqn:Hs; [|done]. apply Ok_inj in Hj as <-.
  case_decide as Hv; [done|]. apply Ok_inj in Hi as <-. split; [done|].
  eexists _, _, _. split; [|done]. rewrite len_sub; lia.
Qed.

Lemma rd32_le_u32 b i x : u8s b -> rd32_le b i = Ok x -> is_u32 x.
Proof.
  unfold rd32_le. intros Hb (y & (Hi & Hj & ->)%slice_inv & [= <-])%bind_Ok.
  pose proof (of_be_bound (rev (sub b i (i + 4))) ltac:(by apply Forall_rev, u8s_sub)) as Hx.
  unfold len in Hx. rewrite length_rev in Hx. fold (len (sub b i (i + 4))) in Hx. rewrite len_sub in Hx by lia.
  replace (i + 4 - i) with 4 in Hx by lia. ranges. lia.
Qed.

Lemma decode_wire_Ok aead b3 codecs argon2 wire pass i :
  u8s wire ->
  decode_wire_v1 aead b3 codecs wire pass = Ok i \/ decode_wire_v2 aead codecs argon2 wire pass = Ok i ->
  exists key nonce ct, key_of b3 argon2 pass key /\ decrypt_invite_json aead codecs key nonce ct = Ok i.
Proof.
  intros Hu [H|H].
  - unfold decode_wire_v1 in H. case_decide; [done|].
    apply bind_Ok in H as (nonce & _ & (ct & _ & H)%bind_Ok). eexists _, _, _. split; [by left|exact H].
  - unfold decode_wire_v2 in H. case_decide as Hl; [done|].
    apply bind_Ok in H as (salt & Hsalt & (m & Hm & (t & Ht & (p & Hp & ([] & Hv & H)%bind_Ok)%bind_Ok)%bind_Ok)%bind_Ok).
    apply bind_Ok in H as (nonce & _ & (ct & _ & (key & Hk & H)%bind_Ok)%bind_Ok).
    apply rd32_le_u32 in Hm, Ht, Hp; [|done..]. apply validate_Ok in Hv. ranges.
    eexists _, _, _. split; [right|exact H]. exists salt, m, t, p. split_and!; try lia.
    + apply slice_inv in Hsalt as (? & ? & ->). rewrite len_sub by lia. lia.
    + unfold derive_argon2_key in Hk. apply bind_Ok in Hk as (_ & _ & Hk). by destruct (argon2 _ _ _ _ _); simplify_eq/=.
Qed.

Lemma decode_wire_safe aead b3 codecs argon2 wire pass :
  safe (decode_wire_v1 aead b3 codecs wire pass) /\ safe (decode_wire_v2 aead codecs argon2 wire pass).
Proof.
  assert (forall key nonce ct, safe (decrypt_invite_json aead codecs key nonce ct)) as Hd.
  { intros. unfold decrypt_invite_json. repeat safe_step. }
  unfold decode_wire_v1, decode_wire_v2, derive_argon2_key, validate_v2_argon_params, rd32_le,
    V1_MIN_WIRE_LEN, V2_HEADER_LEN, SALT_LEN, NONCE_LEN.
  split; repeat first [apply Hd|safe_step].
Qed.

(** Two functions that agree wherever the parameters are within the caps. *)
Definition same_within_caps (a a' : Argon2) : Prop := forall pass salt m t p,
  m <> 0 -> t <> 0 -> p <> 0 -> m <= MAX_M_KIB -> t <= MAX_T_COST -> p <= MAX_P_COST ->
  a pass salt m t p = a' pass salt m t p.

Lemma derive_argon2_key_caps a a' pass salt m t p :
  same_within_caps a a' -> derive_argon2_key a pass salt m t p = derive_argon2_key a' pass salt m t p.
Proof.
  intros Ha. unfold derive_argon2_key. destruct (validate_v2_argon_params m t p) as [[]| |] eqn:Hv; [|done..].
  apply validate_Ok in Hv as (? & ? & ? & ? & ? & ?). cbn [mbind res_bind]. by rewrite (Ha pass salt m t p).
Qed.

Lemma decode_wire_v2_caps aead codecs a a' wire pass :
  same_within_caps a a' -> decode_wire_v2 aead codecs a' wire pass = decode_wire_v2 aead codecs a wire pass.
Proof.
  intros Ha. unfold decode_wire_v2. case_decide; [done|].
  repeat match goal with |- (?m ≫= _) = (?m ≫= _) => destruct m; [cbn [mbind res_bind]|done..] end.
  by rewrite (derive_argon2_key_caps a a').
Qed.

Lemma safe_decode_invite aead b3 codecs argon2 uri pass : safe (decode_invite_v1 aead b3 codecs argon2 uri pass).
Proof.
  unfold decode_invite_v1. case_decide; [done|]. destruct (url_decode codecs _) as [wire|]; [|done]. cbn [context mbind res_bind].
  case_decide as Hne; [done|]. destruct wire as [|v r]; [done|]. change (ix (v :: r) 0) with (@Ok err Z v). cbn [mbind res_bind].
  destruct (decode_wire_safe aead b3 codecs argon2 (v :: r) pass). by repeat case_decide.
Qed.

(** A codec with the documented behaviour, for the examples: bytes as two letters each, and a JSON that knows the
    invites that differ from [sample_invite] in nothing but the version. *)
Definition sample_invite (v : Z) : InviteV1 :=
  {| i_v := v; i_server := bs "203.0.113.7:443"; i_sni := bs "example.com"; i_token := bs "t0k3n-for-alice"; i_proto := 3;
     i_proto_domain := Some (bs "default"); i_psk := Some (bs "0123456789abcdef0123456789abcdef"); i_decoy_max := 0; i_max_pad := 64;
     i_max_ws_binary := 262144; i_ws_ping_secs := 25; i_ws_ping_jitter_percent := 0; i_ws_binary_send_jitter_ms := 0;
     i_ws_jitter_min_ms := 0; i_ws_jitter_max_ms := 0; i_udp_max_pad := None; i_udp_max_ws_binary := None;
     i_udp_mux_reply_timeout_secs := 130; i_insecure := false; i_tls_profile := bs "default"; i_ws_path := None;
     i_pad_mode := None; i_dummy_interval_secs := None; i_http_proxy := None; i_socks_bind := None;
     i_socks_auth_user := None; i_socks_auth_password := None; i_junk_frames := 0; i_early_ws_frames := 0;
     i_ws_host := None; i_ws_origin := None; i_ws_user_agent := None; i_ws_accept_language := None; i_ws_headers := [];
     i_use_tcp_mux := true; i_decoy_gets := false; i_decoy_gets_interval_secs := 30; i_decoy_gets_paths := None;
     i_fingerprint := None; i_stealth_profile := None; i_decoy_mode := None; i_desync_mode := None; i_tcp_fooling := None;
     i_tls_fragment := false; i_ws_parallel := 2; i_idle_decoy_secs := None; i_tls_stack := bs "rustls";
     i_reality_target := None; i_reality_public_key := None; i_reality_short_id := None; i_pin_cert_pem := None;
     i_server_ack_delay_min_ms := None; i_server_ack_delay_max_ms := None; i_rtt_mask_jitter_ms := None; i_ack_profile := None |}.

#[export] Instance InviteV1_eq_dec : EqDecision InviteV1.
Proof. solve_decision. Defined.

Definition letters (b : bytes) : str := b ≫= fun x => [65 + x mod 256 / 16; 65 + x mod 16].
Fixpoint unletters (s : str) : option bytes :=
  match s with
  | [] => Some []
  | x :: y :: s => rest ← unletters s; Some (((x - 65) * 16 + (y - 65)) mod 256 :: rest)
  | _ => None
  end.

Definition sample_codecs : Codecs.
Proof.
  refine {| json_to_vec i := if decide (i = sample_invite (as_u8 i.(i_v))) then Some [as_u8 i.(i_v)] else None;
            json_from_slice b := match b with [v] => Some (sample_invite v) | _ => None end;
            url_encode := letters; url_decode := unletters;
            std_decode := unletters; hex_decode := unletters |}.
  - intros i b H. case_decide; simplify_eq. constructor; [|done]. by apply Z.mod_pos_bound.
  - intros i b H. case_decide as Hi; simplify_eq. by rewrite <- Hi.
  - induction 1 as [|x b Hx Hb IH]; [done|]. cbn [letters mbind list_bind app unletters]. fold (letters b).
    rewrite IH. cbn [mbind option_bind]. do 2 f_equal. unfold is_u8 in Hx. Z.to_euclidean_division_equations. lia.
  - induction b as [|x b IH]; [constructor|]. cbn [letters mbind list_bind app]. fold (letters b).
    constructor; [|constructor; [|exact IH]]; left; Z.to_euclidean_division_equations; lia.
Defined.

(** C20: An invite that was written under a passphrase is read back under the same passphrase, as long as its text is
    within the length the reader takes: with its scheme in full, without the slashes, or as the bare payload. *)
Theorem invite_roundtrip aead b3 codecs argon2 salt_rng nonce_rng i passphrase uri :
  i.(i_v) = INNER_JSON_VERSION ->
  encode_invite_v1 aead codecs argon2 salt_rng nonce_rng i passphrase = Ok uri ->
  len uri <= MAX_INVITE_URI_LEN ->
  exists payload, uri = PREFIX ++ payload /\
    forall s, In s (uri_forms payload) -> decode_invite_v1 aead b3 codecs argon2 s passphrase = Ok i.
Proof.
  intros Hv He Hl. unfold encode_invite_v1 in He. apply bind_Ok in He as (plain & Hplain & (key & Hk & He)%bind_Ok).
  destruct (json_to_vec codecs i) as [pl|] eqn:Hj; [|done]. apply Ok_inj in Hplain as <-.
  destruct (encrypt _ _ _ _) as [[c tag]|] eqn:Henc; [|done]. cbn [context mbind res_bind] in He. apply Ok_inj in He as <-.
  match goal with |- context [url_encode codecs ?b] => set (w := b) in * end.
  assert (w = wire_v2 (fill_bytes salt_rng 16) DEFAULT_M_KIB DEFAULT_T_COST DEFAULT_P_COST (fill_bytes nonce_rng 12) (c ++ tag)) as Hw by done.
  destruct (encrypt_lens _ _ _ _ _ _ Henc) as [Hc Ht]. pose proof (len_nonneg c).
  destruct (encrypt_u8s _ _ _ _ _ _ (json_u8s _ _ _ Hj) Henc) as [Hcu Htu].
  assert (u8s w) as Hu.
  { rewrite Hw. unfold wire_v2, to_le4, u8s. rewrite !Forall_app. split_and!; try apply fill_bytes_u8s; try done;
    try (apply Forall_rev, (u8s_to_be 4)). by constructor. }
  exists (url_encode codecs w). split; [done|]. intros s Hs.
  destruct (forms_trim s _ (url_alphabet codecs w) Hs) as [Hst Hsl]. rewrite len_app in Hl.
  unfold decode_invite_v1. rewrite Hst, decide_False by (unfold PREFIX in Hl; vm_compute (len (bs _)) in Hl; lia).
  rewrite (strip_forms s _ (url_alphabet codecs w) Hs), (trim_graphic _ (url_graphic _ (url_alphabet codecs w))).
  rewrite url_roundtrip by done. cbn [context mbind res_bind]. rewrite decide_False by by rewrite Hw.
  assert (ix w 0 = @Ok err Z BLOB_VERSION_V2) as -> by by rewrite Hw. cbn [mbind res_bind].
  rewrite decide_False, decide_True by done.
  rewrite Hw, decode_wire_v2_layout by (rewrite ?fill_bytes_len, ?len_app; unfold DEFAULT_M_KIB, DEFAULT_T_COST, DEFAULT_P_COST; lia).
  change (validate_v2_argon_params _ _ _) with (@Ok err unit tt). cbn [mbind res_bind]. fold SALT_LEN.
  rewrite Hk. cbn [mbind res_bind]. apply (decrypt_encrypted _ _ _ _ pl); [done| |done]. by apply json_roundtrip.
Qed.

Definition sample_kdf : Argon2 := fun _ _ _ _ _ => Some (replicate 32 5).
Lemma invite_roundtrip_witness :
  exists uri, encode_invite_v1 plain_aead sample_codecs sample_kdf zero_rng zero_rng (sample_invite 1) (bs "pass") = Ok uri /\
  exists payload, uri = PREFIX ++ payload /\
    forall s, In s (uri_forms payload) ->
      decode_invite_v1 plain_aead zero_blake3 sample_codecs sample_kdf s (bs "pass") = Ok (sample_invite 1).
Proof.
  eexists. split; [vm_compute; reflexivity|].
  eapply (invite_roundtrip plain_aead zero_blake3 sample_codecs sample_kdf zero_rng zero_rng); [done|vm_compute; reflexivity|].
  by apply (bool_decide_unpack _).
Defined.

(** Whatever text is pasted as an invite, reading it does not panic and asks Argon2id for nothing above the caps (two
    functions that agree within the caps give the same answer); what is accepted has the inner version, and was
    opened by the cipher under a key derived from the passphrase. *)
Theorem invite_reader_sound aead b3 codecs argon2 uri passphrase :
  (forall s b, codecs.(url_decode) s = Some b -> u8s b) ->
  safe (decode_invite_v1 aead b3 codecs argon2 uri passphrase) /\
  (forall argon2', same_within_caps argon2 argon2' ->
     decode_invite_v1 aead b3 codecs argon2' uri passphrase = decode_invite_v1 aead b3 codecs argon2 uri passphrase) /\
  (forall i, decode_invite_v1 aead b3 codecs argon2 uri passphrase = Ok i ->
     i.(i_v) = INNER_JSON_VERSION /\ len (trim uri) <= MAX_INVITE_URI_LEN /\
     exists key nonce c tag plain, key_of b3 argon2 passphrase key /\ len tag = 16 /\
       decrypt aead key nonce c tag = Some plain /\ codecs.(json_from_slice) plain = Some i).
Proof.
  intros Hdec. split; [apply safe_decode_invite|]. unfold decode_invite_v1. case_decide as Hl; [done|].
  destruct (url_decode codecs _) as [wire|] eqn:Hw; [|done]. cbn [context mbind res_bind].
  apply Hdec in Hw. case_decide as Hne; [done|]. destruct wire as [|v r]; [done|].
  change (ix (v :: r) 0) with (@Ok err Z v). cbn [mbind res_bind].
  pose proof (decode_wire_Ok aead b3 codecs argon2 (v :: r) passphrase) as Hok.
  split.
  - intros a Ha. repeat case_decide; [done| |done]. by apply decode_wire_v2_caps.
  - intros i Hi. destruct (Hok i Hw) as (key & nonce & ct & Hkey & Hd).
    { repeat case_decide; [by left|by right|done]. }
    apply decrypt_invite_json_Ok in Hd as (Hv & c & tag & plain & Ht & Hdc & Hj). split_and!; [done|lia|]. by eauto 10.
Qed.


Lemma unletters_u8s s b : unletters s = Some b -> u8s b.
Proof.
  revert b. enough (forall n s b, (length s < n)%nat -> unletters s = Some b -> u8s b) as H by (intros b; apply (H (S (length s)) s b); lia).
  intros n. induction n as [|n IH]; [lia|]. intros [|x [|y r]] b Hl; [intros [= <-]; apply Forall_nil; done|done|].
  cbn [unletters]. destruct (unletters r) as [rest|] eqn:Hr; [|done]. intros [= <-].
  constructor; [by apply Z.mod_pos_bound|]. apply (IH r rest); [simpl in Hl; lia|done].
Qed.

Lemma invite_reader_sound_witness :
  exists uri, decode_invite_v1 plain_aead zero_blake3 sample_codecs sample_kdf uri (bs "pass") = Ok (sample_invite 1) /\
  exists key nonce c tag plain, key_of zero_blake3 sample_kdf (bs "pass") key /\ len tag = 16 /\
    decrypt plain_aead key nonce c tag = Some plain /\ json_from_slice sample_codecs plain = Some (sample_invite 1).
Proof.
  exists (PREFIX ++ letters ([1] ++ replicate 12 0 ++ [1] ++ replicate 16 0)).
  assert (decode_invite_v1 plain_aead zero_blake3 sample_codecs sample_kdf
    (PREFIX ++ letters ([1] ++ replicate 12 0 ++ [1] ++ replicate 16 0)) (bs "pass") = Ok (sample_invite 1)) as H by (vm_compute; reflexivity).
  split; [exact H|].
  destruct (invite_reader_sound plain_aead zero_blake3 sample_codecs sample_kdf
    (PREFIX ++ letters ([1] ++ replicate 12 0 ++ [1] ++ replicate 16 0)) (bs "pass") unletters_u8s) as (_ & _ & Hi).
  apply Hi in H as (_ & _ & Hx). exact Hx.
Defined.
