(* ===== verification/Pacing.v ===== *)
(** Small shared policies: [retry.rs] (reconnect backoff, ping period, send jitter), [accept.rs]
    (what an accept loop does after an error), [log_ratelimit.rs] and [activity.rs]. Delays are
    the drawn numbers of milliseconds or seconds; sleeping them is I/O. *)
From S2P Require Import Prelude.

(** ** retry.rs *)

Definition OUTBOUND_CONNECT_ATTEMPTS : Z := 12.

(** Every product is below 2^64, so the unchecked arithmetic of the source does not wrap. *)
Definition outbound_backoff_duration (rng : Rng) (attempt : Z) : Z :=
  let exp := Z.min (200 * 2 ^ Z.min attempt 10) 30000 in
  exp + gen_range rng 0 (exp / 4).

Definition ws_ping_period_duration (rng : Rng) (base_secs jitter_percent : Z) : Z :=
  let p := Z.min jitter_percent 50 in
  let lo := sat_mul U64_MAX base_secs (100 - p) / 100 in
  let hi := sat_mul U64_MAX base_secs (100 + p) / 100 in
  let lo := Z.max lo 1 in
  let hi := Z.max hi lo in
  gen_range rng lo hi.

Record WsSendJitter := { min_ms : Z; max_ms : Z; legacy_0_to_max : Z }.

(** The sleep before a binary message, if any. *)
Definition maybe_ws_binary_send_jitter (rng : Rng) (max_ms : Z) : option Z :=
  if decide (max_ms = 0) then None else Some (gen_range rng 0 max_ms).
Definition maybe_ws_send_jitter (rng : Rng) (j : WsSendJitter) : option Z :=
  if decide (0 < j.(min_ms) /\ j.(min_ms) <= j.(max_ms)) then Some (gen_range rng j.(min_ms) j.(max_ms))
  else maybe_ws_binary_send_jitter rng j.(legacy_0_to_max).

Record ServerWsOutTiming := { ack_delay_min_ms : Z; ack_delay_max_ms : Z; rtt_mask_jitter_ms : Z }.
(** The two sleeps, in order. *)
Definition maybe_server_ack_and_rtt_mask (rng rng' : Rng) (t : ServerWsOutTiming) : list Z :=
  (if decide (0 < t.(ack_delay_min_ms) /\ t.(ack_delay_min_ms) <= t.(ack_delay_max_ms))
   then [gen_range rng t.(ack_delay_min_ms) t.(ack_delay_max_ms)] else []) ++
  (if decide (0 < t.(rtt_mask_jitter_ms)) then [gen_range rng' 0 t.(rtt_mask_jitter_ms)] else []).

(** ** accept.rs *)

Definition ACCEPT_BACKOFF : Z := 100.
Inductive AcceptRecovery : Set := RetryNow | RetryAfterBackoff (exhaustion : bool).
Definition backoff (r : AcceptRecovery) : option Z :=
  match r with RetryNow => None | RetryAfterBackoff _ => Some ACCEPT_BACKOFF end.
Definition is_exhaustion (r : AcceptRecovery) : bool :=
  match r with RetryAfterBackoff true => true | _ => false end.

(** The platform's constants: Linux and Android, other Unix, Windows, others. *)
Inductive Platform : Set := Linux | OtherUnix | Windows | OtherOs.
Definition is_accept_resource_exhaustion (os : Platform) (code : Z) : bool :=
  match os with
  | Linux => bool_decide (code ∈ [24; 23; 12; 105])
  | OtherUnix => bool_decide (code ∈ [24; 23; 12; 55])
  | Windows => bool_decide (code ∈ [10024; 10055; 10059])
  | OtherOs => false
  end.

(** The kinds of [std::io::Error] that are told apart. *)
Inductive ErrorKind : Set := ConnectionAborted | ConnectionReset | Interrupted | WouldBlock | OutOfMemory | OtherKind.
Definition classify_accept_error (os : Platform) (kind : ErrorKind) (raw_os_error : option Z) : AcceptRecovery :=
  match kind with
  | ConnectionAborted | ConnectionReset | Interrupted | WouldBlock => RetryNow
  | OutOfMemory => RetryAfterBackoff true
  | OtherKind => RetryAfterBackoff (match raw_os_error with Some c => is_accept_resource_exhaustion os c | None => false end)
  end.

(** ** log_ratelimit.rs *)

Record LogEvery := { n : Z; warmup : Z; every : Z }.
Definition LogEvery_new (warmup every : Z) : LogEvery :=
  {| n := 0; warmup := warmup; every := if decide (every = 0) then 1 else every |}.
Definition should_emit (l : LogEvery) : LogEvery * bool :=
  let c := l.(n) in
  ({| n := (c + 1) mod 2 ^ 64; warmup := l.(warmup); every := l.(every) |},
   (c <? l.(warmup)) || (c mod l.(every) =? 0)).

(** ** activity.rs: instants in nanoseconds of a monotonic clock *)

Record ActivityTracker := { last_touch : Z }.
Definition ActivityTracker_new (now : Z) : ActivityTracker := {| last_touch := now |}.
Definition touch (now : Z) (t : ActivityTracker) : ActivityTracker := {| last_touch := now |}.
Definition idle_secs (now : Z) (t : ActivityTracker) : Z := (now - t.(last_touch)) / 1000000000.

(** ** Lemmas *)

(** The part of the backoff that is not drawn. *)
Definition backoff_base (attempt : Z) : Z := Z.min (200 * 2 ^ Z.min attempt 10) 30000.

Lemma backoff_base_values a : 0 <= a -> backoff_base a = 30000 \/ (a < 8 /\ backoff_base a = 200 * 2 ^ a).
Proof.
  intros Ha. unfold backoff_base. destruct (decide (a < 8)) as [Hlt|Hge].
  - right. split; [done|]. rewrite (Z.min_l a) by lia.
    pose proof (Z.pow_le_mono_r 2 a 7 ltac:(lia) ltac:(lia)). change (2 ^ 7) with 128 in *. lia.
  - left. pose proof (Z.pow_le_mono_r 2 8 (Z.min a 10) ltac:(lia) ltac:(lia)). change (2 ^ 8) with 256 in *. lia.
Qed.

Lemma backoff_base_mono a b : 0 <= a <= b -> 200 <= backoff_base a <= backoff_base b.
Proof.
  intros Hab. unfold backoff_base.
  pose proof (Z.pow_le_mono_r 2 (Z.min a 10) (Z.min b 10) ltac:(lia) ltac:(lia)).
  pose proof (Z.pow_pos_nonneg 2 (Z.min a 10) ltac:(lia) ltac:(lia)). lia.
Qed.

Lemma backoff_in rng a : 0 <= a -> backoff_base a <= outbound_backoff_duration rng a <= backoff_base a + backoff_base a / 4.
Proof.
  intros Ha. unfold outbound_backoff_duration. fold (backoff_base a).
  pose proof (backoff_base_mono a a). pose proof (Z.div_pos (backoff_base a) 4 ltac:(lia) ltac:(lia)).
  pose proof (gen_range_in rng 0 (backoff_base a / 4) ltac:(lia)). lia.
Qed.

Lemma backoff_floor rng a : 0 <= a -> 200 * 2 ^ Z.min a 7 <= outbound_backoff_duration rng (Z.min a 10).
Proof.
  intros Ha. pose proof (backoff_in rng (Z.min a 10) ltac:(lia)) as [Hb _]. etransitivity; [|exact Hb].
  destruct (backoff_base_values (Z.min a 10) ltac:(lia)) as [->|[Hlt ->]].
  - pose proof (Z.pow_le_mono_r 2 (Z.min a 7) 7 ltac:(lia) ltac:(lia)). change (2 ^ 7) with 128 in *. lia.
  - replace (Z.min a 7) with (Z.min a 10) by lia. lia.
Qed.

(** ** Properties *)

(** reconnect delays and ping periods stay in bounds whatever is drawn: the [a]-th backoff is
    between its base and a quarter more, the base starts at 200 ms, doubles, never decreases and
    stops at 30 s (no delay exceeds 37.5 s); a ping period is at least one second and within the
    configured percentage, at most 50, of its base. *)
Theorem pacing_bounds rng attempt base_secs jitter :
  0 <= attempt <= U32_MAX -> 0 <= base_secs <= U64_MAX / 150 -> is_u8 jitter ->
  (let d := outbound_backoff_duration rng attempt in
   backoff_base attempt <= d <= backoff_base attempt + backoff_base attempt / 4 /\ 200 <= d <= 37500) /\
  (attempt < 8 -> backoff_base attempt = 200 * 2 ^ attempt) /\ (8 <= attempt -> backoff_base attempt = 30000) /\
  (let d := ws_ping_period_duration rng base_secs jitter in
   1 <= d /\ (1 <= base_secs -> base_secs * (100 - Z.min jitter 50) / 100 <= d <= Z.max 1 (base_secs * (100 + Z.min jitter 50) / 100))).
Proof.
  intros Ha Hb Hj. unfold is_u8 in Hj. cbv zeta. pose proof (backoff_in rng attempt ltac:(lia)) as Hin.
  assert (backoff_base attempt <= 30000) as Hmax by (unfold backoff_base; lia).
  pose proof (backoff_base_mono attempt attempt ltac:(lia)) as Hmin.
  assert (backoff_base attempt / 4 <= 7500) as Hq by (apply Z.div_le_upper_bound; lia).
  split_and!; [lia|lia|lia|lia| | | |].
  - intros Hlt. destruct (backoff_base_values attempt) as [E|[_ E]]; [lia| |done].
    rewrite E. unfold backoff_base in E. rewrite (Z.min_l attempt) in E by lia.
    pose proof (Z.pow_le_mono_r 2 attempt 7 ltac:(lia) ltac:(lia)). change (2 ^ 7) with 128 in *. lia.
  - intros Hge. by destruct (backoff_base_values attempt) as [E|[? _]]; [lia|done|lia].
  - unfold ws_ping_period_duration. match goal with |- 1 <= gen_range rng ?lo ?hi => pose proof (gen_range_in rng lo hi ltac:(lia)) end. lia.
  - intros H1. unfold ws_ping_period_duration.
    match goal with |- _ <= gen_range rng ?lo ?hi <= _ => pose proof (gen_range_in rng lo hi ltac:(lia)) as H end.
    assert (0 <= Z.min jitter 50 <= 50) as Hp by lia. revert H Hp. generalize (Z.min jitter 50). intros p H Hp.
    change (U64_MAX / 150) with 122978293824730344 in Hb.
    assert (base_secs * (100 - p) <= U64_MAX /\ base_secs * (100 + p) <= U64_MAX) as [E1 E2].
    { assert (base_secs * 150 <= U64_MAX) by (unfold U64_MAX; lia).
      split; (etransitivity; [apply Z.mul_le_mono_nonneg_l; [lia|]|exact H0]); lia. }
    unfold sat_mul in H |- *. rewrite (Z.min_r _ (base_secs * (100 - p))), (Z.min_r _ (base_secs * (100 + p))) in H |- * by done.
    assert (base_secs * (100 - p) / 100 <= base_secs * (100 + p) / 100) as Hxy by (apply Z.div_le_mono; [lia|]; apply Z.mul_le_mono_nonneg_l; lia).
    set (x := base_secs * (100 - p) / 100) in *. set (y := base_secs * (100 + p) / 100) in *. clearbody x y. lia.
Qed.

Lemma pacing_bounds_witness : 200 <= outbound_backoff_duration zero_rng 3 <= 37500.
Proof.
  destruct (pacing_bounds zero_rng 3 25 20) as ((_ & H) & _);
    [split; vm_compute; congruence|split; vm_compute; congruence|split; vm_compute; congruence|exact H].
Defined.
