(* ===== verification/ClientSlot.v ===== *)
(** The embedded client of the mobile front ends: [apps/bibavpn-jni] ([client_slot.rs] and the start and stop of [lib.rs]) and
    [apps/bibavpn-ffi]. One client at a time runs in a thread of its own; a stop tells it to shut down and waits for it for a
    bounded time. The state is guarded by one lock, which a start releases while it waits for the client to be ready. *)
From S2P Require Import Prelude.

(** ** The threads *)

(** Threads by number: those alive, those told to shut down, and the next number. *)
Record Threads := { alive : gset nat; told : gset nat; next : nat }.
Definition ended (t : nat) (th : Threads) : Threads := {| alive := th.(alive) ∖ {[t]}; told := th.(told); next := th.(next) |}.
Definition tell (t : nat) (th : Threads) : Threads := {| alive := th.(alive); told := {[t]} ∪ th.(told); next := th.(next) |}.
Definition spawn (th : Threads) : Threads := {| alive := {[th.(next)]} ∪ th.(alive); told := th.(told); next := S th.(next) |}.

(** [recv_timeout] on the channel that closes when the thread is done: [in_time] tells whether a thread that still runs ends before the time is up. *)
Definition wait_done (in_time : bool) (t : nat) (th : Threads) : Threads * bool :=
  if decide (t ∈ th.(alive)) then if in_time then (ended t th, true) else (th, false) else (th, true).

(** ** [apps/bibavpn-jni] *)

Module Jni.
Inductive ClientSlot : Type := Live (t : nat) | Stopping (t : nat).
Definition thread_of (s : ClientSlot) : nat := match s with Live t | Stopping t => t end.

(** The manager in [STATE], whether the socket protection hook is set, and the threads. *)
Record ClientSlotManager := { slot : option ClientSlot; hook : bool; threads : Threads }.
Definition set_slot (s : option ClientSlot) (w : ClientSlotManager) : ClientSlotManager := {| slot := s; hook := w.(hook); threads := w.(threads) |}.
Definition set_hook (b : bool) (w : ClientSlotManager) : ClientSlotManager := {| slot := w.(slot); hook := b; threads := w.(threads) |}.
Definition set_threads (th : Threads) (w : ClientSlotManager) : ClientSlotManager := {| slot := w.(slot); hook := w.(hook); threads := th |}.
Definition idle : ClientSlotManager := {| slot := None; hook := false; threads := {| alive := ∅; told := ∅; next := 0 |} |}.

Inductive JoinWait : Type := Joined | Timeout (s : ClientSlot).
Definition wait_join (in_time : bool) (stopping : ClientSlot) (w : ClientSlotManager) : ClientSlotManager * JoinWait :=
  let t := thread_of stopping in
  let '(th, done) := wait_done in_time t w.(threads) in
  (set_threads th w, if done then Joined else Timeout (Stopping t)).

(** The loop of [try_prepare_start]; fuel: every turn but the last empties the slot. *)
Fixpoint prepare_loop (fuel : nat) (in_time : bool) : ST ClientSlotManager err unit := fun w =>
  match fuel with
  | O => (w, Panic)
  | S fuel =>
    match w.(slot) with
    | None => (w, Ok tt)
    | Some (Live t) =>
      if decide (t ∈ w.(threads).(alive)) then (w, bail "already running")
      else prepare_loop fuel in_time (set_hook false (set_slot None w))
    | Some (Stopping t) =>
      let '(w, j) := wait_join in_time (Stopping t) (set_slot None w) in
      match j with
      | Joined => prepare_loop fuel in_time (set_hook false w)
      | Timeout s => (set_slot (Some s) w, bail "client stopping")
      end
    end
  end.
Definition try_prepare_start (in_time : bool) : ST ClientSlotManager err unit := prepare_loop 2 in_time.
Definition install_live (t : nat) (w : ClientSlotManager) : ClientSlotManager := set_slot (Some (Live t)) w.

Definition stop (in_time : bool) (w : ClientSlotManager) : ClientSlotManager :=
  match w.(slot) with
  | None => w
  | Some s =>
    let w := set_slot None w in
    let w := match s with Live t => set_threads (tell t w.(threads)) w | Stopping _ => w end in
    let '(w, j) := wait_join in_time (Stopping (thread_of s)) w in
    match j with Joined => set_hook false w | Timeout s => set_slot (Some s) w end
  end.
Definition abort_pending_start (in_time : bool) (w : ClientSlotManager) : ClientSlotManager := stop in_time w.

(** [native_start_impl] up to the release of the lock: the new thread, which the caller goes on to wait for. [config_ok]: the settings are read and the Java side is there;
    [spawned]: the system has a thread to give. Without one, [thread::spawn] panics, which [catch_unwind] in [nativeStart] turns into an error. *)
Definition native_start (in_time config_ok spawned : bool) : ST ClientSlotManager err nat :=
  _ ← try_prepare_start in_time;
  if negb config_ok then throw "config"%string else
  _ ← modify (set_hook true);
  if negb spawned then throw "panic"%string else
  t ← gets (fun w => w.(threads).(next));
  _ ← modify (fun w => set_threads (spawn w.(threads)) w);
  _ ← modify (install_live t);
  mret t.
(** The rest of it: [ready] tells whether the client came up within 20 seconds. *)
Definition native_start_end (ready in_time : bool) (w : ClientSlotManager) : ClientSlotManager := if ready then w else abort_pending_start in_time w.
Definition native_stop (in_time : bool) (w : ClientSlotManager) : ClientSlotManager :=
  match w.(slot) with None => w | Some _ => stop in_time w end.

(** Calls from any number of Java threads, between which client threads end; [waiting] are the starts that wait for their client. *)
Inductive jni_step (room : bool) : ClientSlotManager * list nat -> ClientSlotManager * list nat -> Prop :=
| Start_ok w w' waiting t a : native_start a true true w = (w', Ok t) -> jni_step room (w, waiting) (w', t :: waiting)
| Start_failed w w' waiting e a c s : (room = true -> s = true) -> native_start a c s w = (w', Err e) -> jni_step room (w, waiting) (w', waiting)
| Start_ended w waiting waiting' t ready a : waiting ≡ₚ t :: waiting' -> jni_step room (w, waiting) (native_start_end ready a w, waiting')
| Stopped w waiting a : jni_step room (w, waiting) (native_stop a w, waiting)
| Thread_ended w waiting t : jni_step room (w, waiting) (set_threads (ended t w.(threads)) w, waiting).

(** [room]: the system never runs out of threads. *)
Definition reachable (room : bool) (w : ClientSlotManager) : Prop := exists waiting, rtc (jni_step room) (idle, []) (w, waiting).

(** A thread that is alive is the slot's, an empty slot holds no protection hook if there were threads enough, and a stopping client has been told. *)
Definition one_slot (room : bool) (w : ClientSlotManager) : Prop :=
  (forall t, t ∈ w.(threads).(alive) -> thread_of <$> w.(slot) = Some t) /\
  (room = true -> w.(slot) = None -> w.(hook) = false) /\ (forall t, w.(slot) = Some (Stopping t) -> t ∈ w.(threads).(told)).

(** The loop ends with the slot empty, or fails and keeps the slot. *)
Lemma prepare_cases room (a : bool) w w' r : one_slot room w -> try_prepare_start a w = (w', r) ->
  one_slot room w' /\ (r = Ok tt /\ w'.(slot) = None \/ exists e, r = Err e).
Proof.
  intros (Ha & Hh & Ht) H. destruct w as [[[t|t]|] h [al tl n]]; cbn -[decide] in *.
  - assert (Hal : forall u, u ∈ al -> u = t) by (intros u Hu; specialize (Ha u Hu); simplify_option_eq; congruence).
    destruct (decide (t ∈ al)) as [Hin|Hin]; injection H as <- <-; [split; [by split_and!|by eauto]|].
    split; [|by left]. split_and!; [|done..]; cbn. intros u Hu. by rewrite (Hal u Hu) in Hu.
  - assert (Hal : forall u, u ∈ al -> u = t) by (intros u Hu; specialize (Ha u Hu); simplify_option_eq; congruence).
    unfold wait_join, wait_done in H; cbn -[decide] in H. destruct (decide (t ∈ al)) as [Hin|Hin]; [destruct a|]; cbn in H; injection H as <- <-.
    + split; [|by left]. split_and!; [|done..]; cbn. intros u [Hu Hne]%elem_of_difference. rewrite (Hal u Hu) in Hne. set_solver.
    + split; [|eauto]. split_and!; [done|done|]; cbn. intros u [= <-]. by apply Ht.
    + split; [|by left]. split_and!; [|done..]; cbn. intros u Hu. by rewrite (Hal u Hu) in Hu.
  - injection H as <- <-. split; [|by left]. by split_and!.
Qed.

Lemma native_start_one room (a c s : bool) w w' r : (room = true -> s = true) -> one_slot room w -> native_start a c s w = (w', r) -> one_slot room w'.
Proof.
  intros Hs0 HI H. unfold native_start, mbind, st_bind in H. destruct (try_prepare_start a w) as [w1 r1] eqn:Hp.
  destruct (prepare_cases _ _ _ _ _ HI Hp) as [HI1 [[-> Hs]|[e ->]]]; cbn in H; [|by injection H as <- <-].
  destruct c; cbn in H; [|by injection H as <- <-].
  destruct s; cbn in H; injection H as <- <-.
  2: { destruct HI1 as (Ha & Hh & Ht). split_and!; [done | intros E; by specialize (Hs0 E) | done]. }
  destruct HI1 as (Ha & _). split_and!; [|done..]; cbn. intros t [?%elem_of_singleton | Hin]%elem_of_union; [by subst|].
  by specialize (Ha t Hin); rewrite Hs in Ha.
Qed.

Lemma stop_one room (a : bool) w : one_slot room w -> one_slot room (stop a w).
Proof.
  intros (Ha & Hh & Ht). destruct w as [[s|] h [al tl n]]; [|by split_and!]. cbn -[decide] in *.
  assert (Hal : forall u, u ∈ al -> u = thread_of s) by (intros u Hu; specialize (Ha u Hu); simplify_option_eq; congruence).
  assert (Htl : forall t, s = Stopping t -> t ∈ tl) by (intros t ->; by apply Ht).
  destruct s as [t|t]; cbn in Hal; unfold stop, wait_join, wait_done; cbn -[decide];
    (destruct (decide (t ∈ al)) as [Hin|Hin]; [destruct a|]); cbn; split_and!; cbn; try done;
    try (intros u [= <-]; specialize (Htl t); set_solver); intros u Hu; set_solver.
Qed.

Lemma ended_one room t w : one_slot room w -> one_slot room (set_threads (ended t w.(threads)) w).
Proof. intros (Ha & Hh & Ht). split_and!; [|done..]; cbn. intros u [Hu _]%elem_of_difference. by apply Ha. Qed.

Lemma jni_step_one room x y : jni_step room x y -> one_slot room x.1 -> one_slot room y.1.
Proof.
  intros []; cbn; intros HI; eauto using native_start_one, ended_one.
  - destruct ready; [done|by apply stop_one].
  - unfold native_stop. destruct (slot w) eqn:Hs; [by apply stop_one|done].
Qed.

Lemma reachable_one room w : reachable room w -> one_slot room w.
Proof.
  intros [ws H]. enough (one_slot room (w, ws).1) by done. revert H. generalize (w, ws). intros y.
  apply (rtc_ind_r (fun y => one_slot room y.1) (idle, [])); [by split_and!|by eauto using jni_step_one].
Qed.

(** A start takes effect only on an empty slot; [Panic], the end of the loop's fuel, is not among its results. *)
Lemma native_start_runs room (a c s : bool) w : one_slot room w ->
  exists w', (exists t, native_start a c s w = (w', Ok t) /\ w'.(slot) = Some (Live t)) \/ (exists e, native_start a c s w = (w', Err e)).
Proof.
  intros HI. unfold native_start, mbind, st_bind. destruct (try_prepare_start a w) as [w1 r1] eqn:Hp.
  destruct (prepare_cases _ _ _ _ _ HI Hp) as [HI1 [[-> Hs]|[e ->]]]; cbn; [|by eauto]. destruct c; cbn; [destruct s; cbn; by eauto | by eauto].
Qed.
End Jni.

(** ** [apps/bibavpn-ffi] *)

Module Ffi.
(** [STATE]: the thread of the client, if there is one. *)
Record NativeState := { state : option nat; threads : Threads }.
Definition idle : NativeState := {| state := None; threads := {| alive := ∅; told := ∅; next := 0 |} |}.

(** The client is taken out of the state whether it ended or not. *)
Definition stop_client_bounded (in_time : bool) (t : nat) (w : NativeState) : NativeState :=
  {| state := None; threads := fst (wait_done in_time t (tell t w.(threads))) |}.

Definition ffi_start (in_time config_ok : bool) : ST NativeState err nat := fun w =>
  let go w := if negb config_ok then (w, bail "config") else
    ({| state := Some w.(threads).(next); threads := spawn w.(threads) |}, Ok w.(threads).(next)) in
  match w.(state) with
  | Some t => if decide (t ∈ w.(threads).(alive)) then (w, bail "already running") else go (stop_client_bounded in_time t w)
  | None => go w
  end.
Definition ffi_stop (in_time : bool) (w : NativeState) : NativeState :=
  match w.(state) with Some t => stop_client_bounded in_time t w | None => w end.
Definition ffi_start_end (ready in_time : bool) (w : NativeState) : NativeState := if ready then w else ffi_stop in_time w.

Inductive ffi_step : NativeState * list nat -> NativeState * list nat -> Prop :=
| Start_ok w w' waiting t a : ffi_start a true w = (w', Ok t) -> ffi_step (w, waiting) (w', t :: waiting)
| Start_failed w w' waiting e a c : ffi_start a c w = (w', Err e) -> ffi_step (w, waiting) (w', waiting)
| Start_ended w waiting waiting' t ready a : waiting ≡ₚ t :: waiting' -> ffi_step (w, waiting) (ffi_start_end ready a w, waiting')
| Stopped w waiting a : ffi_step (w, waiting) (ffi_stop a w, waiting)
| Thread_ended w waiting t : ffi_step (w, waiting) ({| state := w.(state); threads := ended t w.(threads) |}, waiting).
Definition reachable (w : NativeState) : Prop := exists waiting, rtc ffi_step (idle, []) (w, waiting).
(** A running client that is not the state's has been told to shut down. *)
Definition told_or_kept (w : NativeState) : Prop :=
  forall t, t ∈ w.(threads).(alive) -> w.(state) = Some t \/ t ∈ w.(threads).(told).

Lemma stop_client_told (a : bool) t w : told_or_kept w -> w.(state) = Some t -> told_or_kept (stop_client_bounded a t w).
Proof.
  intros Hk Hs u. unfold stop_client_bounded, wait_done. cbn -[decide]. case_decide; [destruct a|]; cbn; intros Hu; right;
    destruct (Hk u ltac:(set_solver)); set_solver.
Qed.

Lemma ffi_stop_told (a : bool) w : told_or_kept w -> told_or_kept (ffi_stop a w).
Proof. intros Hk. unfold ffi_stop. destruct (state w) eqn:Hs; [by apply stop_client_told|done]. Qed.

Lemma spawned_told w : told_or_kept w -> w.(state) = None -> told_or_kept {| state := Some w.(threads).(next); threads := spawn w.(threads) |}.
Proof. intros Hk Hs u [->%elem_of_singleton|Hu]%elem_of_union; cbn; [by left|]. right. destruct (Hk u Hu); [congruence|done]. Qed.

Lemma ffi_start_told (a c : bool) w w' r : told_or_kept w -> ffi_start a c w = (w', r) -> told_or_kept w'.
Proof.
  intros Hk. unfold ffi_start. destruct (state w) as [t|] eqn:Hs; cbn -[decide].
  - case_decide as Hd; intros H; [by simplify_eq|].
    pose proof (stop_client_told a _ _ Hk Hs) as Hk'. destruct c; cbn in H; injection H as <- <-; [exact (spawned_told _ Hk' eq_refl)|done].
  - destruct c; cbn; intros [= <- <-]; [by apply spawned_told|done].
Qed.

Lemma ffi_step_told x y : ffi_step x y -> told_or_kept x.1 -> told_or_kept y.1.
Proof.
  intros []; cbn; intros Hk; eauto using ffi_start_told, ffi_stop_told.
  - destruct ready; [done|by apply ffi_stop_told].
  - intros u [Hu _]%elem_of_difference. by apply Hk.
Qed.

Lemma reachable_told w : reachable w -> told_or_kept w.
Proof.
  intros [ws H]. enough (told_or_kept (w, ws).1) by done. revert H. generalize (w, ws). intros y.
  apply (rtc_ind_r (fun y => told_or_kept y.1) (idle, [])); [by intros u ?%elem_of_empty|by eauto using ffi_step_told].
Qed.
End Ffi.

(** ** What the two give *)

(** C33: in the Android client, whatever the Java threads call and whenever client threads end, a wait runs out or the system has no thread to give, at most one client thread is alive,
    it is the one the slot holds, a stopping client has been told to shut down, and a start always comes back; and unless the system has run out of threads,
    the hook that protects the sockets is never left set with the slot empty. In the embedded C library a client thread outside the state may still run, but only one that has been told. *)
Theorem one_client room (w : Jni.ClientSlotManager) (w' : Ffi.NativeState) (Hw : Jni.reachable room w) (Hw' : Ffi.reachable w') :
  (size w.(Jni.threads).(alive) <= 1)%nat /\ Jni.one_slot room w /\
  (forall a c s, exists v, (exists t, Jni.native_start a c s w = (v, Ok t) /\ v.(Jni.slot) = Some (Jni.Live t)) \/ (exists e, Jni.native_start a c s w = (v, Err e))) /\
  Ffi.told_or_kept w'.
Proof.
  pose proof (Jni.reachable_one room w Hw) as HI. split_and!; [|done| |by apply Ffi.reachable_told].
  - destruct HI as (Ha & _). destruct (Jni.thread_of <$> Jni.slot w) as [t|] eqn:Hs.
    + transitivity (size ({[t]} : gset nat)); [|by rewrite size_singleton]. apply subseteq_size. intros u Hu. specialize (Ha u Hu). set_solver.
    + replace (alive (Jni.threads w)) with (∅ : gset nat); [by rewrite size_empty; lia|]. symmetry; apply set_eq; intros u; split; [|set_solver].
      intros Hu. by specialize (Ha u Hu).
  - intros a c s. by apply (Jni.native_start_runs room).
Qed.

(** A start that finds no thread leaves the hook set, and a stop does not clear it. *)
Lemma hook_without_client : exists w, Jni.reachable false w /\ w.(Jni.slot) = None /\ w.(Jni.hook) = true /\ Jni.native_stop true w = w.
Proof.
  eexists. split; [exists []|].
  - eapply rtc_l; [by eapply (Jni.Start_failed false _ _ _ _ true true false)|]. by apply rtc_refl.
  - by vm_compute.
Qed.

(** Two Java threads: one starts a client and waits for it, the other stops that client and starts its own; the first one's wait then fails,
    and ends the client of the second. *)
Lemma failed_start_stops_other : exists w, Jni.reachable true w /\ w.(Jni.slot) = None /\ 1%nat ∈ w.(Jni.threads).(told).
Proof.
  eexists. split; [exists [1%nat]|].
  - eapply rtc_l; [by eapply (Jni.Start_ok true _ _ _ _ true)|]. eapply rtc_l; [exact (Jni.Stopped true _ _ true)|].
    eapply rtc_l; [by eapply (Jni.Start_ok true _ _ _ _ true)|]. eapply rtc_l; [|by apply rtc_refl].
    by apply (Jni.Start_ended true _ _ [1%nat] 0 false true), Permutation_swap.
  - split; [by vm_compute|by vm_compute].
Qed.

(** In the library for iOS a stop whose wait runs out forgets the thread: the next start runs a second client beside it. *)
Lemma ffi_two_clients : exists w, Ffi.reachable w /\ size w.(Ffi.threads).(alive) = 2%nat.
Proof.
  eexists. split; [exists [1%nat; 0%nat]|].
  - eapply rtc_l; [by eapply (Ffi.Start_ok _ _ _ _ true)|]. eapply rtc_l; [exact (Ffi.Stopped _ _ false)|].
    eapply rtc_l; [by eapply (Ffi.Start_ok _ _ _ _ true)|]. by apply rtc_refl.
  - by vm_compute.
Qed.

Lemma one_client_witness : exists w,
  Jni.reachable true w /\ w.(Jni.slot) = Some (Jni.Stopping 0) /\ (size w.(Jni.threads).(alive) <= 1)%nat.
Proof.
  assert (Hw : Jni.reachable true (Jni.stop false (fst (Jni.native_start true true true Jni.idle)))).
  { exists [0%nat]. eapply rtc_l; [by eapply (Jni.Start_ok true _ _ _ _ true)|]. eapply rtc_l; [exact (Jni.Stopped true _ _ false)|]. by apply rtc_refl. }
  eexists. split; [exact Hw|]. split; [by vm_compute|].
  exact (proj1 (one_client true _ Ffi.idle Hw (ex_intro _ [] (rtc_refl _ _)))).
Defined.
