(* ===== verification/ClientConnect.v ===== *)
(** [local_client.rs] and [udp_mux.rs]: how the client establishes a connection over an upgraded
    WebSocket: noise, the v3 handshake or the REALITY exchange, the channel opening, and the wait
    for its status. [dial] is the outcome of TCP, TLS and the HTTP upgrade, done by others. *)
From S2P Require Import Prelude Text Net WebSocket Frame Protocol Crypto DomainRoute Reality UdpClient Pacing.

Definition OPEN_STATUS_WAIT : Z := 350.

(** The configuration, without the fields of the TLS and HTTP layers and of the timing. *)
Record ClientCfg := {
  token : str;
  max_pad : Z;
  junk_frames : Z;
  early_ws_frames : Z;
  psk : option str;
  decoy_max : Z;
  max_ws_binary : Z;
  udp_mux_max_pad : Z;
  udp_mux_max_ws_binary : Z;
  pad_mode : PadMode;
  proto : Z;
  proto_domain : str;
  use_tcp_mux : bool;
  reality_target : option str;
  reality_public_key : option bytes;
  reality_short_id : option bytes;
  socks_bind : str;
}.
Definition udp_mux_config (c : ClientCfg) : UdpMuxConfig :=
  {| u_token := c.(token); u_max_pad := c.(udp_mux_max_pad); u_junk_frames := c.(junk_frames);
     u_early_ws_frames := c.(early_ws_frames); u_psk := c.(psk); u_decoy_max := c.(decoy_max);
     u_max_ws_binary := c.(udp_mux_max_ws_binary); u_pad_mode := c.(pad_mode); u_proto := c.(proto);
     u_proto_domain := c.(proto_domain); u_reality_public_key := c.(reality_public_key);
     u_reality_short_id := c.(reality_short_id) |}.

Definition proto_domain_or_default (d : str) : str := if decide (trim d = []) then bs "default" else trim d.
Definition effective_udp_proto_domain (cfg : UdpMuxConfig) : str := proto_domain_or_default cfg.(u_proto_domain).
Definition effective_proto_domain (cfg : ClientCfg) : str := proto_domain_or_default cfg.(proto_domain).

(** What one connection draws: the noise frames, the HELLO, the padding and the decoy of each
    sealed message, and for REALITY the clock, the nonce, the ephemeral key and a short id. *)
Record Draws := {
  d_noise : nat -> Rng;
  d_hello : Rng;
  d_hello_pad : Rng;
  d_pad : nat -> Rng;
  d_seal : nat -> Rng;
  d_now : option Z;
  d_nonce : bytes;
  d_ephemeral : bytes;
  d_short_id : bytes;
}.

(** ** Noise *)

Definition junk_upper_bound (max_ws_binary : Z) : Z := Z.min (Z.max (Z.max (max_ws_binary - 1) 0) 32) 512.
(** [n] frames from the [i]th draw on; [cap]: the check of [local_client.rs]. *)
Fixpoint send_noise (cap : option Z) (hi : Z) (draw : nat -> Rng) (i n : nat) : ST Peer err unit :=
  match n with
  | O => mret tt
  | S n =>
    let v := fill_bytes (draw i) (gen_range (draw i) 32 hi) in
    if match cap with Some c => bool_decide (c < len v) | None => false end then throw "noise frame exceeds --max-ws-binary"%string else
    _ ← ws_send (Binary v) "ws send";
    send_noise cap hi draw (S i) n
  end.
Definition send_noise_binaries (draw : nat -> Rng) (first : Z) (count max_ws_binary : Z) : ST Peer err unit :=
  send_noise (Some max_ws_binary) (junk_upper_bound max_ws_binary) draw (Z.to_nat first) (Z.to_nat count).
Definition udp_send_noise_binaries (draw : nat -> Rng) (first : Z) (count max_ws_binary : Z) : ST Peer err unit :=
  send_noise None (junk_upper_bound max_ws_binary) draw (Z.to_nat first) (Z.to_nat count).

(** ** Waiting for the ACK *)

(** The loop up to the first binary message, which [body] handles. *)
Fixpoint ack_loop {A} (eof closed : err) (body : bytes -> ST Peer err A) (inc : list (option Message)) : ST Peer err A := fun p =>
  match inc with
  | [] => (set_inbox [] p, Err (at_end eof p))
  | None :: inc => (set_inbox inc p, bail "ws read")
  | Some (Binary b) :: inc => body b (set_inbox inc p)
  | Some (Ping d) :: inc =>
    match ws_send (Pong d) "pong" p with
    | (p, Ok _) => ack_loop eof closed body inc p
    | (p, Err e) => (set_inbox inc p, Err e)
    | (p, Panic) => (set_inbox inc p, Panic)
    end
  | Some CloseMsg :: inc => (set_inbox inc p, Err closed)
  | Some _ :: inc => ack_loop eof closed body inc p
  end.
Definition await_ack {A} (eof closed : err) (body : bytes -> ST Peer err A) : ST Peer err A :=
  fun p => ack_loop eof closed body p.(inbox) p.

Section Connect.
Context (x : X25519) (aead : Aead) (b3 : Blake3).

(** A padded, sealed control message; [cap] the limit it is checked against, if it is. *)
Definition send_control (pad rng : Rng) (pad_max : Z) (mode : PadMode) (cap : option Z) (over ctx : err) (inner : bytes)
    (crypto : SessionCrypto) (ad : AdaptivePadState) : ST Peer err (SessionCrypto * AdaptivePadState) :=
  '(wire, ad') ← lift (map_err frame_text (write_padded_frame_with_mode_state pad inner pad_max mode (Some ad)));
  let '(crypto, sealed) := seal_client_to_server aead rng wire crypto in
  blob ← lift sealed;
  if match cap with Some c => bool_decide (c < len blob) | None => false end then throw over else
  _ ← ws_send (Binary blob) ctx;
  mret (crypto, default ad ad').

Definition fresh_pad : AdaptivePadState := {| count := 0 |}.

(** ** The UDP mux *)

Definition udp_after_ack (d : Draws) (cfg : UdpMuxConfig) (secret dom c_rand b : bytes) : ST Peer err SessionCrypto :=
  s_rand ← lift (parse_ack b3 secret dom b c_rand);
  let crypto := SessionCrypto_new b3 secret dom c_rand s_rand cfg.(u_decoy_max) in
  auth_inner ← lift (map_err (fun _ => "encode v3 AUTH (udp mux)"%string) (encode_v3_auth cfg.(u_token)));
  '(crypto, ad) ← send_control (d_pad d 0) (d_seal d 0) cfg.(u_max_pad) cfg.(u_pad_mode) None "" "send v3 AUTH (udp mux)"
                    auth_inner crypto fresh_pad;
  '(crypto, _) ← send_control (d_pad d 1) (d_seal d 1) cfg.(u_max_pad) cfg.(u_pad_mode) (Some cfg.(u_max_ws_binary))
                    "sealed UDP_MUX_OPEN exceeds cap" "send UDP_MUX_OPEN v3" encode_v3_udp_mux_open crypto ad;
  mret crypto.

Definition connect_udp_mux_ws (d : Draws) (dial : result unit) (cfg : UdpMuxConfig) : ST Peer err SessionCrypto :=
  if decide (cfg.(u_proto) < 3) then throw "only Biba protocol v3 is supported (proto 3)"%string else
  match cfg.(u_psk) with
  | None => throw "Biba v3 UDP mux requires --psk (or invite psk)"%string
  | Some secret =>
    _ ← lift dial;
    _ ← match cfg.(u_reality_public_key) with
        | Some pk =>
          let short_id := default d.(d_short_id) cfg.(u_reality_short_id) in
          reality_client_exchange_verify x b3 pk short_id cfg.(u_token) d.(d_now) d.(d_nonce) d.(d_ephemeral)
        | None => mret []
        end;
    _ ← udp_send_noise_binaries d.(d_noise) 0 cfg.(u_early_ws_frames) cfg.(u_max_ws_binary);
    _ ← udp_send_noise_binaries d.(d_noise) cfg.(u_early_ws_frames) cfg.(u_junk_frames) cfg.(u_max_ws_binary);
    let dom := effective_udp_proto_domain cfg in
    let '(c_rand, hello) := build_hello_v3 d.(d_hello) d.(d_hello_pad) in
    _ ← ws_send (Binary hello) "send v3 HELLO (udp mux)";
    await_ack "eof before ACK (udp mux)" "ws closed before ACK (udp mux)" (udp_after_ack d cfg secret dom c_rand)
  end.

(** ** A TCP session *)

Definition after_ack (d : Draws) (cfg : ClientCfg) (secret dom c_rand b : bytes) : ST Peer err SessionCrypto :=
  s_rand ← lift (parse_ack b3 secret dom b c_rand);
  let crypto := SessionCrypto_new b3 secret dom c_rand s_rand cfg.(decoy_max) in
  auth_inner ← lift (map_err (fun _ => "encode v3 AUTH"%string) (encode_v3_auth cfg.(token)));
  '(crypto, _) ← send_control (d_pad d 0) (d_seal d 0) cfg.(max_pad) cfg.(pad_mode) None "" "send v3 AUTH"
                   auth_inner crypto fresh_pad;
  mret crypto.

Definition one_try_wss_session (d : Draws) (dial : result unit) (cfg : ClientCfg) : ST Peer err SessionCrypto :=
  if decide (cfg.(proto) <> 3) then throw "only Biba protocol v3 is supported (use --proto 3)"%string else
  match cfg.(psk) with
  | None => throw "Biba v3 requires --psk (or invite psk)"%string
  | Some secret =>
    _ ← lift dial;
    _ ← send_noise_binaries d.(d_noise) 0 cfg.(early_ws_frames) cfg.(max_ws_binary);
    _ ← send_noise_binaries d.(d_noise) cfg.(early_ws_frames) cfg.(junk_frames) cfg.(max_ws_binary);
    let dom := effective_proto_domain cfg in
    let '(c_rand, hello) := build_hello_v3 d.(d_hello) d.(d_hello_pad) in
    _ ← ws_send (Binary hello) "send v3 HELLO";
    await_ack "eof before ACK" "ws closed before ACK" (after_ack d cfg secret dom c_rand)
  end.

(** [reality_client_handshake]: the session key, and the short id sent. *)
Definition reality_client_handshake (d : Draws) (cfg : ClientCfg) : ST Peer err (bytes * bytes) :=
  pk ← lift (context "REALITY: no server public key configured"%string cfg.(reality_public_key));
  let short_id := default d.(d_short_id) cfg.(reality_short_id) in
  key ← reality_client_exchange_verify x b3 pk short_id cfg.(token) d.(d_now) d.(d_nonce) d.(d_ephemeral);
  mret (key, short_id).

(** A mux connection: without keys behind REALITY. *)
Definition prepare_mux_connection (d : Draws) (dial : result unit) (cfg : ClientCfg) : ST Peer err (option SessionCrypto) :=
  match cfg.(reality_target) with
  | Some _ =>
    _ ← lift dial;
    _ ← reality_client_handshake d cfg;
    _ ← ws_send (Binary encode_v3_mux_open) "send MUX_OPEN v3 (REALITY)";
    mret None
  | None =>
    crypto ← one_try_wss_session d dial cfg;
    '(crypto, _) ← send_control (d_pad d 1) (d_seal d 1) cfg.(max_pad) cfg.(pad_mode) (Some cfg.(max_ws_binary))
                     "sealed MUX_OPEN exceeds --max-ws-binary" "send MUX_OPEN v3" encode_v3_mux_open crypto fresh_pad;
    mret (Some crypto)
  end.

(** ** The status of an OPEN *)

Inductive OpenWait : Type := OpenOk | OpenErr (reason : str) | OpenPayload (b : bytes).
Definition classify_open_wait_inner (inner : bytes) : result OpenWait :=
  if is_v3_open_ok inner then Ok OpenOk else
  r ← attempt (decode_v3_open_err inner);
  Ok (match r with Some reason => OpenErr reason | None => OpenPayload inner end).


Fixpoint open_status_loop (crypto : SessionCrypto) (inc : list (option Message)) : ST Peer err (list WsBridgePrefetch) := fun p =>
  match inc with
  | [] => (set_inbox [] p, Err (at_end "eof before OPEN result" p))
  | None :: inc => (set_inbox inc p, bail "ws read")
  | Some (Binary b) :: inc =>
    (raw ← lift (map_err (fun _ => "decrypt OPEN status"%string) (open_server_to_client aead crypto b));
     inner ← lift (map_err (fun _ => "padded OPEN status"%string) (read_padded_frame_into raw));
     w ← lift (classify_open_wait_inner inner);
     match w with
     | OpenOk => mret []
     | OpenErr reason => throw ("remote OPEN failed: " +:+ text reason)%string
     | OpenPayload b => mret [OpenedPayload b]
     end) (set_inbox inc p)
  | Some (Ping d) :: inc =>
    match ws_send (Pong d) "pong during OPEN wait" p with
    | (p, Ok _) => open_status_loop crypto inc p
    | (p, Err e) => (set_inbox inc p, Err e)
    | (p, Panic) => (set_inbox inc p, Panic)
    end
  | Some (Pong _) :: inc => open_status_loop crypto inc p
  | Some CloseMsg :: inc => (set_inbox inc p, bail "closed before OPEN result")
  | Some m :: inc => (set_inbox inc p, Ok [Ws m])
  end.
Definition wait_open_status_or_payload (crypto : SessionCrypto) : ST Peer err (list WsBridgePrefetch) :=
  fun p => open_status_loop crypto p.(inbox) p.

(** [timeout(OPEN_STATUS_WAIT, ..)]: a server that stays silent is taken to have no status. *)
Definition status_within_wait (crypto : SessionCrypto) : ST Peer err (list WsBridgePrefetch) := fun p =>
  match wait_open_status_or_payload crypto p with
  | (p, Err e) => if decide (e = STALLED) then (p, Ok []) else (p, Err e)
  | (p, r) => (p, r)
  end.

(** The session is established: OPEN, and its status within [OPEN_STATUS_WAIT] ms. *)
Definition open_on_session (d : Draws) (cfg : ClientCfg) (host : str) (port : Z) (crypto : SessionCrypto) :
    ST Peer err (SessionCrypto * list WsBridgePrefetch) :=
  open ← lift (encode_v3_open_with_flags host port OPEN_FLAG_STATUS);
  '(crypto, _) ← send_control (d_pad d 1) (d_seal d 1) cfg.(max_pad) cfg.(pad_mode) (Some cfg.(max_ws_binary))
                   "sealed OPEN exceeds --max-ws-binary" "send OPEN v3" open crypto fresh_pad;
  prefetched ← status_within_wait crypto;
  mret (crypto, prefetched).

(** The attempts left, each on a connection of its own; only a session that cannot be established is
    tried again. The result names the connection it was reached on. *)
Fixpoint open_attempts (conn : nat -> Draws * result unit * Peer) (cfg : ClientCfg) (host : str) (port : Z)
    (attempt more : nat) (last_err : option err) : result (nat * Peer * (SessionCrypto * list WsBridgePrefetch)) :=
  match more with
  | O => Err (default "tunnel: connect failed"%string last_err)
  | S more =>
    let '(d, dial, p) := conn attempt in
    match one_try_wss_session d dial cfg p with
    | (p, Ok crypto) =>
      match open_on_session d cfg host port crypto p with
      | (p, Ok r) => Ok (attempt, p, r)
      | (_, Err e) => Err e
      | (_, Panic) => Panic
      end
    | (_, Err e) => open_attempts conn cfg host port (S attempt) more (Some e)
    | (_, Panic) => Panic
    end
  end.
Definition open_legacy_biba_channel (conn : nat -> Draws * result unit * Peer) (cfg : ClientCfg) (host : str) (port : Z) :=
  open_attempts conn cfg host port 0 (Z.to_nat OUTBOUND_CONNECT_ATTEMPTS) None.
End Connect.

(** ** The batch of mux connections *)

(** [next_mux_ready] over the order in which the attempts complete: the first that succeeds, and the
    completions still to come. [None]: the session was stopped first. *)
Fixpoint next_mux_ready {T} (completions : list (option (result T))) (last_error : option err) :
    result (T * list (option (result T))) :=
  match completions with
  | [] => Err (default "tcp mux: no pending connections"%string last_error)
  | None :: _ => bail "tcp mux: session stopped"
  | Some (Ok ready) :: rest => Ok (ready, rest)
  | Some (Err e) :: rest => next_mux_ready rest (Some e)
  | Some Panic :: _ => Panic
  end.
