(* ===== verification/UdpDriver.v ===== *)
(** [udp_mux.rs], the client's driver: it reconnects and runs session after session until it is
    told to stop. What each attempt and each session ends with, and what the shutdown watch says
    where the code looks at it, is the input; the waits it makes are the output. *)
From S2P Require Import Prelude Pacing.

(** One pass of the loop in [connect_udp_mux_ws_resilient]. *)
Record Attempt := {
  at_shutdown : bool;        (* the watch, before the attempt *)
  at_connected : bool;       (* [connect_udp_mux_ws] *)
  at_stopped : bool;         (* the watch turned true during the wait *)
  at_rng : Rng;
}.

Inductive Wait := ConnectWait (ms : Z) | ReconnectWait (ms : Z).

(** [Some true] connected, [Some false] shutdown, [None] still trying. *)
Fixpoint connect_udp_mux_ws_resilient (l : list Attempt) (streak : Z) : option bool * list Wait :=
  match l with
  | [] => (None, [])
  | a :: l =>
    if a.(at_shutdown) then (Some false, [])
    else if a.(at_connected) then (Some true, [])
    else if a.(at_stopped) then (Some false, [])
    else
      let '(r, w) := connect_udp_mux_ws_resilient l (sat_add U32_MAX streak 1) in
      (r, ConnectWait (outbound_backoff_duration a.(at_rng) (Z.min streak 10)) :: w)
  end.

(** How [run_udp_mux_one_session] ends. *)
Inductive SessionEnd : Set := Ended (stop : bool) | Failed (long : bool).

Record Round := {
  rd_shutdown : bool;            (* the watch at the top of the loop *)
  rd_connect : list Attempt;
  rd_connect_stopped : bool;     (* the watch after a failed connect *)
  rd_session : SessionEnd;
  rd_session_stopped : bool;     (* the watch after the session *)
  rd_wait_stopped : bool;        (* the watch turned true during the backoff *)
  rd_rng : Rng;
}.

(** [udp_mux_reconnect_backoff]: whether to stop, the wait, and the streak afterwards. *)
Definition udp_mux_reconnect_backoff (rng : Rng) (stopped : bool) (streak : Z) : bool * list Wait * Z :=
  if stopped then (true, [], streak)
  else (false, [ReconnectWait (outbound_backoff_duration rng (Z.min streak 10))], sat_add U32_MAX streak 1).

Inductive RoundEnd : Set := GoOn (fail_streak : Z) | Return | Unfinished.

Definition driver_round (r : Round) (fail_streak : Z) : RoundEnd * list Wait :=
  if r.(rd_shutdown) then (Return, []) else
  match connect_udp_mux_ws_resilient r.(rd_connect) 0 with
  | (None, w) => (Unfinished, w)
  | (Some false, w) =>
    if r.(rd_connect_stopped) then (Return, w) else
    let '(stop, w', streak) := udp_mux_reconnect_backoff r.(rd_rng) r.(rd_wait_stopped) fail_streak in
    (if stop then Return else GoOn streak, w ++ w')
  | (Some true, w) =>
    match r.(rd_session) with
    | Failed long =>
      if r.(rd_session_stopped) then (Return, w) else
      let fail_streak := if long then 0 else fail_streak in
      let '(stop, w', streak) := udp_mux_reconnect_backoff r.(rd_rng) r.(rd_wait_stopped) fail_streak in
      (if stop then Return else GoOn streak, w ++ w')
    | Ended stop =>
      if stop then (Return, w)
      else if r.(rd_session_stopped) then (Return, w)
      else (GoOn 0, w)
    end
  end.

Fixpoint run_udp_mux_driver_forever (l : list Round) (fail_streak : Z) : RoundEnd * list Wait :=
  match l with
  | [] => (GoOn fail_streak, [])
  | r :: l =>
    match driver_round r fail_streak with
    | (GoOn streak, w) => let '(e, w') := run_udp_mux_driver_forever l streak in (e, w ++ w')
    | (e, w) => (e, w)
    end
  end.

(** ** Lemmas *)

(** Nobody asks the driver to stop. *)
Definition quiet_attempt (a : Attempt) : Prop := a.(at_shutdown) = false /\ a.(at_stopped) = false.
Definition quiet (r : Round) : Prop :=
  r.(rd_shutdown) = false /\ r.(rd_session_stopped) = false /\ r.(rd_wait_stopped) = false /\
  Forall quiet_attempt r.(rd_connect) /\ r.(rd_session) <> Ended true /\ Exists (fun a => a.(at_connected) = true) r.(rd_connect).

Lemma connect_quiet l streak :
  Forall quiet_attempt l -> Exists (fun a => a.(at_connected) = true) l ->
  exists w, connect_udp_mux_ws_resilient l streak = (Some true, w).
Proof.
  intros Hq He. revert streak. induction Hq as [|a l [Hs Ht] _ IH]; intros streak; [by apply Exists_nil in He|].
  simpl. rewrite Hs, Ht. destruct (at_connected a) eqn:Hc; [by eexists|].
  apply Exists_cons in He as [?|He]; [congruence|]. destruct (IH He (sat_add U32_MAX streak 1)) as [w ->]. by eexists.
Qed.

(** The failed sessions of a row of short failures. *)
Definition short_failure (r : Round) : Prop := quiet r /\ r.(rd_session) = Failed false.

Lemma short_failure_round r streak :
  short_failure r -> exists w, driver_round r streak =
    (GoOn (sat_add U32_MAX streak 1), w ++ [ReconnectWait (outbound_backoff_duration r.(rd_rng) (Z.min streak 10))]).
Proof.
  intros [(H1 & H2 & H3 & H4 & _ & H6) Hs]. destruct (connect_quiet _ 0 H4 H6) as [w Hw].
  exists w. unfold driver_round, udp_mux_reconnect_backoff. by rewrite H1, Hw, Hs, H2, H3.
Qed.

(** ** Properties *)

(** The driver gives up only when told to: while the watch stays false and the command
    channel open, and every connect succeeds in the end, each session is followed by another,
    whatever errors sessions end with; and the [n]-th failure in a row of short sessions is followed
    by the wait of the [n]-th backoff step, so a peer that accepts and fails at once is retried
    at a falling rate and not in a loop. *)
Theorem udp_driver_persists l streak :
  Forall quiet l -> 0 <= streak ->
  (exists streak' w, run_udp_mux_driver_forever l streak = (GoOn streak', w) /\ 0 <= streak') /\
  (Forall short_failure l -> streak + len l <= U32_MAX -> forall i r, l !! i = Some r ->
     exists w1 w2 w, run_udp_mux_driver_forever l streak = (GoOn (streak + len l), w) /\
       w = w1 ++ [ReconnectWait (outbound_backoff_duration r.(rd_rng) (Z.min (streak + Z.of_nat i) 10))] ++ w2 /\
       200 * 2 ^ Z.min (streak + Z.of_nat i) 7 <= outbound_backoff_duration r.(rd_rng) (Z.min (streak + Z.of_nat i) 10)).
Proof.
  intros Hq. split; revert streak H.
  - induction Hq as [|r l (H1 & H2 & H3 & H4 & H5 & H6) _ IH]; intros streak H; cbn [run_udp_mux_driver_forever]; [by exists streak, []|].
    destruct (connect_quiet _ 0 H4 H6) as [w Hw]. unfold driver_round, udp_mux_reconnect_backoff. rewrite H1, Hw, H2, H3.
    destruct (rd_session r) as [[]|long]; [done| |].
    + destruct (IH 0) as (s' & w' & -> & ?); [done|]. by eexists _, _.
    + match goal with |- context [run_udp_mux_driver_forever l ?s] => destruct (IH s) as (s' & w' & -> & ?) end;
        [destruct long; unfold sat_add, U32_MAX; lia|]. by eexists _, _.
  - intros streak Hs Hf. clear Hq. revert streak Hs. induction Hf as [|r0 l Hr Hf IH]; intros streak Hs Hmax i r Hi; [done|].
    rewrite len_cons in Hmax. pose proof (len_nonneg l). destruct (short_failure_round r0 streak Hr) as [w0 Hw0].
    cbn [run_udp_mux_driver_forever]. rewrite Hw0. unfold sat_add. rewrite Z.min_r by lia. rewrite len_cons.
    destruct i as [|i].
    + injection Hi as <-. rewrite Z.add_0_r. destruct (run_udp_mux_driver_forever l (streak + 1)) as [e w'] eqn:Hrun.
      exists w0, w', ((w0 ++ [ReconnectWait (outbound_backoff_duration (rd_rng r0) (Z.min streak 10))]) ++ w'). split_and!.
      * f_equal. destruct l as [|r1 l]; [injection Hrun as <- <-; rewrite len_nil; f_equal; lia|].
        destruct (IH (streak + 1) ltac:(lia) ltac:(lia) 0%nat r1 eq_refl) as (? & ? & ? & Hrun' & _).
        rewrite Hrun in Hrun'. injection Hrun' as -> _. f_equal. lia.
      * by rewrite <- !app_assoc.
      * by apply backoff_floor.
    + destruct (IH (streak + 1) ltac:(lia) ltac:(lia) i r Hi) as (w1 & w2 & w & -> & -> & Hb).
      eexists _, w2, _. split_and!; [f_equal; f_equal; lia| |].
      * rewrite app_assoc. replace (streak + Z.of_nat (S i)) with (streak + 1 + Z.of_nat i) by lia. reflexivity.
      * by replace (streak + Z.of_nat (S i)) with (streak + 1 + Z.of_nat i) by lia.
Qed.

Definition demo_round : Round :=
  {| rd_shutdown := false; rd_connect := [{| at_shutdown := false; at_connected := true; at_stopped := false; at_rng := zero_rng |}];
     rd_connect_stopped := false; rd_session := Failed false; rd_session_stopped := false; rd_wait_stopped := false; rd_rng := zero_rng |}.

Lemma udp_driver_persists_witness :
  exists streak w, run_udp_mux_driver_forever [demo_round; demo_round] 0 = (GoOn streak, w) /\ w = [ReconnectWait 200; ReconnectWait 400].
Proof.
  assert (quiet demo_round) as Hq by (unfold quiet; split_and!; [done|done|done|by repeat constructor|discriminate|by constructor]).
  destruct (udp_driver_persists [demo_round; demo_round] 0) as ((s & w & Hrun & _) & _);
    [constructor; [exact Hq|constructor; [exact Hq|constructor]]|discriminate|].
  exists s, w. split; [exact Hrun|]. vm_compute in Hrun. injection Hrun as _ <-. reflexivity.
Defined.
