(* ===== verification/LocalClient.v ===== *)
(** [local_client.rs]: the local front ends. How a SOCKS or HTTP request is routed, around the tunnel
    or into it; the relay of a SOCKS UDP association; retries on the shared mux; and the tasks of a
    session. Establishing a connection is ClientConnect.v. *)
From S2P Require Import Prelude Text Net WebSocket Protocol DomainRoute Stream Socks5 HttpConnect ClientConnect.

(** ** Settings *)

Definition normalize_ws_path (s : str) : str :=
  let t := trim s in
  if decide (t = []) then bs "/ws" else if starts_with t (bs "/") then t else bs "/" ++ t.

(** [strip_prefix('[').and_then(|s| s.strip_suffix(']')).unwrap_or(h)]. *)
Definition strip_brackets (h : str) : str :=
  match strip_prefix_char 91 h with
  | Some inner => match strip_prefix_char 93 (rev inner) with Some r => rev r | None => h end
  | None => h
  end.
Definition parse_host_port (s : str) : result (str * Z) :=
  match rsplit_once 58 (trim s) with
  | Some (h, p) =>
    port ← context "invalid port"%string (parse_uint U16_MAX p);
    let h := strip_brackets h in
    if decide (h = []) then bail "empty host in host:port" else Ok (h, port)
  | None => bail "expected host:port"
  end.
(** [line.split_once(':')], both parts trimmed. *)
Definition parse_ws_header (line : str) : result (str * str) :=
  match find_char 58 line with
  | Some i => Ok (trim (take i line), trim (drop (S i) line))
  | None => bail "--ws-header must be 'Name: value'"
  end.

(** ** Routing *)

Record DomainSplitRoute := { direct : bool; prefetch : bytes }.

Definition TLS_RECORD_PEEK_MAX : Z := 16384.
(** Where the first record ends, once its header is there. *)
Definition record_end (buf : bytes) : Z := Z.min (5 + of_be (sub buf 3 5)) TLS_RECORD_PEEK_MAX.
(** [reads]: the reads that complete before the deadline. A read takes at most 4096 bytes of what has arrived. *)
Fixpoint peek_loop (reads : nat) (buf : bytes) : io bytes := fun c =>
  let next :=
    match reads with
    | O => (c, Ok buf)
    | S reads =>
      let '(b, s) := fill c.(Stream.buf) c.(src) in
      let chunk := take 4096 b in
      let c := set_input (drop 4096 b) s c in
      if decide (chunk = []) then (c, Ok buf) else
      let buf := buf ++ chunk in
      if decide (TLS_RECORD_PEEK_MAX <= len buf) then (c, Ok (take (Z.to_nat TLS_RECORD_PEEK_MAX) buf))
      else peek_loop reads buf c
    end in
  if decide (5 <= len buf) then
    if decide (head buf <> Some 22) then (c, Ok buf)
    else if decide (record_end buf <= len buf) then (c, Ok (take (Z.to_nat (record_end buf)) buf))
    else next
  else next.
Definition peek_tls_client_hello_record (reads : nat) (prefix : bytes) : io bytes := peek_loop reads prefix.

Section Front.
(** The bypass list and the names learnt, the clock, the reads before the peek's deadline, the
    outcomes of the direct connection, of the mux becoming ready and of a tunnel of its own. *)
Context (g : Globals) (now_secs : Z) (reads : nat).
Context (direct_connect : str -> Z -> result unit) (mux_ready : result unit) (legacy_open : str -> Z -> result unit).
Context (use_tcp_mux : bool).

Definition resolve_domain_split_route (host : str) (port : Z) (existing_prefetch : bytes) (sni_peek : bool) : io DomainSplitRoute :=
  if should_bypass host now_secs g then mret {| direct := true; prefetch := existing_prefetch |}
  else if negb sni_peek then mret {| direct := false; prefetch := existing_prefetch |}
  else if negb (bypass_domains_active g) || negb (port =? 443) then mret {| direct := false; prefetch := existing_prefetch |}
  else if bool_decide (parse_ip host = None) then mret {| direct := false; prefetch := existing_prefetch |}
  else
    peeked ← peek_tls_client_hello_record reads existing_prefetch;
    match extract_client_hello_sni peeked with
    | Ok sni => mret {| direct := matches_active_bypass sni g; prefetch := peeked |}
    | _ => mret {| direct := false; prefetch := peeked |}
    end.

(** What becomes of the local connection; [prefix] is sent ahead of what the client sends from now on. *)
Inductive Action : Type :=
| RelayDirect (host : str) (port : Z) (prefix : bytes)
| RelayMux (host : str) (port : Z) (prefix : bytes)
| RelayTunnel (host : str) (port : Z) (prefix : bytes)
| RelayUdp (relay_port : Z)
| Answered.

Definition direct_bypass_relay (host : str) (port : Z) (pre : bytes) : io Action :=
  _ ← lift (map_err (fun _ => "direct bypass connect"%string) (direct_connect host port));
  mret (RelayDirect host port pre).

(** The tunnel, when the route is not direct: the answer [ok] is sent once it is there, unless it was
    sent before the peek; [refuse] when it cannot be had. *)
Definition into_tunnel (ok refuse : io unit) (replied : bool) (host : str) (port : Z) (pre : bytes) : io Action :=
  let ready := if use_tcp_mux then mux_ready else legacy_open host port in
  match ready with
  | Err e => _ ← (if replied then mret tt else refuse); throw e
  | Panic => lift Panic
  | Ok _ =>
    _ ← (if replied then mret tt else ok);
    mret (if use_tcp_mux then RelayMux host port pre else RelayTunnel host port pre)
  end.

(** A CONNECT, of either protocol. *)
Definition connect_target (ok refuse : io unit) (host : str) (port : Z) (client_prefetch : bytes) : io Action :=
  bypass ← resolve_domain_split_route host port client_prefetch false;
  if bypass.(direct) then _ ← ok; direct_bypass_relay host port bypass.(prefetch) else
  let needs_sni_peek := bypass_domains_active g && (port =? 443) && bool_decide (is_Some (parse_ip host)) in
  if needs_sni_peek then
    _ ← ok;
    split ← resolve_domain_split_route host port bypass.(prefetch) true;
    if split.(direct) then direct_bypass_relay host port split.(prefetch)
    else into_tunnel ok refuse true host port split.(prefetch)
  else into_tunnel ok refuse false host port bypass.(prefetch).

(** [udp_bind]: the relay socket's port. *)
Definition handle_socks_peer (socks_auth : option (str * str)) (local_addr : option IpAddr) (udp_bind : result Z) : io Action :=
  cmd ← socks5_read_command socks_auth;
  match cmd with
  | SConnect host port => connect_target socks5_reply_ok socks5_reply_err host port []
  | SUdpAssociate _ _ =>
    _ ← lift (context "socks local_addr"%string local_addr);
    relay_port ← lift udp_bind;
    _ ← socks5_reply_udp_associate local_addr relay_port;
    mret (RelayUdp relay_port)
  end.

Definition bad_gateway : io unit := reply_connect_error 502 (bs "Bad Gateway").
(** [parse_uri] is [http::Uri]'s. *)
Definition handle_http_peer (parse_uri : str -> option Uri) : io Action := fun c =>
  match try_serve_health_check c with
  | (c, Err e) => (c, Err e)
  | (c, Panic) => (c, Panic)
  | (c, Ok true) => (c, Ok Answered)
  | (c, Ok false) =>
    match http_proxy_handshake parse_uri c with
    | (c, Ok (HConnect host port pre)) => connect_target reply_connect_ok bad_gateway host port pre c
    | (c, Ok (HForward host port to_origin)) =>
      (if should_bypass host now_secs g then direct_bypass_relay host port to_origin
       else if use_tcp_mux then into_tunnel (mret tt) bad_gateway false host port to_origin
       else into_tunnel (mret tt) bad_gateway true host port to_origin) c
    | (c, Err e) =>
      if is_benign_handshake_abort (bs e) then (c, Ok Answered)
      else (_ ← reply_connect_error 400 (bs "Bad Request"); throw e) c
    | (c, Panic) => (c, Panic)
    end
  end.
End Front.

(** ** Streams on the shared mux *)

Definition TCP_MUX_SLOT_RETRIES : Z := 8.
Definition mux_slot_retry_ms (attempt : Z) : Z := Z.min (50 * (attempt + 1)) 800.

(** What one attempt meets: the slot empty and connecting it fails; the slot gone again; no live
    session in the pool; or the outcome of [open_stream]. *)
Inductive MuxAttempt : Type :=
| ConnectFailed (e : err) | SlotGone | NoSession
| Opened | SessionFull | WriterGone (e : err) | OpenFailed (e : err).
Inductive MuxStream : Type := OnMux | OnTunnel.
(** The remaining attempts from [attempt] on; the sleeps taken in between. *)
Fixpoint open_stream_attempts (reality : bool) (tunnel : result unit) (attempt : Z) (more : nat) (meets : Z -> MuxAttempt)
    (slept : list Z) : list Z * result MuxStream :=
  match more with
  | O => (slept, bail "tcp mux: open stream retries exhausted")
  | S more =>
    let again := open_stream_attempts reality tunnel (attempt + 1) more meets in
    match meets attempt with
    | ConnectFailed e => (slept, Err e)
    | SlotGone => again slept
    | NoSession => again (slept ++ [mux_slot_retry_ms attempt])
    | Opened => (slept, Ok OnMux)
    | SessionFull =>
      if reality then (slept, bail "mux session full")
      else (slept, match tunnel with Ok _ => Ok OnTunnel | Err e => Err e | Panic => Panic end)
    | WriterGone e =>
      if decide (TCP_MUX_SLOT_RETRIES <= attempt + 1) then (slept, Err e) else again (slept ++ [mux_slot_retry_ms attempt])
    | OpenFailed e => (slept, Err e)
    end
  end.
Definition tcp_mux_open_stream_with_retry (reality : bool) (tunnel : result unit) (meets : Z -> MuxAttempt) : list Z * result MuxStream :=
  open_stream_attempts reality tunnel 0 (Z.to_nat TCP_MUX_SLOT_RETRIES) meets [].

(** ** SOCKS UDP associations *)

Definition SOCKS_UDP_WORKERS : Z := 256.
Definition SocketAddr : Type := IpAddr * Z.

Definition canonical_ip (ip : IpAddr) : IpAddr :=
  match ip with
  | V6 v6 => match to_ipv4_mapped v6 with Some v4 => V4 v4 | None => V6 v6 end
  | v4 => v4
  end.
Definition socks_udp_relay_bind (socks_bind : str) (ctrl_local_ip : IpAddr) : SocketAddr :=
  let ip :=
    match parse_host_port socks_bind with
    | Ok (host, _) => parse_ip (strip_brackets (trim host))
    | _ => None
    end in
  (default ctrl_local_ip ip, 0).
Definition socks_udp_source_allowed (ctrl_peer_ip : IpAddr) (latched_port : option Z) (from : SocketAddr) : bool :=
  if decide (canonical_ip from.1 <> canonical_ip ctrl_peer_ip) then false
  else match latched_port with Some p => p =? from.2 | None => true end.

(** A worker: the datagram's source, what it asks for, and the id collisions met. *)
Record UdpWorker := { w_peer : SocketAddr; w_host : str; w_port : Z; w_payload : bytes; w_retries : Z }.
Record Assoc := {
  client_port : option Z;
  workers : gmap Z UdpWorker;
  next_worker : Z;
  waiting : option (SocketAddr * bytes);       (* a datagram that waits for a permit *)
  forwards : list UdpWorker;                   (* requests given to the mux *)
  replies : list (SocketAddr * bytes);         (* datagrams sent back *)
  running : bool;
}.
Definition Assoc_new : Assoc :=
  {| client_port := None; workers := ∅; next_worker := 0; waiting := None; forwards := []; replies := []; running := true |}.

Inductive AssocEvent : Type :=
| CtrlData                                     (* bytes on the control connection *)
| CtrlClosed                                   (* its end, or an error *)
| RecvFailed
| Datagram (from : SocketAddr) (data : bytes)
| WorkerForwardFailed (i : Z)                  (* [handle.forward] *)
| WorkerReply (i : Z) (body : bytes)
| WorkerCollision (i : Z)
| WorkerEnded (i : Z).                         (* another error, the timeout, or a dropped channel *)

(** The loop ends: what waits and what is in flight is dropped. *)
Definition end_assoc (a : Assoc) : Assoc :=
  {| client_port := a.(client_port); workers := ∅; next_worker := a.(next_worker); waiting := None;
     forwards := a.(forwards); replies := a.(replies); running := false |}.
(** A worker starts with the permit: a datagram that does not parse ends it at once. *)
Definition start_worker (from : SocketAddr) (data : bytes) (a : Assoc) : Assoc :=
  match parse_socks5_udp_datagram data with
  | Ok (host, port, payload) =>
    let w := {| w_peer := from; w_host := host; w_port := port; w_payload := payload; w_retries := 0 |} in
    {| client_port := a.(client_port); workers := <[a.(next_worker) := w]> a.(workers); next_worker := a.(next_worker) + 1;
       waiting := None; forwards := a.(forwards) ++ [w]; replies := a.(replies); running := a.(running) |}
  | _ =>
    {| client_port := a.(client_port); workers := a.(workers); next_worker := a.(next_worker);
       waiting := None; forwards := a.(forwards); replies := a.(replies); running := a.(running) |}
  end.
(** A worker is done: its permit goes to the datagram that waits. *)
Definition finish_worker (i : Z) (sent : list (SocketAddr * bytes)) (a : Assoc) : Assoc :=
  let a := {| client_port := a.(client_port); workers := delete i a.(workers); next_worker := a.(next_worker); waiting := a.(waiting);
              forwards := a.(forwards); replies := a.(replies) ++ sent; running := a.(running) |} in
  match a.(waiting) with Some (from, data) => start_worker from data a | None => a end.

Definition on_datagram (ctrl_peer : IpAddr) (from : SocketAddr) (data : bytes) (a : Assoc) : Assoc :=
  if negb (socks_udp_source_allowed ctrl_peer a.(client_port) from) then a else
  let a := {| client_port := Some (default from.2 a.(client_port)); workers := a.(workers); next_worker := a.(next_worker);
              waiting := a.(waiting); forwards := a.(forwards); replies := a.(replies); running := a.(running) |} in
  if decide (Z.of_nat (size a.(workers)) < SOCKS_UDP_WORKERS) then start_worker from data a
  else {| client_port := a.(client_port); workers := a.(workers); next_worker := a.(next_worker); waiting := Some (from, data);
          forwards := a.(forwards); replies := a.(replies); running := a.(running) |}.

(** [None]: the event cannot happen now. While a datagram waits, the loop neither reads the control
    connection nor the relay socket. *)
Definition assoc_step (ctrl_peer : IpAddr) (ev : AssocEvent) (a : Assoc) : option Assoc :=
  if negb a.(running) then None else
  let loop_event (b : Assoc) : option Assoc := match a.(waiting) with None => Some b | Some _ => None end in
  match ev with
  | CtrlData => loop_event a
  | CtrlClosed | RecvFailed => loop_event (end_assoc a)
  | Datagram from data => loop_event (on_datagram ctrl_peer from data a)
  | WorkerForwardFailed i | WorkerEnded i => if a.(workers) !! i then Some (finish_worker i [] a) else None
  | WorkerReply i body => w ← a.(workers) !! i; Some (finish_worker i [(w.(w_peer), body)] a)
  | WorkerCollision i =>
    w ← a.(workers) !! i;
    if decide (w.(w_retries) < 8) then
      let w := {| w_peer := w.(w_peer); w_host := w.(w_host); w_port := w.(w_port); w_payload := w.(w_payload); w_retries := w.(w_retries) + 1 |} in
      Some {| client_port := a.(client_port); workers := <[i := w]> a.(workers); next_worker := a.(next_worker); waiting := a.(waiting);
              forwards := a.(forwards) ++ [w]; replies := a.(replies); running := a.(running) |}
    else Some (finish_worker i [] a)
  end.
Fixpoint run_socks_udp_assoc (ctrl_peer : IpAddr) (evs : list AssocEvent) (a : Assoc) : option Assoc :=
  match evs with
  | [] => Some a
  | ev :: evs => match assoc_step ctrl_peer ev a with Some a => run_socks_udp_assoc ctrl_peer evs a | None => None end
  end.

(** ** The tasks of a session *)

(** A task is a number; [aborted] and [finished] say what became of it. *)
Record SessionGuard := { tasks : list Z; stopped : bool; aborted : list Z; finished : list Z }.
Definition SessionGuard_new : SessionGuard := {| tasks := []; stopped := false; aborted := []; finished := [] |}.
Definition live_tasks (s : SessionGuard) : list Z := List.filter (fun t => negb (bool_decide (t ∈ s.(finished)))) s.(tasks).
Definition push_task (t : Z) (s : SessionGuard) : SessionGuard :=
  if s.(stopped) then {| tasks := live_tasks s; stopped := true; aborted := s.(aborted) ++ [t]; finished := s.(finished) |}
  else {| tasks := live_tasks s ++ [t]; stopped := false; aborted := s.(aborted); finished := s.(finished) |}.
(** [f] registers the tasks [new]. *)
Definition with_tasks (new : list Z) (s : SessionGuard) : SessionGuard :=
  if s.(stopped) then {| tasks := live_tasks s; stopped := true; aborted := s.(aborted) ++ new; finished := s.(finished) |}
  else {| tasks := live_tasks s ++ new; stopped := false; aborted := s.(aborted); finished := s.(finished) |}.
Definition abort_session_tasks_sync (s : SessionGuard) : SessionGuard :=
  {| tasks := []; stopped := true; aborted := s.(aborted) ++ s.(tasks); finished := s.(finished) |}.
Definition task_finishes (t : Z) (s : SessionGuard) : SessionGuard :=
  {| tasks := s.(tasks); stopped := s.(stopped); aborted := s.(aborted); finished := s.(finished) ++ [t] |}.

Inductive GuardOp : Type := PushTask (t : Z) | WithTasks (new : list Z) | AbortAll | TaskFinishes (t : Z).
Definition guard_step (op : GuardOp) (s : SessionGuard) : SessionGuard :=
  match op with
  | PushTask t => push_task t s
  | WithTasks new => with_tasks new s
  | AbortAll => abort_session_tasks_sync s
  | TaskFinishes t => task_finishes t s
  end.
Definition guard_run (ops : list GuardOp) : SessionGuard := fold_left (fun s op => guard_step op s) ops SessionGuard_new.
(** The tasks registered by a call. *)
Definition registered (op : GuardOp) : list Z := match op with PushTask t => [t] | WithTasks new => new | _ => [] end.

(** ** Lemmas: the peek *)

(** The client sends no more than its first record before it is answered. *)
Definition one_record (b : bytes) : Prop :=
  len b <= TLS_RECORD_PEEK_MAX /\ (5 <= len b -> head b = Some 22 -> len b <= record_end b).

Lemma record_end_app a b : 5 <= len a -> record_end (a ++ b) = record_end a.
Proof.
  intros Ha. unfold record_end, sub. do 3 f_equal. unfold len in *.
  rewrite drop_app_le by lia. rewrite take_app_le; [done|]. rewrite length_drop. lia.
Qed.
Lemma head_app a b : 1 <= len a -> head (a ++ b : bytes) = head a.
Proof. destruct a; [rewrite len_nil; lia|done]. Qed.

(** What the peek returns, loses and leaves. *)
Definition bytes_kept (buf : bytes) (c : Conn) (p : Conn * result bytes) : Prop :=
  let '(c', r) := p in
  exists out lost, r = Ok out /\ buf ++ input c = out ++ lost ++ input c' /\ c'.(sent) = c.(sent) /\ c'.(writes_left) = c.(writes_left) /\
    (one_record (buf ++ input c) -> lost = []).

Lemma kept_stop buf c : bytes_kept buf c (c, Ok buf).
Proof. by exists buf, []. Qed.
Lemma kept_cut n buf c : (one_record (buf ++ input c) -> len buf <= n) -> bytes_kept buf c (c, Ok (take (Z.to_nat n) buf)).
Proof.
  intros Hn. exists (take (Z.to_nat n) buf), (drop (Z.to_nat n) buf). split_and!; [done| |done|done|].
  - by rewrite app_assoc, take_drop.
  - intros Hr%Hn. apply drop_ge. unfold len in *. lia.
Qed.
Lemma kept_read buf c chunk c1 p :
  input c = chunk ++ input c1 -> c1.(sent) = c.(sent) -> c1.(writes_left) = c.(writes_left) -> bytes_kept (buf ++ chunk) c1 p -> bytes_kept buf c p.
Proof.
  destruct p as [c' r]. intros Hi Hs Hw (out & lost & -> & H & Hs' & Hw' & Hl). exists out, lost. rewrite Hi, app_assoc.
  split_and!; [done|done|congruence|congruence|done].
Qed.

Lemma one_record_cut buf rest : one_record (buf ++ rest) -> 5 <= len buf -> head buf = Some 22 -> len buf <= record_end buf.
Proof.
  intros [_ Hr] Hb Hh. rewrite record_end_app, head_app in Hr by lia. rewrite len_app in Hr. pose proof (len_nonneg rest).
  specialize (Hr ltac:(lia) Hh). lia.
Qed.

Lemma peek_kept reads buf c : bytes_kept buf c (peek_loop reads buf c).
Proof.
  revert buf c. induction reads as [|reads IH]; intros buf c; cbn [peek_loop].
  - repeat case_decide; try apply kept_stop. apply kept_cut. intros Hr. eapply one_record_cut; [done..|]. by destruct (decide (head buf = Some 22)).
  - set (next := (let '(b, s) := fill (Stream.buf c) (src c) in _)). assert (bytes_kept buf c next) as Hnext.
    { subst next. pose proof (fill_input (Stream.buf c) (src c)) as Hf. destruct (fill (Stream.buf c) (src c)) as [b s] eqn:Hfill.
      assert (input c = take 4096 b ++ input (set_input (drop 4096 b) s c)) as Hi.
      { unfold input at 1. rewrite <- Hf, input_set, app_assoc, take_drop. done. }
      case_decide as Hc.
      - eapply (kept_read _ _ [] (set_input (drop 4096 b) s c)); [by rewrite Hi, Hc|done|done|]. rewrite app_nil_r. apply kept_stop.
      - eapply kept_read; [exact Hi|done|done|]. case_decide as Hm; [|apply IH]. apply kept_cut. intros [Hl _].
        rewrite len_app in Hl. pose proof (len_nonneg (input (set_input (drop 4096 b) s c))). lia. }
    repeat case_decide; try done; [apply kept_stop|]. apply kept_cut. intros Hr. eapply one_record_cut; [done..|]. by destruct (decide (head buf = Some 22)).
Qed.

(** ** Lemmas: routing *)

Section Routing.
Context (g : Globals) (now_secs : Z) (reads : nat).
Context (direct_connect : str -> Z -> result unit) (mux_ready : result unit) (legacy_open : str -> Z -> result unit) (use_tcp_mux : bool).

(** Why a connection goes around the tunnel: its target, or the SNI of its first record. *)
Definition bypass_cause (host : str) (pre : bytes) : Prop :=
  should_bypass host now_secs g = true \/
  exists sni, extract_client_hello_sni pre = Ok sni /\ matches_active_bypass sni g = true.

Definition resolved (host : str) (pre : bytes) (c c' : Conn) (s : DomainSplitRoute) : Prop :=
  c'.(sent) = c.(sent) /\ c'.(writes_left) = c.(writes_left) /\
  (exists lost, pre ++ input c = s.(prefetch) ++ lost ++ input c' /\ (one_record (pre ++ input c) -> lost = [])) /\
  (s.(direct) = true -> bypass_cause host s.(prefetch)) /\ (s.(direct) = false -> should_bypass host now_secs g = false).

Lemma resolve_spec host port pre sni c :
  exists c' s, resolve_domain_split_route g now_secs reads host port pre sni c = (c', Ok s) /\ resolved host pre c c' s.
Proof using.
  unfold resolve_domain_split_route. destruct (should_bypass host now_secs g) eqn:Hb.
  { exists c, {| direct := true; prefetch := pre |}. split; [done|]. split_and!; [done|done|by exists []|by left|done]. }
  assert (resolved host pre c c {| direct := false; prefetch := pre |}) as Hno.
  { split_and!; [done|done|by exists []|done|done]. }
  destruct (negb sni); [by exists c, {| direct := false; prefetch := pre |}|].
  destruct (_ || _); [by exists c, {| direct := false; prefetch := pre |}|].
  case_bool_decide; [by exists c, {| direct := false; prefetch := pre |}|].
  pose proof (peek_kept reads pre c) as Hk. unfold peek_tls_client_hello_record.
  destruct (peek_loop reads pre c) as [c1 r] eqn:Hp. destruct Hk as (out & lost & -> & Hi & Hs & Hw & Hl).
  erewrite st_bind_step by exact Hp. destruct (extract_client_hello_sni out) as [name|e|] eqn:Hx.
  - exists c1, {| direct := matches_active_bypass name g; prefetch := out |}. split; [done|].
    split_and!; [done|done|by exists lost| |done]. cbn [direct prefetch]. intros Hd. right. by exists name.
  - exists c1, {| direct := false; prefetch := out |}. split; [done|]. split_and!; [done|done|by exists lost|done|done].
  - exists c1, {| direct := false; prefetch := out |}. split; [done|]. split_and!; [done|done|by exists lost|done|done].
Qed.

Context (okb errb : bytes) (octx : err) (host : str) (port : Z).

(** The route an action takes. *)
Definition takes_route (act : Action) (out : bytes) : Prop :=
  (act = RelayDirect host port out /\ direct_connect host port = Ok tt /\ bypass_cause host out) \/
  (act = RelayMux host port out /\ use_tcp_mux = true /\ mux_ready = Ok tt /\ should_bypass host now_secs g = false) \/
  (act = RelayTunnel host port out /\ use_tcp_mux = false /\ legacy_open host port = Ok tt /\ should_bypass host now_secs g = false).

Definition tunnel_up : result unit := if use_tcp_mux then mux_ready else legacy_open host port.
(** The targets whose success is answered before anything is dialled: those on the bypass list, the local ones, and an address
    on port 443 whose first record is to be looked at. *)
Definition answered_first : bool :=
  should_bypass host now_secs g || (bypass_domains_active g && (port =? 443) && bool_decide (is_Some (parse_ip host))).

(** At most one answer. With a route the client's bytes go along it, after the [ok] answer; without one the answer is [errb], or [okb] where it
    has been given already; there is none when the client cannot be written to. *)
Definition connected (pre : bytes) (c c' : Conn) (r : result Action) : Prop :=
  match r with
  | Ok act => c'.(sent) = c.(sent) ++ okb /\ exists out lost, takes_route act out /\
      pre ++ input c = out ++ lost ++ input c' /\ (one_record (pre ++ input c) -> lost = [])
  | Err _ => c'.(sent) = c.(sent) /\ c.(writes_left) = 0%nat \/
      (if answered_first then c'.(sent) = c.(sent) ++ okb /\ (direct_connect host port <> Ok tt \/ tunnel_up <> Ok tt)
       else c'.(sent) = c.(sent) ++ errb /\ tunnel_up <> Ok tt)
  | Panic => False
  end.

Lemma into_tunnel_spec replied out c :
  safe mux_ready -> safe (legacy_open host port) -> should_bypass host now_secs g = false ->
  exists c' r, into_tunnel mux_ready legacy_open use_tcp_mux (write_all okb octx) (ignore (write_all errb "")) replied host port out c = (c', r) /\
    input c' = input c /\
    match r with
    | Ok act => takes_route act out /\ c'.(sent) = c.(sent) ++ (if replied then [] else okb)
    | Err _ => if replied then c'.(sent) = c.(sent) /\ tunnel_up <> Ok tt
               else c'.(sent) = c.(sent) /\ c.(writes_left) = 0%nat \/ c'.(sent) = c.(sent) ++ errb /\ tunnel_up <> Ok tt
    | Panic => False
    end.
Proof using.
  intros Hm Hl Hb. unfold into_tunnel, tunnel_up.
  destruct (if use_tcp_mux then mux_ready else legacy_open host port) as [[]|e|] eqn:Hready.
  - assert (takes_route (if use_tcp_mux then RelayMux host port out else RelayTunnel host port out) out) as Hroute.
    { unfold takes_route. destruct use_tcp_mux; [right; left|right; right]; done. }
    destruct replied; [eexists c, _; split; [reflexivity|]; by rewrite app_nil_r|].
    unfold write_all, mbind, st_bind. destruct (writes_left c) as [|n]; [eexists c, _; split; [reflexivity|]; by auto|].
    eexists _, _. split; [reflexivity|]. by split_and!.
  - destruct replied; [eexists c, _; split; [reflexivity|]; by auto|].
    unfold ignore, write_all, mbind, st_bind. destruct (writes_left c) as [|n]; eexists _, _; (split; [reflexivity|]); by auto.
  - by destruct use_tcp_mux.
Qed.

Lemma resolve_no_peek pre c :
  resolve_domain_split_route g now_secs reads host port pre false c = (c, Ok {| direct := should_bypass host now_secs g; prefetch := pre |}).
Proof using. unfold resolve_domain_split_route. by destruct (should_bypass host now_secs g). Qed.

Lemma direct_relay_spec out c :
  safe (direct_connect host port) -> bypass_cause host out ->
  exists r, direct_bypass_relay direct_connect host port out c = (c, r) /\
    match r with Ok act => takes_route act out | Err _ => direct_connect host port <> Ok tt | Panic => False end.
Proof using.
  intros Hd Hc. unfold direct_bypass_relay, mbind, st_bind, lift. destruct (direct_connect host port) as [[]|e|] eqn:H; [| |done]; eexists; (split; [reflexivity|]).
  - left. done.
  - done.
Qed.

Lemma connect_target_spec pre c :
  safe (direct_connect host port) -> safe mux_ready -> safe (legacy_open host port) ->
  exists c' r, connect_target g now_secs reads direct_connect mux_ready legacy_open use_tcp_mux (write_all okb octx) (ignore (write_all errb ""))
     host port pre c = (c', r) /\ connected pre c c' r.
Proof using.
  intros Hd Hm Hl. unfold connect_target, connected, answered_first. erewrite st_bind_step by apply resolve_no_peek. cbn [direct prefetch].
  destruct (should_bypass host now_secs g) eqn:Hb; [|destruct (_ && _)]; cbn [orb].
  - unfold write_all, mbind, st_bind. destruct (writes_left c) as [|n]; [eexists _, _; split; [reflexivity|]; by left|].
    destruct (direct_relay_spec pre {| Stream.buf := Stream.buf c; src := src c; sent := sent c ++ okb; writes_left := n |} Hd ltac:(by left)) as (r & -> & Hr).
    eexists _, r. split; [reflexivity|]. destruct r as [act|e|]; [|by right; split; [|left]|done]. split; [done|]. by exists pre, [].
  - unfold mbind at 1, st_bind at 1, write_all at 1. destruct (writes_left c) as [|n]; [eexists _, _; split; [reflexivity|]; by left|].
    set (c2 := {| Stream.buf := _ |}).
    destruct (resolve_spec host port pre true c2) as (c3 & s & Hr & Hs & _ & (lost & Hi & Hlost) & Hdir & _).
    erewrite st_bind_step by exact Hr. destruct (direct s).
    + destruct (direct_relay_spec (prefetch s) c3 Hd (Hdir eq_refl)) as (r & -> & Hrt). eexists _, r. split; [reflexivity|].
      destruct r as [act|e|]; [|by right; split; [|left]|done]. split; [done|]. by exists (prefetch s), lost.
    + destruct (into_tunnel_spec true (prefetch s) c3 Hm Hl Hb) as (c4 & r & -> & Hin & Hrt). eexists _, r. split; [reflexivity|].
      destruct r as [act|e|]; [destruct Hrt as [Hrt Hs4]; rewrite app_nil_r in Hs4|destruct Hrt as [Hs4 Ht]; right; split; [by rewrite Hs4, Hs|by right]|done].
      split; [by rewrite Hs4, Hs|]. exists (prefetch s), lost. by rewrite Hin.
  - destruct (into_tunnel_spec false pre c Hm Hl Hb) as (c4 & r & -> & Hin & Hrt). eexists _, r. split; [reflexivity|].
    destruct r as [act|e|]; [|exact Hrt|done]. destruct Hrt as [Hrt Hs4]. split; [done|].
    exists pre, []. rewrite Hin. done.
Qed.
End Routing.

(** ** Lemmas: associations *)

Section Owner.
Context (ctrl_peer : IpAddr).

(** The client of the association: its address, and the port latched. *)
Definition owner (port : option Z) (p : SocketAddr) : Prop := canonical_ip p.1 = canonical_ip ctrl_peer /\ port = Some p.2.
Record assoc_inv (a : Assoc) : Prop := {
  ai_workers : map_Forall (fun _ w => owner a.(client_port) w.(w_peer) /\ 0 <= w.(w_retries) <= 8) a.(workers);
  ai_keys : map_Forall (fun i _ => i < a.(next_worker)) a.(workers);
  ai_waiting : forall from data, a.(waiting) = Some (from, data) -> owner a.(client_port) from;
  ai_forwards : Forall (fun w => owner a.(client_port) w.(w_peer) /\ 0 <= w.(w_retries) <= 8) a.(forwards);
  ai_replies : Forall (fun r => owner a.(client_port) r.1) a.(replies);
  ai_size : Z.of_nat (size a.(workers)) <= SOCKS_UDP_WORKERS;
  ai_ended : a.(running) = false -> a.(workers) = ∅ /\ a.(waiting) = None;
}.

Lemma assoc_new_inv : assoc_inv Assoc_new.
Proof using. by split. Qed.

Lemma end_assoc_inv a : assoc_inv a -> assoc_inv (end_assoc a).
Proof using. intros []. split; try done; apply map_Forall_empty. Qed.

Lemma start_worker_inv from data a :
  assoc_inv a -> owner a.(client_port) from -> a.(running) = true -> Z.of_nat (size a.(workers)) < SOCKS_UDP_WORKERS ->
  assoc_inv (start_worker from data a).
Proof using.
  intros [H1 H2 H3 H4 H5 H6 H7] Ho Hr Hs. unfold start_worker.
  destruct (parse_socks5_udp_datagram data) as [[[h p] b]|e|]; [|split; try done; cbn; congruence..].
  assert (a.(workers) !! a.(next_worker) = None) as Hfresh.
  { destruct (workers a !! next_worker a) eqn:E; [|done]. apply H2 in E. lia. }
  split; cbn [client_port workers next_worker waiting forwards replies running]; try done.
  - apply map_Forall_insert_2; [|done]. split; [done|cbn; lia].
  - apply map_Forall_insert_2; [lia|]. intros i w Hi. apply H2 in Hi. lia.
  - apply Forall_app. split; [done|]. repeat constructor; [apply Ho..|cbn; lia|cbn; lia].
  - rewrite map_size_insert_None by done. lia.
  - congruence.
Qed.

Lemma finish_worker_inv i sent a :
  assoc_inv a -> a.(running) = true -> is_Some (a.(workers) !! i) -> Forall (fun r => owner a.(client_port) r.1) sent ->
  assoc_inv (finish_worker i sent a).
Proof using.
  intros [H1 H2 H3 H4 H5 H6 H7] Hr Hi Hsent. unfold finish_worker. destruct Hi as [w Hw].
  set (b := {| client_port := _ |}). assert (assoc_inv b) as Hb.
  { split; cbn; [by apply map_Forall_delete|by apply map_Forall_delete|done|done|by apply Forall_app| |congruence].
    rewrite map_size_delete_Some by done. lia. }
  destruct (waiting b) as [[from data]|] eqn:Hwait; [|done].
  apply start_worker_inv; [done|by eapply ai_waiting|done|]. cbn. rewrite map_size_delete_Some by done.
  assert (size (workers a) <> 0)%nat by (intros Hz%map_size_empty_inv; rewrite Hz in Hw; done). lia.
Qed.

Lemma owner_latch port q p : owner port p -> owner (Some (default q port)) p.
Proof using. intros [H1 ->]. done. Qed.

Lemma on_datagram_inv from data a : assoc_inv a -> a.(running) = true -> assoc_inv (on_datagram ctrl_peer from data a).
Proof using.
  intros Hinv Hr. unfold on_datagram. destruct (socks_udp_source_allowed _ _ _) eqn:Hs; [|done]. cbn [negb].
  assert (owner (Some (default from.2 a.(client_port))) from) as Hown.
  { unfold socks_udp_source_allowed in Hs. case_decide as Hip; [done|]. split; [done|].
    destruct (client_port a) as [q|]; [|done]. by apply Z.eqb_eq in Hs as ->. }
  set (b := {| client_port := Some _ |}). assert (assoc_inv b) as Hb.
  { destruct Hinv as [H1 H2 H3 H4 H5 H6 H7]. split; cbn; try done.
    - intros i w Hi. destruct (H1 i w Hi) as [Ho ?]. split; [exact (owner_latch _ _ _ Ho)|done].
    - intros f d Hf. eapply owner_latch, H3, Hf.
    - eapply Forall_impl; [exact H4|]. intros w [Ho ?]. split; [exact (owner_latch _ _ _ Ho)|done].
    - eapply Forall_impl; [exact H5|]. intros w. apply owner_latch. }
  case_decide; [by apply start_worker_inv|]. destruct Hb as [H1 H2 H3 H4 H5 H6 H7].
  split; cbn; try done; [by intros f d [= <- <-]|congruence].
Qed.

Lemma assoc_step_inv ev a a' : assoc_inv a -> assoc_step ctrl_peer ev a = Some a' -> assoc_inv a'.
Proof using.
  intros Hinv. unfold assoc_step. destruct (running a) eqn:Hr; [|done]. cbn [negb].
  destruct ev as [| | |from data|i|i body|i|i].
  - destruct (waiting a); [done|]. by intros [= <-].
  - destruct (waiting a); [done|]. intros [= <-]. by apply end_assoc_inv.
  - destruct (waiting a); [done|]. intros [= <-]. by apply end_assoc_inv.
  - destruct (waiting a); [done|]. intros [= <-]. by apply on_datagram_inv.
  - destruct (workers a !! i) as [w|] eqn:Hw; [|done]. intros [= <-]. by apply finish_worker_inv.
  - destruct (workers a !! i) as [w|] eqn:Hw; [|done]. intros [= <-]. apply finish_worker_inv; [done..|].
    constructor; [|done]. by apply (ai_workers _ Hinv) in Hw as [? _].
  - destruct (workers a !! i) as [w|] eqn:Hw; [|done]. cbn [mbind option_bind].
    case_decide as Hret; intros [= <-]; [|by apply finish_worker_inv].
    destruct Hinv as [H1 H2 H3 H4 H5 H6 H7]. destruct (H1 i w Hw) as [Ho Hb].
    split; cbn [client_port workers next_worker waiting forwards replies running]; try done.
    + apply map_Forall_insert_2; [split; [exact Ho|cbn; lia]|done].
    + apply map_Forall_insert_2; [by apply H2 in Hw|done].
    + apply Forall_app. split; [done|]. constructor; [|done]. split; [exact Ho|cbn; lia].
    + by rewrite map_size_insert_Some.
  - destruct (workers a !! i) as [w|] eqn:Hw; [|done]. intros [= <-]. by apply finish_worker_inv.
Qed.

Lemma run_assoc_inv evs a a' : assoc_inv a -> run_socks_udp_assoc ctrl_peer evs a = Some a' -> assoc_inv a'.
Proof using.
  revert a. induction evs as [|ev evs IH]; intros a Hinv; cbn [run_socks_udp_assoc]; [by intros [= <-]|].
  destruct (assoc_step ctrl_peer ev a) as [a1|] eqn:Hs; [|done]. apply IH. by eapply assoc_step_inv.
Qed.
End Owner.

(** ** Lemmas: tasks *)

Lemma live_tasks_In t s : t ∈ s.(tasks) -> t ∈ live_tasks s \/ t ∈ s.(finished).
Proof.
  intros Ht. destruct (decide (t ∈ finished s)) as [|Hn]; [by right|left]. unfold live_tasks.
  apply list_elem_of_In, filter_In. split; [by apply list_elem_of_In|]. by rewrite bool_decide_false.
Qed.

Definition guard_inv (regs : list Z) (s : SessionGuard) : Prop :=
  (s.(stopped) = true -> s.(tasks) = []) /\ forall t, t ∈ regs -> t ∈ s.(tasks) \/ t ∈ s.(aborted) \/ t ∈ s.(finished).

Lemma guard_step_inv op regs s : guard_inv regs s -> guard_inv (regs ++ registered op) (guard_step op s).
Proof.
  intros [Hst Hreg].
  assert (forall new, guard_inv (regs ++ new) (with_tasks new s)) as Hwith.
  { intros new. unfold with_tasks. destruct (stopped s) eqn:Hs.
    - split; cbn [stopped tasks aborted finished]; [unfold live_tasks; by rewrite Hst|]. intros t [Ht|Ht]%elem_of_app; rewrite elem_of_app; [|by auto].
      destruct (Hreg t Ht) as [Hin|[?|?]]; [|by auto..]. rewrite Hst in Hin by done. by apply not_elem_of_nil in Hin.
    - split; [done|]. cbn [stopped tasks aborted finished]. intros t [Ht|Ht]%elem_of_app; rewrite elem_of_app; [|by auto].
      destruct (Hreg t Ht) as [Hin|[?|?]]; [|by auto..]. destruct (live_tasks_In t s Hin); by auto. }
  destruct op as [t|new| |t]; cbn [registered guard_step].
  - apply (Hwith [t]).
  - apply Hwith.
  - rewrite app_nil_r. split; [done|]. intros u Hu. cbn. rewrite elem_of_app. destruct (Hreg u Hu) as [?|[?|?]]; by auto.
  - rewrite app_nil_r. split; [done|]. intros u Hu. cbn. rewrite elem_of_app. destruct (Hreg u Hu) as [?|[?|?]]; by auto.
Qed.

(** A client whose first flight is longer than its first record loses the rest of what was read
    with it: the record is kept, the bytes behind it are gone. *)
Lemma peek_drops_second_record reads record more sent k :
  5 <= len record -> head record = Some 22 -> len record = record_end record -> len (record ++ more) <= 4096 ->
  peek_tls_client_hello_record (S (S reads)) [] {| Stream.buf := []; src := [record ++ more]; sent := sent; writes_left := k |}
    = ({| Stream.buf := []; src := []; sent := sent; writes_left := k |}, Ok record).
Proof.
  intros Hl Hh Hend Hmax. pose proof (len_nonneg more) as Hmore. rewrite len_app in Hmax.
  assert (drop 4096 (record ++ more) = []) as Hd by (apply drop_ge; rewrite length_app; unfold len in *; lia).
  assert (take 4096 (record ++ more) = record ++ more) as Ht by (apply take_ge; rewrite length_app; unfold len in *; lia).
  unfold peek_tls_client_hello_record. cbn [peek_loop]. rewrite decide_False by (rewrite len_nil; lia).
  cbn [Stream.buf src]. destruct (record ++ more) as [|x r] eqn:Hrec.
  { destruct record; [rewrite len_nil in Hl; lia|done]. }
  cbn [fill]. rewrite <- Hrec in *.
  rewrite Hd, Ht. rewrite decide_False by (rewrite Hrec; done).
  rewrite decide_False by (cbn [app]; rewrite len_app; unfold TLS_RECORD_PEEK_MAX; lia). cbn [app].
  rewrite decide_True by (rewrite len_app; lia). rewrite decide_False by (rewrite head_app by lia; rewrite Hh; tauto).
  rewrite record_end_app by lia. rewrite decide_True by (rewrite len_app; lia). rewrite <- Hend.
  rewrite take_app_length' by (unfold len; lia). done.
Qed.

(** ** Properties *)


(** The UDP relay of a SOCKS association serves its owner alone: after any sequence of events,
    every request given to the mux and every reply sent back belongs to the address of the control
    connection and to the one port latched, with at most eight retries of a request and 256 requests
    in flight; and once the control connection is gone nothing is in flight and nothing more happens. *)
Theorem socks_udp_owner_only ctrl_peer evs a :
  run_socks_udp_assoc ctrl_peer evs Assoc_new = Some a ->
  Forall (fun w => owner ctrl_peer a.(client_port) w.(w_peer) /\ 0 <= w.(w_retries) <= 8) a.(forwards) /\
  Forall (fun r => owner ctrl_peer a.(client_port) r.1) a.(replies) /\
  Z.of_nat (size a.(workers)) <= SOCKS_UDP_WORKERS /\
  (a.(running) = false -> a.(workers) = ∅ /\ a.(waiting) = None /\ forall ev, assoc_step ctrl_peer ev a = None).
Proof.
  intros [H1 H2 H3 H4 H5 H6 H7]%run_assoc_inv; [|apply assoc_new_inv]. split_and!; [done|done|done|].
  intros Hr. destruct (H7 Hr). split_and!; [done|done|]. intros ev. unfold assoc_step. by rewrite Hr.
Qed.

(** when a session is stopped, none of its tasks is left running: every task ever registered, before
    the stop or after it, was aborted or had finished. *)
Theorem session_tasks_stopped ops op t :
  (guard_run ops).(stopped) = true -> op ∈ ops -> t ∈ registered op ->
  t ∈ (guard_run ops).(aborted) \/ t ∈ (guard_run ops).(finished).
Proof.
  assert (forall regs s, guard_inv regs s -> guard_inv (regs ++ (ops ≫= registered)) (fold_left (fun s op => guard_step op s) ops s)) as Hrun.
  { induction ops as [|o ops IH]; intros regs s Hs; cbn [fold_left]; [by rewrite app_nil_r|].
    cbn [mbind list_bind]. rewrite app_assoc. by apply IH, guard_step_inv. }
  intros Hst Hop Ht. destruct (Hrun [] SessionGuard_new) as [H1 H2]; [split; [done|intros u Hu; by apply not_elem_of_nil in Hu]|].
  fold (guard_run ops) in H1, H2. destruct (H2 t) as [Hin|?]; [|rewrite (H1 Hst) in Hin; by apply not_elem_of_nil in Hin|done].
  cbn [app]. apply list_elem_of_bind. by exists op.
Qed.

(** *** Witnesses *)

(** A SOCKS client that connects to a literal address and sends the ClientHello of a bypassed name. *)
Definition demo_local_globals : Globals := {| global_map := ∅; global_bypass := [bs "example.com"] |}.
Definition demo_local_conn : Conn :=
  {| Stream.buf := []; src := [[5; 1; 0]; [5; 1; 0; 1; 93; 184; 216; 34; 1; 187]; hello_record demo_hello (bs "www.example.com") [3; 1] []];
     sent := []; writes_left := 9 |}.


Definition demo_owner : IpAddr := V4 2130706433.
Definition demo_request : bytes := match build_socks5_udp_datagram (bs "example.org") 53 [1; 2] with Ok b => b | _ => [] end.
Definition demo_assoc_events : list AssocEvent :=
  [Datagram (V4 1, 9) demo_request; Datagram (demo_owner, 4000) demo_request; Datagram (demo_owner, 4001) demo_request;
   WorkerCollision 0; WorkerReply 0 [7]; CtrlClosed].
Lemma socks_udp_owner_only_witness :
  exists a, run_socks_udp_assoc demo_owner demo_assoc_events Assoc_new = Some a /\ len a.(forwards) = 2 /\
    a.(replies) = [((demo_owner, 4000), [7])] /\ Forall (fun r => owner demo_owner (Some 4000) r.1) a.(replies).
Proof.
  destruct (run_socks_udp_assoc demo_owner demo_assoc_events Assoc_new) as [a|] eqn:Hrun; [|vm_compute in Hrun; discriminate Hrun].
  destruct (socks_udp_owner_only demo_owner demo_assoc_events a Hrun) as (_ & H & _).
  exists a. split; [reflexivity|]. vm_compute in Hrun. injection Hrun as <-. split; [reflexivity|]. split; [reflexivity|]. exact H.
Defined.

Definition demo_guard_ops : list GuardOp := [PushTask 1; WithTasks [2; 3]; TaskFinishes 2; AbortAll; PushTask 4].
Lemma session_tasks_stopped_witness : 4 ∈ (guard_run demo_guard_ops).(aborted) \/ 4 ∈ (guard_run demo_guard_ops).(finished).
Proof.
  apply (session_tasks_stopped demo_guard_ops (PushTask 4) 4); [reflexivity|do 4 apply list_elem_of_further; apply list_elem_of_here|].
  apply list_elem_of_here.
Defined.
