(* ===== verification/ClientOptions.v ===== *)
(** The client's settings: [LocalClientOptions] of [local_client.rs] from the JSON of the Android and desktop
    front ends ([start_json_config.rs]) and from the command line ([bin/client.rs]), with an invite or without. The
    readers of JSON and of the command line are the crates'; the level and format names are those of [logging.rs]. *)
From S2P Require Import Prelude Text Frame Crypto MuxWire DomainRoute Reality Users Stream Socks5 HttpConnect ClientConnect LocalClient HelloProfiles Policy Invite.

Definition DEFAULT_CLIENT_MAX_WS_BINARY : Z := DEFAULT_MAX_WS_BINARY.
Definition DEFAULT_UDP_MUX_REPLY_TIMEOUT_SECS : Z := 130.

Record LocalClientOptions := {
  o_server_host : str;
  o_server_port : Z;
  o_sni : str;
  o_token : str;
  o_socks_bind : str;
  o_socks_auth : option (str * str);
  o_http_proxy_bind : option str;
  o_insecure_tls : bool;
  o_max_pad : Z;
  o_junk_frames : Z;
  o_early_ws_frames : Z;
  o_psk : option str;
  o_decoy_max : Z;
  o_ws_host : option str;
  o_ws_origin : option str;
  o_ws_user_agent : option str;
  o_ws_accept_language : option str;
  o_ws_extra_headers : list (str * str);
  o_max_ws_binary : Z;
  o_ws_ping_secs : Z;
  o_ws_ping_jitter_percent : Z;
  o_ws_binary_send_jitter_ms : Z;
  o_ws_jitter_min_ms : Z;
  o_ws_jitter_max_ms : Z;
  o_udp_max_pad : option Z;
  o_udp_max_ws_binary : option Z;
  o_udp_mux_reply_timeout_secs : Z;
  o_tls_profile : TlsClientProfile;
  o_pinned_certs_pem : option bytes;
  o_ws_path : str;
  o_use_tcp_mux : bool;
  o_pad_mode : PadMode;
  o_dummy_interval_secs : Z;
  o_decoy_gets : bool;
  o_decoy_gets_interval_secs : Z;
  o_decoy_gets_paths : list str;
  o_proto : Z;
  o_proto_domain : str;
  o_reality_target : option str;
  o_reality_public_key : option bytes;
  o_reality_short_id : option bytes;
  o_decoy_mode : DecoyMode;
  o_desync_mode : DesyncMode;
  o_tcp_fooling : TcpFooling;
  o_tls_fragment : bool;
  o_ws_parallel : Z;
  o_mux_window_mib : MuxWindow;
  o_idle_decoy_secs : Z;
  o_stealth_profile : option StealthProfile;
  o_tls_stack : TlsStack;
}.

(** [.context(c)]. *)
Definition within {A} (c : string) (r : result A) : result A := map_err (fun e => (c +:+ ": " +:+ e)%string) r.
Fixpoint each {A B} (f : A -> result B) (l : list A) : result (list B) :=
  match l with [] => Ok [] | x :: l => y ← f x; ys ← each f l; Ok (y :: ys) end.
Definition non_empty (s : str) : bool := negb (bool_decide (s = [])).

(** ** [logging.rs] *)

Inductive LogFormat : Set := Plain | Json.
Definition log_format_from_str (s : str) : result LogFormat :=
  let s := lowered s in
  if one_of s ["plain"; "text"]%string then Ok Plain
  else if one_of s ["json"]%string then Ok Json
  else bail "unknown log format".
Definition level_directive (level : str) : result str :=
  let l := lowered level in
  if one_of l ["trace"; "debug"; "info"; "warn"; "error"]%string then Ok l
  else if decide (l = []) then Ok (bs "info")
  else within "log-level" (bail "unknown log level").

(** ** The rules both front ends share *)

(** A named setting: what the front end gives, else what the invite gives, else the default. *)
Definition named {A} (parse : str -> result A) (c ci : string) (field inv_field : option str) (d : A) : result A :=
  match given field with
  | Some s => within c (parse s)
  | None => match given inv_field with Some s => within ci (parse s) | None => Ok d end
  end.
(** A field of the invite, if there is an invite. *)
Definition inv_opt {A} (inv : option InviteV1) (f : InviteV1 -> option A) : option A := i ← inv; f i.

Definition stealth_for (c : string) (field : option str) (inv : option InviteV1) : result (option StealthProfile) :=
  named (fun s => p ← stealth_profile_from_str s; Ok (Some p)) c "invite stealth_profile" field (inv_opt inv i_stealth_profile) None.
Definition pad_mode_for (c : string) (field : option str) (inv : option InviteV1) (pr : option StealthPreset) : result PadMode :=
  match given field with
  | Some s => within c (pad_mode_from_str s)
  | None =>
    match inv_opt inv i_pad_mode with
    | Some ps => within "invite pad_mode" (pad_mode_from_str ps)
    | None => Ok (match pr with Some p => p.(pr_pad_mode) | None => Adaptive end)
    end
  end.
Definition dummy_interval_for (field : option Z) (inv : option InviteV1) (pr : option StealthPreset) : Z :=
  match field with
  | Some n => n
  | None =>
    match inv_opt inv i_dummy_interval_secs with
    | Some n => n
    | None => match pr with Some p => p.(pr_dummy_interval_secs) | None => 0 end
    end
  end.
Definition comma_list (s : option str) : list str :=
  match s with Some s => List.filter non_empty (trim <$> split_char 44 [] s) | None => [] end.
Definition decoy_paths_for (field : option str) (inv : option InviteV1) : list str :=
  match comma_list field with [] => comma_list (inv_opt inv i_decoy_gets_paths) | l => l end.
Definition decoy_mode_for (c : string) (field : option str) (inv : option InviteV1) (pr : option StealthPreset) : result DecoyMode :=
  named decoy_mode_from_str c "invite decoy_mode" field (inv_opt inv i_decoy_mode) (match pr with Some p => p.(pr_decoy_mode) | None => Simple end).
Definition desync_mode_for (c : string) (field : option str) (inv : option InviteV1) : result DesyncMode :=
  named desync_mode_from_str c "invite desync_mode" field (inv_opt inv i_desync_mode) DesyncOff.
Definition tcp_fooling_for (c : string) (field : option str) (inv : option InviteV1) : result TcpFooling :=
  named tcp_fooling_from_str c "invite tcp_fooling" field (inv_opt inv i_tcp_fooling) FoolingOff.
Definition invite_socks_auth (i : InviteV1) : result (option (str * str)) :=
  match given i.(i_socks_auth_user), given i.(i_socks_auth_password) with
  | Some u, Some p => Ok (Some (u, p))
  | None, None => Ok None
  | _, _ => bail "invite: set both socks_auth_user and socks_auth_password, or neither"
  end.
(** The invite's headers, then the front end's. *)
Definition ws_headers_for (inv : option InviteV1) (lines : list str) : result (list (str * str)) :=
  a ← each (fun l => within "invite ws header" (parse_ws_header l)) (match inv with Some i => i.(i_ws_headers) | None => [] end);
  b ← each parse_ws_header lines;
  Ok (a ++ b).
Definition reality_complete (target : option str) (key sid : option bytes) : result unit :=
  if bool_decide (is_Some target) || bool_decide (is_Some key) || bool_decide (is_Some sid) then
    if bool_decide (is_Some target) && bool_decide (is_Some key) then Ok tt
    else bail "REALITY mode requires both target and public key"
  else Ok tt.

(** ** [start_json_config.rs] *)

Record StartJson := {
  j_server : str;
  j_token : option str;
  j_sni : option str;
  j_socks_bind : str;
  j_socks_auth_user : option str;
  j_socks_auth_password : option str;
  j_split_bypass_domains : list str;
  j_http_proxy : option str;
  j_insecure : bool;
  j_max_pad : option Z;
  j_junk_frames : option Z;
  j_early_ws_frames : option Z;
  j_psk : option str;
  j_decoy_max : option Z;
  j_ws_host : option str;
  j_ws_origin : option str;
  j_ws_user_agent : option str;
  j_ws_accept_language : option str;
  j_ws_headers : list str;
  j_max_ws_binary : option Z;
  j_ws_ping_secs : option Z;
  j_from_invite : option str;
  j_invite_passphrase : option str;
  j_tls_profile : option str;
  j_ws_ping_jitter_percent : option Z;
  j_ws_binary_send_jitter_ms : option Z;
  j_ws_jitter_min_ms : option Z;
  j_ws_jitter_max_ms : option Z;
  j_udp_max_pad : option Z;
  j_udp_max_ws_binary : option Z;
  j_udp_mux_reply_timeout_secs : option Z;
  j_pin_cert_pem : option str;
  j_ws_path : option str;
  j_use_tcp_mux : option bool;
  j_pad_mode : option str;
  j_dummy_interval_secs : option Z;
  j_decoy_gets : option bool;
  j_decoy_gets_interval_secs : option Z;
  j_decoy_gets_paths : option str;
  j_proto : option Z;
  j_proto_domain : option str;
  j_decoy_mode : option str;
  j_desync_mode : option str;
  j_tcp_fooling : option str;
  j_tls_fragment : bool;
  j_ws_parallel : option Z;
  j_mux_window_mib : MuxWindow;
  j_idle_decoy_secs : option Z;
  j_stealth_profile : option str;
  j_tls_stack : option str;
  j_fingerprint : option str;
  j_log_level : option str;
  j_log_format : option str;
}.

Definition default_socks : str := bs "127.0.0.1:1080".
Definition default_max_pad : Z := 64.
Definition default_ws_ping : Z := 25.
Definition default_decoy_interval : Z := 30.

Definition json_or_invite_str (json_field invite_field : option str) : option str :=
  match given json_field with Some t => Some t | None => given invite_field end.

(** The settings that the first match of the code takes from the JSON alone or from the JSON over the invite. *)
Record Basics := {
  b_host : str;
  b_port : Z;
  b_sni : str;
  b_max_pad : Z;
  b_junk_frames : Z;
  b_early_ws_frames : Z;
  b_decoy_max : Z;
  b_max_ws_binary : Z;
  b_ws_ping_secs : Z;
  b_ws_ping_jitter_percent : Z;
  b_ws_binary_send_jitter_ms : Z;
  b_udp_max_pad : option Z;
  b_udp_max_ws_binary : option Z;
  b_udp_mux_reply_timeout_secs : Z;
  b_insecure_tls : bool;
}.
Definition or_opt {A} (x y : option A) : option A := match x with Some _ => x | None => y end.

Definition json_basics (j : StartJson) (inv : option InviteV1) : result Basics :=
  match inv with
  | Some i =>
    '(h, p) ← within "invite server" (parse_host_port (trim i.(i_server)));
    Ok {| b_host := h; b_port := p;
          b_sni := default i.(i_sni) (json_or_invite_str j.(j_sni) (Some i.(i_sni)));
          b_max_pad := default i.(i_max_pad) j.(j_max_pad);
          b_junk_frames := default i.(i_junk_frames) j.(j_junk_frames);
          b_early_ws_frames := default i.(i_early_ws_frames) j.(j_early_ws_frames);
          b_decoy_max := default i.(i_decoy_max) j.(j_decoy_max);
          b_max_ws_binary := default i.(i_max_ws_binary) j.(j_max_ws_binary);
          b_ws_ping_secs := default i.(i_ws_ping_secs) j.(j_ws_ping_secs);
          b_ws_ping_jitter_percent := default i.(i_ws_ping_jitter_percent) j.(j_ws_ping_jitter_percent);
          b_ws_binary_send_jitter_ms := default i.(i_ws_binary_send_jitter_ms) j.(j_ws_binary_send_jitter_ms);
          b_udp_max_pad := or_opt j.(j_udp_max_pad) i.(i_udp_max_pad);
          b_udp_max_ws_binary := or_opt j.(j_udp_max_ws_binary) i.(i_udp_max_ws_binary);
          b_udp_mux_reply_timeout_secs := default i.(i_udp_mux_reply_timeout_secs) j.(j_udp_mux_reply_timeout_secs);
          b_insecure_tls := j.(j_insecure) || i.(i_insecure) |}
  | None =>
    if decide (trim j.(j_server) = []) then bail "server is required when not using invite" else
    '(h, p) ← within "server" (parse_host_port (trim j.(j_server)));
    Ok {| b_host := h; b_port := p;
          b_sni := default h (json_or_invite_str j.(j_sni) None);
          b_max_pad := default default_max_pad j.(j_max_pad);
          b_junk_frames := default 0 j.(j_junk_frames);
          b_early_ws_frames := default 0 j.(j_early_ws_frames);
          b_decoy_max := default 0 j.(j_decoy_max);
          b_max_ws_binary := default DEFAULT_CLIENT_MAX_WS_BINARY j.(j_max_ws_binary);
          b_ws_ping_secs := default default_ws_ping j.(j_ws_ping_secs);
          b_ws_ping_jitter_percent := default 0 j.(j_ws_ping_jitter_percent);
          b_ws_binary_send_jitter_ms := default 0 j.(j_ws_binary_send_jitter_ms);
          b_udp_max_pad := j.(j_udp_max_pad);
          b_udp_max_ws_binary := j.(j_udp_max_ws_binary);
          b_udp_mux_reply_timeout_secs := default DEFAULT_UDP_MUX_REPLY_TIMEOUT_SECS j.(j_udp_mux_reply_timeout_secs);
          b_insecure_tls := j.(j_insecure) |}
  end.

Definition json_token (j : StartJson) (inv : option InviteV1) : result str :=
  match inv with
  | Some i =>
    match given j.(j_token) with
    | None => Ok i.(i_token)
    | Some t => if decide (t = trim i.(i_token)) then Ok i.(i_token) else bail "JSON `token` disagrees with invite token"
    end
  | None => context "token is required when not using invite"%string (given j.(j_token))
  end.
Definition json_psk (j : StartJson) (inv : option InviteV1) : result (option str) :=
  match inv with
  | Some i =>
    match given j.(j_psk), i.(i_psk) with
    | Some a, Some b => if decide (a <> b) then bail "JSON `psk` disagrees with invite `psk`" else Ok (Some a)
    | Some a, None => Ok (Some a)
    | None, p => Ok p
    end
  | None => Ok j.(j_psk)
  end.
Definition json_jitter (j : StartJson) (inv : option InviteV1) (pr : option StealthPreset) : Z * Z :=
  let base_jmin := default 0 (or_opt j.(j_ws_jitter_min_ms) (i_ws_jitter_min_ms <$> inv)) in
  let base_jmax := default 0 (or_opt j.(j_ws_jitter_max_ms) (i_ws_jitter_max_ms <$> inv)) in
  let explicit_jitter := bool_decide (is_Some j.(j_ws_jitter_min_ms)) || bool_decide (is_Some j.(j_ws_jitter_max_ms))
    || bool_decide (is_Some j.(j_ws_binary_send_jitter_ms)) in
  apply_preset_ws_jitter (if explicit_jitter then None else pr) base_jmin base_jmax.
Definition json_decoy_gets (j : StartJson) (inv : option InviteV1) (pr : option StealthPreset) : bool :=
  match j.(j_decoy_gets), pr, inv with
  | Some v, _, _ => v
  | None, Some p, _ => p.(pr_decoy_gets)
  | None, None, Some i => i.(i_decoy_gets)
  | None, None, None => false
  end.
Definition json_tls_stack (j : StartJson) (inv : option InviteV1) : result TlsStack :=
  match given j.(j_tls_stack), inv with
  | Some s, _ => tls_stack_from_str s
  | None, Some i => within "invite tls_stack" (tls_stack_from_str i.(i_tls_stack))
  | None, None => Ok Rustls
  end.
Definition json_ws_parallel (j : StartJson) (inv : option InviteV1) : Z :=
  match j.(j_ws_parallel) with
  | Some jp => clamp 1 4 jp
  | None => clamp 1 4 (default 1 (i_ws_parallel <$> inv))
  end.
Definition json_socks_auth (j : StartJson) (inv : option InviteV1) : result (option (str * str)) :=
  match given j.(j_socks_auth_user), given j.(j_socks_auth_password) with
  | Some u, Some p => Ok (Some (u, p))
  | None, None => match inv with Some i => invite_socks_auth i | None => Ok None end
  | _, _ => bail "socks_auth: set both socks_auth_user and socks_auth_password, or omit both"
  end.

(** ** [bin/client.rs] *)

(** The arguments as [clap] gives them, defaults filled in; [explicit] tells which ones the command line has. *)
Record Args := {
  explicit : string -> bool;
  a_from_invite : option str;
  a_invite_passphrase : option str;
  a_server : option str;
  a_token : option str;
  a_lab : bool;
  a_sni : option str;
  a_socks5 : str;
  a_http_proxy : option str;
  a_insecure : bool;
  a_pin_cert : list str;
  a_max_pad : Z;
  a_junk_frames : Z;
  a_early_ws_frames : Z;
  a_psk : option str;
  a_decoy_max : Z;
  a_ws_host : option str;
  a_ws_origin : option str;
  a_ws_user_agent : option str;
  a_ws_accept_language : option str;
  a_ws_headers : list str;
  a_max_ws_binary : Z;
  a_ws_ping_secs : Z;
  a_ws_ping_jitter_percent : Z;
  a_ws_binary_send_jitter_ms : Z;
  a_ws_jitter_min_ms : Z;
  a_ws_jitter_max_ms : Z;
  a_udp_max_pad : option Z;
  a_udp_max_ws_binary : option Z;
  a_udp_mux_reply_timeout_secs : Z;
  a_tls_profile : option str;
  a_ws_path : option str;
  a_no_mux : bool;
  a_pad_mode : option str;
  a_dummy_interval_secs : option Z;
  a_decoy_gets : bool;
  a_decoy_gets_interval_secs : Z;
  a_decoy_gets_paths : option str;
  a_proto : Z;
  a_proto_domain : str;
  a_reality_public_key : option str;
  a_reality_short_id : option str;
  a_reality_target : option str;
  a_fingerprint : option str;
  a_stealth_profile : option str;
  a_decoy_mode : option str;
  a_desync_mode : option str;
  a_tcp_fooling : option str;
  a_tls_fragment : bool;
  a_ws_parallel : Z;
  a_mux_window_mib : MuxWindow;
  a_idle_decoy_secs : option Z;
  a_tls_stack : str;
}.

(** [if explicit(name) { args } else { invite }], and the argument when there is no invite. *)
Definition arg_or {A} (args : Args) (name : string) (arg : A) (inv : option InviteV1) (f : InviteV1 -> A) : A :=
  match inv with Some i => if args.(explicit) name then arg else f i | None => arg end.

Definition cli_token (args : Args) (inv : option InviteV1) : result str :=
  match inv with Some i => Ok i.(i_token) | None => resolve_cli_token args.(a_token) args.(a_lab) end.
Definition cli_basics (args : Args) (inv : option InviteV1) : result Basics :=
  let settings h p sni insecure :=
    {| b_host := h; b_port := p; b_sni := sni;
       b_max_pad := arg_or args "max_pad" args.(a_max_pad) inv i_max_pad;
       b_junk_frames := arg_or args "junk_frames" args.(a_junk_frames) inv i_junk_frames;
       b_early_ws_frames := arg_or args "early_ws_frames" args.(a_early_ws_frames) inv i_early_ws_frames;
       b_decoy_max := arg_or args "decoy_max" args.(a_decoy_max) inv i_decoy_max;
       b_max_ws_binary := arg_or args "max_ws_binary" args.(a_max_ws_binary) inv i_max_ws_binary;
       b_ws_ping_secs := arg_or args "ws_ping_secs" args.(a_ws_ping_secs) inv i_ws_ping_secs;
       b_ws_ping_jitter_percent := arg_or args "ws_ping_jitter_percent" args.(a_ws_ping_jitter_percent) inv i_ws_ping_jitter_percent;
       b_ws_binary_send_jitter_ms :=
         arg_or args "ws_binary_send_jitter_ms" args.(a_ws_binary_send_jitter_ms) inv i_ws_binary_send_jitter_ms;
       b_udp_max_pad := arg_or args "udp_max_pad" args.(a_udp_max_pad) inv i_udp_max_pad;
       b_udp_max_ws_binary := arg_or args "udp_max_ws_binary" args.(a_udp_max_ws_binary) inv i_udp_max_ws_binary;
       b_udp_mux_reply_timeout_secs :=
         arg_or args "udp_mux_reply_timeout_secs" args.(a_udp_mux_reply_timeout_secs) inv i_udp_mux_reply_timeout_secs;
       b_insecure_tls := insecure |} in
  match inv with
  | Some i =>
    '(h, p) ← within "invite server" (parse_host_port (trim i.(i_server)));
    Ok (settings h p (default i.(i_sni) args.(a_sni)) (args.(a_insecure) || i.(i_insecure)))
  | None =>
    match args.(a_server) with
    | Some server =>
      '(h, p) ← within "server" (parse_host_port (trim server));
      Ok (settings h p (default h args.(a_sni)) args.(a_insecure))
    | None => Panic
    end
  end.
Definition cli_decoy_gets (args : Args) (inv : option InviteV1) (pr : option StealthPreset) : bool :=
  if args.(explicit) "decoy_gets" then args.(a_decoy_gets)
  else match pr, inv with
       | Some p, _ => p.(pr_decoy_gets)
       | None, Some i => i.(i_decoy_gets)
       | None, None => args.(a_decoy_gets)
       end.
Definition cli_tls_stack (args : Args) (inv : option InviteV1) : result TlsStack :=
  if args.(explicit) "tls_stack" then within "--tls-stack" (tls_stack_from_str args.(a_tls_stack))
  else match inv with
       | Some i => within "invite tls_stack" (tls_stack_from_str i.(i_tls_stack))
       | None => within "--tls-stack" (tls_stack_from_str args.(a_tls_stack))
       end.

Section FrontEnds.
Context (aead : Aead) (b3 : Blake3) (codecs : Codecs) (argon2 : Argon2).

Definition json_invite (j : StartJson) : result (option InviteV1) :=
  match given j.(j_from_invite), given j.(j_invite_passphrase) with
  | Some uri, Some pass => i ← within "decode invite" (decode_invite_v1 aead b3 codecs argon2 uri pass); Ok (Some i)
  | None, None => Ok None
  | _, _ => bail "invite: set both from_invite and invite_passphrase, or neither"
  end.
Definition invite_reality (inv : option InviteV1) : result (option str * option bytes * option bytes) :=
  match inv with
  | Some i =>
    key ← within "invite reality_public_key" (reality_public_key_parsed codecs i);
    sid ← within "invite reality_short_id" (reality_short_id_parsed codecs i);
    Ok (i.(i_reality_target), key, sid)
  | None => Ok (None, None, None)
  end.
Definition invite_tls (c : string) (inv : option InviteV1) : result (option TlsClientProfile) :=
  match inv with
  | Some i => within c (tls_profile_from_invite i.(i_fingerprint) i.(i_tls_profile))
  | None => Ok None
  end.

(** [Ok(LocalClientOptions { .. })], with the settings that need no more than the two sources. *)
Definition json_options (j : StartJson) (inv : option InviteV1) (stealth : option StealthProfile) (b : Basics) (token : str)
    (psk : option str) (extra : list (str * str)) (pinned : option bytes) (jmin jmax : Z) (ws_path : str) (use_tcp_mux : bool)
    (pad_mode : PadMode) (proto : Z) (proto_domain : str) (tls_profile : TlsClientProfile) (decoy_mode : DecoyMode)
    (desync_mode : DesyncMode) (tcp_fooling : TcpFooling) (tls_stack : TlsStack) (socks_auth : option (str * str))
    (target : option str) (key sid : option bytes) : LocalClientOptions :=
  let pr := preset <$> stealth in
  {| o_server_host := b.(b_host); o_server_port := b.(b_port);
    o_sni := effective_tls_sni b.(b_sni) target; o_token := token;
    o_socks_bind := default j.(j_socks_bind) (given (inv_opt inv i_socks_bind));
    o_socks_auth := socks_auth;
    o_http_proxy_bind := json_or_invite_str j.(j_http_proxy) (inv_opt inv i_http_proxy);
    o_insecure_tls := b.(b_insecure_tls); o_max_pad := b.(b_max_pad); o_junk_frames := b.(b_junk_frames);
    o_early_ws_frames := b.(b_early_ws_frames); o_psk := psk; o_decoy_max := b.(b_decoy_max);
    o_ws_host := json_or_invite_str j.(j_ws_host) (inv_opt inv i_ws_host);
    o_ws_origin := json_or_invite_str j.(j_ws_origin) (inv_opt inv i_ws_origin);
    o_ws_user_agent := json_or_invite_str j.(j_ws_user_agent) (inv_opt inv i_ws_user_agent);
    o_ws_accept_language := json_or_invite_str j.(j_ws_accept_language) (inv_opt inv i_ws_accept_language);
    o_ws_extra_headers := extra; o_max_ws_binary := b.(b_max_ws_binary); o_ws_ping_secs := b.(b_ws_ping_secs);
    o_ws_ping_jitter_percent := b.(b_ws_ping_jitter_percent);
    o_ws_binary_send_jitter_ms := b.(b_ws_binary_send_jitter_ms);
    o_ws_jitter_min_ms := jmin; o_ws_jitter_max_ms := jmax;
    o_udp_max_pad := b.(b_udp_max_pad); o_udp_max_ws_binary := b.(b_udp_max_ws_binary);
    o_udp_mux_reply_timeout_secs := b.(b_udp_mux_reply_timeout_secs);
    o_tls_profile := tls_profile; o_pinned_certs_pem := pinned; o_ws_path := ws_path; o_use_tcp_mux := use_tcp_mux;
    o_pad_mode := pad_mode; o_dummy_interval_secs := dummy_interval_for j.(j_dummy_interval_secs) inv pr;
    o_decoy_gets := json_decoy_gets j inv pr;
    o_decoy_gets_interval_secs := default default_decoy_interval (or_opt j.(j_decoy_gets_interval_secs) (i_decoy_gets_interval_secs <$> inv));
    o_decoy_gets_paths := decoy_paths_for j.(j_decoy_gets_paths) inv;
    o_proto := proto; o_proto_domain := proto_domain;
    o_reality_target := target; o_reality_public_key := key; o_reality_short_id := sid;
    o_decoy_mode := decoy_mode; o_desync_mode := desync_mode; o_tcp_fooling := tcp_fooling;
    o_tls_fragment := match inv with Some i => i.(i_tls_fragment) | None => j.(j_tls_fragment) end;
    o_ws_parallel := json_ws_parallel j inv; o_mux_window_mib := j.(j_mux_window_mib);
    o_idle_decoy_secs := merge_idle_decoy_secs (or_opt j.(j_idle_decoy_secs) (inv_opt inv i_idle_decoy_secs)) pr;
    o_stealth_profile := stealth; o_tls_stack := tls_stack |}.

(** Everything after the bypass list is installed and the invite is read. *)
Definition json_merge (j : StartJson) (inv : option InviteV1) : result LocalClientOptions :=
  stealth ← within "stealth_profile" (stealth_for "stealth_profile" j.(j_stealth_profile) inv);
  let pr := preset <$> stealth in
  b ← json_basics j inv;
  token ← json_token j inv;
  _ ← validate_resolved_token token;
  psk ← json_psk j inv;
  extra ← ws_headers_for inv j.(j_ws_headers);
  let pinned := or_opt (given j.(j_pin_cert_pem)) (given (inv_opt inv i_pin_cert_pem)) in
  let '(jmin, jmax) := json_jitter j inv pr in
  let ws_path := normalize_ws_path (default (bs "/ws") (or_opt j.(j_ws_path) (inv_opt inv i_ws_path))) in
  let use_tcp_mux := default true (or_opt j.(j_use_tcp_mux) (i_use_tcp_mux <$> inv)) in
  pad_mode ← pad_mode_for "pad_mode" j.(j_pad_mode) inv pr;
  let proto := default (default 3 (i_proto <$> inv)) j.(j_proto) in
  if decide (proto <> 3) then bail "only Biba protocol 3 is supported" else
  let proto_domain := default (bs "default") (given (json_or_invite_str j.(j_proto_domain) (inv_opt inv i_proto_domain))) in
  from_invite ← invite_tls "invite tls" inv;
  tls_profile ← within "tls_profile" (resolve_tls_client_profile (given j.(j_fingerprint)) (given j.(j_tls_profile)) stealth from_invite);
  decoy_mode ← decoy_mode_for "decoy_mode" j.(j_decoy_mode) inv pr;
  desync_mode ← desync_mode_for "desync_mode" j.(j_desync_mode) inv;
  tcp_fooling ← tcp_fooling_for "tcp_fooling" j.(j_tcp_fooling) inv;
  tls_stack ← json_tls_stack j inv;
  socks_auth ← json_socks_auth j inv;
  '(target, key, sid) ← invite_reality inv;
  _ ← reality_complete target key sid;
  _ ← require_psk psk (client_reality_configured target key) false;
  Ok (json_options j inv stealth b token psk extra pinned jmin jmax ws_path
        use_tcp_mux pad_mode proto proto_domain tls_profile decoy_mode desync_mode tcp_fooling tls_stack socks_auth target key sid).

(** The bypass list of the process is replaced even when the settings are then refused. *)
Definition start_json_into_options (j : StartJson) : ST Globals err LocalClientOptions :=
  _ ← modify (set_bypass_domains j.(j_split_bypass_domains));
  lift (inv ← json_invite j; json_merge j inv).

Definition cli_invite (args : Args) : result (option InviteV1) :=
  if decide (is_Some args.(a_from_invite) <-> is_Some args.(a_invite_passphrase)) then
    match args.(a_from_invite) with
    | Some uri =>
      match args.(a_invite_passphrase) with
      | Some pass => i ← within "decode --from-invite" (decode_invite_v1 aead b3 codecs argon2 uri pass); Ok (Some i)
      | None => Panic
      end
    | None => Ok None
    end
  else bail "use --from-invite and --invite-passphrase together".
(** The files of [--pin-cert] are read one after the other, with a line feed after each. *)
Definition cli_pinned (read_file : str -> option bytes) (args : Args) (inv : option InviteV1) : result (option bytes) :=
  match args.(a_pin_cert) with
  | [] => Ok (given (inv_opt inv i_pin_cert_pem))
  | paths => parts ← each (fun p => context "read --pin-cert"%string (read_file p)) paths; Ok (Some (concat ((fun b => b ++ [10]) <$> parts)))
  end.
Definition cli_reality_key (args : Args) (inv : option InviteV1) : result (option bytes) :=
  match args.(a_reality_public_key), inv with
  | Some s, _ =>
    b ← context "decode --reality-public-key (base64)"%string (codecs.(std_decode) (trim s));
    if decide (len b <> 32) then bail "reality public key must be 32 bytes" else Ok (Some b)
  | None, Some i => within "invite reality_public_key" (reality_public_key_parsed codecs i)
  | None, None => Ok None
  end.
Definition cli_short_id (args : Args) (inv : option InviteV1) : result (option bytes) :=
  match args.(a_reality_short_id), inv with
  | Some s, _ =>
    b ← context "decode --reality-short-id (hex)"%string (codecs.(hex_decode) (trim s));
    if decide (len b <> 8) then bail "short id must be 8 bytes (16 hex digits)" else Ok (Some b)
  | None, Some i => within "invite reality_short_id" (reality_short_id_parsed codecs i)
  | None, None => Ok None
  end.

Definition cli_options (args : Args) (inv : option InviteV1) (stealth : option StealthProfile) (b : Basics) (token : str)
    (psk : option str) (extra : list (str * str)) (pinned : option bytes) (jmin jmax : Z) (ws_path : str) (use_tcp_mux : bool)
    (pad_mode : PadMode) (proto : Z) (proto_domain : str) (tls_profile : TlsClientProfile) (decoy_mode : DecoyMode)
    (desync_mode : DesyncMode) (tcp_fooling : TcpFooling) (tls_stack : TlsStack) (socks_auth : option (str * str))
    (target : option str) (key sid : option bytes) : LocalClientOptions :=
  let pr := preset <$> stealth in
  {| o_server_host := b.(b_host); o_server_port := b.(b_port);
    o_sni := effective_tls_sni b.(b_sni) target; o_token := token;
    o_socks_bind := default args.(a_socks5) (given (inv_opt inv i_socks_bind));
    o_socks_auth := socks_auth;
    o_http_proxy_bind := or_opt args.(a_http_proxy) (inv_opt inv i_http_proxy);
    o_insecure_tls := b.(b_insecure_tls); o_max_pad := b.(b_max_pad); o_junk_frames := b.(b_junk_frames);
    o_early_ws_frames := b.(b_early_ws_frames); o_psk := psk; o_decoy_max := b.(b_decoy_max);
    o_ws_host := or_opt args.(a_ws_host) (inv_opt inv i_ws_host);
    o_ws_origin := or_opt args.(a_ws_origin) (inv_opt inv i_ws_origin);
    o_ws_user_agent := or_opt args.(a_ws_user_agent) (inv_opt inv i_ws_user_agent);
    o_ws_accept_language := or_opt args.(a_ws_accept_language) (inv_opt inv i_ws_accept_language);
    o_ws_extra_headers := extra; o_max_ws_binary := b.(b_max_ws_binary); o_ws_ping_secs := b.(b_ws_ping_secs);
    o_ws_ping_jitter_percent := b.(b_ws_ping_jitter_percent);
    o_ws_binary_send_jitter_ms := b.(b_ws_binary_send_jitter_ms);
    o_ws_jitter_min_ms := jmin; o_ws_jitter_max_ms := jmax;
    o_udp_max_pad := b.(b_udp_max_pad); o_udp_max_ws_binary := b.(b_udp_max_ws_binary);
    o_udp_mux_reply_timeout_secs := b.(b_udp_mux_reply_timeout_secs);
    o_tls_profile := tls_profile; o_pinned_certs_pem := pinned; o_ws_path := ws_path; o_use_tcp_mux := use_tcp_mux;
    o_pad_mode := pad_mode; o_dummy_interval_secs := dummy_interval_for args.(a_dummy_interval_secs) inv pr;
    o_decoy_gets := cli_decoy_gets args inv pr;
    o_decoy_gets_interval_secs := arg_or args "decoy_gets_interval_secs" args.(a_decoy_gets_interval_secs) inv i_decoy_gets_interval_secs;
    o_decoy_gets_paths := decoy_paths_for args.(a_decoy_gets_paths) inv;
    o_proto := proto; o_proto_domain := proto_domain;
    o_reality_target := target; o_reality_public_key := key; o_reality_short_id := sid;
    o_decoy_mode := decoy_mode; o_desync_mode := desync_mode; o_tcp_fooling := tcp_fooling;
    o_tls_fragment := arg_or args "tls_fragment" args.(a_tls_fragment) inv i_tls_fragment;
    o_ws_parallel := arg_or args "ws_parallel" args.(a_ws_parallel) inv i_ws_parallel;
    o_mux_window_mib := args.(a_mux_window_mib);
    o_idle_decoy_secs := merge_idle_decoy_secs (or_opt args.(a_idle_decoy_secs) (inv_opt inv i_idle_decoy_secs)) pr;
    o_stealth_profile := stealth; o_tls_stack := tls_stack |}.

Definition cli_merge (read_file : str -> option bytes) (args : Args) (inv : option InviteV1) : result LocalClientOptions :=
  b ← cli_basics args inv;
  token ← cli_token args inv;
  let proto := match inv with Some i => i.(i_proto) | None => args.(a_proto) end in
  if decide (proto <> 3) then bail "only Biba protocol v3 is supported" else
  _ ← (if bool_decide (is_Some inv) && negb args.(a_lab) then validate_resolved_token token else Ok tt);
  stealth ← within "stealth profile" (stealth_for "--stealth-profile" args.(a_stealth_profile) inv);
  let pr := preset <$> stealth in
  let explicit_jitter := args.(explicit) "ws_jitter_min_ms" || args.(explicit) "ws_jitter_max_ms"
    || args.(explicit) "ws_binary_send_jitter_ms" in
  let '(jmin, jmax) := apply_preset_ws_jitter (if explicit_jitter then None else pr)
    (arg_or args "ws_jitter_min_ms" args.(a_ws_jitter_min_ms) inv i_ws_jitter_min_ms)
    (arg_or args "ws_jitter_max_ms" args.(a_ws_jitter_max_ms) inv i_ws_jitter_max_ms) in
  from_invite ← invite_tls "invite TLS profile" inv;
  tls_profile ← within "tls profile resolution" (resolve_tls_client_profile args.(a_fingerprint) args.(a_tls_profile) stealth from_invite);
  let ws_path := normalize_ws_path (default (bs "/ws") (or_opt args.(a_ws_path) (inv_opt inv i_ws_path))) in
  let use_tcp_mux := if args.(a_no_mux) then false else default true (i_use_tcp_mux <$> inv) in
  pad_mode ← pad_mode_for "--pad-mode" args.(a_pad_mode) inv pr;
  pinned ← cli_pinned read_file args inv;
  key ← cli_reality_key args inv;
  sid ← cli_short_id args inv;
  let target := or_opt args.(a_reality_target) (inv_opt inv i_reality_target) in
  _ ← reality_complete target key sid;
  let psk := match inv with Some i => i.(i_psk) | None => args.(a_psk) end in
  let proto_domain := match inv with Some i => default [] i.(i_proto_domain) | None => args.(a_proto_domain) end in
  _ ← require_psk psk (client_reality_configured target key) args.(a_lab);
  decoy_mode ← decoy_mode_for "--decoy-mode" args.(a_decoy_mode) inv pr;
  desync_mode ← desync_mode_for "--desync-mode" args.(a_desync_mode) inv;
  tcp_fooling ← tcp_fooling_for "--tcp-fooling" args.(a_tcp_fooling) inv;
  tls_stack ← cli_tls_stack args inv;
  socks_auth ← match inv with Some i => invite_socks_auth i | None => Ok None end;
  extra ← ws_headers_for inv args.(a_ws_headers);
  Ok (cli_options args inv stealth b token psk extra pinned jmin jmax ws_path
        use_tcp_mux pad_mode proto proto_domain tls_profile decoy_mode desync_mode tcp_fooling tls_stack socks_auth target key sid).

Definition options_from_args (read_file : str -> option bytes) (args : Args) : result LocalClientOptions :=
  inv ← cli_invite args;
  cli_merge read_file args inv.

(** ** The JSON text *)

(** [serde_json]: reading and writing a [Value], and reading the text into [StartJson], whose fields are those of the object. *)
Record JsonText := {
  Value : Type;
  string_value : str -> Value;
  read_value : str -> option (option (gmap str Value));
  write_object : gmap str Value -> str;
  read_start : str -> option StartJson;
  start_socks o j s : read_start (write_object o) = Some j -> o !! bs "socks_bind" = Some (string_value s) -> j.(j_socks_bind) = s;
  start_proxy o j s : read_start (write_object o) = Some j -> o !! bs "http_proxy" = Some (string_value s) -> j.(j_http_proxy) = Some s;
  start_no_proxy o j : read_start (write_object o) = Some j -> o !! bs "http_proxy" = None -> j.(j_http_proxy) = None;
}.

Definition local_client_options_from_json_str (text : JsonText) (s : str) : ST Globals err LocalClientOptions :=
  j ← lift (context "start JSON"%string (text.(read_start) s));
  _ ← lift (level_directive (default (bs "info") j.(j_log_level)));
  _ ← lift (within "log_format" (log_format_from_str (default (bs "plain") j.(j_log_format))));
  start_json_into_options j.

Definition local_client_options_from_json_str_with_binds (text : JsonText) (json socks_bind : str) (http_proxy_bind : option str) :
    ST Globals err LocalClientOptions :=
  v ← lift (context "start JSON"%string (text.(read_value) json));
  obj ← lift (context "config JSON must be an object"%string v);
  let obj := <[bs "socks_bind" := text.(string_value) socks_bind]> obj in
  let obj := match http_proxy_bind with
             | Some h => <[bs "http_proxy" := text.(string_value) h]> obj
             | None => delete (bs "http_proxy") obj
             end in
  local_client_options_from_json_str text (text.(write_object) obj).
End FrontEnds.

(** ** Lemmas *)

Lemma within_Ok {A} c (r : result A) a : within c r = Ok a <-> r = Ok a.
Proof. unfold within. by destruct r; simpl; split; intros; simplify_eq. Qed.
Lemma if_bail_Ok {A} (P : Prop) `{Decision P} (e : err) (r : result A) a : (if decide P then Err e else r) = Ok a <-> ~ P /\ r = Ok a.
Proof. case_decide; naive_solver. Qed.

(** Takes apart what a chain of fallible steps computed. *)
Ltac peel H :=
  repeat match type of H with
  | (_ ≫= _) = Ok _ => let y := fresh "y" in let E := fresh "E" in apply bind_Ok in H as (y & E & H);
    repeat first [apply within_Ok in E | apply context_Ok in E]
  | within _ _ = Ok _ => apply within_Ok in H
  | Prelude.context _ _ = Ok _ => apply context_Ok in H
  | (if decide _ then Err _ else _) = Ok _ => let N := fresh "N" in apply if_bail_Ok in H as [N H]
  | (let '(_, _) := ?p in _) = Ok _ => let x := fresh "p" in let y := fresh "p" in destruct p as [x y] eqn:?
  end.

(** What every accepted set of options satisfies; [lab] relaxes the secrets. *)
Record options_ok (lab : bool) (o : LocalClientOptions) : Prop := {
  ok_proto : o.(o_proto) = 3;
  ok_host : o.(o_server_host) <> [];
  ok_port : is_u16 o.(o_server_port);
  ok_path : starts_with o.(o_ws_path) (bs "/") = true;
  ok_token : lab = false -> is_token_denylisted o.(o_token) = false;
  ok_secret : lab = false -> non_empty_str o.(o_psk) = true \/ client_reality_configured o.(o_reality_target) o.(o_reality_public_key) = true;
  ok_reality : is_Some o.(o_reality_target) <-> is_Some o.(o_reality_public_key);
  ok_short_id : is_Some o.(o_reality_short_id) -> is_Some o.(o_reality_public_key);
  ok_key_len k : o.(o_reality_public_key) = Some k -> len k = 32;
  ok_id_len s : o.(o_reality_short_id) = Some s -> len s = 8;
}.

Lemma ws_path_slash s : starts_with (normalize_ws_path s) (bs "/") = true.
Proof. unfold normalize_ws_path. case_decide; [done|]. destruct (starts_with (trim s) (bs "/")) eqn:E; [done|]. apply starts_with_app. Qed.

Lemma parse_host_port_Ok s h p : parse_host_port s = Ok (h, p) -> h <> [] /\ is_u16 p.
Proof.
  unfold parse_host_port. destruct (rsplit_once 58 (trim s)) as [[a b]|]; [|done].
  intros H. peel H. simplify_eq. split; [done|]. apply parse_uint_bound in E; [|done]. unfold U16_MAX in E. unfold is_u16. lia.
Qed.

Lemma denylisted_trim t : is_token_denylisted (trim t) = is_token_denylisted t.
Proof. unfold is_token_denylisted. by rewrite trim_idemp. Qed.
Lemma validate_token_Ok t : validate_resolved_token t = Ok tt -> is_token_denylisted t = false.
Proof.
  unfold validate_resolved_token. intros [_ H]%if_bail_Ok. rewrite <- denylisted_trim. by destruct (is_token_denylisted (trim t)).
Qed.
Lemma resolve_token_Ok t lab u : resolve_cli_token t lab = Ok u -> lab = false -> is_token_denylisted u = false.
Proof.
  unfold resolve_cli_token. intros H ->. peel H. destruct (is_token_denylisted (trim y)) eqn:Hd; [done|]. by apply Ok_inj in H as <-.
Qed.

Lemma require_psk_Ok psk r lab : require_psk psk r lab = Ok tt -> lab = false -> non_empty_str psk = true \/ r = true.
Proof. unfold require_psk. intros H ->. destruct (non_empty_str psk), r; auto; done. Qed.

Lemma reality_complete_Ok t k s :
  reality_complete t k s = Ok tt -> (is_Some t <-> is_Some k) /\ (is_Some s -> is_Some k).
Proof.
  unfold reality_complete. repeat case_bool_decide; simpl; try done; naive_solver.
Qed.

Lemma key_parsed_len codecs i k : reality_public_key_parsed codecs i = Ok (Some k) -> len k = 32.
Proof.
  unfold reality_public_key_parsed. destruct (given _); [|done]. intros H. peel H. simplify_eq. by apply dec_stable.
Qed.
Lemma id_parsed_len codecs i k : reality_short_id_parsed codecs i = Ok (Some k) -> len k = 8.
Proof.
  unfold reality_short_id_parsed. destruct (given _); [|done]. intros H. peel H. simplify_eq. by apply dec_stable.
Qed.

Lemma json_basics_Ok j inv b : json_basics j inv = Ok b -> b.(b_host) <> [] /\ is_u16 b.(b_port).
Proof.
  unfold json_basics. intros H. destruct inv; peel H; simplify_eq; simpl; by eapply parse_host_port_Ok.
Qed.
Lemma cli_basics_Ok args inv b : cli_basics args inv = Ok b -> b.(b_host) <> [] /\ is_u16 b.(b_port).
Proof.
  unfold cli_basics. intros H. destruct inv as [i|]; [|destruct (a_server args); [|done]]; peel H; simplify_eq; simpl;
  by eapply parse_host_port_Ok.
Qed.
Lemma json_ws_parallel_range j inv : 1 <= json_ws_parallel j inv <= 4.
Proof. unfold json_ws_parallel, clamp. repeat case_match; repeat case_decide; lia. Qed.

(** None of the readers of names and texts panics. *)
Lemma safe_within {A} c (r : result A) : safe r -> safe (within c r).
Proof. apply safe_map_err. Qed.
Lemma safe_each {A B} (f : A -> result B) l : (forall x, safe (f x)) -> safe (each f l).
Proof. intros Hf. induction l as [|x l IH]; simpl; repeat safe_step; done. Qed.
Ltac names := intros; repeat first [done | case_match | safe_step].
Lemma safe_stealth s : safe (stealth_profile_from_str s).
Proof. unfold stealth_profile_from_str. names. Qed.
Lemma safe_decoy s : safe (decoy_mode_from_str s).
Proof. unfold decoy_mode_from_str. names. Qed.
Lemma safe_desync s : safe (desync_mode_from_str s).
Proof. unfold desync_mode_from_str. names. Qed.
Lemma safe_fooling s : safe (tcp_fooling_from_str s).
Proof. unfold tcp_fooling_from_str. names. Qed.
Lemma safe_stack s : safe (tls_stack_from_str s).
Proof. unfold tls_stack_from_str. names. Qed.
Lemma safe_profile s : safe (tls_profile_from_str s).
Proof. unfold tls_profile_from_str. names. Qed.
Lemma safe_pad_mode s : safe (pad_mode_from_str s).
Proof. unfold pad_mode_from_str. names. Qed.
Lemma safe_host_port s : safe (parse_host_port s).
Proof. unfold parse_host_port. names. Qed.
Lemma safe_ws_header s : safe (parse_ws_header s).
Proof. unfold parse_ws_header. names. Qed.
Lemma safe_named {A} (parse : str -> result A) c ci f i d : (forall s, safe (parse s)) -> safe (named parse c ci f i d).
Proof. intros Hp. unfold named. repeat case_match; try done; by apply safe_within. Qed.
#[export] Hint Resolve safe_within safe_each safe_stealth safe_decoy safe_desync safe_fooling safe_stack safe_profile safe_pad_mode
  safe_host_port safe_ws_header safe_named : safe.

Lemma safe_stealth_for c f inv : safe (stealth_for c f inv).
Proof. apply safe_named. intros s. repeat safe_step. Qed.
Lemma safe_pad_mode_for c f inv pr : safe (pad_mode_for c f inv pr).
Proof. unfold pad_mode_for. repeat first [safe_step | apply safe_within]. Qed.
Lemma safe_decoy_for c f inv pr : safe (decoy_mode_for c f inv pr).
Proof. apply safe_named, safe_decoy. Qed.
Lemma safe_desync_for c f inv : safe (desync_mode_for c f inv).
Proof. apply safe_named, safe_desync. Qed.
Lemma safe_fooling_for c f inv : safe (tcp_fooling_for c f inv).
Proof. apply safe_named, safe_fooling. Qed.
Lemma safe_headers inv l : safe (ws_headers_for inv l).
Proof. unfold ws_headers_for. repeat first [safe_step | apply safe_each; intros | apply safe_within]. Qed.
Lemma safe_invite_tls c inv : safe (invite_tls c inv).
Proof. unfold invite_tls, tls_profile_from_invite. repeat first [safe_step | apply safe_within]. Qed.
Lemma safe_resolve_tls f t s i : safe (resolve_tls_client_profile f t s i).
Proof. unfold resolve_tls_client_profile. repeat safe_step. Qed.
Lemma safe_token t : safe (validate_resolved_token t).
Proof. unfold validate_resolved_token. repeat safe_step. Qed.
Lemma safe_psk p r lab : safe (require_psk p r lab).
Proof. unfold require_psk. by destruct (_ || _). Qed.
Lemma safe_reality_complete t k s : safe (reality_complete t k s).
Proof. unfold reality_complete. by repeat case_match. Qed.
Lemma safe_invite_auth i : safe (invite_socks_auth i).
Proof. unfold invite_socks_auth. by repeat case_match. Qed.
Lemma safe_key_parsed codecs i : safe (reality_public_key_parsed codecs i).
Proof. unfold reality_public_key_parsed. repeat safe_step. Qed.
Lemma safe_id_parsed codecs i : safe (reality_short_id_parsed codecs i).
Proof. unfold reality_short_id_parsed. repeat safe_step. Qed.
#[export] Hint Resolve safe_stealth_for safe_pad_mode_for safe_decoy_for safe_desync_for safe_fooling_for safe_headers safe_invite_tls
  safe_resolve_tls safe_token safe_psk safe_reality_complete safe_invite_auth safe_key_parsed safe_id_parsed : safe.

Ltac settled := repeat first [done | progress auto with safe | safe_step | apply safe_within].

Lemma safe_json_merge codecs j inv : safe (json_merge codecs j inv).
Proof.
  assert (safe (json_basics j inv)) by (unfold json_basics; settled).
  assert (safe (json_token j inv)) by (unfold json_token; settled).
  assert (safe (json_psk j inv)) by (unfold json_psk; settled).
  assert (safe (json_tls_stack j inv)) by (unfold json_tls_stack; settled).
  assert (safe (json_socks_auth j inv)) by (unfold json_socks_auth; settled).
  assert (safe (invite_reality codecs inv)) by (unfold invite_reality; settled).
  unfold json_merge. settled.
Qed.

Lemma safe_cli_merge codecs read_file args inv :
  is_Some args.(a_server) \/ is_Some inv -> safe (cli_merge codecs read_file args inv).
Proof.
  intros Hs.
  assert (safe (cli_basics args inv)) by (unfold cli_basics; destruct inv, (a_server args); settled; by destruct Hs as [[]|[]]).
  assert (safe (cli_token args inv)) by (unfold cli_token, resolve_cli_token; settled).
  assert (safe (cli_tls_stack args inv)) by (unfold cli_tls_stack; settled).
  assert (safe (cli_pinned read_file args inv)).
  { unfold cli_pinned. settled; apply safe_each; intros; settled. }
  assert (safe (cli_reality_key codecs args inv)) by (unfold cli_reality_key; settled).
  assert (safe (cli_short_id codecs args inv)) by (unfold cli_short_id; settled).
  unfold cli_merge. settled.
Qed.

Section Sound.
Context (aead : Aead) (b3 : Blake3) (codecs : Codecs) (argon2 : Argon2).

Lemma json_merge_Ok j inv o :
  json_merge codecs j inv = Ok o -> options_ok false o /\ 1 <= o.(o_ws_parallel) <= 4.
Proof using.
  unfold json_merge. intros H. peel H. apply Ok_inj in H as <-. split; [|apply json_ws_parallel_range].
  destruct (json_basics_Ok _ _ _ E0) as [Hh Hp]. destruct y2, y14, y15.
  assert ((forall x, p4 = Some x -> len x = 32) /\ (forall x, p2 = Some x -> len x = 8)) as [Hk Hs].
  { unfold invite_reality in E13. destruct inv as [i|]; peel E13; simplify_eq; [|done].
    split; intros x ->; [by eapply key_parsed_len|by eapply id_parsed_len]. }
  apply reality_complete_Ok in E14 as [Hr Hi].
  constructor; simpl; [by apply dec_stable|done|done|apply ws_path_slash|intros _; by apply validate_token_Ok| |done..].
  by apply require_psk_Ok.
Qed.

Lemma cli_merge_Ok read_file args inv o :
  cli_merge codecs read_file args inv = Ok o -> options_ok args.(a_lab) o.
Proof using.
  unfold cli_merge. intros H. peel H. apply Ok_inj in H as <-.
  destruct (cli_basics_Ok _ _ _ E) as [Hh Hp]. destruct y1, y9, y10.
  assert ((forall x, y7 = Some x -> len x = 32) /\ (forall x, y8 = Some x -> len x = 8)) as [Hk Hs].
  { unfold cli_reality_key, cli_short_id in *. split; intros x ->.
    - destruct (a_reality_public_key args); [peel E7; simplify_eq; by apply dec_stable|].
      destruct inv; [apply within_Ok in E7; by eapply key_parsed_len|done].
    - destruct (a_reality_short_id args); [peel E8; simplify_eq; by apply dec_stable|].
      destruct inv; [apply within_Ok in E8; by eapply id_parsed_len|done]. }
  apply reality_complete_Ok in E9 as [Hr Hi].
  constructor; simpl; [by apply dec_stable|done|done|apply ws_path_slash| | |done..].
  - intros Hl. rewrite Hl in E1. unfold cli_token in E0. destruct inv; simpl in E1; [by apply validate_token_Ok|].
    by apply resolve_token_Ok in E0.
  - by apply require_psk_Ok.
Qed.

End Sound.

(** ** The settings of an invite alone *)

(** The JSON that has nothing but the invite, and the command line that has nothing but the invite. *)
Definition json_of (uri pass : str) : StartJson :=
  {| j_server := []; j_token := None; j_sni := None; j_socks_bind := default_socks; j_socks_auth_user := None;
     j_socks_auth_password := None; j_split_bypass_domains := []; j_http_proxy := None; j_insecure := false; j_max_pad := None;
     j_junk_frames := None; j_early_ws_frames := None; j_psk := None; j_decoy_max := None; j_ws_host := None;
     j_ws_origin := None; j_ws_user_agent := None; j_ws_accept_language := None; j_ws_headers := []; j_max_ws_binary := None;
     j_ws_ping_secs := None; j_from_invite := Some uri; j_invite_passphrase := Some pass; j_tls_profile := None;
     j_ws_ping_jitter_percent := None; j_ws_binary_send_jitter_ms := None; j_ws_jitter_min_ms := None;
     j_ws_jitter_max_ms := None; j_udp_max_pad := None; j_udp_max_ws_binary := None; j_udp_mux_reply_timeout_secs := None;
     j_pin_cert_pem := None; j_ws_path := None; j_use_tcp_mux := None; j_pad_mode := None; j_dummy_interval_secs := None;
     j_decoy_gets := None; j_decoy_gets_interval_secs := None; j_decoy_gets_paths := None; j_proto := None;
     j_proto_domain := None; j_decoy_mode := None; j_desync_mode := None; j_tcp_fooling := None; j_tls_fragment := false;
     j_ws_parallel := None; j_mux_window_mib := MuxWindow_default; j_idle_decoy_secs := None; j_stealth_profile := None;
     j_tls_stack := None; j_fingerprint := None; j_log_level := None; j_log_format := None |}.
Definition args_of (uri pass : str) : Args :=
  {| explicit _ := false; a_from_invite := Some uri; a_invite_passphrase := Some pass; a_server := None; a_token := None;
     a_lab := false; a_sni := None; a_socks5 := bs "127.0.0.1:1080"; a_http_proxy := None; a_insecure := false; a_pin_cert := [];
     a_max_pad := 64; a_junk_frames := 0; a_early_ws_frames := 0; a_psk := None; a_decoy_max := 0; a_ws_host := None;
     a_ws_origin := None; a_ws_user_agent := None; a_ws_accept_language := None; a_ws_headers := [];
     a_max_ws_binary := DEFAULT_CLIENT_MAX_WS_BINARY; a_ws_ping_secs := 25; a_ws_ping_jitter_percent := 0;
     a_ws_binary_send_jitter_ms := 0; a_ws_jitter_min_ms := 0; a_ws_jitter_max_ms := 0; a_udp_max_pad := None;
     a_udp_max_ws_binary := None; a_udp_mux_reply_timeout_secs := DEFAULT_UDP_MUX_REPLY_TIMEOUT_SECS; a_tls_profile := None;
     a_ws_path := None; a_no_mux := false; a_pad_mode := None; a_dummy_interval_secs := None; a_decoy_gets := false;
     a_decoy_gets_interval_secs := 30; a_decoy_gets_paths := None; a_proto := 3; a_proto_domain := bs "default";
     a_reality_public_key := None; a_reality_short_id := None; a_reality_target := None; a_fingerprint := None;
     a_stealth_profile := None; a_decoy_mode := None; a_desync_mode := None; a_tcp_fooling := None; a_tls_fragment := false;
     a_ws_parallel := 1; a_mux_window_mib := MuxWindow_default; a_idle_decoy_secs := None; a_tls_stack := bs "rustls" |}.

(** An invite whose texts are trimmed, that names its KDF domain and asks for one to four sessions. *)
Record tidy (i : InviteV1) : Prop := {
  tidy_sni : trim i.(i_sni) = i.(i_sni);
  tidy_domain : is_Some i.(i_proto_domain) /\ given i.(i_proto_domain) = i.(i_proto_domain);
  tidy_proxy : given i.(i_http_proxy) = i.(i_http_proxy);
  tidy_host : given i.(i_ws_host) = i.(i_ws_host);
  tidy_origin : given i.(i_ws_origin) = i.(i_ws_origin);
  tidy_agent : given i.(i_ws_user_agent) = i.(i_ws_user_agent);
  tidy_language : given i.(i_ws_accept_language) = i.(i_ws_accept_language);
  tidy_parallel : 1 <= i.(i_ws_parallel) <= 4;
}.

Lemma basics_agree uri pass i :
  trim i.(i_sni) = i.(i_sni) -> cli_basics (args_of uri pass) (Some i) = json_basics (json_of uri pass) (Some i).
Proof.
  intros Hs. unfold json_basics, cli_basics.
  assert (default (i_sni i) (json_or_invite_str (j_sni (json_of uri pass)) (Some (i_sni i))) = i_sni i) as ->.
  { unfold json_or_invite_str, given. cbn [j_sni json_of]. rewrite Hs. by case_decide. }
  done.
Qed.

(** Steps over a call whose result is known up to the context of its error. *)
Ltac run E :=
  match goal with |- (?m ≫= _) = _ =>
    match type of E with _ = Ok ?v =>
      let Q := fresh in assert (m = Ok v) as Q by first [exact E | apply within_Ok; exact E]; rewrite Q; clear Q; cbn [mbind res_bind]
    end
  end.

Lemma text_agrees (f : InviteV1 -> option str) i :
  given (f i) = f i -> or_opt None (inv_opt (Some i) f) = json_or_invite_str None (inv_opt (Some i) f).
Proof. intros Hf. change (f i = given (f i)). done. Qed.
Lemma domain_agrees i uri pass :
  tidy i -> default [] i.(i_proto_domain) =
  default (bs "default") (given (json_or_invite_str (j_proto_domain (json_of uri pass)) (inv_opt (Some i) i_proto_domain))).
Proof.
  intros Hi. destruct (tidy_domain i Hi) as [[d Hd] Hg]. change (default [] (i_proto_domain i) = default (bs "default") (given (given (i_proto_domain i)))).
  by rewrite Hg, Hg, Hd.
Qed.
Lemma parallel_agrees i uri pass : tidy i -> i.(i_ws_parallel) = json_ws_parallel (json_of uri pass) (Some i).
Proof. intros Hi. destruct (tidy_parallel i Hi). unfold json_ws_parallel, clamp. cbn. by repeat case_decide; try lia. Qed.

(** The two records of settings, field by field. *)
Ltac same_fields Hi :=
  f_equal; unfold json_options, cli_options; f_equal; try reflexivity;
  try (first [apply domain_agrees|apply parallel_agrees|symmetry; first [apply domain_agrees|apply parallel_agrees]]; exact Hi);
  first [by apply text_agrees, Hi | symmetry; by apply text_agrees, Hi].

Lemma json_to_cli codecs read_file uri pass i o :
  tidy i -> json_merge codecs (json_of uri pass) (Some i) = Ok o -> cli_merge codecs read_file (args_of uri pass) (Some i) = Ok o.
Proof.
  intros Hi H. unfold json_merge in H. peel H. apply Ok_inj in H as <-.
  unfold cli_merge. rewrite basics_agree by apply Hi. run E0. run E1. guard_no. run E2. run E.
  unfold json_jitter in Heqp. cbn in Heqp. cbn [explicit args_of orb arg_or]. rewrite Heqp.
  run E6. run E7. run E5. cbn [mbind res_bind cli_pinned args_of a_pin_cert].
  unfold invite_reality in E13. peel E13. apply Ok_inj in E13. simplify_eq. run E16. run E17. run E14.
  change (@Ok err _ (i_psk i) = Ok y3) in E3. apply Ok_inj in E3 as <-. run E15.
  run E8. run E9. run E10. run E11. run E12. run E4. same_fields Hi.
Qed.

Lemma cli_to_json codecs read_file uri pass i o :
  tidy i -> cli_merge codecs read_file (args_of uri pass) (Some i) = Ok o -> json_merge codecs (json_of uri pass) (Some i) = Ok o.
Proof.
  intros Hi H. unfold cli_merge in H. rewrite basics_agree in H by apply Hi. peel H. apply Ok_inj in H as <-.
  unfold json_merge. run E2. run E. run E0. run E1.
  assert (json_psk (json_of uri pass) (Some i) = Ok i.(i_psk)) as Hp by done. run Hp. run E16.
  change (json_jitter (json_of uri pass) (Some i) (preset <$> y2) = (p, p0)) in Heqp. rewrite Heqp. run E5.
  rewrite (decide_False (P := default _ _ <> 3)) by exact N. run E3. run E4. run E11. run E12. run E13. run E14. run E15.
  assert (invite_reality codecs (Some i) = Ok (i.(i_reality_target), y7, y8)) as Hr.
  { unfold invite_reality. run E7. by run E8. }
  run Hr. run E9. run E10. apply Ok_inj in E6 as <-. same_fields Hi.
Qed.

(** C16: An invite means the same to both front ends: on the command line and as JSON, with nothing else given, a tidy invite is accepted
    by both or by neither, and gives the same settings. *)
Theorem front_ends_agree aead b3 codecs argon2 read_file uri pass i g o :
  trim uri = uri -> uri <> [] -> trim pass = pass -> pass <> [] ->
  decode_invite_v1 aead b3 codecs argon2 uri pass = Ok i -> tidy i ->
  snd (start_json_into_options aead b3 codecs argon2 (json_of uri pass) g) = Ok o <->
  options_from_args aead b3 codecs argon2 read_file (args_of uri pass) = Ok o.
Proof.
  intros Hu Hu' Hp Hp' Hd Hi.
  assert (json_invite aead b3 codecs argon2 (json_of uri pass) = Ok (Some i)) as Hj.
  { unfold json_invite, given. cbn [j_from_invite j_invite_passphrase json_of]. rewrite Hu, Hp, !decide_False by done. by rewrite Hd. }
  assert (cli_invite aead b3 codecs argon2 (args_of uri pass) = Ok (Some i)) as Hc.
  { unfold cli_invite. cbn [a_from_invite a_invite_passphrase args_of]. by rewrite Hd. }
  unfold start_json_into_options, options_from_args. rewrite Hc. cbn [mbind st_bind modify lift snd]. rewrite Hj. cbn [mbind res_bind].
  split; [by apply json_to_cli|by apply cli_to_json].
Qed.

(** C15: Whatever the JSON or the command line says, settings that are accepted speak protocol 3, name a host, carry a token that is not a
    placeholder and a key (a PSK, or REALITY's target and public key of 32 bytes, both or neither) unless the laboratory switch is
    set, and ask for one to four sessions when they come from JSON; reading them never panics. *)
Theorem options_wellformed aead b3 codecs argon2 read_file :
  (forall j g, let '(g', r) := start_json_into_options aead b3 codecs argon2 j g in
     g' = set_bypass_domains j.(j_split_bypass_domains) g /\ safe r /\
     forall o, r = Ok o -> options_ok false o /\ 1 <= o.(o_ws_parallel) <= 4) /\
  (forall args, is_Some args.(a_server) \/ is_Some args.(a_from_invite) ->
     safe (options_from_args aead b3 codecs argon2 read_file args) /\
     forall o, options_from_args aead b3 codecs argon2 read_file args = Ok o -> options_ok args.(a_lab) o).
Proof.
  split.
  - intros j g. unfold start_json_into_options. cbn [mbind st_bind modify lift]. split; [done|]. split.
    + apply safe_bind; [|intros; apply safe_json_merge].
      unfold json_invite. settled. apply safe_decode_invite.
    + intros o (inv & _ & H)%bind_Ok. by apply json_merge_Ok in H.
  - intros args Ha. split.
    + unfold options_from_args. apply safe_bind.
      { unfold cli_invite. case_decide as Hi; [|done]. destruct (a_from_invite args), (a_invite_passphrase args); settled.
        - apply safe_decode_invite.
        - by destruct (proj1 Hi ltac:(done)). }
      intros inv Hinv. apply safe_cli_merge. destruct Ha as [Ha|[u Hu]]; [by left|right].
      unfold cli_invite in Hinv. case_decide; [|done]. rewrite Hu in Hinv. destruct (a_invite_passphrase args); [|done]. peel Hinv. simplify_eq. done.
    + intros o H. unfold options_from_args in H. peel H. by apply cli_merge_Ok in H.
Qed.

(** A command line with a server, a token and a PSK, and one with a token that is a placeholder. *)
Definition sample_args (token : str) : Args :=
  {| explicit _ := false; a_from_invite := None; a_invite_passphrase := None; a_server := Some (bs "vpn.example:443");
     a_token := Some token; a_lab := false; a_sni := None; a_socks5 := bs "127.0.0.1:1080"; a_http_proxy := None;
     a_insecure := false; a_pin_cert := []; a_max_pad := 64; a_junk_frames := 0; a_early_ws_frames := 0;
     a_psk := Some (bs "0123456789abcdef0123456789abcdef"); a_decoy_max := 0; a_ws_host := None; a_ws_origin := None;
     a_ws_user_agent := None; a_ws_accept_language := None; a_ws_headers := []; a_max_ws_binary := 262144; a_ws_ping_secs := 25;
     a_ws_ping_jitter_percent := 0; a_ws_binary_send_jitter_ms := 0; a_ws_jitter_min_ms := 0; a_ws_jitter_max_ms := 0;
     a_udp_max_pad := None; a_udp_max_ws_binary := None; a_udp_mux_reply_timeout_secs := 130; a_tls_profile := None;
     a_ws_path := None; a_no_mux := false; a_pad_mode := None; a_dummy_interval_secs := None; a_decoy_gets := false;
     a_decoy_gets_interval_secs := 30; a_decoy_gets_paths := None; a_proto := 3; a_proto_domain := bs "default";
     a_reality_public_key := None; a_reality_short_id := None; a_reality_target := None; a_fingerprint := None;
     a_stealth_profile := Some (bs "balanced"); a_decoy_mode := None; a_desync_mode := None; a_tcp_fooling := None; a_tls_fragment := false;
     a_ws_parallel := 1; a_mux_window_mib := MuxWindow_default; a_idle_decoy_secs := None; a_tls_stack := bs "rustls" |}.

Lemma options_wellformed_witness :
  let run t := options_from_args plain_aead zero_blake3 sample_codecs sample_kdf (fun _ => None) (sample_args t) in
  (exists o, run (bs "t0k3n-for-alice") = Ok o /\ o.(o_pad_mode) = Adaptive /\ o.(o_idle_decoy_secs) = 10 /\ options_ok false o) /\
  is_ok (run (bs "Change-Me")) = false.
Proof.
  destruct (options_wellformed plain_aead zero_blake3 sample_codecs sample_kdf (fun _ => None)) as [_ H].
  destruct (H (sample_args (bs "t0k3n-for-alice")) (or_introl (mk_is_Some _ _ eq_refl))) as [_ Ho].
  split; [|vm_compute; reflexivity].
  eexists. split; [vm_compute; reflexivity|]. split; [reflexivity|]. split; [reflexivity|]. apply Ho. vm_compute. reflexivity.
Defined.

Definition sample_uri : str := PREFIX ++ letters ([1] ++ replicate 12 0 ++ [1] ++ replicate 16 0).
Lemma front_ends_agree_witness :
  exists o, options_from_args plain_aead zero_blake3 sample_codecs sample_kdf (fun _ => None) (args_of sample_uri (bs "pass")) = Ok o /\
    snd (start_json_into_options plain_aead zero_blake3 sample_codecs sample_kdf (json_of sample_uri (bs "pass"))
           {| global_map := ∅; global_bypass := [] |}) = Ok o.
Proof.
  eexists. split; [vm_compute; reflexivity|].
  apply (front_ends_agree plain_aead zero_blake3 sample_codecs sample_kdf (fun _ => None) sample_uri (bs "pass") (sample_invite 1));
    try (vm_compute; reflexivity); try (vm_compute; discriminate).
  constructor; try reflexivity; [split; [by eexists|reflexivity]|vm_compute; by split].
Defined.

(** The binds that are asked for are used, except that an invite with a SOCKS bind of its own keeps it. *)
Lemma binds_applied aead b3 codecs argon2 text json socks http g g' o :
  local_client_options_from_json_str_with_binds aead b3 codecs argon2 text json socks http g = (g', Ok o) ->
  exists inv, o.(o_socks_bind) = default socks (given (inv_opt inv i_socks_bind)) /\
    o.(o_http_proxy_bind) = json_or_invite_str http (inv_opt inv i_http_proxy).
Proof.
  unfold local_client_options_from_json_str_with_binds, local_client_options_from_json_str, lift.
  intros (s1 & v & [= <- Hv] & (s2 & obj & [= <- Hobj] & H)%st_bind_Ok)%st_bind_Ok.
  apply st_bind_Ok in H as (s3 & j & [= <- Hj] & (s4 & l & [= <- Hl] & (s5 & f & [= <- Hf] & H)%st_bind_Ok)%st_bind_Ok).
  unfold start_json_into_options in H. cbn [mbind st_bind modify lift] in H.
  injection H as _ H. apply bind_Ok in H as (inv & _ & H). apply context_Ok in Hj.
  exists inv. unfold json_merge in H. peel H. apply Ok_inj in H as <-. cbn [o_socks_bind o_http_proxy_bind json_options].
  assert (j_socks_bind j = socks) as ->.
  { apply (start_socks text _ _ _ Hj). destruct http; [rewrite lookup_insert_ne by done|rewrite lookup_delete_ne by done]; by rewrite lookup_insert_eq. }
  assert (j_http_proxy j = http) as ->; [|done].
  destruct http; [apply (start_proxy text _ _ _ Hj), lookup_insert_eq|apply (start_no_proxy text _ _ Hj), lookup_delete_eq].
Qed.
