(* ===== verification/BypassDomains.v ===== *)
(** The desktop application's split-tunnel lists ([bypass_domains.rs], [split_tunnel.rs] of [apps/bibavpn-desktop]): presets of domains
    and Android packages from the control plane, cleaned, kept in memory and on disk, and handed to the proxy settings of the
    system and to the tunnel. The readers of JSON and of URLs, the HTTP client and the file system are parameters. *)
From Stdlib Require Import Sorting.Sorted.
From S2P Require Import Prelude Text DomainRoute.

Definition DEFAULT_TTL_SEC : Z := 86400.
Definition MIN_TTL_SEC : Z := 3600.
Definition MAX_TTL_SEC : Z := 30 * 86400.
Definition MAX_RESPONSE_BYTES : Z := 8 * 1024 * 1024.
Definition MAX_DOMAIN_LEN : Z := 512.
Definition MAX_ANDROID_PACKAGE_LEN : Z := 255.
Definition MAX_SPLIT_DOMAINS : Z := 4096.
Definition MAX_SPLIT_PACKAGES : Z := 512.
Definition FALLBACK_PRESET_IDS : list str := bs <$>
  ["gosuslugi"; "gov"; "max"; "vk"; "media"; "entertainment"; "banks"; "tinkoff"; "sber"; "yandex_bank"; "banki"; "bog"; "vtb"; "alfa";
   "ecommerce"; "retail"; "ozon"; "yandex_market"; "steam"; "games"; "yandex_taxi"; "yandex_vezet"; "deliveryclub"; "yandex_eda";
   "yandex_lavka"; "samokat"; "travel"; "yandex"; "medicine"; "ru_all"]%string.

Record BypassPresetInfo := {
  p_id : str;
  p_label : str;
  p_source : option str;
  p_domains : list str;
  p_android_packages : list str;
}.
(** [ApiPreset] and [SinglePresetPayload]: the name of the preset is [id] in one, [preset] in the other. *)
Record RawPreset := { r_id : str; r_label : option str; r_source : option str; r_domains : list str; r_android_packages : list str }.
Record ApiPayload := { ttl_sec : Z; api_presets : list RawPreset }.
Record BypassCacheFile := { fetched_at_unix : Z; file_ttl_sec : Z; file_url : str; file_presets : list BypassPresetInfo }.

(** ** Cleaning *)

(** Does any character satisfy [p]? [p] looks at the bytes from a character on; on UTF-8 text no suffix that starts inside a character satisfies it. *)
Fixpoint any_char (p : str -> bool) (s : str) : bool := p s || match s with [] => false | _ :: s => any_char p s end.
Definition is_control (s : str) : bool :=
  match s with
  | x :: r => in_rng 0 31 x || (x =? 127) || ((x =? 194) && match r with y :: _ => in_rng 128 159 y | [] => false end)
  | [] => false
  end.
Definition separators : str := [59; 44; 39; 34; 92; 96].
Definition is_separator (s : str) : bool := match s with x :: _ => existsb (Z.eqb x) separators | [] => false end.
Definition is_whitespace (s : str) : bool := negb (Nat.eqb (ws_len s) 0).
Definition forbidden (s : str) : bool := is_control s || is_whitespace s || is_separator s.

Definition normalize_domain (raw : str) : option str :=
  let t := trim raw in
  if decide (t = [] \/ MAX_DOMAIN_LEN < len t) then None else
  if any_char forbidden t then None else
  let t := trim_end_matches is_dot t in
  if decide (t = []) then None else Some (to_ascii_lowercase t).

Definition package_byte (c : Z) : bool :=
  is_ascii_digit c || in_rng 65 90 c || in_rng 97 122 c || (c =? 46) || (c =? 95) || (c =? 45).
Definition normalize_android_package (raw : str) : option str :=
  let t := trim raw in
  if decide (t = [] \/ MAX_ANDROID_PACKAGE_LEN < len t) then None else
  if forallb package_byte t then Some t else None.

(** What the loops over raw names do with one of them: it is appended when it is well formed and not there yet. *)
Definition push_new (norm : str -> option str) (same : str -> str -> bool) (out : list str) (raw : str) : list str :=
  match norm raw with
  | Some n => if existsb (fun x => same x n) out then out else out ++ [n]
  | None => out
  end.
Definition same_text (a b : str) : bool := bool_decide (a = b).
Definition push_domain : list str -> str -> list str := push_new normalize_domain eq_ignore_ascii_case.
Definition push_package_name : list str -> str -> list str := push_new normalize_android_package same_text.

Definition sanitize_preset (p : BypassPresetInfo) : option BypassPresetInfo :=
  let id := trim p.(p_id) in
  if decide (id = []) then None else
  let domains := fold_left push_domain p.(p_domains) [] in
  let packages := fold_left push_package_name p.(p_android_packages) [] in
  if decide (domains = [] /\ packages = []) then None else
  Some {| p_id := id; p_label := trim p.(p_label); p_source := p.(p_source); p_domains := domains; p_android_packages := packages |}.

Definition clamp_ttl (ttl_sec : Z) : Z := if decide (ttl_sec < MIN_TTL_SEC) then DEFAULT_TTL_SEC else Z.min ttl_sec MAX_TTL_SEC.

(** ** The list in memory *)

(** Times are nanoseconds since the epoch, [fetched_at] is [None] before the first list; [ttl] is in seconds. *)
Record CacheState := {
  loaded : bool;
  url : str;
  fetched_at : option Z;
  ttl : Z;
  presets : list BypassPresetInfo;
  by_id : gmap str BypassPresetInfo;
}.
Definition CacheState_default : CacheState :=
  {| loaded := false; url := []; fetched_at := None; ttl := DEFAULT_TTL_SEC; presets := []; by_id := ∅ |}.

Definition SECOND : Z := 1000000000.
Definition now_unix (now : Z) : Z := if decide (now < 0) then 0 else now / SECOND.

(** The later of two presets of one name is the one found. *)
Definition index_presets (ps : list BypassPresetInfo) (m : gmap str BypassPresetInfo) : gmap str BypassPresetInfo :=
  fold_left (fun m p => <[p.(p_id) := p]> m) ps m.

(** [apply_presets_at]: every field of the state is replaced. *)
Definition apply_presets_at (presets : list BypassPresetInfo) (ttl_sec : Z) (u : str) (at_ : Z) : CacheState :=
  let ps := omap sanitize_preset presets in
  {| loaded := true; url := u; fetched_at := Some at_; ttl := clamp_ttl ttl_sec; presets := ps;
     by_id := index_presets ps ∅ |}.

(** [at.elapsed().unwrap_or(Duration::MAX) < ttl]: a time in the future is not fresh. *)
Definition cache_is_fresh (now : Z) (state : CacheState) : bool :=
  match state.(fetched_at) with
  | None => false
  | Some a => bool_decide (a <= now /\ now - a < state.(ttl) * SECOND)
  end.

Definition preset_names (norm : list str -> str -> list str) (field : BypassPresetInfo -> list str) (state : CacheState) (ids : list str) : list str :=
  fold_left (fun out id =>
    let key := trim id in
    if decide (key = []) then out else
    match state.(by_id) !! key with Some p => fold_left norm (field p) out | None => out end) ids [].
(** What [cache_lock().lock()] gives: nothing once the lock is poisoned. *)
Definition domains_for_preset_ids_from_cache (lock : option CacheState) (ids : list str) : list str :=
  match lock with Some state => preset_names push_domain p_domains state ids | None => [] end.
Definition android_packages_for_preset_ids_from_cache (lock : option CacheState) (ids : list str) : list str :=
  match lock with Some state => preset_names push_package_name p_android_packages state ids | None => [] end.

(** ** [split_tunnel.rs] *)

Definition normalized_domains (lock : option CacheState) (ids : list str) : list str :=
  fold_left (fun out d => if decide (MAX_SPLIT_DOMAINS <= len out) then out else push_domain out d)
    (domains_for_preset_ids_from_cache lock ids) [].
Definition push_package (out : list str) (raw : str) : list str :=
  if decide (MAX_SPLIT_PACKAGES <= len out) then out else push_package_name out raw.

(** What the two functions read of a profile. *)
Record SplitProfile := {
  split_tunnel_enabled : bool;
  split_tunnel_preset_ids : list str;
  android_split_tunnel_packages : list str;
  android_manual_split_packages : list str;
}.
Definition bypass_domains_for_profile (lock : option CacheState) (p : SplitProfile) : list str :=
  if negb p.(split_tunnel_enabled) then [] else normalized_domains lock p.(split_tunnel_preset_ids).

(** [Ord] on texts: bytes, left to right. *)
Fixpoint text_le (a b : str) : bool :=
  match a, b with
  | [], _ => true
  | _ :: _, [] => false
  | x :: a, y :: b => (x <? y) || ((x =? y) && text_le a b)
  end.
(** [out.sort()], as insertion: a total order has one sorted result. *)
Fixpoint sort_insert (x : str) (l : list str) : list str :=
  match l with [] => [x] | y :: r => if text_le x y then x :: l else y :: sort_insert x r end.
Definition sort_texts (l : list str) : list str := foldr sort_insert [] l.

Definition android_split_packages_for_profile (lock : option CacheState) (p : SplitProfile) : list str :=
  if negb p.(split_tunnel_enabled) then [] else
  let out := fold_left push_package (android_packages_for_preset_ids_from_cache lock p.(split_tunnel_preset_ids)) [] in
  sort_texts (fold_left push_package (p.(android_manual_split_packages) ++ p.(android_split_tunnel_packages)) out).

(** ** Fetching *)

(** [url::Url]. *)
Record Url := { scheme : str; username : str; password : option str; host : option str; port : option Z;
                query : option str; fragment : option str; url_path : str }.
(** What [ureq] hands over: the status, the length header and the bytes of the body, after which the connection may fail. *)
Record Response := { status : Z; content_length : option str; body : bytes; body_fails : bool }.

Definition url_has_preset_filter (u : str) : bool :=
  match split_char 63 [] u with _ :: q :: _ => existsb (fun part => starts_with part (bs "preset=")) (split_char 38 [] q) | _ => false end.
Definition preset_fetch_url (base_url preset_id : str) : str :=
  match split_once 63 base_url with
  | Some (path, query) => path ++ bs "?" ++ query ++ bs "&preset=" ++ preset_id
  | None => base_url ++ bs "?preset=" ++ preset_id
  end.
Definition read_body_capped (resp : Response) : result str :=
  let too_long := match resp.(content_length) with
    | Some s => match parse_uint U64_MAX (trim s) with Some n => bool_decide (MAX_RESPONSE_BYTES < n) | None => false end
    | None => false end in
  if too_long then bail "body too large" else
  if resp.(body_fails) && bool_decide (len resp.(body) <= MAX_RESPONSE_BYTES) then bail "read body" else
  if decide (MAX_RESPONSE_BYTES < len resp.(body)) then bail "body too large" else from_utf8 resp.(body).

Definition preset_label (id : str) (label : option str) : str :=
  match label with Some s => if decide (trim s = []) then replace_char 95 32 id else s | None => replace_char 95 32 id end.
Definition of_raw (r : RawPreset) : BypassPresetInfo :=
  {| p_id := r.(r_id); p_label := preset_label r.(r_id) r.(r_label); p_source := r.(r_source); p_domains := r.(r_domains);
     p_android_packages := r.(r_android_packages) |}.

(** One call: the variable of the environment, the clock, and the answers of the network. *)
Record Env := { runtime_url : option str; now : Z; http_get : str -> option Response }.

(** [CACHE] with its lock, the cache file, and the requests made. *)
Record World := { cache : CacheState; poisoned : bool; disk : option str; asked : list str }.
Definition lock_of (w : World) : option CacheState := if w.(poisoned) then None else Some w.(cache).
Definition set_cache (c : CacheState) (w : World) : World := {| cache := c; poisoned := w.(poisoned); disk := w.(disk); asked := w.(asked) |}.
Definition set_poisoned (w : World) : World := {| cache := w.(cache); poisoned := true; disk := w.(disk); asked := w.(asked) |}.
Definition set_disk (d : option str) (w : World) : World := {| cache := w.(cache); poisoned := w.(poisoned); disk := d; asked := w.(asked) |}.
Definition ask (u : str) (w : World) : World := {| cache := w.(cache); poisoned := w.(poisoned); disk := w.(disk); asked := w.(asked) ++ [u] |}.
Abbreviation M := (ST World err).

Definition last_second : Z := 9223372036854775807.

Section Sources.
Context (parse_url : str -> option Url).
Context (parse_api : str -> option ApiPayload) (parse_single : str -> option RawPreset).
Context (parse_file : str -> option BypassCacheFile) (print_file : BypassCacheFile -> str).
(** The URL and the list given at build time. *)
Context (built_url : option str) (embedded_json : str).
(** Whether there is a data directory, and what the cache file holds after a text was written to it. *)
Context (data_dir : bool) (written : str -> option str).

Definition parse_single_preset (text : str) : result BypassPresetInfo :=
  data ← context "JSON bypass-domains preset"%string (parse_single text);
  if decide (data.(r_domains) = []) then bail "preset returned no domains" else
  p ← context "preset has no usable data"%string (sanitize_preset (of_raw data));
  if decide (p.(p_domains) = []) then bail "preset returned no valid domains" else Ok p.
Definition parse_api_payload (text : str) : result (list BypassPresetInfo * Z) :=
  data ← context "JSON bypass-domains"%string (parse_api text);
  let ps := omap (fun r => sanitize_preset (of_raw r)) data.(api_presets) in
  if decide (ps = []) then bail "bypass-domains API returned no presets" else Ok (ps, clamp_ttl data.(ttl_sec)).
Definition parse_api_response (text : str) : result (list BypassPresetInfo * Z) :=
  if starts_with (trim_start text) (bs "{") && contains (trim_start text) ([34] ++ bs "presets" ++ [34])
  then parse_api_payload text
  else p ← parse_single_preset text; Ok ([p], DEFAULT_TTL_SEC).

Definition load_embedded_presets : option (list BypassPresetInfo * Z) :=
  match parse_api_payload embedded_json with Ok (ps, t) => if decide (ps = []) then None else Some (ps, t) | _ => None end.

Definition bypass_domains_url (e : Env) : option str :=
  match given e.(runtime_url) with Some t => Some t | None => given built_url end.
Definition validate_http_url (u : str) : result str :=
  let t := trim u in
  if decide (t = []) then bail "empty URL" else
  parsed ← context "bad URL"%string (parse_url t);
  let s := to_ascii_lowercase parsed.(scheme) in
  if negb (bool_decide (s = bs "http") || bool_decide (s = bs "https")) then bail "unsupported scheme" else
  if decide (parsed.(username) <> [] \/ is_Some parsed.(password)) then bail "userinfo in URL" else
  match parsed.(host) with None | Some [] => bail "no host" | Some _ => Ok t end.

Definition fetch_http_body (e : Env) (u : str) : M str :=
  u ← lift (validate_http_url u);
  _ ← modify (ask u);
  resp ← lift (context "HTTP GET"%string (e.(http_get) u));
  if decide (resp.(status) = 429) then throw "HTTP 429 (rate limit)"%string else
  if decide (resp.(status) <> 200) then throw "HTTP status"%string else lift (read_body_capped resp).

(** [Result::ok] and the like on a computation that changes state. *)
Definition tried {A} (m : M A) : M (option A) := fun w => let '(w, r) := m w in (w, attempt r).

(** The presets that come; errors of single presets are only logged. *)
Fixpoint fetch_each (e : Env) (base_url : str) (ids : list str) : M (list BypassPresetInfo) :=
  match ids with
  | [] => mret []
  | id :: ids =>
    p ← tried (b ← fetch_http_body e (preset_fetch_url base_url id); lift (parse_single_preset b));
    ps ← fetch_each e base_url ids;
    mret (option_list p ++ ps)
  end.
Definition fetch_remote_presets (e : Env) (base_url : str) : M (list BypassPresetInfo * Z) :=
  ps ← fetch_each e base_url FALLBACK_PRESET_IDS;
  if decide (ps = []) then throw "per-preset fetch returned nothing"%string else mret (ps, DEFAULT_TTL_SEC).
(** [fetch_remote]: with a preset filter or without, one request. *)
Definition fetch_remote (e : Env) (u : str) : M (list BypassPresetInfo * Z) :=
  b ← fetch_http_body e u; lift (parse_api_response b).
Definition refresh_from_network_with_fallback (e : Env) (u : str) : M (list BypassPresetInfo * Z) :=
  r ← tried (fetch_remote e u);
  match r with Some x => mret x | None => fetch_remote_presets e u end.

(** ** The cache file *)

Definition load_disk_cache (e : Env) (u : str) (w : World) : option BypassCacheFile :=
  if negb data_dir then None else
  text ← w.(disk);
  file ← parse_file text;
  if decide (file.(file_url) <> u) then None else
  let age := sat_sub (now_unix e.(now)) file.(fetched_at_unix) in
  if decide (sat_add U64_MAX (clamp_ttl file.(file_ttl_sec)) 600 < age) then None else Some file.
Definition save_disk_cache (e : Env) (u : str) (ttl_sec : Z) (ps : list BypassPresetInfo) (w : World) : World :=
  if negb data_dir then w else
  set_disk (written (print_file {| fetched_at_unix := now_unix e.(now); file_ttl_sec := ttl_sec; file_url := u; file_presets := ps |})) w.

(** ** The lock *)

(** [cache_lock().lock().map_err(..)?]. *)
Definition locked : M CacheState := fun w => if w.(poisoned) then (w, bail "poisoned lock") else (w, Ok w.(cache)).
Definition apply_presets (e : Env) (ps : list BypassPresetInfo) (ttl_sec : Z) (u : str) : M unit :=
  _ ← locked; modify (set_cache (apply_presets_at ps ttl_sec u e.(now))).
Definition panic_locked {A} : M A := fun w => (set_poisoned w, Panic).
(** [apply_presets_at] with [disk_fetched_at], under the lock: a time past the range of [SystemTime] (that of Unix) panics and poisons it. *)
Definition apply_file (file : BypassCacheFile) (u : str) : M (list BypassPresetInfo) :=
  _ ← locked;
  if decide (last_second < file.(fetched_at_unix)) then panic_locked else
  _ ← modify (set_cache (apply_presets_at file.(file_presets) file.(file_ttl_sec) u (file.(fetched_at_unix) * SECOND)));
  gets (fun w => w.(cache).(presets)).

Definition EMBEDDED_URL : str := bs "embedded://bypass_domains".
Definition apply_embedded_into_cache (e : Env) : M (list BypassPresetInfo) :=
  match load_embedded_presets with
  | None => mret []
  | Some (ps, t) => _ ← apply_presets e ps t (default EMBEDDED_URL (bypass_domains_url e)); mret ps
  end.

(** The part of [ensure_loaded] that asks the network. *)
Definition from_network (e : Env) (remote_url : str) : M (list BypassPresetInfo) :=
  r ← tried (fetch_remote e remote_url);
  match r with
  | Some (ps, t) =>
    _ ← modify (save_disk_cache e remote_url t ps);
    _ ← apply_presets e ps t remote_url;
    mret ps
  | None =>
    state ← locked;
    if state.(loaded) && negb (bool_decide (state.(presets) = [])) then mret state.(presets) else
    file ← gets (load_disk_cache e remote_url);
    match file with Some f => apply_file f remote_url | None => apply_embedded_into_cache e end
  end.
(** The part after the list in memory: disk, embedded list, network. *)
Definition from_elsewhere (e : Env) (force_refresh : bool) (u : str) : M (list BypassPresetInfo) :=
  let network := match bypass_domains_url e with None => apply_embedded_into_cache e | Some remote_url => from_network e remote_url end in
  if force_refresh then network else
  file ← gets (load_disk_cache e u);
  match file with
  | Some f => apply_file f u
  | None =>
    embedded ← tried (apply_embedded_into_cache e);
    match embedded with Some ((_ :: _) as ps) => mret ps | _ => network end
  end.
Definition ensure_loaded (e : Env) (force_refresh : bool) : M (list BypassPresetInfo) :=
  let url_opt := bypass_domains_url e in
  if decide (url_opt = None /\ load_embedded_presets = None) then throw "BIBA_BYPASS_DOMAINS_URL is not set and nothing is embedded"%string else
  _ ← lift (match url_opt with Some raw => validate_http_url raw | None => Ok [] end);
  let u := default EMBEDDED_URL url_opt in
  state ← locked;
  if state.(loaded) && negb force_refresh && cache_is_fresh e.(now) state && bool_decide (state.(url) = u) then mret state.(presets)
  else from_elsewhere e force_refresh u.

Definition background_refresh_full (e : Env) : M unit :=
  match bypass_domains_url e with
  | None => mret tt
  | Some u =>
    match validate_http_url u with
    | Ok _ =>
      r ← tried (refresh_from_network_with_fallback e u);
      match r with
      | Some (ps, t) => _ ← modify (save_disk_cache e u t ps); _ ← tried (apply_presets e ps t u); mret tt
      | None => mret tt
      end
    | _ => mret tt
    end
  end.
Definition cached_presets_or_empty (w : World) : list BypassPresetInfo :=
  if negb w.(poisoned) && w.(cache).(loaded) then w.(cache).(presets) else [].

(** Calls one after the other, other programs writing the cache file in between. *)
Inductive call : World -> World -> Prop :=
| Ensure e force w : call w (ensure_loaded e force w).1
| Background e w : call w (background_refresh_full e w).1
| Disk_changed d w : call w (set_disk d w).
Definition new_world (d : option str) : World := {| cache := CacheState_default; poisoned := false; disk := d; asked := [] |}.
End Sources.

(** ** Texts *)

Lemma any_char_drop p s k : any_char p s = false -> p (drop k s) = false.
Proof.
  revert k. induction s as [|x s IH]; intros k; cbn [any_char]; intros [H0 H1]%orb_false_iff; destruct k; cbn [drop]; auto.
Qed.
Lemma any_char_intro p s : (forall k, p (drop k s) = false) -> any_char p s = false.
Proof.
  induction s as [|x s IH]; intros H; cbn [any_char]; apply orb_false_iff; (split; [exact (H 0%nat)|]); [done|].
  apply IH. intros k. exact (H (S k)).
Qed.

Lemma trim_no_ws s : (forall k, ws_len (drop k s) = 0%nat) -> trim s = s.
Proof.
  intros H. assert (ws_len s = 0%nat) as H0 by exact (H 0%nat). unfold trim. assert (trim_start s = s) as ->.
  { unfold trim_start. destruct (length s); [done|]. cbn [trim_start_fuel]. by rewrite H0. }
  unfold trim_end. destruct (length s); [done|]. cbn [trim_end_fuel].
  assert (ws_len_end s = 0%nat) as ->; [|done]. unfold ws_len_end. rewrite !H. cbn [Nat.eqb]. by rewrite !andb_false_r.
Qed.

Lemma forbidden_ws s : forbidden s = false -> ws_len s = 0%nat.
Proof. unfold forbidden, is_whitespace. rewrite !orb_false_iff, negb_false_iff, Nat.eqb_eq. tauto. Qed.
Lemma trim_allowed s : any_char forbidden s = false -> trim s = s.
Proof. intros H. apply trim_no_ws. intros k. by apply forbidden_ws, any_char_drop. Qed.

Lemma forbidden_app a b : forbidden (a ++ b) = false -> forbidden a = false.
Proof.
  destruct a as [|x a]; [done|]. unfold forbidden. rewrite !orb_false_iff. intros [[Hc Hw] Hs]. split_and!; [|clear Hc Hs|exact Hs].
  - cbn [is_control app] in *. apply orb_false_iff in Hc as [-> Hc]. destruct (x =? 194); [|done]. by destruct a.
  - unfold is_whitespace in *. apply negb_false_iff, Nat.eqb_eq in Hw. apply negb_false_iff, Nat.eqb_eq.
    destruct (decide (ws_len (x :: a) = 0%nat)) as [|Hne]; [done|]. by rewrite (ws_len_app _ b Hne) in Hw.
Qed.
Lemma allowed_app a b : any_char forbidden (a ++ b) = false -> any_char forbidden a = false.
Proof.
  intros H. apply any_char_intro. intros k. destruct (decide (k <= length a)%nat) as [Hk|Hk].
  - apply (forbidden_app _ b). rewrite <- drop_app_le by done. by apply any_char_drop.
  - by rewrite drop_ge by lia.
Qed.

(** Lowering changes no byte outside the letters and makes none. *)
Lemma lower_eqb c k : ~ (65 <= k <= 90) -> ~ (97 <= k <= 122) -> (ascii_lower c =? k) = (c =? k).
Proof. intros H1 H2. unfold ascii_lower. destruct (in_rng 65 90 c) eqn:E; [apply in_rng_iff in E|done]. apply Bool.eq_iff_eq_true. rewrite !Z.eqb_eq. lia. Qed.
Lemma lower_rng lo hi c : hi < 65 \/ 122 < lo -> in_rng lo hi (ascii_lower c) = in_rng lo hi c.
Proof.
  intros H. unfold ascii_lower. destruct (in_rng 65 90 c) eqn:E; [apply in_rng_iff in E|done].
  apply Bool.eq_iff_eq_true. rewrite !in_rng_iff. lia.
Qed.
Lemma ws_len_lower s : ws_len (to_ascii_lowercase s) = ws_len s.
Proof.
  destruct s as [|x [|y [|z s]]]; [done|..]; cbn [to_ascii_lowercase fmap list_fmap ws_len];
    by rewrite !lower_eqb, !lower_rng by lia.
Qed.
Lemma forbidden_lower s : forbidden (to_ascii_lowercase s) = forbidden s.
Proof.
  unfold forbidden, is_whitespace. rewrite ws_len_lower. f_equal; [f_equal|].
  - destruct s as [|x [|y s]]; [done|..]; cbn [to_ascii_lowercase fmap list_fmap is_control]; by rewrite !lower_eqb, !lower_rng by lia.
  - destruct s as [|x s]; [done|]. cbn [to_ascii_lowercase fmap list_fmap is_separator existsb separators]. by rewrite !lower_eqb by lia.
Qed.
Lemma allowed_lower s : any_char forbidden s = false -> any_char forbidden (to_ascii_lowercase s) = false.
Proof.
  intros H. apply any_char_intro. intros k. unfold to_ascii_lowercase. rewrite <- fmap_drop. change (forbidden (to_ascii_lowercase (drop k s)) = false).
  rewrite forbidden_lower. by apply any_char_drop.
Qed.

Lemma trim_end_matches_prefix p s : exists r, s = trim_end_matches p s ++ r.
Proof.
  unfold trim_end_matches. assert (forall l, exists q, l = q ++ drop_while p l) as Hd.
  { induction l as [|x l [q IH]]; [by exists []|]. cbn [drop_while]. destruct (p x); [exists (x :: q); cbn; by f_equal|by exists []]. }
  destruct (Hd (rev s)) as [q Hq]. exists (rev q). rewrite <- rev_app_distr, <- Hq. by rewrite rev_involutive.
Qed.
Lemma trim_end_matches_last p s c : last (trim_end_matches p s) = Some c -> p c = false.
Proof.
  unfold trim_end_matches. generalize (rev s). intros t. rewrite (rev_alt (drop_while p t)). fold (reverse (drop_while p t)).
  rewrite last_reverse. induction t as [|x l IH]; [done|]. cbn [drop_while].
  destruct (p x) eqn:E; [done|]. cbn. by intros [= <-].
Qed.

(** ** Clean names *)

(** What may go into the proxy settings of a system: no separator, quote, space or control character, lower case, no dot at the end. *)
Record clean_domain (d : str) : Prop := {
  domain_some : d <> [];
  domain_len : len d <= MAX_DOMAIN_LEN;
  domain_allowed : any_char forbidden d = false;
  domain_lower : to_ascii_lowercase d = d;
  domain_end : last d <> Some 46;
}.
Record clean_package (k : str) : Prop := {
  package_some : k <> [];
  package_len : len k <= MAX_ANDROID_PACKAGE_LEN;
  package_bytes : forallb package_byte k = true;
}.

Lemma normalize_domain_clean raw d : normalize_domain raw = Some d -> clean_domain d.
Proof.
  unfold normalize_domain. set (t := trim raw). case_decide as H1; [done|]. destruct (any_char forbidden t) eqn:Ha; [done|].
  case_decide as H2; [done|]. intros [= <-]. destruct (trim_end_matches_prefix is_dot t) as [r Hr].
  rewrite Hr in Ha, H1. rewrite len_app in H1. pose proof (len_nonneg r). constructor.
  - by intros ?%fmap_nil_inv.
  - unfold len in *. rewrite length_lower. lia.
  - by eapply allowed_lower, allowed_app.
  - apply to_ascii_lowercase_idemp.
  - unfold to_ascii_lowercase. rewrite fmap_last. destruct (last (trim_end_matches is_dot t)) as [c|] eqn:El; [|done].
    apply trim_end_matches_last in El. intros [= E]. unfold is_dot in El. apply Z.eqb_neq in El. unfold ascii_lower in E.
    destruct (in_rng 65 90 c) eqn:Er; [apply in_rng_iff in Er; lia|done].
Qed.

Lemma trim_end_matches_done p s : (forall c, last s = Some c -> p c = false) -> trim_end_matches p s = s.
Proof.
  intros H. unfold trim_end_matches. destruct (rev s) as [|c t] eqn:E.
  - apply (f_equal (@rev Z)) in E. by rewrite rev_involutive in E.
  - cbn [drop_while]. rewrite H; [by rewrite <- E, rev_involutive|].
    apply (f_equal (@rev Z)) in E. rewrite rev_involutive in E. cbn [rev] in E. by rewrite E, last_snoc.
Qed.
Lemma clean_domain_fixed d : clean_domain d -> normalize_domain d = Some d.
Proof.
  intros [H1 H2 H3 H4 H5]. unfold normalize_domain. rewrite trim_allowed, H3 by done. rewrite decide_False by (intros [?|?]; [done|lia]).
  rewrite (trim_end_matches_done is_dot d).
  - rewrite decide_False by done. by rewrite H4.
  - intros c Hc. apply Z.eqb_neq. by intros ->.
Qed.

Lemma package_byte_graphic c : package_byte c = true -> 33 <= c <= 126.
Proof.
  unfold package_byte, is_ascii_digit. rewrite !orb_true_iff, !in_rng_iff, !Z.eqb_eq. lia.
Qed.
Lemma normalize_package_clean raw k : normalize_android_package raw = Some k -> clean_package k.
Proof.
  unfold normalize_android_package. set (t := trim raw). case_decide as H1; [done|]. destruct (forallb package_byte t) eqn:Hb; [|done].
  intros [= <-]. constructor; [naive_solver|lia|done].
Qed.
Lemma clean_package_fixed k : clean_package k -> normalize_android_package k = Some k.
Proof.
  intros [H1 H2 H3]. unfold normalize_android_package. rewrite trim_graphic, H3; [by rewrite decide_False by (intros [?|?]; [done|lia])|].
  apply Forall_forall. intros c Hc. apply package_byte_graphic. by eapply forallb_forall in H3; [|apply list_elem_of_In].
Qed.

(** ** Lists of names *)

(** [norm] gives values of [P], which it leaves alone and which [same] tells apart. *)
Section Push.
Context (norm : str -> option str) (same : str -> str -> bool) (P : str -> Prop).
Context (Hnorm : forall raw n, norm raw = Some n -> P n) (Hfixed : forall n, P n -> norm n = Some n).
Context (Hsame : forall a b, P a -> P b -> same a b = true <-> a = b).
#[local] Abbreviation push := (push_new norm same).

Definition clean_list (l : list str) : Prop := Forall P l /\ NoDup l.

Lemma seen n out : P n -> Forall P out -> existsb (fun x => same x n) out = true <-> n ∈ out.
Proof using Hsame.
  intros Hn Ho. rewrite existsb_exists. split.
  - intros (x & Hx%list_elem_of_In & E). rewrite Forall_forall in Ho. apply Hsame in E as ->; auto.
  - intros Hin. exists n. split; [by apply list_elem_of_In|]. by apply Hsame.
Qed.
Lemma push_new_clean out raw : clean_list out -> clean_list (push out raw).
Proof using Hnorm Hsame.
  intros [Ho Hd]. unfold push_new. destruct (norm raw) as [n|] eqn:E; [|done]. apply Hnorm in E.
  destruct (existsb _ out) eqn:Es; [done|]. split; [by apply Forall_app; split; [|apply Forall_singleton]|].
  apply NoDup_app. split_and!; [done| |apply NoDup_singleton]. intros x Hx ->%list_elem_of_singleton.
  apply seen in Hx; [|done..]. congruence.
Qed.
Lemma push_new_len out raw : len out <= len (push out raw) <= len out + 1.
Proof using.
  unfold push_new. destruct (norm raw); [destruct (existsb _ _)|]; rewrite ?len_app; unfold len; simpl; lia.
Qed.
Lemma push_new_in out raw x : x ∈ push out raw -> x ∈ out \/ norm raw = Some x.
Proof using.
  unfold push_new. destruct (norm raw) as [n|]; [|by left]. destruct (existsb _ _); [by left|].
  intros [? | ->%list_elem_of_singleton]%elem_of_app; [by left|by right].
Qed.

Lemma fold_clean l out : clean_list out -> clean_list (fold_left push l out).
Proof using Hnorm Hsame. revert out. induction l as [|x l IH]; intros out Ho; [done|]. apply IH. by apply push_new_clean. Qed.
Lemma fold_in l out x : x ∈ fold_left push l out -> x ∈ out \/ exists raw, raw ∈ l /\ norm raw = Some x.
Proof using.
  revert out. induction l as [|y l IH]; intros out; [by left|]. cbn [fold_left]. intros [H|(raw & Hr & E)]%IH.
  - apply push_new_in in H as [H|H]; [by left|right; exists y; split; [left|done]].
  - right. exists raw. split; [by right|done].
Qed.
(** Names that are clean and new are appended as they are. *)
Lemma fold_fixed l out : clean_list (out ++ l) -> fold_left push l out = out ++ l.
Proof using Hfixed Hsame.
  revert out. induction l as [|x l IH]; intros out [Hp Hd]; [by rewrite app_nil_r|]. cbn [fold_left].
  assert (push out x = out ++ [x]) as ->.
  { apply Forall_app in Hp as [Ho Hx]. apply Forall_cons in Hx as [Hx _]. unfold push_new. rewrite Hfixed by done.
    destruct (existsb _ out) eqn:Es; [|done]. apply seen in Es; [|done..]. apply NoDup_app in Hd as (_ & Hd & _).
    by destruct (Hd x Es); left. }
  rewrite IH; rewrite <- app_assoc; done.
Qed.
(** The loops that stop at a limit. *)
Lemma fold_capped l out limit :
  clean_list out -> len out <= limit ->
  let r := fold_left (fun out d => if decide (limit <= len out) then out else push out d) l out in
  clean_list r /\ len r <= limit /\ (forall x, x ∈ r -> x ∈ out \/ exists raw, raw ∈ l /\ norm raw = Some x).
Proof using Hnorm Hsame.
  revert out. induction l as [|y l IH]; intros out Ho Hl; cbn [fold_left]; [split_and!; auto|].
  case_decide as Hc.
  - destruct (IH out Ho Hl) as (H1 & H2 & H3). split_and!; [done|done|]. intros x [H|(raw & Hr & E)]%H3; [by left|].
    right. exists raw. split; [by right|done].
  - destruct (IH (push out y)) as (H1 & H2 & H3); [by apply push_new_clean|pose proof (push_new_len out y); lia|].
    split_and!; [done|done|]. intros x [H|(raw & Hr & E)]%H3; [apply push_new_in in H as [H|H]; [by left|]|].
    + right. exists y. split; [left|done].
    + right. exists raw. split; [by right|done].
Qed.
End Push.

Abbreviation clean_domains := (clean_list clean_domain).
Abbreviation clean_packages := (clean_list clean_package).

Lemma same_domain a b : clean_domain a -> clean_domain b -> eq_ignore_ascii_case a b = true <-> a = b.
Proof. intros Ha Hb. unfold eq_ignore_ascii_case. by rewrite bool_decide_eq_true, (domain_lower a Ha), (domain_lower b Hb). Qed.
Lemma same_package a b : clean_package a -> clean_package b -> same_text a b = true <-> a = b.
Proof. intros _ _. unfold same_text. by rewrite bool_decide_eq_true. Qed.
Lemma clean_nil P : clean_list P [].
Proof. split; [done|apply NoDup_nil_2]. Qed.
#[export] Hint Resolve normalize_domain_clean normalize_package_clean clean_domain_fixed clean_package_fixed same_domain same_package clean_nil : bypass.

(** A preset as it is kept: cleaning it again changes nothing. *)
Definition sanitized (p : BypassPresetInfo) : Prop := sanitize_preset p = Some p.

Lemma preset_sanitize_clean p q : sanitize_preset p = Some q -> clean_domains q.(p_domains) /\ clean_packages q.(p_android_packages) /\ trim q.(p_id) = q.(p_id).
Proof.
  unfold sanitize_preset. case_decide; [done|]. case_decide; [done|]. intros [= <-]. cbn [p_domains p_android_packages p_id].
  split_and!; [eapply fold_clean; eauto with bypass..|apply trim_idemp].
Qed.
Lemma sanitize_idemp p q : sanitize_preset p = Some q -> sanitized q.
Proof.
  intros H. destruct (preset_sanitize_clean p q H) as (Hd & Hk & _). revert H Hd Hk. unfold sanitized, sanitize_preset.
  case_decide as H1; [done|]. case_decide as H2; [done|]. intros [= <-]. cbn [p_id p_label p_source p_domains p_android_packages]. intros Hd Hk.
  rewrite !trim_idemp, decide_False by done. unfold push_domain, push_package_name in *.
  rewrite (fold_fixed normalize_domain _ clean_domain clean_domain_fixed same_domain _ [] Hd).
  rewrite (fold_fixed normalize_android_package _ clean_package clean_package_fixed same_package _ [] Hk).
  cbn [app]. by rewrite decide_False.
Qed.
Lemma sanitized_omap ps : Forall sanitized ps -> omap sanitize_preset ps = ps.
Proof. induction 1 as [|p ps Hp _ IH]; [done|]. cbn. by rewrite Hp, IH. Qed.
Lemma omap_sanitized {A} (f : A -> BypassPresetInfo) l : Forall sanitized (omap (fun x => sanitize_preset (f x)) l).
Proof.
  apply Forall_forall. intros q (x & _ & H)%list_elem_of_omap. by eapply sanitize_idemp.
Qed.

(** ** The list in memory *)

Record cache_ok (c : CacheState) : Prop := {
  ok_presets : Forall sanitized c.(presets);
  ok_by_id : forall k p, c.(by_id) !! k = Some p -> p ∈ c.(presets) /\ p.(p_id) = k;
  ok_found : forall p, p ∈ c.(presets) -> is_Some (c.(by_id) !! p.(p_id));
  ok_loaded : is_Some c.(fetched_at) -> c.(loaded) = true;
  ok_ttl : MIN_TTL_SEC <= c.(ttl) <= MAX_TTL_SEC;
}.

Lemma index_lookup ps m k p :
  index_presets ps m !! k = Some p -> (p ∈ ps /\ p.(p_id) = k) \/ m !! k = Some p.
Proof.
  revert m. induction ps as [|q ps IH]; intros m; [by right|]. intros [[Hin Hk]|H]%(IH (<[q.(p_id) := q]> m)); [left; split; [by right|done]|].
  destruct (decide (q.(p_id) = k)) as [<-|Hne].
  - rewrite lookup_insert_eq in H. injection H as ->. left. split; [left|done].
  - rewrite lookup_insert_ne in H by done. by right.
Qed.
Lemma index_kept (ps : list BypassPresetInfo) m k : is_Some (m !! k) -> is_Some (index_presets ps m !! k).
Proof.
  revert m. induction ps as [|q ps IH]; intros m H; [done|]. apply (IH (<[q.(p_id) := q]> m)).
  destruct (decide (q.(p_id) = k)) as [<-|Hne]; [rewrite lookup_insert_eq; by eexists|by rewrite lookup_insert_ne].
Qed.
Lemma index_found (ps : list BypassPresetInfo) m p : p ∈ ps -> is_Some (index_presets ps m !! p.(p_id)).
Proof.
  revert m. induction ps as [|q ps IH]; intros m H; [by apply elem_of_nil in H|].
  apply elem_of_cons in H as [->|H]; [|by apply (IH (<[q.(p_id) := q]> m))]. apply (index_kept ps (<[q.(p_id) := q]> m)). rewrite lookup_insert_eq. by eexists.
Qed.

Lemma apply_ok ps t u a : cache_ok (apply_presets_at ps t u a).
Proof.
  constructor; cbn [presets by_id ttl apply_presets_at].
  - apply (omap_sanitized id).
  - intros k p H. by destruct (index_lookup _ _ _ _ H) as [?|?%lookup_empty_Some].
  - intros p. apply index_found.
  - done.
  - unfold clamp_ttl, MIN_TTL_SEC, MAX_TTL_SEC, DEFAULT_TTL_SEC. case_decide; lia.
Qed.
Lemma default_ok : cache_ok CacheState_default.
Proof. constructor; cbn; [done|by intros k p ?%lookup_empty_Some|by intros p ?%elem_of_nil|by intros []|unfold MIN_TTL_SEC, MAX_TTL_SEC, DEFAULT_TTL_SEC; lia]. Qed.

(** The names of the presets chosen. *)
Lemma preset_names_spec norm same P field state ids :
  (forall raw n, norm raw = Some n -> P n) -> (forall a b, P a -> P b -> same a b = true <-> a = b) ->
  let r := preset_names (push_new norm same) field state ids in
  clean_list P r /\
  (forall x, x ∈ r -> exists id p raw, id ∈ ids /\ state.(by_id) !! trim id = Some p /\ raw ∈ field p /\ norm raw = Some x).
Proof.
  intros Hn Hs. unfold preset_names. cbv zeta. set (f := fun out id => _).
  enough (forall out, clean_list P out -> clean_list P (fold_left f ids out) /\ forall x, x ∈ fold_left f ids out -> x ∈ out \/
    exists id p raw, id ∈ ids /\ state.(by_id) !! trim id = Some p /\ raw ∈ field p /\ norm raw = Some x) as H.
  { destruct (H [] (clean_nil P)) as [H1 H2]. split; [done|]. by intros x [?%elem_of_nil|?]%H2. }
  induction ids as [|id ids IH]; intros out Ho; cbn [fold_left]; [split; [done|by left]|].
  assert (clean_list P (f out id) /\ forall x, x ∈ f out id -> x ∈ out \/
    exists p raw, state.(by_id) !! trim id = Some p /\ raw ∈ field p /\ norm raw = Some x) as [H1 H2].
  { unfold f. case_decide; [split; [done|by left]|]. destruct (by_id state !! trim id) as [p|] eqn:Hp; [|split; [done|by left]].
    split; [by apply (fold_clean norm same P)|]. intros x [?|(raw & ? & ?)]%fold_in; [by left|right; eauto]. }
  destruct (IH _ H1) as [H3 H4]. split; [done|]. intros x [Hx|(i & p & raw & Hi & ? & ? & ?)]%H4.
  - apply H2 in Hx as [?|(p & raw & ? & ? & ?)]; [by left|right]. exists id, p, raw. split; [left|done].
  - right. exists i, p, raw. split; [by right|done].
Qed.

(** ** Sorting *)

Abbreviation text_sorted := (Sorted (fun a b => text_le a b = true)).
Lemma text_le_total a b : text_le a b = false -> text_le b a = true.
Proof.
  revert b. induction a as [|x a IH]; intros [|y b]; cbn [text_le]; try done.
  rewrite orb_false_iff, orb_true_iff, andb_true_iff, andb_false_iff, Z.ltb_ge, Z.ltb_lt, Z.eqb_eq, Z.eqb_neq.
  intros [H1 [H2|H2]]; [left; lia|]. destruct (decide (y < x)); [by left|right]. split; [lia|by apply IH].
Qed.
Lemma sort_insert_perm x l : sort_insert x l ≡ₚ x :: l.
Proof. induction l as [|y l IH]; cbn [sort_insert]; [done|]. destruct (text_le x y); [done|]. rewrite IH. by apply perm_swap. Qed.
Lemma sort_insert_sorted x l : text_sorted l -> text_sorted (sort_insert x l).
Proof.
  induction 1 as [|y l Hs IH Hh]; cbn [sort_insert]; [by repeat constructor|]. destruct (text_le x y) eqn:E; [by repeat constructor|].
  constructor; [done|]. apply text_le_total in E. destruct l as [|z l]; cbn [sort_insert]; [by constructor|].
  destruct (text_le x z); constructor; [done|by inversion Hh].
Qed.
Lemma sort_texts_spec l : sort_texts l ≡ₚ l /\ text_sorted (sort_texts l).
Proof.
  induction l as [|x l [IH1 IH2]]; cbn; [split; [done|constructor]|]. split; [by rewrite sort_insert_perm, IH1|by apply sort_insert_sorted].
Qed.

(** ** What a profile bypasses *)

Lemma push_domain_spec l out : clean_domains out -> len out <= MAX_SPLIT_DOMAINS ->
  let r := fold_left (fun out d => if decide (MAX_SPLIT_DOMAINS <= len out) then out else push_domain out d) l out in
  clean_domains r /\ len r <= MAX_SPLIT_DOMAINS /\ (forall x, x ∈ r -> x ∈ out \/ exists raw, raw ∈ l /\ normalize_domain raw = Some x).
Proof. apply fold_capped; eauto with bypass. Qed.
Lemma push_package_spec l out : clean_packages out -> len out <= MAX_SPLIT_PACKAGES ->
  let r := fold_left push_package l out in
  clean_packages r /\ len r <= MAX_SPLIT_PACKAGES /\ (forall x, x ∈ r -> x ∈ out \/ exists raw, raw ∈ l /\ normalize_android_package raw = Some x).
Proof. apply fold_capped; eauto with bypass. Qed.

Lemma domains_from_cache_spec lock ids :
  clean_domains (domains_for_preset_ids_from_cache lock ids) /\
  (forall d, d ∈ domains_for_preset_ids_from_cache lock ids -> exists state id p raw, lock = Some state /\ id ∈ ids /\
     state.(by_id) !! trim id = Some p /\ raw ∈ p.(p_domains) /\ normalize_domain raw = Some d).
Proof.
  destruct lock as [state|]; [|split; [apply clean_nil|intros d ?%elem_of_nil; done]].
  destruct (preset_names_spec normalize_domain eq_ignore_ascii_case clean_domain p_domains state ids) as [Hc Hin]; eauto with bypass.
  split; [done|]. intros d (id & p & raw & ?)%Hin. by exists state, id, p, raw.
Qed.

Lemma normalized_domains_spec lock ids :
  clean_domains (normalized_domains lock ids) /\ len (normalized_domains lock ids) <= MAX_SPLIT_DOMAINS /\
  (forall d, d ∈ normalized_domains lock ids -> exists state id p raw, lock = Some state /\ id ∈ ids /\
     state.(by_id) !! trim id = Some p /\ raw ∈ p.(p_domains) /\ normalize_domain raw = Some d).
Proof.
  destruct (domains_from_cache_spec lock ids) as [Hc Hin].
  destruct (push_domain_spec (domains_for_preset_ids_from_cache lock ids) []) as (H1 & H2 & H3); [apply clean_nil|unfold MAX_SPLIT_DOMAINS; done|].
  split_and!; [done|done|]. intros d [?%elem_of_nil|(raw & Hr & Hd)]%H3; [done|].
  assert (normalize_domain raw = Some raw) as E by (apply clean_domain_fixed; destruct Hc as [Hc _]; rewrite Forall_forall in Hc; by apply Hc).
  rewrite E in Hd. injection Hd as ->. by apply Hin.
Qed.

Lemma clean_domain_trim d : clean_domain d -> to_ascii_lowercase (trim d) = d.
Proof. intros H. rewrite trim_allowed by apply H. apply H. Qed.

(** The tunnel takes the list as it is. *)
Lemma clean_bypass_installed ds g : Forall clean_domain ds -> (set_bypass_domains ds g).(global_bypass) = ds.
Proof.
  intros H. cbn [global_bypass set_bypass_domains]. induction H as [|d ds Hd _ IH]; [done|]. cbn [fmap list_fmap List.filter].
  rewrite clean_domain_trim by done. rewrite bool_decide_eq_false_2 by apply Hd. cbn [negb]. by f_equal.
Qed.

(** ** The calls *)

Section Calls.
Context (parse_url : str -> option Url).
Context (parse_api : str -> option ApiPayload) (parse_single : str -> option RawPreset).
Context (parse_file : str -> option BypassCacheFile) (print_file : BypassCacheFile -> str).
Context (built_url : option str) (embedded_json : str).
Context (data_dir : bool) (written : str -> option str).

(** A request that was made: to an http or https URL with a host and without credentials. *)
Definition asked_ok (u : str) : Prop :=
  trim u = u /\ exists parsed, parse_url u = Some parsed /\
    (to_ascii_lowercase parsed.(scheme) = bs "http" \/ to_ascii_lowercase parsed.(scheme) = bs "https") /\
    parsed.(username) = [] /\ parsed.(password) = None /\ exists h, parsed.(host) = Some h /\ h <> [].
Definition world_ok (w : World) : Prop := cache_ok w.(cache) /\ Forall asked_ok w.(asked).

Lemma validate_ok u v : validate_http_url parse_url u = Ok v -> asked_ok v.
Proof using.
  unfold validate_http_url. case_decide as Ht; [done|]. intros (p & Hp%context_Ok & H)%bind_Ok. revert H.
  destruct (negb _) eqn:Hs; [done|]. destruct (decide (p.(username) <> [] \/ _)) as [Hu|Hu]; [done|]. destruct (host p) as [[|c h]|] eqn:Hh; [done| |done].
  intros [= <-]. split; [apply trim_idemp|]. exists p. apply negb_false_iff, orb_true_iff in Hs. rewrite !bool_decide_eq_true in Hs.
  apply Decidable.not_or in Hu as [Hu Hpw]. split_and!; [done|done|by apply dec_stable|by apply eq_None_not_Some|by exists (c :: h)].
Qed.

(** Computations that keep the worlds well formed, and those that do not touch the list. *)
Definition keeps {A} (m : M A) : Prop := forall w, world_ok w -> world_ok (m w).1.
Lemma keeps_bind {A B} (m : M A) (k : A -> M B) : keeps m -> (forall a, keeps (k a)) -> keeps (m ≫= k).
Proof using. intros Hm Hk w Hw. unfold mbind, st_bind. specialize (Hm w Hw). destruct (m w) as [w' [a|e|]]; [by apply Hk|done|done]. Qed.
Lemma keeps_ret {A} (a : A) : keeps (mret a).
Proof using. by intros w. Qed.
Lemma keeps_lift {A} (r : result A) : keeps (lift r).
Proof using. by intros w. Qed.
Lemma keeps_throw {A} e : keeps (throw (A := A) e).
Proof using. by intros w. Qed.
Lemma keeps_gets {A} (f : World -> A) : keeps (gets f).
Proof using. by intros w. Qed.
Lemma keeps_tried {A} (m : M A) : keeps m -> keeps (tried m).
Proof using. intros Hm w Hw. unfold tried. specialize (Hm w Hw). by destruct (m w). Qed.
Lemma keeps_locked : keeps locked.
Proof using. intros w Hw. unfold locked. by destruct (poisoned w). Qed.
Lemma keeps_panic {A} : keeps (panic_locked (A := A)).
Proof using. by intros w. Qed.
Lemma keeps_apply ps t u a : keeps (modify (set_cache (apply_presets_at ps t u a))).
Proof using. intros w [_ Ha]. split; [apply apply_ok|done]. Qed.
Lemma keeps_save e u t ps : keeps (modify (save_disk_cache print_file data_dir written e u t ps)).
Proof using. intros w Hw. unfold modify, save_disk_cache. by destruct (negb data_dir). Qed.
#[local] Hint Resolve keeps_bind keeps_ret keeps_lift keeps_throw keeps_gets keeps_tried keeps_locked keeps_panic keeps_apply keeps_save : bypass.
Ltac keep := repeat (intros; first [by eauto 2 with bypass | apply keeps_bind | apply keeps_tried | case_match | case_decide]).

Lemma keeps_fetch e u : keeps (fetch_http_body parse_url e u).
Proof using.
  intros w Hw. unfold fetch_http_body, mbind, st_bind, lift at 1. destruct (validate_http_url parse_url u) as [v|x|] eqn:Hv; [|done..].
  apply validate_ok in Hv. cbn [modify]. assert (world_ok (ask v w)) as Ha by (destruct Hw; split; [done|by apply Forall_app; split; [|apply Forall_singleton]]).
  unfold lift. destruct (context _ _) as [resp|x|]; [|done..]. by repeat case_decide.
Qed.
#[local] Hint Resolve keeps_fetch : bypass.
Lemma keeps_fetch_remote e u : keeps (fetch_remote parse_url parse_api parse_single e u).
Proof using. unfold fetch_remote. keep. Qed.
Lemma keeps_fetch_each e u ids : keeps (fetch_each parse_url parse_single e u ids).
Proof using. induction ids; cbn [fetch_each]; keep. Qed.
#[local] Hint Resolve keeps_fetch_remote keeps_fetch_each : bypass.
Lemma keeps_refresh e u : keeps (refresh_from_network_with_fallback parse_url parse_api parse_single e u).
Proof using. unfold refresh_from_network_with_fallback, fetch_remote_presets. keep. Qed.
Lemma keeps_apply_presets e ps t u : keeps (apply_presets e ps t u).
Proof using. unfold apply_presets. keep. Qed.
Lemma keeps_apply_file f u : keeps (apply_file f u).
Proof using. unfold apply_file. keep. Qed.
#[local] Hint Resolve keeps_refresh keeps_apply_presets keeps_apply_file : bypass.
Lemma keeps_embedded e : keeps (apply_embedded_into_cache parse_api built_url embedded_json e).
Proof using. unfold apply_embedded_into_cache. keep. Qed.
#[local] Hint Resolve keeps_embedded : bypass.

#[local] Abbreviation ensure := (ensure_loaded parse_url parse_api parse_single parse_file print_file built_url embedded_json data_dir written).
#[local] Abbreviation calls := (call parse_url parse_api parse_single parse_file print_file built_url embedded_json data_dir written).

Lemma keeps_ensure e force : keeps (ensure e force).
Proof using. unfold ensure_loaded, from_elsewhere, from_network. keep. Qed.
Lemma keeps_background e :
  keeps (background_refresh_full parse_url parse_api parse_single print_file built_url data_dir written e).
Proof using. unfold background_refresh_full. keep. Qed.

Lemma reachable_ok d w : rtc calls (new_world d) w -> world_ok w.
Proof using.
  apply (rtc_ind_r (fun w => world_ok w)); [split; [apply default_ok|done]|].
  intros x y _ [e f z|e z|d' z] Hx; [by apply keeps_ensure|by apply keeps_background|done].
Qed.

(** *** What a call gives *)

(** Asking the network changes nothing but the log of requests, and does not panic. *)
Definition quiet {A} (m : M A) : Prop := forall w, (m w).1.(cache) = w.(cache) /\ (m w).1.(poisoned) = w.(poisoned) /\ (m w).1.(disk) = w.(disk) /\ safe (m w).2.
Lemma safe_read_body resp : safe (read_body_capped resp).
Proof using. unfold read_body_capped. repeat case_match; try done; apply safe_from_utf8. Qed.
Lemma quiet_fetch e u : quiet (fetch_http_body parse_url e u).
Proof using.
  intros w. unfold fetch_http_body, mbind, st_bind, lift. destruct (validate_http_url parse_url u) as [v|x|] eqn:Hv; [|done|].
  - cbn [modify]. destruct (context _ _) as [resp|x|] eqn:Hc; [|done|by destruct (http_get e v)].
    case_decide; [done|]. case_decide; [done|]. cbn. split_and!; [done..|]. apply safe_read_body.
  - exfalso. unfold validate_http_url in Hv. case_decide; [done|]. destruct (parse_url _); [|done]. cbn in Hv. repeat case_match; done.
Qed.

(** What the readers of presets give is clean. *)
Lemma parse_single_clean b p : parse_single_preset parse_single b = Ok p -> sanitized p.
Proof using.
  unfold parse_single_preset. intros (d & _ & H)%bind_Ok. case_decide; [done|]. apply bind_Ok in H as (q & Hq%context_Ok & H).
  case_decide; [done|]. injection H as <-. by eapply sanitize_idemp.
Qed.
Lemma parse_api_clean b ps t : parse_api_payload parse_api b = Ok (ps, t) -> Forall sanitized ps /\ ps <> [].
Proof using.
  unfold parse_api_payload. intros (d & _ & H)%bind_Ok. case_decide as Hne; [done|]. injection H as <- <-. split; [|done]. apply omap_sanitized.
Qed.
Lemma parse_response_clean b ps t : parse_api_response parse_api parse_single b = Ok (ps, t) -> Forall sanitized ps /\ ps <> [].
Proof using.
  unfold parse_api_response. destruct (_ && _); [apply parse_api_clean|]. intros (p & Hp%parse_single_clean & [= <- <-])%bind_Ok.
  split; [by apply Forall_singleton|done].
Qed.
Lemma safe_parse_response b : safe (parse_api_response parse_api parse_single b).
Proof using.
  unfold parse_api_response. destruct (_ && _).
  - unfold parse_api_payload. destruct (parse_api b) as [d|]; cbn [context mbind res_bind]; [by case_decide|done].
  - apply safe_bind; [|done]. unfold parse_single_preset. destruct (parse_single b) as [d|]; cbn [context mbind res_bind]; [|done].
    case_decide; [done|]. destruct (sanitize_preset _) as [p|]; cbn [context mbind res_bind]; [by case_decide|done].
Qed.

(** The bulk request, with what it gives. *)
Lemma fetch_remote_spec e u w :
  let '(w', r) := tried (fetch_remote parse_url parse_api parse_single e u) w in
  w'.(cache) = w.(cache) /\ w'.(poisoned) = w.(poisoned) /\ w'.(disk) = w.(disk) /\
  exists o, r = Ok o /\ match o with Some (ps, t) => Forall sanitized ps /\ ps <> [] | None => True end.
Proof using.
  unfold tried, fetch_remote, mbind, st_bind, lift. destruct (quiet_fetch e u w) as (Hc & Hp & Hd & Hs).
  destruct (fetch_http_body parse_url e u w) as [w' [b|x|]]; cbn [fst snd attempt] in *; [|split_and!; [done..|by exists None]|done].
  pose proof (safe_parse_response b) as Hb. destruct (parse_api_response parse_api parse_single b) as [[ps t]|x|] eqn:E; cbn [attempt];
    [apply parse_response_clean in E; split_and!; [done..|by eexists]|split_and!; [done..|by exists None]|done].
Qed.

(** A list is settled when it is the one in memory. *)
Definition settled_as (w : World) (l : list BypassPresetInfo) : Prop := cached_presets_or_empty w = l /\ w.(poisoned) = false.

Lemma apply_presets_settled e ps t u w : Forall sanitized ps -> w.(poisoned) = false ->
  exists w', apply_presets e ps t u w = (w', Ok tt) /\ settled_as w' ps.
Proof using.
  intros Hs Hp. unfold apply_presets, locked, mbind, st_bind, modify. rewrite Hp. eexists. split; [reflexivity|].
  split; [|done]. unfold cached_presets_or_empty. cbn. rewrite Hp. cbn. by apply sanitized_omap.
Qed.
Lemma apply_file_settled f u w : w.(poisoned) = false ->
  (exists w' l, apply_file f u w = (w', Ok l) /\ settled_as w' l) \/ ((apply_file f u w).2 = Panic /\ last_second < f.(fetched_at_unix)).
Proof using.
  intros Hp. unfold apply_file, locked, mbind, st_bind. rewrite Hp. case_decide; [by right|left]. eexists _, _. split; [reflexivity|].
  split; [|done]. unfold cached_presets_or_empty. cbn. by rewrite Hp.
Qed.
Lemma embedded_settled e w : w.(poisoned) = false ->
  exists w' l, apply_embedded_into_cache parse_api built_url embedded_json e w = (w', Ok l) /\
    match load_embedded_presets parse_api embedded_json with Some _ => settled_as w' l /\ l <> [] | None => w' = w /\ l = [] end.
Proof using.
  intros Hp. unfold apply_embedded_into_cache. destruct (load_embedded_presets parse_api embedded_json) as [[ps t]|] eqn:El; [|by exists w, []].
  unfold load_embedded_presets in El. destruct (parse_api_payload parse_api embedded_json) as [[ps' t']|x|] eqn:E; [|done..].
  case_decide as Hne; [done|]. injection El as -> ->. apply parse_api_clean in E as [Hs _].
  destruct (apply_presets_settled e ps t (default EMBEDDED_URL (bypass_domains_url built_url e)) w Hs Hp) as (w' & Ha & Hw).
  exists w', ps. unfold mbind, st_bind. by rewrite Ha.
Qed.

(** A call gives a settled list, or panics on a time in the cache file that is out of range. *)
Definition outcome (d : option str) (x : World * result (list BypassPresetInfo)) : Prop :=
  (exists w l, x = (w, Ok l) /\ settled_as w l) \/
  (x.2 = Panic /\ exists text f, d = Some text /\ parse_file text = Some f /\ last_second < f.(fetched_at_unix)).

Lemma load_disk_from e u w f : load_disk_cache parse_file data_dir e u w = Some f -> exists text, w.(disk) = Some text /\ parse_file text = Some f.
Proof using.
  unfold load_disk_cache. destruct (negb data_dir); [done|]. destruct (disk w) as [text|]; [|done]. cbn [mbind option_bind].
  destruct (parse_file text) as [g|] eqn:E; [|done]. cbn [mbind option_bind]. case_decide; [done|]. case_decide; [done|]. intros [= <-]. eauto.
Qed.
Lemma apply_file_outcome e u u' w f :
  w.(poisoned) = false -> load_disk_cache parse_file data_dir e u w = Some f -> outcome w.(disk) (apply_file f u' w).
Proof using.
  intros Hp (text & Ht & Hf)%load_disk_from. destruct (apply_file_settled f u' w Hp) as [(w' & l & Ha & Hs)|[Hq Hl]]; [left|right]; eauto 10.
Qed.

Lemma from_network_outcome e u w : w.(poisoned) = false ->
  outcome w.(disk) (from_network parse_url parse_api parse_single parse_file print_file built_url embedded_json data_dir written e u w).
Proof using.
  intros Hp. unfold from_network. pose proof (fetch_remote_spec e u w) as Hf.
  destruct (tried _ w) as [w1 r] eqn:Ht. destruct Hf as (Hc & Hq & Hd & o & -> & Ho). rewrite Hp in Hq.
  rewrite (st_bind_step _ _ _ _ _ Ht). destruct o as [[ps t]|].
  - destruct Ho as [Hs _]. set (w2 := save_disk_cache print_file data_dir written e u t ps w1).
    assert (w2.(poisoned) = false) as Hp2 by (unfold w2, save_disk_cache; by destruct (negb data_dir)).
    destruct (apply_presets_settled e ps t u w2 Hs Hp2) as (w' & Ha & Hw).
    left. exists w', ps. split; [|done]. unfold mbind, st_bind, modify. fold w2. by rewrite Ha.
  - unfold mbind at 1, st_bind at 1, locked. rewrite Hq. destruct (loaded (cache w1) && _) eqn:El.
    + left. eexists _, _. split; [reflexivity|]. split; [|done]. unfold cached_presets_or_empty. rewrite Hq.
      apply andb_true_iff in El as [-> _]. done.
    + unfold mbind at 1, st_bind at 1, gets. destruct (load_disk_cache parse_file data_dir e u w1) as [f|] eqn:Hf.
      * rewrite <- Hd. by eapply apply_file_outcome.
      * left. destruct (embedded_settled e w1 Hq) as (w' & l & Ha & He). exists w', l. split; [done|].
        destruct (load_embedded_presets parse_api embedded_json); [apply He|]. destruct He as [-> ->]. split; [|done].
        unfold cached_presets_or_empty. rewrite Hq. destruct (loaded (cache w1)); [|done]. cbn [andb negb] in El |- *.
        by apply negb_false_iff, bool_decide_eq_true in El.
Qed.

Lemma from_elsewhere_outcome e force u w :
  w.(poisoned) = false -> ~ (bypass_domains_url built_url e = None /\ load_embedded_presets parse_api embedded_json = None) ->
  outcome w.(disk) (from_elsewhere parse_url parse_api parse_single parse_file print_file built_url embedded_json data_dir written e force u w).
Proof using.
  intros Hp Hn. unfold from_elsewhere.
  set (network := match bypass_domains_url built_url e with None => _ | Some _ => _ end).
  assert (outcome w.(disk) (network w)) as Hnet.
  { unfold network. destruct (bypass_domains_url built_url e) as [r|]; [by apply from_network_outcome|].
    destruct (embedded_settled e w Hp) as (w' & l & Ha & He). left. exists w', l. split; [done|].
    destruct (load_embedded_presets parse_api embedded_json); [apply He|tauto]. }
  destruct force; [done|]. unfold mbind at 1, st_bind at 1, gets. destruct (load_disk_cache parse_file data_dir e u w) as [f|] eqn:Hf.
  - by eapply apply_file_outcome.
  - destruct (embedded_settled e w Hp) as (w' & l & Ha & He). unfold mbind, st_bind, tried. rewrite Ha. cbn [attempt].
    destruct (load_embedded_presets parse_api embedded_json) as [x|].
    + destruct He as [He Hl]. destruct l as [|q l]; [done|]. left. by exists w', (q :: l).
    + destruct He as [-> ->]. done.
Qed.

Lemma safe_validate u : safe (validate_http_url parse_url u).
Proof using.
  unfold validate_http_url. case_decide; [done|]. apply safe_bind; [by destruct (parse_url _)|]. intros p _. repeat case_match; done.
Qed.
(** A usable URL, or no URL and a list built in. *)
Definition usable (e : Env) : bool :=
  match bypass_domains_url built_url e with
  | Some u => is_ok (validate_http_url parse_url u)
  | None => match load_embedded_presets parse_api embedded_json with Some _ => true | None => false end
  end.
Lemma usable_url e : usable e = true ->
  (exists v, match bypass_domains_url built_url e with Some raw => validate_http_url parse_url raw | None => Ok [] end = Ok v) /\
  ~ (bypass_domains_url built_url e = None /\ load_embedded_presets parse_api embedded_json = None).
Proof using.
  unfold usable. destruct (bypass_domains_url built_url e) as [u|].
  - destruct (validate_http_url parse_url u); [|done..]. intros _. split; [by eexists|by intros []].
  - destruct (load_embedded_presets parse_api embedded_json); [|done]. intros _. split; [by eexists|by intros []].
Qed.
Lemma ensure_unusable e force w : usable e = false -> exists x, ensure e force w = (w, Err x).
Proof using.
  unfold usable, ensure_loaded. destruct (bypass_domains_url built_url e) as [u|].
  - rewrite decide_False by (by intros []). pose proof (safe_validate u). destruct (validate_http_url parse_url u) as [v|x|]; [done|by eexists|done].
  - destruct (load_embedded_presets parse_api embedded_json); [done|]. rewrite decide_True by done. by eexists.
Qed.
Lemma poisoned_fails e force w : w.(poisoned) = true -> exists x, ensure e force w = (w, Err x).
Proof using.
  intros Hp. destruct (usable e) eqn:Hu; [|by apply ensure_unusable]. apply usable_url in Hu as [[v Hv] Hn].
  unfold ensure_loaded. rewrite decide_False by done. rewrite Hv. unfold mbind, st_bind, lift, locked. rewrite Hp. by eexists.
Qed.
(** The fresh list in memory is the answer. *)
Lemma fresh_answered e w l :
  settled_as w l -> w.(cache).(loaded) = true -> cache_is_fresh e.(now) w.(cache) = true -> w.(cache).(url) = default EMBEDDED_URL (bypass_domains_url built_url e) ->
  usable e = true -> ensure e false w = (w, Ok l).
Proof using.
  intros [Hs Hp] Hl Hf Hu [[v Hv] Hn]%usable_url. unfold ensure_loaded. rewrite decide_False by done. rewrite Hv.
  unfold mbind, st_bind, lift, locked. rewrite Hp, Hl, Hf, bool_decide_eq_true_2 by done. cbn [andb negb].
  unfold cached_presets_or_empty in Hs. rewrite Hp, Hl in Hs. cbn [andb negb] in Hs. by rewrite Hs.
Qed.
Lemma ensure_outcome e force w : usable e = true -> w.(poisoned) = false -> outcome w.(disk) (ensure e force w).
Proof using.
  intros [[v Hv] Hn]%usable_url Hp. unfold ensure_loaded. rewrite decide_False by done. rewrite Hv. unfold mbind, st_bind, lift, locked. rewrite Hp.
  destruct (_ && _) eqn:Hf; [|by apply from_elsewhere_outcome].
  left. eexists _, _. split; [reflexivity|]. split; [|done]. unfold cached_presets_or_empty. rewrite Hp.
  rewrite !andb_true_iff in Hf. by destruct Hf as (((-> & _) & _) & _).
Qed.
(** On the first start the list built in is taken without asking the network; a list that was fetched and has become stale is replaced by it as well. *)
Lemma embedded_before_network e w :
  w.(poisoned) = false -> load_embedded_presets parse_api embedded_json <> None -> (forall u, load_disk_cache parse_file data_dir e u w = None) ->
  usable e = true -> cache_is_fresh e.(now) w.(cache) = false ->
  exists ps t w', load_embedded_presets parse_api embedded_json = Some (ps, t) /\ ensure e false w = (w', Ok ps) /\ w'.(asked) = w.(asked) /\
    w'.(cache).(presets) = omap sanitize_preset ps.
Proof using.
  intros Hp He Hd [[v Hv] Hn]%usable_url Hf. unfold ensure_loaded. rewrite decide_False by done. rewrite Hv.
  unfold mbind, st_bind, lift, locked. rewrite Hp, Hf, andb_false_r. cbn [andb]. unfold from_elsewhere, mbind, st_bind, gets. rewrite Hd.
  destruct (load_embedded_presets parse_api embedded_json) as [[ps t]|] eqn:El; [|done]. exists ps, t.
  unfold tried, apply_embedded_into_cache. rewrite El. unfold apply_presets, locked, mbind, st_bind, modify. rewrite Hp. cbn [attempt].
  unfold load_embedded_presets in El. destruct (parse_api_payload _ _) as [[ps' t']|x|]; [|done..]. case_decide as Hne; [done|].
  injection El as -> ->. destruct ps as [|q ps]; [done|]. eexists. split_and!; reflexivity.
Qed.
End Calls.

(** ** The properties *)

Section Properties.
Context (parse_url : str -> option Url).
Context (parse_api : str -> option ApiPayload) (parse_single : str -> option RawPreset).
Context (parse_file : str -> option BypassCacheFile) (print_file : BypassCacheFile -> str).
Context (built_url : option str) (embedded_json : str).
Context (data_dir : bool) (written : str -> option str).

(** C39: Whatever the network and the cache file hold, after any calls: the domains a profile takes around the tunnel are at most 4096 different clean names
    (no separator, quote, space or control character, lower case), each of a preset that is in memory and chosen by the profile, and the tunnel
    installs exactly this list; the Android packages are at most 512 different clean names in order; and every request made went
    to an http or https URL with a host and no credentials. *)
Theorem bypass_lists_clean d w p g :
  rtc (call parse_url parse_api parse_single parse_file print_file built_url embedded_json data_dir written) (new_world d) w ->
  let ds := bypass_domains_for_profile (lock_of w) p in
  let ks := android_split_packages_for_profile (lock_of w) p in
  clean_domains ds /\ len ds <= MAX_SPLIT_DOMAINS /\ (set_bypass_domains ds g).(global_bypass) = ds /\
  (forall x, x ∈ ds -> p.(split_tunnel_enabled) = true /\
     exists id pr, id ∈ p.(split_tunnel_preset_ids) /\ w.(cache).(by_id) !! trim id = Some pr /\ pr ∈ w.(cache).(presets) /\ x ∈ pr.(p_domains)) /\
  clean_packages ks /\ len ks <= MAX_SPLIT_PACKAGES /\ text_sorted ks /\ (p.(split_tunnel_enabled) = false -> ds = [] /\ ks = []) /\
  Forall (asked_ok parse_url) w.(asked).
Proof using.
  intros [Hc Ha]%reachable_ok. cbv zeta. unfold bypass_domains_for_profile, android_split_packages_for_profile.
  destruct (split_tunnel_enabled p); cbn [negb]; cycle 1.
  { split_and!; try done; [apply clean_nil|intros x ?%elem_of_nil; done|apply clean_nil]. }
  destruct (normalized_domains_spec (lock_of w) p.(split_tunnel_preset_ids)) as (H1 & H2 & H3).
  destruct (push_package_spec (android_packages_for_preset_ids_from_cache (lock_of w) p.(split_tunnel_preset_ids)) []) as (K1 & K2 & _);
    [apply clean_nil|done|]. cbv zeta in K1, K2. set (out := fold_left push_package _ _) in K1, K2 |- *.
  destruct (push_package_spec (android_manual_split_packages p ++ android_split_tunnel_packages p) out K1 K2) as (L1 & L2 & _).
  cbv zeta in L1, L2. set (all := fold_left push_package _ out) in L1, L2 |- *. destruct (sort_texts_spec all) as [Hp Hs].
  split_and!; [done|done|apply clean_bypass_installed, H1| |split; [by rewrite Hp; apply L1|by rewrite Hp; apply L1]|unfold len in *; by rewrite Hp|done|done|done].
  intros x Hx. split; [done|]. destruct (H3 x Hx) as (state & id & pr & raw & Hst & Hi & Hl & Hr & Hn).
  assert (state = w.(cache)) as -> by (unfold lock_of in Hst; destruct (poisoned w); congruence). destruct (ok_by_id _ Hc _ _ Hl) as [Hin _].
  exists id, pr. split_and!; [done..|]. pose proof (ok_presets _ Hc) as Hsan. rewrite Forall_forall in Hsan. specialize (Hsan pr Hin).
  apply preset_sanitize_clean in Hsan as [[Hd _] _]. rewrite Forall_forall in Hd. rewrite (clean_domain_fixed raw (Hd raw Hr)) in Hn. by injection Hn as ->.
Qed.

#[local] Abbreviation ensured := (ensure_loaded parse_url parse_api parse_single parse_file print_file built_url embedded_json data_dir written).
#[local] Abbreviation has_source := (usable parse_url parse_api built_url embedded_json).

(** A call for the lists that finds a usable URL or a built-in list always comes back with a list, which is then the one in memory: a later call for the same
    URL, while that list is fresh, gives it again and asks nobody; without either it fails and changes nothing. The exception: a time out of range in the
    cache file panics, and once the lock is poisoned every call fails. *)
Theorem bypass_list_settles e force w w' r :
  ensured e force w = (w', r) ->
  (w.(poisoned) = true \/ has_source e = false -> w' = w /\ exists x, r = Err x) /\
  (w.(poisoned) = false -> has_source e = true ->
   (r = Panic /\ exists text f, w.(disk) = Some text /\ parse_file text = Some f /\ last_second < f.(fetched_at_unix)) \/
   exists l, r = Ok l /\ cached_presets_or_empty w' = l /\
     forall e', bypass_domains_url built_url e' = bypass_domains_url built_url e -> w'.(cache).(loaded) = true -> cache_is_fresh e'.(now) w'.(cache) = true ->
       w'.(cache).(url) = default EMBEDDED_URL (bypass_domains_url built_url e) -> ensured e' false w' = (w', Ok l)).
Proof using.
  intros H. split.
  - intros Hw. assert (exists x, ensured e force w = (w, Err x)) as [x E] by (destruct Hw; [by apply poisoned_fails|by apply ensure_unusable]).
    rewrite E in H. injection H as <- <-. by eauto.
  - intros Hp Hu. pose proof (ensure_outcome parse_url parse_api parse_single parse_file print_file built_url embedded_json data_dir written e force w Hu Hp) as Ho.
    rewrite H in Ho. destruct Ho as [(w0 & l & E & Hs)|Hq]; [right|by left]. injection E as -> ->. exists l. split_and!; [done|apply Hs|].
    intros e' Hue Hl Hf Hur. apply fresh_answered; [done|done|done|by rewrite Hue|]. unfold usable in *. by rewrite Hue.
Qed.
End Properties.

(** ** A control plane with one list *)

Definition sample_url (u : str) : option Url :=
  if starts_with u (bs "https://") then
    Some {| scheme := bs "https"; username := []; password := None; host := Some (drop 8 u); port := None; query := None; fragment := None; url_path := bs "/" |}
  else None.
Definition sample_raw : RawPreset :=
  {| r_id := bs " banks"; r_label := None; r_source := None; r_domains := [bs "Sber.RU"; bs "sber.ru."; bs "bad;domain"; bs "*.vtb.ru"];
     r_android_packages := [bs " ru.vtb "; bs "bad package"] |}.
Definition sample_api (t : str) : option ApiPayload := if decide (t = bs "E") then Some {| ttl_sec := 60; api_presets := [sample_raw] |} else None.
Definition sample_file (t : str) : option BypassCacheFile :=
  if decide (t = bs "F") then Some {| fetched_at_unix := last_second + 1; file_ttl_sec := 3600; file_url := bs "https://cp.example"; file_presets := [] |} else None.
Definition sample_env : Env := {| runtime_url := Some (bs " https://cp.example "); now := 5 * SECOND; http_get _ := None |}.
Definition sample_ensure (force : bool) (d : option str) : World * result (list BypassPresetInfo) :=
  ensure_loaded sample_url sample_api (fun _ => None) sample_file (fun _ => []) None (bs "E") true (fun _ => None) sample_env force (new_world d).
Definition sample_profile : SplitProfile :=
  {| split_tunnel_enabled := true; split_tunnel_preset_ids := [bs "none"; bs "banks "]; android_split_tunnel_packages := [bs "a.b"; bs "ru.vtb"];
     android_manual_split_packages := [bs "x;y"] |}.

Lemma bypass_lists_clean_witness :
  let w := (sample_ensure true None).1 in
  bypass_domains_for_profile (lock_of w) sample_profile = [bs "sber.ru"; bs "*.vtb.ru"] /\
  android_split_packages_for_profile (lock_of w) sample_profile = [bs "a.b"; bs "ru.vtb"] /\
  w.(asked) = [bs "https://cp.example"] /\ Forall (asked_ok sample_url) w.(asked).
Proof.
  intros w. split; [vm_compute; reflexivity|]. split; [vm_compute; reflexivity|]. split; [vm_compute; reflexivity|].
  apply (bypass_lists_clean sample_url sample_api (fun _ => None) sample_file (fun _ => []) None (bs "E") true (fun _ => None) None w sample_profile
    {| global_map := ∅; global_bypass := [] |}).
  apply rtc_once. exact (Ensure sample_url sample_api (fun _ => None) sample_file (fun _ => []) None (bs "E") true (fun _ => None) sample_env true (new_world None)).
Defined.

Lemma bypass_list_settles_witness :
  (exists w l, sample_ensure false None = (w, Ok l) /\ length l = 1%nat /\
     ensure_loaded sample_url sample_api (fun _ => None) sample_file (fun _ => []) None (bs "E") true (fun _ => None)
       {| runtime_url := Some (bs "https://cp.example"); now := 3600 * SECOND; http_get _ := None |} false w = (w, Ok l)) /\
  (sample_ensure false (Some (bs "F"))).2 = Panic.
Proof.
  split; [|vm_compute; reflexivity]. destruct (sample_ensure false None) as [w r] eqn:E.
  pose proof (bypass_list_settles sample_url sample_api (fun _ => None) sample_file (fun _ => []) None (bs "E") true (fun _ => None) sample_env false
    (new_world None) w r E) as [_ H].
  destruct (H eq_refl ltac:(vm_compute; reflexivity)) as [[_ (t & f & Ht & _)]|(l & -> & Hl & Hn)]; [done|].
  exists w, l. split; [done|]. vm_compute in E. apply (f_equal fst) in E as Ew. apply (f_equal snd) in E. injection E as <-. cbn [fst] in Ew. subst w.
  split; [reflexivity|]. apply Hn; vm_compute; reflexivity.
Defined.
