(* ===== verification/DesktopVpn.v ===== *)
(** Connecting and disconnecting in the desktop application ([apps/bibavpn-desktop], [lib.rs]): the state behind one lock, the proxy settings
    of the system, and the threads that work on both: the user's connects and disconnects, the tray's, and the watchdog that
    brings a lost tunnel back. A thread is a stack of frames; a frame is what happens between two points where others may come in. *)
From S2P Require Import Prelude Text.

Inductive VpnPhase : Set := Idle | Connecting | Connected | Disconnecting.
#[export] Instance VpnPhase_eq_dec : EqDecision VpnPhase.
Proof. solve_decision. Defined.

(** The proxy settings of the system: the user's own, or those that point to the local ports. *)
Inductive Proxy : Set := Theirs (settings : Z) | Off | Ours.
#[export] Instance Proxy_eq_dec : EqDecision Proxy.
Proof. solve_decision. Defined.

Record Inner := {
  proxy_backup : option Proxy;
  vpn : option nat;
  tunnel_server : option str;
  last_error : option str;
  phase : VpnPhase;
  recovery_pending : bool;
  epoch : Z;
  connect_token : Z;
}.
(** The state, the system's proxy settings, the clients that run, and the number of the next one. *)
Record World := { inner : Inner; os : Proxy; running : gset nat; next_client : nat }.

Definition bump_epoch (n : Z) : Z := (n + 1) mod 2 ^ 64.
Definition can_install_connection (p : VpnPhase) (current_token my_token : Z) : bool := bool_decide (p = Connecting /\ current_token = my_token).
Definition should_start_watchdog_recovery (p : VpnPhase) (has_vpn : bool) : bool := bool_decide (p = Connected) && has_vpn.
(** In seconds. *)
Definition next_recovery_backoff (current : Z) : Z :=
  if decide (current = 0) then 2 else if decide (current < 5) then 5 else if decide (current < 10) then 10
  else if decide (current < 20) then 20 else 30.
(** On Unix. *)
Definition is_fd_exhaustion_message (msg : str) : bool :=
  contains msg (bs "Too many open files") || contains msg (bs "os error 24") || contains msg (bs "os error 23").

(** How the outside answers one frame: whether what it tries succeeds, what a failure leaves of the proxy settings, its text, the server's label. *)
Record Choice := { goes : bool; os_left : Proxy; error : str; label : str }.

(** [tok] is the attempt's [connect_token]; the frames from [C_cancelled] on carry it for the proofs only. *)
Inductive Frame : Set :=
| C_check
| C_begin
| C_persist (tok : Z) (saved : option Proxy)
| C_backup (tok : Z) (saved : option Proxy)
| C_start (tok : Z) (backup : Proxy)
| C_ready (tok : Z) (backup : Proxy) (client : nat) (remote_label : str)
| C_proxy (tok : Z) (backup : Proxy) (client : nat) (remote_label : str)
| C_install (tok : Z) (backup : Proxy) (client : nat) (remote_label : str)
| C_cancelled (tok : Z) (backup : Proxy) (client : nat)
| C_undo (tok : Z) (user_cancelled : bool) (backup : Proxy) (client : nat)
| C_restore (tok : Z) (backup : Proxy)
| C_drop (tok : Z) (e : str)
| U_result
| D_begin (restore_system_proxy : bool)
| D_proxy (restore_system_proxy : bool) (backup : option Proxy) (vpn : option nat)
| D_stop (vpn : option nat) (pending_error : option str)
| D_end (pending_error : option str)
| W_tick
| W_retry
| W_probe
| W_begin
| W_decide
| W_result
| W_fd (e : str).

(** ** What the frames do to the state *)

Definition set_inner (f : Inner -> Inner) (w : World) : World :=
  {| inner := f w.(inner); os := w.(os); running := w.(running); next_client := w.(next_client) |}.
Definition set_os (p : Proxy) (w : World) : World := {| inner := w.(inner); os := p; running := w.(running); next_client := w.(next_client) |}.
Definition stop_client (c : nat) (w : World) : World :=
  {| inner := w.(inner); os := w.(os); running := w.(running) ∖ {[c]}; next_client := w.(next_client) |}.
Definition spawn_client (w : World) : World :=
  {| inner := w.(inner); os := w.(os); running := {[w.(next_client)]} ∪ w.(running); next_client := S w.(next_client) |}.

Definition set_phase (p : VpnPhase) (g : Inner) : Inner :=
  {| proxy_backup := g.(proxy_backup); vpn := g.(vpn); tunnel_server := g.(tunnel_server); last_error := g.(last_error);
     phase := p; recovery_pending := g.(recovery_pending); epoch := g.(epoch); connect_token := g.(connect_token) |}.
Definition set_recovery (b : bool) (g : Inner) : Inner :=
  {| proxy_backup := g.(proxy_backup); vpn := g.(vpn); tunnel_server := g.(tunnel_server); last_error := g.(last_error);
     phase := g.(phase); recovery_pending := b; epoch := g.(epoch); connect_token := g.(connect_token) |}.
Definition keep_error (e : option str) (g : Inner) : Inner :=
  {| proxy_backup := g.(proxy_backup); vpn := g.(vpn); tunnel_server := g.(tunnel_server);
     last_error := match e with Some _ => e | None => g.(last_error) end;
     phase := g.(phase); recovery_pending := g.(recovery_pending); epoch := g.(epoch); connect_token := g.(connect_token) |}.
Definition set_error (e : str) (g : Inner) : Inner :=
  let g := keep_error (Some e) g in
  {| proxy_backup := g.(proxy_backup); vpn := g.(vpn); tunnel_server := g.(tunnel_server); last_error := g.(last_error);
     phase := g.(phase); recovery_pending := g.(recovery_pending); epoch := bump_epoch g.(epoch); connect_token := g.(connect_token) |}.

(** The locked part of [connect_inner] that takes the phase. *)
Definition begin_connect (g : Inner) : Inner :=
  {| proxy_backup := g.(proxy_backup); vpn := g.(vpn);
     tunnel_server := match g.(vpn) with None => None | Some _ => g.(tunnel_server) end; last_error := None;
     phase := Connecting; recovery_pending := g.(recovery_pending); epoch := bump_epoch g.(epoch); connect_token := (g.(connect_token) + 1) mod 2 ^ 64 |}.
Definition install (backup : Proxy) (client : nat) (remote_label : str) (g : Inner) : Inner :=
  {| proxy_backup := Some backup; vpn := Some client; tunnel_server := Some remote_label; last_error := g.(last_error);
     phase := Connected; recovery_pending := false; epoch := bump_epoch g.(epoch); connect_token := g.(connect_token) |}.
(** The first locked part of [disconnect_inner]. *)
Definition begin_disconnect (restore_system_proxy : bool) (g : Inner) : Inner :=
  {| proxy_backup := if restore_system_proxy then None else g.(proxy_backup); vpn := None; tunnel_server := None; last_error := None;
     phase := Disconnecting; recovery_pending := if restore_system_proxy then false else g.(recovery_pending);
     epoch := bump_epoch g.(epoch); connect_token := g.(connect_token) |}.

(** [restore] of a backup, and [disable_if_residual_biba_proxy] without one. *)
Definition restored (backup : option Proxy) (current : Proxy) : Proxy :=
  match backup with Some b => b | None => match current with Ours => Off | p => p end end.

(** What a frame leaves: the state after it, the frames that take its place, the result to pass on. *)
Definition Left : Type := World * list Frame * option str.

(** [connect_inner] up to the proxy settings. *)
Definition connect_frame (c : Choice) (f : Frame) (w : World) : Left :=
  let g := w.(inner) in
  match f with
  | C_check =>
    if bool_decide (is_Some g.(vpn) /\ g.(phase) = Connected) then (w, [D_begin true; C_begin], None) else (w, [C_begin], None)
  | C_begin =>
    match g.(phase) with
    | Connecting => (w, [], Some (bs "already connecting"))
    | Disconnecting => (w, [], Some (bs "wait for the disconnect"))
    | Idle | Connected =>
      let w' := set_inner begin_connect w in
      let tok := w'.(inner).(connect_token) in
      (w', [if c.(goes) then C_persist tok g.(proxy_backup) else C_drop tok c.(error)], None)
    end
  | C_persist tok saved => (w, [if c.(goes) then C_backup tok saved else C_drop tok c.(error)], None)
  | C_backup tok saved =>
    match saved with
    | Some b => (w, [C_start tok b], None)
    | None => (w, [if c.(goes) then C_start tok w.(os) else C_drop tok c.(error)], None)
    end
  | C_start tok backup =>
    if c.(goes) then (spawn_client w, [C_ready tok backup w.(next_client) c.(label)], None) else (w, [C_drop tok c.(error)], None)
  | C_ready tok backup client l =>
    if c.(goes) then (w, [C_proxy tok backup client l], None) else (stop_client client w, [C_drop tok c.(error)], None)
  | C_proxy tok backup client l =>
    if c.(goes) then (set_os Ours w, [C_install tok backup client l], None)
    else (stop_client client (set_os c.(os_left) w), [C_drop tok c.(error)], None)
  | _ => (w, [], None)
  end.

(** The drop of an armed [ConnectingPhaseGuard]. *)
Definition drop_guard (w : World) : World := if bool_decide (w.(inner).(phase) = Connecting) then set_inner (set_phase Idle) w else w.

(** [connect_inner] from the test that publishes the tunnel on. *)
Definition publish_frame (c : Choice) (f : Frame) (w : World) : Left :=
  let g := w.(inner) in
  match f with
  | C_install tok backup client l =>
    if can_install_connection g.(phase) g.(connect_token) tok then (set_inner (install backup client l) w, [], None)
    else (w, [C_cancelled tok backup client], None)
  | C_cancelled tok backup client => (w, [C_undo tok (negb (bool_decide (g.(phase) = Connecting))) backup client], None)
  | C_undo tok user_cancelled backup client =>
    (stop_client client w, [if user_cancelled then C_restore tok backup else C_drop tok (bs "cancelled")], None)
  | C_restore tok backup => (set_os (if c.(goes) then backup else c.(os_left)) w, [C_drop tok (bs "cancelled")], None)
  | C_drop tok e => (drop_guard w, [], Some e)
  | _ => (w, [], None)
  end.

(** [disconnect_inner]. *)
Definition disconnect_frame (c : Choice) (f : Frame) (w : World) : Left :=
  let g := w.(inner) in
  match f with
  | D_begin r =>
    if bool_decide (g.(phase) = Disconnecting) then (w, [], None)
    else (set_inner (begin_disconnect r) w, [D_proxy r (if r then g.(proxy_backup) else None) g.(vpn)], None)
  | D_proxy r backup v =>
    if negb r then (w, [D_stop v None], None)
    else if c.(goes) then (set_os (restored backup w.(os)) w, [D_stop v None], None)
    else (set_os c.(os_left) w, [D_stop v (Some c.(error))], None)
  | D_stop v e => (match v with Some client => stop_client client w | None => w end, [D_end e], None)
  | D_end e => (set_inner (fun g => set_phase Idle (keep_error e g)) w, [], None)
  | _ => (w, [], None)
  end.

Definition fail_fd_exhaustion_recovery (e : str) : list Frame := [D_begin true; W_fd e].

(** One turn of the loop of [spawn_tunnel_recovery_watch], with the result of the connect that ended before the frame. *)
Definition watchdog_frame (c : Choice) (f : Frame) (last : option str) (w : World) : Left :=
  let g := w.(inner) in
  match f with
  | W_tick =>
    match g.(phase) with
    | Connected => (w, if bool_decide (is_Some g.(vpn)) then [W_probe] else [], None)
    | Idle => (w, if g.(recovery_pending) then [W_retry] else [], None)
    | _ => (w, [], None)
    end
  | W_retry => (w, if g.(recovery_pending) then [C_check; W_result] else [], None)
  | W_probe => (w, if c.(goes) then [] else [W_begin], None)
  | W_begin =>
    if should_start_watchdog_recovery g.(phase) (bool_decide (is_Some g.(vpn)))
    then (set_inner (set_recovery true) w, [D_begin false; W_decide], None) else (w, [], None)
  | W_decide => (w, if g.(recovery_pending) then [C_check; W_result] else [], None)
  | W_result =>
    match last with
    | None => (w, [], None)
    | Some e => if is_fd_exhaustion_message e then (w, fail_fd_exhaustion_recovery e, None) else (set_inner (set_error e) w, [], None)
    end
  | W_fd e => (set_inner (fun g => set_error e (set_recovery false g)) w, [], None)
  | _ => (w, [], None)
  end.

Definition run_frame (c : Choice) (f : Frame) (last : option str) (w : World) : Left :=
  match f with
  | C_check | C_begin | C_persist _ _ | C_backup _ _ | C_start _ _ | C_ready _ _ _ _ | C_proxy _ _ _ _ => connect_frame c f w
  | C_install _ _ _ _ | C_cancelled _ _ _ | C_undo _ _ _ _ | C_restore _ _ | C_drop _ _ => publish_frame c f w
  | U_result => (match last with Some e => set_inner (set_error e) w | None => w end, [], None)
  | D_begin _ | D_proxy _ _ _ | D_stop _ _ | D_end _ => disconnect_frame c f w
  | W_tick | W_retry | W_probe | W_begin | W_decide | W_result | W_fd _ => watchdog_frame c f last w
  end.

(** ** Threads *)

Record Thread := { stack : list Frame; result : option str }.
Inductive Call : Set := Connect | Disconnect | Tick.
Definition frames_of (c : Call) : list Frame :=
  match c with Connect => [C_check; U_result] | Disconnect => [D_begin true] | Tick => [W_tick] end.

Record System := { world : World; threads : list Thread; attempts : Z }.
Definition starts_attempt (f : Frame) (w : World) : Z :=
  match f with C_begin => match w.(inner).(phase) with Idle | Connected => 1 | _ => 0 end | _ => 0 end.

(** A call arrives, a thread goes on, or a client ends by itself. [attempts] counts the connects that took the phase. *)
Inductive step : System -> System -> Prop :=
| Called s c : step s {| world := s.(world); threads := s.(threads) ++ [{| stack := frames_of c; result := None |}]; attempts := s.(attempts) |}
| Stepped s i f k last c w fs r :
  s.(threads) !! i = Some {| stack := f :: k; result := last |} -> run_frame c f last s.(world) = (w, fs, r) ->
  step s {| world := w; threads := <[i := {| stack := fs ++ k; result := r |}]> s.(threads); attempts := s.(attempts) + starts_attempt f s.(world) |}
| Client_ended s client : step s {| world := stop_client client s.(world); threads := s.(threads); attempts := s.(attempts) |}.

Definition start_world (settings : Proxy) : World :=
  {| inner := {| proxy_backup := None; vpn := None; tunnel_server := None; last_error := None; phase := Idle; recovery_pending := false;
                 epoch := 0; connect_token := 0 |}; os := settings; running := ∅; next_client := 0 |}.
Definition start (settings : Proxy) : System := {| world := start_world settings; threads := []; attempts := 0 |}.
Definition reachable (s : System) : Prop := exists settings, rtc step (start settings) s.

(** A schedule: which call arrives, or which thread goes on and how it is answered. *)
Inductive Event := Arrives (c : Call) | Goes (thread : nat) (c : Choice).
Definition play_event (e : Event) (s : System) : option System :=
  match e with
  | Arrives c => Some {| world := s.(world); threads := s.(threads) ++ [{| stack := frames_of c; result := None |}]; attempts := s.(attempts) |}
  | Goes i c =>
    match s.(threads) !! i with
    | Some {| stack := f :: k; result := last |} =>
      let '(w, fs, r) := run_frame c f last s.(world) in
      Some {| world := w; threads := <[i := {| stack := fs ++ k; result := r |}]> s.(threads); attempts := s.(attempts) + starts_attempt f s.(world) |}
    | _ => None
    end
  end.
Fixpoint play (es : list Event) (s : System) : option System :=
  match es with [] => Some s | e :: es => match play_event e s with Some s => play es s | None => None end end.

(** A change of the proxy settings that goes wrong: they are not put back, or could not be applied and are not as they were either. *)
Definition mishap (c : Choice) (f : Frame) (w : World) : bool :=
  match f with
  | C_proxy _ _ _ _ => negb c.(goes) && negb (bool_decide (c.(os_left) = w.(os)))
  | C_restore _ _ | D_proxy true _ _ => negb c.(goes)
  | _ => false
  end.
(** One call after the other: no other thread comes in between; a client may die before a call. The last argument: was there a mishap? *)
Inductive alone : list Frame -> option str -> World -> World -> bool -> Prop :=
| Over last w : alone [] last w w false
| Then c f k last w w1 fs r w2 b : run_frame c f last w = (w1, fs, r) -> alone (fs ++ k) r w1 w2 b -> alone (f :: k) last w w2 (mishap c f w || b).
Inductive in_turn : list Call -> World -> World -> bool -> Prop :=
| Turns_end w : in_turn [] w w false
| Turn c cs w w1 w2 b b' : alone (frames_of c) None w w1 b -> in_turn cs w1 w2 b' -> in_turn (c :: cs) w w2 (b || b')
| Died client cs w w1 b : in_turn cs (stop_client client w) w1 b -> in_turn cs w w1 b.

(** ** What a frame is *)

(** The attempt a frame belongs to, while its guard is armed; and the frames of a disconnect that has taken the phase. *)
Definition attempt_of (f : Frame) : option Z :=
  match f with
  | C_persist t _ | C_backup t _ | C_start t _ | C_ready t _ _ _ | C_proxy t _ _ _ | C_install t _ _ _
  | C_cancelled t _ _ | C_undo t _ _ _ | C_restore t _ | C_drop t _ => Some t
  | _ => None
  end.
Definition disconnecting (f : Frame) : bool := match f with D_proxy _ _ _ | D_stop _ _ | D_end _ => true | _ => false end.
(** The frames that wait below another one. *)
Definition waiting (f : Frame) : bool := match f with C_begin | U_result | W_decide | W_result | W_fd _ => true | _ => false end.

Definition armed (fs : list Frame) : option Z := match fs with f :: _ => attempt_of f | [] => None end.
Definition cutting (fs : list Frame) : bool := match fs with f :: _ => disconnecting f | [] => false end.

(** What one frame may do to the phase, the token and the tunnel, the attempts, the attempt its thread is in, and whether the thread disconnects. *)
Inductive effect (g g' : Inner) : Z -> option Z -> bool -> option Z -> bool -> Prop :=
| Quiet a a' d : g'.(phase) = g.(phase) -> g'.(connect_token) = g.(connect_token) -> g'.(vpn) = g.(vpn) ->
    a' = a \/ a' = None /\ g.(phase) <> Connecting -> effect g g' 0 a d a' d
| Takes : g.(phase) = Idle \/ g.(phase) = Connected -> g'.(phase) = Connecting -> g'.(vpn) = g.(vpn) ->
    g'.(connect_token) = (g.(connect_token) + 1) mod 2 ^ 64 -> effect g g' 1 None false (Some g'.(connect_token)) false
| Installs : g.(phase) = Connecting -> g'.(phase) = Connected -> is_Some g'.(vpn) -> g'.(connect_token) = g.(connect_token) ->
    effect g g' 0 (Some g.(connect_token)) false None false
| Drops t : g.(phase) = Connecting -> g'.(phase) = Idle -> g'.(vpn) = g.(vpn) -> g'.(connect_token) = g.(connect_token) ->
    effect g g' 0 (Some t) false None false
| Cuts : g.(phase) <> Disconnecting -> g'.(phase) = Disconnecting -> g'.(vpn) = None -> g'.(connect_token) = g.(connect_token) ->
    effect g g' 0 None false None true
| Frees : g'.(phase) = Idle -> g'.(vpn) = g.(vpn) -> g'.(connect_token) = g.(connect_token) -> effect g g' 0 None true None false.

Lemma run_frame_effect c f last w w' fs r :
  run_frame c f last w = (w', fs, r) -> effect w.(inner) w'.(inner) (starts_attempt f w) (attempt_of f) (disconnecting f) (armed fs) (cutting fs).
Proof.
  destruct f; cbn [run_frame connect_frame publish_frame disconnect_frame watchdog_frame drop_guard fail_fd_exhaustion_recovery starts_attempt]; unfold drop_guard; intros H; repeat (case_match || case_bool_decide || case_decide); simplify_eq; cbn;
    try (apply Quiet; cbn; solve [done | by auto | naive_solver]);
    try (apply Takes; cbn; solve [by auto]); try (eapply Drops; cbn; solve [by auto]); try (apply Cuts; cbn; solve [by auto]);
    try (apply Frees; cbn; solve [by auto]).
  unfold can_install_connection in *. case_bool_decide as E; [|done]. destruct E as [? <-]. by apply Installs; cbn.
Qed.

Lemma run_frame_waits c f last w w' fs r : run_frame c f last w = (w', fs, r) -> Forall (fun f => waiting f = true) (tail fs).
Proof. destruct f; cbn [run_frame connect_frame publish_frame disconnect_frame watchdog_frame drop_guard fail_fd_exhaustion_recovery]; unfold drop_guard; intros H; repeat (case_match || case_bool_decide || case_decide); simplify_eq; cbn; by repeat constructor. Qed.

(** ** Termination *)

Definition frame_cost (f : Frame) : nat :=
  match f with
  | C_drop _ _ | W_fd _ | D_end _ | U_result => 1 | C_restore _ _ | D_stop _ _ => 2 | C_undo _ _ _ _ | D_proxy _ _ _ => 3
  | C_cancelled _ _ _ | D_begin _ => 4 | C_install _ _ _ _ => 5 | C_proxy _ _ _ _ | W_result => 6 | C_ready _ _ _ _ => 7
  | C_start _ _ => 8 | C_backup _ _ => 9 | C_persist _ _ => 10 | C_begin => 11 | C_check => 16 | W_decide | W_retry => 23
  | W_begin => 28 | W_probe => 29 | W_tick => 30
  end%nat.
Definition stack_cost (fs : list Frame) : nat := sum_list_with frame_cost fs.
Definition cost (s : System) : nat := sum_list_with (fun th => stack_cost th.(stack)) s.(threads).

Lemma run_frame_cost c f last w w' fs r : run_frame c f last w = (w', fs, r) -> (stack_cost fs < frame_cost f)%nat.
Proof. destruct f; cbn [run_frame connect_frame publish_frame disconnect_frame watchdog_frame drop_guard fail_fd_exhaustion_recovery]; unfold drop_guard; intros H; repeat (case_match || case_bool_decide || case_decide); simplify_eq; cbn; lia. Qed.

(** ** The state and the threads agree *)

Definition attempt_at (ths : list Thread) (i : nat) : option Z := ths !! i ≫= fun th => armed th.(stack).
Definition cut_at (ths : list Thread) (i : nat) : bool := match ths !! i with Some th => cutting th.(stack) | None => false end.

(** [n] attempts have been made; thread [i] is in the attempt [A i]. *)
Record attempts_agree (g : Inner) (n : Z) (A : nat -> option Z) : Prop := {
  agree_range i t : A i = Some t -> 1 <= t <= n;
  agree_one i j t : A i = Some t -> A j = Some t -> i = j;
  agree_token : g.(connect_token) = n;
  agree_count : 0 <= n;
  agree_connecting : g.(phase) = Connecting -> exists i, A i = Some n;
}.
(** Thread [i] disconnects if [D i]. *)
Record cuts_agree (g : Inner) (D : nat -> bool) : Prop := {
  agree_disconnecting : g.(phase) = Disconnecting -> exists i, D i = true;
  agree_cutter i : D i = true -> g.(phase) = Disconnecting;
  agree_one_cutter i j : D i = true -> D j = true -> i = j;
  agree_connected : g.(phase) = Connected -> is_Some g.(vpn);
  agree_cut : g.(phase) = Disconnecting -> g.(vpn) = None;
}.
Definition put {B} (f : nat -> B) (i : nat) (b : B) (j : nat) : B := if decide (j = i) then b else f j.

Lemma put_same {B} (f : nat -> B) i b : put f i b i = b.
Proof. unfold put. by destruct (decide (i = i)). Qed.
Lemma put_other {B} (f : nat -> B) i b j : j <> i -> put f i b j = f j.
Proof. unfold put. by destruct (decide (j = i)). Qed.

Lemma attempts_effect g g' n k A i d a' d' :
  effect g g' k (A i) d a' d' -> n + k < 2 ^ 64 -> attempts_agree g n A -> attempts_agree g' (n + k) (put A i a').
Proof.
  remember (A i) as a eqn:EA. intros E Hn [Hr H1 Ht H0 Hc].
  assert (S : a' = a \/ a' = None -> forall j t, put A i a' j = Some t -> A j = Some t).
  { intros Ha j t. unfold put. destruct (decide (j = i)) as [->|N]; [|done]. destruct Ha as [->| ->]; congruence. }
  destruct E as [a a' d Hp Htok _ Ha | Hp Hp' _ Htok | Hp Hp' _ Htok | t0 Hp Hp' _ Htok | Hp Hp' _ Htok | Hp' _ Htok];
    rewrite ?Z.add_0_r; [| split | ..].
  2: { intros j t. unfold put. destruct (decide (j = i)); [intros [= <-] | intros ?%Hr; lia]. rewrite Htok, Ht, Z.mod_small; lia. }
  2: { intros j l t. assert (B : forall j, A j <> Some (n + 1)) by (intros ? ?%Hr; lia).
       rewrite Htok, Ht, Z.mod_small by lia. unfold put. repeat destruct (decide _); naive_solver. }
  2: rewrite Htok, Ht, Z.mod_small; lia.
  2: lia.
  2: { intros _. exists i. rewrite put_same, Htok, Ht, Z.mod_small; [done | lia]. }
  all: specialize (S ltac:(first [by left | by right | destruct Ha as [Ha|[Ha _]]; [by left | by right]])).
  all: split; [intros j t X%S; by eapply Hr | intros j l t X%S Y%S; by eapply H1 | congruence | lia | intros Hg; try congruence].
  rewrite Hp in Hg. destruct (Hc Hg) as [j Hj]. exists j. unfold put. destruct (decide (j = i)) as [->|]; [|done].
  destruct Ha as [->|[_ []]]; [by rewrite EA | done].
Qed.

Lemma no_cuts g D : (forall j, D j = false) -> g.(phase) <> Disconnecting -> (g.(phase) = Connected -> is_Some g.(vpn)) -> cuts_agree g D.
Proof.
  intros HD Hp Hv. split; [done | intros i; by rewrite HD | intros i j; by rewrite HD | done..].
Qed.

Lemma cuts_effect g g' k D i a a' d' : effect g g' k a (D i) a' d' -> cuts_agree g D -> cuts_agree g' (put D i d').
Proof.
  remember (D i) as d eqn:ED. intros E [Hd Hu H1 Hv Hc].
  assert (S : d' = d -> forall j, put D i d' j = D j) by (intros ? j; unfold put; destruct (decide (j = i)); congruence).
  assert (N : g.(phase) <> Disconnecting -> forall j, D j = false) by (intros Hp j; destruct (D j) eqn:E2; [by apply Hu in E2 | done]).
  assert (K : forall p, g.(phase) = p -> p <> Disconnecting -> forall j, put D i false j = false).
  { intros p <- Hp j. unfold put. destruct (decide _); [done | by apply N]. }
  destruct E as [a a' d Hp _ Hw _ | Hp Hp' Hw _ | Hp Hp' Hw _ | t0 Hp Hp' Hw _ | Hp Hp' Hw _ | Hp' Hw _].
  - split; [intros Hx; rewrite Hp in Hx; destruct (Hd Hx) as [j Hj]; exists j; by rewrite S | intros j; rewrite S, Hp; [apply Hu | done] |
            intros j l; rewrite !S; auto | intros X; rewrite Hw; rewrite Hp in X; by auto..].
  - apply no_cuts; [destruct Hp as [Hp|Hp]; by eapply K | intros; congruence..].
  - apply no_cuts; [by eapply K | intros; congruence | done].
  - apply no_cuts; [by eapply K | intros; congruence..].
  - split; [intros _; exists i; by rewrite put_same | done | | intros; congruence | done].
    intros j l. unfold put. repeat destruct (decide _); [congruence | rewrite N by done; done..].
  - apply no_cuts; [| intros; congruence..]. intros j. unfold put. destruct (decide _) as [|F]; [done|]. destruct (D j) eqn:Ej; [|done]. destruct F. by apply H1.
Qed.

Record consistent (s : System) : Prop := {
  consistent_waits i th : s.(threads) !! i = Some th -> Forall (fun f => waiting f = true) (tail th.(stack));
  consistent_attempts : attempts_agree s.(world).(inner) s.(attempts) (attempt_at s.(threads));
  consistent_cuts : cuts_agree s.(world).(inner) (cut_at s.(threads));
}.

Lemma waiting_unarmed f : waiting f = true -> attempt_of f = None /\ disconnecting f = false.
Proof. by destruct f. Qed.

(** What follows the frames that a frame leaves only waits. *)
Lemma stacked fs k : Forall (fun f => waiting f = true) k -> armed (fs ++ k) = armed fs /\ cutting (fs ++ k) = cutting fs.
Proof. intros Hk. destruct fs as [|f fs]; [|done]. destruct Hk as [|f k Hf]; [done|]. by apply waiting_unarmed. Qed.

Lemma lookup_after {B} (g : option Thread -> B) (ths : list Thread) i th th' j :
  ths !! i = Some th -> g (<[i := th']> ths !! j) = put (fun j => g (ths !! j)) i (g (Some th')) j.
Proof.
  intros Hi%lookup_lt_Some. unfold put. destruct (decide (j = i)) as [->|N].
  - by rewrite list_lookup_insert_eq.
  - by rewrite list_lookup_insert_ne.
Qed.

Lemma attempts_agree_ext g n A A' : (forall j, A' j = A j) -> attempts_agree g n A -> attempts_agree g n A'.
Proof. intros E [Hr H1 Ht H0 Hc]. split; [intros j t; rewrite E; apply Hr | intros i j t; rewrite !E; apply H1 | done..|]. intros [i Hi]%Hc. exists i. by rewrite E. Qed.
Lemma cuts_agree_ext g D D' : (forall j, D' j = D j) -> cuts_agree g D -> cuts_agree g D'.
Proof. intros E [Hd Hu H1 Hv Hc]. split; [intros [i Hi]%Hd; exists i; by rewrite E | intros i; rewrite E; apply Hu | intros i j; rewrite !E; apply H1 | done..]. Qed.

Lemma stepped_consistent s i f k last c w fs r :
  s.(threads) !! i = Some {| stack := f :: k; result := last |} -> run_frame c f last s.(world) = (w, fs, r) ->
  s.(attempts) + starts_attempt f s.(world) < 2 ^ 64 -> consistent s ->
  consistent {| world := w; threads := <[i := {| stack := fs ++ k; result := r |}]> s.(threads); attempts := s.(attempts) + starts_attempt f s.(world) |}.
Proof.
  intros Hi Hr Hn [Hw HA HD]. pose proof (run_frame_effect _ _ _ _ _ _ _ Hr) as E.
  pose proof (Hw _ _ Hi) as Hk. destruct (stacked fs k Hk) as [Ea Ed]. split; cbn.
  - intros j th. destruct (decide (j = i)) as [->|N].
    + rewrite list_lookup_insert_eq by (by eapply lookup_lt_Some). intros [= <-]. cbn.
      pose proof (run_frame_waits _ _ _ _ _ _ _ Hr). destruct fs as [|f' fs]; cbn in *; [by destruct Hk | by apply Forall_app].
    + rewrite list_lookup_insert_ne by done. apply Hw.
  - assert (attempt_at s.(threads) i = attempt_of f) as Q by (unfold attempt_at; by rewrite Hi). rewrite <- Q in E.
    refine (attempts_agree_ext _ _ _ _ _ (attempts_effect _ _ _ _ _ _ _ _ _ E Hn HA)). intros j. rewrite <- Ea.
    exact (lookup_after (fun o => o ≫= fun th => armed th.(stack)) s.(threads) i _ {| stack := fs ++ k; result := r |} j Hi).
  - assert (cut_at s.(threads) i = disconnecting f) as Q by (unfold cut_at; by rewrite Hi). rewrite <- Q in E.
    refine (cuts_agree_ext _ _ _ _ (cuts_effect _ _ _ _ _ _ _ _ E HD)). intros j. rewrite <- Ed.
    apply (lookup_after (fun o => match o with Some th => cutting th.(stack) | None => false end) s.(threads) i _ {| stack := fs ++ k; result := r |} j Hi).
Qed.

Lemma starts_attempt_nonneg f w : 0 <= starts_attempt f w.
Proof. destruct f; cbn; try lia. by case_match. Qed.
Lemma attempts_grow s s' : step s s' -> s.(attempts) <= s'.(attempts).
Proof. destruct 1; cbn; [lia | | lia]. pose proof (starts_attempt_nonneg f s.(world)). lia. Qed.

Lemma call_view {B} (g : option Thread -> B) (ths : list Thread) th j : g (Some th) = g None -> g ((ths ++ [th]) !! j) = g (ths !! j).
Proof.
  intros Hg. destruct (decide (j < length ths)%nat) as [H|H]; [by rewrite lookup_app_l|].
  rewrite lookup_app_r, (lookup_ge_None_2 ths j) by lia. destruct (j - length ths)%nat; [done | by destruct n].
Qed.

Lemma step_consistent s s' : step s s' -> s'.(attempts) < 2 ^ 64 -> consistent s -> consistent s'.
Proof.
  destruct 1 as [s c | s i f k last c w fs r Hi Hr | s client]; intros Hn H; [| by eapply stepped_consistent |].
  - destruct H as [Hw HA HD]. split; cbn.
    + intros j th Hj. apply lookup_app_Some in Hj as [Hj|[_ Hj]]; [by eapply Hw|].
      apply list_lookup_singleton_Some in Hj as [_ <-]. destruct c; by repeat constructor.
    + refine (attempts_agree_ext _ _ _ _ _ HA). intros j. apply (call_view (fun o => o ≫= fun th => armed th.(stack))). by destruct c.
    + refine (cuts_agree_ext _ _ _ _ HD). intros j.
      apply (call_view (fun o => match o with Some th => cutting th.(stack) | None => false end)). by destruct c.
  - by destruct H as [Hw HA HD].
Qed.

Lemma rtc_consistent s s' : rtc step s s' -> s'.(attempts) < 2 ^ 64 -> consistent s -> consistent s'.
Proof.
  induction 1 as [s|s s1 s' H1 H2 IH]; intros Hn H; [done|]. apply IH; [done|]. apply (step_consistent _ _ H1); [|done].
  clear -H2 Hn. induction H2 as [|s1 s2 s' H _ IH]; [done|]. apply IH in Hn. apply attempts_grow in H. lia.
Qed.

Lemma start_consistent settings : consistent (start settings).
Proof. by split; [done | split | split]. Qed.

Lemma reachable_consistent s : reachable s -> s.(attempts) < 2 ^ 64 -> consistent s.
Proof. intros [settings H] Hn. by apply (rtc_consistent _ _ H), start_consistent. Qed.

(** ** Every call ends, and then the phase is settled *)

Lemma play_event_step e s s' : play_event e s = Some s' -> step s s'.
Proof.
  destruct e as [c|i c]; cbn; [intros [= <-]; constructor|].
  destruct (s.(threads) !! i) as [[[|f k] last]|] eqn:Hi; try done. destruct (run_frame c f last s.(world)) as [[w fs] r] eqn:Hr.
  intros [= <-]. by eapply Stepped.
Qed.
Lemma play_rtc es s s' : play es s = Some s' -> rtc step s s'.
Proof.
  revert s. induction es as [|e es IH]; intros s; cbn; [intros [= ->]; apply rtc_refl|]. destruct (play_event e s) as [s1|] eqn:E; [|done].
  intros H. eapply rtc_l; [by eapply play_event_step | by apply IH].
Qed.

(** Some thread goes on; no new call arrives. *)
Definition goes_on (s s' : System) : Prop := exists i c, play_event (Goes i c) s = Some s'.

Lemma sum_insert {A} (f : A -> nat) l i x y : l !! i = Some x -> (sum_list_with f (<[i := y]> l) + f x = sum_list_with f l + f y)%nat.
Proof.
  revert i. induction l as [|z l IH]; intros [|i]; cbn; try done; [intros [= ->]; lia|]. intros H%IH. rewrite <- !Nat.add_assoc. f_equal. exact H.
Qed.
Lemma stack_cost_app fs k : stack_cost (fs ++ k) = (stack_cost fs + stack_cost k)%nat.
Proof. unfold stack_cost. by rewrite sum_list_with_app. Qed.

Lemma goes_on_cost s s' : goes_on s s' -> (cost s' < cost s)%nat.
Proof.
  intros (i & c & H). cbn in H. destruct (s.(threads) !! i) as [[[|f k] last]|] eqn:Hi; try done.
  destruct (run_frame c f last s.(world)) as [[w fs] r] eqn:Hr. injection H as <-. apply run_frame_cost in Hr. unfold cost. cbn [threads].
  pose proof (sum_insert (fun th => stack_cost th.(stack)) _ _ _ {| stack := fs ++ k; result := r |} Hi) as X.
  cbn [stack] in X. rewrite stack_cost_app in X. change (stack_cost (f :: k)) with (frame_cost f + stack_cost k)%nat in X. lia.
Qed.

Lemma stuck_is_empty s i th : (forall s', ~ goes_on s s') -> s.(threads) !! i = Some th -> th.(stack) = [].
Proof.
  intros N Hi. destruct th as [[|f k] last]; [done|]. destruct (run_frame {| goes := true; os_left := Off; error := []; label := [] |} f last s.(world))
    as [[w fs] r] eqn:Hr. edestruct N. eexists i, _. cbn. by rewrite Hi, Hr.
Qed.

Lemma empty_settled s : consistent s -> (forall i th, s.(threads) !! i = Some th -> th.(stack) = []) ->
  let g := s.(world).(inner) in g.(phase) = Idle \/ (g.(phase) = Connected /\ is_Some g.(vpn)).
Proof.
  intros [_ HA HD] E. cbn. destruct s.(world).(inner).(phase) eqn:Hp; [by left | | right | ].
  - destruct (agree_connecting _ _ _ HA Hp) as [i Hi]. unfold attempt_at in Hi. destruct (s.(threads) !! i) as [th|] eqn:Eth; [|done].
    cbn in Hi. by rewrite (E _ _ Eth) in Hi.
  - split; [done|]. by apply (agree_connected _ _ HD).
  - destruct (agree_disconnecting _ _ HD Hp) as [i Hi]. unfold cut_at in Hi. destruct (s.(threads) !! i) as [th|] eqn:Eth; [|done].
    by rewrite (E _ _ Eth) in Hi.
Qed.

(** C40: Whatever the threads of the desktop application have done so far, and however connects, disconnects and the watchdog interleave,
    they finish: after at most [cost] steps no thread has anything left to do, and then the phase is not left at connecting or at disconnecting:
    the application is idle, or connected with a client behind it, so the next connect is not refused for ever. *)
Theorem calls_settle s s' n :
  reachable s -> nsteps goes_on n s s' -> s'.(attempts) < 2 ^ 64 ->
  (n <= cost s)%nat /\
  ((forall s'', ~ goes_on s' s'') -> let g := s'.(world).(inner) in g.(phase) = Idle \/ (g.(phase) = Connected /\ is_Some g.(vpn))).
Proof.
  intros Hs Hn Ha. split.
  - clear -Hn. induction Hn as [|n s1 s2 s3 H _ IH]; [lia|]. apply goes_on_cost in H. lia.
  - intros Hstuck. apply empty_settled; [|intros i th Hi; by eapply stuck_is_empty]. apply reachable_consistent; [|done].
    destruct Hs as [settings Hs]. exists settings. transitivity s; [done|]. clear -Hn.
    induction Hn as [|n s1 s2 s3 (i & c & H) _ IH]; [apply rtc_refl | eapply rtc_l; [by eapply play_event_step | done]].
Qed.

(** ** A disconnect is final for the connects before it *)

Lemma phase_taken s s' : step s s' -> s'.(world).(inner).(phase) = Connecting -> s.(world).(inner).(phase) <> Connecting -> s.(attempts) < s'.(attempts).
Proof.
  destruct 1 as [s c | s i f k last c w fs r Hi Hr | s client]; cbn; try done. intros Hp Hq.
  destruct (run_frame_effect _ _ _ _ _ _ _ Hr); try congruence; lia.
Qed.

Lemma stays_free s s' : rtc step s s' -> s.(world).(inner).(phase) <> Connecting -> s'.(world).(inner).(phase) = Connecting -> s.(attempts) < s'.(attempts).
Proof.
  induction 1 as [|s s1 s' H1 H2 IH]; [done|]. intros Hp Hp'. destruct (decide (s1.(world).(inner).(phase) = Connecting)) as [E|E].
  - apply (Z.lt_le_trans _ s1.(attempts)); [by apply phase_taken|]. clear -H2. induction H2 as [|s s1 s' H _ IH]; [lia|]. apply attempts_grow in H. lia.
  - specialize (IH E Hp'). apply attempts_grow in H1. lia.
Qed.

(** C18: Once a disconnect has taken the phase, no connect that was under way can publish its tunnel any more, however much later it comes to that point
    and whatever the user does meanwhile, connecting again included: the test it makes under the lock fails. *)
Theorem disconnect_is_final s s' i f k last j tok backup client l k' last' :
  reachable s -> s.(world).(inner).(phase) = Disconnecting ->
  s.(threads) !! i = Some {| stack := f :: k; result := last |} -> attempt_of f = Some tok ->
  rtc step s s' -> s'.(attempts) < 2 ^ 64 ->
  s'.(threads) !! j = Some {| stack := C_install tok backup client l :: k'; result := last' |} ->
  can_install_connection s'.(world).(inner).(phase) s'.(world).(inner).(connect_token) tok = false.
Proof.
  intros [settings Hs] Hp Hi Hf Hss Hn Hj. unfold can_install_connection. case_bool_decide as E; [|done]. destruct E as [Hp' Ht].
  assert (G : s.(attempts) < s'.(attempts)) by (apply (stays_free _ _ Hss); congruence).
  assert (C : consistent s) by (apply reachable_consistent; [by exists settings | lia]).
  assert (C' : consistent s') by (by apply (rtc_consistent _ _ Hss)).
  pose proof (agree_token _ _ _ (consistent_attempts _ C')) as Ht'.
  pose proof (agree_range _ _ _ (consistent_attempts _ C) i tok) as R. unfold attempt_at in R. rewrite Hi in R. specialize (R Hf). lia.
Qed.

(** ** Calls one after the other *)

(** Idle with nothing left behind, or connected with one client at most and the settings pointing to it. Without a mishap, the user's settings [u] are in
    place or remembered, and while a recovery is due the settings still point to the application, so that nothing goes around it. *)
Record settled (u : Proxy) (lost : bool) (w : World) : Prop := {
  settled_backup : lost = false -> w.(inner).(proxy_backup) = None /\ w.(os) = u \/ w.(inner).(proxy_backup) = Some u;
  settled_pending : lost = false -> w.(inner).(recovery_pending) = true -> w.(os) = Ours;
  settled_phase :
    w.(inner).(phase) = Idle /\ w.(inner).(vpn) = None /\ w.(running) = ∅ \/
    w.(inner).(phase) = Connected /\ exists client, w.(inner).(vpn) = Some client /\ w.(running) ⊆ {[client]} /\ w.(os) = Ours;
}.

(** One frame of a thread that runs alone. *)
Ltac turn :=
  match goal with H : alone (_ :: _) _ _ _ _ |- _ => inversion H; clear H; subst end;
  cbn [run_frame connect_frame publish_frame disconnect_frame watchdog_frame drop_guard fail_fd_exhaustion_recovery mishap negb andb orb] in *; unfold drop_guard in *.
Ltac turned := simplify_eq; cbn [app] in *.

Lemma restored_none p : p <> Ours -> restored None p = p.
Proof. by destruct p. Qed.

(** The frames of one call that are over: the rest [k] goes on from a settled state. *)
Definition then_settled (u : Proxy) (lost : bool) (k : list Frame) (w2 : World) (b : bool) (P : bool -> World -> option str -> Prop) : Prop :=
  exists w1 res b1 b2, b = b1 || b2 /\ alone k res w1 w2 b2 /\ settled u (lost || b1) w1 /\ P (lost || b1) w1 res.
Lemma then_settled_intro u lost k w2 (P : bool -> World -> option str -> Prop) w1 res b1 b2 :
  alone k res w1 w2 b2 -> settled u (lost || b1) w1 -> P (lost || b1) w1 res -> then_settled u lost k w2 (b1 || b2) P.
Proof. intros. by exists w1, res, b1, b2. Qed.
(** A thread that goes on with the frames below, after a mishap or none. *)
Ltac leaving b1 :=
  match goal with H : alone ?k _ _ ?w2 ?b |- then_settled ?u ?l ?k ?w2 _ ?P => refine (then_settled_intro u l k w2 P _ _ b1 b H _ _) end.
Lemma then_settled_more u lost b1 k w2 b2 (P Q : bool -> World -> option str -> Prop) :
  (forall l w res, P l w res -> Q l w res) -> then_settled u (lost || b1) k w2 b2 P -> then_settled u lost k w2 (b1 || b2) Q.
Proof.
  intros H (w1 & res & c1 & c2 & -> & Hk & S & HP). exists w1, res, (b1 || c1), c2. rewrite orb_assoc. split; [done|]. split; [done|]. rewrite orb_assoc. auto.
Qed.

Definition disconnect_leaves (u : Proxy) (r : bool) (w : World) (lost : bool) (w1 : World) (_ : option str) : Prop :=
  w1.(inner).(phase) = Idle /\
  (if r then (lost = false -> w1.(os) = u) /\ w1.(inner).(proxy_backup) = None /\ w1.(inner).(recovery_pending) = false
   else w1.(inner).(recovery_pending) = w.(inner).(recovery_pending)).
(** What the last frame of a disconnect finds: [p] is what became of the system's settings. *)
Definition cut (r : bool) (p : Proxy) (w : World) : World :=
  let w1 := set_os p (set_inner (begin_disconnect r) w) in match w.(inner).(vpn) with Some client => stop_client client w1 | None => w1 end.
Lemma cut_left u lost (r : bool) p e w res :
  settled u lost w -> (lost = false -> p = if r then u else w.(os)) ->
  let w1 := set_inner (fun g => set_phase Idle (keep_error e g)) (cut r p w) in settled u lost w1 /\ disconnect_leaves u r w lost w1 res.
Proof.
  intros [Hb Hpend Hp] Hos w1. unfold w1, cut. clear w1.
  destruct Hp as [(_ & -> & Hrun)|(_ & client & -> & Hrun & _)]; (split; [split | split; [done|]]); destruct r; cbn; try done; try (intros L; rewrite (Hos L); by auto).
  all: left; split_and!; [done | done | set_solver].
Qed.
Lemma disconnect_turn u lost r k last w w2 b :
  u <> Ours -> settled u lost w -> alone (D_begin r :: k) last w w2 b -> then_settled u lost k w2 b (disconnect_leaves u r w).
Proof.
  intros Hu S H. pose proof (settled_phase _ _ _ S) as Hp. turn. rewrite bool_decide_false in * by (destruct Hp as [[-> _]|[-> _]]; done). turned.
  destruct r; turn; [match goal with H : context [goes ?c] |- _ => destruct (goes c) end|]; turned; turn; turned; turn; turned.
  - edestruct (cut_left u lost true (restored (proxy_backup (inner w)) (os w)) None w None S) as [C1 C2].
    { intros L. destruct (settled_backup _ _ _ S L) as [[-> ->]| ->]; [by apply restored_none | done]. }
    leaving false; rewrite orb_false_r; [exact C1 | exact C2].
  - edestruct (cut_left u true true (os_left c0) (Some (error c0)) w None) as [C1 C2]; [by destruct S as [_ _ ?] | done|].
    leaving true; rewrite orb_true_r; [exact C1 | exact C2].
  - edestruct (cut_left u lost false (os w) None w None S) as [C1 C2]; [done|].
    leaving false; rewrite orb_false_r; [exact C1 | exact C2].
Qed.

(** What a connect leaves: connected with the settings pointing to it, or idle with an error and all as it was. *)
Definition connect_leaves (w : World) (lost : bool) (w1 : World) (res : option str) : Prop :=
  match res with
  | None => w1.(inner).(phase) = Connected /\ w1.(os) = Ours /\ w1.(inner).(recovery_pending) = false
  | Some _ => w1.(inner).(phase) = Idle /\ w1.(inner).(recovery_pending) = w.(inner).(recovery_pending) /\
              (lost = false -> w1.(os) = w.(os)) /\ w1.(inner).(proxy_backup) = w.(inner).(proxy_backup)
  end.

Lemma attempt_fails u lost b1 w w1 tok e k last w2 b2 :
  settled u lost w -> w.(inner).(phase) = Idle -> w1.(inner) = begin_connect w.(inner) -> (lost || b1 = false -> w1.(os) = w.(os)) -> w1.(running) = ∅ ->
  alone (C_drop tok e :: k) last w1 w2 b2 -> then_settled u lost k w2 (b1 || b2) (connect_leaves w).
Proof.
  intros [Hb Hpend Hp] Hi Hin Hos Hr H. turn. rewrite Hin, bool_decide_true in * by done. turned.
  destruct Hp as [(_ & Hv & _)|[Hc _]]; [|congruence].
  leaving b1; [split|]; cbn; rewrite ?Hin; cbn.
  - intros L. rewrite (Hos L). apply orb_false_iff in L as [L _]. by apply Hb.
  - intros L. rewrite (Hos L). apply orb_false_iff in L as [L _]. by apply Hpend.
  - by left.
  - done.
Qed.

Ltac by_dropping := match goal with F : forall _ _ _ _ _ _ _, _ |- _ => eapply (F false); [..|eassumption]; cbn; [done | auto | set_solver] end.
Lemma connect_turn u lost k last w w2 b :
  settled u lost w -> w.(inner).(phase) = Idle -> alone (C_begin :: k) last w w2 b -> then_settled u lost k w2 b (connect_leaves w).
Proof.
  intros S Hi H. pose proof S as [Hb _ Hp]. destruct Hp as [(_ & Hv & Hr)|[Hc _]]; [|congruence].
  assert (F : forall b1 w1 tok e k last b2, w1.(inner) = begin_connect w.(inner) -> (lost || b1 = false -> w1.(os) = w.(os)) -> w1.(running) = ∅ ->
    alone (C_drop tok e :: k) last w1 w2 b2 -> then_settled u lost k w2 (b1 || b2) (connect_leaves w)).
  { intros. by eapply attempt_fails. }
  turn. rewrite Hi in *. turned. case_match; [|by_dropping].
  turn. turned. case_match; [|by_dropping].
  match goal with H : alone (C_backup _ _ :: _) _ _ _ ?b' |- _ =>
    assert (G : exists last q, (lost = false -> q = u) /\ alone (C_start (connect_token (inner (set_inner begin_connect w))) q :: k) last (set_inner begin_connect w) w2 b' \/
      exists tok e, alone (C_drop tok e :: k) last (set_inner begin_connect w) w2 b') end.
  { turn. destruct (proxy_backup (inner w)) as [q|] eqn:Hq; turned.
    - eexists _, q. left. split; [|eassumption]. intros L. destruct (Hb L) as [[? _]|[= ->]]; done.
    - case_match; turned; [|eexists _, Off; right; eauto]. eexists _, _. left. split; [|eassumption]. intros L. by destruct (Hb L) as [[_ ?]|?]. }
  destruct G as (l1 & q & [[Hq G]|(tok & e & G)]); [|by_dropping].
  turn. case_match; turned; [|by_dropping].
  turn. case_match; turned; [|by_dropping].
  turn. match goal with H : (if goes ?c then _ else _) = _ |- _ => destruct (goes c) end; turned; cbn [negb andb orb].
  - turn. unfold can_install_connection in *. cbn in *. rewrite bool_decide_true in * by done. turned. leaving false; rewrite ?orb_false_r; [|done].
    split; cbn; [intros L; right; by rewrite Hq | done | right; split; [done|]]. eexists. split_and!; [done | set_solver | done].
  - eapply F; [..|eassumption]; cbn; [done | | set_solver]. intros [_ L%negb_false_iff%bool_decide_eq_true]%orb_false_iff. done.
Qed.

Definition any (_ : bool) (_ : World) (_ : option str) : Prop := True.
Lemma check_turn u lost k last w w2 b : u <> Ours -> settled u lost w -> alone (C_check :: k) last w w2 b -> then_settled u lost k w2 b any.
Proof.
  intros Hu S H. turn. destruct (settled_phase _ _ _ S) as [(Hp & Hv & _)|(Hp & client & Hv & _)]; rewrite Hp, Hv in *.
  - rewrite bool_decide_false in * by (by intros [[? ?] _]). turned. eapply (then_settled_more u lost false); [done|]. rewrite orb_false_r. by eapply connect_turn.
  - rewrite bool_decide_true in * by (by split). turned.
    match goal with H : alone (D_begin true :: _) _ _ _ _ |- _ => apply (disconnect_turn u lost) in H; [|done..] end.
    match goal with H : then_settled _ _ _ _ _ _ |- _ => destruct H as (w3 & res & b1 & b2 & -> & Hk & Hs & Hi & _) end.
    eapply then_settled_more; [done|]. by eapply connect_turn.
Qed.

Lemma settled_error u lost e w : settled u lost w -> settled u lost (set_inner (set_error e) w).
Proof. intros [Hb Hpend Hp]. by split. Qed.

Lemma result_turn u lost k last w w2 b : u <> Ours -> settled u lost w -> alone (W_result :: k) last w w2 b -> then_settled u lost k w2 b any.
Proof.
  intros Hu S H. turn. destruct last as [e|]; [|turned; leaving false; rewrite ?orb_false_r; done].
  destruct (is_fd_exhaustion_message e); turned; [|leaving false; rewrite ?orb_false_r; [by apply settled_error | done]].
  unfold fail_fd_exhaustion_recovery in *. cbn [app] in *.
  match goal with H : alone (D_begin true :: _) _ _ _ _ |- _ => apply (disconnect_turn u lost) in H; [|done..] end.
  match goal with H : then_settled _ _ _ _ _ _ |- _ => destruct H as (w3 & res & b1 & b2 & -> & Hk & Hs & _) end.
  turn. turned. leaving b1; [|done]. destruct Hs as [Hb Hpend Hp]. by split.
Qed.

Lemma nothing_left last w w2 b : alone [] last w w2 b -> w2 = w /\ b = false.
Proof. intros H. by inversion H. Qed.
Lemma recovery_turn u lost last w w2 b : u <> Ours -> settled u lost w -> alone [C_check; W_result] last w w2 b -> settled u (lost || b) w2.
Proof.
  intros Hu S H. apply (check_turn u lost) in H as (w3 & res & b1 & b2 & -> & Hk & Hs & _); [|done..].
  apply (result_turn u (lost || b1)) in Hk as (w4 & res4 & b3 & b4 & -> & [-> ->]%nothing_left & Hs4 & _); [|done..].
  by rewrite orb_false_r, orb_assoc.
Qed.

Lemma tick_turn u lost last w w2 b : u <> Ours -> settled u lost w -> alone [W_tick] last w w2 b -> settled u (lost || b) w2.
Proof.
  intros Hu S H.
  assert (Z : forall w l b, settled u lost w -> alone [] l w w2 b -> settled u (lost || b) w2) by (intros ? ? ? ? [-> ->]%nothing_left; by rewrite orb_false_r).
  turn. destruct (settled_phase _ _ _ S) as [(Hp & Hv & _)|(Hp & client & Hv & Hr & Ho)]; rewrite Hp, ?Hv in *.
  - turned. destruct (recovery_pending _) eqn:R; [|eapply Z; eassumption]. cbn [app] in *. turn. rewrite R in *. turned. eapply recovery_turn; eassumption.
  - rewrite bool_decide_true in * by done. turned. turn. turned. match goal with H : context [goes ?c] |- _ => destruct (goes c) end; [eapply Z; eassumption|]. cbn [app] in *.
    turn. rewrite Hp, Hv in *. replace (should_start_watchdog_recovery Connected (bool_decide (is_Some (Some client)))) with true in * by done. turned.
    match goal with H : alone (D_begin false :: _) _ _ _ _ |- _ => apply (disconnect_turn u lost) in H; [|done|] end.
    + match goal with H : then_settled _ _ _ _ _ _ |- _ => destruct H as (w3 & res & b1 & b2 & -> & Hk & Hs & _) end. rewrite orb_assoc.
      turn. turned. destruct (recovery_pending _); [eapply recovery_turn; eassumption|]. cbn [app] in *.
      match goal with H : alone [] _ _ _ _ |- _ => apply nothing_left in H as [-> ->] end. by rewrite orb_false_r.
    + destruct S as [Hb Hpend Hph]. split; cbn; [done | done |]. right. rewrite Hp, Hv. eauto.
Qed.

Definition given_back (u : Proxy) (lost : bool) (w : World) : Prop :=
  w.(inner).(phase) = Idle /\ w.(running) = ∅ /\ w.(inner).(proxy_backup) = None /\ w.(inner).(recovery_pending) = false /\ (lost = false -> w.(os) = u).
Lemma call_turn u lost c w w1 b : u <> Ours -> settled u lost w -> alone (frames_of c) None w w1 b ->
  settled u (lost || b) w1 /\ (c = Disconnect -> given_back u (lost || b) w1).
Proof.
  intros Hu S H. destruct c; cbn [frames_of] in H.
  - apply (check_turn u lost) in H as (w3 & res & b1 & b2 & -> & Hk & Hs & _); [|done..]. rewrite orb_assoc. turn. turned.
    match goal with H : alone [] _ _ _ _ |- _ => apply nothing_left in H as [-> ->] end. rewrite orb_false_r. split; [|done].
    destruct res; [by apply settled_error | done].
  - apply (disconnect_turn u lost) in H as (w3 & res & b1 & b2 & -> & [-> ->]%nothing_left & Hs & Hi & Ho & Hn & Hr); [|done..]. rewrite orb_false_r. split; [done|].
    intros _. split_and!; try done. by destruct (settled_phase _ _ _ Hs) as [(_ & _ & ?)|[? _]]; [|congruence].
  - split; [by eapply tick_turn | done].
Qed.

Lemma settled_died u lost client w : settled u lost w -> settled u lost (stop_client client w).
Proof.
  intros [Hb Hpend Hp]. split; [done..|]. destruct Hp as [(Hp & Hv & Hr)|(Hp & c & Hv & Hr & Ho)]; cbn; [left | right; split; [done|]; exists c];
    split_and!; by try set_solver.
Qed.
Lemma given_back_died u lost client w : given_back u lost w -> given_back u lost (stop_client client w).
Proof. intros (H1 & H2 & H3). split_and!; [done | cbn; set_solver | apply H3..]. Qed.
Lemma no_turns u lost cs w w1 b : in_turn cs w w1 b -> cs = [] -> given_back u lost w -> b = false /\ given_back u lost w1.
Proof. induction 1 as [| |client cs w w1 b _ IH]; [done..|]. intros E G. apply IH; [done | by apply given_back_died]. Qed.


(** ** Schedules *)

Definition yes : Choice := {| goes := true; os_left := Off; error := bs "refused"; label := bs "vpn.example:443" |}.
Definition no : Choice := {| goes := false; os_left := Off; error := bs "refused"; label := bs "vpn.example:443" |}.
Definition user : Proxy := Theirs 7.

(** A connect, a disconnect that comes while it is under way, another connect; then the first one fails: it hands back the phase that the second
    one owns, and the second is cancelled, though nobody has asked for that. *)
Definition older_attempt_fails : list Event :=
  [Arrives Connect; Goes 0 yes; Goes 0 yes; Arrives Disconnect] ++ replicate 4 (Goes 1 yes) ++ [Arrives Connect; Goes 2 yes; Goes 2 yes] ++
  [Goes 0 no; Goes 0 yes; Goes 0 yes] ++ replicate 11 (Goes 2 yes).
Lemma older_attempt_cancels_newer :
  match play older_attempt_fails (start user) with
  | Some s => let g := s.(world).(inner) in
    (g.(phase), g.(vpn), g.(last_error), g.(connect_token), map (fun th => th.(stack)) s.(threads)) =
    (Idle, None, Some (bs "cancelled"), 2, [[]; []; []])
  | None => False
  end.
Proof. vm_compute. reflexivity. Qed.

(** The first connect points the settings to itself after the disconnect has ended, and leaves them to the second, which takes them for the user's:
    in the end nothing runs, the settings point to the application, and a disconnect switches them off. The user's are lost. *)
Definition settings_taken : list Event :=
  [Arrives Connect] ++ replicate 6 (Goes 0 yes) ++ [Arrives Disconnect] ++ replicate 4 (Goes 1 yes) ++ [Arrives Connect; Goes 2 yes; Goes 2 yes] ++
  replicate 6 (Goes 0 yes) ++ replicate 11 (Goes 2 yes).
Lemma overlapping_connects_lose_settings :
  match play settings_taken (start user), play (settings_taken ++ [Arrives Disconnect] ++ replicate 4 (Goes 3 yes)) (start user) with
  | Some s, Some s' => (s.(world).(inner).(phase), s.(world).(os), map (fun th => th.(stack)) s.(threads), elements s.(world).(running)) = (Idle, Ours, [[]; []; []], []) /\
                       (s'.(world).(inner).(phase), s'.(world).(os)) = (Idle, Off)
  | _, _ => False
  end.
Proof. vm_compute. by split. Qed.

(** A disconnect that cannot put the settings back forgets them: the next connect takes the application's own for the user's, and from then on
    disconnecting puts back a proxy behind which nothing listens. *)
Definition yes_all (thread n : nat) : list Event := replicate n (Goes thread yes).
Definition still_ours : Choice := {| goes := false; os_left := Ours; error := bs "access denied"; label := [] |}.
Definition failed_restore : list Event :=
  [Arrives Connect] ++ yes_all 0 9 ++ [Arrives Disconnect; Goes 1 yes; Goes 1 still_ours] ++ yes_all 1 2 ++
  [Arrives Connect] ++ yes_all 2 9 ++ [Arrives Disconnect] ++ yes_all 3 4.
Lemma failed_restore_forgets :
  match play failed_restore (start user) with
  | Some s => let g := s.(world).(inner) in
    (g.(phase), s.(world).(os), g.(proxy_backup), elements s.(world).(running), map (fun th => th.(stack)) s.(threads)) = (Idle, Ours, None, [], [[]; []; []; []])
  | None => False
  end.
Proof. vm_compute. reflexivity. Qed.

Definition after (es : list Event) : System := match play es (start user) with Some s => s | None => start user end.
Lemma after_reachable es : is_Some (play es (start user)) -> reachable (after es).
Proof. intros [s H]. exists user. unfold after. rewrite H. by eapply play_rtc. Qed.

Lemma calls_settle_witness :
  let s := after [Arrives Connect] in let s' := after [Arrives Connect; Goes 0 yes] in
  (1 <= cost s)%nat /\ ((forall s'', ~ goes_on s' s'') -> let g := s'.(world).(inner) in g.(phase) = Idle \/ (g.(phase) = Connected /\ is_Some g.(vpn))).
Proof.
  intros s s'. apply (calls_settle s s' 1); [apply after_reachable; by eexists | | done].
  eapply nsteps_l; [|apply nsteps_O]. exists 0%nat, yes. reflexivity.
Defined.

(** The first connect comes to its test while a disconnect it has met is over and another connect has the phase. *)
Definition cut_short : list Event := [Arrives Connect; Goes 0 yes; Goes 0 yes; Arrives Disconnect; Goes 1 yes].
Definition and_later : list Event := replicate 3 (Goes 1 yes) ++ [Arrives Connect; Goes 2 yes; Goes 2 yes] ++ replicate 5 (Goes 0 yes).
Lemma disconnect_is_final_witness :
  let s' := after (cut_short ++ and_later) in
  can_install_connection s'.(world).(inner).(phase) s'.(world).(inner).(connect_token) 1 = false.
Proof.
  intros s'. apply (disconnect_is_final (after cut_short) s' 0 (C_persist 1 None) [U_result] None 0 1 user 0 (bs "vpn.example:443") [U_result] None);
    [apply after_reachable; by eexists | vm_compute; reflexivity | vm_compute; reflexivity | vm_compute; reflexivity |
     apply (play_rtc and_later); vm_compute; reflexivity | vm_compute; reflexivity | vm_compute; reflexivity].
Defined.

Lemma then_fine c f k last w w1 fs r w2 : run_frame c f last w = (w1, fs, r) -> mishap c f w = false -> alone (fs ++ k) r w1 w2 false -> alone (f :: k) last w w2 false.
Proof. intros H M A. pose proof (Then c f k last w w1 fs r w2 false H A) as T. by rewrite M in T. Qed.
Lemma turn_fine c cs w w1 w2 : alone (frames_of c) None w w1 false -> in_turn cs w1 w2 false -> in_turn (c :: cs) w w2 false.
Proof. exact (Turn c cs w w1 w2 false false). Qed.
