(* ===== verification/DesktopConfig.v ===== *)
(** The desktop application's saved configuration ([config.rs] of [apps/bibavpn-desktop]): profiles, what the interface is shown of
    them and what it may save, the file, its older form, and the repair of what was loaded. JSON text is a parameter, JSON values are not. *)
From S2P Require Import Prelude Text Policy ClientOptions.

(** ** JSON values, and how the derived readers take them apart *)

(** [VFloat] is a number that is no integer. *)
Inductive Value := VNull | VBool (b : bool) | VNum (n : Z) | VFloat (bits : Z) | VStr (s : str) | VArr (l : list Value) | VObj (o : list (str * Value)).
Definition VStrs (l : list str) : Value := VArr (VStr <$> l).
Fixpoint lookup_key (k : str) (o : list (str * Value)) : option Value :=
  match o with [] => None | (k', v) :: o => if decide (k' = k) then Some v else lookup_key k o end.
Definition as_object (v : Value) : option (list (str * Value)) := match v with VObj o => Some o | _ => None end.
Definition contains_key (v : Value) (k : string) : bool := match v with VObj o => bool_decide (is_Some (lookup_key (bs k) o)) | _ => false end.
Definition get_array (v : Value) (k : string) : list Value := match v with VObj o => match lookup_key (bs k) o with Some (VArr l) => l | _ => [] end | _ => [] end.

(** A struct is read from an object by name, or from an array by position. *)
Definition field (v : Value) (i : nat) (k : string) : option Value :=
  match v with VObj o => lookup_key (bs k) o | VArr l => l !! i | _ => None end.
Definition no_more (v : Value) (n : nat) : result unit :=
  match v with
  | VObj _ => Ok tt
  | VArr l => if decide (length l <= n)%nat then Ok tt else bail "invalid length"
  | _ => bail "invalid type"
  end.
Definition required {A} (read : Value -> option A) (x : option Value) : result A := context "missing field or invalid type"%string (v ← x; read v).
Definition optional {A} (read : Value -> option A) (d : A) (x : option Value) : result A :=
  match x with None => Ok d | Some v => context "invalid type"%string (read v) end.
Definition read_str (v : Value) : option str := match v with VStr s => Some s | _ => None end.
Definition read_bool (v : Value) : option bool := match v with VBool b => Some b | _ => None end.
Definition read_int (max : Z) (v : Value) : option Z := match v with VNum n => if decide (0 <= n <= max) then Some n else None | _ => None end.
Fixpoint read_all {A} (read : Value -> option A) (l : list Value) : option (list A) :=
  match l with [] => Some [] | v :: l => x ← read v; xs ← read_all read l; Some (x :: xs) end.
Definition read_strs (v : Value) : option (list str) := match v with VArr l => read_all read_str l | _ => None end.

(** ** Profiles *)

Definition CONFIG_VERSION : Z := 2.
Definition default_max_pad_cfg : Z := 64.
Definition default_decoy_max_cfg : Z := 32.
Definition default_tls_profile_cfg : str := bs "default".
Definition default_ws_ping_secs_cfg : Z := 25.
Definition default_decoy_gets_interval_cfg : Z := 30.
Definition default_proto : Z := 3.
Definition default_ws_parallel : Z := 1.
Definition default_tls_stack_str : str := bs "rustls".
Definition default_android_vpn_routing_mode : str := bs "system_vpn".
Definition default_http_port : Z := 17890.
Definition default_ui_locale : str := bs "auto".

Record TunnelProfile := {
  tp_id : str;
  tp_name : str;
  tp_server : str;
  tp_token : str;
  tp_psk : str;
  tp_sni : str;
  tp_insecure : bool;
  tp_max_pad : Z;
  tp_decoy_max : Z;
  tp_max_ws_binary : Z;
  tp_tls_profile : str;
  tp_from_invite : str;
  tp_invite_passphrase : str;
  tp_junk_frames : Z;
  tp_early_ws_frames : Z;
  tp_ws_ping_secs : Z;
  tp_ws_headers : str;
  tp_use_tcp_mux : bool;
  tp_ws_path : str;
  tp_pad_mode : str;
  tp_ws_ping_jitter_percent : Z;
  tp_ws_binary_send_jitter_ms : Z;
  tp_udp_max_pad : str;
  tp_udp_max_ws_binary : str;
  tp_udp_mux_reply_timeout_secs : str;
  tp_dummy_interval_secs : Z;
  tp_decoy_gets : bool;
  tp_decoy_gets_interval_secs : Z;
  tp_decoy_gets_paths : str;
  tp_pin_cert_pem : str;
  tp_split_tunnel_enabled : bool;
  tp_split_tunnel_preset_ids : list str;
  tp_proto : Z;
  tp_proto_domain : str;
  tp_stealth_profile : str;
  tp_decoy_mode : str;
  tp_desync_mode : str;
  tp_tcp_fooling : str;
  tp_tls_fragment : bool;
  tp_ws_parallel : Z;
  tp_idle_decoy_secs : Z;
  tp_tls_stack : str;
  tp_fingerprint : str;
  tp_reality_target : str;
  tp_reality_public_key : str;
  tp_reality_short_id : str;
  tp_ws_host : str;
  tp_ws_origin : str;
  tp_ws_user_agent : str;
  tp_ws_accept_language : str;
  tp_ws_jitter_min_ms : Z;
  tp_ws_jitter_max_ms : Z;
  tp_control_plane_instance_id : Z;
  tp_control_plane_config_version : str;
  tp_control_plane_base_url : str;
  tp_android_socks_bind : str;
  tp_android_split_tunnel_packages : list str;
  tp_android_manual_split_packages : list str;
  tp_android_vpn_routing_mode : str;
  tp_android_screen_off_battery_saver : bool;
}.

Definition TunnelProfile_default : TunnelProfile :=
  {| tp_id := []; tp_name := bs "Profile"; tp_server := []; tp_token := []; tp_psk := []; tp_sni := []; tp_insecure := false;
     tp_max_pad := default_max_pad_cfg; tp_decoy_max := default_decoy_max_cfg; tp_max_ws_binary := DEFAULT_CLIENT_MAX_WS_BINARY;
     tp_tls_profile := default_tls_profile_cfg; tp_from_invite := []; tp_invite_passphrase := []; tp_junk_frames := 0; tp_early_ws_frames := 0;
     tp_ws_ping_secs := default_ws_ping_secs_cfg; tp_ws_headers := []; tp_use_tcp_mux := true; tp_ws_path := []; tp_pad_mode := [];
     tp_ws_ping_jitter_percent := 0; tp_ws_binary_send_jitter_ms := 0; tp_udp_max_pad := []; tp_udp_max_ws_binary := [];
     tp_udp_mux_reply_timeout_secs := []; tp_dummy_interval_secs := 0; tp_decoy_gets := false;
     tp_decoy_gets_interval_secs := default_decoy_gets_interval_cfg; tp_decoy_gets_paths := []; tp_pin_cert_pem := []; tp_split_tunnel_enabled := false;
     tp_split_tunnel_preset_ids := []; tp_proto := default_proto; tp_proto_domain := []; tp_stealth_profile := []; tp_decoy_mode := [];
     tp_desync_mode := []; tp_tcp_fooling := []; tp_tls_fragment := false; tp_ws_parallel := default_ws_parallel; tp_idle_decoy_secs := 0;
     tp_tls_stack := default_tls_stack_str; tp_fingerprint := []; tp_reality_target := []; tp_reality_public_key := []; tp_reality_short_id := [];
     tp_ws_host := []; tp_ws_origin := []; tp_ws_user_agent := []; tp_ws_accept_language := []; tp_ws_jitter_min_ms := 0; tp_ws_jitter_max_ms := 0;
     tp_control_plane_instance_id := 0; tp_control_plane_config_version := []; tp_control_plane_base_url := []; tp_android_socks_bind := [];
     tp_android_split_tunnel_packages := []; tp_android_manual_split_packages := []; tp_android_vpn_routing_mode := default_android_vpn_routing_mode;
     tp_android_screen_off_battery_saver := false |}.

Definition read_profile (v : Value) : result TunnelProfile :=
  id ← required read_str (field v 0 "id");
  name ← required read_str (field v 1 "name");
  server ← required read_str (field v 2 "server");
  token ← optional read_str [] (field v 3 "token");
  psk ← optional read_str [] (field v 4 "psk");
  sni ← required read_str (field v 5 "sni");
  insecure ← required read_bool (field v 6 "insecure");
  max_pad ← optional (read_int U8_MAX) default_max_pad_cfg (field v 7 "max_pad");
  decoy_max ← optional (read_int U8_MAX) default_decoy_max_cfg (field v 8 "decoy_max");
  max_ws_binary ← optional (read_int U64_MAX) DEFAULT_CLIENT_MAX_WS_BINARY (field v 9 "max_ws_binary");
  tls_profile ← optional read_str default_tls_profile_cfg (field v 10 "tls_profile");
  from_invite ← optional read_str [] (field v 11 "from_invite");
  invite_passphrase ← optional read_str [] (field v 12 "invite_passphrase");
  junk_frames ← optional (read_int U32_MAX) 0 (field v 13 "junk_frames");
  early_ws_frames ← optional (read_int U8_MAX) 0 (field v 14 "early_ws_frames");
  ws_ping_secs ← optional (read_int U64_MAX) default_ws_ping_secs_cfg (field v 15 "ws_ping_secs");
  ws_headers ← optional read_str [] (field v 16 "ws_headers");
  use_tcp_mux ← optional read_bool true (field v 17 "use_tcp_mux");
  ws_path ← optional read_str [] (field v 18 "ws_path");
  pad_mode ← optional read_str [] (field v 19 "pad_mode");
  ws_ping_jitter_percent ← optional (read_int U8_MAX) 0 (field v 20 "ws_ping_jitter_percent");
  ws_binary_send_jitter_ms ← optional (read_int U8_MAX) 0 (field v 21 "ws_binary_send_jitter_ms");
  udp_max_pad ← optional read_str [] (field v 22 "udp_max_pad");
  udp_max_ws_binary ← optional read_str [] (field v 23 "udp_max_ws_binary");
  udp_mux_reply_timeout_secs ← optional read_str [] (field v 24 "udp_mux_reply_timeout_secs");
  dummy_interval_secs ← optional (read_int U64_MAX) 0 (field v 25 "dummy_interval_secs");
  decoy_gets ← optional read_bool false (field v 26 "decoy_gets");
  decoy_gets_interval_secs ← optional (read_int U64_MAX) default_decoy_gets_interval_cfg (field v 27 "decoy_gets_interval_secs");
  decoy_gets_paths ← optional read_str [] (field v 28 "decoy_gets_paths");
  pin_cert_pem ← optional read_str [] (field v 29 "pin_cert_pem");
  split_tunnel_enabled ← optional read_bool false (field v 30 "split_tunnel_enabled");
  split_tunnel_preset_ids ← optional read_strs [] (field v 31 "split_tunnel_preset_ids");
  proto ← optional (read_int U8_MAX) default_proto (field v 32 "proto");
  proto_domain ← optional read_str [] (field v 33 "proto_domain");
  stealth_profile ← optional read_str [] (field v 34 "stealth_profile");
  decoy_mode ← optional read_str [] (field v 35 "decoy_mode");
  desync_mode ← optional read_str [] (field v 36 "desync_mode");
  tcp_fooling ← optional read_str [] (field v 37 "tcp_fooling");
  tls_fragment ← optional read_bool false (field v 38 "tls_fragment");
  ws_parallel ← optional (read_int U8_MAX) default_ws_parallel (field v 39 "ws_parallel");
  idle_decoy_secs ← optional (read_int U64_MAX) 0 (field v 40 "idle_decoy_secs");
  tls_stack ← optional read_str default_tls_stack_str (field v 41 "tls_stack");
  fingerprint ← optional read_str [] (field v 42 "fingerprint");
  reality_target ← optional read_str [] (field v 43 "reality_target");
  reality_public_key ← optional read_str [] (field v 44 "reality_public_key");
  reality_short_id ← optional read_str [] (field v 45 "reality_short_id");
  ws_host ← optional read_str [] (field v 46 "ws_host");
  ws_origin ← optional read_str [] (field v 47 "ws_origin");
  ws_user_agent ← optional read_str [] (field v 48 "ws_user_agent");
  ws_accept_language ← optional read_str [] (field v 49 "ws_accept_language");
  ws_jitter_min_ms ← optional (read_int U8_MAX) 0 (field v 50 "ws_jitter_min_ms");
  ws_jitter_max_ms ← optional (read_int U8_MAX) 0 (field v 51 "ws_jitter_max_ms");
  control_plane_instance_id ← optional (read_int U64_MAX) 0 (field v 52 "control_plane_instance_id");
  control_plane_config_version ← optional read_str [] (field v 53 "control_plane_config_version");
  control_plane_base_url ← optional read_str [] (field v 54 "control_plane_base_url");
  android_socks_bind ← optional read_str [] (field v 55 "android_socks_bind");
  android_split_tunnel_packages ← optional read_strs [] (field v 56 "android_split_tunnel_packages");
  android_manual_split_packages ← optional read_strs [] (field v 57 "android_manual_split_packages");
  android_vpn_routing_mode ← optional read_str default_android_vpn_routing_mode (field v 58 "android_vpn_routing_mode");
  android_screen_off_battery_saver ← optional read_bool false (field v 59 "android_screen_off_battery_saver");
  _ ← no_more v 60;
  Ok {| tp_id := id; tp_name := name; tp_server := server; tp_token := token; tp_psk := psk; tp_sni := sni; tp_insecure := insecure; tp_max_pad := max_pad;
     tp_decoy_max := decoy_max; tp_max_ws_binary := max_ws_binary; tp_tls_profile := tls_profile; tp_from_invite := from_invite;
     tp_invite_passphrase := invite_passphrase; tp_junk_frames := junk_frames; tp_early_ws_frames := early_ws_frames; tp_ws_ping_secs := ws_ping_secs;
     tp_ws_headers := ws_headers; tp_use_tcp_mux := use_tcp_mux; tp_ws_path := ws_path; tp_pad_mode := pad_mode;
     tp_ws_ping_jitter_percent := ws_ping_jitter_percent; tp_ws_binary_send_jitter_ms := ws_binary_send_jitter_ms; tp_udp_max_pad := udp_max_pad;
     tp_udp_max_ws_binary := udp_max_ws_binary; tp_udp_mux_reply_timeout_secs := udp_mux_reply_timeout_secs;
     tp_dummy_interval_secs := dummy_interval_secs; tp_decoy_gets := decoy_gets; tp_decoy_gets_interval_secs := decoy_gets_interval_secs;
     tp_decoy_gets_paths := decoy_gets_paths; tp_pin_cert_pem := pin_cert_pem; tp_split_tunnel_enabled := split_tunnel_enabled;
     tp_split_tunnel_preset_ids := split_tunnel_preset_ids; tp_proto := proto; tp_proto_domain := proto_domain; tp_stealth_profile := stealth_profile;
     tp_decoy_mode := decoy_mode; tp_desync_mode := desync_mode; tp_tcp_fooling := tcp_fooling; tp_tls_fragment := tls_fragment;
     tp_ws_parallel := ws_parallel; tp_idle_decoy_secs := idle_decoy_secs; tp_tls_stack := tls_stack; tp_fingerprint := fingerprint;
     tp_reality_target := reality_target; tp_reality_public_key := reality_public_key; tp_reality_short_id := reality_short_id; tp_ws_host := ws_host;
     tp_ws_origin := ws_origin; tp_ws_user_agent := ws_user_agent; tp_ws_accept_language := ws_accept_language; tp_ws_jitter_min_ms := ws_jitter_min_ms;
     tp_ws_jitter_max_ms := ws_jitter_max_ms; tp_control_plane_instance_id := control_plane_instance_id;
     tp_control_plane_config_version := control_plane_config_version; tp_control_plane_base_url := control_plane_base_url;
     tp_android_socks_bind := android_socks_bind; tp_android_split_tunnel_packages := android_split_tunnel_packages;
     tp_android_manual_split_packages := android_manual_split_packages; tp_android_vpn_routing_mode := android_vpn_routing_mode;
     tp_android_screen_off_battery_saver := android_screen_off_battery_saver |}.

Definition profile_value (p : TunnelProfile) : Value :=
  VObj [(bs "id", VStr p.(tp_id)); (bs "name", VStr p.(tp_name)); (bs "server", VStr p.(tp_server)); (bs "token", VStr p.(tp_token));
        (bs "psk", VStr p.(tp_psk)); (bs "sni", VStr p.(tp_sni)); (bs "insecure", VBool p.(tp_insecure)); (bs "max_pad", VNum p.(tp_max_pad));
        (bs "decoy_max", VNum p.(tp_decoy_max)); (bs "max_ws_binary", VNum p.(tp_max_ws_binary)); (bs "tls_profile", VStr p.(tp_tls_profile));
        (bs "from_invite", VStr p.(tp_from_invite)); (bs "invite_passphrase", VStr p.(tp_invite_passphrase)); (bs "junk_frames", VNum p.(tp_junk_frames));
        (bs "early_ws_frames", VNum p.(tp_early_ws_frames)); (bs "ws_ping_secs", VNum p.(tp_ws_ping_secs)); (bs "ws_headers", VStr p.(tp_ws_headers));
        (bs "use_tcp_mux", VBool p.(tp_use_tcp_mux)); (bs "ws_path", VStr p.(tp_ws_path)); (bs "pad_mode", VStr p.(tp_pad_mode));
        (bs "ws_ping_jitter_percent", VNum p.(tp_ws_ping_jitter_percent)); (bs "ws_binary_send_jitter_ms", VNum p.(tp_ws_binary_send_jitter_ms));
        (bs "udp_max_pad", VStr p.(tp_udp_max_pad)); (bs "udp_max_ws_binary", VStr p.(tp_udp_max_ws_binary));
        (bs "udp_mux_reply_timeout_secs", VStr p.(tp_udp_mux_reply_timeout_secs)); (bs "dummy_interval_secs", VNum p.(tp_dummy_interval_secs));
        (bs "decoy_gets", VBool p.(tp_decoy_gets)); (bs "decoy_gets_interval_secs", VNum p.(tp_decoy_gets_interval_secs));
        (bs "decoy_gets_paths", VStr p.(tp_decoy_gets_paths)); (bs "pin_cert_pem", VStr p.(tp_pin_cert_pem));
        (bs "split_tunnel_enabled", VBool p.(tp_split_tunnel_enabled)); (bs "split_tunnel_preset_ids", VStrs p.(tp_split_tunnel_preset_ids));
        (bs "proto", VNum p.(tp_proto)); (bs "proto_domain", VStr p.(tp_proto_domain)); (bs "stealth_profile", VStr p.(tp_stealth_profile));
        (bs "decoy_mode", VStr p.(tp_decoy_mode)); (bs "desync_mode", VStr p.(tp_desync_mode)); (bs "tcp_fooling", VStr p.(tp_tcp_fooling));
        (bs "tls_fragment", VBool p.(tp_tls_fragment)); (bs "ws_parallel", VNum p.(tp_ws_parallel)); (bs "idle_decoy_secs", VNum p.(tp_idle_decoy_secs));
        (bs "tls_stack", VStr p.(tp_tls_stack)); (bs "fingerprint", VStr p.(tp_fingerprint)); (bs "reality_target", VStr p.(tp_reality_target));
        (bs "reality_public_key", VStr p.(tp_reality_public_key)); (bs "reality_short_id", VStr p.(tp_reality_short_id));
        (bs "ws_host", VStr p.(tp_ws_host)); (bs "ws_origin", VStr p.(tp_ws_origin)); (bs "ws_user_agent", VStr p.(tp_ws_user_agent));
        (bs "ws_accept_language", VStr p.(tp_ws_accept_language)); (bs "ws_jitter_min_ms", VNum p.(tp_ws_jitter_min_ms));
        (bs "ws_jitter_max_ms", VNum p.(tp_ws_jitter_max_ms)); (bs "control_plane_instance_id", VNum p.(tp_control_plane_instance_id));
        (bs "control_plane_config_version", VStr p.(tp_control_plane_config_version)); (bs "control_plane_base_url", VStr p.(tp_control_plane_base_url));
        (bs "android_socks_bind", VStr p.(tp_android_socks_bind)); (bs "android_split_tunnel_packages", VStrs p.(tp_android_split_tunnel_packages));
        (bs "android_manual_split_packages", VStrs p.(tp_android_manual_split_packages));
        (bs "android_vpn_routing_mode", VStr p.(tp_android_vpn_routing_mode));
        (bs "android_screen_off_battery_saver", VBool p.(tp_android_screen_off_battery_saver))].

Record SavedConfig := {
  c_version : Z;
  c_ui_locale : str;
  c_local_http_port : Z;
  c_local_socks_port : Z;
  c_active_profile_id : str;
  c_profiles : list TunnelProfile;
}.
Definition read_profiles (v : Value) : option (list TunnelProfile) :=
  match v with VArr l => read_all (fun v => match read_profile v with Ok p => Some p | _ => None end) l | _ => None end.
Definition read_config (v : Value) : result SavedConfig :=
  version ← optional (read_int U32_MAX) 0 (field v 0 "version");
  ui_locale ← optional read_str default_ui_locale (field v 1 "ui_locale");
  local_http_port ← optional (read_int U16_MAX) default_http_port (field v 2 "local_http_port");
  local_socks_port ← optional (read_int U16_MAX) 0 (field v 3 "local_socks_port");
  active_profile_id ← optional read_str [] (field v 4 "active_profile_id");
  profiles ← optional read_profiles [] (field v 5 "profiles");
  _ ← no_more v 6;
  Ok {| c_version := version; c_ui_locale := ui_locale; c_local_http_port := local_http_port; c_local_socks_port := local_socks_port;
        c_active_profile_id := active_profile_id; c_profiles := profiles |}.
Definition config_object (profiles : Value) (version : Z) (ui_locale : str) (http socks : Z) (active : str) : Value :=
  VObj [(bs "version", VNum version); (bs "ui_locale", VStr ui_locale); (bs "local_http_port", VNum http); (bs "local_socks_port", VNum socks);
        (bs "active_profile_id", VStr active); (bs "profiles", profiles)].
Definition config_value (c : SavedConfig) : Value :=
  config_object (VArr (profile_value <$> c.(c_profiles))) c.(c_version) c.(c_ui_locale) c.(c_local_http_port) c.(c_local_socks_port) c.(c_active_profile_id).

(** The clock in microseconds. *)
Definition new_profile_id (now : Z) : str := bs "p-" ++ show_dec now.
Definition fresh_profile (id name : str) (p : TunnelProfile) : TunnelProfile :=
  {| tp_id := id; tp_name := name; tp_server := p.(tp_server); tp_token := p.(tp_token); tp_psk := p.(tp_psk); tp_sni := p.(tp_sni);
     tp_insecure := p.(tp_insecure); tp_max_pad := p.(tp_max_pad); tp_decoy_max := p.(tp_decoy_max); tp_max_ws_binary := p.(tp_max_ws_binary);
     tp_tls_profile := p.(tp_tls_profile); tp_from_invite := p.(tp_from_invite); tp_invite_passphrase := p.(tp_invite_passphrase);
     tp_junk_frames := p.(tp_junk_frames); tp_early_ws_frames := p.(tp_early_ws_frames); tp_ws_ping_secs := p.(tp_ws_ping_secs);
     tp_ws_headers := p.(tp_ws_headers); tp_use_tcp_mux := p.(tp_use_tcp_mux); tp_ws_path := p.(tp_ws_path); tp_pad_mode := p.(tp_pad_mode);
     tp_ws_ping_jitter_percent := p.(tp_ws_ping_jitter_percent); tp_ws_binary_send_jitter_ms := p.(tp_ws_binary_send_jitter_ms);
     tp_udp_max_pad := p.(tp_udp_max_pad); tp_udp_max_ws_binary := p.(tp_udp_max_ws_binary);
     tp_udp_mux_reply_timeout_secs := p.(tp_udp_mux_reply_timeout_secs); tp_dummy_interval_secs := p.(tp_dummy_interval_secs);
     tp_decoy_gets := p.(tp_decoy_gets); tp_decoy_gets_interval_secs := p.(tp_decoy_gets_interval_secs); tp_decoy_gets_paths := p.(tp_decoy_gets_paths);
     tp_pin_cert_pem := p.(tp_pin_cert_pem); tp_split_tunnel_enabled := p.(tp_split_tunnel_enabled);
     tp_split_tunnel_preset_ids := p.(tp_split_tunnel_preset_ids); tp_proto := p.(tp_proto); tp_proto_domain := p.(tp_proto_domain);
     tp_stealth_profile := p.(tp_stealth_profile); tp_decoy_mode := p.(tp_decoy_mode); tp_desync_mode := p.(tp_desync_mode);
     tp_tcp_fooling := p.(tp_tcp_fooling); tp_tls_fragment := p.(tp_tls_fragment); tp_ws_parallel := p.(tp_ws_parallel);
     tp_idle_decoy_secs := p.(tp_idle_decoy_secs); tp_tls_stack := p.(tp_tls_stack); tp_fingerprint := p.(tp_fingerprint);
     tp_reality_target := p.(tp_reality_target); tp_reality_public_key := p.(tp_reality_public_key); tp_reality_short_id := p.(tp_reality_short_id);
     tp_ws_host := p.(tp_ws_host); tp_ws_origin := p.(tp_ws_origin); tp_ws_user_agent := p.(tp_ws_user_agent);
     tp_ws_accept_language := p.(tp_ws_accept_language); tp_ws_jitter_min_ms := p.(tp_ws_jitter_min_ms); tp_ws_jitter_max_ms := p.(tp_ws_jitter_max_ms);
     tp_control_plane_instance_id := p.(tp_control_plane_instance_id); tp_control_plane_config_version := p.(tp_control_plane_config_version);
     tp_control_plane_base_url := p.(tp_control_plane_base_url); tp_android_socks_bind := p.(tp_android_socks_bind);
     tp_android_split_tunnel_packages := p.(tp_android_split_tunnel_packages); tp_android_manual_split_packages := p.(tp_android_manual_split_packages);
     tp_android_vpn_routing_mode := p.(tp_android_vpn_routing_mode); tp_android_screen_off_battery_saver := p.(tp_android_screen_off_battery_saver) |}.
Definition default_profile (id : str) : TunnelProfile := fresh_profile id (bs "Default") TunnelProfile_default.
Definition SavedConfig_default (now : Z) : SavedConfig :=
  let id := new_profile_id now in
  {| c_version := CONFIG_VERSION; c_ui_locale := default_ui_locale; c_local_http_port := default_http_port; c_local_socks_port := 0;
     c_active_profile_id := id; c_profiles := [default_profile id] |}.

Definition active_profile (c : SavedConfig) : option TunnelProfile :=
  match List.find (fun p => bool_decide (p.(tp_id) = c.(c_active_profile_id))) c.(c_profiles) with Some p => Some p | None => head c.(c_profiles) end.
Definition can_connect (p : TunnelProfile) : bool :=
  let invite_ok := non_empty (trim p.(tp_from_invite)) && non_empty p.(tp_invite_passphrase) in
  let manual_ok := non_empty (trim p.(tp_server)) && non_empty (trim p.(tp_token)) in
  invite_ok || manual_ok.
Definition config_can_connect (c : SavedConfig) : bool := match active_profile c with Some p => can_connect p | None => false end.

(** ** What the interface sees, and what it saves *)

Record PublicTunnelProfile := {
  pub_id : str;
  pub_name : str;
  pub_server : str;
  pub_sni : str;
  pub_insecure : bool;
  pub_max_pad : Z;
  pub_decoy_max : Z;
  pub_max_ws_binary : Z;
  pub_tls_profile : str;
  pub_junk_frames : Z;
  pub_early_ws_frames : Z;
  pub_ws_ping_secs : Z;
  pub_ws_headers : str;
  pub_use_tcp_mux : bool;
  pub_ws_path : str;
  pub_pad_mode : str;
  pub_ws_ping_jitter_percent : Z;
  pub_ws_binary_send_jitter_ms : Z;
  pub_udp_max_pad : str;
  pub_udp_max_ws_binary : str;
  pub_udp_mux_reply_timeout_secs : str;
  pub_dummy_interval_secs : Z;
  pub_decoy_gets : bool;
  pub_decoy_gets_interval_secs : Z;
  pub_decoy_gets_paths : str;
  pub_split_tunnel_enabled : bool;
  pub_split_tunnel_preset_ids : list str;
  pub_proto : Z;
  pub_proto_domain : str;
  pub_stealth_profile : str;
  pub_decoy_mode : str;
  pub_desync_mode : str;
  pub_tcp_fooling : str;
  pub_tls_fragment : bool;
  pub_ws_parallel : Z;
  pub_idle_decoy_secs : Z;
  pub_tls_stack : str;
  pub_fingerprint : str;
  pub_reality_target : str;
  pub_reality_public_key : str;
  pub_reality_short_id : str;
  pub_ws_host : str;
  pub_ws_origin : str;
  pub_ws_user_agent : str;
  pub_ws_accept_language : str;
  pub_ws_jitter_min_ms : Z;
  pub_ws_jitter_max_ms : Z;
  pub_control_plane_instance_id : Z;
  pub_control_plane_config_version : str;
  pub_control_plane_base_url : str;
  pub_android_socks_bind : str;
  pub_android_split_tunnel_packages : list str;
  pub_android_manual_split_packages : list str;
  pub_android_vpn_routing_mode : str;
  pub_android_screen_off_battery_saver : bool;
  pub_has_token : bool;
  pub_has_psk : bool;
  pub_has_from_invite : bool;
  pub_has_invite_passphrase : bool;
  pub_has_invite : bool;
  pub_has_pin_cert : bool;
}.
Definition to_public_profile (p : TunnelProfile) : PublicTunnelProfile :=
  let has_token := non_empty (trim p.(tp_token)) in
  let has_psk := non_empty (trim p.(tp_psk)) in
  let has_from_invite := non_empty (trim p.(tp_from_invite)) in
  let has_invite_passphrase := non_empty (trim p.(tp_invite_passphrase)) in
  let has_pin_cert := non_empty (trim p.(tp_pin_cert_pem)) in
  {| pub_id := p.(tp_id); pub_name := p.(tp_name); pub_server := p.(tp_server); pub_sni := p.(tp_sni); pub_insecure := p.(tp_insecure);
     pub_max_pad := p.(tp_max_pad); pub_decoy_max := p.(tp_decoy_max); pub_max_ws_binary := p.(tp_max_ws_binary); pub_tls_profile := p.(tp_tls_profile);
     pub_junk_frames := p.(tp_junk_frames); pub_early_ws_frames := p.(tp_early_ws_frames); pub_ws_ping_secs := p.(tp_ws_ping_secs);
     pub_ws_headers := p.(tp_ws_headers); pub_use_tcp_mux := p.(tp_use_tcp_mux); pub_ws_path := p.(tp_ws_path); pub_pad_mode := p.(tp_pad_mode);
     pub_ws_ping_jitter_percent := p.(tp_ws_ping_jitter_percent); pub_ws_binary_send_jitter_ms := p.(tp_ws_binary_send_jitter_ms);
     pub_udp_max_pad := p.(tp_udp_max_pad); pub_udp_max_ws_binary := p.(tp_udp_max_ws_binary);
     pub_udp_mux_reply_timeout_secs := p.(tp_udp_mux_reply_timeout_secs); pub_dummy_interval_secs := p.(tp_dummy_interval_secs);
     pub_decoy_gets := p.(tp_decoy_gets); pub_decoy_gets_interval_secs := p.(tp_decoy_gets_interval_secs);
     pub_decoy_gets_paths := p.(tp_decoy_gets_paths); pub_split_tunnel_enabled := p.(tp_split_tunnel_enabled);
     pub_split_tunnel_preset_ids := p.(tp_split_tunnel_preset_ids); pub_proto := p.(tp_proto); pub_proto_domain := p.(tp_proto_domain);
     pub_stealth_profile := p.(tp_stealth_profile); pub_decoy_mode := p.(tp_decoy_mode); pub_desync_mode := p.(tp_desync_mode);
     pub_tcp_fooling := p.(tp_tcp_fooling); pub_tls_fragment := p.(tp_tls_fragment); pub_ws_parallel := p.(tp_ws_parallel);
     pub_idle_decoy_secs := p.(tp_idle_decoy_secs); pub_tls_stack := p.(tp_tls_stack); pub_fingerprint := p.(tp_fingerprint);
     pub_reality_target := p.(tp_reality_target); pub_reality_public_key := p.(tp_reality_public_key); pub_reality_short_id := p.(tp_reality_short_id);
     pub_ws_host := p.(tp_ws_host); pub_ws_origin := p.(tp_ws_origin); pub_ws_user_agent := p.(tp_ws_user_agent);
     pub_ws_accept_language := p.(tp_ws_accept_language); pub_ws_jitter_min_ms := p.(tp_ws_jitter_min_ms);
     pub_ws_jitter_max_ms := p.(tp_ws_jitter_max_ms); pub_control_plane_instance_id := p.(tp_control_plane_instance_id);
     pub_control_plane_config_version := p.(tp_control_plane_config_version); pub_control_plane_base_url := p.(tp_control_plane_base_url);
     pub_android_socks_bind := p.(tp_android_socks_bind); pub_android_split_tunnel_packages := p.(tp_android_split_tunnel_packages);
     pub_android_manual_split_packages := p.(tp_android_manual_split_packages); pub_android_vpn_routing_mode := p.(tp_android_vpn_routing_mode);
     pub_android_screen_off_battery_saver := p.(tp_android_screen_off_battery_saver); pub_has_token := has_token; pub_has_psk := has_psk;
     pub_has_from_invite := has_from_invite; pub_has_invite_passphrase := has_invite_passphrase;
     pub_has_invite := has_from_invite && has_invite_passphrase; pub_has_pin_cert := has_pin_cert |}.
Definition public_profile_value (p : PublicTunnelProfile) : Value :=
  VObj [(bs "id", VStr p.(pub_id)); (bs "name", VStr p.(pub_name)); (bs "server", VStr p.(pub_server)); (bs "sni", VStr p.(pub_sni));
        (bs "insecure", VBool p.(pub_insecure)); (bs "max_pad", VNum p.(pub_max_pad)); (bs "decoy_max", VNum p.(pub_decoy_max));
        (bs "max_ws_binary", VNum p.(pub_max_ws_binary)); (bs "tls_profile", VStr p.(pub_tls_profile)); (bs "junk_frames", VNum p.(pub_junk_frames));
        (bs "early_ws_frames", VNum p.(pub_early_ws_frames)); (bs "ws_ping_secs", VNum p.(pub_ws_ping_secs)); (bs "ws_headers", VStr p.(pub_ws_headers));
        (bs "use_tcp_mux", VBool p.(pub_use_tcp_mux)); (bs "ws_path", VStr p.(pub_ws_path)); (bs "pad_mode", VStr p.(pub_pad_mode));
        (bs "ws_ping_jitter_percent", VNum p.(pub_ws_ping_jitter_percent)); (bs "ws_binary_send_jitter_ms", VNum p.(pub_ws_binary_send_jitter_ms));
        (bs "udp_max_pad", VStr p.(pub_udp_max_pad)); (bs "udp_max_ws_binary", VStr p.(pub_udp_max_ws_binary));
        (bs "udp_mux_reply_timeout_secs", VStr p.(pub_udp_mux_reply_timeout_secs)); (bs "dummy_interval_secs", VNum p.(pub_dummy_interval_secs));
        (bs "decoy_gets", VBool p.(pub_decoy_gets)); (bs "decoy_gets_interval_secs", VNum p.(pub_decoy_gets_interval_secs));
        (bs "decoy_gets_paths", VStr p.(pub_decoy_gets_paths)); (bs "split_tunnel_enabled", VBool p.(pub_split_tunnel_enabled));
        (bs "split_tunnel_preset_ids", VStrs p.(pub_split_tunnel_preset_ids)); (bs "proto", VNum p.(pub_proto));
        (bs "proto_domain", VStr p.(pub_proto_domain)); (bs "stealth_profile", VStr p.(pub_stealth_profile)); (bs "decoy_mode", VStr p.(pub_decoy_mode));
        (bs "desync_mode", VStr p.(pub_desync_mode)); (bs "tcp_fooling", VStr p.(pub_tcp_fooling)); (bs "tls_fragment", VBool p.(pub_tls_fragment));
        (bs "ws_parallel", VNum p.(pub_ws_parallel)); (bs "idle_decoy_secs", VNum p.(pub_idle_decoy_secs)); (bs "tls_stack", VStr p.(pub_tls_stack));
        (bs "fingerprint", VStr p.(pub_fingerprint)); (bs "reality_target", VStr p.(pub_reality_target));
        (bs "reality_public_key", VStr p.(pub_reality_public_key)); (bs "reality_short_id", VStr p.(pub_reality_short_id));
        (bs "ws_host", VStr p.(pub_ws_host)); (bs "ws_origin", VStr p.(pub_ws_origin)); (bs "ws_user_agent", VStr p.(pub_ws_user_agent));
        (bs "ws_accept_language", VStr p.(pub_ws_accept_language)); (bs "ws_jitter_min_ms", VNum p.(pub_ws_jitter_min_ms));
        (bs "ws_jitter_max_ms", VNum p.(pub_ws_jitter_max_ms)); (bs "control_plane_instance_id", VNum p.(pub_control_plane_instance_id));
        (bs "control_plane_config_version", VStr p.(pub_control_plane_config_version)); (bs "control_plane_base_url", VStr p.(pub_control_plane_base_url));
        (bs "android_socks_bind", VStr p.(pub_android_socks_bind)); (bs "android_split_tunnel_packages", VStrs p.(pub_android_split_tunnel_packages));
        (bs "android_manual_split_packages", VStrs p.(pub_android_manual_split_packages));
        (bs "android_vpn_routing_mode", VStr p.(pub_android_vpn_routing_mode));
        (bs "android_screen_off_battery_saver", VBool p.(pub_android_screen_off_battery_saver)); (bs "has_token", VBool p.(pub_has_token));
        (bs "has_psk", VBool p.(pub_has_psk)); (bs "has_from_invite", VBool p.(pub_has_from_invite));
        (bs "has_invite_passphrase", VBool p.(pub_has_invite_passphrase)); (bs "has_invite", VBool p.(pub_has_invite));
        (bs "has_pin_cert", VBool p.(pub_has_pin_cert))].
Definition public_config_value (c : SavedConfig) : Value :=
  config_object (VArr (public_profile_value ∘ to_public_profile <$> c.(c_profiles))) c.(c_version) c.(c_ui_locale) c.(c_local_http_port)
    c.(c_local_socks_port) c.(c_active_profile_id).

Definition with_secrets (token psk from_invite invite_passphrase pin_cert_pem : str) (p : TunnelProfile) : TunnelProfile :=
  {| tp_id := p.(tp_id); tp_name := p.(tp_name); tp_server := p.(tp_server); tp_token := token; tp_psk := psk; tp_sni := p.(tp_sni);
     tp_insecure := p.(tp_insecure); tp_max_pad := p.(tp_max_pad); tp_decoy_max := p.(tp_decoy_max); tp_max_ws_binary := p.(tp_max_ws_binary);
     tp_tls_profile := p.(tp_tls_profile); tp_from_invite := from_invite; tp_invite_passphrase := invite_passphrase; tp_junk_frames := p.(tp_junk_frames);
     tp_early_ws_frames := p.(tp_early_ws_frames); tp_ws_ping_secs := p.(tp_ws_ping_secs); tp_ws_headers := p.(tp_ws_headers);
     tp_use_tcp_mux := p.(tp_use_tcp_mux); tp_ws_path := p.(tp_ws_path); tp_pad_mode := p.(tp_pad_mode);
     tp_ws_ping_jitter_percent := p.(tp_ws_ping_jitter_percent); tp_ws_binary_send_jitter_ms := p.(tp_ws_binary_send_jitter_ms);
     tp_udp_max_pad := p.(tp_udp_max_pad); tp_udp_max_ws_binary := p.(tp_udp_max_ws_binary);
     tp_udp_mux_reply_timeout_secs := p.(tp_udp_mux_reply_timeout_secs); tp_dummy_interval_secs := p.(tp_dummy_interval_secs);
     tp_decoy_gets := p.(tp_decoy_gets); tp_decoy_gets_interval_secs := p.(tp_decoy_gets_interval_secs); tp_decoy_gets_paths := p.(tp_decoy_gets_paths);
     tp_pin_cert_pem := pin_cert_pem; tp_split_tunnel_enabled := p.(tp_split_tunnel_enabled);
     tp_split_tunnel_preset_ids := p.(tp_split_tunnel_preset_ids); tp_proto := p.(tp_proto); tp_proto_domain := p.(tp_proto_domain);
     tp_stealth_profile := p.(tp_stealth_profile); tp_decoy_mode := p.(tp_decoy_mode); tp_desync_mode := p.(tp_desync_mode);
     tp_tcp_fooling := p.(tp_tcp_fooling); tp_tls_fragment := p.(tp_tls_fragment); tp_ws_parallel := p.(tp_ws_parallel);
     tp_idle_decoy_secs := p.(tp_idle_decoy_secs); tp_tls_stack := p.(tp_tls_stack); tp_fingerprint := p.(tp_fingerprint);
     tp_reality_target := p.(tp_reality_target); tp_reality_public_key := p.(tp_reality_public_key); tp_reality_short_id := p.(tp_reality_short_id);
     tp_ws_host := p.(tp_ws_host); tp_ws_origin := p.(tp_ws_origin); tp_ws_user_agent := p.(tp_ws_user_agent);
     tp_ws_accept_language := p.(tp_ws_accept_language); tp_ws_jitter_min_ms := p.(tp_ws_jitter_min_ms); tp_ws_jitter_max_ms := p.(tp_ws_jitter_max_ms);
     tp_control_plane_instance_id := p.(tp_control_plane_instance_id); tp_control_plane_config_version := p.(tp_control_plane_config_version);
     tp_control_plane_base_url := p.(tp_control_plane_base_url); tp_android_socks_bind := p.(tp_android_socks_bind);
     tp_android_split_tunnel_packages := p.(tp_android_split_tunnel_packages); tp_android_manual_split_packages := p.(tp_android_manual_split_packages);
     tp_android_vpn_routing_mode := p.(tp_android_vpn_routing_mode); tp_android_screen_off_battery_saver := p.(tp_android_screen_off_battery_saver) |}.
Definition merge_profile_secrets (stored : option TunnelProfile) (raw : Value) (incoming : TunnelProfile) : TunnelProfile :=
  match stored with
  | Some s =>
    let keep (k : string) (f : TunnelProfile -> str) := if contains_key raw k then f incoming else f s in
    with_secrets (keep "token"%string tp_token) (keep "psk"%string tp_psk) (keep "from_invite"%string tp_from_invite)
      (keep "invite_passphrase"%string tp_invite_passphrase) (keep "pin_cert_pem"%string tp_pin_cert_pem) incoming
  | None => incoming
  end.
Definition find_profile (id : str) (l : list TunnelProfile) : option TunnelProfile := List.find (fun p => bool_decide (p.(tp_id) = id)) l.
Definition merge_saved_config (stored : SavedConfig) (incoming : Value) : result SavedConfig :=
  _ ← context "not an object"%string (as_object incoming);
  m ← read_config incoming;
  let raw := get_array incoming "profiles" in
  let keep {A} (k : string) (f : SavedConfig -> A) : A := if contains_key incoming k then f m else f stored in
  let profiles := keep "profiles"%string c_profiles in
  Ok {| c_version := keep "version"%string c_version; c_ui_locale := keep "ui_locale"%string c_ui_locale;
        c_local_http_port := keep "local_http_port"%string c_local_http_port; c_local_socks_port := keep "local_socks_port"%string c_local_socks_port;
        c_active_profile_id := keep "active_profile_id"%string c_active_profile_id;
        c_profiles := imap (fun i p => merge_profile_secrets (find_profile p.(tp_id) stored.(c_profiles)) (default VNull (raw !! i)) p) profiles |}.

(** ** The file *)

Record LegacyFlatConfig := {
  l_server : str;
  l_token : str;
  l_psk : str;
  l_sni : str;
  l_insecure : bool;
  l_local_http_port : Z;
  l_local_socks_port : Z;
  l_max_pad : Z;
  l_decoy_max : Z;
  l_max_ws_binary : Z;
  l_tls_profile : str;
  l_from_invite : str;
  l_invite_passphrase : str;
  l_junk_frames : Z;
  l_early_ws_frames : Z;
  l_ws_ping_secs : Z;
  l_ws_headers : str;
  l_use_tcp_mux : bool;
  l_ws_path : str;
  l_pad_mode : str;
  l_ws_ping_jitter_percent : Z;
  l_ws_binary_send_jitter_ms : Z;
  l_udp_max_pad : str;
  l_udp_max_ws_binary : str;
  l_udp_mux_reply_timeout_secs : str;
  l_dummy_interval_secs : Z;
  l_decoy_gets : bool;
  l_decoy_gets_interval_secs : Z;
  l_decoy_gets_paths : str;
  l_pin_cert_pem : str;
  l_ui_locale : str;
  l_split_tunnel_enabled : bool;
  l_split_tunnel_preset_ids : list str;
}.
Definition read_legacy (v : Value) : result LegacyFlatConfig :=
  server ← required read_str (field v 0 "server");
  token ← required read_str (field v 1 "token");
  psk ← required read_str (field v 2 "psk");
  sni ← required read_str (field v 3 "sni");
  insecure ← required read_bool (field v 4 "insecure");
  local_http_port ← optional (read_int U16_MAX) default_http_port (field v 5 "local_http_port");
  local_socks_port ← optional (read_int U16_MAX) 0 (field v 6 "local_socks_port");
  max_pad ← optional (read_int U8_MAX) default_max_pad_cfg (field v 7 "max_pad");
  decoy_max ← optional (read_int U8_MAX) default_decoy_max_cfg (field v 8 "decoy_max");
  max_ws_binary ← optional (read_int U64_MAX) DEFAULT_CLIENT_MAX_WS_BINARY (field v 9 "max_ws_binary");
  tls_profile ← optional read_str default_tls_profile_cfg (field v 10 "tls_profile");
  from_invite ← optional read_str [] (field v 11 "from_invite");
  invite_passphrase ← optional read_str [] (field v 12 "invite_passphrase");
  junk_frames ← optional (read_int U32_MAX) 0 (field v 13 "junk_frames");
  early_ws_frames ← optional (read_int U8_MAX) 0 (field v 14 "early_ws_frames");
  ws_ping_secs ← optional (read_int U64_MAX) default_ws_ping_secs_cfg (field v 15 "ws_ping_secs");
  ws_headers ← optional read_str [] (field v 16 "ws_headers");
  use_tcp_mux ← optional read_bool true (field v 17 "use_tcp_mux");
  ws_path ← optional read_str [] (field v 18 "ws_path");
  pad_mode ← optional read_str [] (field v 19 "pad_mode");
  ws_ping_jitter_percent ← optional (read_int U8_MAX) 0 (field v 20 "ws_ping_jitter_percent");
  ws_binary_send_jitter_ms ← optional (read_int U8_MAX) 0 (field v 21 "ws_binary_send_jitter_ms");
  udp_max_pad ← optional read_str [] (field v 22 "udp_max_pad");
  udp_max_ws_binary ← optional read_str [] (field v 23 "udp_max_ws_binary");
  udp_mux_reply_timeout_secs ← optional read_str [] (field v 24 "udp_mux_reply_timeout_secs");
  dummy_interval_secs ← optional (read_int U64_MAX) 0 (field v 25 "dummy_interval_secs");
  decoy_gets ← optional read_bool false (field v 26 "decoy_gets");
  decoy_gets_interval_secs ← optional (read_int U64_MAX) default_decoy_gets_interval_cfg (field v 27 "decoy_gets_interval_secs");
  decoy_gets_paths ← optional read_str [] (field v 28 "decoy_gets_paths");
  pin_cert_pem ← optional read_str [] (field v 29 "pin_cert_pem");
  ui_locale ← optional read_str default_ui_locale (field v 30 "ui_locale");
  split_tunnel_enabled ← optional read_bool false (field v 31 "split_tunnel_enabled");
  split_tunnel_preset_ids ← optional read_strs [] (field v 32 "split_tunnel_preset_ids");
  _ ← no_more v 33;
  Ok {| l_server := server; l_token := token; l_psk := psk; l_sni := sni; l_insecure := insecure; l_local_http_port := local_http_port;
     l_local_socks_port := local_socks_port; l_max_pad := max_pad; l_decoy_max := decoy_max; l_max_ws_binary := max_ws_binary;
     l_tls_profile := tls_profile; l_from_invite := from_invite; l_invite_passphrase := invite_passphrase; l_junk_frames := junk_frames;
     l_early_ws_frames := early_ws_frames; l_ws_ping_secs := ws_ping_secs; l_ws_headers := ws_headers; l_use_tcp_mux := use_tcp_mux; l_ws_path := ws_path;
     l_pad_mode := pad_mode; l_ws_ping_jitter_percent := ws_ping_jitter_percent; l_ws_binary_send_jitter_ms := ws_binary_send_jitter_ms;
     l_udp_max_pad := udp_max_pad; l_udp_max_ws_binary := udp_max_ws_binary; l_udp_mux_reply_timeout_secs := udp_mux_reply_timeout_secs;
     l_dummy_interval_secs := dummy_interval_secs; l_decoy_gets := decoy_gets; l_decoy_gets_interval_secs := decoy_gets_interval_secs;
     l_decoy_gets_paths := decoy_gets_paths; l_pin_cert_pem := pin_cert_pem; l_ui_locale := ui_locale; l_split_tunnel_enabled := split_tunnel_enabled;
     l_split_tunnel_preset_ids := split_tunnel_preset_ids |}.
Definition migrate_legacy (now : Z) (l : LegacyFlatConfig) : SavedConfig :=
  let id := new_profile_id now in
  let d := TunnelProfile_default in
  let profile :=
    {| tp_id := id; tp_name := bs "Default"; tp_server := l.(l_server); tp_token := l.(l_token); tp_psk := l.(l_psk); tp_sni := l.(l_sni);
       tp_insecure := l.(l_insecure); tp_max_pad := l.(l_max_pad); tp_decoy_max := l.(l_decoy_max); tp_max_ws_binary := l.(l_max_ws_binary);
       tp_tls_profile := l.(l_tls_profile); tp_from_invite := l.(l_from_invite); tp_invite_passphrase := l.(l_invite_passphrase);
       tp_junk_frames := l.(l_junk_frames); tp_early_ws_frames := l.(l_early_ws_frames); tp_ws_ping_secs := l.(l_ws_ping_secs);
       tp_ws_headers := l.(l_ws_headers); tp_use_tcp_mux := l.(l_use_tcp_mux); tp_ws_path := l.(l_ws_path); tp_pad_mode := l.(l_pad_mode);
       tp_ws_ping_jitter_percent := l.(l_ws_ping_jitter_percent); tp_ws_binary_send_jitter_ms := l.(l_ws_binary_send_jitter_ms);
       tp_udp_max_pad := l.(l_udp_max_pad); tp_udp_max_ws_binary := l.(l_udp_max_ws_binary);
       tp_udp_mux_reply_timeout_secs := l.(l_udp_mux_reply_timeout_secs); tp_dummy_interval_secs := l.(l_dummy_interval_secs);
       tp_decoy_gets := l.(l_decoy_gets); tp_decoy_gets_interval_secs := l.(l_decoy_gets_interval_secs); tp_decoy_gets_paths := l.(l_decoy_gets_paths);
       tp_pin_cert_pem := l.(l_pin_cert_pem); tp_split_tunnel_enabled := l.(l_split_tunnel_enabled);
       tp_split_tunnel_preset_ids := l.(l_split_tunnel_preset_ids); tp_proto := d.(tp_proto); tp_proto_domain := d.(tp_proto_domain);
       tp_stealth_profile := d.(tp_stealth_profile); tp_decoy_mode := d.(tp_decoy_mode); tp_desync_mode := d.(tp_desync_mode);
       tp_tcp_fooling := d.(tp_tcp_fooling); tp_tls_fragment := d.(tp_tls_fragment); tp_ws_parallel := d.(tp_ws_parallel);
       tp_idle_decoy_secs := d.(tp_idle_decoy_secs); tp_tls_stack := d.(tp_tls_stack); tp_fingerprint := d.(tp_fingerprint);
       tp_reality_target := d.(tp_reality_target); tp_reality_public_key := d.(tp_reality_public_key); tp_reality_short_id := d.(tp_reality_short_id);
       tp_ws_host := d.(tp_ws_host); tp_ws_origin := d.(tp_ws_origin); tp_ws_user_agent := d.(tp_ws_user_agent);
       tp_ws_accept_language := d.(tp_ws_accept_language); tp_ws_jitter_min_ms := d.(tp_ws_jitter_min_ms); tp_ws_jitter_max_ms := d.(tp_ws_jitter_max_ms);
       tp_control_plane_instance_id := d.(tp_control_plane_instance_id); tp_control_plane_config_version := d.(tp_control_plane_config_version);
       tp_control_plane_base_url := d.(tp_control_plane_base_url); tp_android_socks_bind := d.(tp_android_socks_bind);
       tp_android_split_tunnel_packages := d.(tp_android_split_tunnel_packages); tp_android_manual_split_packages := d.(tp_android_manual_split_packages);
       tp_android_vpn_routing_mode := d.(tp_android_vpn_routing_mode); tp_android_screen_off_battery_saver := d.(tp_android_screen_off_battery_saver) |} in
  {| c_version := CONFIG_VERSION; c_ui_locale := l.(l_ui_locale); c_local_http_port := l.(l_local_http_port);
     c_local_socks_port := l.(l_local_socks_port); c_active_profile_id := id; c_profiles := [profile] |}.

Section File.
Context (from_str : str -> option Value) (to_string_pretty : Value -> str).

Definition unwrap_or_default {A} (r : result A) (d : A) : A := match r with Ok a => a | _ => d end.
(** [None] is a file that cannot be read. *)
Definition load_config_from_path (now : Z) (file : option str) : SavedConfig :=
  match file ≫= from_str with
  | None => SavedConfig_default now
  | Some v =>
    match get_array v "profiles" with
    | _ :: _ => unwrap_or_default (read_config v) (SavedConfig_default now)
    | [] => unwrap_or_default (l ← read_legacy v; Ok (migrate_legacy now l)) (SavedConfig_default now)
    end
  end.
(** How the file system answers: the write is refused, cut short, or done. *)
Inductive Write := Refused | Cut (n : nat) | Done.
Definition save_config_to_path (how : Write) (c : SavedConfig) (file : option str) : option str * result unit :=
  let s := to_string_pretty (config_value c) in
  match how with
  | Refused => (file, bail "write")
  | Cut n => (Some (take n s), bail "write")
  | Done => (Some s, Ok tt)
  end.
End File.

(** ** Repair *)

(** Trimmed, without blanks and without repetitions, in order. *)
Fixpoint distinct_packages (seen : list str) (l : list str) : list str :=
  match l with
  | [] => []
  | x :: l =>
    let k := trim x in
    if decide (k = []) then distinct_packages seen l
    else if decide (k ∈ seen) then distinct_packages seen l else k :: distinct_packages (k :: seen) l
  end.
Definition normalize_profile (id : str) (p : TunnelProfile) : TunnelProfile :=
  {| tp_id := if decide (trim p.(tp_id) = []) then id else p.(tp_id); tp_name := p.(tp_name); tp_server := p.(tp_server); tp_token := p.(tp_token);
     tp_psk := p.(tp_psk); tp_sni := p.(tp_sni); tp_insecure := p.(tp_insecure); tp_max_pad := p.(tp_max_pad); tp_decoy_max := p.(tp_decoy_max);
     tp_max_ws_binary := if decide (p.(tp_max_ws_binary) < 1024) then DEFAULT_CLIENT_MAX_WS_BINARY else p.(tp_max_ws_binary);
     tp_tls_profile := p.(tp_tls_profile); tp_from_invite := p.(tp_from_invite); tp_invite_passphrase := p.(tp_invite_passphrase);
     tp_junk_frames := p.(tp_junk_frames); tp_early_ws_frames := p.(tp_early_ws_frames); tp_ws_ping_secs := p.(tp_ws_ping_secs);
     tp_ws_headers := p.(tp_ws_headers); tp_use_tcp_mux := p.(tp_use_tcp_mux); tp_ws_path := p.(tp_ws_path); tp_pad_mode := p.(tp_pad_mode);
     tp_ws_ping_jitter_percent := p.(tp_ws_ping_jitter_percent); tp_ws_binary_send_jitter_ms := p.(tp_ws_binary_send_jitter_ms);
     tp_udp_max_pad := p.(tp_udp_max_pad); tp_udp_max_ws_binary := p.(tp_udp_max_ws_binary);
     tp_udp_mux_reply_timeout_secs := p.(tp_udp_mux_reply_timeout_secs); tp_dummy_interval_secs := p.(tp_dummy_interval_secs);
     tp_decoy_gets := p.(tp_decoy_gets); tp_decoy_gets_interval_secs := p.(tp_decoy_gets_interval_secs); tp_decoy_gets_paths := p.(tp_decoy_gets_paths);
     tp_pin_cert_pem := p.(tp_pin_cert_pem); tp_split_tunnel_enabled := p.(tp_split_tunnel_enabled);
     tp_split_tunnel_preset_ids := p.(tp_split_tunnel_preset_ids); tp_proto := p.(tp_proto); tp_proto_domain := p.(tp_proto_domain);
     tp_stealth_profile := p.(tp_stealth_profile); tp_decoy_mode := p.(tp_decoy_mode); tp_desync_mode := p.(tp_desync_mode);
     tp_tcp_fooling := p.(tp_tcp_fooling); tp_tls_fragment := p.(tp_tls_fragment); tp_ws_parallel := p.(tp_ws_parallel);
     tp_idle_decoy_secs := p.(tp_idle_decoy_secs); tp_tls_stack := p.(tp_tls_stack); tp_fingerprint := p.(tp_fingerprint);
     tp_reality_target := p.(tp_reality_target); tp_reality_public_key := p.(tp_reality_public_key); tp_reality_short_id := p.(tp_reality_short_id);
     tp_ws_host := p.(tp_ws_host); tp_ws_origin := p.(tp_ws_origin); tp_ws_user_agent := p.(tp_ws_user_agent);
     tp_ws_accept_language := p.(tp_ws_accept_language); tp_ws_jitter_min_ms := p.(tp_ws_jitter_min_ms); tp_ws_jitter_max_ms := p.(tp_ws_jitter_max_ms);
     tp_control_plane_instance_id := p.(tp_control_plane_instance_id); tp_control_plane_config_version := p.(tp_control_plane_config_version);
     tp_control_plane_base_url := p.(tp_control_plane_base_url); tp_android_socks_bind := p.(tp_android_socks_bind);
     tp_android_split_tunnel_packages := distinct_packages [] p.(tp_android_split_tunnel_packages);
     tp_android_manual_split_packages := distinct_packages [] p.(tp_android_manual_split_packages);
     tp_android_vpn_routing_mode := if decide (trim p.(tp_android_vpn_routing_mode) = []) then default_android_vpn_routing_mode else p.(tp_android_vpn_routing_mode);
     tp_android_screen_off_battery_saver := p.(tp_android_screen_off_battery_saver) |}.
(** The names that count are of ASCII letters that no other letter becomes in lower case. *)
Definition normalize_locale (s : str) : str :=
  let l := lowered s in
  if one_of l [""; "auto"]%string then bs "auto" else if one_of l ["ru"; "rus"]%string then bs "ru"
  else if one_of l ["en"; "eng"]%string then bs "en" else bs "auto".
(** [now n] is the clock at the [n]th time it is asked. *)
Definition normalize_loaded (now : nat -> Z) (c : SavedConfig) : SavedConfig :=
  let version := if decide (c.(c_version) < CONFIG_VERSION) then CONFIG_VERSION else c.(c_version) in
  let http := if decide (c.(c_local_http_port) = 0) then default_http_port else c.(c_local_http_port) in
  let socks := if decide (c.(c_local_socks_port) <> 0 /\ c.(c_local_socks_port) = http) then 0 else c.(c_local_socks_port) in
  let id := new_profile_id (now 0%nat) in
  let '(profiles, active) :=
    match c.(c_profiles) with [] => ([default_profile id], id) | l => (l, c.(c_active_profile_id)) end in
  let active := if existsb (fun p => bool_decide (p.(tp_id) = active)) profiles then active
                else match profiles with p :: _ => p.(tp_id) | [] => active end in
  {| c_version := version; c_ui_locale := normalize_locale c.(c_ui_locale); c_local_http_port := http; c_local_socks_port := socks;
     c_active_profile_id := active; c_profiles := imap (fun i p => normalize_profile (new_profile_id (now (S i))) p) profiles |}.

(** What [save_config_cmd] of [lib.rs] does to the configuration in memory and to the file; when the write fails, the new one stays in memory. *)
Definition save_config_cmd (to_string_pretty : Value -> str) (now : nat -> Z) (how : Write) (cfg : Value) (mem : SavedConfig) (file : option str)
    : SavedConfig * (option str * result unit) :=
  match merge_saved_config mem cfg with
  | Ok c => let c := normalize_loaded now c in (c, save_config_to_path to_string_pretty how c file)
  | Err e => (mem, (file, Err e))
  | Panic => (mem, (file, Panic))
  end.

(** ** What is shown of the server *)

Definition no_server : str := bs "—".
Definition by_key : str := bs "Ключ Biba".
Definition display_host_line (c : SavedConfig) : str :=
  match active_profile c with
  | None => no_server
  | Some p =>
    let server := trim p.(tp_server) in let sni := trim p.(tp_sni) in let invite := trim p.(tp_from_invite) in
    if non_empty server && non_empty sni then sni
    else if non_empty server then match split_char 58 [] server with h :: _ => if non_empty h then h else server | [] => server end
    else if non_empty invite then by_key else no_server
  end.
Definition server_card_subtitle (c : SavedConfig) : str :=
  let none := bs "Не задан сервер" in
  match active_profile c with
  | None => none
  | Some p =>
    let server := trim p.(tp_server) in let invite := trim p.(tp_from_invite) in
    if non_empty server then server else if non_empty invite then by_key else none
  end.

Record typed_profile (p : TunnelProfile) : Prop := {
  typed_max_pad : 0 <= p.(tp_max_pad) <= U8_MAX;
  typed_decoy_max : 0 <= p.(tp_decoy_max) <= U8_MAX;
  typed_max_ws_binary : 0 <= p.(tp_max_ws_binary) <= U64_MAX;
  typed_junk_frames : 0 <= p.(tp_junk_frames) <= U32_MAX;
  typed_early_ws_frames : 0 <= p.(tp_early_ws_frames) <= U8_MAX;
  typed_ws_ping_secs : 0 <= p.(tp_ws_ping_secs) <= U64_MAX;
  typed_ws_ping_jitter_percent : 0 <= p.(tp_ws_ping_jitter_percent) <= U8_MAX;
  typed_ws_binary_send_jitter_ms : 0 <= p.(tp_ws_binary_send_jitter_ms) <= U8_MAX;
  typed_dummy_interval_secs : 0 <= p.(tp_dummy_interval_secs) <= U64_MAX;
  typed_decoy_gets_interval_secs : 0 <= p.(tp_decoy_gets_interval_secs) <= U64_MAX;
  typed_proto : 0 <= p.(tp_proto) <= U8_MAX;
  typed_ws_parallel : 0 <= p.(tp_ws_parallel) <= U8_MAX;
  typed_idle_decoy_secs : 0 <= p.(tp_idle_decoy_secs) <= U64_MAX;
  typed_ws_jitter_min_ms : 0 <= p.(tp_ws_jitter_min_ms) <= U8_MAX;
  typed_ws_jitter_max_ms : 0 <= p.(tp_ws_jitter_max_ms) <= U8_MAX;
  typed_control_plane_instance_id : 0 <= p.(tp_control_plane_instance_id) <= U64_MAX;
}.

(** ** Reading back what was written *)

(** Equal but for the order of the keys of objects. *)
Inductive same : Value -> Value -> Prop :=
| Same_refl v : same v v
| Same_arr l l' : Forall2 same l l' -> same (VArr l) (VArr l')
| Same_obj o o' : (forall k, option_Forall2 same (lookup_key k o) (lookup_key k o')) -> same (VObj o) (VObj o').

Definition respects {A} (read : Value -> option A) : Prop := forall v v', same v v' -> read v = read v'.

Lemma same_field v v' i k : same v v' -> option_Forall2 same (field v i k) (field v' i k).
Proof.
  intros H. destruct H as [v|l l' H|o o' H]; cbn.
  - destruct (field v i k); repeat constructor.
  - by apply Forall2_lookup.
  - apply H.
Qed.
Lemma same_no_more v v' n : same v v' -> no_more v n = no_more v' n.
Proof. intros H. destruct H as [v|l l' H|o o' H]; cbn; [done | by rewrite (Forall2_length _ _ _ H) | done]. Qed.

Section Respects.
Context (v v' : Value) (S : same v v').

Lemma required_same {A} (read : Value -> option A) i k : respects read -> required read (field v i k) = required read (field v' i k).
Proof using S. intros R. unfold required. destruct (same_field v v' i k S) as [x x' H|]; [|done]. cbn. by rewrite (R _ _ H). Qed.
Lemma optional_same {A} (read : Value -> option A) d i k : respects read -> optional read d (field v i k) = optional read d (field v' i k).
Proof using S. intros R. unfold optional. destruct (same_field v v' i k S) as [x x' H|]; [|done]. by rewrite (R _ _ H). Qed.
End Respects.

Lemma respects_str : respects read_str. Proof. by intros v v' []. Qed.
Lemma respects_bool : respects read_bool. Proof. by intros v v' []. Qed.
Lemma respects_int max : respects (read_int max). Proof. by intros v v' []. Qed.
Lemma read_all_same {A} (read : Value -> option A) l l' : respects read -> Forall2 same l l' -> read_all read l = read_all read l'.
Proof. intros R. induction 1 as [|x y l l' H _ IH]; [done|]. cbn. by rewrite (R _ _ H), IH. Qed.
Lemma respects_strs : respects read_strs.
Proof. intros v v' H. destruct H as [v|l l' H|o o' H]; cbn; [done | by apply read_all_same; [apply respects_str|] | done]. Qed.

Lemma bind_ext {A B} (m m' : result A) (k k' : A -> result B) : m = m' -> (forall a, k a = k' a) -> (m ≫= k) = (m' ≫= k').
Proof. intros -> H. destruct m'; cbn; [apply H | done..]. Qed.

Lemma read_profile_same v v' : same v v' -> read_profile v = read_profile v'.
Proof.
  intros S. unfold read_profile.
  repeat (apply bind_ext; [first [apply required_same | apply optional_same | apply same_no_more]; auto using respects_str, respects_bool, respects_int, respects_strs | intros ?]).
  done.
Qed.
Lemma respects_profiles : respects read_profiles.
Proof.
  intros v v' H. destruct H as [v|l l' H|o o' H]; cbn; [done | apply read_all_same; [|done] | done]. intros v v' S. by rewrite (read_profile_same _ _ S).
Qed.
Lemma read_config_same v v' : same v v' -> read_config v = read_config v'.
Proof.
  intros S. unfold read_config.
  repeat (apply bind_ext; [first [apply optional_same | apply same_no_more]; auto using respects_str, respects_int, respects_profiles | intros ?]).
  done.
Qed.

(** ** What is written is read back *)

Lemma read_int_ok max n : 0 <= n <= max -> read_int max (VNum n) = Some n.
Proof. intros H. cbn. by rewrite decide_True. Qed.
Lemma read_strs_ok l : read_strs (VStrs l) = Some l.
Proof. cbn. induction l as [|s l IH]; [done|]. cbn. by rewrite IH. Qed.
Lemma read_all_ok {A} (read : Value -> option A) (write : A -> Value) l : (forall x, x ∈ l -> read (write x) = Some x) -> read_all read (write <$> l) = Some l.
Proof.
  induction l as [|x l IH]; intros H; [done|]. cbn. rewrite H by (by left). rewrite IH; [done|]. intros y Hy. apply H. by right.
Qed.

Lemma field_step {A B} (m : result A) (k : A -> result B) a r : m = Ok a -> k a = r -> (m ≫= k) = r.
Proof. by intros -> H. Qed.
Lemma int_field max d n x : x = Some (VNum n) -> 0 <= n <= max -> optional (read_int max) d x = Ok n.
Proof. intros -> H. unfold optional. by rewrite read_int_ok. Qed.
Lemma strs_field d l x : x = Some (VStrs l) -> optional read_strs d x = Ok l.
Proof. intros ->. unfold optional. by rewrite read_strs_ok. Qed.

(** Takes the fields of a written object one by one. *)
Ltac read_fields H :=
  repeat (eapply field_step; [first [reflexivity | apply int_field; [reflexivity | apply H] | apply strs_field; reflexivity] |]).

Lemma profile_roundtrip p : typed_profile p -> read_profile (profile_value p) = Ok p.
Proof.
  intros H. unfold read_profile.
  read_fields H. by destruct p.
Qed.
Definition cleared (p : TunnelProfile) : TunnelProfile := with_secrets [] [] [] [] [] p.
Lemma public_profile_roundtrip p : typed_profile p -> read_profile (public_profile_value (to_public_profile p)) = Ok (cleared p).
Proof. intros H. unfold read_profile. read_fields H. by destruct p. Qed.

Record typed_config (c : SavedConfig) : Prop := {
  typed_version : 0 <= c.(c_version) <= U32_MAX;
  typed_http : 0 <= c.(c_local_http_port) <= U16_MAX;
  typed_socks : 0 <= c.(c_local_socks_port) <= U16_MAX;
  typed_profiles : Forall typed_profile c.(c_profiles);
}.

Lemma config_roundtrip_with c ps vs : typed_config c -> read_profiles (VArr vs) = Some ps ->
  read_config (config_object (VArr vs) c.(c_version) c.(c_ui_locale) c.(c_local_http_port) c.(c_local_socks_port) c.(c_active_profile_id)) =
  Ok {| c_version := c.(c_version); c_ui_locale := c.(c_ui_locale); c_local_http_port := c.(c_local_http_port);
        c_local_socks_port := c.(c_local_socks_port); c_active_profile_id := c.(c_active_profile_id); c_profiles := ps |}.
Proof.
  intros H Hp. unfold read_config. do 5 (eapply field_step; [first [reflexivity | apply int_field; [reflexivity | apply H]] |]).
  eapply field_step; [|reflexivity]. change (field _ 5 "profiles") with (Some (VArr vs)). unfold optional. by rewrite Hp.
Qed.

Lemma read_written_profiles l (f : TunnelProfile -> Value) (g : TunnelProfile -> TunnelProfile) :
  Forall typed_profile l -> (forall p, typed_profile p -> read_profile (f p) = Ok (g p)) -> read_profiles (VArr (f <$> l)) = Some (g <$> l).
Proof.
  intros H Hf. cbn. induction H as [|p l Hp _ IH]; [done|]. cbn. rewrite (Hf _ Hp). cbn. by rewrite IH.
Qed.

Lemma config_roundtrip c : typed_config c -> read_config (config_value c) = Ok c.
Proof.
  intros H. unfold config_value. rewrite (config_roundtrip_with c (id <$> c.(c_profiles))); [|done|].
  - rewrite list_fmap_id. by destruct c.
  - apply read_written_profiles; [apply H|]. intros p. apply profile_roundtrip.
Qed.

Definition cleared_config (c : SavedConfig) : SavedConfig :=
  {| c_version := c.(c_version); c_ui_locale := c.(c_ui_locale); c_local_http_port := c.(c_local_http_port);
     c_local_socks_port := c.(c_local_socks_port); c_active_profile_id := c.(c_active_profile_id); c_profiles := cleared <$> c.(c_profiles) |}.
Lemma public_config_roundtrip c : typed_config c -> read_config (public_config_value c) = Ok (cleared_config c).
Proof.
  intros H. unfold public_config_value. apply config_roundtrip_with; [done|]. apply read_written_profiles; [apply H | apply public_profile_roundtrip].
Qed.

(** ** The interface's copy *)

Definition distinct_ids (c : SavedConfig) : Prop := NoDup (tp_id <$> c.(c_profiles)).

Lemma find_profile_at l i p : NoDup (tp_id <$> l) -> l !! i = Some p -> find_profile p.(tp_id) l = Some p.
Proof.
  revert i. induction l as [|q l IH]; intros i; [done|]. cbn [fmap list_fmap find_profile List.find]. intros [Hq Hl]%NoDup_cons. destruct i as [|i]; cbn.
  - intros [= ->]. by rewrite bool_decide_true.
  - intros Hi. rewrite bool_decide_false; [by eapply IH|]. intros E. destruct Hq. rewrite E. apply list_elem_of_fmap. exists p. split; [done|].
    exact (list_elem_of_lookup_2 _ _ _ Hi).
Qed.

Definition blank (s : str) : bool := negb (non_empty (trim s)).
(** The same but for the secrets, which are blank in both or in neither. *)
Record alike (p q : TunnelProfile) : Prop := {
  alike_rest : cleared p = cleared q;
  alike_token : blank p.(tp_token) = blank q.(tp_token);
  alike_psk : blank p.(tp_psk) = blank q.(tp_psk);
  alike_invite : blank p.(tp_from_invite) = blank q.(tp_from_invite);
  alike_passphrase : blank p.(tp_invite_passphrase) = blank q.(tp_invite_passphrase);
  alike_pin : blank p.(tp_pin_cert_pem) = blank q.(tp_pin_cert_pem);
}.

Lemma alike_shown p q : alike p q -> to_public_profile p = to_public_profile q.
Proof.
  intros [E Ht Hp Hi Ha Hc]. unfold blank in *. apply (f_equal negb) in Ht, Hp, Hi, Ha, Hc. rewrite !negb_involutive in *.
  unfold to_public_profile. rewrite Ht, Hp, Hi, Ha, Hc. destruct p, q. injection E. intros. subst. reflexivity.
Qed.

Lemma merge_all stored (f : TunnelProfile -> Value) (g h : TunnelProfile -> TunnelProfile) l :
  (forall p, p ∈ l -> merge_profile_secrets (find_profile (g p).(tp_id) stored) (f p) (g p) = h p) ->
  imap (fun i p => merge_profile_secrets (find_profile p.(tp_id) stored) (default VNull ((f <$> l) !! i)) p) (g <$> l) = h <$> l.
Proof.
  intros H. apply list_eq. intros i. rewrite list_lookup_imap, !list_lookup_fmap. destruct (l !! i) as [p|] eqn:Hp; [|done]. cbn.
  by rewrite H by (by eapply list_elem_of_lookup_2).
Qed.

(** A profile with the secrets of the first one that has its identifier. *)
Definition with_first_secrets (l : list TunnelProfile) (p : TunnelProfile) : TunnelProfile :=
  match find_profile p.(tp_id) l with
  | Some q => with_secrets q.(tp_token) q.(tp_psk) q.(tp_from_invite) q.(tp_invite_passphrase) q.(tp_pin_cert_pem) p
  | None => p
  end.
Definition set_profiles (l : list TunnelProfile) (c : SavedConfig) : SavedConfig :=
  {| c_version := c.(c_version); c_ui_locale := c.(c_ui_locale); c_local_http_port := c.(c_local_http_port);
     c_local_socks_port := c.(c_local_socks_port); c_active_profile_id := c.(c_active_profile_id); c_profiles := l |}.
Lemma own_secrets c : distinct_ids c -> set_profiles (with_first_secrets c.(c_profiles) <$> c.(c_profiles)) c = c.
Proof.
  intros Hd. assert (with_first_secrets c.(c_profiles) <$> c.(c_profiles) = c.(c_profiles)) as ->; [|by destruct c]. apply list_eq. intros i. rewrite list_lookup_fmap.
  destruct (c.(c_profiles) !! i) as [p|] eqn:Hp; [|done]. cbn. unfold with_first_secrets. rewrite (find_profile_at _ _ _ Hd Hp). by destruct p.
Qed.
Lemma first_secrets p l : merge_profile_secrets (find_profile (cleared p).(tp_id) l) (public_profile_value (to_public_profile p)) (cleared p) =
  match find_profile p.(tp_id) l with Some _ => with_first_secrets l p | None => cleared p end.
Proof. unfold with_first_secrets. change (cleared p).(tp_id) with p.(tp_id). destruct (find_profile _ l); by destruct p. Qed.
Lemma find_own p l : p ∈ l -> is_Some (find_profile p.(tp_id) l).
Proof.
  unfold find_profile. induction 1 as [l|q l H IH]; cbn; [rewrite bool_decide_true by done; by eexists|]. case_bool_decide; [by eexists | done].
Qed.

Ltac profiles_are ps :=
  match goal with |- Ok {| c_version := _; c_ui_locale := _; c_local_http_port := _; c_local_socks_port := _; c_active_profile_id := _; c_profiles := ?l |} = _ =>
    assert (l = ps) as -> end.

Lemma shown_merged stored : typed_config stored ->
  merge_saved_config stored (public_config_value stored) = Ok (set_profiles (with_first_secrets stored.(c_profiles) <$> stored.(c_profiles)) stored).
Proof.
  intros Hs. unfold merge_saved_config. rewrite public_config_roundtrip by done.
  change (get_array (public_config_value stored) "profiles") with (public_profile_value ∘ to_public_profile <$> stored.(c_profiles)).
  pose proof (merge_all stored.(c_profiles) (public_profile_value ∘ to_public_profile) cleared (with_first_secrets stored.(c_profiles)) stored.(c_profiles)) as M.
  cbn [as_object public_config_value config_object context mbind res_bind cleared_config c_profiles].
  profiles_are (with_first_secrets stored.(c_profiles) <$> stored.(c_profiles)); [|done]. apply M. intros p Hp. cbn [compose]. rewrite first_secrets.
  by destruct (find_own _ _ Hp) as [q ->].
Qed.
Lemma whole_merged stored c : typed_config c -> merge_saved_config stored (config_value c) = Ok c.
Proof.
  intros Hc. unfold merge_saved_config. rewrite config_roundtrip by done. change (get_array (config_value c) "profiles") with (profile_value <$> c.(c_profiles)).
  cbn [as_object config_value config_object context mbind res_bind].
  pose proof (merge_all stored.(c_profiles) profile_value id id c.(c_profiles)) as M. rewrite !list_fmap_id in M.
  profiles_are c.(c_profiles); [|by destruct c]. apply M. intros p _. destruct (find_profile _ _); by destruct p.
Qed.

(** ** The file and the next start *)

Lemma get_array_same v v' k : same v v' -> match get_array v k, get_array v' k with [], [] | _ :: _, _ :: _ => True | _, _ => False end.
Proof.
  intros H. destruct H as [v|l l' H|o o' H]; [by destruct (get_array v k) | done |]. cbn. destruct (H (bs k)) as [x x' Hx|]; [|done].
  destruct Hx as [x|l l' Hl|]; [by destruct x as [| | | | |[]|] | by destruct Hl | done].
Qed.
Lemma get_array_nil v v' k : same v v' -> get_array v k = [] <-> get_array v' k = [].
Proof. intros H%(get_array_same _ _ k). destruct (get_array v k), (get_array v' k); done. Qed.

Section FileProofs.
Context (from_str : str -> option Value) (to_string_pretty : Value -> str).
Abbreviation load := (load_config_from_path from_str).
Abbreviation save := (save_config_to_path to_string_pretty).

Lemma load_saved now c v :
  from_str (to_string_pretty (config_value c)) = Some v -> same (config_value c) v -> typed_config c ->
  load now (save Done c None).1 = if decide (c.(c_profiles) = []) then SavedConfig_default now else c.
Proof.
  intros Hr Hs Hc. unfold load_config_from_path. cbn [save_config_to_path fst mbind option_bind]. rewrite Hr.
  pose proof (get_array_nil _ _ "profiles" Hs) as G. change (get_array (config_value c) "profiles") with (profile_value <$> c.(c_profiles)) in G.
  destruct (decide (c_profiles c = [])) as [E|E].
  - destruct G as [G _]. rewrite G by (by rewrite E). unfold read_legacy.
    rewrite <- (required_same _ _ Hs read_str 0 "server" respects_str). reflexivity.
  - rewrite <- (read_config_same _ _ Hs), config_roundtrip by done. destruct (get_array v "profiles") eqn:Ev; [|done].
    destruct G as [_ G]. specialize (G eq_refl). by apply fmap_nil_inv in G.
Qed.
End FileProofs.

(** A text that does not parse, such as one cut short, is as good as none: all the profiles are lost. *)
Lemma damaged_file_is_lost from_str now s : from_str s = None -> load_config_from_path from_str now (Some s) = SavedConfig_default now.
Proof. unfold load_config_from_path. cbn. by intros ->. Qed.

(** ** Repair *)

Definition clean_package_list (l : list str) : Prop := NoDup l /\ Forall (fun k => trim k = k /\ k <> []) l.

Lemma distinct_packages_clean seen l :
  NoDup (distinct_packages seen l) /\ Forall (fun k => trim k = k /\ k <> [] /\ k ∉ seen) (distinct_packages seen l).
Proof.
  revert seen. induction l as [|x l IH]; intros seen; cbn; [split; constructor|]. case_decide as H1; [apply IH|]. case_decide as H2; [apply IH|].
  destruct (IH (trim x :: seen)) as [Hn Hf]. rewrite Forall_forall in Hf. split.
  - constructor; [|done]. intros E. destruct (Hf _ E) as (_ & _ & F). destruct F. by left.
  - constructor; [by rewrite trim_idemp|]. apply Forall_forall. intros k Hk. destruct (Hf _ Hk) as (? & ? & F). split_and!; [done..|].
    intros ?. destruct F. by right.
Qed.
Lemma distinct_packages_done seen l : clean_package_list l -> (forall k, k ∈ l -> k ∉ seen) -> distinct_packages seen l = l.
Proof.
  intros [Hn Hf]. revert seen. induction l as [|x l IH]; intros seen Hs; [done|]. cbn. apply NoDup_cons in Hn as [Hx Hn]. apply Forall_cons in Hf as [[Ht He] Hf].
  rewrite Ht, decide_False by done. rewrite decide_False by (apply Hs; by left). f_equal. apply IH; [done..|]. intros k Hk [->|E]%elem_of_cons; [done|].
  apply (Hs k); [by right | done].
Qed.
Lemma distinct_clean l : clean_package_list (distinct_packages [] l).
Proof. destruct (distinct_packages_clean [] l) as [Hn Hf]. split; [done|]. by eapply Forall_impl; [exact Hf | naive_solver]. Qed.

Record sound_profile (p : TunnelProfile) : Prop := {
  sound_id : trim p.(tp_id) <> [];
  sound_ws_binary : 1024 <= p.(tp_max_ws_binary);
  sound_routing : trim p.(tp_android_vpn_routing_mode) <> [];
  sound_packages : clean_package_list p.(tp_android_split_tunnel_packages);
  sound_manual : clean_package_list p.(tp_android_manual_split_packages);
}.
Record sound_config (c : SavedConfig) : Prop := {
  sound_version : CONFIG_VERSION <= c.(c_version);
  sound_http : c.(c_local_http_port) <> 0;
  sound_socks : c.(c_local_socks_port) <> c.(c_local_http_port);
  sound_locale : c.(c_ui_locale) ∈ bs <$> ["auto"; "ru"; "en"]%string;
  sound_some : c.(c_profiles) <> [];
  sound_profiles : Forall sound_profile c.(c_profiles);
}.
Definition selected (c : SavedConfig) : Prop := c.(c_active_profile_id) ∈ tp_id <$> c.(c_profiles).

Lemma new_profile_id_solid now : trim (new_profile_id now) = new_profile_id now /\ new_profile_id now <> [].
Proof.
  split; [|done]. apply trim_graphic. unfold graphic, new_profile_id. apply Forall_app. split; [repeat constructor; vm_compute; intuition congruence|].
  destruct (show_dec_fuel_digits 20 now) as [H _]. eapply Forall_impl; [exact H|]. intros x Hx. unfold is_ascii_digit, in_rng in Hx. lia.
Qed.

Lemma normalize_profile_sound id p : trim id <> [] -> sound_profile (normalize_profile id p).
Proof.
  intros Hid. split; cbn; [by case_decide | | | apply distinct_clean..].
  - case_decide; [by vm_compute | lia].
  - case_decide; [by vm_compute | done].
Qed.
Lemma normalize_profile_done id p : sound_profile p -> normalize_profile id p = p.
Proof.
  intros [Hi Hb Hr Hp Hm]. unfold normalize_profile. rewrite !decide_False by (done || lia).
  rewrite !distinct_packages_done by (try done; intros ? _; apply not_elem_of_nil). by destruct p.
Qed.
Lemma normalize_locale_names s : normalize_locale s ∈ bs <$> ["auto"; "ru"; "en"]%string.
Proof. unfold normalize_locale. repeat case_match; cbn; set_solver. Qed.
Lemma normalize_locale_done s : s ∈ bs <$> ["auto"; "ru"; "en"]%string -> normalize_locale s = s.
Proof. cbn. rewrite !elem_of_cons. intros [->|[->|[->|F]]]; [reflexivity.. | by apply elem_of_nil in F]. Qed.

Lemma imap_Forall {A B} (P : B -> Prop) (f : nat -> A -> B) l : (forall i x, x ∈ l -> P (f i x)) -> Forall P (imap f l).
Proof.
  intros H. apply Forall_forall. intros y Hy. apply elem_of_lookup_imap_1 in Hy as (i & x & -> & Hx). apply H. by eapply list_elem_of_lookup_2.
Qed.
Lemma imap_id {A} (f : nat -> A -> A) l : (forall i x, x ∈ l -> f i x = x) -> imap f l = l.
Proof.
  intros H. apply list_eq. intros i. rewrite list_lookup_imap. destruct (l !! i) as [x|] eqn:E; [|done]. cbn. by rewrite H by (by eapply list_elem_of_lookup_2).
Qed.

Lemma selects_iff l active : existsb (fun p => bool_decide (p.(tp_id) = active)) l = true <-> active ∈ tp_id <$> l.
Proof.
  rewrite existsb_exists, list_elem_of_fmap. split.
  - intros (p & Hp & E%bool_decide_eq_true). exists p. split; [done|]. by apply list_elem_of_In.
  - intros (p & -> & Hp%list_elem_of_In). exists p. split; [done|]. by apply bool_decide_eq_true.
Qed.

(** The profiles that the repair goes through, and the one that is active before blank names are replaced. *)
Definition some_profiles (now : nat -> Z) (c : SavedConfig) : list TunnelProfile :=
  match c.(c_profiles) with [] => [default_profile (new_profile_id (now 0%nat))] | l => l end.
Lemma normalize_profiles now c :
  c_profiles (normalize_loaded now c) = imap (fun i p => normalize_profile (new_profile_id (now (S i))) p) (some_profiles now c).
Proof. unfold normalize_loaded, some_profiles. by destruct (c_profiles c). Qed.

Lemma normalize_sound now c : sound_config (normalize_loaded now c).
Proof.
  split.
  - unfold normalize_loaded. case_match. cbn. case_decide; lia.
  - unfold normalize_loaded. case_match. cbn. by case_decide.
  - unfold normalize_loaded. case_match. cbn. case_decide as H1; case_decide as H2; unfold default_http_port in *; lia.
  - unfold normalize_loaded. case_match. cbn [c_ui_locale]. apply normalize_locale_names.
  - rewrite normalize_profiles. intros H%(f_equal length). rewrite length_imap in H. unfold some_profiles in H. by destruct (c_profiles c).
  - rewrite normalize_profiles. apply imap_Forall. intros i p _. apply normalize_profile_sound.
    destruct (new_profile_id_solid (now (S i))) as [-> ?]. done.
Qed.

Lemma normalize_ids now c : Forall (fun p => trim p.(tp_id) <> []) c.(c_profiles) ->
  tp_id <$> c_profiles (normalize_loaded now c) = tp_id <$> some_profiles now c.
Proof.
  intros H. rewrite normalize_profiles. apply list_eq. intros i. rewrite !list_lookup_fmap, list_lookup_imap.
  destruct (some_profiles now c !! i) as [p|] eqn:E; [|done]. cbn. rewrite decide_False; [done|]. unfold some_profiles in E.
  destruct (c_profiles c) as [|q l]; [|rewrite Forall_lookup in H; by eapply H].
  destruct i; [|done]. injection E as <-. change (trim (new_profile_id (now 0%nat)) <> []). by destruct (new_profile_id_solid (now 0%nat)) as [-> ?].
Qed.

Lemma normalize_selects now c : Forall (fun p => trim p.(tp_id) <> []) c.(c_profiles) ->
  selected (normalize_loaded now c) /\ (selected c -> c_active_profile_id (normalize_loaded now c) = c.(c_active_profile_id)).
Proof.
  intros H. unfold selected. rewrite normalize_ids by done. unfold normalize_loaded, some_profiles. destruct (c_profiles c) as [|p l] eqn:E; cbn [c_active_profile_id].
  - split; [|by intros ?%elem_of_nil]. destruct (existsb _ _) eqn:X; cbn; by left.
  - destruct (existsb _ (p :: l)) eqn:X.
    + apply selects_iff in X. done.
    + split; [by left|]. intros Hs%selects_iff. congruence.
Qed.

Lemma normalize_done now c : sound_config c -> selected c -> normalize_loaded now c = c.
Proof.
  intros [Hv Hh Hs Hl Hp Hf] Ha. unfold normalize_loaded. rewrite decide_False by lia. rewrite (decide_False (P := c_local_http_port c = 0)) by done.
  rewrite decide_False by (intros [_ ?]; done). rewrite normalize_locale_done by done. destruct (c_profiles c) as [|p l] eqn:E; [done|].
  apply selects_iff in Ha. rewrite E in Ha. rewrite Ha. rewrite imap_id.
  - rewrite <- E. by destruct c.
  - intros i q Hq. apply normalize_profile_done. rewrite Forall_forall in Hf. by apply Hf.
Qed.

(** C35: The interface and the store agree. What the interface is shown of a profile says nothing of its token, key, invite, passphrase and pinned
    certificate but whether they are blank. The command that saves stores, in memory and then in the file, what it is given after the repair of a loaded
    configuration: of what was shown and comes back unchanged, the stored configuration itself, with all these secrets, if its profiles have
    different identifiers, and otherwise with each profile given the secrets of the first one with its identifier; of a whole configuration, secrets included,
    that configuration. The repair changes nothing in one that is sound and has a profile of its own selected. A write that fails
    is reported, and leaves the new configuration in memory. *)
Theorem shown_config_saved to_string_pretty now how stored file c :
  typed_config stored -> typed_config c ->
  let saved v := save_config_cmd to_string_pretty now how v stored file in
  let stores v c := saved v = (c, save_config_to_path to_string_pretty how c file) in
  let first := set_profiles (with_first_secrets stored.(c_profiles) <$> stored.(c_profiles)) stored in
  (forall p q, alike p q -> to_public_profile p = to_public_profile q) /\
  stores (public_config_value stored) (normalize_loaded now first) /\ (distinct_ids stored -> first = stored) /\
  stores (config_value c) (normalize_loaded now c) /\
  (forall d, sound_config d -> selected d -> normalize_loaded now d = d).
Proof.
  intros Hs Hc saved stores first. split; [apply alike_shown|]. unfold stores, saved, save_config_cmd.
  rewrite shown_merged, whole_merged by done. split_and!; [done | apply own_secrets | done | apply normalize_done].
Qed.

(** The ports of the two local proxies in [connect_inner] of [lib.rs]. *)
Definition local_ports (c : SavedConfig) : result (Z * Z) :=
  let http := c.(c_local_http_port) in
  let socks := if decide (c.(c_local_socks_port) = 0) then sat_add U16_MAX http 1 else c.(c_local_socks_port) in
  if decide (socks = http) then bail "the SOCKS5 port must differ from the HTTP port" else Ok (http, socks).

(** Whatever the file held, the configuration the application starts with is sound (a version, a locale it has, ports that differ, at least one
    profile, profiles with names, usable frame sizes and routing, package lists without blanks and repetitions), and gives two different local
    ports unless the HTTP port is the last one; if the profiles had names, the active one is one of them, the one chosen before if it is still there;
    and the repair has nothing left to do: a second one changes nothing. *)
Theorem loaded_config_repaired now c :
  typed_config c ->
  let c' := normalize_loaded now c in
  sound_config c' /\
  (c_local_http_port c' <> U16_MAX -> exists socks, local_ports c' = Ok (c_local_http_port c', socks) /\ socks <> c_local_http_port c') /\
  (Forall (fun p => trim p.(tp_id) <> []) c.(c_profiles) ->
    selected c' /\ (selected c -> c_active_profile_id c' = c.(c_active_profile_id)) /\ forall now', normalize_loaded now' c' = c').
Proof.
  intros Ht c'. pose proof (normalize_sound now c) as S. split; [done|]. split.
  - intros Hh. assert (0 <= c_local_http_port c' <= U16_MAX) as Hr.
    { unfold c', normalize_loaded. case_match. cbn. case_decide; [by vm_compute | apply Ht]. }
    unfold local_ports. destruct (decide (c_local_socks_port c' = 0)) as [E|E].
    + unfold sat_add. rewrite decide_False by lia. eexists. split; [done | lia].
    + rewrite decide_False by apply S. eexists. split; [done | apply S].
  - intros Hi. destruct (normalize_selects now c Hi) as [H1 H2]. split_and!; [done..|]. intros now'. by apply normalize_done.
Qed.

(** With the last port the automatic SOCKS port is the HTTP port, and no connect can succeed. *)
Definition last_port : SavedConfig :=
  {| c_version := 2; c_ui_locale := bs "auto"; c_local_http_port := 65535; c_local_socks_port := 0; c_active_profile_id := bs "p";
     c_profiles := [fresh_profile (bs "p") (bs "Default") TunnelProfile_default] |}.
Lemma last_port_never_connects now : normalize_loaded now last_port = last_port /\ is_ok (local_ports last_port) = false.
Proof. split; reflexivity. Qed.

(** A profile without a name gets one after the active one is settled: the choice is lost, and another profile is active. *)
Definition blank_choice : SavedConfig :=
  {| c_version := 2; c_ui_locale := bs "auto"; c_local_http_port := 1; c_local_socks_port := 0; c_active_profile_id := [];
     c_profiles := [default_profile (bs "a"); fresh_profile [] (bs "chosen") TunnelProfile_default] |}.
Lemma blank_choice_lost :
  (tp_name <$> active_profile blank_choice) = Some (bs "chosen") /\ (tp_name <$> active_profile (normalize_loaded (fun _ => 5) blank_choice)) = Some (bs "Default").
Proof. split; reflexivity. Qed.

(** What the application saves it has again when it starts: with a reader that reads the text back (keys of objects in any order), saving a configuration
    with profiles and loading the file gives that configuration, and repairing a repaired one changes nothing, so the repaired configuration
    survives; without profiles the defaults are loaded; and a write that is refused leaves the file and reports it. *)
Theorem saved_config_reloads from_str to_string_pretty now now' c v file :
  from_str (to_string_pretty (config_value c)) = Some v -> same (config_value c) v -> typed_config c ->
  (forall n, (save_config_to_path to_string_pretty Done c file).2 = Ok tt /\
     load_config_from_path from_str n (save_config_to_path to_string_pretty Done c file).1 = if decide (c.(c_profiles) = []) then SavedConfig_default n else c) /\
  (sound_config c -> selected c -> normalize_loaded now (load_config_from_path from_str now' (save_config_to_path to_string_pretty Done c file).1) = c) /\
  (save_config_to_path to_string_pretty Refused c file).1 = file /\ is_ok (save_config_to_path to_string_pretty Refused c file).2 = false.
Proof.
  intros Hr Hs Hc. split_and!; [ | | done..].
  - intros n. split; [done|]. by apply (load_saved _ _ n c v).
  - intros S A. change (save_config_to_path to_string_pretty Done c file).1 with (save_config_to_path to_string_pretty Done c None).1.
    rewrite (load_saved _ _ now' c v) by done. rewrite decide_False by apply S. by apply normalize_done.
Qed.

(** ** Examples *)

Definition sample_config : SavedConfig :=
  {| c_version := 2; c_ui_locale := bs "ru"; c_local_http_port := 18080; c_local_socks_port := 0; c_active_profile_id := bs "p";
     c_profiles := [with_secrets (bs "tok") (bs "psk") (bs "biba://x") (bs "pass") [] (default_profile (bs "p"))] |}.
Lemma sample_typed : typed_config sample_config.
Proof. split; [by vm_compute..|]. repeat constructor; by vm_compute. Qed.
Lemma last_port_typed : typed_config last_port.
Proof. split; [by vm_compute..|]. repeat constructor; by vm_compute. Qed.

Lemma shown_config_saved_witness :
  let write (_ : Value) := bs "text" in
  save_config_cmd write (fun _ => 5) Done (public_config_value sample_config) sample_config None = (sample_config, (Some (bs "text"), Ok tt)) /\
  save_config_cmd write (fun _ => 5) Refused (config_value last_port) sample_config None = (last_port, (None, bail "write")).
Proof.
  intros write. destruct (shown_config_saved write (fun _ => 5) Done sample_config None last_port sample_typed last_port_typed) as (_ & H1 & H2 & _).
  destruct (shown_config_saved write (fun _ => 5) Refused sample_config None last_port sample_typed last_port_typed) as (_ & _ & _ & H3 & _).
  rewrite H2 in H1 by (repeat constructor; apply not_elem_of_nil). split; [exact H1 | exact H3].
Defined.

(** Two profiles with one identifier: saving what is shown gives the second one the token of the first. *)
Definition twins : SavedConfig :=
  set_profiles [with_secrets (bs "first") [] [] [] [] (default_profile (bs "p")); with_secrets (bs "second") [] [] [] [] (default_profile (bs "p"))] sample_config.
Lemma twins_share_secrets :
  map tp_token (save_config_cmd (fun _ => []) (fun _ => 5) Done (public_config_value twins) twins None).1.(c_profiles) = [bs "first"; bs "first"] /\
  normalize_loaded (fun _ => 5) twins = twins.
Proof. split; reflexivity. Qed.
Lemma loaded_config_repaired_witness :
  let c' := normalize_loaded (fun _ => 5) sample_config in
  sound_config c' /\ (c_local_http_port c' <> U16_MAX -> exists socks, local_ports c' = Ok (c_local_http_port c', socks) /\ socks <> c_local_http_port c') /\
  selected c' /\ (selected sample_config -> c_active_profile_id c' = c_active_profile_id sample_config) /\ forall now', normalize_loaded now' c' = c'.
Proof.
  destruct (loaded_config_repaired (fun _ => 5) sample_config sample_typed) as (H1 & H2 & H3). split; [exact H1|]. split; [exact H2|]. apply H3.
  repeat constructor. intros E. discriminate E.
Defined.
Lemma saved_config_reloads_witness :
  let from_str (_ : str) := Some (config_value sample_config) in let to_string (_ : Value) := bs "text" in
  load_config_from_path from_str 5 (save_config_to_path to_string Done sample_config None).1 = sample_config.
Proof.
  intros from_str to_string. pose proof (saved_config_reloads from_str to_string (fun _ => 5) 5 sample_config (config_value sample_config) None) as H.
  destruct H as [H _]; [reflexivity | apply Same_refl | apply sample_typed |]. destruct (H 5) as [_ E]. exact E.
Defined.
