(* ===== verification/DesktopStart.v ===== *)
(** From a profile of the desktop application to the settings of its client ([config.rs], [lib.rs] of [apps/bibavpn-desktop]): the fields an invite
    fills in, the start JSON, and what the client's reader makes of it. The text of the JSON between the two is serde_json's on both sides. *)
From S2P Require Import Prelude Text Frame Crypto MuxWire Policy Invite ClientOptions Metrics BypassDomains DesktopConfig.

(** ** [apply_invite_fields] *)

Definition apply_invite_fields (i : InviteV1) (p : TunnelProfile) : TunnelProfile :=
  {| tp_id := p.(tp_id); tp_name := p.(tp_name); tp_server := i.(i_server); tp_token := i.(i_token); tp_psk := default [] i.(i_psk); tp_sni := i.(i_sni);
     tp_insecure := i.(i_insecure); tp_max_pad := i.(i_max_pad); tp_decoy_max := i.(i_decoy_max); tp_max_ws_binary := i.(i_max_ws_binary);
     tp_tls_profile := i.(i_tls_profile); tp_from_invite := p.(tp_from_invite); tp_invite_passphrase := p.(tp_invite_passphrase);
     tp_junk_frames := i.(i_junk_frames); tp_early_ws_frames := i.(i_early_ws_frames); tp_ws_ping_secs := i.(i_ws_ping_secs);
     tp_ws_headers := join [10] i.(i_ws_headers); tp_use_tcp_mux := i.(i_use_tcp_mux); tp_ws_path := default [] i.(i_ws_path);
     tp_pad_mode := default [] i.(i_pad_mode); tp_ws_ping_jitter_percent := i.(i_ws_ping_jitter_percent);
     tp_ws_binary_send_jitter_ms := i.(i_ws_binary_send_jitter_ms); tp_udp_max_pad := default [] (show_dec <$> i.(i_udp_max_pad));
     tp_udp_max_ws_binary := default [] (show_dec <$> i.(i_udp_max_ws_binary));
     tp_udp_mux_reply_timeout_secs := show_dec i.(i_udp_mux_reply_timeout_secs); tp_dummy_interval_secs := default 0 i.(i_dummy_interval_secs);
     tp_decoy_gets := i.(i_decoy_gets); tp_decoy_gets_interval_secs := i.(i_decoy_gets_interval_secs);
     tp_decoy_gets_paths := default [] i.(i_decoy_gets_paths); tp_pin_cert_pem := default [] i.(i_pin_cert_pem);
     tp_split_tunnel_enabled := p.(tp_split_tunnel_enabled); tp_split_tunnel_preset_ids := p.(tp_split_tunnel_preset_ids); tp_proto := i.(i_proto);
     tp_proto_domain := match i.(i_proto_domain) with Some s => if decide (trim s = []) then bs "default" else s | None => bs "default" end;
     tp_stealth_profile := default [] i.(i_stealth_profile); tp_decoy_mode := default [] i.(i_decoy_mode); tp_desync_mode := default [] i.(i_desync_mode);
     tp_tcp_fooling := default [] i.(i_tcp_fooling); tp_tls_fragment := i.(i_tls_fragment); tp_ws_parallel := clamp 1 4 i.(i_ws_parallel);
     tp_idle_decoy_secs := default 0 i.(i_idle_decoy_secs); tp_tls_stack := i.(i_tls_stack); tp_fingerprint := default [] i.(i_fingerprint);
     tp_reality_target := default [] i.(i_reality_target); tp_reality_public_key := default [] i.(i_reality_public_key);
     tp_reality_short_id := default [] i.(i_reality_short_id); tp_ws_host := default [] i.(i_ws_host); tp_ws_origin := default [] i.(i_ws_origin);
     tp_ws_user_agent := default [] i.(i_ws_user_agent); tp_ws_accept_language := default [] i.(i_ws_accept_language);
     tp_ws_jitter_min_ms := i.(i_ws_jitter_min_ms); tp_ws_jitter_max_ms := i.(i_ws_jitter_max_ms);
     tp_control_plane_instance_id := p.(tp_control_plane_instance_id); tp_control_plane_config_version := p.(tp_control_plane_config_version);
     tp_control_plane_base_url := p.(tp_control_plane_base_url); tp_android_socks_bind := p.(tp_android_socks_bind);
     tp_android_split_tunnel_packages := p.(tp_android_split_tunnel_packages); tp_android_manual_split_packages := p.(tp_android_manual_split_packages);
     tp_android_vpn_routing_mode := p.(tp_android_vpn_routing_mode); tp_android_screen_off_battery_saver := p.(tp_android_screen_off_battery_saver) |}.

(** ** The start JSON *)

(** An entry when the text is not blank, trimmed; when the number is above 0; when it is asked for. *)
Definition text_entry (s : str) : option Value := let t := trim s in if decide (t = []) then None else Some (VStr t).
Definition above_0 (n : Z) : option Value := if decide (0 < n) then Some (VNum n) else None.
Definition entry_if (b : bool) (v : Value) : option Value := if b then Some v else None.
(** A number the user types, blank for none. *)
Definition typed_number (what : string) (max : Z) (s : str) : result (option Z) :=
  let t := trim s in
  if decide (t = []) then Ok None else n ← context what (parse_uint max t); Ok (Some n).

Definition split_of (p : TunnelProfile) : SplitProfile :=
  {| split_tunnel_enabled := p.(tp_split_tunnel_enabled); split_tunnel_preset_ids := p.(tp_split_tunnel_preset_ids);
     android_split_tunnel_packages := p.(tp_android_split_tunnel_packages); android_manual_split_packages := p.(tp_android_manual_split_packages) |}.
Definition uses_invite (p : TunnelProfile) : bool := non_empty (trim p.(tp_from_invite)) && non_empty p.(tp_invite_passphrase).

(** The entries of the object, in the order of the code; those that are [None] are left out. On a desktop. *)
Definition basic_entries (p : TunnelProfile) : list (string * option Value) :=
  let inv := uses_invite p in
  let tp := trim p.(tp_tls_profile) in
  [("from_invite", entry_if inv (VStr (trim p.(tp_from_invite)))); ("invite_passphrase", entry_if inv (VStr p.(tp_invite_passphrase)));
   ("server", Some (VStr (if inv then [] else trim p.(tp_server)))); ("token", entry_if (negb inv) (VStr p.(tp_token)));
   ("tls_profile", entry_if (negb inv && non_empty tp && negb (bool_decide (tp = bs "default"))) (VStr tp));
   ("sni", text_entry p.(tp_sni)); ("socks_bind", Some (VStr (bs "127.0.0.1:0"))); ("insecure", Some (VBool p.(tp_insecure)));
   ("max_pad", Some (VNum p.(tp_max_pad))); ("decoy_max", Some (VNum p.(tp_decoy_max))); ("junk_frames", Some (VNum p.(tp_junk_frames)));
   ("early_ws_frames", Some (VNum p.(tp_early_ws_frames))); ("max_ws_binary", Some (VNum p.(tp_max_ws_binary)));
   ("ws_ping_secs", Some (VNum p.(tp_ws_ping_secs))); ("use_tcp_mux", Some (VBool p.(tp_use_tcp_mux)));
   ("ws_path", text_entry p.(tp_ws_path)); ("pad_mode", text_entry p.(tp_pad_mode));
   ("ws_ping_jitter_percent", above_0 (Z.min p.(tp_ws_ping_jitter_percent) 50));
   ("ws_binary_send_jitter_ms", above_0 p.(tp_ws_binary_send_jitter_ms));
   ("ws_jitter_min_ms", above_0 p.(tp_ws_jitter_min_ms)); ("ws_jitter_max_ms", above_0 p.(tp_ws_jitter_max_ms))]%string.
Definition further_entries (presets : option CacheState) (p : TunnelProfile) (udp_pad udp_bin udp_to : option Z) : list (string * option Value) :=
  let inv := uses_invite p in
  let tst := lowered p.(tp_tls_stack) in
  let pr := Z.max p.(tp_proto) 1 in
  let rt := trim p.(tp_reality_target) in
  let rpk := trim p.(tp_reality_public_key) in
  let both := non_empty rt && non_empty rpk in
  let headers := List.filter non_empty (trim <$> lines p.(tp_ws_headers)) in
  let split := bypass_domains_for_profile presets (split_of p) in
  [("udp_max_pad", VNum <$> udp_pad); ("udp_max_ws_binary", n ← udp_bin; above_0 n); ("udp_mux_reply_timeout_secs", VNum <$> udp_to);
   ("dummy_interval_secs", above_0 p.(tp_dummy_interval_secs));
   ("decoy_gets", entry_if p.(tp_decoy_gets) (VBool true));
   ("decoy_gets_interval_secs", entry_if p.(tp_decoy_gets) (VNum (Z.max p.(tp_decoy_gets_interval_secs) 1)));
   ("decoy_gets_paths", if p.(tp_decoy_gets) then text_entry p.(tp_decoy_gets_paths) else None);
   ("pin_cert_pem", text_entry p.(tp_pin_cert_pem)); ("psk", text_entry p.(tp_psk));
   ("ws_headers", if decide (headers = []) then None else Some (VStrs headers));
   ("proto", if decide (pr = 3) then None else Some (VNum pr));
   ("proto_domain", if inv then text_entry p.(tp_proto_domain) else Some (default (VStr (bs "default")) (text_entry p.(tp_proto_domain))));
   ("stealth_profile", text_entry p.(tp_stealth_profile)); ("decoy_mode", text_entry p.(tp_decoy_mode));
   ("desync_mode", text_entry p.(tp_desync_mode)); ("tcp_fooling", text_entry p.(tp_tcp_fooling));
   ("tls_fragment", entry_if p.(tp_tls_fragment) (VBool true)); ("ws_parallel", Some (VNum (clamp 1 4 p.(tp_ws_parallel))));
   ("idle_decoy_secs", above_0 p.(tp_idle_decoy_secs));
   ("tls_stack", entry_if (non_empty tst && negb (bool_decide (tst = bs "rustls"))) (VStr tst));
   ("fingerprint", text_entry p.(tp_fingerprint));
   ("reality_target", entry_if both (VStr rt)); ("reality_public_key", entry_if both (VStr rpk));
   ("reality_short_id", if both then text_entry p.(tp_reality_short_id) else None);
   ("ws_host", text_entry p.(tp_ws_host)); ("ws_origin", text_entry p.(tp_ws_origin)); ("ws_user_agent", text_entry p.(tp_ws_user_agent));
   ("ws_accept_language", text_entry p.(tp_ws_accept_language));
   ("split_bypass_domains", if decide (split = []) then None else Some (VStrs split))]%string.
Definition start_entries (presets : option CacheState) (p : TunnelProfile) (udp_pad udp_bin udp_to : option Z) : list (string * option Value) :=
  basic_entries p ++ further_entries presets p udp_pad udp_bin udp_to.
Fixpoint object_of (es : list (string * option Value)) : list (str * Value) :=
  match es with [] => [] | (k, Some v) :: es => (bs k, v) :: object_of es | (_, None) :: es => object_of es end.
Definition start_config_json (presets : option CacheState) (p : TunnelProfile) : result (list (str * Value)) :=
  udp_pad ← typed_number "udp_max_pad" U8_MAX p.(tp_udp_max_pad);
  udp_bin ← typed_number "udp_max_ws_binary" USIZE_MAX p.(tp_udp_max_ws_binary);
  udp_to ← typed_number "udp_mux_reply_timeout_secs" U64_MAX p.(tp_udp_mux_reply_timeout_secs);
  Ok (object_of (start_entries presets p udp_pad udp_bin udp_to)).

(** ** The client's reader *)

(** An [Option] field: missing or [null] is [None]. *)
Definition opt_field {A} (read : Value -> option A) (x : option Value) : result (option A) :=
  match x with None | Some VNull => Ok None | Some v => a ← context "invalid type"%string (read v); Ok (Some a) end.
Definition read_mux_window (v : Value) : option MuxWindow :=
  n ← read_int U8_MAX v; match MuxWindow_try_from n with Ok w => Some w | _ => None end.
Definition read_start_json (v : Value) : result StartJson :=
  server ← optional read_str [] (field v 0 "server");
  token ← opt_field read_str (field v 1 "token");
  sni ← opt_field read_str (field v 2 "sni");
  socks_bind ← optional read_str default_socks (field v 3 "socks_bind");
  socks_auth_user ← opt_field read_str (field v 4 "socks_auth_user");
  socks_auth_password ← opt_field read_str (field v 5 "socks_auth_password");
  split_bypass_domains ← optional read_strs [] (field v 6 "split_bypass_domains");
  http_proxy ← opt_field read_str (field v 7 "http_proxy");
  insecure ← optional read_bool false (field v 8 "insecure");
  max_pad ← opt_field (read_int U8_MAX) (field v 9 "max_pad");
  junk_frames ← opt_field (read_int U32_MAX) (field v 10 "junk_frames");
  early_ws_frames ← opt_field (read_int U8_MAX) (field v 11 "early_ws_frames");
  psk ← opt_field read_str (field v 12 "psk");
  decoy_max ← opt_field (read_int U8_MAX) (field v 13 "decoy_max");
  ws_host ← opt_field read_str (field v 14 "ws_host");
  ws_origin ← opt_field read_str (field v 15 "ws_origin");
  ws_user_agent ← opt_field read_str (field v 16 "ws_user_agent");
  ws_accept_language ← opt_field read_str (field v 17 "ws_accept_language");
  ws_headers ← optional read_strs [] (field v 18 "ws_headers");
  max_ws_binary ← opt_field (read_int U64_MAX) (field v 19 "max_ws_binary");
  ws_ping_secs ← opt_field (read_int U64_MAX) (field v 20 "ws_ping_secs");
  from_invite ← opt_field read_str (field v 21 "from_invite");
  invite_passphrase ← opt_field read_str (field v 22 "invite_passphrase");
  tls_profile ← opt_field read_str (field v 23 "tls_profile");
  ws_ping_jitter_percent ← opt_field (read_int U8_MAX) (field v 24 "ws_ping_jitter_percent");
  ws_binary_send_jitter_ms ← opt_field (read_int U8_MAX) (field v 25 "ws_binary_send_jitter_ms");
  ws_jitter_min_ms ← opt_field (read_int U8_MAX) (field v 26 "ws_jitter_min_ms");
  ws_jitter_max_ms ← opt_field (read_int U8_MAX) (field v 27 "ws_jitter_max_ms");
  udp_max_pad ← opt_field (read_int U8_MAX) (field v 28 "udp_max_pad");
  udp_max_ws_binary ← opt_field (read_int U64_MAX) (field v 29 "udp_max_ws_binary");
  udp_mux_reply_timeout_secs ← opt_field (read_int U64_MAX) (field v 30 "udp_mux_reply_timeout_secs");
  pin_cert_pem ← opt_field read_str (field v 31 "pin_cert_pem");
  ws_path ← opt_field read_str (field v 32 "ws_path");
  use_tcp_mux ← opt_field read_bool (field v 33 "use_tcp_mux");
  pad_mode ← opt_field read_str (field v 34 "pad_mode");
  dummy_interval_secs ← opt_field (read_int U64_MAX) (field v 35 "dummy_interval_secs");
  decoy_gets ← opt_field read_bool (field v 36 "decoy_gets");
  decoy_gets_interval_secs ← opt_field (read_int U64_MAX) (field v 37 "decoy_gets_interval_secs");
  decoy_gets_paths ← opt_field read_str (field v 38 "decoy_gets_paths");
  proto ← opt_field (read_int U8_MAX) (field v 39 "proto");
  proto_domain ← opt_field read_str (field v 40 "proto_domain");
  decoy_mode ← opt_field read_str (field v 41 "decoy_mode");
  desync_mode ← opt_field read_str (field v 42 "desync_mode");
  tcp_fooling ← opt_field read_str (field v 43 "tcp_fooling");
  tls_fragment ← optional read_bool false (field v 44 "tls_fragment");
  ws_parallel ← opt_field (read_int U8_MAX) (field v 45 "ws_parallel");
  mux_window_mib ← optional read_mux_window MuxWindow_default (field v 46 "mux_window_mib");
  idle_decoy_secs ← opt_field (read_int U64_MAX) (field v 47 "idle_decoy_secs");
  stealth_profile ← opt_field read_str (field v 48 "stealth_profile");
  tls_stack ← opt_field read_str (field v 49 "tls_stack");
  fingerprint ← opt_field read_str (field v 50 "fingerprint");
  log_level ← opt_field read_str (field v 51 "log_level");
  log_format ← opt_field read_str (field v 52 "log_format");
  _ ← no_more v 53;
  Ok {| j_server := server; j_token := token; j_sni := sni; j_socks_bind := socks_bind; j_socks_auth_user := socks_auth_user;
     j_socks_auth_password := socks_auth_password; j_split_bypass_domains := split_bypass_domains; j_http_proxy := http_proxy; j_insecure := insecure;
     j_max_pad := max_pad; j_junk_frames := junk_frames; j_early_ws_frames := early_ws_frames; j_psk := psk; j_decoy_max := decoy_max;
     j_ws_host := ws_host; j_ws_origin := ws_origin; j_ws_user_agent := ws_user_agent; j_ws_accept_language := ws_accept_language;
     j_ws_headers := ws_headers; j_max_ws_binary := max_ws_binary; j_ws_ping_secs := ws_ping_secs; j_from_invite := from_invite;
     j_invite_passphrase := invite_passphrase; j_tls_profile := tls_profile; j_ws_ping_jitter_percent := ws_ping_jitter_percent;
     j_ws_binary_send_jitter_ms := ws_binary_send_jitter_ms; j_ws_jitter_min_ms := ws_jitter_min_ms; j_ws_jitter_max_ms := ws_jitter_max_ms;
     j_udp_max_pad := udp_max_pad; j_udp_max_ws_binary := udp_max_ws_binary; j_udp_mux_reply_timeout_secs := udp_mux_reply_timeout_secs;
     j_pin_cert_pem := pin_cert_pem; j_ws_path := ws_path; j_use_tcp_mux := use_tcp_mux; j_pad_mode := pad_mode;
     j_dummy_interval_secs := dummy_interval_secs; j_decoy_gets := decoy_gets; j_decoy_gets_interval_secs := decoy_gets_interval_secs;
     j_decoy_gets_paths := decoy_gets_paths; j_proto := proto; j_proto_domain := proto_domain; j_decoy_mode := decoy_mode; j_desync_mode := desync_mode;
     j_tcp_fooling := tcp_fooling; j_tls_fragment := tls_fragment; j_ws_parallel := ws_parallel; j_mux_window_mib := mux_window_mib;
     j_idle_decoy_secs := idle_decoy_secs; j_stealth_profile := stealth_profile; j_tls_stack := tls_stack; j_fingerprint := fingerprint;
     j_log_level := log_level; j_log_format := log_format |}.

(** [Map::insert]. *)
Fixpoint set_key (k : str) (x : Value) (o : list (str * Value)) : list (str * Value) :=
  match o with [] => [(k, x)] | (k', v) :: o => if decide (k' = k) then (k', x) :: o else (k', v) :: set_key k x o end.
(** What [connect_inner] hands to the client: the start JSON with the two local addresses, read. *)
Definition start_of_profile (presets : option CacheState) (p : TunnelProfile) (socks_bind http_bind : str) : result StartJson :=
  o ← start_config_json presets p;
  read_start_json (VObj (set_key (bs "http_proxy") (VStr http_bind) (set_key (bs "socks_bind") (VStr socks_bind) o))).

(** ** What the reader makes of the entries *)

Fixpoint entry (k : string) (es : list (string * option Value)) : option Value :=
  match es with [] => None | (k', v) :: es => if String.eqb k' k then v else entry k es end.

Lemma lookup_not_in k es : k ∉ es.*1 -> lookup_key (bs k) (object_of es) = None.
Proof.
  induction es as [|[k' [v|]] es IH]; [done| |]; cbn [fmap list_fmap fst object_of lookup_key]; rewrite not_elem_of_cons; intros [Hk He]; [|by apply IH].
  rewrite decide_False by (intros E%bs_inj; congruence). by apply IH.
Qed.
Lemma lookup_object k es : NoDup es.*1 -> lookup_key (bs k) (object_of es) = entry k es.
Proof.
  induction es as [|[k' v] es IH]; [done|]. cbn [fmap list_fmap fst]. intros [Hk He]%NoDup_cons. cbn [entry]. destruct (String.eqb_spec k' k) as [->|N].
  - destruct v; cbn [object_of lookup_key]; [by rewrite decide_True | by apply lookup_not_in].
  - destruct v; cbn [object_of lookup_key]; [rewrite decide_False by (by intros E%bs_inj) |]; by apply IH.
Qed.
Lemma lookup_set k k' x o : lookup_key k (set_key k' x o) = if decide (k' = k) then Some x else lookup_key k o.
Proof.
  induction o as [|[k2 v] o IH]; cbn; [done|]. destruct (decide (k2 = k')) as [->|N]; cbn.
  - by destruct (decide (k' = k)).
  - rewrite IH. destruct (decide (k2 = k)) as [->|]; [|done]. by rewrite decide_False.
Qed.

Lemma start_keys presets p a b c : NoDup (start_entries presets p a b c).*1.
Proof. apply (bool_decide_unpack _). vm_compute. exact I. Qed.

Lemma start_field presets p a b c socks http i k :
  field (VObj (set_key (bs "http_proxy") (VStr http) (set_key (bs "socks_bind") (VStr socks) (object_of (start_entries presets p a b c))))) i k =
  if String.eqb "http_proxy" k then Some (VStr http) else if String.eqb "socks_bind" k then Some (VStr socks) else entry k (start_entries presets p a b c).
Proof.
  cbn [field]. rewrite !lookup_set, lookup_object by apply start_keys.
  destruct (String.eqb_spec "http_proxy" k) as [<-|N1]; [by rewrite decide_True|]. rewrite decide_False by (by intros ?%bs_inj).
  destruct (String.eqb_spec "socks_bind" k) as [<-|N2]; [by rewrite decide_True|]. by rewrite decide_False by (by intros ?%bs_inj).
Qed.

Definition above (n : Z) : option Z := if decide (0 < n) then Some n else None.
Definition headers_of (p : TunnelProfile) : list str := List.filter non_empty (trim <$> lines p.(tp_ws_headers)).
(** The settings of a profile, as the client reads them. *)
Definition start_settings (presets : option CacheState) (p : TunnelProfile) (pad bin to : option Z) (socks http : str) : StartJson :=
  let inv := uses_invite p in
  let tp := trim p.(tp_tls_profile) in
  let tst := lowered p.(tp_tls_stack) in
  let txt (s : str) := given (Some s) in
  {| j_server := if inv then [] else trim p.(tp_server); j_token := if inv then None else Some p.(tp_token); j_sni := txt p.(tp_sni); j_socks_bind := socks;
     j_socks_auth_user := None; j_socks_auth_password := None; j_split_bypass_domains := bypass_domains_for_profile presets (split_of p);
     j_http_proxy := Some http; j_insecure := p.(tp_insecure); j_max_pad := Some p.(tp_max_pad); j_junk_frames := Some p.(tp_junk_frames);
     j_early_ws_frames := Some p.(tp_early_ws_frames); j_psk := txt p.(tp_psk); j_decoy_max := Some p.(tp_decoy_max); j_ws_host := txt p.(tp_ws_host);
     j_ws_origin := txt p.(tp_ws_origin); j_ws_user_agent := txt p.(tp_ws_user_agent); j_ws_accept_language := txt p.(tp_ws_accept_language);
     j_ws_headers := headers_of p; j_max_ws_binary := Some p.(tp_max_ws_binary); j_ws_ping_secs := Some p.(tp_ws_ping_secs);
     j_from_invite := if inv then Some (trim p.(tp_from_invite)) else None; j_invite_passphrase := if inv then Some p.(tp_invite_passphrase) else None;
     j_tls_profile := if negb inv && non_empty tp && negb (bool_decide (tp = bs "default")) then Some tp else None;
     j_ws_ping_jitter_percent := above (Z.min p.(tp_ws_ping_jitter_percent) 50); j_ws_binary_send_jitter_ms := above p.(tp_ws_binary_send_jitter_ms);
     j_ws_jitter_min_ms := above p.(tp_ws_jitter_min_ms); j_ws_jitter_max_ms := above p.(tp_ws_jitter_max_ms); j_udp_max_pad := pad;
     j_udp_max_ws_binary := bin ≫= above; j_udp_mux_reply_timeout_secs := to; j_pin_cert_pem := txt p.(tp_pin_cert_pem); j_ws_path := txt p.(tp_ws_path);
     j_use_tcp_mux := Some p.(tp_use_tcp_mux); j_pad_mode := txt p.(tp_pad_mode); j_dummy_interval_secs := above p.(tp_dummy_interval_secs);
     j_decoy_gets := if p.(tp_decoy_gets) then Some true else None;
     j_decoy_gets_interval_secs := if p.(tp_decoy_gets) then Some (Z.max p.(tp_decoy_gets_interval_secs) 1) else None;
     j_decoy_gets_paths := if p.(tp_decoy_gets) then txt p.(tp_decoy_gets_paths) else None;
     j_proto := if decide (Z.max p.(tp_proto) 1 = 3) then None else Some (Z.max p.(tp_proto) 1);
     j_proto_domain := if inv then txt p.(tp_proto_domain) else Some (default (bs "default") (txt p.(tp_proto_domain)));
     j_decoy_mode := txt p.(tp_decoy_mode); j_desync_mode := txt p.(tp_desync_mode); j_tcp_fooling := txt p.(tp_tcp_fooling);
     j_tls_fragment := p.(tp_tls_fragment); j_ws_parallel := Some (clamp 1 4 p.(tp_ws_parallel)); j_mux_window_mib := MuxWindow_default;
     j_idle_decoy_secs := above p.(tp_idle_decoy_secs); j_stealth_profile := txt p.(tp_stealth_profile);
     j_tls_stack := if non_empty tst && negb (bool_decide (tst = bs "rustls")) then Some tst else None; j_fingerprint := txt p.(tp_fingerprint);
     j_log_level := None; j_log_format := None |}.

Lemma read_text s : opt_field read_str (text_entry s) = Ok (given (Some s)).
Proof. unfold text_entry, given. by case_decide. Qed.
Lemma read_text_if (b : bool) s : opt_field read_str (if b then text_entry s else None) = Ok (if b then given (Some s) else None).
Proof. destruct b; [apply read_text | done]. Qed.
Lemma read_if {A} (read : Value -> option A) (b : bool) v a : read v = Some a -> v <> VNull -> opt_field read (entry_if b v) = Ok (if b then Some a else None).
Proof. intros H N. destruct b; [|done]. cbn. destruct v; try done; by rewrite H. Qed.
Lemma read_num max n : 0 <= n <= max -> opt_field (read_int max) (Some (VNum n)) = Ok (Some n).
Proof. intros H. cbn. by rewrite decide_True. Qed.
Lemma read_above max n : n <= max -> opt_field (read_int max) (above_0 n) = Ok (above n).
Proof. intros H. unfold above_0, above. case_decide; [|done]. apply read_num. lia. Qed.
Lemma read_opt_num max o : (forall n, o = Some n -> 0 <= n <= max) -> opt_field (read_int max) (VNum <$> o) = Ok o.
Proof. intros H. destruct o as [n|]; [|done]. apply read_num. by apply H. Qed.
Lemma read_opt_above max o : (forall n, o = Some n -> 0 <= n <= max) -> opt_field (read_int max) (n ← o; above_0 n) = Ok (o ≫= above).
Proof. intros H. destruct o as [n|]; [|done]. apply read_above. by apply H. Qed.
Lemma read_list l : optional read_strs [] (if decide (l = []) then None else Some (VStrs l)) = Ok l.
Proof. case_decide as E; [by subst|]. by apply strs_field. Qed.

Lemma read_unless max n k : 0 <= n <= max -> opt_field (read_int max) (if decide (n = k) then None else Some (VNum n)) = Ok (if decide (n = k) then None else Some n).
Proof. intros H. case_decide; [done | by apply read_num]. Qed.
Lemma read_flag b : optional read_bool false (entry_if b (VBool true)) = Ok b.
Proof. by destruct b. Qed.
Lemma read_domain (b : bool) s :
  opt_field read_str (if b then text_entry s else Some (default (VStr (bs "default")) (text_entry s))) =
  Ok (if b then given (Some s) else Some (default (bs "default") (given (Some s)))).
Proof. destruct b; [apply read_text|]. unfold text_entry, given. by case_decide. Qed.

Ltac bounded H := solve [apply H | destruct H; unfold U8_MAX, U32_MAX, U64_MAX, USIZE_MAX, clamp in *; repeat case_decide; lia | auto].
(** The fields of a start JSON one by one. *)
Ltac start_fields H :=
  repeat (eapply field_step; [rewrite start_field; cbn [entry start_entries basic_entries further_entries app String.eqb Ascii.eqb Bool.eqb];
    first [reflexivity | apply read_text | apply read_text_if | apply read_list | apply read_domain | apply read_flag
      | apply read_if; [first [reflexivity | apply read_int_ok; bounded H] | discriminate]
      | apply read_num; bounded H | apply read_above; bounded H | apply read_unless; bounded H
      | apply read_opt_num; bounded H | apply read_opt_above; bounded H] |]).

Lemma read_start_of presets p pad bin to socks http :
  typed_profile p -> (forall n, pad = Some n -> 0 <= n <= U8_MAX) -> (forall n, bin = Some n -> 0 <= n <= USIZE_MAX) -> (forall n, to = Some n -> 0 <= n <= U64_MAX) ->
  read_start_json (VObj (set_key (bs "http_proxy") (VStr http) (set_key (bs "socks_bind") (VStr socks) (object_of (start_entries presets p pad bin to))))) =
  Ok (start_settings presets p pad bin to socks http).
Proof.
  intros H Hpad Hbin Hto. unfold read_start_json.
  start_fields H. eapply field_step; [reflexivity|]. unfold start_settings. by destruct (uses_invite p).
Qed.

(** ** An imported invite means what the invite means *)

Definition with_binds (socks http : str) (j : StartJson) : StartJson :=
  {| j_server := j.(j_server); j_token := j.(j_token); j_sni := j.(j_sni); j_socks_bind := socks; j_socks_auth_user := j.(j_socks_auth_user);
     j_socks_auth_password := j.(j_socks_auth_password); j_split_bypass_domains := j.(j_split_bypass_domains); j_http_proxy := Some http;
     j_insecure := j.(j_insecure); j_max_pad := j.(j_max_pad); j_junk_frames := j.(j_junk_frames); j_early_ws_frames := j.(j_early_ws_frames);
     j_psk := j.(j_psk); j_decoy_max := j.(j_decoy_max); j_ws_host := j.(j_ws_host); j_ws_origin := j.(j_ws_origin);
     j_ws_user_agent := j.(j_ws_user_agent); j_ws_accept_language := j.(j_ws_accept_language); j_ws_headers := j.(j_ws_headers);
     j_max_ws_binary := j.(j_max_ws_binary); j_ws_ping_secs := j.(j_ws_ping_secs); j_from_invite := j.(j_from_invite);
     j_invite_passphrase := j.(j_invite_passphrase); j_tls_profile := j.(j_tls_profile); j_ws_ping_jitter_percent := j.(j_ws_ping_jitter_percent);
     j_ws_binary_send_jitter_ms := j.(j_ws_binary_send_jitter_ms); j_ws_jitter_min_ms := j.(j_ws_jitter_min_ms);
     j_ws_jitter_max_ms := j.(j_ws_jitter_max_ms); j_udp_max_pad := j.(j_udp_max_pad); j_udp_max_ws_binary := j.(j_udp_max_ws_binary);
     j_udp_mux_reply_timeout_secs := j.(j_udp_mux_reply_timeout_secs); j_pin_cert_pem := j.(j_pin_cert_pem); j_ws_path := j.(j_ws_path);
     j_use_tcp_mux := j.(j_use_tcp_mux); j_pad_mode := j.(j_pad_mode); j_dummy_interval_secs := j.(j_dummy_interval_secs);
     j_decoy_gets := j.(j_decoy_gets); j_decoy_gets_interval_secs := j.(j_decoy_gets_interval_secs); j_decoy_gets_paths := j.(j_decoy_gets_paths);
     j_proto := j.(j_proto); j_proto_domain := j.(j_proto_domain); j_decoy_mode := j.(j_decoy_mode); j_desync_mode := j.(j_desync_mode);
     j_tcp_fooling := j.(j_tcp_fooling); j_tls_fragment := j.(j_tls_fragment); j_ws_parallel := j.(j_ws_parallel);
     j_mux_window_mib := j.(j_mux_window_mib); j_idle_decoy_secs := j.(j_idle_decoy_secs); j_stealth_profile := j.(j_stealth_profile);
     j_tls_stack := j.(j_tls_stack); j_fingerprint := j.(j_fingerprint); j_log_level := j.(j_log_level); j_log_format := j.(j_log_format) |}.

(** An invite with a trimmed PSK, paths and stack name, without headers of its own and without a stealth preset, in the ranges of the application's form. *)
Record plain_invite (i : InviteV1) : Prop := {
  plain_stealth : given i.(i_stealth_profile) = None;
  plain_headers : i.(i_ws_headers) = [];
  plain_psk : i.(i_psk) = given i.(i_psk);
  plain_paths : i.(i_decoy_gets_paths) = given i.(i_decoy_gets_paths);
  plain_stack : trim i.(i_tls_stack) = i.(i_tls_stack) /\ lowered i.(i_tls_stack) = i.(i_tls_stack);
  plain_jitter : i.(i_ws_ping_jitter_percent) <= 50;
  plain_interval : i.(i_decoy_gets) = true -> 1 <= i.(i_decoy_gets_interval_secs);
}.

(** The same result when there is one. *)
Definition ok_eq {A} (r r' : result A) : Prop := forall a, r = Ok a <-> r' = Ok a.
Lemma ok_refl {A} (r : result A) : ok_eq r r. Proof. done. Qed.
Lemma ok_sym {A} (r r' : result A) : ok_eq r r' -> ok_eq r' r. Proof. intros H a. by rewrite (H a). Qed.
Lemma ok_trans {A} (r r' r2 : result A) : ok_eq r r' -> ok_eq r' r2 -> ok_eq r r2. Proof. intros H H' a. by rewrite (H a). Qed.
Lemma ok_bind {A B} (m m' : result A) (k k' : A -> result B) : ok_eq m m' -> (forall a, ok_eq (k a) (k' a)) -> ok_eq (m ≫= k) (m' ≫= k').
Proof.
  intros H K b. split; intros (a & E & Hk)%bind_Ok; [apply H in E | apply H in E]; rewrite E; cbn; by apply (K a).
Qed.
Lemma ok_bind2 {A B C} (m : result A) (f f' : A -> result B) (k k' : B -> result C) :
  ok_eq (m ≫= f) (m ≫= f') -> (forall b, ok_eq (k b) (k' b)) -> ok_eq (t ← m; b ← f t; k b) (t ← m; b ← f' t; k' b).
Proof.
  intros H K. destruct m as [a|e|]; cbn in *; [by apply ok_bind | done..].
Qed.
Lemma ok_within {A} c (r : result A) : ok_eq (within c r) r.
Proof. intros a. apply within_Ok. Qed.

Lemma given_default o : given (Some (default [] o)) = given o.
Proof. by destruct o. Qed.
Lemma given_given o : given (given o) = given o.
Proof. destruct (given o) as [t|] eqn:E; [|done]. by apply given_idemp in E as [-> _]. Qed.
Lemma given_trim s t : given (Some s) = Some t -> t = trim s.
Proof. unfold given. case_decide; [done | by intros [= <-]]. Qed.
Lemma above_or n : 0 <= n -> default 0 (or_opt (above n) (Some n)) = n.
Proof. intros H. unfold above. by case_decide. Qed.

Lemma named_same {A} (parse : str -> result A) c ci c' ci' o d :
  ok_eq (named parse c ci (given (Some (default [] o))) o d) (named parse c' ci' None o d).
Proof.
  unfold named. rewrite given_default, given_given. cbn. destruct (given o) as [s|]; [|done].
  eapply ok_trans; [apply ok_within | apply ok_sym, ok_within].
Qed.

Section Plain.
Context (codecs : Codecs) (presets : option CacheState) (socks http : str) (p : TunnelProfile) (i : InviteV1) (P : plain_invite i).
Context (uri pass : str).
Abbreviation p' := (apply_invite_fields i p).
Abbreviation j := (start_settings presets p' i.(i_udp_max_pad) i.(i_udp_max_ws_binary) (Some i.(i_udp_mux_reply_timeout_secs)) socks http).
Abbreviation j0 := (with_binds socks http (json_of uri pass)).
Context (U : uses_invite p = true).
Context (R : 0 <= i.(i_ws_ping_jitter_percent) /\ 0 <= i.(i_ws_binary_send_jitter_ms) /\ 0 <= i.(i_ws_jitter_min_ms) /\ 0 <= i.(i_ws_jitter_max_ms)).
Context (R2 : forall n, i.(i_udp_max_ws_binary) = Some n \/ i.(i_dummy_interval_secs) = Some n \/ i.(i_idle_decoy_secs) = Some n -> 0 <= n).

Lemma plain_text (f : InviteV1 -> option str) :
  json_or_invite_str (given (Some (default [] (f i)))) (inv_opt (Some i) f) = json_or_invite_str None (inv_opt (Some i) f).
Proof using. rewrite given_default. unfold json_or_invite_str. rewrite given_given. cbn. by destruct (given (f i)). Qed.

Lemma plain_basics : json_basics j (Some i) = json_basics j0 (Some i).
Proof using P R R2.
  unfold json_basics. cbn [j_sni j_max_pad j_junk_frames j_early_ws_frames j_decoy_max j_max_ws_binary j_ws_ping_secs j_ws_ping_jitter_percent
    j_ws_binary_send_jitter_ms j_udp_max_pad j_udp_max_ws_binary j_udp_mux_reply_timeout_secs j_insecure start_settings apply_invite_fields with_binds json_of
    tp_sni tp_max_pad tp_junk_frames tp_early_ws_frames tp_decoy_max tp_max_ws_binary tp_ws_ping_secs tp_ws_ping_jitter_percent tp_ws_binary_send_jitter_ms
    tp_insecure default or_opt].
  destruct P as [_ _ _ _ _ Hj _]. assert (above (i_ws_ping_jitter_percent i `min` 50) = above (i_ws_ping_jitter_percent i)) as -> by (f_equal; lia).
  assert (A : forall n, 0 <= n -> default n (above n) = n) by (intros n Hn; unfold above; by case_decide).
  rewrite !A by apply R. rewrite orb_diag. cbn [orb].
  assert (or_opt (i_udp_max_pad i) (i_udp_max_pad i) = i_udp_max_pad i) as -> by (by destruct (i_udp_max_pad i)).
  assert (or_opt (i_udp_max_ws_binary i ≫= above) (i_udp_max_ws_binary i) = i_udp_max_ws_binary i) as ->.
  { destruct (i_udp_max_ws_binary i) as [n|]; [|done]. cbn. unfold above. by case_decide. }
  assert (json_or_invite_str (given (Some (i_sni i))) (Some (i_sni i)) = json_or_invite_str None (Some (i_sni i))) as ->; [|done].
  unfold json_or_invite_str. rewrite given_given. change (given None) with (@None str). by destruct (given (Some (i_sni i))).
Qed.

Lemma plain_token : json_token j (Some i) = json_token j0 (Some i).
Proof using U. unfold json_token, start_settings. cbn [j_token]. change (uses_invite p') with (uses_invite p). by rewrite U. Qed.
Lemma plain_psk_same : json_psk j (Some i) = json_psk j0 (Some i).
Proof using P.
  unfold json_psk, start_settings. cbn [j_psk apply_invite_fields tp_psk]. rewrite given_default, given_given, <- (plain_psk _ P). cbn.
  destruct (i_psk i) as [s|]; [|done]. rewrite decide_False; [done | intros N; by apply N].
Qed.
Lemma plain_ws_headers : ws_headers_for (Some i) j.(j_ws_headers) = ws_headers_for (Some i) j0.(j_ws_headers).
Proof using P. unfold start_settings, headers_of. cbn [j_ws_headers apply_invite_fields tp_ws_headers]. by rewrite (plain_headers _ P). Qed.
Lemma plain_pinned : or_opt (given j.(j_pin_cert_pem)) (given (inv_opt (Some i) i_pin_cert_pem)) = or_opt (given j0.(j_pin_cert_pem)) (given (inv_opt (Some i) i_pin_cert_pem)).
Proof using.
  unfold start_settings. cbn [j_pin_cert_pem apply_invite_fields tp_pin_cert_pem]. rewrite given_default, given_given. cbn. by destruct (given (i_pin_cert_pem i)).
Qed.
Lemma plain_ws_jitter : json_jitter j (Some i) None = json_jitter j0 (Some i) None.
Proof using R.
  unfold json_jitter, start_settings. cbn [j_ws_jitter_min_ms j_ws_jitter_max_ms apply_invite_fields tp_ws_jitter_min_ms tp_ws_jitter_max_ms].
  change (i_ws_jitter_min_ms <$> Some i) with (Some (i_ws_jitter_min_ms i)). change (i_ws_jitter_max_ms <$> Some i) with (Some (i_ws_jitter_max_ms i)).
  rewrite !above_or by apply R. by repeat match goal with |- context [if ?b then None else None] => destruct b end.
Qed.
Lemma plain_path : LocalClient.normalize_ws_path (default (bs "/ws") (or_opt j.(j_ws_path) (inv_opt (Some i) i_ws_path))) =
  LocalClient.normalize_ws_path (default (bs "/ws") (or_opt j0.(j_ws_path) (inv_opt (Some i) i_ws_path))).
Proof using.
  unfold start_settings. cbn [j_ws_path apply_invite_fields tp_ws_path with_binds json_of]. rewrite given_default. cbn.
  destruct (i_ws_path i) as [s|]; [|done]. cbn. case_decide as E; [done|]. cbn. unfold LocalClient.normalize_ws_path. by rewrite trim_idemp.
Qed.
Lemma plain_pad_mode : ok_eq (pad_mode_for "pad_mode" j.(j_pad_mode) (Some i) None) (pad_mode_for "pad_mode" j0.(j_pad_mode) (Some i) None).
Proof using.
  unfold pad_mode_for, start_settings. cbn [j_pad_mode apply_invite_fields tp_pad_mode]. rewrite given_default, given_given. cbn.
  destruct (i_pad_mode i) as [s|]; [|done]. cbn. case_decide as E; [done|]. eapply ok_trans; [apply ok_within|]. apply ok_sym. eapply ok_trans; [apply ok_within|].
  unfold pad_mode_from_str. by rewrite trim_idemp.
Qed.
Lemma plain_proto : default (default 3 (i_proto <$> Some i)) j.(j_proto) <> 3 <-> default (default 3 (i_proto <$> Some i)) j0.(j_proto) <> 3.
Proof using. unfold start_settings. cbn. case_decide; cbn; lia. Qed.
Lemma plain_domain : default (bs "default") (given (json_or_invite_str j.(j_proto_domain) (inv_opt (Some i) i_proto_domain))) =
  default (bs "default") (given (json_or_invite_str j0.(j_proto_domain) (inv_opt (Some i) i_proto_domain))).
Proof using U.
  unfold start_settings. cbn [j_proto_domain]. change (uses_invite p') with (uses_invite p). rewrite U. cbn [apply_invite_fields tp_proto_domain].
  unfold json_or_invite_str. rewrite given_given. cbn. destruct (i_proto_domain i) as [s|]; [|done]. unfold given. cbn [inv_opt mbind option_bind].
  destruct (decide (trim s = [])) as [E|E]; [reflexivity|]. by rewrite !decide_False by (by rewrite ?trim_idemp).
Qed.
Lemma plain_tls : ok_eq (t ← invite_tls "invite tls" (Some i); within "tls_profile" (resolve_tls_client_profile (given j.(j_fingerprint)) (given j.(j_tls_profile)) None t))
  (t ← invite_tls "invite tls" (Some i); within "tls_profile" (resolve_tls_client_profile (given j0.(j_fingerprint)) (given j0.(j_tls_profile)) None t)).
Proof using U.
  unfold start_settings. cbn [j_fingerprint j_tls_profile apply_invite_fields tp_fingerprint]. change (uses_invite p') with (uses_invite p). rewrite U. cbn [negb andb].
  unfold invite_tls, resolve_tls_client_profile, tls_profile_from_invite. rewrite given_default, !given_given. change (given None) with (@None str).
  destruct (given (i_fingerprint i)) as [f|]; [|done]. intros a. split.
  - intros (t & Ht & Hr)%bind_Ok. apply within_Ok in Ht. apply bind_Ok in Ht as (x & Hx & [= <-]). rewrite within_Ok in Hr.
    rewrite Hx in *. by rewrite <- Hr.
  - intros (t & Ht & Hr)%bind_Ok. apply within_Ok in Ht. apply bind_Ok in Ht as (x & Hx & [= <-]). rewrite Hx. by rewrite <- Hr.
Qed.
Lemma plain_stack_same : ok_eq (json_tls_stack j (Some i)) (json_tls_stack j0 (Some i)).
Proof using P.
  destruct (plain_stack _ P) as [Ht Hl]. unfold json_tls_stack, start_settings. cbn [j_tls_stack apply_invite_fields tp_tls_stack with_binds json_of]. rewrite Hl.
  destruct (non_empty (i_tls_stack i) && negb (bool_decide (i_tls_stack i = bs "rustls"))) eqn:E; [|done]. unfold given. rewrite Ht.
  apply andb_true_iff in E as [E _]. unfold non_empty in E. apply negb_true_iff, bool_decide_eq_false in E. rewrite decide_False by done.
  apply ok_sym, ok_within.
Qed.
Lemma plain_dummy : dummy_interval_for j.(j_dummy_interval_secs) (Some i) None = dummy_interval_for j0.(j_dummy_interval_secs) (Some i) None.
Proof using R2.
  unfold dummy_interval_for, start_settings. cbn [j_dummy_interval_secs apply_invite_fields tp_dummy_interval_secs with_binds json_of]. cbn.
  destruct (i_dummy_interval_secs i) as [n|] eqn:E; [|done]. cbn. unfold above. by case_decide.
Qed.
Lemma plain_idle : merge_idle_decoy_secs (or_opt j.(j_idle_decoy_secs) (inv_opt (Some i) i_idle_decoy_secs)) None =
  merge_idle_decoy_secs (or_opt j0.(j_idle_decoy_secs) (inv_opt (Some i) i_idle_decoy_secs)) None.
Proof using R2.
  unfold start_settings. cbn [j_idle_decoy_secs apply_invite_fields tp_idle_decoy_secs with_binds json_of]. cbn.
  destruct (i_idle_decoy_secs i) as [n|] eqn:E; [|done]. cbn. unfold above. by case_decide.
Qed.
Lemma plain_decoys :
  json_decoy_gets j (Some i) None = json_decoy_gets j0 (Some i) None /\ 
  default default_decoy_interval (or_opt j.(j_decoy_gets_interval_secs) (i_decoy_gets_interval_secs <$> Some i)) =
  default default_decoy_interval (or_opt j0.(j_decoy_gets_interval_secs) (i_decoy_gets_interval_secs <$> Some i)) /\ 
  decoy_paths_for j.(j_decoy_gets_paths) (Some i) = decoy_paths_for j0.(j_decoy_gets_paths) (Some i).
Proof using P.
  unfold json_decoy_gets, decoy_paths_for, start_settings.
  cbn [j_decoy_gets j_decoy_gets_interval_secs j_decoy_gets_paths apply_invite_fields tp_decoy_gets tp_decoy_gets_interval_secs tp_decoy_gets_paths with_binds json_of].
  destruct (i_decoy_gets i) eqn:E; [|by rewrite ?E]. pose proof (plain_interval _ P E). split_and!; [done | cbn; lia |].
  rewrite given_default, <- (plain_paths _ P). change (inv_opt (Some i) i_decoy_gets_paths) with (i_decoy_gets_paths i). cbn. by destruct (comma_list _).
Qed.
Lemma plain_parallel : json_ws_parallel j (Some i) = json_ws_parallel j0 (Some i).
Proof using. unfold json_ws_parallel, start_settings. cbn. unfold clamp. repeat case_decide; lia. Qed.

Lemma plain_options b token psk extra pinned jmin jmax path mux pad proto domain tls decoy desync fooling stack auth target key sid :
  json_options j (Some i) None b token psk extra pinned jmin jmax path mux pad proto domain tls decoy desync fooling stack auth target key sid =
  json_options j0 (Some i) None b token psk extra pinned jmin jmax path mux pad proto domain tls decoy desync fooling stack auth target key sid.
Proof using P R2.
  unfold json_options. change (@fmap option _ _ _ preset None) with (@None StealthPreset).
  rewrite plain_dummy, plain_idle, plain_parallel. destruct plain_decoys as (-> & -> & ->).
  f_equal; try reflexivity; apply plain_text.
Qed.

Lemma plain_stealth_for c (field : option str) : field = None \/ field = given (Some (default [] i.(i_stealth_profile))) -> within c (stealth_for c field (Some i)) = Ok None.
Proof using P.
  intros [->| ->]; unfold stealth_for, named; rewrite ?given_default, ?given_given; cbn; by rewrite (plain_stealth _ P).
Qed.

Lemma plain_merge : ok_eq (json_merge codecs j (Some i)) (json_merge codecs j0 (Some i)).
Proof using P U R R2.
  unfold json_merge. rewrite !plain_stealth_for by (by left) || (right; reflexivity). cbn [mbind res_bind].
  change (@fmap option _ _ _ preset None) with (@None StealthPreset).
  rewrite plain_basics, plain_token, plain_psk_same, plain_ws_headers, plain_pinned, plain_ws_jitter, plain_path, plain_domain.
  apply ok_bind; [done|intros b]. apply ok_bind; [done|intros token]. apply ok_bind; [done|intros _]. apply ok_bind; [done|intros psk].
  apply ok_bind; [done|intros extra]. destruct (json_jitter j0 (Some i) None) as [jmin jmax].
  apply ok_bind; [apply plain_pad_mode|intros pad].
  assert (default (default 3 (i_proto <$> Some i)) j.(j_proto) <> 3 \/ default (default 3 (i_proto <$> Some i)) j.(j_proto) = 3) as [N|E] by lia.
  { rewrite decide_True by exact N. rewrite decide_True by (by apply plain_proto). done. }
  assert (default (default 3 (i_proto <$> Some i)) j0.(j_proto) = 3) as E0 by (apply dec_stable; intros F%plain_proto; done).
  rewrite E, E0, decide_False by (intros F; by apply F).
  apply ok_bind2; [apply plain_tls|intros tls]. apply ok_bind; [apply named_same|intros decoy]. apply ok_bind; [apply named_same|intros desync].
  apply ok_bind; [apply named_same|intros fooling]. apply ok_bind; [apply plain_stack_same|intros stack]. apply ok_bind; [done|intros auth].
  apply ok_bind; [done|intros [[target key] sid]]. apply ok_bind; [done|intros _]. apply ok_bind; [done|intros _].
  rewrite plain_options. done.
Qed.
End Plain.

(** What the types of an invite's fields allow. *)
Record typed_invite (i : InviteV1) : Prop := {
  ti_max_pad : 0 <= i.(i_max_pad) <= U8_MAX;
  ti_decoy_max : 0 <= i.(i_decoy_max) <= U8_MAX;
  ti_max_ws_binary : 0 <= i.(i_max_ws_binary) <= U64_MAX;
  ti_junk_frames : 0 <= i.(i_junk_frames) <= U32_MAX;
  ti_early_ws_frames : 0 <= i.(i_early_ws_frames) <= U8_MAX;
  ti_ws_ping_secs : 0 <= i.(i_ws_ping_secs) <= U64_MAX;
  ti_ping_jitter : 0 <= i.(i_ws_ping_jitter_percent) <= U8_MAX;
  ti_binary_jitter : 0 <= i.(i_ws_binary_send_jitter_ms) <= U8_MAX;
  ti_jitter_min : 0 <= i.(i_ws_jitter_min_ms) <= U8_MAX;
  ti_jitter_max : 0 <= i.(i_ws_jitter_max_ms) <= U8_MAX;
  ti_interval : 0 <= i.(i_decoy_gets_interval_secs) <= U64_MAX;
  ti_proto : 0 <= i.(i_proto) <= U8_MAX;
  ti_udp_timeout : 0 <= i.(i_udp_mux_reply_timeout_secs) <= U64_MAX;
  ti_udp_pad n : i.(i_udp_max_pad) = Some n -> 0 <= n <= U8_MAX;
  ti_udp_bin n : i.(i_udp_max_ws_binary) = Some n -> 0 <= n <= USIZE_MAX;
  ti_dummy n : i.(i_dummy_interval_secs) = Some n -> 0 <= n <= U64_MAX;
  ti_idle n : i.(i_idle_decoy_secs) = Some n -> 0 <= n <= U64_MAX;
}.

Lemma default_range max o : (forall n, o = Some n -> 0 <= n <= max) -> 0 <= max -> 0 <= default 0 o <= max.
Proof. intros H Hm. destruct o as [n|]; cbn; [by apply H | lia]. Qed.

Lemma apply_invite_typed i p : typed_invite i -> typed_profile p -> typed_profile (apply_invite_fields i p).
Proof.
  intros Hi Hp. split; cbn [apply_invite_fields tp_max_pad tp_decoy_max tp_max_ws_binary tp_junk_frames tp_early_ws_frames tp_ws_ping_secs
    tp_ws_ping_jitter_percent tp_ws_binary_send_jitter_ms tp_dummy_interval_secs tp_decoy_gets_interval_secs tp_proto tp_ws_parallel tp_idle_decoy_secs
    tp_ws_jitter_min_ms tp_ws_jitter_max_ms tp_control_plane_instance_id]; try solve [apply Hi]; try solve [apply Hp].
  - apply default_range; [apply Hi | done].
  - unfold clamp. repeat case_decide; unfold U8_MAX; lia.
  - apply default_range; [apply Hi | done].
Qed.

Lemma show_dec_solid n : trim (show_dec n) = show_dec n /\ show_dec n <> [].
Proof.
  destruct (show_dec_fuel_digits 20 n) as [H N]. split; [|apply N; lia]. apply trim_graphic. unfold graphic. eapply Forall_impl; [exact H|].
  intros x Hx. unfold is_ascii_digit, in_rng in Hx. lia.
Qed.
Lemma typed_number_shown what max o : max < 10 ^ 20 -> (forall n, o = Some n -> 0 <= n <= max) -> typed_number what max (default [] (show_dec <$> o)) = Ok o.
Proof.
  intros Hm H. destruct o as [n|]; [|done]. specialize (H n eq_refl). destruct (show_dec_solid n) as [Ht Hn].
  unfold typed_number. cbn [fmap option_fmap option_map default from_option id]. rewrite Ht, decide_False by done. by rewrite parse_show_dec by lia.
Qed.

Lemma start_of_imported presets p i socks http : typed_invite i -> typed_profile p ->
  start_of_profile presets (apply_invite_fields i p) socks http =
  Ok (start_settings presets (apply_invite_fields i p) i.(i_udp_max_pad) i.(i_udp_max_ws_binary) (Some i.(i_udp_mux_reply_timeout_secs)) socks http).
Proof.
  intros Hi Hp. unfold start_of_profile, start_config_json. cbn [tp_udp_max_pad tp_udp_max_ws_binary tp_udp_mux_reply_timeout_secs apply_invite_fields].
  rewrite !typed_number_shown by (done || apply Hi).
  change (show_dec (i_udp_mux_reply_timeout_secs i)) with (default [] (show_dec <$> Some (i_udp_mux_reply_timeout_secs i))).
  rewrite typed_number_shown by (done || (intros n [= <-]; apply Hi)). cbn [mbind res_bind].
  apply read_start_of; [by apply apply_invite_typed | apply Hi | apply Hi |]. intros n [= <-]. apply Hi.
Qed.

Lemma start_invite_read aead b3 codecs argon2 i j uri pass :
  decode_invite_v1 aead b3 codecs argon2 uri pass = Ok i -> given j.(j_from_invite) = Some uri -> given j.(j_invite_passphrase) = Some pass ->
  json_invite aead b3 codecs argon2 j = Ok (Some i).
Proof. intros Hd Hu Hp. unfold json_invite. by rewrite Hu, Hp, Hd. Qed.

(** C22: A profile filled in from an invite starts the client the way the invite does: from the start JSON of the profile the client's reader makes
    settings with which it takes the same options, or refuses, as from an object that has only the invite, its passphrase and the two local
    addresses; the split-tunnel list is the one of the profile. For a plain invite, with ranges the types of the fields give. *)
Theorem imported_profile_starts aead b3 codecs argon2 presets socks http p i uri pass g g' o :
  decode_invite_v1 aead b3 codecs argon2 uri pass = Ok i -> plain_invite i -> typed_invite i -> typed_profile p ->
  uri = trim p.(tp_from_invite) -> uri <> [] -> pass = p.(tp_invite_passphrase) -> trim pass = pass -> pass <> [] ->
  exists j, start_of_profile presets (apply_invite_fields i p) socks http = Ok j /\
    j.(j_split_bypass_domains) = bypass_domains_for_profile presets (split_of p) /\
    (snd (start_json_into_options aead b3 codecs argon2 j g) = Ok o <->
     snd (start_json_into_options aead b3 codecs argon2 (with_binds socks http (json_of uri pass)) g') = Ok o).
Proof.
  intros Hd Hpl Hi Hp -> Hu -> Ht Hn. eexists. split; [by apply start_of_imported|]. split; [done|].
  assert (U : uses_invite p = true).
  { unfold uses_invite, non_empty. by rewrite !bool_decide_false. }
  unfold start_json_into_options. cbn [mbind st_bind modify lift snd].
  rewrite !(start_invite_read _ _ _ _ _ _ _ _ Hd).
  - apply plain_merge; [done..| split_and!; apply Hi |]. intros n [H|[H|H]]; [by apply (ti_udp_bin _ Hi) | by apply (ti_dummy _ Hi) | by apply (ti_idle _ Hi)].
  - unfold given. cbn. by rewrite trim_idemp, decide_False.
  - unfold given. cbn. by rewrite Ht, decide_False.
  - unfold start_settings. cbn [j_from_invite]. change (uses_invite (apply_invite_fields i p)) with (uses_invite p). rewrite U.
    change (tp_from_invite (apply_invite_fields i p)) with (tp_from_invite p). unfold given. by rewrite trim_idemp, decide_False.
  - unfold start_settings. cbn [j_invite_passphrase]. change (uses_invite (apply_invite_fields i p)) with (uses_invite p). rewrite U.
    change (tp_invite_passphrase (apply_invite_fields i p)) with (tp_invite_passphrase p). unfold given. by rewrite Ht, decide_False.
Qed.

(** ** What does not carry over *)

(** The headers of an invite are sent twice: once from the profile's copy of them, once from the invite. *)
Lemma headers_doubled i p l :
  i.(i_ws_headers) = [bs "X-A: b"] -> ws_headers_for (Some i) (headers_of (apply_invite_fields i p)) = Ok l -> l = [(bs "X-A", bs "b"); (bs "X-A", bs "b")].
Proof. intros H. unfold ws_headers_for, headers_of. cbn [tp_ws_headers apply_invite_fields]. rewrite H. vm_compute. congruence. Qed.

(** The REALITY settings of a profile without an invite are written to the start JSON, where the client's reader has no place for them. *)
Lemma manual_reality_ignored codecs presets p pad bin to socks http o :
  json_merge codecs (start_settings presets p pad bin to socks http) None = Ok o -> o.(o_reality_target) = None /\ o.(o_reality_public_key) = None.
Proof.
  intros H. unfold json_merge in H. peel H. apply Ok_inj in H as <-. cbn [o_reality_target o_reality_public_key json_options].
  by match goal with E : invite_reality _ None = Ok _ |- _ => injection E as <- <- <- end.
Qed.

Definition sample_globals : DomainRoute.Globals := {| DomainRoute.global_map := ∅; DomainRoute.global_bypass := [] |}.
Lemma sample_typed_invite : typed_invite (sample_invite 1).
Proof.
  split; cbn [sample_invite i_max_pad i_decoy_max i_max_ws_binary i_junk_frames i_early_ws_frames i_ws_ping_secs i_ws_ping_jitter_percent i_ws_binary_send_jitter_ms
    i_ws_jitter_min_ms i_ws_jitter_max_ms i_decoy_gets_interval_secs i_proto i_udp_mux_reply_timeout_secs i_udp_max_pad i_udp_max_ws_binary
    i_dummy_interval_secs i_idle_decoy_secs]; unfold U8_MAX, U32_MAX, U64_MAX; try lia; intros n E; discriminate E.
Qed.
Lemma default_typed id a b c d e : typed_profile (with_secrets a b c d e (default_profile id)).
Proof. split; (split; [by vm_compute | by vm_compute]). Qed.
Lemma imported_profile_starts_witness :
  let p := with_secrets [] [] sample_uri (bs "pass") [] (default_profile (bs "p")) in
  let read := start_json_into_options plain_aead zero_blake3 sample_codecs sample_kdf in
  exists j o, start_of_profile (Some CacheState_default) (apply_invite_fields (sample_invite 1) p) (bs "127.0.0.1:17891") (bs "127.0.0.1:17890") = Ok j /\
    snd (read j sample_globals) = Ok o.
Proof.
  intros p read.
  assert (X : { o | snd (read (with_binds (bs "127.0.0.1:17891") (bs "127.0.0.1:17890") (json_of sample_uri (bs "pass"))) sample_globals) = Ok o }).
  { assert (K : is_ok (snd (read (with_binds (bs "127.0.0.1:17891") (bs "127.0.0.1:17890") (json_of sample_uri (bs "pass"))) sample_globals)) = true)
      by (vm_compute; reflexivity).
    destruct (snd (read _ sample_globals)) as [o|e|]; [by exists o | discriminate K | discriminate K]. }
  destruct X as [o Ho].
  destruct (imported_profile_starts plain_aead zero_blake3 sample_codecs sample_kdf (Some CacheState_default) (bs "127.0.0.1:17891") (bs "127.0.0.1:17890")
    p (sample_invite 1) sample_uri (bs "pass") sample_globals sample_globals o) as (j & Hj & _ & _ & H2).
  - vm_compute. reflexivity.
  - split; try reflexivity; try (split; reflexivity); vm_compute; intros; discriminate.
  - exact sample_typed_invite.
  - apply default_typed.
  - vm_compute. reflexivity.
  - vm_compute. discriminate.
  - reflexivity.
  - reflexivity.
  - discriminate.
  - exists j, o. split; [exact Hj | exact (H2 Ho)].
Defined.
