(* ===== verification/ControlPlane.v ===== *)
(** Importing a profile from the control plane ([control_plane_client.rs], the deep links of [lib.rs] and the import of [config.rs] of
    [apps/bibavpn-desktop]): which origins a link may name, the request that redeems its token, and the import that waits for the user. *)
From S2P Require Import Prelude Text Crypto Invite ClientOptions BypassDomains DesktopConfig DesktopStart.

Record ImportPayload := {
  invite_uri : str;
  invite_passphrase : str;
  instance_id : Z;
  display_name : str;
  server_name : str;
  server_public_host : str;
  host_port : Z;
  expires_at : str;
  config_version : str;
}.
Definition MAX_IMPORT_BYTES : Z := 1024 * 1024.

(** [read_body_capped] of this client. *)
Definition read_import_body (resp : Response) : result str :=
  let too_long := match resp.(content_length) with
    | Some s => match parse_uint U64_MAX (trim s) with Some n => bool_decide (MAX_IMPORT_BYTES < n) | None => false end
    | None => false end in
  if too_long then bail "control plane body too large" else
  if resp.(body_fails) && bool_decide (len resp.(body) <= MAX_IMPORT_BYTES) then bail "control plane body" else
  if decide (MAX_IMPORT_BYTES < len resp.(body)) then bail "control plane body too large" else from_utf8 resp.(body).

Definition canonical_origin (h : str) (p : Z) : str :=
  let h := to_ascii_lowercase h in
  if decide (p = 443) then bs "https://" ++ h else bs "https://" ++ h ++ bs ":" ++ show_dec p.

(** [bibavpn://import?token=...&base_url=...]. *)
Fixpoint link_params (urldecode : str -> option str) (parts : list str) (token base_url : option str) : option (option str * option str) :=
  match parts with
  | [] => Some (token, base_url)
  | part :: parts =>
    match split_once 61 part with
    | None => link_params urldecode parts token base_url
    | Some (k, v) =>
      key ← urldecode k; val ← urldecode v;
      if decide (key = bs "token") then link_params urldecode parts (Some val) base_url
      else if decide (key = bs "base_url") then link_params urldecode parts token (Some val)
      else link_params urldecode parts token base_url
    end
  end.
Definition parse_import_deeplink (urldecode : str -> option str) (raw : str) : option (str * str) :=
  let trimmed := trim raw in
  if negb (starts_with (to_ascii_lowercase trimmed) (bs "bibavpn://")) then None else
  '(host_and_path, query) ← split_once 63 (drop 10 trimmed);
  host ← head (split_char 47 [] (trim_end_matches (Z.eqb 47) host_and_path));
  if decide (host <> bs "import") then None else
  '(token, base_url) ← link_params urldecode (split_char 38 [] query) None None;
  t ← token; b ← base_url; Some (t, b).

Definition import_fields (uri pass : str) (inst : Z) (version base name : str) (p : TunnelProfile) : TunnelProfile :=
  {| tp_id := p.(tp_id); tp_name := name; tp_server := p.(tp_server); tp_token := p.(tp_token); tp_psk := p.(tp_psk); tp_sni := p.(tp_sni);
     tp_insecure := p.(tp_insecure); tp_max_pad := p.(tp_max_pad); tp_decoy_max := p.(tp_decoy_max); tp_max_ws_binary := p.(tp_max_ws_binary);
     tp_tls_profile := p.(tp_tls_profile); tp_from_invite := uri; tp_invite_passphrase := pass; tp_junk_frames := p.(tp_junk_frames);
     tp_early_ws_frames := p.(tp_early_ws_frames); tp_ws_ping_secs := p.(tp_ws_ping_secs); tp_ws_headers := p.(tp_ws_headers);
     tp_use_tcp_mux := p.(tp_use_tcp_mux); tp_ws_path := p.(tp_ws_path); tp_pad_mode := p.(tp_pad_mode);
     tp_ws_ping_jitter_percent := p.(tp_ws_ping_jitter_percent); tp_ws_binary_send_jitter_ms := p.(tp_ws_binary_send_jitter_ms);
     tp_udp_max_pad := p.(tp_udp_max_pad); tp_udp_max_ws_binary := p.(tp_udp_max_ws_binary);
     tp_udp_mux_reply_timeout_secs := p.(tp_udp_mux_reply_timeout_secs); tp_dummy_interval_secs := p.(tp_dummy_interval_secs);
     tp_decoy_gets := p.(tp_decoy_gets); tp_decoy_gets_interval_secs := p.(tp_decoy_gets_interval_secs); tp_decoy_gets_paths := p.(tp_decoy_gets_paths);
     tp_pin_cert_pem := p.(tp_pin_cert_pem); tp_split_tunnel_enabled := p.(tp_split_tunnel_enabled);
     tp_split_tunnel_preset_ids := p.(tp_split_tunnel_preset_ids); tp_proto := p.(tp_proto); tp_proto_domain := p.(tp_proto_domain);
     tp_stealth_profile := p.(tp_stealth_profile); tp_decoy_mode := p.(tp_decoy_mode); tp_desync_mode := p.(tp_desync_mode);
     tp_tcp_fooling := p.(tp_tcp_fooling); tp_tls_fragment := p.(tp_tls_fragment); tp_ws_parallel := p.(tp_ws_parallel);
     tp_idle_decoy_secs := p.(tp_idle_decoy_secs); tp_tls_stack := p.(tp_tls_stack); tp_fingerprint := p.(tp_fingerprint);
     tp_reality_target := p.(tp_reality_target); tp_reality_public_key := p.(tp_reality_public_key); tp_reality_short_id := p.(tp_reality_short_id);
     tp_ws_host := p.(tp_ws_host); tp_ws_origin := p.(tp_ws_origin); tp_ws_user_agent := p.(tp_ws_user_agent);
     tp_ws_accept_language := p.(tp_ws_accept_language); tp_ws_jitter_min_ms := p.(tp_ws_jitter_min_ms); tp_ws_jitter_max_ms := p.(tp_ws_jitter_max_ms);
     tp_control_plane_instance_id := inst; tp_control_plane_config_version := version; tp_control_plane_base_url := base;
     tp_android_socks_bind := p.(tp_android_socks_bind); tp_android_split_tunnel_packages := p.(tp_android_split_tunnel_packages);
     tp_android_manual_split_packages := p.(tp_android_manual_split_packages); tp_android_vpn_routing_mode := p.(tp_android_vpn_routing_mode);
     tp_android_screen_off_battery_saver := p.(tp_android_screen_off_battery_saver) |}.
Definition new_import (id name : str) (inst : Z) (p : TunnelProfile) : TunnelProfile :=
  {| tp_id := id; tp_name := name; tp_server := p.(tp_server); tp_token := p.(tp_token); tp_psk := p.(tp_psk); tp_sni := p.(tp_sni);
     tp_insecure := p.(tp_insecure); tp_max_pad := p.(tp_max_pad); tp_decoy_max := p.(tp_decoy_max); tp_max_ws_binary := p.(tp_max_ws_binary);
     tp_tls_profile := p.(tp_tls_profile); tp_from_invite := p.(tp_from_invite); tp_invite_passphrase := p.(tp_invite_passphrase);
     tp_junk_frames := p.(tp_junk_frames); tp_early_ws_frames := p.(tp_early_ws_frames); tp_ws_ping_secs := p.(tp_ws_ping_secs);
     tp_ws_headers := p.(tp_ws_headers); tp_use_tcp_mux := p.(tp_use_tcp_mux); tp_ws_path := p.(tp_ws_path); tp_pad_mode := p.(tp_pad_mode);
     tp_ws_ping_jitter_percent := p.(tp_ws_ping_jitter_percent); tp_ws_binary_send_jitter_ms := p.(tp_ws_binary_send_jitter_ms);
     tp_udp_max_pad := p.(tp_udp_max_pad); tp_udp_max_ws_binary := p.(tp_udp_max_ws_binary);
     tp_udp_mux_reply_timeout_secs := p.(tp_udp_mux_reply_timeout_secs); tp_dummy_interval_secs := p.(tp_dummy_interval_secs);
     tp_decoy_gets := p.(tp_decoy_gets); tp_decoy_gets_interval_secs := p.(tp_decoy_gets_interval_secs); tp_decoy_gets_paths := p.(tp_decoy_gets_paths);
     tp_pin_cert_pem := p.(tp_pin_cert_pem); tp_split_tunnel_enabled := p.(tp_split_tunnel_enabled);
     tp_split_tunnel_preset_ids := p.(tp_split_tunnel_preset_ids); tp_proto := p.(tp_proto); tp_proto_domain := p.(tp_proto_domain);
     tp_stealth_profile := p.(tp_stealth_profile); tp_decoy_mode := p.(tp_decoy_mode); tp_desync_mode := p.(tp_desync_mode);
     tp_tcp_fooling := p.(tp_tcp_fooling); tp_tls_fragment := p.(tp_tls_fragment); tp_ws_parallel := p.(tp_ws_parallel);
     tp_idle_decoy_secs := p.(tp_idle_decoy_secs); tp_tls_stack := p.(tp_tls_stack); tp_fingerprint := p.(tp_fingerprint);
     tp_reality_target := p.(tp_reality_target); tp_reality_public_key := p.(tp_reality_public_key); tp_reality_short_id := p.(tp_reality_short_id);
     tp_ws_host := p.(tp_ws_host); tp_ws_origin := p.(tp_ws_origin); tp_ws_user_agent := p.(tp_ws_user_agent);
     tp_ws_accept_language := p.(tp_ws_accept_language); tp_ws_jitter_min_ms := p.(tp_ws_jitter_min_ms); tp_ws_jitter_max_ms := p.(tp_ws_jitter_max_ms);
     tp_control_plane_instance_id := inst; tp_control_plane_config_version := p.(tp_control_plane_config_version);
     tp_control_plane_base_url := p.(tp_control_plane_base_url); tp_android_socks_bind := p.(tp_android_socks_bind);
     tp_android_split_tunnel_packages := p.(tp_android_split_tunnel_packages); tp_android_manual_split_packages := p.(tp_android_manual_split_packages);
     tp_android_vpn_routing_mode := p.(tp_android_vpn_routing_mode); tp_android_screen_off_battery_saver := p.(tp_android_screen_off_battery_saver) |}.

Section Importing.
Context (parse_url : str -> option Url) (urldecode : str -> option str) (parse_payload : str -> option ImportPayload).
Context (built_url : option str) (aead : Aead) (b3 : Blake3) (codecs : Codecs) (argon2 : Argon2).

(** ** Origins *)

Definition https_host (parsed : Url) : result (str * Z) :=
  if negb (eq_ignore_ascii_case parsed.(scheme) (bs "https")) then bail "control plane: HTTPS is required" else
  if decide (parsed.(username) <> [] \/ is_Some parsed.(password)) then bail "control plane: userinfo in URL" else
  match parsed.(host) with None | Some [] => bail "control plane: no host" | Some h => Ok (h, default 443 parsed.(port)) end.
Definition origin_from_service_url (u : str) : result str :=
  let t := trim u in
  if decide (t = []) then bail "control plane: empty URL" else
  parsed ← context "control plane: bad URL"%string (parse_url t);
  '(h, p) ← https_host parsed;
  Ok (canonical_origin h p).
Definition validate_control_plane_base_url (base_url : str) (allowed : list str) : result str :=
  let t := trim base_url in
  if decide (t = []) then bail "control plane: empty base_url" else
  if decide (allowed = []) then bail "control plane: import unavailable" else
  parsed ← context "control plane: bad URL"%string (parse_url t);
  if negb (eq_ignore_ascii_case parsed.(scheme) (bs "https")) then bail "control plane: HTTPS is required" else
  if decide (parsed.(username) <> [] \/ is_Some parsed.(password)) then bail "control plane: userinfo in URL" else
  if decide (is_Some parsed.(query) \/ is_Some parsed.(fragment)) then bail "control plane: query or fragment in URL" else
  if decide (parsed.(url_path) <> [] /\ parsed.(url_path) <> bs "/") then bail "control plane: path in URL" else
  '(h, p) ← https_host parsed;
  let origin := canonical_origin h p in
  if existsb (fun o => eq_ignore_ascii_case o origin) allowed then Ok origin else bail "control plane: host not allowed".

Definition origin_of (u : str) : option str := match origin_from_service_url u with Ok o => Some o | _ => None end.
Definition profile_control_plane_origins (c : SavedConfig) : list str :=
  fold_left (fun out p =>
    let base := trim p.(tp_control_plane_base_url) in
    if decide (base = []) then out
    else match origin_of base with Some o => if decide (o ∈ out) then out else out ++ [o] | None => out end) c.(c_profiles) [].
(** The order of the set does not matter. *)
Definition build_allowed_origins (e : Env) (profile_origins : list str) : list str :=
  let set := match bypass_domains_url built_url e with Some u => match origin_of u with Some o => {[o]} | None => ∅ end | None => ∅ end : gset str in
  elements (fold_left (fun (s : gset str) o =>
    let t := trim o in if decide (t = []) then s else match origin_of t with Some o => {[o]} ∪ s | None => s end) profile_origins set).
Definition allowed_origins_for_import (e : Env) (c : SavedConfig) : list str := build_allowed_origins e (profile_control_plane_origins c).

(** ** The request *)

(** The answer to a POST of a token to a URL; [ureq] turns statuses from 400 on into errors, and follows no redirects here. *)
Definition Post : Type := str -> str -> option Response.
Definition redeem_import_at_origin (post : Post) (base token : str) : list (str * str) * result ImportPayload :=
  let tok := trim token in
  if decide (tok = []) then ([], bail "empty import token") else
  let url := base ++ bs "/api/v1/client/import" in
  ([(url, tok)],
   resp ← context "control plane"%string (post url tok);
   t ← read_import_body resp;
   if decide (resp.(status) <> 200) then bail "control plane HTTP" else
   context "control plane JSON"%string (parse_payload t)).
Definition redeem_import (post : Post) (base_url token : str) (allowed : list str) : list (str * str) * result (str * ImportPayload) :=
  match validate_control_plane_base_url base_url allowed with
  | Ok base => let '(posts, r) := redeem_import_at_origin post base token in (posts, payload ← r; Ok (base, payload))
  | Err e => ([], Err e)
  | Panic => ([], Panic)
  end.

(** ** The import *)

Definition import_name (payload : ImportPayload) (old : str) : str :=
  if non_empty (trim payload.(display_name)) then trim payload.(display_name)
  else if non_empty (trim payload.(server_name)) then trim payload.(server_name) else old.
Fixpoint position {A} (f : A -> bool) (l : list A) : option nat :=
  match l with [] => None | x :: l => if f x then Some 0%nat else S <$> position f l end.
(** The profile that is active, changed by [f]; the first one when none is. *)
Definition change_active (f : TunnelProfile -> result TunnelProfile) (c : SavedConfig) : result SavedConfig :=
  let i := default 0%nat (position (fun p => bool_decide (p.(tp_id) = c.(c_active_profile_id))) c.(c_profiles)) in
  p ← context "no active profile"%string (c.(c_profiles) !! i);
  q ← f p;
  Ok {| c_version := c.(c_version); c_ui_locale := c.(c_ui_locale); c_local_http_port := c.(c_local_http_port);
        c_local_socks_port := c.(c_local_socks_port); c_active_profile_id := c.(c_active_profile_id); c_profiles := <[i := q]> c.(c_profiles) |}.
Definition activate (id : str) (ps : list TunnelProfile) (c : SavedConfig) : SavedConfig :=
  {| c_version := c.(c_version); c_ui_locale := c.(c_ui_locale); c_local_http_port := c.(c_local_http_port);
     c_local_socks_port := c.(c_local_socks_port); c_active_profile_id := id; c_profiles := ps |}.
Definition import_control_plane_payload (now : Z) (c : SavedConfig) (payload : ImportPayload) (base_url : str) : result SavedConfig :=
  let inst := Z.max payload.(instance_id) 0 in
  let c := match List.find (fun p => bool_decide (p.(tp_control_plane_instance_id) = inst /\ 0 < inst)) c.(c_profiles) with
           | Some p => activate p.(tp_id) c.(c_profiles) c
           | None => let id := new_profile_id now in
                     activate id (c.(c_profiles) ++ [new_import id payload.(display_name) inst TunnelProfile_default]) c
           end in
  change_active (fun p =>
    let p := import_fields (trim payload.(invite_uri)) payload.(invite_passphrase) inst payload.(config_version)
               (trim_end_matches (Z.eqb 47) (trim base_url)) (import_name payload p.(tp_name)) p in
    i ← within "key" (decode_invite_v1 aead b3 codecs argon2 p.(tp_from_invite) p.(tp_invite_passphrase));
    Ok (apply_invite_fields i p)) c.

(** ** Links, and the user's answer *)

(** The configuration, the import that waits, the requests made, and what was written to the file. *)
Record ImportState := { s_cfg : SavedConfig; s_pending : option (str * ImportPayload); s_posts : list (str * str); s_saved : list SavedConfig }.

Definition handle_import_deeplink (e : Env) (post : Post) (raw : str) (s : ImportState) : ImportState * result unit :=
  match parse_import_deeplink urldecode raw with
  | None => (s, bail "bad import link")
  | Some (token, base_url) =>
    let '(posts, r) := redeem_import post base_url token (allowed_origins_for_import e s.(s_cfg)) in
    match r with
    | Ok pending => ({| s_cfg := s.(s_cfg); s_pending := Some pending; s_posts := s.(s_posts) ++ posts; s_saved := s.(s_saved) |}, Ok tt)
    | _ => ({| s_cfg := s.(s_cfg); s_pending := s.(s_pending); s_posts := s.(s_posts) ++ posts; s_saved := s.(s_saved) |}, bail "import failed")
    end
  end.
(** [persists] tells whether the file can be written. *)
Definition apply_pending_import (now : Z) (persists : bool) (s : ImportState) : ImportState * result unit :=
  match s.(s_pending) with
  | None => (s, bail "no pending import")
  | Some (origin, payload) =>
    match import_control_plane_payload now s.(s_cfg) payload origin with
    | Ok cfg => if persists then ({| s_cfg := cfg; s_pending := None; s_posts := s.(s_posts); s_saved := s.(s_saved) ++ [cfg] |}, Ok tt)
                else (s, bail "save")
    | _ => (s, bail "key")
    end
  end.
Definition cancel_pending_import (s : ImportState) : ImportState :=
  {| s_cfg := s.(s_cfg); s_pending := None; s_posts := s.(s_posts); s_saved := s.(s_saved) |}.

Inductive import_step (e : Env) : ImportState -> ImportState -> Prop :=
| Link post raw s : import_step e s (handle_import_deeplink e post raw s).1
| Confirm now persists s : import_step e s (apply_pending_import now persists s).1
| Cancel s : import_step e s (cancel_pending_import s).
End Importing.

(** ** Lemmas on origins *)

Lemma digits_lower n : to_ascii_lowercase (show_dec n) = show_dec n.
Proof.
  unfold to_ascii_lowercase. destruct (show_dec_fuel_digits 20 n) as [H _]. fold (show_dec n) in H. rewrite <- (list_fmap_id (show_dec n)) at 2.
  apply list_fmap_ext. intros k x Hx. rewrite Forall_lookup in H. apply H in Hx. unfold is_ascii_digit, in_rng, ascii_lower, in_rng in *.
  destruct (65 <=? x) eqn:E1, (x <=? 90) eqn:E2; cbn; lia.
Qed.
Lemma canonical_lower h p : to_ascii_lowercase (canonical_origin h p) = canonical_origin h p.
Proof.
  unfold canonical_origin. case_decide; unfold to_ascii_lowercase; rewrite ?fmap_app; fold (to_ascii_lowercase (to_ascii_lowercase h));
    rewrite to_ascii_lowercase_idemp; [done|]. fold (to_ascii_lowercase (show_dec p)). by rewrite digits_lower.
Qed.

Section ImportProofs.
Context (parse_url : str -> option Url) (urldecode : str -> option str) (parse_payload : str -> option ImportPayload).
Context (built_url : option str) (aead : Aead) (b3 : Blake3) (codecs : Codecs) (argon2 : Argon2).
Abbreviation origin_of := (origin_of parse_url).
Abbreviation allowed := (allowed_origins_for_import parse_url built_url).

Lemma origin_of_canonical u o : origin_of u = Some o -> exists h p, o = canonical_origin h p.
Proof.
  unfold ControlPlane.origin_of, origin_from_service_url. case_decide; [done|]. destruct (parse_url _) as [x|]; [|done]. cbn.
  destruct (https_host x) as [[h p]|e|]; cbn; [|done..]. intros [= <-]. eauto.
Qed.
Lemma origin_of_trim u : origin_of (trim u) = origin_of u.
Proof. unfold ControlPlane.origin_of, origin_from_service_url. by rewrite trim_idemp. Qed.
Lemma origin_of_blank u : trim u = [] -> origin_of u = None.
Proof. unfold ControlPlane.origin_of, origin_from_service_url. intros ->. by rewrite decide_True. Qed.

Lemma profile_origins_iff c o :
  o ∈ profile_control_plane_origins parse_url c <-> exists p, p ∈ c.(c_profiles) /\ origin_of p.(tp_control_plane_base_url) = Some o.
Proof.
  unfold profile_control_plane_origins. assert (G : forall l out, o ∈ fold_left (fun out p =>
      if decide (trim p.(tp_control_plane_base_url) = []) then out
      else match origin_of (trim p.(tp_control_plane_base_url)) with Some o => if decide (o ∈ out) then out else out ++ [o] | None => out end) l out <->
    o ∈ out \/ exists p, p ∈ l /\ origin_of p.(tp_control_plane_base_url) = Some o).
  { induction l as [|p l IH]; intros out; cbn [fold_left].
    - split; [by left | intros [H|(p & H & _)]; [done | by apply elem_of_nil in H]].
    - rewrite IH. clear IH. rewrite origin_of_trim. set (P := exists q, q ∈ p :: l /\ _).
      assert (HP : P <-> origin_of p.(tp_control_plane_base_url) = Some o \/ exists q, q ∈ l /\ origin_of q.(tp_control_plane_base_url) = Some o).
      { unfold P. setoid_rewrite elem_of_cons. naive_solver. }
      rewrite HP. clear HP P. case_decide as Hb; [rewrite (origin_of_blank _ Hb); naive_solver|].
      destruct (origin_of _) as [x|] eqn:E; [|naive_solver]. case_decide as Hx; [|rewrite elem_of_app, list_elem_of_singleton]; naive_solver. }
  rewrite G. split; [intros [H|H]; [by apply elem_of_nil in H | done] | by right].
Qed.

(** What the [url] crate documents of the origin of a URL: it is a URL with that origin, with nothing to trim. *)
Definition origin_law : Prop := forall u o, origin_of u = Some o -> origin_of o = Some o /\ trim_end_matches (Z.eqb 47) (trim o) = o.

Definition trusted (e : Env) (c : SavedConfig) (o : str) : Prop :=
  (exists u, bypass_domains_url built_url e = Some u /\ origin_of u = Some o) \/
  exists p, p ∈ c.(c_profiles) /\ origin_of p.(tp_control_plane_base_url) = Some o.

Lemma allowed_iff e c o : origin_law -> o ∈ allowed e c <-> trusted e c o.
Proof.
  intros L. unfold allowed_origins_for_import, build_allowed_origins. rewrite elem_of_elements.
  assert (G : forall l (s : gset str), o ∈ fold_left (fun (s : gset str) o =>
      if decide (trim o = []) then s else match origin_of (trim o) with Some o => {[o]} ∪ s | None => s end) l s <-> o ∈ s \/ exists x, x ∈ l /\ origin_of x = Some o).
  { induction l as [|x l IH]; intros s; cbn [fold_left].
    - split; [by left | intros [H|(x & H & _)]; [done | by apply elem_of_nil in H]].
    - rewrite IH, origin_of_trim. setoid_rewrite elem_of_cons. case_decide as Hb; [pose proof (origin_of_blank _ Hb); naive_solver|].
      destruct (origin_of x) eqn:E; set_solver. }
  rewrite G. unfold trusted. f_equiv.
  - destruct (bypass_domains_url built_url e) as [u|]; [|set_solver]. destruct (origin_of u) eqn:E; set_solver.
  - setoid_rewrite profile_origins_iff. split.
    + intros (x & (p & Hp & Hx) & Ho). exists p. split; [done|]. destruct (L _ _ Hx) as [Hxx _]. congruence.
    + intros (p & Hp & Ho). exists o. split; [by exists p|]. by apply (L _ _ Ho).
Qed.

Lemma validated_trusted e c u o : origin_law -> validate_control_plane_base_url parse_url u (allowed e c) = Ok o -> trusted e c o.
Proof.
  intros L. unfold validate_control_plane_base_url. repeat (case_decide; [done|]). destruct (parse_url _) as [x|]; [|done]. cbn.
  destruct (negb _); [done|]. repeat (case_decide; [done|]). destruct (https_host x) as [[h p]|err|]; cbn; [|done..].
  destruct (existsb _ _) eqn:Ex; [|done]. intros [= <-]. apply existsb_exists in Ex as (y & Hy & Heq). apply list_elem_of_In in Hy. rewrite (allowed_iff e c y L) in Hy.
  assert (exists h' p', y = canonical_origin h' p') as (h' & p' & ->) by (destruct Hy as [(u' & _ & E)|(q & _ & E)]; by apply origin_of_canonical in E).
  unfold eq_ignore_ascii_case in Heq. apply bool_decide_eq_true in Heq. rewrite !canonical_lower in Heq. by rewrite <- Heq.
Qed.

(** ** Lemmas on the import *)

Lemma position_Some {A} (f : A -> bool) l i : position f l = Some i -> exists x, l !! i = Some x /\ f x = true.
Proof.
  revert i. induction l as [|x l IH]; intros i; cbn; [done|]. destruct (f x) eqn:E; [intros [= <-]; by exists x|].
  destruct (position f l) as [k|]; [|done]. intros [= <-]. by apply IH.
Qed.
Lemma position_id l i p : NoDup (tp_id <$> l) -> l !! i = Some p -> position (fun q => bool_decide (q.(tp_id) = p.(tp_id))) l = Some i.
Proof.
  revert i. induction l as [|q l IH]; intros i; [done|]. cbn [fmap list_fmap position]. intros [Hq Hl]%NoDup_cons. destruct i as [|i].
  - intros [= ->]. by rewrite bool_decide_true.
  - intros Hi. change ((q :: l) !! S i) with (l !! i) in Hi. rewrite bool_decide_false; [by rewrite (IH i)|]. intros E. destruct Hq. rewrite E.
    apply list_elem_of_fmap. exists p. split; [done|]. exact (list_elem_of_lookup_2 _ _ _ Hi).
Qed.

Definition redeemed (payload : ImportPayload) (base_url : str) (p : TunnelProfile) : TunnelProfile :=
  import_fields (trim payload.(invite_uri)) payload.(invite_passphrase) (Z.max payload.(instance_id) 0) payload.(config_version)
    (trim_end_matches (Z.eqb 47) (trim base_url)) (import_name payload p.(tp_name)) p.
(** The profiles before the import fills one in, and the place of that one. *)
Definition import_target (now : Z) (c : SavedConfig) (payload : ImportPayload) : SavedConfig :=
  let inst := Z.max payload.(instance_id) 0 in
  match List.find (fun p => bool_decide (p.(tp_control_plane_instance_id) = inst /\ 0 < inst)) c.(c_profiles) with
  | Some p => activate p.(tp_id) c.(c_profiles) c
  | None => let id := new_profile_id now in activate id (c.(c_profiles) ++ [new_import id payload.(display_name) inst TunnelProfile_default]) c
  end.
Abbreviation import := (import_control_plane_payload aead b3 codecs argon2).

Lemma import_Ok now c payload base c' : import now c payload base = Ok c' ->
  exists k q i, let t := import_target now c payload in
    k = default 0%nat (position (fun p => bool_decide (p.(tp_id) = t.(c_active_profile_id))) t.(c_profiles)) /\
    t.(c_profiles) !! k = Some q /\ decode_invite_v1 aead b3 codecs argon2 (trim payload.(invite_uri)) payload.(invite_passphrase) = Ok i /\
    c' = activate t.(c_active_profile_id) (<[k := apply_invite_fields i (redeemed payload base q)]> t.(c_profiles)) c.
Proof.
  unfold import_control_plane_payload. fold (import_target now c payload). unfold change_active.
  intros (q & Hq & (r & Hr & [= <-])%bind_Ok)%bind_Ok. apply context_Ok in Hq. apply bind_Ok in Hr as (i & Hi & [= <-]). apply within_Ok in Hi.
  eexists _, q, i. split; [reflexivity|]. split; [exact Hq|]. split; [exact Hi|]. unfold activate. f_equal;
    unfold import_target; by destruct (List.find _ _).
Qed.

Lemma import_base i payload base q : (apply_invite_fields i (redeemed payload base q)).(tp_control_plane_base_url) = trim_end_matches (Z.eqb 47) (trim base).
Proof. reflexivity. Qed.

Lemma import_trusted e now c payload base c' o : origin_law ->
  import now c payload base = Ok c' -> (exists u, origin_of u = Some base) -> trusted e c' o -> trusted e c o \/ o = base.
Proof.
  intros L (k & q & i & _ & Hq & _ & ->)%import_Ok [u Hu] [H|(p & Hp & Ho)]; [by left; left|]. cbn [c_profiles activate] in Hp.
  apply list_elem_of_lookup in Hp as [n Hn]. destruct (L _ _ Hu) as [Hb Ht].
  apply list_lookup_insert_Some in Hn as [(-> & <- & _)|[_ Hn]]; [right; rewrite import_base, Ht, Hb in Ho; congruence|].
  left. right. unfold import_target in Hn. destruct (List.find _ _); cbn [c_profiles activate] in Hn; [exists p; split; [by eapply list_elem_of_lookup_2 | done]|].
  apply lookup_app_Some in Hn as [Hn|[_ Hn]]; [exists p; split; [by eapply list_elem_of_lookup_2 | done]|].
  apply list_lookup_singleton_Some in Hn as [_ <-]. cbn in Ho. by rewrite origin_of_blank in Ho.
Qed.

Lemma find_first {A} (f : A -> bool) l :
  match List.find f l with
  | Some x => exists n, l !! n = Some x /\ f x = true /\ forall j y, (j < n)%nat -> l !! j = Some y -> f y = false
  | None => forall j y, l !! j = Some y -> f y = false
  end.
Proof.
  induction l as [|x l IH]; cbn; [intros j y; by rewrite lookup_nil|]. destruct (f x) eqn:E; [exists 0%nat; split_and!; [done..|lia]|].
  destruct (List.find f l) as [y|].
  - destruct IH as (n & Hn & Hy & Hj). exists (S n). split_and!; [done..|]. intros [|j] z Hlt; [by intros [= <-]|]. apply Hj. lia.
  - intros [|j] z; [by intros [= <-] | apply IH].
Qed.
Lemma find_at {A} (f : A -> bool) l n x : l !! n = Some x -> f x = true -> (forall j y, (j < n)%nat -> l !! j = Some y -> f y = false) -> List.find f l = Some x.
Proof.
  revert n. induction l as [|z l IH]; intros n; [done|]. destruct n as [|n]; cbn.
  - intros [= ->] ->. done.
  - intros Hn Hx Hj. rewrite (Hj 0%nat z ltac:(lia) eq_refl). apply (IH n Hn Hx). intros j y Hlt. apply (Hj (S j)). lia.
Qed.

Definition has_instance (inst : Z) (p : TunnelProfile) : bool := bool_decide (p.(tp_control_plane_instance_id) = inst /\ 0 < inst).
(** Where the profile is that an import fills in, before it does. *)
Lemma import_place now c payload : NoDup (tp_id <$> c.(c_profiles)) -> new_profile_id now ∉ tp_id <$> c.(c_profiles) ->
  let t := import_target now c payload in let inst := Z.max payload.(instance_id) 0 in
  exists k q, t.(c_profiles) !! k = Some q /\ q.(tp_id) = t.(c_active_profile_id) /\ NoDup (tp_id <$> t.(c_profiles)) /\
    (forall j y, (j < k)%nat -> t.(c_profiles) !! j = Some y -> has_instance inst y = false) /\
    (t.(c_profiles) = c.(c_profiles) /\ has_instance inst q = true \/
     t.(c_profiles) = c.(c_profiles) ++ [q] /\ q = new_import (new_profile_id now) payload.(display_name) inst TunnelProfile_default).
Proof.
  intros Hd Hn t inst. unfold t, import_target. fold inst. pose proof (find_first (has_instance inst) c.(c_profiles)) as F.
  fold (has_instance inst). destruct (List.find _ _) as [p|]; cbn [c_profiles c_active_profile_id activate].
  - destruct F as (k & Hk & Hp & Hj). exists k, p. split_and!; auto.
  - exists (length c.(c_profiles)), (new_import (new_profile_id now) payload.(display_name) inst TunnelProfile_default). split_and!; [by rewrite list_lookup_middle | done | | | by right].
    + rewrite fmap_app. apply NoDup_app. split_and!; [done | | repeat constructor; by intros ?%elem_of_nil].
      intros x Hx ->%list_elem_of_singleton. done.
    + intros j y Hlt Hy. rewrite lookup_app_l in Hy by done. by eapply F.
Qed.

Lemma redeemed_twice i payload base q :
  apply_invite_fields i (redeemed payload base (apply_invite_fields i (redeemed payload base q))) = apply_invite_fields i (redeemed payload base q).
Proof.
  unfold redeemed at 1. change (tp_name (apply_invite_fields i (redeemed payload base q))) with (import_name payload q.(tp_name)).
  assert (import_name payload (import_name payload q.(tp_name)) = import_name payload q.(tp_name)) as -> by (unfold import_name; by repeat case_match).
  reflexivity.
Qed.

(** ** The theorems *)

Record links_ok (e : Env) (T : str -> Prop) (s : ImportState) : Prop := {
  ok_trusted o : trusted e s.(s_cfg) o -> T o;
  ok_pending origin payload : s.(s_pending) = Some (origin, payload) -> T origin /\ exists u, origin_of u = Some origin;
  ok_posts url tok : (url, tok) ∈ s.(s_posts) -> exists o, T o /\ url = o ++ bs "/api/v1/client/import" /\ tok <> [] /\ trim tok = tok;
}.
Abbreviation step := (import_step parse_url urldecode parse_payload built_url aead b3 codecs argon2).

Lemma trusted_origin e c o : trusted e c o -> exists u, origin_of u = Some o.
Proof. intros [(u & _ & H)|(p & _ & H)]; eauto. Qed.

Lemma redeem_posts post base token url tok : (url, tok) ∈ (redeem_import_at_origin parse_payload post base token).1 ->
  url = base ++ bs "/api/v1/client/import" /\ tok <> [] /\ trim tok = tok.
Proof.
  unfold redeem_import_at_origin. case_decide as E; cbn; [by intros ?%elem_of_nil|]. intros [= -> ->]%list_elem_of_singleton. by rewrite trim_idemp.
Qed.

Lemma link_ok e T post raw s : origin_law -> links_ok e T s -> links_ok e T (handle_import_deeplink parse_url urldecode parse_payload built_url e post raw s).1.
Proof.
  intros L [Ht Hp Hl]. unfold handle_import_deeplink. destruct (parse_import_deeplink urldecode raw) as [[token base]|]; [|done].
  unfold redeem_import. destruct (validate_control_plane_base_url _ _ _) as [o|x|] eqn:V; cbn; [| split; cbn; [done..|]; by rewrite app_nil_r..].
  apply (validated_trusted e s.(s_cfg)) in V; [|done]. pose proof (redeem_posts post o token) as R.
  destruct (redeem_import_at_origin parse_payload post o token) as [posts r]. cbn in R.
  assert (N : forall url tok, (url, tok) ∈ s.(s_posts) ++ posts -> exists o, T o /\ url = o ++ bs "/api/v1/client/import" /\ tok <> [] /\ trim tok = tok).
  { intros url tok [H|H]%elem_of_app; [by apply Hl|]. exists o. split; [by apply Ht|]. by apply R. }
  destruct r as [payload|x|]; cbn; (split; cbn; [done | | done]); [|done..]. intros origin pl [= <- <-]. split; [by apply Ht | by eapply trusted_origin].
Qed.

Lemma confirm_ok e T now persists s : origin_law -> links_ok e T s -> links_ok e T (apply_pending_import aead b3 codecs argon2 now persists s).1.
Proof.
  intros L S. unfold apply_pending_import. destruct (s_pending s) as [[origin payload]|] eqn:E; [|done].
  destruct (import _ _ _ _) as [cfg|x|] eqn:I; [|done..]. destruct persists; [|done]. destruct S as [Ht Hp Hl]. destruct (Hp _ _ E) as [HT Hu].
  split; cbn; [|done..]. intros o Ho. destruct (import_trusted e _ _ _ _ _ o L I Hu Ho) as [H| ->]; [by apply Ht | done].
Qed.

(** C23: Whatever links are opened, and whatever the user confirms or cancels, the application sends tokens only to the import address of an origin that
    was trusted from the start, through the list's URL or a saved profile; no link and no import makes another origin trusted;
    and only a confirmed import changes the configuration, to what the import makes of the payload that waits, which is saved. *)
Theorem imports_stay_trusted e s0 s s' :
  origin_law -> s0.(s_pending) = None -> s0.(s_posts) = [] -> rtc (step e) s0 s -> step e s s' ->
  (forall url tok, (url, tok) ∈ s'.(s_posts) -> exists o, o ∈ allowed e s0.(s_cfg) /\ url = o ++ bs "/api/v1/client/import" /\ tok <> []) /\
  (forall o, o ∈ allowed e s'.(s_cfg) -> o ∈ allowed e s0.(s_cfg)) /\
  (s'.(s_cfg) = s.(s_cfg) \/ exists now origin payload, s.(s_pending) = Some (origin, payload) /\
     import now s.(s_cfg) payload origin = Ok s'.(s_cfg) /\ s'.(s_saved) = s.(s_saved) ++ [s'.(s_cfg)]).
Proof.
  intros L Hp Hl Hs Hstep. set (T o := o ∈ allowed e s0.(s_cfg)).
  assert (P : forall x y, step e x y -> links_ok e T x -> links_ok e T y).
  { intros x y []; [by apply link_ok | by apply confirm_ok | by intros [? ? ?]]. }
  assert (S : links_ok e T s).
  { assert (S0 : links_ok e T s0).
    { split; [intros o Ho; by apply allowed_iff | by rewrite Hp | intros ? ?; rewrite Hl; by intros ?%elem_of_nil]. }
    clearbody T. clear -P S0 Hs. induction Hs as [|x y z H _ IH]; [done|]. apply IH. by eapply P. }
  pose proof (P _ _ Hstep S) as [Ht _ Hposts]. split; [|split].
  - intros url tok (o & Ho & Hurl & Htok & _)%Hposts. by exists o.
  - intros o Ho. apply Ht. by apply allowed_iff in Ho.
  - destruct Hstep as [post raw s|now persists s|s]; [left | | by left].
    + unfold handle_import_deeplink. destruct (parse_import_deeplink _ _) as [[token base]|]; [|done]. destruct (redeem_import _ _ _ _ _ _) as [posts r]. by destruct r.
    + unfold apply_pending_import. destruct (s_pending s) as [[origin payload]|] eqn:E; [|by left]. destruct (import _ _ _ _) as [cfg|x|] eqn:I; [|by left..].
      destruct persists; [|by left]. right. eauto 10.
Qed.

(** An import touches one profile: the one that came from the same instance before, or a new one with defaults. It becomes the active one and holds what the
    payload and its invite say, the rest of it as it was; every other profile stays where it is, unchanged; and importing the same
    payload of an instance again changes nothing. *)
Theorem import_fills_one_profile now now' c payload base c' :
  NoDup (tp_id <$> c.(c_profiles)) -> new_profile_id now ∉ tp_id <$> c.(c_profiles) -> import now c payload base = Ok c' ->
  let inst := Z.max payload.(instance_id) 0 in
  exists i q p', decode_invite_v1 aead b3 codecs argon2 (trim payload.(invite_uri)) payload.(invite_passphrase) = Ok i /\
    (q ∈ c.(c_profiles) /\ has_instance inst q = true \/ q = new_import (new_profile_id now) payload.(display_name) inst TunnelProfile_default) /\
    p' = apply_invite_fields i (redeemed payload base q) /\ active_profile c' = Some p' /\
    (forall n p, c.(c_profiles) !! n = Some p -> p.(tp_id) <> p'.(tp_id) -> c'.(c_profiles) !! n = Some p) /\
    (0 < inst -> import now' c' payload base = Ok c').
Proof.
  intros Hd Hn Hi inst. destruct (import_place now c payload Hd Hn) as (k & q & Hk & Hq & Ht & Hj & Hw).
  apply import_Ok in Hi as (k' & q' & i & Hpos & Hk' & Hdec & ->). rewrite <- Hq in Hpos. rewrite (position_id _ _ _ Ht Hk) in Hpos. cbn in Hpos. subst k'.
  rewrite Hk in Hk'. injection Hk' as <-. set (p' := apply_invite_fields i (redeemed payload base q)). set (ps := c_profiles (import_target now c payload)) in *.
  assert (Hlt : (k < length ps)%nat) by (by eapply lookup_lt_Some).
  assert (Hp' : <[k:=p']> ps !! k = Some p') by (by apply list_lookup_insert_eq).
  exists i, q, p'. split_and!; [done | | done | | |].
  - destruct Hw as [[E Hi]|[_ ->]]; [left; split; [rewrite <- E; by eapply list_elem_of_lookup_2 | done] | by right].
  - unfold active_profile. cbn [c_profiles c_active_profile_id activate]. rewrite <- Hq. erewrite find_at; [done | exact Hp' | by rewrite bool_decide_true |].
    intros j y Hj' Hy. rewrite list_lookup_insert_ne in Hy by lia. apply bool_decide_eq_false. intros E.
    pose proof (position_id _ _ _ Ht Hy) as P1. rewrite E in P1. rewrite (position_id _ _ _ Ht Hk) in P1. injection P1. lia.
  - intros n p Hnp Hne. cbn [c_profiles activate]. assert (ps !! n = Some p) as Hps.
    { destruct Hw as [[E _]|[E _]]; rewrite E; [done | by apply lookup_app_l_Some]. }
    destruct (decide (n = k)) as [->|N]; [rewrite Hk in Hps; injection Hps as <-; by destruct Hne|]. by rewrite list_lookup_insert_ne.
  - intros Hpos. assert (Hf : List.find (has_instance inst) (<[k:=p']> ps) = Some p').
    { apply (find_at _ _ k); [done | by apply bool_decide_eq_true | ]. intros j y Hj' Hy. rewrite list_lookup_insert_ne in Hy by lia. by eapply Hj. }
    unfold import_control_plane_payload. fold inst. fold (has_instance inst). cbn [c_profiles activate]. rewrite Hf. unfold change_active. cbn [c_profiles c_active_profile_id activate].
    erewrite position_id; [|
      | exact Hp']. 2: { rewrite list_fmap_insert. change (tp_id p') with (tp_id q). rewrite list_insert_id; [done|]. by rewrite list_lookup_fmap, Hk. }
    cbn [default from_option id]. rewrite Hp'. cbn [context mbind res_bind].
    change (import_fields _ _ _ _ _ _ p') with (redeemed payload base p').
    change (tp_from_invite (redeemed payload base p')) with (trim payload.(invite_uri)).
    change (tp_invite_passphrase (redeemed payload base p')) with payload.(invite_passphrase). rewrite Hdec. cbn [within map_err mbind res_bind].
    assert (apply_invite_fields i (redeemed payload base p') = p') as -> by apply redeemed_twice. rewrite list_insert_insert_eq. unfold activate. cbn. by rewrite Hq.
Qed.
End ImportProofs.

(** ** A control plane *)

Definition host_char (c : Z) : bool := in_rng 97 122 c || in_rng 48 57 c || (c =? 46) || (c =? 45).
Definition strict_url (u : str) : option Url :=
  let h := drop 8 u in
  if starts_with u (bs "https://") && non_empty h && forallb host_char h then
    Some {| scheme := bs "https"; username := []; password := None; host := Some h; port := None; query := None; fragment := None; url_path := bs "/" |}
  else None.

Lemma strict_canonical h : forallb host_char h = true -> canonical_origin h 443 = bs "https://" ++ h.
Proof.
  intros F. unfold canonical_origin. rewrite decide_True by done. f_equal. unfold to_ascii_lowercase. rewrite <- (list_fmap_id h) at 2.
  apply list_fmap_ext. intros k x Hx. rewrite forallb_forall in F. apply list_elem_of_lookup_2, list_elem_of_In, F in Hx.
  unfold host_char, in_rng in Hx. unfold ascii_lower, in_rng. destruct (65 <=? x) eqn:E1, (x <=? 90) eqn:E2; cbn; lia.
Qed.
Lemma strict_origin u o : origin_of strict_url u = Some o -> trim u = o /\ exists h x, o = bs "https://" ++ h ++ [x] /\ host_char x = true.
Proof.
  unfold origin_of, origin_from_service_url. case_decide; [done|]. unfold strict_url. destruct (starts_with (trim u) (bs "https://")) eqn:S; [|done].
  apply starts_with_inv in S as [s ->]. change (drop 8 (bs "https://" ++ s)) with s.
  destruct (non_empty s) eqn:N; [|done]. destruct (forallb host_char s) eqn:F; [|done]. cbn [andb context mbind res_bind].
  unfold https_host. cbn [scheme username password host port negb eq_ignore_ascii_case].
  destruct s as [|c s]; [done|]. rewrite decide_False by (intros [?|[? ?]]; done). cbn -[canonical_origin]. intros [= <-].
  rewrite strict_canonical by done. split; [done|]. destruct (exists_last (l := c :: s)) as (h & x & E); [done|]. rewrite E in *. exists h, x. split; [done|].
  rewrite forallb_app in F. apply andb_true_iff in F as [_ F]. cbn in F. by rewrite andb_true_r in F.
Qed.
Lemma strict_law : origin_law strict_url.
Proof.
  intros u o H. pose proof (strict_origin u o H) as (Ht & h & x & Eo & Hx). split; [rewrite <- Ht, origin_of_trim; congruence|].
  rewrite <- Ht, trim_idemp, Ht, Eo. unfold trim_end_matches. rewrite !rev_app_distr. cbn [rev app drop_while].
  assert ((47 =? x) = false) as -> by (unfold host_char, in_rng in Hx; lia). cbn [rev]. rewrite !rev_app_distr, !rev_involutive. cbn. by rewrite <- app_assoc.
Qed.

Definition sample_payload : ImportPayload :=
  {| invite_uri := sample_uri; invite_passphrase := bs "pass"; instance_id := 7; display_name := bs "alice"; server_name := bs "node1";
     server_public_host := bs "203.0.113.7"; host_port := 443; expires_at := []; config_version := bs "1" |}.
Definition link : str := bs "bibavpn://import?token=t&base_url=https://cp.example".
Definition sample_post : Post := fun _ _ => Some {| status := 200; content_length := None; body := bs "{}"; body_fails := false |}.
Definition before_link : ImportState := {| s_cfg := sample_config; s_pending := None; s_posts := []; s_saved := [] |}.
Definition open_link (s : ImportState) : ImportState * result unit :=
  handle_import_deeplink strict_url Some (fun _ => Some sample_payload) None sample_env sample_post link s.

(** The link is followed to the control plane the application knows, and its import waits. *)
Lemma link_followed : (open_link before_link).2 = Ok tt /\ s_posts (open_link before_link).1 = [(bs "https://cp.example/api/v1/client/import", bs "t")] /\
  s_cfg (open_link before_link).1 = sample_config.
Proof. vm_compute. auto. Qed.

Lemma imports_stay_trusted_witness :
  let s := (open_link before_link).1 in let url := bs "https://cp.example/api/v1/client/import" in
  s_posts s = [(url, bs "t")] /\
  exists o, o ∈ allowed_origins_for_import strict_url None sample_env sample_config /\ url = o ++ bs "/api/v1/client/import" /\ bs "t" <> [].
Proof.
  intros s url. assert (P : s_posts s = [(url, bs "t")]) by apply link_followed. split; [exact P|].
  destruct (imports_stay_trusted strict_url Some (fun _ => Some sample_payload) None plain_aead zero_blake3 sample_codecs sample_kdf sample_env
    before_link before_link s strict_law) as [H _]; [reflexivity | reflexivity | apply rtc_refl | apply Link |].
  apply (H url (bs "t")). rewrite P. constructor.
Defined.

Lemma import_fills_one_profile_witness :
  exists c', import_control_plane_payload plain_aead zero_blake3 sample_codecs sample_kdf 5 sample_config sample_payload (bs "https://cp.example") = Ok c' /\
    import_control_plane_payload plain_aead zero_blake3 sample_codecs sample_kdf 6 c' sample_payload (bs "https://cp.example") = Ok c'.
Proof.
  assert (K : is_ok (import_control_plane_payload plain_aead zero_blake3 sample_codecs sample_kdf 5 sample_config sample_payload (bs "https://cp.example")) = true)
    by (vm_compute; reflexivity).
  destruct (import_control_plane_payload plain_aead zero_blake3 sample_codecs sample_kdf 5 sample_config sample_payload (bs "https://cp.example")) as [c'|e|] eqn:E;
    [| discriminate K | discriminate K].
  exists c'. split; [reflexivity|].
  destruct (import_fills_one_profile plain_aead zero_blake3 sample_codecs sample_kdf 5 6 sample_config sample_payload (bs "https://cp.example") c')
    as (i & q & p' & _ & _ & _ & _ & _ & H); [| | exact E | apply H; reflexivity].
  - repeat constructor. apply not_elem_of_nil.
  - intros F. apply list_elem_of_singleton in F. discriminate F.
Defined.
