(* ===== verification/ProxyLists.v ===== *)
(** What the proxy settings of the three desktops share ([proxy_linux.rs], [proxy_mac.rs], [proxy_win.rs] of [apps/bibavpn-desktop]): lists of hosts without
    doubles, the names of the loopback, the application's own address, and lemmas on trimmed texts. *)
From S2P Require Import Prelude Text HttpConnect Incoming Metrics.

(** [hosts.iter().any(|x| x.eq_ignore_ascii_case(h))], and the loops that append what is not listed yet. *)
Definition listed (h : str) (hosts : list str) : bool := existsb (fun x => eq_ignore_ascii_case x h) hosts.
Definition push_required (hosts : list str) (h : str) : list str := if listed h hosts then hosts else hosts ++ [h].
Definition push_some (hosts : list str) (h : str) : list str := match h with [] => hosts | _ => push_required hosts h end.

(** What the application listens on. *)
Definition local_proxy (port : Z) : str := bs "127.0.0.1:" ++ show_dec port.

(** Closes a fact about the characters of a literal. *)
Ltac literal := apply (bool_decide_unpack _); by vm_compute.

Lemma push_grows {A} (f : list A -> A -> list A) l acc : (forall acc x, exists r, f acc x = acc ++ r) -> exists r, fold_left f l acc = acc ++ r.
Proof.
  intros Hf. revert acc. induction l as [|x l IH]; intros acc; cbn; [exists []; by rewrite app_nil_r|].
  destruct (Hf acc x) as [r ->]. destruct (IH (acc ++ r)) as [r' ->]. exists (r ++ r'). by rewrite app_assoc.
Qed.
Lemma listed_app x a b : listed x a = true -> listed x (a ++ b) = true.
Proof. unfold listed. rewrite existsb_app. by intros ->. Qed.
Lemma listed_self x : listed x [x] = true.
Proof. unfold listed, eq_ignore_ascii_case. cbn. by rewrite bool_decide_true. Qed.
Lemma listed_elem x l : x ∈ l -> listed x l = true.
Proof.
  intros [l1 [l2 ->]]%list_elem_of_split. unfold listed. rewrite existsb_app. apply orb_true_iff. right. cbn. unfold eq_ignore_ascii_case. by rewrite bool_decide_true.
Qed.
Lemma push_required_grows acc x : exists r, push_required acc x = acc ++ r.
Proof. unfold push_required. case_match; [exists []; by rewrite app_nil_r | by eexists]. Qed.
Lemma push_some_grows acc x : exists r, push_some acc x = acc ++ r.
Proof. destruct x; [exists []; by rewrite app_nil_r | apply push_required_grows]. Qed.
Lemma push_required_listed acc x : listed x (push_required acc x) = true.
Proof.
  unfold push_required. destruct (listed x acc) eqn:E; [done|]. unfold listed. rewrite existsb_app. apply orb_true_iff. right. apply listed_self.
Qed.
(** Whatever is pushed is listed in the end. *)
Lemma pushed_listed (f : list str -> str -> list str) l acc x :
  (forall acc x, exists r, f acc x = acc ++ r) -> (forall acc, listed x (f acc x) = true) -> x ∈ l -> listed x (fold_left f l acc) = true.
Proof.
  intros G L. revert acc. induction l as [|y l IH]; intros acc; [by intros ?%elem_of_nil|]. intros [->|Hx]%elem_of_cons; cbn; [|by apply IH].
  destruct (push_grows f l (f acc y) G) as [r ->]. apply listed_app, L.
Qed.
Lemma required_listed l acc x : x ∈ l -> listed x (fold_left push_required l acc) = true.
Proof. apply pushed_listed; [apply push_required_grows | intros; apply push_required_listed]. Qed.

Lemma local_proxy_clean p : graphic (local_proxy p) /\ without 59 (local_proxy p).
Proof.
  pose proof (show_dec_digits p) as D. unfold graphic, without, local_proxy. rewrite !Forall_app. split; (split; [literal|]);
    (eapply Forall_impl; [exact D|]); intros c [? ?]%in_rng_iff; lia.
Qed.
Lemma local_proxy_split p : rsplit_once 58 (local_proxy p) = Some (bs "127.0.0.1", show_dec p).
Proof. change (local_proxy p) with (bs "127.0.0.1" ++ 58 :: show_dec p). apply rsplit_once_app, digits_graphic, show_dec_digits. Qed.

(** ** Trimming what begins and ends with a visible character *)

Lemma ws_len_tail x y d : 33 <= d <= 126 -> ws_len [x; y; d] <> 3%nat /\ ws_len [y; d] <> 2%nat.
Proof.
  intros Hd. unfold ws_len. split; repeat case_match; try done; repeat match goal with H : (_ =? _) = true |- _ => apply Z.eqb_eq in H end;
    repeat match goal with H : (_ && _) = true |- _ => apply andb_true_iff in H as [? ?] | H : (_ || _) = true |- _ => apply orb_true_iff in H as [?|?]
      | H : in_rng _ _ _ = true |- _ => apply in_rng_iff in H | H : (_ =? _) = true |- _ => apply Z.eqb_eq in H end; lia.
Qed.
Lemma ws_len_end_visible s d : last s = Some d -> 33 <= d <= 126 -> ws_len_end s = 0%nat.
Proof.
  intros [r ->]%last_Some Hd. unfold ws_len_end. rewrite length_app. cbn [length]. replace (length r + 1 - 1)%nat with (length r) by lia.
  rewrite drop_app_length, ws_len_graphic by done. cbn [Nat.eqb].
  destruct (decide (r = [])) as [->|[r1 [y ->]]%exists_last]; [done|]. rewrite length_app. cbn [length].
  rewrite <- app_assoc. replace (length r1 + 1 + 1 - 2)%nat with (length r1) by lia. rewrite drop_app_length. cbn [app].
  destruct (ws_len_tail y y d Hd) as [_ H2]. rewrite (proj2 (Nat.eqb_neq _ 2) H2), andb_false_r.
  destruct (decide (r1 = [])) as [->|[r2 [x ->]]%exists_last]; [done|]. rewrite length_app. cbn [length].
  rewrite <- app_assoc. replace (length r2 + 1 + 1 + 1 - 3)%nat with (length r2) by lia. rewrite drop_app_length. cbn [app].
  destruct (ws_len_tail x y d Hd) as [H3 _]. by rewrite (proj2 (Nat.eqb_neq _ 3) H3), andb_false_r.
Qed.

(** A text whose first and last characters are visible. *)
Definition solid (s : str) : Prop := (exists c, head s = Some c /\ 33 <= c <= 126) /\ exists d, last s = Some d /\ 33 <= d <= 126.
Lemma trim_end_solid s : solid s -> trim_end s = s.
Proof.
  intros [_ (d & Hd & Hr)]. unfold trim_end. destruct (length s) eqn:E; [done|]. cbn [trim_end_fuel]. by rewrite (ws_len_end_visible s d).
Qed.
Lemma trim_solid s : solid s -> trim s = s.
Proof.
  intros Hs. pose proof Hs as [(c & Hc & Hr) _]. unfold trim, trim_start. destruct s as [|x s]; [done|]. injection Hc as <-. cbn [length trim_start_fuel].
  rewrite ws_len_graphic by done. by apply trim_end_solid.
Qed.
Lemma trim_padded w s : w = 10 \/ w = 32 -> solid s -> trim (s ++ [w]) = s.
Proof.
  intros Hw Hs. pose proof Hs as [(c & Hc & Hr) _]. unfold trim, trim_start. destruct s as [|x s]; [done|]. injection Hc as <-. cbn [app length trim_start_fuel].
  rewrite ws_len_graphic by done. rewrite app_comm_cons. unfold trim_end. rewrite length_app, Nat.add_comm. cbn [length trim_end_fuel Nat.add].
  assert (E : ws_len_end ((x :: s) ++ [w]) = 1%nat).
  { unfold ws_len_end. rewrite length_app. cbn [length]. replace (S (length s) + 1 - 1)%nat with (length (x :: s)) by (cbn; lia). rewrite drop_app_length. by destruct Hw as [->| ->]. }
  rewrite E. rewrite length_app. cbn [length]. replace (S (length s) + 1 - 1)%nat with (length (x :: s)) by (cbn; lia). rewrite take_app_length. by apply (trim_end_solid (x :: s)).
Qed.
(** A line a command prints, without its end. *)
Lemma trim_line s : solid s -> trim (s ++ [10]) = s.
Proof. apply trim_padded. by left. Qed.
Lemma solid_ends c m d : 33 <= c <= 126 -> 33 <= d <= 126 -> solid (c :: m ++ [d]).
Proof. intros Hc Hd. split; [by exists c|]. exists d. split; [|done]. rewrite app_comm_cons. by rewrite last_snoc. Qed.
Lemma graphic_solid s : s <> [] -> graphic s -> solid s.
Proof.
  intros Hn Hg. unfold graphic in Hg. rewrite Forall_forall in Hg. split.
  - destruct s as [|c s]; [done|]. exists c. split; [done|]. apply Hg. constructor.
  - destruct (last s) as [d|] eqn:E; [|by apply last_None in E]. exists d. split; [done|]. apply Hg. by apply last_Some_elem_of.
Qed.
Lemma trim_space s : solid s -> trim (32 :: s) = s.
Proof.
  intros Hs. pose proof Hs as [(c & Hc & Hr) _]. unfold trim, trim_start. destruct s as [|x s]; [done|]. injection Hc as <-.
  change (trim_start_fuel (length (32 :: x :: s)) (32 :: x :: s)) with (trim_start_fuel (S (length s)) (x :: s)). cbn [trim_start_fuel].
  rewrite ws_len_graphic by done. by apply trim_end_solid.
Qed.

(** ** Lines *)

Lemma split_line acc a r : without 10 a -> without 13 a -> without 13 acc -> split_lines acc (a ++ 10 :: r) = (rev acc ++ a) :: split_lines [] r.
Proof.
  intros H1 H2 H3. revert acc H3. induction a as [|x a IH]; intros acc H3; cbn [app split_lines].
  - change (10 =? 10) with true. cbn iota. f_equal. rewrite app_nil_r. destruct acc as [|y t]; [done|]. apply Forall_cons in H3 as [Hy _].
    destruct y as [|p|p]; try done. repeat (destruct p as [p|p|]; try done).
  - apply Forall_cons in H1 as [Hx H1]. apply Forall_cons in H2 as [Hx' H2]. rewrite (proj2 (Z.eqb_neq x 10) Hx). rewrite IH; [|done|done|by constructor].
    cbn [rev]. by rewrite <- app_assoc.
Qed.
Lemma split_line_list l : Forall (fun a => without 10 a /\ without 13 a) l -> lines (concat ((fun a => a ++ [10]) <$> l)) = l.
Proof.
  unfold lines. induction 1 as [|a l [H1 H2] _ IH]; [done|]. cbn [fmap list_fmap concat]. rewrite <- app_assoc. cbn [app].
  rewrite split_line by (done || constructor). cbn [rev app]. f_equal. apply IH.
Qed.
