(* ===== verification/ProxyWin.v ===== *)
(** The proxy settings of Windows ([proxy_win.rs] of [apps/bibavpn-desktop]): what is written to the registry while the tunnel is up, and how it is
    taken back. The registry key is a map of values; which of the system's calls fail is a script. *)
From S2P Require Import Prelude Text Incoming HttpConnect Invite ProxyLists.

(** ** The registry *)

Inductive RegValue := Dword (n : Z) | Sz (s : str).
(** [registry] is [None] while the key does not exist. Every call that opens, writes or notifies takes one answer of [script]; past its end they succeed. *)
Record Machine := { registry : option (gmap string RegValue); script : list bool }.
Abbreviation Win := (ST Machine err).

Definition permitted : Win bool := fun w =>
  match w.(script) with
  | [] => (w, Ok true)
  | b :: s => ({| registry := w.(registry); script := s |}, Ok b)
  end.
Definition registry_values (w : Machine) : gmap string RegValue := default ∅ w.(registry).
Definition set_registry (r : gmap string RegValue) (w : Machine) : Machine := {| registry := Some r; script := w.(script) |}.

Definition internet_settings_key (write : bool) : Win unit :=
  ok ← permitted;
  if negb (ok : bool) then throw "access denied"%string
  else if write then modify (fun w => set_registry (registry_values w) w)
  else o ← gets registry; match o with Some _ => mret tt | None => throw "not found"%string end.

(** [get_value(..).unwrap_or(..)]: also the default when the value has another type. *)
Definition get_dword (name : string) : Win Z :=
  r ← gets registry_values; mret (match r !! name with Some (Dword n) => n | _ => 0 end).
Definition get_sz (name : string) : Win str :=
  r ← gets registry_values; mret (match r !! name with Some (Sz s) => s | _ => [] end).
Definition set_value (name : string) (v : RegValue) : Win unit :=
  ok ← permitted; if ok : bool then modify (fun w => set_registry (<[name := v]> (registry_values w)) w) else throw name.
(** [let _ = key.delete_value(..)]. *)
Definition delete_value (name : string) : Win unit :=
  ok ← permitted; if ok : bool then modify (fun w => set_registry (delete name (registry_values w)) w) else mret tt.
Definition notify_changed : Win unit := ok ← permitted; if ok : bool then mret tt else throw "InternetSetOptionW"%string.

(** ** The snapshot *)

Record ProxyBackup := { enable : Z; server : option str; override_val : option str; auto_detect : Z; auto_config_url : option str }.

Definition none_if_empty (s : str) : option str := match s with [] => None | _ => Some s end.
Definition read_backup : Win ProxyBackup :=
  _ ← internet_settings_key false;
  enable ← get_dword "ProxyEnable";
  server ← get_sz "ProxyServer";
  override_val ← get_sz "ProxyOverride";
  auto_detect ← get_dword "AutoDetect";
  auto_config_raw ← get_sz "AutoConfigURL";
  mret {| enable := enable; server := none_if_empty server; override_val := none_if_empty override_val; auto_detect := auto_detect;
          auto_config_url := none_if_empty auto_config_raw |}.

(** ** [ProxyOverride] *)

Definition MAX_PROXY_OVERRIDE_LEN : Z := 2048.
Definition REQUIRED_OVERRIDE : list str := bs <$>
  ["<-loopback>"; "<local>"; "localhost"; "127.0.0.1"; "10.*"; "192.168.*"; "169.254.*"; "100.*"; "172.16.*"; "172.17.*"; "172.18.*"; "172.19.*";
   "172.20.*"; "172.21.*"; "172.22.*"; "172.23.*"; "172.24.*"; "172.25.*"; "172.26.*"; "172.27.*"; "172.28.*"; "172.29.*"; "172.30.*"; "172.31.*";
   "tauri.localhost"; "steamloopback.host"; "*.steamloopback.host"; "client-update.steamstatic.com"; "client-update.akamai.steamstatic.com";
   "client-update.fastly.steamstatic.com"]%string.

(** The loops over raw entries: what is not blank and not listed yet, in any case, is appended. *)
Definition push_part (parts : list str) (raw : str) : list str :=
  push_some parts (trim raw).

Definition sizes (parts : list str) : Z := foldr (fun p n => len p + 1 + n) 0 parts.
(** The loop that pops optional entries: [extras] in reverse, the last one first. *)
Fixpoint drop_extras (extras : list str) (total : Z) : list str :=
  match extras with
  | [] => []
  | e :: r => if decide (MAX_PROXY_OVERRIDE_LEN < total) then drop_extras r (sat_sub total (len e + 1)) else e :: r
  end.
(** [is_char_boundary], and the loop that steps back to one. *)
Definition is_char_boundary (s : str) (i : nat) : bool := match s !! i with Some c => negb (is_cont c) | None => (i =? length s)%nat end.
Fixpoint boundary (s : str) (i : nat) : nat :=
  match i with O => O | S j => if is_char_boundary s i then i else boundary s j end.
Definition trim_proxy_override (parts : list str) (protected : nat) : str :=
  let parts := take protected parts ++ rev (drop_extras (rev (drop protected parts)) (sizes parts)) in
  let joined := join [59] parts in
  if decide (len joined <= MAX_PROXY_OVERRIDE_LEN) then joined
  else
    let cut := take (boundary joined (Z.to_nat MAX_PROXY_OVERRIDE_LEN)) joined in
    match rsplit_once 59 cut with Some (before, _) => if decide (before = []) then cut else before | None => cut end.
(** The entries before the profile's domains: what was there, and the required ones. *)
Definition protected_parts (existing : option str) : list str :=
  fold_left push_required REQUIRED_OVERRIDE (match existing with Some e => fold_left push_part (split_char 59 [] e) [] | None => [] end).
Definition merge_proxy_override (existing : option str) (split_tunnel_hosts : list str) : str :=
  let parts := protected_parts existing in
  trim_proxy_override (fold_left push_part split_tunnel_hosts parts) (length parts).

(** ** Ours *)

Definition is_loopback_name (host : str) : bool := let h := to_ascii_lowercase (trim host) in bool_decide (h = bs "127.0.0.1" \/ h = bs "localhost").
(** [http=HOST:PORT;https=HOST:PORT] of a loopback host. *)
Definition is_biba_manual_proxy (proxy_server : str) : bool :=
  match List.filter (fun s => negb (bool_decide (s = []))) (trim <$> split_char 59 [] proxy_server) with
  | [a; b] =>
    match strip_prefix (bs "http=") a, strip_prefix (bs "https=") b with
    | Some http_hp, Some https_hp =>
      let http_hp := trim http_hp in
      if negb (bool_decide (http_hp = trim https_hp)) then false else
      match rsplit_once 58 http_hp with
      | Some (host, port) => match parse_uint U16_MAX port with Some _ => is_loopback_name host | None => false end
      | None => false
      end
    | _, _ => false
    end
  | _ => false
  end.

(** ** The operations *)

Definition disable_if_residual_biba_proxy : Win unit :=
  _ ← internet_settings_key false;
  enable ← get_dword "ProxyEnable";
  if decide (enable = 0) then mret tt else
  server ← get_sz "ProxyServer";
  if negb (is_biba_manual_proxy server) then mret tt else
  _ ← internet_settings_key true;
  _ ← set_value "ProxyEnable" (Dword 0);
  _ ← delete_value "ProxyServer";
  notify_changed.

(** A string that is set, or a value that is removed when there is none. *)
Definition put_back (name : string) (v : option str) : Win unit :=
  match v with Some (c :: s) => set_value name (Sz (c :: s)) | _ => delete_value name end.
Definition write_backup (backup : ProxyBackup) (restore_manual restore_pac : bool) : Win unit :=
  _ ← internet_settings_key true;
  _ ← (if restore_manual then
         _ ← set_value "ProxyEnable" (Dword backup.(enable));
         _ ← put_back "ProxyServer" backup.(server);
         put_back "ProxyOverride" backup.(override_val)
       else mret tt);
  _ ← (if restore_pac then
         _ ← set_value "AutoDetect" (Dword backup.(auto_detect));
         put_back "AutoConfigURL" backup.(auto_config_url)
       else mret tt);
  notify_changed.

Definition proxy_server_of (http_host_port : str) : str := bs "http=" ++ http_host_port ++ bs ";https=" ++ http_host_port.
Definition apply_proxy_inner (http_host_port : str) (prior_proxy_override : option str) (split_tunnel_hosts : list str) : Win unit :=
  _ ← internet_settings_key true;
  _ ← set_value "AutoDetect" (Dword 0);
  _ ← delete_value "AutoConfigURL";
  _ ← set_value "ProxyEnable" (Dword 1);
  _ ← set_value "ProxyServer" (Sz (proxy_server_of http_host_port));
  _ ← set_value "ProxyOverride" (Sz (merge_proxy_override prior_proxy_override split_tunnel_hosts));
  notify_changed.
(** An error of [m] is undone; an error of the undoing is added to its text. *)
Definition or_undo (m undo : Win unit) : Win unit := fun w =>
  match m w with
  | (w, Err e) =>
    match undo w with
    | (w, Ok _) => (w, Err e)
    | (w, Err re) => (w, Err (e ++ "; rollback: " ++ re)%string)
    | (w, Panic) => (w, Panic)
    end
  | r => r
  end.
Definition apply_proxy (http_host_port : str) (prior_proxy_override : option str) (split_tunnel_hosts : list str) : Win unit :=
  snapshot ← read_backup;
  let prior := match prior_proxy_override with Some p => Some p | None => snapshot.(override_val) end in
  or_undo (apply_proxy_inner http_host_port prior split_tunnel_hosts) (write_backup snapshot true true).

(** What is still the application's or as it was is put back; what the user has set in the meantime stays. *)
Definition restore_manual (backup current : ProxyBackup) : bool :=
  negb (bool_decide (current.(enable) = 0)) && match current.(server) with Some s => is_biba_manual_proxy s | None => false end ||
  bool_decide (current.(enable) = backup.(enable) /\ current.(server) = backup.(server) /\ current.(override_val) = backup.(override_val)).
Definition restore_pac (backup current : ProxyBackup) : bool :=
  bool_decide (current.(auto_detect) = 0 /\ current.(auto_config_url) = None) ||
  bool_decide (current.(auto_detect) = backup.(auto_detect) /\ current.(auto_config_url) = backup.(auto_config_url)).
Definition restore (backup : ProxyBackup) : Win unit :=
  current ← read_backup;
  let manual := restore_manual backup current in
  let pac := restore_pac backup current in
  if negb manual && negb pac then mret tt else write_backup backup manual pac.

(** ** What a snapshot sees *)

Definition dword (r : gmap string RegValue) (name : string) : Z := match r !! name with Some (Dword n) => n | _ => 0 end.
Definition sz (r : gmap string RegValue) (name : string) : option str := none_if_empty (match r !! name with Some (Sz s) => s | _ => [] end).
Definition snapshot (r : gmap string RegValue) : ProxyBackup :=
  {| enable := dword r "ProxyEnable"; server := sz r "ProxyServer"; override_val := sz r "ProxyOverride"; auto_detect := dword r "AutoDetect";
     auto_config_url := sz r "AutoConfigURL" |}.
Definition proxy_names : list string := ["ProxyEnable"; "ProxyServer"; "ProxyOverride"; "AutoDetect"; "AutoConfigURL"]%string.
(** The same settings, a missing value being its default; and every other value of the key the same. *)
Definition same_settings (r r' : gmap string RegValue) : Prop :=
  snapshot r' = snapshot r /\ forall name, name ∉ proxy_names -> r' !! name = r !! name.

#[global] Instance same_settings_equiv : Equivalence same_settings.
Proof.
  split; [by split | intros r r' [H1 H2]; split; [done | intros; symmetry; by apply H2] |].
  intros r1 r2 r3 [H1 H2] [H3 H4]. split; [congruence|]. intros x Hx. rewrite H4 by done. by apply H2.
Qed.

Definition running (r : gmap string RegValue) (s : list bool) : Machine := {| registry := Some r; script := s |}.

(** What [put_back] makes of the map. *)
Definition put (name : string) (v : option str) (r : gmap string RegValue) : gmap string RegValue :=
  match v with Some (c :: s) => <[name := Sz (c :: s)]> r | _ => delete name r end.
Definition written (b : ProxyBackup) (manual pac : bool) (r : gmap string RegValue) : gmap string RegValue :=
  let r := if manual then put "ProxyOverride" b.(override_val) (put "ProxyServer" b.(server) (<["ProxyEnable" := Dword b.(enable)]> r)) else r in
  if pac then put "AutoConfigURL" b.(auto_config_url) (<["AutoDetect" := Dword b.(auto_detect)]> r) else r.

Lemma write_backup_runs b manual pac r : write_backup b manual pac (running r []) = (running (written b manual pac r) [], Ok tt).
Proof. destruct b as [e sv o d u]. by destruct manual, pac, sv as [[]|], o as [[]|], u as [[]|]. Qed.

Lemma read_runs r s : read_backup (running r (true :: s)) = (running r s, Ok (snapshot r)).
Proof. done. Qed.
Lemma read_all_runs r : read_backup (running r []) = (running r [], Ok (snapshot r)).
Proof. done. Qed.
Lemma restore_runs b r :
  restore b (running r []) = (running (written b (restore_manual b (snapshot r)) (restore_pac b (snapshot r)) r) [], Ok tt).
Proof.
  unfold restore, mbind, st_bind. rewrite read_all_runs. cbv zeta. destruct (restore_manual _ _), (restore_pac _ _); cbn [negb andb]; rewrite ?write_backup_runs; done.
Qed.

Definition snapshot_like (b : ProxyBackup) : Prop := b.(server) <> Some [] /\ b.(override_val) <> Some [] /\ b.(auto_config_url) <> Some [].
Lemma snapshot_shape r : snapshot_like (snapshot r).
Proof. unfold snapshot_like, snapshot, sz, none_if_empty. cbn. by split_and!; case_match. Qed.
Lemma put_ne name name' v r : name <> name' -> put name v r !! name' = r !! name'.
Proof. intros H. unfold put. by destruct v as [[|c s]|]; simplify_map_eq. Qed.
Lemma put_eq name v r : v <> Some [] -> put name v r !! name = Sz <$> v.
Proof. intros H. unfold put. by destruct v as [[|c s]|]; simplify_map_eq. Qed.
Lemma sz_read v : v <> Some [] -> none_if_empty (match Sz <$> v with Some (Sz s) => s | _ => [] end) = v.
Proof. by destruct v as [[|c s]|]. Qed.

(** Looks values up through writes. *)
Ltac reads :=
  repeat first [rewrite put_ne by done | rewrite put_eq by done | rewrite lookup_insert_ne by done | rewrite lookup_insert_eq |
                rewrite lookup_delete_ne by done | rewrite lookup_delete_eq]; rewrite ?sz_read by done; try done.

(** A write of a snapshot leaves the chosen half of it, the other half as it was, and every other value alone. *)
Lemma written_snapshot b manual pac r : snapshot_like b ->
  snapshot (written b manual pac r) =
    {| enable := if manual then b.(enable) else dword r "ProxyEnable"; server := if manual then b.(server) else sz r "ProxyServer";
       override_val := if manual then b.(override_val) else sz r "ProxyOverride";
       auto_detect := if pac then b.(auto_detect) else dword r "AutoDetect";
       auto_config_url := if pac then b.(auto_config_url) else sz r "AutoConfigURL" |}.
Proof. intros (H1 & H2 & H3). unfold snapshot, written, dword, sz. destruct manual, pac; f_equal; reads. Qed.
Lemma written_others b manual pac r name : name ∉ proxy_names -> written b manual pac r !! name = r !! name.
Proof.
  unfold proxy_names. rewrite !not_elem_of_cons. intros (? & ? & ? & ? & ? & _). unfold written. destruct manual, pac; reads.
Qed.

(** ** [ProxyOverride] *)

Lemma sizes_cons x l : sizes (x :: l) = len x + 1 + sizes l.
Proof. done. Qed.
Lemma sizes_join parts : parts <> [] -> len (join [59] parts) + 1 = sizes parts.
Proof.
  induction parts as [|x l IH]; [done|]. intros _. rewrite sizes_cons. destruct l as [|y l]; [cbn; lia|].
  rewrite <- IH by done. change (join [59] (x :: y :: l)) with (x ++ [59] ++ join [59] (y :: l)). rewrite !len_app, len_1. lia.
Qed.
Lemma sizes_app a b : sizes (a ++ b) = sizes a + sizes b.
Proof. unfold sizes. induction a as [|x a IH]; [done|]. cbn [app foldr]. rewrite IH. lia. Qed.
Lemma sizes_rev l : sizes (rev l) = sizes l.
Proof. induction l as [|x l IH]; [done|]. cbn [rev]. rewrite sizes_app, IH, !sizes_cons. change (sizes []) with 0. lia. Qed.
Lemma sizes_nonneg a : 0 <= sizes a.
Proof. unfold sizes. induction a as [|x a IH]; cbn; [done|]. pose proof (len_nonneg x). lia. Qed.

(** Enough is dropped when the protected part leaves room. *)
Lemma drop_extras_fits p extras : sizes p <= MAX_PROXY_OVERRIDE_LEN ->
  let kept := drop_extras extras (sizes p + sizes extras) in sizes p + sizes kept <= MAX_PROXY_OVERRIDE_LEN /\ exists gone, extras = gone ++ kept.
Proof.
  intros Hp. induction extras as [|e l IH]; cbn [drop_extras]; cbv zeta.
  { change (sizes []) with 0. split; [lia | by exists []]. }
  pose proof (sizes_nonneg l). pose proof (sizes_nonneg p). pose proof (len_nonneg e). rewrite sizes_cons. case_decide as E; [|split; [rewrite sizes_cons; lia | by exists []]].
  replace (sat_sub _ _) with (sizes p + sizes l) by (unfold sat_sub; lia). cbv zeta in IH. destruct IH as [IH1 [gone IH2]]. split; [done|]. exists (e :: gone). by rewrite IH2 at 1.
Qed.

Lemma boundary_le s i : (boundary s i <= i)%nat.
Proof. induction i as [|i IH]; cbn [boundary]; [done|]. case_match; lia. Qed.
Lemma rsplit_once_shorter c s a b : rsplit_once c s = Some (a, b) -> len a <= len s.
Proof. unfold rsplit_once. case_match; [|done]. intros [= <- <-]. unfold len. rewrite length_take. lia. Qed.

(** The override is never longer than what WinInet takes; and when what was there and the required entries fit, these are all in it, with as many
    of the profile's domains, from the first on, as fit. *)
Lemma trim_bounded parts protected : len (trim_proxy_override parts protected) <= MAX_PROXY_OVERRIDE_LEN.
Proof.
  unfold trim_proxy_override. set (joined := join _ _). case_decide as E; [done|]. pose proof (boundary_le joined (Z.to_nat MAX_PROXY_OVERRIDE_LEN)) as B.
  assert (C : len (take (boundary joined (Z.to_nat MAX_PROXY_OVERRIDE_LEN)) joined) <= MAX_PROXY_OVERRIDE_LEN).
  { unfold len. rewrite length_take. unfold MAX_PROXY_OVERRIDE_LEN in *. lia. }
  set (cut := take (boundary _ _) joined) in *. destruct (rsplit_once 59 cut) as [[a b]|] eqn:R; [|done]. apply rsplit_once_shorter in R. case_decide; lia.
Qed.
Lemma trim_keeps p extras : p <> [] -> sizes p <= MAX_PROXY_OVERRIDE_LEN ->
  exists kept gone, extras = kept ++ gone /\ trim_proxy_override (p ++ extras) (length p) = join [59] (p ++ kept).
Proof.
  intros Hp Hf. unfold trim_proxy_override. rewrite take_app_length, drop_app_length, sizes_app.
  rewrite <- (sizes_rev extras). destruct (drop_extras_fits p (rev extras) Hf) as [H [gone Hg]]. cbv zeta in H. set (kept := drop_extras _ _) in *.
  exists (rev kept), (rev gone). split; [by rewrite <- rev_app_distr, <- Hg, rev_involutive|].
  rewrite decide_True; [done|]. pose proof (sizes_join (p ++ rev kept)) as J. rewrite sizes_app, sizes_rev in J. assert (p ++ rev kept <> []) by (by destruct p). specialize (J H0). lia.
Qed.

Lemma push_part_grows acc x : exists r, push_part acc x = acc ++ r.
Proof. apply push_some_grows. Qed.
Lemma required_protected existing x : x ∈ REQUIRED_OVERRIDE -> listed x (protected_parts existing) = true.
Proof. apply required_listed. Qed.
Lemma local_required : bs "<local>" ∈ REQUIRED_OVERRIDE.
Proof. unfold REQUIRED_OVERRIDE. by do 2 constructor. Qed.
Lemma protected_some existing : protected_parts existing <> [].
Proof. intros E. pose proof (required_protected existing _ local_required) as L. rewrite E in L. discriminate L. Qed.
Lemma extras_kept p hosts : p <> [] -> sizes p <= MAX_PROXY_OVERRIDE_LEN ->
  exists kept, trim_proxy_override (fold_left push_part hosts p) (length p) = join [59] (p ++ kept).
Proof.
  intros Hp H. destruct (push_grows push_part hosts p push_part_grows) as [r ->]. destruct (trim_keeps p r Hp H) as (kept & gone & _ & ->). by exists kept.
Qed.
Lemma merge_keeps existing hosts : sizes (protected_parts existing) <= MAX_PROXY_OVERRIDE_LEN ->
  exists kept, merge_proxy_override existing hosts = join [59] (protected_parts existing ++ kept).
Proof. unfold merge_proxy_override. cbv zeta. apply (extras_kept (protected_parts existing)), protected_some. Qed.

(** ** The application's own value *)

Lemma own_proxy_known p : is_u16 p -> is_biba_manual_proxy (proxy_server_of (local_proxy p)) = true.
Proof.
  intros Hp. destruct (local_proxy_clean p) as [G W].
  assert (T : forall q, graphic q -> trim (q ++ local_proxy p) = q ++ local_proxy p) by (intros q Hq; apply trim_graphic; unfold graphic; by rewrite Forall_app).
  assert (P : split_char 59 [] (proxy_server_of (local_proxy p)) = [bs "http=" ++ local_proxy p; bs "https=" ++ local_proxy p]).
  { change (proxy_server_of (local_proxy p)) with (join [59] [bs "http=" ++ local_proxy p; bs "https=" ++ local_proxy p]).
    apply split_char_join; [done|]. unfold without in *. constructor; [|constructor; [|constructor]]; rewrite Forall_app; (split; [literal | done]). }
  unfold is_biba_manual_proxy. rewrite P. cbn [fmap list_fmap]. rewrite !T by literal.
  assert (F : List.filter (fun s => negb (bool_decide (s = []))) [bs "http=" ++ local_proxy p; bs "https=" ++ local_proxy p] =
    [bs "http=" ++ local_proxy p; bs "https=" ++ local_proxy p]) by done.
  rewrite F, !strip_prefix_app, (trim_graphic (local_proxy p)) by done. rewrite bool_decide_true by done. cbn [negb].
  by rewrite local_proxy_split, parse_port.
Qed.

(** ** The theorems *)

Definition applied (http_host_port override : str) (url_gone : bool) (r : gmap string RegValue) : gmap string RegValue :=
  let r := <["AutoDetect" := Dword 0]> r in
  let r := if url_gone then delete "AutoConfigURL" r else r in
  <["ProxyOverride" := Sz override]> (<["ProxyServer" := Sz (proxy_server_of http_host_port)]> (<["ProxyEnable" := Dword 1]> r)).
Lemma applied_snapshot hp o gone r :
  snapshot (applied hp o gone r) = {| enable := 1; server := Some (proxy_server_of hp); override_val := none_if_empty o; auto_detect := 0;
    auto_config_url := if gone then None else sz r "AutoConfigURL" |}.
Proof. unfold snapshot, applied, dword, sz. destruct gone; f_equal; reads. Qed.
Lemma applied_others hp o gone r name : name ∉ proxy_names -> applied hp o gone r !! name = r !! name.
Proof. unfold proxy_names. rewrite !not_elem_of_cons. intros (? & ? & ? & ? & ? & _). unfold applied. destruct gone; reads. Qed.
Lemma undone r r' : (forall name, name ∉ proxy_names -> r' !! name = r !! name) -> same_settings r (written (snapshot r) true true r').
Proof.
  intros H. split; [by rewrite written_snapshot by apply snapshot_shape|]. intros name Hn. rewrite written_others by done. by apply H.
Qed.

Lemma set_step name v r b s : set_value name v (running r (b :: s)) = if b then (running (<[name := v]> r) s, Ok tt) else (running r s, Err name).
Proof. by destruct b. Qed.
Lemma delete_step name r b s : delete_value name (running r (b :: s)) = (running (if b then delete name r else r) s, Ok tt).
Proof. by destruct b. Qed.
Lemma open_step r b s : internet_settings_key true (running r (b :: s)) = if b then (running r s, Ok tt) else (running r s, Err "access denied"%string).
Proof. by destruct b. Qed.
Lemma notify_step r b s : notify_changed (running r (b :: s)) = if b then (running r s, Ok tt) else (running r s, Err "InternetSetOptionW"%string).
Proof. by destruct b. Qed.

(** The call that fails is the [n]th, counted from 0. *)
Lemma inner_outcome r n hp prior hosts :
  let '(w, res) := apply_proxy_inner hp prior hosts (running r (replicate n true ++ [false])) in
  match res with
  | Ok _ => w.(registry) = Some (applied hp (merge_proxy_override prior hosts) (negb (n =? 2)%nat) r)
  | Err _ => exists r', w = running r' [] /\ forall name, name ∉ proxy_names -> r' !! name = r !! name
  | Panic => False
  end.
Proof.
  unfold apply_proxy_inner. generalize (merge_proxy_override prior hosts) as o. intros o.
  unfold mbind, st_bind.
  destruct n as [|[|[|[|[|[|[|n]]]]]]]; cbn [replicate app];
    repeat first [rewrite set_step | rewrite delete_step | rewrite open_step | rewrite notify_step];
    first [reflexivity | eexists; split; [reflexivity|]; unfold proxy_names; intros name; rewrite !not_elem_of_cons; intros (? & ? & ? & ? & ? & _); reads].
Qed.

(** Whichever one of its calls of the system fails, or none, turning the proxy on leaves no half of it behind: when it reports success, the registry holds
    the application's proxy, the merged exceptions and no automatic detection (and no script, unless removing that is what failed);
    when it reports an error, every setting is what it was. All other values of the key are untouched. *)
Theorem windows_applied_or_undone r n http_host_port prior hosts :
  let '(w, res) := apply_proxy http_host_port prior hosts (running r (replicate n true ++ [false])) in
  exists r', w.(registry) = Some r' /\ (forall name, name ∉ proxy_names -> r' !! name = r !! name) /\
    match res with
    | Ok _ => snapshot r' = {| enable := 1; server := Some (proxy_server_of http_host_port);
        override_val := none_if_empty (merge_proxy_override (match prior with Some p => Some p | None => sz r "ProxyOverride" end) hosts);
        auto_detect := 0; auto_config_url := if decide (n = 3%nat) then sz r "AutoConfigURL" else None |}
    | Err _ => same_settings r r'
    | Panic => False
    end.
Proof.
  unfold apply_proxy, mbind, st_bind. destruct n as [|n]; [cbn; by exists r|]. cbn [replicate app]. rewrite read_runs. unfold or_undo.
  change (override_val (snapshot r)) with (sz r "ProxyOverride"). set (o := match prior with Some p => Some p | None => _ end).
  pose proof (inner_outcome r n http_host_port o hosts) as I. destruct (apply_proxy_inner _ _ _ _) as [w [[]|e|]]; [| |done].
  - exists (applied http_host_port (merge_proxy_override o hosts) (negb (n =? 2)%nat) r). split; [done|]. split; [intros; by apply applied_others|].
    rewrite applied_snapshot. destruct (Nat.eqb_spec n 2) as [->|]; cbn [negb]; [done|]. by rewrite decide_False by lia.
  - destruct I as (r' & -> & H). rewrite write_backup_runs. eexists. split; [reflexivity|]. split; [|by apply undone].
    intros name Hn. rewrite written_others by done. by apply H.
Qed.

Definition ours (r : gmap string RegValue) : Prop := dword r "ProxyEnable" <> 0 /\ exists s, sz r "ProxyServer" = Some s /\ is_biba_manual_proxy s = true.
Lemma open_runs write r : internet_settings_key write (running r []) = (running r [], Ok tt).
Proof. by destruct write. Qed.
Lemma dword_runs name r : get_dword name (running r []) = (running r [], Ok (dword r name)).
Proof. done. Qed.
Lemma sz_runs name r : get_sz name (running r []) = (running r [], Ok (match r !! name with Some (Sz s) => s | _ => [] end)).
Proof. done. Qed.
Lemma nothing_ours r : sz r "ProxyServer" = None ->
  exists r', (running r [], Ok (E := err) tt) = (running r' [], Ok tt) /\ ~ ours r' /\ (~ ours r -> r' = r).
Proof. intros H. exists r. split_and!; [done | | done]. intros (_ & s & Hs & _). congruence. Qed.
Lemma residual_disabled r : exists r', disable_if_residual_biba_proxy (running r []) = (running r' [], Ok tt) /\ ~ ours r' /\ (~ ours r -> r' = r).
Proof.
  assert (R : disable_if_residual_biba_proxy (running r []) =
    if decide (dword r "ProxyEnable" = 0) then (running r [], Ok tt)
    else if negb (is_biba_manual_proxy (match r !! "ProxyServer"%string with Some (Sz s) => s | _ => [] end)) then (running r [], Ok tt)
    else (running (delete "ProxyServer"%string (<["ProxyEnable"%string := Dword 0]> r)) [], Ok tt)).
  { unfold disable_if_residual_biba_proxy, mbind, st_bind. rewrite open_runs, dword_runs. case_decide; [done|]. rewrite sz_runs. by destruct (is_biba_manual_proxy _). }
  rewrite R. clear R. case_decide as E; [exists r; split_and!; [done | by intros [] | done]|].
  destruct (r !! "ProxyServer"%string) as [[n|[|c s]]|] eqn:V;
    try (replace (is_biba_manual_proxy []) with false by done; apply nothing_ours; unfold sz; by rewrite V).
  destruct (is_biba_manual_proxy (c :: s)) eqn:B; cbn [negb].
  - eexists. split; [reflexivity|]. split; [intros [H _]; apply H; unfold dword; by reads|]. intros N. destruct N. split; [done|]. exists (c :: s). unfold sz. by rewrite V.
  - exists r. split_and!; [done | | done]. intros (_ & t & Ht & Hb). unfold sz in Ht. rewrite V in Ht. injection Ht as <-. congruence.
Qed.

(** A manual proxy that names one loopback address, with a port, for HTTP and for HTTPS and no other protocol. *)
Definition loopback_pair (s : str) : Prop :=
  exists a b host port n, List.filter (fun x => negb (bool_decide (x = []))) (trim <$> split_char 59 [] s) = [bs "http=" ++ a; bs "https=" ++ b] /\
    trim a = trim b /\ trim a = host ++ 58 :: port /\ parse_uint U16_MAX port = Some n /\
    to_ascii_lowercase (trim host) ∈ [bs "127.0.0.1"; bs "localhost"].
Lemma rsplit_once_at c s a b : rsplit_once c s = Some (a, b) -> s = a ++ c :: b.
Proof.
  unfold rsplit_once. destruct (find_char c (rev s)) as [n|] eqn:F; [|done]. intros [= <- <-]. apply find_char_Some in F as [Hn F].
  rewrite length_rev in Hn. assert (E : s = rev (drop (S n) (rev s)) ++ c :: rev (take n (rev s))).
  { rewrite <- (rev_involutive s) at 1. rewrite <- (take_drop_middle (rev s) n c F) at 1. rewrite rev_app_distr. simpl. by rewrite <- app_assoc. }
  symmetry. apply take_drop_middle. etrans; [by rewrite E at 2|]. apply list_lookup_middle. rewrite length_rev, length_drop, length_rev. lia.
Qed.
Lemma strip_prefix_is p s r : strip_prefix p s = Some r -> s = p ++ r.
Proof.
  unfold strip_prefix, starts_with. case_bool_decide as E; [|done]. intros [= <-]. rewrite <- (take_drop (length p) s) at 1. by rewrite E.
Qed.
Lemma biba_is_loopback s : is_biba_manual_proxy s = true -> loopback_pair s.
Proof.
  unfold is_biba_manual_proxy, loopback_pair. destruct (List.filter _ _) as [|a [|b [|]]]; try done.
  destruct (strip_prefix (bs "http=") a) as [x|] eqn:A; [|done]. destruct (strip_prefix (bs "https=") b) as [y|] eqn:B; [|done].
  apply strip_prefix_is in A as ->. apply strip_prefix_is in B as ->. case_bool_decide as E; cbn [negb]; [|done].
  destruct (rsplit_once 58 (trim x)) as [[host port]|] eqn:R; [|done]. destruct (parse_uint U16_MAX port) as [n|] eqn:P; [|done].
  intros H%bool_decide_eq_true. exists x, y, host, port, n. apply rsplit_once_at in R. split_and!; [done..|]. rewrite !elem_of_cons. naive_solver.
Qed.
Definition names_loopback (r : gmap string RegValue) : Prop := dword r "ProxyEnable" <> 0 /\ exists s, sz r "ProxyServer" = Some s /\ loopback_pair s.
Lemma ours_names r : ours r -> names_loopback r.
Proof. intros (H & s & Hs & Hb). split; [done|]. exists s. split; [done | by apply biba_is_loopback]. Qed.

Lemma residual_off r r2 : ours r -> disable_if_residual_biba_proxy (running r []) = (running r2 [], Ok tt) -> dword r2 "ProxyEnable" <> 0 -> False.
Proof.
  intros (He & s & Hs & Hb) H E. apply E. unfold disable_if_residual_biba_proxy, mbind, st_bind in H. rewrite open_runs, dword_runs, decide_False, sz_runs in H by done.
  unfold sz in Hs. destruct (r !! "ProxyServer"%string) as [[n|[|c t]]|]; try done. injection Hs as <-. rewrite Hb in H. cbn in H. injection H as <-. change (dword (delete "ProxyServer"%string (<["ProxyEnable"%string := Dword 0]> r)) "ProxyEnable"%string = 0). unfold dword. by reads.
Qed.

(** C37: On Windows, when no call of the system fails, the settings come back: after the tunnel's proxy has been applied, putting the snapshot back restores
    every setting, and doing so again changes nothing. What the user has set up meanwhile stays as it is, whatever the snapshot says: a manual proxy that is
    switched off or does not name one loopback address for both HTTP and HTTPS, and automatic detection or a script; and all
    other values of the key. Without a snapshot, the application's proxy is switched off, and nothing is changed unless a manual proxy of that loopback form is on. (A proxy of that
    form that is the user's own cannot be told from the application's, and is taken for it.) *)
Theorem windows_settings_come_back r port prior hosts r1 :
  is_u16 port ->
  (exists r' r2, apply_proxy (local_proxy port) prior hosts (running r []) = (running r' [], Ok tt) /\
     restore (snapshot r) (running r' []) = (running r2 [], Ok tt) /\ same_settings r r2 /\
     exists r3, restore (snapshot r) (running r2 []) = (running r3 [], Ok tt) /\ same_settings r r3) /\
  (exists r2, restore (snapshot r) (running r1 []) = (running r2 [], Ok tt) /\
     (~ names_loopback r1 ->
       dword r2 "ProxyEnable" = dword r1 "ProxyEnable" /\ sz r2 "ProxyServer" = sz r1 "ProxyServer" /\ sz r2 "ProxyOverride" = sz r1 "ProxyOverride") /\
     (dword r1 "AutoDetect" <> 0 \/ sz r1 "AutoConfigURL" <> None ->
       dword r2 "AutoDetect" = dword r1 "AutoDetect" /\ sz r2 "AutoConfigURL" = sz r1 "AutoConfigURL") /\
     forall name, name ∉ proxy_names -> r2 !! name = r1 !! name) /\
  (exists r2, disable_if_residual_biba_proxy (running r1 []) = (running r2 [], Ok tt) /\
     (dword r1 "ProxyEnable" <> 0 -> sz r1 "ProxyServer" = Some (proxy_server_of (local_proxy port)) -> dword r2 "ProxyEnable" = 0) /\
     (~ names_loopback r1 -> r2 = r1)).
Proof.
  intros Hp. split; [|split].
  - set (o := match prior with Some p => Some p | None => sz r "ProxyOverride" end).
    set (r' := applied (local_proxy port) (merge_proxy_override o hosts) true r).
    assert (M : restore_manual (snapshot r) (snapshot r') = true).
    { unfold restore_manual, r'. rewrite applied_snapshot. cbn [enable server]. rewrite own_proxy_known by done. done. }
    assert (P : restore_pac (snapshot r) (snapshot r') = true).
    { unfold restore_pac, r'. rewrite applied_snapshot. done. }
    assert (S : same_settings r (written (snapshot r) true true r')) by (apply undone; intros; by apply applied_others).
    exists r', (written (snapshot r) true true r'). split; [|split; [|split; [done|]]].
    + done.
    + by rewrite restore_runs, M, P.
    + eexists. split; [apply restore_runs|]. assert (Same : forall b, restore_manual b b = true /\ restore_pac b b = true).
      { intros b. split; apply orb_true_iff; right; by apply bool_decide_true. }
      destruct S as [S1 S2]. rewrite S1. destruct (Same (snapshot r)) as [-> ->]. by apply undone.
  - eexists. split; [apply restore_runs|]. pose proof (written_snapshot (snapshot r) (restore_manual (snapshot r) (snapshot r1)) (restore_pac (snapshot r) (snapshot r1)) r1 (snapshot_shape r)) as W.
    set (r2 := written _ _ _ r1) in *. injection W as W1 W2 W3 W4 W5. split_and!; [| | intros; by apply written_others].
    + intros N. rewrite W1, W2, W3. destruct (restore_manual _ _) eqn:M; [|done]. apply orb_true_iff in M as [M|M%bool_decide_eq_true]; [|naive_solver].
      destruct N. apply ours_names. apply andb_true_iff in M as [M1 M2]. split; [by apply negb_true_iff, bool_decide_eq_false in M1|].
      cbn [server snapshot] in M2. destruct (sz r1 "ProxyServer") as [t|] eqn:T; [by exists t | done].
    + intros N. rewrite W4, W5. destruct (restore_pac _ _) eqn:M; [|done]. apply orb_true_iff in M as [M%bool_decide_eq_true|M%bool_decide_eq_true]; naive_solver.
  - destruct (residual_disabled r1) as (r2 & H1 & H2 & H3). exists r2. split; [done|]. split; [|intros N; apply H3; intros O; by apply N, ours_names].
    intros He Hv. destruct (decide (dword r2 "ProxyEnable" = 0)) as [|E]; [done|]. exfalso. assert (O : ours r1).
    { split; [done|]. exists (proxy_server_of (local_proxy port)). split; [done | by apply own_proxy_known]. }
    exact (residual_off r1 r2 O H1 E).
Qed.

(** ** Examples *)

Definition corporate : gmap string RegValue :=
  {[ "ProxyEnable" := Dword 1; "ProxyServer" := Sz (bs "proxy.corp:3128"); "ProxyOverride" := Sz (bs "*.corp;<local>"); "AutoDetect" := Dword 1;
     "AutoConfigURL" := Sz (bs "http://wpad.corp/proxy.pac"); "User Agent" := Sz (bs "x") ]}%string.
Lemma windows_settings_come_back_witness :
  is_u16 8080 /\ exists r' r2, apply_proxy (local_proxy 8080) None [bs "bank.example"] (running corporate []) = (running r' [], Ok tt) /\
    restore (snapshot corporate) (running r' []) = (running r2 [], Ok tt) /\ same_settings corporate r2.
Proof.
  assert (P : is_u16 8080) by (split; lia). split; [exact P|].
  destruct (windows_settings_come_back corporate 8080 None [bs "bank.example"] corporate P) as [(r' & r2 & H1 & H2 & H3 & _) _].
  exists r', r2. split; [exact H1|]. split; [exact H2 | exact H3].
Defined.

(** The exceptions that were there come first and count as protected: when they are too long, it is the required entries that are cut off. *)
Definition long_exceptions : str := replicate 2100 97.
Lemma long_exceptions_drop_required : forallb (fun x => negb (listed x (split_char 59 [] (merge_proxy_override (Some long_exceptions) [])))) REQUIRED_OVERRIDE = true.
Proof. by vm_compute. Qed.

(** A debugging proxy that the user has started on this computer is taken for the application's: restoring replaces it, and without a snapshot it is switched off. *)
Definition debugging : gmap string RegValue := {[ "ProxyEnable" := Dword 1; "ProxyServer" := Sz (bs "http=127.0.0.1:8888;https=127.0.0.1:8888") ]}%string.
Lemma users_loopback_taken :
  sz (default ∅ (restore (snapshot corporate) (running debugging [])).1.(registry)) "ProxyServer" = Some (bs "proxy.corp:3128") /\
  dword (default ∅ (disable_if_residual_biba_proxy (running debugging [])).1.(registry)) "ProxyEnable" = 0.
Proof. by vm_compute. Qed.
