(* ===== verification/ProxyLinux.v ===== *)
(** The proxy settings of a Linux desktop ([proxy_linux.rs] of [apps/bibavpn-desktop]): GSettings and the environment of the session, read, changed
    and put back through commands. What [gsettings] prints and reads, and what [systemctl] prints, are parameters with their documented behaviour on plain values;
    which commands fail is a script. The messages to Telegram and to the user change no setting and are left out. *)
From S2P Require Import Prelude Text Incoming HttpConnect Invite Metrics ProxyLists.

Definition SCHEMA : string := "org.gnome.system.proxy".
Definition SCHEMA_HTTP : string := "org.gnome.system.proxy.http".
Definition SCHEMA_HTTPS : string := "org.gnome.system.proxy.https".
Definition SCHEMA_SOCKS : string := "org.gnome.system.proxy.socks".
Definition SCHEMA_FTP : string := "org.gnome.system.proxy.ftp".
Definition PROXY_ENV_KEYS : list str :=
  bs <$> ["ALL_PROXY"; "all_proxy"; "HTTP_PROXY"; "http_proxy"; "HTTPS_PROXY"; "https_proxy"; "NO_PROXY"; "no_proxy"]%string.

(** ** The session *)

Inductive Gv := GStr (s : str) | GInt (n : Z) | GBool (b : bool) | GStrs (l : list str).
(** [user_env] is the environment of the user's service manager, [bus_env] that of the programs the message bus starts. Every command takes one answer
    of [script]; past its end they succeed. A command that fails changes nothing. *)
Record Session := { dconf : gmap (string * string) Gv; user_env : gmap str str; bus_env : gmap str str; script : list bool }.
Abbreviation Lin := (ST Session err).

Definition command : Lin bool := fun w =>
  match w.(script) with
  | [] => (w, Ok true)
  | b :: s => ({| dconf := w.(dconf); user_env := w.(user_env); bus_env := w.(bus_env); script := s |}, Ok b)
  end.
Definition set_dconf (d : gmap (string * string) Gv) (w : Session) : Session :=
  {| dconf := d; user_env := w.(user_env); bus_env := w.(bus_env); script := w.(script) |}.
Definition set_env (e b : gmap str str) (w : Session) : Session :=
  {| dconf := w.(dconf); user_env := e; bus_env := b; script := w.(script) |}.

(** ** Texts of GVariant *)

Definition quoted_by (q : Z) (t : str) : bool := (2 <=? length t)%nat && bool_decide (head t = Some q) && bool_decide (last t = Some q).
(** [s.replace(..)] of two characters by one. *)
Fixpoint replace_pair (a b c : Z) (s : str) : str :=
  match s with
  | x :: ((y :: r) as t) => if (x =? a) && (y =? b) then c :: replace_pair a b c r else x :: replace_pair a b c t
  | _ => s
  end.
Definition inner (t : str) : str := take (length t - 2) (drop 1 t).
Definition parse_gvariant_string (raw : str) : str :=
  let t := trim raw in
  if bool_decide (t = [39; 39] \/ t = [34; 34]) then []
  else if quoted_by 39 t || quoted_by 34 t then replace_pair 92 34 34 (replace_pair 92 39 39 (inner t))
  else t.
Definition parse_gvariant_bool (raw : str) : bool :=
  let t := trim raw in bool_decide (t = bs "true" \/ t = bs "True" \/ t = bs "1").
(** [parse::<i32>()]. *)
Definition parse_i32 (s : str) : option Z :=
  match s with
  | 45 :: (_ :: _) as r => Z.opp <$> parse_digits 2147483648 0 (tail r)
  | _ => parse_uint 2147483647 s
  end.
Definition show_i32 (n : Z) : str := if decide (n < 0) then 45 :: show_dec (- n) else show_dec n.
Definition parse_gvariant_i32 (raw : str) : Z := default 0 (parse_i32 (trim raw)).
Definition escape (c : Z) : str := if c =? 92 then [92; 92] else if c =? 39 then [92; 39] else [c].
Definition format_gvariant_string (s : str) : str := [39] ++ concat (escape <$> s) ++ [39].

(** ** Lists of hosts *)

Definition normalize_ignore_host (host : str) : str :=
  let t := trim host in match strip_prefix (bs "*.") t with Some rest => 46 :: rest | None => t end.
Definition strip_brackets (t : str) : str :=
  match strip_prefix_char 91 t with
  | Some s => if bool_decide (last s = Some 93) then take (length s - 1) s else t
  | None => t
  end.
Definition push_host (out : list str) (part : str) : list str :=
  let p := trim part in
  if decide (p = []) then out else match parse_gvariant_string p with [] => out | s => out ++ [s] end.
Definition parse_ignore_hosts_list (raw : str) : list str := fold_left push_host (split_char 44 [] (strip_brackets (trim raw))) [].
Definition format_ignore_hosts_list (hosts : list str) : str := [91] ++ join (bs ", ") (format_gvariant_string <$> hosts) ++ [93].
Definition REQUIRED_HOSTS : list str := bs <$>
  ["localhost"; "127.0.0.0/8"; "::1"; "10.0.0.0/8"; "172.16.0.0/12"; "192.168.0.0/16"; "169.254.0.0/16"; "100.64.0.0/10"; "fc00::/7"; "fe80::/10"; "*.local";
   "tauri.localhost"; "steamloopback.host"; ".steamloopback.host"; "client-update.steamstatic.com"; "client-update.akamai.steamstatic.com";
   "client-update.fastly.steamstatic.com"]%string.
Definition merged_hosts (existing_raw : str) (split_tunnel_hosts : list str) : list str :=
  fold_left push_required REQUIRED_HOSTS
    (fold_left push_some (normalize_ignore_host <$> split_tunnel_hosts) (parse_ignore_hosts_list existing_raw)).
Definition merge_ignore_hosts (existing_raw : str) (split_tunnel_hosts : list str) : str :=
  format_ignore_hosts_list (merged_hosts existing_raw split_tunnel_hosts).
Definition NO_PROXY_HOSTS : list str := bs <$>
  ["localhost"; "127.0.0.1"; "::1"; "10.0.0.0/8"; "172.16.0.0/12"; "192.168.0.0/16"; "169.254.0.0/16"; "100.64.0.0/10"; "fc00::/7"; "fe80::/10"; "*.local";
   "tauri.localhost"]%string.
Definition no_proxy_list (split_tunnel_hosts : list str) : str :=
  join [44] (fold_left push_some ((fun h => trim_start_matches is_dot (normalize_ignore_host h)) <$> split_tunnel_hosts) NO_PROXY_HOSTS).

Definition proxy_env_assignments (http_host : str) (http_port : Z) (socks_host : str) (socks_port : Z) (split_tunnel_hosts : list str) : list (str * str) :=
  let http := bs "http://" ++ http_host ++ [58] ++ show_i32 http_port in
  let socks := bs "socks5h://" ++ socks_host ++ [58] ++ show_i32 socks_port in
  let no_proxy := no_proxy_list split_tunnel_hosts in
  [(bs "ALL_PROXY", socks); (bs "all_proxy", socks); (bs "HTTP_PROXY", http); (bs "http_proxy", http); (bs "HTTPS_PROXY", http); (bs "https_proxy", http);
   (bs "NO_PROXY", no_proxy); (bs "no_proxy", no_proxy)].

Definition split_host_port (hp : str) : result (str * Z) :=
  match rsplit_once 58 hp with
  | None => bail "bad host:port"
  | Some (h, p) => port ← context "bad port"%string (parse_uint U16_MAX p); Ok (h, port)
  end.

(** ** Commands *)

Section Commands.
(** What [gsettings get] prints of a value, what [gsettings set] makes of a text for a key that holds the given value,
    and what [systemctl --user show-environment] prints. *)
Context (print_gv : Gv -> str) (parse_gv : Gv -> str -> option Gv) (show_environment : gmap str str -> str).

Definition gsettings_available : Lin bool := command.
Definition gsettings_get (schema key : string) : Lin str :=
  ok ← command;
  d ← gets dconf;
  match ok : bool, d !! (schema, key) with
  | true, Some v => mret (trim (print_gv v ++ [10]))
  | _, _ => throw ("gsettings get " ++ schema ++ " " ++ key)%string
  end.
Definition gsettings_set (schema key : string) (value : str) : Lin unit :=
  ok ← command;
  d ← gets dconf;
  match ok : bool, old ← d !! (schema, key); parse_gv old value with
  | true, Some v => modify (set_dconf (<[(schema, key) := v]> d))
  | _, _ => throw ("gsettings set " ++ schema ++ " " ++ key)%string
  end.
Definition schema_exists : Lin bool := fun w => let '(w, r) := gsettings_get SCHEMA "mode" w in (w, Ok (is_ok r)).

(** [systemctl --user show-environment], [set-environment] and [unset-environment]; [dbus-update-activation-environment --systemd], which sets
    the variables for the service manager too. The last three return an error, which their callers ignore. *)
Definition read_systemd_user_environment : Lin (gmap str str) :=
  ok ← command;
  e ← gets user_env;
  mret (if ok : bool then
          fold_left (fun m line => match split_once 61 line with Some (k, v) => <[k := v]> m | None => m end) (lines (show_environment e)) ∅
        else ∅).
Definition set_all (vars : list (str * str)) (e : gmap str str) : gmap str str := fold_left (fun e kv => <[kv.1 := kv.2]> e) vars e.
Definition unset_all (keys : list str) (e : gmap str str) : gmap str str := fold_left (fun e k => delete k e) keys e.
Definition set_systemd_user_environment (vars : list (str * str)) : Lin unit :=
  match vars with
  | [] => mret tt
  | _ => ok ← command; if ok : bool then modify (fun w => set_env (set_all vars w.(user_env)) w.(bus_env) w) else mret tt
  end.
Definition unset_systemd_user_environment (keys : list str) : Lin unit :=
  match keys with
  | [] => mret tt
  | _ => ok ← command; if ok : bool then modify (fun w => set_env (unset_all keys w.(user_env)) w.(bus_env) w) else mret tt
  end.
Definition dbus_update_activation_environment (vars : list (str * str)) : Lin unit :=
  match vars with
  | [] => mret tt
  | _ => ok ← command; if ok : bool then modify (fun w => set_env (set_all vars w.(user_env)) (set_all vars w.(bus_env)) w) else mret tt
  end.

(** ** The snapshot *)

Record HttpSlotBackup := { slot_enabled : bool; slot_host : str; slot_port : Z }.
Record HostPortBackup := { hp_host : str; hp_port : Z }.
Record ProxyBackup := { mode : str; use_same_proxy : bool; ignore_hosts : str; http : HttpSlotBackup; https : HostPortBackup; socks : HostPortBackup;
                        ftp : HostPortBackup; env : list (str * option str) }.

Definition read_http_slot : Lin HttpSlotBackup :=
  enabled ← gsettings_get SCHEMA_HTTP "enabled";
  host ← gsettings_get SCHEMA_HTTP "host";
  port ← gsettings_get SCHEMA_HTTP "port";
  mret {| slot_enabled := parse_gvariant_bool enabled; slot_host := parse_gvariant_string host; slot_port := parse_gvariant_i32 port |}.
Definition read_host_port (schema : string) : Lin HostPortBackup :=
  host ← gsettings_get schema "host";
  port ← gsettings_get schema "port";
  mret {| hp_host := parse_gvariant_string host; hp_port := parse_gvariant_i32 port |}.
Definition snapshot_proxy_env : Lin (list (str * option str)) :=
  current ← read_systemd_user_environment;
  mret ((fun k => (k, current !! k)) <$> PROXY_ENV_KEYS).
Definition read_backup : Lin ProxyBackup :=
  available ← gsettings_available;
  if negb (available : bool) then throw "gsettings not found"%string else
  exists_ ← schema_exists;
  if negb (exists_ : bool) then throw "schema not available"%string else
  mode ← gsettings_get SCHEMA "mode";
  use_same_proxy ← gsettings_get SCHEMA "use-same-proxy";
  ignore_hosts ← gsettings_get SCHEMA "ignore-hosts";
  http ← read_http_slot;
  https ← read_host_port SCHEMA_HTTPS;
  socks ← read_host_port SCHEMA_SOCKS;
  ftp ← read_host_port SCHEMA_FTP;
  env ← snapshot_proxy_env;
  mret {| mode := parse_gvariant_string mode; use_same_proxy := parse_gvariant_bool use_same_proxy; ignore_hosts := ignore_hosts; http := http;
          https := https; socks := socks; ftp := ftp; env := env |}.

(** ** Writing *)

Definition show_bool (b : bool) : str := if b then bs "true" else bs "false".
Definition write_http_slot (slot : HttpSlotBackup) : Lin unit :=
  _ ← gsettings_set SCHEMA_HTTP "host" (format_gvariant_string slot.(slot_host));
  _ ← gsettings_set SCHEMA_HTTP "port" (show_i32 slot.(slot_port));
  gsettings_set SCHEMA_HTTP "enabled" (show_bool slot.(slot_enabled)).
Definition write_host_port (schema : string) (slot : HostPortBackup) : Lin unit :=
  _ ← gsettings_set schema "host" (format_gvariant_string slot.(hp_host));
  gsettings_set schema "port" (show_i32 slot.(hp_port)).

Definition apply_session_env (http_host : str) (http_port : Z) (socks_host : str) (socks_port : Z) (split_tunnel_hosts : list str) : Lin unit :=
  let vars := proxy_env_assignments http_host http_port socks_host socks_port split_tunnel_hosts in
  _ ← set_systemd_user_environment vars;
  dbus_update_activation_environment vars.
Definition to_set (backup : list (str * option str)) : list (str * str) := omap (fun kv => (fun v => (kv.1, v)) <$> kv.2) backup.
Definition to_unset (backup : list (str * option str)) : list str := omap (fun kv => match kv.2 with None => Some kv.1 | Some _ => None end) backup.
Definition restore_session_env (backup : list (str * option str)) : Lin unit :=
  _ ← unset_systemd_user_environment (to_unset backup);
  match to_set backup with
  | [] => dbus_update_activation_environment ((fun k => (k, [])) <$> to_unset backup)
  | vars => _ ← set_systemd_user_environment vars; dbus_update_activation_environment vars
  end.

Definition apply_proxy_inner (http_host_port socks_host_port : str) (split_tunnel_hosts : list str) (backup : ProxyBackup) : Lin unit :=
  '(http_host, http_port) ← lift (split_host_port http_host_port);
  '(socks_host, socks_port) ← lift (split_host_port socks_host_port);
  let merged_ignore := merge_ignore_hosts backup.(ignore_hosts) split_tunnel_hosts in
  _ ← gsettings_set SCHEMA "mode" (bs "'manual'");
  _ ← gsettings_set SCHEMA "use-same-proxy" (bs "false");
  _ ← gsettings_set SCHEMA "ignore-hosts" merged_ignore;
  _ ← gsettings_set SCHEMA_HTTP "host" (format_gvariant_string http_host);
  _ ← gsettings_set SCHEMA_HTTP "port" (show_i32 http_port);
  _ ← gsettings_set SCHEMA_HTTP "enabled" (bs "true");
  _ ← gsettings_set SCHEMA_HTTPS "host" (format_gvariant_string http_host);
  _ ← gsettings_set SCHEMA_HTTPS "port" (show_i32 http_port);
  _ ← gsettings_set SCHEMA_SOCKS "host" (format_gvariant_string socks_host);
  _ ← gsettings_set SCHEMA_SOCKS "port" (show_i32 socks_port);
  _ ← gsettings_set SCHEMA_FTP "host" (bs "''");
  _ ← gsettings_set SCHEMA_FTP "port" (bs "0");
  apply_session_env http_host http_port socks_host socks_port split_tunnel_hosts.

Definition restore (backup : ProxyBackup) : Lin unit :=
  _ ← write_http_slot backup.(http);
  _ ← write_host_port SCHEMA_HTTPS backup.(https);
  _ ← write_host_port SCHEMA_SOCKS backup.(socks);
  _ ← write_host_port SCHEMA_FTP backup.(ftp);
  _ ← gsettings_set SCHEMA "use-same-proxy" (show_bool backup.(use_same_proxy));
  _ ← gsettings_set SCHEMA "ignore-hosts" backup.(ignore_hosts);
  _ ← gsettings_set SCHEMA "mode" (format_gvariant_string backup.(mode));
  restore_session_env backup.(env).

(** An error of [m] is undone; an error of the undoing is added to its text. *)
Definition or_undo (m undo : Lin unit) : Lin unit := fun w =>
  match m w with
  | (w, Err e) =>
    match undo w with
    | (w, Ok _) => (w, Err e)
    | (w, Err re) => (w, Err (e ++ "; rollback: " ++ re)%string)
    | (w, Panic) => (w, Panic)
    end
  | r => r
  end.
Definition apply_proxy (http_host_port socks_host_port : str) (split_tunnel_hosts : list str) : Lin unit :=
  available ← gsettings_available;
  if negb (available : bool) then throw "no gsettings"%string else
  exists_ ← schema_exists;
  if negb (exists_ : bool) then throw "no schema"%string else
  backup ← read_backup;
  or_undo (apply_proxy_inner http_host_port socks_host_port split_tunnel_hosts backup) (restore backup).

Definition is_loopback (host : str) : bool := let h := to_ascii_lowercase (trim host) in bool_decide (h = bs "127.0.0.1" \/ h = bs "localhost").
Definition disable_if_residual_biba_proxy : Lin unit :=
  available ← gsettings_available;
  if negb (available : bool) then mret tt else
  exists_ ← schema_exists;
  if negb (exists_ : bool) then mret tt else
  mode ← gsettings_get SCHEMA "mode";
  if negb (bool_decide (parse_gvariant_string mode = bs "manual")) then mret tt else
  http ← read_http_slot;
  https ← read_host_port SCHEMA_HTTPS;
  socks ← read_host_port SCHEMA_SOCKS;
  if is_loopback http.(slot_host) || is_loopback https.(hp_host) || is_loopback socks.(hp_host) then
    _ ← gsettings_set SCHEMA "mode" (bs "'none'");
    _ ← gsettings_set SCHEMA_HTTP "host" (bs "''");
    _ ← gsettings_set SCHEMA_HTTP "port" (bs "0");
    _ ← gsettings_set SCHEMA_HTTP "enabled" (bs "false");
    _ ← gsettings_set SCHEMA_HTTPS "host" (bs "''");
    _ ← gsettings_set SCHEMA_HTTPS "port" (bs "0");
    _ ← gsettings_set SCHEMA_SOCKS "host" (bs "''");
    _ ← gsettings_set SCHEMA_SOCKS "port" (bs "0");
    unset_systemd_user_environment PROXY_ENV_KEYS
  else mret tt.

(** ** [lib.rs]: trying again *)

Fixpoint restore_tries (attempts : nat) (backup : ProxyBackup) (last : err) : Lin unit := fun w =>
  match attempts with
  | O => (w, Err last)
  | S n => match restore backup w with (w, Err e) => restore_tries n backup e w | r => r end
  end.
Definition restore_with_retry (backup : ProxyBackup) : Lin unit := restore_tries 3 backup "restore failed"%string.
Definition restore_proxy_blocking (backup : option ProxyBackup) : Session -> Session * option err := fun w =>
  match backup with
  | Some b =>
    match restore_with_retry b w with
    | (w, Err e) => ((disable_if_residual_biba_proxy w).1, Some ("restore: " ++ e)%string)
    | (w, _) => (w, None)
    end
  | None => match disable_if_residual_biba_proxy w with (w, Err e) => (w, Some e) | (w, _) => (w, None) end
  end.
End Commands.

(** ** The documented texts *)

(** Values of printable characters that GVariant writes without escapes; a port is a [u16]. *)
Definition plain_char (c : Z) : Prop := 32 <= c <= 126 /\ c <> 34 /\ c <> 39 /\ c <> 44 /\ c <> 92.
#[global] Instance plain_char_dec c : Decision (plain_char c).
Proof. unfold plain_char. apply _. Defined.
Definition plain (s : str) : Prop := Forall plain_char s.
Definition plain_gv (v : Gv) : Prop :=
  match v with GStr s => plain s | GInt n => is_u16 n | GBool _ => True | GStrs l => Forall (fun s => plain s /\ s <> []) l end.
Definition quote (s : str) : str := 39 :: s ++ [39].
Definition gv_text (v : Gv) : str :=
  match v with
  | GStr s => quote s
  | GInt n => show_dec n
  | GBool b => show_bool b
  | GStrs [] => bs "@as []"
  | GStrs l => 91 :: join (bs ", ") (quote <$> l) ++ [93]
  end.
Definition same_type (v v' : Gv) : Prop :=
  match v, v' with GStr _, GStr _ | GInt _, GInt _ | GBool _, GBool _ | GStrs _, GStrs _ => True | _, _ => False end.

Lemma show_dec_nonempty n : show_dec n <> [].
Proof. unfold show_dec. cbn [show_dec_fuel]. intros E. by apply app_eq_nil in E as [_ ?]. Qed.
Lemma show_dec_solid_text n : solid (show_dec n).
Proof. apply graphic_solid; [apply show_dec_nonempty | apply digits_graphic, show_dec_digits]. Qed.
Lemma quote_solid s : solid (quote s).
Proof. apply solid_ends; lia. Qed.
Lemma gv_text_solid v : solid (gv_text v).
Proof.
  destruct v as [s|n|[]|[|x l]]; [apply quote_solid | apply show_dec_solid_text | apply graphic_solid; [done | literal] | apply graphic_solid; [done | literal] | |].
  - by split; eexists.
  - apply solid_ends; lia.
Qed.

Lemma quoted_quote q s : quoted_by q (q :: s ++ [q]) = true.
Proof.
  unfold quoted_by. rewrite (bool_decide_true (head _ = _)) by done. rewrite app_comm_cons, last_snoc, bool_decide_true by done.
  rewrite length_app. cbn [length]. by rewrite Nat.add_comm.
Qed.
Lemma inner_quote q s : inner (q :: s ++ [q]) = s.
Proof. unfold inner. change (drop 1 (q :: s ++ [q])) with (s ++ [q]). cbn [length]. rewrite length_app. cbn [length]. replace (S (length s + 1) - 2)%nat with (length s) by lia. by rewrite take_app_length. Qed.
Lemma replace_plain b c s : plain s -> replace_pair 92 b c s = s.
Proof.
  intros H. induction H as [|x s Hx Hs IH]; [done|]. destruct s as [|y r]; [done|].
  change (replace_pair 92 b c (x :: y :: r)) with (if (x =? 92) && (y =? b) then c :: replace_pair 92 b c r else x :: replace_pair 92 b c (y :: r)).
  rewrite (proj2 (Z.eqb_neq x 92)) by apply Hx. cbn [andb]. by rewrite IH.
Qed.
Lemma parse_quote s : plain s -> parse_gvariant_string (quote s) = s.
Proof.
  intros H. unfold parse_gvariant_string. rewrite trim_solid by apply quote_solid. case_bool_decide as E.
  - destruct E as [E|E]; [|done]. destruct s as [|x [|y s]]; [done | discriminate E | discriminate E].
  - unfold quote. rewrite quoted_quote, inner_quote. cbn [orb]. by rewrite !replace_plain by (by rewrite ?replace_plain).
Qed.
Lemma format_plain s : plain s -> format_gvariant_string s = quote s.
Proof.
  intros H. unfold format_gvariant_string, quote. cbn [app]. f_equal. f_equal.
  induction H as [|c s (_ & _ & H39 & _ & H92) _ IH]; [done|]. cbn [fmap list_fmap concat]. fold (escape <$> s). rewrite IH. unfold escape.
  by rewrite (proj2 (Z.eqb_neq c 92)), (proj2 (Z.eqb_neq c 39)).
Qed.
Lemma show_i32_port n : is_u16 n -> show_i32 n = gv_text (GInt n).
Proof. intros H. unfold show_i32. rewrite decide_False; [done|]. ranges. lia. Qed.
Lemma parse_i32_port n : is_u16 n -> parse_gvariant_i32 (show_dec n) = n.
Proof.
  intros H. unfold parse_gvariant_i32. rewrite trim_solid by apply show_dec_solid_text. pose proof (show_dec_digits n) as D.
  assert (P : parse_i32 (show_dec n) = parse_uint 2147483647 (show_dec n)).
  { unfold parse_i32. destruct D as [|c r Hc _]; [done|]. apply in_rng_iff in Hc. destruct c as [|p|p]; try lia. destruct (decide (Z.pos p = 45)); [lia|].
    repeat (destruct p as [p|p|]; try done; try lia). }
  rewrite P, parse_show_dec; [done | ranges; lia..].
Qed.
Lemma parse_show_bool b : parse_gvariant_bool (show_bool b) = b.
Proof. by destruct b; vm_compute. Qed.

Lemma format_hosts l : l <> [] -> Forall (fun s => plain s /\ s <> []) l -> format_ignore_hosts_list l = gv_text (GStrs l).
Proof.
  intros Hn H. unfold format_ignore_hosts_list. assert (E : format_gvariant_string <$> l = quote <$> l).
  { apply list_fmap_ext. intros i x Hx. apply format_plain. rewrite Forall_lookup in H. by apply (H i x Hx). }
  rewrite E. by destruct l.
Qed.

(** The list that is read back. *)
Lemma quote_without s : plain s -> without 44 (quote s).
Proof.
  intros H. unfold without, quote. constructor; [done|]. apply Forall_app. split; [|by constructor]. eapply Forall_impl; [exact H|]. by intros c (_ & _ & _ & ? & _).
Qed.
Lemma push_quote out s t : plain s -> s <> [] -> trim t = quote s -> push_host out t = out ++ [s].
Proof. intros H Hn Ht. unfold push_host. rewrite Ht, decide_False by done. rewrite parse_quote by done. by destruct s. Qed.
Lemma split_quotes x l : plain x -> Forall (fun s => plain s /\ s <> []) l ->
  split_char 44 [] (join (bs ", ") (quote <$> x :: l)) = quote x :: (cons 32 <$> (quote <$> l)).
Proof.
  revert x. induction l as [|y l IH]; intros x Hx Hl; [change (join (bs ", ") (quote <$> [x])) with (quote x); by rewrite split_char_last by by apply quote_without|].
  apply Forall_cons in Hl as [[Hy Hn] Hl]. change (join (bs ", ") (quote <$> x :: y :: l)) with (quote x ++ 44 :: 32 :: join (bs ", ") (quote <$> y :: l)).
  rewrite split_char_skip by by apply quote_without. cbn [rev app fmap list_fmap]. f_equal. fold (quote <$> l).
  change (quote y :: (quote <$> l)) with (quote <$> y :: l). specialize (IH y Hy Hl).
  assert (G : forall t p r, split_char 44 [] t = p :: r -> split_char 44 [] (32 :: t) = (32 :: p) :: r).
  { clear. intros t. cbn [split_char Z.eqb]. change (32 =? 44) with false. cbn iota.
    assert (A : forall t acc x p r, split_char 44 acc t = p :: r -> split_char 44 (acc ++ [x]) t = (x :: p) :: r).
    { clear. induction t as [|c t IH]; intros acc x p r; cbn [split_char]; [intros [= <- <-]; by rewrite rev_app_distr|].
      destruct (c =? 44); [intros [= <- <-]; by rewrite rev_app_distr|]. intros H. rewrite app_comm_cons. by apply IH. }
    intros p r H. exact (A t [] 32 p r H). }
  by apply G.
Qed.
Lemma parse_hosts l : l <> [] -> Forall (fun s => plain s /\ s <> []) l -> parse_ignore_hosts_list (gv_text (GStrs l)) = l.
Proof.
  intros Hn Hl. unfold parse_ignore_hosts_list. rewrite trim_solid by apply gv_text_solid. destruct l as [|x l]; [done|].
  cbn [gv_text]. unfold strip_brackets. cbn [strip_prefix_char]. change (91 =? 91) with true. cbn iota. rewrite last_snoc, bool_decide_true by done.
  rewrite length_app. cbn [length]. rewrite Nat.add_sub, take_app_length. apply Forall_cons in Hl as [[Hx Hxn] Hl]. rewrite split_quotes by done. cbn [fold_left].
  rewrite (push_quote [] x) by (done || apply trim_solid, quote_solid). cbn [app]. change (x :: l) with ([x] ++ l). generalize [x] as out.
  clear Hn. induction Hl as [|y l [Hy Hyn] _ IH]; intros out; cbn [fmap list_fmap fold_left]; [by rewrite app_nil_r|].
  rewrite (push_quote _ y) by (done || apply trim_space, quote_solid). fold (quote <$> l). fold (cons 32 <$> (quote <$> l)). rewrite IH. by rewrite <- app_assoc.
Qed.

(** ** Steps that go on, or stop at the one command that fails *)

(** At most one command fails: the [n]th of those to come, or none. *)
Definition one_fails (s : list bool) : Prop := s = [] \/ exists n, s = replicate n true ++ [false].
Definition hoare {A} (P : Session -> Prop) (m : Lin A) (Q : A -> Session -> Prop) (E : Session -> Prop) : Prop :=
  forall w, P w -> one_fails w.(script) ->
    match m w with
    | (w', Ok a) => Q a w' /\ one_fails w'.(script) /\ (w.(script) = [] -> w'.(script) = [])
    | (w', Err _) => E w' /\ w'.(script) = [] /\ w.(script) <> []
    | (_, Panic) => False
    end.

Lemma hoare_bind {A B} P (m : Lin A) Q (k : A -> Lin B) R E : hoare P m Q E -> (forall a, hoare (Q a) (k a) R E) -> hoare P (x ← m; k x) R E.
Proof.
  intros Hm Hk w Hp Ho. specialize (Hm w Hp Ho). unfold mbind, st_bind. destruct (m w) as [w1 [a|e|]]; [|done..].
  destruct Hm as (Hq & Ho1 & H1). specialize (Hk a w1 Hq Ho1). destruct (k a w1) as [w2 [b|e|]]; [naive_solver|naive_solver|done].
Qed.
Lemma hoare_weaken {A} P P' (m : Lin A) Q Q' (E E' : Session -> Prop) : hoare P m Q E -> (forall w, P' w -> P w) -> (forall a w, Q a w -> Q' a w) ->
  (forall w, E w -> E' w) -> hoare P' m Q' E'.
Proof. intros H HP HQ HE w Hp Ho. specialize (H w (HP w Hp) Ho). destruct (m w) as [w1 [a|e|]]; naive_solver. Qed.
Lemma hoare_ret {A} (P : Session -> Prop) (a : A) (Q : A -> Session -> Prop) E : (forall w, P w -> Q a w) -> hoare P (mret a) Q E.
Proof. intros H w Hp Ho. cbn. auto. Qed.
Lemma one_fails_tail b s : one_fails (b :: s) -> one_fails s /\ (b = false -> s = []).
Proof.
  intros [|[n Hn]]; [done|]. destruct n as [|n]; injection Hn as -> ->; [split; [by left | done]|]. split; [right; by exists n | done].
Qed.

(** ** The settings *)

Record Settings := { s_mode : str; s_same : bool; s_ignore : list str; s_http_enabled : bool; s_http_host : str; s_http_port : Z;
                     s_https_host : str; s_https_port : Z; s_socks_host : str; s_socks_port : Z; s_ftp_host : str; s_ftp_port : Z }.
Abbreviation Key := (string * string)%type.
(** In the order [restore] writes them. *)
Definition entries (c : Settings) : list (Key * Gv) :=
  [((SCHEMA_HTTP, "host"), GStr c.(s_http_host)); ((SCHEMA_HTTP, "port"), GInt c.(s_http_port)); ((SCHEMA_HTTP, "enabled"), GBool c.(s_http_enabled));
   ((SCHEMA_HTTPS, "host"), GStr c.(s_https_host)); ((SCHEMA_HTTPS, "port"), GInt c.(s_https_port));
   ((SCHEMA_SOCKS, "host"), GStr c.(s_socks_host)); ((SCHEMA_SOCKS, "port"), GInt c.(s_socks_port));
   ((SCHEMA_FTP, "host"), GStr c.(s_ftp_host)); ((SCHEMA_FTP, "port"), GInt c.(s_ftp_port));
   ((SCHEMA, "use-same-proxy"), GBool c.(s_same)); ((SCHEMA, "ignore-hosts"), GStrs c.(s_ignore)); ((SCHEMA, "mode"), GStr c.(s_mode))]%string.
Definition wellformed (c : Settings) : Prop := Forall (fun kv => plain_gv kv.2) (entries c).
(** The settings of a database, and a database whose proxy keys have values of the right types. *)
Definition holds (c : Settings) (d : gmap Key Gv) : Prop := forall k v, (k, v) ∈ entries c -> d !! k = Some v.
Definition shaped (c : Settings) (d : gmap Key Gv) : Prop := forall k v, (k, v) ∈ entries c -> exists old, d !! k = Some old /\ same_type old v.
Definition write_all (l : list (Key * Gv)) (d : gmap Key Gv) : gmap Key Gv := fold_left (fun d kv => <[kv.1 := kv.2]> d) l d.
(** What differs from [d0] at the proxy keys only, and keeps their types. *)
Definition changed (c : Settings) (d0 d : gmap Key Gv) : Prop := shaped c d /\ forall k, k ∉ (entries c).*1 -> d !! k = d0 !! k.
Definition typed_write (c : Settings) (kv : Key * Gv) : Prop := plain_gv kv.2 /\ exists v, (kv.1, v) ∈ entries c /\ same_type v kv.2.

Lemma same_type_trans a b c : same_type a b -> same_type b c -> same_type a c.
Proof. by destruct a, b, c. Qed.
Lemma same_type_sym a b : same_type a b -> same_type b a.
Proof. by destruct a, b. Qed.
Lemma entries_nodup c : NoDup (entries c).*1.
Proof. change ((entries c).*1) with ((entries {| s_mode := []; s_same := true; s_ignore := []; s_http_enabled := true; s_http_host := []; s_http_port := 0; s_https_host := [];
  s_https_port := 0; s_socks_host := []; s_socks_port := 0; s_ftp_host := []; s_ftp_port := 0 |}).*1). apply (bool_decide_unpack _). by vm_compute. Qed.
Lemma entries_unique c k v v' : (k, v) ∈ entries c -> (k, v') ∈ entries c -> v = v'.
Proof.
  intros [i Hi]%list_elem_of_lookup [j Hj]%list_elem_of_lookup. assert (i = j) as ->; [|congruence].
  eapply (NoDup_lookup _ _ _ k (entries_nodup c)); by rewrite list_lookup_fmap, ?Hi, ?Hj.
Qed.
Lemma holds_shaped c d : holds c d -> shaped c d.
Proof. intros H k v Hk. exists v. split; [by apply H | by destruct v]. Qed.
Lemma changed_refl c d : shaped c d -> changed c d d.
Proof. by split. Qed.
Lemma changed_write c d0 d kv : typed_write c kv -> changed c d0 d -> changed c d0 (<[kv.1 := kv.2]> d).
Proof.
  intros (_ & v & Hv & Ht) [Hs Ho]. split.
  - intros k v' Hk. destruct (decide (k = kv.1)) as [->|Hn]; [|rewrite lookup_insert_ne by done; by apply Hs].
    exists kv.2. rewrite lookup_insert_eq. split; [done|]. rewrite (entries_unique c _ _ _ Hk Hv). by apply same_type_sym.
  - intros k Hk. rewrite lookup_insert_ne; [by apply Ho|]. intros <-. apply Hk. apply (list_elem_of_fmap_2 fst _ _ Hv).
Qed.
(** Writing all the settings of [c] over a changed database gives back the one that held them. *)
Lemma write_all_ne l d k : k ∉ l.*1 -> write_all l d !! k = d !! k.
Proof.
  revert d. induction l as [|kv l IH]; intros d Hk; [done|]. cbn [fmap list_fmap] in Hk. apply not_elem_of_cons in Hk as [H1 H2].
  cbn [write_all fold_left]. fold (write_all l (<[kv.1 := kv.2]> d)). rewrite IH by done. by rewrite lookup_insert_ne.
Qed.
Lemma write_all_eq l d k v : NoDup l.*1 -> (k, v) ∈ l -> write_all l d !! k = Some v.
Proof.
  revert d. induction l as [|kv l IH]; intros d Hn; [by intros ?%elem_of_nil|]. cbn [fmap list_fmap] in Hn. apply NoDup_cons in Hn as [H1 H2].
  cbn [write_all fold_left]. fold (write_all l (<[kv.1 := kv.2]> d)). intros [<-|Hk]%elem_of_cons; [|by apply IH].
  rewrite write_all_ne by done. apply lookup_insert_eq.
Qed.
Lemma write_all_back c d0 d : holds c d0 -> changed c d0 d -> write_all (entries c) d = d0.
Proof.
  intros Hh [_ Ho]. apply map_eq. intros k. destruct (decide (k ∈ (entries c).*1)) as [Hk|Hk]; [|rewrite write_all_ne by done; by apply Ho].
  apply list_elem_of_fmap in Hk as ([k' v] & -> & Hv). cbn [fst]. rewrite (Hh _ _ Hv). apply write_all_eq; [apply entries_nodup | done].
Qed.

(** ** The environment *)

(** Variables that are printed as they are, one on a line. *)
Definition word_char (c : Z) : bool := in_rng 48 57 c || in_rng 65 90 c || in_rng 97 122 c || existsb (Z.eqb c) (bs "_.,:/-@").
Definition word (s : str) : Prop := Forall (fun c => word_char c = true) s.
Definition plain_env (e : gmap str str) : Prop := forall k v, e !! k = Some v -> word k /\ word v.
Definition assignment (kv : str * str) : str := kv.1 ++ 61 :: kv.2.
Definition read_lines (l : list str) : gmap str str :=
  fold_left (fun m line => match split_once 61 line with Some (k, v) => <[k := v]> m | None => m end) l ∅.

Lemma word_without c s : word_char c = false -> word s -> without c s.
Proof. intros Hc H. eapply Forall_impl; [exact H|]. intros x Hx ->. congruence. Qed.
Lemma set_all_ne l e k : k ∉ l.*1 -> set_all l e !! k = e !! k.
Proof.
  revert e. induction l as [|kv l IH]; intros e Hk; [done|]. cbn [fmap list_fmap] in Hk. apply not_elem_of_cons in Hk as [H1 H2].
  cbn [set_all fold_left]. fold (set_all l (<[kv.1 := kv.2]> e)). rewrite IH by done. by rewrite lookup_insert_ne.
Qed.
Lemma set_all_eq l e k v : NoDup l.*1 -> (k, v) ∈ l -> set_all l e !! k = Some v.
Proof.
  revert e. induction l as [|kv l IH]; intros e Hn; [by intros ?%elem_of_nil|]. cbn [fmap list_fmap] in Hn. apply NoDup_cons in Hn as [H1 H2].
  cbn [set_all fold_left]. fold (set_all l (<[kv.1 := kv.2]> e)). intros [<-|Hk]%elem_of_cons; [|by apply IH].
  rewrite set_all_ne by done. apply lookup_insert_eq.
Qed.
Lemma unset_all_in l e k : k ∈ l -> unset_all l e !! k = None.
Proof.
  assert (N : forall l e, e !! k = None -> unset_all l e !! k = None).
  { clear. induction l as [|x l IH]; intros e He; [done|]. cbn. apply IH. by apply lookup_delete_None; right. }
  revert e. induction l as [|x l IH]; intros e; [by intros ?%elem_of_nil|]. intros [->|Hk]%elem_of_cons; cbn; [apply N, lookup_delete_eq | by apply IH].
Qed.
Lemma unset_all_out l e k : k ∉ l -> unset_all l e !! k = e !! k.
Proof.
  revert e. induction l as [|x l IH]; intros e Hk; [done|]. apply not_elem_of_cons in Hk as [H1 H2]. cbn. rewrite IH by done. by rewrite lookup_delete_ne.
Qed.
(** What the lines of a plain environment say is the environment. *)
Lemma read_lines_assignments kvs : Forall (fun kv => word kv.1) kvs -> read_lines (assignment <$> kvs) = set_all kvs ∅.
Proof.
  unfold read_lines, set_all. generalize (∅ : gmap str str) as m. intros m H. revert m. induction H as [|[k v] l Hk _ IH]; intros m; [done|]. cbn [fmap list_fmap fold_left].
  unfold assignment at 2. cbn [fst snd]. rewrite split_once_app by by apply word_without. apply IH.
Qed.
Lemma read_environment l e : plain_env e -> l ≡ₚ assignment <$> map_to_list e -> read_lines l = e.
Proof.
  intros He (kvs & -> & Hp)%Permutation_map_inv. change (map assignment kvs) with (assignment <$> kvs). rewrite read_lines_assignments.
  - apply map_eq. intros k. destruct (e !! k) as [v|] eqn:E.
    + apply set_all_eq; [rewrite <- Hp; apply NoDup_fst_map_to_list | rewrite <- Hp; by apply elem_of_map_to_list].
    + rewrite set_all_ne; [apply lookup_empty|]. rewrite <- Hp. intros ([k' v] & -> & Hk)%list_elem_of_fmap. apply elem_of_map_to_list in Hk. cbn in E. congruence.
  - rewrite <- Hp. apply Forall_forall. intros [k v] Hk%elem_of_map_to_list. by apply (He k v).
Qed.

(** ** The rules of the commands *)

(** The state a step starts from; when [clean], no command is going to fail. *)
Definition at_ (clean : bool) (d : gmap Key Gv) (e b : gmap str str) (w : Session) : Prop :=
  w.(dconf) = d /\ w.(user_env) = e /\ w.(bus_env) = b /\ (clean = true -> w.(script) = []).

Section Rules.
Context (print_gv : Gv -> str) (parse_gv : Gv -> str -> option Gv) (show_environment : gmap str str -> str).
(** A plain value is printed as GVariant writes it, and such a text is taken for it by a key of its type. *)
Hypothesis print_plain : forall v, plain_gv v -> print_gv v = gv_text v.
Hypothesis parse_plain : forall old v, plain_gv v -> same_type old v -> parse_gv old (gv_text v) = Some v.
(** A plain environment is printed a variable on a line, in any order. *)
Hypothesis show_plain : forall e, plain_env e -> lines (show_environment e) ≡ₚ assignment <$> map_to_list e.
Context (c : Settings) (d0 : gmap Key Gv).

Lemma command_step w : let '(w', r) := command w in
  w'.(dconf) = w.(dconf) /\ w'.(user_env) = w.(user_env) /\ w'.(bus_env) = w.(bus_env) /\
  exists b, r = Ok b /\ (one_fails w.(script) -> one_fails w'.(script) /\ (w.(script) = [] -> w'.(script) = [] /\ b = true) /\
    (b = false -> w'.(script) = [] /\ w.(script) <> [])).
Proof.
  unfold command. destruct (script w) as [|b s] eqn:E; cbn; (split; [done|]; split; [done|]; split; [done|]).
  - exists true. rewrite E. split; [done|]. by intros H.
  - exists b. split; [done|]. intros [H1 H2]%one_fails_tail. split; [done|]. split; [done|]. intros Hb. by split; [apply H2|].
Qed.
Ltac commanded w :=
  let C := fresh "C" in pose proof (command_step w) as C; destruct (command w) as [w1 r1]; destruct C as (Cd & Ce & Cb & ok & -> & C); cbn;
  specialize (C ltac:(done)) as (Co & Cc & Cf).

Lemma get_rule clean e b schema key v : d0 !! (schema, key) = Some v -> plain_gv v ->
  hoare (at_ clean d0 e b) (gsettings_get print_gv schema key) (fun r w => r = gv_text v /\ at_ clean d0 e b w) (fun w => w.(dconf) = d0).
Proof.
  intros Hv Hp w (H1 & H2 & H3 & H4) Ho. unfold gsettings_get, mbind, st_bind. commanded w. rewrite Cd, H1, Hv.
  destruct ok; cbn; [|destruct (Cf eq_refl); split; [congruence | done]].
  split; [|split; [done | intros E; by apply Cc]]. split; [by rewrite print_plain, trim_line by (done || apply gv_text_solid)|].
  split; [congruence|]. split; [congruence|]. split; [congruence|]. intros Hc. apply Cc. by apply H4.
Qed.
Lemma set_rule clean d e b kv t : typed_write c kv -> t = gv_text kv.2 -> changed c d0 d ->
  hoare (at_ clean d e b) (gsettings_set parse_gv kv.1.1 kv.1.2 t) (fun _ w => changed c d0 (<[kv.1 := kv.2]> d) /\ at_ clean (<[kv.1 := kv.2]> d) e b w) (fun w => changed c d0 w.(dconf)).
Proof.
  intros Ht -> Hd w (H1 & H2 & H3 & H4) Ho. destruct kv as [[schema key] v]. cbn [fst snd]. pose proof Ht as (Hp & v0 & Hv0 & Hty). destruct (proj1 Hd _ _ Hv0) as (old & Hold & Hsame).
  cbn [fst snd] in *. unfold gsettings_set, mbind, st_bind. commanded w. rewrite Cd, H1, Hold. cbn. rewrite parse_plain by (done || by eapply same_type_trans).
  destruct ok; cbn; [|destruct (Cf eq_refl); split; [by rewrite Cd, H1 | done]].
  split; [|split; [done | intros E; by apply Cc]]. split; [by apply (changed_write c d0 d (schema, key, v))|].
  split; [done|]. split; [cbn; congruence|]. split; [cbn; congruence|]. cbn. intros Hc. apply Cc. by apply H4.
Qed.

(** A command that only says whether it worked, and the error that follows when it did not. *)
Lemma guard_rule {B} clean e b (m : Lin bool) msg (k : Lin B) R :
  (forall w, at_ clean d0 e b w -> one_fails w.(script) -> exists w' ok, m w = (w', Ok ok) /\ at_ clean d0 e b w' /\ one_fails w'.(script) /\
     (w.(script) = [] -> w'.(script) = [] /\ ok = true) /\ (ok = false -> w'.(script) = [] /\ w.(script) <> [])) ->
  hoare (at_ clean d0 e b) k R (fun w => w.(dconf) = d0) ->
  hoare (at_ clean d0 e b) (x ← m; if negb (x : bool) then throw msg else k) R (fun w => w.(dconf) = d0).
Proof.
  intros Hm Hk w Hw Ho. destruct (Hm w Hw Ho) as (w' & ok & Em & Hw' & Ho' & Hc & Hf). unfold mbind, st_bind. rewrite Em.
  destruct ok; cbn [negb].
  - specialize (Hk w' Hw' Ho'). destruct (k w') as [w2 [r|x|]]; [naive_solver | naive_solver | done].
  - cbn. destruct (Hf eq_refl). split; [apply Hw' | done].
Qed.
Lemma available_ok clean e b w : at_ clean d0 e b w -> one_fails w.(script) -> exists w' ok, gsettings_available w = (w', Ok ok) /\ at_ clean d0 e b w' /\
  one_fails w'.(script) /\ (w.(script) = [] -> w'.(script) = [] /\ ok = true) /\ (ok = false -> w'.(script) = [] /\ w.(script) <> []).
Proof.
  intros (H1 & H2 & H3 & H4) Ho. unfold gsettings_available. commanded w. exists w1, ok. split; [done|]. split; [|done].
  split; [congruence|]. split; [congruence|]. split; [congruence|]. intros Hc. apply Cc. by apply H4.
Qed.
Lemma schema_ok clean e b w : holds c d0 -> wellformed c -> at_ clean d0 e b w -> one_fails w.(script) ->
  exists w' ok, schema_exists print_gv w = (w', Ok ok) /\ at_ clean d0 e b w' /\
  one_fails w'.(script) /\ (w.(script) = [] -> w'.(script) = [] /\ ok = true) /\ (ok = false -> w'.(script) = [] /\ w.(script) <> []).
Proof.
  intros Hh Hw (H1 & H2 & H3 & H4) Ho. unfold schema_exists, gsettings_get, mbind, st_bind. commanded w. rewrite Cd, H1.
  rewrite (Hh (SCHEMA, "mode"%string) (GStr c.(s_mode))) by (apply (list_elem_of_lookup_2 _ 11); done).
  destruct ok; cbn; eexists _, _; (split; [reflexivity|]); (split; [|done]).
  all: split; [congruence|]; split; [congruence|]; split; [congruence|]; intros Hc; apply Cc; by apply H4.
Qed.
Lemma environment_rule clean e b d :
  hoare (at_ clean d e b) (read_systemd_user_environment show_environment) (fun m w => at_ clean d e b w /\ (clean = true -> m = read_lines (lines (show_environment e))))
    (fun w => w.(dconf) = d).
Proof.
  intros w (H1 & H2 & H3 & H4) Ho. unfold read_systemd_user_environment, mbind, st_bind. commanded w.
  split; [|split; [done | intros E; by apply Cc]]. split.
  - split; [congruence|]. split; [congruence|]. split; [congruence|]. intros Hc. apply Cc. by apply H4.
  - intros Hc. destruct (Cc (H4 Hc)) as [_ ->]. by rewrite Ce, H2.
Qed.

Hypothesis Hold : holds c d0.
Hypothesis Hwell : wellformed c.

Lemma entry_at i k v : entries c !! i = Some (k, v) -> d0 !! k = Some v /\ plain_gv v.
Proof.
  intros Hi. apply list_elem_of_lookup_2 in Hi. split; [by apply Hold|]. unfold wellformed in Hwell. rewrite Forall_forall in Hwell. apply (Hwell _ Hi).
Qed.
Ltac get_key i := eapply hoare_bind; [eapply get_rule; eapply (entry_at i); reflexivity | cbn beta; intros ?].

Definition backup_of (ev : list (str * option str)) : ProxyBackup :=
  {| mode := c.(s_mode); use_same_proxy := c.(s_same); ignore_hosts := gv_text (GStrs c.(s_ignore));
     http := {| slot_enabled := c.(s_http_enabled); slot_host := c.(s_http_host); slot_port := c.(s_http_port) |};
     https := {| hp_host := c.(s_https_host); hp_port := c.(s_https_port) |}; socks := {| hp_host := c.(s_socks_host); hp_port := c.(s_socks_port) |};
     ftp := {| hp_host := c.(s_ftp_host); hp_port := c.(s_ftp_port) |}; env := ev |}.
Definition env_of (e : gmap str str) : list (str * option str) := (fun k => (k, e !! k)) <$> PROXY_ENV_KEYS.

Lemma hoare_pure {A} (p : Prop) P (m : Lin A) Q E : (p -> hoare P m Q E) -> hoare (fun w => p /\ P w) m Q E.
Proof. intros H w [Hp HP]. by apply H. Qed.

Lemma text_of i k s : entries c !! i = Some (k, GStr s) -> parse_gvariant_string (gv_text (GStr s)) = s.
Proof. intros [_ H]%entry_at. by apply parse_quote. Qed.
Lemma port_of i k n : entries c !! i = Some (k, GInt n) -> parse_gvariant_i32 (gv_text (GInt n)) = n.
Proof. intros [_ H]%entry_at. by apply parse_i32_port. Qed.

Lemma http_slot_rule clean e b : hoare (at_ clean d0 e b) (read_http_slot print_gv)
  (fun r w => r = (backup_of []).(http) /\ at_ clean d0 e b w) (fun w => w.(dconf) = d0).
Proof.
  unfold read_http_slot. get_key 2%nat. apply hoare_pure. intros ->. get_key 0%nat. apply hoare_pure. intros ->. get_key 1%nat. apply hoare_pure. intros ->.
  apply hoare_ret. intros w Hw. split; [|done]. change (gv_text (GBool (s_http_enabled c))) with (show_bool (s_http_enabled c)).
  by rewrite parse_show_bool, (text_of 0 _ _ eq_refl), (port_of 1 _ _ eq_refl).
Qed.
Lemma host_port_rule clean e b schema i host port : entries c !! i = Some ((schema, "host"%string), GStr host) ->
  entries c !! S i = Some ((schema, "port"%string), GInt port) ->
  hoare (at_ clean d0 e b) (read_host_port print_gv schema) (fun r w => r = {| hp_host := host; hp_port := port |} /\ at_ clean d0 e b w) (fun w => w.(dconf) = d0).
Proof.
  intros H1 H2. unfold read_host_port. eapply hoare_bind; [by eapply get_rule; eapply entry_at|]. cbn beta. intros x. apply hoare_pure. intros ->.
  eapply hoare_bind; [by eapply get_rule; eapply entry_at|]. cbn beta. intros y. apply hoare_pure. intros ->.
  apply hoare_ret. intros w Hw. split; [|done]. by rewrite (text_of _ _ _ H1), (port_of _ _ _ H2).
Qed.
Lemma read_backup_rule clean e b : plain_env e ->
  hoare (at_ clean d0 e b) (read_backup print_gv show_environment) (fun r w => (exists ev, r = backup_of ev /\ (clean = true -> ev = env_of e)) /\ at_ clean d0 e b w)
    (fun w => w.(dconf) = d0).
Proof.
  intros He. unfold read_backup. apply guard_rule; [intros w Hw Ho; by apply available_ok|]. apply guard_rule; [intros w Hw Ho; by apply schema_ok|].
  get_key 11%nat. apply hoare_pure. intros ->. get_key 9%nat. apply hoare_pure. intros ->. get_key 10%nat. apply hoare_pure. intros ->.
  eapply hoare_bind; [apply http_slot_rule|]. cbn beta. intros x. apply hoare_pure. intros ->.
  eapply hoare_bind; [by apply (host_port_rule _ _ _ _ 3)|]. cbn beta. intros x. apply hoare_pure. intros ->.
  eapply hoare_bind; [by apply (host_port_rule _ _ _ _ 5)|]. cbn beta. intros x. apply hoare_pure. intros ->.
  eapply hoare_bind; [by apply (host_port_rule _ _ _ _ 7)|]. cbn beta. intros x. apply hoare_pure. intros ->.
  unfold snapshot_proxy_env. eapply hoare_bind; [eapply hoare_bind; [apply environment_rule|]|].
  - cbn beta. intros m. apply (hoare_ret _ _ (fun r w => at_ clean d0 e b w /\ (clean = true -> r = env_of e))). intros w [Hw Hm]. split; [done|].
    intros Hc. rewrite (Hm Hc), (read_environment _ e He) by by apply show_plain. done.
  - cbn beta. intros ev. apply hoare_ret. intros w [Hw Hev]. split; [|done]. exists ev. split; [|done].
    change (gv_text (GBool (s_same c))) with (show_bool (s_same c)). by rewrite parse_show_bool, (text_of 11 _ _ eq_refl).
Qed.

(** The commands of the environment never report an error; when none fails, the environments are known. *)
Definition near (clean : bool) (d : gmap Key Gv) (e b : gmap str str) (w : Session) : Prop :=
  w.(dconf) = d /\ (clean = true -> w.(script) = [] /\ w.(user_env) = e /\ w.(bus_env) = b).
Lemma at_near clean d e b w : at_ clean d e b w -> near clean d e b w.
Proof. intros (H1 & H2 & H3 & H4). split; [done|]. auto. Qed.
Lemma env_rule clean d e b f g E :
  hoare (near clean d e b) (ok ← command; if ok : bool then modify (fun w => set_env (f w.(user_env)) (g w.(bus_env)) w) else mret tt)
    (fun _ => near clean d (f e) (g b)) E.
Proof.
  intros w [H1 H2] Ho. unfold mbind, st_bind. commanded w. destruct ok; cbn; (split; [|split; [done | intros Es; by apply Cc]]).
  - split; [cbn; congruence|]. intros Hc. destruct (H2 Hc) as (Hs & He & Hb). split; [by apply Cc | cbn; split; congruence].
  - split; [congruence|]. intros Hc. destruct (H2 Hc) as (Hs & _). by destruct (Cc Hs).
Qed.
Lemma set_env_rule clean d e b vars E : hoare (near clean d e b) (set_systemd_user_environment vars) (fun _ => near clean d (set_all vars e) b) E.
Proof. destruct vars as [|x l]; [by apply hoare_ret|]. apply (env_rule clean d e b (set_all (x :: l)) id). Qed.
Lemma unset_env_rule clean d e b keys E : hoare (near clean d e b) (unset_systemd_user_environment keys) (fun _ => near clean d (unset_all keys e) b) E.
Proof. destruct keys as [|x l]; [by apply hoare_ret|]. apply (env_rule clean d e b (unset_all (x :: l)) id). Qed.
Lemma bus_env_rule clean d e b vars E : hoare (near clean d e b) (dbus_update_activation_environment vars) (fun _ => near clean d (set_all vars e) (set_all vars b)) E.
Proof. destruct vars as [|x l]; [by apply hoare_ret|]. apply (env_rule clean d e b (set_all (x :: l)) (set_all (x :: l))). Qed.
Lemma apply_env_rule clean d e b hh hp sh sp hosts E : let vars := proxy_env_assignments hh hp sh sp hosts in
  hoare (near clean d e b) (apply_session_env hh hp sh sp hosts) (fun _ => near clean d (set_all vars (set_all vars e)) (set_all vars b)) E.
Proof. intros vars. unfold apply_session_env. eapply hoare_bind; [apply set_env_rule|]. intros ?. apply bus_env_rule. Qed.
Definition env_after_restore (ev : list (str * option str)) (e : gmap str str) : gmap str str :=
  let e := unset_all (to_unset ev) e in
  match to_set ev with [] => set_all ((fun k => (k, [])) <$> to_unset ev) e | vars => set_all vars (set_all vars e) end.
Definition bus_after_restore (ev : list (str * option str)) (b : gmap str str) : gmap str str :=
  match to_set ev with [] => set_all ((fun k => (k, [])) <$> to_unset ev) b | vars => set_all vars b end.
Lemma restore_env_rule clean d e b ev E :
  hoare (near clean d e b) (restore_session_env ev) (fun _ => near clean d (env_after_restore ev e) (bus_after_restore ev b)) E.
Proof.
  unfold restore_session_env, env_after_restore, bus_after_restore. eapply hoare_bind; [apply unset_env_rule|]. intros ?.
  destruct (to_set ev) as [|x l]; [apply bus_env_rule|]. eapply hoare_bind; [apply set_env_rule|]. intros ?. apply bus_env_rule.
Qed.

(** ** Applying, and putting back *)

Lemma typed_at i k v v' : entries c !! i = Some (k, v) -> same_type v v' -> plain_gv v' -> typed_write c (k, v').
Proof. intros Hi Ht Hp. split; [done|]. exists v. split; [by eapply list_elem_of_lookup_2 | done]. Qed.
(** Writes the [i]th entry, which has to have the text [gv_text v]; [Hd] says that the database has changed at the proxy keys only. *)
Ltac set_key i v Hd :=
  match goal with |- context [gsettings_set parse_gv ?s ?k _] =>
    eapply hoare_bind; [apply (set_rule _ _ _ _ ((s, k), v)); [eapply (typed_at i); [reflexivity | done | first [assumption | done | literal]]
      | first [reflexivity | by rewrite show_i32_port | by rewrite format_plain] | exact Hd]|];
    cbn beta; intros _; apply hoare_pure; clear Hd; intros Hd; cbn [fst snd] in *
  end.

Definition ours (http_port socks_port : Z) (merged : list str) : list (Key * Gv) :=
  [((SCHEMA, "mode"), GStr (bs "manual")); ((SCHEMA, "use-same-proxy"), GBool false); ((SCHEMA, "ignore-hosts"), GStrs merged);
   ((SCHEMA_HTTP, "host"), GStr (bs "127.0.0.1")); ((SCHEMA_HTTP, "port"), GInt http_port); ((SCHEMA_HTTP, "enabled"), GBool true);
   ((SCHEMA_HTTPS, "host"), GStr (bs "127.0.0.1")); ((SCHEMA_HTTPS, "port"), GInt http_port);
   ((SCHEMA_SOCKS, "host"), GStr (bs "127.0.0.1")); ((SCHEMA_SOCKS, "port"), GInt socks_port);
   ((SCHEMA_FTP, "host"), GStr []); ((SCHEMA_FTP, "port"), GInt 0)]%string.

(** The exceptions: what was there (an empty list is misread), the profile's hosts, and the required ones. *)
Definition existing_hosts : list str := match c.(s_ignore) with [] => [bs "@as []"] | l => l end.
Definition merged_with (hosts : list str) : list str := fold_left push_required REQUIRED_HOSTS (fold_left push_some (normalize_ignore_host <$> hosts) existing_hosts).
Definition clean_host (h : str) : Prop := plain h /\ graphic h /\ h <> [].
Lemma merged_is hosts : merged_hosts (gv_text (GStrs c.(s_ignore))) hosts = merged_with hosts.
Proof.
  unfold merged_hosts, merged_with. f_equal. f_equal. unfold existing_hosts. pose proof (proj2 (entry_at 10 _ _ eq_refl)) as P.
  destruct (s_ignore c) as [|x l]; [by vm_compute|]. apply parse_hosts; done.
Qed.
Lemma normalized_clean h : clean_host h -> plain (normalize_ignore_host h) /\ normalize_ignore_host h <> [].
Proof.
  intros (Hp & Hg & Hn). unfold normalize_ignore_host. rewrite trim_graphic by done. destruct (strip_prefix (bs "*.") h) as [rest|] eqn:E; [|done].
  split; [|done]. unfold strip_prefix in E. destruct (starts_with h _); [|done]. injection E as <-. constructor; [by vm_compute|]. by apply Forall_drop.
Qed.
Lemma push_plain (f : list str -> str -> list str) l acc (P : str -> Prop) : (forall acc x, f acc x = acc \/ f acc x = acc ++ [x]) ->
  Forall P acc -> Forall P l -> Forall P (fold_left f l acc).
Proof.
  intros Hf Ha Hl. revert acc Ha. induction Hl as [|x l Hx _ IH]; intros acc Ha; [done|]. cbn. apply IH. destruct (Hf acc x) as [->| ->]; [done|].
  apply Forall_app. split; [done|]. by constructor.
Qed.
Lemma merged_plain hosts : Forall clean_host hosts -> Forall (fun s => plain s /\ s <> []) (merged_with hosts).
Proof.
  intros H. unfold merged_with. assert (R : forall acc x, push_required acc x = acc \/ push_required acc x = acc ++ [x]) by (intros; unfold push_required; case_match; auto).
  apply push_plain; [done| |apply (bool_decide_unpack _); by vm_compute]. apply push_plain.
  - intros acc [|x y]; [by left | apply R].
  - unfold existing_hosts. pose proof (proj2 (entry_at 10 _ _ eq_refl)) as P. destruct (s_ignore c); [|done]. apply (bool_decide_unpack _). by vm_compute.
  - apply Forall_fmap. eapply Forall_impl; [exact H|]. intros h Hh. by apply normalized_clean.
Qed.
Lemma loopback_required : bs "::1" ∈ REQUIRED_HOSTS.
Proof. unfold REQUIRED_HOSTS. by do 3 constructor. Qed.
Lemma merged_some hosts : merged_with hosts <> [].
Proof.
  pose proof (required_listed REQUIRED_HOSTS (fold_left push_some (normalize_ignore_host <$> hosts) existing_hosts) _ loopback_required) as L.
  unfold merged_with. by destruct (fold_left _ _ _).
Qed.

Lemma split_local p : is_u16 p -> split_host_port (local_proxy p) = Ok (bs "127.0.0.1", p).
Proof. intros Hp. unfold split_host_port. rewrite local_proxy_split. cbv beta iota. by rewrite parse_port. Qed.

Lemma inner_rule clean e b ev hp sp hosts : is_u16 hp -> is_u16 sp -> Forall clean_host hosts ->
  let vars := proxy_env_assignments (bs "127.0.0.1") hp (bs "127.0.0.1") sp hosts in
  hoare (at_ clean d0 e b) (apply_proxy_inner parse_gv (local_proxy hp) (local_proxy sp) hosts (backup_of ev))
    (fun _ => near clean (write_all (ours hp sp (merged_with hosts)) d0) (set_all vars (set_all vars e)) (set_all vars b))
    (fun w => changed c d0 w.(dconf)).
Proof.
  intros Hh Hs Hc vars. unfold apply_proxy_inner. rewrite !split_local by done.
  change (merge_ignore_hosts _ hosts) with (format_ignore_hosts_list (merged_hosts (gv_text (GStrs (s_ignore c))) hosts)).
  rewrite merged_is, format_hosts by (apply merged_some || by apply merged_plain). pose proof (merged_plain hosts Hc) as Hm.
  pose proof (changed_refl c d0 (holds_shaped c d0 Hold)) as Hd.
  assert (P : plain_gv (GStr (bs "127.0.0.1"))) by literal.
  assert (Z0 : plain_gv (GInt 0)) by (split; lia). assert (S0 : plain_gv (GStr [])) by constructor.
  eapply hoare_bind; [apply (hoare_ret _ _ (fun r w => r = (bs "127.0.0.1", hp) /\ at_ clean d0 e b w)); done|]. intros x. apply hoare_pure. intros ->.
  eapply hoare_bind; [apply (hoare_ret _ _ (fun r w => r = (bs "127.0.0.1", sp) /\ at_ clean d0 e b w)); done|]. intros x. apply hoare_pure. intros ->.
  set_key 11%nat (GStr (bs "manual")) Hd. set_key 9%nat (GBool false) Hd. set_key 10%nat (GStrs (merged_with hosts)) Hd.
  set_key 0%nat (GStr (bs "127.0.0.1")) Hd. set_key 1%nat (GInt hp) Hd. set_key 2%nat (GBool true) Hd.
  set_key 3%nat (GStr (bs "127.0.0.1")) Hd. set_key 4%nat (GInt hp) Hd. set_key 5%nat (GStr (bs "127.0.0.1")) Hd. set_key 6%nat (GInt sp) Hd.
  set_key 7%nat (GStr []) Hd. set_key 8%nat (GInt 0) Hd.
  eapply hoare_weaken; [apply apply_env_rule | intros w; apply at_near | intros ? w Hw; exact Hw | intros w Hw; exact Hw].
Qed.

(** The [i]th entry with its own value, in the middle of a sequence and at its end. *)
Lemma own_rule i kv clean d e b t : entries c !! i = Some kv -> t = gv_text kv.2 -> changed c d0 d ->
  hoare (at_ clean d e b) (gsettings_set parse_gv kv.1.1 kv.1.2 t) (fun _ w => changed c d0 (<[kv.1 := kv.2]> d) /\ at_ clean (<[kv.1 := kv.2]> d) e b w)
    (fun w => changed c d0 w.(dconf)).
Proof.
  intros Hi Ht Hd. destruct kv as [k v]. apply set_rule; [|done|done]. apply (typed_at i k v v Hi); [by destruct v | by eapply entry_at].
Qed.
Lemma own_text i k s : entries c !! i = Some (k, GStr s) -> format_gvariant_string s = gv_text (GStr s).
Proof. intros [_ H]%entry_at. by apply format_plain. Qed.
Lemma own_port i k n : entries c !! i = Some (k, GInt n) -> show_i32 n = gv_text (GInt n).
Proof. intros [_ H]%entry_at. by apply show_i32_port. Qed.
Ltac own_key i Hd :=
  eapply hoare_bind; [apply (own_rule i _ _ _ _ _ _ eq_refl); [first [reflexivity | by eapply (own_text i) | by eapply (own_port i)] | exact Hd]|];
  cbn beta; intros _; apply hoare_pure; clear Hd; intros Hd; cbn [fst snd] in *.
Ltac last_key i Hd := apply (own_rule i _ _ _ _ _ _ eq_refl); [first [reflexivity | by eapply (own_text i) | by eapply (own_port i)] | exact Hd].

Lemma write_slot_rule clean d e b ev : changed c d0 d ->
  hoare (at_ clean d e b) (write_http_slot parse_gv (backup_of ev).(http))
    (fun _ w => changed c d0 (write_all (take 3 (entries c)) d) /\ at_ clean (write_all (take 3 (entries c)) d) e b w) (fun w => changed c d0 w.(dconf)).
Proof. intros Hd. unfold write_http_slot. own_key 0%nat Hd. own_key 1%nat Hd. last_key 2%nat Hd. Qed.
Lemma write_host_rule clean d e b schema i host port : changed c d0 d -> entries c !! i = Some ((schema, "host"%string), GStr host) ->
  entries c !! S i = Some ((schema, "port"%string), GInt port) ->
  hoare (at_ clean d e b) (write_host_port parse_gv schema {| hp_host := host; hp_port := port |})
    (fun _ w => let d' := <[(schema, "port"%string) := GInt port]> (<[(schema, "host"%string) := GStr host]> d) in changed c d0 d' /\ at_ clean d' e b w)
    (fun w => changed c d0 w.(dconf)).
Proof.
  intros Hd H1 H2. unfold write_host_port. eapply hoare_bind; [apply (own_rule i _ _ _ _ _ _ H1); [by eapply own_text | exact Hd]|].
  cbn beta. intros _. apply hoare_pure. clear Hd. intros Hd. apply (own_rule (S i) _ _ _ _ _ _ H2); [by eapply own_port | exact Hd].
Qed.
Lemma restore_rule clean d e b ev : changed c d0 d ->
  hoare (at_ clean d e b) (restore parse_gv (backup_of ev))
    (fun _ => near clean (write_all (entries c) d) (env_after_restore ev e) (bus_after_restore ev b)) (fun w => changed c d0 w.(dconf)).
Proof.
  intros Hd. unfold restore. eapply hoare_bind; [by apply write_slot_rule|]. cbn beta. intros _. apply hoare_pure. clear Hd. intros Hd.
  eapply hoare_bind; [by apply (write_host_rule _ _ _ _ _ 3)|]. cbn beta zeta. intros _. apply hoare_pure. clear Hd. intros Hd.
  eapply hoare_bind; [by apply (write_host_rule _ _ _ _ _ 5)|]. cbn beta zeta. intros _. apply hoare_pure. clear Hd. intros Hd.
  eapply hoare_bind; [by apply (write_host_rule _ _ _ _ _ 7)|]. cbn beta zeta. intros _. apply hoare_pure. clear Hd. intros Hd.
  own_key 9%nat Hd. own_key 10%nat Hd. own_key 11%nat Hd.
  eapply hoare_weaken; [apply restore_env_rule | intros w; apply at_near | intros ? w Hw; exact Hw | intros w Hw; exact Hw].
Qed.
Lemma or_undo_rule P (m undo : Lin unit) Q : hoare P m Q (fun w => changed c d0 w.(dconf)) ->
  (forall d e b, changed c d0 d -> hoare (at_ true d e b) undo (fun _ w => w.(dconf) = d0) (fun _ => True)) ->
  hoare P (or_undo m undo) Q (fun w => w.(dconf) = d0).
Proof.
  intros Hm Hu w Hp Ho. specialize (Hm w Hp Ho). unfold or_undo. destruct (m w) as [w1 [a|x|]]; [done| |done].
  destruct Hm as (Hc & Hs & Hn). specialize (Hu _ (user_env w1) (bus_env w1) Hc w1). assert (A : at_ true w1.(dconf) (user_env w1) (bus_env w1) w1) by by repeat split. specialize (Hu A (or_introl Hs)).
  destruct (undo w1) as [w2 [u|y|]]; [|by destruct Hu as (_ & _ & Hu)|done]. destruct Hu as (H1 & H2 & H3). split; [done|]. split; [by apply H3 | done].
Qed.
Lemma apply_rule clean e b hp sp hosts : plain_env e -> is_u16 hp -> is_u16 sp -> Forall clean_host hosts ->
  let vars := proxy_env_assignments (bs "127.0.0.1") hp (bs "127.0.0.1") sp hosts in
  hoare (at_ clean d0 e b) (apply_proxy print_gv parse_gv show_environment (local_proxy hp) (local_proxy sp) hosts)
    (fun _ => near clean (write_all (ours hp sp (merged_with hosts)) d0) (set_all vars (set_all vars e)) (set_all vars b)) (fun w => w.(dconf) = d0).
Proof.
  intros He Hh Hs Hc vars. unfold apply_proxy. apply guard_rule; [intros w Hw Ho; by apply available_ok|]. apply guard_rule; [intros w Hw Ho; by apply schema_ok|].
  eapply hoare_bind; [by apply read_backup_rule|]. cbn beta. intros bk. apply hoare_pure. intros (ev & -> & _). apply or_undo_rule; [by apply inner_rule|].
  intros d e' b' Hd. eapply hoare_weaken; [by apply restore_rule | done | | done]. intros u w [H _]. rewrite H. by apply write_all_back.
Qed.

(** One failure is made up for by the second try. *)
Lemma retry_back d e b ev s : changed c d0 d -> one_fails s ->
  exists w, restore_with_retry parse_gv (backup_of ev) {| dconf := d; user_env := e; bus_env := b; script := s |} = (w, Ok tt) /\ w.(dconf) = d0 /\
    (s = [] -> w.(user_env) = env_after_restore ev e /\ w.(bus_env) = bus_after_restore ev b).
Proof.
  intros Hd Hs. unfold restore_with_retry. cbn [restore_tries]. set (w0 := {| dconf := d; user_env := e; bus_env := b; script := s |}).
  pose proof (restore_rule (bool_decide (s = [])) d e b ev Hd w0) as R. cbn [script] in R. destruct (restore _ _ w0) as [w1 [[]|x|]].
  - destruct R as ((R & Rn) & _ & _); [repeat split; intros H; by apply bool_decide_eq_true in H | done |]. exists w1. split; [done|].
    split; [rewrite R; by apply write_all_back|]. intros E. by apply Rn, bool_decide_true.
  - destruct R as (Hc & He & Hn); [repeat split; intros H; by apply bool_decide_eq_true in H | done |].
    pose proof (restore_rule true _ (user_env w1) (bus_env w1) ev Hc w1) as R2. destruct (restore _ _ w1) as [w2 [[]|y|]].
    + destruct R2 as ((R2 & _) & _ & _); [by repeat split | by left |]. exists w2. split; [done|]. split; [rewrite R2; by apply write_all_back | done].
    + destruct R2 as (_ & _ & Hz); [by repeat split | by left |]. done.
    + destruct R2; [by repeat split | by left].
  - destruct R; [repeat split; intros H; by apply bool_decide_eq_true in H | done].
Qed.
End Rules.

(** ** The environment comes back *)

Lemma to_set_keys ev : sublist (to_set ev).*1 ev.*1.
Proof. induction ev as [|[k [v|]] l IH]; cbn; [constructor | by constructor | by constructor]. Qed.
Lemma to_set_elem e k v : k ∈ PROXY_ENV_KEYS -> e !! k = Some v -> (k, v) ∈ to_set (env_of e).
Proof.
  unfold env_of. intros Hk He. induction PROXY_ENV_KEYS as [|x l IH]; [by apply elem_of_nil in Hk|]. apply elem_of_cons in Hk as [->|Hk]; cbn.
  - rewrite He. cbn. constructor.
  - destruct (e !! x); cbn; [constructor|]; by apply IH.
Qed.
Lemma to_set_inv e k v : (k, v) ∈ to_set (env_of e) -> k ∈ PROXY_ENV_KEYS /\ e !! k = Some v.
Proof.
  unfold env_of. induction PROXY_ENV_KEYS as [|x l IH]; [by intros ?%elem_of_nil|]. cbn. destruct (e !! x) as [y|] eqn:E; cbn.
  - intros [[= -> ->]|H]%elem_of_cons; [split; [constructor | done]|]. destruct (IH H). split; [by constructor | done].
  - intros H. destruct (IH H). split; [by constructor | done].
Qed.
Lemma to_unset_iff e k : k ∈ to_unset (env_of e) <-> k ∈ PROXY_ENV_KEYS /\ e !! k = None.
Proof.
  unfold env_of. induction PROXY_ENV_KEYS as [|x l IH]; cbn; [by rewrite !elem_of_nil; naive_solver|]. destruct (e !! x) as [y|] eqn:E; cbn.
  - rewrite IH, elem_of_cons. naive_solver.
  - rewrite !elem_of_cons, IH. naive_solver.
Qed.
Lemma to_set_nodup e : NoDup (to_set (env_of e)).*1.
Proof.
  eapply sublist_NoDup; [|apply to_set_keys]. unfold env_of. rewrite <- list_fmap_compose. change (fst ∘ (fun k => (k, e !! k))) with (@id str). rewrite list_fmap_id.
  apply (bool_decide_unpack _). by vm_compute.
Qed.
(** When one of the variables was set, all of them are what they were. *)
Lemma env_back e vars : vars.*1 = PROXY_ENV_KEYS -> (exists k, k ∈ PROXY_ENV_KEYS /\ is_Some (e !! k)) ->
  env_after_restore (env_of e) (set_all vars (set_all vars e)) = e.
Proof.
  intros Hv (k0 & Hk0 & [v0 Hv0]). unfold env_after_restore. pose proof (to_set_elem e k0 v0 Hk0 Hv0) as Hin. pose proof (to_set_nodup e) as Hn.
  destruct (to_set (env_of e)) as [|x l] eqn:E; [by apply elem_of_nil in Hin|]. rewrite <- E in *. clear Hin.
  apply map_eq. intros k. destruct (decide (k ∈ PROXY_ENV_KEYS)) as [Hk|Hk]; [destruct (e !! k) as [v|] eqn:Ek|].
  - by apply set_all_eq, to_set_elem.
  - assert (N : k ∉ (to_set (env_of e)).*1) by (intros ([k' v] & -> & Hf)%list_elem_of_fmap; apply to_set_inv in Hf as [_ Hf]; cbn in Ek; congruence).
    rewrite !set_all_ne by done. by apply unset_all_in, to_unset_iff.
  - assert (N : k ∉ (to_set (env_of e)).*1) by (intros ([k' v] & -> & Hf)%list_elem_of_fmap; by apply to_set_inv in Hf as [Hf _]).
    rewrite !set_all_ne by done. rewrite unset_all_out by (by intros [? _]%to_unset_iff). by rewrite !set_all_ne by (by rewrite Hv).
Qed.

(** ** The theorems *)

Lemma kept_elem (f : list str -> str -> list str) l acc x : (forall acc x, exists r, f acc x = acc ++ r) -> x ∈ acc -> x ∈ fold_left f l acc.
Proof. intros G Hx. destruct (push_grows f l acc G) as [r ->]. apply elem_of_app. by left. Qed.
Lemma merged_holds c hosts :
  (forall h, h ∈ REQUIRED_HOSTS -> listed h (merged_with c hosts) = true) /\ (forall h, h ∈ c.(s_ignore) -> h ∈ merged_with c hosts) /\
  (forall h, h ∈ hosts -> clean_host h -> listed (normalize_ignore_host h) (merged_with c hosts) = true).
Proof.
  unfold merged_with. split; [intros h; apply required_listed|]. split.
  - intros h Hh. apply kept_elem; [apply push_required_grows|]. apply kept_elem; [apply push_some_grows|]. unfold existing_hosts. destruct (s_ignore c); [by apply elem_of_nil in Hh | done].
  - intros h Hh Hc. destruct (push_grows push_required REQUIRED_HOSTS (fold_left push_some (normalize_ignore_host <$> hosts) (existing_hosts c)) push_required_grows) as [r ->].
    apply listed_app. revert Hh. generalize (existing_hosts c) as acc. induction hosts as [|x l IH]; intros acc; [by intros ?%elem_of_nil|].
    intros [->|Hx]%elem_of_cons; cbn; [|by apply IH].
    destruct (push_grows push_some (normalize_ignore_host <$> l) (push_some acc (normalize_ignore_host x)) push_some_grows) as [r' E]. fold (normalize_ignore_host <$> l).
    rewrite E. apply listed_app. destruct (normalized_clean x Hc) as [_ Hn]. destruct (normalize_ignore_host x) as [|y t]; [done|]. apply push_required_listed.
Qed.

Lemma ours_nodup hp sp m : NoDup (ours hp sp m).*1.
Proof. apply (bool_decide_unpack _). by vm_compute. Qed.
Lemma changed_writes c d0 d l : Forall (typed_write c) l -> changed c d0 d -> changed c d0 (write_all l d).
Proof. intros H. revert d. induction H as [|kv l Hk _ IH]; intros d Hd; [done|]. cbn. by apply IH, changed_write. Qed.
Lemma ours_typed c hp sp m : is_u16 hp -> is_u16 sp -> Forall (fun s => plain s /\ s <> []) m -> Forall (typed_write c) (ours hp sp m).
Proof.
  intros Hh Hs Hm. unfold ours. assert (Z0 : plain_gv (GInt 0)) by (split; lia). assert (S0 : plain_gv (GStr [])) by constructor.
  assert (P : plain_gv (GStr (bs "127.0.0.1"))) by literal. assert (M : plain_gv (GStr (bs "manual"))) by literal.
  repeat (apply Forall_cons; split); try apply Forall_nil; try done.
  - by apply (typed_at c 11 _ (GStr c.(s_mode))).
  - by apply (typed_at c 9 _ (GBool c.(s_same))).
  - by apply (typed_at c 10 _ (GStrs c.(s_ignore))).
  - by apply (typed_at c 0 _ (GStr c.(s_http_host))).
  - by apply (typed_at c 1 _ (GInt c.(s_http_port))).
  - by apply (typed_at c 2 _ (GBool c.(s_http_enabled))).
  - by apply (typed_at c 3 _ (GStr c.(s_https_host))).
  - by apply (typed_at c 4 _ (GInt c.(s_https_port))).
  - by apply (typed_at c 5 _ (GStr c.(s_socks_host))).
  - by apply (typed_at c 6 _ (GInt c.(s_socks_port))).
  - by apply (typed_at c 7 _ (GStr c.(s_ftp_host))).
  - by apply (typed_at c 8 _ (GInt c.(s_ftp_port))).
Qed.

(** What the commands are known to do with plain values and environments. *)
Definition desktop_laws (print_gv : Gv -> str) (parse_gv : Gv -> str -> option Gv) (show_environment : gmap str str -> str) : Prop :=
  (forall v, plain_gv v -> print_gv v = gv_text v) /\
  (forall old v, plain_gv v -> same_type old v -> parse_gv old (gv_text v) = Some v) /\
  (forall e, plain_env e -> lines (show_environment e) ≡ₚ assignment <$> map_to_list e).

Section Theorems.
Context (print_gv : Gv -> str) (parse_gv : Gv -> str -> option Gv) (show_environment : gmap str str -> str).
Definition session (d : gmap Key Gv) (e b : gmap str str) (s : list bool) : Session := {| dconf := d; user_env := e; bus_env := b; script := s |}.

(** Whichever of the commands fails, or none, turning the proxy on leaves no half of it behind: when it reports success, the database holds
    the settings of the application and is otherwise unchanged; when it reports an error, the database is exactly what it was. *)
Theorem linux_applied_or_undone c d e b n hp sp hosts :
  desktop_laws print_gv parse_gv show_environment -> holds c d -> wellformed c -> plain_env e -> is_u16 hp -> is_u16 sp -> Forall clean_host hosts ->
  let '(w, res) := apply_proxy print_gv parse_gv show_environment (local_proxy hp) (local_proxy sp) hosts (session d e b (replicate n true ++ [false])) in
  match res with
  | Ok _ => w.(dconf) = write_all (ours hp sp (merged_with c hosts)) d
  | Err _ => w.(dconf) = d
  | Panic => False
  end.
Proof.
  intros (L1 & L2 & L3) Hd Hw He Hh Hs Hc.
  pose proof (apply_rule print_gv parse_gv show_environment L1 L2 L3 c d Hd Hw false e b hp sp hosts He Hh Hs Hc (session d e b (replicate n true ++ [false]))) as R.
  destruct (apply_proxy _ _ _ _ _ _ _) as [w [a|x|]].
  - destruct R as ((R & _) & _); [by repeat split | right; by exists n | exact R].
  - destruct R as (R & _); [by repeat split | right; by exists n | exact R].
  - destruct R; [by repeat split | right; by exists n].
Qed.

(** C36: On Linux the settings come back, for settings, variables and hosts of plain text (printable ASCII without quotes, backslashes and
    commas, variables of letters, digits and _.,:/-@ only), with commands that print as they are documented to, none failing until the proxy is applied. The
    snapshot is taken without a change; applying then points the HTTP, HTTPS and SOCKS proxies to the application and leaves the FTP proxy
    empty, with what was exempt before, the profile's domains and the local networks exempt; and putting the snapshot back, even if one of
    its commands fails, restores the whole database exactly, and the variables of the session too, if one of them was set and no command fails. *)
Theorem linux_settings_come_back c d e b hp sp hosts :
  desktop_laws print_gv parse_gv show_environment -> holds c d -> wellformed c -> plain_env e -> is_u16 hp -> is_u16 sp -> Forall clean_host hosts ->
  exists backup w, read_backup print_gv show_environment (session d e b []) = (session d e b [], Ok backup) /\
    apply_proxy print_gv parse_gv show_environment (local_proxy hp) (local_proxy sp) hosts (session d e b []) = (w, Ok tt) /\
    (forall k v, (k, v) ∈ ours hp sp (merged_with c hosts) -> w.(dconf) !! k = Some v) /\
    (forall h, h ∈ REQUIRED_HOSTS -> listed h (merged_with c hosts) = true) /\ (forall h, h ∈ c.(s_ignore) -> h ∈ merged_with c hosts) /\
    (forall h, h ∈ hosts -> listed (normalize_ignore_host h) (merged_with c hosts) = true) /\
    forall s, one_fails s -> exists w', restore_with_retry parse_gv backup (session w.(dconf) w.(user_env) w.(bus_env) s) = (w', Ok tt) /\ w'.(dconf) = d /\
      (s = [] -> (exists k, k ∈ PROXY_ENV_KEYS /\ is_Some (e !! k)) -> w'.(user_env) = e).
Proof.
  intros (L1 & L2 & L3) Hd Hw He Hh Hs Hc. set (w0 := session d e b []). assert (A : at_ true d e b w0) by by repeat split.
  pose proof (read_backup_rule print_gv show_environment L1 L3 c d Hd Hw true e b He w0 A (or_introl eq_refl)) as B.
  destruct (read_backup _ _ w0) as [w1 [bk|x|]]; [|by destruct B as (_ & _ & B)|done]. destruct B as (((ev & -> & Hev) & A1) & _ & _). rewrite (Hev eq_refl) in *.
  assert (w1 = w0) as -> by (destruct w1, A1 as (? & ? & ? & A4); cbn in *; specialize (A4 eq_refl); by subst).
  pose proof (apply_rule print_gv parse_gv show_environment L1 L2 L3 c d Hd Hw true e b hp sp hosts He Hh Hs Hc w0 A (or_introl eq_refl)) as R.
  destruct (apply_proxy _ _ _ _ _ _ w0) as [w [[]|x|]]; [|by destruct R as (_ & _ & R)|done]. destruct R as ((Rd & Re) & _ & _). destruct (Re eq_refl) as (_ & Re' & _).
  destruct (merged_holds c hosts) as (M1 & M2 & M3). exists (backup_of c (env_of e)), w. split; [done|]. split; [done|]. split; [|split; [done|split; [done|split]]].
  - intros k v Hk. rewrite Rd. apply write_all_eq; [|done]. apply ours_nodup.
  - intros h Hin. apply M3; [done|]. rewrite Forall_forall in Hc. by apply Hc.
  - intros s Hos. rewrite Rd. destruct (retry_back parse_gv L2 c d Hd Hw (write_all (ours hp sp (merged_with c hosts)) d) (user_env w) (bus_env w) (env_of e) s) as (w' & W1 & W2 & W3);
      [|done|].
    + apply changed_writes; [by apply ours_typed, (merged_plain c d) | by apply changed_refl, holds_shaped].
    + exists w'. split; [done|]. split; [done|]. intros E Hk. rewrite (proj1 (W3 E)), Re'. by apply env_back.
Qed.
End Theorems.

(** ** Examples *)

(** Commands that satisfy the laws. *)
Definition toy_print (v : Gv) : str := gv_text v.
Definition toy_parse (old : Gv) (t : str) : option Gv :=
  match old with
  | GStr _ => Some (GStr (inner t))
  | GInt _ => GInt <$> parse_uint U16_MAX t
  | GBool _ => Some (GBool (parse_gvariant_bool t))
  | GStrs _ => Some (GStrs (if decide (t = bs "@as []") then [] else parse_ignore_hosts_list t))
  end.
Definition toy_show (e : gmap str str) : str := concat ((fun kv => assignment kv ++ [10]) <$> map_to_list e).

Lemma toy_laws : desktop_laws toy_print toy_parse toy_show.
Proof.
  split; [done|]. split.
  - intros [s|n|b|l] v Hv Ht; destruct v as [s'|n'|b'|l']; try done; cbn [toy_parse gv_text].
    + unfold quote. by rewrite inner_quote.
    + rewrite parse_port by done. done.
    + by rewrite parse_show_bool.
    + destruct l' as [|x l']; [by rewrite decide_True|]. rewrite decide_False by done. pose proof (parse_hosts (x :: l')) as P. cbn [gv_text] in P. by rewrite P.
  - intros e He. unfold toy_show. replace ((fun kv => assignment kv ++ [10]) <$> map_to_list e) with ((fun a => a ++ [10]) <$> (assignment <$> map_to_list e))
      by (by rewrite <- list_fmap_compose).
    rewrite split_line_list; [done|]. apply Forall_fmap, Forall_forall. intros [k v] Hk%elem_of_map_to_list. destruct (He k v Hk) as [Hk1 Hk2].
    unfold without, assignment. cbn [fst snd compose]. split; (apply Forall_app; split; [by apply word_without | constructor; [done | by apply word_without]]).
Qed.

Definition corporate : Settings :=
  {| s_mode := bs "manual"; s_same := false; s_ignore := [bs "localhost"; bs "*.corp"]; s_http_enabled := false; s_http_host := bs "proxy.corp"; s_http_port := 3128;
     s_https_host := bs "proxy.corp"; s_https_port := 3128; s_socks_host := []; s_socks_port := 0; s_ftp_host := []; s_ftp_port := 0 |}.
Definition corporate_db : gmap Key Gv := write_all (entries corporate) {[ ("org.gnome.desktop", "x")%string := GInt 1 ]}.
Definition corporate_env : gmap str str := {[ bs "http_proxy" := bs "proxy.corp:3128"; bs "LANG" := bs "C" ]}.
Lemma corporate_holds : holds corporate corporate_db.
Proof. intros k v H. apply write_all_eq; [apply entries_nodup | done]. Qed.
Lemma corporate_wellformed : wellformed corporate.
Proof. unfold wellformed, entries. repeat (apply Forall_cons; split); try apply Forall_nil; try done; try literal; try (split; lia). Qed.
Lemma corporate_plain : plain_env corporate_env.
Proof.
  unfold corporate_env, plain_env. intros k v. rewrite lookup_insert_Some, lookup_singleton_Some. intros [[<- <-]|(_ & <- & <-)]; split; literal.
Qed.
Lemma sample_hosts : Forall clean_host [bs "*.bank.example"].
Proof. repeat constructor; literal || done. Qed.

Lemma linux_applied_or_undone_witness :
  let '(w, res) := apply_proxy toy_print toy_parse toy_show (local_proxy 8080) (local_proxy 1080) [bs "*.bank.example"]
    (session corporate_db corporate_env ∅ (replicate 20 true ++ [false])) in
  match res with Ok _ => w.(dconf) = write_all (ours 8080 1080 (merged_with corporate [bs "*.bank.example"])) corporate_db | Err _ => w.(dconf) = corporate_db | Panic => False end.
Proof.
  apply (linux_applied_or_undone toy_print toy_parse toy_show corporate corporate_db corporate_env ∅ 20 8080 1080 [bs "*.bank.example"]);
    [apply toy_laws | apply corporate_holds | apply corporate_wellformed | apply corporate_plain | split; lia | split; lia | apply sample_hosts].
Defined.
Lemma linux_settings_come_back_witness :
  exists backup w, apply_proxy toy_print toy_parse toy_show (local_proxy 8080) (local_proxy 1080) [bs "*.bank.example"] (session corporate_db corporate_env ∅ []) = (w, Ok tt) /\
    exists w', restore_with_retry toy_parse backup (session w.(dconf) w.(user_env) w.(bus_env) []) = (w', Ok tt) /\ w'.(dconf) = corporate_db /\ w'.(user_env) = corporate_env.
Proof.
  destruct (linux_settings_come_back toy_print toy_parse toy_show corporate corporate_db corporate_env ∅ 8080 1080 [bs "*.bank.example"])
    as (backup & w & _ & H1 & _ & _ & _ & _ & H); [apply toy_laws | apply corporate_holds | apply corporate_wellformed | apply corporate_plain | split; lia | split; lia | apply sample_hosts |].
  exists backup, w. split; [exact H1|]. destruct (H [] (or_introl eq_refl)) as (w' & W1 & W2 & W3). exists w'. split; [exact W1|]. split; [exact W2|].
  apply W3; [reflexivity|]. exists (bs "http_proxy"). split; [do 3 apply list_elem_of_further; apply list_elem_of_here | exists (bs "proxy.corp:3128"); reflexivity].
Defined.

(** ** What does not come back *)

(** An empty list of exceptions is printed with its type, which is read as the name of a host. *)
Lemma empty_exceptions_misread : bs "@as []" ∈ merged_hosts (gv_text (GStrs [])) [].
Proof. apply (bool_decide_unpack _). by vm_compute. Qed.

Definition vars_of_apply : list (str * str) := proxy_env_assignments (bs "127.0.0.1") 8080 (bs "127.0.0.1") 1080 [].
(** When no variable was set, the last command sets them all to the empty text, also for the service manager, which had just removed them. *)
Lemma unset_variables_become_empty : env_after_restore (env_of ∅) (set_all vars_of_apply (set_all vars_of_apply ∅)) !! bs "ALL_PROXY" = Some [].
Proof. by vm_compute. Qed.
(** When one was set, the programs that the message bus starts keep the application's proxy in the others. *)
Lemma bus_keeps_the_proxy :
  let e := {[ bs "NO_PROXY" := bs "localhost" ]} in bus_after_restore (env_of e) (set_all vars_of_apply ∅) !! bs "ALL_PROXY" = Some (bs "socks5h://127.0.0.1:1080").
Proof. by vm_compute. Qed.
