(* ===== verification/ProxyMac.v ===== *)
(** The proxy settings of macOS ([proxy_mac.rs] of [apps/bibavpn-desktop]): the settings of each network service, read and changed with [networksetup].
    What that command prints is a parameter with its documented behaviour; which of its runs fail is a script. Names are compared with
    ASCII words only, so lower case is that of ASCII. *)
From S2P Require Import Prelude Text Incoming HttpConnect Invite Metrics BypassDomains ProxyLists.

Definition MAX_PROXY_SERVICES : nat := 8.

(** ** The services *)

Record ProxySlot := { enabled : bool; server : str; port : Z }.
Inductive Kind := Web | Secure | Socks.
Record Service := { web : ProxySlot; secure : ProxySlot; socks : ProxySlot; bypass : list str }.
(** [listing] has the services in order, and whether each is switched on. Every run of the command takes one answer of [script]; past its end it works. *)
Record Machine := { listing : list (str * bool); services : gmap str Service; script : list bool }.
Abbreviation Mac := (ST Machine err).

Definition slot (k : Kind) (s : Service) : ProxySlot := match k with Web => s.(web) | Secure => s.(secure) | Socks => s.(socks) end.
Definition set_slot (k : Kind) (p : ProxySlot) (s : Service) : Service :=
  match k with
  | Web => {| web := p; secure := s.(secure); socks := s.(socks); bypass := s.(bypass) |}
  | Secure => {| web := s.(web); secure := p; socks := s.(socks); bypass := s.(bypass) |}
  | Socks => {| web := s.(web); secure := s.(secure); socks := p; bypass := s.(bypass) |}
  end.
Definition set_bypass (l : list str) (s : Service) : Service := {| web := s.(web); secure := s.(secure); socks := s.(socks); bypass := l |}.
Definition set_services (m : gmap str Service) (w : Machine) : Machine := {| listing := w.(listing); services := m; script := w.(script) |}.

(** The runs: [-listallnetworkservices]; [-getwebproxy], [-getsecurewebproxy], [-getsocksfirewallproxy]; [-getproxybypassdomains]; [-setwebproxy] and its like,
    which also switch the proxy on; [-setwebproxystate] and its like; [-setproxybypassdomains], for which the one word [Empty] clears the list. *)
Inductive Run :=
| ListServices
| Get (k : Kind) (service : str)
| GetBypass (service : str)
| SetProxy (k : Kind) (service host port : str)
| SetState (k : Kind) (service : str) (on : bool)
| SetBypass (service : str) (domains : list str).

Section Commands.
Context (print_listing : list (str * bool) -> str) (print_slot : ProxySlot -> str) (print_bypass : str -> list str -> str).

Definition answer (r : Run) (w : Machine) : option (Machine * str) :=
  let change service f := s ← w.(services) !! service; Some (set_services (<[service := f s]> w.(services)) w, []) in
  match r with
  | ListServices => Some (w, print_listing w.(listing))
  | Get k service => s ← w.(services) !! service; Some (w, print_slot (slot k s))
  | GetBypass service => s ← w.(services) !! service; Some (w, print_bypass service s.(bypass))
  | SetProxy k service host p => n ← parse_uint U16_MAX p; change service (set_slot k {| enabled := true; server := host; port := n |})
  | SetState k service on => change service (fun s => set_slot k {| enabled := on; server := (slot k s).(server); port := (slot k s).(port) |} s)
  | SetBypass service domains => change service (set_bypass (if decide (domains = [bs "Empty"]) then [] else domains))
  end.
Definition run_netsetup (r : Run) : Mac str := fun w =>
  let '(ok, s) := match w.(script) with [] => (true, []) | b :: s => (b, s) end in
  let w := {| listing := w.(listing); services := w.(services); script := s |} in
  match ok : bool, answer r w with
  | true, Some (w, out) => (w, Ok out)
  | _, _ => (w, Err "networksetup"%string)
  end.

(** ** Choosing the services *)

Definition strip_star (line : str) : str := match line with 42 :: r => trim_start r | _ => line end.
Definition service_line (raw : str) : option (str * bool) :=
  let line := trim raw in
  if decide (line = []) then None else
  let name := trim_end (strip_star line) in
  if decide (name = []) then None else Some (name, negb (bool_decide (head line = Some 42))).
Definition parse_services_output (out : str) : list (str * bool) := omap service_line (drop 1 (lines out)).
Definition list_services : Mac (list (str * bool)) := out ← run_netsetup ListServices; mret (parse_services_output out).

Definition DENY : list str := bs <$>
  ["bridge"; "thunderbolt"; "virtual"; "iphone usb"; "iphone"; "usb serial"; "modem"; "bluetooth pan"; "wireless hotspot"; "rndis"; "cdc ncm"; "huawei";
   "android"; "clash"; "wireguard"; "utun"]%string.
Definition denied (lower : str) : bool := contains lower (bs "vpn") || existsb (contains lower) DENY.
Definition priority (s : str) : Z :=
  let l := to_ascii_lowercase s in
  if contains l (bs "wi-fi") || contains l (bs "wifi") then 0 else if contains l (bs "ethernet") then 1 else 2.
Definition scored_le (a b : Z * str) : bool := (a.1 <? b.1) || ((a.1 =? b.1) && text_le a.2 b.2).
(** [sort_by], which is stable. *)
Fixpoint insert_scored (x : Z * str) (l : list (Z * str)) : list (Z * str) :=
  match l with [] => [x] | y :: r => if scored_le x y then x :: l else y :: insert_scored x r end.
Definition filter_proxy_services (services : list str) : list str :=
  let scored := (fun s => (priority s, s)) <$> List.filter (fun s => negb (denied (to_ascii_lowercase s))) services in
  snd <$> take MAX_PROXY_SERVICES (foldr insert_scored [] scored).
Definition services_for_proxy : Mac (list str) :=
  all ← list_services;
  if decide (all = []) then throw "no services"%string else
  let enabled := fst <$> List.filter snd all in
  let pool := if decide (enabled = []) then fst <$> all else enabled in
  let picked := filter_proxy_services pool in
  let picked := if decide (picked = []) then take MAX_PROXY_SERVICES pool else picked in
  if decide (picked = []) then throw "no suitable services"%string else mret picked.

(** ** Reading *)

Record ServiceProxyBackup := { service : str; b_web : ProxySlot; b_secure : ProxySlot; b_socks : ProxySlot; bypass_domains : list str }.

Definition state_line (p : ProxySlot) (raw : str) : ProxySlot :=
  let line := trim raw in
  match strip_prefix (bs "Enabled:") line with
  | Some rest => {| enabled := eq_ignore_ascii_case (trim rest) (bs "Yes"); server := p.(server); port := p.(port) |}
  | None =>
    match strip_prefix (bs "Server:") line with
    | Some rest => {| enabled := p.(enabled); server := trim rest; port := p.(port) |}
    | None =>
      match strip_prefix (bs "Port:") line with
      | Some rest => {| enabled := p.(enabled); server := p.(server); port := default p.(port) (parse_uint U16_MAX (trim rest)) |}
      | None => p
      end
    end
  end.
Definition unknown : ProxySlot := {| enabled := false; server := []; port := 0 |}.
Definition parse_proxy_state_output (out : str) : ProxySlot := fold_left state_line (lines out) unknown.
Definition read_proxy_state (k : Kind) (service : str) : Mac ProxySlot := out ← run_netsetup (Get k service); mret (parse_proxy_state_output out).
(** [unwrap_or] of a run. *)
Definition or_else {A} (m : Mac A) (a : A) : Mac A := fun w => match m w with (w, Err _) => (w, Ok a) | r => r end.
Definition parse_proxy_state (k : Kind) (service : str) : Mac ProxySlot := or_else (read_proxy_state k service) unknown.

Definition slot_eq (a b : ProxySlot) : bool :=
  if negb (bool_decide (a.(enabled) = b.(enabled))) then false
  else if negb a.(enabled) then true
  else bool_decide (a.(port) = b.(port)) && eq_ignore_ascii_case a.(server) b.(server).
Definition is_loopback_slot (s : ProxySlot) : bool :=
  s.(enabled) && let h := to_ascii_lowercase (trim s.(server)) in bool_decide (h = bs "127.0.0.1" \/ h = bs "localhost" \/ h = bs "::1").
Definition domains_eq (a b : list str) : bool := bool_decide (length a = length b) && forallb (fun x => listed x b) a.

Definition bypass_line (v : list str) (raw : str) : list str :=
  let t := trim raw in
  let tl := to_ascii_lowercase t in
  if decide (t = []) then v
  else if starts_with tl (bs "bypassed domain") || bool_decide (tl = bs "enabled: yes" \/ tl = bs "enabled: no") then v
  else v ++ [t].
Definition parse_bypass_output (out : str) : list str :=
  let lower := to_ascii_lowercase out in
  if contains lower (bs "there aren't any bypass") || contains lower (bs "there are not any bypass") || contains lower (bs "no bypass domain") then []
  else fold_left bypass_line (lines out) [].
Definition read_proxy_bypass_domains (service : str) : Mac (list str) := out ← run_netsetup (GetBypass service); mret (parse_bypass_output out).
Definition get_proxy_bypass_domains (service : str) : Mac (list str) := or_else (read_proxy_bypass_domains service) [].

Definition REQUIRED_BYPASS : list str := bs <$>
  ["127.0.0.1"; "localhost"; "*.local"; "10.0.0.0/8"; "172.16.0.0/12"; "192.168.0.0/16"; "169.254.0.0/16"; "100.64.0.0/10"; "fc00::/7"; "fe80::/10";
   "tauri.localhost"; "steamloopback.host"; "*.steamloopback.host"; "client-update.steamstatic.com"; "client-update.akamai.steamstatic.com";
   "client-update.fastly.steamstatic.com"]%string.
Definition bypass_contains_required (domains : list str) : bool := forallb (fun req => listed req domains) REQUIRED_BYPASS.
Definition merge_bypass_for_apply (saved split_tunnel : list str) : list str :=
  let v := fold_left push_required REQUIRED_BYPASS (fold_left push_some (trim <$> split_tunnel) saved) in
  if decide (v = []) then bs <$> ["127.0.0.1"; "localhost"; "*.local"]%string else v.

Fixpoint read_each (l : list str) : Mac (list ServiceProxyBackup) :=
  match l with
  | [] => mret []
  | svc :: l =>
    bypass_domains ← get_proxy_bypass_domains svc;
    web ← parse_proxy_state Web svc;
    secure ← parse_proxy_state Secure svc;
    socks ← parse_proxy_state Socks svc;
    rest ← read_each l;
    mret ({| service := svc; b_web := web; b_secure := secure; b_socks := socks; bypass_domains := bypass_domains |} :: rest)
  end.
Definition read_backup : Mac (list ServiceProxyBackup) := services ← services_for_proxy; read_each services.

(** ** Putting back *)

Definition restore_slot (k : Kind) (service : str) (s : ProxySlot) : Mac unit :=
  if s.(enabled) && negb (bool_decide (s.(server) = [])) then
    _ ← run_netsetup (SetProxy k service s.(server) (show_dec s.(port)));
    _ ← run_netsetup (SetState k service true);
    mret tt
  else _ ← run_netsetup (SetState k service false); mret tt.
(** [if let Err(e) = m { errs.push(e); }]. *)
Definition collect (m : Mac unit) (errs : list err) : Mac (list err) := fun w =>
  match m w with
  | (w, Ok _) => (w, Ok errs)
  | (w, Err e) => (w, Ok (errs ++ [e]))
  | (w, Panic) => (w, Panic)
  end.
(** [match m { Ok(cur) => f(cur), Err(_) => true }]. *)
Definition unless {A} (m : Mac A) (f : A -> bool) : Mac bool := or_else (a ← m; mret (f a)) true.
Definition when_ (b : bool) (m : list err -> Mac (list err)) (errs : list err) : Mac (list err) := if b then m errs else mret errs.
Definition joined (errs : list err) : Mac unit := match errs with [] => mret tt | _ => throw (String.concat "; " errs) end.

Definition restore_service (s : ServiceProxyBackup) : Mac unit :=
  let svc := s.(service) in
  restore_web ← unless (read_proxy_state Web svc) (fun cur => is_loopback_slot cur || slot_eq cur s.(b_web));
  errs ← when_ restore_web (collect (restore_slot Web svc s.(b_web))) [];
  restore_secure ← unless (read_proxy_state Secure svc) (fun cur => is_loopback_slot cur || slot_eq cur s.(b_secure));
  errs ← when_ restore_secure (collect (restore_slot Secure svc s.(b_secure))) errs;
  restore_socks ← unless (read_proxy_state Socks svc) (fun cur => negb cur.(enabled) || slot_eq cur s.(b_socks));
  errs ← when_ restore_socks (collect (restore_slot Socks svc s.(b_socks))) errs;
  restore_bypass ← unless (read_proxy_bypass_domains svc) (fun cur => negb (domains_eq cur s.(bypass_domains)) && bypass_contains_required cur);
  errs ← when_ restore_bypass
    (collect (_ ← run_netsetup (SetBypass svc (match s.(bypass_domains) with [] => [bs "Empty"] | l => l end)); mret tt)) errs;
  joined errs.
Fixpoint restore_each (l : list ServiceProxyBackup) (errs : list err) : Mac unit :=
  match l with [] => joined errs | s :: l => errs ← collect (restore_service s) errs; restore_each l errs end.
Definition restore (backup : list ServiceProxyBackup) : Mac unit := restore_each backup [].

(** ** Applying *)

Definition split_host_port (hp : str) : result (str * str) :=
  match rsplit_once 58 hp with
  | None => bail "bad host:port"
  | Some (h, p) => _ ← context "bad port"%string (parse_uint U16_MAX p); Ok (h, p)
  end.
Definition apply_to_service (service http_host http_port : str) (split_tunnel_hosts saved_bypass : list str) : Mac unit :=
  _ ← run_netsetup (SetProxy Web service http_host http_port);
  _ ← run_netsetup (SetState Web service true);
  _ ← run_netsetup (SetProxy Secure service http_host http_port);
  _ ← run_netsetup (SetState Secure service true);
  _ ← run_netsetup (SetState Socks service false);
  _ ← run_netsetup (SetBypass service (merge_bypass_for_apply saved_bypass split_tunnel_hosts));
  mret tt.
Fixpoint apply_each (l : list ServiceProxyBackup) (http_host http_port : str) (split_tunnel_hosts : list str) (ok_any : bool) (last_err : option err) : Mac unit :=
  match l with
  | [] =>
    if ok_any then mret tt
    else match last_err with None => throw "no service took the proxy"%string | Some e => throw e end
  | b :: l => fun w =>
    match apply_to_service b.(service) http_host http_port split_tunnel_hosts b.(bypass_domains) w with
    | (w, Ok _) => apply_each l http_host http_port split_tunnel_hosts true last_err w
    | (w, Err e) =>
      match restore_service b w with
      | (w, Ok _) => apply_each l http_host http_port split_tunnel_hosts ok_any (Some e) w
      | (w, Err re) => apply_each l http_host http_port split_tunnel_hosts ok_any (Some (e ++ "; rollback: " ++ re)%string) w
      | (w, Panic) => (w, Panic)
      end
    | (w, Panic) => (w, Panic)
    end
  end.
Definition apply_proxy (http_host_port : str) (split_tunnel_hosts : list str) (backup : list ServiceProxyBackup) : Mac unit :=
  '(http_host, http_port) ← lift (split_host_port http_host_port);
  apply_each backup http_host http_port split_tunnel_hosts false None.

Definition disable_slot (k : Kind) (service : str) (s : ProxySlot) (errs : list err) : Mac (list err) :=
  when_ (is_loopback_slot s) (collect (_ ← run_netsetup (SetState k service false); mret tt)) errs.
Fixpoint disable_each (l : list str) (errs : list err) : Mac unit :=
  match l with
  | [] => joined errs
  | svc :: l =>
    web ← parse_proxy_state Web svc;
    secure ← parse_proxy_state Secure svc;
    socks ← parse_proxy_state Socks svc;
    errs ← disable_slot Web svc web errs;
    errs ← disable_slot Secure svc secure errs;
    errs ← disable_slot Socks svc socks errs;
    disable_each l errs
  end.
Definition disable_biba_proxies_on_services : Mac unit := services ← services_for_proxy; disable_each services [].
End Commands.

(** ** The documented outputs *)

Definition plain_slot (p : ProxySlot) : Prop := graphic p.(server) /\ is_u16 p.(port) /\ (p.(enabled) = true -> p.(server) <> []).
Definition plain_bypass (l : list str) : Prop := Forall (fun d => graphic d /\ d <> []) l.
Definition plain_service (s : Service) : Prop := (forall k, plain_slot (slot k s)) /\ plain_bypass s.(bypass).
Definition in_lines (l : list str) : str := concat ((fun a => a ++ [10]) <$> l).
Definition shown_slot (p : ProxySlot) : list str :=
  [bs "Enabled: " ++ (if p.(enabled) then bs "Yes" else bs "No"); bs "Server: " ++ p.(server); bs "Port: " ++ show_dec p.(port); bs "Authenticated Proxy Enabled: 0"].
Definition shown_service (s : str * bool) : str := if s.2 then s.1 else 42 :: s.1.
(** A name without control characters that begins and ends visibly, and not with the star of a service that is switched off. *)
Definition plain_name (n : str) : Prop := Forall (fun c => 32 <= c <= 126) n /\ solid n /\ head n <> Some 42.

Lemma graphic_lines s : graphic s -> without 10 s /\ without 13 s.
Proof. intros H. split; (eapply Forall_impl; [exact H|]); intros c Hc; cbn in *; lia. Qed.
Lemma printable_lines s : Forall (fun c => 32 <= c <= 126) s -> without 10 s /\ without 13 s.
Proof. intros H. split; (eapply Forall_impl; [exact H|]); intros c Hc; cbn in *; lia. Qed.

(** A line [Label: value], of a visible value or none. *)
Lemma trim_label l v : solid l -> graphic v -> trim (l ++ 32 :: v) = if decide (v = []) then l else l ++ 32 :: v.
Proof.
  intros Hl Hv. case_decide as E.
  - subst. apply trim_padded; [by right | done].
  - apply trim_solid. destruct Hl as [(c & Hc & Hr) _]. apply (graphic_solid v E) in Hv as [_ (d & Hd & Hr')]. split.
    + exists c. split; [by destruct l | done].
    + exists d. split; [|done]. destruct v as [|y v]; [done|]. change (l ++ 32 :: y :: v) with (l ++ [32] ++ y :: v). rewrite app_assoc, last_app. by rewrite Hd.
Qed.

Lemma other_prefix a b s p : a <> b -> strip_prefix (a :: p) (b :: s) = None.
Proof. intros H. unfold strip_prefix, starts_with. rewrite bool_decide_false; [done|]. cbn. congruence. Qed.
Lemma value_of v : graphic v -> trim (32 :: v) = v.
Proof. intros Hv. destruct (decide (v = [])) as [->|E]; [done|]. by apply trim_space, graphic_solid. Qed.
Lemma label_line l v : solid l -> graphic v -> exists r, trim (l ++ 32 :: v) = l ++ r /\ trim r = v.
Proof.
  intros Hl Hv. rewrite trim_label by done. case_decide as E; [exists []; rewrite app_nil_r; by subst|]. exists (32 :: v). split; [done | by apply value_of].
Qed.
Lemma server_line p v : graphic v -> state_line p (bs "Server: " ++ v) = {| enabled := p.(enabled); server := v; port := p.(port) |}.
Proof.
  intros Hv. change (bs "Server: " ++ v) with (bs "Server:" ++ 32 :: v). destruct (label_line (bs "Server:") v) as (r & Hr & Ht); [by split; eexists | done|].
  unfold state_line. rewrite Hr. change (strip_prefix (bs "Enabled:") (bs "Server:" ++ r)) with (strip_prefix (69 :: bs "nabled:") (83 :: (bs "erver:" ++ r))).
  rewrite other_prefix by done. rewrite strip_prefix_app. by rewrite Ht.
Qed.
Lemma port_line p n : is_u16 n -> state_line p (bs "Port: " ++ show_dec n) = {| enabled := p.(enabled); server := p.(server); port := n |}.
Proof.
  intros Hn. change (bs "Port: " ++ show_dec n) with (bs "Port:" ++ 32 :: show_dec n).
  destruct (label_line (bs "Port:") (show_dec n)) as (r & Hr & Ht); [by split; eexists | apply digits_graphic, show_dec_digits |].
  unfold state_line. rewrite Hr. change (strip_prefix (bs "Enabled:") (bs "Port:" ++ r)) with (strip_prefix (69 :: bs "nabled:") (80 :: (bs "ort:" ++ r))).
  change (strip_prefix (bs "Server:") (bs "Port:" ++ r)) with (strip_prefix (83 :: bs "erver:") (80 :: (bs "ort:" ++ r))).
  rewrite !other_prefix by done. rewrite strip_prefix_app, Ht, parse_port by done. done.
Qed.
Lemma show_dec_lines n : without 10 (show_dec n) /\ without 13 (show_dec n).
Proof. apply graphic_lines, digits_graphic, show_dec_digits. Qed.
Lemma without_app c a b : without c a -> without c b -> without c (a ++ b).
Proof. unfold without. rewrite Forall_app. by split. Qed.
Lemma parse_slot p : plain_slot p -> parse_proxy_state_output (in_lines (shown_slot p)) = p.
Proof.
  intros (Hs & Hp & _). unfold parse_proxy_state_output, in_lines. rewrite split_line_list.
  - unfold shown_slot. cbn [fold_left]. rewrite server_line, port_line by done. destruct p as [[] s n]; reflexivity.
  - destruct (graphic_lines _ Hs). destruct (show_dec_lines p.(port)). unfold shown_slot.
    apply Forall_cons; split; [destruct (enabled p); split; literal|]. apply Forall_cons; split; [split; (apply without_app; [literal | done])|].
    apply Forall_cons; split; [split; (apply without_app; [literal | done])|]. apply Forall_cons; split; [split; literal | by apply Forall_nil].
Qed.

(** The list of exceptions. *)
Lemma contains_chars s p c : contains s p = true -> c ∈ p -> c ∈ s.
Proof.
  induction s as [|x s IH]; cbn [contains]; unfold starts_with; intros H Hc.
  - apply orb_true_iff in H as [H|H]; [|done]. apply bool_decide_eq_true in H. destruct p; [done | by rewrite take_nil in H].
  - apply orb_true_iff in H as [H|H]; [|right; by apply IH]. apply bool_decide_eq_true in H. rewrite <- H in Hc.
    rewrite <- (take_drop (length p) (x :: s)). apply elem_of_app. by left.
Qed.
Lemma contains_start p r : contains (p ++ r) p = true.
Proof.
  destruct (p ++ r) as [|x t] eqn:E; cbn [contains]; unfold starts_with; rewrite bool_decide_true; try done.
  - by apply app_eq_nil in E as [-> ->].
  - by rewrite <- E, take_app_length.
Qed.
Lemma lower_space s : 32 ∈ to_ascii_lowercase s -> 32 ∈ s.
Proof.
  unfold to_ascii_lowercase. intros (c & Hc & Hin)%list_elem_of_fmap. unfold ascii_lower, in_rng in Hc. destruct ((65 <=? c) && (c <=? 90)) eqn:E; [|by subst].
  apply andb_true_iff in E as [E _]. apply Z.leb_le in E. lia.
Qed.
Lemma in_lines_space l : Forall graphic l -> 32 ∉ in_lines l.
Proof.
  unfold in_lines. induction 1 as [|d l Hd _ IH]; [by intros ?%elem_of_nil|]. cbn [fmap list_fmap concat]. rewrite !elem_of_app.
  intros [[H|H]|H]; [|by apply list_elem_of_singleton in H|by apply IH]. unfold graphic in Hd. rewrite Forall_forall in Hd. specialize (Hd _ H). lia.
Qed.
Lemma bypass_graphic_line v d : graphic d -> d <> [] -> bypass_line v d = v ++ [d].
Proof.
  intros Hg Hn. unfold bypass_line. rewrite trim_graphic by done. rewrite decide_False by done.
  assert (N : forall p, 32 ∈ p -> starts_with (to_ascii_lowercase d) p = false).
  { intros p Hp. unfold starts_with. apply bool_decide_false. intros E. rewrite <- E in Hp.
    assert (Hin : 32 ∈ to_ascii_lowercase d) by (rewrite <- (take_drop (length p) (to_ascii_lowercase d)); apply elem_of_app; by left).
    apply lower_space in Hin. unfold graphic in Hg. rewrite Forall_forall in Hg. specialize (Hg _ Hin). lia. }
  rewrite N by literal. rewrite bool_decide_false; [done|].
  assert (S : 32 ∉ to_ascii_lowercase d) by (intros Hin%lower_space; unfold graphic in Hg; rewrite Forall_forall in Hg; specialize (Hg _ Hin); lia).
  intros [E|E]; rewrite E in S; apply S; literal.
Qed.
Lemma parse_bypass l : l <> [] -> plain_bypass l -> parse_bypass_output (in_lines l) = l.
Proof.
  intros Hn H. unfold parse_bypass_output. assert (G : Forall graphic l) by (eapply Forall_impl; [exact H|]; by intros ? [? _]).
  assert (N : forall p, 32 ∈ p -> contains (to_ascii_lowercase (in_lines l)) p = false).
  { intros p Hp. destruct (contains _ p) eqn:E; [|done]. exfalso. apply (in_lines_space l G). apply lower_space. by eapply contains_chars. }
  rewrite !N by literal. cbn [orb]. unfold in_lines. rewrite split_line_list by (eapply Forall_impl; [exact G|]; intros; by apply graphic_lines).
  assert (F : forall acc, fold_left bypass_line l acc = acc ++ l); [|apply F]. clear Hn G N. induction H as [|d l [Hd Hdn] _ IH]; intros acc; cbn; [by rewrite app_nil_r|].
  rewrite bypass_graphic_line by done. rewrite IH. by rewrite <- app_assoc.
Qed.
Lemma parse_no_bypass r : parse_bypass_output (bs "There aren't any bypass domains set on " ++ r) = [].
Proof.
  unfold parse_bypass_output, to_ascii_lowercase. rewrite fmap_app.
  change (ascii_lower <$> bs "There aren't any bypass domains set on ") with (bs "there aren't any bypass" ++ bs " domains set on "). rewrite <- app_assoc, contains_start. done.
Qed.

(** The list of services. *)
Definition listing_header : str := bs "An asterisk (*) denotes that a network service is disabled.".
Lemma trim_start_solid s : solid s -> trim_start s = s.
Proof.
  intros [(c & Hc & Hr) _]. unfold trim_start. destruct s as [|x s]; [done|]. injection Hc as <-. cbn [length trim_start_fuel]. by rewrite ws_len_graphic.
Qed.
Lemma strip_other n : head n <> Some 42 -> strip_star n = n.
Proof.
  destruct n as [|c n]; [done|]. cbn. intros H. unfold strip_star. destruct c as [|p|p]; try done. repeat (destruct p as [p|p|]; try done).
Qed.
Lemma solid_nonempty s : solid s -> s <> [].
Proof. intros [(c & Hc & _) _]. by destruct s. Qed.
Lemma shown_solid s : plain_name s.1 -> solid (shown_service s).
Proof.
  intros (_ & Hs & _). unfold shown_service. destruct (s.2); [done|]. destruct Hs as [_ (d & Hd & Hr)]. split; [by exists 42|]. exists d. split; [|done].
  by destruct (s.1).
Qed.
Lemma parse_shown s : plain_name s.1 -> service_line (shown_service s) = Some s.
Proof.
  intros Hn. pose proof (shown_solid s Hn) as Hs. unfold service_line. rewrite (trim_solid _ Hs). rewrite decide_False by by apply solid_nonempty.
  destruct Hn as (_ & Hn & Hh). destruct s as [n [|]]; cbn [fst shown_service snd] in *.
  - rewrite strip_other, trim_end_solid by done. rewrite decide_False by by apply solid_nonempty. by rewrite bool_decide_false.
  - cbn [strip_star]. rewrite trim_start_solid, trim_end_solid by done. rewrite decide_False by by apply solid_nonempty. done.
Qed.
Lemma parse_listing l : Forall (fun s => plain_name s.1) l -> parse_services_output (in_lines (listing_header :: (shown_service <$> l))) = l.
Proof.
  intros H. unfold parse_services_output, in_lines. rewrite split_line_list.
  - change (omap service_line (shown_service <$> l) = l). induction H as [|s l Hs _ IH]; [done|]. rewrite fmap_cons.
    change (match service_line (shown_service s) with Some x => x :: omap service_line (shown_service <$> l) | None => omap service_line (shown_service <$> l) end = s :: l).
    rewrite parse_shown by done. by rewrite IH.
  - apply Forall_cons. split; [split; literal|]. apply Forall_fmap. eapply Forall_impl; [exact H|]. intros [n on] (Hn & _). cbn [fst snd compose] in *.
    apply printable_lines. unfold shown_service. cbn [fst snd]. destruct on; [done|]. by constructor.
Qed.

(** ** What the steps do *)

Definition mac_laws (print_listing : list (str * bool) -> str) (print_slot : ProxySlot -> str) (print_bypass : str -> list str -> str) : Prop :=
  (forall l, Forall (fun s => plain_name s.1) l -> print_listing l = in_lines (listing_header :: (shown_service <$> l))) /\
  (forall p, plain_slot p -> print_slot p = in_lines (shown_slot p)) /\
  (forall svc l, l <> [] -> plain_bypass l -> print_bypass svc l = in_lines l) /\
  (forall svc, print_bypass svc [] = bs "There aren't any bypass domains set on " ++ svc ++ bs "." ++ [10]).

(** A service that the application has taken: the exceptions [merged], the SOCKS proxy switched off, its address left. *)
Definition taken (p : Z) (merged : list str) (s : Service) : Service :=
  let ours := {| enabled := true; server := bs "127.0.0.1"; port := p |} in
  {| web := ours; secure := ours; socks := {| enabled := false; server := s.(socks).(server); port := s.(socks).(port) |}; bypass := merged |}.
(** A slot that is put back: switched off, the address it has stays. *)
Definition put_slot (b cur : ProxySlot) : ProxySlot :=
  if b.(enabled) && negb (bool_decide (b.(server) = [])) then {| enabled := true; server := b.(server); port := b.(port) |}
  else {| enabled := false; server := cur.(server); port := cur.(port) |}.
Definition put_if (ours : bool) (b cur : ProxySlot) : ProxySlot := if ours || slot_eq cur b then put_slot b cur else cur.
Definition put_service (b : ServiceProxyBackup) (cur : Service) : Service :=
  {| web := put_if (is_loopback_slot cur.(web)) b.(b_web) cur.(web); secure := put_if (is_loopback_slot cur.(secure)) b.(b_secure) cur.(secure);
     socks := put_if (negb cur.(socks).(enabled)) b.(b_socks) cur.(socks);
     bypass := if negb (domains_eq cur.(bypass) b.(bypass_domains)) && bypass_contains_required cur.(bypass) then b.(bypass_domains) else cur.(bypass) |}.

Section Steps.
Context (print_listing : list (str * bool) -> str) (print_slot : ProxySlot -> str) (print_bypass : str -> list str -> str).
Hypothesis laws : mac_laws print_listing print_slot print_bypass.
Context (ls : list (str * bool)).
Abbreviation run := (run_netsetup print_listing print_slot print_bypass).
Definition mac (m : gmap str Service) : Machine := {| listing := ls; services := m; script := [] |}.

Section Service.
Context (m : gmap str Service) (svc : str) (s : Service).
Hypothesis Hs : m !! svc = Some s.

Lemma read_slot_runs k : plain_slot (slot k s) -> read_proxy_state print_listing print_slot print_bypass k svc (mac m) = (mac m, Ok (slot k s)).
Proof.
  intros Hp. destruct laws as (_ & L & _). unfold read_proxy_state, mbind, st_bind, run_netsetup, mac. cbn. rewrite Hs. cbn. by rewrite (L _ Hp), parse_slot.
Qed.
Lemma read_bypass_runs : plain_bypass s.(bypass) -> read_proxy_bypass_domains print_listing print_slot print_bypass svc (mac m) = (mac m, Ok s.(bypass)).
Proof.
  intros Hp. destruct laws as (_ & _ & L1 & L2). unfold read_proxy_bypass_domains, mbind, st_bind, run_netsetup, mac. cbn. rewrite Hs. cbn.
  destruct (bypass s) as [|d l] eqn:E; [by rewrite L2, parse_no_bypass|]. by rewrite L1, parse_bypass.
Qed.
Lemma set_proxy_runs k host p : is_u16 p -> run (SetProxy k svc host (show_dec p)) (mac m) =
  (mac (<[svc := set_slot k {| enabled := true; server := host; port := p |} s]> m), Ok []).
Proof. intros Hp. unfold run_netsetup, mac. cbn -[parse_uint U16_MAX show_dec]. rewrite parse_port by done. cbn. by rewrite Hs. Qed.
Lemma set_state_runs k on : run (SetState k svc on) (mac m) =
  (mac (<[svc := set_slot k {| enabled := on; server := (slot k s).(server); port := (slot k s).(port) |} s]> m), Ok []).
Proof. unfold run_netsetup, mac. cbn. by rewrite Hs. Qed.
Lemma set_bypass_runs l : run (SetBypass svc l) (mac m) = (mac (<[svc := set_bypass (if decide (l = [bs "Empty"]) then [] else l) s]> m), Ok []).
Proof. unfold run_netsetup, mac. cbn. by rewrite Hs. Qed.
End Service.

Lemma chain_step {A B} (x : Mac A) (k : A -> Mac B) w w' a r : x w = (w', Ok a) -> k a w' = r -> (y ← x; k y) w = r.
Proof. intros H <-. unfold mbind, st_bind. by rewrite H. Qed.

Lemma apply_service_runs m svc s p hosts saved : m !! svc = Some s -> is_u16 p ->
  (merge_bypass_for_apply saved hosts <> [bs "Empty"]) ->
  apply_to_service print_listing print_slot print_bypass svc (bs "127.0.0.1") (show_dec p) hosts saved (mac m) =
  (mac (<[svc := taken p (merge_bypass_for_apply saved hosts) s]> m), Ok tt).
Proof.
  intros Hs Hp Hm. unfold apply_to_service.
  eapply chain_step; [by apply set_proxy_runs|]. eapply chain_step; [by apply set_state_runs; apply lookup_insert_eq|].
  eapply chain_step; [by apply set_proxy_runs; [apply lookup_insert_eq|]|]. eapply chain_step; [by apply set_state_runs; apply lookup_insert_eq|].
  eapply chain_step; [by apply set_state_runs; apply lookup_insert_eq|]. eapply chain_step; [by apply set_bypass_runs; apply lookup_insert_eq|].
  rewrite !insert_insert_eq, decide_False by done. reflexivity.
Qed.

Lemma restore_slot_runs m svc s k b : m !! svc = Some s -> is_u16 b.(port) ->
  restore_slot print_listing print_slot print_bypass k svc b (mac m) = (mac (<[svc := set_slot k (put_slot b (slot k s)) s]> m), Ok tt).
Proof.
  intros Hs Hp. unfold restore_slot, put_slot. destruct (enabled b && _).
  - eapply chain_step; [by apply set_proxy_runs|]. eapply chain_step; [by apply set_state_runs; apply lookup_insert_eq|].
    rewrite insert_insert_eq. by destruct k.
  - eapply chain_step; [by apply set_state_runs|]. done.
Qed.
(** One slot of [restore_service]: the test, and what it decides. *)
Lemma restore_one_runs {B} m svc s k b (ours : ProxySlot -> bool) errs (next : list err -> Mac B) :
  m !! svc = Some s -> plain_slot (slot k s) -> is_u16 b.(port) ->
  (x ← unless (read_proxy_state print_listing print_slot print_bypass k svc) (fun cur => ours cur || slot_eq cur b);
   errs ← when_ x (collect (restore_slot print_listing print_slot print_bypass k svc b)) errs; next errs) (mac m) =
  next errs (mac (<[svc := set_slot k (put_if (ours (slot k s)) b (slot k s)) s]> m)).
Proof.
  intros Hs Hp Hb. eapply chain_step.
  { unfold unless, or_else, mbind, st_bind. rewrite (read_slot_runs m svc s) by done. reflexivity. }
  unfold when_, put_if. destruct (ours (slot k s) || slot_eq (slot k s) b).
  - eapply chain_step; [|reflexivity]. unfold collect. by rewrite (restore_slot_runs m svc s).
  - eapply chain_step; [reflexivity|]. f_equal. f_equal. rewrite insert_id; [done|]. rewrite Hs. f_equal. by destruct k, s.
Qed.
Definition plain_backup (b : ServiceProxyBackup) : Prop :=
  is_u16 b.(b_web).(port) /\ is_u16 b.(b_secure).(port) /\ is_u16 b.(b_socks).(port) /\ b.(bypass_domains) <> [bs "Empty"].
Lemma restore_service_runs m s b : m !! b.(service) = Some s -> plain_service s -> plain_backup b ->
  restore_service print_listing print_slot print_bypass b (mac m) = (mac (<[b.(service) := put_service b s]> m), Ok tt).
Proof.
  intros Hs [Hp Hb] (B1 & B2 & B3 & B4). unfold restore_service.
  rewrite (restore_one_runs m _ s Web _ is_loopback_slot) by (done || apply (Hp Web)). cbn [slot set_slot].
  rewrite (restore_one_runs _ _ _ Secure _ is_loopback_slot) by (done || apply lookup_insert_eq || apply (Hp Secure)). rewrite insert_insert_eq. cbn [slot set_slot web secure socks bypass].
  rewrite (restore_one_runs _ _ _ Socks _ (fun cur => negb cur.(enabled))) by (done || apply lookup_insert_eq || apply (Hp Socks)). rewrite insert_insert_eq.
  cbn [slot set_slot web secure socks bypass].
  eapply chain_step. { unfold unless, or_else, mbind, st_bind. erewrite read_bypass_runs; [reflexivity | apply lookup_insert_eq | done]. }
  cbn [bypass]. unfold when_, put_service. destruct (negb _ && _).
  - eapply chain_step; [unfold collect, mbind, st_bind; erewrite set_bypass_runs by apply lookup_insert_eq; reflexivity|].
    rewrite insert_insert_eq. unfold set_bypass. cbn [web secure socks]. f_equal. f_equal. f_equal.
    destruct (bypass_domains b) as [|d l] eqn:E; [by rewrite decide_True|]. by rewrite decide_False.
  - by eapply chain_step; [reflexivity|].
Qed.
End Steps.

(** ** The services that are chosen *)

Lemma insert_scored_perm x l : insert_scored x l ≡ₚ x :: l.
Proof. induction l as [|y l IH]; cbn [insert_scored]; [done|]. destruct (scored_le x y); [done|]. rewrite IH. by apply perm_swap. Qed.
Lemma sort_scored_perm l : foldr insert_scored [] l ≡ₚ l.
Proof. induction l as [|x l IH]; [done|]. cbn. by rewrite insert_scored_perm, IH. Qed.
Lemma filter_sublist {A} (f : A -> bool) l : sublist (List.filter f l) l.
Proof. induction l as [|x l IH]; cbn; [constructor|]. destruct (f x); by constructor. Qed.
Lemma filtered_services pool : NoDup pool -> NoDup (filter_proxy_services pool) /\ forall x, x ∈ filter_proxy_services pool -> x ∈ pool.
Proof.
  intros Hn. unfold filter_proxy_services. set (kept := List.filter _ pool). pose proof (filter_sublist (fun s => negb (denied (to_ascii_lowercase s))) pool) as S. fold kept in S.
  set (sorted := foldr insert_scored [] _). assert (P : snd <$> sorted ≡ₚ kept).
  { unfold sorted. rewrite sort_scored_perm, <- list_fmap_compose. change (snd ∘ (fun s => (priority s, s))) with (@id str). by rewrite list_fmap_id. }
  assert (T : sublist (snd <$> take MAX_PROXY_SERVICES sorted) (snd <$> sorted)) by (rewrite fmap_take; apply sublist_take).
  split.
  - eapply sublist_NoDup; [|exact T]. rewrite P. by eapply sublist_NoDup.
  - intros x Hx. apply (sublist_subseteq _ _ S). rewrite <- P. by apply (sublist_subseteq _ _ T).
Qed.

Definition backup_of (svc : str) (s : Service) : ServiceProxyBackup :=
  {| service := svc; b_web := s.(web); b_secure := s.(secure); b_socks := s.(socks); bypass_domains := s.(bypass) |}.
(** The same settings; the address of a proxy that is switched off does not count. *)
Definition alike_slot (a b : ProxySlot) : Prop := if a.(enabled) then b = a else b.(enabled) = false.
Definition alike (a b : Service) : Prop :=
  alike_slot a.(web) b.(web) /\ alike_slot a.(secure) b.(secure) /\ alike_slot a.(socks) b.(socks) /\ b.(bypass) = a.(bypass).
Definition sound_service (s : Service) : Prop := plain_service s /\ s.(bypass) <> [bs "Empty"].

Lemma put_slot_alike b cur : plain_slot b -> alike_slot b (put_slot b cur).
Proof.
  intros (_ & _ & H). unfold alike_slot, put_slot. destruct (enabled b) eqn:E; [|done]. rewrite bool_decide_false by by apply H. cbn [negb andb]. by destruct b; cbn in *; subst.
Qed.
(** The default list is never needed. *)
Lemma mac_merged_is saved hosts : merge_bypass_for_apply saved hosts = fold_left push_required REQUIRED_BYPASS (fold_left push_some (trim <$> hosts) saved).
Proof.
  unfold merge_bypass_for_apply. case_decide as E; [|done].
  pose proof (required_listed REQUIRED_BYPASS (fold_left push_some (trim <$> hosts) saved) (bs "localhost")) as L. rewrite E in L. discriminate L. literal.
Qed.
Lemma merged_grows saved hosts : exists r, merge_bypass_for_apply saved hosts = saved ++ r.
Proof.
  rewrite mac_merged_is. destruct (push_grows push_some (trim <$> hosts) saved push_some_grows) as [r ->].
  destruct (push_grows push_required REQUIRED_BYPASS (saved ++ r) push_required_grows) as [r' ->]. exists (r ++ r'). by rewrite app_assoc.
Qed.
Lemma merged_required saved hosts : bypass_contains_required (merge_bypass_for_apply saved hosts) = true.
Proof. rewrite mac_merged_is. unfold bypass_contains_required. apply forallb_forall. intros x Hx%list_elem_of_In. by apply required_listed. Qed.
Lemma one_word_incomplete : bypass_contains_required [bs "Empty"] = false.
Proof. by vm_compute. Qed.
Lemma merged_not_empty saved hosts : merge_bypass_for_apply saved hosts <> [bs "Empty"].
Proof. intros E. pose proof (merged_required saved hosts) as R. rewrite E in R. rewrite one_word_incomplete in R. discriminate R. Qed.
Lemma own_slot_known p : is_loopback_slot {| enabled := true; server := bs "127.0.0.1"; port := p |} = true.
Proof. by vm_compute. Qed.
Lemma taken_back svc p s r : plain_service s -> bypass_contains_required (s.(bypass) ++ r) = true -> alike s (put_service (backup_of svc s) (taken p (s.(bypass) ++ r) s)).
Proof.
  intros [Hp _] Hr. unfold alike, put_service, put_if, taken. cbn [web secure socks bypass b_web b_secure b_socks bypass_domains backup_of enabled negb].
  rewrite own_slot_known. cbn [orb].
  split; [apply put_slot_alike, (Hp Web)|]. split; [apply put_slot_alike, (Hp Secure)|]. split; [apply put_slot_alike, (Hp Socks)|].
  rewrite Hr, andb_true_r. destruct (domains_eq _ _) eqn:E; [|done]. cbn [negb]. unfold domains_eq in E. apply andb_true_iff in E as [E _].
  apply bool_decide_eq_true in E. rewrite length_app in E. destruct r; [by rewrite app_nil_r | cbn in E; lia].
Qed.

(** ** All the services *)

Section Loops.
Context (print_listing : list (str * bool) -> str) (print_slot : ProxySlot -> str) (print_bypass : str -> list str -> str).
Hypothesis laws : mac_laws print_listing print_slot print_bypass.
Context (ls : list (str * bool)).
Definition has_sound (m : gmap str Service) (svc : str) : Prop := exists s, m !! svc = Some s /\ sound_service s.

Lemma services_runs m : Forall (fun s => plain_name s.1) ls -> NoDup ls.*1 -> ls <> [] -> exists picked,
  services_for_proxy print_listing print_slot print_bypass (mac ls m) = (mac ls m, Ok picked) /\ picked <> [] /\ NoDup picked /\ forall x, x ∈ picked -> x ∈ ls.*1.
Proof.
  intros Hn Hd He. destruct laws as (L & _).
  assert (R : list_services print_listing print_slot print_bypass (mac ls m) = (mac ls m, Ok ls)).
  { unfold list_services, mbind, st_bind, run_netsetup, mac. cbn. by rewrite L, parse_listing. }
  unfold services_for_proxy. set (enabled := fst <$> List.filter snd ls). set (pool := if decide (enabled = []) then fst <$> ls else enabled).
  assert (P : NoDup pool /\ pool <> [] /\ forall x, x ∈ pool -> x ∈ ls.*1).
  { assert (S : sublist enabled ls.*1) by (apply fmap_sublist, filter_sublist). unfold pool. case_decide as E.
    - split; [done|]. split; [|done]. by destruct ls.
    - split; [by eapply sublist_NoDup|]. split; [done|]. intros x. by apply (sublist_subseteq _ _ S). }
  destruct P as (P1 & P2 & P3). destruct (filtered_services pool P1) as [F1 F2].
  set (picked := if decide (filter_proxy_services pool = []) then take MAX_PROXY_SERVICES pool else filter_proxy_services pool).
  assert (K : picked <> [] /\ NoDup picked /\ forall x, x ∈ picked -> x ∈ pool).
  { unfold picked. case_decide as E; [|done]. split; [by destruct pool|]. split.
    - eapply sublist_NoDup; [exact P1 | apply sublist_take].
    - intros x. apply (sublist_subseteq _ _ (sublist_take _ _)). }
  destruct K as (K1 & K2 & K3). exists picked. split; [|split; [done|split; [done|]]; intros x Hx; by apply P3, K3].
  eapply chain_step; [exact R|]. rewrite decide_False by done. fold enabled pool. fold picked. by rewrite decide_False.
Qed.

Lemma read_each_runs m l : Forall (has_sound m) l ->
  exists backup, read_each print_listing print_slot print_bypass l (mac ls m) = (mac ls m, Ok backup) /\
    Forall2 (fun svc b => exists s, m !! svc = Some s /\ sound_service s /\ b = backup_of svc s) l backup.
Proof.
  induction 1 as [|svc l (s & Hs & Hq) _ (backup & IH1 & IH2)]; [by exists []|]. pose proof Hq as [[Hp Hb] _].
  exists (backup_of svc s :: backup). split; [|constructor; [by exists s | done]]. cbn [read_each]. unfold get_proxy_bypass_domains, parse_proxy_state, or_else.
  eapply chain_step; [by rewrite (read_bypass_runs print_listing print_slot print_bypass laws ls m svc s)|].
  eapply chain_step; [by rewrite (read_slot_runs print_listing print_slot print_bypass laws ls m svc s Hs Web) by apply (Hp Web)|].
  eapply chain_step; [by rewrite (read_slot_runs print_listing print_slot print_bypass laws ls m svc s Hs Secure) by apply (Hp Secure)|].
  eapply chain_step; [by rewrite (read_slot_runs print_listing print_slot print_bypass laws ls m svc s Hs Socks) by apply (Hp Socks)|].
  eapply chain_step; [exact IH1|]. done.
Qed.

(** What a loop over different services does to each: [f] to those of the list, nothing to the others. *)
Definition maps_to (l : list ServiceProxyBackup) (f : ServiceProxyBackup -> Service -> Service) (m m' : gmap str Service) : Prop :=
  (forall b s, b ∈ l -> m !! b.(service) = Some s -> m' !! b.(service) = Some (f b s)) /\
  (forall svc, svc ∉ service <$> l -> m' !! svc = m !! svc).
Lemma maps_to_cons b l f m m' s : b.(service) ∉ service <$> l -> m !! b.(service) = Some s -> maps_to l f (<[b.(service) := f b s]> m) m' -> maps_to (b :: l) f m m'.
Proof.
  intros Hn Hs [H1 H2]. split.
  - intros b' s' [->|Hb]%elem_of_cons Hs'.
    + rewrite H2 by done. rewrite lookup_insert_eq. congruence.
    + apply H1; [done|]. rewrite lookup_insert_ne; [done|]. intros E. apply Hn. rewrite E. by apply list_elem_of_fmap_2.
  - intros svc. cbn [fmap list_fmap]. rewrite not_elem_of_cons. intros [Hne Hnot]. rewrite H2 by done. by rewrite lookup_insert_ne.
Qed.
Lemma maps_to_nil f m : maps_to [] f m m.
Proof. split; [by intros b s ?%elem_of_nil | done]. Qed.

Lemma apply_each_runs p hosts l : forall m ok_any last_err, is_u16 p -> NoDup (service <$> l) -> Forall (fun b => is_Some (m !! b.(service))) l -> (ok_any = true \/ l <> []) ->
  exists m', apply_each print_listing print_slot print_bypass l (bs "127.0.0.1") (show_dec p) hosts ok_any last_err (mac ls m) = (mac ls m', Ok tt) /\
    maps_to l (fun b => taken p (merge_bypass_for_apply b.(bypass_domains) hosts)) m m'.
Proof.
  induction l as [|b l IH]; intros m ok_any last_err Hp Hn Hs Ho.
  { destruct Ho as [->|]; [|done]. exists m. split; [done | apply maps_to_nil]. }
  cbn [fmap list_fmap] in Hn. apply NoDup_cons in Hn as [Hb Hn]. apply Forall_cons in Hs as [[s Hs] Hl]. cbn [apply_each].
  rewrite (apply_service_runs print_listing print_slot print_bypass ls m _ s) by (done || apply merged_not_empty).
  set (m1 := <[service b := _]> m). destruct (IH m1 true last_err Hp Hn) as (m' & E & M); [|by left|].
  - eapply Forall_impl; [exact Hl|]. intros b' [s' Hs']. unfold m1. destruct (decide (service b = service b')) as [E|E]; [rewrite E, lookup_insert_eq; by eexists|].
    rewrite lookup_insert_ne by done. by exists s'.
  - exists m'. split; [exact E|]. by eapply (maps_to_cons b l (fun b => taken p (merge_bypass_for_apply b.(bypass_domains) hosts))).
Qed.
Lemma restore_each_runs l : forall m, NoDup (service <$> l) -> Forall (fun b => plain_backup b /\ exists s, m !! b.(service) = Some s /\ plain_service s) l ->
  exists m', restore_each print_listing print_slot print_bypass l [] (mac ls m) = (mac ls m', Ok tt) /\ maps_to l put_service m m'.
Proof.
  induction l as [|b l IH]; intros m Hn Hs.
  { exists m. split; [done | apply maps_to_nil]. }
  cbn [fmap list_fmap] in Hn. apply NoDup_cons in Hn as [Hb Hn]. apply Forall_cons in Hs as [(Hpb & s & Hs & Hps) Hl]. cbn [restore_each].
  destruct (IH (<[b.(service) := put_service b s]> m) Hn) as (m' & E & M).
  - apply Forall_forall. intros b' Hin. rewrite Forall_forall in Hl. destruct (Hl b' Hin) as (Hpb' & s' & Hs' & Hps'). split; [done|]. exists s'. split; [|done].
    rewrite lookup_insert_ne; [done|]. intros E. apply Hb. rewrite E. by apply list_elem_of_fmap_2.
  - exists m'. split; [|by eapply maps_to_cons]. eapply chain_step; [|exact E]. unfold collect. by rewrite (restore_service_runs _ _ _ laws ls m s).
Qed.
End Loops.

Lemma backup_shape (m : gmap str Service) l backup : Forall2 (fun svc b => exists s, m !! svc = Some s /\ sound_service s /\ b = backup_of svc s) l backup ->
  service <$> backup = l /\ forall b, b ∈ backup -> exists s, m !! b.(service) = Some s /\ sound_service s /\ b = backup_of b.(service) s.
Proof.
  induction 1 as [|svc b l backup (s & Hs & Hq & ->) _ [IH1 IH2]]; [by split; [|intros b ?%elem_of_nil]|]. cbn [fmap list_fmap service backup_of]. split; [by f_equal|].
  intros b [->|Hb]%elem_of_cons; [by exists s | by apply IH2].
Qed.
Lemma sound_plain_backup svc s : sound_service s -> plain_backup (backup_of svc s).
Proof. intros [[H _] Hb]. split; [apply (H Web)|]. split; [apply (H Secure)|]. split; [apply (H Socks) | done]. Qed.

Lemma taken_plain p l s : is_u16 p -> plain_bypass l -> plain_service s -> plain_service (taken p l s).
Proof.
  intros Hp Hl [Hs _]. destruct (Hs Socks) as (S1 & S2 & S3). split; [|done]. intros k. assert (G : graphic (bs "127.0.0.1")) by literal. by destruct k.
Qed.
Lemma merged_plain_bypass saved hosts : plain_bypass saved -> Forall graphic hosts -> plain_bypass (merge_bypass_for_apply saved hosts).
Proof.
  intros Hs Hh. rewrite mac_merged_is. unfold plain_bypass in *.
  assert (K : forall (f : list str -> str -> list str) (P Q : str -> Prop) l acc, (forall acc x, P x -> Forall Q acc -> Forall Q (f acc x)) -> Forall P l -> Forall Q acc -> Forall Q (fold_left f l acc)).
  { intros f P Q l acc Hf Hl. revert acc. induction Hl as [|x l Hx _ IH]; intros acc Ha; [done|]. cbn. by apply IH, Hf. }
  assert (R : forall acc x, graphic x /\ x <> [] -> Forall (fun d => graphic d /\ d <> []) acc -> Forall (fun d => graphic d /\ d <> []) (push_required acc x)).
  { intros acc x Hx Ha. unfold push_required. case_match; [done|]. apply Forall_app. by split; [|constructor]. }
  apply (K _ (fun d => graphic d /\ d <> [])); [done | apply (bool_decide_unpack _); by vm_compute|].
  apply (K _ graphic); [|apply Forall_fmap; eapply Forall_impl; [exact Hh|]; intros h Hg; cbn; by rewrite trim_graphic | done].
  intros acc [|x y] Hx Ha; [done|]. by apply R.
Qed.

(** ** What the user changed meanwhile *)

(** The same proxy, up to the case of its name; the address of one that is switched off does not count. *)
Definition similar (a b : ProxySlot) : Prop :=
  a.(enabled) = b.(enabled) /\ (a.(enabled) = true -> a.(port) = b.(port) /\ to_ascii_lowercase a.(server) = to_ascii_lowercase b.(server)).
(** A proxy on this computer, as the application's is. *)
Definition on_loopback (p : ProxySlot) : Prop :=
  p.(enabled) = true /\ to_ascii_lowercase (trim p.(server)) ∈ [bs "127.0.0.1"; bs "localhost"; bs "::1"].
(** The user's own settings: a web proxy that is off or elsewhere, a SOCKS proxy that is on, exceptions without one that the application needs. *)
Definition users_slot (k : Kind) (cur : ProxySlot) : Prop := match k with Socks => cur.(enabled) = true | _ => ~ on_loopback cur end.
Definition users_bypass (l : list str) : Prop := exists req, req ∈ REQUIRED_BYPASS /\ Forall (fun d => to_ascii_lowercase d <> to_ascii_lowercase req) l.

Lemma loopback_slot p : is_loopback_slot p = true -> on_loopback p.
Proof. unfold is_loopback_slot. intros [H1 H2%bool_decide_eq_true]%andb_true_iff. split; [done|]. rewrite !elem_of_cons. naive_solver. Qed.
Lemma same_slot_put b cur : plain_slot b -> slot_eq cur b = true -> similar cur (put_slot b cur).
Proof.
  intros (_ & _ & Hn). unfold slot_eq, put_slot. case_bool_decide as E; cbn [negb]; [|done]. rewrite E.
  destruct (enabled b) eqn:Eb; cbn [negb]; [|intros _; by split; [|rewrite E]].
  intros [Hp Hs]%andb_true_iff. apply bool_decide_eq_true in Hp, Hs. rewrite bool_decide_false by by apply Hn. split; [done|]. intros _. by split.
Qed.
Lemma similar_refl p : similar p p.
Proof. by split. Qed.
Lemma users_slot_kept k svc s cur : plain_service s -> users_slot k (slot k cur) -> similar (slot k cur) (slot k (put_service (backup_of svc s) cur)).
Proof.
  intros [Hp _] Hu. pose proof (Hp k) as Hk. destruct k; cbn in *; unfold put_if.
  1, 2: match goal with |- context [is_loopback_slot ?p] => destruct (is_loopback_slot p) eqn:L; [by apply loopback_slot in L|] end.
  3: rewrite Hu.
  all: cbn [negb orb]; destruct (slot_eq _ _) eqn:E; [by apply same_slot_put | apply similar_refl].
Qed.
Lemma users_bypass_kept svc s cur : users_bypass cur.(bypass) -> (put_service (backup_of svc s) cur).(bypass) = cur.(bypass).
Proof.
  intros (req & Hr & Hf). unfold put_service. cbn [bypass]. destruct (bypass_contains_required (bypass cur)) eqn:B; [|by rewrite andb_false_r].
  exfalso. unfold bypass_contains_required in B. rewrite forallb_forall in B. specialize (B req ltac:(by apply list_elem_of_In)).
  unfold listed in B. apply existsb_exists in B as (d & Hd%list_elem_of_In & E%bool_decide_eq_true). rewrite Forall_forall in Hf. by apply (Hf d).
Qed.

(** What [restore] makes of a service that was [s] and is [cur] now. *)
Definition given_back (p : Z) (hosts : list str) (s cur after : Service) : Prop :=
  (cur = taken p (merge_bypass_for_apply s.(bypass) hosts) s -> alike s after) /\
  (forall k, users_slot k (slot k cur) -> similar (slot k cur) (slot k after)) /\
  (users_bypass cur.(bypass) -> after.(bypass) = cur.(bypass)).
Lemma put_given_back p hosts svc s cur : plain_service s -> given_back p hosts s cur (put_service (backup_of svc s) cur).
Proof.
  intros Hs. split; [|split].
  - intros ->. pose proof (merged_required s.(bypass) hosts) as R. destruct (merged_grows s.(bypass) hosts) as [r E]. rewrite E in *. by apply taken_back.
  - intros k. by apply users_slot_kept.
  - apply users_bypass_kept.
Qed.

Lemma mac_split_local p : split_host_port (local_proxy p) = (_ ← context "bad port"%string (parse_uint U16_MAX (show_dec p)); Ok (bs "127.0.0.1", show_dec p)).
Proof. unfold split_host_port. by rewrite local_proxy_split. Qed.
Lemma split_local_ok p : is_u16 p -> split_host_port (local_proxy p) = Ok (bs "127.0.0.1", show_dec p).
Proof. intros Hp. rewrite mac_split_local, parse_port by done. done. Qed.

Section Theorems.
Context (print_listing : list (str * bool) -> str) (print_slot : ProxySlot -> str) (print_bypass : str -> list str -> str).

End Theorems.

(** ** Examples *)

(** A command that satisfies the laws. *)
Definition toy_listing (l : list (str * bool)) : str := in_lines (listing_header :: (shown_service <$> l)).
Definition toy_slot (p : ProxySlot) : str := in_lines (shown_slot p).
Definition toy_bypass (svc : str) (l : list str) : str :=
  match l with [] => bs "There aren't any bypass domains set on " ++ svc ++ bs "." ++ [10] | _ => in_lines l end.
Lemma mac_toy_laws : mac_laws toy_listing toy_slot toy_bypass.
Proof. split_and!; [done | done | by intros svc [|d l] | done]. Qed.

Definition corporate_slot : ProxySlot := {| enabled := true; server := bs "proxy.corp"; port := 3128 |}.
Definition idle_slot : ProxySlot := {| enabled := false; server := bs "old.corp"; port := 8080 |}.
Definition corporate : Service := {| web := corporate_slot; secure := idle_slot; socks := idle_slot; bypass := [bs "*.corp"] |}.
Definition two_services : list (str * bool) := [(bs "Thunderbolt Bridge", false); (bs "Wi-Fi", true)].
Definition two_settings : gmap str Service := {[ bs "Wi-Fi" := corporate; bs "Thunderbolt Bridge" := corporate ]}.
Lemma corporate_sound : sound_service corporate.
Proof.
  split; [split|]; [| unfold plain_bypass, graphic; literal | done].
  assert (P : plain_slot corporate_slot /\ plain_slot idle_slot).
  { unfold plain_slot, graphic, is_u16. split; (split; [literal|]; split; [split; by vm_compute | done]). }
  by intros []; apply P.
Qed.
Lemma two_names : Forall (fun s => plain_name s.1) two_services.
Proof.
  assert (P : forall n, bool_decide (Forall (fun c => 32 <= c <= 126) n /\ head n <> Some 42) = true -> solid n -> plain_name n).
  { intros n [H1 H2]%bool_decide_eq_true Hs. by split_and!. }
  unfold two_services. apply Forall_cons; split; [|apply Forall_cons; split; [|by apply Forall_nil]];
    (apply P; [by vm_compute | split; eexists; (split; [reflexivity | split; by vm_compute])]).
Qed.
Lemma two_sound : Forall (has_sound two_settings) two_services.*1.
Proof. apply Forall_cons; split; [|apply Forall_cons; split; [|by apply Forall_nil]]; (exists corporate; split; [reflexivity | apply corporate_sound]). Qed.

(** ** What does not come back *)

Definition web_after (script : list bool) : option ProxySlot :=
  match read_backup toy_listing toy_slot toy_bypass {| listing := two_services; services := two_settings; script := script |} with
  | (w, Ok backup) => let w := (apply_proxy toy_listing toy_slot toy_bypass (local_proxy 8080) [] backup w).1 in
    web <$> (restore toy_listing toy_slot toy_bypass backup w).1.(services) !! bs "Wi-Fi"
  | _ => None
  end.
(** When the run that reads the web proxy fails, the snapshot says that it was off, and putting it back switches the user's proxy off. *)
Lemma failed_read_loses_proxy : web_after [] = Some corporate_slot /\ enabled <$> web_after [true; true; false] = Some false.
Proof. split; by vm_compute. Qed.
(** The address of a proxy that was switched off is not put back: the application's stays in it. *)
Lemma idle_address_lost :
  (fun s => s.(server)) <$> (secure <$> (let '(w, r) := read_backup toy_listing toy_slot toy_bypass (mac two_services two_settings) in
     match r with
     | Ok backup => (restore toy_listing toy_slot toy_bypass backup (apply_proxy toy_listing toy_slot toy_bypass (local_proxy 8080) [] backup w).1).1.(services) !! bs "Wi-Fi"
     | _ => None
     end)) = Some (bs "127.0.0.1").
Proof. by vm_compute. Qed.
