(* ===== verification/MintInvite.v ===== *)
(** [bin/mint_invite.rs]: an invite from the variables of the environment, and what a client makes of it. *)
From S2P Require Import Prelude Text Frame Crypto MuxWire DomainRoute Reality Users Stream Socks5 HttpConnect ClientConnect LocalClient HelloProfiles Policy Invite ClientOptions.

(** [std::env::var]: [None] when it is not set or not text. *)
Abbreviation Env := (str -> option str).

Definition env_num (max : Z) (env : Env) (name : string) (d : Z) : Z :=
  match env (bs name) with Some s => default d (parse_uint max s) | None => d end.
Definition env_usize := env_num USIZE_MAX.
Definition env_u8 := env_num U8_MAX.
Definition env_u64 := env_num U64_MAX.

Definition default_sni (public : str) : str :=
  match parse_host_port (trim public) with
  | Ok (host, _) => trim_end_matches (Z.eqb 93) (trim_start_matches (Z.eqb 91) host)
  | _ => public
  end.
Definition not_blank (s : option str) : option str := match s with Some s => if decide (trim s = []) then None else Some s | None => None end.

Definition minted (env : Env) (public sni token psk ws_path : str) (proto : Z) (proto_domain : option str) : InviteV1 :=
  {| i_v := 1; i_server := public; i_sni := sni; i_token := token; i_proto := proto; i_proto_domain := proto_domain;
     i_psk := Some psk; i_decoy_max := env_u8 env "DECOY_MAX" 32; i_max_pad := env_u8 env "MAX_PAD" 64;
     i_max_ws_binary := env_usize env "MAX_WS_BINARY" 262144; i_ws_ping_secs := env_u64 env "WS_PING_SECS" 25;
     i_ws_ping_jitter_percent := env_u8 env "WS_PING_JITTER_PERCENT" 0;
     i_ws_binary_send_jitter_ms := env_u8 env "WS_BINARY_SEND_JITTER_MS" 0;
     i_ws_jitter_min_ms := env_u8 env "WS_JITTER_MIN_MS" 0; i_ws_jitter_max_ms := env_u8 env "WS_JITTER_MAX_MS" 0;
     i_udp_max_pad := None; i_udp_max_ws_binary := None; i_udp_mux_reply_timeout_secs := DEFAULT_UDP_MUX_REPLY_TIMEOUT_SECS;
     i_insecure := match env (bs "BIBA_INVITE_INSECURE") with
                   | Some v => negb (bool_decide (v = bs "false")) && negb (bool_decide (v = bs "0"))
                   | None => true
                   end;
     i_tls_profile := bs "default"; i_ws_path := Some ws_path; i_pad_mode := Some (bs "random"); i_dummy_interval_secs := None;
     i_http_proxy := None; i_socks_bind := None; i_socks_auth_user := None; i_socks_auth_password := None; i_junk_frames := 0;
     i_early_ws_frames := 0; i_ws_host := None; i_ws_origin := None; i_ws_user_agent := None; i_ws_accept_language := None;
     i_ws_headers := []; i_use_tcp_mux := true; i_decoy_gets := false; i_decoy_gets_interval_secs := 30;
     i_decoy_gets_paths := None; i_fingerprint := None; i_stealth_profile := None; i_decoy_mode := None; i_desync_mode := None;
     i_tcp_fooling := None; i_tls_fragment := false; i_ws_parallel := 1; i_idle_decoy_secs := None; i_tls_stack := bs "rustls";
     i_reality_target := not_blank (env (bs "INVITE_REALITY_TARGET"));
     i_reality_public_key := not_blank (env (bs "INVITE_REALITY_PUBLIC_KEY"));
     i_reality_short_id := not_blank (env (bs "INVITE_REALITY_SHORT_ID")); i_pin_cert_pem := None;
     i_server_ack_delay_min_ms := None; i_server_ack_delay_max_ms := None; i_rtt_mask_jitter_ms := None; i_ack_profile := None |}.

Section Mint.
Context (aead : Aead) (codecs : Codecs) (argon2 : Argon2).

Definition reality_checks (invite : InviteV1) : result unit :=
  let t := bool_decide (is_Some invite.(i_reality_target)) in
  let k := bool_decide (is_Some invite.(i_reality_public_key)) in
  if t || k || bool_decide (is_Some invite.(i_reality_short_id)) then
    if t && k then
      _ ← reality_public_key_parsed codecs invite;
      _ ← reality_short_id_parsed codecs invite;
      Ok tt
    else bail "REALITY invites require INVITE_REALITY_TARGET and INVITE_REALITY_PUBLIC_KEY"
  else Ok tt.

(** What is printed comes with the invite it was made from. *)
Definition mint_invite (env : Env) (salt_rng nonce_rng : Rng) : result (InviteV1 * str) :=
  public ← context "set INVITE_PUBLIC=host:port"%string (env (bs "INVITE_PUBLIC"));
  _ ← within "INVITE_PUBLIC must be host:port" (parse_host_port (trim public));
  let sni := default (default_sni public) (env (bs "INVITE_SNI")) in
  token ← context "set BIBA_VPN_TOKEN"%string (env (bs "BIBA_VPN_TOKEN"));
  psk ← context "set BIBA_VPN_PSK"%string (env (bs "BIBA_VPN_PSK"));
  passphrase ← context "set BIBA_INVITE_PASSPHRASE"%string (env (bs "BIBA_INVITE_PASSPHRASE"));
  let ws_path := normalize_ws_path (default (bs "/ws") (env (bs "WS_PATH"))) in
  let proto := env_u8 env "INVITE_PROTO" 3 in
  if decide (proto <> 3) then bail "only Biba protocol v3 is supported (set INVITE_PROTO=3)" else
  let proto_domain := or_opt (env (bs "INVITE_PROTO_DOMAIN")) (Some (bs "default")) in
  let invite := minted env public sni token psk ws_path proto proto_domain in
  _ ← reality_checks invite;
  uri ← encode_invite_v1 aead codecs argon2 salt_rng nonce_rng invite passphrase;
  Ok (invite, uri).
End Mint.

(** ** Lemmas *)

Lemma given_not_blank s : is_Some (not_blank s) -> is_Some (given (not_blank s)).
Proof. unfold not_blank, given. destruct s as [s|]; [|by intros []]. case_decide; [by intros []|]. by rewrite decide_False. Qed.

Lemma parsed_present codecs i key :
  reality_public_key_parsed codecs i = Ok key -> (is_Some key <-> is_Some (given i.(i_reality_public_key))).
Proof.
  unfold reality_public_key_parsed. destruct (given _); intros H; peel H; simplify_eq; [by split; intros _|done].
Qed.
Lemma id_parsed_present codecs i sid :
  reality_short_id_parsed codecs i = Ok sid -> (is_Some sid <-> is_Some (given i.(i_reality_short_id))).
Proof.
  unfold reality_short_id_parsed. destruct (given _); intros H; peel H; simplify_eq; [by split; intros _|done].
Qed.

(** A REALITY invite that passes the checks of the mint passes those of the client. *)
Lemma reality_checks_Ok codecs i k s :
  i.(i_reality_public_key) = not_blank k -> i.(i_reality_short_id) = not_blank s -> reality_checks codecs i = Ok tt ->
  exists key sid, reality_public_key_parsed codecs i = Ok key /\ reality_short_id_parsed codecs i = Ok sid /\
    reality_complete i.(i_reality_target) key sid = Ok tt.
Proof.
  intros Hk Hs. unfold reality_checks.
  destruct (bool_decide (is_Some (i_reality_target i))) eqn:Et, (bool_decide (is_Some (i_reality_public_key i))) eqn:Ek; simpl; try done.
  - intros (key & Hkey & (sid & Hsid & _)%bind_Ok)%bind_Ok. exists key, sid. split_and!; [done|done|].
    apply bool_decide_eq_true in Et, Ek. rewrite Hk in Ek. apply given_not_blank in Ek. rewrite <- Hk in Ek.
    apply (parsed_present codecs i key Hkey) in Ek. unfold reality_complete. by repeat case_bool_decide.
  - apply bool_decide_eq_false in Et, Ek. apply eq_None_not_Some in Et, Ek.
    destruct (bool_decide (is_Some (i_reality_short_id i))) eqn:Es; [done|]. apply bool_decide_eq_false, eq_None_not_Some in Es.
    intros _. exists None, None. unfold reality_public_key_parsed, reality_short_id_parsed. by rewrite Et, Ek, Es.
Qed.

Lemma mint_invite_Ok aead codecs argon2 env r1 r2 i uri :
  mint_invite aead codecs argon2 env r1 r2 = Ok (i, uri) ->
  exists public h p sni token psk ws domain,
    i = minted env public sni token psk ws 3 domain /\ is_Some domain /\ starts_with ws (bs "/") = true /\
    parse_host_port (trim public) = Ok (h, p) /\ reality_checks codecs i = Ok tt.
Proof.
  unfold mint_invite. intros H. peel H. apply dec_stable in N. rewrite N in *. apply Ok_inj in H. injection H as <- <-.
  destruct y0 as [h p], y4. eexists _, h, p, _, _, _, _, _. split; [reflexivity|]. split_and!; [destruct (env (bs "INVITE_PROTO_DOMAIN")); by eexists|apply ws_path_slash|done|done].
Qed.

Lemma minted_basics env public sni token psk ws domain text pass h p :
  let i := minted env public sni token psk ws 3 domain in
  parse_host_port (trim public) = Ok (h, p) ->
  exists b b', json_basics (json_of text pass) (Some i) = Ok b /\ cli_basics (args_of text pass) (Some i) = Ok b' /\
    Forall (fun b => b.(b_host) = h /\ b.(b_port) = p /\ b.(b_insecure_tls) = i.(i_insecure)) [b; b'].
Proof.
  intros i Hh. unfold json_basics, cli_basics. change (i_server i) with public. rewrite Hh. cbn [within map_err mbind res_bind].
  eexists _, _. split; [reflexivity|]. split; [reflexivity|]. by repeat constructor.
Qed.

(** A step whose result is found by computing. *)
Ltac steps v :=
  match goal with |- (?m ≫= _) = _ => let Q := fresh in assert (m = Ok v) as Q by reflexivity; rewrite Q; clear Q; cbn [mbind res_bind] end.

Lemma minted_merges codecs env public sni token psk ws domain h p text pass read_file key sid :
  let i := minted env public sni token psk ws 3 domain in
  parse_host_port (trim public) = Ok (h, p) -> validate_resolved_token token = Ok tt -> non_empty_str (Some psk) = true ->
  reality_public_key_parsed codecs i = Ok key -> reality_short_id_parsed codecs i = Ok sid ->
  reality_complete i.(i_reality_target) key sid = Ok tt ->
  exists o o', json_merge codecs (json_of text pass) (Some i) = Ok o /\ cli_merge codecs read_file (args_of text pass) (Some i) = Ok o' /\
    Forall (fun x => x.(o_server_host) = h /\ x.(o_server_port) = p /\ x.(o_token) = token /\ x.(o_psk) = Some psk /\ x.(o_proto) = 3 /\
      x.(o_pad_mode) = Random /\ x.(o_insecure_tls) = i.(i_insecure) /\ x.(o_reality_target) = i.(i_reality_target)) [o; o'].
Proof.
  intros i Hh Ht Hp Hk Hs Hc.
  assert (require_psk (Some psk) (client_reality_configured i.(i_reality_target) key) false = Ok tt) as Hq by (unfold require_psk; by rewrite Hp).
  assert (invite_reality codecs (Some i) = Ok (i.(i_reality_target), key, sid)) as Hr.
  { unfold invite_reality. run Hk. by run Hs. }
  destruct (minted_basics env public sni token psk ws domain text pass h p Hh) as (b & b' & Hb & Hb' & HF).
  fold i in Hb, Hb', HF. apply Forall_cons in HF as [(H1 & H2 & H3) ((H1' & H2' & H3') & _)%Forall_cons].
  destruct (json_jitter (json_of text pass) (Some i) None) as [jmin jmax] eqn:Ej.
  eexists _, _. split; [|split].
  - unfold json_merge. steps (@None StealthProfile). rewrite Hb. cbn [mbind res_bind]. steps token. run Ht. steps (Some psk).
    steps (@nil (str * str)). change (json_jitter _ _ _) with (json_jitter (json_of text pass) (Some i) None). rewrite Ej. steps Random. rewrite decide_False by (intros Hn; by apply Hn).
    steps (Some TlsDefault). steps TlsDefault. steps Simple. steps DesyncOff. steps FoolingOff. steps Rustls.
    steps (@None (str * str)). run Hr. run Hc. run Hq. reflexivity.
  - unfold cli_merge. rewrite Hb'. cbn [mbind res_bind]. steps token. rewrite decide_False by (intros Hn; by apply Hn). run Ht.
    steps (@None StealthProfile). change (apply_preset_ws_jitter _ _ _) with (json_jitter (json_of text pass) (Some i) None). rewrite Ej. steps (Some TlsDefault). steps TlsDefault.
    steps Random. steps (@None bytes). run Hk. run Hs. run Hc. run Hq.
    steps Simple. steps DesyncOff. steps FoolingOff. steps Rustls. steps (@None (str * str)). steps (@nil (str * str)). reflexivity.
  - repeat constructor; done.
Qed.

(** A client takes every invite that is minted with a token that is no placeholder and a PSK that is not blank: both front ends accept it, and
    connect to the address the invite was minted for, with its token, PSK and protocol 3. *)
Theorem minted_invite_starts aead codecs argon2 env r1 r2 i uri text pass read_file :
  mint_invite aead codecs argon2 env r1 r2 = Ok (i, uri) ->
  validate_resolved_token i.(i_token) = Ok tt -> non_empty_str i.(i_psk) = true ->
  exists o o', json_merge codecs (json_of text pass) (Some i) = Ok o /\
    cli_merge codecs read_file (args_of text pass) (Some i) = Ok o' /\
    Forall (fun x => parse_host_port (trim i.(i_server)) = Ok (x.(o_server_host), x.(o_server_port)) /\
      x.(o_token) = i.(i_token) /\ x.(o_psk) = i.(i_psk) /\ x.(o_proto) = 3 /\ x.(o_pad_mode) = Random /\
      x.(o_insecure_tls) = i.(i_insecure) /\ x.(o_reality_target) = i.(i_reality_target)) [o; o'].
Proof.
  intros Hm Ht Hp. destruct (mint_invite_Ok _ _ _ _ _ _ _ _ Hm) as (public & h & p & sni & token & psk & ws & domain & Hi & Hd & Hw & Hhp & Hr).
  destruct (reality_checks_Ok codecs i (env (bs "INVITE_REALITY_PUBLIC_KEY")) (env (bs "INVITE_REALITY_SHORT_ID"))) as (key & sid & Hk & Hs & Hc);
    [by rewrite Hi..|done|].
  subst i. destruct (minted_merges codecs env public sni token psk ws domain h p text pass read_file key sid) as (o & o' & Ho & Ho' & HF); [done..|].
  exists o, o'. split; [exact Ho|]. split; [exact Ho'|]. eapply Forall_impl; [exact HF|]. cbn beta.
  intros x (-> & -> & ? & ? & ? & ? & ? & ?). by split_and!.
Qed.

Definition sample_env (name : str) : option str :=
  if decide (name = bs "INVITE_PUBLIC") then Some (bs "vpn.example:443")
  else if decide (name = bs "BIBA_VPN_TOKEN") then Some (bs "t0k3n-for-alice")
  else if decide (name = bs "BIBA_VPN_PSK") then Some (bs "0123456789abcdef0123456789abcdef")
  else if decide (name = bs "BIBA_INVITE_PASSPHRASE") then Some (bs "pass")
  else None.
(** A JSON that knows the invite of [sample_env]. *)
Definition env_invite : InviteV1 :=
  minted sample_env (bs "vpn.example:443") (bs "vpn.example") (bs "t0k3n-for-alice") (bs "0123456789abcdef0123456789abcdef") (bs "/ws") 3
    (Some (bs "default")).
Definition env_codecs : Codecs.
Proof.
  refine {| json_to_vec i := if decide (i = env_invite) then Some [7] else None;
            json_from_slice b := match b with [7] => Some env_invite | _ => None end;
            url_encode := letters; url_decode := unletters; std_decode := unletters; hex_decode := unletters |}.
  - intros i b H. case_decide; simplify_eq. by constructor.
  - intros i b H. by case_decide; simplify_eq.
  - apply sample_codecs.(url_roundtrip).
  - apply sample_codecs.(url_alphabet).
Defined.

Lemma minted_invite_starts_witness :
  exists uri o, mint_invite plain_aead env_codecs sample_kdf sample_env zero_rng zero_rng = Ok (env_invite, uri) /\
    json_merge env_codecs (json_of uri (bs "pass")) (Some env_invite) = Ok o /\ o.(o_server_host) = bs "vpn.example" /\ o.(o_server_port) = 443.
Proof.
  assert (mint_invite plain_aead env_codecs sample_kdf sample_env zero_rng zero_rng =
    Ok (env_invite, match mint_invite plain_aead env_codecs sample_kdf sample_env zero_rng zero_rng with Ok (_, u) => u | _ => [] end)) as Hm
    by (vm_compute; reflexivity).
  match type of Hm with _ = Ok (_, ?u) => set (uri := u) in * end.
  destruct (minted_invite_starts plain_aead env_codecs sample_kdf sample_env zero_rng zero_rng env_invite uri uri (bs "pass") (fun _ => None))
    as (o & o' & Ho & _ & HF); [exact Hm|vm_compute; reflexivity|vm_compute; reflexivity|].
  apply Forall_cons in HF as [(Hh & _) _]. exists uri, o. split; [exact Hm|]. split; [exact Ho|].
  assert (parse_host_port (trim (i_server env_invite)) = Ok (bs "vpn.example", 443)) as Hp by (vm_compute; reflexivity).
  rewrite Hp in Hh. apply Ok_inj in Hh. exact (conj (eq_sym (f_equal fst Hh)) (eq_sym (f_equal snd Hh))).
Defined.
