(* ===== verification/ServerConn.v ===== *)
(** [bin/server.rs]: one accepted connection, from the address check to the tunnel it is given.
    The REALITY exchange is that of Reality.v, tokens and session limits those of Users.v,
    budgets, bans and counters those of Limits.v. A timeout expires when the peer stays silent. *)
From S2P Require Import Prelude Text Net WebSocket Frame Protocol Crypto Limits Users Reality.

(** ** The state a connection works on *)

Record Conn := {
  peer : Peer;
  limiter : AuthRateLimiter;
  stats : ServerStats;
  active : gmap str Z;            (* the registry's sessions *)
  held : list str;                (* user sessions this connection holds *)
  reads : nat;                    (* readings of the clock and of the users file so far *)
}.
Definition set_peer p (c : Conn) : Conn :=
  {| peer := p; limiter := c.(limiter); stats := c.(stats); active := c.(active); held := c.(held); reads := c.(reads) |}.
Definition set_limiter l (c : Conn) : Conn :=
  {| peer := c.(peer); limiter := l; stats := c.(stats); active := c.(active); held := c.(held); reads := S c.(reads) |}.
Definition set_stats s (c : Conn) : Conn :=
  {| peer := c.(peer); limiter := c.(limiter); stats := s; active := c.(active); held := c.(held); reads := c.(reads) |}.
Definition set_sessions a h (c : Conn) : Conn :=
  {| peer := c.(peer); limiter := c.(limiter); stats := c.(stats); active := a; held := h; reads := S c.(reads) |}.

Definition on_peer {A} (m : ST Peer err A) : ST Conn err A := fun c =>
  let '(p, r) := m c.(peer) in (set_peer p c, r).

(** The messages of a loop [while let Some(m) = ws.next()]: [body] goes on with a new loop state
    or is done. [eof] and [broken] are the errors at the end of the stream and of a failed read. *)
Fixpoint each_message {T A} (body : T -> Message -> ST Conn err (T + A)) (eof broken : err)
    (inc : list (option Message)) (t : T) : ST Conn err A := fun c =>
  match inc with
  | [] => (set_peer (set_inbox [] c.(peer)) c, Err (at_end eof c.(peer)))
  | None :: inc => (set_peer (set_inbox inc c.(peer)) c, Err broken)
  | Some m :: inc =>
    match body t m (set_peer (set_inbox inc c.(peer)) c) with
    | (c, Ok (inl t)) => each_message body eof broken inc t c
    | (c, Ok (inr a)) => (c, Ok a)
    | (c, Err e) => (c, Err e)
    | (c, Panic) => (c, Panic)
    end
  end.
Definition messages {T A} (body : T -> Message -> ST Conn err (T + A)) (eof broken : err) (t : T) : ST Conn err A :=
  fun c => each_message body eof broken c.(peer).(inbox) t c.

(** [timeout(dur, m)]. *)
Definition with_timeout {A} (m : ST Conn err A) (expired : ST Conn err A) : ST Conn err A := fun c =>
  match m c with
  | (c, Err e) => if decide (e = STALLED) then expired c else (c, Err e)
  | r => r
  end.

(** The steps of a control message during a handshake: [Pong] to a ping, an error on close. *)
Definition control {T A} (t : T) (pong closed : err) (m : Message) : ST Conn err (T + A) :=
  match m with
  | Ping p => _ ← on_peer (ws_send (Pong p) pong); mret (inl t)
  | CloseMsg => throw closed
  | _ => mret (inl t)
  end.

(** ** Open targets *)

Definition MAX_OPEN_HOST_LEN : Z := 255.
Fixpoint has_whitespace (s : str) : bool :=
  match s with [] => false | _ :: r => negb (Nat.eqb (ws_len s) 0) || has_whitespace r end.
Definition validate_open_host (host : str) : result unit :=
  if decide (host = []) then bail "OPEN host is empty"
  else if decide (MAX_OPEN_HOST_LEN < len host) then bail "OPEN host is too long"
  else if has_control host || has_whitespace host then bail "OPEN host contains whitespace or control characters"
  else Ok tt.

(** [--reality-short-ids]; [hex_decode] is the [hex] crate's. *)
Fixpoint short_ids_from (hex_decode : str -> option bytes) (parts : list str) : result (list bytes) :=
  match parts with
  | [] => Ok []
  | part :: parts =>
    let part := trim part in
    id ← (if decide (part = []) then Ok (replicate 8 0) else
          b ← context "--reality-short-ids: not valid hex"%string (hex_decode part);
          if decide (len b <> 8) then bail "--reality-short-ids entries must be 16 hex chars (8 bytes)" else Ok b);
    ids ← short_ids_from hex_decode parts;
    Ok (id :: ids)
  end.
Definition parse_reality_short_ids (hex_decode : str -> option bytes) (raw : option str) : result (list bytes) :=
  match raw with None => Ok [] | Some raw => short_ids_from hex_decode (split_char 44 [] raw) end.

Inductive FirstChannel : Type :=
| Tcp (host : str) (port : Z) (supports_open_status : bool)
| UdpMux
| Mux.

(** What a connection ends up serving. *)
Inductive Served : Type :=
| Camouflaged                                                   (* an HTTP answer, no tunnel *)
| PlainMux                                                      (* mux records without AEAD, after REALITY *)
| Refused (host : str) (port : Z) (crypto : SessionCrypto)      (* the target could not be reached, and the client was told *)
| Bridge (host : str) (port : Z) (crypto : SessionCrypto)
| UdpRelay (crypto : SessionCrypto)
| TcpMux (crypto : SessionCrypto).

(** TLS and the HTTP upgrade, done by others. *)
Inductive Setup : Type :=
| TlsFailed | TlsSilent | UpgradeFailed | UpgradeSilent
| PlainHttp
| Upgraded (tls_sni http_host : option str).

Record ServerCfg := {
  token : str;
  psk : option str;
  decoy : Z;
  proto_domain : str;
  reality : option RealityServerConfig;
  pre_auth : PreAuthBudget;
  registry : option (nat -> option bytes);      (* the users file, at each reading *)
  sv_pad : Z;
  sv_mode : PadMode;
}.

Section Server.
Context (x : X25519) (aead : Aead) (b3 : Blake3) `{mo : !MapOrder}.
Context (parse_users : bytes -> option (list User)) (hash : bytes -> bytes).
(** The readings of the monotonic clock, those of the system clock during REALITY, what is drawn, and the peer. *)
Context (clock : nat -> Z) (wall1 wall2 : option Z) (ack_rand ack_pad pad_rng seal_rng : Rng) (peer_ip : IpAddr).
(** [TcpStream::connect]. *)
Context (connect : str -> Z -> result unit) (cfg : ServerCfg).

(** ** Calls on the shared components *)

Definition auth_failure : ST Conn err unit := fun c => (set_limiter (record_failure peer_ip (clock c.(reads)) c.(limiter)) c, Ok tt).
Definition auth_success : ST Conn err unit := fun c => (set_limiter (record_success peer_ip (clock c.(reads)) c.(limiter)) c, Ok tt).
Definition bump_stats (f : ServerStats -> ServerStats) : ST Conn err unit := modify (fun c => set_stats (f c.(stats)) c).
(** [auth.record_failure(peer_ip).await; return Err(e)]. *)
Definition fail_auth {A} (e : err) : ST Conn err A := _ ← auth_failure; throw e.

(** [users.acquire(&tok)], its guard kept by the connection. *)
Definition acquire_user (file : nat -> option bytes) (tok : str) : ST Conn err str := fun c =>
  match acquire parse_users hash (file c.(reads)) tok c.(active) with
  | (active, Ok l) => (set_sessions active (l :: c.(held)) c, Ok l)
  | (active, Err e) => (set_sessions active c.(held) c, Err e)
  | (active, Panic) => (set_sessions active c.(held) c, Panic)
  end.

(** ** Authentication under the session keys *)

Definition auth_message (crypto : SessionCrypto) (expected_token : str) (users : option (nat -> option bytes))
    (t : PreAuthBudgetTracker) (m : Message) : ST Conn err (PreAuthBudgetTracker + unit) :=
  match m with
  | Binary b =>
    match note_binary_frame (len b) cfg.(pre_auth) t with
    | (_, Err e) => fail_auth e
    | (_, Panic) => lift Panic
    | (t, Ok _) =>
      match open_client_to_server aead crypto b with
      | Panic => lift Panic
      | Err _ =>
        match note_decrypt_failure cfg.(pre_auth) t with
        | (_, Err e) => fail_auth e
        | (_, Panic) => lift Panic
        | (t, Ok _) => mret (inl t)
        end
      | Ok raw =>
        inner ← lift (map_err (fun _ => "v3 auth frame"%string) (read_padded_frame_into raw));
        tok ← lift (map_err (fun _ => "decode v3 auth"%string) (decode_v3_auth inner));
        _ ← (match users with
             | Some file => fun c =>
               match acquire_user file tok c with
               | (c, Ok _) => (c, Ok tt)
               | (c, Err _) => fail_auth "v3 auth token mismatch or user unavailable"%string c
               | (c, Panic) => (c, Panic)
               end
             | None =>
               if secret_eq tok expected_token then mret tt else fail_auth "v3 auth token mismatch"%string
             end);
        _ ← auth_success;
        _ ← bump_stats inc_handshake_success;
        mret (inr tt)
      end
    end
  | _ => control t "pong" "closed before v3 AUTH" m
  end.
Definition server_wait_v3_auth (crypto : SessionCrypto) (expected_token : str) (users : option (nat -> option bytes)) : ST Conn err unit :=
  messages (auth_message crypto expected_token users) "eof before v3 AUTH" "ws read" PreAuthBudgetTracker_default.

(** [HELLO] received: the [ACK] and the session keys. *)
Definition send_ack (secret domain client_random : bytes) (ctx : err) : ST Conn err SessionCrypto :=
  '(ack, s_rand) ← lift (build_ack b3 ack_rand ack_pad secret domain client_random);
  _ ← on_peer (ws_send (Binary ack) ctx);
  mret (SessionCrypto_new b3 secret domain client_random s_rand cfg.(decoy)).

Definition hello_message (domain : str) (t : PreHelloJunkTracker) (m : Message) : ST Conn err (PreHelloJunkTracker + SessionCrypto) :=
  match m with
  | Binary b =>
    match account_pre_hello_binary b (Z.min cfg.(pre_auth).(max_junk_frames) MAX_PRE_HELLO_FRAMES)
            (Z.min cfg.(pre_auth).(max_junk_bytes) MAX_PRE_HELLO_BYTES) t with
    | (t, Ok None) => mret (inl t)
    | (_, Err e) => fail_auth e
    | (_, Panic) => lift Panic
    | (_, Ok (Some client_random)) =>
      secret ← lift (context "Biba v3 requires server --psk"%string cfg.(psk));
      crypto ← send_ack secret domain client_random "send v3 ACK";
      _ ← server_wait_v3_auth crypto cfg.(token) cfg.(registry);
      mret (inr crypto)
    end
  | _ => control t "pong" "closed during handshake" m
  end.
Definition server_handshake_v3 (domain : str) : ST Conn err SessionCrypto :=
  with_timeout
    (messages (hello_message domain) "eof during handshake" "ws error" PreHelloJunkTracker_default)
    (_ ← bump_stats inc_handshake_timeout; fail_auth "handshake timeout"%string).

Definition server_handshake_v3_after_first_hello (first_hello : bytes) (tok secret domain : str) : ST Conn err SessionCrypto :=
  client_random ← lift (map_err (fun _ => "parse v3 HELLO"%string) (parse_hello_v3 first_hello));
  crypto ← send_ack secret domain client_random "send v3 ACK (REALITY follow-up)";
  _ ← with_timeout (server_wait_v3_auth crypto tok None)
        (_ ← bump_stats inc_handshake_timeout; fail_auth "handshake timeout waiting for v3 AUTH (REALITY path)"%string);
  mret crypto.

(** ** The first channel *)

Definition first_channel_message (crypto : SessionCrypto) (t : PreAuthBudgetTracker) (m : Message) :
    ST Conn err (PreAuthBudgetTracker + FirstChannel) :=
  match m with
  | Binary b =>
    raw ← lift (map_err (fun _ => "decrypt v3 control"%string) (open_client_to_server aead crypto b));
    inner ← lift (map_err (fun _ => "padded v3 control"%string) (read_padded_frame_into raw));
    kind ← lift (classify_v3_first_channel inner);
    match kind with
    | TcpOpen host port flags =>
      _ ← lift (validate_open_host host);
      mret (inr (Tcp host port (bool_decide (Z.land flags OPEN_FLAG_STATUS <> 0))))
    | Protocol.UdpMux => mret (inr UdpMux)
    | Protocol.Mux => mret (inr Mux)
    | NotChannelOpen =>
      match note_binary_frame (len b) cfg.(pre_auth) t with
      | (_, Err e) => fail_auth e
      | (_, Panic) => lift Panic
      | (t, Ok _) => mret (inl t)
      end
    end
  | _ => control t "pong during OPEN wait" "closed before channel open" m
  end.
Definition wait_first_channel (crypto : SessionCrypto) : ST Conn err FirstChannel :=
  messages (first_channel_message crypto) "eof before OPEN / UDP_MUX / MUX" "ws read" PreAuthBudgetTracker_default.
Definition wait_first_channel_with_timeout (crypto : SessionCrypto) : ST Conn err FirstChannel :=
  with_timeout (wait_first_channel crypto)
    (_ ← bump_stats inc_handshake_timeout; fail_auth "handshake timeout waiting for OPEN / MUX_OPEN / UDP_MUX_OPEN"%string).

(** A status record for the client, on a fresh padding state; the crypto after it. *)
Definition status_frame (crypto : SessionCrypto) (inner : bytes) : SessionCrypto * result bytes :=
  match write_padded_frame_with_mode_state pad_rng inner cfg.(sv_pad) cfg.(sv_mode) (Some {| count := 0 |}) with
  | Ok (wire, _) => seal_server_to_client aead seal_rng wire crypto
  | Err _ => (crypto, bail "pack OPEN status v3")
  | Panic => (crypto, Panic)
  end.

Definition run_session_after_v3_handshake (crypto : SessionCrypto) : ST Conn err Served :=
  first ← wait_first_channel_with_timeout crypto;
  match first with
  | UdpMux => mret (UdpRelay crypto)
  | Mux => mret (TcpMux crypto)
  | Tcp host port supports_open_status =>
    match connect host port with
    | Panic => lift Panic
    | Err e =>
      if supports_open_status : bool then fun c =>
        match encode_v3_open_err (bs "connect " ++ host ++ bs ":" ++ show_dec port ++ bs ": " ++ bs e) with
        | Ok inner =>
          match status_frame crypto inner with
          | (crypto, Ok blob) =>
            let '(c, _) := on_peer (ws_send (Binary blob) "ws send") c in (c, Ok (Refused host port crypto))
          | (crypto, _) => (c, Ok (Refused host port crypto))
          end
        | _ => (c, Ok (Refused host port crypto))
        end
      else throw "connect"%string
    | Ok _ =>
      if supports_open_status : bool then
        let '(crypto, r) := status_frame crypto encode_v3_open_ok in
        blob ← lift r;
        _ ← on_peer (ws_send (Binary blob) "send OPEN_OK v3");
        mret (Bridge host port crypto)
      else mret (Bridge host port crypto)
    end
  end.

(** ** The connection *)

(** Which identity the AUTH tag proves, and the table once its session is counted. *)
Definition reality_identity (c : Conn) (shared client_pub server_pub : bytes) (timestamp : Z) (nonce got : bytes) :
    result (str * option (str * gmap str Z)) :=
  let matches candidate := secret_eq got (reality_client_auth_mac b3 shared candidate client_pub server_pub timestamp nonce) in
  match cfg.(registry) with
  | Some file =>
    selected ← find_token parse_users (file c.(reads)) matches;
    match acquire parse_users hash (file (S c.(reads))) selected c.(active) with
    | (active, Ok l) => Ok (selected, Some (l, active))
    | (_, Err e) => Err e
    | (_, Panic) => Panic
    end
  | None =>
    if matches cfg.(token) then Ok (cfg.(token), None)
    else bail "REALITY: client AUTH MAC invalid (unknown token)"
  end.

(** The REALITY exchange under its timeout, with what it tells the limiter. The session of the
    identity is counted when the exchange succeeds; a guard dropped before that leaves no trace. *)
Definition reality_auth (rc : RealityServerConfig) (tls_sni http_host : option str) : ST Conn err str := fun c =>
  match on_peer (server_handshake_reality_with_auth x b3 rc tls_sni http_host wall1 wall2 (reality_identity c)) c with
  | (c, Ok (_, (tok, session))) =>
    let c := match session with Some (l, active) => set_sessions active (l :: c.(held)) c | None => c end in
    (_ ← auth_success; mret tok) c
  | (c, Err e) =>
    if decide (e = STALLED) then (_ ← bump_stats inc_handshake_timeout; fail_auth "handshake timeout waiting for REALITY AUTH"%string) c
    else fail_auth "REALITY handshake"%string c
  | (c, Panic) => (c, Panic)
  end.

Definition after_reality_message (u : unit) (m : Message) : ST Conn err (unit + bytes) :=
  match m with
  | Binary b => mret (inr b)
  | _ => control tt "pong after REALITY" "closed after REALITY" m
  end.
Definition read_next_binary_after_reality : ST Conn err bytes :=
  messages after_reality_message "eof after REALITY" "ws error after REALITY" tt.

(** [with_setup_timeout]: a peer that never spoke has not failed authentication. *)
Definition with_setup_timeout {A} (phase : err) (m : ST Conn err A) : ST Conn err A :=
  with_timeout m (_ ← bump_stats inc_handshake_timeout; throw phase).

Definition handle_upgraded (tls_sni http_host : option str) : ST Conn err Served :=
  let domain := trim cfg.(proto_domain) in
  match cfg.(reality) with
  | Some rc =>
    reality_token ← reality_auth rc tls_sni http_host;
    if decide (domain = []) then throw "--proto-domain must not be empty"%string else
    next ← with_setup_timeout "first frame after REALITY timeout" read_next_binary_after_reality;
    if is_v3_mux_open next then _ ← bump_stats inc_handshake_success; mret PlainMux
    else if bool_decide (next <> [] /\ head next = Some V3_HELLO_TAG) then
      secret ← lift (context "REALITY + v3 requires server --psk (UDP mux path)"%string cfg.(psk));
      crypto ← server_handshake_v3_after_first_hello next reality_token secret domain;
      run_session_after_v3_handshake crypto
    else throw "after REALITY: expected mux open or v3 HELLO"%string
  | None =>
    if decide (domain = []) then throw "--proto-domain must not be empty"%string else
    crypto ← server_handshake_v3 domain;
    run_session_after_v3_handshake crypto
  end.

Definition handle_one (setup : Setup) : ST Conn err Served :=
  match setup with
  | TlsFailed => throw "tls accept"%string
  | TlsSilent => with_setup_timeout "tls accept timeout" (throw STALLED)
  | UpgradeFailed => throw "websocket upgrade"%string
  | UpgradeSilent => with_setup_timeout "websocket upgrade / camouflage http timeout" (throw STALLED)
  | PlainHttp => mret Camouflaged
  | Upgraded tls_sni http_host => handle_upgraded tls_sni http_host
  end.

(** Every user session the connection holds is given back. *)
Definition release_users (c : Conn) : Conn :=
  set_sessions (fold_left (fun active l => (drop_session l active).1) c.(held) c.(active)) [] c.

(** A permit of the session semaphore: unlimited, granted, closed, or not within five seconds. *)
Inductive Permit : Set := Unlimited | Granted | SemaphoreClosed | Busy.

(** The spawned task for an accepted connection. [tunnel] is what the tunnel, if there is one,
    returns in the end; the users' sessions last until then. *)
Definition serve (permit : Permit) (setup : Setup) (tunnel : Served -> result unit) : ST Conn err (option Served) := fun c =>
  let '(l, r) := check_allowed peer_ip (clock c.(reads)) c.(limiter) in
  let c := set_limiter l c in
  match r with
  | Err _ => (set_stats (inc_auth_rejected_banned c.(stats)) c, Ok None)
  | Panic => (c, Panic)
  | Ok _ =>
    match permit with
    | SemaphoreClosed => (c, Ok None)
    | Busy => (set_stats (inc_sessions_rejected_busy c.(stats)) c, Ok None)
    | Unlimited | Granted =>
      let c := set_stats (session_guard c.(stats)) c in
      let '(c, r) := handle_one setup c in
      let failed := match r with Ok s => negb (is_ok (tunnel s)) | _ => true end in
      let c := release_users c in
      let c := if failed then set_stats (inc_session_error c.(stats)) c else c in
      (set_stats (drop_guard c.(stats)) c,
       match r with Ok s => Ok (Some s) | Err e => Err e | Panic => Panic end)
    end
  end.
End Server.
