(* ===== verification/Demo.v ===== *)
(** A client and a server with concrete settings, on ciphers that satisfy the laws: the inputs
    on which the theorems about connections are evaluated. *)
From S2P Require Import Prelude Text Net WebSocket Frame Protocol Limits Users DomainRoute UdpClient Pacing ClientConnect Crypto Reality ServerConn.

Definition demo_scfg : ServerCfg :=
  {| ServerConn.token := bs "secret"; psk := Some (bs "psk"); decoy := 0; proto_domain := bs "vk.com"; reality := None;
     pre_auth := PreAuthBudget_default; registry := None; sv_pad := 8; sv_mode := Random |}.
Definition demo_ccfg : ClientCfg :=
  {| ClientConnect.token := bs "secret"; max_pad := 8; ClientConnect.junk_frames := 2; early_ws_frames := 1; ClientConnect.psk := Some (bs "psk");
     ClientConnect.decoy_max := 0; max_ws_binary := 4096; udp_mux_max_pad := 8; udp_mux_max_ws_binary := 4096; pad_mode := Random; proto := 3;
     ClientConnect.proto_domain := bs " vk.com "; use_tcp_mux := true; reality_target := None; reality_public_key := None;
     reality_short_id := None; socks_bind := bs "127.0.0.1:1080" |}.
Definition demo_draws : Draws :=
  {| d_noise _ := zero_rng; d_hello := zero_rng; d_hello_pad := zero_rng; d_pad _ := zero_rng; d_seal _ := zero_rng; d_now := None;
     d_nonce := []; d_ephemeral := []; d_short_id := [] |}.
Definition demo_ack : bytes :=
  match build_ack zero_blake3 zero_rng zero_rng (bs "psk") (bs "vk.com") (fill_bytes zero_rng 32) with Ok (ack, _) => ack | _ => [] end.
Definition fresh_peer (inc : list (option Message)) : Peer :=
  {| inbox := inc; outbox := []; stalls := false; sends_left := 20; control_frames := 0; cache := [] |}.

(** The messages of the client's UDP mux and TCP mux connections, answered by the ACK. *)
Definition demo_udp_run : Peer * result SessionCrypto :=
  connect_udp_mux_ws toy_x25519 plain_aead zero_blake3 demo_draws (Ok tt) (udp_mux_config demo_ccfg) (fresh_peer [Some (Binary demo_ack)]).
Definition demo_mux_run : Peer * result (option SessionCrypto) :=
  prepare_mux_connection toy_x25519 plain_aead zero_blake3 demo_draws (Ok tt) demo_ccfg (fresh_peer [Some (Binary demo_ack)]).

(** The server's end, for a peer that sent these messages. *)
Definition demo_conn (sent : list Message) : Conn :=
  {| peer := fresh_peer (Some <$> sent); limiter := AuthRateLimiter_new {| Limits.enabled := true; max_failures := 3; window := 60; ban := 300 |};
     stats := ServerStats_new; active := ∅; held := []; reads := 0 |}.
Definition demo_serve (setup : Setup) (c : Conn) : Conn * result (option Served) :=
  serve toy_x25519 plain_aead zero_blake3 (fun _ => None) (fun t => t) (fun _ => 5) None None zero_rng zero_rng zero_rng zero_rng (V4 1)
    (fun _ _ => Ok tt) demo_scfg Unlimited setup (fun _ => Ok tt) c.

(** The mux channels are served as they were asked for. *)
Example demo_udp_served : exists K, (demo_serve (Upgraded None None) (demo_conn demo_udp_run.1.(outbox))).2 = Ok (Some (UdpRelay K)).
Proof. eexists. vm_compute. reflexivity. Qed.
Example demo_mux_served : exists K, (demo_serve (Upgraded None None) (demo_conn demo_mux_run.1.(outbox))).2 = Ok (Some (TcpMux K)).
Proof. eexists. vm_compute. reflexivity. Qed.
