(* ===== verification/ServerAuth.v ===== *)
(** [bin/server.rs]: no tunnel without authentication. What the messages of a served connection
    must have shown, on the PSK path and behind REALITY. *)
From S2P Require Import Prelude Text Net WebSocket Frame Protocol Crypto Limits Users Reality ServerConn Demo.

(** ** Lemmas: loops *)

Lemma lift_inv {S A} (r : result A) (s s' : S) r' : lift r s = (s', r') -> s' = s /\ r' = r.
Proof. by intros [= <- <-]. Qed.

Lemma on_peer_inv {A} (m : ST Peer err A) c c' r :
  on_peer m c = (c', r) -> exists p, m c.(peer) = (p, r) /\ c' = set_peer p c.
Proof. unfold on_peer. destruct (m (peer c)) as [p r0]. intros [= <- <-]. eauto. Qed.

(** A loop that is done was done by one of the messages, with the rest still to read. *)
Lemma each_message_Ok {T A} (body : T -> Message -> ST Conn err (T + A)) eof broken inc t c c' a :
  each_message body eof broken inc t c = (c', Ok a) ->
  exists pre m rest t1 c1, inc = pre ++ Some m :: rest /\ body t1 m c1 = (c', Ok (inr a)) /\ c1.(peer).(inbox) = rest.
Proof.
  revert t c. induction inc as [|[m|] inc IH]; intros t c; cbn [each_message]; [done| |done].
  destruct (body t m _) as [c1 [[t1|a1]|e|]] eqn:Hb; [| |done..].
  - intros H. destruct (IH t1 c1 H) as (pre & m1 & rest & t2 & c2 & -> & H1 & H2).
    exists (Some m :: pre), m1, rest, t2, c2. done.
  - intros [= <- <-]. exists [], m, inc, t. eexists. split_and!; [done|exact Hb|done].
Qed.

Lemma messages_Ok {T A} (body : T -> Message -> ST Conn err (T + A)) eof broken t c c' a :
  messages body eof broken t c = (c', Ok a) ->
  exists pre m rest t1 c1, c.(peer).(inbox) = pre ++ Some m :: rest /\ body t1 m c1 = (c', Ok (inr a)) /\ c1.(peer).(inbox) = rest.
Proof. apply each_message_Ok. Qed.

Lemma with_timeout_Ok {A} (m expired : ST Conn err A) c c' a :
  (forall c c' a, expired c <> (c', Ok a)) -> with_timeout m expired c = (c', Ok a) -> m c = (c', Ok a).
Proof.
  intros He. unfold with_timeout. destruct (m c) as [c1 [a1|e|]]; [done| |done]. case_decide; [|done]. intros Hx. by apply He in Hx.
Qed.

Section Soundness.
Context (x : X25519) (aead : Aead) (b3 : Blake3) `{mo : !MapOrder}.
Context (parse_users : bytes -> option (list User)) (hash : bytes -> bytes).
Context (clock : nat -> Z) (wall1 wall2 : option Z) (ack_rand ack_pad pad_rng seal_rng : Rng) (peer_ip : IpAddr).
Context (connect : str -> Z -> result unit) (cfg : ServerCfg).

(** The message carries [inner] under the session's keys. *)
Definition opened (crypto : SessionCrypto) (msg inner : bytes) : Prop :=
  exists raw, open_client_to_server aead crypto msg = Ok raw /\ read_padded_frame_into raw = Ok inner.

(** The token is the server's, or one of an enabled user with a session to spare. *)
Definition token_accepted (expected : str) (users : option (nat -> option bytes)) (tok : str) : Prop :=
  match users with
  | None => tok = expected
  | Some file => exists k active active' l, acquire parse_users hash (file k) tok active = (active', Ok l)
  end.

Lemma fail_auth_not_Ok {A} e c c' (a : A) : fail_auth clock peer_ip e c <> (c', Ok a).
Proof using. done. Qed.

Lemma control_not_done {T A} (t : T) pong closed m c c' (a : A) : control t pong closed m c <> (c', Ok (inr a)).
Proof using.
  destruct m; try done. unfold control. intros (c1 & u & _ & [=])%st_bind_Ok.
Qed.

Lemma auth_message_done crypto expected users t m c c' :
  auth_message aead parse_users hash clock peer_ip cfg crypto expected users t m c = (c', Ok (inr tt)) ->
  exists b inner tok, m = Binary b /\ opened crypto b inner /\ decode_v3_auth inner = Ok tok /\ token_accepted expected users tok /\
    c'.(peer) = c.(peer).
Proof using.
  destruct m as [b|t0|p|p|]; cbn [auth_message]; [|intros H; by apply control_not_done in H..].
  destruct (note_binary_frame (len b) (pre_auth cfg) t) as [t1 [[]|e|]]; [|intros H; by apply fail_auth_not_Ok in H|done].
  destruct (open_client_to_server aead crypto b) as [raw|e|] eqn:Ho; [| |done].
  2: { destruct (note_decrypt_failure _ t1) as [t2 [[]|e'|]]; [done|intros H; by apply fail_auth_not_Ok in H|done]. }
  intros (c1 & inner & [-> Hin]%lift_inv & H)%st_bind_Ok. apply st_bind_Ok in H as (c2 & tok & [-> Htok]%lift_inv & H).
  apply st_bind_Ok in H as (c3 & [] & Hacc & H).
  destruct (read_padded_frame_into raw) as [inner0|e|] eqn:Hr; simplify_eq/=.
  destruct (decode_v3_auth inner0) as [tok0|e|] eqn:Hd; simplify_eq/=.
  exists b, inner0, tok0. split_and!; [done|by exists raw|done| |].
  - destruct users as [file|]; simpl in *.
    + unfold acquire_user in Hacc. destruct (acquire _ _ _ _ _) as [ac [l|e|]] eqn:Ha; [|by apply fail_auth_not_Ok in Hacc|done].
      by eexists _, _, _, _.
    + destruct (secret_eq tok0 expected) eqn:He; [by apply secret_eq_true in He|by apply fail_auth_not_Ok in Hacc].
  - apply st_bind_Ok in H as (c4 & [] & Hs & H). injection Hs as <-. injection H as <-. cbn.
    destruct users as [file|].
    + unfold acquire_user in Hacc. destruct (acquire _ _ _ _ _) as [ac [l|e|]]; [|by apply fail_auth_not_Ok in Hacc|done]. by injection Hacc as <-.
    + destruct (secret_eq tok0 expected); [by injection Hacc as <-|by apply fail_auth_not_Ok in Hacc].
Qed.

Lemma server_wait_v3_auth_Ok crypto expected users c c' :
  server_wait_v3_auth aead parse_users hash clock peer_ip cfg crypto expected users c = (c', Ok tt) ->
  exists pre b rest inner tok, c.(peer).(inbox) = pre ++ Some (Binary b) :: rest /\ opened crypto b inner /\
    decode_v3_auth inner = Ok tok /\ token_accepted expected users tok /\ c'.(peer).(inbox) = rest.
Proof using.
  intros (pre & m & rest & t & c1 & Hin & Hb & Hr)%messages_Ok.
  apply auth_message_done in Hb as (b & inner & tok & -> & Ho & Hd & Ht & Hp). exists pre, b, rest, inner, tok. by rewrite Hp.
Qed.

Lemma send_ack_Ok secret domain cr ctx c c' crypto :
  send_ack b3 ack_rand ack_pad cfg secret domain cr ctx c = (c', Ok crypto) ->
  crypto = SessionCrypto_new b3 secret domain cr (fill_bytes ack_rand 32) cfg.(decoy) /\ c'.(peer).(inbox) = c.(peer).(inbox).
Proof using.
  unfold send_ack. intros (c1 & [ack sr] & [-> Hack]%lift_inv & H)%st_bind_Ok.
  injection Hack as -> ->. apply st_bind_Ok in H as (c2 & [] & (p & Hs & ->)%on_peer_inv & H). injection H as <- <-.
  apply ws_send_Ok in Hs as (Hi & _). split; [done|exact Hi].
Qed.

(** What a connection that was given session keys has shown: a HELLO, then an AUTH under the keys. *)
Definition hello_shown (secret domain : bytes) (b : bytes) (crypto : SessionCrypto) : Prop :=
  exists cr, parse_hello_v3 b = Ok cr /\ crypto = SessionCrypto_new b3 secret domain cr (fill_bytes ack_rand 32) cfg.(decoy).
Definition auth_shown (crypto : SessionCrypto) (expected : str) (users : option (nat -> option bytes)) (b : bytes) : Prop :=
  exists inner tok, opened crypto b inner /\ decode_v3_auth inner = Ok tok /\ token_accepted expected users tok.

Lemma hello_message_done domain t m c c' crypto :
  hello_message aead b3 parse_users hash clock ack_rand ack_pad peer_ip cfg domain t m c = (c', Ok (inr crypto)) ->
  exists secret h pre b rest, cfg.(psk) = Some secret /\ m = Binary h /\ hello_shown secret domain h crypto /\
    c.(peer).(inbox) = pre ++ Some (Binary b) :: rest /\ auth_shown crypto cfg.(token) cfg.(registry) b /\ c'.(peer).(inbox) = rest.
Proof using.
  destruct m as [h|t0|p|p|]; cbn [hello_message]; [|intros H; by apply control_not_done in H..].
  unfold account_pre_hello_binary. destruct (parse_hello_v3 h) as [cr|e|] eqn:Hh; [|case_decide; [intros Hf; by apply fail_auth_not_Ok in Hf|done]|done].
  intros (c1 & secret & [-> Hs]%lift_inv & H)%st_bind_Ok. apply st_bind_Ok in H as (c2 & k & Hk & H).
  apply send_ack_Ok in Hk as [-> Hi]. apply st_bind_Ok in H as (c3 & [] & Ha & H). injection H as <- <-.
  apply server_wait_v3_auth_Ok in Ha as (pre & b & rest & inner & tok & Hin & Ho & Hd & Ht & Hr).
  exists secret, h, pre, b, rest. destruct (psk cfg) as [secret0|]; simplify_eq/=. split_and!; [done|done|by exists cr|congruence|by exists inner, tok|done].
Qed.

Lemma server_handshake_v3_Ok domain c c' crypto :
  server_handshake_v3 aead b3 parse_users hash clock ack_rand ack_pad peer_ip cfg domain c = (c', Ok crypto) ->
  exists secret p1 h p2 a rest, cfg.(psk) = Some secret /\ c.(peer).(inbox) = p1 ++ Some (Binary h) :: p2 ++ Some (Binary a) :: rest /\
    hello_shown secret domain h crypto /\ auth_shown crypto cfg.(token) cfg.(registry) a /\ c'.(peer).(inbox) = rest.
Proof using.
  intros H. apply with_timeout_Ok in H; [|by intros ??? (? & ? & _ & Hf)%st_bind_Ok; apply fail_auth_not_Ok in Hf].
  apply messages_Ok in H as (pre & m & rest & t & c1 & Hin & Hb & Hr).
  apply hello_message_done in Hb as (secret & h & p2 & a & rest2 & Hp & -> & Hh & Hi & Ha & Hr2).
  exists secret, pre, h, p2, a, rest2. split_and!; [done| |done|done|done]. rewrite Hin. f_equal. f_equal. congruence.
Qed.

(** The channel message fits what is served. *)
Definition serves (kind : V3FirstChannelKind) (crypto : SessionCrypto) (s : Served) : Prop :=
  match s with
  | UdpRelay k => kind = Protocol.UdpMux /\ k = crypto
  | TcpMux k => kind = Protocol.Mux /\ k = crypto
  | Bridge host port k | Refused host port k =>
    (exists flags, kind = TcpOpen host port flags) /\ validate_open_host host = Ok tt /\ same_keys crypto k
  | _ => False
  end.
Definition channel_shown (crypto : SessionCrypto) (b : bytes) (s : Served) : Prop :=
  exists inner kind, opened crypto b inner /\ classify_v3_first_channel inner = Ok kind /\ serves kind crypto s.

Lemma wait_first_channel_Ok crypto c c' f :
  wait_first_channel aead clock peer_ip cfg crypto c = (c', Ok f) ->
  exists pre b rest inner kind, c.(peer).(inbox) = pre ++ Some (Binary b) :: rest /\ opened crypto b inner /\
    classify_v3_first_channel inner = Ok kind /\
    match f with
    | UdpMux => kind = Protocol.UdpMux
    | Mux => kind = Protocol.Mux
    | Tcp host port _ => (exists flags, kind = TcpOpen host port flags) /\ validate_open_host host = Ok tt
    end.
Proof using.
  intros (pre & m & rest & t & c1 & Hin & Hb & Hr)%messages_Ok.
  destruct m as [b|t0|p|p|]; cbn [first_channel_message] in Hb; [|by apply control_not_done in Hb..].
  apply st_bind_Ok in Hb as (c2 & raw & [-> Hraw]%lift_inv & Hb). apply st_bind_Ok in Hb as (c3 & inner & [-> Hinner]%lift_inv & Hb).
  apply st_bind_Ok in Hb as (c4 & kind & [-> Hkind]%lift_inv & Hb).
  destruct (open_client_to_server aead crypto b) as [raw0| |] eqn:Ho; simplify_eq/=.
  destruct (read_padded_frame_into raw0) as [inner0| |] eqn:Hi; simplify_eq/=.
  exists pre, b, (inbox (peer c1)), inner0, kind. split_and!; [done|by exists raw0|done|].
  destruct kind as [host port flags| | |].
  - apply st_bind_Ok in Hb as (c5 & [] & [-> Hv]%lift_inv & Hb). injection Hb as <- <-. eauto.
  - by injection Hb as <- <-.
  - by injection Hb as <- <-.
  - destruct (note_binary_frame _ _ _) as [t2 [[]|e|]]; [done|by apply fail_auth_not_Ok in Hb|done].
Qed.

Lemma status_keys k inner k' r : status_frame aead pad_rng seal_rng cfg k inner = (k', r) -> same_keys k k'.
Proof using.
  unfold status_frame. destruct (write_padded_frame_with_mode_state _ _ _ _ _) as [[w ad]| |].
  - intros H. by apply (seal_keeps aead seal_rng w k k' r false) in H as [? _].
  - by intros [= <- _].
  - by intros [= <- _].
Qed.

Lemma run_session_Ok crypto c c' s :
  run_session_after_v3_handshake aead clock pad_rng seal_rng peer_ip connect cfg crypto c = (c', Ok s) ->
  exists pre b rest, c.(peer).(inbox) = pre ++ Some (Binary b) :: rest /\ channel_shown crypto b s.
Proof using.
  unfold run_session_after_v3_handshake. intros (c1 & f & Hf & H)%st_bind_Ok.
  apply with_timeout_Ok in Hf; [|by intros ??? (? & ? & _ & Hf')%st_bind_Ok; apply fail_auth_not_Ok in Hf'].
  apply wait_first_channel_Ok in Hf as (pre & b & rest & inner & kind & Hin & Ho & Hc & Hk).
  exists pre, b, rest. split; [done|]. exists inner, kind. split_and!; [done|done|].
  destruct f as [host port st| |]; [|injection H as <- <-; by split..]. destruct Hk as [Hk Hv].
  assert (same_keys crypto crypto) as Hrefl by done.
  destruct (connect host port) as [[]|e|]; [|destruct st; [|done]|done].
  - destruct st; [|by injection H as <- <-]. destruct (status_frame _ _ _ _ _ _) as [k r] eqn:Hs.
    apply status_keys in Hs. apply st_bind_Ok in H as (c2 & blob & _ & H). apply st_bind_Ok in H as (c3 & u & _ & H).
    by injection H as <- <-.
  - destruct (encode_v3_open_err _) as [i| |]; [|by injection H as <- <-..].
    destruct (status_frame _ _ _ _ _ _) as [k r] eqn:Hs. apply status_keys in Hs.
    destruct r as [blob| |]; [destruct (on_peer _ _)|..]; by injection H as <- <-.
Qed.

(** *** REALITY *)

Lemma find_token_Ok data matches tok : find_token parse_users data matches = Ok tok -> matches tok = true.
Proof using.
  unfold find_token. intros (users & _ & H)%bind_Ok.
  assert (forall l o, (forall t, o = Some t -> matches t = true) ->
    forall t, fold_left (fun matched u => if matches u.(Users.token) then Some u.(Users.token) else matched) l o = Some t -> matches t = true) as Hf.
  { induction l as [|u l IH]; intros o Ho; [done|]. apply IH. intros t. destruct (matches (Users.token u)) eqn:Hm; [by intros [= <-]|apply Ho]. }
  destruct (fold_left _ _ _) as [t|] eqn:Hfold; [|done]. apply Ok_inj in H as <-. by eapply (Hf _ None).
Qed.

Lemma reality_identity_Ok c shared cpk spk ts n got tok session :
  reality_identity b3 parse_users hash cfg c shared cpk spk ts n got = Ok (tok, session) ->
  token_auth b3 tok shared cpk spk ts n got = Ok tt /\ token_accepted cfg.(token) cfg.(registry) tok.
Proof using.
  unfold reality_identity, token_accepted, token_auth. destruct (registry cfg) as [file|].
  - intros (selected & Hsel%find_token_Ok & H)%bind_Ok.
    destruct (acquire _ _ _ _ _) as [ac [l|e|]] eqn:Ha; simplify_eq/=. rewrite Hsel. split; [done|by eexists _, _, _, _].
  - destruct (secret_eq _ _) eqn:He; [|done]. intros [= <- <-]. by rewrite He.
Qed.

Lemma reality_auth_Ok rc sni host c c' tok :
  reality_auth x b3 parse_users hash clock wall1 wall2 peer_ip cfg rc sni host c = (c', Ok tok) ->
  is_server_name_allowed sni host rc.(server_names) = true /\ token_accepted cfg.(token) cfg.(registry) tok /\
  exists shared, accepted_exchange x b3 rc wall1 wall2 (token_auth b3 tok) c.(peer) c'.(peer) shared tt.
Proof using.
  unfold reality_auth. destruct (on_peer _ c) as [c1 [[shared [tok0 session]]|e|]] eqn:Ho; [| |done].
  2: { case_decide; [intros (? & ? & _ & Hf)%st_bind_Ok|intros Hf]; by apply fail_auth_not_Ok in Hf. }
  apply on_peer_inv in Ho as (p & Hs & ->). intros H.
  assert (tok0 = tok /\ c'.(peer) = p) as [<- Hp] by (destruct session as [[l ac]|]; by injection H as <- <-).
  apply server_handshake_Ok in Hs as [Hname (l1 & hf & l2 & af & rest & hello & mac & response & n1 & n2 & Hin & Hno & Hlen & Hh & Hsid &
    Hn1 & Hn2 & Hw & Hresp & Hmac & Hauth & Hci & Hr & Hout)].
  apply reality_identity_Ok in Hauth as [Htok Hacc]. split_and!; [done|done|]. exists shared.
  exists l1, hf, l2, af, rest, hello, mac, response, n1, n2. rewrite Hp. split_and!; done.
Qed.

Lemma read_next_Ok c c' b :
  read_next_binary_after_reality c = (c', Ok b) ->
  exists pre rest, c.(peer).(inbox) = pre ++ Some (Binary b) :: rest /\ c'.(peer).(inbox) = rest.
Proof using.
  intros (pre & m & rest & t & c1 & Hin & Hb & Hr)%messages_Ok.
  destruct m as [b0|t0|p|p|]; cbn [after_reality_message] in Hb; [|by apply control_not_done in Hb..].
  injection Hb as <- <-. exists pre, rest. done.
Qed.

(** The two ways a tunnel is reached. *)
Definition psk_tunnel (inc : list (option Message)) (s : Served) : Prop :=
  exists secret p1 h p2 a p3 o rest crypto,
    cfg.(psk) = Some secret /\ inc = p1 ++ Some (Binary h) :: p2 ++ Some (Binary a) :: p3 ++ Some (Binary o) :: rest /\
    hello_shown secret (trim cfg.(proto_domain)) h crypto /\ auth_shown crypto cfg.(token) cfg.(registry) a /\ channel_shown crypto o s.
Definition reality_tunnel (rc : RealityServerConfig) (sni host : option str) (p : Peer) (s : Served) : Prop :=
  is_server_name_allowed sni host rc.(server_names) = true /\
  exists tok shared p' pre b rest,
    accepted_exchange x b3 rc wall1 wall2 (token_auth b3 tok) p p' shared tt /\ token_accepted cfg.(token) cfg.(registry) tok /\
    p'.(inbox) = pre ++ Some (Binary b) :: rest /\
    ((s = PlainMux /\ is_v3_mux_open b = true) \/
     (exists secret p2 a p3 o rest' crypto, cfg.(psk) = Some secret /\ rest = p2 ++ Some (Binary a) :: p3 ++ Some (Binary o) :: rest' /\
        hello_shown secret (trim cfg.(proto_domain)) b crypto /\ auth_shown crypto tok None a /\ channel_shown crypto o s)).

Lemma after_hello_Ok hello tok secret domain c c' crypto :
  server_handshake_v3_after_first_hello aead b3 parse_users hash clock ack_rand ack_pad peer_ip cfg hello tok secret domain c = (c', Ok crypto) ->
  hello_shown secret domain hello crypto /\
  exists pre a rest, c.(peer).(inbox) = pre ++ Some (Binary a) :: rest /\ auth_shown crypto tok None a /\ c'.(peer).(inbox) = rest.
Proof using.
  unfold server_handshake_v3_after_first_hello. intros (c1 & cr & [-> Hcr]%lift_inv & H)%st_bind_Ok.
  apply st_bind_Ok in H as (c2 & k & Hk & H). apply send_ack_Ok in Hk as [-> Hi]. apply st_bind_Ok in H as (c3 & [] & Ha & H).
  injection H as <- <-. apply with_timeout_Ok in Ha; [|by intros ??? (? & ? & _ & Hf)%st_bind_Ok; apply fail_auth_not_Ok in Hf].
  apply server_wait_v3_auth_Ok in Ha as (pre & b & rest & inner & t & Hin & Ho & Hd & Ht & Hr).
  destruct (parse_hello_v3 hello) as [cr0| |] eqn:Hp; [|done..]. injection Hcr as ->. split; [by exists cr0|].
  exists pre, b, rest. split_and!; [congruence|by exists inner, t|done].
Qed.

Lemma handle_upgraded_Ok sni host c c' s :
  handle_upgraded x aead b3 parse_users hash clock wall1 wall2 ack_rand ack_pad pad_rng seal_rng peer_ip connect cfg sni host c = (c', Ok s) ->
  match cfg.(reality) with
  | None => psk_tunnel c.(peer).(inbox) s
  | Some rc => reality_tunnel rc sni host c.(peer) s
  end.
Proof using.
  unfold handle_upgraded. destruct (reality cfg) as [rc|].
  - intros (c1 & tok & Hra & H)%st_bind_Ok. apply reality_auth_Ok in Hra as (Hname & Htok & shared & Hex). split; [done|].
    case_decide; [done|]. apply st_bind_Ok in H as (c2 & next & Hn & H).
    apply with_timeout_Ok in Hn; [|by intros ??? (? & ? & _ & Hf)%st_bind_Ok].
    apply read_next_Ok in Hn as (pre & rest & Hin & Hr). exists tok, shared, (peer c1), pre, next, rest. split_and!; [done|done|done|].
    destruct (is_v3_mux_open next) eqn:Hm; [left; by injection H as <- <-|]. right.
    case_bool_decide as Htag; [|done]. apply st_bind_Ok in H as (c3 & secret & [-> Hs]%lift_inv & H).
    apply st_bind_Ok in H as (c4 & crypto & Hk & H). apply after_hello_Ok in Hk as (Hh & p2 & a & rest2 & Hin2 & Ha & Hr2).
    apply run_session_Ok in H as (p3 & o & rest3 & Hin3 & Hc).
    exists secret, p2, a, p3, o, rest3, crypto. destruct (psk cfg) as [secret0|]; [|done]. injection Hs as <-. split_and!; [done|congruence|done|done|done].
  - case_decide as Hdom; [done|]. intros (c1 & crypto & Hk & H)%st_bind_Ok.
    apply server_handshake_v3_Ok in Hk as (secret & p1 & h & p2 & a & rest & Hp & Hin & Hh & Ha & Hr).
    apply run_session_Ok in H as (p3 & o & rest3 & Hin3 & Hc).
    exists secret, p1, h, p2, a, p3, o, rest3, crypto. split_and!; [done|congruence|done|done|done].
Qed.
End Soundness.

(** ** Properties *)

(** C1: no tunnel without authentication: a connection that is given a tunnel was not banned, had a
    permit, and its peer sent, in this order, on the PSK path: a well-formed HELLO, an AUTH that
    opens under the keys derived from the PSK and carries an accepted token, and a channel
    opening under the same keys, which is the channel served, with a valid host; behind REALITY:
    an exchange whose AUTH tag proves an accepted token, and then the plain mux opening or the
    HELLO, AUTH (of that very token) and channel opening of the PSK path. *)
Theorem tunnel_authenticated x aead b3 `{mo : !MapOrder} parse_users hash clock wall1 wall2 ack_rand ack_pad pad_rng seal_rng
    peer_ip connect cfg permit setup tunnel c c' s :
  serve x aead b3 parse_users hash clock wall1 wall2 ack_rand ack_pad pad_rng seal_rng peer_ip connect cfg permit setup tunnel c
    = (c', Ok (Some s)) ->
  (check_allowed peer_ip (clock c.(reads)) c.(limiter)).2 = Ok tt /\ (permit = Unlimited \/ permit = Granted) /\
  (s = Camouflaged /\ setup = PlainHttp \/
   exists sni host, setup = Upgraded sni host /\
     match cfg.(reality) with
     | None => psk_tunnel aead b3 parse_users hash ack_rand cfg c.(peer).(inbox) s
     | Some rc => reality_tunnel x aead b3 parse_users hash wall1 wall2 ack_rand cfg rc sni host c.(peer) s
     end).
Proof.
  unfold serve. destruct (check_allowed _ _ _) as [l [[]|e|]]; [|done..].
  destruct permit; try done; set (c1 := set_stats _ _).
  all: destruct (handle_one _ _ _ _ _ _ _ _ _ _ _ _ _ _ _ setup c1) as [c2 [s'|e|]] eqn:Hh; [|done..]; intros [= _ <-].
  all: split; [done|]; split; [by auto|]; destruct setup as [| | | | |sni host]; try done; [left; by injection Hh as _ <-|right].
  all: exists sni, host; split; [done|]; by apply handle_upgraded_Ok in Hh.
Qed.

(** A UDP mux connection, and the two messages behind it. *)
Lemma tunnel_authenticated_witness :
  exists c' K, demo_serve (Upgraded None None) (demo_conn demo_udp_run.1.(outbox)) = (c', Ok (Some (UdpRelay K))) /\
    psk_tunnel plain_aead zero_blake3 (fun _ => None) (fun t => t) zero_rng demo_scfg (Some <$> demo_udp_run.1.(outbox)) (UdpRelay K).
Proof.
  destruct (demo_serve (Upgraded None None) (demo_conn demo_udp_run.1.(outbox))) as [c' r] eqn:Hs.
  assert (exists K, r = Ok (Some (UdpRelay K))) as [K ->] by (vm_compute in Hs; injection Hs as _ <-; eexists; reflexivity).
  exists c', K. split; [reflexivity|]. unfold demo_serve in Hs.
  destruct (tunnel_authenticated _ _ _ _ _ _ _ _ _ _ _ _ _ _ _ _ _ _ _ _ _ Hs) as (_ & _ & [[Hc _]|(sni & host & _ & H)]); [discriminate Hc|].
  exact H.
Defined.
