(* ===== verification/ServerOutcome.v ===== *)
(** [bin/server.rs]: how a connection ends. Whatever the peer sends, the task of a connection comes
    to a result (no wait is unbounded, nothing panics), the limiter hears of at most one failure,
    and the user sessions and counters are given back. *)
From S2P Require Import Prelude Text Net WebSocket Frame Protocol Crypto Limits Users Reality UdpClient ServerConn Demo.

(** A transport delivers bytes. *)
Definition msg_ok (m : option Message) : Prop := match m with Some (Binary b) => u8s b | _ => True end.

(** ** The triple *)

Section Triple.
Context `{mo : !MapOrder} (peer_ip : IpAddr) (live : list str) (busy : Z).

(** What the limiter was told about the peer, at whatever times. *)
Inductive told : list LimitOp -> AuthRateLimiter -> AuthRateLimiter -> Prop :=
| told_nil l : told [] l l
| told_cons op ops now l l' : told ops (limit_step l (op, peer_ip, now)) l' -> told (op :: ops) l l'.

Lemma told_app ops ops' l l' l'' : told ops l l' -> told ops' l' l'' -> told (ops ++ ops') l l''.
Proof using. induction 1 as [|op ops now l l' _ IH]; [done|]. intros H. simpl. econstructor. by apply IH. Qed.

(** The connection between two steps; [live] are the user sessions of other connections,
    [busy] is the number of connections in progress. *)
Record wf (c : Conn) : Prop := {
  wf_inbox : Forall msg_ok c.(peer).(inbox);
  wf_users : counted (c.(active), c.(held) ++ live);
  wf_busy : c.(stats).(active_sessions) `mod` 2 ^ 64 = busy;
}.

(** [n] successes and no failure on [Ok]; on an error, at most one failure, told last. [st]: the
    step may wait for ever, which shows as [STALLED] and then nothing was told to be a failure. *)
Definition outcome {A} (n : nat) (st : bool) (c c' : Conn) (r : result A) : Prop :=
  match r with
  | Ok _ => told (replicate n Record_success) c.(limiter) c'.(limiter)
  | Err e => exists k f, told (replicate k Record_success ++ f) c.(limiter) c'.(limiter) /\
      (f = [] \/ f = [Record_failure] /\ e <> STALLED) /\ (e = STALLED -> st = true)
  | Panic => False
  end.
Definition triple {A} (n : nat) (st : bool) (Q : A -> Prop) (m : ST Conn err A) : Prop :=
  forall c c' r, wf c -> m c = (c', r) -> wf c' /\ outcome n st c c' r /\ forall a, r = Ok a -> Q a.

Context {A B : Type}.
Implicit Types (m : ST Conn err A) (Q : A -> Prop).

Lemma triple_ret st Q a : Q a -> triple 0 st Q (mret a).
Proof using. intros HQ c c' r Hw [= <- <-]. split_and!; [done|constructor|by intros ? [= <-]]. Qed.

Lemma triple_throw n st Q e : e <> STALLED -> triple n st Q (throw e : ST Conn err A).
Proof using.
  intros He c c' r Hw [= <- <-]. split_and!; [done| |done]. exists 0%nat, []. split_and!; [constructor|by left|done].
Qed.

Lemma triple_weaken n st Q (P : A -> Prop) m : (forall a, P a -> Q a) -> triple n st P m -> triple n st Q m.
Proof using. intros HPQ Hm c c' r Hw He. destruct (Hm c c' r Hw He) as (? & ? & ?). eauto. Qed.

Lemma triple_stall n st Q m : triple n false Q m -> triple n st Q m.
Proof using.
  intros Hm c c' r Hw He. destruct (Hm c c' r Hw He) as (? & Ho & ?). split_and!; [done| |done].
  destruct r; [done| |done]. destruct Ho as (k & f & ? & ? & Hst). exists k, f. split_and!; [done..|]. intros Hs. by specialize (Hst Hs).
Qed.

(** A result computed without the state. *)
Lemma triple_lift st Q (r : result A) :
  safe r -> (forall e, r = Err e -> e <> STALLED) -> (forall a, r = Ok a -> Q a) -> triple 0 st Q (lift r).
Proof using.
  intros Hs He HQ c c' r' Hw [= <- <-]. split_and!; [done| |done]. destruct r as [a|e|]; [constructor| |done].
  exists 0%nat, []. split_and!; [constructor|by left|]. intros ->. by destruct (He STALLED).
Qed.
(** Its error text replaced ([.context(..)]). *)
Lemma triple_lift_map {E} st Q (f : E -> err) (r : res E A) :
  safe r -> (forall e, f e <> STALLED) -> (forall a, r = Ok a -> Q a) -> triple 0 st Q (lift (map_err f r)).
Proof using.
  intros Hs He HQ. apply triple_lift.
  - by apply safe_map_err.
  - destruct r; intros e' H; [done| |done]. injection H as <-. apply He.
  - destruct r; intros a' H; [|done..]. injection H as <-. by apply HQ.
Qed.
Lemma triple_lift_context st Q e (o : option A) : e <> STALLED -> (forall a, o = Some a -> Q a) -> triple 0 st Q (lift (context e o)).
Proof using. intros He HQ. apply triple_lift; [by apply safe_context| |]; destruct o; simpl; naive_solver. Qed.

(** A step that leaves the limiter, the sessions and the inbox alone. *)
Lemma triple_modify st (f : Conn -> Conn) :
  (forall c, (f c).(peer) = c.(peer) /\ (f c).(limiter) = c.(limiter) /\ (f c).(active) = c.(active) /\ (f c).(held) = c.(held) /\
    (f c).(stats).(active_sessions) `mod` 2 ^ 64 = c.(stats).(active_sessions) `mod` 2 ^ 64) ->
  triple 0 st (fun _ => True) (modify f : ST Conn err unit).
Proof using.
  intros Hf c c' r [Hi Hu Hbusy] [= <- <-]. destruct (Hf c) as (H1 & H2 & H3 & H4 & H5).
  split_and!; [split; by rewrite ?H1, ?H3, ?H4, ?H5|simpl; rewrite H2; constructor|done].
Qed.

(** A step of the endpoint. *)
Lemma triple_peer st Q (m : ST Peer err A) :
  (forall p p' r, Forall msg_ok p.(inbox) -> m p = (p', r) ->
     Forall msg_ok p'.(inbox) /\ r <> Panic /\ (forall a, r = Ok a -> Q a) /\ (r = Err STALLED -> st = true)) ->
  triple 0 st Q (on_peer m).
Proof using.
  intros Hm c c' r [Hi Hu Hbusy]. unfold on_peer. destruct (m (peer c)) as [p r0] eqn:Hp. intros [= <- <-].
  destruct (Hm _ _ _ Hi Hp) as (H1 & H2 & H3 & H4). split_and!; [by split| |done].
  destruct r0 as [a|e|]; [constructor| |done]. exists 0%nat, []. split_and!; [constructor|by left|]. intros ->. by apply H4.
Qed.

(** The wait is bounded by a timeout, after which [expired] fails. *)
Lemma triple_timeout n st Q m (expired : ST Conn err A) :
  triple n true Q m -> (forall k, triple k st (fun _ => False) expired) -> triple n st Q (with_timeout m expired).
Proof using.
  intros Hm Hx c c' r Hw. unfold with_timeout. destruct (m c) as [c1 r1] eqn:He.
  destruct (Hm c c1 r1 Hw He) as (Hw1 & Ho & HQ). destruct r1 as [a|e|]; [by intros [= <- <-]| |done].
  destruct Ho as (k & f & Ht & Hf & _). case_decide as Hs.
  - intros Hexp. destruct (Hx 0%nat c1 c' r Hw1 Hexp) as (Hw' & Ho' & HF). split_and!; [done| |intros a Ha; by destruct (HF a Ha)].
    destruct r as [a|e'|]; [by destruct (HF a)| |done]. destruct Ho' as (k' & f' & Ht' & Hf' & Hst').
    destruct Hf as [->|[_ ?]]; [|congruence]. exists (k + k')%nat, f'. rewrite replicate_add, <- app_assoc. rewrite app_nil_r in Ht.
    split_and!; [by eapply told_app|done|done].
  - intros [= <- <-]. split_and!; [done| |done]. exists k, f. split_and!; [done|done|]. intros ?; congruence.
Qed.
End Triple.

Section Bind.
Context `{mo : !MapOrder} (peer_ip : IpAddr) (live : list str) (busy : Z) {A B : Type}.

Lemma triple_bind n n' st (Q : A -> Prop) (P : B -> Prop) (m : ST Conn err A) (k : A -> ST Conn err B) :
  triple peer_ip live busy n st Q m -> (forall a, Q a -> triple peer_ip live busy n' st P (k a)) -> triple peer_ip live busy (n + n') st P (m ≫= k).
Proof using.
  intros Hm Hk c c' r Hw. unfold mbind, st_bind. destruct (m c) as [c1 [a|e|]] eqn:He.
  - destruct (Hm c c1 _ Hw He) as (Hw1 & Ho & HQ). intros H. destruct (Hk a (HQ a eq_refl) c1 c' r Hw1 H) as (Hw' & Ho' & HP).
    split_and!; [done| |done]. destruct r as [b|e|]; simpl in *; [|destruct Ho' as (k' & f & Ht & Hf)|done].
    + rewrite replicate_add. by eapply told_app.
    + exists (n + k')%nat, f. rewrite replicate_add, <- app_assoc. split; [by eapply told_app|done].
  - intros [= <- <-]. destruct (Hm c c1 _ Hw He) as (Hw1 & Ho & HQ). by split_and!.
  - destruct (Hm c c1 _ Hw He) as (_ & [] & _).
Qed.

(** A computed result whose value is known. *)
Lemma triple_Ok n st (P : B -> Prop) (r : result A) (k : A -> ST Conn err B) a :
  r = Ok a -> triple peer_ip live busy n st P (k a) -> triple peer_ip live busy n st P (lift r ≫= k).
Proof using. by intros ->. Qed.
Lemma triple_Err n st (P : B -> Prop) (r : result A) (k : A -> ST Conn err B) e :
  r = Err e -> e <> STALLED -> triple peer_ip live busy n st P (lift r ≫= k).
Proof using. intros ->. apply triple_throw. Qed.

(** An error of the transport. *)
Lemma ended n c p e : outcome peer_ip n true c (set_peer p c) (Err e : result A).
Proof using. exists 0%nat, []. split_and!; [constructor|by left|done]. Qed.

(** A loop over the messages: [body] goes on having told nothing, or is done. *)
Lemma triple_messages {T} n (Q : A -> Prop) (body : T -> Message -> ST Conn err (T + A)) eof broken t0 :

  (forall t m, msg_ok (Some m) ->
     triple peer_ip live busy 0 true (fun r => exists t', r = inl t') (body t m) \/
     triple peer_ip live busy n true (fun r => exists a, r = inr a /\ Q a) (body t m)) ->
  triple peer_ip live busy n true Q (messages body eof broken t0).
Proof using.
  intros Hb c c' r Hw. unfold messages. pose proof (wf_inbox _ _ _ Hw) as Hi. revert t0 c Hw Hi.
  assert (forall inc t0 c, wf live busy c -> Forall msg_ok inc -> each_message body eof broken inc t0 c = (c', r) ->
    wf live busy c' /\ outcome peer_ip n true c c' r /\ forall a, r = Ok a -> Q a) as Hgen; [|intros t0 c Hw Hi; by apply Hgen].
  induction inc as [|m inc IH]; intros t0 c Hw Hi; cbn [each_message].
  { intros [= <- <-]. destruct Hw as [_ Hu Hbusy]. split_and!; [by split|by apply ended|done]. }
  apply Forall_cons in Hi as [Hm Hi].
  assert (wf live busy (set_peer (set_inbox inc (peer c)) c)) as Hw1 by (destruct Hw; by split).
  destruct m as [m|]; [|intros [= <- <-]; split_and!; [done|by apply ended|done]].
  destruct (body t0 m _) as [c1 r1] eqn:He. destruct (Hb t0 m Hm) as [Ht|Ht]; destruct (Ht _ _ _ Hw1 He) as (Hw2 & Ho & HQ); cbn [peer limiter set_peer] in Ho.
  - destruct r1 as [[t1|a1]|e|]; [| |by intros [= <- <-]|done].
    + intros Hrec. destruct (IH t1 c1 Hw2 Hi Hrec) as (? & Ho' & ?). split_and!; [done| |done]. simpl in Ho.
      destruct r as [a|e|]; simpl in *; [|destruct Ho' as (k & f & Ht' & Hf); exists k, f; split; [|done]|done];
        by eapply (told_app peer_ip []).
    + destruct (HQ _ eq_refl) as [? [=]].
  - destruct r1 as [[t1|a1]|e|]; [| |by intros [= <- <-]|done].
    + destruct (HQ _ eq_refl) as [? [[=] _]].
    + intros [= <- <-]. split_and!; [done|done|]. intros a [= <-]. by destruct (HQ _ eq_refl) as [? [[= <-] ?]].
Qed.
End Bind.

(** ** The REALITY exchange *)

Definition peer_triple {A} (Q : A -> Prop) (m : ST Peer err A) : Prop :=
  forall p p' r, Forall msg_ok p.(inbox) -> m p = (p', r) -> Forall msg_ok p'.(inbox) /\ r <> Panic /\ forall a, r = Ok a -> Q a.

Lemma peer_bind {A B} (Q : A -> Prop) (P : B -> Prop) m (k : A -> ST Peer err B) :
  peer_triple Q m -> (forall a, Q a -> peer_triple P (k a)) -> peer_triple P (m ≫= k).
Proof.
  intros Hm Hk p p' r Hi. unfold mbind, st_bind. destruct (m p) as [p1 r1] eqn:He. destruct (Hm _ _ _ Hi He) as (H1 & H2 & H3).
  destruct r1 as [a|e|]; [|by intros [= <- <-]|done]. intros H. by apply (Hk a (H3 a eq_refl) p1).
Qed.
Lemma peer_lift {A} (Q : A -> Prop) (r : result A) : safe r -> (forall a, r = Ok a -> Q a) -> peer_triple Q (lift r).
Proof. intros Hs HQ p p' r' Hi [= <- <-]. done. Qed.
Lemma peer_keeps {A} (Q : A -> Prop) (m : ST Peer err A) :
  (forall p, (m p).1.(inbox) = p.(inbox) /\ (m p).2 <> Panic /\ forall a, (m p).2 = Ok a -> Q a) -> peer_triple Q m.
Proof. intros Hm p p' r Hi H. destruct (Hm p) as (H1 & H2 & H3). rewrite H in H1, H2, H3. cbn in *. by rewrite H1. Qed.

Lemma handshake_loop_ok what inc p p' r :
  Forall msg_ok inc -> handshake_loop what inc p = (p', r) -> Forall msg_ok p'.(inbox) /\ r <> Panic /\ forall a, r = Ok a -> u8s a.
Proof.
  revert p. induction inc as [|[m|] inc IH]; intros p Hi; cbn [handshake_loop]; [by intros [= <- <-]| |].
  2: { apply Forall_cons in Hi as [_ Hi]. by intros [= <- <-]. }
  apply Forall_cons in Hi as [Hm Hi]. destruct m as [d|t|d|d|]; try (by intros [= <- <-]).
  - intros [= <- <-]. split_and!; [done..|]. by intros a [= <-].
  - case_decide; [by intros [= <- <-]|]. destruct (ws_send _ _ _) as [p1 [[]|e|]] eqn:Hs; [by apply IH|by intros [= <- <-]|].
    unfold ws_send in Hs. by destruct (sends_left _).
  - case_decide; [by intros [= <- <-]|]. by apply IH.
Qed.
Lemma next_binary_ok what : peer_triple u8s (next_handshake_binary what).
Proof. intros p p' r Hi. unfold next_handshake_binary. by apply handshake_loop_ok. Qed.

Lemma decode_auth_safe b : u8s b -> safe (decode_client_auth b).
Proof. intros Hb. unfold decode_client_auth, REALITY_CLIENT_AUTH_LEN. repeat safe_step. Qed.

Lemma ws_send_keeps m ctx p : (ws_send m ctx p).1.(inbox) = p.(inbox) /\ (ws_send m ctx p).2 <> Panic.
Proof. unfold ws_send. by destruct (sends_left p). Qed.

Lemma window_safe now secs d : safe (reality_timestamp_in_window now secs d).
Proof. unfold reality_timestamp_in_window. by case_decide. Qed.
Lemma cache_safe n secs now d c : (check_and_insert n secs now d c).2 <> Panic.
Proof.
  unfold check_and_insert. pose proof (window_safe now secs d). destruct (reality_timestamp_in_window _ _ _) as [[]|e|]; [|done..].
  destruct (existsb _ _); [done|]. by case_decide.
Qed.

(** Whatever is received, the exchange does not panic, and the identity is the one authenticated. *)
Lemma handshake_ok {T} x b3 rc sni host w1 w2 (auth : bytes -> bytes -> bytes -> Z -> bytes -> bytes -> result T) (Q : T -> Prop) :
  (forall sh cpk spk ts n got, safe (auth sh cpk spk ts n got) /\ forall id, auth sh cpk spk ts n got = Ok id -> Q id) ->
  peer_triple (fun r => Q r.2) (server_handshake_reality_with_auth x b3 rc sni host w1 w2 auth).
Proof.
  intros Ha. unfold server_handshake_reality_with_auth.
  apply (peer_bind (fun _ => True)); [apply peer_lift; [unfold validate_server_names; by destruct (is_server_name_allowed _ _ _)|done]|]. intros _ _.
  apply (peer_bind (fun _ => True)); [apply peer_lift; [apply safe_context|done]|]. intros now _.
  apply (peer_bind (fun _ => True)); [by apply peer_keeps|]. intros _ _.
  apply (peer_bind u8s); [apply next_binary_ok|]. intros msg Hmsg.
  apply (peer_bind (fun _ => True)); [apply peer_lift; [by apply (codec_safe (Codec := hello_codec))|done]|]. intros hello _.
  apply (peer_bind (fun _ => True)); [apply peer_lift; [unfold validate_short_id; by destruct (is_short_id_allowed _ _)|done]|]. intros _ _.
  apply (peer_bind (fun _ => True)); [apply peer_lift; [apply window_safe|done]|]. intros _ _.
  apply (peer_bind (fun _ => True)); [apply peer_lift; [unfold server_hello_with_confirm_and_shared; by destruct (was_contributory _ _)|done]|]. intros [resp shared] _.
  apply (peer_bind (fun _ => True)); [apply peer_keeps; intros p; by destruct (ws_send_keeps (Binary resp) "send REALITY SERVER_HELLO" p)|]. intros _ _.
  apply (peer_bind u8s); [apply next_binary_ok|]. intros am Ham.
  apply (peer_bind (fun _ => True)); [apply peer_lift; [by apply decode_auth_safe|done]|]. intros got _.
  edestruct Ha as [Hs HQ]. apply (peer_bind Q); [apply peer_lift; [apply Hs|apply HQ]|]. intros id Hid.
  apply (peer_bind (fun _ => True)); [apply peer_lift; [apply safe_context|done]|]. intros now' _.
  apply (peer_bind (fun _ => True)).
  - apply peer_keeps. intros p. unfold on_cache. pose proof (cache_safe (nonce hello) (unix_secs hello) now' (max_time_diff rc) (cache p)) as Hc.
    by destruct (check_and_insert _ _ _ _ _).
  - intros _ _ p p' r Hi H. injection H as <- <-. split_and!; [done|done|]. by intros a [= <-].
Qed.

(** ** The steps of a connection *)

Section Steps.
Context (x : X25519) (aead : Aead) (b3 : Blake3) `{mo : !MapOrder}.
Context (parse_users : bytes -> option (list User)) (hash : bytes -> bytes).
Context (clock : nat -> Z) (wall1 wall2 : option Z) (ack_rand ack_pad pad_rng seal_rng : Rng) (peer_ip : IpAddr).
Context (connect : str -> Z -> result unit) (cfg : ServerCfg) (live : list str) (busy : Z).
Abbreviation tri := (triple peer_ip live busy).

Lemma triple_fail {A} n st (Q : A -> Prop) e : e <> STALLED -> tri n st Q (fail_auth clock peer_ip e).
Proof using.
  intros He c c' r [Hi Hu Hbusy] [= <- <-]. split_and!; [by split| |done]. exists 0%nat, [Record_failure].
  split_and!; [|by right|done]. simpl. eapply told_cons. apply told_nil.
Qed.
Lemma triple_success st : tri 1 st (fun _ => True) (auth_success clock peer_ip).
Proof using.
  intros c c' r [Hi Hu Hbusy] [= <- <-]. split_and!; [by split| |done]. simpl. eapply told_cons. apply told_nil.
Qed.
Lemma triple_bump st t b r o e a : tri 0 st (fun _ => True) (bump_stats (bump 0 t b r o e a)).
Proof using.
  apply triple_modify. intros c. split_and!; [done..|]. cbn [set_stats stats bump active_sessions].
  unfold fetch_add. by rewrite Z.add_0_r, Zmod_mod.
Qed.

Lemma triple_send st m ctx : ctx <> STALLED -> tri 0 st (fun _ => True) (on_peer (ws_send m ctx)).
Proof using.
  intros Hc. apply triple_peer. intros p p' r Hi. unfold ws_send. destruct (sends_left p); intros [= <- <-]; split_and!; try done.
  intros [= ->]. done.
Qed.

Lemma triple_control {T A} (t : T) pong closed m :
  pong <> STALLED -> closed <> STALLED -> tri 0 true (fun r : T + A => exists t', r = inl t') (control t pong closed m).
Proof using.
  intros Hp Hc. unfold control. destruct m as [b|b|b|b|].
  - apply triple_ret. by exists t.
  - apply triple_ret. by exists t.
  - apply (triple_bind peer_ip live busy 0 0 true (fun _ => True)); [by apply triple_send|]. intros _ _. apply triple_ret. by exists t.
  - apply triple_ret. by exists t.
  - by apply triple_throw.
Qed.

Lemma load_users_safe data : safe (load_users parse_users data).
Proof using.
  assert (forall users l t, safe (validate_from l t users)) as Hv.
  { induction users as [|u users IH]; intros l t; cbn [validate_from]; [done|]. case_decide; [done|].
    apply safe_bind; [unfold validate_resolved_token; case_decide; [done|]; by destruct (is_token_denylisted _)|].
    intros [] _. case_decide; [done|]. by case_decide. }
  unfold load_users. apply safe_bind; [apply safe_context|]. intros d _. case_decide; [done|].
  apply safe_bind; [apply safe_context|]. intros f _. apply safe_bind; [apply Hv|done].
Qed.

Lemma acquire_safe data tok active : (acquire parse_users hash data tok active).2 <> Panic.
Proof using.
  unfold acquire. pose proof (load_users_safe data) as Hs. destruct (load_users parse_users data) as [users|e|]; [|done..].
  destruct (find_user hash tok users) as [u|]; [|done]. destruct (negb _); [done|]. by destruct (match max_concurrent u with Some _ => _ | None => _ end).
Qed.

(** The token check of an AUTH. *)
Lemma triple_token st expected users tok :
  tri 0 st (fun _ => True)
    (match users with
     | Some file => fun c =>
       match acquire_user parse_users hash file tok c with
       | (c, Ok _) => (c, Ok tt)
       | (c, Err _) => fail_auth clock peer_ip "v3 auth token mismatch or user unavailable"%string c
       | (c, Panic) => (c, Panic)
       end
     | None => if secret_eq tok expected then mret tt else fail_auth clock peer_ip "v3 auth token mismatch"%string
     end).
Proof using.
  destruct users as [file|]; [|destruct (secret_eq tok expected); [by apply triple_ret|by apply triple_fail]].
  intros c c' r [Hi Hu Hbusy]. unfold acquire_user.
  pose proof (acquire_safe (file (reads c)) tok (active c)) as Hs.
  destruct (acquire _ _ _ _ _) as [ac r0] eqn:Ha. pose proof (acquire_counted _ _ _ _ _ _ _ _ Hu Ha) as Hc.
  destruct r0 as [l|e|]; [| |done].
  - intros [= <- <-]. split_and!; [by split|constructor|done].
  - intros [= <- <-]. split_and!; [by split| |done]. exists 0%nat, [Record_failure].
    split_and!; [eapply told_cons, told_nil|by right|done].
Qed.

Lemma note_frame_err n budget t t' e : note_binary_frame n budget t = (t', Err e) -> e <> STALLED.
Proof using. unfold note_binary_frame. case_decide; [|done]. by intros [= _ <-]. Qed.
Lemma note_decrypt_err budget t t' e : note_decrypt_failure budget t = (t', Err e) -> e <> STALLED.
Proof using. unfold note_decrypt_failure. case_decide; [|done]. by intros [= _ <-]. Qed.

Lemma open_c2s_safe crypto b : u8s b -> safe (open_client_to_server aead crypto b) /\
  forall raw, open_client_to_server aead crypto b = Ok raw -> u8s raw.
Proof using.
  intros Hb. split; [by apply open_dir_safe|]. intros raw H. unfold open_client_to_server in H.
  destruct (open aead (c2s crypto) b) as [p| |] eqn:E; simplify_eq/=. eapply open_u8s; [done|by left].
Qed.

Lemma triple_auth_message crypto expected users t m :
  msg_ok (Some m) ->
  tri 0 true (fun r => exists t', r = inl t') (auth_message aead parse_users hash clock peer_ip cfg crypto expected users t m) \/
  tri 1 true (fun r => exists a : unit, r = inr a /\ True) (auth_message aead parse_users hash clock peer_ip cfg crypto expected users t m).
Proof using.
  intros Hm. destruct m as [b|b|b|b|]; cbn [auth_message msg_ok] in *; [|left; by apply triple_control..].
  destruct (note_binary_frame (len b) (pre_auth cfg) t) as [t1 [[]|e|]] eqn:Hn; [|left; eapply triple_fail, note_frame_err, Hn|].
  2: { unfold note_binary_frame in Hn. by case_decide. }
  destruct (open_c2s_safe crypto b Hm) as [Hs Hu]. destruct (open_client_to_server aead crypto b) as [raw|e|] eqn:Ho; [| |done].
  - right. specialize (Hu raw eq_refl). apply (triple_bind peer_ip live busy 0 1 true u8s).
    { apply triple_lift_map; [by apply read_into_safe|done|]. intros a. by apply read_into_u8s. }
    intros inner Hin. apply (triple_bind peer_ip live busy 0 1 true (fun _ => True)).
    { apply triple_lift_map; [|done|done]. by apply (codec_safe (Codec := canonical_is_codec (CanonicalCodec := v3_auth_codec))). }
    intros tok _. apply (triple_bind peer_ip live busy 0 1 true (fun _ => True)); [apply triple_token|]. intros _ _.
    apply (triple_bind peer_ip live busy 1 0 true (fun _ => True)); [apply triple_success|]. intros _ _.
    apply (triple_bind peer_ip live busy 0 0 true (fun _ => True)); [apply triple_bump|]. intros _ _. apply triple_ret. by exists tt.
  - left. destruct (note_decrypt_failure (pre_auth cfg) t1) as [t2 [[]|e'|]] eqn:Hd.
    + apply triple_ret. by exists t2.
    + eapply triple_fail, note_decrypt_err, Hd.
    + unfold note_decrypt_failure in Hd. by case_decide.
Qed.

Lemma triple_wait_auth crypto expected users :
  tri 1 true (fun _ => True) (server_wait_v3_auth aead parse_users hash clock peer_ip cfg crypto expected users).
Proof using. apply triple_messages. intros t m Hm. by apply triple_auth_message. Qed.

Lemma triple_ack secret domain cr ctx : ctx <> STALLED -> tri 0 true (fun _ => True) (send_ack b3 ack_rand ack_pad cfg secret domain cr ctx).
Proof using.
  intros Hc. apply (triple_bind peer_ip live busy 0 0 true (fun _ => True)); [by apply triple_lift|]. intros [ack sr] _.
  apply (triple_bind peer_ip live busy 0 0 true (fun _ => True)); [by apply triple_send|]. intros _ _. by apply triple_ret.
Qed.

Lemma parse_hello_safe b : u8s b -> safe (parse_hello_v3 b).
Proof using.
  intros Hb. unfold parse_hello_v3, V3_HELLO_MIN_WIRE_LEN. no_panic.
Qed.

Lemma triple_expired {A} n st (Q : A -> Prop) e :
  e <> STALLED -> tri n st Q (_ ← bump_stats inc_handshake_timeout; fail_auth clock peer_ip e).
Proof using. intros He. apply (triple_bind peer_ip live busy 0 n st (fun _ => True)); [apply triple_bump|]. intros _ _. by apply triple_fail. Qed.

Lemma triple_hello_message domain t m :
  msg_ok (Some m) ->
  tri 0 true (fun r => exists t', r = inl t') (hello_message aead b3 parse_users hash clock ack_rand ack_pad peer_ip cfg domain t m) \/
  tri 1 true (fun r => exists k : SessionCrypto, r = inr k /\ True) (hello_message aead b3 parse_users hash clock ack_rand ack_pad peer_ip cfg domain t m).
Proof using.
  intros Hm. destruct m as [b|b|b|b|]; cbn [hello_message msg_ok] in *; [|left; by apply triple_control..].
  unfold account_pre_hello_binary. pose proof (parse_hello_safe b Hm) as Hs. destruct (parse_hello_v3 b) as [cr|e|]; [| |done].
  - right. apply (triple_bind peer_ip live busy 0 1 true (fun _ => True)); [by apply triple_lift_context|]. intros secret _.
    apply (triple_bind peer_ip live busy 0 1 true (fun _ => True)); [by apply triple_ack|]. intros k _.
    apply (triple_bind peer_ip live busy 1 0 true (fun _ => True)); [apply triple_wait_auth|]. intros _ _. apply triple_ret. by exists k.
  - left. case_decide; [by apply triple_fail|]. apply triple_ret. by eexists.
Qed.

Lemma triple_handshake domain :
  tri 1 false (fun _ => True) (server_handshake_v3 aead b3 parse_users hash clock ack_rand ack_pad peer_ip cfg domain).
Proof using.
  apply triple_timeout; [|intros k; by apply triple_expired]. apply triple_messages. intros t m Hm. by apply triple_hello_message.
Qed.

Lemma triple_after_hello hello tok secret domain :
  u8s hello -> tri 1 false (fun _ => True)
    (server_handshake_v3_after_first_hello aead b3 parse_users hash clock ack_rand ack_pad peer_ip cfg hello tok secret domain).
Proof using.
  intros Hh. apply (triple_bind peer_ip live busy 0 1 false (fun _ => True)); [apply triple_lift_map; [by apply parse_hello_safe|done|done]|]. intros cr _.
  apply (triple_bind peer_ip live busy 0 1 false (fun _ => True)).
  { apply (triple_bind peer_ip live busy 0 0 false (fun _ => True)); [by apply triple_lift|]. intros [ack sr] _.
    apply (triple_bind peer_ip live busy 0 0 false (fun _ => True)); [by apply triple_send|]. intros _ _. by apply triple_ret. }
  intros k _. apply (triple_bind peer_ip live busy 1 0 false (fun _ => True)); [|intros _ _; by apply triple_ret].
  apply triple_timeout; [apply triple_wait_auth|intros n; by apply triple_expired].
Qed.

Lemma validate_host_safe host : safe (validate_open_host host).
Proof using. unfold validate_open_host. repeat case_decide; try done. by destruct (_ || _). Qed.
Lemma validate_host_err host e : validate_open_host host = Err e -> e <> STALLED.
Proof using. unfold validate_open_host. repeat case_decide; [by intros [= <-]..|]. destruct (_ || _); [by intros [= <-]|done]. Qed.

Lemma triple_first_channel crypto :
  tri 0 false (fun _ => True) (wait_first_channel_with_timeout aead clock peer_ip cfg crypto).
Proof using.
  apply triple_timeout; [|intros n; by apply triple_expired]. apply triple_messages. intros t m Hm.
  destruct m as [b|b|b|b|]; cbn [first_channel_message msg_ok] in *; [|left; by apply triple_control..].
  destruct (open_c2s_safe crypto b Hm) as [Hs Hu].
  destruct (open_client_to_server aead crypto b) as [raw|e|] eqn:Ho; [|left; by eapply triple_Err|done]. specialize (Hu raw eq_refl).
  pose proof (read_into_safe raw Hu) as Hs2.
  destruct (read_padded_frame_into raw) as [inner|e|] eqn:Hr; [|left; eapply triple_Ok; [done|]; eapply triple_Err; [by rewrite Hr|done]|done].
  destruct (classify_total inner (read_into_u8s _ _ Hu Hr)) as [kind Hk].
  destruct kind as [host port flags| | |]; [right|right|right|left].
  all: eapply triple_Ok; [done|]; eapply triple_Ok; [by rewrite Hr|]; eapply triple_Ok; [exact Hk|]; cbn beta iota.
  - apply (triple_bind peer_ip live busy 0 0 true (fun _ => True)).
    { apply triple_lift; [apply validate_host_safe|apply validate_host_err|done]. }
    intros _ _. apply triple_ret. by eexists.
  - apply (triple_ret peer_ip live busy). by eexists.
  - apply (triple_ret peer_ip live busy). by eexists.
  - destruct (note_binary_frame _ _ _) as [t1 [[]|e|]] eqn:Hn; [|eapply triple_fail, note_frame_err, Hn|].
    + apply (triple_ret peer_ip live busy). by eexists.
    + unfold note_binary_frame in Hn. by case_decide.
Qed.

Lemma status_safe crypto inner : safe (status_frame aead pad_rng seal_rng cfg crypto inner).2.
Proof using.
  unfold status_frame. pose proof (PreparedFrame_new_total pad_rng [inner] (sv_pad cfg) (sv_mode cfg) (Some {| count := 0 |})) as Ht.
  unfold write_padded_frame_with_mode_state.
  destruct (PreparedFrame_new _ _ _ _ _) as [[f ad]|e|]; [|done..]. apply (seal_safe aead seal_rng _ crypto false).
Qed.

Lemma status_err crypto inner e : (status_frame aead pad_rng seal_rng cfg crypto inner).2 = Err e -> e <> STALLED.
Proof using.
  unfold status_frame. destruct (write_padded_frame_with_mode_state _ _ _ _ _) as [[w ad]| |]; [|by intros [= <-]|done].
  unfold seal_server_to_client, mbind, st_bind, gets, on_s2c, seal, seal_with, next_nonce, mbind, st_bind, gets, lift, mret, st_ret.
  destruct (decide (ctr (s2c crypto) = U64_MAX)); [by intros [= <-]|].
  by destruct (encrypt aead _ _ _) as [[c tag]|]; intros [= <-].
Qed.

Lemma triple_send_ignored {A} st (Q : A -> Prop) (m : ST Peer err unit) a :
  Q a -> (forall p, (m p).1.(inbox) = p.(inbox)) -> tri 0 st Q (fun c => let '(c, _) := on_peer m c in (c, Ok a)).
Proof using.
  intros HQ Hm c c' r [Hi Hu Hbusy]. unfold on_peer. specialize (Hm (peer c)). destruct (m (peer c)) as [p r0]. cbn [fst] in Hm.
  intros [= <- <-]. split_and!; [split; [|done..]|constructor|by intros ? [= <-]]. cbn [peer set_peer]. by rewrite Hm.
Qed.

Lemma ws_send_inbox m ctx p : (ws_send m ctx p).1.(inbox) = p.(inbox).
Proof using. unfold ws_send. by destruct (sends_left p). Qed.

Lemma triple_run_session crypto :
  (forall host port, safe (connect host port)) ->
  tri 0 false (fun _ => True) (run_session_after_v3_handshake aead clock pad_rng seal_rng peer_ip connect cfg crypto).
Proof using.
  intros Hconnect. apply (triple_bind peer_ip live busy 0 0 false (fun _ => True)); [apply triple_first_channel|]. intros f _.
  destruct f as [host port st| |]; [|by apply triple_ret..]. specialize (Hconnect host port).
  destruct (connect host port) as [[]|e|]; [| |done].
  - destruct st; [|by apply triple_ret]. pose proof (status_safe crypto encode_v3_open_ok) as Hs.
    pose proof (status_err crypto encode_v3_open_ok) as He.
    destruct (status_frame _ _ _ _ _ _) as [k r]. apply (triple_bind peer_ip live busy 0 0 false (fun _ => True)); [by apply triple_lift|].
    intros blob _. apply (triple_bind peer_ip live busy 0 0 false (fun _ => True)); [by apply triple_send|]. intros _ _. by apply triple_ret.
  - destruct st; [|by apply triple_throw]. destruct (encode_v3_open_err _) as [i| |]; [|by apply (triple_ret peer_ip live busy)..].
    destruct (status_frame _ _ _ _ _ _) as [k [blob| |]]; [|by apply (triple_ret peer_ip live busy)..].
    apply triple_send_ignored; [done|]. intros p. apply ws_send_inbox.
Qed.

Lemma identity_ok c sh cpk spk ts n got :
  wf live busy c -> safe (reality_identity b3 parse_users hash cfg c sh cpk spk ts n got) /\
  forall id, reality_identity b3 parse_users hash cfg c sh cpk spk ts n got = Ok id ->
    match id.2 with Some (l, active') => counted (active', l :: c.(held) ++ live) | None => True end.
Proof using.
  intros [_ Hu Hbusy]. unfold reality_identity. destruct (registry cfg) as [file|]; [|destruct (secret_eq _ _); [split; [done|by intros ? [= <-]]|done]].
  assert (forall matches, safe (find_token parse_users (file (reads c)) matches)) as Hf.
  { intros matches. unfold find_token. apply safe_bind; [apply load_users_safe|]. intros. apply safe_context. }
  match goal with |- context [find_token _ _ ?m] => specialize (Hf m) end. destruct (find_token _ _ _) as [tok|e|]; [|done..]. cbn [mbind res_bind].
  pose proof (acquire_safe (file (S (reads c))) tok (active c)) as Hs.
  destruct (acquire _ _ _ _ _) as [ac r0] eqn:Ha. pose proof (acquire_counted _ _ _ _ _ _ _ _ Hu Ha) as Hc.
  destruct r0 as [l|e|]; [|done..]. split; [done|]. intros id [= <-]. exact Hc.
Qed.

Lemma triple_reality_auth rc sni host :
  tri 1 false (fun _ => True) (reality_auth x b3 parse_users hash clock wall1 wall2 peer_ip cfg rc sni host).
Proof using.
  intros c c' r Hw. unfold reality_auth, on_peer. destruct (server_handshake_reality_with_auth _ _ _ _ _ _ _ _ _) as [p r0] eqn:Hs.
  destruct (handshake_ok x b3 rc sni host wall1 wall2 (reality_identity b3 parse_users hash cfg c) _
    (fun sh cpk spk ts n got => identity_ok c sh cpk spk ts n got Hw) _ _ _ (wf_inbox _ _ _ Hw) Hs) as (Hi & Hp & HQ).
  assert (wf live busy (set_peer p c)) as Hw1 by (destruct Hw; by split).
  destruct r0 as [[sh [tok session]]|e|]; [| |done].
  - specialize (HQ _ eq_refl). destruct Hw1 as [H1 H2 H3]. intros [= <- <-].
    destruct session as [[l ac]|]; cbn in HQ; (split_and!; [by split|simpl; eapply told_cons; apply told_nil|done]).
  - case_decide.
    + intros H'. by apply (triple_expired 1 false (fun _ => True) "handshake timeout waiting for REALITY AUTH" ltac:(done) _ _ _ Hw1 H').
    + intros H'. by apply (triple_fail 1 false (fun _ => True) "REALITY handshake" ltac:(done) _ _ _ Hw1 H').
Qed.

Lemma triple_setup_timeout {A} n (Q : A -> Prop) phase m :
  phase <> STALLED -> tri n true Q m -> tri n false Q (with_setup_timeout phase m).
Proof using.
  intros Hp Hm. apply triple_timeout; [done|]. intros k. apply (triple_bind peer_ip live busy 0 k false (fun _ => True)); [apply triple_bump|].
  intros _ _. by apply triple_throw.
Qed.

Lemma triple_read_next : tri 0 true u8s read_next_binary_after_reality.
Proof using.
  apply triple_messages. intros [] m Hm. destruct m as [b|b|b|b|]; cbn [after_reality_message]; [right|left; by apply triple_control..].
  apply triple_ret. by exists b.
Qed.

(** The end of a connection: a tunnel comes with at least [lo] successes. *)
Definition ends (lo : nat) (m : ST Conn err Served) : Prop := forall c c' r, wf live busy c -> m c = (c', r) ->
  wf live busy c' /\ exists n, outcome peer_ip n false c c' r /\ forall s, r = Ok s -> s = Camouflaged \/ (lo <= n)%nat.

Lemma ends_triple lo n Q m : (lo <= n)%nat -> tri n false Q m -> ends lo m.
Proof using. intros Hle Hm c c' r Hw H. destruct (Hm _ _ _ Hw H) as (? & ? & _). split; [done|]. exists n. split; [done|by right]. Qed.

Lemma ends_bind {A} n lo Q (m : ST Conn err A) (k : A -> ST Conn err Served) :
  tri n false Q m -> (forall a, Q a -> ends lo (k a)) -> ends (n + lo) (m ≫= k).
Proof using.
  intros Hm Hk c c' r Hw. unfold mbind, st_bind. destruct (m c) as [c1 r1] eqn:He.
  destruct (Hm _ _ _ Hw He) as (Hw1 & Ho & HQ). destruct r1 as [a|e|]; [|intros [= <- <-]; split; [done|]; by exists 0%nat|done].
  intros H. destruct (Hk a (HQ a eq_refl) _ _ _ Hw1 H) as (Hw' & n' & Ho' & Hlo). split; [done|].
  exists (n + n')%nat. split; [|intros s Hs; destruct (Hlo s Hs); [by left|right; lia]].
  destruct r as [b|e|]; simpl in Ho, Ho' |- *; [|destruct Ho' as (k' & f & Ht & Hf)|done].
  - rewrite replicate_add. by eapply told_app.
  - exists (n + k')%nat, f. rewrite replicate_add, <- app_assoc. split; [by eapply told_app|done].
Qed.

Context (Hconnect : forall host port, safe (connect host port)).

Lemma ends_upgraded sni host :
  ends 1 (handle_upgraded x aead b3 parse_users hash clock wall1 wall2 ack_rand ack_pad pad_rng seal_rng peer_ip connect cfg sni host).
Proof using Hconnect.
  unfold handle_upgraded. destruct (reality cfg) as [rc|].
  - apply (ends_bind 1 0 (fun _ => True)); [apply triple_reality_auth|]. intros tok _.
    case_decide; [by apply (ends_triple 0 0 (fun _ => True)), triple_throw|].
    apply (ends_bind 0 0 u8s); [by apply triple_setup_timeout, triple_read_next|]. intros next Hnext.
    destruct (is_v3_mux_open next); [|case_bool_decide; [|by apply (ends_triple 0 0 (fun _ => True)), triple_throw]].
    + apply (ends_bind 0 0 (fun _ => True)); [apply triple_bump|]. intros _ _. by apply (ends_triple 0 0 (fun _ => True)), triple_ret.
    + apply (ends_bind 0 0 (fun _ => True)); [by apply triple_lift_context|]. intros secret _.
      apply (ends_triple 0 1 (fun _ => True)); [lia|]. apply (triple_bind peer_ip live busy 1 0 false (fun _ => True)); [by apply triple_after_hello|].
      intros k _. by apply triple_run_session.
  - case_decide; [by apply (ends_triple 1 1 (fun _ => True)), triple_throw|].
    apply (ends_bind 1 0 (fun _ => True)); [apply triple_handshake|]. intros k _. by apply (ends_triple 0 0 (fun _ => True)), triple_run_session.
Qed.

(** Before the WebSocket there is nothing to authenticate. *)
Lemma triple_setup setup :
  (forall sni host, setup <> Upgraded sni host) ->
  forall c c' r, wf live busy c -> handle_one x aead b3 parse_users hash clock wall1 wall2 ack_rand ack_pad pad_rng seal_rng peer_ip connect cfg setup c = (c', r) ->
  wf live busy c' /\ c'.(limiter) = c.(limiter) /\ r <> Panic /\ r <> Err STALLED /\ forall s, r = Ok s -> s = Camouflaged.
Proof using.
  intros Hs c c' r [H1 H2 H3]. destruct setup as [| | | | |sni host]; [..|by destruct (Hs sni host)]; intros [= <- <-];
    (split_and!; [|done..|by try intros ? [= <-]]); split; try done; cbn [set_stats stats bump inc_handshake_timeout active_sessions];
    unfold fetch_add; by rewrite Z.add_0_r, Zmod_mod.
Qed.

(** What the limiter heard in the end. *)
Definition reported (setup : Setup) (l l' : AuthRateLimiter) (served : option Served) : Prop :=
  exists k f, told peer_ip (replicate k Record_success ++ f) l l' /\ (f = [] \/ f = [Record_failure]) /\
    (forall s, served = Some s -> f = [] /\ (s = Camouflaged \/ (1 <= k)%nat)) /\
    ((forall sni host, setup <> Upgraded sni host) -> k = 0%nat /\ f = []).
Definition served_of (r : result Served) : option Served := match r with Ok s => Some s | _ => None end.

Lemma handle_one_ends setup c c' r :
  wf live busy c -> handle_one x aead b3 parse_users hash clock wall1 wall2 ack_rand ack_pad pad_rng seal_rng peer_ip connect cfg setup c = (c', r) ->
  wf live busy c' /\ r <> Panic /\ r <> Err STALLED /\ reported setup c.(limiter) c'.(limiter) (served_of r).
Proof using Hconnect.
  intros Hw H. destruct (match setup with Upgraded _ _ => true | _ => false end) eqn:Hup.
  - destruct setup as [| | | | |sni host]; try done. destruct (ends_upgraded sni host _ _ _ Hw H) as (Hw' & n & Ho & Hlo). split; [done|].
    assert (~ forall sni' host', Upgraded sni host <> Upgraded sni' host') as Hn by (intros Hx; by apply (Hx sni host)).
    destruct r as [s|e|]; [| |done].
    + split_and!; [done..|]. exists n, []. split_and!; [by rewrite app_nil_r|by left|by intros ? [= <-]; auto|done].
    + destruct Ho as (k & f & Ht & Hf & Hst). split_and!; [done|intros [= ->]; by specialize (Hst eq_refl)|].
      exists k, f. split_and!; [done|naive_solver|done|done].
  - assert (forall sni host, setup <> Upgraded sni host) as Hn by (intros sni host ->; done).
    destruct (triple_setup setup Hn _ _ _ Hw H) as (Hw' & Hl & H1 & H2 & H3). split_and!; [done..|].
    exists 0%nat, []. rewrite Hl. split_and!; [constructor|by left|intros s Hs; destruct r as [s0| |]; try done; injection Hs as ->; auto|done].
Qed.

(** The sessions held are given back, one after the other. *)
Lemma release_counted c : counted (c.(active), c.(held) ++ live) -> counted ((release_users c).(active), live).
Proof using.
  destruct c as [p l s a h n]. unfold release_users. cbn [active held set_sessions]. revert a.
  induction h as [|k h IH]; intros a Hc; [done|]. cbn [fold_left].
  destruct (drop_counted k a _ (h ++ live) Hc) as (a' & Hd & Hc'); [done|]. rewrite Hd. by apply IH.
Qed.
End Steps.

Section Serve.
Context (x : X25519) (aead : Aead) (b3 : Blake3) `{mo : !MapOrder}.
Context (parse_users : bytes -> option (list User)) (hash : bytes -> bytes).
Context (clock : nat -> Z) (wall1 wall2 : option Z) (ack_rand ack_pad pad_rng seal_rng : Rng) (peer_ip : IpAddr).
Context (connect : str -> Z -> result unit) (cfg : ServerCfg) (live : list str) (tunnel : Served -> result unit).
Context (Hconnect : forall host port, safe (connect host port)).

(** What is left of the connection. *)
Definition settled (c c' : Conn) : Prop :=
  counted (c'.(active), live) /\ c'.(held) = [] /\ c'.(stats).(active_sessions) = c.(stats).(active_sessions).

(** A connection that was let in. *)
Lemma admitted_ends setup c c' r :
  let '(c1, r1) := handle_one x aead b3 parse_users hash clock wall1 wall2 ack_rand ack_pad pad_rng seal_rng peer_ip connect cfg setup
                     (set_stats (session_guard c.(stats)) c) in
  let failed := match r1 with Ok s => negb (is_ok (tunnel s)) | _ => true end in
  let c2 := release_users c1 in
  let c3 := if failed then set_stats (inc_session_error c2.(stats)) c2 else c2 in
  (set_stats (drop_guard c3.(stats)) c3, r1) = (c', r) ->
  Forall msg_ok c.(peer).(inbox) -> c.(held) = [] -> counted (c.(active), live) -> is_u64 c.(stats).(active_sessions) ->
  settled c c' /\ r <> Panic /\ r <> Err STALLED /\ reported peer_ip setup c.(limiter) c'.(limiter) (served_of r).
Proof using Hconnect.
  destruct (handle_one _ _ _ _ _ _ _ _ _ _ _ _ _ _ _ _ _) as [c1 r1] eqn:H. intros failed c2 c3 Heq Hin Hh Hc Hu.
  assert (wf live (fetch_add c.(stats).(active_sessions) 1 `mod` 2 ^ 64) (set_stats (session_guard c.(stats)) c)) as Hw.
  { split; [done|cbn [set_stats held active]; by rewrite Hh|done]. }
  destruct (handle_one_ends _ _ _ _ _ _ _ _ _ _ _ _ _ _ _ _ _ Hconnect _ _ _ _ Hw H) as (Hw1 & H1 & H2 & Hr).
  destruct Hw1 as [_ Hc1 Hb1]. pose proof (release_counted live c1 Hc1) as Hc2.
  injection Heq as <- <-. unfold settled. cbn [set_stats active held limiter stats drop_guard active_sessions].
  assert (c3.(active) = c2.(active) /\ c3.(held) = [] /\ c3.(limiter) = c1.(limiter) /\
    c3.(stats).(active_sessions) `mod` 2 ^ 64 = c1.(stats).(active_sessions) `mod` 2 ^ 64) as (E1 & E2 & E3 & E4).
  { subst c3. destruct failed; [|done]. split_and!; [done..|]. cbn [set_stats stats inc_session_error bump active_sessions].
    unfold fetch_add. by rewrite Z.add_0_r, Zmod_mod. }
  split_and!; [by rewrite E1|done| |done|done|by rewrite E3].
  unfold fetch_sub. rewrite <- Zminus_mod_idemp_l, E4, Hb1.
  unfold fetch_add. rewrite !Zminus_mod_idemp_l, Z.add_simpl_r. by apply Z.mod_small.
Qed.
End Serve.

(** ** Properties *)

(** C6: how a connection ends, whatever its peer sends: its task comes to a result, without a panic and
    without waiting for ever; the limiter is asked once, and then told of at most one failure, never
    after a tunnel was served, and of a success before one is; a peer that never got past TLS and
    the HTTP upgrade is not reported at all; the user sessions it held are given back, so that the
    table counts those of the other connections, and the number of active connections is again what
    it was. *)
Theorem connection_outcome x aead b3 `{mo : !MapOrder} parse_users hash clock wall1 wall2 ack_rand ack_pad pad_rng seal_rng
    peer_ip connect cfg permit setup tunnel c c' r live :
  Forall msg_ok c.(peer).(inbox) -> c.(held) = [] -> counted (c.(active), live) -> is_u64 c.(stats).(active_sessions) ->
  (forall host port, safe (connect host port)) ->
  serve x aead b3 parse_users hash clock wall1 wall2 ack_rand ack_pad pad_rng seal_rng peer_ip connect cfg permit setup tunnel c
    = (c', r) ->
  settled live c c' /\ r <> Panic /\ r <> Err STALLED /\
  reported peer_ip setup (check_allowed peer_ip (clock c.(reads)) c.(limiter)).1 c'.(limiter) (match r with Ok s => s | _ => None end).
Proof.
  intros Hin Hh Hc Hu Hconnect. unfold serve. pose proof (check_allowed_safe peer_ip (clock (reads c)) (limiter c)) as Hs.
  destruct (check_allowed peer_ip _ _) as [l r0]. cbn [fst snd] in *.
  assert (forall ns, ns.(active_sessions) = c.(stats).(active_sessions) -> (set_stats ns (set_limiter l c), Ok None) = (c', r) ->
    settled live c c' /\ r <> Panic /\ r <> Err STALLED /\
    reported peer_ip setup l c'.(limiter) (match r with Ok s => s | _ => None end)) as Hrefused.
  { intros ns Hns [= <- <-]. split_and!; [by split_and!|done..|]. exists 0%nat, []. split_and!; [constructor|by left|done|done]. }
  assert (fetch_add c.(stats).(active_sessions) 0 = c.(stats).(active_sessions)) as Hsame.
  { unfold fetch_add. rewrite Z.add_0_r. by apply Z.mod_small. }
  destruct r0 as [[]|e|]; [|by apply Hrefused|done].
  destruct permit; [| |by apply (Hrefused c.(stats))|by apply Hrefused].
  all: pose proof (admitted_ends x aead b3 parse_users hash clock wall1 wall2 ack_rand ack_pad pad_rng seal_rng peer_ip connect cfg live tunnel
         Hconnect setup (set_limiter l c)) as Hend; destruct (handle_one _ _ _ _ _ _ _ _ _ _ _ _ _ _ _ _ _) as [c1 r1];
    intros [= <- <-]; destruct (Hend _ _ eq_refl Hin Hh Hc Hu) as (H1 & H2 & H3 & H4); 
    destruct r1; (split_and!; [exact H1..|done|naive_solver|exact H4]).
Qed.

(** A peer that leaves after a text message. *)
Lemma connection_outcome_witness :
  let c := demo_conn [TextMsg (bs "hi")] in
  let '(c', r) := demo_serve (Upgraded None None) c in
  r = Err "eof during handshake"%string /\ settled [] c c' /\
  reported (V4 1) (Upgraded None None) c.(limiter) c'.(limiter) None.
Proof.
  intros c. destruct (demo_serve (Upgraded None None) c) as [c' r] eqn:Hs.
  assert (r = Err "eof during handshake"%string) as -> by (vm_compute in Hs; injection Hs as _ <-; reflexivity).
  assert (Forall msg_ok c.(peer).(inbox)) as Hin by (vm_compute; repeat constructor).
  assert (counted (c.(active), [])) as Hc by (intros l; reflexivity).
  assert (is_u64 c.(stats).(active_sessions)) as Hu by (vm_compute; split; [discriminate|reflexivity]).
  assert (forall (h : str) (p : Z), safe ((fun _ _ => Ok tt : result unit) h p)) as Hconn by done.
  unfold demo_serve in Hs.
  destruct (connection_outcome _ _ _ _ _ _ _ _ _ _ _ _ _ _ _ _ _ _ _ _ _ [] Hin eq_refl Hc Hu Hconn Hs) as (H1 & _ & _ & H4).
  split; [reflexivity|]. split; [exact H1|]. exact H4.
Defined.
