(* ===== verification/EndToEnd.v ===== *)
(** The client of [local_client.rs] and [udp_mux.rs] against the server of [bin/server.rs]: what an
    honest client sends opens the channel it asked for, under the keys both ends derived, and the
    client learns whether the server reached the target. *)
From S2P Require Import Prelude Text Net WebSocket Frame Protocol Limits Users DomainRoute UdpClient Pacing ClientConnect Crypto Reality ServerConn Demo ServerAuth.

Lemma st_lift_inv {S A B} (r : result A) (k : A -> ST S err B) s s' b :
  (lift r ≫= k) s = (s', Ok b) -> exists a, r = Ok a /\ k a s = (s', Ok b).
Proof. intros (s1 & a & [-> Ha]%lift_inv & Hk)%st_bind_Ok. eauto. Qed.

(** ** The client *)

Section Client.
Context (x : X25519) (aead : Aead) (b3 : Blake3).

(** The noise frames of [n] draws. *)
Definition noise_frames (hi : Z) (draw : nat -> Rng) (i n : nat) : list bytes :=
  (fun j => fill_bytes (draw j) (gen_range (draw j) 32 hi)) <$> seq i n.

Lemma send_noise_Ok cap hi draw i n p p' :
  send_noise cap hi draw i n p = (p', Ok tt) ->
  p'.(outbox) = p.(outbox) ++ (Binary <$> noise_frames hi draw i n) /\ p'.(inbox) = p.(inbox).
Proof using.
  revert i p. induction n as [|n IH]; intros i p; cbn [send_noise].
  - intros [= <-]. split; [by rewrite app_nil_r|done].
  - case_match; [done|]. intros (p1 & [] & Hs & Hr)%st_bind_Ok. apply ws_send_Ok in Hs as (Hi & Ho & _).
    apply IH in Hr as (Ho' & Hi'). rewrite Ho', Hi', Hi, Ho, <- app_assoc. done.
Qed.

Lemma send_control_Ok pad rng m mode cap over ctx inner k ad p p' k' ad' K :
  is_u8 k.(decoy_max) -> is_u8 m -> same_keys k K ->
  send_control aead pad rng m mode cap over ctx inner k ad p = (p', Ok (k', ad')) ->
  exists blob, p'.(outbox) = p.(outbox) ++ [Binary blob] /\ p'.(inbox) = p.(inbox) /\ opened aead K blob inner /\
    same_keys k k' /\ k'.(decoy_max) = k.(decoy_max).
Proof using.
  intros Hd Hm HK. unfold send_control. intros ([wire ad1] & Hw & H)%st_lift_inv.
  destruct (write_padded_frame_with_mode_state pad inner m mode (Some ad)) as [[w0 ad0]| |] eqn:Hpad; simplify_eq/=.
  apply write_padded_Ok in Hpad as (pd & -> & Hpd & Hinner); [|done].
  destruct (seal_client_to_server _ _ _ _) as [k1 sealed] eqn:Hseal. apply st_lift_inv in H as (blob & -> & H).
  destruct (seal_c2s_ok _ _ _ _ _ _ _ Hd HK Hseal) as [Ho _ _ Hk Hdec].
  match type of H with (if ?b then _ else _) _ = _ => destruct b; [done|] end. apply st_bind_Ok in H as (p1 & [] & Hs & H). apply ws_send_Ok in Hs as (Hi & Hout & _).
  injection H as <- <- _. exists blob. split_and!; [done|done| |done|done].
  exists (layout pd inner). split; [exact Ho|]. apply read_into_layout; unfold is_u8 in *; lia.
Qed.

(** Both kinds of session: the noise, the HELLO, and the first binary message is the ACK. *)
Lemma hello_sent_Ok {A} cap hi draw i1 n1 i2 n2 hello ctx eof closed (body : bytes -> ST Peer err A) ack rest p p' a :
  p.(inbox) = Some (Binary ack) :: rest ->
  (_ ← send_noise cap hi draw i1 n1; _ ← send_noise cap hi draw i2 n2; _ ← ws_send (Binary hello) ctx; await_ack eof closed body) p
    = (p', Ok a) ->
  exists p1, p1.(outbox) = p.(outbox) ++ (Binary <$> noise_frames hi draw i1 n1 ++ noise_frames hi draw i2 n2 ++ [hello]) /\
    p1.(inbox) = rest /\ body ack p1 = (p', Ok a).
Proof using.
  intros Hin (q1 & [] & H1%send_noise_Ok & H)%st_bind_Ok. destruct H1 as [Ho1 Hi1].
  apply st_bind_Ok in H as (q2 & [] & H2%send_noise_Ok & H). destruct H2 as [Ho2 Hi2].
  apply st_bind_Ok in H as (q3 & [] & H3%ws_send_Ok & H). destruct H3 as (Hi3 & Ho3 & _).
  unfold await_ack in H. rewrite Hi3, Hi2, Hi1, Hin in H. cbn [ack_loop] in H. exists (set_inbox rest q3). split_and!; [|done|done].
  cbn [set_inbox outbox]. rewrite Ho3, Ho2, Ho1, !fmap_app, <- !app_assoc. done.
Qed.

(** The ACK of a server that drew [ack_rand], and the keys it fixes. *)
Context (ack_rand ack_pad : Rng).
Definition server_ack (secret dom cr : bytes) : bytes :=
  match build_ack b3 ack_rand ack_pad secret dom cr with Ok (ack, _) => ack | _ => [] end.
Definition session_keys (secret dom cr : bytes) (decoy : Z) : SessionCrypto :=
  SessionCrypto_new b3 secret dom cr (fill_bytes ack_rand 32) decoy.

Lemma server_ack_parses secret dom cr : parse_ack b3 secret dom (server_ack secret dom cr) cr = Ok (fill_bytes ack_rand 32).
Proof using.
  unfold server_ack, build_ack, V3_ACK_PAD_MAX. cbn beta iota. pose proof (gen_range_in ack_pad 0 64 ltac:(lia)).
  rewrite <- (fill_bytes_len ack_pad (gen_range ack_pad 0 64)) at 1 by lia.
  apply parse_ack_layout; rewrite fill_bytes_len; lia.
Qed.

Lemma keys_any_decoy secret dom cr d1 d2 : same_keys (session_keys secret dom cr d1) (session_keys secret dom cr d2).
Proof using. done. Qed.

(** What an established client session has sent. *)
Record client_sent (secret dom token cr hello auth : bytes) (k : SessionCrypto) : Prop := {
  cs_hello : parse_hello_v3 hello = Ok cr;
  cs_auth : exists inner, encode_v3_auth token = Ok inner /\ forall decoy, opened aead (session_keys secret dom cr decoy) auth inner;
  cs_keys : forall decoy, same_keys (session_keys secret dom cr decoy) k;
}.

Definition client_noise (hi : Z) (d : Draws) (early junk : Z) : list bytes :=
  noise_frames hi d.(d_noise) 0 (Z.to_nat early) ++ noise_frames hi d.(d_noise) (Z.to_nat early) (Z.to_nat junk).
Definition client_random (d : Draws) : bytes := fill_bytes d.(d_hello) 32.

Lemma build_hello_parses rand pad : parse_hello_v3 (build_hello_v3 rand pad).2 = Ok (fill_bytes rand 32).
Proof using.
  unfold build_hello_v3, V3_HELLO_PAD_MAX. cbn [snd]. pose proof (gen_range_in pad 0 64 ltac:(lia)).
  rewrite <- (fill_bytes_len pad (gen_range pad 0 64)) at 1 by lia. apply parse_hello_layout; rewrite fill_bytes_len; lia.
Qed.

(** *** The session of [one_try_wss_session] *)

Lemma one_try_Ok d dial cfg secret rest p p' k :
  let dom := effective_proto_domain cfg in
  cfg.(ClientConnect.psk) = Some secret -> is_u8 cfg.(ClientConnect.decoy_max) -> is_u8 cfg.(max_pad) ->
  p.(inbox) = Some (Binary (server_ack secret dom (client_random d))) :: rest ->
  one_try_wss_session aead b3 d dial cfg p = (p', Ok k) ->
  exists auth, client_sent secret dom cfg.(ClientConnect.token) (client_random d) (build_hello_v3 d.(d_hello) d.(d_hello_pad)).2 auth k /\
    p'.(outbox) = p.(outbox) ++ (Binary <$> client_noise (junk_upper_bound cfg.(max_ws_binary)) d cfg.(early_ws_frames) cfg.(ClientConnect.junk_frames)
      ++ [(build_hello_v3 d.(d_hello) d.(d_hello_pad)).2; auth]) /\
    p'.(inbox) = rest /\ k.(decoy_max) = cfg.(ClientConnect.decoy_max).
Proof using.
  intros dom Hpsk Hd Hm Hin. unfold one_try_wss_session. case_decide as Hproto; [done|]. rewrite Hpsk.
  intros ([] & _ & H)%st_lift_inv. unfold build_hello_v3 in H. cbn beta iota zeta in H.
  eapply hello_sent_Ok in H as (p1 & Ho1 & Hi1 & H); [|exact Hin]. unfold after_ack in H.
  rewrite server_ack_parses in H. apply st_lift_inv in H as (s & [= <-] & H).
  apply st_lift_inv in H as (inner & Henc & H).
  destruct (encode_v3_auth (ClientConnect.token cfg)) as [i0| |] eqn:Hi0; [|done..]. injection Henc as ->.
  apply st_bind_Ok in H as (p2 & [k1 ad] & Hsend & H). injection H as <- <-.
  eapply send_control_Ok with (K := session_keys secret dom (client_random d) 0) in Hsend
    as (auth & Ho2 & Hi2 & Hopen & Hk & Hdec); [|done..].
  exists auth. split_and!; [split; [apply build_hello_parses|by exists inner|intros; exact Hk]| |congruence|done].
  rewrite Ho2, Ho1. unfold client_noise. rewrite !fmap_app, <- !app_assoc. done.
Qed.

(** *** The channel openings *)

(** A session whose third message opens the channel [inner]. *)
Definition client_opened (secret dom token cr : bytes) (noise : list bytes) (inner : bytes) (sent : list Message) (k : SessionCrypto) : Prop :=
  exists hello auth chan, client_sent secret dom token cr hello auth k /\
    sent = Binary <$> (noise ++ [hello; auth; chan]) /\ (forall decoy, opened aead (session_keys secret dom cr decoy) chan inner).

Lemma opened_any_decoy secret dom cr d1 d2 msg inner :
  opened aead (session_keys secret dom cr d1) msg inner -> opened aead (session_keys secret dom cr d2) msg inner.
Proof using. done. Qed.

Lemma prepare_mux_Ok d dial cfg secret p p' k :
  let dom := effective_proto_domain cfg in
  cfg.(reality_target) = None -> cfg.(ClientConnect.psk) = Some secret -> is_u8 cfg.(ClientConnect.decoy_max) -> is_u8 cfg.(max_pad) ->
  p.(inbox) = [Some (Binary (server_ack secret dom (client_random d)))] -> p.(outbox) = [] ->
  prepare_mux_connection x aead b3 d dial cfg p = (p', Ok k) ->
  exists k', k = Some k' /\
    client_opened secret dom cfg.(ClientConnect.token) (client_random d)
      (client_noise (junk_upper_bound cfg.(max_ws_binary)) d cfg.(early_ws_frames) cfg.(ClientConnect.junk_frames))
      encode_v3_mux_open p'.(outbox) k'.
Proof using.
  intros dom Hr Hpsk Hd Hm Hin Hout. unfold prepare_mux_connection. rewrite Hr.
  intros (p1 & k1 & H1 & H)%st_bind_Ok. eapply one_try_Ok in H1 as (auth & Hcs & Ho1 & _ & Hdec); [|done..].
  apply st_bind_Ok in H as (p2 & [k2 ad] & Hs & H). injection H as <- <-. exists k2. split; [done|].
  pose proof (cs_keys _ _ _ _ _ _ _ Hcs 0) as Hk1.
  eapply send_control_Ok with (K := session_keys secret dom (client_random d) 0) in Hs as (chan & Ho2 & _ & Hop & Hk & _); [|by rewrite Hdec|done|by symmetry].
  exists (build_hello_v3 d.(d_hello) d.(d_hello_pad)).2, auth, chan. split_and!; [|rewrite Ho2, Ho1, Hout, !fmap_app, <- !app_assoc; done|by intros decoy; exact Hop].
  destruct Hcs as [H1 H2 H3]. split; [done|done|]. intros decoy. by etrans; [apply H3|].
Qed.

Lemma udp_connect_Ok d dial cfg secret p p' k :
  let dom := effective_udp_proto_domain cfg in
  cfg.(u_reality_public_key) = None -> cfg.(u_psk) = Some secret -> is_u8 cfg.(u_decoy_max) -> is_u8 cfg.(u_max_pad) ->
  p.(inbox) = [Some (Binary (server_ack secret dom (client_random d)))] -> p.(outbox) = [] ->
  connect_udp_mux_ws x aead b3 d dial cfg p = (p', Ok k) ->
  client_opened secret dom cfg.(u_token) (client_random d)
    (client_noise (junk_upper_bound cfg.(u_max_ws_binary)) d cfg.(u_early_ws_frames) cfg.(u_junk_frames))
    encode_v3_udp_mux_open p'.(outbox) k.
Proof using.
  intros dom Hr Hpsk Hd Hm Hin Hout. unfold connect_udp_mux_ws. case_decide as Hproto; [done|]. rewrite Hpsk, Hr.
  intros ([] & _ & H)%st_lift_inv. apply st_bind_Ok in H as (q & a & Hq & H). injection Hq as <- _.
  unfold build_hello_v3 in H. cbn beta iota zeta in H.
  eapply hello_sent_Ok in H as (p1 & Ho1 & Hi1 & H); [|exact Hin]. unfold udp_after_ack in H. fold (client_random d) dom in H.
  rewrite server_ack_parses in H. apply st_lift_inv in H as (s & [= <-] & H).
  apply st_lift_inv in H as (inner & Henc & H).
  destruct (encode_v3_auth (u_token cfg)) as [i0| |] eqn:Hi0; [|done..]. injection Henc as ->.
  apply st_bind_Ok in H as (p2 & [k1 ad] & Hsend & H).
  eapply send_control_Ok with (K := session_keys secret dom (client_random d) 0) in Hsend as (auth & Ho2 & Hi2 & Hopen & Hk & Hdec); [|done..].
  apply st_bind_Ok in H as (p3 & [k2 ad2] & Hsend & H). injection H as <- <-.
  eapply send_control_Ok with (K := session_keys secret dom (client_random d) 0) in Hsend as (chan & Ho3 & _ & Hop & Hk2 & _);
    [|by rewrite Hdec|done|by symmetry].
  exists (build_hello_v3 d.(d_hello) d.(d_hello_pad)).2, auth, chan. split_and!; [split|..].
  - apply build_hello_parses.
  - by exists inner.
  - intros decoy. etrans; [exact Hk|exact Hk2].
  - rewrite Ho3, Ho2, Ho1, Hout. unfold client_noise. rewrite !fmap_app, <- !app_assoc. done.
  - intros decoy. exact Hop.
Qed.
End Client.

(** ** The server *)

Section Server.
Context (x : X25519) (aead : Aead) (b3 : Blake3) `{mo : !MapOrder}.
Context (parse_users : bytes -> option (list User)) (hash : bytes -> bytes).
Context (clock : nat -> Z) (wall1 wall2 : option Z) (ack_rand ack_pad pad_rng seal_rng : Rng) (peer_ip : IpAddr).
Context (connect : str -> Z -> result unit) (cfg : ServerCfg).

(** A server for one token and the client's PSK and domain, with budgets that admit the client's messages. *)
Record accepts (secret dom tok : bytes) (noise : list bytes) (sent : list Message) : Prop := {
  ac_psk : cfg.(psk) = Some secret;
  ac_domain : trim cfg.(proto_domain) = dom;
  ac_domain_set : dom <> [];
  ac_token : cfg.(ServerConn.token) = tok;
  ac_token_str : is_str tok;
  ac_reality : cfg.(reality) = None;
  ac_registry : cfg.(registry) = None;
  ac_noise : Forall (fun f => exists e, parse_hello_v3 f = Err e) noise;
  ac_frames : len noise <= Z.min cfg.(pre_auth).(max_junk_frames) MAX_PRE_HELLO_FRAMES;
  ac_bytes : total (len <$> noise) <= Z.min cfg.(pre_auth).(max_junk_bytes) MAX_PRE_HELLO_BYTES;
  ac_first : 1 <= cfg.(pre_auth).(max_junk_frames);
  ac_sizes : Forall (fun m => match m with Binary b => len b <= cfg.(pre_auth).(max_junk_bytes) | _ => True end) sent;
}.

Definition after (c : Conn) (rest : list (option Message)) (extra : list Message) (c' : Conn) : Prop :=
  c'.(peer).(inbox) = rest /\ c'.(peer).(outbox) = c.(peer).(outbox) ++ extra /\
  c'.(peer).(sends_left) = (c.(peer).(sends_left) - length extra)%nat.

Lemma auth_accepted crypto t c b inner tok :
  opened aead crypto b inner -> encode_v3_auth tok = Ok inner -> is_str tok ->
  1 <= cfg.(pre_auth).(max_junk_frames) -> len b <= cfg.(pre_auth).(max_junk_bytes) -> t = PreAuthBudgetTracker_default ->
  exists c', auth_message aead parse_users hash clock peer_ip cfg crypto tok None t (Binary b) c = (c', Ok (inr tt)) /\ c'.(peer) = c.(peer).
Proof using.
  intros (raw & Ho & Hr) Henc Htok Hf Hb ->. cbn [auth_message]. unfold note_binary_frame. pose proof (len_nonneg b).
  rewrite decide_False.
  2: { unfold PreAuthBudgetTracker_default, sat_add, U32_MAX, USIZE_MAX, U64_MAX. cbn [Limits.junk_frames Limits.junk_bytes]. lia. }
  rewrite Ho. erewrite st_bind_step by (unfold lift; rewrite Hr; reflexivity).
  erewrite st_bind_step.
  2: { unfold lift. rewrite (codec_roundtrip (Codec := canonical_is_codec (CanonicalCodec := v3_auth_codec)) tok inner Htok Henc). reflexivity. }
  erewrite st_bind_step by (rewrite (proj2 (secret_eq_true tok tok) eq_refl); reflexivity).
  eexists. split; [reflexivity|done].
Qed.

Lemma ws_send_sent m ctx p :
  (0 < p.(sends_left))%nat ->
  exists p', ws_send m ctx p = (p', Ok tt) /\ p'.(inbox) = p.(inbox) /\ p'.(outbox) = p.(outbox) ++ [m] /\
    p'.(sends_left) = (p.(sends_left) - 1)%nat.
Proof using.
  unfold ws_send. destruct (sends_left p) as [|n]; [lia|]. intros _. eexists. split; [done|]. cbn [inbox outbox sends_left]. split_and!; [done|done|lia].
Qed.

(** Once the HELLO is there: the ACK goes out and the AUTH is taken. *)
Lemma hello_accepted secret dom tok cr noise sent hello auth k rest t c :
  accepts secret dom tok noise sent -> client_sent aead b3 ack_rand secret dom tok cr hello auth k ->
  len auth <= cfg.(pre_auth).(max_junk_bytes) -> c.(peer).(inbox) = Some (Binary auth) :: rest -> (0 < c.(peer).(sends_left))%nat ->
  exists c' K, hello_message aead b3 parse_users hash clock ack_rand ack_pad peer_ip cfg dom t (Binary hello) c = (c', Ok (inr K)) /\
    K = session_keys b3 ack_rand secret dom cr cfg.(decoy) /\ after c rest [Binary (server_ack b3 ack_rand ack_pad secret dom cr)] c'.
Proof using.
  intros Ha [Hh (inner & Henc & Hop) _] Hlen Hin Hs. cbn [hello_message]. unfold account_pre_hello_binary. rewrite Hh.
  erewrite st_bind_step by (unfold lift; rewrite (ac_psk _ _ _ _ _ Ha); reflexivity). cbn [context].
  unfold send_ack, server_ack, build_ack. set (ack := fill_bytes ack_rand 32 ++ _).
  destruct (ws_send_sent (Binary ack) "send v3 ACK" (peer c) Hs) as (p1 & Hsend & Hi1 & Ho1 & Hl1).
  erewrite st_bind_step.
  2: { erewrite st_bind_step by reflexivity. cbn beta iota. erewrite st_bind_step by (unfold on_peer; rewrite Hsend; reflexivity). reflexivity. }
  assert (exists c2, server_wait_v3_auth aead parse_users hash clock peer_ip cfg (session_keys b3 ack_rand secret dom cr (decoy cfg))
    (ServerConn.token cfg) (registry cfg) (set_peer p1 c) = (c2, Ok tt) /\ c2.(peer) = set_inbox rest p1) as (c2 & Hw & Hp2).
  { unfold server_wait_v3_auth, messages. cbn [peer set_peer]. rewrite Hi1, Hin. cbn [each_message].
    rewrite (ac_registry _ _ _ _ _ Ha), (ac_token _ _ _ _ _ Ha).
    destruct (auth_accepted (session_keys b3 ack_rand secret dom cr (decoy cfg)) PreAuthBudgetTracker_default
      (set_peer (set_inbox rest (peer (set_peer p1 c))) (set_peer p1 c)) auth inner tok) as (c3 & Hc3 & Hp3);
      [apply Hop|done|by eapply ac_token_str|by eapply ac_first|done|done|].
    rewrite Hc3. by exists c3. }
  erewrite st_bind_step by exact Hw. eexists c2, _. split; [reflexivity|]. split; [done|]. unfold after. rewrite Hp2. done.
Qed.

Lemma hello_loop secret dom tok cr noise0 sent hello auth k rest noise eof broken t c :
  accepts secret dom tok noise0 sent -> client_sent aead b3 ack_rand secret dom tok cr hello auth k ->
  len auth <= cfg.(pre_auth).(max_junk_bytes) -> (0 < c.(peer).(sends_left))%nat ->
  Forall (fun f => exists e, parse_hello_v3 f = Err e) noise ->
  t.(pre_frames) + len noise <= Z.min cfg.(pre_auth).(max_junk_frames) MAX_PRE_HELLO_FRAMES ->
  t.(pre_bytes) + total (len <$> noise) <= Z.min cfg.(pre_auth).(max_junk_bytes) MAX_PRE_HELLO_BYTES ->
  exists c' K, each_message (hello_message aead b3 parse_users hash clock ack_rand ack_pad peer_ip cfg dom) eof broken
      ((Some ∘ Binary <$> noise) ++ Some (Binary hello) :: Some (Binary auth) :: rest) t c = (c', Ok K) /\
    K = session_keys b3 ack_rand secret dom cr cfg.(decoy) /\ after c rest [Binary (server_ack b3 ack_rand ack_pad secret dom cr)] c'.
Proof using.
  intros Ha Hcs Hlen Hs Hnoise. revert t c Hs. induction Hnoise as [|f noise [e Hf] Hnoise IH]; intros t c Hs Hfr Hby.
  - cbn [fmap list_fmap app each_message].
    destruct (hello_accepted secret dom tok cr noise0 sent hello auth k rest t
      (set_peer (set_inbox (Some (Binary auth) :: rest) (peer c)) c) Ha Hcs Hlen eq_refl Hs) as (c' & K & -> & HK & Haf).
    by exists c', K.
  - cbn [fmap list_fmap app each_message compose hello_message]. unfold account_pre_hello_binary at 1. rewrite Hf.
    rewrite len_cons in Hfr. unfold total in *. cbn [fmap list_fmap foldr] in Hby.
    assert (0 <= total (len <$> noise)) by (apply total_nonneg, Forall_fmap, Forall_forall; intros y _; apply len_nonneg).
    unfold total in *. change (list_fmap bytes Z len noise) with (len <$> noise) in Hby. pose proof (len_nonneg noise). pose proof (len_nonneg f).
    rewrite decide_False by (unfold sat_add; cbn [pre_frames pre_bytes]; lia). unfold mret, st_ret at 1.
    change (list_fmap bytes (option Message) (Some ∘ Binary) noise) with (Some ∘ Binary <$> noise).
    edestruct (IH {| pre_frames := sat_add U32_MAX (pre_frames t) 1; pre_bytes := sat_add USIZE_MAX (pre_bytes t) (len f) |}
      (set_peer (set_inbox ((Some ∘ Binary <$> noise) ++ Some (Binary hello) :: Some (Binary auth) :: rest) (peer c)) c))
      as (c' & K & -> & HK & Haf); [exact Hs|unfold sat_add; cbn [pre_frames pre_bytes]; lia..|]. by exists c', K.
Qed.

Abbreviation upgraded := (handle_upgraded x aead b3 parse_users hash clock wall1 wall2 ack_rand ack_pad pad_rng seal_rng peer_ip connect cfg).
Abbreviation run_session := (run_session_after_v3_handshake aead clock pad_rng seal_rng peer_ip connect cfg).

(** The client's messages take the connection to the channel opening, whatever follows. *)
Lemma handshake_done secret dom tok cr noise inner sent k sni host c :
  accepts secret dom tok noise sent -> client_opened aead b3 ack_rand secret dom tok cr noise inner sent k ->
  c.(peer).(inbox) = Some <$> sent -> (0 < c.(peer).(sends_left))%nat ->
  exists c1 K chan, upgraded sni host c = run_session K c1 /\ K = session_keys b3 ack_rand secret dom cr cfg.(decoy) /\
    after c [Some (Binary chan)] [Binary (server_ack b3 ack_rand ack_pad secret dom cr)] c1 /\ opened aead K chan inner /\ same_keys K k.
Proof using.
  intros Ha (hello & auth & chan & Hcs & Hsent & Hop) Hin Hs. unfold handle_upgraded.
  rewrite (ac_reality _ _ _ _ _ Ha), (ac_domain _ _ _ _ _ Ha). rewrite decide_False by apply (ac_domain_set _ _ _ _ _ Ha).
  assert (len auth <= cfg.(pre_auth).(max_junk_bytes)) as Hlen.
  { pose proof (ac_sizes _ _ _ _ _ Ha) as Hz. rewrite Hsent, fmap_app, Forall_app in Hz. destruct Hz as [_ Hz]. by inversion_clear Hz as [|? ? ? Hz2]; inversion_clear Hz2. }
  assert (c.(peer).(inbox) = (Some ∘ Binary <$> noise) ++ Some (Binary hello) :: Some (Binary auth) :: [Some (Binary chan)]) as Hin'.
  { rewrite Hin, Hsent, <- list_fmap_compose, fmap_app. done. }
  destruct (hello_loop secret dom tok cr noise sent hello auth k [Some (Binary chan)] noise "eof during handshake" "ws error"
    PreHelloJunkTracker_default c Ha Hcs Hlen Hs (ac_noise _ _ _ _ _ Ha) (ac_frames _ _ _ _ _ Ha) (ac_bytes _ _ _ _ _ Ha))
    as (c1 & K & Hl & HK & Haf).
  exists c1, K, chan. split_and!; [|done|done|subst K; apply Hop|subst K; by apply Hcs].
  erewrite st_bind_step; [reflexivity|]. unfold server_handshake_v3, with_timeout, messages. by rewrite Hin', Hl.
Qed.

(** The channel opening, once the connection waits for it. *)
Lemma channel_taken K chan inner kind c :
  opened aead K chan inner -> classify_v3_first_channel inner = Ok kind -> c.(peer).(inbox) = [Some (Binary chan)] ->
  match kind with
  | Protocol.UdpMux => wait_first_channel_with_timeout aead clock peer_ip cfg K c = (set_peer (set_inbox [] c.(peer)) c, Ok UdpMux)
  | Protocol.Mux => wait_first_channel_with_timeout aead clock peer_ip cfg K c = (set_peer (set_inbox [] c.(peer)) c, Ok Mux)
  | TcpOpen host port flags => validate_open_host host = Ok tt ->
      wait_first_channel_with_timeout aead clock peer_ip cfg K c =
        (set_peer (set_inbox [] c.(peer)) c, Ok (Tcp host port (bool_decide (Z.land flags OPEN_FLAG_STATUS <> 0))))
  | NotChannelOpen => True
  end.
Proof using.
  intros (raw & Ho & Hr) Hc Hin. unfold wait_first_channel_with_timeout, with_timeout, wait_first_channel, messages. rewrite Hin.
  cbn [each_message first_channel_message].
  assert (forall (kk : V3FirstChannelKind -> ST Conn err (PreAuthBudgetTracker + FirstChannel)) s,
    (raw ← lift (map_err (fun _ => "decrypt v3 control"%string) (open_client_to_server aead K chan));
     inner ← lift (map_err (fun _ => "padded v3 control"%string) (read_padded_frame_into raw));
     kind ← lift (classify_v3_first_channel inner); kk kind) s = kk kind s) as Hstep.
  { intros kk s. rewrite Ho. erewrite st_bind_step by reflexivity. erewrite st_bind_step by (unfold lift; rewrite Hr; reflexivity).
    by erewrite st_bind_step by (unfold lift; rewrite Hc; reflexivity). }
  destruct kind as [host port flags| | |]; [intros Hv| | |done]; rewrite Hstep; [|done..].
  by erewrite st_bind_step by (unfold lift; rewrite Hv; reflexivity).
Qed.

(** The multiplexed channels. *)
Lemma muxes_served secret dom tok cr noise inner kind sent k sni host c :
  accepts secret dom tok noise sent -> client_opened aead b3 ack_rand secret dom tok cr noise inner sent k ->
  classify_v3_first_channel inner = Ok kind -> kind = Protocol.UdpMux \/ kind = Protocol.Mux ->
  c.(peer).(inbox) = Some <$> sent -> (0 < c.(peer).(sends_left))%nat ->
  exists c' K, upgraded sni host c = (c', Ok (match kind with Protocol.UdpMux => UdpRelay K | _ => TcpMux K end)) /\ same_keys K k /\
    after c [] [Binary (server_ack b3 ack_rand ack_pad secret dom cr)] c'.
Proof using.
  intros Ha Hco Hkind Hor Hin Hs. destruct (handshake_done secret dom tok cr noise inner sent k sni host c Ha Hco Hin Hs)
    as (c1 & K & chan & -> & _ & (Hi1 & Ho1 & Hl1) & Hop & Hk).
  pose proof (channel_taken K chan inner kind c1 Hop Hkind Hi1) as Ht.
  exists (set_peer (set_inbox [] c1.(peer)) c1), K. split_and!; [|done|split; done].
  destruct Hor as [-> | ->]; unfold run_session_after_v3_handshake; by erewrite st_bind_step by exact Ht.
Qed.

(** What the server answers an OPEN that asks for a status. *)
Definition refusal (host : str) (port : Z) (e : err) : str := bs "connect " ++ host ++ bs ":" ++ show_dec port ++ bs ": " ++ bs e.
Definition open_answer (host : str) (port : Z) : result bytes :=
  match connect host port with
  | Ok _ => Ok encode_v3_open_ok
  | Err e => encode_v3_open_err (refusal host port e)
  | Panic => Panic
  end.

(** A TCP channel: the target is dialled, and the status goes out. *)
Lemma tcp_served secret dom tok cr noise host port inner sent k sni hh answer K' status c :
  accepts secret dom tok noise sent -> client_opened aead b3 ack_rand secret dom tok cr noise inner sent k ->
  classify_v3_first_channel inner = Ok (TcpOpen host port OPEN_FLAG_STATUS) -> validate_open_host host = Ok tt ->
  open_answer host port = Ok answer ->
  status_frame aead pad_rng seal_rng cfg (session_keys b3 ack_rand secret dom cr cfg.(decoy)) answer = (K', Ok status) ->
  c.(peer).(inbox) = Some <$> sent -> (1 < c.(peer).(sends_left))%nat ->
  exists c', upgraded sni hh c = (c', Ok (if is_ok (connect host port) then Bridge host port K' else Refused host port K')) /\
    after c [] [Binary (server_ack b3 ack_rand ack_pad secret dom cr); Binary status] c'.
Proof using.
  intros Ha Hco Hkind Hv Hans Hst Hin Hs. destruct (handshake_done secret dom tok cr noise inner sent k sni hh c Ha Hco Hin ltac:(lia))
    as (c1 & K & chan & -> & HK & (Hi1 & Ho1 & Hl1) & Hop & _).
  pose proof (channel_taken K chan inner _ c1 Hop Hkind Hi1 Hv) as Ht. rewrite <- HK in Hst. cbn [length] in Hl1.
  destruct (ws_send_sent (Binary status) "send OPEN_OK v3" (set_inbox [] (peer c1)) ltac:(cbn [set_inbox sends_left]; lia)) as (p1 & H1 & Hi & Ho & Hl).
  destruct (ws_send_sent (Binary status) "ws send" (set_inbox [] (peer c1)) ltac:(cbn [set_inbox sends_left]; lia)) as (p2 & H2 & Hi2 & Ho2 & Hl2).
  cbn [set_inbox outbox sends_left inbox] in *. unfold run_session_after_v3_handshake. erewrite st_bind_step by exact Ht.
  unfold open_answer in Hans. rewrite bool_decide_true by done. destruct (connect host port) as [[]|e|]; [|cbn [is_ok]|done].
  - injection Hans as <-. rewrite Hst. erewrite st_bind_step by reflexivity.
    erewrite st_bind_step by (unfold on_peer; cbn [peer set_peer]; rewrite H1; reflexivity). eexists. split; [reflexivity|].
    unfold after. cbn [peer set_peer length]. rewrite Hi, Ho, Hl, Ho1, Hl1, <- app_assoc. split_and!; [done|done|lia].
  - fold (refusal host port e). rewrite Hans, Hst. unfold on_peer. cbn [peer set_peer]. rewrite H2. eexists. split; [reflexivity|].
    unfold after. cbn [peer set_peer length]. rewrite Hi2, Ho2, Hl2, Ho1, Hl1, <- app_assoc. split_and!; [done|done|lia].
Qed.
End Server.

(** ** A TCP channel and its status *)

Section Open.
Context (aead : Aead) (b3 : Blake3) (ack_rand ack_pad pad_rng seal_rng : Rng).

Lemma tcp_open_Ok d dial cfg secret rest p p1 k pad rng over ctx open p2 k2 ad :
  let dom := effective_proto_domain cfg in
  cfg.(ClientConnect.psk) = Some secret -> is_u8 cfg.(ClientConnect.decoy_max) -> is_u8 cfg.(max_pad) ->
  p.(inbox) = Some (Binary (server_ack b3 ack_rand ack_pad secret dom (client_random d))) :: rest -> p.(outbox) = [] ->
  one_try_wss_session aead b3 d dial cfg p = (p1, Ok k) ->
  send_control aead pad rng cfg.(max_pad) cfg.(pad_mode) (Some cfg.(max_ws_binary)) over ctx open k fresh_pad p1 = (p2, Ok (k2, ad)) ->
  client_opened aead b3 ack_rand secret dom cfg.(ClientConnect.token) (client_random d)
    (client_noise (junk_upper_bound cfg.(max_ws_binary)) d cfg.(early_ws_frames) cfg.(ClientConnect.junk_frames)) open p2.(outbox) k2 /\
  p2.(inbox) = rest.
Proof using.
  intros dom Hpsk Hd Hm Hin Hout H1 Hs. eapply one_try_Ok in H1 as (auth & Hcs & Ho1 & Hi1 & Hdec); [|done..].
  pose proof (cs_keys _ _ _ _ _ _ _ _ _ _ Hcs 0) as Hk1.
  eapply send_control_Ok with (K := session_keys b3 ack_rand secret dom (client_random d) 0) in Hs as (chan & Ho2 & Hi2 & Hop & Hk & _);
    [|by rewrite Hdec|done|by symmetry].
  split; [|congruence]. exists (build_hello_v3 d.(d_hello) d.(d_hello_pad)).2, auth, chan.
  split_and!; [|rewrite Ho2, Ho1, Hout, !fmap_app, <- !app_assoc; done|by intros decoy; exact Hop].
  destruct Hcs as [H1 H2 H3]. split; [done|done|]. intros decoy. by etrans; [apply H3|].
Qed.

(** The status record, opened by the client. *)
Lemma status_opened cfg K answer K' status k :
  is_u8 K.(decoy_max) -> is_u8 cfg.(sv_pad) -> same_keys K k ->
  status_frame aead pad_rng seal_rng cfg K answer = (K', Ok status) ->
  exists raw, open_server_to_client aead k status = Ok raw /\ read_padded_frame_into raw = Ok answer.
Proof using.
  intros Hd Hp Hk. unfold status_frame.
  destruct (write_padded_frame_with_mode_state _ _ _ _ _) as [[w ad]| |] eqn:Hw; [|done..].
  apply write_padded_Ok in Hw as (pd & -> & Hpd & Hlen); [|done]. intros Hs.
  destruct (seal_s2c_ok _ _ _ _ _ _ _ Hd Hk Hs) as [Ho _ _ _ _]. exists (layout pd answer). split; [exact Ho|].
  apply read_into_layout; unfold is_u8 in *; lia.
Qed.

(** What the client makes of it. *)
Lemma status_told k p status rest raw answer :
  p.(inbox) = Some (Binary status) :: rest -> open_server_to_client aead k status = Ok raw -> read_padded_frame_into raw = Ok answer ->
  status_within_wait aead k p =
    (w ← lift (classify_open_wait_inner answer);
     match w with
     | OpenOk => mret []
     | OpenErr reason => throw ("remote OPEN failed: " +:+ text reason)%string
     | OpenPayload b => mret [OpenedPayload b]
     end) (set_inbox rest p).
Proof using.
  intros Hin Ho Hr. unfold status_within_wait, wait_open_status_or_payload. rewrite Hin. cbn [open_status_loop].
  rewrite Ho. erewrite st_bind_step by reflexivity. erewrite st_bind_step by (unfold lift; rewrite Hr; reflexivity).
  unfold classify_open_wait_inner. destruct (is_v3_open_ok answer); [reflexivity|].
  unfold attempt. destruct (decode_v3_open_err answer) as [reason|e|]; reflexivity.
Qed.

Lemma answer_classified reason inner :
  is_str reason -> encode_v3_open_err reason = Ok inner -> classify_open_wait_inner inner = Ok (OpenErr reason).
Proof using.
  intros Hs He. unfold classify_open_wait_inner.
  assert (is_v3_open_ok inner = false) as ->.
  { unfold encode_v3_open_err in He. case_decide; [done|]. injection He as <-. done. }
  by rewrite (codec_roundtrip (Codec := canonical_is_codec (CanonicalCodec := v3_open_err_codec)) reason inner Hs He).
Qed.
End Open.

(** ** Noise behind REALITY *)

(** The operation only adds to what was sent. *)
Definition grows {A} (m : ST Peer err A) : Prop := forall p, exists l, (m p).1.(outbox) = p.(outbox) ++ l.

Lemma grows_bind {A B} (m : ST Peer err A) (k : A -> ST Peer err B) : grows m -> (forall a, grows (k a)) -> grows (m ≫= k).
Proof.
  intros Hm Hk p. unfold mbind, st_bind. destruct (Hm p) as [l Hl]. destruct (m p) as [p1 [a|e|]]; [|by exists l..].
  destruct (Hk a p1) as [l2 Hl2]. exists (l ++ l2). cbn [fst] in Hl. by rewrite Hl2, Hl, app_assoc.
Qed.
Lemma grows_pure {A} (r : result A) : grows (lift r).
Proof. intros p. exists []. by rewrite app_nil_r. Qed.
Lemma grows_send m ctx : grows (ws_send m ctx).
Proof. intros p. unfold ws_send. destruct (sends_left p); [exists []; by rewrite app_nil_r|by exists [m]]. Qed.
Lemma grows_noise cap hi draw i n : grows (send_noise cap hi draw i n).
Proof.
  revert i. induction n as [|n IH]; intros i; cbn [send_noise]; [apply (grows_pure (Ok tt))|].
  match goal with |- context [if ?b then _ else _] => destruct b end; [apply (grows_pure (Err _))|].
  apply grows_bind; [apply grows_send|done].
Qed.
Lemma grows_control aead pad rng m mode cap over ctx inner k ad : grows (send_control aead pad rng m mode cap over ctx inner k ad).
Proof.
  apply grows_bind; [apply grows_pure|]. intros [w ad']. destruct (seal_client_to_server _ _ _ _) as [k1 r].
  apply grows_bind; [apply grows_pure|]. intros blob. match goal with |- context [if ?b then _ else _] => destruct b end; [apply (grows_pure (Err _))|].
  apply grows_bind; [apply grows_send|]. intros []. apply (grows_pure (Ok _)).
Qed.
Lemma grows_ack {A} eof closed (body : bytes -> ST Peer err A) : (forall b, grows (body b)) -> grows (await_ack eof closed body).
Proof.
  intros Hb. assert (forall inc, grows (ack_loop eof closed body inc)) as Hl; [|intros p; apply Hl].
  induction inc as [|[m|] inc IH]; intros p; cbn [ack_loop]; [exists []; by rewrite app_nil_r| |exists []; by rewrite app_nil_r].
  destruct m as [b|t|d|d|]; [apply (Hb b (set_inbox inc p))|apply IH| |apply IH|exists []; by rewrite app_nil_r].
  destruct (grows_send (Pong d) "pong" p) as [l Hl]. destruct (ws_send (Pong d) "pong" p) as [p1 [[]|e|]]; [|by exists l..].
  destruct (IH p1) as [l2 Hl2]. exists (l ++ l2). cbn [fst] in Hl. by rewrite Hl2, Hl, app_assoc.
Qed.

(** What the UDP mux client sends right after the REALITY exchange, when noise is configured, is a
    noise frame; the server takes the first frame after the exchange for the mux opening or the
    HELLO and refuses anything else. *)
Lemma reality_noise_refused x aead b3 `{mo : !MapOrder} parse_users hash clock wall1 wall2 ack_rand ack_pad pad_rng seal_rng peer_ip
    connect cfg d ucfg secret pk p p1 key rc sni host c c1 tok rest :
  3 <= ucfg.(u_proto) -> ucfg.(u_psk) = Some secret -> ucfg.(u_reality_public_key) = Some pk -> 0 < ucfg.(u_early_ws_frames) ->
  reality_client_exchange_verify x b3 pk (default d.(d_short_id) ucfg.(u_reality_short_id)) ucfg.(u_token) d.(d_now) d.(d_nonce) d.(d_ephemeral) p
    = (p1, Ok key) -> (0 < p1.(sends_left))%nat ->
  let noise := fill_bytes (d.(d_noise) 0%nat) (gen_range (d.(d_noise) 0%nat) 32 (junk_upper_bound ucfg.(u_max_ws_binary))) in
  (exists more, (connect_udp_mux_ws x aead b3 d (Ok tt) ucfg p).1.(outbox) = p1.(outbox) ++ Binary noise :: more) /\
  (cfg.(reality) = Some rc -> trim cfg.(proto_domain) <> [] ->
   reality_auth x b3 parse_users hash clock wall1 wall2 peer_ip cfg rc sni host c = (c1, Ok tok) ->
   c1.(peer).(inbox) = Some (Binary noise) :: rest -> head noise <> Some V3_HELLO_TAG ->
   (handle_upgraded x aead b3 parse_users hash clock wall1 wall2 ack_rand ack_pad pad_rng seal_rng peer_ip connect cfg sni host c).2
     = Err "after REALITY: expected mux open or v3 HELLO"%string).
Proof.
  intros Hp Hpsk Hpk Hn Hex Hs noise. split.
  - unfold connect_udp_mux_ws. rewrite decide_False by lia. rewrite Hpsk, Hpk. erewrite st_bind_step by reflexivity.
    erewrite st_bind_step by exact Hex. unfold udp_send_noise_binaries.
    destruct (Z.to_nat (u_early_ws_frames ucfg)) as [|n] eqn:He; [lia|]. cbn [send_noise].
    match goal with |- context [(?a ≫= ?k) p1] => set (cont := k) end.
    assert (forall a, grows (cont a)) as Hcont.
    { intros a. unfold cont. apply grows_bind; [apply grows_noise|]. intros _.
      destruct (build_hello_v3 _ _) as [cr hello]. apply grows_bind; [apply grows_send|]. intros _. apply grows_ack. intros b.
      apply grows_bind; [apply grows_pure|]. intros s. apply grows_bind; [apply grows_pure|]. intros i.
      apply grows_bind; [apply grows_control|]. intros [k1 ad1]. apply grows_bind; [apply grows_control|]. intros [k2 ad2]. apply (grows_pure (Ok k2)). }
    destruct (ws_send_sent (Binary noise) "ws send" p1 Hs) as (q & Hq & _ & Hqo & _).
    destruct (grows_bind (send_noise None (junk_upper_bound (u_max_ws_binary ucfg)) (d_noise d) 1 n) cont (grows_noise _ _ _ _ _) Hcont q) as [more Hm].
    exists more. transitivity (outbox q ++ more); [|by rewrite Hqo, <- app_assoc]. rewrite <- Hm.
    unfold mbind at 1, st_bind at 1. cbv iota zeta. fold noise. by rewrite (st_bind_step (ws_send (Binary noise) "ws send") _ p1 q tt Hq).
  - intros Hrc Hdom Hauth Hin Hhead. unfold handle_upgraded. rewrite Hrc. erewrite st_bind_step by exact Hauth.
    rewrite decide_False by done.
    assert (len noise = gen_range (d_noise d 0) 32 (junk_upper_bound (u_max_ws_binary ucfg))) as Hlen.
    { apply fill_bytes_len. pose proof (gen_range_in (d_noise d 0) 32 (junk_upper_bound (u_max_ws_binary ucfg))) as Hg.
      unfold junk_upper_bound in *. lia. }
    erewrite st_bind_step.
    2: { unfold with_setup_timeout, with_timeout, read_next_binary_after_reality, messages. rewrite Hin. reflexivity. }
    destruct (is_v3_mux_open noise) eqn:Hm.
    + unfold is_v3_mux_open, encode_v3_mux_open in Hm. apply bool_decide_eq_true in Hm. rewrite Hm, len_1 in Hlen.
      pose proof (gen_range_in (d_noise d 0) 32 (junk_upper_bound (u_max_ws_binary ucfg))) as Hg. unfold junk_upper_bound in *. lia.
    + rewrite bool_decide_false by (intros [_ ?]; done). done.
Qed.

(** ** Properties *)

(** C4: what the client opens is what the server serves: for the TCP mux and the UDP mux over the PSK
    handshake, with a server that has one token (no registry) and no REALITY and is set up with the
    client's secret, domain and token, and for client noise within the server's budgets of which no
    frame happens to read as a HELLO (the server would take it for the HELLO): when the client
    considers itself connected after the server's ACK, the server, given exactly the client's messages,
    answers with that ACK and serves the mux the client asked for, and both ends hold the same keys. *)
Theorem muxes_connect x aead b3 `{mo : !MapOrder} parse_users hash clock wall1 wall2 ack_rand ack_pad pad_rng seal_rng peer_ip
    connect cfg secret d dial p p' sni host c :
  p.(outbox) = [] -> c.(peer).(outbox) = [] -> c.(peer).(inbox) = Some <$> p'.(outbox) -> (0 < c.(peer).(sends_left))%nat ->
  (forall ccfg k, ccfg.(reality_target) = None -> ccfg.(ClientConnect.psk) = Some secret ->
     is_u8 ccfg.(ClientConnect.decoy_max) -> is_u8 ccfg.(max_pad) ->
     p.(inbox) = [Some (Binary (server_ack b3 ack_rand ack_pad secret (effective_proto_domain ccfg) (client_random d)))] ->
     accepts cfg secret (effective_proto_domain ccfg) ccfg.(ClientConnect.token)
       (client_noise (junk_upper_bound ccfg.(max_ws_binary)) d ccfg.(early_ws_frames) ccfg.(ClientConnect.junk_frames)) p'.(outbox) ->
     prepare_mux_connection x aead b3 d dial ccfg p = (p', Ok k) ->
     exists k' c' K, k = Some k' /\ same_keys K k' /\
       handle_upgraded x aead b3 parse_users hash clock wall1 wall2 ack_rand ack_pad pad_rng seal_rng peer_ip connect cfg sni host c
         = (c', Ok (TcpMux K)) /\ Some <$> c'.(peer).(outbox) = p.(inbox)) /\
  (forall ucfg k, ucfg.(u_reality_public_key) = None -> ucfg.(u_psk) = Some secret -> is_u8 ucfg.(u_decoy_max) -> is_u8 ucfg.(u_max_pad) ->
     p.(inbox) = [Some (Binary (server_ack b3 ack_rand ack_pad secret (effective_udp_proto_domain ucfg) (client_random d)))] ->
     accepts cfg secret (effective_udp_proto_domain ucfg) ucfg.(u_token)
       (client_noise (junk_upper_bound ucfg.(u_max_ws_binary)) d ucfg.(u_early_ws_frames) ucfg.(u_junk_frames)) p'.(outbox) ->
     connect_udp_mux_ws x aead b3 d dial ucfg p = (p', Ok k) ->
     exists c' K, same_keys K k /\
       handle_upgraded x aead b3 parse_users hash clock wall1 wall2 ack_rand ack_pad pad_rng seal_rng peer_ip connect cfg sni host c
         = (c', Ok (UdpRelay K)) /\ Some <$> c'.(peer).(outbox) = p.(inbox)).
Proof.
  intros Hpo Hco Hin Hs. split.
  - intros ccfg k Hr Hpsk Hd Hm Hpi Ha Hrun. eapply prepare_mux_Ok in Hrun as (k' & -> & Hop); [|done..].
    destruct (muxes_served x aead b3 parse_users hash clock wall1 wall2 ack_rand ack_pad pad_rng seal_rng peer_ip connect cfg
      _ _ _ _ _ _ Protocol.Mux _ _ sni host c Ha Hop eq_refl ltac:(by right) Hin Hs) as (c' & K & Hrun & Hk & _ & Ho & _).
    exists k', c', K. split_and!; [done|done|exact Hrun|]. by rewrite Ho, Hco, Hpi.
  - intros ucfg k Hr Hpsk Hd Hm Hpi Ha Hrun. eapply udp_connect_Ok in Hrun as Hop; [|done..].
    destruct (muxes_served x aead b3 parse_users hash clock wall1 wall2 ack_rand ack_pad pad_rng seal_rng peer_ip connect cfg
      _ _ _ _ _ _ Protocol.UdpMux _ _ sni host c Ha Hop eq_refl ltac:(by left) Hin Hs) as (c' & K & Hrun' & Hk & _ & Ho & _).
    exists c', K. split_and!; [done|exact Hrun'|]. by rewrite Ho, Hco, Hpi.
Qed.

(** C5: the outcome of the dial reaches the client: for a channel to a valid target over the PSK
    handshake with a server of one token and no REALITY (noise within its budgets, no frame of it
    reading as a HELLO), the server, given exactly the client's messages, dials the target and answers with
    its ACK and one status, and the client, reading these, takes the channel for open when the
    dial succeeded, and fails with the server's reason when it did not. *)
Theorem open_status_reaches_client x aead b3 `{mo : !MapOrder} parse_users hash clock wall1 wall2 ack_rand ack_pad pad_rng seal_rng peer_ip
    connect cfg secret ccfg d dial p p1 k p2 k2 ad host port open answer K' status sni hh c :
  let dom := effective_proto_domain ccfg in
  ccfg.(ClientConnect.psk) = Some secret -> is_u8 ccfg.(ClientConnect.decoy_max) -> is_u8 ccfg.(max_pad) ->
  is_u8 cfg.(decoy) -> is_u8 cfg.(sv_pad) ->
  wf_open_flags (host, port, OPEN_FLAG_STATUS) -> validate_open_host host = Ok tt ->
  (forall e, connect host port = Err e -> is_str (refusal host port e)) ->
  p.(inbox) = [Some (Binary (server_ack b3 ack_rand ack_pad secret dom (client_random d))); Some (Binary status)] -> p.(outbox) = [] ->
  one_try_wss_session aead b3 d dial ccfg p = (p1, Ok k) ->
  encode_v3_open_with_flags host port OPEN_FLAG_STATUS = Ok open ->
  send_control aead (d_pad d 1) (d_seal d 1) ccfg.(max_pad) ccfg.(pad_mode) (Some ccfg.(max_ws_binary))
    "sealed OPEN exceeds --max-ws-binary" "send OPEN v3" open k fresh_pad p1 = (p2, Ok (k2, ad)) ->
  accepts cfg secret dom ccfg.(ClientConnect.token)
    (client_noise (junk_upper_bound ccfg.(max_ws_binary)) d ccfg.(early_ws_frames) ccfg.(ClientConnect.junk_frames)) p2.(outbox) ->
  c.(peer).(inbox) = Some <$> p2.(outbox) -> c.(peer).(outbox) = [] -> (1 < c.(peer).(sends_left))%nat ->
  open_answer connect host port = Ok answer ->
  status_frame aead pad_rng seal_rng cfg (session_keys b3 ack_rand secret dom (client_random d) cfg.(decoy)) answer = (K', Ok status) ->
  (exists c', handle_upgraded x aead b3 parse_users hash clock wall1 wall2 ack_rand ack_pad pad_rng seal_rng peer_ip connect cfg sni hh c
     = (c', Ok (if is_ok (connect host port) then Bridge host port K' else Refused host port K')) /\ Some <$> c'.(peer).(outbox) = p.(inbox)) /\
  (open_on_session aead d ccfg host port k p1).2 =
     match connect host port with
     | Ok _ => Ok (k2, [])
     | Err e => Err ("remote OPEN failed: " +:+ text (refusal host port e))%string
     | Panic => Panic
     end.
Proof.
  intros dom Hpsk Hd Hm Hsd Hsp Hwf Hv Hstr Hpi Hpo H1 Henc Hsend Ha Hin Hco Hs Hans Hst.
  destruct (tcp_open_Ok aead b3 ack_rand ack_pad d dial ccfg secret _ p p1 k _ _ _ _ open p2 k2 ad Hpsk Hd Hm Hpi Hpo H1 Hsend) as [Hop Hi2].
  assert (classify_v3_first_channel open = Ok (TcpOpen host port OPEN_FLAG_STATUS)) as Hkind.
  { unfold classify_v3_first_channel. by rewrite (codec_roundtrip (Codec := v3_open_codec) (host, port, OPEN_FLAG_STATUS) open Hwf Henc). }
  split.
  - destruct (tcp_served x aead b3 parse_users hash clock wall1 wall2 ack_rand ack_pad pad_rng seal_rng peer_ip connect cfg
      _ _ _ _ _ _ _ _ _ _ sni hh answer K' status c Ha Hop Hkind Hv Hans Hst Hin Hs) as (c' & Hrun & _ & Ho & _).
    exists c'. split; [exact Hrun|]. by rewrite Ho, Hco, Hpi.
  - unfold open_on_session. erewrite st_bind_step by (unfold lift; rewrite Henc; reflexivity). erewrite st_bind_step by exact Hsend.
    assert (same_keys (session_keys b3 ack_rand secret dom (client_random d) cfg.(decoy)) k2) as Hk
      by (destruct Hop as (? & ? & ? & Hcs & _); apply Hcs).
    destruct (status_opened aead pad_rng seal_rng cfg (session_keys b3 ack_rand secret dom (client_random d) cfg.(decoy)) answer K' status k2 Hsd Hsp Hk Hst) as (raw & Ho & Hr).
    unfold mbind at 1, st_bind at 1. rewrite (status_told aead k2 p2 status [] raw answer Hi2 Ho Hr).
    unfold open_answer in Hans. destruct (connect host port) as [[]|e|]; [|rewrite (answer_classified _ _ (Hstr e eq_refl) Hans); reflexivity|done].
    by injection Hans as <-.
Qed.

(** *** Witnesses *)

Lemma muxes_connect_witness :
  exists k c' K, demo_mux_run.2 = Ok (Some k) /\ same_keys K k /\
    handle_upgraded toy_x25519 plain_aead zero_blake3 (fun _ => None) (fun t => t) (fun _ => 5) None None zero_rng zero_rng zero_rng zero_rng
      (V4 1) (fun _ _ => Ok tt) demo_scfg None None (demo_conn demo_mux_run.1.(outbox)) = (c', Ok (TcpMux K)).
Proof.
  destruct demo_mux_run as [p' r] eqn:Hrun. assert (exists k, r = Ok k) as [k ->] by (vm_compute in Hrun; injection Hrun as _ <-; eexists; reflexivity).
  assert (accepts demo_scfg (bs "psk") (effective_proto_domain demo_ccfg) (bs "secret")
    (client_noise (junk_upper_bound 4096) demo_draws 1 2) p'.(outbox)) as Ha.
  { vm_compute in Hrun. injection Hrun as <- _. split; try reflexivity.
    - vm_compute. discriminate.
    - split; [apply bs_u8s|reflexivity].
    - repeat constructor; eexists; vm_compute; reflexivity.
    - vm_compute. discriminate.
    - vm_compute. discriminate.
    - vm_compute. discriminate.
    - repeat constructor; vm_compute; discriminate. }
  destruct (muxes_connect toy_x25519 plain_aead zero_blake3 (fun _ => None) (fun t => t) (fun _ => 5) None None zero_rng zero_rng zero_rng zero_rng
    (V4 1) (fun _ _ => Ok tt) demo_scfg (bs "psk") demo_draws (Ok tt) (fresh_peer [Some (Binary demo_ack)]) p' None None (demo_conn p'.(outbox))
    eq_refl eq_refl eq_refl ltac:(vm_compute; lia)) as [H _].
  destruct (H demo_ccfg k eq_refl eq_refl ltac:(vm_compute; split; [discriminate|reflexivity]) ltac:(vm_compute; split; [discriminate|reflexivity])
    ltac:(vm_compute; reflexivity) Ha Hrun) as (k' & c' & K & -> & Hk & Hs & _).
  exists k', c', K. split; [reflexivity|]. split; [exact Hk|]. exact Hs.
Defined.

Definition refusing (_ : str) (_ : Z) : result unit := Err "refused"%string.
Definition demo_answer : bytes := match open_answer refusing (bs "example.org") 443 with Ok a => a | _ => [] end.
Definition demo_keys : SessionCrypto := session_keys zero_blake3 zero_rng (bs "psk") (bs "vk.com") (client_random demo_draws) 0.
Definition demo_status : SessionCrypto * result bytes := status_frame plain_aead zero_rng zero_rng demo_scfg demo_keys demo_answer.
Definition demo_status_bytes : bytes := match demo_status.2 with Ok b => b | _ => [] end.
Definition demo_session : Peer * result SessionCrypto :=
  one_try_wss_session plain_aead zero_blake3 demo_draws (Ok tt) demo_ccfg (fresh_peer [Some (Binary demo_ack); Some (Binary demo_status_bytes)]).
Definition demo_open : bytes := match encode_v3_open_with_flags (bs "example.org") 443 OPEN_FLAG_STATUS with Ok b => b | _ => [] end.
Definition demo_session_crypto : SessionCrypto := match demo_session.2 with Ok k => k | _ => demo_keys end.
Definition demo_opened : Peer * result (SessionCrypto * AdaptivePadState) :=
  send_control plain_aead zero_rng zero_rng 8 Random (Some 4096) "sealed OPEN exceeds --max-ws-binary" "send OPEN v3" demo_open
    demo_session_crypto fresh_pad demo_session.1.
Definition demo_opened_crypto : SessionCrypto * AdaptivePadState := match demo_opened.2 with Ok k => k | _ => (demo_keys, fresh_pad) end.

Lemma open_status_reaches_client_witness :
  (open_on_session plain_aead demo_draws demo_ccfg (bs "example.org") 443 demo_session_crypto demo_session.1).2
    = Err "remote OPEN failed: connect example.org:443: refused"%string.
Proof.
  assert (accepts demo_scfg (bs "psk") (effective_proto_domain demo_ccfg) (bs "secret")
    (client_noise (junk_upper_bound 4096) demo_draws 1 2) demo_opened.1.(outbox)) as Ha.
  { split; try reflexivity.
    - vm_compute. discriminate.
    - split; [apply bs_u8s|reflexivity].
    - vm_compute. repeat constructor; eexists; vm_compute; reflexivity.
    - vm_compute. discriminate.
    - vm_compute. discriminate.
    - vm_compute. discriminate.
    - vm_compute. repeat constructor; vm_compute; discriminate. }
  assert (forall e, refusing (bs "example.org") 443 = Err e -> is_str (refusal (bs "example.org") 443 e)) as Hstr.
  { intros e [= <-]. split; [apply (bool_decide_unpack _); vm_compute; reflexivity|vm_compute; reflexivity]. }
  assert (wf_open_flags (bs "example.org", 443, OPEN_FLAG_STATUS)) as Hwf.
  { split; [split; [apply bs_u8s|vm_compute; reflexivity]|split; vm_compute; split; first [discriminate|reflexivity]]. }
  etrans; [|vm_compute; reflexivity].
  apply (open_status_reaches_client toy_x25519 plain_aead zero_blake3 (fun _ => None) (fun t => t) (fun _ => 5) None None zero_rng zero_rng zero_rng
    zero_rng (V4 1) refusing demo_scfg (bs "psk") demo_ccfg demo_draws (Ok tt) (fresh_peer [Some (Binary demo_ack); Some (Binary demo_status_bytes)])
    demo_session.1 demo_session_crypto demo_opened.1 demo_opened_crypto.1 demo_opened_crypto.2 (bs "example.org") 443 demo_open demo_answer
    demo_status.1 demo_status_bytes None None (demo_conn demo_opened.1.(outbox))).
  all: first [exact Ha|exact Hstr|exact Hwf|reflexivity|vm_compute; lia|vm_compute; split; first [discriminate|reflexivity]].
Defined.
